(* ===== verification/_CoqProject ===== *)
-Q . S2P
Prelude.v
Utf8.v
Decimal.v
Memchr.v
Terminator.v
VectorScanner.v
Args.v
Kinds.v
Requests.v
RequestLine.v
RequestWire.v
ResponseLine.v
ResponseContent.v
Capabilities.v
ResponseBody.v
Article.v
ArticleHeaders.v
ResponseFrame.v
OwnedResponse.v
ResponseReceiver.v
ReceivedResponse.v
ClientWire.v
ClientEngine.v
ClientEngineCorrect.v
ClientEngineRuns.v
ClientEngineReplies.v
ClientEngineSamples.v
Text.v
ServerDates.v
Wildmat.v
ServerResponses.v
OrderedMap.v
ArticleDates.v
ServerCommands.v
ServerParsing.v
ServerReading.v
ServerIndex.v
ServerPayload.v
ArticleStore.v
ServerStore.v
ServerSession.v
ServerArguments.v
ServerReplies.v
SessionLogic.v
FixtureSession.v
FixtureClient.v
FixtureSamples.v
Float64.v
LoadSchedule.v
LoadWorkload.v
SegmentFile.v
LoadReader.v
LoadSession.v
LoadRuns.v
FixtureLoad.v
LoadSamples.v
Words.v
FetchCommand.v
SessionScript.v
SessionRoundtrip.v
LoadConfig.v
LoadProcesses.v
LoadIdentity.v
ClientMethods.v
ClientAsks.v
ClientSound.v
Format.v
ProfileScripts.v
PerfScript.v
Flamegraph.v
Json.v
Manifest.v
ManifestReads.v
ServerProcess.v
BufferedRequests.v
BufferedAgrees.v
BufferPool.v
PendingBound.v
ClientProgram.v
IndexedSession.v
