(* ===== verification/Prelude.v ===== *)
(** * nntpbench: a verification library

    nntpbench ([src/src/]) is an NNTP (RFC 3977) client library, a load
    generator and a fixture server.  This development models all three from the
    bytes of the wire to the command line: the protocol core every request and
    response passes through, the pipelined client connection, the server's
    sessions over fixture articles or an article store, and the load generator
    with its processes, and proves the theorems that make them correct.

    ** The program's parts and the files that model them

    Foundations.
    - [Prelude] (this file): bytes, checked [u8]/[u64] arithmetic, [Result],
      slices and searches of the standard library, the [wire] hint database and
      the tactic [split_ands].
    - [Utf8]: [std::str::from_utf8].  [Decimal]: [str::parse::<u64>] on digits
      and decimal printing.  [Text], [Words]: [trim], [split_once] and the
      splitting at white space.  [OrderedMap]: [BTreeMap], sorting and binary
      search.  [Float64]: [f64] over the IEEE 754 values of SpecFloat and the
      bounds of its rounding.  [Format]: [format!].  [Json]: the JSON writers
      of the source.
    - [Memchr]: the interface of the third-party crate memchr ([Memchr], with
      its documented behaviour [MemchrSpec]) and a concrete instance.

    Framing ([src/src/terminator.rs], [src/src/terminator/vector_scanner.rs]).
    - [Terminator]: strict CRLF lines, the rolling four-byte tail, the empty
      body matcher, [MultilineFramer::push] ([framer_push]), one-shot block
      search ([blocks_next]) and payload line normalisation.  [TerminatorFinder]
      is what the framer asks of the searcher the build selects.
    - [VectorScanner]: the searcher of each target: AVX2 ([find_avx2], with
      [movemask], the folded mask and its rotation bit by bit), the OR filter
      and the equality lanes; each is a [TerminatorFinder].

    Protocol vocabulary ([src/src/protocol.rs]).
    - [Args]: the validated argument types.  [Kinds]: request kinds, status
      codes, the static response table, framing and pipelining rules.
    - [Requests]: the request type, its constructors and its wire writers.
    - [RequestLine]: the command-line parser and classifier.
    - [RequestWire]: what the writers promise to the parser and the framer.

    Responses ([src/src/protocol.rs], [src/src/protocol/article.rs]).
    - [ResponseLine]: status-line validators and [ResponseInitial::parse]
      ([initial_parse]).
    - [ResponseContent], [Capabilities], [ResponseBody]: the validators of
      every multiline body, the capability list, and their dispatch.
    - [Article]: article layouts, header and body validation, the typestates
      [FramedState] and [ValidatedState], header access, unfolding, unstuffing
      and the compatibility parser.  [ArticleHeaders]: what these byte loops
      mean on lines, and the soundness of layouts.
    - [ResponseFrame]: [ResponseFrame::parse] ([frame_parse]) and
      [Article::parse] ([article_parse]).

    Receiving ([src/src/protocol/response_receiver.rs]).
    - [OwnedResponse]: [OwnedResponse], [OwnedArticle], their transitions, and
      the client's errors.
    - [ResponseReceiver]: [StreamingResponseDecoder], [ResponseDecoder],
      [BufferedResponseReceiver] ([streaming_push], [extract_framed],
      [receive]) and the synchronous chunk feeder.
    - [ReceivedResponse]: the agreement of the receiver with the frame parser.

    The client ([src/src/client.rs]).
    - [ClientWire]: the asynchronous writers over an [AsyncWrite] transport
      ([write_request_wire], [write_all_vectored], [write_requests_buffered]).
    - [ClientEngine]: the connection as a transition system: callers under the
      send barrier ([enqueue_request], [send_request_with_barrier]), the writer
      and reader tasks ([run_writer_task], [run_reader_task]), the pipeline gate,
      the capability list, poisoning and abort.  One step runs from one await
      point to the next; [step] interleaves them.
    - [ClientEngineCorrect]: the abstract [Ledger] of requests the engine
      refines, the invariants of the two tasks, the termination measure.
    - [ClientEngineRuns], [ClientEngineReplies]: what these give for whole runs;
      [ClientEngineSamples]: a concrete run and the theorems at its states.
    - [ClientMethods]: every method of [ClientConnection] and of [Client], in
      the Modules of these names, over the class [Connection], which is how a
      caller sees the engine: it queues a call and gets its reply.
      [ClientAsks]: the methods as data; [ClientSound]: what they promise.

    The server ([src/src/lib.rs], [src/src/article_store.rs], [src/src/payload.rs]).
    - [ServerCommands]: from a buffered reader to batches of parsed commands
      ([read_command_batch], [parse_command_line], transfer bodies).
      [ServerParsing], [ServerReading], [ServerArguments]: the commands read
      from any input ([commands_read]), each with its own line, and that whole
      lines are read once and in order.
    - [ServerDates], [Wildmat], [ServerResponses]: the calendar, the pattern
      matcher, the fixture tables.  [ServerPayload]: generated articles.
    - [ArticleDates], [ServerIndex]: the index over an article directory and
      the state of a session.  [ArticleStore], [ServerStore]: the files of the
      store and the responses made of them.
    - [ServerSession]: [PendingWrite], [handle_command] with every handler, the
      batched ARTICLE path, [serve_session].  [SessionLogic]: weakest
      preconditions for its monad.
    - [PendingBound]: the bytes kept back stay in their buffer.  [BufferPool]:
      the pools these buffers come from, as places of a shared store.
    - [IndexedSession]: the index that is built, the current article of a
      session, and the walk through a stored group.
    - [ServerProcess]: the accept loop with its permits and session tasks, the
      shared counters and the periodic report.
    - [ServerReplies], [FixtureSession], [FixtureClient]: the replies of a
      server without a store, and the client that reads them;
      [FixtureSamples]: sessions run, with and without one.
    - [BufferedRequests]: the server without a connection
      ([process_request_to_buffer]).  [BufferedAgrees]: that it answers as a
      session does, and where it does not.

    The load generator ([src/src/lib.rs]).
    - [LoadSchedule]: the latency histogram and the offered load.
      [LoadWorkload], [SegmentFile]: what a connection asks for.
    - [LoadReader]: [LoadResponseReader].  [LoadSession]: one connection
      ([LoadSession::run]).  [LoadRuns], [FixtureLoad]: its runs against any
      answering server and against the server of this repository.
      [LoadSamples]: sessions run.
    - [LoadConfig]: [LoadConfig::from_args], the sessions of a process, the
      merged outcomes and [workload_identity].  [LoadProcesses],
      [LoadIdentity]: what they promise.
    - [Manifest]: the counters of a snapshot, the cost of the process and the
      lines and manifests that are printed.  [ManifestReads]: a reader of JSON
      gives back what went in.

    The fetch command ([src/src/lib.rs], [src/src/main.rs]).
    - [FetchCommand]: the arguments and the request or transfer they become.
    - [SessionScript], [SessionRoundtrip]: session scripts and their calls.
    - [ClientProgram]: sockets and their options, connecting, what is sent and
      printed, the error of the program ([run_fetch]), the end of a load, the
      choice of the runtime; and what the program promises.

    The profile scripts ([src/scripts/]).
    - [ProfileScripts]: printing and the ways a program ends ([Run]),
      [str::parse::<f64>], maps in the order the library walks them
      ([HashOrder]), lower case ([Lowercase]), stable sorting, and counting.
    - [PerfScript]: the reader of [perf script] output and its reports.
      [Flamegraph]: the reader of flame graphs and its commands.

    ** How the parts interact

    The receiver feeds each delivery to the streaming decoder, which calls
    [initial_parse] on every prefix of the status line and [framer_push] on
    the rest; a complete frame is cut off the pending bytes and becomes an
    owned response, whose content the validators of [ResponseBody] check and
    whose article the typestates of [Article] validate on request.  The
    whole-frame parser reaches the same verdict from the complete bytes.  Both
    are held to one specification, [response_boundary] in [ResponseFrame],
    which says where a response ends, and [outcome] in [ResponseReceiver],
    which says what a request must receive from an input.

    The client's methods, the fetch command and the session scripts make calls
    ([Call] in [ClientEngine]) on a connection; the engine writes their requests
    with [ClientWire] and hands every caller the response the receiver cut for
    it.  The server parses lines with the same [RequestLine] and writes through
    the same [AsyncWrite] interface; [FixtureClient] and [FixtureLoad] connect
    its output to the client's receiver and to the load generator's reader.

    ** What the theorems show

    - Framing: the framer agrees with the one-shot search under every
      fragmentation, on every target; blocks partition their input.
    - Receiving: [receive] refines [outcome] for every fragmentation and keeps
      the following bytes; the receiver and the frame parser accept the same
      responses and show the same content and article.
    - Frames and articles: a frame is cut exactly; a layout covers its content
      exactly; headers and bodies are accepted exactly when their lines satisfy
      the grammar, and are shown unfolded and unstuffed.
    - Requests: a request writes one safe command line and a safe block, and
      the command-line parser inverts the writer.
    - The connection: the writers deliver exactly the bytes of [write_wire_to]
      under short writes; every queued request is answered exactly once within a
      bounded number of steps under every schedule, and with the response of its
      own exchange; exclusive requests are alone; the capability list is held
      while it is needed; nothing follows QUIT.  Every method sends one valid
      request of its kind or refuses its arguments with nothing sent.
    - The server: the commands of whole lines are read in order in any
      deliveries; on any input, a session without a store answers every command
      it reads with exactly one whole response, and the client's receiver takes
      a session that ended well apart into these; the paths of the store are
      private to their articles; dates and wildmats match their specifications.
      The index of a directory is that of its articles, the current article of a session is always one of the selected group, and NEXT
      and LAST walk it.  What a session keeps back fits its buffer, and no buffer
      of a pool is in two hands; the accept loop never serves more sessions than
      it has permits, and its report never underflows.  Requests answered into a
      buffer are answered as in a session, the listed ones apart.
    - The load generator: the reader meets its specification for every
      fragmentation; while nothing times out or fails, a session asks for its
      share in order and counts exactly what it reads, and against the fixture
      server both ends come to their end and count the same; the
      processes of a disjoint load ask for every article once; percentiles are
      order statistics; two workloads have one identity exactly when they ask
      for the same work.
    - The fetch command: it sends what its command line asks or nothing with
      the error that says why; scripts are read back as the requests and the
      transfers of files they hold;
      the program opens no socket for what it refuses, and prints the responses
      to the calls it was asked for when all of them have come, or nothing.
    - The profile scripts: a log is read back as its entries that have a stack and
      a title as its entry; a breakdown counts every sample once whatever order
      its map is walked in, and the halves of the timeline are all samples; a
      graph does not differ from itself; both scripts have the same categories.

    ** Conventions

    A [u8] is a [Z] (theorems that need the range say [is_u8]); a byte slice is
    a list of them; a [u64] is a [Z] with its checked or wrapping operations
    written out; a [usize] that is a length or an offset is a [nat], as the
    input held in memory bounds it; an [f64] is a value of SpecFloat with the
    rounding of the standard.  Borrowed, owned and copy-on-write strings are
    their bytes.  A slice expression the code guards is [slice]; an [expect]
    that can be reached is an [option] or a panic of the session monad.  Loops
    over the input are structural or carry fuel: the length of the remaining
    input (each round consumes at least one byte), the number of blocks, or one
    more than the deliveries left; the lemmas on each loop take the fuel its
    caller supplies, so none of the theorems speaks of exhausted fuel.  A reader
    is its unread bytes and the list of its deliveries, ended by the end of the
    stream or an error; a writer is an instance of [AsyncWrite], whose contract
    is [AsyncWriteSpec].  A load session takes timers, the clock and the other
    sessions from a [World].  Files, directories, yEnc and MD5 are parameters;
    a path is its bytes, shown with replacement characters where they are no
    text ([to_string_lossy]).
    A map walked in no order of its own is walked in the order of [HashOrder].
    Where the code has the same helper twice ([lib.rs] repeats some of
    [protocol.rs]) the model has it once.

    ** What is not modelled

    Third-party code (memchr, bytes, tokio, clap, yenc, md5) beyond the
    interfaces above; the growth of buffers other than the pooled ones; the
    options of the listening socket and of accepted ones; dropping a connection
    handle; the line a load prints before it starts; the [bench_] functions,
    which only the benchmarks call, and the benchmarks; the clap declarations of
    [src/src/main.rs]. *)
From Stdlib Require Export ZArith Lia Bool.
From Stdlib Require Import Ascii String.
From stdpp Require Export base tactics option list numbers.
Export String.StringSyntax.

(** ** Bytes *)

(** A [u8] is its value as a [Z]; a byte slice is a list of them.  [u8] is
    the range check that theorems about raw input state when they need it. *)
Abbreviation bytes := (list Z).

Definition is_u8 (b : Z) : Prop := (0 <= b < 256)%Z.

(** The bytes of an ASCII literal of the source, as in [b"ARTICLE"]. *)
Definition lit (s : string) : bytes :=
  List.map (fun c => Z.of_N (N_of_ascii c)) (list_ascii_of_string s).

(** The escapes of a byte-string literal of the source. *)
Fixpoint unescape (l : bytes) : bytes :=
  match l with
  | 92%Z :: 114%Z :: rest => 13%Z :: unescape rest
  | 92%Z :: 110%Z :: rest => 10%Z :: unescape rest
  | 92%Z :: 116%Z :: rest => 9%Z :: unescape rest
  | b :: rest => b :: unescape rest
  | [] => []
  end.

Definition bstr (s : string) : bytes := unescape (lit s).

Definition HT : Z := 9.
Definition LF : Z := 10.
Definition CR : Z := 13.
Definition SP : Z := 32.
Definition DOT : Z := 46.

(** ** Integers of a fixed width *)

Definition u64_max : Z := 18446744073709551615.

Definition u8_wrapping_sub (a b : Z) : Z := ((a - b) mod 256)%Z.
Definition u8_checked_sub (a b : Z) : option Z :=
  if (a <? b)%Z then None else Some (a - b)%Z.
Definition u64_checked_add (a b : Z) : option Z :=
  if (u64_max <? a + b)%Z then None else Some (a + b)%Z.
Definition u64_checked_sub (a b : Z) : option Z :=
  if (a <? b)%Z then None else Some (a - b)%Z.
Definition u64_checked_mul (a b : Z) : option Z :=
  if (u64_max <? a * b)%Z then None else Some (a * b)%Z.

(** [lo..=hi] patterns. *)
Definition in_range (lo hi b : Z) : bool := ((lo <=? b) && (b <=? hi))%Z.

(** ** Results *)

Inductive result (T E : Type) : Type :=
| Ok (value : T)
| Err (error : E).
Arguments Ok {T E} value.
Arguments Err {T E} error.

Definition is_ok {T E} (r : result T E) : bool :=
  match r with Ok _ => true | Err _ => false end.

Definition map_err {T E F} (f : E -> F) (r : result T E) : result T F :=
  match r with Ok v => Ok v | Err e => Err (f e) end.

Definition ok_or {T E} (e : E) (o : option T) : result T E :=
  match o with Some v => Ok v | None => Err e end.

Declare Scope rust_scope.
Delimit Scope rust_scope with rust.

(** The [?] operator of the source, on [result]. *)
Notation "'let?' x := r 'in' k" :=
  (match r with Ok x => k | Err e => Err e end)
  (at level 10, x binder, r at level 100, k at level 200) : rust_scope.

#[global] Instance result_eq_dec {T E} `{EqDecision T, EqDecision E} :
  EqDecision (result T E).
Proof. solve_decision. Defined.

(** ** Slices *)

(** [data[a..b]].  The source panics out of range; every use below is guarded
    so that the range is inside the slice. *)
Definition slice (l : bytes) (a b : nat) : bytes := take (b - a) (drop a l).

Definition bytes_eqb (a b : bytes) : bool := bool_decide (a = b).

Fixpoint starts_with (l p : bytes) {struct p} : bool :=
  match p, l with
  | [], _ => true
  | x :: p', y :: l' => (x =? y)%Z && starts_with l' p'
  | _ :: _, [] => false
  end.

Definition ends_with (l s : bytes) : bool :=
  bytes_eqb (drop (length l - length s) l) s.

Definition strip_prefix (l p : bytes) : option bytes :=
  if starts_with l p then Some (drop (length p) l) else None.

Definition strip_suffix (l s : bytes) : option bytes :=
  if ends_with l s then Some (take (length l - length s) l) else None.

(** [data.get(start..)]. *)
Definition get_from (l : bytes) (start : nat) : option bytes :=
  if (length l <? start)%nat then None else Some (drop start l).

(** [iter().position(p)] and [iter().rposition(p)]. *)
Fixpoint position {A} (p : A -> bool) (l : list A) : option nat :=
  match l with
  | [] => None
  | x :: l' => if p x then Some 0 else S <$> position p l'
  end.

Definition rposition {A} (p : A -> bool) (l : list A) : option nat :=
  (fun i => length l - S i) <$> position p (rev l).

(** The first index at which [needle] occurs, [windows(n).position(..)]. *)
Fixpoint find_sub (needle l : bytes) : option nat :=
  if starts_with l needle then Some 0
  else match l with
       | [] => None
       | _ :: l' => S <$> find_sub needle l'
       end.

(** [slice.split(p)]: the fields between the separators, never empty. *)
Fixpoint split_on (p : Z -> bool) (l : bytes) : list bytes :=
  match l with
  | [] => [[]]
  | x :: l' =>
      if p x then [] :: split_on p l'
      else match split_on p l' with
           | f :: fs => (x :: f) :: fs
           | [] => [[x]]
           end
  end.

(** ** ASCII classes of the standard library *)

Definition is_ascii_digit (b : Z) : bool := in_range 48 57 b.
Definition is_ascii_uppercase (b : Z) : bool := in_range 65 90 b.
Definition is_ascii_lowercase (b : Z) : bool := in_range 97 122 b.
Definition is_ascii_alphabetic (b : Z) : bool :=
  is_ascii_uppercase b || is_ascii_lowercase b.
Definition is_ascii_alphanumeric (b : Z) : bool :=
  is_ascii_alphabetic b || is_ascii_digit b.
(** [u8::is_ascii_whitespace]: tab, line feed, form feed, return, space. *)
Definition is_ascii_whitespace (b : Z) : bool :=
  ((b =? 9) || (b =? 10) || (b =? 12) || (b =? 13) || (b =? 32))%Z.

(** [u8::to_ascii_uppercase] and [<[u8]>::eq_ignore_ascii_case]. *)
Definition to_ascii_uppercase (b : Z) : Z :=
  if is_ascii_lowercase b then (b - 32)%Z else b.
Definition eq_ignore_ascii_case (a b : bytes) : bool :=
  bytes_eqb (to_ascii_uppercase <$> a) (to_ascii_uppercase <$> b).

(** ** Decimal numbers *)

(** [str::parse::<u64>] restricted to digit strings: an accumulator with the
    overflow checks of the standard library. *)
Definition decimal_step (acc : option Z) (b : Z) : option Z :=
  acc ≫= fun a =>
  u64_checked_mul a 10 ≫= fun m =>
  u8_checked_sub b 48 ≫= fun d =>
  u64_checked_add m d.

Definition parse_decimal (l : bytes) : option Z :=
  fold_left decimal_step l (Some 0%Z).

(** [write!(out, "{n}")] for an unsigned integer: its decimal digits. *)
Fixpoint print_digits (fuel : nat) (n : Z) (acc : bytes) : bytes :=
  match fuel with
  | O => acc
  | S fuel' =>
      let acc' := (48 + n mod 10)%Z :: acc in
      if (n <? 10)%Z then acc' else print_digits fuel' (n / 10)%Z acc'
  end.

Definition print_decimal (n : Z) : bytes := print_digits 20 n [].

(** ** Automation

    [wire] collects what validated arguments guarantee; [split_ands] opens the
    conjunctions of the context and of the boolean tests in it. *)

Create HintDb wire.

Ltac split_ands :=
  repeat match goal with
  | H : _ /\ _ |- _ => destruct H
  | H : _ && _ = true |- _ => apply andb_true_iff in H
  | H : _ || _ = false |- _ => apply orb_false_iff in H
  | H : negb _ = true |- _ => apply negb_true_iff in H
  | H : negb _ = false |- _ => apply negb_false_iff in H
  end.

(** ** Lemmas on slices *)

Lemma bytes_eqb_spec (a b : bytes) : bytes_eqb a b = true <-> a = b.
Proof. apply bool_decide_eq_true. Qed.

Lemma starts_with_spec (l p : bytes) :
  starts_with l p = true <-> exists k, l = p ++ k.
Proof.
  revert l. induction p as [|x p IH]; intros l; simpl.
  - split; [intros _; by exists l | done].
  - destruct l as [|y l]; simpl.
    + split; [done | by intros [k ?]].
    + rewrite andb_true_iff, Z.eqb_eq, IH. split.
      * intros [-> [k ->]]. by exists k.
      * intros [k [= -> ->]]. split; [done | by exists k].
Qed.

Lemma starts_with_app (p k : bytes) : starts_with (p ++ k) p = true.
Proof. apply starts_with_spec. by exists k. Qed.

Lemma starts_with_app_same (p l q : bytes) :
  starts_with (p ++ l) (p ++ q) = starts_with l q.
Proof. induction p as [|x p IH]; simpl; [done|]. by rewrite Z.eqb_refl, IH. Qed.

Lemma starts_with_differ x y (l q : bytes) :
  x <> y -> starts_with (x :: l) (y :: q) = false.
Proof. intros H. simpl. apply not_eq_sym, Z.eqb_neq in H. by rewrite H. Qed.

Lemma starts_with_length (l p : bytes) :
  starts_with l p = true -> (length p <= length l)%nat.
Proof. intros [k ->]%starts_with_spec. rewrite length_app. lia. Qed.

Lemma starts_with_take (l p : bytes) :
  starts_with l p = true <-> take (length p) l = p.
Proof.
  rewrite starts_with_spec. split.
  - intros [k ->]. by rewrite take_app_length.
  - intros H. exists (drop (length p) l). rewrite <- H at 1. by rewrite take_drop.
Qed.

Lemma ends_with_spec (l s : bytes) :
  ends_with l s = true <-> exists k, l = k ++ s.
Proof.
  unfold ends_with. rewrite bytes_eqb_spec. split.
  - intros H. exists (take (length l - length s) l).
    rewrite <- H at 2. by rewrite take_drop.
  - intros [k ->]. rewrite length_app.
    replace (length k + length s - length s)%nat with (length k) by lia.
    apply drop_app_length.
Qed.

Lemma ends_with_app (k s : bytes) : ends_with (k ++ s) s = true.
Proof. apply ends_with_spec. by exists k. Qed.

Lemma strip_prefix_Some (l p r : bytes) :
  strip_prefix l p = Some r <-> l = p ++ r.
Proof.
  unfold strip_prefix. destruct (starts_with l p) eqn:E.
  - apply starts_with_spec in E as [k ->]. rewrite drop_app_length.
    split; [by intros [= ->] | by intros ->%app_inv_head].
  - split; [done|]. intros ->. by rewrite starts_with_app in E.
Qed.

Lemma strip_suffix_Some (l s r : bytes) :
  strip_suffix l s = Some r <-> l = r ++ s.
Proof.
  unfold strip_suffix. destruct (ends_with l s) eqn:E.
  - apply ends_with_spec in E as [k ->]. rewrite length_app.
    replace (length k + length s - length s)%nat with (length k) by lia.
    rewrite take_app_length.
    split; [by intros [= ->] | by intros ->%app_inv_tail].
  - split; [done|]. intros ->. by rewrite ends_with_app in E.
Qed.

Lemma slice_app_mid (a b c : bytes) :
  slice (a ++ b ++ c) (length a) (length a + length b) = b.
Proof.
  unfold slice. rewrite drop_app_length.
  replace (length a + length b - length a)%nat with (length b) by lia.
  apply take_app_length.
Qed.

Lemma length_slice (l : bytes) a b :
  (b <= length l)%nat -> length (slice l a b) = (b - a)%nat.
Proof. intros H. unfold slice. rewrite length_take, length_drop. lia. Qed.

(** ** Lemmas on searches *)

Lemma position_Some {A} (p : A -> bool) l i :
  position p l = Some i <->
  exists l1 x l2, l = l1 ++ x :: l2 /\ length l1 = i /\ p x = true /\
                  Forall (fun y => p y = false) l1.
Proof.
  revert i. induction l as [|y l IH]; intros i; simpl.
  - split; [done | by intros ([] & x & l2 & ? & _)].
  - destruct (p y) eqn:E.
    + split.
      * intros [= <-]. by exists [], y, l.
      * intros ([|z l1] & x & l2 & Hl & <- & Hx & Hall); simplify_eq/=; [done|].
        apply Forall_cons_1 in Hall as [? _]. congruence.
    + rewrite fmap_Some. split.
      * intros (j & (l1 & x & l2 & -> & <- & Hx & Hall)%IH & ->).
        exists (y :: l1), x, l2. repeat split; auto.
      * intros ([|z l1] & x & l2 & Hl & <- & Hx & Hall); simplify_eq/=; [congruence|].
        apply Forall_cons_1 in Hall as [? Hall].
        exists (length l1). split; [|done]. apply IH. eauto 10.
Qed.

Lemma position_None {A} (p : A -> bool) l :
  position p l = None <-> Forall (fun y => p y = false) l.
Proof.
  induction l as [|y l IH]; simpl; [by split|].
  rewrite Forall_cons_iff. destruct (p y) eqn:E.
  - split; [done | by intros [? _]].
  - rewrite fmap_None, IH. by split; [|intros []].
Qed.

Lemma position_lt {A} (p : A -> bool) l i :
  position p l = Some i -> (i < length l)%nat.
Proof.
  intros (l1 & x & l2 & -> & <- & _)%position_Some.
  rewrite length_app. simpl. lia.
Qed.

Lemma position_app_none {A} (p : A -> bool) l k :
  Forall (fun y => p y = false) l ->
  position p (l ++ k) = (fun i => (length l + i)%nat) <$> position p k.
Proof.
  induction 1 as [|x l Hx _ IH]; simpl.
  - by destruct (position p k).
  - rewrite Hx, IH. by destruct (position p k).
Qed.

Lemma position_app_here {A} (p : A -> bool) l x k :
  Forall (fun y => p y = false) l -> p x = true ->
  position p (l ++ x :: k) = Some (length l).
Proof.
  intros Hl Hx. rewrite position_app_none by done. simpl. rewrite Hx. simpl.
  f_equal. lia.
Qed.

(** [needle] occurs in [l] at [i]. *)
Definition occurs_at (needle l : bytes) (i : nat) : Prop :=
  take (length needle) (drop i l) = needle.

Lemma find_sub_Some needle l i :
  find_sub needle l = Some i <->
  occurs_at needle l i /\ forall j, (j < i)%nat -> ~ occurs_at needle l j.
Proof.
  unfold occurs_at. revert i. induction l as [|x l IH]; intros i; simpl.
  - destruct (starts_with [] needle) eqn:E.
    + apply starts_with_take in E. split.
      * intros [= <-]. split; [by rewrite drop_0 | intros; lia].
      * intros [H1 H2]. f_equal. destruct i; [done|].
        destruct (H2 0%nat); [lia | by rewrite drop_0].
    + split; [done|]. intros [H _]. rewrite drop_nil in H.
      apply starts_with_take in H. congruence.
  - destruct (starts_with (x :: l) needle) eqn:E.
    + apply starts_with_take in E. split.
      * intros [= <-]. split; [done | intros; lia].
      * intros [H1 H2]. f_equal. destruct i; [done|].
        destruct (H2 0%nat); [lia | done].
    + assert (take (length needle) (x :: l) <> needle) as Hne.
      { rewrite <- starts_with_take. congruence. }
      rewrite fmap_Some. split.
      * intros (j & [H1 H2]%IH & ->). split; [done|].
        intros [|k] Hk; [done|]. apply (H2 k). lia.
      * intros [H1 H2]. destruct i as [|i]; [done|].
        exists i. split; [|done]. apply IH. split; [done|].
        intros j Hj. apply (H2 (S j)). lia.
Qed.

Lemma find_sub_None needle l :
  find_sub needle l = None <-> forall j, ~ occurs_at needle l j.
Proof.
  split.
  - intros H j Hj. destruct (find_sub needle l) eqn:E; [done|]. clear H.
    unfold occurs_at in Hj. revert j Hj E.
    induction l as [|x l IH]; intros j Hj; simpl.
    + rewrite drop_nil in Hj. apply starts_with_take in Hj. by rewrite Hj.
    + destruct (starts_with (x :: l) needle) eqn:E; [done|].
      destruct j as [|j].
      * rewrite drop_0 in Hj. apply starts_with_take in Hj. congruence.
      * intros Hn%fmap_None. by apply (IH j).
  - intros H. destruct (find_sub needle l) eqn:E; [|done].
    apply find_sub_Some in E as [E _]. by destruct (H n).
Qed.

Lemma occurs_at_bound needle l i :
  needle <> [] -> occurs_at needle l i -> (i + length needle <= length l)%nat.
Proof.
  unfold occurs_at. intros Hne H. apply (f_equal length) in H as Hl.
  rewrite length_take, length_drop in Hl.
  assert (length needle <> 0%nat) by by destruct needle. lia.
Qed.

Lemma find_sub_bound needle l i :
  needle <> [] -> find_sub needle l = Some i ->
  (i + length needle <= length l)%nat.
Proof. intros ? [? _]%find_sub_Some. by apply occurs_at_bound. Qed.

Lemma occurs_at_drop needle l k i :
  occurs_at needle (drop k l) i <-> occurs_at needle l (k + i).
Proof. unfold occurs_at. by rewrite drop_drop. Qed.

(** A search that skips [k] positions without an occurrence. *)
Lemma find_sub_skip needle l k :
  (forall j, (j < k)%nat -> ~ occurs_at needle l j) ->
  find_sub needle l = (fun i => (k + i)%nat) <$> find_sub needle (drop k l).
Proof.
  intros Hk. destruct (find_sub needle (drop k l)) as [i|] eqn:E; simpl.
  - apply find_sub_Some in E as [E1 E2]. apply find_sub_Some. split.
    + by apply occurs_at_drop.
    + intros j Hj Ho. destruct (decide (j < k)%nat); [by apply (Hk j)|].
      apply (E2 (j - k)%nat); [lia|]. apply occurs_at_drop.
      by replace (k + (j - k))%nat with j by lia.
  - apply find_sub_None. intros j Ho. destruct (decide (j < k)%nat).
    + by apply (Hk j).
    + apply (proj1 (find_sub_None _ _) E (j - k)%nat). apply occurs_at_drop.
      by replace (k + (j - k))%nat with j by lia.
Qed.

Lemma find_sub_app needle l more i :
  needle <> [] -> find_sub needle l = Some i -> find_sub needle (l ++ more) = Some i.
Proof.
  intros Hne H. pose proof (find_sub_bound _ _ _ Hne H) as Hb.
  apply find_sub_Some in H as [H1 H2].
  assert (forall j, (j <= i)%nat -> occurs_at needle (l ++ more) j <-> occurs_at needle l j)
    as Heq.
  { intros j Hj. unfold occurs_at.
    by rewrite drop_app_le, take_app_le by (rewrite ?length_drop; lia). }
  apply find_sub_Some. split; [by apply Heq|].
  intros j Hj. rewrite Heq by lia. by apply H2.
Qed.

Lemma occurs_at_take needle l n i :
  (i + length needle <= n)%nat ->
  occurs_at needle (take n l) i <-> occurs_at needle l i.
Proof.
  intros H. unfold occurs_at.
  replace (take (length needle) (drop i (take n l)))
    with (take (length needle) (drop i l)); [done|].
  rewrite !take_drop_commute. f_equal. rewrite take_take. f_equal. lia.
Qed.

#[global] Arguments starts_with : simpl never.
#[global] Arguments ends_with : simpl never.
