(* ===== verification/Utf8.v ===== *)
(** * UTF-8 of the standard library

    [std::str::from_utf8] and [str::chars]: the decoder accepts exactly the
    well-formed byte sequences of the Unicode standard (no overlong forms, no
    surrogates, nothing above U+10FFFF) and yields their scalar values.  A
    [&str] of the source is the list of its bytes; [is_str] says they decode. *)
From S2P Require Import Prelude.

Local Open Scope Z_scope.

Definition is_continuation (b : Z) : bool := in_range 128 191 b.

(** The range allowed for the byte after the lead byte of a 3- or 4-byte form. *)
Definition second_byte_ok (b0 b1 : Z) : bool :=
  if b0 =? 224 then in_range 160 191 b1
  else if b0 =? 237 then in_range 128 159 b1
  else if b0 =? 240 then in_range 144 191 b1
  else if b0 =? 244 then in_range 128 143 b1
  else is_continuation b1.

Fixpoint from_utf8 (l : bytes) : option (list Z) :=
  match l with
  | [] => Some []
  | b0 :: l1 =>
      if in_range 0 127 b0 then cons b0 <$> from_utf8 l1
      else if in_range 194 223 b0 then
        match l1 with
        | b1 :: l2 =>
            if is_continuation b1
            then cons ((b0 - 192) * 64 + (b1 - 128)) <$> from_utf8 l2 else None
        | _ => None
        end
      else if in_range 224 239 b0 then
        match l1 with
        | b1 :: b2 :: l3 =>
            if second_byte_ok b0 b1 && is_continuation b2
            then cons ((b0 - 224) * 4096 + (b1 - 128) * 64 + (b2 - 128))
                   <$> from_utf8 l3 else None
        | _ => None
        end
      else if in_range 240 244 b0 then
        match l1 with
        | b1 :: b2 :: b3 :: l4 =>
            if second_byte_ok b0 b1 && is_continuation b2 && is_continuation b3
            then cons ((b0 - 240) * 262144 + (b1 - 128) * 4096
                       + (b2 - 128) * 64 + (b3 - 128)) <$> from_utf8 l4 else None
        | _ => None
        end
      else None
  end.

Definition is_str (l : bytes) : Prop := is_Some (from_utf8 l).

(** [value.chars()] for a [&str]. *)
Definition chars (value : bytes) : list Z := default [] (from_utf8 value).

(** [from_utf8(bytes).ok().is_some_and(f)] where [f] reads the bytes back. *)
Definition utf8_and (l : bytes) (f : bytes -> bool) : bool :=
  match from_utf8 l with Some _ => f l | None => false end.

Definition is_ascii_byte (b : Z) : Prop := 0 <= b < 128.

Lemma in_range_spec lo hi b : in_range lo hi b = true <-> lo <= b <= hi.
Proof. unfold in_range. rewrite andb_true_iff, !Z.leb_le. done. Qed.

Lemma in_range_false lo hi b : in_range lo hi b = false <-> b < lo \/ hi < b.
Proof.
  unfold in_range. rewrite andb_false_iff, !Z.leb_gt. done.
Qed.

Lemma from_utf8_ascii_app l k :
  Forall is_ascii_byte l -> from_utf8 (l ++ k) = app l <$> from_utf8 k.
Proof.
  induction 1 as [|b l Hb _ IH]; simpl; [by destruct (from_utf8 k)|].
  rewrite (proj2 (in_range_spec 0 127 b)) by (unfold is_ascii_byte in Hb; lia).
  rewrite IH. by destruct (from_utf8 k).
Qed.

Lemma from_utf8_ascii l : Forall is_ascii_byte l -> from_utf8 l = Some l.
Proof.
  intros H. rewrite <- (app_nil_r l) at 1. rewrite from_utf8_ascii_app by done.
  simpl. by rewrite app_nil_r.
Qed.

Lemma is_str_ascii l : Forall is_ascii_byte l -> is_str l.
Proof. intros H. exists l. by apply from_utf8_ascii. Qed.

Lemma utf8_and_str l f : is_str l -> utf8_and l f = f l.
Proof. unfold utf8_and. by intros [cs ->]. Qed.

Lemma utf8_and_true l f : utf8_and l f = true -> is_str l /\ f l = true.
Proof. unfold utf8_and, is_str. destruct (from_utf8 l); [eauto|done]. Qed.

(** Every byte of a well-formed sequence is a [u8]. *)
Lemma from_utf8_u8 l : is_str l -> Forall is_u8 l.
Proof.
  intros [cs H]. revert cs H.
  induction l as [l IH] using (induction_ltof1 _ (@length Z)). intros cs.
  destruct l as [|b0 l1]; [constructor|]. cbn [from_utf8].
  unfold second_byte_ok, is_continuation, is_u8 in *.
  repeat (case_match; try done);
    intros (r & Hr & _)%fmap_Some;
    repeat match goal with H : _ && _ = true |- _ => apply andb_true_iff in H as [??] end;
    repeat match goal with H : in_range _ _ _ = true |- _ => apply in_range_spec in H end;
    repeat (constructor; [lia|]); (eapply IH; [|exact Hr]; unfold ltof; simpl; lia).
Qed.

(** Scalar values: in range and never a surrogate. *)
Lemma from_utf8_scalar l cs :
  from_utf8 l = Some cs ->
  Forall (fun c => 0 <= c <= 1114111 /\ ~ (55296 <= c <= 57343)) cs.
Proof.
  revert cs. induction l as [l IH] using (induction_ltof1 _ (@length Z)). intros cs.
  destruct l as [|b0 l1]; [intros [= <-]; constructor|]. cbn [from_utf8].
  unfold second_byte_ok, is_continuation in *.
  repeat (case_match; try done);
    intros (r & Hr & ->)%fmap_Some;
    repeat match goal with H : _ && _ = true |- _ => apply andb_true_iff in H as [??] end;
    repeat match goal with H : in_range _ _ _ = true |- _ => apply in_range_spec in H end;
    repeat match goal with H : in_range _ _ _ = false |- _ => apply in_range_false in H end;
    repeat match goal with H : (_ =? _) = true |- _ => apply Z.eqb_eq in H; subst end;
    repeat match goal with H : (_ =? _) = false |- _ => apply Z.eqb_neq in H end;
    (constructor; [lia|eapply IH; [|exact Hr]; unfold ltof; simpl; lia]).
Qed.

(** The ASCII bytes of a well-formed sequence are among its scalar values. *)
Lemma from_utf8_ascii_byte l cs b :
  from_utf8 l = Some cs -> In b l -> b < 128 -> In b cs.
Proof.
  revert cs. induction l as [l IH] using (induction_ltof1 _ (@length Z)). intros cs.
  destruct l as [|b0 l1]; [done|]. cbn [from_utf8].
  unfold second_byte_ok, is_continuation in *.
  repeat (case_match; try done);
    intros (r & Hr & ->)%fmap_Some;
    repeat match goal with H : _ && _ = true |- _ => apply andb_true_iff in H as [??] end;
    repeat match goal with H : in_range _ _ _ = true |- _ => apply in_range_spec in H end;
    cbn [In]; intros Hin Hb;
    repeat (destruct Hin as [->|Hin]; [try lia; by left|]);
    right; (eapply IH; [|exact Hr|exact Hin|exact Hb]; unfold ltof; simpl; lia).
Qed.

(** ** Text of bytes that may not be text *)

(** U+FFFD as it is encoded. *)
Definition REPLACEMENT : bytes := [239; 191; 189].

(** [path.display().to_string()], [OsStr::to_string_lossy]: a lead byte with the
    continuation bytes it accepts becomes one replacement character when the
    sequence breaks off, and so does a byte that leads no sequence. *)
Fixpoint to_string_lossy (l : bytes) : bytes :=
  match l with
  | [] => []
  | b0 :: l1 =>
      if in_range 0 127 b0 then b0 :: to_string_lossy l1
      else if in_range 194 223 b0 then
        match l1 with
        | b1 :: l2 =>
            if is_continuation b1 then b0 :: b1 :: to_string_lossy l2 else REPLACEMENT ++ to_string_lossy l1
        | [] => REPLACEMENT
        end
      else if in_range 224 239 b0 then
        match l1 with
        | b1 :: l2 =>
            if second_byte_ok b0 b1 then
              match l2 with
              | b2 :: l3 =>
                  if is_continuation b2 then b0 :: b1 :: b2 :: to_string_lossy l3
                  else REPLACEMENT ++ to_string_lossy l2
              | [] => REPLACEMENT
              end
            else REPLACEMENT ++ to_string_lossy l1
        | [] => REPLACEMENT
        end
      else if in_range 240 244 b0 then
        match l1 with
        | b1 :: l2 =>
            if second_byte_ok b0 b1 then
              match l2 with
              | b2 :: l3 =>
                  if is_continuation b2 then
                    match l3 with
                    | b3 :: l4 =>
                        if is_continuation b3 then b0 :: b1 :: b2 :: b3 :: to_string_lossy l4
                        else REPLACEMENT ++ to_string_lossy l3
                    | [] => REPLACEMENT
                    end
                  else REPLACEMENT ++ to_string_lossy l2
              | [] => REPLACEMENT
              end
            else REPLACEMENT ++ to_string_lossy l1
        | [] => REPLACEMENT
        end
      else REPLACEMENT ++ to_string_lossy l1
  end.

(** What is shown is always text. *)
Lemma to_string_lossy_str l : is_str (to_string_lossy l).
Proof.
  assert (forall k, is_str k -> is_str (REPLACEMENT ++ k)) as Hr.
  { intros k [cs E]. exists (65533 :: cs). unfold REPLACEMENT. cbn. by rewrite E. }
  assert (is_str REPLACEMENT) as H0 by (by eexists).
  induction l as [l IH] using (induction_ltof1 _ (@length Z)).
  assert (forall k, (length k < length l)%nat -> is_str (to_string_lossy k)) as IHk by exact IH. clear IH.
  destruct l as [|b0 l1]; [by eexists|]. cbn [to_string_lossy length] in *.
  repeat (case_match; try done); subst; cbn [length] in *; try (apply Hr, IHk; cbn [length]; lia).
  all: match goal with |- context [to_string_lossy ?k] => destruct (IHk k) as [cs E]; [cbn [length]; lia|] end.
  all: eexists; cbn [from_utf8].
  all: repeat match goal with H : in_range _ _ _ = _ |- _ => rewrite H | H : is_continuation _ = _ |- _ => rewrite H
    | H : second_byte_ok _ _ = _ |- _ => rewrite H end; cbn [andb]; by rewrite E.
Qed.

(** Text is shown as it is. *)
Lemma to_string_lossy_id l : is_str l -> to_string_lossy l = l.
Proof.
  intros [cs H]. revert cs H. induction l as [l IH] using (induction_ltof1 _ (@length Z)). intros cs.
  destruct l as [|b0 l1]; [done|]. cbn [from_utf8 to_string_lossy].
  repeat (case_match; try done); intros (r & Hr & _)%fmap_Some;
    repeat match goal with H : _ && _ = true |- _ => apply andb_true_iff in H as [??] end;
    simplify_eq; repeat f_equal; (eapply IH; [|exact Hr]; unfold ltof; cbn [length]; lia).
Qed.
