(* ===== verification/Decimal.v ===== *)
(** * Decimal numbers

    [str::parse::<u64>] on digit strings and the decimal rendering of an
    unsigned integer are inverse to each other; the parser's checked
    arithmetic rejects exactly the values above [u64::MAX]. *)
From S2P Require Import Prelude.

Local Open Scope Z_scope.

(** The number a digit string denotes, without any width. *)
Definition decimal_value (l : bytes) : Z :=
  fold_left (fun a b => a * 10 + (b - 48)) l 0.

Lemma is_ascii_digit_spec b : is_ascii_digit b = true <-> 48 <= b <= 57.
Proof. unfold is_ascii_digit, in_range. lia. Qed.

Lemma decimal_fold_mono l a :
  0 <= a -> forallb is_ascii_digit l = true ->
  a <= fold_left (fun a b => a * 10 + (b - 48)) l a.
Proof.
  revert a. induction l as [|b l IH]; intros a Ha; cbn [fold_left forallb]; [lia|].
  intros [Hb%is_ascii_digit_spec Hl]%andb_true_iff.
  specialize (IH (a * 10 + (b - 48)) ltac:(lia) Hl). lia.
Qed.

Lemma decimal_value_nonneg l : forallb is_ascii_digit l = true -> 0 <= decimal_value l.
Proof. intros H. by apply (decimal_fold_mono l 0). Qed.

Lemma decimal_step_None l : fold_left decimal_step l None = None.
Proof. induction l as [|b l IH]; [done|]. exact IH. Qed.

Lemma decimal_step_digit a b :
  0 <= a -> 48 <= b <= 57 ->
  decimal_step (Some a) b =
  if u64_max <? a * 10 + (b - 48) then None else Some (a * 10 + (b - 48)).
Proof.
  intros Ha Hb. unfold decimal_step, u64_checked_mul, u8_checked_sub, u64_checked_add. cbn.
  destruct (u64_max <? a * 10) eqn:E; cbn.
  - apply Z.ltb_lt in E. destruct (u64_max <? _) eqn:E2; [done|].
    apply Z.ltb_ge in E2. lia.
  - destruct (b <? 48) eqn:Eb; [apply Z.ltb_lt in Eb; lia|]. done.
Qed.

Lemma parse_decimal_from l a :
  0 <= a <= u64_max -> forallb is_ascii_digit l = true ->
  fold_left decimal_step l (Some a) =
  let v := fold_left (fun a b => a * 10 + (b - 48)) l a in
  if u64_max <? v then None else Some v.
Proof.
  revert a. induction l as [|b l IH]; intros a Ha; cbn [fold_left forallb].
  - intros _. cbn zeta. destruct (u64_max <? a) eqn:E; [apply Z.ltb_lt in E; lia | done].
  - intros [Hb%is_ascii_digit_spec Hl]%andb_true_iff.
    rewrite decimal_step_digit by lia.
    destruct (u64_max <? a * 10 + (b - 48)) eqn:E.
    + rewrite decimal_step_None. cbn zeta. apply Z.ltb_lt in E.
      pose proof (decimal_fold_mono l (a * 10 + (b - 48)) ltac:(lia) Hl).
      destruct (u64_max <? fold_left _ _ _) eqn:E2; [done|]. apply Z.ltb_ge in E2. lia.
    + apply Z.ltb_ge in E. apply IH; [lia | done].
Qed.

(** The checked parser is the mathematical value, cut off at [u64::MAX]. *)
Lemma parse_decimal_spec l :
  forallb is_ascii_digit l = true ->
  parse_decimal l = if u64_max <? decimal_value l then None else Some (decimal_value l).
Proof. intros H. apply (parse_decimal_from l 0); [done | exact H]. Qed.

Lemma parse_decimal_digits l v :
  forallb is_ascii_digit l = true -> parse_decimal l = Some v -> v = decimal_value l.
Proof.
  intros H. rewrite parse_decimal_spec by done.
  destruct (u64_max <? decimal_value l); [done|]. by intros [= <-].
Qed.

(** ** Printing *)

Lemma print_digits_acc fuel n acc : print_digits fuel n acc = print_digits fuel n [] ++ acc.
Proof.
  revert n acc. induction fuel as [|fuel IH]; intros n acc; cbn [print_digits]; [done|].
  destruct (n <? 10); [done|].
  rewrite IH, (IH (n / 10) [_]), <- app_assoc. done.
Qed.

Lemma print_digits_step fuel n :
  10 <= n -> print_digits (S fuel) n [] = print_digits fuel (n / 10) [] ++ [48 + n mod 10].
Proof.
  intros Hn. cbn [print_digits]. destruct (n <? 10) eqn:E; [apply Z.ltb_lt in E; lia|].
  apply print_digits_acc.
Qed.

Lemma print_digits_small fuel n : 0 <= n < 10 -> print_digits (S fuel) n [] = [48 + n].
Proof.
  intros Hn. cbn [print_digits]. destruct (n <? 10) eqn:E; [|apply Z.ltb_ge in E; lia].
  by rewrite Z.mod_small by lia.
Qed.

Lemma pow10_S fuel : 10 ^ Z.of_nat (S fuel) = 10 * 10 ^ Z.of_nat fuel.
Proof. rewrite Nat2Z.inj_succ, Z.pow_succ_r by lia. done. Qed.

(** [fuel] digits are enough for a number below [10 ^ fuel]. *)
Lemma print_digits_spec fuel n :
  0 <= n < 10 ^ Z.of_nat fuel -> (0 < fuel)%nat ->
  let l := print_digits fuel n [] in
  forallb is_ascii_digit l = true /\ decimal_value l = n /\ (1 <= length l <= fuel)%nat.
Proof.
  revert n. induction fuel as [|fuel IH]; intros n Hn Hf; [lia|]. cbn zeta.
  destruct (decide (n < 10)) as [Hs|Hs].
  - rewrite print_digits_small by lia. cbn [forallb length].
    unfold decimal_value. cbn [fold_left].
    split; [|split; lia]. rewrite andb_true_r. apply is_ascii_digit_spec. lia.
  - rewrite print_digits_step by lia. rewrite pow10_S in Hn.
    assert (0 < fuel)%nat as Hf' by (destruct fuel; [cbn in Hn; lia | lia]).
    destruct (IH (n / 10)) as (Hd & Hv & Hl); [|done|].
    { split; [apply Z.div_pos; lia|]. apply Z.div_lt_upper_bound; lia. }
    pose proof (Z.mod_pos_bound n 10 ltac:(lia)) as Hm.
    split; [|split].
    + rewrite forallb_app, Hd. cbn [forallb andb].
      rewrite andb_true_r. apply is_ascii_digit_spec. lia.
    + unfold decimal_value in *. rewrite fold_left_app. cbn [fold_left]. rewrite Hv.
      pose proof (Z.div_mod n 10 ltac:(lia)). lia.
    + rewrite length_app. cbn [length]. lia.
Qed.

Lemma print_decimal_spec n :
  0 <= n <= u64_max ->
  forallb is_ascii_digit (print_decimal n) = true
  /\ decimal_value (print_decimal n) = n
  /\ (1 <= length (print_decimal n) <= 20)%nat.
Proof.
  intros Hn. apply (print_digits_spec 20 n); [|lia].
  change (10 ^ Z.of_nat 20) with 100000000000000000000. unfold u64_max in Hn. lia.
Qed.

(** More fuel than digits changes nothing. *)
Lemma print_digits_fuel f g n :
  0 <= n < 10 ^ Z.of_nat f -> (0 < f <= g)%nat ->
  print_digits g n [] = print_digits f n [].
Proof.
  revert g n. induction f as [|f IH]; intros g n Hn Hg; [lia|].
  destruct g as [|g]; [lia|].
  destruct (decide (n < 10)).
  - by rewrite !print_digits_small by lia.
  - rewrite !print_digits_step by lia. rewrite pow10_S in Hn.
    assert (0 < f)%nat by (destruct f; [cbn in Hn; lia | lia]).
    rewrite (IH g); [done| |lia].
    split; [apply Z.div_pos; lia|]. apply Z.div_lt_upper_bound; lia.
Qed.

Lemma print_decimal_length n k :
  0 <= n < 10 ^ Z.of_nat k -> (0 < k <= 20)%nat ->
  (1 <= length (print_decimal n) <= k)%nat.
Proof.
  intros Hn Hk. unfold print_decimal. rewrite (print_digits_fuel k 20) by (done || lia).
  apply (print_digits_spec k n); [done | lia].
Qed.

Lemma parse_print_decimal n :
  0 <= n <= u64_max -> parse_decimal (print_decimal n) = Some n.
Proof.
  intros Hn. destruct (print_decimal_spec n Hn) as (Hd & Hv & _).
  rewrite parse_decimal_spec, Hv by done.
  destruct (u64_max <? n) eqn:E; [apply Z.ltb_lt in E; lia | done].
Qed.

(** ** Fixed-width fields of digits *)

Lemma decimal_value_app l b :
  decimal_value (l ++ [b]) = decimal_value l * 10 + (b - 48).
Proof. unfold decimal_value. by rewrite fold_left_app. Qed.

Lemma decimal_value_bound l :
  forallb is_ascii_digit l = true ->
  0 <= decimal_value l < 10 ^ Z.of_nat (length l).
Proof.
  induction l as [|b l IH] using rev_ind; [done|].
  rewrite forallb_app, andb_true_iff. cbn [forallb]. rewrite andb_true_r.
  intros [Hl Hb%is_ascii_digit_spec]. specialize (IH Hl).
  rewrite decimal_value_app, length_app, Nat.add_1_r, pow10_S. lia.
Qed.
