(* ===== verification/Memchr.v ===== *)
(** * The byte-search crate

    [memchr::memchr] and [memchr::memmem] come from the crate [memchr], which
    is not part of the repository.  [Memchr] is the interface the protocol
    code calls, [MemchrSpec] the documented behaviour it relies on (the first
    occurrence, or none), and [naive_memchr] an implementation that meets it:
    the concrete instance the witnesses run. *)
From S2P Require Import Prelude.

Class Memchr : Type := {
  memchr : Z -> bytes -> option nat;
  memmem_find : bytes -> bytes -> option nat;
}.

(** [memchr(needle, haystack)] is the first index holding [needle];
    [memmem::find(haystack, needle)] the first index where [needle] starts. *)
Class MemchrSpec `{!Memchr} : Prop := {
  memchr_found : forall b l i, memchr b l = Some i ->
    l !! i = Some b /\ forall j, (j < i)%nat -> l !! j <> Some b;
  memchr_absent : forall b l, memchr b l = None -> forall j, l !! j <> Some b;
  memmem_found : forall l needle i, memmem_find l needle = Some i ->
    occurs_at needle l i /\ forall j, (j < i)%nat -> ~ occurs_at needle l j;
  memmem_absent : forall l needle, memmem_find l needle = None ->
    forall j, ~ occurs_at needle l j;
}.

#[export] Instance naive_memchr : Memchr := {|
  memchr b l := position (Z.eqb b) l;
  memmem_find l needle := find_sub needle l;
|}.

Section laws.
Context `{!Memchr, !MemchrSpec}.

Lemma memchr_position b l : memchr b l = position (Z.eqb b) l.
Proof.
  destruct (memchr b l) as [i|] eqn:E; symmetry.
  - apply memchr_found in E as [H1 H2]. apply position_Some.
    exists (take i l), b, (drop (S i) l). split_and!.
    + symmetry. by apply take_drop_middle.
    + apply lookup_lt_Some in H1. rewrite length_take. lia.
    + apply Z.eqb_refl.
    + apply Forall_lookup. intros j x Hj. apply Z.eqb_neq. intros <-.
      rewrite lookup_take_Some in Hj. destruct Hj as [Hj ?]. by apply (H2 j).
  - pose proof (memchr_absent _ _ E) as Habs. apply position_None.
    apply Forall_lookup. intros j x Hj. apply Z.eqb_neq. intros <-.
    by apply (Habs j).
Qed.

Lemma memmem_find_sub l needle : memmem_find l needle = find_sub needle l.
Proof.
  destruct (memmem_find l needle) as [i|] eqn:E; symmetry.
  - apply find_sub_Some. by apply memmem_found.
  - apply find_sub_None. by apply memmem_absent.
Qed.
End laws.

#[export] Instance naive_memchr_spec : MemchrSpec.
Proof.
  split; simpl.
  - intros b l i (l1 & x & l2 & -> & <- & Hx & Hall)%position_Some.
    apply Z.eqb_eq in Hx as <-. split.
    + by rewrite list_lookup_middle.
    + intros j Hj Hl. rewrite lookup_app_l in Hl by done.
      rewrite Forall_lookup in Hall. apply Hall in Hl.
      by rewrite Z.eqb_refl in Hl.
  - intros b l H%position_None j Hj. rewrite Forall_lookup in H.
    apply H in Hj. by rewrite Z.eqb_refl in Hj.
  - intros l needle i. by rewrite find_sub_Some.
  - intros l needle. by rewrite find_sub_None.
Qed.
