(* ===== verification/Terminator.v ===== *)
(** * CRLF lines and multiline terminators ([src/src/terminator.rs])

    Strict CRLF line scanning, the rolling tail that finds a terminator split
    between chunks, the stateful framer of multiline bodies, the iterator over
    dot-terminated blocks and the payload-line normaliser.  The main result is
    that the framer, fed any fragmentation of a body, stops exactly where the
    one-shot scan of the whole body does. *)
From S2P Require Import Prelude Memchr.

Definition CRLF : bytes := [13; 10]%Z.
Definition TERMINATOR : bytes := [13; 10; 46; 13; 10]%Z.
Definition DOT_TERMINATOR : bytes := [46; 13; 10]%Z.
Definition TERMINATOR_TAIL_SIZE : nat := 4.

(** ** Line scanning *)

Module ResponseLineStatus.
Inductive ResponseLineStatus : Type :=
| CompleteAt (end_ : nat)
| NeedMore
| Invalid.
End ResponseLineStatus.
Abbreviation line_status := ResponseLineStatus.ResponseLineStatus.

Module BoundedResponseLineStatus.
Inductive BoundedResponseLineStatus : Type :=
| CompleteAt (end_ : nat)
| NeedMore
| Invalid
| TooLong.

Definition from (value : line_status) : BoundedResponseLineStatus :=
  match value with
  | ResponseLineStatus.CompleteAt e => CompleteAt e
  | ResponseLineStatus.NeedMore => NeedMore
  | ResponseLineStatus.Invalid => Invalid
  end.
End BoundedResponseLineStatus.
Abbreviation bounded_line_status :=
  BoundedResponseLineStatus.BoundedResponseLineStatus.

(** The loop of [detect_response_line_end]: [index] is the position of the
    first byte of [rest] in the buffer. *)
Fixpoint detect_line_loop (index : nat) (rest : bytes) : line_status :=
  match rest with
  | [] => ResponseLineStatus.NeedMore
  | b :: rest' =>
      if (b =? CR)%Z then
        match rest' with
        | [] => ResponseLineStatus.NeedMore
        | b' :: _ =>
            if (b' =? LF)%Z then ResponseLineStatus.CompleteAt (index + 2)
            else ResponseLineStatus.Invalid
        end
      else if (b =? LF)%Z then ResponseLineStatus.Invalid
      else detect_line_loop (S index) rest'
  end.

Definition detect_response_line_end (buffer : bytes) : line_status :=
  detect_line_loop 0 buffer.

Definition detect_bounded_response_line_end (buffer : bytes) (max_len : nat)
    : bounded_line_status :=
  match detect_response_line_end buffer with
  | ResponseLineStatus.CompleteAt e =>
      if (e <=? max_len)%nat then BoundedResponseLineStatus.CompleteAt e
      else BoundedResponseLineStatus.TooLong
  | ResponseLineStatus.NeedMore =>
      if (max_len <=? length buffer)%nat then BoundedResponseLineStatus.TooLong
      else BoundedResponseLineStatus.NeedMore
  | status => BoundedResponseLineStatus.from status
  end.

Definition detect_response_line_end_from (buffer : bytes) (start : nat)
    : line_status :=
  match get_from buffer start with
  | None => ResponseLineStatus.NeedMore
  | Some slice =>
      match detect_response_line_end slice with
      | ResponseLineStatus.CompleteAt e => ResponseLineStatus.CompleteAt (start + e)
      | status => status
      end
  end.

Definition strip_crlf (line : bytes) : option bytes := strip_suffix line CRLF.

Definition strip_complete_crlf_line (line : bytes) : option bytes :=
  match detect_response_line_end line with
  | ResponseLineStatus.CompleteAt e =>
      if (e =? length line)%nat
      then Some (take (length line - length CRLF) line) else None
  | ResponseLineStatus.NeedMore | ResponseLineStatus.Invalid => None
  end.

Definition strict_crlf_line_content_end_from (data : bytes) (start : nat)
    : option nat :=
  match detect_response_line_end_from data start with
  | ResponseLineStatus.CompleteAt e => Some (e - length CRLF)
  | ResponseLineStatus.NeedMore | ResponseLineStatus.Invalid => None
  end.

Definition append_crlf (output : bytes) : bytes := output ++ CRLF.

Definition append_dot_terminator (output : bytes) : bytes :=
  (if ends_with output CRLF then output else append_crlf output)
  ++ DOT_TERMINATOR.

Definition target_before_dot_terminator (target_bytes : nat) : nat :=
  target_bytes - length DOT_TERMINATOR.

Definition strip_dot_terminator_suffix (data : bytes) : option bytes :=
  strip_suffix data DOT_TERMINATOR.

Definition is_dot_terminator_line (previous_line_ended_with_crlf : bool)
    (line : bytes) : bool :=
  previous_line_ended_with_crlf
  && bool_decide (strip_crlf line = Some (lit ".")).

(** ** The rolling tail *)

(** [data] is the fixed array of four bytes, [len] how many are valid. *)
Record MultilineTerminatorDetector : Type := {
  mtd_data : bytes;
  mtd_len : nat;
}.

Definition detector_default : MultilineTerminatorDetector :=
  {| mtd_data := [0; 0; 0; 0]%Z; mtd_len := 0 |}.

(** [data[at..at + src.len()].copy_from_slice(src)]. *)
Definition copy_into (data : bytes) (at_ : nat) (src : bytes) : bytes :=
  take at_ data ++ src ++ drop (at_ + length src) data.

Definition as_slice (self : MultilineTerminatorDetector) : bytes :=
  take (mtd_len self) (mtd_data self).

Definition detector_update (self : MultilineTerminatorDetector) (chunk : bytes)
    : MultilineTerminatorDetector :=
  if (TERMINATOR_TAIL_SIZE <=? length chunk)%nat then
    {| mtd_data := copy_into (mtd_data self) 0
                     (drop (length chunk - TERMINATOR_TAIL_SIZE) chunk);
       mtd_len := TERMINATOR_TAIL_SIZE |}
  else if negb (length chunk =? 0)%nat then
    let combined_len := mtd_len self + length chunk in
    if (TERMINATOR_TAIL_SIZE <=? combined_len)%nat then
      let keep := TERMINATOR_TAIL_SIZE - length chunk in
      let data := copy_into (mtd_data self) 0
                    (slice (mtd_data self) (mtd_len self - keep) (mtd_len self)) in
      {| mtd_data := copy_into data keep chunk;
         mtd_len := TERMINATOR_TAIL_SIZE |}
    else
      {| mtd_data := copy_into (mtd_data self) (mtd_len self) chunk;
         mtd_len := combined_len |}
  else self.

(** The four ways a terminator can straddle the boundary, nearest end first. *)
Definition find_spanning_terminator (tail : bytes) (tail_len : nat)
    (current : bytes) (current_len : nat) : option nat :=
  let tail_end n := slice tail (tail_len - n) tail_len in
  if (tail_len <? 1)%nat || (current_len <? 1)%nat then None
  else if (4 <=? tail_len)%nat && (1 <=? current_len)%nat
     && bytes_eqb (tail_end 4) [13; 10; 46; 13]%Z
     && bytes_eqb (take 1 current) [10]%Z then Some 1
  else if (3 <=? tail_len)%nat && (2 <=? current_len)%nat
     && bytes_eqb (tail_end 3) [13; 10; 46]%Z
     && bytes_eqb (take 2 current) [13; 10]%Z then Some 2
  else if (2 <=? tail_len)%nat && (3 <=? current_len)%nat
     && bytes_eqb (tail_end 2) [13; 10]%Z
     && bytes_eqb (take 3 current) [46; 13; 10]%Z then Some 3
  else if (1 <=? tail_len)%nat && (4 <=? current_len)%nat
     && bytes_eqb (tail_end 1) [13]%Z
     && bytes_eqb (take 4 current) [10; 46; 13; 10]%Z then Some 4
  else None.

Definition detector_find_spanning_terminator
    (self : MultilineTerminatorDetector) (chunk : bytes) : option nat :=
  if (mtd_len self =? 0)%nat then None
  else find_spanning_terminator (as_slice self) (mtd_len self)
         chunk (length chunk).

Module TerminatorStatus.
Inductive TerminatorStatus : Type :=
| FoundAt (end_ : nat)
| NotFound.

Definition is_found (self : TerminatorStatus) : bool :=
  match self with FoundAt _ => true | NotFound => false end.

Definition write_len (self : TerminatorStatus) (chunk_size : nat) : nat :=
  match self with FoundAt pos => pos | NotFound => chunk_size end.
End TerminatorStatus.

(** ** Empty bodies *)

Record EmptyMultilineTerminator : Type := { prefix_len : nat }.

Module EmptyTerminatorStatus.
Inductive EmptyTerminatorStatus : Type :=
| FoundAt (end_ : nat)
| NeedMore
| NotFound (previous_prefix_len : nat).
End EmptyTerminatorStatus.
Abbreviation empty_status := EmptyTerminatorStatus.EmptyTerminatorStatus.

(** [zip(..).take_while(eq).count()]. *)
Fixpoint matching_prefix (actual expected : bytes) : nat :=
  match actual, expected with
  | a :: actual', e :: expected' =>
      if (a =? e)%Z then S (matching_prefix actual' expected') else 0
  | _, _ => 0
  end.

Definition empty_detect (self : EmptyMultilineTerminator) (chunk : bytes)
    : EmptyMultilineTerminator * empty_status :=
  let already_matched := prefix_len self in
  if (already_matched =? 0)%nat
     && match chunk with b :: _ => negb (b =? DOT)%Z | [] => false end
  then (self, EmptyTerminatorStatus.NotFound 0)
  else
    let remaining := drop already_matched DOT_TERMINATOR in
    let matched := matching_prefix chunk remaining in
    if (already_matched + matched =? length DOT_TERMINATOR)%nat then
      ({| prefix_len := 0 |}, EmptyTerminatorStatus.FoundAt matched)
    else if (matched =? length chunk)%nat then
      ({| prefix_len := prefix_len self + matched |}, EmptyTerminatorStatus.NeedMore)
    else
      ({| prefix_len := 0 |}, EmptyTerminatorStatus.NotFound (prefix_len self)).

Definition empty_is_active (self : EmptyMultilineTerminator) : bool :=
  negb (prefix_len self =? 0)%nat.

(** ** The framer *)

Record MultilineFrameBounds : Type := {
  chunk_consumed : nat;
  content_end : nat;
}.

Module MultilineFrameProgress.
Inductive MultilineFrameProgress : Type :=
| NeedMore
| Complete (bounds : MultilineFrameBounds).
End MultilineFrameProgress.
Abbreviation frame_progress := MultilineFrameProgress.MultilineFrameProgress.

Record MultilineFramer : Type := {
  content_started : bool;
  empty_terminator : EmptyMultilineTerminator;
  tail_ : MultilineTerminatorDetector;
  fed : nat;
}.

Definition framer_default : MultilineFramer :=
  {| content_started := false; empty_terminator := {| prefix_len := 0 |};
     tail_ := detector_default; fed := 0 |}.

Section framer.
(** [find_end] stands for [find_streaming_terminator_end], which the build
    resolves to the vector scanner or to the [memchr] searcher. *)
Variable find_end : bytes -> option nat.

Definition detect_streaming_terminator (tail : MultilineTerminatorDetector)
    (chunk : bytes) : option nat :=
  match detector_find_spanning_terminator tail chunk with
  | Some e => Some e
  | None => find_end chunk
  end.

Definition detect_terminator (self : MultilineTerminatorDetector) (chunk : bytes)
    : TerminatorStatus.TerminatorStatus :=
  match detect_streaming_terminator self chunk with
  | Some e => TerminatorStatus.FoundAt e
  | None => TerminatorStatus.NotFound
  end.

Definition framer_push (self : MultilineFramer) (chunk : bytes)
    : MultilineFramer * frame_progress :=
  let fed0 := fed self in
  let fed1 := fed0 + length chunk in
  (* The part of [push] after the empty-terminator phase. *)
  let scan (started : bool) (empty : EmptyMultilineTerminator)
           (tail : MultilineTerminatorDetector) :=
    match detect_streaming_terminator tail chunk with
    | Some e =>
        ({| content_started := started; empty_terminator := empty;
            tail_ := tail; fed := fed1 |},
         MultilineFrameProgress.Complete
           {| chunk_consumed := e;
              content_end := fed0 + e - length DOT_TERMINATOR |})
    | None =>
        ({| content_started := true; empty_terminator := empty;
            tail_ := detector_update tail chunk; fed := fed1 |},
         MultilineFrameProgress.NeedMore)
    end in
  if negb (content_started self) || empty_is_active (empty_terminator self) then
    match empty_detect (empty_terminator self) chunk with
    | (empty, EmptyTerminatorStatus.FoundAt e) =>
        ({| content_started := content_started self; empty_terminator := empty;
            tail_ := tail_ self; fed := fed1 |},
         MultilineFrameProgress.Complete
           {| chunk_consumed := e; content_end := 0 |})
    | (empty, EmptyTerminatorStatus.NeedMore) =>
        ({| content_started := content_started self; empty_terminator := empty;
            tail_ := tail_ self; fed := fed1 |},
         MultilineFrameProgress.NeedMore)
    | (empty, EmptyTerminatorStatus.NotFound previous_prefix_len) =>
        scan true empty
          (if negb (previous_prefix_len =? 0)%nat
           then detector_update (tail_ self)
                  (take previous_prefix_len DOT_TERMINATOR)
           else tail_ self)
    end
  else scan (content_started self) (empty_terminator self) (tail_ self).

(** A caller's loop: feed the chunks in order until one completes the frame.
    The result carries where that chunk starts in the body. *)
Fixpoint framer_feed (self : MultilineFramer) (start : nat) (chunks : list bytes)
    : option (nat * MultilineFrameBounds) :=
  match chunks with
  | [] => None
  | chunk :: chunks' =>
      match framer_push self chunk with
      | (_, MultilineFrameProgress.Complete bounds) => Some (start, bounds)
      | (self', MultilineFrameProgress.NeedMore) =>
          framer_feed self' (start + length chunk) chunks'
      end
  end.

(** ** One-shot block search *)

Definition find_terminator_content_end (data : bytes) (start : nat) : option nat :=
  slice ← get_from data start;
  e ← find_end slice;
  Some (start + e - 3).

Record DotTerminatedBlock : Type := {
  block_bytes : bytes;
  block_content : bytes;
  block_terminator : bytes;
  block_start : nat;
  block_content_end : nat;
  block_end : nat;
}.

(** [DotTerminatedBlocks::next] at cursor [start]: the block and the cursor
    that follows it, which is its end. *)
Definition blocks_next (data : bytes) (start : nat) : option DotTerminatedBlock :=
  rest ← get_from data start;
  if (length rest =? 0)%nat then None else
  '(c, e) ← (if starts_with rest DOT_TERMINATOR
             then Some (start, start + length DOT_TERMINATOR)
             else e ← find_end rest;
                  Some (start + e - length DOT_TERMINATOR, start + e));
  Some {| block_bytes := slice data start e;
          block_content := slice data start c;
          block_terminator := slice data c e;
          block_start := start;
          block_content_end := c;
          block_end := e |}.

(** The iterator run to exhaustion; [fuel] bounds the number of blocks. *)
Fixpoint dot_terminated_blocks (fuel : nat) (data : bytes) (start : nat)
    : list DotTerminatedBlock :=
  match fuel with
  | O => []
  | S fuel' =>
      match blocks_next data start with
      | None => []
      | Some b => b :: dot_terminated_blocks fuel' data (block_end b)
      end
  end.

Definition find_dot_terminated_block (data : bytes) (start : nat)
    : option DotTerminatedBlock := blocks_next data start.

Definition find_dot_terminated_block_end (data : bytes) (start : nat)
    : option nat := block_end <$> find_dot_terminated_block data start.
End framer.

(** The searcher used when no vector scanner is compiled in. *)
Definition find_streaming_terminator_end `{!Memchr} (data : bytes) : option nat :=
  (fun start => start + length TERMINATOR)%nat <$> memmem_find data TERMINATOR.

Definition find_crlf_line_end `{!Memchr} (data : bytes) (start : nat)
    : option nat :=
  slice ← get_from data start;
  relative ← memmem_find slice CRLF;
  Some (start + relative + length CRLF).

(** ** Payload lines *)

(** [CrlfNormalizedPayloadLines::next] from [payload[start..]]: the scan for
    the line end, and the bytes left for the next call. *)
Fixpoint next_payload_line (line rest : bytes) : bytes * bytes :=
  match rest with
  | [] => (line, [])
  | b :: rest' =>
      if (b =? CR)%Z then
        match rest' with
        | b' :: rest'' => if (b' =? LF)%Z then (line, rest'') else (line, rest')
        | [] => (line, [])
        end
      else if (b =? LF)%Z then (line, rest')
      else next_payload_line (line ++ [b]) rest'
  end.

Fixpoint payload_lines_fuel (fuel : nat) (payload : bytes) : list bytes :=
  match fuel, payload with
  | S fuel', _ :: _ =>
      let '(line, rest) := next_payload_line [] payload in
      line :: payload_lines_fuel fuel' rest
  | _, _ => []
  end.

(** Every call consumes a byte, so the length of the payload is enough fuel. *)
Definition crlf_normalized_payload_lines (payload : bytes) : list bytes :=
  payload_lines_fuel (length payload) payload.

(** ** Line scanning: lemmas *)

(** A byte that neither ends a line nor breaks one. *)
Definition plain (b : Z) : Prop := b <> CR /\ b <> LF.

Lemma detect_line_loop_plain l rest i :
  Forall plain l ->
  detect_line_loop i (l ++ rest) = detect_line_loop (i + length l) rest.
Proof.
  intros Hl. revert i. induction Hl as [|b l [H1 H2] _ IH]; intros i; simpl.
  - by rewrite Nat.add_0_r.
  - apply Z.eqb_neq in H1, H2. rewrite H1, H2, IH. f_equal. lia.
Qed.

(** What each status says about the buffer. *)
Definition line_status_spec (buffer : bytes) (s : line_status) : Prop :=
  match s with
  | ResponseLineStatus.CompleteAt e => exists l rest,
      buffer = l ++ CRLF ++ rest /\ Forall plain l /\ e = (length l + 2)%nat
  | ResponseLineStatus.NeedMore =>
      Forall plain buffer \/ exists l, buffer = l ++ [CR] /\ Forall plain l
  | ResponseLineStatus.Invalid => exists l b rest,
      buffer = l ++ b :: rest /\ Forall plain l /\
      (b = LF \/ b = CR /\ exists c rest', rest = c :: rest' /\ c <> LF)
  end.

Lemma split_plain (l : bytes) :
  Forall plain l \/
  exists l1 b l2, l = l1 ++ b :: l2 /\ Forall plain l1 /\ (b = CR \/ b = LF).
Proof.
  induction l as [|b l [IH|(l1 & c & l2 & -> & H1 & H2)]]; [by left| |].
  - destruct (decide (b = CR)); [right; exists [], b, l; auto|].
    destruct (decide (b = LF)); [right; exists [], b, l; auto|].
    left. by constructor.
  - destruct (decide (b = CR)); [right; exists [], b, (l1 ++ c :: l2); auto|].
    destruct (decide (b = LF)); [right; exists [], b, (l1 ++ c :: l2); auto|].
    right. exists (b :: l1), c, l2. split_and!; auto. by constructor.
Qed.

Lemma detect_line_spec buffer :
  line_status_spec buffer (detect_response_line_end buffer).
Proof.
  unfold detect_response_line_end.
  destruct (split_plain buffer) as [H|(l1 & b & l2 & -> & H1 & H2)].
  - rewrite <- (app_nil_r buffer), detect_line_loop_plain by done. simpl.
    left. by rewrite app_nil_r.
  - rewrite detect_line_loop_plain by done. simpl. destruct H2 as [-> | ->]; simpl.
    + destruct l2 as [|c l2]; simpl; [right; eauto|].
      destruct (Z.eqb_spec c LF) as [->|Hc]; simpl.
      * exists l1, l2. auto.
      * eexists l1, CR, _. eauto 10.
    + eexists l1, LF, _. eauto.
Qed.

Lemma detect_line_complete l rest :
  Forall plain l ->
  detect_response_line_end (l ++ CRLF ++ rest)
  = ResponseLineStatus.CompleteAt (length l + 2).
Proof.
  intros Hl. unfold detect_response_line_end.
  by rewrite detect_line_loop_plain.
Qed.

Lemma detect_line_complete_inv buffer e :
  detect_response_line_end buffer = ResponseLineStatus.CompleteAt e ->
  exists l rest, buffer = l ++ CRLF ++ rest /\ Forall plain l /\
                 e = (length l + 2)%nat.
Proof. intros H. pose proof (detect_line_spec buffer) as Hs. by rewrite H in Hs. Qed.

Lemma detect_line_of_spec buffer s :
  line_status_spec buffer s -> detect_response_line_end buffer = s.
Proof.
  unfold detect_response_line_end. destruct s as [e| |]; simpl.
  - intros (l & rest & -> & Hl & ->). by rewrite detect_line_loop_plain.
  - intros [Hp|(l & -> & Hl)].
    + by rewrite <- (app_nil_r buffer), detect_line_loop_plain.
    + by rewrite detect_line_loop_plain.
  - intros (l & b & rest & -> & Hl & [-> | (-> & c & rest' & -> & Hc)]).
    + by rewrite detect_line_loop_plain.
    + rewrite detect_line_loop_plain by done. simpl.
      apply Z.eqb_neq in Hc. by rewrite Hc.
Qed.

(** What more input can do to a line scan. *)
Lemma detect_line_extend buffer more :
  match detect_response_line_end buffer with
  | ResponseLineStatus.CompleteAt e =>
      (e <= length buffer)%nat /\
      detect_response_line_end (buffer ++ more) = ResponseLineStatus.CompleteAt e
  | ResponseLineStatus.NeedMore =>
      match detect_response_line_end (buffer ++ more) with
      | ResponseLineStatus.CompleteAt e => (length buffer < e)%nat
      | _ => True
      end
  | ResponseLineStatus.Invalid =>
      detect_response_line_end (buffer ++ more) = ResponseLineStatus.Invalid
  end.
Proof.
  pose proof (detect_line_spec buffer) as Hs.
  destruct (detect_response_line_end buffer) as [e| |] eqn:Eb; simpl in Hs.
  - destruct Hs as (l & rest & -> & Hl & ->). rewrite !length_app. split; [simpl; lia|].
    rewrite <- !app_assoc. by apply detect_line_complete.
  - destruct (detect_response_line_end (buffer ++ more)) as [e| |] eqn:E; [|done|done].
    apply detect_line_complete_inv in E as (l & rest & Hb & Hl & ->).
    destruct (decide (length l + 2 <= length buffer)%nat) as [Hle|]; [|lia].
    apply (f_equal (take (length buffer))) in Hb.
    rewrite take_app_length, app_assoc, take_app_ge in Hb by (rewrite length_app; simpl; lia).
    rewrite Hb, <- app_assoc, detect_line_complete in Eb by done. done.
  - apply detect_line_of_spec. destruct Hs as (l & b & rest & -> & Hl & Hb).
    exists l, b, (rest ++ more). rewrite <- app_assoc. split_and!; [done..|].
    destruct Hb as [|(-> & c & rest' & -> & Hc)]; [by left|].
    right. split; [done|]. by exists c, (rest' ++ more).
Qed.

Definition line_rejected (s : bounded_line_status) : bool :=
  match s with
  | BoundedResponseLineStatus.Invalid | BoundedResponseLineStatus.TooLong => true
  | _ => false
  end.

Lemma bounded_line_extend (buffer more : bytes) (max_len : nat) :
  match detect_bounded_response_line_end buffer max_len with
  | BoundedResponseLineStatus.CompleteAt e =>
      (e <= max_len)%nat /\ (e <= length buffer)%nat /\
      detect_bounded_response_line_end (buffer ++ more) max_len
        = BoundedResponseLineStatus.CompleteAt e
  | BoundedResponseLineStatus.NeedMore => (length buffer < max_len)%nat
  | BoundedResponseLineStatus.Invalid | BoundedResponseLineStatus.TooLong =>
      line_rejected (detect_bounded_response_line_end (buffer ++ more) max_len) = true
  end.
Proof.
  unfold detect_bounded_response_line_end.
  pose proof (detect_line_extend buffer more) as Hx.
  destruct (detect_response_line_end buffer) as [e| |].
  - destruct Hx as [He ->]. destruct (e <=? max_len)%nat eqn:E; [|done].
    apply Nat.leb_le in E. done.
  - destruct (max_len <=? length buffer)%nat eqn:E; [|by apply Nat.leb_gt in E].
    apply Nat.leb_le in E. destruct (detect_response_line_end (buffer ++ more)); [| |done].
    + rewrite (proj2 (Nat.leb_gt _ _)) by lia. done.
    + rewrite length_app, (proj2 (Nat.leb_le _ _)) by lia. done.
  - simpl. by rewrite Hx.
Qed.

(** ** The rolling tail: lemmas *)

Definition last_n (n : nat) (l : bytes) : bytes := drop (length l - n) l.

Record detector_ok (t : MultilineTerminatorDetector) : Prop := {
  detector_data_len : length (mtd_data t) = TERMINATOR_TAIL_SIZE;
  detector_len_le : (mtd_len t <= TERMINATOR_TAIL_SIZE)%nat;
}.

Lemma length_copy_into data at_ src :
  (at_ + length src <= length data)%nat ->
  length (copy_into data at_ src) = length data.
Proof.
  intros H. unfold copy_into.
  rewrite !length_app, length_take, length_drop. lia.
Qed.

Lemma take_copy_into data at_ src :
  (at_ <= length data)%nat ->
  take (at_ + length src) (copy_into data at_ src) = take at_ data ++ src.
Proof.
  intros H. unfold copy_into. rewrite app_assoc.
  rewrite take_app_length'; [done|]. rewrite length_app, length_take. lia.
Qed.

Lemma last_n_short n l : (length l <= n)%nat -> last_n n l = l.
Proof. intros H. unfold last_n. replace (length l - n)%nat with 0%nat by lia. done. Qed.

Lemma length_last_n n l : length (last_n n l) = Nat.min n (length l).
Proof. unfold last_n. rewrite length_drop. lia. Qed.

Lemma last_n_app n a b : last_n n (last_n n a ++ b) = last_n n (a ++ b).
Proof.
  unfold last_n at 2. rewrite <- drop_app_le by lia. unfold last_n.
  rewrite length_drop, drop_drop. f_equal. rewrite length_app. lia.
Qed.

Lemma length_as_slice t : detector_ok t -> length (as_slice t) = mtd_len t.
Proof.
  intros [H1 H2]. unfold as_slice. rewrite length_take, H1.
  unfold TERMINATOR_TAIL_SIZE in *. lia.
Qed.

Lemma detector_update_ok t chunk :
  detector_ok t -> detector_ok (detector_update t chunk).
Proof.
  intros [H1 H2]. unfold detector_update, TERMINATOR_TAIL_SIZE in *.
  destruct (4 <=? length chunk)%nat eqn:E1.
  { apply Nat.leb_le in E1. split; cbn [mtd_len mtd_data]; unfold TERMINATOR_TAIL_SIZE; [|lia].
    rewrite length_copy_into; [done|]. rewrite length_drop. lia. }
  apply Nat.leb_gt in E1.
  destruct (length chunk =? 0)%nat; cbn [negb]; [by split|].
  destruct (4 <=? mtd_len t + length chunk)%nat eqn:E2.
  - apply Nat.leb_le in E2. split; cbn [mtd_len mtd_data]; unfold TERMINATOR_TAIL_SIZE; [|lia].
    assert (length (copy_into (mtd_data t) 0
      (slice (mtd_data t) (mtd_len t - (4 - length chunk)) (mtd_len t)))
      = length (mtd_data t)) as Hc.
    { apply length_copy_into. rewrite length_slice by lia. lia. }
    rewrite length_copy_into by lia. by rewrite Hc.
  - apply Nat.leb_gt in E2. split; cbn [mtd_len mtd_data]; unfold TERMINATOR_TAIL_SIZE; [|lia].
    rewrite length_copy_into by lia. done.
Qed.

Lemma detector_update_slice t chunk :
  detector_ok t ->
  as_slice (detector_update t chunk) = last_n 4 (as_slice t ++ chunk).
Proof.
  intros Hok. pose proof (length_as_slice _ Hok) as Hlen.
  destruct Hok as [H1 H2]. unfold detector_update, TERMINATOR_TAIL_SIZE in *.
  destruct (4 <=? length chunk)%nat eqn:E1.
  { apply Nat.leb_le in E1. unfold as_slice at 1. simpl mtd_len. simpl mtd_data.
    replace 4%nat with (0 + length (drop (length chunk - 4) chunk))%nat at 1
      by (rewrite length_drop; lia).
    rewrite take_copy_into by lia. rewrite take_0. simpl.
    unfold last_n. rewrite length_app.
    rewrite drop_app_ge by lia. f_equal. lia. }
  apply Nat.leb_gt in E1.
  destruct (length chunk =? 0)%nat eqn:E0; cbn [negb].
  { apply Nat.eqb_eq, nil_length_inv in E0 as ->. rewrite app_nil_r.
    rewrite last_n_short by lia. done. }
  apply Nat.eqb_neq in E0.
  destruct (4 <=? mtd_len t + length chunk)%nat eqn:E2.
  - apply Nat.leb_le in E2.
    set (keep := (4 - length chunk)%nat).
    set (kept := slice (mtd_data t) (mtd_len t - keep) (mtd_len t)).
    assert (length kept = keep) as Hk.
    { unfold kept. rewrite length_slice by lia. lia. }
    unfold as_slice at 1. simpl mtd_len. simpl mtd_data.
    replace 4%nat with (keep + length chunk)%nat at 1 by lia.
    rewrite take_copy_into.
    2: { rewrite length_copy_into; lia. }
    rewrite <- Hk at 1. rewrite <- (Nat.add_0_l (length kept)).
    rewrite take_copy_into by lia. simpl.
    unfold last_n. rewrite length_app, Hlen.
    rewrite drop_app_le by lia. f_equal.
    unfold kept, slice, as_slice. rewrite take_drop_commute.
    f_equal; [|f_equal]; lia.
  - apply Nat.leb_gt in E2. rewrite last_n_short by (rewrite length_app; lia).
    unfold as_slice at 1. simpl mtd_len. simpl mtd_data.
    rewrite take_copy_into by lia. done.
Qed.

(** ** Terminators across a chunk boundary *)

(** An occurrence that starts in [acc] and ends [k] bytes into [chunk]. *)
Lemma occurs_at_span needle acc chunk k :
  (0 < k < length needle)%nat -> (length needle - k <= length acc)%nat ->
  occurs_at needle (acc ++ chunk) (length acc + k - length needle) <->
  drop (length acc - (length needle - k)) acc = take (length needle - k) needle /\
  take k chunk = drop (length needle - k) needle.
Proof.
  intros Hk Hacc. unfold occurs_at.
  replace (length acc + k - length needle)%nat
    with (length acc - (length needle - k))%nat by lia.
  rewrite drop_app_le by lia.
  assert (length (drop (length acc - (length needle - k)) acc)
          = (length needle - k)%nat) as Hd by (rewrite length_drop; lia).
  rewrite take_app_ge by lia. rewrite Hd.
  replace (length needle - (length needle - k))%nat with k by lia.
  split.
  - intros H. apply app_inj_1; [rewrite Hd, length_take; lia|].
    by rewrite take_drop.
  - intros [-> ->]. apply take_drop.
Qed.

Lemma last_n_slice_end acc n k :
  (k <= n)%nat -> (k <= length acc)%nat ->
  slice (last_n n acc) (length (last_n n acc) - k) (length (last_n n acc))
  = drop (length acc - k) acc.
Proof.
  intros H1 H2. unfold slice. rewrite length_last_n. unfold last_n.
  rewrite drop_drop, take_ge by (rewrite length_drop; lia).
  f_equal. lia.
Qed.

(** The occurrence that ends [k] bytes into [chunk]. *)
Definition span_at (acc chunk : bytes) (k : nat) : Prop :=
  (5 - k <= length acc)%nat /\
  occurs_at TERMINATOR (acc ++ chunk) (length acc + k - 5).

(** The [k]-th test of [find_spanning_terminator] is an occurrence of the
    terminator ending [k] bytes into the chunk. *)
Lemma span_test acc chunk k :
  (0 < k < 5)%nat ->
  (5 - k <=? length (last_n 4 acc))%nat && (k <=? length chunk)%nat
    && bytes_eqb (slice (last_n 4 acc) (length (last_n 4 acc) - (5 - k))
                        (length (last_n 4 acc))) (take (5 - k) TERMINATOR)
    && bytes_eqb (take k chunk) (drop (5 - k) TERMINATOR) = true
  <-> span_at acc chunk k.
Proof.
  intros Hk. unfold span_at. rewrite !andb_true_iff, !Nat.leb_le, !bytes_eqb_spec, length_last_n.
  split.
  - intros [[[H1 _] H3] H4]. split; [lia|].
    apply (occurs_at_span TERMINATOR acc chunk k); [done|simpl; lia|].
    rewrite <- length_last_n in H3. rewrite last_n_slice_end in H3 by lia. done.
  - intros [H1 H2].
    apply (occurs_at_span TERMINATOR acc chunk k) in H2 as [H2 H3]; [|done|simpl; lia].
    rewrite <- length_last_n. rewrite last_n_slice_end by lia.
    split_and!; [rewrite length_last_n; lia| |done|done].
    apply (f_equal length) in H3. rewrite length_take, length_drop in H3.
    simpl in H3. lia.
Qed.

Lemma occurs_before acc chunk i :
  find_sub TERMINATOR acc = None -> (i + 5 <= length acc)%nat ->
  ~ occurs_at TERMINATOR (acc ++ chunk) i.
Proof.
  intros Hacc Hi Ho. apply (proj1 (find_sub_None _ _) Hacc i). revert Ho.
  unfold occurs_at.
  rewrite drop_app_le, take_app_le by (rewrite ?length_drop; simpl; lia). done.
Qed.

(** An occurrence that starts before the boundary is one of the four spans. *)
Lemma occurs_span acc chunk j :
  find_sub TERMINATOR acc = None -> (j < length acc)%nat ->
  occurs_at TERMINATOR (acc ++ chunk) j ->
  exists k, (0 < k < 5)%nat /\ (j + 5 = length acc + k)%nat /\ span_at acc chunk k.
Proof.
  intros Hacc Hj Ho. destruct (decide (j + 5 <= length acc)%nat) as [Hle|Hgt].
  - by destruct (occurs_before acc chunk j Hacc Hle).
  - exists (j + 5 - length acc)%nat. unfold span_at.
    replace (length acc + (j + 5 - length acc) - 5)%nat with j by lia.
    split_and!; [lia..|done].
Qed.

Lemma span_leftmost acc chunk k :
  find_sub TERMINATOR acc = None -> (0 < k < 5)%nat -> span_at acc chunk k ->
  (forall j, (0 < j < k)%nat -> ~ span_at acc chunk j) ->
  (1 <= k <= length chunk)%nat /\ (5 <= length acc + k)%nat /\
  find_sub TERMINATOR (acc ++ chunk) = Some (length acc + k - 5)%nat.
Proof.
  intros Hacc Hk [H1 H2] Hlt.
  pose proof (occurs_at_bound TERMINATOR _ _ ltac:(done) H2) as Hb.
  rewrite length_app in Hb. simpl in Hb. split_and!; [lia..|].
  apply find_sub_Some. split; [done|]. intros j Hj Ho.
  destruct (occurs_span acc chunk j Hacc ltac:(lia) Ho) as (k' & Hk' & ? & Hs).
  apply (Hlt k'); [lia|done].
Qed.

Lemma span_none acc chunk :
  find_sub TERMINATOR acc = None ->
  (forall k, (0 < k < 5)%nat -> ~ span_at acc chunk k) ->
  find_sub TERMINATOR (acc ++ chunk)
  = (fun i => length acc + i)%nat <$> find_sub TERMINATOR chunk.
Proof.
  intros Hacc Hk. rewrite (find_sub_skip _ _ (length acc)).
  - by rewrite drop_app_length.
  - intros j Hj Ho.
    destruct (occurs_span acc chunk j Hacc Hj Ho) as (k & ? & _ & Hs).
    by apply (Hk k).
Qed.

(** Case on the guard of the branch that returns [v]. *)
Ltac split_guard v E :=
  match goal with |- context [if ?b then v else _] => destruct b eqn:E end.

Lemma spanning_correct acc chunk :
  find_sub TERMINATOR acc = None ->
  match find_spanning_terminator (last_n 4 acc) (length (last_n 4 acc))
          chunk (length chunk) with
  | Some e => (1 <= e <= length chunk)%nat /\ (5 <= length acc + e)%nat /\
              find_sub TERMINATOR (acc ++ chunk) = Some (length acc + e - 5)%nat
  | None => find_sub TERMINATOR (acc ++ chunk)
            = (fun i => length acc + i)%nat <$> find_sub TERMINATOR chunk
  end.
Proof.
  intros Hacc. unfold find_spanning_terminator.
  destruct ((length (last_n 4 acc) <? 1)%nat || (length chunk <? 1)%nat) eqn:E0.
  { rewrite length_last_n in E0.
    apply orb_true_iff in E0 as [E0|E0]; apply Nat.ltb_lt in E0.
    - assert (acc = []) as -> by (apply nil_length_inv; lia). simpl.
      by destruct (find_sub TERMINATOR chunk).
    - assert (chunk = []) as -> by (apply nil_length_inv; lia).
      by rewrite app_nil_r. }
  clear E0.
  pose proof (span_test acc chunk 1 ltac:(lia)) as T1.
  pose proof (span_test acc chunk 2 ltac:(lia)) as T2.
  pose proof (span_test acc chunk 3 ltac:(lia)) as T3.
  pose proof (span_test acc chunk 4 ltac:(lia)) as T4.
  cbn [Nat.sub take drop TERMINATOR] in T1, T2, T3, T4.
  split_guard (Some 1%nat) E1; [|split_guard (Some 2%nat) E2;
    [|split_guard (Some 3%nat) E3; [|split_guard (Some 4%nat) E4]]].
  1-4: apply span_leftmost; [done|lia|by apply T1 || apply T2 || apply T3 || apply T4|];
    intros j ? Hj; assert (j = 1 \/ j = 2 \/ j = 3)%nat as [-> | [-> | ->]] by lia;
    (lia || apply T1 in Hj || apply T2 in Hj || apply T3 in Hj); done.
  apply span_none; [done|]. intros k ? Hk.
  assert (k = 1 \/ k = 2 \/ k = 3 \/ k = 4)%nat as [-> | [-> | [-> | ->]]] by lia;
    [apply T1 in Hk|apply T2 in Hk|apply T3 in Hk|apply T4 in Hk]; done.
Qed.

(** ** The framer against the one-shot search *)

(** The interface of a terminator searcher: the end of the first terminator. *)
Class TerminatorFinder (find_end : bytes -> option nat) : Prop :=
  find_end_first : forall data,
    find_end data = (fun i => i + length TERMINATOR)%nat <$> find_sub TERMINATOR data.

#[export] Instance memmem_terminator_finder `{!Memchr, !MemchrSpec} :
  TerminatorFinder find_streaming_terminator_end.
Proof.
  intros data. unfold find_streaming_terminator_end. by rewrite memmem_find_sub.
Qed.

(** Where the block that starts a body ends, in the body's own coordinates. *)
Definition body_end (body : bytes) : option nat :=
  if starts_with body DOT_TERMINATOR then Some 3
  else (fun i => i + 5)%nat <$> find_sub TERMINATOR body.

(** More input never moves the end of a complete block. *)
Lemma body_end_app body more e :
  body_end body = Some e -> body_end (body ++ more) = Some e.
Proof.
  unfold body_end. destruct (starts_with body DOT_TERMINATOR) eqn:Es.
  - apply starts_with_spec in Es as [k ->]. rewrite <- app_assoc.
    by rewrite starts_with_app.
  - intros (i & Hi & ->)%fmap_Some.
    pose proof (find_sub_bound TERMINATOR _ _ ltac:(done) Hi) as Hb. simpl in Hb.
    replace (starts_with (body ++ more) DOT_TERMINATOR) with false.
    + by erewrite find_sub_app.
    + symmetry. apply not_true_is_false. intros H. apply starts_with_take in H.
      rewrite take_app_le in H by (simpl; lia). apply starts_with_take in H. congruence.
Qed.

Lemma body_end_bound body e : body_end body = Some e -> (3 <= e <= length body)%nat.
Proof.
  unfold body_end. destruct (starts_with body DOT_TERMINATOR) eqn:Es.
  - intros [= <-]. apply starts_with_length in Es. simpl in Es. lia.
  - intros (i & Hi & ->)%fmap_Some. apply find_sub_bound in Hi; [|done].
    simpl in Hi. lia.
Qed.

(** The block alone ends where the whole input's block ends. *)
Lemma body_end_take body e : body_end body = Some e -> body_end (take e body) = Some e.
Proof.
  intros H. pose proof (body_end_bound _ _ H) as Hb. unfold body_end in *.
  assert (starts_with (take e body) DOT_TERMINATOR = starts_with body DOT_TERMINATOR) as Hs.
  { apply eq_true_iff_eq. rewrite !starts_with_take, take_take.
    change (length DOT_TERMINATOR) with 3%nat. by rewrite Nat.min_l by lia. }
  rewrite Hs. destruct (starts_with body DOT_TERMINATOR); [done|].
  apply fmap_Some in H as (i & Hi & ->). apply find_sub_Some in Hi as [H1 H2].
  assert (find_sub TERMINATOR (take (i + 5) body) = Some i) as ->; [|done].
  apply find_sub_Some. split.
  - by apply occurs_at_take.
  - intros j Hj Ho. apply (H2 j Hj). apply (occurs_at_take _ _ (i + 5)); [|done].
    change (length TERMINATOR) with 5%nat. lia.
Qed.

(** A block ends with the dot line. *)
Lemma body_end_dots body e :
  body_end body = Some e -> take 3 (drop (e - 3) body) = DOT_TERMINATOR.
Proof.
  unfold body_end. destruct (starts_with body DOT_TERMINATOR) eqn:Es.
  - intros [= <-]. by apply starts_with_take in Es.
  - intros (i & Hi & ->)%fmap_Some. apply find_sub_Some in Hi as [H1 _].
    unfold occurs_at in H1. change (length TERMINATOR) with 5%nat in H1.
    apply (f_equal (drop 2)) in H1. rewrite skipn_firstn_comm, drop_drop in H1.
    by replace (i + 5 - 3)%nat with (i + 2)%nat by lia.
Qed.

Lemma block_end_body_end find_end `{!TerminatorFinder find_end} data start :
  find_dot_terminated_block_end find_end data start
  = (fun e => start + e)%nat <$> (get_from data start ≫= body_end).
Proof.
  unfold find_dot_terminated_block_end, find_dot_terminated_block, blocks_next.
  destruct (get_from data start) as [rest|]; [|done]. simpl.
  destruct (length rest =? 0)%nat eqn:E.
  { by apply Nat.eqb_eq, nil_length_inv in E as ->. }
  unfold body_end. destruct (starts_with rest DOT_TERMINATOR); simpl; [done|].
  rewrite find_end_first. destruct (find_sub TERMINATOR rest); simpl; done.
Qed.

Lemma block_end_body_end_0 find_end `{!TerminatorFinder find_end} data :
  find_dot_terminated_block_end find_end data 0 = body_end data.
Proof.
  rewrite (block_end_body_end find_end). unfold get_from. simpl.
  rewrite drop_0. by destruct (body_end data).
Qed.

(** The framer after [acc] has been fed without completing: either [acc] is
    still a proper prefix of the empty body's terminator, or the tail holds
    the last four bytes of [acc]. *)
Inductive framer_inv (acc : bytes) : MultilineFramer -> Prop :=
| framer_inv_prefix k :
    (k < 3)%nat -> acc = take k DOT_TERMINATOR ->
    framer_inv acc
      {| content_started := false; empty_terminator := {| prefix_len := k |};
         tail_ := detector_default; fed := k |}
| framer_inv_scan t :
    detector_ok t -> as_slice t = last_n 4 acc ->
    find_sub TERMINATOR acc = None ->
    (forall rest, starts_with (acc ++ rest) DOT_TERMINATOR = false) ->
    framer_inv acc
      {| content_started := true; empty_terminator := {| prefix_len := 0 |};
         tail_ := t; fed := length acc |}.

Lemma framer_inv_default : framer_inv [] framer_default.
Proof. by apply (framer_inv_prefix [] 0); [lia|]. Qed.

Lemma detector_default_ok : detector_ok detector_default.
Proof. split; unfold TERMINATOR_TAIL_SIZE; simpl; lia. Qed.

Lemma framer_inv_fed acc f : framer_inv acc f -> fed f = length acc.
Proof. by destruct 1 as [[|[|[|]]] ? ->|]; simpl; [..|lia|]. Qed.

Lemma framer_inv_open acc f : framer_inv acc f -> body_end acc = None.
Proof.
  destruct 1 as [[|[|[|k]]] ? ->|t ? ? Hacc Hs]; [done..|lia|].
  unfold body_end. rewrite <- (app_nil_r acc), Hs, app_nil_r. by rewrite Hacc.
Qed.

(** Finding through the tail is finding in the whole body. *)
Lemma detect_streaming_correct find_end `{!TerminatorFinder find_end} acc t chunk :
  detector_ok t -> as_slice t = last_n 4 acc -> find_sub TERMINATOR acc = None ->
  match detect_streaming_terminator find_end t chunk with
  | Some e => (1 <= e <= length chunk)%nat /\ (5 <= length acc + e)%nat /\
              find_sub TERMINATOR (acc ++ chunk) = Some (length acc + e - 5)%nat
  | None => find_sub TERMINATOR (acc ++ chunk) = None
  end.
Proof.
  intros Hok Hs Hacc. pose proof (spanning_correct acc chunk Hacc) as Hspan.
  rewrite <- Hs in Hspan. rewrite (length_as_slice t Hok) in Hspan.
  unfold detect_streaming_terminator, detector_find_spanning_terminator.
  assert ((if (mtd_len t =? 0)%nat then None
           else find_spanning_terminator (as_slice t) (mtd_len t) chunk (length chunk))
          = find_spanning_terminator (as_slice t) (mtd_len t) chunk (length chunk)) as ->.
  { destruct (mtd_len t); simpl; [|done]. unfold find_spanning_terminator. done. }
  destruct (find_spanning_terminator _ _ _ _) as [e|]; [done|].
  rewrite find_end_first, Hspan.
  destruct (find_sub TERMINATOR chunk) as [i|] eqn:Ei; simpl; [|done].
  apply find_sub_bound in Ei; [|done]. simpl in Ei.
  split_and!; [lia..|]. f_equal. lia.
Qed.

(** The scanning half of [push]. *)
Definition push_scan find_end (started : bool) (t : MultilineTerminatorDetector)
    (fed0 : nat) (chunk : bytes) : MultilineFramer * frame_progress :=
  match detect_streaming_terminator find_end t chunk with
  | Some e =>
      ({| content_started := started; empty_terminator := {| prefix_len := 0 |};
          tail_ := t; fed := fed0 + length chunk |},
       MultilineFrameProgress.Complete
         {| chunk_consumed := e; content_end := fed0 + e - 3 |})
  | None =>
      ({| content_started := true; empty_terminator := {| prefix_len := 0 |};
          tail_ := detector_update t chunk; fed := fed0 + length chunk |},
       MultilineFrameProgress.NeedMore)
  end.

(** What one [push] must do after [acc]. *)
Definition push_spec (acc chunk : bytes) (r : MultilineFramer * frame_progress)
    : Prop :=
  match r with
  | (_, MultilineFrameProgress.Complete b) =>
      (1 <= chunk_consumed b <= length chunk)%nat /\
      body_end (acc ++ chunk) = Some (length acc + chunk_consumed b)%nat /\
      content_end b = (length acc + chunk_consumed b - 3)%nat
  | (f', MultilineFrameProgress.NeedMore) => framer_inv (acc ++ chunk) f'
  end.

Lemma push_scan_correct find_end `{!TerminatorFinder find_end} started acc t chunk :
  detector_ok t -> as_slice t = last_n 4 acc -> find_sub TERMINATOR acc = None ->
  (forall rest, starts_with (acc ++ chunk ++ rest) DOT_TERMINATOR = false) ->
  push_spec acc chunk (push_scan find_end started t (length acc) chunk).
Proof.
  intros Hok Hs Hacc Hdot. unfold push_scan.
  pose proof (detect_streaming_correct find_end acc t chunk Hok Hs Hacc) as H.
  destruct (detect_streaming_terminator find_end t chunk) as [e|]; simpl.
  - destruct H as (H1 & H2 & H3). split_and!; [lia..| |done].
    unfold body_end. rewrite <- (app_nil_r chunk), Hdot, app_nil_r, H3. simpl.
    f_equal. lia.
  - rewrite <- length_app. apply framer_inv_scan.
    + by apply detector_update_ok.
    + rewrite detector_update_slice, Hs by done.
      apply last_n_app.
    + done.
    + intros rest. by rewrite <- app_assoc.
Qed.

Lemma framer_push_scanning find_end t n chunk :
  framer_push find_end
    {| content_started := true; empty_terminator := {| prefix_len := 0 |};
       tail_ := t; fed := n |} chunk
  = push_scan find_end true t n chunk.
Proof. reflexivity. Qed.

Lemma matching_prefix_spec a e :
  exists p a' e', a = p ++ a' /\ e = p ++ e' /\ length p = matching_prefix a e /\
    match a', e' with x :: _, y :: _ => x <> y | _, _ => True end.
Proof.
  revert e. induction a as [|x a IH]; intros e; [by exists [], [], e|].
  destruct e as [|y e]; [by exists [], (x :: a), []|]. simpl.
  destruct (Z.eqb_spec x y) as [->|Hne].
  - destruct (IH e) as (p & a' & e' & -> & -> & Hp & Hd).
    exists (y :: p), a', e'. simpl. by rewrite Hp.
  - by exists [], (x :: a), (y :: e).
Qed.

(** The empty-terminator phase, by cases on how far [.\r\n] has matched. *)
Lemma empty_detect_correct k chunk :
  (k < 3)%nat ->
  match empty_detect {| prefix_len := k |} chunk with
  | (e', EmptyTerminatorStatus.FoundAt n) =>
      (1 <= n <= length chunk)%nat /\ (k + n = 3)%nat /\
      starts_with (take k DOT_TERMINATOR ++ chunk) DOT_TERMINATOR = true
  | (e', EmptyTerminatorStatus.NeedMore) =>
      exists k', (k' < 3)%nat /\ e' = {| prefix_len := k' |} /\
      (k' = k + length chunk)%nat /\
      take k DOT_TERMINATOR ++ chunk = take k' DOT_TERMINATOR
  | (e', EmptyTerminatorStatus.NotFound prev) =>
      e' = {| prefix_len := 0 |} /\ prev = k /\
      forall rest, starts_with (take k DOT_TERMINATOR ++ chunk ++ rest)
                     DOT_TERMINATOR = false
  end.
Proof.
  intros Hk. unfold empty_detect. cbn [prefix_len].
  destruct ((k =? 0)%nat && _) eqn:E0.
  { apply andb_true_iff in E0 as [->%Nat.eqb_eq E0]. destruct chunk as [|b chunk]; [done|].
    split_and!; [done..|]. intros rest. apply negb_true_iff, Z.eqb_neq in E0.
    by apply starts_with_differ. }
  clear E0. set (m := matching_prefix chunk (drop k DOT_TERMINATOR)).
  destruct (matching_prefix_spec chunk (drop k DOT_TERMINATOR))
    as (p & a' & e' & Ha & He & Hp & Hdiff). fold m in Hp.
  pose proof (f_equal length He) as Hlen.
  rewrite length_drop, length_app in Hlen. change (length DOT_TERMINATOR) with 3%nat in *.
  assert (DOT_TERMINATOR = take k DOT_TERMINATOR ++ p ++ e') as HD
    by (rewrite <- He; symmetry; apply take_drop).
  destruct (k + m =? 3)%nat eqn:E1.
  { apply Nat.eqb_eq in E1. assert (e' = []) as -> by (apply nil_length_inv; lia).
    rewrite app_nil_r in HD. subst chunk. rewrite length_app. split_and!; [lia..|].
    apply starts_with_spec. exists a'. rewrite app_assoc. by rewrite <- HD. }
  apply Nat.eqb_neq in E1. destruct (m =? length chunk)%nat eqn:E2.
  { apply Nat.eqb_eq in E2. rewrite Ha, length_app in E2.
    assert (a' = []) as -> by (apply nil_length_inv; lia).
    rewrite app_nil_r in Ha. subst chunk. exists (k + m)%nat. split_and!; [lia|done|lia|].
    rewrite (f_equal (take (k + m)) HD), app_assoc, take_app_length'; [done|].
    rewrite length_app, length_take. change (length DOT_TERMINATOR) with 3%nat. lia. }
  apply Nat.eqb_neq in E2. split_and!; [done..|]. intros rest.
  destruct e' as [|y e']; [simpl in Hlen; lia|].
  destruct a' as [|x a']; [rewrite app_nil_r in Ha; subst; lia|].
  subst chunk. rewrite (f_equal (starts_with _) HD), <- app_assoc.
  by rewrite !starts_with_app_same, <- app_comm_cons, starts_with_differ.
Qed.

Lemma detector_update_prefix k :
  (k < 3)%nat ->
  let t := if negb (k =? 0)%nat
           then detector_update detector_default (take k DOT_TERMINATOR)
           else detector_default in
  detector_ok t /\ as_slice t = last_n 4 (take k DOT_TERMINATOR).
Proof.
  intros Hk t. split.
  - unfold t. destruct (negb _); [apply detector_update_ok|]; apply detector_default_ok.
  - unfold t. by assert (k = 0 \/ k = 1 \/ k = 2)%nat as [-> | [-> | ->]] by lia.
Qed.

Lemma framer_push_correct find_end `{!TerminatorFinder find_end} acc f chunk :
  framer_inv acc f -> push_spec acc chunk (framer_push find_end f chunk).
Proof.
  destruct 1 as [k Hk ->|t Hok Hs Hacc Hdot].
  - pose proof (empty_detect_correct k chunk Hk) as He.
    pose proof (detector_update_prefix k Hk) as [Hok Hs].
    assert (length (take k DOT_TERMINATOR) = k) as Hlen
      by (rewrite length_take; simpl; lia).
    unfold framer_push. cbn [content_started empty_terminator tail_ fed negb orb].
    destruct (empty_detect _ chunk) as [e' [n| |prev]].
    + destruct He as (H1 & H2 & H3). simpl. split_and!; [lia..| |lia].
      unfold body_end. rewrite H3, Hlen. f_equal. lia.
    + destruct He as (k' & H1 & -> & H2 & H3). simpl.
      rewrite H3, <- H2. by apply framer_inv_prefix.
    + destruct He as (-> & -> & Hdot).
      assert (find_sub TERMINATOR (take k DOT_TERMINATOR) = None) as Hnone.
      { apply find_sub_None. intros j Ho. apply occurs_at_bound in Ho; [|done].
        rewrite Hlen in Ho. simpl in Ho. lia. }
      pose proof (push_scan_correct find_end true _ _ chunk Hok Hs Hnone Hdot) as Hp.
      rewrite Hlen in Hp. exact Hp.
  - rewrite framer_push_scanning. apply push_scan_correct; [done..|].
    intros rest. by rewrite Hdot.
Qed.

Lemma framer_feed_correct find_end `{!TerminatorFinder find_end} chunks acc f :
  framer_inv acc f ->
  match framer_feed find_end f (length acc) chunks with
  | Some (start, b) =>
      body_end (acc ++ concat chunks) = Some (start + chunk_consumed b)%nat /\
      content_end b = (start + chunk_consumed b - 3)%nat
  | None => body_end (acc ++ concat chunks) = None
  end.
Proof.
  revert acc f. induction chunks as [|chunk chunks IH]; intros acc f Hinv; simpl.
  { rewrite app_nil_r. by eapply framer_inv_open. }
  pose proof (framer_push_correct find_end acc f chunk Hinv) as Hp.
  destruct (framer_push find_end f chunk) as [f' [|b]]; simpl in Hp.
  - specialize (IH _ _ Hp). rewrite length_app, <- app_assoc in IH. apply IH.
  - destruct Hp as (H1 & H2 & H3). split; [|done].
    rewrite app_assoc. by apply body_end_app.
Qed.

(** ** Blocks: lemmas *)

(** The shape of one block, in terms of the bytes left to scan. *)
Lemma blocks_next_spec find_end `{!TerminatorFinder find_end} data start :
  match blocks_next find_end data start with
  | None => body_end (drop start data) = None
  | Some b => exists e,
      body_end (drop start data) = Some e /\
      (start + e <= length data)%nat /\
      block_start b = start /\ block_end b = (start + e)%nat /\
      block_content_end b = (start + (e - 3))%nat /\
      block_bytes b = take e (drop start data) /\
      block_content b = take (e - 3) (drop start data) /\
      block_terminator b = drop (e - 3) (take e (drop start data))
  end.
Proof.
  unfold blocks_next, get_from. destruct (length data <? start)%nat eqn:E0; simpl.
  { apply Nat.ltb_lt in E0. by rewrite drop_ge by lia. }
  apply Nat.ltb_ge in E0. set (rest := drop start data).
  assert (length rest = length data - start)%nat as Hlen by apply length_drop.
  destruct (length rest =? 0)%nat eqn:E1.
  { apply Nat.eqb_eq, nil_length_inv in E1. by rewrite E1. }
  destruct (body_end rest) as [e|] eqn:Eb.
  - pose proof (body_end_bound _ _ Eb) as Hb.
    replace (if starts_with rest DOT_TERMINATOR then _ else _)
      with (Some (start + e - 3, start + e))%nat.
    2: { unfold body_end in Eb. destruct (starts_with rest DOT_TERMINATOR).
         - simplify_eq. f_equal. f_equal; simpl; lia.
         - apply fmap_Some in Eb as (i & Hi & ->). by rewrite find_end_first, Hi. }
    simpl. exists e. unfold slice. fold rest.
    replace (start + e - start)%nat with e by lia.
    replace (start + e - 3 - start)%nat with (e - 3)%nat by lia.
    split_and!; [done|lia|done|done|lia|done|done|].
    replace (start + e - 3)%nat with (start + (e - 3))%nat by lia.
    rewrite <- drop_drop. fold rest. rewrite take_drop_commute. f_equal. f_equal. lia.
  - unfold body_end in Eb. destruct (starts_with rest DOT_TERMINATOR); [done|].
    rewrite find_end_first. apply fmap_None in Eb. by rewrite Eb.
Qed.

(** The last three bytes of a block are its terminator. *)
Lemma body_end_terminator body e :
  body_end body = Some e -> drop (e - 3) (take e body) = DOT_TERMINATOR.
Proof.
  unfold body_end. destruct (starts_with body DOT_TERMINATOR) eqn:Es.
  - intros [= <-]. by apply starts_with_take in Es.
  - intros (i & [Hi _]%find_sub_Some & ->)%fmap_Some.
    replace (i + 5 - 3)%nat with (i + 2)%nat by lia.
    replace (i + 5)%nat with (i + 2 + 3)%nat by lia.
    rewrite <- take_drop_commute, <- drop_drop.
    apply (f_equal (drop 2)) in Hi. change (length TERMINATOR) with (2 + 3)%nat in Hi.
    by rewrite <- take_drop_commute in Hi.
Qed.

(** Before the terminator a block is empty or ends its last line. *)
Lemma body_end_content body e :
  body_end body = Some e ->
  take (e - 3) body = [] \/ ends_with (take (e - 3) body) CRLF = true.
Proof.
  unfold body_end. destruct (starts_with body DOT_TERMINATOR).
  - intros [= <-]. by left.
  - intros (i & [Hi _]%find_sub_Some & ->)%fmap_Some. right.
    apply ends_with_spec. exists (take i body).
    replace (i + 5 - 3)%nat with (i + 2)%nat by lia.
    rewrite <- (take_drop i (take (i + 2) body)), take_take, Nat.min_l by lia.
    f_equal. rewrite <- take_drop_commute.
    apply (f_equal (take 2)) in Hi. by rewrite take_take in Hi.
Qed.

Lemma dot_blocks_from find_end `{!TerminatorFinder find_end} data fuel start :
  (length data - start <= fuel)%nat ->
  exists rest,
    drop start data
      = concat (block_bytes <$> dot_terminated_blocks find_end fuel data start) ++ rest /\
    body_end rest = None /\
    Forall (fun b =>
        block_bytes b = block_content b ++ block_terminator b /\
        block_terminator b = DOT_TERMINATOR /\
        (block_content b = [] \/ ends_with (block_content b) CRLF = true) /\
        (block_end b <= length data)%nat)
      (dot_terminated_blocks find_end fuel data start).
Proof.
  revert start. induction fuel as [|fuel IH]; intros start Hf.
  { exists []. rewrite drop_ge by lia. split_and!; [done..|constructor]. }
  cbn [dot_terminated_blocks]. pose proof (blocks_next_spec find_end data start) as Hn.
  destruct (blocks_next find_end data start) as [b|].
  - destruct Hn as (e & He & Hle & _ & Hend & _ & Hb & Hc & Ht).
    pose proof (body_end_bound _ _ He) as Hbd.
    destruct (IH (block_end b)) as (rest & Hr & Hnone & Hall); [rewrite Hend; lia|].
    exists rest. split_and!; [|done|constructor; [|done]].
    + cbn [fmap list_fmap concat]. rewrite <- app_assoc, <- Hr, Hend, Hb, <- drop_drop.
      symmetry. apply take_drop.
    + split_and!.
      * rewrite Hb, Hc, Ht. rewrite <- (take_drop (e - 3) (take e _)) at 1.
        by rewrite take_take, Nat.min_l by lia.
      * rewrite Ht. by apply body_end_terminator.
      * rewrite Hc. by apply body_end_content.
      * rewrite Hend. done.
  - exists (drop start data). split_and!; [done..|constructor].
Qed.

(** ** Payload lines: lemmas *)

Lemma next_payload_line_plain acc l rest :
  Forall plain l ->
  next_payload_line acc (l ++ rest) = next_payload_line (acc ++ l) rest.
Proof.
  intros Hl. revert acc. induction Hl as [|b l [H1 H2] _ IH]; intros acc; simpl.
  - by rewrite app_nil_r.
  - apply Z.eqb_neq in H1, H2. by rewrite H1, H2, IH, <- app_assoc.
Qed.

Lemma next_payload_line_spec payload line rest :
  payload <> [] -> next_payload_line [] payload = (line, rest) ->
  Forall plain line /\ (length rest < length payload)%nat.
Proof.
  intros Hne H. destruct (split_plain payload) as [Hp|(l1 & b & l2 & -> & H1 & H2)].
  - rewrite <- (app_nil_r payload), next_payload_line_plain in H by done.
    simplify_eq/=. split; [done|]. destruct line; [done|simpl; lia].
  - rewrite next_payload_line_plain in H by done. rewrite length_app.
    destruct H2 as [-> | ->]; simpl in H.
    + destruct l2 as [|c l2]; [|destruct (c =? LF)%Z]; simplify_eq/=; (split; [done|lia]).
    + simplify_eq/=. split; [done|lia].
Qed.

Lemma payload_lines_enough fuel payload :
  (length payload <= fuel)%nat ->
  payload_lines_fuel fuel payload = crlf_normalized_payload_lines payload.
Proof.
  unfold crlf_normalized_payload_lines.
  remember (length payload) as n eqn:Hn. assert (length payload <= n)%nat as Hle by lia.
  clear Hn. revert n fuel Hle.
  induction payload as [payload IH] using (induction_ltof1 _ (@length Z)).
  intros n fuel Hle Hf. destruct payload as [|b payload]; [by destruct fuel, n|].
  destruct fuel as [|fuel]; [simpl in Hle; lia|]. destruct n as [|n]; [simpl in Hle; lia|].
  cbn [payload_lines_fuel].
  destruct (next_payload_line [] (b :: payload)) as [line rest] eqn:E.
  apply next_payload_line_spec in E as [_ Hlt]; [|done]. f_equal.
  simpl in Hle, Hlt. rewrite (IH rest) with (n := length rest) (fuel := fuel);
    [|unfold ltof; simpl; lia..].
  symmetry. apply IH; [unfold ltof; simpl; lia..].
Qed.

Lemma payload_lines_cons b payload line rest :
  next_payload_line [] (b :: payload) = (line, rest) ->
  crlf_normalized_payload_lines (b :: payload)
  = line :: crlf_normalized_payload_lines rest.
Proof.
  intros H. unfold crlf_normalized_payload_lines at 1. cbn [length payload_lines_fuel].
  rewrite H. f_equal. apply payload_lines_enough.
  apply next_payload_line_spec in H as [_ H]; [|done]. simpl in H. lia.
Qed.

(** Lines put back on the wire, each with its CRLF. *)
Definition join_crlf (lines : list bytes) : bytes :=
  concat ((fun l => l ++ CRLF) <$> lines).

Lemma payload_lines_join lines :
  Forall (Forall plain) lines ->
  crlf_normalized_payload_lines (join_crlf lines) = lines.
Proof.
  induction 1 as [|l lines Hl _ IH]; [done|].
  change (join_crlf (l :: lines)) with ((l ++ CRLF) ++ join_crlf lines).
  assert (next_payload_line [] ((l ++ CRLF) ++ join_crlf lines) = (l, join_crlf lines))
    as H by (rewrite <- app_assoc, next_payload_line_plain by done; done).
  destruct ((l ++ CRLF) ++ join_crlf lines) as [|b p] eqn:E.
  { apply app_nil in E as [E _]. by apply app_nil in E as [_ ?]. }
  erewrite payload_lines_cons by done. by rewrite IH.
Qed.

Lemma payload_lines_plain payload :
  Forall (Forall plain) (crlf_normalized_payload_lines payload).
Proof.
  induction payload as [payload IH] using (induction_ltof1 _ (@length Z)).
  destruct payload as [|b payload]; [constructor|].
  destruct (next_payload_line [] (b :: payload)) as [line rest] eqn:E.
  rewrite (payload_lines_cons _ _ _ _ E).
  apply next_payload_line_spec in E as [? ?]; [|done]. constructor; [done|].
  by apply IH.
Qed.

Lemma join_crlf_cons l lines : join_crlf (l :: lines) = l ++ CRLF ++ join_crlf lines.
Proof. unfold join_crlf. cbn [fmap list_fmap concat]. by rewrite <- app_assoc. Qed.

Lemma join_crlf_app a b : join_crlf (a ++ b) = join_crlf a ++ join_crlf b.
Proof. unfold join_crlf. by rewrite fmap_app, concat_app. Qed.

(** ** Dot stuffing *)

(** A line with its leading dot stuffed, and with one dot taken off again. *)
Definition stuff (line : bytes) : bytes :=
  if starts_with line (lit ".") then lit "." ++ line else line.

Definition unstuff (line : bytes) : bytes := default line (strip_prefix line (lit ".")).

Lemma stuff_plain l : Forall plain l -> Forall plain (stuff l).
Proof.
  intros Hl. unfold stuff. destruct (starts_with l _); [|done].
  by apply Forall_app; split; [repeat constructor|].
Qed.

Lemma stuff_not_dot l : stuff l <> [46%Z].
Proof.
  unfold stuff. destruct (starts_with l (lit ".")) eqn:E.
  - apply starts_with_spec in E as [k ->]. done.
  - intros ->. done.
Qed.

Lemma unstuff_stuff l : unstuff (stuff l) = l.
Proof.
  unfold unstuff, stuff. destruct (starts_with l (lit ".")) eqn:E.
  - by rewrite (proj2 (strip_prefix_Some (lit "." ++ l) (lit ".") l)).
  - unfold strip_prefix. by rewrite E.
Qed.

(** ** Blocks line by line *)

Lemma body_end_dot rest : body_end (DOT_TERMINATOR ++ rest) = Some 3.
Proof. unfold body_end. by rewrite starts_with_app. Qed.

Lemma dot_line_start l rest :
  Forall plain l -> starts_with (l ++ CRLF ++ rest) DOT_TERMINATOR = true -> l = [46%Z].
Proof.
  intros Hl [k Hk]%starts_with_spec.
  destruct l as [|a [|b l]]; [done|by injection Hk as ->|].
  injection Hk as -> -> _. apply Forall_cons_1 in Hl as [_ Hl].
  by apply Forall_cons_1 in Hl as [[H _] _].
Qed.

Lemma no_terminator_in_line l rest j :
  Forall plain l -> (j < length l)%nat -> ~ occurs_at TERMINATOR (l ++ CRLF ++ rest) j.
Proof.
  intros Hl Hj. unfold occurs_at. rewrite drop_app_le by lia.
  destruct (drop j l) as [|x k] eqn:E.
  { apply (f_equal length) in E. rewrite length_drop in E. simpl in E. lia. }
  intros [= H _]. assert (In x l) as Hin.
  { rewrite <- (take_drop j l), E. apply in_or_app. right. by left. }
  rewrite List.Forall_forall in Hl. by destruct (Hl x Hin) as [? _].
Qed.

(** A line other than the lone dot moves the end of the block by its length. *)
Lemma body_end_line l rest :
  Forall plain l -> l <> [46%Z] ->
  body_end (l ++ CRLF ++ rest) = (fun e => length l + 2 + e)%nat <$> body_end rest.
Proof.
  intros Hl Hne. unfold body_end at 1.
  destruct (starts_with (l ++ CRLF ++ rest) DOT_TERMINATOR) eqn:Es.
  { by apply dot_line_start in Es. }
  rewrite (find_sub_skip _ _ (length l)) by (intros j Hj; by apply no_terminator_in_line).
  rewrite drop_app_length. unfold body_end.
  destruct (starts_with rest DOT_TERMINATOR) eqn:Er.
  - apply starts_with_spec in Er as [k ->].
    change (CRLF ++ DOT_TERMINATOR ++ k) with (TERMINATOR ++ k).
    replace (find_sub TERMINATOR (TERMINATOR ++ k)) with (Some 0%nat); [simpl; f_equal; lia|].
    symmetry. apply find_sub_Some. split; [|intros; lia].
    unfold occurs_at. rewrite drop_0. apply take_app_length.
  - rewrite (find_sub_skip _ (CRLF ++ rest) 2).
    + change (drop 2 (CRLF ++ rest)) with rest.
      destruct (find_sub TERMINATOR rest); simpl; [f_equal; lia | done].
    + intros [|[|j]] Hj; [|done|lia]. unfold occurs_at. rewrite drop_0.
      change (take (length TERMINATOR) (CRLF ++ rest)) with (CRLF ++ take 3 rest).
      change TERMINATOR with (CRLF ++ DOT_TERMINATOR). intros H%app_inv_head.
      apply (starts_with_take rest DOT_TERMINATOR) in H. congruence.
Qed.

(** The first terminator after lines that are not the lone dot is the one
    that closes them. *)
Lemma body_end_lines lines rest :
  Forall (Forall plain) lines -> Forall (fun l => l <> [46%Z]) lines ->
  body_end (join_crlf lines ++ rest)
  = (fun e => length (join_crlf lines) + e)%nat <$> body_end rest.
Proof.
  induction 1 as [|l lines Hl _ IH]; intros Hd.
  - simpl. by destruct (body_end rest).
  - apply Forall_cons_1 in Hd as [Hne Hd].
    change (join_crlf (l :: lines)) with ((l ++ CRLF) ++ join_crlf lines).
    rewrite <- !app_assoc, body_end_line, IH by done.
    rewrite !length_app. change (length CRLF) with 2%nat.
    destruct (body_end rest); simpl; [f_equal; lia | done].
Qed.

(** ** Properties *)

(** C3: However a multiline body is cut into chunks, the stateful framer
    completes exactly where the one-shot block search of the whole body ends
    the block, reports the content end three bytes before it, and keeps asking
    for more exactly when the whole body holds no complete block. *)
Theorem framer_matches_block_search find_end `{!TerminatorFinder find_end}
    (chunks : list bytes) :
  match framer_feed find_end framer_default 0 chunks with
  | Some (start, b) =>
      find_dot_terminated_block_end find_end (concat chunks) 0
        = Some (start + chunk_consumed b)%nat /\
      content_end b = (start + chunk_consumed b - 3)%nat
  | None => find_dot_terminated_block_end find_end (concat chunks) 0 = None
  end.
Proof.
  rewrite (block_end_body_end_0 find_end).
  exact (framer_feed_correct find_end chunks [] framer_default framer_inv_default).
Qed.

Definition split_chunks : list bytes :=
  [lit "a"; [13; 10; 46]%Z; []; [13]%Z; [10]%Z ++ lit "next"].

Lemma framer_matches_block_search_witness :
  find_dot_terminated_block_end find_streaming_terminator_end (concat split_chunks) 0
    = Some 6%nat.
Proof.
  exact (proj1 (framer_matches_block_search find_streaming_terminator_end split_chunks)).
Defined.

(** The rolling tail always holds the last four bytes of everything it was
    given, whatever the sizes of the chunks. *)
Theorem detector_tail_is_last_four (chunks : list bytes) :
  as_slice (fold_left detector_update chunks detector_default)
  = last_n 4 (concat chunks).
Proof.
  assert (forall t, detector_ok t ->
    detector_ok (fold_left detector_update chunks t) /\
    as_slice (fold_left detector_update chunks t)
    = last_n 4 (as_slice t ++ concat chunks)) as H.
  { induction chunks as [|c chunks IH]; intros t Hok; simpl.
    - split; [done|]. rewrite app_nil_r, last_n_short; [done|].
      rewrite length_as_slice by done. apply Hok.
    - destruct (IH _ (detector_update_ok t c Hok)) as [H1 H2]. split; [done|].
      by rewrite H2, detector_update_slice, last_n_app, <- app_assoc by done. }
  by destruct (H detector_default detector_default_ok).
Qed.

(** The strict line scan classifies every buffer: a line is complete at
    the first CRLF when no bare CR or LF precedes it, more input is needed
    exactly when the buffer is a plain prefix with at most a final CR, and any
    other CR or LF is invalid. *)
Theorem response_line_end_classified (buffer : bytes) (s : line_status) :
  detect_response_line_end buffer = s <-> line_status_spec buffer s.
Proof.
  split; [intros <-; apply detect_line_spec|apply detect_line_of_spec].
Qed.

Lemma response_line_end_classified_witness :
  line_status_spec (lit "200 ok" ++ CRLF) (ResponseLineStatus.CompleteAt 8) /\
  detect_response_line_end (lit "a" ++ [10]%Z) = ResponseLineStatus.Invalid.
Proof.
  split.
  - apply (response_line_end_classified (lit "200 ok" ++ CRLF)). reflexivity.
  - apply (response_line_end_classified (lit "a" ++ [10]%Z)).
    exists (lit "a"), 10%Z, []. split_and!; [done| |by left].
    repeat constructor; unfold plain; vm_compute; intuition discriminate.
Defined.

(** Under a line cap an accepted line end is within the cap and the buffer,
    "need more" is only answered below the cap, and a decision is final:
    appending input keeps the line end, and keeps a rejected line rejected. *)
Theorem bounded_line_end_stable (buffer more : bytes) (max_len : nat) :
  match detect_bounded_response_line_end buffer max_len with
  | BoundedResponseLineStatus.CompleteAt e =>
      (e <= max_len)%nat /\ (e <= length buffer)%nat /\
      detect_bounded_response_line_end (buffer ++ more) max_len
        = BoundedResponseLineStatus.CompleteAt e
  | BoundedResponseLineStatus.NeedMore => (length buffer < max_len)%nat
  | BoundedResponseLineStatus.Invalid | BoundedResponseLineStatus.TooLong =>
      line_rejected (detect_bounded_response_line_end (buffer ++ more) max_len) = true
  end.
Proof. apply bounded_line_extend. Qed.

(** Iterating over the blocks of a buffer terminates within one step per
    byte and partitions it: the blocks are consecutive, each is its content
    followed by the dot terminator, the content is empty or ends with CRLF,
    and what is left over holds no complete block. *)
Theorem dot_blocks_partition find_end `{!TerminatorFinder find_end}
    (data : bytes) (start fuel : nat) :
  (length data <= fuel)%nat ->
  exists rest,
    drop start data
      = concat (block_bytes <$> dot_terminated_blocks find_end fuel data start) ++ rest /\
    body_end rest = None /\
    Forall (fun b =>
        block_bytes b = block_content b ++ block_terminator b /\
        block_terminator b = DOT_TERMINATOR /\
        (block_content b = [] \/ ends_with (block_content b) CRLF = true) /\
        (block_end b <= length data)%nat)
      (dot_terminated_blocks find_end fuel data start).
Proof.
  intros Hf. apply dot_blocks_from; [done|lia].
Qed.

Lemma dot_blocks_partition_witness :
  exists rest,
    lit "x" ++ TERMINATOR ++ DOT_TERMINATOR ++ lit "y"
      = concat (block_bytes <$> dot_terminated_blocks find_streaming_terminator_end 20
                  (lit "x" ++ TERMINATOR ++ DOT_TERMINATOR ++ lit "y") 0) ++ rest.
Proof.
  destruct (dot_blocks_partition find_streaming_terminator_end
    (lit "x" ++ TERMINATOR ++ DOT_TERMINATOR ++ lit "y") 0 20) as (rest & H & _).
  - apply Nat.leb_le. reflexivity.
  - exists rest. exact H.
Defined.

(** Normalising a payload yields lines without CR or LF, and putting those
    lines on the wire and normalising again gives them back: mixed CRLF, CR
    and LF endings all collapse to the same canonical lines. *)
Theorem payload_lines_canonical (payload : bytes) :
  Forall (Forall plain) (crlf_normalized_payload_lines payload) /\
  crlf_normalized_payload_lines (join_crlf (crlf_normalized_payload_lines payload))
    = crlf_normalized_payload_lines payload.
Proof. split; [apply payload_lines_plain|apply payload_lines_join, payload_lines_plain]. Qed.
