(* ===== verification/VectorScanner.v ===== *)
(** * The fixed-pattern vector scanner ([src/src/terminator/vector_scanner.rs])

    One scanner per target: the lane loops [find_repeat] and [find_or] that the
    compiler vectorises, and the hand-written AVX2 loop with its folded
    32-lane mask.  Each is proved equal to the plain search for the first
    terminator, so each is a [TerminatorFinder]. *)
From S2P Require Import Prelude Memchr Terminator.

Local Open Scope nat_scope.

Definition first_match (block : bytes) : option nat := find_sub TERMINATOR block.

(** [block[i]], with the index in range at every use. *)
Definition byte_at (block : bytes) (i : nat) : Z := nth i block 0%Z.

Section scanners.
Context `{!Memchr}.

(** The search of the bytes the vector loop leaves over. *)
Definition scan_rest (data : bytes) (offset : nat) : option nat :=
  (fun start => offset + start) <$> memmem_find (drop offset data) TERMINATOR.

(** ** Lane loops *)

Definition exact_pair (first : nat) (byte : Z) (block : bytes) (lane : nat) : bool :=
  (byte_at block (lane + first) =? byte)%Z
  && (byte_at block (lane + first + 3) =? byte)%Z.

Definition or_pair (first : nat) (byte : Z) (block : bytes) (lane : nat) : bool :=
  (Z.lor (byte_at block (lane + first)) (byte_at block (lane + first + 3)) =? byte)%Z.

(** [possible |= ..] over the lanes. *)
Definition any_lane (test : nat -> bool) (width : nat) : bool :=
  existsb test (seq 0 width).

Definition exact_pair_match (width first : nat) (byte : Z) (block : bytes)
    : option nat :=
  if any_lane (exact_pair first byte block) width then first_match block else None.

Fixpoint lane_loop (fuel width : nat) (possible : bytes -> bool)
    (verify : bytes -> option nat) (data : bytes) (offset : nat) : option nat :=
  match fuel with
  | O => None
  | S fuel' =>
      if width + 4 <=? length data - offset then
        let block := slice data offset (offset + width + 4) in
        match (if possible block then verify block else None) with
        | Some lane => Some (offset + lane)
        | None => lane_loop fuel' width possible verify data (offset + width)
        end
      else scan_rest data offset
  end.

Definition find_repeat (width first : nat) (byte : Z) (data : bytes) : option nat :=
  lane_loop (S (length data)) width
    (fun block => any_lane (exact_pair first byte block) width)
    first_match data 0.

Definition find_or (width first : nat) (byte : Z)
    (verify : bytes -> option nat) (data : bytes) : option nat :=
  lane_loop (S (length data)) width
    (fun block => any_lane (or_pair first byte block) width)
    verify data 0.

(** ** The AVX2 loop *)

(** 256-bit vectors are their 32 bytes. *)
Definition loadu_si256 (data : bytes) (at_ : nat) : bytes := take 32 (drop at_ data).
Definition set1_epi8 (b : Z) : bytes := replicate 32 b.
Definition cmpeq_epi8 (a b : bytes) : bytes :=
  zip_with (fun x y => if (x =? y)%Z then 255%Z else 0%Z) a b.
Definition or_si256 (a b : bytes) : bytes := zip_with Z.lor a b.

(** [_mm256_movemask_epi8]: bit [i] is the top bit of byte [i]. *)
Fixpoint movemask_epi8 (v : bytes) : Z :=
  match v with
  | [] => 0%Z
  | x :: v' => (Z.b2z (Z.testbit x 7) + 2 * movemask_epi8 v')%Z
  end.

Definition rotate_right_u32 (x n : Z) : Z :=
  Z.land (Z.lor (Z.shiftr x n) (Z.shiftl x (32 - n))) (Z.ones 32).

Definition avx2_mask (data : bytes) : Z :=
  let needle := set1_epi8 CR in
  let a := cmpeq_epi8 (loadu_si256 data 0) needle in
  let b := cmpeq_epi8 (loadu_si256 data 32) needle in
  let c := cmpeq_epi8 (loadu_si256 data 64) needle in
  let d := cmpeq_epi8 (loadu_si256 data 96) needle in
  movemask_epi8 (or_si256 (or_si256 a b) (or_si256 c d)).

Fixpoint find_avx2_loop (fuel original_len : nat) (data : bytes) : option nat :=
  match fuel with
  | O => None
  | S fuel' =>
      if 128 <=? length data then
        let mask := avx2_mask data in
        match (if negb (Z.land mask (rotate_right_u32 mask 3) =? 0)%Z
               then first_match (take 128 data) else None) with
        | Some lane => Some (original_len - length data + lane)
        | None => find_avx2_loop fuel' original_len (drop 124 data)
        end
      else (fun start => original_len - length data + start)
           <$> memmem_find data TERMINATOR
  end.

Definition find_avx2 (data : bytes) : option nat :=
  find_avx2_loop (S (length data)) (length data) data.

(** ** [find], by compilation target *)

Inductive Target : Type := Aarch64 | Avx512bw | Avx2 | X86_64.

Definition find (target : Target) (data : bytes) : option nat :=
  match target with
  | Aarch64 => find_or 128 0 CR (exact_pair_match 128 0 CR) data
  | Avx512bw => find_or 256 1 LF (exact_pair_match 256 1 LF) data
  | Avx2 => find_avx2 data
  | X86_64 => find_repeat 128 0 CR data
  end.

Definition vector_terminator_end (target : Target) (data : bytes) : option nat :=
  (fun start => start + length TERMINATOR) <$> find target data.
End scanners.

(** ** Lane loops: lemmas *)

(** A byte repeated three positions apart inside the terminator. *)
Definition repeated (first : nat) (byte : Z) : Prop :=
  (first = 0 /\ byte = CR) \/ (first = 1 /\ byte = LF).

Lemma occurs_byte_at data i k b :
  occurs_at TERMINATOR data i -> TERMINATOR !! k = Some b ->
  byte_at data (i + k) = b.
Proof.
  unfold occurs_at. intros H Hk. rewrite <- H in Hk.
  rewrite lookup_take_Some in Hk. destruct Hk as [Hk _].
  rewrite lookup_drop in Hk. unfold byte_at. by apply nth_lookup_Some.
Qed.

Lemma any_lane_true test width lane :
  lane < width -> test lane = true -> any_lane test width = true.
Proof.
  intros H1 H2. apply existsb_exists. exists lane. split; [|done].
  apply in_seq. lia.
Qed.

Lemma repeated_bytes first byte block lane :
  repeated first byte -> occurs_at TERMINATOR block lane ->
  byte_at block (lane + first) = byte /\ byte_at block (lane + first + 3) = byte.
Proof.
  intros [[-> ->]|[-> ->]] Ho; rewrite <- Nat.add_assoc;
    split; by eapply occurs_byte_at.
Qed.

Lemma exact_pair_complete first byte block lane :
  repeated first byte -> occurs_at TERMINATOR block lane ->
  exact_pair first byte block lane = true.
Proof.
  intros Hr Ho. destruct (repeated_bytes _ _ _ _ Hr Ho) as [H1 H2].
  unfold exact_pair. by rewrite H1, H2, !Z.eqb_refl.
Qed.

Lemma or_pair_complete first byte block lane :
  repeated first byte -> occurs_at TERMINATOR block lane ->
  or_pair first byte block lane = true.
Proof.
  intros Hr Ho. destruct (repeated_bytes _ _ _ _ Hr Ho) as [H1 H2].
  unfold or_pair. by rewrite H1, H2, Z.lor_diag, Z.eqb_refl.
Qed.

(** A block with a terminator has it in one of the tested lanes. *)
Lemma occurs_lane block width lane :
  length block = width + 4 -> occurs_at TERMINATOR block lane -> lane < width.
Proof. intros Hl Ho%occurs_at_bound; [|done]. simpl in Ho. lia. Qed.

(** [possible] may let a block through but never drops a terminator. *)
Definition filter_complete (width : nat) (possible : bytes -> bool)
    (verify : bytes -> option nat) : Prop :=
  forall block, length block = width + 4 ->
    (if possible block then verify block else None) = find_sub TERMINATOR block.

Lemma filter_complete_any test verify width :
  (forall block lane, occurs_at TERMINATOR block lane -> test block lane = true) ->
  (forall block, length block = width + 4 -> verify block = find_sub TERMINATOR block) ->
  filter_complete width (fun block => any_lane (test block) width) verify.
Proof.
  intros Htest Hv block Hl. rewrite (Hv block Hl).
  destruct (any_lane (test block) width) eqn:E; [done|]. symmetry.
  apply find_sub_None. intros lane Ho.
  rewrite (any_lane_true _ width lane) in E; [done| |by apply Htest].
  by eapply occurs_lane.
Qed.

Section correctness.
Context `{!Memchr, !MemchrSpec}.

Lemma scan_rest_correct data offset :
  scan_rest data offset
  = (fun i => offset + i) <$> find_sub TERMINATOR (drop offset data).
Proof. unfold scan_rest. by rewrite memmem_find_sub. Qed.

(** One block without a terminator rules out [width] positions. *)
Lemma block_skip data offset width :
  offset + width + 4 <= length data ->
  find_sub TERMINATOR (slice data offset (offset + width + 4)) = None ->
  find_sub TERMINATOR (drop offset data)
  = (fun i => width + i) <$> find_sub TERMINATOR (drop (offset + width) data).
Proof.
  intros Hlen Hnone. rewrite (find_sub_skip _ _ width).
  - by rewrite drop_drop.
  - intros j Hj Ho. apply (proj1 (find_sub_None _ _) Hnone j).
    unfold slice. apply occurs_at_take; [simpl; lia|done].
Qed.

Lemma lane_loop_correct fuel width possible verify data offset :
  0 < width -> filter_complete width possible verify ->
  length data - offset < fuel -> offset <= length data ->
  lane_loop fuel width possible verify data offset
  = (fun i => offset + i) <$> find_sub TERMINATOR (drop offset data).
Proof.
  intros Hw Hf. revert offset. induction fuel as [|fuel IH]; intros offset Hfuel Hoff;
    [lia|]. cbn [lane_loop].
  destruct (width + 4 <=? length data - offset) eqn:E; [|apply scan_rest_correct].
  apply Nat.leb_le in E.
  rewrite Hf by (rewrite length_slice by lia; lia).
  destruct (find_sub TERMINATOR (slice _ _ _)) as [lane|] eqn:Eb.
  - unfold slice in Eb. rewrite <- (take_drop (offset + width + 4 - offset) (drop offset data)).
    by erewrite find_sub_app.
  - rewrite IH by lia. rewrite (block_skip data offset width) by (done || lia).
    rewrite <- option_fmap_compose. apply option_fmap_ext. intros i. simpl. lia.
Qed.

Lemma exact_pair_match_correct width first byte block :
  repeated first byte -> length block = width + 4 ->
  exact_pair_match width first byte block = find_sub TERMINATOR block.
Proof.
  intros Hr. apply (filter_complete_any (exact_pair first byte)); [|done].
  intros b lane. by apply exact_pair_complete.
Qed.

Lemma fmap_add_0 (o : option nat) : (fun i => 0 + i) <$> o = o.
Proof. by destruct o. Qed.

Lemma find_repeat_correct width first byte data :
  0 < width -> repeated first byte ->
  find_repeat width first byte data = find_sub TERMINATOR data.
Proof.
  intros Hw Hr. unfold find_repeat. rewrite lane_loop_correct; [|done| |lia|lia].
  - rewrite drop_0. apply fmap_add_0.
  - apply filter_complete_any; [|done]. intros b lane. by apply exact_pair_complete.
Qed.

Lemma find_or_correct width first byte data :
  0 < width -> repeated first byte ->
  find_or width first byte (exact_pair_match width first byte) data
  = find_sub TERMINATOR data.
Proof.
  intros Hw Hr. unfold find_or. rewrite lane_loop_correct; [|done| |lia|lia].
  - rewrite drop_0. apply fmap_add_0.
  - apply filter_complete_any.
    + intros b lane. by apply or_pair_complete.
    + intros b. by apply exact_pair_match_correct.
Qed.
End correctness.

(** ** The folded AVX2 mask: lemmas *)

Lemma testbit_movemask v i :
  Z.testbit (movemask_epi8 v) (Z.of_nat i)
  = match v !! i with Some x => Z.testbit x 7 | None => false end.
Proof.
  revert i. induction v as [|x v IH]; intros i; cbn [movemask_epi8].
  - by rewrite Z.testbit_0_l.
  - rewrite Z.add_comm. destruct i as [|i]; cbn [lookup list_lookup].
    + by rewrite Z.testbit_0_r.
    + rewrite Nat2Z.inj_succ, Z.testbit_succ_r by lia. apply IH.
Qed.

(** Rotating right moves bit [(i + n) mod 32] to bit [i]. *)
Lemma testbit_rotate_right x n i :
  (0 <= x < 2 ^ 32)%Z -> (0 <= n < 32)%Z -> (0 <= i < 32)%Z ->
  Z.testbit (rotate_right_u32 x n) i = Z.testbit x ((i + n) mod 32).
Proof.
  intros Hx Hn Hi. unfold rotate_right_u32.
  rewrite Z.land_spec, Z.ones_spec_low, andb_true_r by lia.
  rewrite Z.lor_spec, Z.shiftr_spec, Z.shiftl_spec by lia.
  destruct (decide (i + n < 32)%Z) as [H|H].
  - rewrite (Z.testbit_neg_r x (i - (32 - n))), orb_false_r by lia.
    f_equal. rewrite Z.mod_small; lia.
  - assert (Z.testbit x (i + n) = false) as ->.
    { destruct (decide (x = 0)%Z) as [->|]; [apply Z.testbit_0_l|].
      apply Z.bits_above_log2; [lia|].
      assert (Z.log2 x < 32)%Z by (apply Z.log2_lt_pow2; lia). lia. }
    simpl. f_equal. apply Z.mod_unique_pos with 1%Z; lia.
Qed.

Lemma movemask_range v : (0 <= movemask_epi8 v < 2 ^ Z.of_nat (length v))%Z.
Proof.
  induction v as [|x v IH]; [done|]. cbn [movemask_epi8 length].
  rewrite Nat2Z.inj_succ, Z.pow_succ_r by lia. destruct (Z.testbit x 7); simpl; lia.
Qed.

Lemma length_cmpeq data at_ :
  at_ + 32 <= length data ->
  length (cmpeq_epi8 (loadu_si256 data at_) (set1_epi8 CR)) = 32.
Proof.
  intros H. unfold cmpeq_epi8, loadu_si256, set1_epi8.
  rewrite length_zip_with, length_take, length_drop, length_replicate. lia.
Qed.

Lemma cmpeq_lookup data at_ i :
  at_ + 32 <= length data -> i < 32 -> data !! (at_ + i) = Some CR ->
  cmpeq_epi8 (loadu_si256 data at_) (set1_epi8 CR) !! i = Some 255%Z.
Proof.
  intros H Hi Hl. unfold cmpeq_epi8, loadu_si256, set1_epi8.
  rewrite lookup_zip_with, lookup_take_lt, lookup_drop, Hl by done.
  cbn [mbind option_bind]. by rewrite lookup_replicate_2.
Qed.

(** Each of the four compared vectors shows through the two folds. *)
Lemma avx2_mask_bit data i p :
  128 <= length data -> i < 32 -> p < 4 -> data !! (32 * p + i) = Some CR ->
  Z.testbit (avx2_mask data) (Z.of_nat i) = true.
Proof.
  intros Hlen Hi Hp Hl. unfold avx2_mask. rewrite testbit_movemask.
  set (v at_ := cmpeq_epi8 (loadu_si256 data at_) (set1_epi8 CR)).
  assert (forall at_, at_ <= 96 -> exists x, v at_ !! i = Some x) as Hv.
  { intros at_ Hat. apply lookup_lt_is_Some_2. unfold v.
    rewrite length_cmpeq by lia. done. }
  assert (v (32 * p) !! i = Some 255%Z) as Hset by (apply cmpeq_lookup; lia || done).
  change (cmpeq_epi8 (loadu_si256 data ?k) (set1_epi8 CR)) with (v k).
  destruct (Hv 0 ltac:(lia)) as [x0 E0], (Hv 32 ltac:(lia)) as [x1 E1],
    (Hv 64 ltac:(lia)) as [x2 E2], (Hv 96 ltac:(lia)) as [x3 E3].
  unfold or_si256. rewrite !lookup_zip_with, E0, E1, E2, E3. cbn [mbind option_bind].
  rewrite !Z.lor_spec.
  assert (p = 0 \/ p = 1 \/ p = 2 \/ p = 3) as [-> | [-> | [-> | ->]]] by lia;
    simpl in Hset; [rewrite Hset in E0|rewrite Hset in E1
                   |rewrite Hset in E2|rewrite Hset in E3]; simplify_eq;
    change (Z.testbit 255 7) with true; by rewrite ?orb_true_r, ?orb_true_l.
Qed.

Lemma avx2_mask_range data :
  128 <= length data -> (0 <= avx2_mask data < 2 ^ 32)%Z.
Proof.
  intros H. unfold avx2_mask. match goal with |- (0 <= movemask_epi8 ?v < _)%Z => pose proof (movemask_range v) as Hr; replace (length v) with 32 in Hr; [exact Hr|] end.
  unfold or_si256. rewrite !length_zip_with, !length_cmpeq by lia. done.
Qed.

(** The filter never drops a terminator of the first 128 bytes. *)
Lemma avx2_filter_complete data i :
  128 <= length data -> i + 5 <= 128 -> occurs_at TERMINATOR data i ->
  Z.land (avx2_mask data) (rotate_right_u32 (avx2_mask data) 3) <> 0%Z.
Proof.
  intros Hlen Hi Ho Hz.
  assert (forall k, (k = 0 \/ k = 3) ->
            Z.testbit (avx2_mask data) (Z.of_nat ((i + k) mod 32)) = true) as Hbit.
  { intros k Hk. apply (avx2_mask_bit data _ ((i + k) / 32)); [done|..].
    - apply Nat.mod_upper_bound. lia.
    - apply Nat.Div0.div_lt_upper_bound. lia.
    - rewrite <- Nat.div_mod_eq. unfold occurs_at in Ho.
      assert (TERMINATOR !! k = Some CR) as Hk' by by destruct Hk as [-> | ->].
      rewrite <- Ho, lookup_take_Some, lookup_drop in Hk'. apply Hk'. }
  apply (f_equal (fun z => Z.testbit z (Z.of_nat (i mod 32)))) in Hz.
  rewrite Z.land_spec, Z.testbit_0_l in Hz.
  pose proof (Nat.mod_upper_bound i 32 ltac:(lia)) as Hm.
  rewrite testbit_rotate_right in Hz by (apply avx2_mask_range || lia; done || lia).
  pose proof (Hbit 0 ltac:(lia)) as H0. pose proof (Hbit 3 ltac:(lia)) as H3.
  rewrite Nat.add_0_r in H0. rewrite H0, andb_true_l in Hz.
  replace ((Z.of_nat (i mod 32) + 3) mod 32)%Z with (Z.of_nat ((i + 3) mod 32)) in Hz.
  - congruence.
  - rewrite !Nat2Z.inj_mod, Nat2Z.inj_add. change (Z.of_nat 32) with 32%Z.
    rewrite Zplus_mod_idemp_l. done.
Qed.

Section avx2.
Context `{!Memchr, !MemchrSpec}.

Lemma find_avx2_loop_correct fuel n data :
  length data < fuel -> length data <= n ->
  find_avx2_loop fuel n data
  = (fun i => n - length data + i) <$> find_sub TERMINATOR data.
Proof.
  revert data. induction fuel as [|fuel IH]; intros data Hf Hn; [lia|].
  cbn [find_avx2_loop]. destruct (128 <=? length data) eqn:E.
  2: { by rewrite memmem_find_sub. }
  apply Nat.leb_le in E.
  assert ((if negb (Z.land (avx2_mask data) (rotate_right_u32 (avx2_mask data) 3) =? 0)%Z
           then first_match (take 128 data) else None)
          = find_sub TERMINATOR (take 128 data)) as ->.
  { destruct (Z.eqb_spec (Z.land (avx2_mask data)
                (rotate_right_u32 (avx2_mask data) 3)) 0) as [Hz|]; simpl; [|done].
    symmetry. apply find_sub_None. intros i Ho.
    pose proof (occurs_at_bound TERMINATOR _ _ ltac:(done) Ho) as Hb.
    rewrite length_take in Hb. change (length TERMINATOR) with 5 in Hb.
    apply (avx2_filter_complete data i) in Hz; [done|done|lia|].
    apply (occurs_at_take _ _ 128); [simpl; lia|done]. }
  destruct (find_sub TERMINATOR (take 128 data)) as [lane|] eqn:Eb.
  - rewrite <- (take_drop 128 data) at 2. by erewrite find_sub_app.
  - rewrite IH by (rewrite length_drop; lia).
    rewrite (find_sub_skip TERMINATOR data 124), <- option_fmap_compose.
    + apply option_fmap_ext. intros i. simpl. rewrite length_drop. lia.
    + intros j Hj Ho. apply (proj1 (find_sub_None _ _) Eb j).
      apply occurs_at_take; [simpl; lia|done].
Qed.

Lemma find_avx2_correct data : find_avx2 data = find_sub TERMINATOR data.
Proof.
  unfold find_avx2. rewrite find_avx2_loop_correct by lia.
  rewrite Nat.sub_diag. apply fmap_add_0.
Qed.

Lemma find_correct target data : find target data = find_sub TERMINATOR data.
Proof.
  destruct target; simpl.
  - apply find_or_correct; [lia|by left].
  - apply find_or_correct; [lia|by right].
  - apply find_avx2_correct.
  - apply find_repeat_correct; [lia|by left].
Qed.
End avx2.

#[export] Instance vector_terminator_finder `{!Memchr, !MemchrSpec} target :
  TerminatorFinder (vector_terminator_end target).
Proof. intros data. unfold vector_terminator_end. by rewrite find_correct. Qed.

(** ** Properties *)

(** C34: On every target the vector scanner finds exactly the first terminator:
    the OR-folded AVX2 mask, the OR-predicate and the equality lane loops may
    let blocks through but never lose a match, across blocks and in the rest. *)
Theorem vector_find_is_first_terminator `{!Memchr, !MemchrSpec}
    (target : Target) (data : bytes) :
  find target data = find_sub TERMINATOR data.
Proof. apply find_correct. Qed.

Lemma vector_find_is_first_terminator_witness :
  find Avx2 (replicate 125 DOT ++ TERMINATOR ++ replicate 9 SP) = Some 125.
Proof.
  exact (vector_find_is_first_terminator Avx2
           (replicate 125 DOT ++ TERMINATOR ++ replicate 9 SP)).
Defined.

(** The framer running on any vector scanner frames a fragmented body as
    the portable one-shot search frames the whole body. *)
Theorem vector_framer_agrees `{!Memchr, !MemchrSpec} (target : Target)
    (chunks : list bytes) :
  (fun '(start, b) => start + chunk_consumed b)
    <$> framer_feed (vector_terminator_end target) framer_default 0 chunks
  = find_dot_terminated_block_end find_streaming_terminator_end (concat chunks) 0.
Proof.
  rewrite (block_end_body_end_0 find_streaming_terminator_end).
  pose proof (framer_feed_correct (vector_terminator_end target) chunks []
                framer_default framer_inv_default) as Hf.
  simpl in Hf. destruct (framer_feed _ _ _ _) as [[start b]|]; simpl.
  - by destruct Hf as [-> _].
  - by rewrite Hf.
Qed.

Lemma vector_framer_agrees_witness :
  (fun '(start, b) => start + chunk_consumed b)
    <$> framer_feed (vector_terminator_end Aarch64) framer_default 0 split_chunks
  = Some 6.
Proof. exact (vector_framer_agrees Aarch64 split_chunks). Defined.
