(* ===== verification/Args.v ===== *)
(** * Validated arguments ([src/src/protocol.rs], argument newtypes)

    The validators behind [MessageId], [ArticleRef], [HeaderName],
    [ArticleSelector], [ListGroupRange], [GroupName], [AuthInfoValue],
    [NntpDate], [NntpTime], [Wildmat] and keywords.  A validated newtype is
    the byte string it wraps (the borrowed, owned and shared representations
    compare and print alike), and each unit error struct is a constructor of
    [invalid]. *)
From S2P Require Import Prelude Utf8 Decimal.

Local Open Scope Z_scope.
Local Open Scope rust_scope.

Definition MAX_ARTICLE_NUMBER : Z := 2147483647.

Inductive invalid : Type :=
| InvalidMessageId
| InvalidArticleRef
| InvalidHeaderName
| InvalidArticleSelector
| InvalidListGroupRange
| InvalidArticleNumberToken
| InvalidGroupName
| InvalidAuthInfoValue
| InvalidNntpDate
| InvalidNntpTime
| InvalidWildmat
| InvalidCapabilityKeyword.

(** ** Message-ids *)

Definition message_id_byte (b : Z) : bool := in_range 33 61 b || in_range 63 126 b.

Definition validate_message_id (value : bytes) : result unit invalid :=
  if negb ((3 <=? length value) && (length value <=? 250))%nat
     || negb (starts_with value (lit "<")) || negb (ends_with value (lit ">"))
  then Err InvalidMessageId
  else
    let inner := slice value 1 (length value - 1) in
    if existsb (fun b => negb (message_id_byte b)) inner
    then Err InvalidMessageId else Ok tt.

Definition message_id_from_borrowed (value : bytes) : result bytes invalid :=
  let? _ := validate_message_id value in Ok value.

Definition message_id_from_str_or_wrap (value : bytes) : result bytes invalid :=
  match value with
  | [] => Err InvalidMessageId
  | _ =>
      let wrapped := if starts_with value (lit "<") && ends_with value (lit ">")
                     then value else lit "<" ++ value ++ lit ">" in
      let? _ := validate_message_id wrapped in Ok wrapped
  end.

(** ** Article numbers and references *)

Definition article_number_token_value (value : bytes) : result Z invalid :=
  if (length value =? 0)%nat || (16 <? length value)%nat
     || negb (forallb is_ascii_digit value)
  then Err InvalidArticleNumberToken
  else
    let? number := ok_or InvalidArticleNumberToken (parse_decimal value) in
    if (number =? 0) || (MAX_ARTICLE_NUMBER <? number)
    then Err InvalidArticleNumberToken else Ok number.

Definition validate_article_number_token (value : bytes) : result unit invalid :=
  let? _ := article_number_token_value value in Ok tt.

Module ArticleRef.
Inductive ArticleRef : Type :=
| Current
| Number (value : Z)
| MessageId (message_id : bytes).

Definition from_number (value : Z) : result ArticleRef invalid :=
  if (value =? 0) || (MAX_ARTICLE_NUMBER <? value)
  then Err InvalidArticleRef else Ok (Number value).

Definition message_id (self : ArticleRef) : option bytes :=
  match self with
  | MessageId m => Some m
  | Current | Number _ => None
  end.

Definition from_selector (value : bytes) : result ArticleRef invalid :=
  if (length value =? 0)%nat || existsb is_ascii_whitespace value
  then Err InvalidArticleRef
  else if forallb is_ascii_digit value then
    let? number := map_err (fun _ => InvalidArticleRef)
                     (article_number_token_value value) in
    from_number number
  else
    let? m := map_err (fun _ => InvalidArticleRef) (message_id_from_borrowed value) in
    Ok (MessageId m).
End ArticleRef.

(** ** Header names, selectors, ranges and group names *)

Definition header_name_byte (b : Z) : bool := in_range 33 57 b || in_range 59 126 b.

Definition validate_header_name (value : bytes) : result unit invalid :=
  let value := default value (strip_prefix value (lit ":")) in
  if (length value =? 0)%nat then Err InvalidHeaderName
  else if negb (forallb header_name_byte value) then Err InvalidHeaderName
  else Ok tt.

(** [value.split_once(c)]. *)
Definition split_once (c : Z) (value : bytes) : option (bytes * bytes) :=
  (fun i => (take i value, drop (S i) value)) <$> position (Z.eqb c) value.

Definition HYPHEN : Z := 45.

Definition validate_article_selector (value : bytes) : result unit invalid :=
  if (length value =? 0)%nat || existsb is_ascii_whitespace value
  then Err InvalidArticleSelector
  else if starts_with value (lit "<") then
    map_err (fun _ => InvalidArticleSelector)
      (let? _ := message_id_from_borrowed value in Ok tt)
  else
    match split_once HYPHEN value with
    | Some (start, end_) =>
        let? _ := map_err (fun _ => InvalidArticleSelector)
                    (article_number_token_value start) in
        if (length end_ =? 0)%nat then Ok tt
        else
          let? _ := map_err (fun _ => InvalidArticleSelector)
                      (article_number_token_value end_) in
          Ok tt
    | None =>
        map_err (fun _ => InvalidArticleSelector)
          (let? _ := article_number_token_value value in Ok tt)
    end.

Definition validate_listgroup_range (value : bytes) : result unit invalid :=
  if (length value =? 0)%nat || existsb is_ascii_whitespace value
  then Err InvalidListGroupRange
  else
    match split_once HYPHEN value with
    | Some (start, end_) =>
        let? _ := map_err (fun _ => InvalidListGroupRange)
                    (article_number_token_value start) in
        if negb (length end_ =? 0)%nat then
          let? _ := map_err (fun _ => InvalidListGroupRange)
                      (article_number_token_value end_) in
          Ok tt
        else Ok tt
    | None => map_err (fun _ => InvalidListGroupRange)
                (validate_article_number_token value)
    end.

(** [value.contains('\u{feff}')]. *)
Definition contains_utf8_bom (value : bytes) : bool :=
  existsb (Z.eqb 65279) (chars value).

Definition is_wildmat_exact_or_utf8_non_ascii (b : Z) : bool :=
  in_range 34 41 b || (b =? 43) || in_range 45 62 b || in_range 64 90 b
  || in_range 94 126 b || in_range 128 255 b.

Definition validate_group_name (value : bytes) : result unit invalid :=
  if (length value =? 0)%nat || contains_utf8_bom value
     || existsb (fun b => negb (is_wildmat_exact_or_utf8_non_ascii b)) value
  then Err InvalidGroupName else Ok tt.

(** ** AUTHINFO values *)

Definition validate_auth_info_value_bytes (value : bytes) : bool :=
  negb (length value =? 0)%nat
  && forallb (fun b => negb ((b =? 0) || (b =? CR) || (b =? LF))) value.

(** ** Dates, times and wildmats *)

Definition parse_two_digits (l : bytes) : option Z :=
  match l with
  | [b0; b1] =>
      tens ← u8_checked_sub b0 48;
      ones ← u8_checked_sub b1 48;
      if (9 <? tens) || (9 <? ones) then None else Some (tens * 10 + ones)
  | _ => None
  end.

Definition validate_nntp_date (value : bytes) : result unit invalid :=
  let n := length value in
  if negb ((n =? 6)%nat || (n =? 8)%nat)
     || existsb (fun b => negb (is_ascii_digit b)) value
  then Err InvalidNntpDate
  else
    let? month := ok_or InvalidNntpDate (parse_two_digits (slice value (n - 4) (n - 2))) in
    let? day := ok_or InvalidNntpDate (parse_two_digits (drop (n - 2) value)) in
    if negb (in_range 1 12 month) || (day =? 0) then Err InvalidNntpDate
    else
      let? _ := (if (n =? 8)%nat then
                   let? year := ok_or InvalidNntpDate (parse_decimal (take 4 value)) in
                   if negb (in_range 1900 9999 year) then Err InvalidNntpDate else Ok tt
                 else match parse_two_digits (take 2 value) with
                      | None => Err InvalidNntpDate
                      | Some _ => Ok tt
                      end) in
      if 31 <? day then Err InvalidNntpDate else Ok tt.

Definition validate_nntp_time (value : bytes) : result unit invalid :=
  if negb (length value =? 6)%nat || existsb (fun b => negb (is_ascii_digit b)) value
  then Err InvalidNntpTime
  else
    let? hour := ok_or InvalidNntpTime (parse_two_digits (take 2 value)) in
    let? minute := ok_or InvalidNntpTime (parse_two_digits (slice value 2 4)) in
    let? second := ok_or InvalidNntpTime (parse_two_digits (drop 4 value)) in
    if (23 <? hour) || (59 <? minute) || (60 <? second) then Err InvalidNntpTime
    else Ok tt.

Definition COMMA : Z := 44.
Definition BANG : Z := 33.

(** The bytes no wildmat pattern may hold: [!], [,], [[], backslash, []]. *)
Definition wildmat_forbidden (b : Z) : bool :=
  (b =? 33) || (b =? 44) || (b =? 91) || (b =? 92) || (b =? 93).

Fixpoint validate_wildmat_patterns (index : nat) (patterns : list bytes)
    : result unit invalid :=
  match patterns with
  | [] => Ok tt
  | pattern :: patterns' =>
      let pattern := if (index =? 0)%nat then pattern
                     else default pattern (strip_prefix pattern [BANG]) in
      if (length pattern =? 0)%nat || existsb wildmat_forbidden pattern
      then Err InvalidWildmat
      else validate_wildmat_patterns (S index) patterns'
  end.

Definition validate_wildmat (value : bytes) : result unit invalid :=
  if (length value =? 0)%nat || contains_utf8_bom value
     || existsb (fun ch => in_range 0 127 ch && negb (in_range 33 126 ch)) (chars value)
  then Err InvalidWildmat
  else validate_wildmat_patterns 0 (split_on (Z.eqb COMMA) value).

(** ** Keywords *)

Definition keyword_byte (b : Z) : bool :=
  is_ascii_alphanumeric b || (b =? 46) || (b =? 45).

Definition validate_keyword (value : bytes) : result unit unit :=
  match value with
  | [] => Err tt
  | first :: rest =>
      if negb (is_ascii_alphabetic first) then Err tt
      else if (length rest <? 2)%nat then Err tt
      else if forallb keyword_byte rest then Ok tt else Err tt
  end.

(** [from_borrowed]/[from_owned] of a validated newtype: the value itself. *)
Definition validated (validate : bytes -> result unit invalid) (value : bytes)
    : result bytes invalid :=
  let? _ := validate value in Ok value.

Definition header_name_from := validated validate_header_name.
Definition article_selector_from := validated validate_article_selector.
Definition listgroup_range_from := validated validate_listgroup_range.
Definition group_name_from := validated validate_group_name.
Definition nntp_date_from := validated validate_nntp_date.
Definition nntp_time_from := validated validate_nntp_time.
Definition wildmat_from := validated validate_wildmat.
Definition auth_info_value_from (value : bytes) : result bytes invalid :=
  if negb (validate_auth_info_value_bytes value) then Err InvalidAuthInfoValue
  else Ok value.

(** ** What a validated argument guarantees

    [plain_arg] is what the wire needs of an argument: not empty, and no space
    or control byte, so nothing that separates command words or ends the line. *)

Definition plain_arg (l : bytes) : Prop := l <> [] /\ Forall (fun b => 32 < b) l.

Lemma plain_arg_above l :
  l <> [] -> Forall (fun b => 32 < b) l -> plain_arg l.
Proof. by split. Qed.

Lemma plain_arg_app a b : plain_arg a -> plain_arg b -> plain_arg (a ++ b).
Proof.
  intros [Ha Ha'] [_ Hb]. split; [by destruct a|]. by apply Forall_app.
Qed.

Lemma existsb_negb_false {A} (p : A -> bool) l :
  existsb (fun b => negb (p b)) l = false <-> forallb p l = true.
Proof.
  induction l as [|x l IH]; [done|]. cbn [existsb forallb].
  rewrite orb_false_iff, andb_true_iff, IH, negb_false_iff. done.
Qed.

Lemma existsb_false_Forall {A} (p : A -> bool) l :
  existsb p l = false <-> Forall (fun b => p b = false) l.
Proof.
  induction l as [|x l IH]; cbn [existsb]; [by split|].
  by rewrite orb_false_iff, Forall_cons_iff, IH.
Qed.

Lemma forallb_Forall {A} (p : A -> bool) l :
  forallb p l = true <-> Forall (fun b => p b = true) l.
Proof.
  induction l as [|x l IH]; cbn [forallb]; [by split|].
  by rewrite andb_true_iff, Forall_cons_iff, IH.
Qed.

Lemma Forall_forallb_impl {A} (p : A -> bool) (P : A -> Prop) l :
  (forall b, p b = true -> P b) -> forallb p l = true -> Forall P l.
Proof. intros H Hl%forallb_Forall. eapply Forall_impl; [|exact Hl]. exact H. Qed.

Lemma digits_plain l :
  l <> [] -> forallb is_ascii_digit l = true -> plain_arg l.
Proof.
  intros Hne Hl. apply plain_arg_above; [done|].
  eapply Forall_forallb_impl; [|exact Hl]. intros b ?%is_ascii_digit_spec. lia.
Qed.

Lemma length_eqb_nil {A} (l : list A) : (length l =? 0)%nat = true <-> l = [].
Proof. by destruct l. Qed.

Lemma length_eqb_ne {A} (l : list A) : (length l =? 0)%nat = false <-> l <> [].
Proof. by destruct l. Qed.

Lemma message_id_byte_spec b :
  message_id_byte b = true <-> 33 <= b <= 126 /\ b <> 62.
Proof. unfold message_id_byte. rewrite orb_true_iff, !in_range_spec. lia. Qed.

(** The shape a valid message-id has. *)
Definition message_id_shape (v : bytes) : Prop :=
  exists inner, v = lit "<" ++ inner ++ lit ">"
    /\ (1 <= length inner <= 248)%nat /\ forallb message_id_byte inner = true.

Lemma slice_inner (inner : bytes) :
  slice (lit "<" ++ inner ++ lit ">") 1 (length (lit "<" ++ inner ++ lit ">") - 1) = inner.
Proof.
  rewrite !length_app. change (length (lit "<")) with 1%nat.
  change (length (lit ">")) with 1%nat.
  replace (1 + (length inner + 1) - 1)%nat with (length (lit "<") + length inner)%nat
    by (cbn; lia).
  apply (slice_app_mid (lit "<")).
Qed.

Lemma bracketed_inner (v : bytes) :
  (2 <= length v)%nat -> starts_with v (lit "<") = true -> ends_with v (lit ">") = true ->
  exists inner, v = lit "<" ++ inner ++ lit ">".
Proof.
  intros Hl [k ->]%starts_with_spec [k2 Hk]%ends_with_spec.
  destruct k as [|x k _] using rev_ind; [cbn in Hl; lia|].
  rewrite app_assoc in Hk. apply app_inj_2 in Hk as [_ [= ->]]; [|done].
  by exists k.
Qed.

Lemma validate_message_id_shape v :
  validate_message_id v = Ok tt <-> message_id_shape v.
Proof.
  unfold validate_message_id, message_id_shape. split.
  - destruct (negb _ || _ || _) eqn:E; [done|].
    apply orb_false_iff in E as [E E3%negb_false_iff].
    apply orb_false_iff in E as [E1%negb_false_iff E2%negb_false_iff].
    apply andb_true_iff in E1 as [E0%Nat.leb_le E1%Nat.leb_le].
    destruct (bracketed_inner v ltac:(lia) E2 E3) as [inner ->].
    rewrite slice_inner. destruct (existsb _ inner) eqn:Ei; [done|].
    apply existsb_negb_false in Ei. intros _. exists inner.
    rewrite !length_app in *. change (length (lit "<")) with 1%nat in *.
    change (length (lit ">")) with 1%nat in *. split; [done|]. split; [lia|done].
  - intros (inner & -> & Hl & Hi).
    rewrite slice_inner. rewrite (proj2 (existsb_negb_false _ inner) Hi).
    rewrite starts_with_app, app_assoc, ends_with_app.
    rewrite !length_app. change (length (lit "<")) with 1%nat.
    change (length (lit ">")) with 1%nat.
    replace (3 <=? _)%nat with true by (symmetry; apply Nat.leb_le; lia).
    replace (_ <=? 250)%nat with true by (symmetry; apply Nat.leb_le; lia).
    done.
Qed.

Lemma message_id_shape_plain v : message_id_shape v -> plain_arg v.
Proof.
  intros (inner & -> & _ & Hi). apply plain_arg_above; [done|].
  apply Forall_app. split; [by repeat constructor|].
  apply Forall_app. split; [|by repeat constructor].
  eapply Forall_forallb_impl; [|exact Hi]. intros b ?%message_id_byte_spec. lia.
Qed.

Lemma message_id_shape_ascii m : message_id_shape m -> Forall is_ascii_byte m.
Proof.
  intros (inner & -> & _ & Hi). apply Forall_app. split; [by repeat constructor|].
  apply Forall_app. split; [|by repeat constructor].
  eapply Forall_forallb_impl; [|exact Hi]. intros b ?%message_id_byte_spec.
  unfold is_ascii_byte. lia.
Qed.

(** ** Article-number tokens *)

Lemma article_number_token_value_spec v n :
  article_number_token_value v = Ok n <->
  (1 <= length v <= 16)%nat /\ forallb is_ascii_digit v = true
  /\ n = decimal_value v /\ 1 <= n <= MAX_ARTICLE_NUMBER.
Proof.
  unfold article_number_token_value.
  destruct (length v =? 0)%nat eqn:E0.
  { apply Nat.eqb_eq in E0. split; [done | lia]. }
  destruct (16 <? length v)%nat eqn:E1.
  { apply Nat.ltb_lt in E1. split; [done | lia]. }
  apply Nat.eqb_neq in E0. apply Nat.ltb_ge in E1.
  destruct (forallb is_ascii_digit v) eqn:Ed; cbn [negb orb]; [|by split; [|intros (_ & ? & _)]].
  rewrite parse_decimal_spec by done.
  pose proof (decimal_value_nonneg v Ed) as H0.
  destruct (u64_max <? decimal_value v) eqn:Eo; cbn [ok_or].
  { apply Z.ltb_lt in Eo. split; [done|]. intros (_ & _ & -> & H).
    unfold MAX_ARTICLE_NUMBER, u64_max in *. lia. }
  destruct (_ || _) eqn:Er.
  - split; [done|]. intros (_ & _ & -> & H). apply orb_true_iff in Er.
    rewrite Z.eqb_eq, Z.ltb_lt in Er. lia.
  - apply orb_false_iff in Er as [?%Z.eqb_neq ?%Z.ltb_ge]. split.
    + intros [= <-]. repeat split; lia.
    + by intros (_ & _ & -> & _).
Qed.

Lemma article_number_token_print n :
  1 <= n <= MAX_ARTICLE_NUMBER -> article_number_token_value (print_decimal n) = Ok n.
Proof.
  intros Hn. assert (n <= u64_max) by (unfold MAX_ARTICLE_NUMBER, u64_max in *; lia).
  destruct (print_decimal_spec n ltac:(lia)) as (Hd & Hv & _).
  apply article_number_token_value_spec. rewrite Hv.
  assert (1 <= length (print_decimal n) <= 10)%nat.
  { apply print_decimal_length; [|lia]. change (10 ^ Z.of_nat 10) with 10000000000.
    unfold MAX_ARTICLE_NUMBER in Hn. lia. }
  split; [lia|]. split; [done|]. split; [done|lia].
Qed.

Lemma token_plain v n : article_number_token_value v = Ok n -> plain_arg v.
Proof.
  intros (Hl & Hd & _)%article_number_token_value_spec. apply digits_plain; [|done].
  by destruct v; [cbn in Hl; lia|].
Qed.

Lemma print_decimal_plain n : 0 <= n <= u64_max -> plain_arg (print_decimal n).
Proof.
  intros Hn. destruct (print_decimal_spec n Hn) as (Hd & _ & Hl).
  apply digits_plain; [|done]. intros E. rewrite E in Hl. cbn in Hl. lia.
Qed.

Lemma validate_token_Ok v :
  validate_article_number_token v = Ok tt <-> exists n, article_number_token_value v = Ok n.
Proof.
  unfold validate_article_number_token. destruct (article_number_token_value v).
  - split; eauto.
  - split; [done | by intros [??]].
Qed.

Lemma map_err_Ok {T E F} (f : E -> F) (r : result T E) v :
  map_err f r = Ok v <-> r = Ok v.
Proof. destruct r; cbn [map_err]; split; congruence. Qed.

(** ** Ranges: a number, a number and a hyphen, or two numbers *)

Inductive range_shape : bytes -> Prop :=
| range_single v n : article_number_token_value v = Ok n -> range_shape v
| range_open v n : article_number_token_value v = Ok n -> range_shape (v ++ lit "-")
| range_closed v n w k : article_number_token_value v = Ok n ->
    article_number_token_value w = Ok k -> range_shape (v ++ lit "-" ++ w).

Lemma split_once_Some c v a b :
  split_once c v = Some (a, b) <-> v = a ++ c :: b /\ Forall (fun x => (c =? x) = false) a.
Proof.
  unfold split_once. rewrite fmap_Some. split.
  - intros (i & (l1 & x & l2 & -> & <- & Hx%Z.eqb_eq & Hall)%position_Some & [= -> ->]).
    subst x. rewrite take_app_length.
    change (l1 ++ c :: l2) with (l1 ++ [c] ++ l2). rewrite app_assoc.
    replace (S (length l1)) with (length (l1 ++ [c])) by (rewrite length_app; cbn; lia).
    rewrite drop_app_length. by rewrite <- app_assoc.
  - intros [-> Ha]. exists (length a). rewrite position_app_here by (done || apply Z.eqb_refl).
    split; [done|]. rewrite take_app_length.
    change (a ++ c :: b) with (a ++ [c] ++ b). rewrite app_assoc.
    replace (S (length a)) with (length (a ++ [c])) by (rewrite length_app; cbn; lia).
    by rewrite drop_app_length.
Qed.

Lemma split_once_None c v :
  split_once c v = None <-> Forall (fun x => (c =? x) = false) v.
Proof. unfold split_once. rewrite fmap_None. apply position_None. Qed.

Lemma digits_no_hyphen v :
  forallb is_ascii_digit v = true -> Forall (fun x => (HYPHEN =? x) = false) v.
Proof.
  apply Forall_forallb_impl. intros b ?%is_ascii_digit_spec. unfold HYPHEN.
  apply Z.eqb_neq. lia.
Qed.

Lemma token_digits v n :
  article_number_token_value v = Ok n -> forallb is_ascii_digit v = true.
Proof. by intros (_ & ? & _)%article_number_token_value_spec. Qed.

Lemma plain_arg_hyphen : plain_arg (lit "-").
Proof. split; [done | by repeat constructor]. Qed.

Lemma range_shape_plain v : range_shape v -> plain_arg v.
Proof.
  destruct 1; repeat apply plain_arg_app; eauto using token_plain, plain_arg_hyphen.
Qed.

Lemma whitespace_above b : 32 < b -> is_ascii_whitespace b = false.
Proof. unfold is_ascii_whitespace. lia. Qed.

Lemma range_shape_no_ws v :
  range_shape v -> (length v =? 0)%nat || existsb is_ascii_whitespace v = false.
Proof.
  intros [Hne Hv]%range_shape_plain. apply orb_false_iff.
  split; [by apply length_eqb_ne|]. apply existsb_false_Forall.
  eapply Forall_impl; [|exact Hv]. intros b. apply whitespace_above.
Qed.

(** What both range validators compute once emptiness and whitespace are out. *)
Lemma range_shape_split v :
  range_shape v <->
  match split_once HYPHEN v with
  | Some (a, b) => (exists n, article_number_token_value a = Ok n)
      /\ (b = [] \/ exists k, article_number_token_value b = Ok k)
  | None => exists n, article_number_token_value v = Ok n
  end.
Proof.
  split.
  - destruct 1 as [v n H|v n H|v n w k H1 H2].
    + pose proof (digits_no_hyphen v (token_digits _ _ H)) as Hh.
      apply split_once_None in Hh. rewrite Hh. eauto.
    + pose proof (digits_no_hyphen v (token_digits _ _ H)) as Hh.
      rewrite (proj2 (split_once_Some HYPHEN (v ++ lit "-") v [])) by done.
      split; eauto.
    + pose proof (digits_no_hyphen v (token_digits _ _ H1)) as Hh.
      rewrite (proj2 (split_once_Some HYPHEN (v ++ lit "-" ++ w) v w)) by done.
      split; eauto.
  - destruct (split_once HYPHEN v) as [[a b]|] eqn:E.
    + apply split_once_Some in E as [-> _]. intros [[n Hn] [->|[k Hk]]].
      * by apply (range_open a n).
      * by apply (range_closed a n b k).
    + intros [n Hn]. by apply (range_single v n).
Qed.

Lemma validate_listgroup_range_shape v :
  validate_listgroup_range v = Ok tt <-> range_shape v.
Proof.
  unfold validate_listgroup_range. destruct (_ || _) eqn:E0.
  { split; [done|]. intros H%range_shape_no_ws. congruence. }
  rewrite range_shape_split. destruct (split_once HYPHEN v) as [[a b]|] eqn:E.
  - destruct (article_number_token_value a) as [n|e] eqn:Ea; cbn [map_err].
    2: { split; [done | by intros [[? ?] _]]. }
    destruct (length b =? 0)%nat eqn:Eb; cbn [negb].
    { apply length_eqb_nil in Eb. split; [|done]. intros _. eauto. }
    apply length_eqb_ne in Eb.
    destruct (article_number_token_value b) as [k|e]; cbn [map_err].
    + split; [|done]. intros _. eauto.
    + split; [done|]. by intros [_ [?|[? ?]]].
  - rewrite map_err_Ok. apply validate_token_Ok.
Qed.

Lemma message_id_from_borrowed_Ok v w :
  message_id_from_borrowed v = Ok w <-> w = v /\ message_id_shape v.
Proof.
  unfold message_id_from_borrowed. rewrite <- validate_message_id_shape.
  destruct (validate_message_id v) as [[]|e]; split;
    [by intros [= <-] | by intros [-> _] | done | by intros [_ ?]].
Qed.

Lemma above_no_ws v :
  v <> [] /\ Forall (fun b => 32 < b) v ->
  (length v =? 0)%nat || existsb is_ascii_whitespace v = false.
Proof.
  intros [Hne Hv]. apply orb_false_iff.
  split; [by apply length_eqb_ne|]. apply existsb_false_Forall.
  eapply Forall_impl; [|exact Hv]. intros b. apply whitespace_above.
Qed.

Lemma range_shape_not_bracket v : range_shape v -> starts_with v (lit "<") = false.
Proof.
  assert (forall w n k, article_number_token_value w = Ok n ->
            starts_with (w ++ k) (lit "<") = false) as Ht.
  { intros w n k (Hl & Hd & _)%article_number_token_value_spec.
    destruct w as [|b w]; [cbn in Hl; lia|]. cbn [forallb] in Hd.
    apply andb_true_iff in Hd as [Hb%is_ascii_digit_spec _].
    exact (starts_with_differ b 60 (w ++ k) [] ltac:(lia)). }
  destruct 1 as [v n H|v n H|v n w k H1 H2]; [|by eapply Ht..].
  rewrite <- (app_nil_r v). by eapply Ht.
Qed.

(** An article selector is a message-id or a range. *)
Lemma validate_article_selector_shape v :
  validate_article_selector v = Ok tt <-> message_id_shape v \/ range_shape v.
Proof.
  unfold validate_article_selector. destruct (_ || _) eqn:E0.
  { split; [done|]. intros [H%message_id_shape_plain%above_no_ws|H%range_shape_no_ws]; congruence. }
  destruct (starts_with v (lit "<")) eqn:Es.
  - rewrite map_err_Ok. split.
    + destruct (message_id_from_borrowed v) eqn:E; [|done].
      apply message_id_from_borrowed_Ok in E as [_ E]. by left.
    + intros [H|H%range_shape_not_bracket]; [|congruence].
      by rewrite (proj2 (message_id_from_borrowed_Ok v v)).
  - assert (~ message_id_shape v) as Hm.
    { intros (inner & -> & _). by rewrite starts_with_app in Es. }
    transitivity (range_shape v); [|tauto].
    rewrite range_shape_split. destruct (split_once HYPHEN v) as [[a b]|] eqn:E.
    + destruct (article_number_token_value a) as [n|e] eqn:Ea; cbn [map_err].
      2: { split; [done | by intros [[? ?] _]]. }
      destruct (length b =? 0)%nat eqn:Eb.
      { apply length_eqb_nil in Eb. split; [|done]. intros _. eauto. }
      apply length_eqb_ne in Eb.
      destruct (article_number_token_value b) as [k|e]; cbn [map_err].
      * split; [|done]. intros _. eauto.
      * split; [done|]. by intros [_ [?|[? ?]]].
    + rewrite map_err_Ok. destruct (article_number_token_value v).
      * split; eauto.
      * split; [done | by intros [??]].
Qed.

(** ** Header names, group names, wildmats *)

Lemma header_name_plain v : validate_header_name v = Ok tt -> plain_arg v.
Proof.
  unfold validate_header_name, strip_prefix.
  assert (forall w, (length w =? 0)%nat = false -> forallb header_name_byte w = true ->
            plain_arg w) as Hw.
  { intros w Hl%length_eqb_ne Hd. apply plain_arg_above; [done|].
    eapply Forall_forallb_impl; [|exact Hd]. unfold header_name_byte.
    intros b. rewrite orb_true_iff, !in_range_spec. lia. }
  destruct (starts_with v (lit ":")) eqn:E; cbn [default from_option id];
    (destruct (_ =? 0)%nat eqn:E0; [done|]); (destruct (forallb _ _) eqn:Ed; [|done]); intros _.
  - apply starts_with_spec in E as [k ->]. rewrite drop_app_length in *.
    apply plain_arg_app; [split; [done | by repeat constructor]|]. by apply Hw.
  - by apply Hw.
Qed.

Lemma group_name_byte_above b :
  is_wildmat_exact_or_utf8_non_ascii b = true -> 33 < b.
Proof.
  unfold is_wildmat_exact_or_utf8_non_ascii. rewrite !orb_true_iff, !in_range_spec, Z.eqb_eq.
  lia.
Qed.

Lemma group_name_plain v : validate_group_name v = Ok tt -> plain_arg v.
Proof.
  unfold validate_group_name. destruct (_ || _ || _) eqn:E; [done|]. intros _.
  apply orb_false_iff in E as [[El%length_eqb_ne _]%orb_false_iff Eb%existsb_negb_false].
  apply plain_arg_above; [done|]. eapply Forall_forallb_impl; [|exact Eb].
  intros b ?%group_name_byte_above. lia.
Qed.

(** A wildmat accepted by the character test has no control or space byte. *)
Lemma wildmat_plain v : is_str v -> validate_wildmat v = Ok tt -> plain_arg v.
Proof.
  intros Hstr. pose proof (from_utf8_u8 v Hstr) as Hu8. destruct Hstr as [cs Hcs].
  unfold validate_wildmat. destruct (_ || _ || _) eqn:E; [done|]. intros _.
  apply orb_false_iff in E as [[El%length_eqb_ne _]%orb_false_iff Eb].
  apply plain_arg_above; [done|].
  unfold chars in Eb. rewrite Hcs in Eb. cbn [default from_option id] in Eb.
  apply existsb_false_Forall in Eb. rewrite Forall_forall in Eb.
  rewrite Forall_forall in Hu8 |- *. intros b Hb.
  specialize (Hu8 b Hb). unfold is_u8 in Hu8.
  destruct (decide (b < 128)) as [Hlt|Hge]; [|lia].
  assert (In b cs) as Hin by (eapply from_utf8_ascii_byte; [exact Hcs|exact Hb|exact Hlt]).
  specialize (Eb b Hin). apply andb_false_iff in Eb as [Eb%in_range_false|Eb%negb_false_iff%in_range_spec]; lia.
Qed.

(** ** Dates and times *)

Lemma parse_two_digits_spec a b :
  is_ascii_digit a = true -> is_ascii_digit b = true ->
  parse_two_digits [a; b] = Some (decimal_value [a; b]).
Proof.
  intros Ha%is_ascii_digit_spec Hb%is_ascii_digit_spec.
  unfold parse_two_digits, u8_checked_sub.
  rewrite !(proj2 (Z.ltb_ge _ _)) by lia. cbn.
  rewrite !(proj2 (Z.ltb_ge _ _)) by lia. cbn. unfold decimal_value. cbn [fold_left].
  f_equal.
Qed.

Lemma digits_plain_of_length v n :
  length v = S n -> existsb (fun b => negb (is_ascii_digit b)) v = false -> plain_arg v.
Proof.
  intros Hl Hd%existsb_negb_false. apply digits_plain; [|done]. by destruct v.
Qed.

Lemma nntp_date_plain v : validate_nntp_date v = Ok tt -> plain_arg v.
Proof.
  unfold validate_nntp_date. destruct (negb _ || _) eqn:E; [done|]. intros _.
  apply orb_false_iff in E as [El%negb_false_iff Ed].
  apply orb_true_iff in El as [El%Nat.eqb_eq|El%Nat.eqb_eq];
    by eapply digits_plain_of_length.
Qed.

Lemma nntp_time_plain v : validate_nntp_time v = Ok tt -> plain_arg v.
Proof.
  unfold validate_nntp_time. destruct (negb _ || _) eqn:E; [done|]. intros _.
  apply orb_false_iff in E as [El%negb_false_iff%Nat.eqb_eq Ed].
  by eapply digits_plain_of_length.
Qed.

Lemma validated_Ok f v w : validated f v = Ok w <-> w = v /\ f v = Ok tt.
Proof. unfold validated. destruct (f v) as [[]|]; split;
    [by intros [= <-] | by intros [-> _] | done | by intros [_ ?]]. Qed.

Lemma two_digits_decimal l :
  length l = 2%nat -> forallb is_ascii_digit l = true ->
  parse_two_digits l = Some (decimal_value l).
Proof.
  destruct l as [|a [|b [|]]]; try done. intros _. cbn [forallb].
  rewrite andb_true_r, andb_true_iff. intros [??]. by apply parse_two_digits_spec.
Qed.

(** The fields of a date: a two- or four-digit year, a month, a day. *)
Definition date_shape (v y m d : bytes) : Prop :=
  v = y ++ m ++ d /\ length m = 2%nat /\ length d = 2%nat
  /\ forallb is_ascii_digit v = true
  /\ (length y = 2%nat \/ length y = 4%nat /\ 1900 <= decimal_value y)
  /\ 1 <= decimal_value m <= 12 /\ 1 <= decimal_value d <= 31.

Definition time_shape (v h m s : bytes) : Prop :=
  v = h ++ m ++ s /\ length h = 2%nat /\ length m = 2%nat /\ length s = 2%nat
  /\ forallb is_ascii_digit v = true
  /\ decimal_value h <= 23 /\ decimal_value m <= 59 /\ decimal_value s <= 60.

(** Split a digit string of a known length into its fields. *)
Lemma date_fields v :
  (length v = 6 \/ length v = 8)%nat -> forallb is_ascii_digit v = true ->
  exists y m d, v = y ++ m ++ d /\ length y = (length v - 4)%nat
    /\ length m = 2%nat /\ length d = 2%nat
    /\ forallb is_ascii_digit y = true /\ forallb is_ascii_digit m = true
    /\ forallb is_ascii_digit d = true
    /\ slice v (length v - 4) (length v - 2) = m /\ drop (length v - 2) v = d
    /\ take (length v - 4) v = y.
Proof.
  intros Hl Hd.
  exists (take (length v - 4) v), (slice v (length v - 4) (length v - 2)), (drop (length v - 2) v).
  assert (v = take (length v - 4) v ++ slice v (length v - 4) (length v - 2)
              ++ drop (length v - 2) v) as Hv.
  { unfold slice. replace (drop (length v - 2) v) with
      (drop (length v - 2 - (length v - 4)) (drop (length v - 4) v)).
    - by rewrite take_drop, take_drop.
    - rewrite drop_drop. f_equal. lia. }
  rewrite Hv in Hd at 1. rewrite !forallb_app, !andb_true_iff in Hd.
  destruct Hd as (Hy & Hm & Hdd).
  rewrite length_take, length_slice, length_drop by lia.
  repeat split; try done; lia.
Qed.

Lemma date_year_test y :
  length y = 4%nat -> forallb is_ascii_digit y = true ->
  (let? year := ok_or InvalidNntpDate (parse_decimal y) in
   if negb (in_range 1900 9999 year) then Err InvalidNntpDate else Ok tt)
  = if decide (1900 <= decimal_value y) then Ok tt else Err InvalidNntpDate.
Proof.
  intros Hl Hd. pose proof (decimal_value_bound y Hd) as Hb. rewrite Hl in Hb.
  change (10 ^ Z.of_nat 4) with 10000 in Hb.
  rewrite parse_decimal_spec by done.
  rewrite (proj2 (Z.ltb_ge _ _)) by (unfold u64_max; lia). cbn [ok_or].
  case_decide.
  - by rewrite (proj2 (in_range_spec _ _ _)) by lia.
  - by rewrite (proj2 (in_range_false _ _ _)) by lia.
Qed.

Lemma app_fields_inj (y m d y' m' d' : bytes) :
  y ++ m ++ d = y' ++ m' ++ d' -> length m = 2%nat -> length d = 2%nat ->
  length m' = 2%nat -> length d' = 2%nat -> y = y' /\ m = m' /\ d = d'.
Proof.
  intros H H1 H2 H3 H4. rewrite !app_assoc in H.
  apply app_inj_2 in H as [H ->]; [|congruence].
  by apply app_inj_2 in H as [-> ->]; [|congruence].
Qed.

Lemma validate_nntp_date_shape v :
  validate_nntp_date v = Ok tt <-> exists y m d, date_shape v y m d.
Proof.
  unfold validate_nntp_date. destruct (negb _ || _) eqn:E.
  { split; [done|]. intros (y & m & d & Hv & Hm & Hd & Hdig & Hy & _).
    apply orb_true_iff in E as [E%negb_true_iff|E].
    - apply orb_false_iff in E as [E1%Nat.eqb_neq E2%Nat.eqb_neq].
      subst v. rewrite !length_app in *. lia.
    - apply existsb_negb_false in Hdig. congruence. }
  apply orb_false_iff in E as [El%negb_false_iff%orb_true_iff Ed%existsb_negb_false].
  rewrite !Nat.eqb_eq in El.
  destruct (date_fields v El Ed)
    as (y & m & d & Hv & Hy & Hm & Hd & Dy & Dm & Dd & -> & -> & Ht).
  rewrite !two_digits_decimal by done. cbn [ok_or].
  transitivity (date_shape v y m d).
  2: { split; [by eauto|]. intros (y' & m' & d' & H). pose proof H as (Hv' & Hm' & Hd' & _).
       rewrite Hv in Hv'. apply app_fields_inj in Hv' as (-> & -> & ->); done. }
  unfold date_shape.
  pose proof (decimal_value_nonneg d Dd) as Hd0.
  destruct (negb (in_range 1 12 _) || _) eqn:E1.
  { split; [done|]. intros (_ & _ & _ & _ & _ & Hm12 & Hd31).
    apply orb_true_iff in E1 as [E1%negb_true_iff%in_range_false|E1%Z.eqb_eq]; lia. }
  apply orb_false_iff in E1 as [E1%negb_false_iff%in_range_spec E2%Z.eqb_neq].
  destruct (length v =? 8)%nat eqn:E8.
  - apply Nat.eqb_eq in E8. rewrite E8 in Ht, Hy. cbn in Ht, Hy. rewrite Ht.
    rewrite date_year_test by done. case_decide.
    + destruct (31 <? decimal_value d) eqn:E31.
      * apply Z.ltb_lt in E31. split; [done | lia].
      * apply Z.ltb_ge in E31. split; [|done]. intros _. repeat split; try done; try lia.
    + split; [done|]. intros (_ & _ & _ & _ & Hyy & _). lia.
  - apply Nat.eqb_neq in E8. assert (length v = 6%nat) as E6 by lia.
    rewrite E6 in Ht, Hy. cbn in Ht, Hy. rewrite Ht, two_digits_decimal by done.
    destruct (31 <? decimal_value d) eqn:E31.
    + apply Z.ltb_lt in E31. split; [done | lia].
    + apply Z.ltb_ge in E31. split; [|done]. intros _. repeat split; try done; try lia.
Qed.

Lemma validate_nntp_time_shape v :
  validate_nntp_time v = Ok tt <-> exists h m s, time_shape v h m s.
Proof.
  unfold validate_nntp_time, time_shape. destruct (negb _ || _) eqn:E.
  { split; [done|]. intros (h & m & s & Hv & Hh & Hm & Hs & Hdig & _).
    apply orb_true_iff in E as [E%negb_true_iff%Nat.eqb_neq|E].
    - subst v. rewrite !length_app in *. lia.
    - apply existsb_negb_false in Hdig. congruence. }
  apply orb_false_iff in E as [El%negb_false_iff%Nat.eqb_eq Ed%existsb_negb_false].
  destruct v as [|a [|b [|c [|d [|e [|f [|]]]]]]]; try done.
  pose proof Ed as Ed'. cbn [forallb] in Ed'. rewrite !andb_true_iff in Ed'.
  destruct Ed' as (Ha & Hb & Hc & Hd & He & Hf & _).
  change (take 2 [a; b; c; d; e; f]) with [a; b].
  change (slice [a; b; c; d; e; f] 2 4) with [c; d].
  change (drop 4 [a; b; c; d; e; f]) with [e; f].
  rewrite !parse_two_digits_spec by done. cbn [ok_or].
  destruct (_ || _ || _) eqn:E.
  - split; [done|]. intros ([|? [|? []]] & [|? [|? []]] & [|? [|? []]] & Hv & ? & ? & ? & _ & Hlim);
      try done. injection Hv as -> -> -> -> -> ->.
    rewrite !orb_true_iff, !Z.ltb_lt in E. lia.
  - rewrite !orb_false_iff, !Z.ltb_ge in E. split; [|done]. intros _.
    exists [a; b], [c; d], [e; f]. repeat split; try done; lia.
Qed.

(** ** Properties *)

(** The message-id grammar is [<inner>] with 1 to 248 printable bytes other
    than [>]; [from_str_or_wrap] only yields such ids, leaves a valid id as it
    is (so it is idempotent), and wraps a bare inner part. *)
Theorem message_id_grammar (v : bytes) :
  (validate_message_id v = Ok tt <-> message_id_shape v)
  /\ (forall w, message_id_from_str_or_wrap v = Ok w ->
        message_id_shape w /\ (w = v \/ w = lit "<" ++ v ++ lit ">")
        /\ message_id_from_str_or_wrap w = Ok w)
  /\ (message_id_shape (lit "<" ++ v ++ lit ">") ->
        ends_with v (lit ">") = false /\
        message_id_from_str_or_wrap v = Ok (lit "<" ++ v ++ lit ">")).
Proof.
  split; [apply validate_message_id_shape|].
  assert (forall w, message_id_shape w -> message_id_from_str_or_wrap w = Ok w) as Hid.
  { intros w Hw. pose proof Hw as Hv%validate_message_id_shape.
    destruct Hw as (inner & -> & _). unfold message_id_from_str_or_wrap.
    change (lit "<" ++ inner ++ lit ">") with (60 :: inner ++ lit ">") at 1.
    rewrite starts_with_app, app_assoc, ends_with_app. cbn [andb].
    by rewrite <- app_assoc, Hv. }
  split.
  - intros w. unfold message_id_from_str_or_wrap at 1. destruct v as [|b v']; [done|].
    set (v := b :: v').
    destruct (starts_with v _ && ends_with v _) eqn:E;
      destruct (validate_message_id _) as [[]|] eqn:Ev; try done; intros [= <-];
      apply validate_message_id_shape in Ev; auto.
  - intros Hs. pose proof Hs as (inner & He & Hl & Hi).
    apply app_inv_head in He. apply app_inj_2 in He as [-> _]; [|done].
    assert (ends_with inner (lit ">") = false) as Hg.
    { destruct (ends_with inner (lit ">")) eqn:E; [|done].
      apply ends_with_spec in E as [k ->]. rewrite forallb_app in Hi.
      by apply andb_true_iff in Hi as [_ Hi]. }
    split; [done|]. unfold message_id_from_str_or_wrap. destruct inner as [|b inner']; [cbn in Hl; lia|].
    rewrite Hg, andb_false_r. by rewrite (proj2 (validate_message_id_shape _)).
Qed.

Lemma message_id_grammar_witness :
  message_id_from_str_or_wrap (lit "a@b") = Ok (lit "<a@b>") /\ message_id_shape (lit "<a@b>").
Proof.
  split; [reflexivity|].
  apply (proj1 (proj2 (message_id_grammar (lit "a@b"))) (lit "<a@b>")). reflexivity.
Defined.

(** An article-number token is 1 to 16 digits denoting a number of
    [1..=2147483647]; the value is the mathematical one (the checked arithmetic
    never truncates), and every such number survives print and parse. *)
Theorem article_number_roundtrip (v : bytes) (n : Z) :
  (article_number_token_value v = Ok n <->
     (1 <= length v <= 16)%nat /\ forallb is_ascii_digit v = true
     /\ n = decimal_value v /\ 1 <= n <= MAX_ARTICLE_NUMBER)
  /\ (1 <= n <= MAX_ARTICLE_NUMBER ->
      ArticleRef.from_selector (print_decimal n) = Ok (ArticleRef.Number n)).
Proof.
  split; [apply article_number_token_value_spec|]. intros Hn.
  pose proof (article_number_token_print n Hn) as Ht.
  pose proof (range_shape_no_ws _ (range_single _ _ Ht)) as Hw.
  unfold ArticleRef.from_selector. rewrite Hw, (token_digits _ _ Ht), Ht. cbn [map_err].
  unfold ArticleRef.from_number.
  replace (n =? 0) with false by lia. by replace (MAX_ARTICLE_NUMBER <? n) with false by lia.
Qed.

Lemma article_number_roundtrip_witness :
  ArticleRef.from_selector (lit "2147483647") = Ok (ArticleRef.Number 2147483647)
  /\ article_number_token_value (lit "2147483648") = Err InvalidArticleNumberToken.
Proof.
  split; [|reflexivity].
  apply (proj2 (article_number_roundtrip [] 2147483647)). unfold MAX_ARTICLE_NUMBER. lia.
Defined.

(** An article selector is exactly a message-id or a range, a LISTGROUP
    range exactly a range: a number, a number and a hyphen, or two numbers
    around a hyphen. *)
Theorem selector_grammar (v : bytes) :
  (validate_article_selector v = Ok tt <-> message_id_shape v \/ range_shape v)
  /\ (validate_listgroup_range v = Ok tt <-> range_shape v).
Proof. split; [apply validate_article_selector_shape | apply validate_listgroup_range_shape]. Qed.

(** Dates and times are accepted exactly when their digit fields are in
    range: month 1-12, day 1-31, a four-digit year from 1900; hour to 23,
    minute to 59, second to 60. *)
Theorem date_time_grammar (v : bytes) :
  (validate_nntp_date v = Ok tt <-> exists y m d, date_shape v y m d)
  /\ (validate_nntp_time v = Ok tt <-> exists h m s, time_shape v h m s).
Proof. split; [apply validate_nntp_date_shape | apply validate_nntp_time_shape]. Qed.

(** No validated argument is empty or holds a space or a control byte, so it
    cannot split a command line or start another one. *)
Theorem validated_arguments_plain (v w : bytes) :
  (message_id_from_borrowed v = Ok w \/ message_id_from_str_or_wrap v = Ok w
   \/ header_name_from v = Ok w \/ article_selector_from v = Ok w
   \/ listgroup_range_from v = Ok w \/ group_name_from v = Ok w
   \/ nntp_date_from v = Ok w \/ nntp_time_from v = Ok w
   \/ is_str v /\ wildmat_from v = Ok w) ->
  plain_arg w.
Proof.
  intros [H|[H|[H|[H|[H|[H|[H|[H|[Hs H]]]]]]]]].
  - apply message_id_from_borrowed_Ok in H as [-> H]. by apply message_id_shape_plain.
  - unfold message_id_from_str_or_wrap in H. destruct v as [|b v]; [done|].
    destruct (validate_message_id _) as [[]|] eqn:Ev; [|done].
    injection H as <-. by apply message_id_shape_plain, validate_message_id_shape.
  - apply validated_Ok in H as [-> H]. by apply header_name_plain.
  - apply validated_Ok in H as [-> H]. apply validate_article_selector_shape in H as [H|H];
      [by apply message_id_shape_plain | by apply range_shape_plain].
  - apply validated_Ok in H as [-> H]. by apply range_shape_plain, validate_listgroup_range_shape.
  - apply validated_Ok in H as [-> H]. by apply group_name_plain.
  - apply validated_Ok in H as [-> H]. by apply nntp_date_plain.
  - apply validated_Ok in H as [-> H]. by apply nntp_time_plain.
  - apply validated_Ok in H as [-> H]. by apply wildmat_plain.
Qed.

Lemma validated_arguments_plain_witness :
  wildmat_from (lit "comp.*,!comp.os.*") = Ok (lit "comp.*,!comp.os.*")
  /\ plain_arg (lit "comp.*,!comp.os.*").
Proof.
  split; [reflexivity|].
  apply (validated_arguments_plain (lit "comp.*,!comp.os.*")). do 8 right.
  split; [|reflexivity]. exists (lit "comp.*,!comp.os.*"). reflexivity.
Defined.
