(* ===== verification/Kinds.v ===== *)
(** * Request kinds, status codes and response framing
      ([src/src/protocol.rs])

    [StatusCode], [RequestKind], [CommandCoordination], [ResponseFraming] and
    the static table [RESPONSE_DESCRIPTORS] that decides, from the request and
    the status, whether a response is a single line, multiline or unexpected. *)
From S2P Require Import Prelude Utf8 Decimal Args.

Local Open Scope Z_scope.

Definition MAX_INITIAL_RESPONSE_LINE_BYTES : nat := 512.
Definition MAX_COMMAND_ARGUMENT_BYTES : nat := 497.
Definition MAX_AUTHINFO_SASL_COMMAND_LINE_BYTES : nat := 4096.
Definition MAX_AUTHINFO_SASL_RESPONSE_LINE_BYTES : nat := 4096.

(** ** Status codes *)

Module StatusCode.

(** The newtype over [u16]: its value. *)
Definition StatusCode := Z.

Definition parse (data : bytes) : option StatusCode :=
  match data with
  | b0 :: b1 :: b2 :: _ =>
      let d0 := u8_wrapping_sub b0 48 in
      let d1 := u8_wrapping_sub b1 48 in
      let d2 := u8_wrapping_sub b2 48 in
      if (9 <? d0) || (9 <? d1) || (9 <? d2) then None
      else
        let code := d0 * 100 + d1 * 10 + d2 in
        if negb ((100 <=? code) && (code <? 600)) then None else Some code
  | _ => None
  end.

Definition as_u16 (self : StatusCode) : Z := self.
Definition is_informational (code : StatusCode) : bool := (100 <=? code) && (code <? 200).
Definition is_success (code : StatusCode) : bool := (200 <=? code) && (code <? 400).
Definition is_error (code : StatusCode) : bool := (400 <=? code) && (code <? 600).
End StatusCode.

(** ** Request kinds *)

Module RequestKind.
Inductive RequestKind : Type :=
| Article | Body | Head | Stat
| ListActive | ListActiveTimes | ListNewsgroups | ListOverviewFmt | ListHeaders
| ListDistribPats
| Group | ListGroup | Last | Next | List | Help | Capabilities | Date
| Over | Xover | Hdr | Xhdr | NewGroups | NewNews
| Post | Ihave | Check | TakeThis
| AuthInfoUser | AuthInfoPass | AuthInfo | StartTls
| ModeReader | ModeStream | Quit | Unknown.

#[export] Instance RequestKind_eq_dec : EqDecision RequestKind.
Proof. solve_decision. Defined.

Definition eqb (a b : RequestKind) : bool := bool_decide (a = b).

Definition all : list RequestKind :=
  [Article; Body; Head; Stat; ListActive; ListActiveTimes; ListNewsgroups;
   ListOverviewFmt; ListHeaders; ListDistribPats; Group; ListGroup; Last; Next;
   List; Help; Capabilities; Date; Over; Xover; Hdr; Xhdr; NewGroups; NewNews;
   Post; Ihave; Check; TakeThis; AuthInfoUser; AuthInfoPass; AuthInfo; StartTls;
   ModeReader; ModeStream; Quit; Unknown].

Lemma all_spec k : In k all.
Proof. destruct k; cbn; tauto. Qed.
End RequestKind.
Export (hints) RequestKind.
Abbreviation RequestKind := RequestKind.RequestKind.

(** ** Command coordination *)

Record CommandCoordination : Type := {
  allows_following_pipeline : bool;
  requires_exclusive_connection : bool;
  changes_session_state : bool;
  enters_continuation : bool;
}.

Module Coordination.
Definition PIPELINED : CommandCoordination := Build_CommandCoordination true false false false.
Definition SESSION_POINTER : CommandCoordination := Build_CommandCoordination true false true false.
Definition CONTINUATION : CommandCoordination := Build_CommandCoordination false true false true.
Definition AUTH_CONTINUATION : CommandCoordination := Build_CommandCoordination false true true true.
Definition AUTH_STEP : CommandCoordination := Build_CommandCoordination false true true false.
Definition TRANSPORT : CommandCoordination := Build_CommandCoordination false true true false.
Definition READER_MODE : CommandCoordination := Build_CommandCoordination false false true false.
Definition SESSION_END : CommandCoordination := Build_CommandCoordination false true true false.
Definition UNKNOWN : CommandCoordination := Build_CommandCoordination false false false false.
End Coordination.

Definition allows_throughput_pipeline (self : CommandCoordination) : bool :=
  allows_following_pipeline self && negb (requires_exclusive_connection self)
  && negb (changes_session_state self) && negb (enters_continuation self).

Definition coordination (self : RequestKind) : CommandCoordination :=
  match self with
  | RequestKind.Article | RequestKind.Body | RequestKind.Head | RequestKind.Stat
  | RequestKind.ListActive | RequestKind.ListActiveTimes | RequestKind.ListNewsgroups
  | RequestKind.ListOverviewFmt | RequestKind.ListHeaders | RequestKind.ListDistribPats
  | RequestKind.List | RequestKind.Help | RequestKind.Capabilities | RequestKind.Date
  | RequestKind.Over | RequestKind.Xover | RequestKind.Hdr | RequestKind.Xhdr
  | RequestKind.NewGroups | RequestKind.NewNews | RequestKind.Check
  | RequestKind.TakeThis | RequestKind.ModeStream => Coordination.PIPELINED
  | RequestKind.Group | RequestKind.ListGroup | RequestKind.Last | RequestKind.Next =>
      Coordination.SESSION_POINTER
  | RequestKind.Post | RequestKind.Ihave => Coordination.CONTINUATION
  | RequestKind.AuthInfo => Coordination.AUTH_CONTINUATION
  | RequestKind.AuthInfoUser | RequestKind.AuthInfoPass => Coordination.AUTH_STEP
  | RequestKind.StartTls => Coordination.TRANSPORT
  | RequestKind.ModeReader => Coordination.READER_MODE
  | RequestKind.Quit => Coordination.SESSION_END
  | RequestKind.Unknown => Coordination.UNKNOWN
  end.

(** ** Response framing *)

Module ResponseFraming.
Inductive ResponseFraming : Type := SingleLine | Multiline | Unexpected.

#[export] Instance ResponseFraming_eq_dec : EqDecision ResponseFraming.
Proof. solve_decision. Defined.

Definition is_multiline (self : ResponseFraming) : bool :=
  match self with Multiline => true | SingleLine | Unexpected => false end.
End ResponseFraming.
Export (hints) ResponseFraming.

Record ResponseDescriptor : Type := response_descriptor {
  kind : RequestKind;
  status : Z;
  framing : ResponseFraming.ResponseFraming;
}.

Definition code_in (l : list Z) (code : Z) : bool := existsb (Z.eqb code) l.

Definition is_generic_error_status (code : Z) : bool :=
  code_in [400; 401; 403; 480; 483; 500; 501; 502; 503; 504] code.

Definition is_generic_error_status_for_request (kind : RequestKind) (code : Z) : bool :=
  match kind with
  | RequestKind.Capabilities | RequestKind.Quit => code =? 501
  | RequestKind.Head | RequestKind.Help | RequestKind.Stat =>
      if code =? 500 then false else is_generic_error_status code
  | RequestKind.StartTls =>
      negb (code_in [480; 483] code) && is_generic_error_status code
  | RequestKind.AuthInfoUser | RequestKind.AuthInfoPass | RequestKind.AuthInfo =>
      negb (code =? 480) && is_generic_error_status code
  | _ => is_generic_error_status code
  end.

Definition response_initial_line_limit (kind : RequestKind) (status : option Z) : nat :=
  match kind with
  | RequestKind.AuthInfo =>
      match status with
      | Some code => if code_in [283; 383] code
                     then MAX_AUTHINFO_SASL_RESPONSE_LINE_BYTES
                     else MAX_INITIAL_RESPONSE_LINE_BYTES
      | None => MAX_INITIAL_RESPONSE_LINE_BYTES
      end
  | _ => MAX_INITIAL_RESPONSE_LINE_BYTES
  end.

Definition is_specific_error_status_for_request (kind : RequestKind) (code : Z) : bool :=
  match kind with
  | RequestKind.Article | RequestKind.Body | RequestKind.Head | RequestKind.Stat =>
      code_in [412; 420; 423; 430] code
  | RequestKind.Group => code =? 411
  | RequestKind.ListGroup => code_in [411; 412] code
  | RequestKind.Last => code_in [412; 420; 422] code
  | RequestKind.Next => code_in [412; 420; 421] code
  | RequestKind.Over => code_in [412; 420; 423; 430] code
  | RequestKind.Xover => code_in [412; 420] code
  | RequestKind.Hdr => code_in [412; 420; 423; 430] code
  | RequestKind.Xhdr => code_in [412; 420; 430] code
  | RequestKind.Post => code_in [440; 441] code
  | RequestKind.Ihave => in_range 435 437 code
  | RequestKind.Check => code_in [431; 438] code
  | RequestKind.TakeThis => code =? 439
  | RequestKind.AuthInfoUser | RequestKind.AuthInfoPass | RequestKind.AuthInfo =>
      code_in [481; 482] code
  | RequestKind.StartTls => code =? 580
  | _ => false
  end.

Definition RESPONSE_DESCRIPTORS : list ResponseDescriptor := [
  response_descriptor RequestKind.Article 220 ResponseFraming.Multiline;
  response_descriptor RequestKind.Head 221 ResponseFraming.Multiline;
  response_descriptor RequestKind.Body 222 ResponseFraming.Multiline;
  response_descriptor RequestKind.Stat 223 ResponseFraming.SingleLine;
  response_descriptor RequestKind.Group 211 ResponseFraming.SingleLine;
  response_descriptor RequestKind.ListGroup 211 ResponseFraming.Multiline;
  response_descriptor RequestKind.Last 223 ResponseFraming.SingleLine;
  response_descriptor RequestKind.Next 223 ResponseFraming.SingleLine;
  response_descriptor RequestKind.Date 111 ResponseFraming.SingleLine;
  response_descriptor RequestKind.Help 100 ResponseFraming.Multiline;
  response_descriptor RequestKind.NewGroups 231 ResponseFraming.Multiline;
  response_descriptor RequestKind.NewNews 230 ResponseFraming.Multiline;
  response_descriptor RequestKind.List 215 ResponseFraming.Multiline;
  response_descriptor RequestKind.ListActive 215 ResponseFraming.Multiline;
  response_descriptor RequestKind.ListActiveTimes 215 ResponseFraming.Multiline;
  response_descriptor RequestKind.ListNewsgroups 215 ResponseFraming.Multiline;
  response_descriptor RequestKind.ListOverviewFmt 215 ResponseFraming.Multiline;
  response_descriptor RequestKind.ListHeaders 215 ResponseFraming.Multiline;
  response_descriptor RequestKind.ListDistribPats 215 ResponseFraming.Multiline;
  response_descriptor RequestKind.Over 224 ResponseFraming.Multiline;
  response_descriptor RequestKind.Xover 224 ResponseFraming.Multiline;
  response_descriptor RequestKind.Hdr 225 ResponseFraming.Multiline;
  response_descriptor RequestKind.Xhdr 221 ResponseFraming.Multiline;
  response_descriptor RequestKind.Post 340 ResponseFraming.SingleLine;
  response_descriptor RequestKind.Post 240 ResponseFraming.SingleLine;
  response_descriptor RequestKind.Ihave 335 ResponseFraming.SingleLine;
  response_descriptor RequestKind.Ihave 235 ResponseFraming.SingleLine;
  response_descriptor RequestKind.Check 238 ResponseFraming.SingleLine;
  response_descriptor RequestKind.TakeThis 239 ResponseFraming.SingleLine;
  response_descriptor RequestKind.AuthInfoUser 381 ResponseFraming.SingleLine;
  response_descriptor RequestKind.AuthInfoUser 281 ResponseFraming.SingleLine;
  response_descriptor RequestKind.AuthInfoPass 281 ResponseFraming.SingleLine;
  response_descriptor RequestKind.AuthInfo 281 ResponseFraming.SingleLine;
  response_descriptor RequestKind.AuthInfo 283 ResponseFraming.SingleLine;
  response_descriptor RequestKind.AuthInfo 383 ResponseFraming.SingleLine;
  response_descriptor RequestKind.Capabilities 101 ResponseFraming.Multiline;
  response_descriptor RequestKind.ModeReader 200 ResponseFraming.SingleLine;
  response_descriptor RequestKind.ModeReader 201 ResponseFraming.SingleLine;
  response_descriptor RequestKind.ModeStream 203 ResponseFraming.SingleLine;
  response_descriptor RequestKind.Quit 205 ResponseFraming.SingleLine;
  response_descriptor RequestKind.StartTls 382 ResponseFraming.SingleLine
].

Definition responses_for_request (k : RequestKind) : list ResponseDescriptor :=
  List.filter (fun d => RequestKind.eqb (kind d) k) RESPONSE_DESCRIPTORS.

Definition status_implies_multiline (code : Z) : bool :=
  code_in [100; 101; 211; 215; 220; 221; 222; 224; 225; 230; 231; 282; 288] code.

Definition descriptor_for_request_status (k : RequestKind) (code : StatusCode.StatusCode)
    : ResponseDescriptor :=
  if StatusCode.is_error code then
    let framing :=
      if RequestKind.eqb k RequestKind.Unknown
         || is_generic_error_status_for_request k code
         || is_specific_error_status_for_request k code
      then ResponseFraming.SingleLine else ResponseFraming.Unexpected in
    response_descriptor k code framing
  else
    match List.find (fun d => status d =? code) (responses_for_request k) with
    | Some d => d
    | None =>
        let framing :=
          if RequestKind.eqb k RequestKind.Unknown && status_implies_multiline code
          then ResponseFraming.Multiline
          else if RequestKind.eqb k RequestKind.Unknown then ResponseFraming.SingleLine
          else ResponseFraming.Unexpected in
        response_descriptor k code framing
    end.

Definition framing_for_request_status (k : RequestKind) (code : StatusCode.StatusCode)
    : ResponseFraming.ResponseFraming :=
  framing (descriptor_for_request_status k code).

Definition expects_multiline_response (self : RequestKind) (code : StatusCode.StatusCode) : bool :=
  ResponseFraming.is_multiline (framing_for_request_status self code).

(** ** Finite checks

    Every request kind against every code of three digits the parser yields. *)

Definition all_codes : list Z := List.map Z.of_nat (List.seq 100 500).

Lemma all_codes_spec c : 100 <= c < 600 <-> In c all_codes.
Proof.
  unfold all_codes. rewrite in_map_iff. split.
  - intros H. exists (Z.to_nat c). split; [lia|]. apply in_seq. lia.
  - intros (n & <- & H%in_seq). lia.
Qed.

Lemma kinds_codes_check (P : RequestKind -> Z -> bool) :
  forallb (fun k => forallb (P k) all_codes) RequestKind.all = true ->
  forall k c, 100 <= c < 600 -> P k c = true.
Proof.
  rewrite List.forallb_forall. intros H k c Hc%all_codes_spec.
  pose proof (H k (RequestKind.all_spec k)) as Hk.
  rewrite List.forallb_forall in Hk. by apply Hk.
Qed.

Lemma kinds_check (P : RequestKind -> bool) :
  forallb P RequestKind.all = true -> forall k, P k = true.
Proof.
  rewrite List.forallb_forall. intros H k. apply H, RequestKind.all_spec.
Qed.

Lemma eqb_spec (a b : RequestKind) : RequestKind.eqb a b = true <-> a = b.
Proof. apply bool_decide_eq_true. Qed.

Definition is_unexpected (f : ResponseFraming.ResponseFraming) : bool :=
  match f with ResponseFraming.Unexpected => true | _ => false end.

Lemma is_unexpected_false f : is_unexpected f = false <-> f <> ResponseFraming.Unexpected.
Proof. by destruct f. Qed.

Lemma wrapping_sub_digit b :
  is_u8 b -> (9 <? u8_wrapping_sub b 48) = negb (is_ascii_digit b)
  /\ (is_ascii_digit b = true -> u8_wrapping_sub b 48 = b - 48).
Proof.
  intros Hb. unfold is_u8 in Hb. unfold u8_wrapping_sub.
  destruct (is_ascii_digit b) eqn:E.
  - apply is_ascii_digit_spec in E. rewrite Z.mod_small by lia.
    split; [apply Z.ltb_ge; lia | done].
  - split; [|done]. apply Z.ltb_lt. cbn [negb].
    assert (~ (48 <= b <= 57)) by (rewrite <- is_ascii_digit_spec; congruence).
    destruct (decide (b < 48)).
    + rewrite <- (Z_mod_plus_full _ 1), Z.mod_small; lia.
    + rewrite Z.mod_small; lia.
Qed.

Lemma status_parse_Some data c :
  Forall is_u8 data ->
  StatusCode.parse data = Some c <->
  exists digits rest, data = digits ++ rest /\ length digits = 3%nat
    /\ forallb is_ascii_digit digits = true /\ c = decimal_value digits
    /\ 100 <= c < 600.
Proof.
  intros Hu. split.
  - destruct data as [|b0 [|b1 [|b2 rest]]]; try done.
    rewrite !Forall_cons_iff in Hu. destruct Hu as (H0 & H1 & H2 & _).
    unfold StatusCode.parse.
    destruct (wrapping_sub_digit b0 H0) as [-> E0], (wrapping_sub_digit b1 H1) as [-> E1],
      (wrapping_sub_digit b2 H2) as [-> E2].
    destruct (_ || _) eqn:Ed; [done|].
    rewrite !orb_false_iff, !negb_false_iff in Ed. destruct Ed as [[D0 D1] D2].
    rewrite E0, E1, E2 by done. destruct (negb _) eqn:Er; [done|].
    intros [= <-]. exists [b0; b1; b2], rest.
    split; [done|]. split; [done|]. cbn [forallb]. rewrite D0, D1, D2.
    split; [done|]. unfold decimal_value. cbn [fold_left].
    apply negb_false_iff, andb_true_iff in Er as [Ea%Z.leb_le Eb%Z.ltb_lt]. lia.
  - intros ([|b0 [|b1 [|b2 []]]] & rest & -> & Hl & Hd & -> & Hc); try done.
    cbn [forallb] in Hd. rewrite !andb_true_iff in Hd. destruct Hd as (D0 & D1 & D2 & _).
    cbn [app] in *. rewrite !Forall_cons_iff in Hu. destruct Hu as (H0 & H1 & H2 & _).
    unfold StatusCode.parse.
    destruct (wrapping_sub_digit b0 H0) as [-> E0], (wrapping_sub_digit b1 H1) as [-> E1],
      (wrapping_sub_digit b2 H2) as [-> E2].
    rewrite D0, D1, D2, E0, E1, E2 by done. cbn [negb orb].
    unfold decimal_value in *. cbn [fold_left] in *.
    rewrite (proj2 (andb_true_iff _ _)) by (rewrite Z.leb_le, Z.ltb_lt; lia).
    cbn [negb]. f_equal. lia.
Qed.

(** ** Properties *)

(** On wire bytes a status code parses exactly when three digits denoting
    100 to 599 come first, the wrapping subtraction never lets another byte
    pass for a digit, and a parsed code is in exactly one of the classes
    informational, success and error. *)
Theorem status_code_parse (data : bytes) (c : Z) :
  Forall is_u8 data ->
  (StatusCode.parse data = Some c <->
   exists digits rest, data = digits ++ rest /\ length digits = 3%nat
     /\ forallb is_ascii_digit digits = true /\ c = decimal_value digits
     /\ 100 <= c < 600)
  /\ (StatusCode.parse data = Some c ->
      exists! k, List.nth_error [StatusCode.is_informational c; StatusCode.is_success c;
                                 StatusCode.is_error c] k = Some true).
Proof.
  intros Hu. split; [by apply status_parse_Some|].
  intros (? & ? & _ & _ & _ & _ & Hc)%status_parse_Some; [|done].
  unfold StatusCode.is_informational, StatusCode.is_success, StatusCode.is_error.
  destruct (decide (c < 200)); [exists 0%nat | destruct (decide (c < 400)); [exists 1%nat | exists 2%nat]];
    (split; [cbn; f_equal; lia|]);
    intros [|[|[|k]]]; cbn; intros [= H]; try done; try lia; by destruct k.
Qed.

Lemma status_code_parse_witness :
  Forall is_u8 (lit "211 4 1 9 misc.test") /\ StatusCode.parse (lit "211 4 1 9 misc.test") = Some 211.
Proof.
  assert (Forall is_u8 (lit "211 4 1 9 misc.test")) as Hu
    by (repeat constructor; unfold is_u8; lia).
  split; [exact Hu|]. apply (proj1 (status_code_parse _ 211 Hu)).
  exists (lit "211"), (lit " 4 1 9 misc.test"). repeat split; lia.
Defined.

(** Response codes alone determine framing, except 211, which is one line
    for GROUP and multiline for every other kind that accepts it; in particular
    no error code of any kind is multiline, so a client never waits for a dot
    terminator after a failure. *)
Theorem response_framing_by_code (k : RequestKind) (c : Z) :
  100 <= c < 600 -> framing_for_request_status k c <> ResponseFraming.Unexpected ->
  expects_multiline_response k c
    = status_implies_multiline c && negb (RequestKind.eqb k RequestKind.Group && (c =? 211))
  /\ (StatusCode.is_error c = true -> expects_multiline_response k c = false).
Proof.
  intros Hc Hf.
  pose proof (kinds_codes_check (fun (k : RequestKind) (c : Z) =>
    is_unexpected (framing_for_request_status k c)
    || eqb (expects_multiline_response k c)
           (status_implies_multiline c && negb (RequestKind.eqb k RequestKind.Group && (c =? 211)))
       && negb (StatusCode.is_error c && expects_multiline_response k c))
    ltac:(vm_compute; reflexivity) k c Hc) as H.
  cbn beta in H. rewrite (proj2 (is_unexpected_false _) Hf) in H. cbn [orb] in H.
  apply andb_true_iff in H as [H1%eqb_prop H2%negb_true_iff].
  split; [done|]. intros He. by rewrite He in H2.
Qed.

Lemma response_framing_by_code_witness :
  expects_multiline_response RequestKind.ListGroup 211 = true
  /\ expects_multiline_response RequestKind.Group 211 = false.
Proof.
  split; [rewrite (proj1 (response_framing_by_code RequestKind.ListGroup 211
                            ltac:(lia) ltac:(vm_compute; done)))
         | rewrite (proj1 (response_framing_by_code RequestKind.Group 211
                            ltac:(lia) ltac:(vm_compute; done)))]; reflexivity.
Defined.

(** The descriptor for a request and a status is about that request and that
    status, and the static table has at most one entry for the pair, so the
    order of its rows does not matter. *)
Theorem descriptor_table_functional (k : RequestKind) (c : Z) :
  100 <= c < 600 ->
  let d := descriptor_for_request_status k c in
  kind d = k /\ status d = c
  /\ (length (List.filter (fun e => (status e =? c)%Z) (responses_for_request k)) <= 1)%nat
  /\ (In d RESPONSE_DESCRIPTORS -> StatusCode.is_error c = false).
Proof.
  intros Hc. cbn zeta.
  pose proof (kinds_codes_check (fun k c =>
    let d := descriptor_for_request_status k c in
    RequestKind.eqb (kind d) k && (status d =? c)
    && (length (List.filter (fun e => (status e =? c)%Z) (responses_for_request k)) <=? 1)%nat
    && (negb (StatusCode.is_error c)
        || forallb (fun e => negb ((status e =? c) && RequestKind.eqb (kind e) k))
             RESPONSE_DESCRIPTORS))
    ltac:(vm_compute; reflexivity) k c Hc) as H.
  cbn zeta beta in H. rewrite !andb_true_iff in H. destruct H as [[[Hk Hs] Hl] He].
  apply eqb_spec in Hk. apply Z.eqb_eq in Hs. apply Nat.leb_le in Hl.
  repeat split; try done.
  intros Hin. apply orb_true_iff in He as [He%negb_true_iff|He]; [done|].
  rewrite List.forallb_forall in He. specialize (He _ Hin).
  rewrite Hs, Hk, Z.eqb_refl, (proj2 (eqb_spec k k) eq_refl) in He. done.
Qed.

Lemma descriptor_table_functional_witness :
  status (descriptor_for_request_status RequestKind.Post 340) = 340.
Proof.
  exact (proj1 (proj2 (descriptor_table_functional RequestKind.Post 340 ltac:(lia)))).
Defined.

(** Pipelining rules are consistent with each other and with the responses:
    a command that needs the connection to itself never lets another follow, a
    command pauses for a continuation exactly when one of its responses asks
    for more client data (335, 340, 383), and a throughput command does none of
    these and has only 2xx, 1xx or error responses. *)
Theorem coordination_consistent (k : RequestKind) :
  (requires_exclusive_connection (coordination k) = true ->
     allows_following_pipeline (coordination k) = false)
  /\ (enters_continuation (coordination k) = true ->
      requires_exclusive_connection (coordination k) = true)
  /\ (enters_continuation (coordination k) = true <->
      exists d, In d RESPONSE_DESCRIPTORS /\ kind d = k /\ code_in [335; 340; 383] (status d) = true)
  /\ (allows_throughput_pipeline (coordination k) = true ->
      forall d, In d RESPONSE_DESCRIPTORS -> kind d = k -> status d < 300).
Proof.
  split; [destruct k; vm_compute; congruence|].
  split; [destruct k; vm_compute; congruence|].
  pose proof (kinds_check (fun k =>
    eqb (enters_continuation (coordination k))
        (existsb (fun d => RequestKind.eqb (kind d) k && code_in [335; 340; 383] (status d))
           RESPONSE_DESCRIPTORS)
    && (negb (allows_throughput_pipeline (coordination k))
        || forallb (fun d => negb (RequestKind.eqb (kind d) k) || (status d <? 300))
             RESPONSE_DESCRIPTORS)) ltac:(vm_compute; reflexivity) k) as H.
  cbn beta in H. apply andb_true_iff in H as [H1%eqb_prop H2]. split.
  - rewrite H1, existsb_exists. setoid_rewrite andb_true_iff. setoid_rewrite eqb_spec. done.
  - intros Ht d Hd Hk. rewrite Ht in H2. cbn [negb orb] in H2.
    rewrite List.forallb_forall in H2. specialize (H2 d Hd).
    rewrite Hk, (proj2 (eqb_spec k k) eq_refl) in H2. by apply Z.ltb_lt in H2.
Qed.
