(* ===== verification/Requests.v ===== *)
(** * Requests and their wire form ([src/src/protocol.rs], [enum Request])

    [Request] has the source's constructors; a validated argument is its byte
    string.  The smart constructors return the source's errors, the accessors
    its options, and [write_wire_to] appends to an output buffer what the
    source writes to its [Write]. *)
From S2P Require Import Prelude Utf8 Decimal Memchr Terminator Args Kinds.

Local Open Scope Z_scope.
Local Open Scope rust_scope.

Module AuthInfoKind.
Inductive AuthInfoKind : Type := User | Pass.

Definition as_wire (self : AuthInfoKind) : bytes :=
  match self with User => lit "USER" | Pass => lit "PASS" end.
End AuthInfoKind.

Module ListKind.
Inductive ListKind : Type :=
| Active | ActiveTimes | Newsgroups | OverviewFmt | Headers | DistribPats.

Definition as_wire (self : ListKind) : bytes :=
  match self with
  | Active => lit "ACTIVE"
  | ActiveTimes => lit "ACTIVE.TIMES"
  | Newsgroups => lit "NEWSGROUPS"
  | OverviewFmt => lit "OVERVIEW.FMT"
  | Headers => lit "HEADERS"
  | DistribPats => lit "DISTRIB.PATS"
  end.
End ListKind.

Module Request.
Inductive Request : Type :=
| Article (article_ref : ArticleRef.ArticleRef)
| Body (article_ref : ArticleRef.ArticleRef)
| Head (article_ref : ArticleRef.ArticleRef)
| Stat (article_ref : ArticleRef.ArticleRef)
| ListVariant (kind : ListKind.ListKind) (wildmat : option bytes)
| Group (group : bytes)
| ListGroup (group : option bytes) (range : option bytes)
| Last
| Next
| Over (selector : option bytes)
| Xover (selector : option bytes)
| Hdr (header : bytes) (selector : option bytes)
| Xhdr (header : bytes) (selector : option bytes)
| NewGroups (date time : bytes) (gmt : bool)
| NewNews (wildmat date time : bytes) (gmt : bool)
| Post
| Ihave (message_id : bytes)
| Check (message_id : bytes)
| TakeThis (message_id : bytes) (article : bytes)
| AuthInfo (kind : AuthInfoKind.AuthInfoKind) (value : bytes)
| StartTls
| List
| Help
| Capabilities (keyword : option bytes)
| Date
| ModeReader
| ModeStream
| Quit.

Definition kind (self : Request) : RequestKind :=
  match self with
  | Article _ => RequestKind.Article
  | Body _ => RequestKind.Body
  | Head _ => RequestKind.Head
  | Stat _ => RequestKind.Stat
  | ListVariant k _ =>
      match k with
      | ListKind.Active => RequestKind.ListActive
      | ListKind.ActiveTimes => RequestKind.ListActiveTimes
      | ListKind.Newsgroups => RequestKind.ListNewsgroups
      | ListKind.OverviewFmt => RequestKind.ListOverviewFmt
      | ListKind.Headers => RequestKind.ListHeaders
      | ListKind.DistribPats => RequestKind.ListDistribPats
      end
  | Group _ => RequestKind.Group
  | ListGroup _ _ => RequestKind.ListGroup
  | Last => RequestKind.Last
  | Next => RequestKind.Next
  | Over _ => RequestKind.Over
  | Xover _ => RequestKind.Xover
  | Hdr _ _ => RequestKind.Hdr
  | Xhdr _ _ => RequestKind.Xhdr
  | NewGroups _ _ _ => RequestKind.NewGroups
  | NewNews _ _ _ _ => RequestKind.NewNews
  | Post => RequestKind.Post
  | Ihave _ => RequestKind.Ihave
  | Check _ => RequestKind.Check
  | TakeThis _ _ => RequestKind.TakeThis
  | AuthInfo k _ =>
      match k with
      | AuthInfoKind.User => RequestKind.AuthInfoUser
      | AuthInfoKind.Pass => RequestKind.AuthInfoPass
      end
  | StartTls => RequestKind.StartTls
  | List => RequestKind.List
  | Help => RequestKind.Help
  | Capabilities _ => RequestKind.Capabilities
  | Date => RequestKind.Date
  | ModeReader => RequestKind.ModeReader
  | ModeStream => RequestKind.ModeStream
  | Quit => RequestKind.Quit
  end.

(** ** Writers *)

Definition write_bytes (output data : bytes) : bytes := output ++ data.
Definition write_crlf (output : bytes) : bytes := write_bytes output CRLF.

Definition write_request_wire (output verb message_id : bytes) : bytes :=
  let output := write_bytes output verb in
  let output := write_bytes output message_id in
  write_crlf output.

Definition write_article_ref_request_wire (output verb : bytes)
    (article_ref : ArticleRef.ArticleRef) : bytes :=
  let output := write_bytes output verb in
  let output :=
    match article_ref with
    | ArticleRef.Current => output
    | ArticleRef.Number number =>
        let output := write_bytes output (lit " ") in
        write_bytes output (print_decimal number)
    | ArticleRef.MessageId message_id =>
        let output := write_bytes output (lit " ") in
        write_bytes output message_id
    end in
  write_crlf output.

Definition write_one_arg_request_wire (output verb arg : bytes) : bytes :=
  let output := write_bytes output verb in
  let output := write_bytes output arg in
  write_crlf output.

(** [if let Some(arg) = arg]: a space and the argument. *)
Definition write_optional (output : bytes) (arg : option bytes) : bytes :=
  match arg with
  | Some arg =>
      let output := write_bytes output (lit " ") in
      write_bytes output arg
  | None => output
  end.

Definition write_optional_arg_request_wire (output verb : bytes) (arg : option bytes) : bytes :=
  let output := write_bytes output verb in
  let output := write_optional output arg in
  write_crlf output.

Definition write_header_query_request_wire (output verb header : bytes)
    (selector : option bytes) : bytes :=
  let output := write_bytes output verb in
  let output := write_bytes output (lit " ") in
  let output := write_bytes output header in
  let output := write_optional output selector in
  write_crlf output.

Definition write_listgroup_request_wire (output : bytes) (group range : option bytes) : bytes :=
  let output := write_bytes output (lit "LISTGROUP") in
  let output := write_optional output group in
  let output :=
    match group, range with
    | Some _, Some range =>
        let output := write_bytes output (lit " ") in
        write_bytes output range
    | _, _ => output
    end in
  write_crlf output.

Definition write_datetime_request_wire (output verb date time : bytes) (gmt : bool) : bytes :=
  let output := write_bytes output verb in
  let output := write_bytes output date in
  let output := write_bytes output (lit " ") in
  let output := write_bytes output time in
  let output := if gmt then write_bytes output (lit " GMT") else output in
  write_crlf output.

Definition write_newnews_request_wire (output wildmat date time : bytes) (gmt : bool) : bytes :=
  let output := write_bytes output (lit "NEWNEWS ") in
  let output := write_bytes output wildmat in
  let output := write_bytes output (lit " ") in
  let output := write_bytes output date in
  let output := write_bytes output (lit " ") in
  let output := write_bytes output time in
  let output := if gmt then write_bytes output (lit " GMT") else output in
  write_crlf output.

Definition write_list_request_wire (output : bytes) (kind : ListKind.ListKind)
    (wildmat : option bytes) : bytes :=
  let output := write_bytes output (lit "LIST ") in
  let output := write_bytes output (ListKind.as_wire kind) in
  let output := write_optional output wildmat in
  write_crlf output.

Definition write_authinfo_request_wire (output : bytes) (kind : AuthInfoKind.AuthInfoKind)
    (value : bytes) : bytes :=
  let output := write_bytes output (lit "AUTHINFO ") in
  let output := write_bytes output (AuthInfoKind.as_wire kind) in
  let output := write_bytes output (lit " ") in
  let output := write_bytes output value in
  write_crlf output.

(** One payload line, dot-stuffed. *)
Definition write_payload_line (output line : bytes) : bytes :=
  let output := if starts_with line (lit ".") then write_bytes output (lit ".") else output in
  let output := write_bytes output line in
  write_crlf output.

Definition write_transfer_request_wire (output verb message_id payload : bytes) : bytes :=
  let output := write_bytes output verb in
  let output := write_bytes output message_id in
  let output := write_crlf output in
  if (length payload =? 0)%nat then write_bytes output DOT_TERMINATOR
  else
    let output := fold_left write_payload_line (crlf_normalized_payload_lines payload) output in
    write_bytes output DOT_TERMINATOR.

Definition write_simple_request_wire (output verb : bytes) : bytes :=
  let output := write_bytes output verb in
  write_crlf output.

Definition write_wire_to (self : Request) (output : bytes) : bytes :=
  match self with
  | Article article_ref => write_article_ref_request_wire output (lit "ARTICLE") article_ref
  | Body article_ref => write_article_ref_request_wire output (lit "BODY") article_ref
  | Head article_ref => write_article_ref_request_wire output (lit "HEAD") article_ref
  | Stat article_ref => write_article_ref_request_wire output (lit "STAT") article_ref
  | ListVariant kind wildmat => write_list_request_wire output kind wildmat
  | Group group => write_one_arg_request_wire output (lit "GROUP ") group
  | ListGroup group range => write_listgroup_request_wire output group range
  | Last => write_simple_request_wire output (lit "LAST")
  | Next => write_simple_request_wire output (lit "NEXT")
  | Over selector => write_optional_arg_request_wire output (lit "OVER") selector
  | Xover selector => write_optional_arg_request_wire output (lit "XOVER") selector
  | Hdr header selector => write_header_query_request_wire output (lit "HDR") header selector
  | Xhdr header selector => write_header_query_request_wire output (lit "XHDR") header selector
  | NewGroups date time gmt =>
      write_datetime_request_wire output (lit "NEWGROUPS ") date time gmt
  | NewNews wildmat date time gmt => write_newnews_request_wire output wildmat date time gmt
  | Post => write_simple_request_wire output (lit "POST")
  | Ihave message_id => write_request_wire output (lit "IHAVE ") message_id
  | Check message_id => write_request_wire output (lit "CHECK ") message_id
  | TakeThis message_id article =>
      write_transfer_request_wire output (lit "TAKETHIS ") message_id article
  | AuthInfo kind value => write_authinfo_request_wire output kind value
  | StartTls => write_simple_request_wire output (lit "STARTTLS")
  | List => write_simple_request_wire output (lit "LIST")
  | Help => write_simple_request_wire output (lit "HELP")
  | Capabilities None => write_simple_request_wire output (lit "CAPABILITIES")
  | Capabilities (Some keyword) =>
      write_one_arg_request_wire output (lit "CAPABILITIES ") keyword
  | Date => write_simple_request_wire output (lit "DATE")
  | ModeReader => write_simple_request_wire output (lit "MODE READER")
  | ModeStream => write_simple_request_wire output (lit "MODE STREAM")
  | Quit => write_simple_request_wire output (lit "QUIT")
  end.

(** ** Accessors *)

Definition message_id (self : Request) : option bytes :=
  match self with
  | Article article_ref | Body article_ref | Head article_ref | Stat article_ref =>
      ArticleRef.message_id article_ref
  | Ihave message_id | Check message_id | TakeThis message_id _ => Some message_id
  | _ => None
  end.

Definition article_ref (self : Request) : option ArticleRef.ArticleRef :=
  match self with
  | Article article_ref | Body article_ref | Head article_ref | Stat article_ref =>
      Some article_ref
  | _ => None
  end.

Definition header_query (self : Request) : option (bytes * option bytes) :=
  match self with
  | Hdr header selector | Xhdr header selector => Some (header, selector)
  | _ => None
  end.

Definition overview_selector (self : Request) : option bytes :=
  match self with Over selector => selector | _ => None end.

Definition group_name (self : Request) : option bytes :=
  match self with
  | Group group => Some group
  | ListGroup group _ => group
  | _ => None
  end.

Definition listgroup_range_arg (self : Request) : option bytes :=
  match self with ListGroup _ range => range | _ => None end.

Definition discovery_datetime (self : Request) : option (bytes * bytes * bool) :=
  match self with
  | NewGroups date time gmt | NewNews _ date time gmt => Some (date, time, gmt)
  | _ => None
  end.

Definition wildmat (self : Request) : option bytes :=
  match self with
  | NewNews wildmat _ _ _ => Some wildmat
  | ListVariant _ (Some wildmat) => Some wildmat
  | _ => None
  end.

Definition auth_info (self : Request) : option (AuthInfoKind.AuthInfoKind * bytes) :=
  match self with AuthInfo kind value => Some (kind, value) | _ => None end.

Definition article_transfer (self : Request) : option bytes :=
  match self with TakeThis _ article => Some article | _ => None end.

Definition list_variant (self : Request) : option (ListKind.ListKind * option bytes) :=
  match self with ListVariant kind wildmat => Some (kind, wildmat) | _ => None end.

(** ** Constructors *)

Definition article (message_id : bytes) : result Request invalid :=
  let? m := message_id_from_str_or_wrap message_id in Ok (Article (ArticleRef.MessageId m)).
Definition article_current : Request := Article ArticleRef.Current.
Definition article_number (number : Z) : result Request invalid :=
  let? r := ArticleRef.from_number number in Ok (Article r).
Definition article_selector (selector : bytes) : result Request invalid :=
  let? r := ArticleRef.from_selector selector in Ok (Article r).

Definition body (message_id : bytes) : result Request invalid :=
  let? m := message_id_from_str_or_wrap message_id in Ok (Body (ArticleRef.MessageId m)).
Definition body_current : Request := Body ArticleRef.Current.
Definition body_number (number : Z) : result Request invalid :=
  let? r := ArticleRef.from_number number in Ok (Body r).
Definition body_selector (selector : bytes) : result Request invalid :=
  let? r := ArticleRef.from_selector selector in Ok (Body r).

Definition head (message_id : bytes) : result Request invalid :=
  let? m := message_id_from_str_or_wrap message_id in Ok (Head (ArticleRef.MessageId m)).
Definition head_current : Request := Head ArticleRef.Current.
Definition head_number (number : Z) : result Request invalid :=
  let? r := ArticleRef.from_number number in Ok (Head r).
Definition head_selector (selector : bytes) : result Request invalid :=
  let? r := ArticleRef.from_selector selector in Ok (Head r).

Definition stat (message_id : bytes) : result Request invalid :=
  let? m := message_id_from_str_or_wrap message_id in Ok (Stat (ArticleRef.MessageId m)).
Definition stat_current : Request := Stat ArticleRef.Current.
Definition stat_number (number : Z) : result Request invalid :=
  let? r := ArticleRef.from_number number in Ok (Stat r).
Definition stat_selector (selector : bytes) : result Request invalid :=
  let? r := ArticleRef.from_selector selector in Ok (Stat r).

Inductive InvalidListGroupRangeOrGroupName : Type :=
| RangeError (e : invalid) | GroupNameError (e : invalid).
Inductive InvalidHeaderQuery : Type := HeaderError (e : invalid) | SelectorError (e : invalid).
Inductive InvalidDiscoveryArguments : Type :=
| WildmatError (e : invalid) | DateError (e : invalid) | TimeError (e : invalid).

Definition group (g : bytes) : result Request invalid :=
  let? g := group_name_from g in Ok (Group g).
Definition listgroup (g : bytes) : result Request invalid :=
  let? g := group_name_from g in Ok (ListGroup (Some g) None).
Definition listgroup_current : Request := ListGroup None None.
Definition listgroup_group_range (g range : bytes)
    : result Request InvalidListGroupRangeOrGroupName :=
  let? g := map_err GroupNameError (group_name_from g) in
  let? range := map_err RangeError (listgroup_range_from range) in
  Ok (ListGroup (Some g) (Some range)).
Definition last : Request := Last.
Definition next : Request := Next.
Definition over (selector : bytes) : result Request invalid :=
  let? s := article_selector_from selector in Ok (Over (Some s)).
Definition over_current : Request := Over None.
Definition xover (selector : bytes) : result Request invalid :=
  let? s := map_err (fun _ => InvalidArticleSelector) (listgroup_range_from selector) in
  Ok (Xover (Some s)).
Definition xover_current : Request := Xover None.

Definition header_pair (header selector : bytes) : result (bytes * bytes) InvalidHeaderQuery :=
  let? h := map_err HeaderError (header_name_from header) in
  let? s := map_err SelectorError (article_selector_from selector) in
  Ok (h, s).
Definition hdr (header selector : bytes) : result Request InvalidHeaderQuery :=
  let? hs := header_pair header selector in Ok (Hdr (fst hs) (Some (snd hs))).
Definition hdr_current (header : bytes) : result Request invalid :=
  let? h := header_name_from header in Ok (Hdr h None).
Definition xhdr (header selector : bytes) : result Request InvalidHeaderQuery :=
  let? hs := header_pair header selector in Ok (Xhdr (fst hs) (Some (snd hs))).
Definition xhdr_current (header : bytes) : result Request invalid :=
  let? h := header_name_from header in Ok (Xhdr h None).

Definition newgroups (date time : bytes) (gmt : bool)
    : result Request InvalidDiscoveryArguments :=
  let? d := map_err DateError (nntp_date_from date) in
  let? t := map_err TimeError (nntp_time_from time) in
  Ok (NewGroups d t gmt).
Definition newnews (wildmat date time : bytes) (gmt : bool)
    : result Request InvalidDiscoveryArguments :=
  let? w := map_err WildmatError (wildmat_from wildmat) in
  let? d := map_err DateError (nntp_date_from date) in
  let? t := map_err TimeError (nntp_time_from time) in
  Ok (NewNews w d t gmt).

Definition post : Request := Post.
Definition ihave (message_id : bytes) : result Request invalid :=
  let? m := message_id_from_str_or_wrap message_id in Ok (Ihave m).
Definition check (message_id : bytes) : result Request invalid :=
  let? m := message_id_from_str_or_wrap message_id in Ok (Check m).
Definition takethis (message_id article : bytes) : result Request invalid :=
  let? m := message_id_from_str_or_wrap message_id in Ok (TakeThis m article).
Definition authinfo_user (value : bytes) : result Request invalid :=
  let? v := auth_info_value_from value in Ok (AuthInfo AuthInfoKind.User v).
Definition authinfo_user_bytes (value : bytes) : result Request invalid :=
  let? v := auth_info_value_from value in Ok (AuthInfo AuthInfoKind.User v).
Definition authinfo_pass (value : bytes) : result Request invalid :=
  let? v := auth_info_value_from value in Ok (AuthInfo AuthInfoKind.Pass v).
Definition authinfo_pass_bytes (value : bytes) : result Request invalid :=
  let? v := auth_info_value_from value in Ok (AuthInfo AuthInfoKind.Pass v).
Definition starttls : Request := StartTls.
Definition list : Request := List.
Definition list_active : Request := ListVariant ListKind.Active None.
Definition list_active_wildmat (w : bytes) : result Request invalid :=
  let? w := wildmat_from w in Ok (ListVariant ListKind.Active (Some w)).
Definition list_active_times : Request := ListVariant ListKind.ActiveTimes None.
Definition list_active_times_wildmat (w : bytes) : result Request invalid :=
  let? w := wildmat_from w in Ok (ListVariant ListKind.ActiveTimes (Some w)).
Definition list_newsgroups : Request := ListVariant ListKind.Newsgroups None.
Definition list_newsgroups_wildmat (w : bytes) : result Request invalid :=
  let? w := wildmat_from w in Ok (ListVariant ListKind.Newsgroups (Some w)).
Definition list_overview_fmt : Request := ListVariant ListKind.OverviewFmt None.
Definition list_headers : Request := ListVariant ListKind.Headers None.
Definition list_distrib_pats : Request := ListVariant ListKind.DistribPats None.
Definition help : Request := Help.
Definition capabilities : Request := Capabilities None.
Definition capabilities_keyword (keyword : bytes) : result Request invalid :=
  let? _ := map_err (fun _ => InvalidCapabilityKeyword) (validate_keyword keyword) in
  Ok (Capabilities (Some keyword)).
Definition date : Request := Date.
Definition mode_reader : Request := ModeReader.
Definition mode_stream : Request := ModeStream.
Definition quit : Request := Quit.
End Request.
Abbreviation Request := Request.Request.
