(* ===== verification/RequestLine.v ===== *)
(** * Request lines ([src/src/protocol.rs], [RequestLine] and [classify_*])

    A raw command line is split into verb and arguments and classified into a
    [RequestKind] by the static command tables; anything the grammar of the
    command rejects is [Unknown]. *)
From S2P Require Import Prelude Utf8 Decimal Memchr Terminator Args Kinds.

Local Open Scope Z_scope.
Local Open Scope rust_scope.

(** ** Characters *)

(** [is_p_char] and [is_u_char] on scalar values. *)
Definition is_p_char (ch : Z) : bool :=
  negb (ch =? 65279) && (negb (in_range 0 127 ch) || in_range 33 126 ch).

Definition is_u_char (ch : Z) : bool :=
  negb (ch =? 65279)
  && (in_range 1 8 ch || (ch =? 9) || in_range 11 12 ch || in_range 14 126 ch || (128 <=? ch)).

Definition validate_p_char_token (value : bytes) : bool :=
  match from_utf8 value with
  | Some token => negb (length value =? 0)%nat && forallb is_p_char token
  | None => false
  end.

Definition validate_ascii_token (token : bytes) (validate : bytes -> result unit unit) : bool :=
  utf8_and token (fun value => is_ok (validate value)).

(** [validate_utf8_arg]. *)
Definition validate_utf8_arg {T E} (args : bytes) (validate : bytes -> result T E)
    : result T unit :=
  let? _ := ok_or tt (from_utf8 args) in
  map_err (fun _ => tt) (validate args).

(** [const fn eq_ignore_ascii_case_const]: its loop over the indices. *)
Fixpoint eq_ignore_loop (left right : bytes) : bool :=
  match left, right with
  | a :: left', b :: right' =>
      if negb (to_ascii_uppercase a =? to_ascii_uppercase b) then false
      else eq_ignore_loop left' right'
  | _, _ => true
  end.

Definition eq_ignore_ascii_case_const (left right : bytes) : bool :=
  if negb (length left =? length right)%nat then false else eq_ignore_loop left right.

(** ** Splitting *)

Definition is_command_ws (byte : Z) : bool := (byte =? SP) || (byte =? HT).

Definition command_spacing_is_invalid (line : bytes) : bool :=
  (length line =? 0)%nat
  || match line with byte :: _ => is_command_ws byte | [] => false end
  || existsb (fun byte => is_ascii_whitespace byte && negb (is_command_ws byte)) line.

Definition skip_command_ws (line : bytes) : bytes :=
  let start := default (length line) (position (fun byte => negb (is_command_ws byte)) line) in
  drop start line.

Definition strip_command_eol_ws (line : bytes) : bytes :=
  match rposition (fun byte => negb (is_command_ws byte)) line with
  | Some end_ => take (S end_) line
  | None => []
  end.

Definition command_tokens (args : bytes) : list bytes :=
  List.filter (fun token => negb (length token =? 0)%nat) (split_on is_command_ws args).

(** ** SASL tokens *)

Definition sasl_mechanism_byte (b : Z) : bool :=
  in_range 65 90 b || in_range 48 57 b || (b =? 45) || (b =? 95).

Definition validate_sasl_mechanism (value : bytes) : result unit unit :=
  if (length value =? 0)%nat || (20 <? length value)%nat then Err tt
  else if forallb sasl_mechanism_byte value then Ok tt else Err tt.

Definition EQUALS : Z := 61.

Definition base64_byte (b : Z) : bool :=
  in_range 65 90 b || in_range 97 122 b || in_range 48 57 b || (b =? 43) || (b =? 47).

(** [iter().rev().take_while(|b| b == '=').count()]. *)
Fixpoint count_while (p : Z -> bool) (l : bytes) : nat :=
  match l with
  | b :: l' => if p b then S (count_while p l') else 0
  | [] => 0
  end.

Fixpoint base64_loop (index data_len : nat) (value : bytes) : result unit unit :=
  match value with
  | [] => Ok tt
  | byte :: rest =>
      if (byte =? EQUALS) && (data_len <=? index)%nat
         || base64_byte byte && negb (data_len <=? index)%nat
      then base64_loop (S index) data_len rest else Err tt
  end.

Definition validate_sasl_base64 (value : bytes) : result unit unit :=
  if (length value =? 0)%nat || negb (length value mod 4 =? 0)%nat then Err tt
  else
    let padding := count_while (Z.eqb EQUALS) (rev value) in
    if (2 <? padding)%nat then Err tt
    else base64_loop 0 (length value - padding) value.

Definition validate_sasl_initial_response (value : bytes) : result unit unit :=
  if bytes_eqb value (lit "=") then Ok tt else validate_sasl_base64 value.

(** ** Argument validators of the classifier *)

Definition validate_capabilities_args (args : bytes) : result unit unit :=
  match command_tokens args with
  | [keyword] => let? _ := validate_utf8_arg keyword validate_keyword in Ok tt
  | _ => Err tt
  end.

Definition validate_article_fetch_selector (args : bytes) : result unit unit :=
  let? _ := ok_or tt (from_utf8 args) in
  if forallb is_ascii_digit args then
    map_err (fun _ => tt) (validate_article_number_token args)
  else map_err (fun _ => tt) (let? _ := message_id_from_borrowed args in Ok tt).

Definition validate_discovery_datetime_args (args : bytes) (allow_wildmat : bool)
    : result unit unit :=
  let parts := command_tokens args in
  let? parts :=
    (if allow_wildmat then
       match parts with
       | [] => Err tt
       | wildmat :: parts' =>
           let? _ := map_err (fun _ => tt) (validate_utf8_arg wildmat wildmat_from) in
           Ok parts'
       end
     else Ok parts) in
  match parts with
  | date :: time :: parts' =>
      let? _ := map_err (fun _ => tt) (validate_utf8_arg date nntp_date_from) in
      let? _ := map_err (fun _ => tt) (validate_utf8_arg time nntp_time_from) in
      match parts' with
      | [] => Ok tt
      | [gmt] => if eq_ignore_ascii_case_const gmt (lit "GMT") then Ok tt else Err tt
      | _ => Err tt
      end
  | _ => Err tt
  end.

Definition validate_newnews_args (args : bytes) : result unit unit :=
  validate_discovery_datetime_args args true.

(** ** Classification *)

Inductive CommandKind : Type :=
| DirectCommand (kind : RequestKind)
| ListCommand
| AuthInfoCommand
| ModeCommand.

Definition COMMAND_DESCRIPTORS : list (bytes * CommandKind) := [
  (lit "ARTICLE", DirectCommand RequestKind.Article);
  (lit "AUTHINFO", AuthInfoCommand);
  (lit "BODY", DirectCommand RequestKind.Body);
  (lit "CAPABILITIES", DirectCommand RequestKind.Capabilities);
  (lit "CHECK", DirectCommand RequestKind.Check);
  (lit "DATE", DirectCommand RequestKind.Date);
  (lit "GROUP", DirectCommand RequestKind.Group);
  (lit "HDR", DirectCommand RequestKind.Hdr);
  (lit "HEAD", DirectCommand RequestKind.Head);
  (lit "HELP", DirectCommand RequestKind.Help);
  (lit "IHAVE", DirectCommand RequestKind.Ihave);
  (lit "LAST", DirectCommand RequestKind.Last);
  (lit "LIST", ListCommand);
  (lit "LISTGROUP", DirectCommand RequestKind.ListGroup);
  (lit "MODE", ModeCommand);
  (lit "NEWGROUPS", DirectCommand RequestKind.NewGroups);
  (lit "NEWNEWS", DirectCommand RequestKind.NewNews);
  (lit "NEXT", DirectCommand RequestKind.Next);
  (lit "OVER", DirectCommand RequestKind.Over);
  (lit "POST", DirectCommand RequestKind.Post);
  (lit "QUIT", DirectCommand RequestKind.Quit);
  (lit "STARTTLS", DirectCommand RequestKind.StartTls);
  (lit "STAT", DirectCommand RequestKind.Stat);
  (lit "TAKETHIS", DirectCommand RequestKind.TakeThis);
  (lit "XHDR", DirectCommand RequestKind.Xhdr);
  (lit "XOVER", DirectCommand RequestKind.Xover)
].

Definition LIST_SUBCOMMANDS : list (bytes * RequestKind) := [
  (lit "ACTIVE", RequestKind.ListActive);
  (lit "ACTIVE.TIMES", RequestKind.ListActiveTimes);
  (lit "NEWSGROUPS", RequestKind.ListNewsgroups);
  (lit "OVERVIEW.FMT", RequestKind.ListOverviewFmt);
  (lit "HEADERS", RequestKind.ListHeaders);
  (lit "DISTRIB.PATS", RequestKind.ListDistribPats)
].

(** [if valid { kind } else { RequestKind::Unknown }]. *)
Definition known_if (valid : bool) (kind : RequestKind) : RequestKind :=
  if valid then kind else RequestKind.Unknown.

Definition classify_direct_command (kind : RequestKind) (args : bytes) : RequestKind :=
  let empty := (length args =? 0)%nat in
  match kind with
  | RequestKind.Article | RequestKind.Body | RequestKind.Head | RequestKind.Stat =>
      known_if (empty || is_ok (validate_article_fetch_selector args)) kind
  | RequestKind.Group => known_if (is_ok (validate_utf8_arg args group_name_from)) kind
  | RequestKind.ListGroup =>
      if empty then kind
      else
        match command_tokens args with
        | [one] => known_if (is_ok (validate_utf8_arg one group_name_from)) kind
        | [group; range] =>
            known_if (is_ok (validate_utf8_arg group group_name_from)
                      && is_ok (validate_utf8_arg range listgroup_range_from)) kind
        | _ => RequestKind.Unknown
        end
  | RequestKind.Over =>
      known_if (empty || is_ok (validate_utf8_arg args article_selector_from)) kind
  | RequestKind.Xover =>
      known_if (empty || is_ok (validate_utf8_arg args listgroup_range_from)) kind
  | RequestKind.Hdr | RequestKind.Xhdr =>
      match command_tokens args with
      | [header] => known_if (is_ok (validate_utf8_arg header header_name_from)) kind
      | [header; selector] =>
          known_if (is_ok (validate_utf8_arg header header_name_from)
                    && is_ok (validate_utf8_arg selector article_selector_from)) kind
      | _ => RequestKind.Unknown
      end
  | RequestKind.Ihave | RequestKind.Check | RequestKind.TakeThis =>
      known_if (is_ok (validate_utf8_arg args message_id_from_borrowed)) kind
  | RequestKind.NewGroups =>
      known_if (is_ok (validate_discovery_datetime_args args false)) kind
  | RequestKind.NewNews => known_if (is_ok (validate_newnews_args args)) kind
  | RequestKind.Capabilities =>
      known_if (empty || is_ok (validate_capabilities_args args)) kind
  | RequestKind.Date | RequestKind.Help | RequestKind.Last | RequestKind.Next
  | RequestKind.Post | RequestKind.Quit | RequestKind.StartTls => known_if empty kind
  | _ => kind
  end.

Definition classify_authinfo_sasl_command (args : bytes) : RequestKind :=
  match command_tokens args with
  | [subcommand; value] =>
      known_if (eq_ignore_ascii_case_const subcommand (lit "SASL")
                && is_ok (validate_sasl_mechanism value)) RequestKind.AuthInfo
  | [subcommand; mechanism; initial_response] =>
      known_if (eq_ignore_ascii_case_const subcommand (lit "SASL")
                && is_ok (validate_sasl_mechanism mechanism)
                && is_ok (validate_sasl_initial_response initial_response))
        RequestKind.AuthInfo
  | _ => RequestKind.Unknown
  end.

Definition split_authinfo_subcommand_value (args : bytes) : option (bytes * bytes) :=
  split ← position is_command_ws args;
  let subcommand := take split args in
  let value := skip_command_ws (drop split args) in
  if negb (length subcommand =? 0)%nat && negb (length value =? 0)%nat
  then Some (subcommand, value) else None.

Definition classify_authinfo_command (args : bytes) : RequestKind :=
  match split_authinfo_subcommand_value args with
  | None => classify_authinfo_sasl_command args
  | Some (subcommand, value) =>
      if eq_ignore_ascii_case_const subcommand (lit "USER")
         && validate_auth_info_value_bytes value
      then RequestKind.AuthInfoUser
      else if eq_ignore_ascii_case_const subcommand (lit "PASS")
              && validate_auth_info_value_bytes value
      then RequestKind.AuthInfoPass
      else classify_authinfo_sasl_command args
  end.

Definition classify_subcommand (args : bytes) (table : list (bytes * RequestKind))
    (default_ : RequestKind) : RequestKind :=
  match command_tokens args with
  | [] => default_
  | subcommand :: parts =>
      match List.find (fun row => eq_ignore_ascii_case_const subcommand (fst row)) table with
      | None => if (length subcommand =? 0)%nat then default_ else RequestKind.Unknown
      | Some (_, kind) =>
          match kind with
          | RequestKind.ListActive | RequestKind.ListActiveTimes
          | RequestKind.ListNewsgroups =>
              match parts with
              | [] => kind
              | [wildmat] => known_if (is_ok (validate_utf8_arg wildmat wildmat_from)) kind
              | _ => RequestKind.Unknown
              end
          | RequestKind.AuthInfoUser | RequestKind.AuthInfoPass =>
              match parts with
              | [value] => known_if (is_ok (validate_utf8_arg value auth_info_value_from)) kind
              | _ => RequestKind.Unknown
              end
          | RequestKind.ListHeaders =>
              match parts with
              | [] => kind
              | [selector] =>
                  known_if (eq_ignore_ascii_case_const selector (lit "MSGID")
                            || eq_ignore_ascii_case_const selector (lit "RANGE")) kind
              | _ => RequestKind.Unknown
              end
          | RequestKind.ListOverviewFmt | RequestKind.ListDistribPats =>
              match parts with [] => kind | _ :: _ => RequestKind.Unknown end
          | _ => kind
          end
      end
  end.

Definition classify_request_kind (verb args : bytes) : RequestKind :=
  match List.find (fun d => eq_ignore_ascii_case_const verb (fst d)) COMMAND_DESCRIPTORS with
  | None => RequestKind.Unknown
  | Some (_, DirectCommand kind) => classify_direct_command kind args
  | Some (_, ListCommand) => classify_subcommand args LIST_SUBCOMMANDS RequestKind.List
  | Some (_, AuthInfoCommand) => classify_authinfo_command args
  | Some (_, ModeCommand) =>
      if eq_ignore_ascii_case_const args (lit "READER") then RequestKind.ModeReader
      else if eq_ignore_ascii_case_const args (lit "STREAM") then RequestKind.ModeStream
      else RequestKind.Unknown
  end.

(** ** Request lines *)

Record RequestLine : Type := {
  rl_kind : RequestKind;
  verb : bytes;
  args : bytes;
}.

(** The verb and the arguments of a line without its CRLF and trailing space. *)
Definition split_verb_args (line : bytes) : bytes * bytes :=
  let split := default (length line) (position is_command_ws line) in
  let verb := take split line in
  let args := if (split <? length line)%nat then skip_command_ws (drop split line) else [] in
  (verb, args).

Definition parse (line : bytes) : RequestLine :=
  let raw_len := length line in
  if (MAX_AUTHINFO_SASL_COMMAND_LINE_BYTES <? raw_len)%nat
  then Build_RequestLine RequestKind.Unknown line []
  else
    match strip_complete_crlf_line line with
    | None => Build_RequestLine RequestKind.Unknown line []
    | Some line =>
        let line := strip_command_eol_ws line in
        if command_spacing_is_invalid line
        then Build_RequestLine RequestKind.Unknown line []
        else
          let '(verb, args) := split_verb_args line in
          let kind := classify_request_kind verb args in
          if ((MAX_INITIAL_RESPONSE_LINE_BYTES <? raw_len)%nat
              || (MAX_COMMAND_ARGUMENT_BYTES <? length args)%nat)
             && negb (RequestKind.eqb kind RequestKind.AuthInfo)
          then Build_RequestLine RequestKind.Unknown verb args
          else Build_RequestLine kind verb args
    end.

(** [args.iter().position(..)], [rposition(..)] trimmed to a message-id. *)
Definition find_message_id (args : bytes) : option (nat * nat) :=
  start ← position (fun byte => negb (is_ascii_whitespace byte)) args;
  last ← rposition (fun byte => negb (is_ascii_whitespace byte)) args;
  let end_ := S last in
  let trimmed := slice args start end_ in
  if negb (starts_with trimmed (lit "<")) || negb (ends_with trimmed (lit ">"))
     || existsb is_ascii_whitespace (slice trimmed 1 (length trimmed - 1))
  then None
  else
    _ ← from_utf8 trimmed;
    match message_id_from_borrowed trimmed with
    | Ok _ => Some (start, end_)
    | Err _ => None
    end.

Definition request_line_message_id (self : RequestLine) : option bytes :=
  range ← find_message_id (args self);
  let value := slice (args self) (fst range) (snd range) in
  _ ← from_utf8 value;
  match message_id_from_borrowed value with Ok m => Some m | Err _ => None end.

Definition request_line_has_valid_generic_command_syntax (request : RequestLine) : bool :=
  validate_ascii_token (verb request) validate_keyword
  && forallb validate_p_char_token (command_tokens (args request)).

Definition command_line_has_valid_generic_syntax (line : bytes) : bool :=
  match strip_complete_crlf_line line with
  | None => false
  | Some line =>
      let line := strip_command_eol_ws line in
      if command_spacing_is_invalid line then false
      else
        let '(verb, args) := split_verb_args line in
        validate_ascii_token verb validate_keyword
        && forallb validate_p_char_token (command_tokens args)
  end.

(** ** Splitting: lemmas *)

Lemma split_on_plain (p : Z -> bool) l :
  Forall (fun b => p b = false) l -> split_on p l = [l].
Proof.
  induction 1 as [|x l Hx _ IH]; [done|]. cbn [split_on]. by rewrite Hx, IH.
Qed.

Lemma split_on_cons (p : Z -> bool) l x rest :
  Forall (fun b => p b = false) l -> p x = true ->
  split_on p (l ++ x :: rest) = l :: split_on p rest.
Proof.
  intros Hl Hx. induction Hl as [|y l Hy _ IH]; cbn [split_on app].
  - by rewrite Hx.
  - by rewrite Hy, IH.
Qed.

Lemma above_not_command_ws b : 32 < b -> is_command_ws b = false.
Proof. unfold is_command_ws, SP, HT. lia. Qed.

Lemma plain_arg_not_ws l : plain_arg l -> Forall (fun b => is_command_ws b = false) l.
Proof. intros [_ Hl]. eapply Forall_impl; [|exact Hl]. apply above_not_command_ws. Qed.

Lemma command_tokens_single a : plain_arg a -> command_tokens a = [a].
Proof.
  intros Ha. unfold command_tokens. rewrite split_on_plain by by apply plain_arg_not_ws.
  destruct Ha as [Hne _]. by destruct a.
Qed.

Lemma command_tokens_cons a rest :
  plain_arg a -> command_tokens (a ++ SP :: rest) = a :: command_tokens rest.
Proof.
  intros Ha. unfold command_tokens. rewrite split_on_cons by (by apply plain_arg_not_ws || done).
  destruct Ha as [Hne _]. by destruct a.
Qed.

(** [strip_complete_crlf_line] on a body without CR or LF. *)
Lemma strip_complete_crlf_plain l :
  Forall plain l -> strip_complete_crlf_line (l ++ CRLF) = Some l.
Proof.
  intros Hl. unfold strip_complete_crlf_line.
  rewrite <- (app_nil_r CRLF), detect_line_complete by done.
  rewrite app_nil_r, length_app. change (length CRLF) with 2%nat.
  rewrite Nat.eqb_refl. f_equal.
  replace (length l + 2 - 2)%nat with (length l) by lia. apply take_app_length.
Qed.

(** The last byte that is not white space ends the stripped line. *)
Lemma strip_eol_ws_none l x :
  is_command_ws x = false -> strip_command_eol_ws (l ++ [x]) = l ++ [x].
Proof.
  intros Hx. unfold strip_command_eol_ws, rposition.
  rewrite rev_unit. cbn [position]. rewrite Hx. cbn [negb fmap option_fmap option_map].
  rewrite length_app. cbn [length].
  replace (S (length l + 1 - 1)) with (length (l ++ [x])) by (rewrite length_app; cbn; lia).
  by rewrite firstn_all.
Qed.

(** A byte that may stand inside the arguments of a line. *)
Definition line_byte (b : Z) : Prop :=
  is_ascii_whitespace b = true -> is_command_ws b = true.

(** Arguments as [parse] returns them: none, or text that starts and ends
    with a byte that is not white space. *)
Definition args_ok (a : bytes) : Prop :=
  a = [] \/ Forall line_byte a
    /\ (exists x r, a = x :: r /\ is_command_ws x = false)
    /\ (exists r y, a = r ++ [y] /\ is_command_ws y = false).

(** The line of a verb and its arguments. *)
Definition wire_line (v a : bytes) : bytes :=
  v ++ match a with [] => [] | _ => SP :: a end ++ CRLF.

Lemma above_line_byte b : 32 < b -> line_byte b.
Proof. intros H Hw. unfold line_byte. pose proof (whitespace_above b H). congruence. Qed.

Lemma line_byte_plain b : line_byte b -> plain b.
Proof.
  unfold line_byte, plain, is_ascii_whitespace, is_command_ws, SP, HT, CR, LF. lia.
Qed.

Lemma plain_arg_line_bytes a : plain_arg a -> Forall line_byte a.
Proof. intros [_ Ha]. eapply Forall_impl; [|exact Ha]. apply above_line_byte. Qed.

Lemma plain_arg_first a : plain_arg a -> exists x r, a = x :: r /\ is_command_ws x = false.
Proof.
  intros [Hne Ha]. destruct a as [|x r]; [done|].
  apply Forall_cons_1 in Ha as [Hx _]. eauto using above_not_command_ws.
Qed.

Lemma plain_arg_last a : plain_arg a -> exists r y, a = r ++ [y] /\ is_command_ws y = false.
Proof.
  intros [Hne Ha]. destruct a as [|y r _] using rev_ind; [done|].
  apply Forall_app in Ha as [_ Ha]. apply Forall_cons_1 in Ha as [Hy _].
  eauto using above_not_command_ws.
Qed.

Lemma args_ok_plain a : plain_arg a -> args_ok a.
Proof. intros Ha. right. auto using plain_arg_line_bytes, plain_arg_first, plain_arg_last. Qed.

(** Several words: the first and the last are plain, spaces in between. *)
Lemma args_ok_cons a b : plain_arg a -> b <> [] -> args_ok b -> args_ok (a ++ SP :: b).
Proof.
  intros Ha Hne [->|(Hb & _ & r & y & -> & Hy)]; [done|]. right. split; [|split].
  - apply Forall_app. split; [by apply plain_arg_line_bytes|].
    constructor; [by intros _ | done].
  - destruct (plain_arg_first a Ha) as (x & r' & -> & Hx). by exists x, (r' ++ SP :: r ++ [y]).
  - exists (a ++ SP :: r), y. by rewrite <- app_assoc.
Qed.

Lemma skip_command_ws_args a x r :
  a = x :: r -> is_command_ws x = false -> skip_command_ws (SP :: a) = a.
Proof.
  intros -> Hx. unfold skip_command_ws. cbn [position]. rewrite Hx. reflexivity.
Qed.

Lemma split_verb_args_wire v a :
  plain_arg v -> args_ok a ->
  split_verb_args (v ++ match a with [] => [] | _ => SP :: a end) = (v, a).
Proof.
  intros Hv Ha. unfold split_verb_args.
  pose proof (plain_arg_not_ws v Hv) as Hnw.
  destruct a as [|b a'].
  - rewrite app_nil_r. rewrite (proj2 (position_None _ _) Hnw). cbn [default from_option].
    by rewrite firstn_all, Nat.ltb_irrefl.
  - rewrite position_app_here by done. cbn [default from_option id].
    rewrite take_app_length, drop_app_length, length_app. cbn [length].
    replace (length v <? _)%nat with true by (symmetry; apply Nat.ltb_lt; lia).
    destruct Ha as [?|(_ & (x & r & E & Hx) & _)]; [done|].
    by rewrite (skip_command_ws_args _ x r).
Qed.

Lemma command_spacing_wire v a :
  plain_arg v -> args_ok a ->
  command_spacing_is_invalid (v ++ match a with [] => [] | _ => SP :: a end) = false.
Proof.
  intros Hv Ha. unfold command_spacing_is_invalid.
  destruct (plain_arg_first v Hv) as (x & r & E & Hx).
  rewrite E at 1 2. cbn [app length Nat.eqb]. rewrite Hx. cbn [orb].
  apply existsb_false_Forall, Forall_app. split.
  - eapply Forall_impl; [|exact (proj2 Hv)]. intros b Hb.
    by rewrite whitespace_above.
  - destruct a as [|b a']; [constructor|].
    constructor; [done|]. destruct Ha as [?|(Hl & _)]; [done|].
    eapply Forall_impl; [|exact Hl]. intros c Hc. unfold line_byte in Hc.
    destruct (is_ascii_whitespace c); [|done]. by rewrite Hc.
Qed.

Lemma wire_body_last v a :
  plain_arg v -> args_ok a ->
  exists l y, v ++ match a with [] => [] | _ => SP :: a end = l ++ [y]
    /\ is_command_ws y = false.
Proof.
  intros Hv Ha. destruct a as [|b a'].
  - rewrite app_nil_r. by apply plain_arg_last.
  - destruct Ha as [?|(_ & _ & r & y & E & Hy)]; [done|].
    exists (v ++ SP :: r), y. rewrite E. by rewrite <- app_assoc.
Qed.

Lemma wire_body_plain v a :
  plain_arg v -> args_ok a ->
  Forall plain (v ++ match a with [] => [] | _ => SP :: a end).
Proof.
  intros Hv Ha. apply Forall_app. split.
  - eapply Forall_impl; [|apply plain_arg_line_bytes, Hv]. apply line_byte_plain.
  - destruct a as [|b a']; [constructor|]. constructor; [done|].
    destruct Ha as [?|(Hl & _)]; [done|]. eapply Forall_impl; [|exact Hl].
    apply line_byte_plain.
Qed.

(** What [parse] makes of a well-formed line. *)
Lemma parse_wire_line v a :
  plain_arg v -> args_ok a ->
  let line := wire_line v a in
  (length line <= MAX_AUTHINFO_SASL_COMMAND_LINE_BYTES)%nat ->
  let kind := classify_request_kind v a in
  parse line =
    (if ((MAX_INITIAL_RESPONSE_LINE_BYTES <? length line)%nat
         || (MAX_COMMAND_ARGUMENT_BYTES <? length a)%nat)
        && negb (RequestKind.eqb kind RequestKind.AuthInfo)
     then Build_RequestLine RequestKind.Unknown v a
     else Build_RequestLine kind v a).
Proof.
  intros Hv Ha line Hlen. unfold parse. apply Nat.ltb_ge in Hlen as ->.
  unfold line at 1, wire_line. rewrite app_assoc.
  rewrite strip_complete_crlf_plain by by apply wire_body_plain.
  destruct (wire_body_last v a Hv Ha) as (l & y & E & Hy).
  assert (strip_command_eol_ws (v ++ match a with [] => [] | _ => SP :: a end)
          = v ++ match a with [] => [] | _ => SP :: a end) as ->.
  { rewrite E. by apply strip_eol_ws_none. }
  rewrite command_spacing_wire, split_verb_args_wire by done. done.
Qed.

(** ** SASL base64 *)

Lemma count_while_spec (p : Z -> bool) l :
  exists a b, l = a ++ b /\ length a = count_while p l /\ forallb p a = true
    /\ match b with [] => True | x :: _ => p x = false end.
Proof.
  induction l as [|x l (a & b & E & Hl & Ha & Hb)]; [by exists [], []|].
  cbn [count_while]. destruct (p x) eqn:Ex.
  - exists (x :: a), b. cbn [app length forallb]. rewrite E, Hl, Ex, Ha. by subst.
  - exists [], (x :: l). done.
Qed.

Lemma base64_loop_spec n data_len value :
  base64_loop n data_len value = Ok tt <->
  forallb base64_byte (take (data_len - n) value) = true
  /\ forallb (Z.eqb EQUALS) (drop (data_len - n) value) = true.
Proof.
  revert n. induction value as [|b value IH]; intros n; cbn [base64_loop].
  { by rewrite take_nil, drop_nil. }
  destruct (data_len <=? n)%nat eqn:E.
  - apply Nat.leb_le in E. cbn [negb]. rewrite andb_true_r, andb_false_r, orb_false_r.
    replace (data_len - n)%nat with 0%nat by lia. cbn [take drop forallb].
    rewrite (Z.eqb_sym EQUALS b). destruct (b =? EQUALS); cbn [andb]; [|by split; [|intros []]].
    rewrite IH. replace (data_len - S n)%nat with 0%nat by lia. by rewrite take_0, drop_0.
  - apply Nat.leb_gt in E. cbn [negb]. rewrite andb_true_r, andb_false_r, orb_false_l.
    replace (data_len - n)%nat with (S (data_len - S n)) by lia. cbn [take drop forallb].
    destruct (base64_byte b); cbn [andb]; [apply IH | split; [done | by intros []]].
Qed.

Lemma forallb_eqb_replicate (c : Z) l :
  forallb (Z.eqb c) l = true -> l = replicate (length l) c.
Proof.
  induction l as [|x l IH]; [done|]. cbn [forallb length replicate].
  intros [->%Z.eqb_eq Hl]%andb_true_iff. by rewrite <- IH.
Qed.

Lemma rev_replicate_same (n : nat) (x : Z) : rev (replicate n x) = replicate n x.
Proof.
  induction n as [|n IH]; [done|]. rewrite replicate_S_end at 1.
  rewrite rev_app_distr, IH. done.
Qed.

(** The last byte of a text is not the padding byte. *)
Definition unpadded (l : bytes) : Prop :=
  match rev l with [] => True | z :: _ => (EQUALS =? z) = false end.

Lemma unpadded_snoc l : ~ unpadded (l ++ [EQUALS]).
Proof. unfold unpadded. by rewrite rev_app_distr. Qed.

Lemma padding_unique x y i j :
  x ++ replicate i EQUALS = y ++ replicate j EQUALS ->
  unpadded x -> unpadded y -> x = y /\ i = j.
Proof.
  revert x y j. induction i as [|i IH]; intros x y [|j] Hxy Hx Hy.
  - by rewrite !app_nil_r in Hxy.
  - rewrite replicate_S_end, app_assoc, app_nil_r in Hxy. subst x.
    by destruct (unpadded_snoc _ Hx).
  - rewrite replicate_S_end, app_assoc, app_nil_r in Hxy. subst y.
    by destruct (unpadded_snoc _ Hy).
  - rewrite !replicate_S_end, !app_assoc in Hxy. apply app_inj_tail in Hxy as [Hxy _].
    by destruct (IH x y j Hxy Hx Hy) as [-> ->].
Qed.

Lemma base64_unpadded data : forallb base64_byte data = true -> unpadded data.
Proof.
  intros Hd. unfold unpadded. destruct data as [|z data _] using rev_ind; [done|].
  rewrite forallb_app, andb_true_iff in Hd. cbn [forallb] in Hd.
  rewrite rev_app_distr. cbn [rev app]. destruct (EQUALS =? z) eqn:Ez; [|done].
  apply Z.eqb_eq in Ez as <-. by destruct Hd as [_ Hd].
Qed.

(** The padding [rev().take_while(..).count()] counts. *)
Lemma padding_count value :
  exists data, value = data ++ replicate (count_while (Z.eqb EQUALS) (rev value)) EQUALS
    /\ unpadded data.
Proof.
  destruct (count_while_spec (Z.eqb EQUALS) (rev value)) as (a & b & E & Hl & Ha & Hb).
  exists (rev b). apply (f_equal (@rev Z)) in E. rewrite rev_involutive, rev_app_distr in E.
  apply forallb_eqb_replicate in Ha. rewrite Hl in Ha. rewrite Ha, rev_replicate_same in E.
  split; [exact E|]. unfold unpadded. by rewrite rev_involutive.
Qed.

Lemma forallb_replicate (c : Z) n : forallb (Z.eqb c) (replicate n c) = true.
Proof. induction n as [|n IH]; [done|]. cbn [replicate forallb]. by rewrite Z.eqb_refl. Qed.

(** A SASL base64 token is accepted exactly when it is a non-empty multiple
    of four bytes: base64 data followed by at most two equals signs. *)
Theorem sasl_base64_grammar (value : bytes) :
  validate_sasl_base64 value = Ok tt <->
  exists data n, value = data ++ replicate n EQUALS /\ (n <= 2)%nat
    /\ forallb base64_byte data = true /\ value <> [] /\ (length value mod 4 = 0)%nat.
Proof.
  unfold validate_sasl_base64.
  destruct (length value =? 0)%nat eqn:E0.
  { apply length_eqb_nil in E0 as ->. split; [done | by intros (? & ? & _ & _ & _ & ? & _)]. }
  apply length_eqb_ne in E0. destruct (length value mod 4 =? 0)%nat eqn:E4; cbn [negb orb].
  2: { apply Nat.eqb_neq in E4. split; [done | by intros (? & ? & _ & _ & _ & _ & ?)]. }
  apply Nat.eqb_eq in E4.
  destruct (padding_count value) as (data & E & Hu).
  set (n := count_while (Z.eqb EQUALS) (rev value)) in *.
  assert (length value - n = length data)%nat as Hlen
    by (rewrite E at 1; rewrite length_app, length_replicate; lia).
  destruct (2 <? n)%nat eqn:E2.
  - apply Nat.ltb_lt in E2. split; [done|]. intros (data' & m & Hv & Hm & Hd & _).
    rewrite E in Hv. apply padding_unique in Hv as [_ Hv]; [lia|done|by apply base64_unpadded].
  - apply Nat.ltb_ge in E2. rewrite base64_loop_spec, Nat.sub_0_r, Hlen.
    rewrite E at 1 2. rewrite take_app_length, drop_app_length, forallb_replicate. split.
    + intros [Hd _]. by exists data, n.
    + intros (data' & m & Hv & _ & Hd & _). rewrite E in Hv.
      by apply padding_unique in Hv as [-> _]; [|done|apply base64_unpadded].
Qed.
