(* ===== verification/RequestWire.v ===== *)
(** * Requests on the wire: safety and round trip

    What [write_wire_to] of [Requests] promises to the line parser of
    [RequestLine] and to the block framer of [Terminator]: one command line
    that no argument can break, a TAKETHIS block that no payload can end early,
    and a line that is classified back as the kind that wrote it. *)
From S2P Require Import Prelude Utf8 Decimal Memchr Terminator Args Kinds Requests.
From S2P Require Import RequestLine.

Local Open Scope Z_scope.
Local Open Scope rust_scope.

(** ** What the validated newtypes guarantee of a request *)

Definition opt_ok (P : bytes -> Prop) (o : option bytes) : Prop :=
  match o with Some v => P v | None => True end.

Definition valid (f : bytes -> result unit invalid) (v : bytes) : Prop :=
  is_str v /\ f v = Ok tt.

Definition article_ref_ok (r : ArticleRef.ArticleRef) : Prop :=
  match r with
  | ArticleRef.Current => True
  | ArticleRef.Number n => 1 <= n <= MAX_ARTICLE_NUMBER
  | ArticleRef.MessageId m => valid validate_message_id m
  end.

Definition request_ok (r : Request) : Prop :=
  match r with
  | Request.Article a | Request.Body a | Request.Head a | Request.Stat a => article_ref_ok a
  | Request.ListVariant _ w => opt_ok (valid validate_wildmat) w
  | Request.Group g => valid validate_group_name g
  | Request.ListGroup g range =>
      opt_ok (valid validate_group_name) g /\ opt_ok (valid validate_listgroup_range) range
  | Request.Over s => opt_ok (valid validate_article_selector) s
  | Request.Xover s => opt_ok (valid validate_listgroup_range) s
  | Request.Hdr h s | Request.Xhdr h s =>
      valid validate_header_name h /\ opt_ok (valid validate_article_selector) s
  | Request.NewGroups d t _ => valid validate_nntp_date d /\ valid validate_nntp_time t
  | Request.NewNews w d t _ =>
      valid validate_wildmat w /\ valid validate_nntp_date d /\ valid validate_nntp_time t
  | Request.Ihave m | Request.Check m | Request.TakeThis m _ => valid validate_message_id m
  | Request.AuthInfo _ v => validate_auth_info_value_bytes v = true
  | Request.Capabilities k => opt_ok (fun k => is_str k /\ validate_keyword k = Ok tt) k
  | Request.Last | Request.Next | Request.Post | Request.StartTls | Request.List
  | Request.Help | Request.Date | Request.ModeReader | Request.ModeStream | Request.Quit => True
  end.

(** ** The command line a request stands for *)

Definition more (o : option bytes) : bytes :=
  match o with Some v => SP :: v | None => [] end.

Definition article_ref_args (r : ArticleRef.ArticleRef) : bytes :=
  match r with
  | ArticleRef.Current => []
  | ArticleRef.Number n => print_decimal n
  | ArticleRef.MessageId m => m
  end.

Definition gmt_arg (gmt : bool) : option bytes := if gmt then Some (lit "GMT") else None.

Definition wire_verb (r : Request) : bytes :=
  match r with
  | Request.Article _ => lit "ARTICLE" | Request.Body _ => lit "BODY"
  | Request.Head _ => lit "HEAD" | Request.Stat _ => lit "STAT"
  | Request.ListVariant _ _ | Request.List => lit "LIST"
  | Request.Group _ => lit "GROUP" | Request.ListGroup _ _ => lit "LISTGROUP"
  | Request.Last => lit "LAST" | Request.Next => lit "NEXT"
  | Request.Over _ => lit "OVER" | Request.Xover _ => lit "XOVER"
  | Request.Hdr _ _ => lit "HDR" | Request.Xhdr _ _ => lit "XHDR"
  | Request.NewGroups _ _ _ => lit "NEWGROUPS" | Request.NewNews _ _ _ _ => lit "NEWNEWS"
  | Request.Post => lit "POST" | Request.Ihave _ => lit "IHAVE"
  | Request.Check _ => lit "CHECK" | Request.TakeThis _ _ => lit "TAKETHIS"
  | Request.AuthInfo _ _ => lit "AUTHINFO" | Request.StartTls => lit "STARTTLS"
  | Request.Help => lit "HELP" | Request.Capabilities _ => lit "CAPABILITIES"
  | Request.Date => lit "DATE" | Request.Quit => lit "QUIT"
  | Request.ModeReader | Request.ModeStream => lit "MODE"
  end.

Definition wire_args (r : Request) : bytes :=
  match r with
  | Request.Article a | Request.Body a | Request.Head a | Request.Stat a => article_ref_args a
  | Request.ListVariant k w => ListKind.as_wire k ++ more w
  | Request.Group g => g
  | Request.ListGroup None _ => []
  | Request.ListGroup (Some g) range => g ++ more range
  | Request.Over s | Request.Xover s => default [] s
  | Request.Hdr h s | Request.Xhdr h s => h ++ more s
  | Request.NewGroups d t gmt => d ++ SP :: t ++ more (gmt_arg gmt)
  | Request.NewNews w d t gmt => w ++ SP :: d ++ SP :: t ++ more (gmt_arg gmt)
  | Request.Ihave m | Request.Check m | Request.TakeThis m _ => m
  | Request.AuthInfo k v => AuthInfoKind.as_wire k ++ SP :: v
  | Request.Capabilities k => default [] k
  | Request.ModeReader => lit "READER" | Request.ModeStream => lit "STREAM"
  | Request.Last | Request.Next | Request.Post | Request.StartTls | Request.List
  | Request.Help | Request.Date | Request.Quit => []
  end.

Definition request_line (r : Request) : bytes := wire_line (wire_verb r) (wire_args r).

Definition request_block (r : Request) : bytes :=
  match r with
  | Request.TakeThis _ payload =>
      join_crlf (stuff <$> crlf_normalized_payload_lines payload) ++ DOT_TERMINATOR
  | _ => []
  end.

(** ** Validated arguments, one lemma each *)

Lemma valid_message_id m : valid validate_message_id m -> plain_arg m.
Proof. intros [_ H]. by apply message_id_shape_plain, validate_message_id_shape. Qed.
Lemma valid_group g : valid validate_group_name g -> plain_arg g.
Proof. intros [_ H]. by apply group_name_plain. Qed.
Lemma valid_range v : valid validate_listgroup_range v -> plain_arg v.
Proof. intros [_ H]. by apply range_shape_plain, validate_listgroup_range_shape. Qed.
Lemma valid_selector v : valid validate_article_selector v -> plain_arg v.
Proof.
  intros [_ H%validate_article_selector_shape].
  destruct H; [by apply message_id_shape_plain | by apply range_shape_plain].
Qed.
Lemma valid_header v : valid validate_header_name v -> plain_arg v.
Proof. intros [_ H]. by apply header_name_plain. Qed.
Lemma valid_date v : valid validate_nntp_date v -> plain_arg v.
Proof. intros [_ H]. by apply nntp_date_plain. Qed.
Lemma valid_time v : valid validate_nntp_time v -> plain_arg v.
Proof. intros [_ H]. by apply nntp_time_plain. Qed.
Lemma valid_wildmat v : valid validate_wildmat v -> plain_arg v.
Proof. intros [Hs H]. by apply wildmat_plain. Qed.

Lemma keyword_plain v : validate_keyword v = Ok tt -> plain_arg v.
Proof.
  unfold validate_keyword. destruct v as [|b rest]; [done|].
  destruct (is_ascii_alphabetic b) eqn:Ea; cbn [negb]; [|done].
  destruct (_ <? 2)%nat; [done|]. destruct (forallb keyword_byte rest) eqn:Er; [|done].
  intros _. apply plain_arg_above; [done|]. constructor.
  - unfold is_ascii_alphabetic, is_ascii_uppercase, is_ascii_lowercase in Ea.
    rewrite orb_true_iff, !in_range_spec in Ea. lia.
  - eapply Forall_forallb_impl; [|exact Er]. unfold keyword_byte, is_ascii_alphanumeric,
      is_ascii_alphabetic, is_ascii_uppercase, is_ascii_lowercase, is_ascii_digit.
    intros c. rewrite !orb_true_iff, !in_range_spec, !Z.eqb_eq. lia.
Qed.

Lemma article_number_plain n : 1 <= n <= MAX_ARTICLE_NUMBER -> plain_arg (print_decimal n).
Proof. intros H. apply print_decimal_plain. unfold MAX_ARTICLE_NUMBER, u64_max in *. lia. Qed.

#[export] Hint Resolve valid_message_id valid_group valid_range valid_selector valid_header
  valid_date valid_time valid_wildmat keyword_plain article_number_plain : wire.

Lemma validate_utf8_arg_ok f v :
  valid f v -> validate_utf8_arg v (validated f) = Ok v.
Proof.
  intros [[cs Hs] Hf]. unfold validate_utf8_arg, validated. rewrite Hs. cbn [ok_or].
  by rewrite Hf.
Qed.

Lemma gmt_plain : plain_arg (lit "GMT").
Proof. split; [done | by repeat constructor]. Qed.

Lemma list_kind_plain k : plain_arg (ListKind.as_wire k).
Proof. by destruct k; (split; [done | by repeat constructor]). Qed.

Lemma auth_kind_plain k : plain_arg (AuthInfoKind.as_wire k).
Proof. by destruct k; (split; [done | by repeat constructor]). Qed.

Lemma wire_verb_plain r : plain_arg (wire_verb r).
Proof. by destruct r; (split; [done | by repeat constructor]). Qed.

#[export] Hint Resolve gmt_plain list_kind_plain auth_kind_plain : wire.

(** ** The writers append the line and the block *)

Lemma write_payload_lines lines out :
  fold_left Request.write_payload_line lines out = out ++ join_crlf (stuff <$> lines).
Proof.
  revert out. induction lines as [|l lines IH]; intros out.
  - cbn. by rewrite app_nil_r.
  - cbn [fold_left]. rewrite IH. unfold Request.write_payload_line, Request.write_crlf,
      Request.write_bytes, join_crlf, stuff.
    cbn [fmap list_fmap concat]. destruct (starts_with l (lit ".")); by rewrite <- ?app_assoc.
Qed.

Lemma wire_line_app v a : a <> [] -> wire_line v a = v ++ lit " " ++ a ++ CRLF.
Proof. unfold wire_line. by destruct a. Qed.

Lemma sp_app (a : bytes) : SP :: a = lit " " ++ a.
Proof. done. Qed.

Lemma plain_ne a : plain_arg a -> a <> [].
Proof. by intros [? _]. Qed.

Lemma plain_ne_app a b : plain_arg a -> a ++ b <> [].
Proof. intros [? _]. by destruct a. Qed.

Lemma write_wire_split r out :
  request_ok r ->
  Request.write_wire_to r out = out ++ request_line r ++ request_block r.
Proof.
  unfold request_line. destruct r as
    [[|n|m]|[|n|m]|[|n|m]|[|n|m]|k [w|]|g|[g|] [rg|]| | |[s|]|[s|]|h [s|]|h [s|]
    |d t [|]|w d t [|]| |m|m|m payload|k v| | | |[k|]| | | |]; cbn [request_ok opt_ok article_ref_ok];
    intros Hok;
    cbn [wire_verb wire_args article_ref_args request_block gmt_arg more default from_option id];
    rewrite ?app_nil_r;
    try (rewrite wire_line_app by
           (split_ands; first [apply plain_ne_app | apply plain_ne]; auto with wire));
    cbn [Request.write_wire_to]; unfold Request.write_article_ref_request_wire,
      Request.write_list_request_wire, Request.write_one_arg_request_wire,
      Request.write_listgroup_request_wire, Request.write_simple_request_wire,
      Request.write_optional_arg_request_wire, Request.write_header_query_request_wire,
      Request.write_datetime_request_wire, Request.write_newnews_request_wire,
      Request.write_request_wire, Request.write_authinfo_request_wire,
      Request.write_optional, Request.write_crlf, Request.write_bytes;
    cbn zeta; rewrite <- ?app_assoc; try reflexivity.
  1-3: by rewrite ?sp_app, <- ?app_assoc.
  unfold Request.write_transfer_request_wire, Request.write_crlf, Request.write_bytes. cbn zeta.
  destruct payload as [|b payload]; cbn [length Nat.eqb].
  - cbn. by rewrite <- !app_assoc.
  - rewrite write_payload_lines, <- !app_assoc. reflexivity.
Qed.

(** ** Arguments in the shape the parser returns *)

Definition opt_plain (o : option bytes) : Prop := opt_ok plain_arg o.

Lemma args_ok_more a o : plain_arg a -> opt_plain o -> args_ok (a ++ more o).
Proof.
  intros Ha Ho. destruct o as [v|]; cbn [more].
  - apply args_ok_cons; [done | by apply plain_ne | by apply args_ok_plain].
  - rewrite app_nil_r. by apply args_ok_plain.
Qed.

Lemma args_ok_default o : opt_plain o -> args_ok (default [] o).
Proof. destruct o; [apply args_ok_plain | by left]. Qed.

Lemma opt_ok_impl (P Q : bytes -> Prop) o : (forall v, P v -> Q v) -> opt_ok P o -> opt_ok Q o.
Proof. destruct o; cbn; auto. Qed.

Lemma opt_valid f o :
  (forall v, valid f v -> plain_arg v) -> opt_ok (valid f) o -> opt_plain o.
Proof. apply opt_ok_impl. Qed.

Lemma gmt_arg_plain gmt : opt_plain (gmt_arg gmt).
Proof. destruct gmt; [apply gmt_plain | done]. Qed.

Lemma article_ref_args_ok r : article_ref_ok r -> args_ok (article_ref_args r).
Proof.
  destruct r; cbn [article_ref_ok article_ref_args]; intros H;
    [by left | apply args_ok_plain; auto with wire..].
Qed.

(** The extra conditions of the round trip: a wildmat only where the LIST
    variant takes one, and an AUTHINFO value without white space at its ends. *)
Definition round_trips (r : Request) : Prop :=
  match r with
  | Request.ListVariant (ListKind.OverviewFmt | ListKind.Headers | ListKind.DistribPats)
      (Some _) => False
  | Request.AuthInfo _ v => args_ok v
  | _ => True
  end.

Lemma auth_value_ne v : validate_auth_info_value_bytes v = true -> v <> [].
Proof. unfold validate_auth_info_value_bytes. intros H. by destruct v. Qed.

#[export] Hint Resolve args_ok_plain args_ok_more args_ok_default article_ref_args_ok
  gmt_arg_plain plain_ne plain_ne_app : wire.

Lemma mode_args_plain : plain_arg (lit "READER") /\ plain_arg (lit "STREAM").
Proof. split; (split; [done | by repeat constructor]). Qed.

Lemma wire_args_ok r : request_ok r -> round_trips r -> args_ok (wire_args r).
Proof.
  destruct r as
    [a|a|a|a|k w|g|[g|] rg| | |s|s|h s|h s|d t gmt|w d t gmt| |m|m|m payload|k v| | | |k| | | |];
    cbn [request_ok wire_args]; intros Hok Hr; split_ands;
    repeat first
      [ by left
      | progress auto with wire
      | apply args_ok_more | apply args_ok_default
      | apply args_ok_cons | by apply auth_value_ne
      | eapply opt_valid; [|eassumption]
      | apply args_ok_plain; apply mode_args_plain ].
  - eapply opt_ok_impl; [|exact Hok]. intros v [_ Hv]. auto with wire.
Qed.

(** ** Classification *)

Lemma validated_is_ok f v :
  valid f v -> is_ok (validate_utf8_arg v (validated f)) = true.
Proof. intros H. by rewrite validate_utf8_arg_ok. Qed.

Lemma message_id_arg_ok m :
  valid validate_message_id m -> is_ok (validate_utf8_arg m message_id_from_borrowed) = true.
Proof. apply validated_is_ok. Qed.

Lemma fetch_selector_ok r :
  article_ref_ok r ->
  (length (article_ref_args r) =? 0)%nat
  || is_ok (validate_article_fetch_selector (article_ref_args r)) = true.
Proof.
  destruct r as [|n|m]; cbn [article_ref_args article_ref_ok]; intros H; [done|..];
    apply orb_true_iff; right; unfold validate_article_fetch_selector.
  - pose proof (article_number_token_print n H) as Ht.
    assert (Forall is_ascii_byte (print_decimal n)) as Ha.
    { eapply Forall_forallb_impl; [|eapply token_digits, Ht].
      intros b ?%is_ascii_digit_spec. unfold is_ascii_byte. lia. }
    rewrite (from_utf8_ascii _ Ha). cbn [ok_or]. rewrite (token_digits _ _ Ht).
    unfold validate_article_number_token. by rewrite Ht.
  - destruct H as [[cs Hs] Hm]. rewrite Hs. cbn [ok_or].
    apply validate_message_id_shape in Hm as Hshape. destruct Hshape as (inner & E & _).
    rewrite E at 1. cbn. unfold message_id_from_borrowed. by rewrite Hm.
Qed.

Lemma command_tokens_nil : command_tokens [] = [].
Proof. done. Qed.

Lemma command_tokens_more a o :
  plain_arg a -> opt_plain o ->
  command_tokens (a ++ more o) = a :: match o with Some v => [v] | None => [] end.
Proof.
  intros Ha Ho. destruct o as [v|]; cbn [more].
  - by rewrite command_tokens_cons, command_tokens_single.
  - by rewrite app_nil_r, command_tokens_single.
Qed.

Lemma discovery_ok d t gmt allow w rest :
  valid validate_nntp_date d -> valid validate_nntp_time t ->
  rest = d ++ SP :: t ++ more (gmt_arg gmt) ->
  (allow = true -> valid validate_wildmat w) ->
  validate_discovery_datetime_args (if allow then w ++ SP :: rest else rest) allow = Ok tt.
Proof.
  intros Hd Ht -> Hw. unfold validate_discovery_datetime_args.
  assert (command_tokens (d ++ SP :: t ++ more (gmt_arg gmt))
          = d :: t :: match gmt_arg gmt with Some v => [v] | None => [] end) as E.
  { rewrite command_tokens_cons, command_tokens_more by auto with wire. done. }
  assert (forall parts, parts = command_tokens (d ++ SP :: t ++ more (gmt_arg gmt)) ->
    match parts with
    | date :: time :: parts' =>
        let? _ := map_err (fun _ => tt) (validate_utf8_arg date nntp_date_from) in
        let? _ := map_err (fun _ => tt) (validate_utf8_arg time nntp_time_from) in
        match parts' with
        | [] => Ok tt
        | [gmt] => if eq_ignore_ascii_case_const gmt (lit "GMT") then Ok tt else Err tt
        | _ => Err tt
        end
    | _ => Err tt
    end = Ok tt) as Hrest.
  { intros parts ->. rewrite E.
    unfold nntp_date_from, nntp_time_from. rewrite !validate_utf8_arg_ok by done.
    cbn [map_err]. by destruct gmt. }
  destruct allow.
  - specialize (Hw eq_refl). rewrite command_tokens_cons by auto with wire.
    unfold wildmat_from. rewrite validate_utf8_arg_ok by done. cbn [map_err].
    by apply Hrest.
  - by apply Hrest.
Qed.

Lemma classify_direct v v' k a :
  List.find (fun d => eq_ignore_ascii_case_const v (fst d)) COMMAND_DESCRIPTORS
    = Some (v', DirectCommand k) ->
  classify_request_kind v a = classify_direct_command k a.
Proof. intros H. unfold classify_request_kind. by rewrite H. Qed.

Lemma length_eqb_plain a : plain_arg a -> (length a =? 0)%nat = false.
Proof. intros H%plain_ne. by apply length_eqb_ne. Qed.

Lemma classify_list_variant k w :
  opt_ok (valid validate_wildmat) w -> round_trips (Request.ListVariant k w) ->
  classify_request_kind (lit "LIST") (ListKind.as_wire k ++ more w)
  = Request.kind (Request.ListVariant k w).
Proof.
  intros Hw Hr.
  change (classify_request_kind (lit "LIST") (ListKind.as_wire k ++ more w))
    with (classify_subcommand (ListKind.as_wire k ++ more w) LIST_SUBCOMMANDS RequestKind.List).
  unfold classify_subcommand. rewrite command_tokens_more;
    [|auto with wire | eapply opt_valid; [|exact Hw]; auto with wire].
  destruct w as [w|]; [|by destruct k].
  cbn [opt_ok] in Hw. pose proof (validated_is_ok _ _ Hw) as E. fold wildmat_from in E.
  destruct k; cbn in Hr; try done; cbn -[validate_utf8_arg]; by rewrite E.
Qed.

Lemma classify_auth k v :
  validate_auth_info_value_bytes v = true -> args_ok v ->
  classify_request_kind (lit "AUTHINFO") (AuthInfoKind.as_wire k ++ SP :: v)
  = Request.kind (Request.AuthInfo k v).
Proof.
  intros Hv Ha.
  change (classify_request_kind (lit "AUTHINFO") (AuthInfoKind.as_wire k ++ SP :: v))
    with (classify_authinfo_command (AuthInfoKind.as_wire k ++ SP :: v)).
  unfold classify_authinfo_command, split_authinfo_subcommand_value.
  rewrite position_app_here by
    (done || apply plain_arg_not_ws; auto with wire). cbn [mbind option_bind].
  rewrite take_app_length, drop_app_length.
  destruct Ha as [->|(_ & (x & r & E & Hx) & _)]; [done|].
  rewrite (skip_command_ws_args v x r) by done.
  rewrite (proj2 (length_eqb_ne v)) by (rewrite E; done).
  rewrite (length_eqb_plain (AuthInfoKind.as_wire k)) by auto with wire. cbn [negb andb].
  rewrite Hv. by destruct k.
Qed.

Ltac classify_with v k :=
  rewrite (classify_direct v v k) by reflexivity;
  cbn [classify_direct_command]; unfold known_if.

Lemma classify_wire r :
  request_ok r -> round_trips r ->
  classify_request_kind (wire_verb r) (wire_args r) = Request.kind r.
Proof.
  destruct r as
    [a|a|a|a|k w|g|[g|] rg| | |s|s|h s|h s|d t gmt|w d t gmt| |m|m|m payload|k v| | | |k| | | |];
    cbn [request_ok wire_args wire_verb]; intros Hok Hr; split_ands; try reflexivity;
    try (by apply classify_list_variant); try (by apply classify_auth).
  - classify_with (lit "ARTICLE") RequestKind.Article. by rewrite fetch_selector_ok.
  - classify_with (lit "BODY") RequestKind.Body. by rewrite fetch_selector_ok.
  - classify_with (lit "HEAD") RequestKind.Head. by rewrite fetch_selector_ok.
  - classify_with (lit "STAT") RequestKind.Stat. by rewrite fetch_selector_ok.
  - classify_with (lit "GROUP") RequestKind.Group. unfold group_name_from. by rewrite validated_is_ok.
  - classify_with (lit "LISTGROUP") RequestKind.ListGroup. cbn [opt_ok] in *.
    rewrite (proj2 (length_eqb_ne (g ++ more rg))) by auto with wire.
    rewrite command_tokens_more by (auto with wire || (eapply opt_valid; [|done]; auto with wire)).
    unfold group_name_from, listgroup_range_from.
    destruct rg; cbn [opt_ok] in *; by rewrite !validated_is_ok.
  - classify_with (lit "OVER") RequestKind.Over. destruct s as [s|]; [|done].
    cbn [default from_option id opt_ok] in *. unfold article_selector_from.
    by rewrite validated_is_ok, orb_true_r.
  - classify_with (lit "XOVER") RequestKind.Xover. destruct s as [s|]; [|done].
    cbn [default from_option id opt_ok] in *. unfold listgroup_range_from.
    by rewrite validated_is_ok, orb_true_r.
  - classify_with (lit "HDR") RequestKind.Hdr.
    rewrite command_tokens_more by (auto with wire || (eapply opt_valid; [|done]; auto with wire)).
    unfold header_name_from, article_selector_from.
    destruct s; cbn [opt_ok] in *; by rewrite !validated_is_ok.
  - classify_with (lit "XHDR") RequestKind.Xhdr.
    rewrite command_tokens_more by (auto with wire || (eapply opt_valid; [|done]; auto with wire)).
    unfold header_name_from, article_selector_from.
    destruct s; cbn [opt_ok] in *; by rewrite !validated_is_ok.
  - classify_with (lit "NEWGROUPS") RequestKind.NewGroups.
    by rewrite (discovery_ok d t gmt false []) by done.
  - classify_with (lit "NEWNEWS") RequestKind.NewNews. unfold validate_newnews_args.
    by rewrite (discovery_ok d t gmt true w) by done.
  - classify_with (lit "IHAVE") RequestKind.Ihave. by rewrite message_id_arg_ok.
  - classify_with (lit "CHECK") RequestKind.Check. by rewrite message_id_arg_ok.
  - classify_with (lit "TAKETHIS") RequestKind.TakeThis. by rewrite message_id_arg_ok.
  - classify_with (lit "CAPABILITIES") RequestKind.Capabilities. destruct k as [k|]; [|done].
    cbn [default from_option id opt_ok] in *. split_ands.
    unfold validate_capabilities_args. rewrite command_tokens_single by auto with wire.
    unfold validate_utf8_arg.
    match goal with H : is_str k |- _ => destruct H as [cs ->] end.
    match goal with H : validate_keyword k = _ |- _ => rewrite H end.
    cbn. by rewrite orb_true_r.
Qed.

(** ** Lines and blocks *)

Lemma wire_args_line r : request_ok r -> Forall plain (wire_args r).
Proof.
  intros Hok.
  assert (round_trips r -> Forall plain (wire_args r)) as Hr.
  { intros Hr. destruct (wire_args_ok r Hok Hr) as [->|[Ha _]]; [constructor|].
    eapply Forall_impl; [|exact Ha]. apply line_byte_plain. }
  assert (forall v, Forall plain v -> Forall plain (SP :: v)) as Hsp
    by (intros v Hv; by constructor).
  assert (forall v, plain_arg v -> Forall plain v) as Hp.
  { intros v Hv. eapply Forall_impl; [|apply plain_arg_line_bytes, Hv]. apply line_byte_plain. }
  destruct r; try (by apply Hr); cbn [request_ok wire_args] in *.
  - apply Forall_app. split; [apply Hp; auto with wire|].
    destruct wildmat; cbn [more opt_ok] in *; [|constructor]. apply Hsp, Hp. auto with wire.
  - apply Forall_app. split; [apply Hp; auto with wire|]. apply Hsp.
    unfold validate_auth_info_value_bytes in Hok. split_ands.
    eapply Forall_forallb_impl; [|eassumption]. intros b Hb. split_ands.
    unfold plain, CR, LF in *. lia.
Qed.

Lemma request_line_complete r rest :
  request_ok r ->
  detect_response_line_end (request_line r ++ rest)
  = ResponseLineStatus.CompleteAt (length (request_line r)).
Proof.
  intros Hok. unfold request_line, wire_line. rewrite app_assoc.
  rewrite <- app_assoc, detect_line_complete.
  - rewrite !length_app. f_equal.
  - apply Forall_app. split.
    + eapply Forall_impl; [|apply plain_arg_line_bytes, wire_verb_plain]. apply line_byte_plain.
    + pose proof (wire_args_line r Hok) as Ha. destruct (wire_args r); [constructor|].
      by constructor.
Qed.

(** ** Properties *)

(** No request can break out of its command line: the wire form is one
    CRLF line (no argument carries CR or LF) followed by nothing, or, for
    TAKETHIS, by a block. *)
Theorem request_is_one_line (r : Request) (out : bytes) :
  request_ok r ->
  exists line block, Request.write_wire_to r out = out ++ line ++ block
    /\ detect_response_line_end (line ++ block) = ResponseLineStatus.CompleteAt (length line)
    /\ (block = [] \/ exists m payload, r = Request.TakeThis m payload).
Proof.
  intros Hok. exists (request_line r), (request_block r).
  split; [by apply write_wire_split|]. split; [by apply request_line_complete|].
  destruct r; try (by left). right. eauto.
Qed.

Lemma request_is_one_line_witness :
  exists line block,
    Request.write_wire_to (Request.Group (lit "comp.lang.rust")) [] = [] ++ line ++ block
    /\ detect_response_line_end (line ++ block) = ResponseLineStatus.CompleteAt (length line)
    /\ (block = [] \/ exists m payload,
          Request.Group (lit "comp.lang.rust") = Request.TakeThis m payload).
Proof.
  apply (request_is_one_line (Request.Group (lit "comp.lang.rust")) []).
  split; [by exists (lit "comp.lang.rust") | reflexivity].
Defined.

(** C26: a TAKETHIS payload cannot end its own block early: whatever bytes the
    payload holds (lone dots and terminators included) the receiver's block
    search ends exactly at the last byte written, and taking the stuffed dots
    off the block's lines gives back the normalised payload lines. *)
Theorem takethis_block_is_safe find_end `{!TerminatorFinder find_end} (m payload out : bytes) :
  valid validate_message_id m ->
  exists content, Request.write_wire_to (Request.TakeThis m payload) out
      = out ++ request_line (Request.TakeThis m payload) ++ content ++ DOT_TERMINATOR
    /\ find_dot_terminated_block_end find_end (content ++ DOT_TERMINATOR) 0
       = Some (length (content ++ DOT_TERMINATOR))
    /\ unstuff <$> crlf_normalized_payload_lines content
       = crlf_normalized_payload_lines payload.
Proof.
  intros Hm. set (lines := stuff <$> crlf_normalized_payload_lines payload).
  assert (Forall (Forall plain) lines) as Hp.
  { apply Forall_fmap. eapply Forall_impl; [|apply payload_lines_plain]. apply stuff_plain. }
  exists (join_crlf lines). split; [by rewrite write_wire_split|]. split.
  - rewrite (block_end_body_end_0 find_end).
    rewrite body_end_lines; [|done|].
    + rewrite <- (app_nil_r DOT_TERMINATOR) at 1. rewrite body_end_dot, length_app. done.
    + apply Forall_fmap, List.Forall_forall. intros l _. apply stuff_not_dot.
  - rewrite payload_lines_join by done. unfold lines. rewrite <- list_fmap_compose.
    rewrite <- (list_fmap_id (crlf_normalized_payload_lines payload)) at 2.
    apply list_fmap_ext. intros i l _. apply unstuff_stuff.
Qed.

Lemma takethis_block_is_safe_witness :
  exists content,
    Request.write_wire_to (Request.TakeThis (lit "<a@b>") [46; 13; 10; 46; 46; 10]) []
      = [] ++ request_line (Request.TakeThis (lit "<a@b>") [46; 13; 10; 46; 46; 10])
           ++ content ++ DOT_TERMINATOR
    /\ find_dot_terminated_block_end find_streaming_terminator_end (content ++ DOT_TERMINATOR) 0
       = Some (length (content ++ DOT_TERMINATOR))
    /\ unstuff <$> crlf_normalized_payload_lines content
       = crlf_normalized_payload_lines [46; 13; 10; 46; 46; 10].
Proof.
  apply (takethis_block_is_safe find_streaming_terminator_end (lit "<a@b>") [46; 13; 10; 46; 46; 10] []).
  split; [by exists (lit "<a@b>") | reflexivity].
Defined.

Lemma kind_not_authinfo r : RequestKind.eqb (Request.kind r) RequestKind.AuthInfo = false.
Proof. by destruct r as [| | | |[]| | | | | | | | | | | | | | |[]| | | | | | | |]. Qed.

(** C27: the line parser inverts the writer: the command line of a request with
    valid arguments is classified back as the request's kind, with the verb and
    the arguments that were written, when it fits the limits of 512 bytes and 497
    argument bytes, and is classified as unknown when it does not.  Two kinds of
    requests are left out ([round_trips]), as their lines are not read back: an
    AUTHINFO whose value begins or ends with white space, as the parser strips
    it at the end, and LIST OVERVIEW.FMT, HEADERS or DISTRIB.PATS with a wildmat,
    which the server's grammar gives none. *)
Theorem request_line_roundtrip (r : Request) (out : bytes) :
  request_ok r -> round_trips r ->
  Request.write_wire_to r out = out ++ request_line r ++ request_block r
  /\ ((length (request_line r) <= MAX_INITIAL_RESPONSE_LINE_BYTES)%nat
      /\ (length (wire_args r) <= MAX_COMMAND_ARGUMENT_BYTES)%nat ->
      parse (request_line r) = Build_RequestLine (Request.kind r) (wire_verb r) (wire_args r))
  /\ (~ ((length (request_line r) <= MAX_INITIAL_RESPONSE_LINE_BYTES)%nat
         /\ (length (wire_args r) <= MAX_COMMAND_ARGUMENT_BYTES)%nat) ->
      rl_kind (parse (request_line r)) = RequestKind.Unknown).
Proof.
  intros Hok Hr. split; [by apply write_wire_split|].
  pose proof (parse_wire_line (wire_verb r) (wire_args r) (wire_verb_plain r)
                (wire_args_ok r Hok Hr)) as Hparse.
  cbn zeta in Hparse. fold (request_line r) in Hparse.
  rewrite (classify_wire r Hok Hr), kind_not_authinfo, andb_true_r in Hparse.
  assert (MAX_INITIAL_RESPONSE_LINE_BYTES <= MAX_AUTHINFO_SASL_COMMAND_LINE_BYTES)%nat as Hm
    by (unfold MAX_INITIAL_RESPONSE_LINE_BYTES, MAX_AUTHINFO_SASL_COMMAND_LINE_BYTES;
        apply Nat.leb_le; reflexivity).
  split.
  - intros [H1 H2]. rewrite Hparse by lia.
    by rewrite (proj2 (Nat.ltb_ge _ _) H1), (proj2 (Nat.ltb_ge _ _) H2).
  - intros Hbig.
    destruct (MAX_AUTHINFO_SASL_COMMAND_LINE_BYTES <? length (request_line r))%nat eqn:E.
    + unfold parse. by rewrite E.
    + apply Nat.ltb_ge in E. rewrite Hparse by done.
      destruct (_ || _) eqn:El; [done|]. rewrite orb_false_iff, !Nat.ltb_ge in El.
      by destruct Hbig.
Qed.

Definition sample_newnews : Request :=
  Request.NewNews (lit "comp.*") (lit "20240102") (lit "030405") true.

Lemma request_line_roundtrip_witness :
  parse (lit "NEWNEWS comp.* 20240102 030405 GMT" ++ CRLF)
  = Build_RequestLine RequestKind.NewNews (lit "NEWNEWS") (lit "comp.* 20240102 030405 GMT").
Proof.
  apply (proj1 (proj2 (request_line_roundtrip sample_newnews [] ltac:(
    repeat split; try reflexivity;
    first [by exists (lit "comp.*") | by exists (lit "20240102") | by exists (lit "030405")]) I))).
  split; apply Nat.leb_le; reflexivity.
Defined.

(** ** Constructors *)

(** The requests the smart constructors return, on [&str] arguments. *)
Inductive constructed : Request -> Prop :=
| c_article m r : is_str m -> Request.article m = Ok r -> constructed r
| c_body m r : is_str m -> Request.body m = Ok r -> constructed r
| c_head m r : is_str m -> Request.head m = Ok r -> constructed r
| c_stat m r : is_str m -> Request.stat m = Ok r -> constructed r
| c_article_number n r : 0 <= n -> Request.article_number n = Ok r -> constructed r
| c_body_number n r : 0 <= n -> Request.body_number n = Ok r -> constructed r
| c_head_number n r : 0 <= n -> Request.head_number n = Ok r -> constructed r
| c_stat_number n r : 0 <= n -> Request.stat_number n = Ok r -> constructed r
| c_article_selector s r : is_str s -> Request.article_selector s = Ok r -> constructed r
| c_body_selector s r : is_str s -> Request.body_selector s = Ok r -> constructed r
| c_head_selector s r : is_str s -> Request.head_selector s = Ok r -> constructed r
| c_stat_selector s r : is_str s -> Request.stat_selector s = Ok r -> constructed r
| c_group g r : is_str g -> Request.group g = Ok r -> constructed r
| c_listgroup g r : is_str g -> Request.listgroup g = Ok r -> constructed r
| c_listgroup_group_range g v r : is_str g -> is_str v ->
    Request.listgroup_group_range g v = Ok r -> constructed r
| c_over s r : is_str s -> Request.over s = Ok r -> constructed r
| c_xover s r : is_str s -> Request.xover s = Ok r -> constructed r
| c_hdr h s r : is_str h -> is_str s -> Request.hdr h s = Ok r -> constructed r
| c_hdr_current h r : is_str h -> Request.hdr_current h = Ok r -> constructed r
| c_xhdr h s r : is_str h -> is_str s -> Request.xhdr h s = Ok r -> constructed r
| c_xhdr_current h r : is_str h -> Request.xhdr_current h = Ok r -> constructed r
| c_newgroups d t gmt r : is_str d -> is_str t ->
    Request.newgroups d t gmt = Ok r -> constructed r
| c_newnews w d t gmt r : is_str w -> is_str d -> is_str t ->
    Request.newnews w d t gmt = Ok r -> constructed r
| c_ihave m r : is_str m -> Request.ihave m = Ok r -> constructed r
| c_check m r : is_str m -> Request.check m = Ok r -> constructed r
| c_takethis m a r : is_str m -> Request.takethis m a = Ok r -> constructed r
| c_authinfo_user v r : Request.authinfo_user_bytes v = Ok r -> constructed r
| c_authinfo_pass v r : Request.authinfo_pass_bytes v = Ok r -> constructed r
| c_list_active_wildmat w r : is_str w -> Request.list_active_wildmat w = Ok r -> constructed r
| c_list_active_times_wildmat w r : is_str w ->
    Request.list_active_times_wildmat w = Ok r -> constructed r
| c_list_newsgroups_wildmat w r : is_str w ->
    Request.list_newsgroups_wildmat w = Ok r -> constructed r
| c_capabilities_keyword k r : is_str k -> Request.capabilities_keyword k = Ok r -> constructed r
| c_constant r : In r
    [Request.article_current; Request.body_current; Request.head_current; Request.stat_current;
     Request.listgroup_current; Request.last; Request.next; Request.over_current;
     Request.xover_current; Request.post; Request.starttls; Request.list; Request.list_active;
     Request.list_active_times; Request.list_newsgroups; Request.list_overview_fmt;
     Request.list_headers; Request.list_distrib_pats; Request.help; Request.capabilities;
     Request.date; Request.mode_reader; Request.mode_stream; Request.quit] ->
    constructed r.

Lemma message_id_valid m : message_id_shape m -> valid validate_message_id m.
Proof.
  intros H. split; [by apply is_str_ascii, message_id_shape_ascii|].
  by apply validate_message_id_shape.
Qed.

Lemma from_str_or_wrap_valid m w :
  message_id_from_str_or_wrap m = Ok w -> valid validate_message_id w.
Proof.
  unfold message_id_from_str_or_wrap. destruct m as [|b m]; [done|].
  destruct (validate_message_id _) as [[]|] eqn:E; [|done].
  intros [= <-]. by apply message_id_valid, validate_message_id_shape.
Qed.

Lemma from_number_ok n r : 0 <= n -> ArticleRef.from_number n = Ok r -> article_ref_ok r.
Proof.
  unfold ArticleRef.from_number. intros Hn. destruct (_ || _) eqn:E; [done|].
  intros [= <-]. split_ands. cbn [article_ref_ok]. lia.
Qed.

Lemma from_selector_ok s r : ArticleRef.from_selector s = Ok r -> article_ref_ok r.
Proof.
  unfold ArticleRef.from_selector. destruct (_ || _); [done|].
  destruct (forallb is_ascii_digit s).
  - destruct (article_number_token_value s) as [n|] eqn:E; [|done]. cbn [map_err].
    apply article_number_token_value_spec in E as (_ & _ & _ & Hn). apply from_number_ok. lia.
  - destruct (message_id_from_borrowed s) as [m|] eqn:E; [|done]. cbn [map_err].
    intros [= <-]. apply message_id_from_borrowed_Ok in E as [-> E]. by apply message_id_valid.
Qed.

Lemma validated_valid f v w : is_str v -> validated f v = Ok w -> valid f w.
Proof. by intros Hs [-> Hf]%validated_Ok. Qed.

Lemma header_name_from_valid v w : is_str v -> header_name_from v = Ok w -> valid validate_header_name w.
Proof. apply validated_valid. Qed.
Lemma article_selector_from_valid v w : is_str v -> article_selector_from v = Ok w -> valid validate_article_selector w.
Proof. apply validated_valid. Qed.
Lemma listgroup_range_from_valid v w : is_str v -> listgroup_range_from v = Ok w -> valid validate_listgroup_range w.
Proof. apply validated_valid. Qed.
Lemma group_name_from_valid v w : is_str v -> group_name_from v = Ok w -> valid validate_group_name w.
Proof. apply validated_valid. Qed.
Lemma nntp_date_from_valid v w : is_str v -> nntp_date_from v = Ok w -> valid validate_nntp_date w.
Proof. apply validated_valid. Qed.
Lemma nntp_time_from_valid v w : is_str v -> nntp_time_from v = Ok w -> valid validate_nntp_time w.
Proof. apply validated_valid. Qed.
Lemma wildmat_from_valid v w : is_str v -> wildmat_from v = Ok w -> valid validate_wildmat w.
Proof. apply validated_valid. Qed.

Ltac open_result :=
  repeat match goal with
  | H : match ?x with Ok _ => _ | Err _ => _ end = Ok _ |- _ =>
      let E := fresh "E" in destruct x eqn:E; [|done]
  | H : map_err _ _ = Ok _ |- _ => apply map_err_Ok in H
  | H : Ok _ = Ok _ |- _ => injection H as <-
  | u : unit |- _ => destruct u
  end.

Lemma header_pair_valid h s p :
  is_str h -> is_str s -> Request.header_pair h s = Ok p ->
  valid validate_header_name (fst p) /\ valid validate_article_selector (snd p).
Proof.
  intros Hh Hs H. unfold Request.header_pair in H. open_result.
  split; [by apply (validated_valid _ h) | by apply (validated_valid _ s)].
Qed.

#[export] Hint Resolve from_str_or_wrap_valid from_number_ok from_selector_ok
  header_name_from_valid article_selector_from_valid listgroup_range_from_valid group_name_from_valid
  nntp_date_from_valid nntp_time_from_valid wildmat_from_valid : wire.

Ltac split_goal := repeat match goal with |- _ /\ _ => split end.

Lemma constructed_valid (r : Request) :
  constructed r -> request_ok r /\ (Request.auth_info r = None -> round_trips r).
Proof.
  destruct 1 as
    [m r _ H|m r _ H|m r _ H|m r _ H|n r Hn H|n r Hn H|n r Hn H|n r Hn H|s r _ H|s r _ H|s r _ H
    |s r _ H|g r Hs H|g r Hs H|g v r Hs Hs' H|s r Hs H|s r Hs H|h s r Hs Hs' H|h r Hs H
    |h s r Hs Hs' H|h r Hs H|d t gmt r Hs Hs' H|w d t gmt r Hw Hs Hs' H|m r _ H|m r _ H|m a r _ H
    |v r H|v r H|w r Hs H|w r Hs H|w r Hs H|k r Hs H|r Hin];
    [unfold Request.article, Request.body, Request.head, Request.stat, Request.article_number,
       Request.body_number, Request.head_number, Request.stat_number, Request.article_selector,
       Request.body_selector, Request.head_selector, Request.stat_selector, Request.group,
       Request.listgroup, Request.listgroup_group_range, Request.over, Request.xover, Request.hdr,
       Request.hdr_current, Request.xhdr, Request.xhdr_current, Request.newgroups,
       Request.newnews, Request.ihave, Request.check, Request.takethis,
       Request.authinfo_user_bytes, Request.authinfo_pass_bytes, Request.list_active_wildmat,
       Request.list_active_times_wildmat, Request.list_newsgroups_wildmat,
       Request.capabilities_keyword in H; open_result;
     cbn [request_ok opt_ok article_ref_ok round_trips]..|];
    try (split; [|done]; eauto with wire;
         split_goal; eauto with wire; fail).
  1,2: split; [exact (header_pair_valid h s value Hs Hs' E) | done].
  - unfold auth_info_value_from in E. destruct (negb _) eqn:En; [done|].
    injection E as <-. split_ands. by split.
  - unfold auth_info_value_from in E. destruct (negb _) eqn:En; [done|].
    injection E as <-. split_ands. by split.
  - cbn [In] in Hin. repeat destruct Hin as [<-|Hin]; try done.
Qed.

(** Every request a smart constructor returns satisfies the invariant of
    the request type, so it is safe on the wire, and, an AUTHINFO value with
    white space at its ends aside, round-trips through the line parser. *)
Theorem constructors_ok (r : Request) :
  constructed r -> request_ok r /\ (Request.auth_info r = None -> round_trips r).
Proof. apply constructed_valid. Qed.

Lemma constructors_ok_witness :
  constructed (Request.Hdr (lit "Subject") (Some (lit "1-"))) /\
  request_ok (Request.Hdr (lit "Subject") (Some (lit "1-"))).
Proof.
  assert (constructed (Request.Hdr (lit "Subject") (Some (lit "1-")))) as Hc.
  { apply (c_hdr (lit "Subject") (lit "1-")); [by exists (lit "Subject") | by exists (lit "1-") |].
    reflexivity. }
  split; [exact Hc|]. exact (proj1 (constructors_ok _ Hc)).
Defined.
