(* ===== verification/ResponseLine.v ===== *)
(** * Response initial lines ([src/src/protocol.rs])

    The validators of the status line's arguments, per request and status, and
    [ResponseInitial::parse], the streaming parser of the initial line with the
    article fields it extracts. *)
From S2P Require Import Prelude Utf8 Decimal Memchr Terminator Args Kinds RequestLine.

Local Open Scope Z_scope.
Local Open Scope rust_scope.

(** ** Tokens *)

(** The index of the first space, [memchr(b' ', ..)]. *)
Definition find_byte `{!Memchr} (b : Z) (l : bytes) : option nat := memchr b l.

(** [split_required_response_tokens::<N>]: exactly [n] tokens separated by
    single spaces, and the rest, empty or starting with a space. *)
Fixpoint split_required_response_tokens `{!Memchr} (n : nat) (value : bytes)
    : option (list bytes * bytes) :=
  match n with
  | O => None
  | S n' =>
      if (length value =? 0)%nat || starts_with value (lit " ") then None
      else
        let end_ := default (length value) (find_byte SP value) in
        let token := take end_ value in
        let value := drop end_ value in
        match n' with
        | O => if negb (length value =? 0)%nat && negb (starts_with value (lit " "))
               then None else Some ([token], value)
        | S _ =>
            if negb (starts_with value (lit " ")) || starts_with (drop 1 value) (lit " ")
            then None
            else
              r ← split_required_response_tokens n' (drop 1 value);
              Some (token :: fst r, snd r)
        end
  end.

Definition is_response_decimal_token (value : bytes) : bool :=
  negb (length value =? 0)%nat && forallb is_ascii_digit value.

Definition parse_response_article_number (value : bytes) : option Z :=
  if (length value =? 0)%nat || (16 <? length value)%nat || negb (forallb is_ascii_digit value)
  then None
  else
    number ← parse_decimal value;
    if number <=? MAX_ARTICLE_NUMBER then Some number else None.

Definition validate_response_article_number (value : bytes) : bool :=
  match parse_response_article_number value with Some _ => true | None => false end.

Definition validate_group_watermarks (count low high : Z) : bool :=
  if low =? 0 then (count =? 0) && (high =? 0)
  else if count =? 0 then
    (low <=? high) || bool_decide (u64_checked_add high 1 = Some low)
  else
    (low <=? high)
    && match (span ← u64_checked_sub high low; u64_checked_add span 1) with
       | Some maximum_count => count <=? maximum_count
       | None => false
       end.

Definition validate_group_watermark_pair (low high : Z) : bool :=
  if low =? 0 then high =? 0
  else (low <=? high) || bool_decide (u64_checked_add high 1 = Some low).

Definition validate_u_chars (value : bytes) : bool :=
  match from_utf8 value with Some text => forallb is_u_char text | None => false end.

Definition validate_optional_trailing_comment (value : bytes) : bool :=
  (length value =? 0)%nat
  || match strip_prefix value (lit " ") with
     | Some rest => validate_u_chars rest
     | None => false
     end.

Definition validate_generic_response_arguments (value : bytes) : bool :=
  (length value =? 0)%nat || validate_u_chars value.

(** [from_utf8(token).ok().is_some_and(|m| MessageId::from_borrowed(m).is_ok())]. *)
Definition is_message_id_token (token : bytes) : bool :=
  utf8_and token (fun m => is_ok (message_id_from_borrowed m)).

Definition is_group_token (token : bytes) : bool :=
  utf8_and token (fun g => is_ok (group_name_from g)).

(** ** Per-status validators *)

Section Validators.
Context `{Mc : !Memchr}.

Definition validate_date_response_argument (value : bytes) : bool :=
  match split_required_response_tokens 1 value with
  | Some ([timestamp], trailing_text) =>
      if negb (length timestamp =? 14)%nat || negb (forallb is_ascii_digit timestamp) then false
      else
        match from_utf8 (take 8 timestamp), from_utf8 (drop 8 timestamp) with
        | Some _, Some _ =>
            is_ok (nntp_date_from (take 8 timestamp))
            && is_ok (nntp_time_from (drop 8 timestamp))
            && validate_optional_trailing_comment trailing_text
        | _, _ => false
        end
  | _ => false
  end.

Record GroupResponseArguments : Type := {
  gra_count : Z;
  gra_low : Z;
  gra_high : Z;
  gra_group : bytes;
  gra_trailing_text : bytes;
}.

Definition parse_group_response_arguments (value : bytes) : option GroupResponseArguments :=
  r ← split_required_response_tokens 4 value;
  match r with
  | ([t0; t1; t2; t3], trailing_text) =>
      count ← parse_response_article_number t0;
      low ← parse_response_article_number t1;
      high ← parse_response_article_number t2;
      Some (Build_GroupResponseArguments count low high t3 trailing_text)
  | _ => None
  end.

Definition validate_group_response_arguments (value : bytes) : bool :=
  match parse_group_response_arguments value with
  | None => false
  | Some a =>
      validate_group_watermarks (gra_count a) (gra_low a) (gra_high a)
      && is_group_token (gra_group a)
      && validate_optional_trailing_comment (gra_trailing_text a)
  end.

Definition validate_response_article_number_with_zero_policy (value : bytes) (allow_zero : bool)
    : bool :=
  match parse_response_article_number value with
  | Some number => allow_zero || negb (number =? 0)
  | None => false
  end.

Definition validate_article_status_response_arguments (value : bytes) (allow_zero_number : bool)
    : bool :=
  match split_required_response_tokens 2 value with
  | Some ([t0; t1], trailing_text) =>
      validate_response_article_number_with_zero_policy t0 allow_zero_number
      && is_message_id_token t1
      && validate_optional_trailing_comment trailing_text
  | _ => false
  end.

Definition validate_message_id_response_argument (value : bytes) : bool :=
  match split_required_response_tokens 1 value with
  | Some ([t0], trailing_text) =>
      is_message_id_token t0 && validate_optional_trailing_comment trailing_text
  | _ => false
  end.

Definition validate_capability_label_response_argument (value : bytes) : bool :=
  match split_required_response_tokens 1 value with
  | Some ([t0], trailing_text) =>
      validate_ascii_token t0 validate_keyword
      && validate_optional_trailing_comment trailing_text
  | _ => false
  end.

Definition validate_sasl_response_argument (value : bytes) (allow_zero_length : bool) : bool :=
  match split_required_response_tokens 1 value with
  | Some ([t0], trailing_text) =>
      (allow_zero_length && bytes_eqb t0 (lit "=") || is_ok (validate_sasl_base64 t0))
      && validate_optional_trailing_comment trailing_text
  | _ => false
  end.

(** [match (kind, status.as_u16())] of [validate_response_initial_line]; the
    rows are tried in the source's order. *)
Definition validate_status_arguments (kind : RequestKind) (status : Z) (arguments : bytes)
    : bool :=
  match kind with
  | RequestKind.Date =>
      if status =? 111 then validate_date_response_argument arguments
      else if status =? 401 then validate_capability_label_response_argument arguments
      else validate_generic_response_arguments arguments
  | _ =>
      if status =? 401 then validate_capability_label_response_argument arguments
      else
        match kind with
        | RequestKind.Group | RequestKind.ListGroup =>
            if status =? 211 then validate_group_response_arguments arguments
            else validate_generic_response_arguments arguments
        | RequestKind.Article =>
            if status =? 220 then validate_article_status_response_arguments arguments true
            else validate_generic_response_arguments arguments
        | RequestKind.Head =>
            if status =? 221 then validate_article_status_response_arguments arguments true
            else validate_generic_response_arguments arguments
        | RequestKind.Body =>
            if status =? 222 then validate_article_status_response_arguments arguments true
            else validate_generic_response_arguments arguments
        | RequestKind.Stat =>
            if status =? 223 then validate_article_status_response_arguments arguments true
            else validate_generic_response_arguments arguments
        | RequestKind.Last | RequestKind.Next =>
            if status =? 223 then validate_article_status_response_arguments arguments false
            else validate_generic_response_arguments arguments
        | RequestKind.Check =>
            if code_in [238; 431; 438] status then validate_message_id_response_argument arguments
            else validate_generic_response_arguments arguments
        | RequestKind.TakeThis =>
            if code_in [239; 439] status then validate_message_id_response_argument arguments
            else validate_generic_response_arguments arguments
        | RequestKind.AuthInfo =>
            if status =? 283 then validate_sasl_response_argument arguments false
            else if status =? 383 then validate_sasl_response_argument arguments true
            else validate_generic_response_arguments arguments
        | _ => validate_generic_response_arguments arguments
        end
  end.

Definition validate_response_initial_line (kind : RequestKind) (status : Z) (line : bytes) : bool :=
  if (length line <? 5)%nat || negb (ends_with line CRLF) then false
  else
    let content := take (length line - length CRLF) line in
    match drop 3 content with
    | [] => validate_status_arguments kind status []
    | b :: arguments =>
        if b =? SP then validate_status_arguments kind status arguments else false
    end.

(** ** The streaming parser of the initial line *)

Record ResponseInitialRange : Type := { rir_start : nat; rir_end : nat }.

Record ResponseInitialArticle : Type := {
  ria_article_number : Z;
  ria_message_id : ResponseInitialRange;
}.

Record ResponseInitial : Type := {
  ri_status : Z;
  ri_descriptor : ResponseDescriptor;
  ri_article : option ResponseInitialArticle;
}.

Inductive ResponseInitialParse : Type :=
| InitialComplete (initial : ResponseInitial)
| InitialNeedMore
| InitialInvalid.

Definition parse_response_initial_article (line : bytes) : option ResponseInitialArticle :=
  content ← strip_suffix line CRLF;
  if negb (bool_decide (content !! 3%nat = Some SP)) then None
  else
    let arguments_start := 4%nat in
    offset ← find_byte SP (drop arguments_start content);
    let number_end := (arguments_start + offset)%nat in
    number ← parse_response_article_number (slice content arguments_start number_end);
    let message_id_start := S number_end in
    let message_id_end :=
      match find_byte SP (drop message_id_start content) with
      | None => length content
      | Some offset => (message_id_start + offset)%nat
      end in
    let message_id := slice content message_id_start message_id_end in
    _ ← from_utf8 message_id;
    match message_id_from_borrowed message_id with
    | Err _ => None
    | Ok _ =>
        if negb (validate_optional_trailing_comment (drop message_id_end content)) then None
        else Some (Build_ResponseInitialArticle number
                     (Build_ResponseInitialRange message_id_start message_id_end))
    end.

(** The article-family pairs of kind and status. *)
Definition is_article_response (kind : RequestKind) (status : Z) : bool :=
  match kind with
  | RequestKind.Article => status =? 220
  | RequestKind.Head => status =? 221
  | RequestKind.Body => status =? 222
  | RequestKind.Stat => status =? 223
  | _ => false
  end.

Definition initial_parse (kind : RequestKind) (buffer : bytes) : ResponseInitialParse :=
  let status := StatusCode.parse buffer in
  let status_line_limit := response_initial_line_limit kind status in
  match detect_bounded_response_line_end buffer status_line_limit with
  | BoundedResponseLineStatus.CompleteAt line_end =>
      match status with
      | None => InitialInvalid
      | Some status =>
          let descriptor := descriptor_for_request_status kind status in
          match framing descriptor with
          | ResponseFraming.Unexpected => InitialInvalid
          | _ =>
              if is_article_response kind status then
                match parse_response_initial_article (take line_end buffer) with
                | None => InitialInvalid
                | Some article =>
                    InitialComplete (Build_ResponseInitial status descriptor (Some article))
                end
              else if negb (validate_response_initial_line kind status (take line_end buffer))
              then InitialInvalid
              else InitialComplete (Build_ResponseInitial status descriptor None)
          end
      end
  | BoundedResponseLineStatus.NeedMore => InitialNeedMore
  | BoundedResponseLineStatus.Invalid | BoundedResponseLineStatus.TooLong => InitialInvalid
  end.
End Validators.

(** ** Token splitting: lemmas *)

Section lemmas.
Context `{Mc : !Memchr, Ms : !MemchrSpec}.

Definition no_space (l : bytes) : Prop := Forall (fun b => (SP =? b) = false) l.

Lemma find_byte_position b l : find_byte b l = position (Z.eqb b) l.
Proof. apply memchr_position. Qed.

(** A text is spaceless, or a spaceless token, a space and the rest. *)
Lemma space_cases (l : bytes) :
  no_space l \/ exists t r, l = t ++ SP :: r /\ no_space t.
Proof.
  destruct (position (Z.eqb SP) l) as [i|] eqn:E.
  - right. apply position_Some in E as (t & x & r & -> & _ & Hx%Z.eqb_eq & Ht).
    subst x. eauto.
  - left. by apply position_None in E.
Qed.

Lemma find_space_app t r : no_space t -> find_byte SP (t ++ SP :: r) = Some (length t).
Proof. intros Ht. rewrite find_byte_position. by apply position_app_here. Qed.

Lemma find_space_none t : no_space t -> find_byte SP t = None.
Proof. intros Ht. rewrite find_byte_position. by apply position_None. Qed.

Lemma starts_space_no_space t r :
  t <> [] -> no_space t -> starts_with (t ++ r) (lit " ") = false.
Proof.
  intros Hne Ht. destruct t as [|x t]; [done|]. apply Forall_cons_1 in Ht as [Hx _].
  apply Z.eqb_neq in Hx. unfold SP in Hx.
  exact (starts_with_differ x 32 (t ++ r) [] ltac:(lia)).
Qed.

(** The token before the first space, and the rest from that space on. *)
Lemma split_tokens_step n t r :
  t <> [] -> no_space t -> (r = [] \/ exists r', r = SP :: r') ->
  split_required_response_tokens (S n) (t ++ r) =
  match n with
  | O => Some ([t], r)
  | S _ =>
      match r with
      | [] => None
      | _ :: r' =>
          if starts_with r' (lit " ") then None
          else p ← split_required_response_tokens n r'; Some (t :: fst p, snd p)
      end
  end.
Proof.
  intros Hne Ht Hr. cbn [split_required_response_tokens].
  rewrite starts_space_no_space by done.
  replace (length (t ++ r) =? 0)%nat with false by (symmetry; by destruct t). cbn [orb].
  assert (default (length (t ++ r)) (find_byte SP (t ++ r)) = length t) as ->.
  { destruct Hr as [->|[r' ->]].
    - rewrite app_nil_r, find_space_none by done. done.
    - by rewrite find_space_app. }
  rewrite take_app_length, drop_app_length.
  destruct Hr as [->|[r' ->]]; [by destruct n|].
  replace (starts_with (SP :: r') (lit " ")) with true by done. cbn [negb length Nat.eqb andb].
  destruct n as [|n]; [done|]. change (drop 1 (SP :: r')) with r'. done.
Qed.

Lemma split_tokens_empty n t r :
  t = [] -> (r = [] \/ exists r', r = SP :: r') ->
  split_required_response_tokens (S n) (t ++ r) = None.
Proof. intros -> [->|[r' ->]]; done. Qed.

(** Every text, cut at its first space. *)
Lemma space_cut (l : bytes) :
  exists t r, l = t ++ r /\ no_space t /\ (r = [] \/ exists r', r = SP :: r').
Proof.
  destruct (space_cases l) as [Hl|(t & r & -> & Ht)].
  - exists l, []. rewrite app_nil_r. auto.
  - exists t, (SP :: r). eauto.
Qed.

(** ** The two parsers of an article status line *)

Lemma number_zero_policy v :
  validate_response_article_number_with_zero_policy v true
  = match parse_response_article_number v with Some _ => true | None => false end.
Proof.
  unfold validate_response_article_number_with_zero_policy.
  by destruct (parse_response_article_number v).
Qed.

Lemma parse_number_nil : parse_response_article_number [] = None.
Proof. done. Qed.

Lemma message_id_token_Ok t :
  is_message_id_token t
  = match from_utf8 t with
    | Some _ => match message_id_from_borrowed t with Ok _ => true | Err _ => false end
    | None => false
    end.
Proof. unfold is_message_id_token, utf8_and. by destruct (from_utf8 t). Qed.

Definition is_some {A} (o : option A) : bool := match o with Some _ => true | None => false end.

(** The article line after the three digits and the space: the extracting
    parser, on the arguments alone. *)
Definition article_arguments (base : nat) (arguments : bytes) : option ResponseInitialArticle :=
  offset ← find_byte SP arguments;
  number ← parse_response_article_number (take offset arguments);
  let rest := drop (S offset) arguments in
  let len := default (length rest) (find_byte SP rest) in
  _ ← from_utf8 (take len rest);
  match message_id_from_borrowed (take len rest) with
  | Err _ => None
  | Ok _ =>
      if negb (validate_optional_trailing_comment (drop len rest)) then None
      else Some (Build_ResponseInitialArticle number
                   (Build_ResponseInitialRange (base + S offset) (base + S offset + len)))
  end.

Lemma article_line_arguments d0 d1 d2 arguments :
  parse_response_initial_article ([d0; d1; d2; SP] ++ arguments ++ CRLF)
  = article_arguments 4 arguments.
Proof.
  unfold parse_response_initial_article, article_arguments.
  rewrite (proj2 (strip_suffix_Some _ CRLF ([d0; d1; d2; SP] ++ arguments)))
    by by rewrite app_assoc.
  cbn [mbind option_bind]. rewrite bool_decide_eq_true_2 by done. cbn [negb].
  change (drop 4 ([d0; d1; d2; SP] ++ arguments)) with arguments.
  destruct (find_byte SP arguments) as [o|] eqn:Eo; [|done]. cbn [mbind option_bind].
  assert (slice ([d0; d1; d2; SP] ++ arguments) 4 (4 + o) = take o arguments) as ->.
  { unfold slice. replace (4 + o - 4)%nat with o by lia. done. }
  destruct (parse_response_article_number (take o arguments)); [|done]. cbn [mbind option_bind].
  change (drop (S (4 + o)) ([d0; d1; d2; SP] ++ arguments)) with (drop (S o) arguments).
  set (rest := drop (S o) arguments).
  assert (match find_byte SP rest with
          | Some offset => (S (4 + o) + offset)%nat
          | None => length ([d0; d1; d2; SP] ++ arguments)
          end = (S (4 + o) + default (length rest) (find_byte SP rest))%nat) as ->.
  { destruct (find_byte SP rest); [done|]. cbn [default from_option].
    unfold rest. rewrite length_drop, length_app. cbn [length].
    rewrite find_byte_position in Eo. apply position_lt in Eo. lia. }
  set (len := default (length rest) (find_byte SP rest)).
  assert (slice ([d0; d1; d2; SP] ++ arguments) (S (4 + o)) (S (4 + o) + len) = take len rest) as ->.
  { unfold slice. replace (S (4 + o) + len - S (4 + o))%nat with len by lia. done. }
  assert (drop (S (4 + o) + len) ([d0; d1; d2; SP] ++ arguments) = drop len rest) as ->.
  { rewrite <- drop_drop. done. }
  destruct (from_utf8 (take len rest)); [|done]. cbn [mbind option_bind].
  destruct (message_id_from_borrowed (take len rest)); [|done].
  destruct (negb _); [done|]. repeat f_equal; lia.
Qed.

Lemma article_arguments_valid base arguments :
  is_some (article_arguments base arguments)
  = validate_article_status_response_arguments arguments true.
Proof.
  unfold article_arguments, validate_article_status_response_arguments.
  destruct (space_cut arguments) as (t & r & -> & Ht & Hr).
  destruct (decide (t = [])) as [E|Hne].
  { rewrite split_tokens_empty by done. destruct Hr as [->|[r' ->]]; subst t.
    - by rewrite find_space_none.
    - rewrite find_space_app by done. done. }
  rewrite split_tokens_step by done. destruct Hr as [->|[r' ->]].
  { by rewrite app_nil_r, find_space_none. }
  rewrite find_space_app by done. cbn [mbind option_bind]. rewrite take_app_length.
  replace (drop (S (length t)) (t ++ SP :: r')) with r'
    by (replace (S (length t)) with (length t + 1)%nat by lia;
        by rewrite <- drop_drop, drop_app_length).
  destruct (space_cut r') as (t2 & r2 & -> & Ht2 & Hr2).
  assert (default (length (t2 ++ r2)) (find_byte SP (t2 ++ r2)) = length t2) as ->.
  { destruct Hr2 as [->|[r3 ->]].
    - rewrite app_nil_r, find_space_none by done. done.
    - by rewrite find_space_app. }
  rewrite take_app_length, drop_app_length.
  destruct (decide (t2 = [])) as [->|Hne2].
  - replace (if starts_with ([] ++ r2) (lit " ") then None
             else p ← split_required_response_tokens 1 ([] ++ r2); Some (t :: p.1, p.2))
      with (@None (list bytes * bytes)).
    + by destruct (parse_response_article_number t).
    + rewrite (split_tokens_empty 0 []) by done. by destruct (starts_with _ _).
  - rewrite starts_space_no_space, (split_tokens_step 0) by done.
    cbn [mbind option_bind fst snd]. rewrite number_zero_policy, message_id_token_Ok.
    destruct (parse_response_article_number t); [|done]. cbn [mbind option_bind andb].
    destruct (from_utf8 t2); [|done]. cbn [mbind option_bind].
    destruct (message_id_from_borrowed t2); [|done].
    by destruct (validate_optional_trailing_comment r2).
Qed.

(** On a line of three bytes, a rest and the end of line, the two agree. *)
Lemma article_line_valid kind status d0 d1 d2 (rest : bytes) :
  is_article_response kind status = true ->
  is_some (parse_response_initial_article ([d0; d1; d2] ++ rest ++ CRLF))
  = validate_response_initial_line kind status ([d0; d1; d2] ++ rest ++ CRLF).
Proof.
  intros Ha.
  assert (forall arguments, validate_status_arguments kind status arguments
            = validate_article_status_response_arguments arguments true) as Hv.
  { intros arguments. destruct kind; try done; cbn [is_article_response] in Ha;
      apply Z.eqb_eq in Ha as ->; reflexivity. }
  unfold validate_response_initial_line. rewrite app_assoc.
  rewrite ends_with_app, length_app. change (length CRLF) with 2%nat.
  rewrite (proj2 (Nat.ltb_ge _ _)) by (cbn [app length]; lia). cbn [negb orb].
  rewrite Nat.add_sub, take_app_length. change (drop 3 ([d0; d1; d2] ++ rest)) with rest.
  destruct rest as [|b arguments].
  { rewrite Hv. unfold parse_response_initial_article.
    by rewrite (proj2 (strip_suffix_Some _ CRLF [d0; d1; d2])). }
  destruct (b =? SP) eqn:Eb.
  - apply Z.eqb_eq in Eb as ->. rewrite Hv, <- article_arguments_valid with (base := 4%nat).
    rewrite <- article_line_arguments with (d0 := d0) (d1 := d1) (d2 := d2).
    by rewrite <- app_assoc.
  - unfold parse_response_initial_article.
    rewrite (proj2 (strip_suffix_Some _ CRLF ([d0; d1; d2] ++ b :: arguments))) by done.
    cbn [mbind option_bind]. rewrite bool_decide_eq_false_2; [done|].
    intros [= ->]. by rewrite Z.eqb_refl in Eb.
Qed.

(** ** More input does not change a decision *)

Lemma status_parse_app buf more :
  (3 <= length buf)%nat -> StatusCode.parse (buf ++ more) = StatusCode.parse buf.
Proof. destruct buf as [|b0 [|b1 [|b2 buf]]]; cbn [length]; [lia..|done]. Qed.

Lemma status_parse_short buf : (length buf < 3)%nat -> StatusCode.parse buf = None.
Proof. destruct buf as [|b0 [|b1 [|b2 buf]]]; cbn [length]; [done..|lia]. Qed.

Lemma line_limit_bounds kind status :
  (512 <= response_initial_line_limit kind status <= 4096)%nat.
Proof.
  assert (512 <= MAX_AUTHINFO_SASL_RESPONSE_LINE_BYTES <= 4096)%nat
    by (unfold MAX_AUTHINFO_SASL_RESPONSE_LINE_BYTES; split; apply Nat.leb_le; reflexivity).
  assert (512 <= MAX_INITIAL_RESPONSE_LINE_BYTES <= 4096)%nat
    by (unfold MAX_INITIAL_RESPONSE_LINE_BYTES; split; apply Nat.leb_le; reflexivity).
  unfold response_initial_line_limit. destruct kind; try done.
  destruct status as [c|]; [destruct (code_in _ c)|]; done.
Qed.

Lemma complete_status_stable buf e more :
  detect_response_line_end buf = ResponseLineStatus.CompleteAt e ->
  StatusCode.parse (buf ++ more) = StatusCode.parse buf.
Proof.
  intros (l & rest & -> & _ & _)%detect_line_complete_inv.
  destruct (decide (3 <= length (l ++ CRLF ++ rest))%nat) as [H3|H3]; [by apply status_parse_app|].
  rewrite !length_app in H3. change (length CRLF) with 2%nat in H3.
  destruct l; [|cbn in H3; lia]. destruct rest; [|cbn in H3; lia].
  by destruct more.
Qed.

Lemma initial_complete_end kind buf i :
  initial_parse kind buf = InitialComplete i ->
  exists e, detect_response_line_end buf = ResponseLineStatus.CompleteAt e
    /\ (e <= response_initial_line_limit kind (StatusCode.parse buf))%nat
    /\ StatusCode.parse buf = Some (ri_status i).
Proof.
  unfold initial_parse, detect_bounded_response_line_end.
  destruct (detect_response_line_end buf) as [e| |].
  - destruct (e <=? _)%nat eqn:E; [|done]. apply Nat.leb_le in E.
    destruct (StatusCode.parse buf) as [s|] eqn:Es; [|done].
    intros H. exists e. split; [done|]. split; [done|]. f_equal.
    destruct (framing _); try done;
      destruct (is_article_response kind s);
      try (destruct (parse_response_initial_article _); [|done]);
      try (destruct (negb _); [done|]); by injection H as <-.
  - by destruct (_ <=? _)%nat.
  - done.
Qed.

(** Appending input keeps a complete or invalid initial line as it is. *)
Lemma initial_parse_extend kind buf more :
  initial_parse kind buf <> InitialNeedMore ->
  initial_parse kind (buf ++ more) = initial_parse kind buf.
Proof.
  intros H. unfold initial_parse, detect_bounded_response_line_end in *.
  pose proof (detect_line_extend buf more) as Hx.
  destruct (detect_response_line_end buf) as [e| |] eqn:Ed.
  - destruct Hx as [He Hx]. rewrite Hx, (complete_status_stable _ _ more Ed).
    destruct (e <=? _)%nat; [|done]. by rewrite take_app_le by done.
  - destruct (_ <=? length buf)%nat eqn:El; [|done]. apply Nat.leb_le in El.
    assert (StatusCode.parse (buf ++ more) = StatusCode.parse buf) as ->.
    { apply status_parse_app. pose proof (line_limit_bounds kind (StatusCode.parse buf)). lia. }
    destruct (detect_response_line_end (buf ++ more)).
    + rewrite (proj2 (Nat.leb_gt _ _)) by lia. done.
    + rewrite length_app, (proj2 (Nat.leb_le _ _)) by lia. done.
    + done.
  - rewrite Hx. done.
Qed.

(** Before the end of the line nothing is decided. *)
Lemma initial_parse_before kind buf i n :
  initial_parse kind buf = InitialComplete i ->
  (forall e, detect_response_line_end buf = ResponseLineStatus.CompleteAt e -> (n < e)%nat) ->
  initial_parse kind (take n buf) = InitialNeedMore.
Proof.
  intros Hc Hn. destruct (initial_complete_end _ _ _ Hc) as (e & He & Hlim & Hs).
  specialize (Hn e He).
  destruct (initial_parse kind (take n buf)) as [j| |] eqn:E; [exfalso| done |exfalso].
  - pose proof (initial_complete_end _ _ _ E) as (e' & He' & _).
    pose proof (detect_line_extend (take n buf) (drop n buf)) as Hx.
    rewrite He', take_drop in Hx. destruct Hx as [Hle Hx].
    rewrite length_take in Hle. assert (e' = e) by congruence. lia.
  - pose proof (initial_parse_extend kind (take n buf) (drop n buf)) as Hx.
    rewrite take_drop, E in Hx. rewrite Hc in Hx. by discriminate Hx.
Qed.

(** The line end alone decides the parse. *)
Lemma initial_parse_line kind buf i e :
  initial_parse kind buf = InitialComplete i ->
  detect_response_line_end buf = ResponseLineStatus.CompleteAt e ->
  initial_parse kind (take e buf) = InitialComplete i.
Proof.
  intros Hc He. assert (initial_parse kind (take e buf) <> InitialNeedMore) as Hne.
  { pose proof He as (l & rest & -> & Hl & ->)%detect_line_complete_inv.
    rewrite app_assoc, take_app_le by (rewrite length_app; cbn; lia).
    rewrite firstn_all2 by (rewrite length_app; cbn; lia).
    unfold initial_parse, detect_bounded_response_line_end.
    rewrite <- (app_nil_r CRLF), detect_line_complete by done.
    destruct (_ <=? _)%nat; [|done]. destruct (StatusCode.parse _); [|done].
    destruct (framing _); try done;
      destruct (is_article_response kind _);
      try (by destruct (parse_response_initial_article _));
      by destruct (negb _). }
  rewrite <- (initial_parse_extend _ _ (drop e buf) Hne). by rewrite take_drop.
Qed.
End lemmas.

Section properties.
Context `{Mc : !Memchr, Ms : !MemchrSpec}.

Lemma drop_cons_lookup (l : bytes) n b r : drop n l = b :: r -> l !! n = Some b.
Proof.
  intros Hd. replace n with (n + 0)%nat by lia. rewrite <- lookup_drop. by rewrite Hd.
Qed.

(** The extracting parser of an article status line and the validator of
    the status line accept exactly the same lines, so the streaming decoder and
    the whole-frame parser never disagree about an article response. *)
Theorem article_line_parsers_agree (kind : RequestKind) (status : Z) (content : bytes) :
  is_article_response kind status = true -> (3 <= length content)%nat ->
  is_some (parse_response_initial_article (content ++ CRLF))
  = validate_response_initial_line kind status (content ++ CRLF).
Proof.
  intros Ha Hl. destruct content as [|d0 [|d1 [|d2 rest]]]; cbn [length] in Hl; try lia.
  exact (article_line_valid kind status d0 d1 d2 rest Ha).
Qed.

(** What the initial line of an article response yields is sound: the number
    is within the protocol's bounds and the recorded range lies inside the line
    and holds a valid message-id. *)
Theorem initial_article_fields (d0 d1 d2 : Z) (arguments : bytes) (a : ResponseInitialArticle) :
  parse_response_initial_article ([d0; d1; d2; SP] ++ arguments ++ CRLF) = Some a ->
  0 <= ria_article_number a <= MAX_ARTICLE_NUMBER
  /\ (rir_end (ria_message_id a) <= 4 + length arguments)%nat
  /\ message_id_shape
       (slice ([d0; d1; d2; SP] ++ arguments ++ CRLF)
          (rir_start (ria_message_id a)) (rir_end (ria_message_id a))).
Proof.
  rewrite article_line_arguments. unfold article_arguments.
  destruct (find_byte SP arguments) as [o|] eqn:Eo; [|done]. cbn [mbind option_bind].
  destruct (parse_response_article_number (take o arguments)) as [n|] eqn:En; [|done].
  cbn [mbind option_bind].
  rewrite find_byte_position in Eo. apply position_lt in Eo.
  set (rest := drop (S o) arguments). set (len := default (length rest) (find_byte SP rest)).
  assert (len <= length rest)%nat as Hlen.
  { unfold len. destruct (find_byte SP rest) as [i|] eqn:E; [|done].
    rewrite find_byte_position in E. apply position_lt in E. cbn. lia. }
  destruct (from_utf8 (take len rest)); [|done]. cbn [mbind option_bind].
  destruct (message_id_from_borrowed (take len rest)) as [m|] eqn:Em; [|done].
  destruct (negb _); [done|]. intros [= <-].
  cbn [ria_article_number ria_message_id rir_start rir_end].
  assert (length rest + S o = length arguments)%nat as Hr
    by (unfold rest; rewrite length_drop; lia).
  split; [|split; [lia|]].
  - unfold parse_response_article_number in En. destruct (_ || _) eqn:Eg; [done|]. split_ands.
    destruct (parse_decimal _) as [v|] eqn:Ep; [|done]. cbn [mbind option_bind] in En.
    destruct (v <=? MAX_ARTICLE_NUMBER) eqn:Ev; [|done]. injection En as <-.
    apply parse_decimal_digits in Ep; [|done].
    match goal with Hd : forallb _ _ = true |- _ => pose proof (decimal_value_nonneg _ Hd) end. lia.
  - apply message_id_from_borrowed_Ok in Em as [_ Em].
    replace (slice _ _ _) with (take len rest); [done|].
    unfold slice.
    transitivity (take len (drop (S o) (arguments ++ CRLF))).
    + rewrite (drop_app_le arguments CRLF (S o)) by lia. fold rest. by rewrite take_app_le by lia.
    + f_equal. lia.
Qed.

(** The GROUP watermarks are consistent exactly when the group is empty (all
    zero, or no article and a high mark not below low minus one) or the count
    fits between the marks; the checked arithmetic never wraps. *)
Theorem watermarks_consistent (count low high : Z) :
  0 <= count <= u64_max -> 0 <= low <= u64_max -> 0 <= high <= u64_max ->
  (validate_group_watermarks count low high = true <->
   low = 0 /\ count = 0 /\ high = 0
   \/ 0 < low /\ count = 0 /\ low - 1 <= high
   \/ 0 < low <= high /\ 0 < count <= high - low + 1)
  /\ (validate_group_watermarks count low high = true ->
      validate_group_watermark_pair low high = true).
Proof.
  intros Hc Hl Hh. unfold validate_group_watermarks, validate_group_watermark_pair,
    u64_checked_add, u64_checked_sub.
  destruct (low =? 0) eqn:E0; [lia|]. apply Z.eqb_neq in E0.
  assert (bool_decide ((if u64_max <? high + 1 then None else Some (high + 1)) = Some low)
          = (low =? high + 1)) as Hd.
  { destruct (u64_max <? high + 1) eqn:Eo.
    - rewrite bool_decide_eq_false_2 by done. lia.
    - destruct (low =? high + 1) eqn:E.
      + apply Z.eqb_eq in E as ->. by apply bool_decide_eq_true_2.
      + apply bool_decide_eq_false_2. intros [= ?]. lia. }
  rewrite Hd. destruct (count =? 0) eqn:Ec; [split; lia|].
  destruct (high <? low) eqn:Ehl; cbn [mbind option_bind].
  - rewrite andb_false_r. split; [|done]. split; [done|]. lia.
  - destruct (u64_max <? high - low + 1) eqn:Eo; [lia|]. split; lia.
Qed.

(** The initial line is decided exactly when its end arrives: every shorter
    prefix asks for more, the line alone gives the same result, and nothing
    appended later changes a complete or rejected line. *)
Theorem initial_parse_incremental (kind : RequestKind) (buf more : bytes) :
  (initial_parse kind buf <> InitialNeedMore ->
   initial_parse kind (buf ++ more) = initial_parse kind buf)
  /\ (forall i, initial_parse kind buf = InitialComplete i ->
       exists e, (e <= length buf)%nat /\ (e <= MAX_AUTHINFO_SASL_RESPONSE_LINE_BYTES)%nat
         /\ initial_parse kind (take e buf) = InitialComplete i
         /\ forall n, (n < e)%nat -> initial_parse kind (take n buf) = InitialNeedMore).
Proof.
  split; [apply initial_parse_extend|]. intros i Hi.
  destruct (initial_complete_end _ _ _ Hi) as (e & He & Hlim & _). exists e.
  pose proof (detect_line_extend buf []) as Hx. rewrite He in Hx.
  split; [tauto|]. split.
  { pose proof (line_limit_bounds kind (StatusCode.parse buf)).
    change MAX_AUTHINFO_SASL_RESPONSE_LINE_BYTES with (8 * 512)%nat. lia. }
  split; [by apply initial_parse_line|].
  intros n Hn. eapply initial_parse_before; [done|]. intros e' He'. congruence.
Qed.
End properties.

Lemma article_line_parsers_agree_witness :
  is_some (parse_response_initial_article (lit "220 3 <a@b> ok" ++ CRLF)) = true.
Proof.
  rewrite (article_line_parsers_agree RequestKind.Article 220 (lit "220 3 <a@b> ok")
             eq_refl ltac:(apply Nat.leb_le; reflexivity)).
  reflexivity.
Defined.

Lemma initial_article_fields_witness :
  message_id_shape (slice (lit "223 7 <a@b>" ++ CRLF) 6 11).
Proof.
  exact (proj2 (proj2 (initial_article_fields 50 50 51 (lit "7 <a@b>")
    (Build_ResponseInitialArticle 7 (Build_ResponseInitialRange 6 11)) eq_refl))).
Defined.

Lemma watermarks_consistent_witness :
  validate_group_watermarks 0 5 4 = true /\ validate_group_watermark_pair 5 4 = true.
Proof.
  assert (validate_group_watermarks 0 5 4 = true) as H0.
  { apply (proj1 (watermarks_consistent 0 5 4 ltac:(unfold u64_max; lia)
                    ltac:(unfold u64_max; lia) ltac:(unfold u64_max; lia))). lia. }
  split; [exact H0|].
  exact (proj2 (watermarks_consistent 0 5 4 ltac:(unfold u64_max; lia)
                  ltac:(unfold u64_max; lia) ltac:(unfold u64_max; lia)) H0).
Defined.

Lemma initial_parse_incremental_witness :
  initial_parse RequestKind.Date ((lit "111 20240102030405" ++ CRLF) ++ lit "junk")
  = initial_parse RequestKind.Date (lit "111 20240102030405" ++ CRLF).
Proof.
  apply (proj1 (initial_parse_incremental RequestKind.Date (lit "111 20240102030405" ++ CRLF)
                  (lit "junk"))). vm_compute. discriminate.
Defined.
