(* ===== verification/ResponseContent.v ===== *)
(** * Multiline response content ([src/src/protocol.rs])

    The validators of a framed multiline body per request kind: one line
    validator for each listing, the stateful ones (LISTGROUP and OVER, whose
    closures keep the last article number), and the capability list. *)
From S2P Require Import Prelude Utf8 Decimal Memchr Terminator Args Kinds RequestLine.
From S2P Require Import ResponseLine.

Local Open Scope Z_scope.
Local Open Scope rust_scope.

(** ** The line loop *)

(** A line that starts with a dot must be stuffed. *)
Definition unstuffed_dot (line : bytes) : bool :=
  starts_with line (lit ".") && negb (starts_with line (lit "..")).

(** [validate_crlf_lines] with a closure over captured state: the closure
    returns its next state, or none for [false]. *)
Fixpoint crlf_lines_loop {St} (fuel : nat) (content : bytes) (offset : nat)
    (validate : St -> bytes -> option St) (state : St) : option St :=
  match fuel with
  | O => None
  | S fuel' =>
      if (offset <? length content)%nat then
        match strict_crlf_line_content_end_from content offset with
        | None => None
        | Some line_end =>
            let line := slice content offset line_end in
            if unstuffed_dot line then None
            else
              match validate state line with
              | None => None
              | Some state' =>
                  crlf_lines_loop fuel' content (line_end + length CRLF) validate state'
              end
        end
      else Some state
  end.

Definition validate_crlf_lines_with {St} (content : bytes) (validate : St -> bytes -> option St)
    (state : St) : option St :=
  crlf_lines_loop (S (length content)) content 0 validate state.

Definition stateless (validate : bytes -> bool) (_ : unit) (line : bytes) : option unit :=
  if validate line then Some tt else None.

Definition validate_crlf_lines (content : bytes) (validate : bytes -> bool) : bool :=
  is_some (validate_crlf_lines_with content (stateless validate) tt).

(** [next_strict_crlf_line]: the line at the offset and the offset after it. *)
Definition next_strict_crlf_line (content : bytes) (offset : nat) : option (bytes * nat) :=
  line_end ← strict_crlf_line_content_end_from content offset;
  let line := slice content offset line_end in
  if unstuffed_dot line then None else Some (line, (line_end + length CRLF)%nat).

(** ** Fields *)

Definition validate_generic_multiline_response_line (line : bytes) : bool :=
  forallb (fun b => negb ((b =? 0) || (b =? CR) || (b =? LF))) line.

Definition validate_hdr_content (value : bytes) : bool :=
  forallb (fun b => negb ((b =? 0) || (b =? HT))) value.

Definition skip_one_or_more_spaces (value : bytes) : option bytes :=
  if negb (starts_with value (lit " ")) then None
  else Some (match position (fun b => negb (b =? SP)) value with
             | None => []
             | Some index => drop index value
             end).

Definition is_response_ws (b : Z) : bool := (b =? SP) || (b =? HT).

Definition skip_response_ws (value : bytes) : option bytes :=
  match value with
  | b :: _ =>
      if is_response_ws b then
        Some (match position (fun b => negb (is_response_ws b)) value with
              | None => []
              | Some index => drop index value
              end)
      else None
  | [] => None
  end.

Definition validate_u_text (value : bytes) : bool :=
  match from_utf8 value with
  | Some (first :: rest) => is_p_char first && forallb is_u_char rest
  | _ => false
  end.

Definition is_s_text_initial_byte (b : Z) : bool :=
  in_range 1 8 b || in_range 11 12 b || in_range 14 255 b.

Definition validate_s_text (value : bytes) : bool :=
  match value with
  | [] => false
  | first :: rest =>
      is_s_text_initial_byte first
      && forallb (fun b => negb ((b =? 0) || (b =? CR) || (b =? LF))) rest
  end.

Definition validate_header_name_abnf_bytes (value : bytes) : bool :=
  negb (length value =? 0)%nat && forallb header_name_byte value.

Definition validate_metadata_name_abnf_bytes (value : bytes) : bool :=
  match strip_prefix value (lit ":") with
  | Some name => validate_header_name_abnf_bytes name
  | None => false
  end.

Definition validate_wildmat_response_field (value : bytes) : bool :=
  utf8_and value (fun wildmat => is_ok (validate_wildmat wildmat)).

Section Content.
Context `{Mc : !Memchr}.

Definition split_spa_field (value : bytes) : option (bytes * bytes) :=
  field_end ← find_byte SP value;
  let field := take field_end value in
  rest ← skip_one_or_more_spaces (drop field_end value);
  if (length field =? 0)%nat || (length rest =? 0)%nat then None else Some (field, rest).

Definition split_active_response_line (line : bytes) : option (bytes * bytes * bytes * bytes) :=
  gr ← split_spa_field line;
  hr ← split_spa_field (snd gr);
  lr ← split_spa_field (snd hr);
  let status := snd lr in
  if (length status =? 0)%nat || existsb (Z.eqb SP) status then None
  else Some (fst gr, fst hr, fst lr, status).

Definition validate_active_status_token (token : bytes) : bool :=
  match strip_prefix token (lit "=") with
  | Some group => is_group_token group
  | None =>
      existsb (bytes_eqb token) [lit "y"; lit "m"; lit "n"; lit "x"; lit "j"]
      || validate_p_char_token token
  end.

Definition validate_active_response_line (line : bytes) : bool :=
  match split_active_response_line line with
  | None => false
  | Some (group, high, low, status) =>
      match parse_response_article_number high with
      | None => false
      | Some high =>
          match parse_response_article_number low with
          | None => false
          | Some low =>
              is_group_token group && validate_group_watermark_pair low high
              && validate_active_status_token status
          end
      end
  end.

Definition split_active_times_response_line (line : bytes) : option (bytes * bytes * bytes) :=
  group_end ← find_byte SP line;
  let group := take group_end line in
  after_group ← skip_one_or_more_spaces (drop group_end line);
  timestamp_end ← find_byte SP after_group;
  let timestamp := take timestamp_end after_group in
  creator ← skip_one_or_more_spaces (drop timestamp_end after_group);
  Some (group, timestamp, creator).

Definition validate_active_times_response_line (line : bytes) : bool :=
  match split_active_times_response_line line with
  | None => false
  | Some (group, timestamp, creator) =>
      is_group_token group && is_response_decimal_token timestamp && validate_u_text creator
  end.

Definition split_newsgroups_response_line (line : bytes) : option (bytes * bytes) :=
  separator_start ← position is_response_ws line;
  let group := take separator_start line in
  description ← skip_response_ws (drop separator_start line);
  if (length description =? 0)%nat then None else Some (group, description).

Definition validate_newsgroups_response_line (line : bytes) : bool :=
  match split_newsgroups_response_line line with
  | None => false
  | Some (group, description) => is_group_token group && validate_s_text description
  end.

(** ** LIST OVERVIEW.FMT and LIST HEADERS *)

Definition validate_overview_fmt_extension_line (line : bytes) : bool :=
  let FULL_SUFFIX := lit ":full" in
  if (length FULL_SUFFIX <? length line)%nat
     && eq_ignore_ascii_case (drop (length line - length FULL_SUFFIX) line) FULL_SUFFIX
  then validate_header_name_abnf_bytes (take (length line - length FULL_SUFFIX) line)
  else validate_metadata_name_abnf_bytes line.

Fixpoint overview_fmt_required (required : list bytes) (content : bytes) (offset : nat)
    : option nat :=
  match required with
  | [] => Some offset
  | name :: required' =>
      line ← next_strict_crlf_line content offset;
      if negb (eq_ignore_ascii_case (fst line) name) then None
      else overview_fmt_required required' content (snd line)
  end.

Fixpoint overview_fmt_extensions (fuel : nat) (content : bytes) (offset : nat) : bool :=
  match fuel with
  | O => false
  | S fuel' =>
      if (offset <? length content)%nat then
        match next_strict_crlf_line content offset with
        | None => false
        | Some (line, offset') =>
            if negb (validate_overview_fmt_extension_line line) then false
            else overview_fmt_extensions fuel' content offset'
        end
      else true
  end.

Definition validate_overview_fmt_response_content (content : bytes) : bool :=
  match overview_fmt_required
          [lit "Subject:"; lit "From:"; lit "Date:"; lit "Message-ID:"; lit "References:"]
          content 0 with
  | None => false
  | Some offset =>
      match next_strict_crlf_line content offset with
      | None => false
      | Some (bytes_line, offset) =>
          match next_strict_crlf_line content offset with
          | None => false
          | Some (lines_line, offset) =>
              let modern_metadata :=
                eq_ignore_ascii_case bytes_line (lit ":bytes")
                && eq_ignore_ascii_case lines_line (lit ":lines") in
              let legacy_headers :=
                eq_ignore_ascii_case bytes_line (lit "Bytes:")
                && eq_ignore_ascii_case lines_line (lit "Lines:") in
              if negb modern_metadata && negb legacy_headers then false
              else overview_fmt_extensions (S (length content)) content offset
          end
      end
  end.

Fixpoint header_list_loop (fuel : nat) (content : bytes) (offset : nat)
    (has_all_headers_marker has_header_name : bool) : bool :=
  match fuel with
  | O => false
  | S fuel' =>
      if (offset <? length content)%nat then
        match next_strict_crlf_line content offset with
        | None => false
        | Some (line, offset') =>
            if bytes_eqb line (lit ":") then header_list_loop fuel' content offset' true has_header_name
            else if validate_metadata_name_abnf_bytes line
            then header_list_loop fuel' content offset' has_all_headers_marker has_header_name
            else if validate_header_name_abnf_bytes line
            then header_list_loop fuel' content offset' has_all_headers_marker true
            else false
        end
      else negb (has_all_headers_marker && has_header_name)
  end.

Definition validate_header_list_response_content (content : bytes) : bool :=
  header_list_loop (S (length content)) content 0 false false.

(** [splitn(3, |byte| *byte == b':')]. *)
Definition COLON : Z := 58.

Definition validate_distrib_pats_response_line (line : bytes) : bool :=
  match split_once COLON line with
  | None => false
  | Some (priority, rest) =>
      match split_once COLON rest with
      | None => false
      | Some (wildmat, distribution) =>
          is_response_decimal_token priority && validate_wildmat_response_field wildmat
          && validate_p_char_token distribution
      end
  end.

(** ** LISTGROUP *)

(** The closure's captured variables: the last number seen and the count. *)
Definition listgroup_line (arguments : GroupResponseArguments) (state : option Z * Z)
    (line : bytes) : option (option Z * Z) :=
  let '(previous, actual) := state in
  match parse_response_article_number line with
  | None => None
  | Some article_number =>
      if (article_number =? 0) || (gra_high arguments <? gra_low arguments)
         || (article_number <? gra_low arguments) || (gra_high arguments <? article_number)
         || match previous with Some last => article_number <=? last | None => false end
      then None else Some (Some article_number, actual + 1)
  end.

Definition validate_listgroup_response_content (status_line content : bytes) : bool :=
  match (line ← strip_suffix status_line CRLF; get_from line 4) with
  | None => false
  | Some arguments =>
      match parse_group_response_arguments arguments with
      | None => false
      | Some arguments =>
          match validate_crlf_lines_with content (listgroup_line arguments) (None, 0) with
          | None => false
          | Some (_, actual) => (actual <=? gra_count arguments) || (actual =? 0)
          end
      end
  end.

(** ** OVER, XOVER, HDR, XHDR *)

Definition validate_xover_optional_field (field : bytes) : bool := validate_hdr_content field.

Definition validate_overview_optional_field (field : bytes) : bool :=
  match find_byte SP field with
  | None => false
  | Some space =>
      let label := take space field in
      let content := drop (S space) field in
      validate_hdr_content content
      && (validate_metadata_name_abnf_bytes label
          || match strip_suffix label (lit ":") with
             | Some name => validate_header_name_abnf_bytes name
             | None => false
             end)
  end.

Fixpoint overview_fields (validate_optional_field : bytes -> bool) (field_count : nat)
    (fields : list bytes) : option nat :=
  match fields with
  | [] => Some field_count
  | field :: fields' =>
      let field_count := S field_count in
      if negb (validate_hdr_content field) then None
      else if ((field_count =? 6)%nat || (field_count =? 7)%nat)
              && negb (length field =? 0)%nat && negb (is_response_decimal_token field)
      then None
      else if (7 <? field_count)%nat && negb (length field =? 0)%nat
              && negb (validate_optional_field field)
      then None
      else overview_fields validate_optional_field field_count fields'
  end.

Definition validate_overview_response_line_with_min_fields (line : bytes)
    (minimum_fields : nat) (validate_optional_field : bytes -> bool) : option Z :=
  tab ← find_byte HT line;
  article_number ← parse_response_article_number (take tab line);
  field_count ← overview_fields validate_optional_field 0 (split_on (Z.eqb HT) (drop (S tab) line));
  if (minimum_fields <=? field_count)%nat then Some article_number else None.

Definition validate_xover_response_line (line : bytes) : bool :=
  is_some (validate_overview_response_line_with_min_fields line 7 validate_xover_optional_field).

Definition overview_line (previous : option Z) (line : bytes) : option (option Z) :=
  match validate_overview_response_line_with_min_fields line 7 validate_overview_optional_field with
  | None => None
  | Some article_number =>
      if match previous with Some previous => article_number <=? previous | None => false end
      then None else Some (Some article_number)
  end.

Definition validate_overview_response_content (content : bytes) : bool :=
  is_some (validate_crlf_lines_with content overview_line None).

Definition validate_header_response_line_with_key (line : bytes) (validate_key : bytes -> bool)
    (allow_empty_without_space : bool) : bool :=
  match find_byte SP line with
  | Some space => validate_key (take space line) && validate_hdr_content (drop (S space) line)
  | None => allow_empty_without_space && validate_key line
  end.

Definition validate_header_response_line (line : bytes) : bool :=
  validate_header_response_line_with_key line validate_response_article_number true.

Definition validate_xhdr_response_line (line : bytes) : bool :=
  if bytes_eqb line (lit "(none)") then true
  else validate_header_response_line_with_key line
         (fun key => validate_response_article_number key || is_message_id_token key) false.

Definition validate_help_text_line (line : bytes) : bool := validate_u_chars line.
End Content.

(** ** The line loop: lemmas *)

(** The line end found at an offset, as a cut of the remaining content. *)
Lemma strict_line_end_spec content offset e :
  (offset <= length content)%nat ->
  strict_crlf_line_content_end_from content offset = Some e <->
  exists l post, drop offset content = l ++ CRLF ++ post /\ Forall plain l
    /\ e = (offset + length l)%nat.
Proof.
  intros Ho. unfold strict_crlf_line_content_end_from, detect_response_line_end_from, get_from.
  rewrite (proj2 (Nat.ltb_ge _ _)) by lia. cbn [fmap option_fmap option_map].
  split.
  - destruct (detect_response_line_end (drop offset content)) as [k| |] eqn:E; [|done..].
    apply detect_line_complete_inv in E as (l & post & El & Hl & ->).
    intros [= <-]. exists l, post. split; [done|]. split; [done|].
    change (length CRLF) with 2%nat. lia.
  - intros (l & post & -> & Hl & ->). rewrite detect_line_complete by done.
    f_equal. change (length CRLF) with 2%nat. lia.
Qed.

Lemma slice_line content offset l post :
  drop offset content = l ++ CRLF ++ post ->
  slice content offset (offset + length l) = l
  /\ drop (offset + length l + length CRLF) content = post
  /\ (offset <= length content)%nat
  /\ (offset + length l + length CRLF <= length content)%nat.
Proof.
  intros Hd. unfold slice. split; [|split].
  - replace (offset + length l - offset)%nat with (length l) by lia.
    by rewrite Hd, take_app_length.
  - rewrite <- Nat.add_assoc, <- drop_drop, Hd, app_assoc.
    rewrite <- length_app. apply drop_app_length.
  - apply (f_equal length) in Hd. rewrite length_drop, !length_app in Hd.
    change (length CRLF) with 2%nat in *. lia.
Qed.

Lemma strict_line_at content offset l post :
  drop offset content = l ++ CRLF ++ post -> Forall plain l ->
  strict_crlf_line_content_end_from content offset = Some (offset + length l)%nat.
Proof.
  intros Hd Hl. destruct (slice_line _ _ _ _ Hd) as (_ & _ & Ho & _).
  apply strict_line_end_spec; [done|]. by exists l, post.
Qed.

Fixpoint fold_lines {St} (validate : St -> bytes -> option St) (state : St) (lines : list bytes)
    : option St :=
  match lines with
  | [] => Some state
  | line :: lines' =>
      match validate state line with
      | None => None
      | Some state' => fold_lines validate state' lines'
      end
  end.

(** Content made of complete lines, each stuffed where it starts with a dot. *)
Definition content_lines (content : bytes) (lines : list bytes) : Prop :=
  content = join_crlf lines /\ Forall (Forall plain) lines
  /\ Forall (fun l => unstuffed_dot l = false) lines.

Lemma content_lines_nil : content_lines [] [].
Proof. by split. Qed.

Lemma content_lines_cons l post lines :
  Forall plain l -> unstuffed_dot l = false -> content_lines post lines ->
  content_lines (l ++ CRLF ++ post) (l :: lines).
Proof.
  intros Hl Hu (-> & Hp & Hd). split; [|by split; constructor].
  by rewrite app_assoc.
Qed.

Lemma content_lines_unique content lines lines' :
  content_lines content lines -> content_lines content lines' -> lines = lines'.
Proof.
  intros (-> & Hp & _) (E & Hp' & _).
  rewrite <- (payload_lines_join lines Hp), <- (payload_lines_join lines' Hp'). by rewrite E.
Qed.

Lemma content_lines_inv content l lines :
  content_lines content (l :: lines) ->
  exists post, content = l ++ CRLF ++ post /\ Forall plain l /\ unstuffed_dot l = false
    /\ content_lines post lines.
Proof.
  intros (-> & [Hl Hp]%Forall_cons_1 & [Hu Hd]%Forall_cons_1).
  exists (join_crlf lines). split; [|by repeat split].
  change (join_crlf (l :: lines)) with ((l ++ CRLF) ++ join_crlf lines). by rewrite <- app_assoc.
Qed.

Lemma line_cut_unique (l l' post post' : bytes) :
  l ++ CRLF ++ post = l' ++ CRLF ++ post' -> Forall plain l -> Forall plain l' ->
  l = l' /\ post = post'.
Proof.
  intros E Hl Hl'. pose proof (detect_line_complete l post Hl) as Hd.
  rewrite E, detect_line_complete in Hd by done. injection Hd as Hd.
  apply app_inj_1 in E as [-> E]; [|lia]. by apply app_inv_head in E.
Qed.

(** The loop runs over exactly the lines of the content; one step per line, so
    the fuel above the remaining length is never used up. *)
Lemma crlf_lines_loop_spec {St} fuel content offset (f : St -> bytes -> option St) s r :
  (offset <= length content)%nat -> (length content - offset < fuel)%nat ->
  crlf_lines_loop fuel content offset f s = Some r <->
  exists lines, content_lines (drop offset content) lines /\ fold_lines f s lines = Some r.
Proof.
  revert offset s. induction fuel as [|fuel IH]; intros offset s Ho Hf; [lia|].
  cbn [crlf_lines_loop]. destruct (offset <? length content)%nat eqn:E.
  - apply Nat.ltb_lt in E.
    destruct (strict_crlf_line_content_end_from content offset) as [e|] eqn:Ee.
    + apply strict_line_end_spec in Ee as (l & post & Hd & Hl & ->); [|lia].
      destruct (slice_line _ _ _ _ Hd) as (-> & Hpost & _ & Hb).
      change (length CRLF) with 2%nat in *. rewrite Hd.
      split.
      * destruct (unstuffed_dot l) eqn:Eu; [done|].
        destruct (f s l) as [s'|] eqn:Es; [|done].
        intros Hr%IH; [|lia..]. rewrite Hpost in Hr. destruct Hr as (lines & Hc & Hfold).
        exists (l :: lines). split; [by apply content_lines_cons|]. cbn [fold_lines]. by rewrite Es.
      * intros ([|l' lines] & Hc & Hfold).
        { destruct Hc as [Hc _]. apply app_nil in Hc as [_ Hc]. by apply app_nil in Hc as [? _]. }
        apply content_lines_inv in Hc as (post' & Hc & Hl' & Hu & Hc').
        assert (l = l' /\ post = post') as [<- <-] by by apply line_cut_unique.
        rewrite Hu. cbn [fold_lines] in Hfold. destruct (f s l); [|done].
        apply IH; [lia..|]. rewrite Hpost. eauto.
    + split; [done|]. intros ([|l lines] & Hc & _).
      { destruct Hc as [Hc _]. apply (f_equal length) in Hc. rewrite length_drop in Hc.
        change (length (join_crlf [])) with 0%nat in Hc. lia. }
      apply content_lines_inv in Hc as (post & Hc & Hl & _).
      apply strict_line_at in Hc; [|done]. congruence.
  - apply Nat.ltb_ge in E. rewrite drop_ge by lia. split.
    + intros [= <-]. by exists [].
    + intros ([|l lines] & Hc & Hfold); [done|].
      apply content_lines_inv in Hc as (post & Hc & _).
      symmetry in Hc. apply app_nil in Hc as [_ Hc]. by apply app_nil in Hc as [? _].
Qed.

Lemma validate_lines_spec {St} content (f : St -> bytes -> option St) s r :
  validate_crlf_lines_with content f s = Some r <->
  exists lines, content_lines content lines /\ fold_lines f s lines = Some r.
Proof.
  unfold validate_crlf_lines_with. rewrite crlf_lines_loop_spec by lia. by rewrite drop_0.
Qed.

Lemma fold_stateless f lines u :
  is_some (fold_lines (stateless f) u lines) = forallb f lines.
Proof.
  revert u. induction lines as [|l lines IH]; intros u; [done|].
  cbn [fold_lines forallb]. unfold stateless at 1. destruct (f l); [apply IH | done].
Qed.

Lemma validate_crlf_lines_spec content f :
  validate_crlf_lines content f = true <->
  exists lines, content_lines content lines /\ forallb f lines = true.
Proof.
  unfold validate_crlf_lines.
  destruct (validate_crlf_lines_with content (stateless f) tt) as [[]|] eqn:E; cbn [is_some].
  - apply validate_lines_spec in E as (lines & Hc & Hf). split; [|done]. intros _.
    exists lines. split; [done|]. rewrite <- (fold_stateless f lines tt). by rewrite Hf.
  - split; [done|]. intros (lines & Hc & Hf). rewrite <- (fold_stateless f lines tt) in Hf.
    destruct (fold_lines (stateless f) tt lines) as [[]|] eqn:Ef; [|done].
    assert (validate_crlf_lines_with content (stateless f) tt = Some tt) as Hs
      by (apply validate_lines_spec; eauto).
    congruence.
Qed.

(** ** Ascending article numbers *)

(** A list of numbers above [previous], strictly increasing. *)
Fixpoint ascending (previous : option Z) (ns : list Z) : Prop :=
  match ns with
  | [] => True
  | n :: ns' =>
      match previous with Some last => last < n | None => True end /\ ascending (Some n) ns'
  end.

Lemma previous_test previous n :
  match previous with Some last => n <=? last | None => false end = false <->
  match previous with Some last => last < n | None => True end.
Proof. destruct previous; [apply Z.leb_gt | done]. Qed.

Section ascending.
Context `{Mc : !Memchr}.

Definition in_group (a : GroupResponseArguments) (n : Z) : Prop :=
  n <> 0 /\ gra_low a <= n <= gra_high a.

Lemma listgroup_line_Some a previous actual line s :
  listgroup_line a (previous, actual) line = Some s <->
  exists n, parse_response_article_number line = Some n /\ in_group a n
    /\ match previous with Some last => last < n | None => True end
    /\ s = (Some n, actual + 1).
Proof.
  unfold listgroup_line, in_group.
  destruct (parse_response_article_number line) as [n|]; [|split; [done | by intros (? & ? & _)]].
  destruct (_ || _) eqn:E.
  - split; [done|]. intros (m & [= <-] & Hg & Hp & _).
    apply previous_test in Hp. rewrite Hp, orb_false_r, !orb_true_iff in E. lia.
  - apply orb_false_iff in E as [E Hp%previous_test].
    rewrite !orb_false_iff in E. split.
    + intros [= <-]. exists n. repeat split; try done; lia.
    + by intros (m & [= <-] & _ & _ & ->).
Qed.

Lemma fold_listgroup a lines previous actual s :
  fold_lines (listgroup_line a) (previous, actual) lines = Some s <->
  exists ns, parse_response_article_number <$> lines = Some <$> ns
    /\ Forall (in_group a) ns /\ ascending previous ns
    /\ s = (match List.rev ns with [] => previous | n :: _ => Some n end,
            actual + Z.of_nat (length ns)).
Proof.
  revert previous actual. induction lines as [|line lines IH]; intros previous actual;
    cbn [fold_lines].
  - split.
    + intros [= <-]. exists []. cbn. rewrite Z.add_0_r. done.
    + intros ([|n ns] & He & _ & _ & ->); [|done]. cbn. by rewrite Z.add_0_r.
  - destruct (listgroup_line a (previous, actual) line) as [[p' a']|] eqn:E.
    + apply listgroup_line_Some in E as (n & Hn & Hg & Hp & [= -> ->]). rewrite IH. split.
      * intros (ns & He & Hf & Ha & ->). exists (n :: ns).
        split; [by cbn; rewrite Hn, <- He|]. split; [by constructor|].
        split; [by split|]. cbn [rev length]. f_equal; [|lia].
        by destruct (rev ns).
      * intros ([|m ns] & He & Hf & Ha & ->); [done|]. cbn in He. injection He as Hm He.
        rewrite Hn in Hm. injection Hm as <-. apply Forall_cons_1 in Hf as [_ Hf].
        destruct Ha as [_ Ha]. exists ns. split; [done|]. split; [done|]. split; [done|].
        cbn [rev length]. f_equal; [|lia]. by destruct (rev ns).
    + split; [done|]. intros ([|m ns] & He & Hf & Ha & _); [done|].
      cbn in He. injection He as Hm _. apply Forall_cons_1 in Hf as [Hg _].
      destruct Ha as [Hp _].
      assert (listgroup_line a (previous, actual) line = Some (Some m, actual + 1)) as Hs
        by (apply listgroup_line_Some; eauto).
      congruence.
Qed.

Lemma fold_overview lines previous s :
  fold_lines overview_line previous lines = Some s ->
  exists ns, (fun line => validate_overview_response_line_with_min_fields line 7
                            validate_overview_optional_field) <$> lines = Some <$> ns
    /\ ascending previous ns.
Proof.
  revert previous. induction lines as [|line lines IH]; intros previous; cbn [fold_lines].
  - intros _. by exists [].
  - unfold overview_line at 1.
    destruct (validate_overview_response_line_with_min_fields _ _ _) as [n|] eqn:En; [|done].
    destruct (match previous with Some p => n <=? p | None => false end) eqn:Ep; [done|].
    apply previous_test in Ep. intros (ns & He & Ha)%IH. exists (n :: ns).
    split; [|by split]. cbn. by rewrite En, He.
Qed.
End ascending.

Section properties.
Context `{Mc : !Memchr}.

(** A LISTGROUP body is accepted exactly when its status line parses and its
    lines are strictly increasing article numbers between the announced
    watermarks, no more of them than the announced count. *)
Theorem listgroup_content_accepted (status_line content : bytes) :
  validate_listgroup_response_content status_line content = true <->
  exists line a lines ns,
    status_line = line ++ CRLF /\ (4 <= length line)%nat
    /\ parse_group_response_arguments (drop 4 line) = Some a
    /\ content_lines content lines
    /\ parse_response_article_number <$> lines = Some <$> ns
    /\ Forall (in_group a) ns /\ ascending None ns
    /\ (Z.of_nat (length ns) <= gra_count a \/ ns = []).
Proof.
  unfold validate_listgroup_response_content.
  destruct (strip_suffix status_line CRLF) as [line|] eqn:El.
  2: { split; [done|]. intros (line & a & lines & ns & Hs & _).
       apply strip_suffix_Some in Hs. congruence. }
  cbn [mbind option_bind]. apply strip_suffix_Some in El as ->.
  unfold get_from. destruct (length line <? 4)%nat eqn:E4.
  { apply Nat.ltb_lt in E4. split; [done|]. intros (line' & a & lines & ns & Hs & Hl & _).
    apply app_inj_2 in Hs as [<- _]; [lia | done]. }
  apply Nat.ltb_ge in E4.
  destruct (parse_group_response_arguments (drop 4 line)) as [a|] eqn:Ea.
  2: { split; [done|]. intros (line' & a & lines & ns & Hs & _ & Ha & _).
       apply app_inj_2 in Hs as [<- _]; [congruence | done]. }
  destruct (validate_crlf_lines_with content (listgroup_line a) (None, 0)) as [[p n]|] eqn:Ev.
  - apply validate_lines_spec in Ev as (lines & Hc & Hf).
    apply fold_listgroup in Hf as (ns & Hp & Hg & Ha & [= _ ->]). rewrite Z.add_0_l. split.
    + intros Hor. exists line, a, lines, ns. repeat (split; [done|]).
      apply orb_true_iff in Hor as [Hor%Z.leb_le|Hor%Z.eqb_eq]; [by left|].
      right. destruct ns; [done | cbn in Hor; lia].
    + intros (line' & a' & lines' & ns' & Hs & _ & Ha' & Hc' & Hp' & _ & _ & Hor).
      apply app_inj_2 in Hs as [<- _]; [|done]. assert (a' = a) as -> by congruence.
      assert (lines' = lines) as -> by by eapply content_lines_unique.
      assert (ns' = ns) as ->.
      { rewrite Hp in Hp'. revert Hp'. clear. revert ns'.
        induction ns as [|n ns IH]; intros [|n' ns'] He; try done.
        cbn in He. injection He as -> He. by rewrite (IH ns'). }
      apply orb_true_iff. destruct Hor as [Hor| ->]; [left; lia | by right].
  - split; [done|]. intros (line' & a' & lines & ns & Hs & _ & Ha' & Hc & Hp & Hg & Ha & _).
    apply app_inj_2 in Hs as [<- _]; [|done]. assert (a' = a) as -> by congruence.
    assert (validate_crlf_lines_with content (listgroup_line a) (None, 0)
            = Some (match List.rev ns with [] => None | n :: _ => Some n end,
                    0 + Z.of_nat (length ns))) as Hs.
    { apply validate_lines_spec. exists lines. split; [done|]. apply fold_listgroup.
      exists ns. by repeat split. }
    congruence.
Qed.

(** An accepted OVER body is made of complete lines whose article numbers
    are strictly increasing, so no article is listed twice. *)
Theorem overview_content_ascending (content : bytes) :
  validate_overview_response_content content = true ->
  exists lines ns, content_lines content lines
    /\ (fun line => validate_overview_response_line_with_min_fields line 7
                      validate_overview_optional_field) <$> lines = Some <$> ns
    /\ ascending None ns.
Proof.
  unfold validate_overview_response_content.
  destruct (validate_crlf_lines_with content overview_line None) as [s|] eqn:E; [|done]. intros _.
  apply validate_lines_spec in E as (lines & Hc & Hf).
  apply fold_overview in Hf as (ns & Hn & Ha). exists lines, ns. done.
Qed.

(** Every stateless listing is validated line by line: the body is accepted
    exactly when it is cut into complete lines, none with an unstuffed leading
    dot, and the line validator accepts each. *)
Theorem line_listing_accepted (content : bytes) (validate : bytes -> bool) :
  validate_crlf_lines content validate = true <->
  exists lines, content_lines content lines /\ forallb validate lines = true.
Proof. apply validate_crlf_lines_spec. Qed.
End properties.

Lemma overview_content_ascending_witness :
  exists lines ns,
    content_lines (lit "3" ++ replicate 7 HT ++ CRLF ++ lit "5" ++ replicate 7 HT ++ CRLF) lines
    /\ (fun line => validate_overview_response_line_with_min_fields line 7
                      validate_overview_optional_field) <$> lines = Some <$> ns
    /\ ascending None ns.
Proof.
  apply (overview_content_ascending
           (lit "3" ++ replicate 7 HT ++ CRLF ++ lit "5" ++ replicate 7 HT ++ CRLF)).
  vm_compute. reflexivity.
Defined.
