(* ===== verification/Capabilities.v ===== *)
(** * Capability lists ([src/src/protocol.rs], [CapabilityList])

    The parser and validator of a CAPABILITIES 101 body: a VERSION line, then
    lines with a label and arguments, each keyword label at most once without
    regard to case. *)
From S2P Require Import Prelude Utf8 Decimal Memchr Terminator Args Kinds RequestLine.
From S2P Require Import ResponseLine ResponseContent.

Local Open Scope Z_scope.
Local Open Scope rust_scope.

Record CapabilityEntry : Type := { label : bytes; arguments : list bytes }.

Record CapabilityList : Type := { entries : list CapabilityEntry }.

Definition split_response_ws_token (line : bytes) : option (bytes * bytes) :=
  match line with
  | [] => None
  | b :: _ =>
      if is_response_ws b then None
      else
        let token_end := default (length line) (position is_response_ws line) in
        let token := take token_end line in
        if (token_end =? length line)%nat then Some (token, [])
        else
          let rest_with_ws := drop token_end line in
          rest_start ← position (fun b => negb (is_response_ws b)) rest_with_ws;
          Some (token, drop rest_start rest_with_ws)
  end.

Definition validate_capability_argument_token (token : bytes) : bool :=
  validate_p_char_token token.

(** [while !rest.is_empty()]: every token of the rest passes [valid]; each
    token is not empty, so the length of the rest is enough fuel. *)
Fixpoint all_tokens (fuel : nat) (valid : bytes -> bool) (rest : bytes) : bool :=
  match rest with
  | [] => true
  | _ =>
      match fuel with
      | O => false
      | S fuel' =>
          match split_response_ws_token rest with
          | None => false
          | Some (token, next) => if valid token then all_tokens fuel' valid next else false
          end
      end
  end.

Definition validate_capability_argument_tokens (rest : bytes) : bool :=
  all_tokens (length rest) validate_capability_argument_token rest.

Definition validate_version_number_token (token : bytes) : bool :=
  negb (length token =? 0)%nat && (length token <=? 6)%nat
  && match token with b :: _ => in_range 49 57 b | [] => false end
  && forallb is_ascii_digit token.

Definition validate_version_response_line (line : bytes) : bool :=
  match split_response_ws_token line with
  | None => false
  | Some (label, rest) =>
      if negb (eq_ignore_ascii_case label (lit "VERSION")) || (length rest =? 0)%nat then false
      else all_tokens (length rest) validate_version_number_token rest
  end.

(** The labels of RFC 3977 and its extensions with a fixed argument grammar. *)
Definition bare_labels : list bytes :=
  [lit "HDR"; lit "IHAVE"; lit "MODE-READER"; lit "NEWNEWS"; lit "POST"; lit "READER";
   lit "STARTTLS"; lit "STREAMING"].

Definition nonempty (l : bytes) : bool := negb (length l =? 0)%nat.

Definition validate_known_capability_response_line (label rest : bytes) : option bool :=
  if existsb (eq_ignore_ascii_case label) bare_labels then Some (length rest =? 0)%nat
  else if eq_ignore_ascii_case label (lit "IMPLEMENTATION") then
    Some (all_tokens (length rest) validate_capability_argument_token rest)
  else if eq_ignore_ascii_case label (lit "LIST") then
    Some (all_tokens (length rest) (fun t => validate_ascii_token t validate_keyword) rest
          && nonempty rest)
  else if eq_ignore_ascii_case label (lit "OVER") then
    if (length rest =? 0)%nat then Some true
    else
      match split_response_ws_token rest with
      | None => Some false
      | Some (token, next) =>
          Some ((length next =? 0)%nat && eq_ignore_ascii_case token (lit "MSGID"))
      end
  else if eq_ignore_ascii_case label (lit "AUTHINFO") then
    Some (all_tokens (length rest)
            (fun t => eq_ignore_ascii_case t (lit "USER") || eq_ignore_ascii_case t (lit "SASL"))
            rest)
  else if eq_ignore_ascii_case label (lit "SASL") then
    Some (all_tokens (length rest) (fun t => is_ok (validate_sasl_mechanism t)) rest
          && nonempty rest)
  else None.

Definition validate_capability_response_line (line : bytes) : bool :=
  match split_response_ws_token line with
  | None => false
  | Some (label, rest) =>
      if negb (validate_ascii_token label validate_keyword) then
        validate_capability_argument_token label
        && match label with byte :: _ => negb (is_ascii_alphabetic byte) | [] => false end
        && validate_capability_argument_tokens rest
      else
        match validate_known_capability_response_line label rest with
        | Some valid => valid
        | None => validate_capability_argument_tokens rest
        end
  end.

(** [capability_label_seen]: the lines of [content[start..end]]. *)
Fixpoint capability_label_seen_loop (fuel : nat) (content : bytes) (offset end_ : nat)
    (label : bytes) : bool :=
  match fuel with
  | O => false
  | S fuel' =>
      if (offset <? end_)%nat then
        match strict_crlf_line_content_end_from content offset with
        | None => false
        | Some line_end =>
            match split_response_ws_token (slice content offset line_end) with
            | None => false
            | Some (seen_label, _) =>
                if eq_ignore_ascii_case seen_label label then true
                else capability_label_seen_loop fuel' content (line_end + length CRLF) end_ label
            end
        end
      else false
  end.

Definition capability_label_seen (content : bytes) (start end_ : nat) (label : bytes) : bool :=
  capability_label_seen_loop (S (length content)) content start end_ label.

Fixpoint capability_lines_loop (fuel : nat) (content : bytes) (start offset : nat) : bool :=
  match fuel with
  | O => false
  | S fuel' =>
      if (offset <? length content)%nat then
        match strict_crlf_line_content_end_from content offset with
        | None => false
        | Some line_end =>
            let line := slice content offset line_end in
            if unstuffed_dot line then false
            else if negb (validate_capability_response_line line) then false
            else
              match split_response_ws_token line with
              | None => false
              | Some (label, _) =>
                  if negb (validate_ascii_token label validate_keyword)
                  then capability_lines_loop fuel' content start (line_end + length CRLF)
                  else if eq_ignore_ascii_case label (lit "VERSION")
                          || capability_label_seen content start offset label
                  then false
                  else capability_lines_loop fuel' content start (line_end + length CRLF)
              end
        end
      else true
  end.

Definition validate_capabilities_response_content (content : bytes) : bool :=
  match strict_crlf_line_content_end_from content 0 with
  | None => false
  | Some version_line_end =>
      if negb (validate_version_response_line (take version_line_end content)) then false
      else
        let start := (version_line_end + length CRLF)%nat in
        capability_lines_loop (S (length content)) content start start
  end.

(** The argument loop of [capability_entry_from_line]. *)
Fixpoint entry_arguments (fuel : nat) (rest : bytes) : option (list bytes) :=
  match rest with
  | [] => Some []
  | _ =>
      match fuel with
      | O => None
      | S fuel' =>
          p ← split_response_ws_token rest;
          _ ← from_utf8 (fst p);
          arguments ← entry_arguments fuel' (snd p);
          Some (fst p :: arguments)
      end
  end.

Definition capability_entry_from_line (line : bytes) : option CapabilityEntry :=
  p ← split_response_ws_token line;
  let '(label, rest) := p in
  if negb (validate_ascii_token label validate_keyword) then None
  else
    arguments ← entry_arguments (length rest) rest;
    _ ← from_utf8 label;
    Some (Build_CapabilityEntry label arguments).

Fixpoint collect_entries (fuel : nat) (content : bytes) (offset : nat)
    : option (list CapabilityEntry) :=
  match fuel with
  | O => None
  | S fuel' =>
      if (offset <? length content)%nat then
        line_end ← strict_crlf_line_content_end_from content offset;
        let line := slice content offset line_end in
        rest ← collect_entries fuel' content (line_end + length CRLF);
        Some (match capability_entry_from_line line with
              | Some entry => entry :: rest
              | None => rest
              end)
      else Some []
  end.

Definition capability_list_parse (content : bytes) : option CapabilityList :=
  if negb (validate_capabilities_response_content content) then None
  else
    entries ← collect_entries (S (length content)) content 0;
    Some (Build_CapabilityList entries).

Definition capability_list_get (self : CapabilityList) (wanted : bytes) : option CapabilityEntry :=
  List.find (fun entry => eq_ignore_ascii_case (label entry) wanted) (entries self).

(** ** Lines of a capability body: lemmas *)

(** The label of a line, and whether it is a keyword. *)
Definition line_label (line : bytes) : option bytes := fst <$> split_response_ws_token line.

Definition is_keyword (l : bytes) : bool := validate_ascii_token l validate_keyword.

(** What the validator asks of one line after the lines [seen]. *)
Definition capability_line_ok (seen : list bytes) (line : bytes) : bool :=
  negb (unstuffed_dot line) && validate_capability_response_line line
  && match line_label line with
     | None => false
     | Some label =>
         negb (is_keyword label)
         || negb (eq_ignore_ascii_case label (lit "VERSION"))
            && negb (existsb (fun l => match line_label l with
                                       | Some seen_label => eq_ignore_ascii_case seen_label label
                                       | None => false
                                       end) seen)
     end.

Fixpoint capability_lines_ok (seen lines : list bytes) : bool :=
  match lines with
  | [] => true
  | line :: lines' => capability_line_ok seen line && capability_lines_ok (seen ++ [line]) lines'
  end.

Lemma label_seen_spec fuel content offset end_ seen post wanted :
  drop offset content = join_crlf seen ++ post -> end_ = (offset + length (join_crlf seen))%nat ->
  (length (join_crlf seen) < fuel)%nat -> Forall (Forall plain) seen ->
  Forall (fun l => is_some (line_label l) = true) seen ->
  capability_label_seen_loop fuel content offset end_ wanted
  = existsb (fun l => match line_label l with
                      | Some seen_label => eq_ignore_ascii_case seen_label wanted
                      | None => false
                      end) seen.
Proof.
  revert fuel offset. induction seen as [|l seen IH]; intros fuel offset Hd He Hf Hp Hs;
    (destruct fuel as [|fuel]; [lia|]); cbn [capability_label_seen_loop existsb].
  - cbn in He. rewrite (proj2 (Nat.ltb_ge _ _)) by lia. done.
  - rewrite join_crlf_cons in *. rewrite !length_app in *. change (length CRLF) with 2%nat in *.
    rewrite (proj2 (Nat.ltb_lt _ _)) by lia.
    apply Forall_cons_1 in Hp as [Hl Hp]. apply Forall_cons_1 in Hs as [Hs1 Hs].
    rewrite <- !app_assoc in Hd. rewrite (strict_line_at _ _ _ _ Hd Hl).
    destruct (slice_line _ _ _ _ Hd) as (-> & Hpost & _). 
    unfold line_label in Hs1 |- *. destruct (split_response_ws_token l) as [[seen_label rest]|]; [|done].
    cbn [fmap option_fmap option_map fst].
    destruct (eq_ignore_ascii_case seen_label wanted); [done|]. cbn [orb].
    apply IH; [done | change (length CRLF) with 2%nat; lia | lia | done..].
Qed.

Lemma capability_lines_loop_spec fuel content start offset seen pre :
  length pre = start -> content = pre ++ join_crlf seen ++ drop offset content ->
  offset = (start + length (join_crlf seen))%nat -> (offset <= length content)%nat ->
  (length content - offset < fuel)%nat ->
  Forall (Forall plain) seen -> Forall (fun l => is_some (line_label l) = true) seen ->
  capability_lines_loop fuel content start offset = true ->
  exists lines, drop offset content = join_crlf lines /\ Forall (Forall plain) lines
    /\ capability_lines_ok seen lines = true.
Proof.
  revert offset seen. induction fuel as [|fuel IH]; intros offset seen Hpre Hc Ho Hle Hf Hp Hs; [done|].
  cbn [capability_lines_loop]. destruct (offset <? length content)%nat eqn:E.
  2: { intros _. apply Nat.ltb_ge in E. exists []. rewrite drop_ge by lia. done. }
  destruct (strict_crlf_line_content_end_from content offset) as [e|] eqn:Ee; [|done].
  apply strict_line_end_spec in Ee as (l & post & Hd & Hl & ->); [|done].
  destruct (slice_line _ _ _ _ Hd) as (-> & Hpost & _ & Hb).
  destruct (unstuffed_dot l) eqn:Eu; [done|].
  destruct (validate_capability_response_line l) eqn:Ev; [|done]. cbn [negb].
  destruct (split_response_ws_token l) as [[lbl rest]|] eqn:El; [|done].
  assert (capability_lines_loop fuel content start (offset + length l + length CRLF) = true ->
          capability_line_ok seen l = true ->
          exists lines, drop offset content = join_crlf lines /\ Forall (Forall plain) lines
            /\ capability_lines_ok seen lines = true) as Hnext.
  { intros Hloop Hok. destruct (IH (offset + length l + length CRLF)%nat (seen ++ [l]))
      as (lines & Hj & Hpl & Hcap); [done| | |done|change (length CRLF) with 2%nat in *; lia| | |done|].
    - rewrite Hpost, join_crlf_app, <- !app_assoc. rewrite Hc at 1. rewrite Hd.
      rewrite join_crlf_cons. change (join_crlf []) with (@nil Z). by rewrite app_nil_r, <- !app_assoc.
    - rewrite join_crlf_app, join_crlf_cons, !length_app. cbn [length join_crlf]. 
      change (length (join_crlf [])) with 0%nat. lia.
    - apply Forall_app. by split; [|constructor].
    - apply Forall_app. split; [done|]. constructor; [|done]. unfold line_label. by rewrite El.
    - exists (l :: lines). rewrite join_crlf_cons, Hd, <- Hj, Hpost. split; [done|].
      split; [by constructor|]. cbn [capability_lines_ok]. by rewrite Hok, Hcap. }
  assert (capability_label_seen content start offset lbl
          = existsb (fun l => match line_label l with
                              | Some seen_label => eq_ignore_ascii_case seen_label lbl
                              | None => false
                              end) seen) as Hseen.
  { assert (drop start content = join_crlf seen ++ drop offset content) as Hds
      by (rewrite Hc at 1; rewrite <- Hpre; apply drop_app_length).
    unfold capability_label_seen. eapply label_seen_spec; [exact Hds | done | | done | done].
    lia. }
  unfold capability_line_ok, line_label, is_keyword in Hnext.
  rewrite Eu, Ev, El in Hnext. cbn [negb andb fmap option_fmap option_map fst] in Hnext.
  destruct (validate_ascii_token lbl validate_keyword); cbn [negb orb] in *; [|auto].
  rewrite Hseen. destruct (eq_ignore_ascii_case lbl (lit "VERSION")); [done|]. cbn [orb negb andb] in *.
  destruct (existsb _ seen); [done | auto].
Qed.

(** ** Entries: lemmas *)

Definition upper (l : bytes) : bytes := to_ascii_uppercase <$> l.

Lemma eq_ignore_upper a b : eq_ignore_ascii_case a b = true <-> upper a = upper b.
Proof. apply bytes_eqb_spec. Qed.

Lemma entry_label line e :
  capability_entry_from_line line = Some e ->
  line_label line = Some (label e) /\ is_keyword (label e) = true.
Proof.
  unfold capability_entry_from_line, line_label, is_keyword.
  destruct (split_response_ws_token line) as [[lbl rest]|]; [|done]. cbn [mbind option_bind].
  destruct (validate_ascii_token lbl validate_keyword) eqn:Ek; [|done]. cbn [negb].
  destruct (entry_arguments _ rest); [|done]. cbn [mbind option_bind].
  destruct (from_utf8 lbl); [|done]. cbn [mbind option_bind]. by intros [= <-].
Qed.

Definition entry_names (lines : list bytes) : list bytes :=
  (fun e => upper (label e)) <$> omap capability_entry_from_line lines.

Lemma entry_names_cons line lines :
  entry_names (line :: lines) =
  match capability_entry_from_line line with
  | Some e => upper (label e) :: entry_names lines
  | None => entry_names lines
  end.
Proof. unfold entry_names. cbn [omap list_omap]. by destruct (capability_entry_from_line line). Qed.

Lemma seen_label_false seen lbl :
  existsb (fun l => match line_label l with
                    | Some seen_label => eq_ignore_ascii_case seen_label lbl
                    | None => false
                    end) seen = false ->
  forall l sl, In l seen -> line_label l = Some sl -> upper sl <> upper lbl.
Proof.
  intros Hs%existsb_false_Forall l sl Hin Hl E. rewrite List.Forall_forall in Hs.
  specialize (Hs l Hin). cbn beta in Hs. rewrite Hl in Hs.
  apply eq_ignore_upper in E. congruence.
Qed.

Lemma capability_lines_names seen lines :
  capability_lines_ok seen lines = true ->
  NoDup (entry_names lines)
  /\ forall x, In x (entry_names lines) ->
       x <> upper (lit "VERSION")
       /\ forall l sl, In l seen -> line_label l = Some sl -> upper sl <> x.
Proof.
  revert seen. induction lines as [|line lines IH]; intros seen; [split; [constructor|done]|].
  cbn [capability_lines_ok]. intros [Hok Hrest]%andb_true_iff.
  destruct (IH _ Hrest) as [Hnd Hnew]. rewrite entry_names_cons.
  assert (forall x, In x (entry_names lines) ->
    x <> upper (lit "VERSION") /\ forall l sl, In l seen -> line_label l = Some sl -> upper sl <> x)
    as Hweak.
  { intros x Hx. destruct (Hnew x Hx) as [Hv Hs]. split; [done|].
    intros l sl Hl. apply Hs. apply in_or_app. by left. }
  destruct (capability_entry_from_line line) as [e|] eqn:Ee; [|by split].
  apply entry_label in Ee as [Hl Hk].
  unfold capability_line_ok in Hok. rewrite Hl, Hk in Hok. cbn [negb orb] in Hok. split_ands.
  split.
  - constructor; [|done]. intros Hin%list_elem_of_In.
    destruct (Hnew _ Hin) as [_ Hs]. apply (Hs line (label e)); [|done|done].
    apply in_or_app. right. by left.
  - intros x [<-|Hx]; [|by apply Hweak]. split.
    + intros E%eq_ignore_upper. congruence.
    + by apply seen_label_false.
Qed.

Lemma collect_entries_spec fuel content offset lines :
  drop offset content = join_crlf lines -> Forall (Forall plain) lines ->
  (offset <= length content)%nat -> (length content - offset < fuel)%nat ->
  collect_entries fuel content offset = Some (omap capability_entry_from_line lines).
Proof.
  revert offset lines. induction fuel as [|fuel IH]; intros offset lines Hd Hp Hle Hf; [lia|].
  cbn [collect_entries]. destruct lines as [|l lines].
  - apply (f_equal length) in Hd. rewrite length_drop in Hd.
    change (length (join_crlf [])) with 0%nat in Hd.
    by rewrite (proj2 (Nat.ltb_ge _ _)) by lia.
  - rewrite join_crlf_cons in Hd. apply Forall_cons_1 in Hp as [Hl Hp].
    rewrite (strict_line_at _ _ _ _ Hd Hl).
    destruct (slice_line _ _ _ _ Hd) as (Hs & Hpost & _ & Hb).
    change (length CRLF) with 2%nat in *.
    rewrite (proj2 (Nat.ltb_lt _ _)) by lia. cbn [mbind option_bind]. rewrite Hs.
    rewrite (IH _ lines) by (done || lia). cbn [mbind option_bind omap list_omap].
    by destruct (capability_entry_from_line l).
Qed.

(** ** The VERSION line *)

Lemma upper_letter b c :
  to_ascii_uppercase b = c -> 65 <= c <= 90 -> is_ascii_alphabetic b = true /\ is_ascii_byte b.
Proof.
  unfold to_ascii_uppercase, is_ascii_alphabetic, is_ascii_uppercase, is_ascii_lowercase,
    is_ascii_byte. intros <- Hc. destruct (in_range 97 122 b) eqn:E.
  - rewrite orb_true_r. apply in_range_spec in E. split; [done|lia].
  - split; [|lia]. rewrite (proj2 (in_range_spec 65 90 b)) by lia. done.
Qed.

Lemma version_keyword l : upper l = lit "VERSION" -> is_keyword l = true /\ is_str l.
Proof.
  intros E. destruct l as [|b0 [|b1 [|b2 [|b3 [|b4 [|b5 [|b6 [|]]]]]]]]; try done.
  injection E as E0 E1 E2 E3 E4 E5 E6.
  apply upper_letter in E0 as [A0 B0]; [|lia]. apply upper_letter in E1 as [A1 B1]; [|lia].
  apply upper_letter in E2 as [A2 B2]; [|lia]. apply upper_letter in E3 as [A3 B3]; [|lia].
  apply upper_letter in E4 as [A4 B4]; [|lia]. apply upper_letter in E5 as [A5 B5]; [|lia].
  apply upper_letter in E6 as [A6 B6]; [|lia].
  assert (is_str [b0; b1; b2; b3; b4; b5; b6]) as Hs by (apply is_str_ascii; repeat (constructor; [assumption|]); constructor).
  split; [|done]. unfold is_keyword, validate_ascii_token. rewrite utf8_and_str by done.
  unfold validate_keyword. rewrite A0. cbn [negb length Nat.ltb Nat.leb forallb].
  unfold keyword_byte, is_ascii_alphanumeric. by rewrite A1, A2, A3, A4, A5, A6.
Qed.

Lemma version_tokens_args fuel rest :
  all_tokens fuel validate_version_number_token rest = true ->
  exists args, entry_arguments fuel rest = Some args.
Proof.
  revert rest. induction fuel as [|fuel IH]; intros [|b rest]; cbn [all_tokens entry_arguments];
    try done; try (by eexists).
  destruct (split_response_ws_token (b :: rest)) as [[t next]|]; [|done]. cbn [mbind option_bind fst snd].
  destruct (validate_version_number_token t) eqn:Et; [|done]. intros H.
  destruct (IH _ H) as [args ->].
  assert (is_str t) as [cs ->].
  { apply is_str_ascii. unfold validate_version_number_token in Et. split_ands.
    eapply Forall_forallb_impl; [|eassumption]. intros c ?%is_ascii_digit_spec.
    unfold is_ascii_byte. lia. }
  by eexists.
Qed.

Lemma version_line_entry line :
  validate_version_response_line line = true ->
  exists e, capability_entry_from_line line = Some e /\ upper (label e) = lit "VERSION".
Proof.
  unfold validate_version_response_line, capability_entry_from_line.
  destruct (split_response_ws_token line) as [[lbl rest]|]; [|done]. cbn [mbind option_bind].
  destruct (_ || _) eqn:E; [done|]. split_ands. intros Ht.
  assert (upper lbl = lit "VERSION") as Hu
    by (apply (eq_ignore_upper lbl (lit "VERSION")); assumption).
  destruct (version_keyword lbl Hu) as [Hk [cs Hs]]. unfold is_keyword in Hk. rewrite Hk.
  cbn [negb]. destruct (version_tokens_args _ _ Ht) as [args ->]. cbn [mbind option_bind].
  rewrite Hs. cbn [mbind option_bind]. by eexists.
Qed.

Lemma find_entry es e w :
  NoDup ((fun e => upper (label e)) <$> es) -> In e es ->
  eq_ignore_ascii_case (label e) w = true ->
  List.find (fun e => eq_ignore_ascii_case (label e) w) es = Some e.
Proof.
  intros Hnd Hin Hw. induction es as [|e' es IH]; [destruct Hin|].
  inversion_clear Hnd as [|? ? Hni Hnd']. cbn [List.find].
  destruct Hin as [->|Hin]; [by rewrite Hw|].
  destruct (eq_ignore_ascii_case (label e') w) eqn:E; [|by apply IH].
  exfalso. apply Hni. apply eq_ignore_upper in E, Hw. apply list_elem_of_In, in_map_iff.
  exists e. split; [congruence | done].
Qed.

(** ** Properties *)

(** An accepted capability list starts with VERSION, names every label at
    most once without regard to case, and [get] on any case variant of an
    advertised label returns that entry. *)
Theorem capability_list_sound (content : bytes) (cl : CapabilityList) :
  capability_list_parse content = Some cl ->
  (exists v rest, entries cl = v :: rest /\ upper (label v) = lit "VERSION")
  /\ NoDup ((fun e => upper (label e)) <$> entries cl)
  /\ (forall e w, In e (entries cl) -> eq_ignore_ascii_case (label e) w = true ->
        capability_list_get cl w = Some e).
Proof.
  unfold capability_list_parse, validate_capabilities_response_content.
  destruct (strict_crlf_line_content_end_from content 0) as [e|] eqn:Ee; [|done].
  apply strict_line_end_spec in Ee as (l & post & Hd & Hl & ->); [|lia]. rewrite drop_0 in Hd.
  rewrite Nat.add_0_l in *.
  destruct (validate_version_response_line (take (length l) content)) eqn:Ev; [|done]. cbn [negb].
  destruct (capability_lines_loop _ _ _ _) eqn:Eloop; [|done]. cbn [negb].
  rewrite Hd, take_app_length in Ev.
  assert (drop (length l + length CRLF) content = post) as Hdrop.
  { rewrite Hd, app_assoc, <- length_app. apply drop_app_length. }
  assert (length content = length l + length CRLF + length post)%nat as Hlen
    by (rewrite Hd, !length_app; lia).
  apply (capability_lines_loop_spec _ _ _ _ [] (l ++ CRLF)) in Eloop as (lines & Hj & Hp & Hok);
    [|by rewrite length_app | | cbn; lia | lia | lia | constructor | constructor].
  2: { rewrite Hdrop, Hd at 1. change (join_crlf []) with (@nil Z). by rewrite <- !app_assoc. }
  rewrite (collect_entries_spec _ _ _ (l :: lines));
    [|rewrite drop_0, join_crlf_cons, <- Hj, Hdrop; exact Hd|by constructor|lia|lia].
  cbn [mbind option_bind]. intros [= <-]. cbn [entries].
  destruct (version_line_entry l Ev) as (v & Hv & Hu). cbn [omap list_omap]. rewrite Hv.
  destruct (capability_lines_names _ _ Hok) as [Hnd Hnew].
  assert (NoDup ((fun e => upper (label e)) <$> v :: omap capability_entry_from_line lines)) as Hall.
  { cbn [fmap list_fmap]. constructor; [|exact Hnd]. intros Hin%list_elem_of_In.
    destruct (Hnew _ Hin) as [Hne _]. by destruct Hne. }
  split; [by exists v, (omap capability_entry_from_line lines)|]. split; [exact Hall|].
  intros e w. by apply find_entry.
Qed.

Definition sample_capabilities : bytes :=
  lit "VERSION 2" ++ CRLF ++ lit "reader" ++ CRLF ++ lit "LIST ACTIVE HEADERS" ++ CRLF.

Lemma capability_list_sound_witness :
  exists cl, capability_list_parse sample_capabilities = Some cl
    /\ capability_list_get cl (lit "READER") = Some (Build_CapabilityEntry (lit "reader") []).
Proof.
  exists (Build_CapabilityList
    [Build_CapabilityEntry (lit "VERSION") [lit "2"]; Build_CapabilityEntry (lit "reader") [];
     Build_CapabilityEntry (lit "LIST") [lit "ACTIVE"; lit "HEADERS"]]).
  split; [vm_compute; reflexivity|].
  refine (proj2 (proj2 (capability_list_sound sample_capabilities _ _)) _ _ _ _).
  - vm_compute. reflexivity.
  - right. left. reflexivity.
  - reflexivity.
Defined.
