(* ===== verification/ResponseBody.v ===== *)
(** * Dispatch of content validation ([src/src/protocol.rs])

    Which content validator a request kind uses, and the entry points the
    buffered receiver and the whole-frame parser call. *)
From S2P Require Import Prelude Utf8 Decimal Memchr Terminator Args Kinds RequestLine.
From S2P Require Import ResponseLine ResponseContent Capabilities.

Local Open Scope Z_scope.

(** ** Exclusive content coordinates *)

Record ResponseContentRange : Type := { rcr_start : nat; rcr_end : nat }.

Definition content_range_new (start end_ response_len : nat) : option ResponseContentRange :=
  if (start <=? end_)%nat && (end_ <=? response_len)%nat
  then Some (Build_ResponseContentRange start end_) else None.

Definition content_range_slice (self : ResponseContentRange) (response : bytes) : bytes :=
  slice response (rcr_start self) (rcr_end self).

Section Body.
Context `{Mc : !Memchr}.

Definition validate_generic_multiline_response_content (content : bytes) : bool :=
  validate_crlf_lines content validate_generic_multiline_response_line.

Definition validate_non_article_response_content (kind : RequestKind)
    (status_line content : bytes) : bool :=
  match kind with
  | RequestKind.List | RequestKind.ListActive | RequestKind.NewGroups =>
      validate_crlf_lines content validate_active_response_line
  | RequestKind.ListActiveTimes =>
      validate_crlf_lines content validate_active_times_response_line
  | RequestKind.ListNewsgroups =>
      validate_crlf_lines content validate_newsgroups_response_line
  | RequestKind.ListOverviewFmt => validate_overview_fmt_response_content content
  | RequestKind.ListHeaders => validate_header_list_response_content content
  | RequestKind.ListDistribPats =>
      validate_crlf_lines content validate_distrib_pats_response_line
  | RequestKind.ListGroup => validate_listgroup_response_content status_line content
  | RequestKind.NewNews => validate_crlf_lines content is_message_id_token
  | RequestKind.Over => validate_overview_response_content content
  | RequestKind.Xover => validate_crlf_lines content validate_xover_response_line
  | RequestKind.Hdr => validate_crlf_lines content validate_header_response_line
  | RequestKind.Xhdr => validate_crlf_lines content validate_xhdr_response_line
  | RequestKind.Capabilities => validate_capabilities_response_content content
  | RequestKind.Help => validate_crlf_lines content validate_help_text_line
  | RequestKind.Unknown => validate_generic_multiline_response_content content
  | _ => true
  end.

Definition validate_framed_non_article_response_content (kind : RequestKind) (status : Z)
    (status_line content : bytes) : bool :=
  if is_article_response kind status then true
  else if negb (ResponseFraming.is_multiline (framing (descriptor_for_request_status kind status)))
  then true
  else validate_non_article_response_content kind status_line content.
End Body.
