(* ===== verification/Article.v ===== *)
(** * Articles ([src/src/protocol/article.rs])

    Validation of a framed ARTICLE, HEAD, BODY or STAT response into a layout
    of byte ranges, and the materialised view: message-id, number, unfolded
    headers and unstuffed body. *)
From S2P Require Import Prelude Utf8 Decimal Memchr Terminator Args Kinds RequestLine.
From S2P Require Import ResponseLine ResponseContent ResponseBody.

Local Open Scope Z_scope.
Local Open Scope rust_scope.

Inductive InvalidHeaderReason : Type :=
| LeadingFold | EmptyFold | MissingHeader | MissingColon | MissingSpaceAfterColon
| EmptyName | InvalidName | InvalidContent.

Inductive ArticleParseError : Type :=
| NotArticleResponse
| InvalidStatusCode (code : Z)
| InvalidStatusPrefix
| MissingSeparator
| MissingTerminator
| InvalidHeader (reason : InvalidHeaderReason)
| InvalidBody
| UnexpectedBody
| BufferTooShort
| InvalidArticleNumber
| InvalidArticleMessageId.

(** ** Ranges *)

Record ArticleFrameRange : Type := { afr_start : nat; afr_end : nat }.

Definition range_new (start end_ : nat) : result ArticleFrameRange ArticleParseError :=
  if (start <=? end_)%nat then Ok (Build_ArticleFrameRange start end_) else Err BufferTooShort.

(** [buffer.get(start..end)]. *)
Definition get_range (buffer : bytes) (start end_ : nat) : option bytes :=
  if (start <=? end_)%nat && (end_ <=? length buffer)%nat then Some (slice buffer start end_)
  else None.

Definition range_slice (self : ArticleFrameRange) (buffer : bytes)
    : result bytes ArticleParseError :=
  ok_or BufferTooShort (get_range buffer (afr_start self) (afr_end self)).

(** [validated_slice], whose [expect] holds for the ranges of a layout. *)
Definition validated_slice (self : ArticleFrameRange) (buffer : bytes) : bytes :=
  slice buffer (afr_start self) (afr_end self).

(** ** Layouts *)

Record ValidatedFirstLine : Type := {
  vfl_message_id : ArticleFrameRange;
  vfl_article_number : Z;
}.

Record ParsedFirstLine : Type := {
  pfl_message_id : bytes;
  pfl_message_id_range : ArticleFrameRange;
  pfl_article_number : option Z;
}.

Inductive HeaderTransformation : Type := HeaderNone | HeaderUnfold.
Inductive BodyTransformation : Type := BodyNone | BodyUnstuff.

Inductive ValidatedArticleContent : Type :=
| ContentArticle (headers : ArticleFrameRange) (header_transformation : HeaderTransformation)
    (body : ArticleFrameRange) (body_transformation : BodyTransformation)
| ContentHead (headers : ArticleFrameRange) (header_transformation : HeaderTransformation)
| ContentBody (body : ArticleFrameRange) (body_transformation : BodyTransformation)
| ContentStat (content_start : nat).

Record ArticleLayout : Type := {
  layout_first_line : ValidatedFirstLine;
  layout_content : ValidatedArticleContent;
}.

Record Article : Type := {
  article_message_id : bytes;
  article_number : option Z;
  article_headers : option bytes;
  article_body : option bytes;
}.

(** ** Transformations *)

Definition is_fold_ws (b : Z) : bool := (b =? SP) || (b =? HT).

(** [unfold_header_continuations]; [skipping] is the inner loop over the white
    space after a fold. *)
Fixpoint unfold_loop (skipping : bool) (buf : bytes) : bytes :=
  match buf with
  | [] => []
  | b0 :: buf1 =>
      if skipping && is_fold_ws b0 then unfold_loop true buf1
      else
        match buf1 with
        | b1 :: b2 :: buf3 =>
            if (b0 =? CR) && (b1 =? LF) && is_fold_ws b2
            then SP :: unfold_loop true buf3
            else b0 :: unfold_loop false buf1
        | _ => b0 :: unfold_loop false buf1
        end
  end.

Definition unfold_header_continuations (buf : bytes) : bytes := unfold_loop false buf.

(** [unstuff_known_dot_lines]: its loop over the bytes. *)
Fixpoint unstuff_loop (line_start : bool) (buf : bytes) : bytes :=
  match buf with
  | [] => []
  | byte :: buf' =>
      if line_start && (byte =? DOT) then unstuff_loop false buf'
      else byte :: unstuff_loop (byte =? LF) buf'
  end.

Definition unstuff_known_dot_lines (buf : bytes) : bytes := unstuff_loop true buf.

Definition headers_from_validated (buffer : bytes) (headers : ArticleFrameRange)
    (transformation : HeaderTransformation) : bytes :=
  match transformation with
  | HeaderNone => validated_slice headers buffer
  | HeaderUnfold => unfold_header_continuations (validated_slice headers buffer)
  end.

Definition materialize_validated_body (buffer : bytes) (body : ArticleFrameRange)
    (transformation : BodyTransformation) : bytes :=
  match transformation with
  | BodyNone => validated_slice body buffer
  | BodyUnstuff => unstuff_known_dot_lines (validated_slice body buffer)
  end.

Definition materialize (self : ArticleLayout) (buffer : bytes) : Article :=
  let message_id := validated_slice (vfl_message_id (layout_first_line self)) buffer in
  let number := Some (vfl_article_number (layout_first_line self)) in
  match layout_content self with
  | ContentArticle headers ht body bt =>
      Build_Article message_id number (Some (headers_from_validated buffer headers ht))
        (Some (materialize_validated_body buffer body bt))
  | ContentHead headers ht =>
      Build_Article message_id number (Some (headers_from_validated buffer headers ht)) None
  | ContentBody body bt =>
      Build_Article message_id number None (Some (materialize_validated_body buffer body bt))
  | ContentStat _ => Build_Article message_id number None None
  end.

Definition content_range (self : ArticleLayout) : ArticleFrameRange :=
  match layout_content self with
  | ContentArticle headers _ body _ => Build_ArticleFrameRange (afr_start headers) (afr_end body)
  | ContentHead headers _ => headers
  | ContentBody body _ => body
  | ContentStat content_start => Build_ArticleFrameRange content_start content_start
  end.

(** ** The first line *)

Section Validation.
Context `{Mc : !Memchr}.

Definition article_parse_status_code (buf : bytes) : result Z ArticleParseError :=
  ok_or InvalidStatusPrefix (StatusCode.parse buf).

Definition article_parse_response_article_number (value : bytes) : result Z ArticleParseError :=
  if (length value =? 0)%nat || (16 <? length value)%nat || negb (forallb is_ascii_digit value)
  then Err InvalidArticleNumber
  else
    let? number := ok_or InvalidArticleNumber (parse_decimal value) in
    if MAX_ARTICLE_NUMBER <? number then Err InvalidArticleNumber else Ok number.

Definition GT : Z := 62.
Definition LT : Z := 60.

Definition parse_first_line (line : bytes) : result ParsedFirstLine ArticleParseError :=
  let? first_space := ok_or InvalidStatusPrefix (find_byte SP line) in
  if negb (first_space =? 3)%nat then Err InvalidStatusPrefix
  else
    let? second_space :=
      ok_or InvalidArticleNumber
        ((fun pos => (first_space + 1 + pos)%nat) <$> find_byte SP (drop (first_space + 1) line)) in
    let? number :=
      article_parse_response_article_number (slice line (first_space + 1) second_space) in
    let msgid_start := S second_space in
    if negb (bool_decide (line !! msgid_start = Some LT)) then Err InvalidArticleMessageId
    else
      let? msgid_end :=
        ok_or InvalidArticleMessageId
          ((fun pos => (msgid_start + pos + 1)%nat) <$> find_byte GT (drop msgid_start line)) in
      if (msgid_end <? length line)%nat && negb (bool_decide (line !! msgid_end = Some SP))
      then Err InvalidArticleMessageId
      else if (msgid_end <? length line)%nat
              && negb (validate_optional_trailing_comment (drop msgid_end line))
      then Err InvalidArticleMessageId
      else
        let msgid := slice line msgid_start msgid_end in
        let? _ := ok_or InvalidArticleMessageId (from_utf8 msgid) in
        let? message_id := map_err (fun _ => InvalidArticleMessageId)
                             (message_id_from_borrowed msgid) in
        let? range := range_new msgid_start msgid_end in
        Ok (Build_ParsedFirstLine message_id range (Some number)).

Definition validate_first_line (buffer : bytes) (first_line : ArticleFrameRange)
    : result ValidatedFirstLine ArticleParseError :=
  let? line := range_slice first_line buffer in
  let? parsed := parse_first_line line in
  let message_start := (afr_start first_line + afr_start (pfl_message_id_range parsed))%nat in
  let message_end := (afr_start first_line + afr_end (pfl_message_id_range parsed))%nat in
  let? range := range_new message_start message_end in
  let? number := ok_or InvalidArticleNumber (pfl_article_number parsed) in
  Ok (Build_ValidatedFirstLine range number).

(** [status_line_end.checked_sub(CRLF.len())]. *)
Definition first_line_end_of (status_line_end : nat) : result nat ArticleParseError :=
  if (status_line_end <? length CRLF)%nat then Err BufferTooShort
  else Ok (status_line_end - length CRLF)%nat.

Definition validated_first_line_from_initial (initial : ResponseInitial) (status_line_end : nat)
    : result ValidatedFirstLine ArticleParseError :=
  let? article := ok_or InvalidStatusPrefix (ri_article initial) in
  let message_id := ria_message_id article in
  let? first_line_end := first_line_end_of status_line_end in
  if (first_line_end <? rir_end message_id)%nat then Err BufferTooShort
  else
    let? range := range_new (rir_start message_id) (rir_end message_id) in
    Ok (Build_ValidatedFirstLine range (ria_article_number article)).

(** ** Headers and body *)

Definition find_blank_line (buf : bytes) (start : nat) : result nat ArticleParseError :=
  ok_or MissingSeparator
    ((fun pos => (start + pos)%nat) <$> memmem_find (drop start buf) (CRLF ++ CRLF)).

Definition header_name_valid_byte (byte : Z) : bool :=
  negb ((byte =? SP) || (byte =? HT) || negb (in_range 33 126 byte)).

(** [validate_headers]; every step advances, so the length of the data is
    enough fuel. *)
Fixpoint validate_headers_loop (fuel : nat) (data : bytes) (pos : nat) (has_header : bool)
    (transformation : HeaderTransformation) : result HeaderTransformation ArticleParseError :=
  match fuel with
  | O => Err BufferTooShort
  | S fuel' =>
      if (pos <? length data)%nat then
        let? line_end := ok_or BufferTooShort (strict_crlf_line_content_end_from data pos) in
        let line := slice data pos line_end in
        match line with
        | [] => validate_headers_loop fuel' data (line_end + 2) has_header transformation
        | first :: _ =>
            if is_fold_ws first then
              if (pos =? 0)%nat then Err (InvalidHeader LeadingFold)
              else if forallb is_fold_ws line then Err (InvalidHeader EmptyFold)
              else if existsb (Z.eqb 0) line then Err (InvalidHeader InvalidContent)
              else validate_headers_loop fuel' data (line_end + 2) has_header HeaderUnfold
            else
              let? colon_pos := ok_or (InvalidHeader MissingColon) (find_byte COLON line) in
              let name := take colon_pos line in
              if (length name =? 0)%nat then Err (InvalidHeader EmptyName)
              else if negb (forallb header_name_valid_byte name) then Err (InvalidHeader InvalidName)
              else if (colon_pos + 1 =? length line)%nat then
                if bool_decide (data !! (line_end + length CRLF)%nat = Some SP)
                then validate_headers_loop fuel' data (line_end + length CRLF) true transformation
                else Err (InvalidHeader MissingSpaceAfterColon)
              else if negb (bool_decide (line !! (colon_pos + 1)%nat = Some SP))
              then Err (InvalidHeader MissingSpaceAfterColon)
              else if existsb (Z.eqb 0) (drop (colon_pos + 2) line)
              then Err (InvalidHeader InvalidContent)
              else validate_headers_loop fuel' data (line_end + 2) true transformation
        end
      else if has_header then Ok transformation else Err (InvalidHeader MissingHeader)
  end.

Definition validate_headers (data : bytes) : result HeaderTransformation ArticleParseError :=
  validate_headers_loop (S (length data)) data 0 false HeaderNone.

Fixpoint validate_body_loop (fuel : nat) (buf : bytes) (pos : nat)
    (transformation : BodyTransformation) : result BodyTransformation ArticleParseError :=
  match fuel with
  | O => Err InvalidBody
  | S fuel' =>
      if (pos <? length buf)%nat then
        let? line_end := ok_or InvalidBody (strict_crlf_line_content_end_from buf pos) in
        let line := slice buf pos line_end in
        if starts_with line (lit ".") then
          if negb (starts_with line (lit "..")) then Err InvalidBody
          else validate_body_loop fuel' buf (line_end + length CRLF) BodyUnstuff
        else validate_body_loop fuel' buf (line_end + length CRLF) transformation
      else Ok transformation
  end.

Definition validate_body_content (buf : bytes) : result BodyTransformation ArticleParseError :=
  if existsb (Z.eqb 0) buf then Err InvalidBody
  else validate_body_loop (S (length buf)) buf 0 BodyNone.

(** ** Framed articles *)

Record FramedArticle : Type := {
  fa_buffer : bytes;
  fa_first_line : ArticleFrameRange;
  fa_content : ArticleFrameRange;
}.

Definition from_known_content_bounds (buffer : bytes)
    (content_start content_end status_line_end : nat) : result FramedArticle ArticleParseError :=
  if (content_end <? content_start)%nat || (length buffer <? content_end)%nat
  then Err BufferTooShort
  else
    let? first_line_end := first_line_end_of status_line_end in
    let? first_line := range_new 0 first_line_end in
    if negb (first_line_end + length CRLF =? content_start)%nat
       || negb (bool_decide (get_range buffer first_line_end content_start = Some CRLF))
    then Err BufferTooShort
    else
      let? content := range_new content_start content_end in
      Ok (Build_FramedArticle buffer first_line content).

Definition content_prefix (self : FramedArticle) : result bytes ArticleParseError :=
  ok_or BufferTooShort (get_range (fa_buffer self) 0 (afr_end (fa_content self))).

Definition validate_article_content (self : FramedArticle)
    : result ValidatedArticleContent ArticleParseError :=
  let content := fa_content self in
  let? prefix := content_prefix self in
  let? separator := find_blank_line prefix (afr_start content) in
  let headers_end := (separator + length CRLF)%nat in
  let? headers := range_new (afr_start content) headers_end in
  let? data := range_slice headers (fa_buffer self) in
  let? header_transformation := validate_headers data in
  let body_start := (headers_end + length CRLF)%nat in
  if (afr_end content <? body_start)%nat then Err BufferTooShort
  else
    let? body := range_new body_start (afr_end content) in
    let? data := range_slice body (fa_buffer self) in
    let? body_transformation := validate_body_content data in
    Ok (ContentArticle headers header_transformation body body_transformation).

Definition validate_head_content (self : FramedArticle)
    : result ValidatedArticleContent ArticleParseError :=
  let? prefix := content_prefix self in
  match find_blank_line prefix (afr_start (fa_content self)) with
  | Ok _ => Err UnexpectedBody
  | Err _ =>
      let? data := range_slice (fa_content self) (fa_buffer self) in
      let? header_transformation := validate_headers data in
      Ok (ContentHead (fa_content self) header_transformation)
  end.

Definition validate_body_content_of (self : FramedArticle)
    : result ValidatedArticleContent ArticleParseError :=
  let? data := range_slice (fa_content self) (fa_buffer self) in
  let? body_transformation := validate_body_content data in
  Ok (ContentBody (fa_content self) body_transformation).

Definition validate_stat_content (self : FramedArticle)
    : result ValidatedArticleContent ArticleParseError :=
  if negb (afr_start (fa_content self) =? afr_end (fa_content self))%nat
  then Err UnexpectedBody
  else Ok (ContentStat (afr_start (fa_content self))).

Definition validate_for_status_with_first_line (self : FramedArticle) (status : Z)
    (first_line : ValidatedFirstLine) : result ArticleLayout ArticleParseError :=
  let? content :=
    (if status =? 220 then validate_article_content self
     else if status =? 221 then validate_head_content self
     else if status =? 222 then validate_body_content_of self
     else if status =? 223 then validate_stat_content self
     else Err (InvalidStatusCode status)) in
  Ok (Build_ArticleLayout first_line content).

Definition validate_for_status (self : FramedArticle) (status : Z)
    : result ArticleLayout ArticleParseError :=
  let? first_line := validate_first_line (fa_buffer self) (fa_first_line self) in
  validate_for_status_with_first_line self status first_line.

(** [FramedArticle::validate]: the buffer with its layout. *)
Definition framed_validate (self : FramedArticle)
    : result (bytes * ArticleLayout) ArticleParseError :=
  let? status := article_parse_status_code (fa_buffer self) in
  let? layout := validate_for_status self status in
  Ok (fa_buffer self, layout).

(** ** Typestates of an owned response ([mod state]) *)

Record FramedState : Type := {
  fs_bytes : bytes;
  fs_kind : RequestKind;
  fs_status : Z;
  fs_status_line_end : nat;
  fs_content_end : nat;
  fs_initial : ResponseInitial;
}.

Record ValidatedState : Type := {
  vs_bytes : bytes;
  vs_kind : RequestKind;
  vs_status : Z;
  vs_layout : ArticleLayout;
}.

Definition generic_content_range (self : FramedState) : option ResponseContentRange :=
  content_range_new (fs_status_line_end self) (fs_content_end self) (length (fs_bytes self)).

Definition validated_layout (self : FramedState) : result ArticleLayout ArticleParseError :=
  let status := fs_status self in
  if negb (in_range 220 223 status) then Err (InvalidStatusCode status)
  else
    let? first_line := validated_first_line_from_initial (fs_initial self) (fs_status_line_end self) in
    let? framed := from_known_content_bounds (fs_bytes self) (fs_status_line_end self)
                     (fs_content_end self) (fs_status_line_end self) in
    validate_for_status_with_first_line framed status first_line.

Definition state_validate (self : FramedState) : result ValidatedState ArticleParseError :=
  let? layout := validated_layout self in
  Ok (Build_ValidatedState (fs_bytes self) (fs_kind self) (fs_status self) layout).

(** ** Header access *)

(** The value after the colon without its leading white space. *)
Fixpoint skip_fold_ws (l : bytes) : bytes :=
  match l with
  | b :: l' => if is_fold_ws b then skip_fold_ws l' else l
  | [] => []
  end.

Fixpoint headers_get (fuel : nat) (data : bytes) (pos : nat) (lookup : bytes) : option bytes :=
  match fuel with
  | O => None
  | S fuel' =>
      if (pos <? length data)%nat then
        line_end ← strict_crlf_line_content_end_from data pos;
        let line := slice data pos line_end in
        match line with
        | [] => headers_get fuel' data (line_end + 2) lookup
        | first :: _ =>
            if is_fold_ws first then headers_get fuel' data (line_end + 2) lookup
            else
              colon_pos ← find_byte COLON line;
              if eq_ignore_ascii_case (take colon_pos line) lookup
              then Some (skip_fold_ws (drop (colon_pos + 1) line))
              else headers_get fuel' data (line_end + 2) lookup
        end
      else None
  end.

(** [HeaderIter::next] from [pos]: the pair and the next position. *)
Fixpoint header_next (fuel : nat) (data : bytes) (pos : nat) : option (bytes * bytes * nat) :=
  match fuel with
  | O => None
  | S fuel' =>
      if (pos <? length data)%nat then
        line_end ← strict_crlf_line_content_end_from data pos;
        let line := slice data pos line_end in
        match line with
        | [] => header_next fuel' data (line_end + 2)
        | first :: _ =>
            if is_fold_ws first then header_next fuel' data (line_end + 2)
            else
              colon_pos ← find_byte COLON line;
              Some (take colon_pos line, skip_fold_ws (drop (colon_pos + 1) line), (line_end + 2)%nat)
        end
      else None
  end.

Fixpoint header_iter (fuel : nat) (data : bytes) (pos : nat) : list (bytes * bytes) :=
  match fuel with
  | O => []
  | S fuel' =>
      match header_next (S (length data)) data pos with
      | None => []
      | Some (name, value, pos') => (name, value) :: header_iter fuel' data pos'
      end
  end.

Definition get (data name : bytes) : option bytes := headers_get (S (length data)) data 0 name.
Definition iter (data : bytes) : list (bytes * bytes) := header_iter (S (length data)) data 0.

(** [Headers::parse]. *)
Definition headers_parse (data : bytes) : result bytes ArticleParseError :=
  let? transformation := validate_headers data in
  Ok (match transformation with
      | HeaderNone => data
      | HeaderUnfold => unfold_header_continuations data
      end).

(** ** The compatibility parser's content bound *)

Variable find_end : bytes -> option nat.

Definition find_article_content_end (buf : bytes) (start : nat) : option nat :=
  slice ← get_from buf start;
  if starts_with slice DOT_TERMINATOR then Some start
  else find_terminator_content_end find_end buf start.

Definition compatibility_content_end (buffer : bytes) (status : Z) (status_line_end : nat)
    : result nat ArticleParseError :=
  if status =? 223 then Ok (length buffer)
  else
    match find_article_content_end buffer status_line_end with
    | Some content_end => Ok content_end
    | None =>
        if status =? 220 then
          let? separator := find_blank_line buffer status_line_end in
          let headers_end := (separator + length CRLF)%nat in
          let? _ := headers_parse (slice buffer status_line_end headers_end) in
          Err MissingTerminator
        else if status =? 221 then
          match find_blank_line buffer status_line_end with
          | Ok _ => Err UnexpectedBody
          | Err _ => Err MissingTerminator
          end
        else Err MissingTerminator
    end.

Definition parse_compatibility_response (buffer : bytes) (status : Z)
    : result Article ArticleParseError :=
  if negb (in_range 220 223 status) then Err (InvalidStatusCode status)
  else
    let? first_line_end := ok_or BufferTooShort (strict_crlf_line_content_end_from buffer 0) in
    let status_line_end := (first_line_end + length CRLF)%nat in
    let? range := range_new 0 first_line_end in
    let? first_line := validate_first_line buffer range in
    let? content_end := compatibility_content_end buffer status status_line_end in
    let? framed := from_known_content_bounds buffer status_line_end content_end status_line_end in
    let? layout := validate_for_status_with_first_line framed status first_line in
    Ok (materialize layout buffer).
End Validation.

(** ** Bodies: lemmas *)

Lemma unstuff_loop_plain b l rest :
  Forall plain l -> unstuff_loop b (l ++ CRLF ++ rest) =
  (if b then unstuff l else l) ++ CRLF ++ unstuff_loop true rest.
Proof.
  assert (forall k, Forall plain k ->
            unstuff_loop false (k ++ CRLF ++ rest) = k ++ CRLF ++ unstuff_loop true rest) as Hf.
  { induction 1 as [|c k [Hc1 Hc2] _ IH]; [done|]. cbn [app unstuff_loop andb].
    apply Z.eqb_neq in Hc2. by rewrite Hc2, IH. }
  intros Hl. destruct b; [|by apply Hf]. destruct l as [|c l]; [done|].
  apply Forall_cons_1 in Hl as [[Hc1 Hc2] Hl]. cbn [app unstuff_loop andb].
  unfold unstuff, strip_prefix. destruct (Z.eqb_spec c DOT) as [->|Hne].
  - change (starts_with (DOT :: l) (lit ".")) with true. cbn [default from_option id].
    by rewrite Hf.
  - assert (starts_with (c :: l) (lit ".") = false) as -> by exact (starts_with_differ c 46 l [] Hne).
    cbn [default from_option].
    apply Z.eqb_neq in Hc2. by rewrite Hc2, Hf.
Qed.

Lemma unstuff_join lines :
  Forall (Forall plain) lines ->
  unstuff_known_dot_lines (join_crlf lines) = join_crlf (unstuff <$> lines).
Proof.
  unfold unstuff_known_dot_lines. induction 1 as [|l lines Hl _ IH]; [done|].
  cbn [fmap list_fmap]. rewrite !join_crlf_cons, unstuff_loop_plain by done.
  unfold fmap in IH. by rewrite IH.
Qed.

Definition body_transformation_of (t : BodyTransformation) (lines : list bytes)
    : BodyTransformation :=
  if existsb (fun l => starts_with l (lit ".")) lines then BodyUnstuff else t.

Lemma unstuffed_dot_cases l :
  unstuffed_dot l = false <->
  starts_with l (lit ".") = false \/ starts_with l (lit "..") = true.
Proof.
  unfold unstuffed_dot. rewrite andb_false_iff, negb_false_iff. done.
Qed.

Lemma validate_body_loop_spec fuel buf pos t r :
  (pos <= length buf)%nat -> (length buf - pos < fuel)%nat ->
  validate_body_loop fuel buf pos t = Ok r <->
  exists lines, content_lines (drop pos buf) lines /\ r = body_transformation_of t lines.
Proof.
  revert pos t. induction fuel as [|fuel IH]; intros pos t Hp Hf; [lia|].
  cbn [validate_body_loop]. destruct (pos <? length buf)%nat eqn:E.
  - apply Nat.ltb_lt in E.
    destruct (strict_crlf_line_content_end_from buf pos) as [e|] eqn:Ee; cbn [ok_or].
    + apply strict_line_end_spec in Ee as (l & post & Hd & Hl & ->); [|lia].
      destruct (slice_line _ _ _ _ Hd) as (-> & Hpost & _ & Hb).
      change (length CRLF) with 2%nat in *. rewrite Hd.
      assert (forall t', validate_body_loop fuel buf (pos + length l + 2) t' = Ok r <->
        exists lines, content_lines post lines /\ r = body_transformation_of t' lines) as Hrec.
      { intros t'. rewrite IH by lia. by rewrite Hpost. }
      assert (forall t', unstuffed_dot l = false ->
        t' = (if starts_with l (lit ".") then BodyUnstuff else t) ->
        (exists lines, content_lines post lines /\ r = body_transformation_of t' lines) <->
        (exists lines, content_lines (l ++ CRLF ++ post) lines
                       /\ r = body_transformation_of t lines)) as Hstep.
      { intros t' Hu ->. split.
        - intros (lines & Hc & ->). exists (l :: lines). split; [by apply content_lines_cons|].
          unfold body_transformation_of. cbn [existsb].
          by destruct (starts_with l _), (existsb _ lines).
        - intros ([|l' lines] & Hc & ->).
          { destruct Hc as [Hc _]. apply app_nil in Hc as [_ Hc]. by apply app_nil in Hc as [? _]. }
          apply content_lines_inv in Hc as (post' & Hc & Hl' & _ & Hc').
          apply line_cut_unique in Hc as [<- <-]; [|done..].
          exists lines. split; [done|]. unfold body_transformation_of. cbn [existsb].
          by destruct (starts_with l _), (existsb _ lines). }
      destruct (starts_with l (lit ".")) eqn:Es.
      * destruct (starts_with l (lit "..")) eqn:Ess; cbn [negb].
        -- rewrite Hrec. apply Hstep; [|done]. apply unstuffed_dot_cases. by right.
        -- split; [done|]. intros ([|l' lines] & Hc & _).
           { destruct Hc as [Hc _]. apply app_nil in Hc as [_ Hc]. by apply app_nil in Hc as [? _]. }
           apply content_lines_inv in Hc as (post' & Hc & Hl' & Hu & _).
           apply line_cut_unique in Hc as [<- _]; [|done..].
           apply unstuffed_dot_cases in Hu as [?|?]; congruence.
      * rewrite Hrec. apply Hstep; [|done]. apply unstuffed_dot_cases. by left.
    + split; [done|]. intros ([|l lines] & Hc & _).
      { destruct Hc as [Hc _]. apply (f_equal length) in Hc. rewrite length_drop in Hc.
        change (length (join_crlf [])) with 0%nat in Hc. lia. }
      apply content_lines_inv in Hc as (post & Hc & Hl & _).
      apply strict_line_at in Hc; [|done]. congruence.
  - apply Nat.ltb_ge in E. rewrite drop_ge by lia. split.
    + intros [= <-]. by exists [].
    + intros ([|l lines] & Hc & ->); [done|].
      apply content_lines_inv in Hc as (post & Hc & _).
      symmetry in Hc. apply app_nil in Hc as [_ Hc]. by apply app_nil in Hc as [? _].
Qed.

Lemma validate_body_content_spec buf r :
  validate_body_content buf = Ok r <->
  existsb (Z.eqb 0) buf = false
  /\ exists lines, content_lines buf lines /\ r = body_transformation_of BodyNone lines.
Proof.
  unfold validate_body_content. destruct (existsb (Z.eqb 0) buf).
  - split; [done | by intros [? _]].
  - rewrite validate_body_loop_spec by lia. rewrite drop_0. tauto.
Qed.

Lemma unstuff_id l : starts_with l (lit ".") = false -> unstuff l = l.
Proof. intros Hs. unfold unstuff, strip_prefix. by rewrite Hs. Qed.

Lemma unstuff_none lines :
  existsb (fun l => starts_with l (lit ".")) lines = false -> unstuff <$> lines = lines.
Proof.
  induction lines as [|l lines IH]; [done|]. cbn [existsb]. intros [Hl Hs]%orb_false_iff.
  cbn [fmap list_fmap]. rewrite unstuff_id by done. f_equal. by apply IH.
Qed.

(** What the view shows of a validated body. *)
Definition shown_body (buf : bytes) (t : BodyTransformation) : bytes :=
  match t with BodyNone => buf | BodyUnstuff => unstuff_known_dot_lines buf end.

(** A body is accepted exactly when it is made of complete lines, without
    NUL and without an unstuffed leading dot, and what the article view shows
    is those lines with their stuffed dots taken off, whether or not the view
    had to copy. *)
Theorem article_body_unstuffed (buf : bytes) (t : BodyTransformation) :
  (validate_body_content buf = Ok t <->
   existsb (Z.eqb 0) buf = false
   /\ exists lines, content_lines buf lines /\ t = body_transformation_of BodyNone lines)
  /\ (validate_body_content buf = Ok t ->
      exists lines, content_lines buf lines
        /\ shown_body buf t = join_crlf (unstuff <$> lines)).
Proof.
  split; [apply validate_body_content_spec|].
  intros (_ & lines & Hc & ->)%validate_body_content_spec. exists lines. split; [done|].
  pose proof Hc as (Hb & Hp & _). unfold body_transformation_of, shown_body.
  destruct (existsb _ lines) eqn:E.
  - rewrite Hb. by apply unstuff_join.
  - by rewrite unstuff_none.
Qed.

Lemma article_body_unstuffed_witness :
  exists lines, content_lines (lit "..a" ++ CRLF ++ lit "b" ++ CRLF) lines
    /\ shown_body (lit "..a" ++ CRLF ++ lit "b" ++ CRLF) BodyUnstuff = join_crlf (unstuff <$> lines).
Proof.
  apply (proj2 (article_body_unstuffed (lit "..a" ++ CRLF ++ lit "b" ++ CRLF) BodyUnstuff)).
  vm_compute. reflexivity.
Defined.

(** Dot stuffing round-trips through the article view: stuffing the lines
    of any NUL-free text and sending them gives a body that validates and is
    shown as the text. *)
Theorem stuffed_body_roundtrip (lines : list bytes) :
  Forall (Forall plain) lines -> existsb (Z.eqb 0) (join_crlf lines) = false ->
  exists t, validate_body_content (join_crlf (stuff <$> lines)) = Ok t
    /\ shown_body (join_crlf (stuff <$> lines)) t = join_crlf lines.
Proof.
  intros Hp Hz.
  assert (content_lines (join_crlf (stuff <$> lines)) (stuff <$> lines)) as Hc.
  { split; [done|]. split; apply Forall_fmap.
    - eapply Forall_impl; [|exact Hp]. intros l. apply stuff_plain.
    - apply List.Forall_forall. intros l _. unfold compose, stuff.
      destruct (starts_with l (lit ".")) eqn:E; apply unstuffed_dot_cases; [right|by left].
      apply starts_with_spec in E as [k ->]. done. }
  exists (body_transformation_of BodyNone (stuff <$> lines)).
  assert (unstuff <$> (stuff <$> lines) = lines) as Hus.
  { rewrite <- list_fmap_compose. rewrite <- (list_fmap_id lines) at 2.
    apply list_fmap_ext. intros i l _. apply unstuff_stuff. }
  split.
  - apply validate_body_content_spec. split; [|eauto].
    revert Hz. clear. induction lines as [|l lines IH]; [done|].
    cbn [fmap list_fmap]. rewrite !join_crlf_cons, !existsb_app, !orb_false_iff.
    intros (Hl & Hcr & Hz). split; [|split; [done | by apply IH]].
    unfold stuff. by destruct (starts_with l (lit ".")).
  - clear Hz. unfold body_transformation_of, shown_body. destruct (existsb _ _) eqn:E.
    + rewrite unstuff_join, Hus; [done|]. apply Hc.
    + apply unstuff_none in E. by rewrite <- E, Hus.
Qed.

Lemma stuffed_body_roundtrip_witness :
  exists t, validate_body_content (join_crlf (stuff <$> [lit ".sig"; lit "."; lit "x"])) = Ok t
    /\ shown_body (join_crlf (stuff <$> [lit ".sig"; lit "."; lit "x"])) t
       = join_crlf [lit ".sig"; lit "."; lit "x"].
Proof.
  apply (stuffed_body_roundtrip [lit ".sig"; lit "."; lit "x"]); [|reflexivity].
  repeat match goal with |- Forall _ _ => constructor end;
    unfold plain; vm_compute; split; discriminate.
Defined.

(** ** The first line *)

Section first_line.
Context `{Mc : !Memchr, Ms : !MemchrSpec}.

(** A message-id at the head of a text, ended by the text or a space: the
    bracket search and the space search find the same end. *)
Lemma message_id_extent (m r : bytes) :
  message_id_shape m -> (r = [] \/ exists r', r = SP :: r') ->
  find_byte GT (m ++ r) = Some (length m - 1)%nat
  /\ default (length (m ++ r)) (find_byte SP (m ++ r)) = length m
  /\ (0 < length m)%nat /\ m !! 0%nat = Some LT.
Proof.
  intros (inner & -> & Hl & Hi) Hr.
  assert (Forall (fun b => 33 <= b <= 126 /\ b <> 62) inner) as Hin
    by (eapply Forall_forallb_impl; [|exact Hi]; intros b; apply message_id_byte_spec).
  assert (no_space (lit "<" ++ inner ++ lit ">")) as Hns.
  { apply Forall_app. split; [by repeat constructor|]. apply Forall_app.
    split; [|by repeat constructor]. eapply Forall_impl; [|exact Hin].
    intros b [Hb _]. apply Z.eqb_neq. unfold SP. lia. }
  split; [|split; [|split]].
  - rewrite find_byte_position, <- app_assoc, <- app_assoc, app_assoc.
    change (lit ">" ++ r) with (GT :: r). rewrite position_app_here.
    + rewrite !length_app. change (length (lit "<")) with 1%nat.
      change (length (lit ">")) with 1%nat. f_equal. lia.
    + apply Forall_app. split; [by repeat constructor|]. eapply Forall_impl; [|exact Hin].
      intros b [_ Hb]. apply Z.eqb_neq. unfold GT. lia.
    + apply Z.eqb_refl.
  - destruct Hr as [->|[r' ->]].
    + rewrite app_nil_r, find_space_none by done. done.
    + by rewrite find_space_app.
  - rewrite length_app. change (length (lit "<")) with 1%nat. lia.
  - done.
Qed.

Lemma article_number_agrees v :
  article_parse_response_article_number v
  = ok_or InvalidArticleNumber (parse_response_article_number v).
Proof.
  unfold article_parse_response_article_number, parse_response_article_number.
  destruct (_ || _); [done|]. destruct (parse_decimal v) as [n|]; [|done].
  cbn [ok_or mbind option_bind]. destruct (MAX_ARTICLE_NUMBER <? n) eqn:E.
  - apply Z.ltb_lt in E. rewrite (proj2 (Z.leb_gt _ _)) by lia. done.
  - apply Z.ltb_ge in E. rewrite (proj2 (Z.leb_le _ _)) by lia. done.
Qed.

(** The part of [parse_first_line] after the number, on the text [rest] that
    starts at [start]. *)
Definition message_id_field (start : nat) (number : Z) (rest : bytes)
    : result ParsedFirstLine ArticleParseError :=
  if negb (bool_decide (rest !! 0%nat = Some LT)) then Err InvalidArticleMessageId
  else
    let? pos := ok_or InvalidArticleMessageId (find_byte GT rest) in
    let len := (pos + 1)%nat in
    if (len <? length rest)%nat && negb (bool_decide (rest !! len = Some SP))
    then Err InvalidArticleMessageId
    else if (len <? length rest)%nat && negb (validate_optional_trailing_comment (drop len rest))
    then Err InvalidArticleMessageId
    else
      let? _ := ok_or InvalidArticleMessageId (from_utf8 (take len rest)) in
      let? message_id := map_err (fun _ => InvalidArticleMessageId)
                           (message_id_from_borrowed (take len rest)) in
      Ok (Build_ParsedFirstLine message_id
            (Build_ArticleFrameRange start (start + len)) (Some number)).

Lemma parse_first_line_split d0 d1 d2 args o :
  no_space [d0; d1; d2] -> find_byte SP args = Some o ->
  parse_first_line ([d0; d1; d2; SP] ++ args) =
  let? number := article_parse_response_article_number (take o args) in
  message_id_field (4 + S o) number (drop (S o) args).
Proof.
  intros Hd Ho. unfold parse_first_line.
  change ([d0; d1; d2; SP] ++ args) with ([d0; d1; d2] ++ SP :: args).
  rewrite find_space_app by done. cbn [ok_or length Nat.eqb negb].
  change (drop (3 + 1) ([d0; d1; d2] ++ SP :: args)) with args. rewrite Ho.
  cbn [fmap option_fmap option_map ok_or].
  replace (slice ([d0; d1; d2] ++ SP :: args) (3 + 1) (3 + 1 + o)) with (take o args)
    by (unfold slice; by replace (3 + 1 + o - (3 + 1))%nat with o by lia).
  destruct (article_parse_response_article_number (take o args)) as [n|]; [|done].
  unfold message_id_field.
  assert (o < length args)%nat as Hlt
    by (rewrite find_byte_position in Ho; by apply position_lt in Ho).
  set (rest := drop (S o) args).
  assert (forall k, ([d0; d1; d2] ++ SP :: args) !! (4 + S o + k)%nat = rest !! k) as Hlook.
  { intros k. unfold rest. rewrite lookup_drop. change (4 + S o + k)%nat with (4 + (S o + k))%nat.
    done. }
  assert (forall k, drop (4 + S o + k) ([d0; d1; d2] ++ SP :: args) = drop k rest) as Hdrop.
  { intros k. unfold rest. rewrite drop_drop. done. }
  assert (length ([d0; d1; d2] ++ SP :: args) = 4 + S o + length rest)%nat as Hlen.
  { unfold rest. rewrite length_drop, length_app. cbn [length]. lia. }
  change (S (3 + 1 + o)) with (4 + S o)%nat.
  replace (([d0; d1; d2] ++ SP :: args) !! (4 + S o)%nat) with (rest !! 0%nat)
    by (rewrite <- Hlook; f_equal; lia).
  replace (drop (4 + S o) ([d0; d1; d2] ++ SP :: args)) with rest
    by (rewrite <- (drop_0 rest), <- Hdrop; f_equal; lia).
  destruct (negb _); [done|]. destruct (find_byte GT rest) as [p|]; [|done].
  cbn [fmap option_fmap option_map ok_or].
  replace (4 + S o + p + 1)%nat with (4 + S o + (p + 1))%nat by lia.
  rewrite Hlook, Hdrop, Hlen.
  replace (4 + S o + (p + 1) <? 4 + S o + length rest)%nat with (p + 1 <? length rest)%nat
    by (apply eq_true_iff_eq; rewrite !Nat.ltb_lt; lia).
  destruct (_ && _); [done|]. destruct (_ && _); [done|].
  replace (slice ([d0; d1; d2] ++ SP :: args) (4 + S o) (4 + S o + (p + 1)))
    with (take (p + 1) rest).
  2: { unfold slice. replace (4 + S o + (p + 1) - (4 + S o))%nat with (p + 1)%nat by lia.
       done. }
  destruct (from_utf8 _); [|done]. destruct (message_id_from_borrowed _); [|done]. cbn [map_err ok_or].
  unfold range_new. rewrite (proj2 (Nat.leb_le _ _)) by lia. done.
Qed.

Lemma space_take_drop args o :
  find_byte SP args = Some o -> args = take o args ++ SP :: drop (S o) args /\ no_space (take o args).
Proof.
  rewrite find_byte_position. intros (t & x & r & -> & <- & Hx%Z.eqb_eq & Ht)%position_Some.
  subst x. rewrite take_app_length. split; [|done]. f_equal. f_equal.
  replace (S (length t)) with (length t + 1)%nat by lia.
  by rewrite <- drop_drop, drop_app_length.
Qed.

Lemma trailing_comment_head r :
  validate_optional_trailing_comment r = true -> r = [] \/ exists r', r = SP :: r'.
Proof.
  unfold validate_optional_trailing_comment. destruct r as [|b r]; [by left|]. right.
  cbn [length Nat.eqb orb] in *. destruct (strip_prefix (b :: r) (lit " ")) as [k|] eqn:E; [|done].
  apply strip_prefix_Some in E. exists r. by injection E as ->.
Qed.

Lemma message_id_utf8 m : message_id_shape m -> is_some (from_utf8 m) = true.
Proof.
  intros Hm. rewrite from_utf8_ascii; [done|].
  by apply message_id_shape_ascii.
Qed.

(** A valid message-id with a valid trailing text is read by the field parser. *)
Lemma message_id_field_valid start number m r :
  message_id_shape m -> validate_optional_trailing_comment r = true ->
  message_id_field start number (m ++ r) =
  Ok (Build_ParsedFirstLine m (Build_ArticleFrameRange start (start + length m)) (Some number)).
Proof.
  intros Hm Hr. pose proof (trailing_comment_head r Hr) as Hh.
  destruct (message_id_extent m r Hm Hh) as (Hgt & _ & Hpos & H0).
  unfold message_id_field. rewrite lookup_app_l, H0 by done.
  rewrite bool_decide_eq_true_2, Hgt by done. cbn [negb ok_or].
  replace (length m - 1 + 1)%nat with (length m) by lia.
  rewrite drop_app_length, take_app_length, Hr, andb_false_r.
  assert ((length m <? length (m ++ r))%nat && negb (bool_decide ((m ++ r) !! length m = Some SP))
          = false) as ->.
  { destruct Hh as [->|[r' ->]].
    - rewrite app_nil_r, Nat.ltb_irrefl. done.
    - rewrite list_lookup_middle by done. rewrite bool_decide_eq_true_2 by done.
      apply andb_false_r. }
  pose proof (message_id_utf8 m Hm) as Hu. destruct (from_utf8 m); [|done]. cbn [ok_or].
  by rewrite (proj2 (message_id_from_borrowed_Ok m m)).
Qed.

(** What the field parser reads is a valid message-id and a valid trailing text. *)
Lemma message_id_field_Ok start number rest p :
  message_id_field start number rest = Ok p ->
  exists m r, rest = m ++ r /\ message_id_shape m /\ validate_optional_trailing_comment r = true.
Proof.
  unfold message_id_field. destruct (negb _); [done|].
  destruct (find_byte GT rest) as [o|]; [|done]. cbn [ok_or].
  destruct (_ && negb (bool_decide _)) eqn:Esp; [done|].
  destruct (_ && negb (validate_optional_trailing_comment _)) eqn:Etc; [done|].
  destruct (from_utf8 _); [|done]. cbn [ok_or].
  destruct (message_id_from_borrowed (take (o + 1) rest)) as [m|] eqn:Em; [|done].
  intros _. apply message_id_from_borrowed_Ok in Em as [_ Hm].
  exists (take (o + 1) rest), (drop (o + 1) rest). rewrite take_drop. do 2 (split; [done|]).
  destruct (o + 1 <? length rest)%nat eqn:El.
  - by apply negb_false_iff in Etc.
  - apply Nat.ltb_ge in El. by rewrite drop_ge.
Qed.

(** The same two facts for the streaming parser of the initial line. *)
Lemma article_arguments_valid_field base o arguments number m r :
  find_byte SP arguments = Some o ->
  parse_response_article_number (take o arguments) = Some number ->
  drop (S o) arguments = m ++ r ->
  message_id_shape m -> validate_optional_trailing_comment r = true ->
  article_arguments base arguments =
  Some (Build_ResponseInitialArticle number
          (Build_ResponseInitialRange (base + S o) (base + S o + length m))).
Proof.
  intros Ho Hn Hd Hm Hr. unfold article_arguments. rewrite Ho. cbn [mbind option_bind].
  rewrite Hn. cbn [mbind option_bind]. rewrite Hd.
  destruct (message_id_extent m r Hm (trailing_comment_head r Hr)) as (_ & -> & _).
  rewrite take_app_length, drop_app_length, Hr.
  pose proof (message_id_utf8 m Hm) as Hu. destruct (from_utf8 m); [|done].
  cbn [mbind option_bind]. by rewrite (proj2 (message_id_from_borrowed_Ok m m)).
Qed.

Lemma article_arguments_Some base arguments a :
  article_arguments base arguments = Some a ->
  exists o number m r, find_byte SP arguments = Some o
    /\ parse_response_article_number (take o arguments) = Some number
    /\ drop (S o) arguments = m ++ r
    /\ message_id_shape m /\ validate_optional_trailing_comment r = true.
Proof.
  unfold article_arguments. destruct (find_byte SP arguments) as [o|] eqn:Eo; [|done].
  cbn [mbind option_bind].
  destruct (parse_response_article_number (take o arguments)) as [n|] eqn:En; [|done].
  cbn [mbind option_bind].
  set (rest := drop (S o) arguments). set (len := default (length rest) (find_byte SP rest)).
  destruct (from_utf8 (take len rest)); [|done]. cbn [mbind option_bind].
  destruct (message_id_from_borrowed (take len rest)) as [m|] eqn:Em; [|done].
  destruct (negb (validate_optional_trailing_comment (drop len rest))) eqn:Et; [done|].
  intros _. apply negb_false_iff in Et. apply message_id_from_borrowed_Ok in Em as [_ Hm].
  exists o, n, (take len rest), (drop len rest). by rewrite take_drop.
Qed.
(** The article's reading of a first line, in terms of the streaming parser's. *)
Lemma parse_first_line_Some d0 d1 d2 arguments a :
  no_space [d0; d1; d2] -> article_arguments 4 arguments = Some a ->
  let range := ria_message_id a in
  parse_first_line ([d0; d1; d2; SP] ++ arguments) =
  Ok (Build_ParsedFirstLine
        (slice ([d0; d1; d2; SP] ++ arguments) (rir_start range) (rir_end range))
        (Build_ArticleFrameRange (rir_start range) (rir_end range))
        (Some (ria_article_number a))).
Proof.
  intros Hd Ea. destruct (article_arguments_Some _ _ _ Ea) as (o & n & m & r & Ho & Hn & Hr & Hm & Ht).
  rewrite (article_arguments_valid_field 4 o arguments n m r) in Ea by done.
  injection Ea as <-. cbn [ria_article_number ria_message_id rir_start rir_end].
  rewrite (parse_first_line_split _ _ _ _ o), article_number_agrees, Hn, Hr by done.
  cbn [ok_or]. rewrite message_id_field_valid by done. repeat f_equal.
  transitivity (take (length m) (drop (S o) arguments)); [by rewrite Hr, take_app_length|].
  unfold slice. f_equal. lia.
Qed.

Lemma parse_first_line_None d0 d1 d2 arguments :
  no_space [d0; d1; d2] -> article_arguments 4 arguments = None ->
  is_ok (parse_first_line ([d0; d1; d2; SP] ++ arguments)) = false.
Proof.
  intros Hd Ea. destruct (find_byte SP arguments) as [o|] eqn:Eo.
  - rewrite (parse_first_line_split _ _ _ _ o), article_number_agrees by done.
    destruct (parse_response_article_number (take o arguments)) as [n|] eqn:En; [|done].
    cbn [ok_or]. destruct (message_id_field _ _ _) as [p|] eqn:Ef; [|done].
    apply message_id_field_Ok in Ef as (m & r & Hr & Hm & Ht).
    rewrite (article_arguments_valid_field 4 o arguments n m r) in Ea by done. done.
  - unfold parse_first_line.
    change ([d0; d1; d2; SP] ++ arguments) with ([d0; d1; d2] ++ SP :: arguments).
    rewrite find_space_app by done. cbn [ok_or length Nat.eqb negb].
    change (drop (3 + 1) ([d0; d1; d2] ++ SP :: arguments)) with arguments. by rewrite Eo.
Qed.
End first_line.

Section first_line_properties.
Context `{Mc : !Memchr, Ms : !MemchrSpec}.

(** The article parser, which finds the end of the message-id by its closing
    bracket, and the streaming parser, which finds it by the next space, read
    the same number, the same message-id and the same range from every status
    line, and reject the same lines. *)
Theorem first_line_parsers_agree (d0 d1 d2 : Z) (arguments : bytes) :
  no_space [d0; d1; d2] ->
  match parse_response_initial_article ([d0; d1; d2; SP] ++ arguments ++ CRLF) with
  | Some a =>
      let message_id := slice ([d0; d1; d2; SP] ++ arguments)
                          (rir_start (ria_message_id a)) (rir_end (ria_message_id a)) in
      parse_first_line ([d0; d1; d2; SP] ++ arguments) =
      Ok (Build_ParsedFirstLine message_id
            (Build_ArticleFrameRange (rir_start (ria_message_id a)) (rir_end (ria_message_id a)))
            (Some (ria_article_number a)))
  | None => is_ok (parse_first_line ([d0; d1; d2; SP] ++ arguments)) = false
  end.
Proof.
  intros Hd. rewrite article_line_arguments. destruct (article_arguments 4 arguments) eqn:Ea.
  - by apply parse_first_line_Some.
  - by apply parse_first_line_None.
Qed.
End first_line_properties.

Lemma first_line_parsers_agree_witness :
  is_ok (parse_first_line (lit "220 7 <a@b> trailing")) = true.
Proof.
  pose proof (first_line_parsers_agree 50 50 48 (lit "7 <a@b> trailing")
                ltac:(repeat constructor)) as H.
  exact (f_equal is_ok H).
Defined.
