(* ===== verification/ArticleHeaders.v ===== *)
(** * Article headers ([src/src/protocol/article.rs])

    What the byte loops over a header block mean line by line: the validator,
    the unfolding of continuation lines, header lookup and iteration, and the
    layout of a whole article. *)
From S2P Require Import Prelude Utf8 Decimal Memchr Terminator Args Kinds RequestLine.
From S2P Require Import ResponseLine ResponseContent ResponseBody Article.

Local Open Scope Z_scope.
Local Open Scope rust_scope.

(** ** Header blocks as lines *)

(** A continuation line starts with a space or a tab. *)
Definition is_fold_line (l : bytes) : bool :=
  match l with b :: _ => is_fold_ws b | [] => false end.

Section lines.
Context `{Mc : !Memchr, Ms : !MemchrSpec}.

(** One line of a valid block; [next] is the line after it. *)
Definition header_line_ok (l next : bytes) : bool :=
  match l with
  | [] => true
  | b :: _ =>
      if is_fold_ws b then negb (forallb is_fold_ws l) && negb (existsb (Z.eqb 0) l)
      else
        match find_byte COLON l with
        | None => false
        | Some colon =>
            negb (colon =? 0)%nat && forallb header_name_valid_byte (take colon l)
            && (if (colon + 1 =? length l)%nat then starts_with next (lit " ")
                else bool_decide (l !! (colon + 1)%nat = Some SP)
                     && negb (existsb (Z.eqb 0) (drop (colon + 2) l)))
        end
  end.

Fixpoint header_lines_ok (lines : list bytes) : bool :=
  match lines with
  | [] => true
  | l :: ls => header_line_ok l (default [] (head ls)) && header_lines_ok ls
  end.

(** A line that starts a header: neither empty nor a continuation. *)
Definition is_header_line (l : bytes) : bool :=
  negb (length l =? 0)%nat && negb (is_fold_line l).

(** The name and value pairs of a block. *)
Fixpoint line_headers (lines : list bytes) : list (bytes * bytes) :=
  match lines with
  | [] => []
  | l :: ls =>
      if is_header_line l then
        match find_byte COLON l with
        | None => []
        | Some colon => (take colon l, skip_fold_ws (drop (colon + 1) l)) :: line_headers ls
        end
      else line_headers ls
  end.

(** ** The validator *)

(** A rejected line: the loop fails and the line's test is false. *)
Ltac line_rejected :=
  split; [done | intros (Hx & _); cbn [negb andb] in Hx; discriminate Hx].

Lemma next_line_space ls rest :
  rest = join_crlf ls ->
  bool_decide (rest !! 0%nat = Some SP) = starts_with (default [] (head ls)) (lit " ").
Proof.
  intros ->. destruct ls as [|[|b l] ls]; cbn [default from_option head id]; [done..|].
  destruct (Z.eqb_spec b SP) as [->|Hb].
  - by rewrite bool_decide_eq_true_2.
  - assert (starts_with (b :: l) (lit " ") = false) as -> by exact (starts_with_differ b 32 l [] Hb).
    apply bool_decide_eq_false_2. intros [= ?]. done.
Qed.

Definition unfold_if (b : bool) (t : HeaderTransformation) : HeaderTransformation :=
  if b then HeaderUnfold else t.

Lemma is_header_line_cons b l : is_header_line (b :: l) = negb (is_fold_ws b).
Proof. done. Qed.

(** The loop on a block of complete lines, [pos] bytes in. *)
Lemma validate_headers_lines fuel data pos has t lines r :
  Forall (Forall plain) lines -> drop pos data = join_crlf lines ->
  (pos <= length data)%nat -> (length data - pos < fuel)%nat ->
  validate_headers_loop fuel data pos has t = Ok r <->
  header_lines_ok lines = true
  /\ (pos = 0%nat -> is_fold_line (default [] (head lines)) = false)
  /\ has || existsb is_header_line lines = true
  /\ r = unfold_if (existsb is_fold_line lines) t.
Proof.
  intros Hp. revert fuel pos has t. induction Hp as [|l ls Hl Hls IH]; intros fuel pos has t Hd Hb Hf;
    (destruct fuel as [|fuel]; [lia|]); cbn [validate_headers_loop].
  { apply (f_equal length) in Hd as Hlen. rewrite length_drop in Hlen. cbn in Hlen.
    rewrite (proj2 (Nat.ltb_ge _ _)) by lia. cbn [existsb header_lines_ok head default from_option].
    rewrite orb_false_r. destruct has; (split; [intros Hr; try discriminate; by injection Hr as <-|]);
      intros (? & _ & ? & ->); done. }
  rewrite join_crlf_cons in Hd. destruct (slice_line _ _ _ _ Hd) as (Hs & Hpost & _ & Hle).
  change (length CRLF) with 2%nat in *.
  rewrite (proj2 (Nat.ltb_lt _ _)) by lia. rewrite (strict_line_at _ _ _ _ Hd Hl). cbn [ok_or].
  rewrite Hs. specialize (IH fuel (pos + length l + 2)%nat).
  assert (forall has' t', validate_headers_loop fuel data (pos + length l + 2) has' t' = Ok r <->
            header_lines_ok ls = true /\ has' || existsb is_header_line ls = true
            /\ r = unfold_if (existsb is_fold_line ls) t') as Hrec.
  { intros has' t'. rewrite IH by (done || lia). split; [intros (? & _ & ? & ?) | intros (? & ? & ?)];
      split_and!; try done. lia. }
  clear IH. cbn [header_lines_ok existsb default from_option head].
  destruct l as [|b l].
  { rewrite Hrec. cbn [header_line_ok is_header_line is_fold_line length Nat.eqb negb andb orb].
    tauto. }
  rewrite is_header_line_cons. cbn [is_fold_line header_line_ok id].
  destruct (is_fold_ws b) eqn:Eb; cbn [negb orb].
  - destruct (Nat.eqb_spec pos 0) as [->|Hpos]; [split; [done|intros (_ & H0 & _); by specialize (H0 eq_refl)]|].
    destruct (forallb is_fold_ws (b :: l)); [line_rejected|]. cbn [negb andb].
    destruct (existsb (Z.eqb 0) (b :: l)); [line_rejected|]. cbn [negb andb]. rewrite Hrec.
    unfold unfold_if. split; [intros (?&?&?)|intros (?&_&?&?)]; split_and!; try done.
    all: by destruct (existsb is_fold_line ls).
  - destruct (find_byte COLON (b :: l)) as [colon|]; [|line_rejected]. cbn [ok_or].
    assert (colon = 0 \/ 0 < colon)%nat as [->|Hc] by lia; [line_rejected|].
    rewrite length_take. destruct (Nat.min colon (length (b :: l)) =? 0)%nat eqn:E0.
    { apply Nat.eqb_eq in E0. cbn [length] in E0. lia. }
    replace (colon =? 0)%nat with false by (symmetry; apply Nat.eqb_neq; lia). cbn [negb andb].
    destruct (forallb header_name_valid_byte (take colon (b :: l))); [|line_rejected]. cbn [negb andb].
    rewrite orb_true_r.
    assert (bool_decide (data !! (pos + length (b :: l) + 2)%nat = Some SP)
            = starts_with (default [] (head ls)) (lit " ")) as Hnext.
    { rewrite <- (next_line_space ls (drop (pos + length (b :: l) + 2) data)) by done.
      rewrite lookup_drop, Nat.add_0_r. done. }
    destruct (colon + 1 =? length (b :: l))%nat.
    + rewrite Hnext. destruct (starts_with _ _); [|line_rejected]. rewrite Hrec. tauto.
    + destruct (bool_decide ((b :: l) !! (colon + 1)%nat = Some SP)); [|line_rejected]. cbn [negb andb].
      destruct (existsb (Z.eqb 0) _); [line_rejected|]. cbn [negb andb]. rewrite Hrec. tauto.
Qed.

(** What the loop accepts is made of complete lines. *)
Lemma validate_headers_complete fuel data pos has t r :
  (pos <= length data)%nat -> validate_headers_loop fuel data pos has t = Ok r ->
  exists lines, drop pos data = join_crlf lines /\ Forall (Forall plain) lines.
Proof.
  revert pos has t. induction fuel as [|fuel IH]; intros pos has t Hp; [done|].
  cbn [validate_headers_loop]. destruct (pos <? length data)%nat eqn:E.
  2: { intros _. apply Nat.ltb_ge in E. exists []. by rewrite drop_ge. }
  destruct (strict_crlf_line_content_end_from data pos) as [e|] eqn:Ee; [|done]. cbn [ok_or].
  apply strict_line_end_spec in Ee as (l & post & Hd & Hl & ->); [|done].
  destruct (slice_line _ _ _ _ Hd) as (-> & Hpost & _ & Hle). change (length CRLF) with 2%nat in *.
  assert (forall has' t', validate_headers_loop fuel data (pos + length l + 2) has' t' = Ok r ->
            exists lines, drop pos data = join_crlf lines /\ Forall (Forall plain) lines) as Hrec.
  { intros has' t' (lines & Hj & Hf)%IH; [|lia]. exists (l :: lines).
    split; [|by constructor]. rewrite join_crlf_cons, <- Hj, Hpost. done. }
  clear IH. destruct l as [|b l]; [by apply Hrec|].
  destruct (is_fold_ws b).
  - destruct (pos =? 0)%nat; [done|]. destruct (forallb _ _); [done|].
    destruct (existsb _ _); [done|]. by apply Hrec.
  - destruct (find_byte COLON (b :: l)) as [c|]; [|done]. cbn [ok_or].
    destruct (_ =? 0)%nat; [done|]. destruct (negb _); [done|].
    destruct (_ =? length _)%nat.
    + destruct (bool_decide _); [by apply Hrec | done].
    + destruct (negb _); [done|]. destruct (existsb _ _); [done|]. by apply Hrec.
Qed.

Lemma validate_headers_spec data t :
  validate_headers data = Ok t <->
  exists lines, data = join_crlf lines /\ Forall (Forall plain) lines
    /\ header_lines_ok lines = true
    /\ is_fold_line (default [] (head lines)) = false
    /\ existsb is_header_line lines = true
    /\ t = unfold_if (existsb is_fold_line lines) HeaderNone.
Proof.
  unfold validate_headers. split.
  - intros Hv. pose proof Hv as (lines & Hd & Hp)%validate_headers_complete; [|lia].
    apply (validate_headers_lines _ _ _ _ _ lines t Hp Hd) in Hv as Hs; [|lia..].
    rewrite drop_0 in Hd. exists lines. destruct Hs as (H1 & H2 & H3 & H4).
    split_and!; try done. by apply H2.
  - intros (lines & -> & Hp & H1 & H2 & H3 & ->).
    apply (validate_headers_lines _ _ _ _ _ lines); [done|by rewrite drop_0|lia..|done].
Qed.

(** ** Unfolding *)

(** The continuation text of the lines that follow, and the unfolded lines
    after it. *)
Fixpoint unfold_parts (lines : list bytes) : bytes * list bytes :=
  match lines with
  | [] => ([], [])
  | l :: ls =>
      let (tail, rest) := unfold_parts ls in
      if is_fold_line l then (SP :: skip_fold_ws l ++ tail, rest)
      else ([], (l ++ tail) :: rest)
  end.

(** A header block with each continuation line joined to its header. *)
Definition unfold_lines (lines : list bytes) : list bytes := snd (unfold_parts lines).

(** Inside a line the loop copies, after skipping white space when it must. *)
Lemma unfold_loop_copy l rest :
  Forall plain l ->
  unfold_loop false (l ++ CRLF ++ rest) = l ++ unfold_loop false (CRLF ++ rest)
  /\ unfold_loop true (l ++ CRLF ++ rest) = skip_fold_ws l ++ unfold_loop false (CRLF ++ rest).
Proof.
  induction 1 as [|b l [Hb _] _ [IHf IHt]]; [done|]. apply Z.eqb_neq in Hb.
  assert (unfold_loop false ((b :: l) ++ CRLF ++ rest) = b :: l ++ unfold_loop false (CRLF ++ rest))
    as Hf.
  { cbn [app unfold_loop andb]. rewrite Hb, <- IHf. by destruct (l ++ CRLF ++ rest) as [|? [|]]. }
  split; [done|]. cbn [skip_fold_ws]. destruct (is_fold_ws b) eqn:Ew.
  - cbn [app unfold_loop]. rewrite Ew. done.
  - etransitivity; [|exact Hf]. cbn [app unfold_loop]. by rewrite Ew.
Qed.

Lemma unfold_loop_lf x : unfold_loop false (LF :: x) = LF :: unfold_loop false x.
Proof. by destruct x as [|? [|]]. Qed.

(** At a line end the loop joins the continuation lines that follow. *)
Lemma unfold_loop_end lines :
  Forall (Forall plain) lines ->
  unfold_loop false (CRLF ++ join_crlf lines)
  = fst (unfold_parts lines) ++ CRLF ++ join_crlf (unfold_lines lines).
Proof.
  unfold unfold_lines. induction 1 as [|k ls Hk _ IH]; [done|]. cbn [unfold_parts].
  destruct (unfold_parts ls) as [tail rest]. cbn [fst snd] in IH. rewrite join_crlf_cons.
  destruct k as [|b k].
  - cbn [is_fold_line fst snd app]. rewrite join_crlf_cons, <- IH. done.
  - cbn [is_fold_line]. destruct (is_fold_ws b) eqn:Eb; cbn [fst snd].
    + transitivity (SP :: unfold_loop true (k ++ CRLF ++ join_crlf ls)).
      { cbn [app CRLF unfold_loop andb]. rewrite Eb. done. }
      apply Forall_cons_1 in Hk as [_ Hk].
      rewrite (proj2 (unfold_loop_copy k _ Hk)), IH. cbn [skip_fold_ws app]. rewrite Eb.
      by rewrite <- app_assoc.
    + transitivity (CRLF ++ unfold_loop false ((b :: k) ++ CRLF ++ join_crlf ls)).
      { transitivity (CR :: unfold_loop false (LF :: (b :: k) ++ CRLF ++ join_crlf ls)).
        - change (CRLF ++ (b :: k) ++ CRLF ++ join_crlf ls)
            with (CR :: LF :: b :: k ++ CRLF ++ join_crlf ls).
          cbn [unfold_loop andb]. rewrite Eb. done.
        - by rewrite unfold_loop_lf. }
      rewrite (proj1 (unfold_loop_copy (b :: k) _ Hk)), IH, join_crlf_cons.
      cbn [app]. by rewrite <- !app_assoc.
Qed.

Lemma unfold_join lines :
  Forall (Forall plain) lines -> is_fold_line (default [] (head lines)) = false ->
  unfold_header_continuations (join_crlf lines) = join_crlf (unfold_lines lines).
Proof.
  intros [|l ls Hl Hls] Hf; [done|]. cbn [default from_option head id] in Hf.
  unfold unfold_header_continuations. rewrite join_crlf_cons.
  rewrite (proj1 (unfold_loop_copy l _ Hl)), unfold_loop_end by done.
  unfold unfold_lines. cbn [unfold_parts]. destruct (unfold_parts ls) as [tail rest].
  rewrite Hf. cbn [fst snd]. by rewrite join_crlf_cons, <- app_assoc.
Qed.

Lemma unfold_lines_id lines :
  existsb is_fold_line lines = false -> unfold_parts lines = ([], lines).
Proof.
  induction lines as [|l ls IH]; [done|]. cbn [existsb unfold_parts].
  intros [Hl Hls]%orb_false_iff. rewrite IH, Hl, app_nil_r by done. done.
Qed.

(** ** Lookup and iteration *)

Lemma header_next_lines fuel data pos lines :
  Forall (Forall plain) lines -> drop pos data = join_crlf lines ->
  (pos <= length data)%nat -> (length data - pos < fuel)%nat ->
  match header_next fuel data pos with
  | None => line_headers lines = []
  | Some (name, value, pos') =>
      exists ls, line_headers lines = (name, value) :: line_headers ls
        /\ drop pos' data = join_crlf ls /\ Forall (Forall plain) ls
        /\ (pos < pos' <= length data)%nat
  end.
Proof.
  intros Hp. revert fuel pos. induction Hp as [|l ls Hl Hls IH]; intros fuel pos Hd Hb Hf;
    (destruct fuel as [|fuel]; [lia|]); cbn [header_next].
  { apply (f_equal length) in Hd as Hlen. rewrite length_drop in Hlen. cbn in Hlen.
    by rewrite (proj2 (Nat.ltb_ge _ _)) by lia. }
  rewrite join_crlf_cons in Hd. destruct (slice_line _ _ _ _ Hd) as (Hs & Hpost & _ & Hle).
  change (length CRLF) with 2%nat in *.
  rewrite (proj2 (Nat.ltb_lt _ _)) by lia. rewrite (strict_line_at _ _ _ _ Hd Hl).
  cbn [mbind option_bind]. rewrite Hs. cbn [line_headers].
  specialize (IH fuel (pos + length l + 2)%nat Hpost Hle ltac:(lia)).
  assert (match header_next fuel data (pos + length l + 2) with
          | None => line_headers ls = []
          | Some (name, value, pos') =>
              exists ls', line_headers ls = (name, value) :: line_headers ls'
                /\ drop pos' data = join_crlf ls' /\ Forall (Forall plain) ls'
                /\ (pos < pos' <= length data)%nat
          end) as Hrec.
  { destruct (header_next fuel data (pos + length l + 2)) as [[[n v] pos']|]; [|done].
    destruct IH as (ls' & ? & ? & ? & ?). exists ls'. split_and!; try done; lia. }
  destruct l as [|b l]; [exact Hrec|]. rewrite is_header_line_cons.
  destruct (is_fold_ws b); [exact Hrec|]. cbn [negb].
  destruct (find_byte COLON (b :: l)) as [c|]; [|done]. cbn [mbind option_bind].
  exists ls. split_and!; try done; lia.
Qed.

Lemma header_iter_lines fuel data pos lines :
  Forall (Forall plain) lines -> drop pos data = join_crlf lines ->
  (pos <= length data)%nat -> (length data - pos < fuel)%nat ->
  header_iter fuel data pos = line_headers lines.
Proof.
  revert pos lines. induction fuel as [|fuel IH]; intros pos lines Hp Hd Hb Hf; [lia|].
  cbn [header_iter].
  pose proof (header_next_lines (S (length data)) data pos lines Hp Hd Hb ltac:(lia)) as Hn.
  destruct (header_next _ data pos) as [[[n v] pos']|]; [|done].
  destruct Hn as (ls & -> & Hd' & Hp' & Hpos). f_equal. apply IH; [done|done|lia..].
Qed.

Definition first_named (name : bytes) (headers : list (bytes * bytes)) : option bytes :=
  snd <$> List.find (fun h => eq_ignore_ascii_case (fst h) name) headers.

Lemma headers_get_lines fuel data pos lines name :
  Forall (Forall plain) lines -> drop pos data = join_crlf lines ->
  (pos <= length data)%nat -> (length data - pos < fuel)%nat ->
  headers_get fuel data pos name = first_named name (line_headers lines).
Proof.
  intros Hp. revert fuel pos. induction Hp as [|l ls Hl Hls IH]; intros fuel pos Hd Hb Hf;
    (destruct fuel as [|fuel]; [lia|]); cbn [headers_get].
  { apply (f_equal length) in Hd as Hlen. rewrite length_drop in Hlen. cbn in Hlen.
    by rewrite (proj2 (Nat.ltb_ge _ _)) by lia. }
  rewrite join_crlf_cons in Hd. destruct (slice_line _ _ _ _ Hd) as (Hs & Hpost & _ & Hle).
  change (length CRLF) with 2%nat in *.
  rewrite (proj2 (Nat.ltb_lt _ _)) by lia. rewrite (strict_line_at _ _ _ _ Hd Hl).
  cbn [mbind option_bind]. rewrite Hs. cbn [line_headers].
  rewrite !(IH fuel (pos + length l + 2)%nat) by (done || lia).
  destruct l as [|b l]; [done|]. rewrite is_header_line_cons.
  destruct (is_fold_ws b); [done|]. cbn [negb].
  destruct (find_byte COLON (b :: l)) as [c|]; [|done]. cbn [mbind option_bind].
  unfold first_named. cbn [List.find fst]. by destruct (eq_ignore_ascii_case _ name).
Qed.

(** ** Unfolding keeps the headers *)

Lemma unfold_tail_head lines :
  fst (unfold_parts lines) = [] \/ exists t, fst (unfold_parts lines) = SP :: t.
Proof.
  destruct lines as [|l ls]; [by left|]. cbn [unfold_parts].
  destruct (unfold_parts ls) as [tail rest]. destruct (is_fold_line l); [right|by left]. eauto.
Qed.

Lemma find_byte_app b l k i : find_byte b l = Some i -> find_byte b (l ++ k) = Some i.
Proof.
  rewrite !find_byte_position. intros (l1 & x & l2 & -> & <- & Hx & Hl)%position_Some.
  rewrite <- app_assoc. by apply position_app_here.
Qed.

Lemma find_byte_lt b l i : find_byte b l = Some i -> (i < length l)%nat.
Proof. rewrite find_byte_position. apply position_lt. Qed.

Lemma header_line_colon l next :
  header_line_ok l next = true -> is_header_line l = true -> is_Some (find_byte COLON l).
Proof.
  destruct l as [|b l]; [done|]. rewrite is_header_line_cons. cbn [header_line_ok].
  destruct (is_fold_ws b); [done|]. by destruct (find_byte COLON (b :: l)).
Qed.

Lemma unfold_keeps_names lines :
  header_lines_ok lines = true ->
  fst <$> line_headers (unfold_lines lines) = fst <$> line_headers lines
  /\ length (line_headers lines) = length (filter is_header_line lines).
Proof.
  unfold unfold_lines. induction lines as [|l ls IH]; [done|]. cbn [header_lines_ok].
  intros [Hl [IHn IHl]%IH]%andb_true_iff. cbn [unfold_parts line_headers].
  pose proof (unfold_tail_head ls) as Ht.
  destruct (unfold_parts ls) as [tail rest]. cbn [fst snd] in *.
  destruct (is_header_line l) eqn:Eh.
  - rewrite filter_cons_True by by rewrite Eh.
    destruct (header_line_colon _ _ Hl Eh) as [c Hc]. rewrite Hc.
    assert (is_fold_line l = false) as ->
      by (unfold is_header_line in Eh; by apply andb_true_iff in Eh as [_ ->%negb_true_iff]).
    cbn [snd line_headers fmap list_fmap length fst].
    assert (is_header_line (l ++ tail) = true) as -> by by destruct l.
    rewrite (find_byte_app _ _ tail _ Hc). cbn [fmap list_fmap fst]. split; [|by f_equal].
    apply find_byte_lt in Hc. rewrite take_app_le by lia. f_equal. exact IHn.
  - rewrite filter_cons_False by (rewrite Eh; by intros []).
    split; [|done]. destruct (is_fold_line l) eqn:Ef; [done|]. cbn [snd line_headers].
    assert (l = []) as ->.
    { destruct l; [done|]. unfold is_header_line in Eh. by rewrite Ef in Eh. }
    assert (is_header_line ([] ++ tail) = false) as ->; [|done].
    destruct Ht as [->|[t ->]]; done.
Qed.
Lemma skip_fold_ws_plain l : Forall plain l -> Forall plain (skip_fold_ws l).
Proof.
  induction 1 as [|b l Hb Hl IH]; [done|]. cbn [skip_fold_ws].
  destruct (is_fold_ws b); [done|by constructor].
Qed.

Lemma unfold_parts_plain lines :
  Forall (Forall plain) lines ->
  Forall plain (fst (unfold_parts lines)) /\ Forall (Forall plain) (snd (unfold_parts lines)).
Proof.
  induction 1 as [|l ls Hl _ IH]; [done|]. cbn [unfold_parts].
  destruct (unfold_parts ls) as [tail rest]. cbn [fst snd] in IH. destruct IH as [Ht Hr].
  destruct (is_fold_line l); cbn [fst snd]; (split; [|try done]).
  - constructor; [by split|]. apply Forall_app. split; [by apply skip_fold_ws_plain | done].
  - done.
  - constructor; [|done]. by apply Forall_app.
Qed.

Lemma iter_lines lines :
  Forall (Forall plain) lines -> iter (join_crlf lines) = line_headers lines.
Proof. intros Hp. apply header_iter_lines; [done|by rewrite drop_0|lia..]. Qed.

Lemma get_lines lines name :
  Forall (Forall plain) lines ->
  get (join_crlf lines) name = first_named name (line_headers lines).
Proof. intros Hp. apply headers_get_lines; [done|by rewrite drop_0|lia..]. Qed.

Lemma headers_parse_lines data shown :
  headers_parse data = Ok shown ->
  exists lines, data = join_crlf lines /\ Forall (Forall plain) lines
    /\ header_lines_ok lines = true /\ shown = join_crlf (unfold_lines lines).
Proof.
  unfold headers_parse. destruct (validate_headers data) as [t|] eqn:Ev; [|done].
  apply validate_headers_spec in Ev as (lines & -> & Hp & Hok & Hf & _ & ->).
  intros [= <-]. exists lines. do 3 (split; [done|]).
  destruct (existsb is_fold_line lines) eqn:E; cbn [unfold_if].
  - by apply unfold_join.
  - unfold unfold_lines. by rewrite unfold_lines_id.
Qed.
End lines.

Section properties.
Context `{Mc : !Memchr, Ms : !MemchrSpec}.

(** A header block is accepted exactly when it is made of complete lines, the
    first not a continuation and at least one starting a header, where each
    header has a non-empty name of printable bytes, a colon and a space (or,
    after a bare colon, a continuation line that starts with a space), each
    continuation has text, and no byte is NUL; the block is marked for
    unfolding exactly when it has a continuation. *)
Theorem header_block_accepted (data : bytes) (t : HeaderTransformation) :
  validate_headers data = Ok t <->
  exists lines, data = join_crlf lines /\ Forall (Forall plain) lines
    /\ header_lines_ok lines = true
    /\ is_fold_line (default [] (head lines)) = false
    /\ existsb is_header_line lines = true
    /\ t = if existsb is_fold_line lines then HeaderUnfold else HeaderNone.
Proof. exact (validate_headers_spec data t). Qed.

(** C35: parsing a header block joins each continuation line to its header and
    changes nothing else: the headers read from the parsed block have the names
    of the received one in the same order, one per header line received, and
    lookup returns the first header of that name in iteration order. *)
Theorem parsed_headers_unfolded (data shown : bytes) :
  headers_parse data = Ok shown ->
  exists lines, data = join_crlf lines /\ Forall (Forall plain) lines
    /\ shown = join_crlf (unfold_lines lines)
    /\ iter shown = line_headers (unfold_lines lines)
    /\ fst <$> iter shown = fst <$> iter data
    /\ length (iter data) = length (filter is_header_line lines)
    /\ forall name, get shown name = first_named name (iter shown).
Proof.
  intros (lines & -> & Hp & Hok & ->)%headers_parse_lines. exists lines.
  assert (Forall (Forall plain) (unfold_lines lines)) as Hu by by apply unfold_parts_plain.
  destruct (unfold_keeps_names lines Hok) as [Hn Hc].
  rewrite !iter_lines by done. split_and!; try done. intros name. by rewrite get_lines.
Qed.

(** ** Layouts *)

Lemma from_known_inv buf cs ce sle framed :
  from_known_content_bounds buf cs ce sle = Ok framed ->
  fa_buffer framed = buf /\ fa_content framed = Build_ArticleFrameRange cs ce
  /\ fa_first_line framed = Build_ArticleFrameRange 0 (cs - 2)
  /\ (2 <= cs <= ce)%nat /\ (ce <= length buf)%nat /\ slice buf (cs - 2) cs = CRLF.
Proof.
  unfold from_known_content_bounds, first_line_end_of, range_new, get_range.
  change (length CRLF) with 2%nat.
  destruct (_ || _) eqn:E1; [done|]. apply orb_false_iff in E1 as [E1%Nat.ltb_ge E2%Nat.ltb_ge].
  destruct (sle <? 2)%nat eqn:E3; [done|]. apply Nat.ltb_ge in E3. cbn [Nat.leb].
  destruct (negb (sle - 2 + 2 =? cs)%nat || _) eqn:E4; [done|].
  apply orb_false_iff in E4 as [E4%negb_false_iff%Nat.eqb_eq E5].
  assert (sle = cs) as -> by lia.
  rewrite (proj2 (Nat.leb_le cs ce)) by lia. intros [= <-].
  cbn [fa_buffer fa_content fa_first_line]. split_and!; try done; try lia.
  apply negb_false_iff, bool_decide_eq_true in E5.
  destruct (_ && _); [by injection E5|done].
Qed.

Lemma range_slice_Ok r buf d : range_slice r buf = Ok d -> d = validated_slice r buf.
Proof.
  unfold range_slice, get_range, validated_slice. destruct (_ && _); [|done].
  by intros [= <-].
Qed.

(** What a layout promises of the content it covers. *)
Definition layout_describes (buf content : bytes) (status : Z) (c : ValidatedArticleContent) : Prop :=
  match c with
  | ContentArticle headers ht body bt =>
      status = 220
      /\ content = validated_slice headers buf ++ CRLF ++ validated_slice body buf
      /\ find_sub (CRLF ++ CRLF) (validated_slice headers buf) = None
      /\ validate_headers (validated_slice headers buf) = Ok ht
      /\ validate_body_content (validated_slice body buf) = Ok bt
  | ContentHead headers ht =>
      status = 221 /\ content = validated_slice headers buf
      /\ find_sub (CRLF ++ CRLF) content = None /\ validate_headers content = Ok ht
  | ContentBody body bt =>
      status = 222 /\ content = validated_slice body buf /\ validate_body_content content = Ok bt
  | ContentStat _ => status = 223 /\ content = []
  end.

Lemma slice_slice (buf : bytes) cs ce a b :
  (cs <= a)%nat -> (b <= ce)%nat ->
  slice buf a b = slice (slice buf cs ce) (a - cs) (b - cs).
Proof.
  intros Ha Hb. unfold slice. rewrite skipn_firstn_comm, drop_drop, take_take.
  replace (cs + (a - cs))%nat with a by lia. f_equal. lia.
Qed.

Lemma crlf_crlf_ne : CRLF ++ CRLF <> [].
Proof. done. Qed.

(** A content cut at its first blank line. *)
Lemma blank_line_cut (content : bytes) pos :
  find_sub (CRLF ++ CRLF) content = Some pos ->
  content = slice content 0 (pos + 2) ++ CRLF ++ slice content (pos + 4) (length content)
  /\ find_sub (CRLF ++ CRLF) (slice content 0 (pos + 2)) = None
  /\ (pos + 4 <= length content)%nat.
Proof.
  intros Hf. pose proof (find_sub_bound _ _ _ crlf_crlf_ne Hf) as Hb.
  change (length (CRLF ++ CRLF)) with 4%nat in Hb.
  apply find_sub_Some in Hf as [Ho Hmin]. unfold slice. rewrite drop_0, Nat.sub_0_r.
  split; [|split; [|done]].
  - unfold occurs_at in Ho. change (length (CRLF ++ CRLF)) with 4%nat in Ho.
    rewrite (firstn_all2 (drop (pos + 4) content)) by (rewrite length_drop; lia).
    rewrite <- (take_drop (pos + 2) content) at 1. f_equal.
    rewrite <- (take_drop 2 (drop (pos + 2) content)) at 1. rewrite drop_drop.
    replace (pos + 2 + 2)%nat with (pos + 4)%nat by lia. f_equal.
    apply (f_equal (drop 2)) in Ho. rewrite skipn_firstn_comm, drop_drop in Ho. exact Ho.
  - apply find_sub_None. intros j Hj.
    pose proof (occurs_at_bound _ _ _ crlf_crlf_ne Hj) as Hjb.
    change (length (CRLF ++ CRLF)) with 4%nat in Hjb. rewrite length_take in Hjb.
    apply (Hmin j); [lia|]. apply (occurs_at_take _ _ (pos + 2)); [|done].
    change (length (CRLF ++ CRLF)) with 4%nat. lia.
Qed.

Lemma content_prefix_drop buf cs ce framed :
  fa_buffer framed = buf -> fa_content framed = Build_ArticleFrameRange cs ce ->
  (ce <= length buf)%nat ->
  exists prefix, content_prefix framed = Ok prefix /\ drop cs prefix = slice buf cs ce.
Proof.
  intros Hb Hc Hl. unfold content_prefix, get_range. rewrite Hb, Hc. cbn [afr_end Nat.leb andb].
  rewrite (proj2 (Nat.leb_le _ _)) by done. eexists. split; [reflexivity|].
  unfold slice. rewrite drop_0, Nat.sub_0_r. apply skipn_firstn_comm.
Qed.

Lemma article_content_describes buf cs ce framed c :
  fa_buffer framed = buf -> fa_content framed = Build_ArticleFrameRange cs ce ->
  (cs <= ce)%nat -> (ce <= length buf)%nat ->
  validate_article_content framed = Ok c ->
  layout_describes buf (slice buf cs ce) 220 c
  /\ content_range (Build_ArticleLayout (Build_ValidatedFirstLine (Build_ArticleFrameRange 0 0) 0) c)
     = Build_ArticleFrameRange cs ce.
Proof.
  intros Hb Hc Hle Hl. destruct (content_prefix_drop buf cs ce framed Hb Hc Hl) as (prefix & Hp & Hd).
  unfold validate_article_content, find_blank_line. rewrite Hp, Hc. cbn [afr_start afr_end].
  rewrite Hd, memmem_find_sub.
  destruct (find_sub (CRLF ++ CRLF) (slice buf cs ce)) as [pos|] eqn:Ef; [|done].
  destruct (blank_line_cut _ _ Ef) as (Hcut & Hnone & Hpos).
  rewrite length_slice in Hcut, Hpos by done.
  cbn [fmap option_fmap option_map ok_or]. unfold range_new. change (length CRLF) with 2%nat.
  rewrite (proj2 (Nat.leb_le cs _)) by lia. cbn [is_ok].
  destruct (range_slice (Build_ArticleFrameRange cs (cs + pos + 2)) (fa_buffer framed)) as [hd|] eqn:Eh; [|done].
  apply range_slice_Ok in Eh as ->. rewrite Hb.
  destruct (validate_headers _) as [ht|] eqn:Ev; [|done].
  rewrite (proj2 (Nat.ltb_ge _ _)) by lia. rewrite (proj2 (Nat.leb_le _ _)) by lia.
  destruct (range_slice (Build_ArticleFrameRange (cs + pos + 2 + 2) ce) buf) as [bd|] eqn:Eb; [|done].
  apply range_slice_Ok in Eb as ->.
  destruct (validate_body_content _) as [bt|] eqn:Evb; [|done]. intros [= <-].
  split; [|done]. cbn [layout_describes]. split; [done|].
  assert (validated_slice (Build_ArticleFrameRange cs (cs + pos + 2)) buf
          = slice (slice buf cs ce) 0 (pos + 2)) as Hh.
  { unfold validated_slice. cbn [afr_start afr_end].
    rewrite (slice_slice buf cs ce) by lia. f_equal; lia. }
  assert (validated_slice (Build_ArticleFrameRange (cs + pos + 2 + 2) ce) buf
          = slice (slice buf cs ce) (pos + 4) (ce - cs)) as Hbody.
  { unfold validated_slice. cbn [afr_start afr_end].
    rewrite (slice_slice buf cs ce) by lia. f_equal; lia. }
  rewrite Hh, Hbody in *. done.
Qed.

Lemma layout_sound (buf : bytes) (cs ce sle : nat) (status : Z)
    (first_line : ValidatedFirstLine) (framed : FramedArticle) (l : ArticleLayout) :
  from_known_content_bounds buf cs ce sle = Ok framed ->
  validate_for_status_with_first_line framed status first_line = Ok l ->
  (2 <= cs <= ce)%nat /\ (ce <= length buf)%nat
  /\ content_range l = Build_ArticleFrameRange cs ce
  /\ layout_first_line l = first_line
  /\ layout_describes buf (slice buf cs ce) status (layout_content l).
Proof.
  intros (Hb & Hc & _ & Hle & Hl & _)%from_known_inv Hv. split; [lia|]. split; [lia|].
  unfold validate_for_status_with_first_line in Hv.
  destruct (status =? 220) eqn:E220.
  { apply Z.eqb_eq in E220 as ->. destruct (validate_article_content framed) as [c|] eqn:Ec; [|done].
    injection Hv as <-. apply (article_content_describes buf cs ce) in Ec as [H1 H2]; try done; lia. }
  destruct (status =? 221) eqn:E221; [|destruct (status =? 222) eqn:E222; [|destruct (status =? 223) eqn:E223]];
    try discriminate.
  - apply Z.eqb_eq in E221 as ->. unfold validate_head_content in Hv.
    destruct (content_prefix_drop buf cs ce framed Hb Hc ltac:(lia)) as (prefix & Hp & Hd).
    rewrite Hp, Hc in Hv. unfold find_blank_line in Hv. cbn [afr_start] in Hv.
    rewrite Hd, memmem_find_sub in Hv.
    destruct (find_sub (CRLF ++ CRLF) (slice buf cs ce)) as [pos|] eqn:Ef; [done|].
    cbn [fmap option_fmap option_map ok_or] in Hv.
    destruct (range_slice _ _) as [d|] eqn:Ed; [|done]. apply range_slice_Ok in Ed as ->.
    rewrite Hb in Hv. destruct (validate_headers _) as [ht|] eqn:Eh; [|done].
    injection Hv as <-. split; [done|]. split; [done|]. by repeat split.
  - apply Z.eqb_eq in E222 as ->. unfold validate_body_content_of in Hv. rewrite Hb, Hc in Hv.
    destruct (range_slice _ _) as [d|] eqn:Ed; [|done]. apply range_slice_Ok in Ed as ->.
    destruct (validate_body_content _) as [bt|] eqn:Eb; [|done].
    injection Hv as <-. split; [done|]. split; [done|]. by repeat split.
  - apply Z.eqb_eq in E223 as ->. unfold validate_stat_content in Hv. rewrite Hc in Hv.
    cbn [afr_start afr_end] in Hv. destruct (cs =? ce)%nat eqn:E; [|done].
    apply Nat.eqb_eq in E as <-. injection Hv as <-. split; [done|]. split; [done|].
    split; [done|]. unfold slice. by rewrite Nat.sub_diag.
Qed.

(** The layout of a validated article covers its content exactly: headers,
    blank line and body put back together are the received content, the blank
    line is the first one, and the parts were validated as what they are shown
    as; a HEAD response has no body and a STAT response no content. *)
Theorem article_layout_sound (buf : bytes) (cs ce sle : nat) (status : Z)
    (first_line : ValidatedFirstLine) (framed : FramedArticle) (l : ArticleLayout) :
  from_known_content_bounds buf cs ce sle = Ok framed ->
  validate_for_status_with_first_line framed status first_line = Ok l ->
  (2 <= cs <= ce)%nat /\ (ce <= length buf)%nat
  /\ content_range l = Build_ArticleFrameRange cs ce
  /\ layout_first_line l = first_line
  /\ layout_describes buf (slice buf cs ce) status (layout_content l).
Proof. exact (layout_sound buf cs ce sle status first_line framed l). Qed.
End properties.

Definition folded_headers : bytes :=
  lit "A: x" ++ CRLF ++ lit "  y" ++ CRLF ++ lit "B: z" ++ CRLF.

Lemma parsed_headers_unfolded_witness :
  fst <$> iter (lit "A: x y" ++ CRLF ++ lit "B: z" ++ CRLF) = [lit "A"; lit "B"]
  /\ exists lines, folded_headers = join_crlf lines.
Proof.
  assert (headers_parse folded_headers = Ok (lit "A: x y" ++ CRLF ++ lit "B: z" ++ CRLF)) as H0
    by reflexivity.
  destruct (parsed_headers_unfolded _ _ H0) as (lines & H1 & _ & _ & _ & H5 & _).
  split; [|exists lines; exact H1]. rewrite H5. reflexivity.
Defined.

Definition sample_article : bytes :=
  lit "220 1 <a@b>" ++ CRLF ++ lit "A: x" ++ CRLF ++ CRLF ++ lit "hello" ++ CRLF.
Definition sample_first_line : ValidatedFirstLine :=
  Build_ValidatedFirstLine (Build_ArticleFrameRange 6 11) 1.
Definition sample_framed : FramedArticle :=
  Build_FramedArticle sample_article (Build_ArticleFrameRange 0 11) (Build_ArticleFrameRange 13 28).
Definition sample_layout : ArticleLayout :=
  Build_ArticleLayout sample_first_line
    (ContentArticle (Build_ArticleFrameRange 13 19) HeaderNone (Build_ArticleFrameRange 21 28) BodyNone).

Lemma article_layout_sound_witness :
  layout_describes sample_article (slice sample_article 13 28) 220 (layout_content sample_layout).
Proof.
  exact (proj2 (proj2 (proj2 (proj2
    (article_layout_sound sample_article 13 28 13 220 sample_first_line sample_framed sample_layout
       eq_refl eq_refl))))).
Defined.

Lemma header_block_accepted_witness : validate_headers folded_headers = Ok HeaderUnfold.
Proof.
  apply (header_block_accepted folded_headers HeaderUnfold).
  exists [lit "A: x"; lit "  y"; lit "B: z"]. split; [reflexivity|].
  split; [repeat (constructor; [repeat constructor; discriminate|]); constructor|].
  repeat split; reflexivity.
Defined.
