(* ===== verification/ResponseFrame.v ===== *)
(** * Whole response frames ([src/src/protocol.rs], [src/src/protocol/article.rs])

    [ResponseFrame::parse] on a buffer that starts with a response, the
    validation of its content, and [Article::parse], which reuses a complete
    frame and otherwise falls back to the compatibility parser. *)
From S2P Require Import Prelude Utf8 Decimal Memchr Terminator Args Kinds RequestLine.
From S2P Require Import ResponseLine ResponseContent Capabilities ResponseBody Article.
From S2P Require Import ArticleHeaders.

Local Open Scope Z_scope.
Local Open Scope rust_scope.

Inductive ValidatedResponseContent : Type :=
| Generic
| ArticleView (buffer : bytes) (layout : ArticleLayout).

Record ResponseFrame : Type := {
  rf_kind : RequestKind;
  rf_descriptor : ResponseDescriptor;
  rf_bytes : bytes;
  rf_status_line : bytes;
  rf_content : bytes;
  rf_terminator : bytes;
  rf_content_start : nat;
  rf_content_end : nat;
  rf_content_validation : ValidatedResponseContent;
  rf_status : Z;
  rf_consumed : nat;
}.

Module ResponseFrameParse.
Inductive ResponseFrameParse : Type :=
| Complete (frame : ResponseFrame)
| NeedMore
| Invalid.
End ResponseFrameParse.
Abbreviation frame_result := ResponseFrameParse.ResponseFrameParse.

(** [Self { content_validation, ..frame }]. *)
Definition with_validation (frame : ResponseFrame) (v : ValidatedResponseContent) : ResponseFrame :=
  {| rf_kind := rf_kind frame; rf_descriptor := rf_descriptor frame; rf_bytes := rf_bytes frame;
     rf_status_line := rf_status_line frame; rf_content := rf_content frame;
     rf_terminator := rf_terminator frame; rf_content_start := rf_content_start frame;
     rf_content_end := rf_content_end frame; rf_content_validation := v;
     rf_status := rf_status frame; rf_consumed := rf_consumed frame |}.

Section Frame.
Context `{Mc : !Memchr}.
(** [find_streaming_terminator_end], as in [Terminator]. *)
Variable find_end : bytes -> option nat.

(** [Article::validate_response_frame]. *)
Definition validate_response_frame (frame : ResponseFrame)
    : result (bytes * ArticleLayout) ArticleParseError :=
  let? framed := from_known_content_bounds (rf_bytes frame) (rf_content_start frame)
                   (rf_content_end frame) (rf_content_start frame) in
  framed_validate framed.

Definition validate_response_content (frame : ResponseFrame) : option ValidatedResponseContent :=
  if is_article_response (rf_kind frame) (rf_status frame) then
    match validate_response_frame frame with
    | Ok view => Some (ArticleView (fst view) (snd view))
    | Err _ => None
    end
  else if negb (ResponseFraming.is_multiline (framing (rf_descriptor frame))) then Some Generic
  else if validate_non_article_response_content (rf_kind frame) (rf_status_line frame)
            (rf_content frame)
  then Some Generic else None.

Definition frame_parse (kind : RequestKind) (buffer : bytes) : frame_result :=
  let status := StatusCode.parse buffer in
  let status_line_limit := response_initial_line_limit kind status in
  match detect_bounded_response_line_end buffer status_line_limit with
  | BoundedResponseLineStatus.NeedMore => ResponseFrameParse.NeedMore
  | BoundedResponseLineStatus.Invalid | BoundedResponseLineStatus.TooLong =>
      ResponseFrameParse.Invalid
  | BoundedResponseLineStatus.CompleteAt status_line_end =>
      match status with
      | None => ResponseFrameParse.Invalid
      | Some status =>
          if (status_line_end <? 5)%nat then ResponseFrameParse.Invalid
          else
            let descriptor := descriptor_for_request_status kind status in
            match framing descriptor with
            | ResponseFraming.Unexpected => ResponseFrameParse.Invalid
            | _ =>
                if negb (validate_response_initial_line kind status (take status_line_end buffer))
                then ResponseFrameParse.Invalid
                else
                  match
                    (if ResponseFraming.is_multiline (framing descriptor) then
                       block ← find_dot_terminated_block find_end buffer status_line_end;
                       Some (block_end block, block_content block, block_terminator block)
                     else
                       Some (status_line_end, slice buffer status_line_end status_line_end,
                             slice buffer status_line_end status_line_end))
                  with
                  | None => ResponseFrameParse.NeedMore
                  | Some (consumed, content, terminator) =>
                      let frame :=
                        {| rf_kind := kind; rf_descriptor := descriptor;
                           rf_bytes := take consumed buffer;
                           rf_status_line := take status_line_end buffer;
                           rf_content := content; rf_terminator := terminator;
                           rf_content_start := status_line_end;
                           rf_content_end := (status_line_end + length content)%nat;
                           rf_content_validation := Generic; rf_status := status;
                           rf_consumed := consumed |} in
                      match validate_response_content frame with
                      | None => ResponseFrameParse.Invalid
                      | Some validation => ResponseFrameParse.Complete (with_validation frame validation)
                      end
                  end
            end
      end
  end.

(** [Article::parse_framed_response]. *)
Definition parse_framed_response (frame : ResponseFrame) : result Article ArticleParseError :=
  match rf_content_validation frame with
  | ArticleView buffer layout => Ok (materialize layout buffer)
  | Generic => Err NotArticleResponse
  end.

(** [Article::parse]. *)
Definition article_parse (buf : bytes) : result Article ArticleParseError :=
  let? status_code := article_parse_status_code buf in
  let? kind :=
    (if status_code =? 220 then Ok RequestKind.Article
     else if status_code =? 221 then Ok RequestKind.Head
     else if status_code =? 222 then Ok RequestKind.Body
     else if status_code =? 223 then Ok RequestKind.Stat
     else Err (InvalidStatusCode status_code)) in
  match strict_crlf_line_content_end_from buf 0 with
  | Some first_line_end =>
      let? _ := parse_first_line (take first_line_end buf) in
      match frame_parse kind buf with
      | ResponseFrameParse.Complete frame =>
          if (rf_consumed frame =? length buf)%nat then parse_framed_response frame
          else parse_compatibility_response find_end buf status_code
      | _ => parse_compatibility_response find_end buf status_code
      end
  | None => parse_compatibility_response find_end buf status_code
  end.
End Frame.

(** ** Where a response ends

    The specification both the whole-frame parser and the streaming decoder
    are held to: the initial line alone says whether a block follows, and the
    block ends at its first terminator. *)

Inductive Boundary : Type :=
| BoundaryInvalid
| BoundaryOpen
| BoundaryAt (initial : ResponseInitial) (line_end content_end frame_end : nat).

Definition response_boundary `{!Memchr} (kind : RequestKind) (buf : bytes) : Boundary :=
  match initial_parse kind buf, detect_response_line_end buf with
  | InitialInvalid, _ => BoundaryInvalid
  | InitialComplete i, ResponseLineStatus.CompleteAt e =>
      if ResponseFraming.is_multiline (framing (ri_descriptor i)) then
        match body_end (drop e buf) with
        | Some n => BoundaryAt i e (e + n - 3) (e + n)
        | None => BoundaryOpen
        end
      else BoundaryAt i e e e
  | _, _ => BoundaryOpen
  end.

Section lemmas.
Context `{Mc : !Memchr, Ms : !MemchrSpec}.

(** A status digit is no space and no line end. *)
Lemma status_digit b : (9 <? u8_wrapping_sub b 48) = false -> plain b /\ (SP =? b) = false.
Proof.
  intros H. assert (forall c, (9 <? u8_wrapping_sub c 48) = true -> b <> c) as Hne.
  { intros c Hc ->. congruence. }
  split; [split; apply Hne; reflexivity|]. apply Z.eqb_neq. apply not_eq_sym, Hne. reflexivity.
Qed.

Lemma status_parse_digits buf s :
  StatusCode.parse buf = Some s ->
  exists d0 d1 d2 rest, buf = [d0; d1; d2] ++ rest
    /\ Forall plain [d0; d1; d2] /\ no_space [d0; d1; d2].
Proof.
  destruct buf as [|d0 [|d1 [|d2 rest]]]; [done..|]. unfold StatusCode.parse.
  destruct (_ || _) eqn:E; [done|]. intros _. split_ands.
  exists d0, d1, d2, rest. split; [done|].
  split; repeat constructor; by apply status_digit.
Qed.

(** A complete status line: three digits, a rest, and the end of line. *)
Lemma status_line_shape buf e s :
  detect_response_line_end buf = ResponseLineStatus.CompleteAt e ->
  StatusCode.parse buf = Some s ->
  exists d0 d1 d2 rest more, buf = ([d0; d1; d2] ++ rest ++ CRLF) ++ more
    /\ e = (5 + length rest)%nat /\ take e buf = [d0; d1; d2] ++ rest ++ CRLF
    /\ drop e buf = more
    /\ Forall plain ([d0; d1; d2] ++ rest) /\ no_space [d0; d1; d2].
Proof.
  intros (l & more & Hb & Hl & ->)%detect_line_complete_inv
         (d0 & d1 & d2 & rest & Hb' & Hd & Hs)%status_parse_digits.
  assert (exists rest', l = [d0; d1; d2] ++ rest') as [rest' ->].
  { rewrite Hb' in Hb. clear Hb' Hs Hl.
    assert (forall d r k m, plain d -> d :: r = k ++ CRLF ++ m -> exists k', k = d :: k' /\ r = k' ++ CRLF ++ m)
      as Hstep.
    { intros d r k m [Hc _] E. destruct k as [|x k]; [injection E as -> _; done|].
      injection E as -> ->. eauto. }
    apply Forall_cons_1 in Hd as [H0 Hd]. apply Forall_cons_1 in Hd as [H1 Hd].
    apply Forall_cons_1 in Hd as [H2 _].
    apply Hstep in Hb as (k0 & -> & Hb); [|done].
    apply Hstep in Hb as (k1 & -> & Hb); [|done].
    apply Hstep in Hb as (k2 & -> & Hb); [|done]. by exists k2. }
  exists d0, d1, d2, rest', more.
  assert (length ([d0; d1; d2] ++ rest') + 2 = length ([d0; d1; d2] ++ rest' ++ CRLF))%nat as ->
    by (rewrite !length_app; cbn [length]; change (length CRLF) with 2%nat; lia).
  assert (buf = ([d0; d1; d2] ++ rest' ++ CRLF) ++ more) as Hbuf
    by (rewrite Hb, <- !app_assoc; done).
  split; [done|]. rewrite !Hbuf. split.
  { rewrite !length_app. change (length CRLF) with 2%nat. cbn [length]. lia. }
  by rewrite take_app_length, drop_app_length.
Qed.

(** The streaming parser's verdict on a complete line with a status is the
    validator's. *)
Lemma initial_parse_valid kind buf e s :
  detect_response_line_end buf = ResponseLineStatus.CompleteAt e ->
  (e <= response_initial_line_limit kind (StatusCode.parse buf))%nat ->
  StatusCode.parse buf = Some s ->
  framing (descriptor_for_request_status kind s) <> ResponseFraming.Unexpected ->
  (if validate_response_initial_line kind s (take e buf)
   then exists i, initial_parse kind buf = InitialComplete i /\ ri_status i = s
          /\ ri_descriptor i = descriptor_for_request_status kind s
          /\ ri_article i = (if is_article_response kind s
                             then parse_response_initial_article (take e buf) else None)
   else initial_parse kind buf = InitialInvalid).
Proof.
  intros He Hlim Hs Hf. unfold initial_parse, detect_bounded_response_line_end.
  rewrite He, (proj2 (Nat.leb_le _ _)) by done. rewrite Hs.
  destruct (status_line_shape buf e s He Hs) as (d0 & d1 & d2 & rest & more & _ & _ & Hl & _).
  destruct (is_article_response kind s) eqn:Ea.
  - pose proof (article_line_valid kind s d0 d1 d2 rest Ea) as Hv. rewrite <- Hl in Hv.
    rewrite <- Hv. destruct (parse_response_initial_article (take e buf)) as [a|]; cbn [is_some];
      destruct (framing _); try done; by eexists.
  - destruct (validate_response_initial_line kind s (take e buf)); cbn [negb];
      destruct (framing _); try done; by eexists.
Qed.

Lemma initial_parse_invalid_status kind buf e :
  detect_response_line_end buf = ResponseLineStatus.CompleteAt e ->
  (forall s, StatusCode.parse buf = Some s ->
     framing (descriptor_for_request_status kind s) = ResponseFraming.Unexpected) ->
  initial_parse kind buf = InitialInvalid.
Proof.
  intros He Hs. unfold initial_parse, detect_bounded_response_line_end. rewrite He.
  destruct (_ <=? _)%nat; [|done]. destruct (StatusCode.parse buf) as [s|]; [|done].
  by rewrite (Hs s eq_refl).
Qed.
End lemmas.

(** The frame cut out of a buffer at a boundary. *)
Definition frame_at (kind : RequestKind) (buf : bytes) (i : ResponseInitial) (e c f : nat)
    : ResponseFrame :=
  {| rf_kind := kind; rf_descriptor := ri_descriptor i; rf_bytes := take f buf;
     rf_status_line := take e buf; rf_content := slice buf e c; rf_terminator := slice buf c f;
     rf_content_start := e; rf_content_end := c; rf_content_validation := Generic;
     rf_status := ri_status i; rf_consumed := f |}.

Section boundary.
Context `{Mc : !Memchr, Ms : !MemchrSpec}.

(** A boundary lies inside the buffer and follows the status line. *)
Lemma boundary_bounds kind buf i e c f :
  response_boundary kind buf = BoundaryAt i e c f ->
  detect_response_line_end buf = ResponseLineStatus.CompleteAt e
  /\ initial_parse kind buf = InitialComplete i
  /\ (5 <= e <= c)%nat /\ (c <= f <= length buf)%nat
  /\ (if ResponseFraming.is_multiline (framing (ri_descriptor i))
      then f = (c + 3)%nat /\ body_end (drop e buf) = Some (f - e)%nat else c = e /\ f = e).
Proof.
  unfold response_boundary. destruct (initial_parse kind buf) as [j| |] eqn:Ei; [|done..].
  destruct (detect_response_line_end buf) as [e'| |] eqn:Ed; [|done..].
  destruct (initial_complete_end _ _ _ Ei) as (e2 & He2 & _ & Hs).
  destruct (status_line_shape buf e' _ Ed Hs) as (d0 & d1 & d2 & rest & more & Hb & He & _ & Hdrop & _).
  assert (e' <= length buf)%nat as Hle.
  { pose proof (detect_line_extend buf []) as Hx. rewrite Ed in Hx. tauto. }
  destruct (ResponseFraming.is_multiline (framing (ri_descriptor j))) eqn:Em.
  - destruct (body_end (drop e' buf)) as [n|] eqn:En; [|done]. intros [= -> -> <- <-].
    pose proof (body_end_bound _ _ En) as Hn. rewrite length_drop in Hn. rewrite Em.
    split_and!; try done; try lia. rewrite En. f_equal. lia.
  - intros [= -> -> <- <-]. rewrite Em. split_and!; (done || lia).
Qed.

(** A decided boundary does not move when input is appended. *)
Lemma boundary_extend kind buf more :
  response_boundary kind buf <> BoundaryOpen ->
  response_boundary kind (buf ++ more) = response_boundary kind buf.
Proof.
  intros Hne. unfold response_boundary in *.
  destruct (initial_parse kind buf) as [i| |] eqn:Ei; [|done|].
  2: { by rewrite initial_parse_extend, Ei by by rewrite Ei. }
  rewrite initial_parse_extend, Ei by by rewrite Ei.
  pose proof (detect_line_extend buf more) as Hx.
  destruct (detect_response_line_end buf) as [e| |]; [|done..].
  destruct Hx as [He ->]. destruct (ResponseFraming.is_multiline _); [|done].
  rewrite drop_app_le by lia. destruct (body_end (drop e buf)) as [n|] eqn:En; [|done].
  by rewrite (body_end_app _ more _ En).
Qed.

(** The frame's bytes alone have the same boundary. *)
Lemma boundary_take kind buf i e c f :
  response_boundary kind buf = BoundaryAt i e c f ->
  response_boundary kind (take f buf) = BoundaryAt i e c f.
Proof.
  intros Hb. destruct (boundary_bounds _ _ _ _ _ _ Hb) as (Hd & Hi & He & Hf & Hm).
  assert (detect_response_line_end (take e buf) = ResponseLineStatus.CompleteAt e) as Hde.
  { apply detect_line_complete_inv in Hd as (l & rest & -> & Hl & Ee).
    rewrite app_assoc, take_app_le by (rewrite length_app; change (length CRLF) with 2%nat; lia).
    rewrite firstn_all2 by (rewrite length_app; change (length CRLF) with 2%nat; lia).
    rewrite <- (app_nil_r CRLF), detect_line_complete by done. by subst. }
  pose proof (initial_parse_line kind buf i e Hi Hd) as Hie.
  assert (take f buf = take e buf ++ drop e (take f buf)) as Hsplit.
  { rewrite <- (take_drop e (take f buf)) at 1. f_equal. rewrite take_take. f_equal. lia. }
  unfold response_boundary. rewrite Hsplit.
  rewrite initial_parse_extend, Hie by by rewrite Hie.
  pose proof (detect_line_extend (take e buf) (drop e (take f buf))) as Hx.
  rewrite Hde in Hx. destruct Hx as [_ ->]. rewrite <- Hsplit.
  destruct (ResponseFraming.is_multiline _).
  - destruct Hm as [Hfc Hbe]. rewrite skipn_firstn_comm.
    rewrite (body_end_take _ _ Hbe). f_equal; lia.
  - destruct Hm as [-> ->]. done.
Qed.
End boundary.

Section properties.
Context `{Mc : !Memchr, Ms : !MemchrSpec}.
Context (find_end : bytes -> option nat) `{Hfe : !TerminatorFinder find_end}.

(** The verdict on a frame whose boundary is known. *)
Definition judge (frame : ResponseFrame) : frame_result :=
  match validate_response_content frame with
  | None => ResponseFrameParse.Invalid
  | Some v => ResponseFrameParse.Complete (with_validation frame v)
  end.

Definition frame_of_boundary (kind : RequestKind) (buf : bytes) (b : Boundary) : frame_result :=
  match b with
  | BoundaryInvalid => ResponseFrameParse.Invalid
  | BoundaryOpen => ResponseFrameParse.NeedMore
  | BoundaryAt i e c f => judge (frame_at kind buf i e c f)
  end.

Lemma find_block_at buf e :
  (e <= length buf)%nat ->
  (block ← find_dot_terminated_block find_end buf e;
   Some (block_end block, block_content block, block_terminator block))
  = (n ← body_end (drop e buf);
     Some ((e + n)%nat, slice buf e (e + n - 3), slice buf (e + n - 3) (e + n))).
Proof.
  intros He. unfold find_dot_terminated_block.
  pose proof (blocks_next_spec find_end buf e) as Hb.
  destruct (blocks_next find_end buf e) as [b|]; cbn [mbind option_bind].
  - destruct Hb as (n & Hn & Hle & _ & H1 & _ & _ & H2 & H3). rewrite Hn. cbn [mbind option_bind].
    pose proof (body_end_bound _ _ Hn) as Hbound. rewrite H1, H2, H3.
    do 2 f_equal; unfold slice; [f_equal; f_equal; lia|].
    rewrite skipn_firstn_comm, drop_drop. f_equal; [lia|f_equal; lia].
  - by rewrite Hb.
Qed.

Lemma slice_empty (buf : bytes) e :
  slice buf e e = [] /\ (e + length (slice buf e e))%nat = e.
Proof. unfold slice. rewrite Nat.sub_diag. by split; [|rewrite Nat.add_0_r]. Qed.

(** The whole-frame parser is the boundary and the judgement of its frame. *)
Lemma frame_parse_boundary kind buf :
  frame_parse find_end kind buf = frame_of_boundary kind buf (response_boundary kind buf).
Proof.
  unfold frame_parse, response_boundary, detect_bounded_response_line_end.
  destruct (detect_response_line_end buf) as [e| |] eqn:Ed.
  2: { unfold initial_parse, detect_bounded_response_line_end. rewrite Ed. by destruct (_ <=? _)%nat. }
  2: { unfold initial_parse, detect_bounded_response_line_end. by rewrite Ed. }
  destruct (e <=? _)%nat eqn:Elim.
  2: { unfold initial_parse, detect_bounded_response_line_end. by rewrite Ed, Elim. }
  apply Nat.leb_le in Elim.
  destruct (StatusCode.parse buf) as [s|] eqn:Es.
  2: { rewrite (initial_parse_invalid_status kind buf e); [done..|]. by rewrite Es. }
  destruct (status_line_shape buf e s Ed Es) as (d0 & d1 & d2 & rest & more & Hb & He & Hline & _).
  rewrite (proj2 (Nat.ltb_ge _ _)) by lia.
  assert (e <= length buf)%nat as Hle
    by (pose proof (detect_line_extend buf []) as Hx; rewrite Ed in Hx; tauto).
  destruct (decide (framing (descriptor_for_request_status kind s) = ResponseFraming.Unexpected)) as [Hu|Hu].
  { rewrite Hu, (initial_parse_invalid_status kind buf e); [done..|]. rewrite Es. by intros ? [= <-]. }
  pose proof (initial_parse_valid kind buf e s Ed) as Hv. rewrite Es in Hv.
  specialize (Hv Elim eq_refl Hu).
  destruct (validate_response_initial_line kind s (take e buf)) eqn:Evl.
  2: { rewrite Hv. cbn [negb]. by destruct (framing _). }
  destruct Hv as (i & Hi & Hst & Hd & _). rewrite Hi, Hd. cbn [negb].
  transitivity
    (match
       (if ResponseFraming.is_multiline (framing (descriptor_for_request_status kind s)) then
          block ← find_dot_terminated_block find_end buf e;
          Some (block_end block, block_content block, block_terminator block)
        else Some (e, slice buf e e, slice buf e e))
     with
     | None => ResponseFrameParse.NeedMore
     | Some (consumed, content, terminator) =>
         judge {| rf_kind := kind; rf_descriptor := descriptor_for_request_status kind s;
                  rf_bytes := take consumed buf; rf_status_line := take e buf;
                  rf_content := content; rf_terminator := terminator; rf_content_start := e;
                  rf_content_end := (e + length content)%nat; rf_content_validation := Generic;
                  rf_status := s; rf_consumed := consumed |}
     end).
  { by destruct (framing (descriptor_for_request_status kind s)). }
  destruct (ResponseFraming.is_multiline _).
  - rewrite find_block_at by done. destruct (body_end (drop e buf)) as [n|] eqn:En; [|done].
    cbn [mbind option_bind frame_of_boundary]. unfold frame_at. rewrite Hd, Hst.
    pose proof (body_end_bound _ _ En) as Hn. rewrite length_drop in Hn.
    rewrite length_slice by lia. by replace (e + (e + n - 3 - e))%nat with (e + n - 3)%nat by lia.
  - cbn [frame_of_boundary]. unfold frame_at. rewrite Hd, Hst.
    destruct (slice_empty buf e) as [_ ->]. done.
Qed.

Lemma judge_Complete frame f :
  judge frame = ResponseFrameParse.Complete f ->
  exists v, validate_response_content frame = Some v /\ f = with_validation frame v.
Proof. unfold judge. destruct (validate_response_content frame) as [v|]; [|done]. intros [= <-]. eauto. Qed.

Lemma frame_at_app kind buf more i e c f :
  (e <= f)%nat -> (c <= f)%nat -> (f <= length buf)%nat ->
  frame_at kind (buf ++ more) i e c f = frame_at kind buf i e c f.
Proof.
  intros He Hc Hf. unfold frame_at, slice. rewrite !take_app_le by lia.
  assert (forall a b, (a <= f)%nat -> (b <= f)%nat ->
            take (b - a) (drop a (buf ++ more)) = take (b - a) (drop a buf)) as Hs.
  { intros a b Ha Hb. rewrite drop_app_le by lia. apply take_app_le. rewrite length_drop. lia. }
  by rewrite !Hs by lia.
Qed.

(** A complete frame is cut exactly: its bytes are the head of the buffer
    and are the status line, the content and the terminator put together, the
    terminator is the dot line of a multiline response and empty otherwise, and
    the status line is one line of at least a status code. *)
Theorem frame_partition (kind : RequestKind) (buf : bytes) (f : ResponseFrame) :
  frame_parse find_end kind buf = ResponseFrameParse.Complete f ->
  buf = rf_bytes f ++ drop (rf_consumed f) buf
  /\ rf_bytes f = rf_status_line f ++ rf_content f ++ rf_terminator f
  /\ rf_terminator f = (if ResponseFraming.is_multiline (framing (rf_descriptor f))
                        then DOT_TERMINATOR else [])
  /\ (exists line, rf_status_line f = line ++ CRLF /\ Forall plain line /\ (3 <= length line)%nat)
  /\ rf_content_start f = length (rf_status_line f)
  /\ rf_content_end f = (rf_content_start f + length (rf_content f))%nat
  /\ rf_consumed f = length (rf_bytes f)
  /\ StatusCode.parse buf = Some (rf_status f).
Proof.
  rewrite frame_parse_boundary.
  destruct (response_boundary kind buf) as [| |i e c n] eqn:Eb; [done..|].
  cbn [frame_of_boundary]. intros (v & _ & ->)%judge_Complete.
  destruct (boundary_bounds _ _ _ _ _ _ Eb) as (Hd & Hi & He & Hn & Hm).
  destruct (initial_complete_end _ _ _ Hi) as (e' & He' & _ & Hs).
  cbn [with_validation frame_at rf_bytes rf_status_line rf_content rf_terminator rf_content_start
       rf_content_end rf_consumed rf_status rf_descriptor].
  assert (take n buf = take e buf ++ slice buf e c ++ slice buf c n) as Hcut.
  { rewrite <- (take_drop e (take n buf)), take_take, Nat.min_l by lia. f_equal.
    rewrite skipn_firstn_comm. unfold slice.
    rewrite <- (take_drop (c - e) (take (n - e) (drop e buf))), take_take, Nat.min_l by lia.
    f_equal. rewrite skipn_firstn_comm, drop_drop. f_equal; [lia|f_equal; lia]. }
  split_and!; try done.
  - by rewrite take_drop.
  - destruct (ResponseFraming.is_multiline _).
    + destruct Hm as [-> Hbe]. unfold slice. replace (c + 3 - c)%nat with 3%nat by lia.
      rewrite <- (body_end_dots _ _ Hbe). rewrite drop_drop. f_equal. f_equal. lia.
    + destruct Hm as [-> ->]. unfold slice. by rewrite Nat.sub_diag.
  - destruct (status_line_shape buf e _ Hd Hs) as (d0 & d1 & d2 & rest & more & _ & _ & -> & _ & Hp & _).
    exists ([d0; d1; d2] ++ rest). rewrite <- app_assoc. split; [done|]. split; [done|].
    rewrite length_app. cbn [length]. lia.
  - rewrite length_take. lia.
  - rewrite length_slice; lia.
  - rewrite length_take. lia.
Qed.

Lemma frame_parse_extend kind buf more :
  frame_parse find_end kind buf <> ResponseFrameParse.NeedMore ->
  frame_parse find_end kind (buf ++ more) = frame_parse find_end kind buf.
Proof.
  rewrite !frame_parse_boundary. intros Hne.
  rewrite boundary_extend by by intros E; rewrite E in Hne.
  destruct (response_boundary kind buf) as [| |i e c n] eqn:Eb; [done..|].
  destruct (boundary_bounds _ _ _ _ _ _ Eb) as (_ & _ & He & Hn & _).
  cbn [frame_of_boundary]. by rewrite frame_at_app by lia.
Qed.

(** Whole-frame parsing is stable: input appended to a decided buffer
    changes nothing, the frame's own bytes parse to the same frame, and every
    shorter prefix asks for more input. *)
Theorem frame_parse_stable (kind : RequestKind) (buf more : bytes) :
  (frame_parse find_end kind buf <> ResponseFrameParse.NeedMore ->
   frame_parse find_end kind (buf ++ more) = frame_parse find_end kind buf)
  /\ (forall f, frame_parse find_end kind buf = ResponseFrameParse.Complete f ->
       frame_parse find_end kind (rf_bytes f) = ResponseFrameParse.Complete f
       /\ forall n, (n < rf_consumed f)%nat ->
            frame_parse find_end kind (take n buf) = ResponseFrameParse.NeedMore).
Proof.
  split; [apply frame_parse_extend|]. intros f Hf.
  assert (forall b g, frame_parse find_end kind b = ResponseFrameParse.Complete g ->
            (rf_consumed g <= length b)%nat /\ rf_bytes g = take (rf_consumed g) b
            /\ frame_parse find_end kind (take (rf_consumed g) b) = ResponseFrameParse.Complete g)
    as Hcut.
  { intros b g Hg. pose proof Hg as Hg'. rewrite frame_parse_boundary in Hg.
    destruct (response_boundary kind b) as [| |i e c n] eqn:Eb; [done..|].
    cbn [frame_of_boundary] in Hg.
    destruct (boundary_bounds _ _ _ _ _ _ Eb) as (_ & _ & He & Hn & _).
    pose proof Hg as (v & Hv & ->)%judge_Complete. cbn [with_validation frame_at rf_consumed rf_bytes].
    split; [lia|]. split; [done|].
    rewrite frame_parse_boundary, (boundary_take _ _ _ _ _ _ Eb). cbn [frame_of_boundary].
    rewrite <- Hg. f_equal. rewrite <- (take_drop n b) at 2.
    rewrite frame_at_app; [done|lia|lia|]. rewrite length_take. lia. }
  destruct (Hcut _ _ Hf) as (Hle & Hb & Hown). rewrite Hb. split; [done|].
  intros n Hn. destruct (frame_parse find_end kind (take n buf)) as [g| |] eqn:Eg; [|done|].
  - pose proof (frame_parse_extend kind (take n buf) (drop n buf)) as Hx.
    rewrite take_drop, Eg in Hx. rewrite Hf in Hx. specialize (Hx ltac:(done)). injection Hx as <-.
    destruct (Hcut _ _ Eg) as (Hl & _). rewrite length_take in Hl. lia.
  - pose proof (frame_parse_extend kind (take n buf) (drop n buf)) as Hx.
    rewrite take_drop, Eg, Hf in Hx. by discriminate Hx.
Qed.

(** The layout a complete article frame retains. *)
Lemma judge_article frame f :
  judge frame = ResponseFrameParse.Complete f ->
  is_article_response (rf_kind frame) (rf_status frame) = true ->
  exists framed layout,
    from_known_content_bounds (rf_bytes frame) (rf_content_start frame) (rf_content_end frame)
      (rf_content_start frame) = Ok framed
    /\ framed_validate framed = Ok (rf_bytes frame, layout)
    /\ rf_content_validation f = ArticleView (rf_bytes frame) layout.
Proof.
  intros (v & Hv & ->)%judge_Complete Ha. unfold validate_response_content in Hv. rewrite Ha in Hv.
  unfold validate_response_frame in Hv.
  destruct (from_known_content_bounds _ _ _ _) as [framed|] eqn:Ef; [|done].
  destruct (framed_validate framed) as [[b l]|] eqn:Ev; [|done]. injection Hv as <-.
  exists framed, l. split; [done|]. cbn [fst snd with_validation rf_content_validation].
  assert (b = rf_bytes frame) as ->; [|by split].
  apply from_known_inv in Ef as (<- & _). unfold framed_validate in Ev.
  destruct (article_parse_status_code _); [|done]. destruct (validate_for_status _ _); [|done].
  by injection Ev.
Qed.

(** Validation read the first line of the frame. *)
Lemma framed_validate_first_line framed v :
  framed_validate framed = Ok v ->
  is_ok (parse_first_line (validated_slice (fa_first_line framed) (fa_buffer framed))) = true.
Proof.
  unfold framed_validate, validate_for_status, validate_first_line.
  destruct (article_parse_status_code _); [|done].
  destruct (range_slice _ _) as [d|] eqn:Ed; [|done]. apply range_slice_Ok in Ed as ->.
  by destruct (parse_first_line _).
Qed.

Lemma article_kind kind s :
  is_article_response kind s = true ->
  (if s =? 220 then @Ok _ ArticleParseError RequestKind.Article
   else if s =? 221 then Ok RequestKind.Head
   else if s =? 222 then Ok RequestKind.Body
   else if s =? 223 then Ok RequestKind.Stat
   else Err (InvalidStatusCode s)) = Ok kind.
Proof. by destruct kind; try done; intros ->%Z.eqb_eq. Qed.

(** [Article::parse] on the bytes of a complete article response returns the
    article the frame's validated layout describes, so the compatibility parser
    never overrides the frame parser. *)
Theorem article_parse_complete (kind : RequestKind) (buf : bytes) (f : ResponseFrame) :
  frame_parse find_end kind buf = ResponseFrameParse.Complete f ->
  rf_consumed f = length buf -> is_article_response kind (rf_status f) = true ->
  exists layout, rf_content_validation f = ArticleView buf layout
    /\ article_parse find_end buf = Ok (materialize layout buf).
Proof.
  intros Hf Hlen Ha. pose proof Hf as Hparse. rewrite frame_parse_boundary in Hf.
  destruct (response_boundary kind buf) as [| |i e c n] eqn:Eb; [done..|].
  cbn [frame_of_boundary] in Hf.
  destruct (boundary_bounds _ _ _ _ _ _ Eb) as (Hd & Hi & He & Hn & _).
  pose proof Hf as (v & _ & Ef)%judge_Complete. rewrite Ef in Hlen, Ha.
  cbn [with_validation frame_at rf_consumed rf_status] in Hlen, Ha. subst n.
  destruct (judge_article _ _ Hf Ha) as (framed & layout & Hk & Hv & Hcv).
  cbn [frame_at rf_bytes rf_content_start rf_content_end] in Hk, Hv, Hcv.
  rewrite firstn_all in Hk, Hv, Hcv. exists layout. split; [done|].
  apply framed_validate_first_line in Hv.
  destruct (from_known_inv _ _ _ _ _ Hk) as (Hfb & _ & Hfl & _).
  unfold validated_slice, slice in Hv. rewrite Hfb, Hfl in Hv.
  cbn [afr_start afr_end] in Hv. rewrite drop_0, Nat.sub_0_r in Hv.
  destruct (initial_complete_end _ _ _ Hi) as (_ & _ & _ & Hs).
  unfold article_parse, article_parse_status_code. rewrite Hs. cbn [ok_or].
  rewrite (article_kind kind) by done.
  assert (strict_crlf_line_content_end_from buf 0 = Some (e - 2)%nat) as ->.
  { unfold strict_crlf_line_content_end_from, detect_response_line_end_from, get_from.
    rewrite (proj2 (Nat.ltb_ge _ _)) by lia. by rewrite drop_0, Hd. }
  destruct (parse_first_line (take (e - 2) buf)); [|done].
  rewrite Hparse, Ef. cbn [with_validation frame_at rf_consumed]. rewrite Nat.eqb_refl, <- Ef.
  unfold parse_framed_response. by rewrite Hcv.
Qed.
End properties.

(** ** Concrete frames *)

Definition sample_body : bytes :=
  lit "222 7 <a@b> body" ++ CRLF ++ lit "..x" ++ CRLF ++ lit "." ++ CRLF.

Definition the_frame (r : frame_result) : ResponseFrame :=
  match r with
  | ResponseFrameParse.Complete f => f
  | _ => frame_at RequestKind.Unknown [] (Build_ResponseInitial 0
           (descriptor_for_request_status RequestKind.Unknown 0) None) 0 0 0
  end.

Definition sample_frame : ResponseFrame :=
  the_frame (frame_parse find_streaming_terminator_end RequestKind.Body sample_body).

Lemma sample_frame_parses :
  frame_parse find_streaming_terminator_end RequestKind.Body sample_body
  = ResponseFrameParse.Complete sample_frame.
Proof. vm_compute. reflexivity. Qed.

Lemma frame_partition_witness :
  rf_bytes sample_frame
  = rf_status_line sample_frame ++ rf_content sample_frame ++ rf_terminator sample_frame.
Proof.
  exact (proj1 (proj2 (frame_partition find_streaming_terminator_end RequestKind.Body
                         sample_body sample_frame sample_frame_parses))).
Defined.

Lemma frame_parse_stable_witness :
  frame_parse find_streaming_terminator_end RequestKind.Body (sample_body ++ lit "junk")
  = frame_parse find_streaming_terminator_end RequestKind.Body sample_body
  /\ frame_parse find_streaming_terminator_end RequestKind.Body (take 20 sample_body)
     = ResponseFrameParse.NeedMore.
Proof.
  destruct (frame_parse_stable find_streaming_terminator_end RequestKind.Body sample_body
              (lit "junk")) as [H1 H2].
  split.
  - apply H1. rewrite sample_frame_parses. discriminate.
  - apply (H2 sample_frame sample_frame_parses). vm_compute. lia.
Defined.

Lemma article_parse_complete_witness :
  exists layout, rf_content_validation sample_frame = ArticleView sample_body layout
    /\ article_parse find_streaming_terminator_end sample_body = Ok (materialize layout sample_body).
Proof.
  apply (article_parse_complete find_streaming_terminator_end RequestKind.Body sample_body
           sample_frame sample_frame_parses); vm_compute; reflexivity.
Defined.
