(* ===== verification/OwnedResponse.v ===== *)
(** * Owned responses ([src/src/protocol/response_receiver.rs], [src/src/client.rs])

    The typestates a received response moves through (generic, framed,
    validated), the accessors over them, and the client's error type. *)
From S2P Require Import Prelude Utf8 Decimal Memchr Terminator Args Kinds RequestLine.
From S2P Require Import ResponseLine ResponseContent Capabilities ResponseBody Article.

Local Open Scope Z_scope.
Local Open Scope rust_scope.

Inductive OwnedResponseContent : Type :=
| OwnedGeneric (kind : RequestKind) (status : Z) (buffer : bytes) (content : ResponseContentRange)
| OwnedFramed (article : FramedState)
| OwnedValidated (article : ValidatedState).

(** [OwnedResponse] holds its content and nothing else. *)
Record OwnedResponse : Type := { or_content : OwnedResponseContent }.

Inductive OwnedArticleContent : Type :=
| ArticleFramed (article : FramedState)
| ArticleValidated (article : ValidatedState).

Record OwnedArticle : Type := { oa_article : OwnedArticleContent }.

(** The client's errors; [io::Error] is a parameter. *)
Module ClientError.
Inductive ClientError (IoError : Type) : Type :=
| Io (error : IoError)
| UnexpectedEof
| InvalidStatusLine
| InvalidMessageId
| MissingMessageId
| InvalidGroupName
| MissingGroupName
| InvalidWildmat
| MissingWildmat
| InvalidDate
| MissingDate
| InvalidTime
| MissingTime
| InvalidAuthInfoValue
| MissingAuthInfoValue
| MissingArticleBody
| InvalidHeaderName
| MissingHeaderName
| InvalidArticleSelector
| MissingArticleSelector
| InvalidListGroupRange
| InvalidCapabilityKeyword
| ConflictingArguments
| InvalidSession (line : nat)
| CapabilitiesUnavailable
| ConnectionClosed
| UnexpectedArticleResponse (response : OwnedResponse).
Arguments Io {IoError} error.
Arguments UnexpectedEof {IoError}.
Arguments InvalidStatusLine {IoError}.
Arguments InvalidMessageId {IoError}.
Arguments MissingMessageId {IoError}.
Arguments InvalidGroupName {IoError}.
Arguments MissingGroupName {IoError}.
Arguments InvalidWildmat {IoError}.
Arguments MissingWildmat {IoError}.
Arguments InvalidDate {IoError}.
Arguments MissingDate {IoError}.
Arguments InvalidTime {IoError}.
Arguments MissingTime {IoError}.
Arguments InvalidAuthInfoValue {IoError}.
Arguments MissingAuthInfoValue {IoError}.
Arguments MissingArticleBody {IoError}.
Arguments InvalidHeaderName {IoError}.
Arguments MissingHeaderName {IoError}.
Arguments InvalidArticleSelector {IoError}.
Arguments MissingArticleSelector {IoError}.
Arguments InvalidListGroupRange {IoError}.
Arguments InvalidCapabilityKeyword {IoError}.
Arguments ConflictingArguments {IoError}.
Arguments InvalidSession {IoError} line.
Arguments CapabilitiesUnavailable {IoError}.
Arguments ConnectionClosed {IoError}.
Arguments UnexpectedArticleResponse {IoError} response.
End ClientError.
Abbreviation client_error := ClientError.ClientError.

Inductive ArticleValidation : Type := FramingOnly | Full.

(** ** Framed and validated states

    [None] is the panic of an [expect]. *)

Definition framed_content (self : FramedState) : option bytes :=
  (fun range => content_range_slice range (fs_bytes self)) <$> generic_content_range self.

Definition validated_content (self : ValidatedState) : option bytes :=
  match range_slice (content_range (vs_layout self)) (vs_bytes self) with
  | Ok content => Some content
  | Err _ => None
  end.

Definition validated_article (self : ValidatedState) : Article :=
  materialize (vs_layout self) (vs_bytes self).

Section Owned.
Context `{Mc : !Memchr} {IoError : Type}.

(** [Article<Framed<B>>::validate_borrowed], then [materialize]. *)
Definition validate_borrowed (self : FramedState) : result Article ArticleParseError :=
  let? layout := validated_layout self in
  Ok (materialize layout (fs_bytes self)).

(** ** [OwnedResponse] *)

Definition response_kind (self : OwnedResponse) : RequestKind :=
  match or_content self with
  | OwnedGeneric kind _ _ _ => kind
  | OwnedFramed article => fs_kind article
  | OwnedValidated article => vs_kind article
  end.

Definition response_status (self : OwnedResponse) : Z :=
  match or_content self with
  | OwnedGeneric _ status _ _ => status
  | OwnedFramed article => fs_status article
  | OwnedValidated article => vs_status article
  end.

Definition response_as_bytes (self : OwnedResponse) : bytes :=
  match or_content self with
  | OwnedGeneric _ _ buffer _ => buffer
  | OwnedFramed article => fs_bytes article
  | OwnedValidated article => vs_bytes article
  end.

Definition response_content (self : OwnedResponse) : option bytes :=
  match or_content self with
  | OwnedGeneric _ _ buffer content => Some (content_range_slice content buffer)
  | OwnedFramed article => framed_content article
  | OwnedValidated article => validated_content article
  end.

Definition response_parse_article (self : OwnedResponse) : result Article ArticleParseError :=
  match or_content self with
  | OwnedFramed article => validate_borrowed article
  | OwnedValidated article => Ok (validated_article article)
  | OwnedGeneric _ _ _ _ => Err NotArticleResponse
  end.

(** ** [OwnedArticle] *)

Definition owned_kind (self : OwnedArticle) : RequestKind :=
  match oa_article self with
  | ArticleFramed article => fs_kind article
  | ArticleValidated article => vs_kind article
  end.

Definition owned_status (self : OwnedArticle) : Z :=
  match oa_article self with
  | ArticleFramed article => fs_status article
  | ArticleValidated article => vs_status article
  end.

Definition owned_as_bytes (self : OwnedArticle) : bytes :=
  match oa_article self with
  | ArticleFramed article => fs_bytes article
  | ArticleValidated article => vs_bytes article
  end.

Definition owned_content (self : OwnedArticle) : option bytes :=
  match oa_article self with
  | ArticleFramed article => framed_content article
  | ArticleValidated article => validated_content article
  end.

Definition owned_article (self : OwnedArticle) : result Article ArticleParseError :=
  match oa_article self with
  | ArticleFramed article => validate_borrowed article
  | ArticleValidated article => Ok (validated_article article)
  end.

Definition owned_validate (self : OwnedArticle) : result OwnedArticle (client_error IoError) :=
  let? article :=
    match oa_article self with
    | ArticleFramed article => map_err (fun _ => ClientError.InvalidStatusLine) (state_validate article)
    | ArticleValidated article => Ok article
    end in
  Ok (Build_OwnedArticle (ArticleValidated article)).

Definition into_response (self : OwnedArticle) : OwnedResponse :=
  Build_OwnedResponse
    match oa_article self with
    | ArticleFramed article => OwnedFramed article
    | ArticleValidated article => OwnedValidated article
    end.

Definition expected_article_status (kind : RequestKind) : Z :=
  match kind with
  | RequestKind.Article => 220
  | RequestKind.Head => 221
  | RequestKind.Body => 222
  | RequestKind.Stat => 223
  | _ => 0
  end.

Definition from_response (response : OwnedResponse) (validation : ArticleValidation)
    : result OwnedArticle (client_error IoError) :=
  if negb (response_status response =? expected_article_status (response_kind response))
  then Err (ClientError.UnexpectedArticleResponse response)
  else
    let? article :=
      match or_content response with
      | OwnedFramed article => Ok (ArticleFramed article)
      | OwnedValidated article => Ok (ArticleValidated article)
      | OwnedGeneric _ _ _ _ => Err (ClientError.UnexpectedArticleResponse response)
      end in
    let article := Build_OwnedArticle article in
    match validation with
    | FramingOnly => Ok article
    | Full => owned_validate article
    end.

(** [into_article] and [TryFrom<OwnedResponse>]. *)
Definition into_article (self : OwnedResponse) : result OwnedArticle (client_error IoError) :=
  from_response self Full.

(** ** From a framed response *)

Definition into_owned_response (self : FramedState) : result OwnedResponse (client_error IoError) :=
  let kind := fs_kind self in
  let status := fs_status self in
  if is_article_response kind status then Ok (Build_OwnedResponse (OwnedFramed self))
  else
    let? status_line := ok_or ClientError.InvalidStatusLine (get_range (fs_bytes self) 0 (fs_status_line_end self)) in
    let? content := ok_or ClientError.InvalidStatusLine
                      (get_range (fs_bytes self) (fs_status_line_end self) (fs_content_end self)) in
    let valid := validate_framed_non_article_response_content kind status status_line content in
    if negb valid && negb (RequestKind.eqb kind RequestKind.Capabilities && (status =? 101))
    then Err ClientError.InvalidStatusLine
    else
      let? content := ok_or ClientError.InvalidStatusLine (generic_content_range self) in
      Ok (Build_OwnedResponse (OwnedGeneric kind status (fs_bytes self) content)).
End Owned.
