(* ===== verification/ResponseReceiver.v ===== *)
(** * The streaming decoder and the buffered receiver
    ([src/src/protocol/response_receiver.rs])

    [StreamingResponseDecoder] reads the initial line byte by byte and frames
    the block that follows; [ResponseDecoder] feeds it the unseen part of the
    accumulated input and cuts the frame out; [BufferedResponseReceiver] owns
    that input and reads until a frame is complete. *)
From S2P Require Import Prelude Utf8 Decimal Memchr Terminator Args Kinds RequestLine.
From S2P Require Import ResponseLine ResponseContent Capabilities ResponseBody Article.
From S2P Require Import ArticleHeaders ResponseFrame OwnedResponse.

Local Open Scope Z_scope.
Local Open Scope rust_scope.

Definition STREAMING_STATUS_LINE_BYTES : nat := MAX_AUTHINFO_SASL_RESPONSE_LINE_BYTES.

Record StreamingResponseDecoder : Type := {
  sd_kind : RequestKind;
  sd_status : option Z;
  sd_initial : option ResponseInitial;
  sd_status_line_end : nat;
  sd_framer : MultilineFramer;
  sd_status_buf : bytes;
  sd_status_len : nat;
}.

Inductive StreamingDecodeProgress : Type :=
| StreamingNeedMore (consumed : nat)
| StreamingComplete (status : Z) (consumed : nat) (bounds : option MultilineFrameBounds).

Record ResponseDecoder : Type := {
  rd_streaming : StreamingResponseDecoder;
  rd_scanned : nat;
}.

Inductive FramingDecodeProgress : Type :=
| FramingNeedMore
| FramingComplete (status : Z) (frame_end : nat) (bounds : option MultilineFrameBounds).

Definition streaming_new (kind : RequestKind) : StreamingResponseDecoder :=
  {| sd_kind := kind; sd_status := None; sd_initial := None; sd_status_line_end := 0;
     sd_framer := framer_default; sd_status_buf := replicate STREAMING_STATUS_LINE_BYTES 0;
     sd_status_len := 0 |}.

Definition decoder_new (kind : RequestKind) : ResponseDecoder :=
  {| rd_streaming := streaming_new kind; rd_scanned := 0 |}.

(** How the loop over the status bytes of [push] ends. *)
Inductive StatusLoop : Type :=
| LoopInvalid
| LoopReturn (status : Z) (consumed : nat)
| LoopBreak (consumed : nat)
| LoopEnd.

Section Receiver.
Context `{Mc : !Memchr} {IoError : Type}.
Variable find_end : bytes -> option nat.

(** [self.status_buf[self.status_len] = b; self.status_len += 1]. *)
Definition store_status_byte (self : StreamingResponseDecoder) (b : Z) : StreamingResponseDecoder :=
  {| sd_kind := sd_kind self; sd_status := sd_status self; sd_initial := sd_initial self;
     sd_status_line_end := sd_status_line_end self; sd_framer := sd_framer self;
     sd_status_buf := <[sd_status_len self := b]> (sd_status_buf self);
     sd_status_len := S (sd_status_len self) |}.

(** [self.status = Some(..); self.initial = Some(..); self.status_line_end = ..]. *)
Definition set_initial (self : StreamingResponseDecoder) (initial : ResponseInitial)
    : StreamingResponseDecoder :=
  {| sd_kind := sd_kind self; sd_status := Some (ri_status initial); sd_initial := Some initial;
     sd_status_line_end := sd_status_len self; sd_framer := sd_framer self;
     sd_status_buf := sd_status_buf self; sd_status_len := sd_status_len self |}.

Definition set_framer (self : StreamingResponseDecoder) (framer : MultilineFramer)
    : StreamingResponseDecoder :=
  {| sd_kind := sd_kind self; sd_status := sd_status self; sd_initial := sd_initial self;
     sd_status_line_end := sd_status_line_end self; sd_framer := framer;
     sd_status_buf := sd_status_buf self; sd_status_len := sd_status_len self |}.

(** [while consumed < chunk.len()]; [rest] is [chunk[consumed..]]. *)
Fixpoint status_loop (self : StreamingResponseDecoder) (consumed : nat) (rest : bytes)
    : StreamingResponseDecoder * StatusLoop :=
  match rest with
  | [] => (self, LoopEnd)
  | b :: rest' =>
      if (sd_status_len self =? length (sd_status_buf self))%nat then (self, LoopInvalid)
      else
        let self := store_status_byte self b in
        let consumed := S consumed in
        match initial_parse (sd_kind self) (take (sd_status_len self) (sd_status_buf self)) with
        | InitialComplete initial =>
            let self := set_initial self initial in
            if negb (ResponseFraming.is_multiline (framing (ri_descriptor initial)))
            then (self, LoopReturn (ri_status initial) consumed)
            else (self, LoopBreak consumed)
        | InitialNeedMore => status_loop self consumed rest'
        | InitialInvalid => (self, LoopInvalid)
        end
  end.

(** The part of [push] after the status is known. *)
Definition push_content (self : StreamingResponseDecoder) (status : Z) (chunk : bytes)
    (content_start : nat) : StreamingResponseDecoder * result StreamingDecodeProgress (client_error IoError) :=
  if (length chunk <=? content_start)%nat then (self, Ok (StreamingNeedMore (length chunk)))
  else
    let content_chunk := drop content_start chunk in
    match framer_push find_end (sd_framer self) content_chunk with
    | (framer, MultilineFrameProgress.Complete bounds) =>
        (set_framer self framer,
         Ok (StreamingComplete status (content_start + chunk_consumed bounds) (Some bounds)))
    | (framer, MultilineFrameProgress.NeedMore) =>
        (set_framer self framer, Ok (StreamingNeedMore (length chunk)))
    end.

Definition streaming_push (self : StreamingResponseDecoder) (chunk : bytes)
    : StreamingResponseDecoder * result StreamingDecodeProgress (client_error IoError) :=
  match sd_status self with
  | Some status => push_content self status chunk 0
  | None =>
      match status_loop self 0 chunk with
      | (self, LoopInvalid) => (self, Err ClientError.InvalidStatusLine)
      | (self, LoopReturn status consumed) => (self, Ok (StreamingComplete status consumed None))
      | (self, LoopBreak content_start) =>
          match sd_status self with
          | None => (self, Ok (StreamingNeedMore (length chunk)))
          | Some status => push_content self status chunk content_start
          end
      | (self, LoopEnd) =>
          match sd_status self with
          | None => (self, Ok (StreamingNeedMore (length chunk)))
          | Some status => push_content self status chunk 0
          end
      end
  end.

(** ** The decoder over accumulated input *)

Definition push_framing (self : ResponseDecoder) (buffer : bytes)
    : ResponseDecoder * result FramingDecodeProgress (client_error IoError) :=
  let start := rd_scanned self in
  let chunk := drop start buffer in
  match streaming_push (rd_streaming self) chunk with
  | (streaming, r) =>
      let self := {| rd_streaming := streaming; rd_scanned := length buffer |} in
      match r with
      | Err e => (self, Err e)
      | Ok (StreamingNeedMore _) => (self, Ok FramingNeedMore)
      | Ok (StreamingComplete status chunk_consumed bounds) =>
          (self, Ok (FramingComplete status (start + chunk_consumed) bounds))
      end
  end.

(** [extract_framed]: the decoder, what is left of [pending], and the frame. *)
Definition extract_framed (self : ResponseDecoder) (pending : bytes)
    : ResponseDecoder * bytes * result (option FramedState) (client_error IoError) :=
  match push_framing self pending with
  | (self, Err e) => (self, pending, Err e)
  | (self, Ok FramingNeedMore) => (self, pending, Ok None)
  | (self, Ok (FramingComplete status frame_end bounds)) =>
      match sd_initial (rd_streaming self) with
      | None => (self, pending, Err ClientError.InvalidStatusLine)
      | Some initial =>
          let status_line_end := sd_status_line_end (rd_streaming self) in
          let content_end :=
            match bounds with
            | None => status_line_end
            | Some bounds => (status_line_end + content_end bounds)%nat
            end in
          (self, drop frame_end pending,
           Ok (Some {| fs_bytes := take frame_end pending; fs_kind := sd_kind (rd_streaming self);
                       fs_status := status; fs_status_line_end := status_line_end;
                       fs_content_end := content_end; fs_initial := initial |}))
      end
  end.

(** ** The receiver *)

Inductive ReceiverState : Type := Ready | Unavailable.

(** What one [poll_read] delivers: bytes (none at end of stream) or an error. *)
Inductive ReadEvent : Type :=
| ReadBytes (chunk : bytes)
| ReadError (error : IoError).

(** [reader] lists the deliveries to come; when it is empty the stream has
    ended. *)
Record BufferedResponseReceiver : Type := {
  br_reader : list ReadEvent;
  br_pending : bytes;
  br_state : ReceiverState;
}.

Definition receiver_new (reader : list ReadEvent) : BufferedResponseReceiver :=
  {| br_reader := reader; br_pending := []; br_state := Ready |}.

Definition with_pending (self : BufferedResponseReceiver) (pending : bytes)
    : BufferedResponseReceiver :=
  {| br_reader := br_reader self; br_pending := pending; br_state := br_state self |}.

Definition with_state (self : BufferedResponseReceiver) (state : ReceiverState)
    : BufferedResponseReceiver :=
  {| br_reader := br_reader self; br_pending := br_pending self; br_state := state |}.

Definition start_response (self : BufferedResponseReceiver)
    : BufferedResponseReceiver * result unit (client_error IoError) :=
  match br_state self with
  | Ready => (with_state self Unavailable, Ok tt)
  | Unavailable => (self, Err ClientError.ConnectionClosed)
  end.

(** [read_into_pending_bytes]: one read, appended to the pending input. *)
Definition read_into_pending_bytes (self : BufferedResponseReceiver)
    : BufferedResponseReceiver * result nat IoError :=
  match br_reader self with
  | [] => (self, Ok 0%nat)
  | ReadBytes chunk :: reader =>
      ({| br_reader := reader; br_pending := br_pending self ++ chunk; br_state := br_state self |},
       Ok (length chunk))
  | ReadError e :: reader =>
      ({| br_reader := reader; br_pending := br_pending self; br_state := br_state self |}, Err e)
  end.

(** [Receiving]: the receiver and the request's decoder. *)
Record Receiving : Type := {
  rc_receiver : BufferedResponseReceiver;
  rc_decoder : ResponseDecoder;
}.

Definition receiving_extract (self : Receiving)
    : Receiving * result (option OwnedResponse) (client_error IoError) :=
  match extract_framed (rc_decoder self) (br_pending (rc_receiver self)) with
  | (decoder, pending, r) =>
      let self := {| rc_receiver := with_pending (rc_receiver self) pending; rc_decoder := decoder |} in
      match r with
      | Err e => (self, Err e)
      | Ok None => (self, Ok None)
      | Ok (Some framed) =>
          match into_owned_response framed with
          | Err e => (self, Err e)
          | Ok response =>
              ({| rc_receiver := with_state (rc_receiver self) Ready; rc_decoder := rc_decoder self |},
               Ok (Some response))
          end
      end
  end.

Definition read_and_extract (self : Receiving)
    : Receiving * result (option OwnedResponse) (client_error IoError) :=
  match read_into_pending_bytes (rc_receiver self) with
  | (receiver, r) =>
      let self := {| rc_receiver := receiver; rc_decoder := rc_decoder self |} in
      match r with
      | Err e => (self, Err (ClientError.Io e))
      | Ok O => (self, Err ClientError.UnexpectedEof)
      | Ok (S _) => receiving_extract self
      end
  end.

Definition append_and_extract (self : Receiving) (chunk : bytes)
    : Receiving * result (option OwnedResponse) (client_error IoError) :=
  receiving_extract
    {| rc_receiver := with_pending (rc_receiver self) (br_pending (rc_receiver self) ++ chunk);
       rc_decoder := rc_decoder self |}.

(** The [loop] of [receive]; [None] when the fuel is spent.  Every round takes
    one delivery, so one more round than deliveries is enough. *)
Fixpoint receive_loop (fuel : nat) (self : Receiving)
    : option (Receiving * result OwnedResponse (client_error IoError)) :=
  match fuel with
  | O => None
  | S fuel' =>
      match receiving_extract self with
      | (self, Err e) => Some (self, Err e)
      | (self, Ok (Some completed)) => Some (self, Ok completed)
      | (self, Ok None) =>
          match read_and_extract self with
          | (self, Err e) => Some (self, Err e)
          | (self, Ok (Some completed)) => Some (self, Ok completed)
          | (self, Ok None) => receive_loop fuel' self
          end
      end
  end.

Definition receive (self : BufferedResponseReceiver) (kind : RequestKind)
    : option (BufferedResponseReceiver * result OwnedResponse (client_error IoError)) :=
  match start_response self with
  | (self, Err e) => Some (self, Err e)
  | (self, Ok _) =>
      match receive_loop (S (length (br_reader self)))
              {| rc_receiver := self; rc_decoder := decoder_new kind |} with
      | None => None
      | Some (receiving, r) => Some (rc_receiver receiving, r)
      end
  end.

(** [slice.chunks(n)]. *)
Fixpoint chunks (fuel : nat) (n : nat) (l : bytes) : list bytes :=
  match fuel, l with
  | S fuel', _ :: _ => take n l :: chunks fuel' n (drop n l)
  | _, _ => []
  end.

(** The loop of [receive_fragments] over the chunks. *)
Fixpoint feed_fragments (self : Receiving) (fragments : list bytes)
    : result OwnedResponse (client_error IoError) :=
  match fragments with
  | [] => Err ClientError.UnexpectedEof
  | chunk :: fragments' =>
      match append_and_extract self chunk with
      | (_, Err e) => Err e
      | (_, Ok (Some response)) => Ok response
      | (self, Ok None) => feed_fragments self fragments'
      end
  end.

Definition receive_fragments (kind : RequestKind) (response : bytes) (chunk_bytes : nat)
    : result OwnedResponse (client_error IoError) :=
  match start_response (receiver_new []) with
  | (_, Err e) => Err e
  | (receiver, Ok _) =>
      feed_fragments {| rc_receiver := receiver; rc_decoder := decoder_new kind |}
        (chunks (length response) (Nat.max chunk_bytes 1) response)
  end.

Definition owned_from_bytes (kind : RequestKind) (buffer : bytes)
    : result OwnedResponse (client_error IoError) :=
  receive_fragments kind buffer (length buffer).

(** [bench_streaming_decode_response]. *)
Definition bench_streaming_decode_response (kind : RequestKind) (response : bytes)
    : result (Z * nat) (client_error IoError) :=
  match streaming_push (streaming_new kind) response with
  | (_, Err e) => Err e
  | (_, Ok (StreamingComplete status consumed _)) => Ok (status, consumed)
  | (_, Ok (StreamingNeedMore _)) => Err ClientError.UnexpectedEof
  end.
End Receiver.
Arguments ReadEvent IoError : clear implicits.
Arguments BufferedResponseReceiver IoError : clear implicits.

(** ** The decoder's invariant *)

Section decoder.
Context `{Mc : !Memchr, Ms : !MemchrSpec} {IoError : Type}.
Context (find_end : bytes -> option nat) `{Hfe : !TerminatorFinder find_end}.

(** Still reading the initial line: the buffer holds the bytes seen. *)
Record reading_line (kind : RequestKind) (acc : bytes) (s : StreamingResponseDecoder) : Prop := {
  rl_kind : sd_kind s = kind;
  rl_status : sd_status s = None;
  rl_framer : sd_framer s = framer_default;
  rl_capacity : length (sd_status_buf s) = STREAMING_STATUS_LINE_BYTES;
  rl_stored : take (sd_status_len s) (sd_status_buf s) = acc;
  rl_len : sd_status_len s = length acc;
  rl_open : initial_parse kind acc = InitialNeedMore;
}.

(** The initial line is known: [line] is it, [body] what the framer saw. *)
Record line_known (kind : RequestKind) (line : bytes) (i : ResponseInitial)
    (s : StreamingResponseDecoder) : Prop := {
  lk_kind : sd_kind s = kind;
  lk_status : sd_status s = Some (ri_status i);
  lk_initial : sd_initial s = Some i;
  lk_end : sd_status_line_end s = length line;
  lk_parse : initial_parse kind line = InitialComplete i;
  lk_detect : detect_response_line_end line = ResponseLineStatus.CompleteAt (length line);
}.

Inductive streaming_inv (kind : RequestKind) (acc : bytes) (s : StreamingResponseDecoder) : Prop :=
| inv_line : reading_line kind acc s -> streaming_inv kind acc s
| inv_block line body i :
    acc = line ++ body -> line_known kind line i s ->
    ResponseFraming.is_multiline (framing (ri_descriptor i)) = true ->
    framer_inv body (sd_framer s) -> streaming_inv kind acc s.

Lemma streaming_new_inv kind : streaming_inv kind [] (streaming_new kind).
Proof. apply inv_line. split; try done. by destruct kind. Qed.

(** An open initial line always fits the status buffer. *)
Lemma initial_open_short kind acc :
  initial_parse kind acc = InitialNeedMore -> (length acc < STREAMING_STATUS_LINE_BYTES)%nat.
Proof.
  unfold initial_parse, detect_bounded_response_line_end.
  pose proof (line_limit_bounds kind (StatusCode.parse acc)) as Hb.
  change STREAMING_STATUS_LINE_BYTES with (8 * 512)%nat.
  destruct (detect_response_line_end acc) as [e| |]; [|destruct (_ <=? length acc)%nat eqn:E|]; try done.
  - destruct (e <=? _)%nat; [|done]. destruct (StatusCode.parse acc); [|done].
    destruct (framing _); try done; destruct (is_article_response _ _);
      try (by destruct (parse_response_initial_article _)); by destruct (negb _).
  - apply Nat.leb_gt in E. lia.
Qed.

(** The byte that decides the initial line is its last one. *)
Lemma initial_complete_step kind acc b i :
  initial_parse kind acc = InitialNeedMore ->
  initial_parse kind (acc ++ [b]) = InitialComplete i ->
  detect_response_line_end (acc ++ [b]) = ResponseLineStatus.CompleteAt (length (acc ++ [b])).
Proof.
  intros Ho Hi. destruct (initial_complete_end _ _ _ Hi) as (e & He & _ & _).
  pose proof (detect_line_extend (acc ++ [b]) []) as Hx. rewrite He in Hx. destruct Hx as [Hle _].
  destruct (decide (e = length (acc ++ [b]))) as [->|Hne]; [done|]. exfalso.
  rewrite length_app in Hle, Hne. cbn [length] in Hle, Hne.
  pose proof (initial_parse_line _ _ _ _ Hi He) as Ht. rewrite take_app_le in Ht by lia.
  pose proof (initial_parse_extend kind (take e acc) (drop e acc)) as Hex.
  rewrite take_drop, Ht, Ho in Hex. by specialize (Hex ltac:(done)).
Qed.

Lemma store_reading kind acc s b :
  reading_line kind acc s ->
  let s' := store_status_byte s b in
  sd_kind s' = kind /\ sd_status s' = None /\ sd_framer s' = framer_default
  /\ length (sd_status_buf s') = STREAMING_STATUS_LINE_BYTES
  /\ take (sd_status_len s') (sd_status_buf s') = acc ++ [b]
  /\ sd_status_len s' = length (acc ++ [b]).
Proof.
  intros [Hk Hs Hf Hc Ht Hl Ho]. cbn [store_status_byte sd_kind sd_status sd_framer sd_status_buf sd_status_len].
  split_and!; try done.
  - by rewrite length_insert.
  - pose proof (initial_open_short _ _ Ho) as Hlt.
    rewrite (take_S_r _ _ b) by (apply list_lookup_insert_eq; rewrite Hc; lia).
    rewrite take_insert_ge by lia. by rewrite Ht.
  - rewrite length_app. cbn [length]. lia.
Qed.

(** What the loop over the status bytes establishes. *)
Lemma status_loop_correct kind acc s consumed rest :
  reading_line kind acc s ->
  match status_loop s consumed rest with
  | (s', LoopEnd) => reading_line kind (acc ++ rest) s'
  | (_, LoopInvalid) => initial_parse kind (acc ++ rest) = InitialInvalid
  | (s', LoopReturn status n) =>
      exists used more i, rest = used ++ more /\ n = (consumed + length used)%nat
        /\ status = ri_status i /\ line_known kind (acc ++ used) i s'
        /\ ResponseFraming.is_multiline (framing (ri_descriptor i)) = false
  | (s', LoopBreak n) =>
      exists used more i, rest = used ++ more /\ n = (consumed + length used)%nat
        /\ line_known kind (acc ++ used) i s'
        /\ ResponseFraming.is_multiline (framing (ri_descriptor i)) = true
        /\ sd_framer s' = framer_default
  end.
Proof.
  revert acc s consumed. induction rest as [|b rest IH]; intros acc s consumed Hr; cbn [status_loop].
  { by rewrite app_nil_r. }
  pose proof Hr as [Hk _ _ Hc _ Hl Ho]. pose proof (initial_open_short _ _ Ho) as Hlt.
  rewrite (proj2 (Nat.eqb_neq _ _)) by lia.
  destruct (store_reading kind acc s b Hr) as (Hk' & Hs' & Hf' & Hc' & Ht' & Hl').
  rewrite Hk', Ht'. set (s1 := store_status_byte s b) in *.
  change (acc ++ b :: rest) with (acc ++ [b] ++ rest). rewrite (app_assoc acc).
  destruct (initial_parse kind (acc ++ [b])) as [i| |] eqn:Ei.
  - assert (line_known kind (acc ++ [b]) i (set_initial s1 i)) as Hlk.
    { split; try done. by apply (initial_complete_step kind _ _ i). }
    destruct (ResponseFraming.is_multiline _) eqn:Em; cbn [negb];
      exists [b], rest, i; split_and!; try done; cbn [length]; lia.
  - assert (reading_line kind (acc ++ [b]) s1) as Hr1 by by split.
    specialize (IH _ s1 (S consumed) Hr1).
    destruct (status_loop s1 (S consumed) rest) as [s' [|st n|n|]]; try done.
    + destruct IH as (used & more & i & -> & -> & -> & Hlk & Hm).
      exists (b :: used), more, i. rewrite <- app_assoc in Hlk. split_and!; try done. cbn [length]. lia.
    + destruct IH as (used & more & i & -> & -> & Hlk & Hm & Hfr).
      exists (b :: used), more, i. rewrite <- app_assoc in Hlk. split_and!; try done. cbn [length]. lia.
  - rewrite initial_parse_extend, Ei by by rewrite Ei. done.
Qed.

(** ** One push against the boundary *)

Lemma boundary_known kind line i s body :
  line_known kind line i s ->
  response_boundary kind (line ++ body) =
  if ResponseFraming.is_multiline (framing (ri_descriptor i)) then
    match body_end body with
    | Some n => BoundaryAt i (length line) (length line + n - 3) (length line + n)
    | None => BoundaryOpen
    end
  else BoundaryAt i (length line) (length line) (length line).
Proof.
  intros [_ _ _ _ Hp Hd]. unfold response_boundary.
  rewrite initial_parse_extend, Hp by by rewrite Hp.
  pose proof (detect_line_extend line body) as Hx. rewrite Hd in Hx. destruct Hx as [_ ->].
  by rewrite drop_app_length.
Qed.

Lemma streaming_inv_open kind acc s :
  streaming_inv kind acc s -> response_boundary kind acc = BoundaryOpen.
Proof.
  intros [[]|line body i -> Hk Hm Hf].
  - unfold response_boundary. by rewrite rl_open0.
  - rewrite (boundary_known _ _ _ _ _ Hk), Hm. by rewrite (framer_inv_open _ _ Hf).
Qed.

(** What one push must do after [acc]. *)
Definition push_result (kind : RequestKind) (acc chunk : bytes)
    (r : StreamingResponseDecoder * result StreamingDecodeProgress (client_error IoError)) : Prop :=
  match r with
  | (s', Ok (StreamingNeedMore n)) => n = length chunk /\ streaming_inv kind (acc ++ chunk) s'
  | (_, Err e) =>
      e = ClientError.InvalidStatusLine
      /\ response_boundary kind (acc ++ chunk) = BoundaryInvalid
  | (s', Ok (StreamingComplete status n bounds)) =>
      exists i e c,
        response_boundary kind (acc ++ chunk) = BoundaryAt i e c (length acc + n)
        /\ (n <= length chunk)%nat /\ status = ri_status i
        /\ sd_kind s' = kind /\ sd_initial s' = Some i /\ sd_status_line_end s' = e
        /\ c = match bounds with None => e | Some b => (e + content_end b)%nat end
  end.

(** The block part of a push, from a line that ends [cs] bytes into the chunk
    or before it. *)
Lemma push_content_correct kind line body i s acc chunk cs :
  line_known kind line i s ->
  ResponseFraming.is_multiline (framing (ri_descriptor i)) = true ->
  framer_inv body (sd_framer s) -> (cs <= length chunk)%nat ->
  acc ++ chunk = line ++ body ++ drop cs chunk ->
  push_result kind acc chunk (push_content find_end s (ri_status i) chunk cs).
Proof.
  intros Hk Hm Hf Hcs Hacc. unfold push_content.
  destruct (length chunk <=? cs)%nat eqn:El.
  { apply Nat.leb_le in El. cbn [push_result]. split; [done|].
    rewrite drop_ge, app_nil_r in Hacc by lia. rewrite Hacc. by apply (inv_block _ _ _ line body i). }
  pose proof (framer_push_correct find_end body (sd_framer s) (drop cs chunk) Hf) as Hp.
  assert (forall f, line_known kind line i (set_framer s f)) as Hk' by (intros f; by destruct Hk; split).
  apply (f_equal length) in Hacc as Hlen. rewrite !length_app, length_drop in Hlen.
  destruct (framer_push find_end (sd_framer s) (drop cs chunk)) as [f [|b]]; cbn [push_spec] in Hp;
    cbn [push_result].
  - split; [done|]. rewrite Hacc. by apply (inv_block _ _ _ line (body ++ drop cs chunk) i).
  - destruct Hp as (Hb1 & Hb2 & Hb3). rewrite length_drop in Hb1.
    destruct (body_end_bound _ _ Hb2) as [Hb4 _].
    exists i, (length line), (length line + (length body + chunk_consumed b) - 3)%nat.
    rewrite Hacc, (boundary_known _ _ _ _ _ Hk), Hm, Hb2.
    destruct (Hk' f) as [H1 _ H2 H3 _ _]. split_and!; try done; [f_equal; lia|lia|rewrite Hb3; lia].
Qed.

Lemma streaming_push_correct kind acc chunk s :
  streaming_inv kind acc s -> push_result kind acc chunk (streaming_push find_end s chunk).
Proof.
  intros [Hr|line body i -> Hk Hm Hf]; unfold streaming_push.
  - rewrite (rl_status _ _ _ Hr). pose proof (status_loop_correct kind acc s 0 chunk Hr) as Hl.
    destruct (status_loop s 0 chunk) as [s' [|st n|n|]].
    + cbn [push_result]. split; [done|]. unfold response_boundary. by rewrite Hl.
    + destruct Hl as (used & more & i & -> & -> & -> & Hk & Hm). cbn [push_result].
      exists i, (length (acc ++ used)), (length (acc ++ used)).
      rewrite app_assoc, (boundary_known _ _ _ _ _ Hk), Hm.
      destruct Hk as [H1 _ H2 H3 _ _]. rewrite !length_app in *. cbn [Nat.add].
      split_and!; try done; lia.
    + destruct Hl as (used & more & i & -> & -> & Hk & Hm & Hf).
      rewrite (lk_status _ _ _ _ Hk). apply (push_content_correct kind (acc ++ used) [] i); try done.
      * rewrite Hf. apply framer_inv_default.
      * rewrite length_app. cbn. lia.
      * cbn [Nat.add app]. by rewrite drop_app_length, <- app_assoc.
    + rewrite (rl_status _ _ _ Hl). cbn [push_result]. split; [done|]. by apply inv_line.
  - rewrite (lk_status _ _ _ _ Hk). apply (push_content_correct kind line body i); try done; [lia|].
    by rewrite drop_0, <- app_assoc.
Qed.
End decoder.

(** ** The receiver *)

(** The framed response at a boundary of the input. *)
Definition framed_at (kind : RequestKind) (input : bytes) (i : ResponseInitial) (e c f : nat)
    : FramedState :=
  {| fs_bytes := take f input; fs_kind := kind; fs_status := ri_status i;
     fs_status_line_end := e; fs_content_end := c; fs_initial := i |}.

(** What a request must receive from an input, however it is delivered; [eof]
    is the error when the input ends first. *)
Definition outcome `{!Memchr} {IoError} (kind : RequestKind) (input : bytes)
    (eof : client_error IoError) : result OwnedResponse (client_error IoError) :=
  match response_boundary kind input with
  | BoundaryInvalid => Err ClientError.InvalidStatusLine
  | BoundaryOpen => Err eof
  | BoundaryAt i e c f => into_owned_response (framed_at kind input i e c f)
  end.

Section receiver.
Context `{Mc : !Memchr, Ms : !MemchrSpec} {IoError : Type}.
Context (find_end : bytes -> option nat) `{Hfe : !TerminatorFinder find_end}.

Definition decoder_inv (kind : RequestKind) (acc : bytes) (d : ResponseDecoder) : Prop :=
  rd_scanned d = length acc /\ streaming_inv kind acc (rd_streaming d).

Lemma decoder_new_inv kind : decoder_inv kind [] (decoder_new kind).
Proof. split; [done|]. apply streaming_new_inv. Qed.

Lemma extract_framed_correct kind acc chunk d :
  decoder_inv kind acc d ->
  match extract_framed (IoError := IoError) find_end d (acc ++ chunk) with
  | (d', pending, Ok None) => pending = acc ++ chunk /\ decoder_inv kind (acc ++ chunk) d'
  | (_, pending, Ok (Some framed)) =>
      exists i e c f, response_boundary kind (acc ++ chunk) = BoundaryAt i e c f
        /\ framed = framed_at kind (acc ++ chunk) i e c f /\ pending = drop f (acc ++ chunk)
  | (_, pending, Err e) =>
      pending = acc ++ chunk /\ e = ClientError.InvalidStatusLine
      /\ response_boundary kind (acc ++ chunk) = BoundaryInvalid
  end.
Proof.
  intros [Hscan Hinv]. unfold extract_framed, push_framing. rewrite Hscan, drop_app_length.
  pose proof (streaming_push_correct (IoError := IoError) find_end kind acc chunk _ Hinv) as Hp.
  destruct (streaming_push find_end (rd_streaming d) chunk) as [s' [[n|st n bounds]|e]];
    cbn [push_result] in Hp.
  - destruct Hp as [-> Hp]. by repeat split.
  - destruct Hp as (i & e & c & Hb & _ & -> & Hk & Hi & He & Hc). cbn [rd_streaming].
    rewrite Hi. exists i, e, c, (length acc + n)%nat. split; [done|]. split; [|done].
    unfold framed_at. by rewrite Hk, He, Hc.
  - destruct Hp as [-> Hp]. by split.
Qed.

Lemma framed_at_app kind buf more i e c f :
  (f <= length buf)%nat -> framed_at kind (buf ++ more) i e c f = framed_at kind buf i e c f.
Proof. intros Hf. unfold framed_at. by rewrite take_app_le. Qed.

Lemma outcome_extend kind buf more (eof : client_error IoError) :
  response_boundary kind buf <> BoundaryOpen ->
  outcome kind (buf ++ more) eof = outcome kind buf eof.
Proof.
  intros Hb. unfold outcome. rewrite boundary_extend by done.
  destruct (response_boundary kind buf) as [| |i e c f] eqn:E; [done..|].
  destruct (boundary_bounds _ _ _ _ _ _ E) as (_ & _ & _ & [_ Hf] & _).
  by rewrite framed_at_app.
Qed.

(** A receiver that just succeeded on the head of [buf]. *)
Definition received (buf : bytes) (r : OwnedResponse) (self : BufferedResponseReceiver IoError)
    (reader : list (ReadEvent IoError)) : Prop :=
  br_state self = Ready /\ br_reader self = reader /\ buf = response_as_bytes r ++ br_pending self.

Lemma into_owned_bytes (framed : FramedState) r :
  into_owned_response (IoError := IoError) framed = Ok r -> response_as_bytes r = fs_bytes framed.
Proof.
  unfold into_owned_response. destruct (is_article_response _ _); [by intros [= <-]|].
  destruct (get_range _ 0 _); [|done]. cbn [ok_or].
  destruct (get_range _ (fs_status_line_end framed) _); [|done]. cbn [ok_or].
  destruct (_ && _); [done|]. destruct (generic_content_range framed); [|done].
  by intros [= <-].
Qed.

Lemma receiving_extract_correct kind acc more (self : Receiving) (eof : client_error IoError) :
  decoder_inv kind acc (rc_decoder self) -> br_pending (rc_receiver self) = acc ++ more ->
  match receiving_extract find_end self with
  | (self', Ok None) =>
      response_boundary kind (acc ++ more) = BoundaryOpen
      /\ decoder_inv kind (acc ++ more) (rc_decoder self')
      /\ rc_receiver self' = rc_receiver self
  | (self', Ok (Some r)) =>
      response_boundary kind (acc ++ more) <> BoundaryOpen
      /\ outcome kind (acc ++ more) eof = Ok r
      /\ received (acc ++ more) r (rc_receiver self') (br_reader (rc_receiver self))
  | (self', Err e) =>
      response_boundary kind (acc ++ more) <> BoundaryOpen
      /\ outcome kind (acc ++ more) eof = Err e
      /\ br_state (rc_receiver self') = br_state (rc_receiver self)
  end.
Proof.
  intros Hinv Hp. unfold receiving_extract. rewrite Hp.
  pose proof (extract_framed_correct kind acc more _ Hinv) as He.
  destruct (extract_framed find_end (rc_decoder self) (acc ++ more)) as [[d' p'] [[framed|]|e]].
  - destruct He as (i & e & c & f & Hb & -> & ->).
    assert (outcome kind (acc ++ more) eof
            = into_owned_response (framed_at kind (acc ++ more) i e c f)) as Ho
      by (unfold outcome; by rewrite Hb).
    destruct (into_owned_response (framed_at kind (acc ++ more) i e c f)) as [r|err] eqn:Ei;
      rewrite Hb; (split; [done|]); (split; [done|]); [|done].
    apply into_owned_bytes in Ei. cbn [fs_bytes framed_at] in Ei.
    split; [done|]. split; [done|].
    cbn [rc_receiver with_state with_pending br_pending]. by rewrite Ei, take_drop.
  - destruct He as [-> He]. split; [apply (streaming_inv_open _ _ _ (proj2 He))|].
    split; [done|]. cbn [rc_receiver]. rewrite <- Hp. by destruct (rc_receiver self).
  - destruct He as (-> & -> & Hb). unfold outcome. by rewrite Hb.
Qed.

(** A reader: non-empty deliveries, then the end of the stream or an error. *)
Definition reader_of (chunks : list bytes) (tail : list (ReadEvent IoError))
    : list (ReadEvent IoError) := (ReadBytes <$> chunks) ++ tail.

Definition stream_ends (tail : list (ReadEvent IoError)) : Prop :=
  match tail with ReadBytes (_ :: _) :: _ => False | _ => True end.

Definition end_error (tail : list (ReadEvent IoError)) : client_error IoError :=
  match tail with ReadError e :: _ => ClientError.Io e | _ => ClientError.UnexpectedEof end.

(** How [receive] leaves the receiver. *)
Definition receive_post (input : bytes) (tail : list (ReadEvent IoError))
    (r : result OwnedResponse (client_error IoError)) (self : BufferedResponseReceiver IoError) : Prop :=
  match r with
  | Ok response =>
      br_state self = Ready
      /\ exists chunks, br_reader self = reader_of chunks tail
          /\ Forall (fun c => c <> []) chunks
          /\ input = response_as_bytes response ++ br_pending self ++ concat chunks
  | Err _ => br_state self = Unavailable
  end.

(** The loop has stopped with the right result. *)
Definition loop_done (kind : RequestKind) (input : bytes) (tail : list (ReadEvent IoError))
    (o : option (Receiving * result OwnedResponse (client_error IoError))) : Prop :=
  exists self r, o = Some (self, r) /\ r = outcome kind input (end_error tail)
    /\ receive_post input tail r (rc_receiver self).

Lemma loop_done_ok kind buf chunks tail (self : Receiving) r :
  response_boundary kind buf <> BoundaryOpen ->
  outcome kind buf (end_error tail) = Ok r ->
  received buf r (rc_receiver self) (reader_of chunks tail) ->
  Forall (fun c => c <> []) chunks ->
  loop_done kind (buf ++ concat chunks) tail (Some (self, Ok r)).
Proof.
  intros Hb Ho (H1 & H2 & H3) Hne. exists self, (Ok r). split; [done|].
  rewrite outcome_extend by done. split; [done|]. split; [done|]. exists chunks.
  do 2 (split; [done|]). by rewrite app_assoc, <- H3.
Qed.

Lemma loop_done_err kind buf chunks tail (self : Receiving) e :
  response_boundary kind buf <> BoundaryOpen ->
  outcome kind buf (end_error tail) = Err e -> br_state (rc_receiver self) = Unavailable ->
  loop_done kind (buf ++ concat chunks) tail (Some (self, Err e)).
Proof.
  intros Hb Ho Hs. exists self, (Err e). split; [done|]. by rewrite outcome_extend.
Qed.

Lemma receive_loop_correct chunks tail kind fuel acc more (self : Receiving) :
  decoder_inv kind acc (rc_decoder self) -> br_pending (rc_receiver self) = acc ++ more ->
  br_state (rc_receiver self) = Unavailable ->
  br_reader (rc_receiver self) = reader_of chunks tail ->
  Forall (fun c => c <> []) chunks -> stream_ends tail -> (length chunks < fuel)%nat ->
  loop_done kind ((acc ++ more) ++ concat chunks) tail (receive_loop find_end fuel self).
Proof.
  revert fuel acc more self. induction chunks as [|chunk chunks IH];
    intros fuel acc more self Hinv Hp Hst Hrd Hne Hend Hf; (destruct fuel as [|fuel]; [cbn in Hf; lia|]);
    cbn [receive_loop];
    pose proof (receiving_extract_correct kind acc more self (end_error tail) Hinv Hp) as Hx;
    (destruct (receiving_extract find_end self) as [self1 [[r|]|e]];
     [by (destruct Hx as (H1 & H2 & H3); apply loop_done_ok; rewrite <- ?Hrd)|
     |by (destruct Hx as (H1 & H2 & H3); apply loop_done_err; rewrite ?H3)]);
    destruct Hx as (Ho & Hinv1 & Hr1); set (buf := acc ++ more) in *;
    unfold read_and_extract, read_into_pending_bytes; rewrite Hr1, Hrd.
  - assert (outcome kind (buf ++ concat []) (end_error tail) = Err (end_error tail)) as Hout
      by (cbn [concat]; rewrite app_nil_r; unfold outcome; by rewrite Ho).
    unfold reader_of. cbn [fmap list_fmap app].
    destruct tail as [|[[|b c]|e] tail]; [| |done|]; eexists _, _; (split; [reflexivity|]);
      by rewrite Hout.
  - apply Forall_cons_1 in Hne as [Hc Hne]. unfold reader_of. cbn [fmap list_fmap app].
    destruct chunk as [|b chunk]; [done|]. cbn [length].
    set (self2 := {| rc_receiver := _; rc_decoder := rc_decoder self1 |}).
    assert (br_pending (rc_receiver self2) = buf ++ b :: chunk) as Hp2 by (cbn; by rewrite Hp).
    pose proof (receiving_extract_correct kind buf (b :: chunk) self2 (end_error tail) Hinv1 Hp2) as Hx.
    cbn [concat]. rewrite app_assoc.
    destruct (receiving_extract find_end self2) as [self3 [[r|]|e]].
    + destruct Hx as (H1 & H2 & H3). by apply loop_done_ok.
    + destruct Hx as (_ & Hinv3 & Hr3). rewrite <- (app_nil_r (buf ++ b :: chunk)).
      apply IH; [done|by rewrite Hr3, app_nil_r|by rewrite Hr3|by rewrite Hr3|done|done|].
      cbn [length] in Hf. lia.
    + destruct Hx as (H1 & H2 & H3). apply loop_done_err; [done|done|]. by rewrite H3.
Qed.

(** From a ready receiver, [receive] stops with the outcome of all the input. *)
Lemma receive_runs (kind : RequestKind) (chunks : list bytes)
    (tail : list (ReadEvent IoError)) (self : BufferedResponseReceiver IoError) :
  br_state self = Ready -> br_reader self = reader_of chunks tail ->
  Forall (fun c => c <> []) chunks -> stream_ends tail ->
  exists self' r, receive find_end self kind = Some (self', r)
    /\ r = outcome kind (br_pending self ++ concat chunks) (end_error tail)
    /\ receive_post (br_pending self ++ concat chunks) tail r self'.
Proof.
  intros Hs Hr Hne Hend. unfold receive, start_response. rewrite Hs. cbn [with_state br_reader].
  pose proof (receive_loop_correct chunks tail kind (S (length (br_reader self))) [] (br_pending self)
    {| rc_receiver := with_state self Unavailable; rc_decoder := decoder_new kind |}
    (decoder_new_inv kind) eq_refl eq_refl Hr Hne Hend) as Hl.
  destruct Hl as (self' & r & Hl & Hout & Hpost).
  { rewrite Hr. unfold reader_of. rewrite length_app, length_fmap. lia. }
  rewrite Hl. by exists (rc_receiver self'), r.
Qed.

(** Requests received one after another on one connection. *)
Fixpoint receive_each (self : BufferedResponseReceiver IoError) (kinds : list RequestKind)
    : option (BufferedResponseReceiver IoError * list (result OwnedResponse (client_error IoError))) :=
  match kinds with
  | [] => Some (self, [])
  | kind :: kinds' =>
      match receive find_end self kind with
      | None => None
      | Some (self, r) =>
          match receive_each self kinds' with
          | None => None
          | Some (self, rs) => Some (self, r :: rs)
          end
      end
  end.

(** A frame that is exactly one acceptable response to its request. *)
Definition whole_response (kind : RequestKind) (frame : bytes) (r : OwnedResponse) : Prop :=
  (exists i e c, response_boundary kind frame = BoundaryAt i e c (length frame))
  /\ outcome (IoError := IoError) kind frame ClientError.UnexpectedEof = Ok r.

Lemma whole_response_bytes kind frame r :
  whole_response kind frame r ->
  response_as_bytes r = frame
  /\ forall more (eof : client_error IoError), outcome kind (frame ++ more) eof = Ok r.
Proof.
  intros [(i & e & c & Hb) Ho]. split.
  - unfold outcome in Ho. rewrite Hb in Ho. apply into_owned_bytes in Ho. rewrite Ho.
    cbn [framed_at fs_bytes]. apply firstn_all.
  - intros more eof. rewrite outcome_extend by by rewrite Hb. rewrite <- Ho.
    unfold outcome. by rewrite Hb.
Qed.

(** C1: receiving is independent of how the input arrives. From a ready
    receiver, [receive] stops with the result that the pending bytes and all
    deliveries put together determine: the response cut at its boundary, the
    rejection of its first bad line or of its content, or the end-of-stream
    error when no boundary was reached. A success leaves the receiver ready
    with exactly the bytes after the response, pending or still to be read; a
    failure leaves it unavailable. *)
Theorem receive_correct (kind : RequestKind) (chunks : list bytes)
    (tail : list (ReadEvent IoError)) (self : BufferedResponseReceiver IoError) :
  br_state self = Ready -> br_reader self = reader_of chunks tail ->
  Forall (fun c => c <> []) chunks -> stream_ends tail ->
  exists self' r, receive find_end self kind = Some (self', r)
    /\ r = outcome kind (br_pending self ++ concat chunks) (end_error tail)
    /\ receive_post (br_pending self ++ concat chunks) tail r self'.
Proof. exact (receive_runs kind chunks tail self). Qed.

(** Whole responses are received one by one, whatever the deliveries. *)
Lemma receive_each_runs (expected : list (RequestKind * bytes * OwnedResponse))
    (chunks : list bytes) (tail : list (ReadEvent IoError))
    (self : BufferedResponseReceiver IoError) :
  Forall (fun x => whole_response (fst (fst x)) (snd (fst x)) (snd x)) expected ->
  br_state self = Ready -> br_reader self = reader_of chunks tail ->
  Forall (fun c => c <> []) chunks -> stream_ends tail ->
  br_pending self ++ concat chunks = concat ((fun x => snd (fst x)) <$> expected) ->
  exists self', receive_each self ((fun x => fst (fst x)) <$> expected)
                = Some (self', (fun x => Ok (snd x)) <$> expected)
    /\ br_state self' = Ready /\ br_pending self' = [].
Proof.
  intros Hex. revert self chunks. induction Hex as [|[[kind frame] r] expected Hx _ IH];
    intros self chunks Hs Hr Hne Hend Hin.
  { exists self. split; [done|]. split; [done|]. by apply app_nil in Hin as [-> _]. }
  rewrite fmap_cons in Hin. cbn [fst snd concat] in Hin, Hx.
  rewrite !fmap_cons. cbn [fst snd receive_each].
  destruct (receive_runs kind chunks tail self Hs Hr Hne Hend) as (self1 & r1 & Hrun & Ho & Hpost).
  destruct (whole_response_bytes _ _ _ Hx) as [Hbytes Hout]. rewrite Hin, Hout in Ho. subst r1.
  rewrite Hrun. destruct Hpost as (Hs1 & chunks1 & Hr1 & Hne1 & Hsplit).
  rewrite Hin, Hbytes in Hsplit. apply app_inv_head in Hsplit.
  destruct (IH self1 chunks1 Hs1 Hr1) as (self2 & Hall & Hs2 & Hp2); try done.
  rewrite Hall. by exists self2.
Qed.

(** Pipelined responses do not bleed into each other. When the input is one
    whole response per request, in request order, then however the bytes were
    packed into deliveries every request receives its own response, and nothing
    is left over. *)
Theorem receive_pipelined (expected : list (RequestKind * bytes * OwnedResponse))
    (chunks : list bytes) (tail : list (ReadEvent IoError))
    (self : BufferedResponseReceiver IoError) :
  Forall (fun x => whole_response (fst (fst x)) (snd (fst x)) (snd x)) expected ->
  br_state self = Ready -> br_reader self = reader_of chunks tail ->
  Forall (fun c => c <> []) chunks -> stream_ends tail ->
  br_pending self ++ concat chunks = concat ((fun x => snd (fst x)) <$> expected) ->
  exists self', receive_each self ((fun x => fst (fst x)) <$> expected)
                = Some (self', (fun x => Ok (snd x)) <$> expected)
    /\ br_state self' = Ready /\ br_pending self' = [].
Proof. exact (receive_each_runs expected chunks tail self). Qed.

Lemma chunks_concat fuel n l :
  (0 < n)%nat -> (length l <= fuel)%nat -> concat (chunks fuel n l) = l.
Proof.
  intros Hn. revert l. induction fuel as [|fuel IH]; intros l Hl.
  { by apply Nat.le_0_r, nil_length_inv in Hl as ->. }
  destruct l as [|b l]; [done|]. cbn [chunks concat].
  rewrite IH, take_drop; [done|]. rewrite length_drop. cbn [length] in *. lia.
Qed.

Lemma feed_fragments_correct fragments kind acc (self : Receiving) :
  decoder_inv kind acc (rc_decoder self) -> br_pending (rc_receiver self) = acc ->
  feed_fragments find_end self fragments
  = outcome kind (acc ++ concat fragments) (ClientError.UnexpectedEof (IoError := IoError)).
Proof.
  revert acc self. induction fragments as [|chunk fragments IH]; intros acc self Hinv Hp;
    cbn [feed_fragments concat].
  - rewrite app_nil_r. unfold outcome. by rewrite (streaming_inv_open _ _ _ (proj2 Hinv)).
  - unfold append_and_extract. rewrite Hp. set (self1 := {| rc_receiver := _; rc_decoder := _ |}).
    pose proof (receiving_extract_correct kind acc chunk self1 ClientError.UnexpectedEof Hinv eq_refl) as Hx.
    rewrite app_assoc.
    destruct (receiving_extract find_end self1) as [self2 [[r|]|e]].
    + destruct Hx as (H1 & H2 & _). by rewrite outcome_extend.
    + destruct Hx as (_ & Hinv2 & Hr2). apply IH; [done|]. by rewrite Hr2.
    + destruct Hx as (H1 & H2 & _). by rewrite outcome_extend.
Qed.

(** The synchronous chunk feeder used by the byte-fixture adapters gives, for
    every chunk size, the outcome of the whole buffer, which is also what the
    asynchronous receiver gives for it. *)
Theorem receive_fragments_correct (kind : RequestKind) (response : bytes) (chunk_bytes : nat) :
  receive_fragments find_end kind response chunk_bytes
  = outcome kind response (ClientError.UnexpectedEof (IoError := IoError))
  /\ (response <> [] ->
      snd <$> receive (IoError := IoError) find_end (receiver_new [ReadBytes response]) kind
      = Some (receive_fragments find_end kind response chunk_bytes)).
Proof.
  assert (receive_fragments find_end kind response chunk_bytes
          = outcome kind response (ClientError.UnexpectedEof (IoError := IoError))) as Hf.
  { unfold receive_fragments, start_response, receiver_new. cbn [br_state].
    rewrite (feed_fragments_correct _ kind []); [|apply decoder_new_inv|done].
    by rewrite chunks_concat by lia. }
  split; [done|]. intros Hne.
  destruct (receive_runs kind [response] [] (receiver_new [ReadBytes response])) as (self & r & -> & Hr & _);
    try done; [by repeat constructor|].
  cbn [fmap option_fmap option_map snd]. rewrite Hf, Hr. cbn [receiver_new br_pending concat app].
  by rewrite app_nil_r.
Qed.
End receiver.

(** ** Concrete deliveries *)

Definition packed_date : bytes := lit "111 20240102030405" ++ CRLF.

Definition packed_chunks : list bytes :=
  [lit "111 2024"; lit "0102030405" ++ [13]; [10] ++ take 20 sample_body; drop 20 sample_body].

Lemma packed_chunks_ne : Forall (fun c => c <> []) packed_chunks.
Proof. unfold packed_chunks. do 4 (constructor; [vm_compute; discriminate|]). constructor. Qed.

Definition packed_reader : list (ReadEvent Z) := reader_of packed_chunks [ReadError 7].

Lemma receive_correct_witness :
  exists self' r,
    receive find_streaming_terminator_end (receiver_new packed_reader) RequestKind.Date = Some (self', r)
    /\ r = outcome RequestKind.Date (packed_date ++ sample_body) (ClientError.Io 7)
    /\ is_ok r = true /\ br_state self' = Ready.
Proof.
  destruct (receive_correct find_streaming_terminator_end RequestKind.Date
              packed_chunks [ReadError 7] (receiver_new packed_reader)
              eq_refl eq_refl packed_chunks_ne I)
    as (self' & r & H1 & H2 & H3).
  exists self', r. split; [exact H1|]. split; [exact H2|].
  assert (is_ok r = true) as Hok by (rewrite H2; vm_compute; reflexivity).
  split; [exact Hok|]. destruct r; [exact (proj1 H3)|discriminate Hok].
Defined.

Definition response_of (o : result OwnedResponse (client_error Z)) : OwnedResponse :=
  match o with
  | Ok r => r
  | Err _ => Build_OwnedResponse
               (OwnedGeneric RequestKind.Unknown 0 [] (Build_ResponseContentRange 0 0))
  end.

Lemma sample_whole kind frame :
  match response_boundary kind frame with
  | BoundaryAt _ _ _ f => (f =? length frame)%nat | _ => false end = true ->
  is_ok (outcome (IoError := Z) kind frame ClientError.UnexpectedEof) = true ->
  whole_response (IoError := Z) kind frame (response_of (outcome kind frame ClientError.UnexpectedEof)).
Proof.
  intros Hb Ho. split.
  - destruct (response_boundary kind frame) as [| |i e c f]; [done..|].
    apply Nat.eqb_eq in Hb as ->. by exists i, e, c.
  - by destruct (outcome kind frame ClientError.UnexpectedEof).
Qed.

Lemma receive_pipelined_witness :
  let date := response_of (outcome RequestKind.Date packed_date ClientError.UnexpectedEof) in
  let body := response_of (outcome RequestKind.Body sample_body ClientError.UnexpectedEof) in
  exists self',
    receive_each find_streaming_terminator_end (receiver_new packed_reader)
      [RequestKind.Date; RequestKind.Body]
    = Some (self', [Ok date; Ok body]) /\ br_state self' = Ready /\ br_pending self' = [].
Proof.
  intros date body.
  apply (receive_pipelined find_streaming_terminator_end
           [(RequestKind.Date, packed_date, date); (RequestKind.Body, sample_body, body)]
           packed_chunks [ReadError 7] (receiver_new packed_reader)).
  - constructor; [apply sample_whole; vm_compute; reflexivity|].
    constructor; [apply sample_whole; vm_compute; reflexivity|constructor].
  - reflexivity.
  - reflexivity.
  - exact packed_chunks_ne.
  - exact I.
  - vm_compute. reflexivity.
Defined.

Lemma receive_fragments_correct_witness :
  receive_fragments (IoError := Z) find_streaming_terminator_end RequestKind.Date packed_date 3
  = outcome RequestKind.Date packed_date ClientError.UnexpectedEof
  /\ is_ok (receive_fragments (IoError := Z) find_streaming_terminator_end RequestKind.Date
              packed_date 3) = true.
Proof.
  destruct (receive_fragments_correct (IoError := Z) find_streaming_terminator_end
              RequestKind.Date packed_date 3) as [H _].
  split; [exact H|]. rewrite H. vm_compute. reflexivity.
Defined.
