(* ===== verification/ReceivedResponse.v ===== *)
(** * The two response paths agree

    The buffered receiver validates a framed response with the fields the
    streaming decoder kept; the whole-frame parser reads everything again from
    the frame.  This file proves that both accept the same responses and show
    the same content and article. *)
From S2P Require Import Prelude Utf8 Decimal Memchr Terminator Args Kinds RequestLine.
From S2P Require Import ResponseLine ResponseContent Capabilities ResponseBody Article.
From S2P Require Import ArticleHeaders ResponseFrame OwnedResponse ResponseReceiver.

Local Open Scope Z_scope.
Local Open Scope rust_scope.

Section lemmas.
Context `{Mc : !Memchr, Ms : !MemchrSpec}.

(** What a complete initial line records. *)
Lemma initial_complete_fields kind buf i e :
  initial_parse kind buf = InitialComplete i ->
  detect_response_line_end buf = ResponseLineStatus.CompleteAt e ->
  ri_descriptor i = descriptor_for_request_status kind (ri_status i)
  /\ (is_article_response kind (ri_status i) = true ->
      exists a, parse_response_initial_article (take e buf) = Some a /\ ri_article i = Some a).
Proof.
  intros Hi Hd. unfold initial_parse, detect_bounded_response_line_end in Hi. rewrite Hd in Hi.
  destruct (e <=? _)%nat; [|done]. destruct (StatusCode.parse buf) as [s|]; [|done].
  destruct (is_article_response kind s) eqn:Ea.
  - destruct (parse_response_initial_article (take e buf)) as [a|];
      destruct (framing _); try done; injection Hi as <-; split; try done; eauto.
  - destruct (negb _); destruct (framing _); try done; injection Hi as <-; split; try done;
      cbn [ri_status]; by rewrite Ea.
Qed.

(** An article line in the terms of its arguments. *)
Lemma article_line_Some d0 d1 d2 rest a :
  parse_response_initial_article ([d0; d1; d2] ++ rest ++ CRLF) = Some a ->
  exists arguments, rest = SP :: arguments /\ article_arguments 4 arguments = Some a.
Proof.
  intros Ha. destruct rest as [|b arguments].
  { unfold parse_response_initial_article in Ha.
    by rewrite (proj2 (strip_suffix_Some _ CRLF [d0; d1; d2])) in Ha. }
  destruct (Z.eq_dec b SP) as [->|Hb].
  - exists arguments. split; [done|]. rewrite <- Ha. symmetry.
    exact (article_line_arguments d0 d1 d2 arguments).
  - unfold parse_response_initial_article in Ha.
    rewrite (proj2 (strip_suffix_Some _ CRLF ([d0; d1; d2] ++ b :: arguments))) in Ha by done.
    cbn [mbind option_bind] in Ha. rewrite bool_decide_eq_false_2 in Ha; [done|].
    by intros [= ->].
Qed.

Lemma article_arguments_range base arguments a :
  article_arguments base arguments = Some a ->
  (rir_start (ria_message_id a) <= rir_end (ria_message_id a))%nat
  /\ (rir_end (ria_message_id a) <= base + length arguments)%nat.
Proof.
  intros Ha. destruct (article_arguments_Some _ _ _ Ha) as (o & n & m & r & Ho & Hn & Hd & Hm & Hr).
  rewrite (article_arguments_valid_field base o arguments n m r) in Ha by done.
  injection Ha as <-. cbn [ria_message_id rir_start rir_end].
  apply find_byte_lt in Ho. apply (f_equal length) in Hd.
  rewrite length_drop, length_app in Hd. lia.
Qed.

(** The first line of an article response, from either parser. *)
Lemma first_lines_agree kind buf i e f :
  initial_parse kind buf = InitialComplete i ->
  detect_response_line_end buf = ResponseLineStatus.CompleteAt e ->
  is_article_response kind (ri_status i) = true -> (e <= f)%nat -> (f <= length buf)%nat ->
  exists line, validated_first_line_from_initial i e = Ok line
    /\ validate_first_line (take f buf) (Build_ArticleFrameRange 0 (e - 2)) = Ok line.
Proof.
  intros Hi Hd Ha Hef Hf. destruct (initial_complete_fields _ _ _ _ Hi Hd) as [_ Hart].
  destruct (Hart Ha) as (a & Hpa & Hia). destruct (initial_complete_end _ _ _ Hi) as (_ & _ & _ & Hs).
  destruct (status_line_shape buf e _ Hd Hs)
    as (d0 & d1 & d2 & rest & more & Hb & He & Hl & _ & _ & Hsp).
  rewrite Hl in Hpa. destruct (article_line_Some _ _ _ _ _ Hpa) as (arguments & -> & Haa).
  destruct (article_arguments_range _ _ _ Haa) as [Hr1 Hr2].
  cbn [length] in He. exists (Build_ValidatedFirstLine
    (Build_ArticleFrameRange (rir_start (ria_message_id a)) (rir_end (ria_message_id a)))
    (ria_article_number a)).
  unfold validated_first_line_from_initial, validate_first_line, first_line_end_of, range_new.
  rewrite Hia. cbn [ok_or]. change (length CRLF) with 2%nat.
  rewrite (proj2 (Nat.ltb_ge e 2)) by lia. rewrite (proj2 (Nat.ltb_ge _ _)) by lia.
  rewrite (proj2 (Nat.leb_le _ _)) by done. split; [done|].
  assert (range_slice (Build_ArticleFrameRange 0 (e - 2)) (take f buf)
          = Ok ([d0; d1; d2; SP] ++ arguments)) as ->.
  { unfold range_slice, get_range. cbn [afr_start afr_end Nat.leb andb].
    rewrite (proj2 (Nat.leb_le _ _)) by (rewrite length_take; lia). cbn [ok_or]. unfold slice.
    rewrite drop_0, Nat.sub_0_r, take_take, Nat.min_l by lia. f_equal.
    replace (e - 2)%nat with (Nat.min (e - 2) e) by lia. rewrite <- take_take, Hl.
    rewrite app_assoc, take_app_le by (rewrite length_app; cbn [length]; lia).
    apply firstn_all2. rewrite length_app. cbn [length]. lia. }
  rewrite (parse_first_line_Some _ _ _ _ _ Hsp Haa).
  cbn [pfl_message_id_range pfl_article_number afr_start afr_end Nat.add ok_or].
  by rewrite (proj2 (Nat.leb_le _ _)).
Qed.

Lemma article_status_range kind s :
  is_article_response kind s = true -> in_range 220 223 s = true.
Proof. by destruct kind; try done; intros ->%Z.eqb_eq. Qed.

(** The layout the typestate computes is the one the frame parser computes. *)
Lemma layouts_agree kind buf i e c f :
  response_boundary kind buf = BoundaryAt i e c f ->
  is_article_response kind (ri_status i) = true ->
  validate_response_frame (frame_at kind buf i e c f)
  = let? layout := validated_layout (framed_at kind buf i e c f) in Ok (take f buf, layout).
Proof.
  intros Hb Ha. destruct (boundary_bounds _ _ _ _ _ _ Hb) as (Hd & Hi & He & Hn & _).
  unfold validate_response_frame, validated_layout.
  cbn [frame_at framed_at rf_bytes rf_content_start rf_content_end fs_status fs_bytes
       fs_status_line_end fs_content_end fs_initial].
  rewrite (article_status_range _ _ Ha). cbn [negb].
  destruct (first_lines_agree kind buf i e f Hi Hd Ha ltac:(lia) ltac:(lia)) as (line & -> & Hv).
  destruct (from_known_content_bounds (take f buf) e c e) as [framed|] eqn:Ek; [|done].
  apply from_known_inv in Ek as (Hfb & _ & Hfl & _).
  unfold framed_validate, validate_for_status, article_parse_status_code.
  destruct (initial_complete_end _ _ _ Hi) as (_ & _ & _ & Hs).
  assert (StatusCode.parse (take f buf) = Some (ri_status i)) as Hst.
  { rewrite <- Hs. rewrite <- (take_drop f buf) at 2. symmetry.
    apply status_parse_app. rewrite length_take. lia. }
  rewrite Hfb, Hst, Hfl, Hv. cbn [ok_or].
  by destruct (validate_for_status_with_first_line framed (ri_status i) line).
Qed.
End lemmas.

Section agreement.
Context `{Mc : !Memchr, Ms : !MemchrSpec} {IoError : Type}.
Context (find_end : bytes -> option nat) `{Hfe : !TerminatorFinder find_end}.

Lemma slice_take (buf : bytes) e c f : (c <= f)%nat -> slice (take f buf) e c = slice buf e c.
Proof.
  intros Hc. unfold slice. rewrite skipn_firstn_comm, take_take. f_equal. lia.
Qed.

Lemma get_range_take (buf : bytes) e c f :
  (e <= c)%nat -> (c <= f)%nat -> (f <= length buf)%nat ->
  get_range (take f buf) e c = Some (slice buf e c).
Proof.
  intros He Hc Hf. unfold get_range. rewrite length_take.
  rewrite (proj2 (Nat.leb_le e c)), (proj2 (Nat.leb_le c _)) by lia. cbn [andb].
  by rewrite slice_take.
Qed.

Lemma content_range_at kind buf i e c f :
  (e <= c)%nat -> (c <= f)%nat -> (f <= length buf)%nat ->
  generic_content_range (framed_at kind buf i e c f) = Some (Build_ResponseContentRange e c).
Proof.
  intros He Hc Hf. unfold generic_content_range, content_range_new.
  cbn [framed_at fs_status_line_end fs_content_end fs_bytes]. rewrite length_take.
  by rewrite (proj2 (Nat.leb_le e c)), (proj2 (Nat.leb_le c _)) by lia.
Qed.

(** What a received response shows, against a frame. *)
Definition shows (r : OwnedResponse) (f : ResponseFrame) : Prop :=
  response_kind r = rf_kind f /\ response_status r = rf_status f
  /\ response_as_bytes r = rf_bytes f /\ response_content r = Some (rf_content f)
  /\ response_parse_article r = parse_framed_response f.

(** Why the receiver may hand out what the frame parser refuses: an article is
    validated when it is asked for, and an unusable capability list is still a
    frame. *)
Definition deferred (kind : RequestKind) (r : OwnedResponse) : Prop :=
  response_kind r = kind /\ is_ok (response_parse_article r) = false
  /\ (is_article_response kind (response_status r) = true
      \/ kind = RequestKind.Capabilities /\ response_status r = 101).

Definition verdicts_agree (kind : RequestKind)
    (r : result OwnedResponse (client_error IoError)) (v : frame_result) : Prop :=
  match v with
  | ResponseFrameParse.NeedMore => False
  | ResponseFrameParse.Complete f => exists response, r = Ok response /\ shows response f
  | ResponseFrameParse.Invalid =>
      match r with
      | Ok response => deferred kind response
      | Err e => e = ClientError.InvalidStatusLine
      end
  end.

Lemma article_verdicts kind buf i e c f :
  response_boundary kind buf = BoundaryAt i e c f ->
  is_article_response kind (ri_status i) = true ->
  verdicts_agree kind (into_owned_response (framed_at kind buf i e c f))
    (judge (frame_at kind buf i e c f)).
Proof.
  intros Hb Ha. destruct (boundary_bounds _ _ _ _ _ _ Hb) as (_ & _ & He & Hn & _).
  unfold into_owned_response. cbn [framed_at fs_kind fs_status]. rewrite Ha.
  unfold judge, validate_response_content. cbn [frame_at rf_kind rf_status]. rewrite Ha.
  fold (frame_at kind buf i e c f). rewrite (layouts_agree kind buf i e c f Hb Ha).
  fold (framed_at kind buf i e c f).
  destruct (validated_layout (framed_at kind buf i e c f)) as [layout|err] eqn:Ev.
  - cbn [verdicts_agree]. eexists. split; [done|].
    unfold shows, response_content, response_parse_article, framed_content, validate_borrowed.
    cbn [or_content]. rewrite content_range_at, Ev by lia.
    split_and!; try done. cbn [fmap option_fmap option_map].
    unfold content_range_slice. cbn [rcr_start rcr_end framed_at fs_bytes].
    by rewrite slice_take by lia.
  - cbn [verdicts_agree]. unfold deferred, response_parse_article, validate_borrowed.
    cbn [or_content]. rewrite Ev. split; [done|]. split; [done|]. by left.
Qed.

Lemma generic_verdicts kind buf i e c f :
  response_boundary kind buf = BoundaryAt i e c f ->
  is_article_response kind (ri_status i) = false ->
  verdicts_agree kind (into_owned_response (framed_at kind buf i e c f))
    (judge (frame_at kind buf i e c f)).
Proof.
  intros Hb Ha. destruct (boundary_bounds _ _ _ _ _ _ Hb) as (Hd & Hi & He & Hn & _).
  destruct (initial_complete_fields _ _ _ _ Hi Hd) as [Hdesc _].
  assert (get_range (take f buf) 0 e = Some (take e buf)) as Hline.
  { rewrite get_range_take by lia. unfold slice. by rewrite drop_0, Nat.sub_0_r. }
  unfold into_owned_response. rewrite content_range_at by lia.
  cbn [framed_at fs_kind fs_status fs_bytes fs_status_line_end fs_content_end].
  rewrite Ha, Hline, get_range_take by lia. cbn [ok_or].
  unfold judge, validate_response_content. cbn [frame_at rf_kind rf_status rf_descriptor].
  rewrite Ha. unfold validate_framed_non_article_response_content. rewrite Ha, Hdesc.
  assert (forall g, shows (Build_OwnedResponse
            (OwnedGeneric kind (ri_status i) (take f buf) (Build_ResponseContentRange e c)))
            (with_validation (frame_at kind buf i e c f) g) \/ g <> Generic) as Hshow.
  { intros [|b l]; [left|by right]. unfold shows, response_content. cbn [or_content].
    split_and!; try done. unfold content_range_slice. cbn [rcr_start rcr_end].
    by rewrite slice_take by lia. }
  destruct (Hshow Generic) as [Hg|Hg]; [|done].
  destruct (ResponseFraming.is_multiline _); cbn [negb andb].
  - cbn [frame_at rf_status_line rf_content].
    destruct (validate_non_article_response_content kind (take e buf) (slice buf e c));
      cbn [negb andb].
    + cbn [verdicts_agree]. eexists. split; [done|]. exact Hg.
    + destruct (RequestKind.eqb kind RequestKind.Capabilities && (ri_status i =? 101)) eqn:Ec;
        cbn [negb verdicts_agree ok_or]; [|done].
      apply andb_true_iff in Ec as [Ek%eqb_spec Es%Z.eqb_eq].
      split; [done|]. split; [done|]. by right.
  - cbn [verdicts_agree ok_or]. eexists. split; [done|]. exact Hg.
Qed.

(** C2: the buffered receiver and the whole-frame parser agree on every input.
    Where the parser finds a complete response, the receiver returns it with the
    same kind, status, bytes, content and, when asked, the same article; where
    the parser wants more, the receiver reports the end of the input; where the
    parser refuses, the receiver refuses too, except that an article whose
    sections are malformed is refused when its view is asked for, and that an
    unusable capability list is handed out as a frame. *)
Theorem receiver_matches_frame (kind : RequestKind) (input : bytes)
    (eof : client_error IoError) :
  match frame_parse find_end kind input with
  | ResponseFrameParse.NeedMore => outcome kind input eof = Err eof
  | v => verdicts_agree kind (outcome kind input eof) v
  end.
Proof.
  rewrite frame_parse_boundary by done. unfold outcome.
  destruct (response_boundary kind input) as [| |i e c f] eqn:Eb; [done..|].
  cbn [frame_of_boundary].
  assert (verdicts_agree kind (into_owned_response (framed_at kind input i e c f))
            (judge (frame_at kind input i e c f))) as Hv.
  { destruct (is_article_response kind (ri_status i)) eqn:Ea;
      [by apply article_verdicts | by apply generic_verdicts]. }
  destruct (judge (frame_at kind input i e c f)) eqn:Ej; try exact Hv. done.
Qed.

(** A framed article at a boundary, and its validation. *)
Lemma validated_layout_content kind buf i e c f layout :
  response_boundary kind buf = BoundaryAt i e c f ->
  validated_layout (framed_at kind buf i e c f) = Ok layout ->
  content_range layout = Build_ArticleFrameRange e c.
Proof.
  intros Hb Hv. unfold validated_layout in Hv.
  destruct (negb _); [done|]. destruct (validated_first_line_from_initial _ _) as [line|]; [|done].
  destruct (from_known_content_bounds _ _ _ _) as [framed|] eqn:Ek; [|done].
  by destruct (layout_sound _ _ _ _ _ _ _ _ Ek Hv) as (_ & _ & Hr & _).
Qed.

Lemma article_outcome kind input r (eof : client_error IoError) :
  outcome kind input eof = Ok r -> is_article_response kind (response_status r) = true ->
  exists i e c f, response_boundary kind input = BoundaryAt i e c f
    /\ r = Build_OwnedResponse (OwnedFramed (framed_at kind input i e c f)).
Proof.
  unfold outcome. destruct (response_boundary kind input) as [| |i e c f] eqn:Eb; [done..|].
  intros Ho Ha. exists i, e, c, f. split; [done|].
  destruct (is_article_response kind (ri_status i)) eqn:Ei.
  - unfold into_owned_response in Ho. cbn [framed_at fs_kind fs_status] in Ho.
    rewrite Ei in Ho. by injection Ho as <-.
  - exfalso.
    assert (response_status r = ri_status i) as Hs; [|congruence].
    unfold into_owned_response in Ho. cbn [framed_at fs_kind fs_status] in Ho. rewrite Ei in Ho.
    destruct (get_range _ 0 _); [|done]. cbn [ok_or] in Ho.
    destruct (get_range _ _ _); [|done]. cbn [ok_or] in Ho.
    destruct (_ && _); [done|]. destruct (generic_content_range _); [|done].
    by injection Ho as <-.
Qed.

Lemma expected_status kind s :
  is_article_response kind s = true -> s = expected_article_status kind.
Proof. by destruct kind; try done; intros ->%Z.eqb_eq. Qed.

(** Moving a received article through its typestates keeps what it shows.
    Taking it as an article costs no validation and is undone by handing it
    back; validating it succeeds exactly when its borrowed view does, and then
    retains the same article, bytes and content; otherwise it reports the
    response as invalid. *)
Theorem owned_article_transitions (kind : RequestKind) (input : bytes) (r : OwnedResponse)
    (eof : client_error IoError) :
  outcome kind input eof = Ok r -> is_article_response kind (response_status r) = true ->
  (exists a, from_response (IoError := IoError) r FramingOnly = Ok a /\ into_response a = r)
  /\ match from_response (IoError := IoError) r Full with
     | Ok a =>
         owned_article a = response_parse_article r /\ is_ok (owned_article a) = true
         /\ owned_kind a = response_kind r /\ owned_status a = response_status r
         /\ owned_as_bytes a = response_as_bytes r
         /\ owned_content a = response_content r /\ owned_content a <> None
     | Err e => e = ClientError.InvalidStatusLine /\ is_ok (response_parse_article r) = false
     end.
Proof.
  intros Ho Ha. destruct (article_outcome kind input r eof Ho Ha) as (i & e & c & f & Hb & ->).
  destruct (boundary_bounds _ _ _ _ _ _ Hb) as (_ & _ & He & Hn & _).
  cbn [response_status or_content framed_at fs_status] in Ha. fold (framed_at kind input i e c f) in *.
  unfold from_response, response_status, response_kind. cbn [or_content framed_at fs_status fs_kind].
  fold (framed_at kind input i e c f).
  rewrite (expected_status _ _ Ha), Z.eqb_refl. cbn [negb].
  split; [by eexists|]. unfold owned_validate, state_validate. cbn [oa_article].
  destruct (validated_layout (framed_at kind input i e c f)) as [layout|err] eqn:Ev; cbn [map_err].
  - unfold response_parse_article, validate_borrowed, owned_content, response_content, validated_content,
      framed_content. cbn [or_content oa_article vs_layout vs_bytes]. rewrite Ev.
    rewrite (validated_layout_content _ _ _ _ _ _ _ Hb Ev), content_range_at by lia.
    unfold range_slice. cbn [afr_start afr_end framed_at fs_bytes].
    rewrite get_range_take by lia. cbn [ok_or fmap option_fmap option_map].
    unfold content_range_slice. cbn [rcr_start rcr_end fs_bytes].
    rewrite slice_take by lia. split_and!; try done. exact (expected_status _ _ Ha).
  - split; [done|]. unfold response_parse_article, validate_borrowed. cbn [or_content]. by rewrite Ev.
Qed.
End agreement.

Definition body_outcome : result OwnedResponse (client_error Z) :=
  outcome RequestKind.Body sample_body ClientError.UnexpectedEof.

Lemma owned_article_transitions_witness :
  exists a, from_response (IoError := Z) (response_of body_outcome) FramingOnly = Ok a
    /\ into_response a = response_of body_outcome.
Proof.
  assert (body_outcome = Ok (response_of body_outcome)) as Ho by (vm_compute; reflexivity).
  assert (is_article_response RequestKind.Body (response_status (response_of body_outcome)) = true)
    as Ha by (vm_compute; reflexivity).
  exact (proj1 (owned_article_transitions RequestKind.Body sample_body (response_of body_outcome)
                  ClientError.UnexpectedEof Ho Ha)).
Defined.

Lemma receiver_matches_frame_witness :
  verdicts_agree RequestKind.Body body_outcome (ResponseFrameParse.Complete sample_frame).
Proof.
  pose proof (receiver_matches_frame (IoError := Z) find_streaming_terminator_end RequestKind.Body
                sample_body ClientError.UnexpectedEof) as H.
  rewrite sample_frame_parses in H. exact H.
Defined.
