(* ===== verification/ClientWire.v ===== *)
(** * The client's asynchronous writers ([src/src/client.rs])

    The functions that put requests on a connection: vectored writes with
    partial progress ([write_all_vectored]), one writer per request form
    ([write_request_wire]), the dot-stuffed article, and the coalescing of a
    batch into one buffer ([write_requests_buffered], [VecSink]).  The transport
    is the interface [AsyncWrite]; the writers are proved to deliver exactly
    what the synchronous [write_wire_to] of [Requests] writes. *)
From S2P Require Import Prelude Utf8 Decimal Terminator Args Kinds Requests.
From S2P Require Import RequestLine RequestWire.

Local Open Scope Z_scope.
Local Open Scope rust_scope.

(** ** Errors of the transport *)

(** [io::ErrorKind]: the kinds the client and the server name, and the others. *)
Module ErrorKind.
Inductive ErrorKind : Type :=
  WriteZero | InvalidData | InvalidInput | UnexpectedEof | NotFound | ConnectionRefused | TimedOut
| BrokenPipe | Other (code : Z).
End ErrorKind.

(** [io::Error], as far as the client looks into it: [kind()] and [to_string()]. *)
Record IoError : Type := { io_kind : ErrorKind.ErrorKind; io_message : bytes }.

(** ** The transport *)

(** A writer of tokio.  [poll_write_vectored] is one completed call; [write_all]
    is the method of tokio's extension trait; [sent] is what has reached the
    peer, which no code reads. *)
Class AsyncWrite (W : Type) := {
  poll_write_vectored : W -> list bytes -> result nat IoError * W;
  write_all : W -> bytes -> result unit IoError * W;
  sent : W -> bytes;
}.

(** The documented behaviour: a vectored write sends some of the bytes, in
    order, and returns how many; an error sends nothing.  [write_all] sends
    everything, or stops with an error somewhere in between. *)
Class AsyncWriteSpec (W : Type) `{!AsyncWrite W} : Prop := {
  poll_ok w bufs n w' : poll_write_vectored w bufs = (Ok n, w') ->
    (n <= length (concat bufs))%nat /\ sent w' = sent w ++ take n (concat bufs);
  poll_err w bufs e w' : poll_write_vectored w bufs = (Err e, w') -> sent w' = sent w;
  write_all_ok w data w' : write_all w data = (Ok tt, w') -> sent w' = sent w ++ data;
  write_all_err w data e w' : write_all w data = (Err e, w') ->
    exists p q, data = p ++ q /\ sent w' = sent w ++ p;
}.

(** A writer that never fails and never refuses all of a non-empty write. *)
Class ReliableWrite (W : Type) `{!AsyncWrite W} : Prop := {
  poll_reliable w bufs : concat bufs <> [] ->
    exists n w', poll_write_vectored w bufs = (Ok n, w') /\ (0 < n)%nat;
  write_all_reliable w data : exists w', write_all w data = (Ok tt, w');
}.

(** ** Vectored writes *)

(** An [async fn] over a writer, run to its end. *)
Abbreviation writing W := (W -> result unit IoError * W).

(** [first.await?; next.await]. *)
Definition and_then {W} (first next : writing W) : writing W := fun w =>
  match first w with
  | (Ok _, w) => next w
  | (Err e, w) => (Err e, w)
  end.
Notation "m ;>> k" := (and_then m k) (at level 100, right associativity) : rust_scope.

(** [IoSlice::advance_slices]: drop the written slices, cut the first one left.
    Its panic, for more bytes than there are, is out of reach of a writer that
    reports at most what it was offered. *)
Fixpoint advance_slices (left : nat) (bufs : list bytes) : list bytes :=
  match bufs with
  | [] => []
  | buf :: rest =>
      if (length buf <=? left)%nat then advance_slices (left - length buf) rest
      else drop left buf :: rest
  end.

Definition write_zero : IoError :=
  {| io_kind := ErrorKind.WriteZero; io_message := lit "failed to write buffers" |}.

Definition invalid_article_number : IoError :=
  {| io_kind := ErrorKind.InvalidData; io_message := lit "invalid article number" |}.

Section writers.
Context {W : Type} `{Aw : !AsyncWrite W}.

(** Every round that goes on has sent a byte, so one more round than bytes is
    enough; [write_all_vectored_delivers] shows the spent fuel is never met. *)
Fixpoint write_all_vectored_loop (fuel : nat) (remaining : list bytes) : writing W := fun w =>
  match fuel with
  | O => (Ok tt, w)
  | S fuel' =>
      match remaining with
      | [] => (Ok tt, w)
      | _ :: _ =>
          match poll_write_vectored w remaining with
          | (Err e, w) => (Err e, w)
          | (Ok written, w) =>
              if (written =? 0)%nat then (Err write_zero, w)
              else write_all_vectored_loop fuel' (advance_slices written remaining) w
          end
      end
  end.

Definition write_all_vectored (slices : list bytes) : writing W :=
  write_all_vectored_loop (S (length (concat slices))) slices.

Definition write_slices (slices : list bytes) : writing W := write_all_vectored slices.

(** ** One writer per request form *)

Definition write_simple_request_wire (verb : bytes) : writing W := write_slices [verb; CRLF].

Definition write_article_ref_request_wire (verb : bytes)
    (article_ref : ArticleRef.ArticleRef) : writing W :=
  match article_ref with
  | ArticleRef.Current => write_slices [verb; CRLF]
  | ArticleRef.Number number => fun w =>
      (* the number goes through a string of at most twenty bytes *)
      let number_buf := print_decimal number in
      if (20 <? length number_buf)%nat then (Err invalid_article_number, w)
      else write_slices [verb; lit " "; number_buf; CRLF] w
  | ArticleRef.MessageId message_id => write_slices [verb; lit " "; message_id; CRLF]
  end.

Definition write_message_id_request_wire (verb message_id : bytes) : writing W :=
  write_slices [verb; message_id; CRLF].

Definition write_one_arg_request_wire (verb arg : bytes) : writing W :=
  write_slices [verb; arg; CRLF].

Definition write_optional_arg_request_wire (verb : bytes) (arg : option bytes) : writing W :=
  match arg with
  | Some arg => write_slices [verb; lit " "; arg; CRLF]
  | None => write_simple_request_wire verb
  end.

Definition write_two_arg_request_wire (verb left right : bytes) : writing W :=
  write_slices [verb; left; lit " "; right; CRLF].

Definition write_header_query_request_wire (verb header : bytes) (selector : option bytes) : writing W :=
  match selector with
  | Some selector => write_slices [verb; lit " "; header; lit " "; selector; CRLF]
  | None => write_slices [verb; lit " "; header; CRLF]
  end.

Definition write_listgroup_request_wire (group range : option bytes) : writing W :=
  match group, range with
  | None, None => write_simple_request_wire (lit "LISTGROUP")
  | Some group, None => write_one_arg_request_wire (lit "LISTGROUP ") group
  | None, Some _ => write_simple_request_wire (lit "LISTGROUP")
  | Some group, Some range => write_two_arg_request_wire (lit "LISTGROUP ") group range
  end.

Definition datetime_suffix (gmt : bool) : bytes := if gmt then lit " GMT" ++ CRLF else CRLF.

Definition write_datetime_request_wire (verb date time : bytes) (gmt : bool) : writing W :=
  write_slices [verb; date; lit " "; time; datetime_suffix gmt].

Definition write_newnews_request_wire (wildmat date time : bytes) (gmt : bool) : writing W :=
  write_slices [lit "NEWNEWS "; wildmat; lit " "; date; lit " "; time; datetime_suffix gmt].

Definition write_list_request_wire (kind : ListKind.ListKind) (wildmat : option bytes) : writing W :=
  match wildmat with
  | Some wildmat => write_slices [lit "LIST "; ListKind.as_wire kind; lit " "; wildmat; CRLF]
  | None => write_slices [lit "LIST "; ListKind.as_wire kind; CRLF]
  end.

Definition write_authinfo_request_wire (kind : AuthInfoKind.AuthInfoKind) (value : bytes) : writing W :=
  write_slices [lit "AUTHINFO "; AuthInfoKind.as_wire kind; lit " "; value; CRLF].

(** ** Articles *)

Definition write_article_line (line : bytes) : writing W :=
  if starts_with line (lit ".") then write_all_vectored [lit "."; line; CRLF]
  else write_all_vectored [line; CRLF].

Fixpoint write_article_lines (lines : list bytes) : writing W :=
  match lines with
  | [] => fun w => (Ok tt, w)
  | line :: lines => write_article_line line ;>> write_article_lines lines
  end.

Definition write_dot_stuffed_article (payload : bytes) : writing W := fun w =>
  if (length payload =? 0)%nat then write_all w DOT_TERMINATOR
  else (write_article_lines (crlf_normalized_payload_lines payload)
        ;>> (fun w => write_all w DOT_TERMINATOR)) w.

Definition write_takethis_request_wire (message_id article : bytes) : writing W :=
  write_message_id_request_wire (lit "TAKETHIS ") message_id ;>> write_dot_stuffed_article article.

Definition write_request_wire (request : Request.Request) : writing W :=
  match request with
  | Request.Article article_ref => write_article_ref_request_wire (lit "ARTICLE") article_ref
  | Request.Body article_ref => write_article_ref_request_wire (lit "BODY") article_ref
  | Request.Head article_ref => write_article_ref_request_wire (lit "HEAD") article_ref
  | Request.Stat article_ref => write_article_ref_request_wire (lit "STAT") article_ref
  | Request.ListVariant kind wildmat => write_list_request_wire kind wildmat
  | Request.Group group => write_one_arg_request_wire (lit "GROUP ") group
  | Request.ListGroup group range => write_listgroup_request_wire group range
  | Request.Last => write_simple_request_wire (lit "LAST")
  | Request.Next => write_simple_request_wire (lit "NEXT")
  | Request.Over selector => write_optional_arg_request_wire (lit "OVER") selector
  | Request.Xover selector => write_optional_arg_request_wire (lit "XOVER") selector
  | Request.Hdr header selector => write_header_query_request_wire (lit "HDR") header selector
  | Request.Xhdr header selector => write_header_query_request_wire (lit "XHDR") header selector
  | Request.NewGroups date time gmt => write_datetime_request_wire (lit "NEWGROUPS ") date time gmt
  | Request.NewNews wildmat date time gmt => write_newnews_request_wire wildmat date time gmt
  | Request.Post => write_simple_request_wire (lit "POST")
  | Request.Ihave message_id => write_message_id_request_wire (lit "IHAVE ") message_id
  | Request.Check message_id => write_message_id_request_wire (lit "CHECK ") message_id
  | Request.TakeThis message_id article => write_takethis_request_wire message_id article
  | Request.AuthInfo kind value => write_authinfo_request_wire kind value
  | Request.StartTls => write_simple_request_wire (lit "STARTTLS")
  | Request.List => write_simple_request_wire (lit "LIST")
  | Request.Help => write_simple_request_wire (lit "HELP")
  | Request.Capabilities None => write_simple_request_wire (lit "CAPABILITIES")
  | Request.Capabilities (Some keyword) => write_one_arg_request_wire (lit "CAPABILITIES ") keyword
  | Request.Date => write_simple_request_wire (lit "DATE")
  | Request.ModeReader => write_simple_request_wire (lit "MODE READER")
  | Request.ModeStream => write_simple_request_wire (lit "MODE STREAM")
  | Request.Quit => write_simple_request_wire (lit "QUIT")
  end.
End writers.

(** ** Batches *)

(** The in-memory writer of a batch.  Its vectored write is tokio's default:
    the first non-empty slice goes to [poll_write]. *)
Record VecSink : Type := { vs_buf : bytes }.

Definition vec_sink_poll_write (self : VecSink) (data : bytes) : result nat IoError * VecSink :=
  (Ok (length data), {| vs_buf := vs_buf self ++ data |}).

Fixpoint first_non_empty (bufs : list bytes) : bytes :=
  match bufs with
  | [] => []
  | [] :: rest => first_non_empty rest
  | buf :: _ => buf
  end.

#[export] Instance vec_sink_write : AsyncWrite VecSink := {
  poll_write_vectored w bufs := vec_sink_poll_write w (first_non_empty bufs);
  write_all w data := (Ok tt, snd (vec_sink_poll_write w data));
  sent := vs_buf;
}.

Fixpoint write_each {W} `{!AsyncWrite W} (batch : list Request.Request) : writing W :=
  match batch with
  | [] => fun w => (Ok tt, w)
  | request :: batch => write_request_wire request ;>> write_each batch
  end.

(** The buffer is cleared, the batch encoded into it, and the buffer written. *)
Definition write_requests_buffered {W} `{!AsyncWrite W} (batch : list Request.Request) : writing W :=
  fun w =>
  match write_each batch {| vs_buf := [] |} with
  | (Err e, _) => (Err e, w)
  | (Ok _, sink) => write_all w (vs_buf sink)
  end.

Definition LARGE_PAYLOAD_BYTES : nat := 8 * 1024.

Definition request_has_large_payload (request : Request.Request) : bool :=
  match request with
  | Request.TakeThis _ article => (LARGE_PAYLOAD_BYTES <? length article)%nat
  | _ => false
  end.

(** What the writer task does with a batch. *)
Definition write_batch {W} `{!AsyncWrite W} (batch : list Request.Request) : writing W :=
  match batch with
  | [request] => write_request_wire request
  | _ => write_requests_buffered batch
  end.

(** ** What a writer delivers *)

(** [m] delivers [data]: all of it, or a part from the start and an error. *)
Definition delivers {W} `{!AsyncWrite W} (m : writing W) (data : bytes) : Prop :=
  forall w, match m w with
  | (Ok _, w') => sent w' = sent w ++ data
  | (Err _, w') => exists p q, data = p ++ q /\ sent w' = sent w ++ p
  end.

(** [m] never fails. *)
Definition completes {W} (m : writing W) : Prop := forall w, exists w', m w = (Ok tt, w').

Section delivery.
Context {W : Type} `{Aw : !AsyncWrite W, As : !AsyncWriteSpec W}.

Lemma delivers_nil : delivers (fun w : W => (Ok tt, w)) [].
Proof. intros w. by rewrite app_nil_r. Qed.

Lemma delivers_fails (m : writing W) e data :
  (forall w, m w = (Err e, w)) -> delivers m data.
Proof. intros H w. rewrite H. exists [], data. by rewrite app_nil_r. Qed.

Lemma delivers_write_all data : delivers (fun w : W => write_all w data) data.
Proof.
  intros w. destruct (write_all w data) as [[[]|e] w'] eqn:E.
  - by apply write_all_ok.
  - eapply write_all_err; eassumption.
Qed.

Lemma delivers_then (m k : writing W) a b :
  delivers m a -> delivers k b -> delivers (m ;>> k) (a ++ b).
Proof.
  intros Hm Hk w. unfold and_then. specialize (Hm w). destruct (m w) as [[u|e] w1].
  - specialize (Hk w1). destruct (k w1) as [[u'|e] w2].
    + by rewrite Hk, Hm, <- app_assoc.
    + destruct Hk as (p & q & -> & Hs). exists (a ++ p), q. by rewrite Hs, Hm, <- !app_assoc.
  - destruct Hm as (p & q & -> & Hs). exists p, (q ++ b). by rewrite <- app_assoc.
Qed.

Lemma advance_slices_concat n bufs :
  (n <= length (concat bufs))%nat -> concat (advance_slices n bufs) = drop n (concat bufs).
Proof.
  revert n. induction bufs as [|buf bufs IH]; intros n Hn; [cbn; by destruct n|].
  cbn [advance_slices concat] in *. rewrite length_app in Hn.
  destruct (Nat.leb_spec (length buf) n).
  - rewrite IH by lia. by rewrite drop_app_ge.
  - cbn [concat]. by rewrite drop_app_le by lia.
Qed.

Lemma write_all_vectored_loop_delivers fuel bufs :
  (length (concat bufs) < fuel)%nat ->
  delivers (write_all_vectored_loop fuel bufs : writing W) (concat bufs).
Proof.
  revert bufs. induction fuel as [|fuel IH]; intros bufs Hf; [lia|].
  destruct bufs as [|buf bufs]; [apply delivers_nil|]. intros w. cbn [write_all_vectored_loop].
  set (all := buf :: bufs) in *.
  destruct (poll_write_vectored w all) as [[n|e] w1] eqn:E.
  - apply poll_ok in E as [Hn Hs]. destruct (Nat.eqb_spec n 0) as [->|Hne].
    { exists [], (concat all). by rewrite Hs, take_0. }
    pose proof (advance_slices_concat n all Hn) as Hadv.
    specialize (IH (advance_slices n all)). rewrite Hadv, length_drop in IH.
    specialize (IH ltac:(lia) w1).
    destruct (write_all_vectored_loop fuel (advance_slices n all) w1) as [[u|e] w2].
    + by rewrite IH, Hs, <- app_assoc, take_drop.
    + destruct IH as (p & q & Hpq & Hs2). exists (take n (concat all) ++ p), q.
      rewrite <- (take_drop n (concat all)) at 1. by rewrite Hpq, Hs2, Hs, <- !app_assoc.
  - apply poll_err in E. exists [], (concat all). by rewrite E, app_nil_r.
Qed.

Lemma write_all_vectored_delivers bufs : delivers (write_all_vectored bufs : writing W) (concat bufs).
Proof. apply write_all_vectored_loop_delivers. lia. Qed.

Lemma slices_deliver bufs data :
  concat bufs = data -> delivers (write_slices bufs : writing W) data.
Proof. intros <-. apply write_all_vectored_delivers. Qed.

Lemma article_lines_deliver lines :
  delivers (write_article_lines lines : writing W) (join_crlf (stuff <$> lines)).
Proof.
  induction lines as [|line lines IH]; [apply delivers_nil|]. cbn [write_article_lines].
  rewrite fmap_cons, join_crlf_cons, app_assoc. apply delivers_then; [|done].
  unfold write_article_line, stuff. destruct (starts_with line (lit ".")); by apply slices_deliver;
    cbn [concat]; rewrite app_nil_r, <- ?app_assoc.
Qed.

(** The article as it goes on the wire. *)
Definition stuffed_article (payload : bytes) : bytes :=
  join_crlf (stuff <$> crlf_normalized_payload_lines payload) ++ DOT_TERMINATOR.

Lemma dot_stuffed_article_delivers payload :
  delivers (write_dot_stuffed_article payload : writing W) (stuffed_article payload).
Proof.
  unfold write_dot_stuffed_article, stuffed_article. destruct payload as [|b payload].
  - apply delivers_write_all.
  - apply delivers_then; [apply article_lines_deliver | apply delivers_write_all].
Qed.

Lemma article_ref_delivers verb r :
  article_ref_ok r ->
  delivers (write_article_ref_request_wire verb r : writing W)
    (Request.write_article_ref_request_wire [] verb r).
Proof.
  unfold write_article_ref_request_wire, Request.write_article_ref_request_wire,
    Request.write_crlf, Request.write_bytes.
  destruct r as [|n|m]; cbn [article_ref_ok]; intros Hok; cbn zeta; cbn [app].
  - apply slices_deliver. cbn [concat]. by rewrite app_nil_r.
  - destruct (print_decimal_spec n) as (_ & _ & _ & Hl).
    { unfold MAX_ARTICLE_NUMBER, u64_max in *. lia. }
    intros w. rewrite (proj2 (Nat.ltb_ge _ _) Hl). apply slices_deliver.
    cbn [concat]. by rewrite app_nil_r, <- !app_assoc.
  - apply slices_deliver. cbn [concat]. by rewrite app_nil_r, <- !app_assoc.
Qed.

Lemma takethis_delivers m payload :
  delivers (write_takethis_request_wire m payload : writing W)
    (Request.write_transfer_request_wire [] (lit "TAKETHIS ") m payload).
Proof.
  unfold write_takethis_request_wire, Request.write_transfer_request_wire,
    Request.write_crlf, Request.write_bytes. cbn zeta.
  assert (forall out : bytes,
    (if (length payload =? 0)%nat then out ++ DOT_TERMINATOR
     else fold_left Request.write_payload_line (crlf_normalized_payload_lines payload) out
          ++ DOT_TERMINATOR) = out ++ stuffed_article payload) as ->.
  { intros out. unfold stuffed_article. destruct payload as [|b payload]; [done|].
    by rewrite write_payload_lines, app_assoc. }
  apply delivers_then; [|apply dot_stuffed_article_delivers].
  apply slices_deliver. cbn [concat]. by rewrite app_nil_r, <- !app_assoc.
Qed.

Lemma request_wire_delivers r :
  request_ok r -> delivers (write_request_wire r : writing W) (Request.write_wire_to r []).
Proof.
  destruct r as [a|a|a|a|k [w|]|g|[g|] [rg|]| | |[s|]|[s|]|h [s|]|h [s|]
    |d t [|]|w d t [|]| |m|m|m payload|k v| | | |[k|]| | | |]; cbn [request_ok]; intros Hok;
    cbn [write_request_wire Request.write_wire_to];
    try apply article_ref_delivers; try apply takethis_delivers; try done;
    apply slices_deliver; unfold Request.write_list_request_wire, Request.write_one_arg_request_wire,
      Request.write_listgroup_request_wire, Request.write_simple_request_wire,
      Request.write_optional_arg_request_wire, Request.write_header_query_request_wire,
      Request.write_datetime_request_wire, Request.write_newnews_request_wire,
      Request.write_request_wire, Request.write_authinfo_request_wire, datetime_suffix,
      Request.write_optional, Request.write_crlf, Request.write_bytes;
    cbn [concat]; cbn zeta; rewrite ?app_nil_r, <- ?app_assoc; reflexivity.
Qed.
End delivery.

(** ** A reliable writer never fails *)

Section reliable.
Context {W : Type} `{Aw : !AsyncWrite W, As : !AsyncWriteSpec W, Rw : !ReliableWrite W}.

(** The last slice is not empty, so slices are left only while bytes are. *)
Definition ends_full (bufs : list bytes) : Prop := list.last bufs <> Some [].

Lemma ends_full_concat buf bufs : ends_full (buf :: bufs) -> concat (buf :: bufs) <> [].
Proof.
  unfold ends_full. revert buf. induction bufs as [|b bufs IH]; intros buf H; cbn [concat].
  - intros Hc. apply app_nil in Hc as [-> _]. done.
  - intros Hc. apply app_nil in Hc as [_ Hc]. by apply (IH b).
Qed.

Lemma ends_full_tail buf bufs : ends_full (buf :: bufs) -> ends_full bufs.
Proof. unfold ends_full. by destruct bufs. Qed.

Lemma advance_ends_full n bufs : ends_full bufs -> ends_full (advance_slices n bufs).
Proof.
  revert n. induction bufs as [|buf bufs IH]; intros n H; [done|]. cbn [advance_slices].
  destruct (Nat.leb_spec (length buf) n); [by eapply IH, ends_full_tail|].
  destruct bufs; [|done]. unfold ends_full. cbn. intros [= Hd].
  apply (f_equal length) in Hd. rewrite length_drop in Hd. cbn in Hd. lia.
Qed.

Lemma vectored_completes bufs : ends_full bufs -> completes (write_all_vectored bufs : writing W).
Proof.
  unfold write_all_vectored. generalize (S (length (concat bufs))) as fuel. intros fuel.
  revert bufs. induction fuel as [|fuel IH]; intros bufs H w; [by eexists|].
  destruct bufs as [|buf bufs]; [by eexists|]. cbn [write_all_vectored_loop].
  destruct (poll_reliable w _ (ends_full_concat _ _ H)) as (n & w1 & -> & Hn).
  destruct (Nat.eqb_spec n 0); [lia|]. by apply IH, advance_ends_full.
Qed.

Lemma then_completes (m k : writing W) : completes m -> completes k -> completes (m ;>> k).
Proof. intros Hm Hk w. unfold and_then. destruct (Hm w) as [w1 ->]. apply Hk. Qed.

Lemma article_completes payload : completes (write_dot_stuffed_article payload : writing W).
Proof.
  assert (completes (fun w : W => write_all w DOT_TERMINATOR)) as Hdot
    by (intros w; apply write_all_reliable).
  unfold write_dot_stuffed_article. destruct payload as [|b payload]; [exact Hdot|].
  apply then_completes; [|exact Hdot].
  induction (crlf_normalized_payload_lines (b :: payload)) as [|l ls IH]; cbn [write_article_lines];
    [by eexists|]. apply then_completes; [|done].
  unfold write_article_line. destruct (starts_with l (lit ".")); by apply vectored_completes.
Qed.

Lemma article_ref_completes verb r :
  article_ref_ok r -> completes (write_article_ref_request_wire verb r : writing W).
Proof.
  destruct r as [|n|m]; cbn [article_ref_ok]; intros Hok; try by apply vectored_completes.
  destruct (print_decimal_spec n) as (_ & _ & _ & Hl).
  { unfold MAX_ARTICLE_NUMBER, u64_max in *. lia. }
  intros w. cbn [write_article_ref_request_wire]. rewrite (proj2 (Nat.ltb_ge _ _) Hl).
  by apply vectored_completes.
Qed.

Lemma request_wire_completes r : request_ok r -> completes (write_request_wire r : writing W).
Proof.
  destruct r as [a|a|a|a|k [w|]|g|[g|] [rg|]| | |[s|]|[s|]|h [s|]|h [s|]
    |d t [|]|w d t [|]| |m|m|m payload|k v| | | |[k|]| | | |]; cbn [request_ok]; intros Hok;
    try (by apply article_ref_completes); try (by apply vectored_completes).
  apply then_completes; [by apply vectored_completes | apply article_completes].
Qed.
End reliable.

(** ** The in-memory writer and the batch *)

Lemma first_non_empty_prefix bufs :
  exists rest, concat bufs = first_non_empty bufs ++ rest.
Proof.
  induction bufs as [|[|b buf] bufs IH]; [by exists []|exact IH|]. by exists (concat bufs).
Qed.

#[export] Instance vec_sink_spec : AsyncWriteSpec VecSink.
Proof.
  constructor; cbn; intros w.
  - intros bufs n w' [= <- <-]. destruct (first_non_empty_prefix bufs) as [rest ->].
    rewrite length_app, take_app_length. split; [lia|done].
  - done.
  - by intros data w' [= <-].
  - done.
Qed.

#[export] Instance vec_sink_reliable : ReliableWrite VecSink.
Proof.
  constructor; cbn; [|by eexists].
  intros w bufs Hne. eexists _, _. split; [reflexivity|].
  induction bufs as [|[|b buf] bufs IH]; [done|by apply IH|cbn; lia].
Qed.

(** The bytes of a batch. *)
Definition batch_wire (batch : list Request.Request) : bytes :=
  concat ((fun r => Request.write_wire_to r []) <$> batch).

Lemma write_each_sink batch w :
  Forall request_ok batch ->
  write_each batch w = (Ok tt, {| vs_buf := vs_buf w ++ batch_wire batch |}).
Proof.
  intros H. revert w. induction H as [|r batch Hr _ IH]; intros [buf]; unfold batch_wire.
  - cbn. by rewrite app_nil_r.
  - cbn [write_each]. unfold and_then.
    pose proof (request_wire_delivers (W := VecSink) r Hr {| vs_buf := buf |}) as Hd.
    destruct (request_wire_completes (W := VecSink) r Hr {| vs_buf := buf |}) as [[buf'] Hc].
    rewrite Hc in Hd |- *. cbn in Hd. subst buf'. rewrite IH. cbn [vs_buf].
    rewrite fmap_cons. cbn [concat]. by rewrite app_assoc.
Qed.

Section batch.
Context {W : Type} `{Aw : !AsyncWrite W, As : !AsyncWriteSpec W}.

Lemma buffered_delivers batch :
  Forall request_ok batch ->
  delivers (write_requests_buffered batch : writing W) (batch_wire batch).
Proof.
  intros H w. unfold write_requests_buffered. rewrite write_each_sink by done.
  apply (delivers_write_all (batch_wire batch) w).
Qed.

Lemma batch_delivers batch :
  Forall request_ok batch -> delivers (write_batch batch : writing W) (batch_wire batch).
Proof.
  intros H. destruct batch as [|r [|r' batch]]; try by apply buffered_delivers.
  apply Forall_cons_1 in H as [H _]. unfold batch_wire. rewrite fmap_cons. cbn [fmap list_fmap concat].
  rewrite app_nil_r. by apply request_wire_delivers.
Qed.
End batch.

(** ** A scripted transport *)

(** What the next calls of a socket do: accept at most so many bytes, or fail.
    Past the script every call accepts all it is offered. *)
Inductive WriteEvent : Type := Accept (n : nat) | Refuse (e : IoError).

Record ScriptedWriter : Type := { sw_script : list WriteEvent; sw_sent : bytes }.

Definition scripted_poll (w : ScriptedWriter) (data : bytes) : result nat IoError * ScriptedWriter :=
  match sw_script w with
  | [] => (Ok (length data), {| sw_script := []; sw_sent := sw_sent w ++ data |})
  | Accept n :: script =>
      let data := take n data in
      (Ok (length data), {| sw_script := script; sw_sent := sw_sent w ++ data |})
  | Refuse e :: script => (Err e, {| sw_script := script; sw_sent := sw_sent w |})
  end.

Fixpoint scripted_write_all (fuel : nat) (w : ScriptedWriter) (data : bytes)
    : result unit IoError * ScriptedWriter :=
  match fuel, data with
  | S fuel', _ :: _ =>
      match scripted_poll w data with
      | (Err e, w) => (Err e, w)
      | (Ok n, w) =>
          if (n =? 0)%nat then (Err write_zero, w) else scripted_write_all fuel' w (drop n data)
      end
  | _, _ => (Ok tt, w)
  end.

#[export] Instance scripted_write : AsyncWrite ScriptedWriter := {
  poll_write_vectored w bufs := scripted_poll w (concat bufs);
  write_all w data := scripted_write_all (length data) w data;
  sent := sw_sent;
}.

Lemma scripted_poll_spec w data :
  match scripted_poll w data with
  | (Ok n, w') => (n <= length data)%nat /\ sw_sent w' = sw_sent w ++ take n data
  | (Err _, w') => sw_sent w' = sw_sent w
  end.
Proof.
  unfold scripted_poll. destruct (sw_script w) as [|[n|e] script]; cbn; [| |done].
  - by rewrite firstn_all.
  - rewrite length_take. split; [lia|]. by rewrite <- firstn_firstn, firstn_all.
Qed.

Lemma scripted_write_all_spec fuel w data :
  (length data <= fuel)%nat ->
  match scripted_write_all fuel w data with
  | (Ok _, w') => sw_sent w' = sw_sent w ++ data
  | (Err _, w') => exists p q, data = p ++ q /\ sw_sent w' = sw_sent w ++ p
  end.
Proof.
  revert w data. induction fuel as [|fuel IH]; intros w [|b data] Hf; cbn [scripted_write_all];
    try (by rewrite app_nil_r); [cbn in Hf; lia|].
  set (all := b :: data) in *. pose proof (scripted_poll_spec w all) as Hp.
  destruct (scripted_poll w all) as [[n|e] w1].
  - destruct Hp as [Hn Hs]. destruct (Nat.eqb_spec n 0) as [->|Hne]; [by exists [], all|].
    specialize (IH w1 (drop n all)). rewrite length_drop in IH. specialize (IH ltac:(lia)).
    destruct (scripted_write_all fuel w1 (drop n all)) as [[u|e] w2].
    + by rewrite IH, Hs, <- app_assoc, take_drop.
    + destruct IH as (p & q & Hpq & Hs2). exists (take n all ++ p), q.
      by rewrite Hs2, Hs, <- !app_assoc, <- Hpq, take_drop.
  - exists [], all. by rewrite Hp, app_nil_r.
Qed.

#[export] Instance scripted_write_spec : AsyncWriteSpec ScriptedWriter.
Proof.
  constructor; cbn; intros w.
  - intros bufs n w' E. pose proof (scripted_poll_spec w (concat bufs)) as H. by rewrite E in H.
  - intros bufs e w' E. pose proof (scripted_poll_spec w (concat bufs)) as H. by rewrite E in H.
  - intros data w' E. pose proof (scripted_write_all_spec (length data) w data ltac:(lia)) as H.
    by rewrite E in H.
  - intros data e w' E. pose proof (scripted_write_all_spec (length data) w data ltac:(lia)) as H.
    by rewrite E in H.
Qed.

(** ** Properties *)

(** C28: the asynchronous writers deliver what the synchronous writer writes,
    however the transport splits it. On any transport that keeps its contract,
    a batch of requests (written one by one or coalesced into one buffer) and
    an article arrive as exactly the bytes of [write_wire_to], in order; a
    failure leaves a part of them, from the start. *)
Theorem async_writers_deliver {W} `{Aw : !AsyncWrite W, As : !AsyncWriteSpec W}
    (batch : list Request.Request) (payload : bytes) (w : W) :
  Forall request_ok batch ->
  match write_batch batch w with
  | (Ok _, w') => sent w' = sent w ++ concat ((fun r => Request.write_wire_to r []) <$> batch)
  | (Err _, w') => exists p q,
      concat ((fun r => Request.write_wire_to r []) <$> batch) = p ++ q /\ sent w' = sent w ++ p
  end
  /\ match write_dot_stuffed_article payload w with
     | (Ok _, w') => sent w' = sent w ++ stuffed_article payload
     | (Err _, w') => exists p q, stuffed_article payload = p ++ q /\ sent w' = sent w ++ p
     end.
Proof.
  intros H. split; [exact (batch_delivers batch H w) | exact (dot_stuffed_article_delivers payload w)].
Qed.

Definition choppy : ScriptedWriter :=
  {| sw_script := [Accept 1; Accept 3; Accept 1; Accept 7]; sw_sent := [] |}.

Lemma async_writers_deliver_witness :
  write_batch [Request.Group (lit "misc.test")] choppy
    = (Ok tt, {| sw_script := []; sw_sent := lit "GROUP misc.test" ++ CRLF |})
  /\ match write_batch [Request.Group (lit "misc.test")] choppy with
     | (Ok _, w') => sent w' = sent choppy
         ++ concat ((fun r => Request.write_wire_to r []) <$> [Request.Group (lit "misc.test")])
     | (Err _, w') => exists p q,
         concat ((fun r => Request.write_wire_to r []) <$> [Request.Group (lit "misc.test")]) = p ++ q
         /\ sent w' = sent choppy ++ p
     end.
Proof.
  split; [vm_compute; reflexivity|].
  apply (async_writers_deliver [Request.Group (lit "misc.test")] [] choppy).
  constructor; [|constructor]. split; [by exists (lit "misc.test") | reflexivity].
Defined.
