(* ===== verification/ClientEngine.v ===== *)
(** * The client's connection engine ([src/src/client.rs])

    The two tasks of a connection and what they share: callers queue requests
    under the send barrier ([enqueue_request], [send_request]), the writer task
    batches and writes them and hands them over ([run_writer_task]), the reader
    task receives their responses in order, keeps the capability list and
    answers the callers ([run_reader_task]).  The engine is a transition system:
    [Engine] is the shared state with the point each task has reached, and one
    step of a task runs from one await point to the next; any interleaving of
    steps is a run. *)
From S2P Require Import Prelude Utf8 Decimal Memchr Terminator Args Kinds Requests.
From S2P Require Import RequestLine RequestWire ResponseLine ResponseContent Capabilities.
From S2P Require Import ResponseBody Article ResponseFrame OwnedResponse ResponseReceiver.
From S2P Require Import ClientWire.

Local Open Scope Z_scope.
Local Open Scope rust_scope.

(** ** Errors shared between the tasks *)

Module SharedEngineError.
Inductive SharedEngineError : Type :=
| Io (kind : ErrorKind.ErrorKind) (message : bytes)
| UnexpectedEof
| InvalidStatusLine
| CapabilitiesUnavailable
| ConnectionClosed.
End SharedEngineError.
Abbreviation SharedEngineError := SharedEngineError.SharedEngineError.

Definition shared_engine_error_from_client (err : client_error IoError) : SharedEngineError :=
  match err with
  | ClientError.Io err => SharedEngineError.Io (io_kind err) (io_message err)
  | ClientError.UnexpectedEof => SharedEngineError.UnexpectedEof
  | ClientError.InvalidStatusLine => SharedEngineError.InvalidStatusLine
  | ClientError.ConnectionClosed => SharedEngineError.ConnectionClosed
  | ClientError.CapabilitiesUnavailable => SharedEngineError.CapabilitiesUnavailable
  | _ => SharedEngineError.ConnectionClosed
  end.

(** [From<SharedEngineError> for ClientError]. *)
Definition client_error_from_shared (value : SharedEngineError) : client_error IoError :=
  match value with
  | SharedEngineError.UnexpectedEof => ClientError.UnexpectedEof
  | SharedEngineError.InvalidStatusLine => ClientError.InvalidStatusLine
  | SharedEngineError.CapabilitiesUnavailable => ClientError.CapabilitiesUnavailable
  | SharedEngineError.ConnectionClosed => ClientError.ConnectionClosed
  | SharedEngineError.Io kind message => ClientError.Io {| io_kind := kind; io_message := message |}
  end.

(** ** Capability rules *)

Definition request_kind_requires_capabilities (kind : RequestKind) : bool :=
  match kind with
  | RequestKind.Post | RequestKind.Ihave | RequestKind.Check | RequestKind.TakeThis
  | RequestKind.AuthInfoUser | RequestKind.AuthInfoPass | RequestKind.StartTls
  | RequestKind.Over | RequestKind.Xover | RequestKind.Hdr | RequestKind.Xhdr
  | RequestKind.NewGroups | RequestKind.NewNews => true
  | _ => false
  end.

Definition request_kind_invalidates_capabilities (kind : RequestKind) : bool :=
  match kind with
  | RequestKind.AuthInfoUser | RequestKind.AuthInfoPass | RequestKind.AuthInfo
  | RequestKind.ModeReader | RequestKind.StartTls => true
  | _ => false
  end.

Definition request_kind_requires_barrier (kind : RequestKind) : bool :=
  negb (allows_following_pipeline (coordination kind)).

Definition response_invalidates_capabilities (kind : RequestKind) (status : Z) : bool :=
  if negb (request_kind_invalidates_capabilities kind) then false
  else
    match kind with
    | RequestKind.AuthInfoUser | RequestKind.AuthInfoPass | RequestKind.AuthInfo =>
        (status =? 281) || (status =? 283)
    | _ => true
    end.

Section transition.
Context `{Mc : !Memchr}.

(** The new list and the verdict; [None] is the panic of [content()]. *)
Definition store_capability_transition (capability_list : option CapabilityList)
    (request_kind : RequestKind) (response : OwnedResponse)
    (mark_capabilities_on_success invalidate_capabilities_on_success : bool)
    : option (option CapabilityList * result unit (client_error IoError)) :=
  let invalidate (capability_list : option CapabilityList) :=
    if invalidate_capabilities_on_success
       && response_invalidates_capabilities request_kind (response_status response)
    then None else capability_list in
  if RequestKind.eqb request_kind RequestKind.Capabilities && (response_status response =? 101) then
    match response_content response with
    | None => None
    | Some content =>
        match capability_list_parse content with
        | None => Some (capability_list, Err ClientError.CapabilitiesUnavailable)
        | Some list => Some (invalidate (Some list), Ok tt)
        end
    end
  else if mark_capabilities_on_success then
    Some (capability_list, Err ClientError.CapabilitiesUnavailable)
  else Some (invalidate capability_list, Ok tt).
End transition.

(** ** Requests on their way *)

(** A request waiting for the writer.  [q_id] stands for its reply channel and
    [q_barrier] for the guard of the send barrier it carries. *)
Record QueuedRequest : Type := {
  q_id : nat;
  q_request : Request.Request;
  q_barrier : bool;
  q_mark : bool;
  q_invalidate : bool;
  q_continuation : option bytes;
}.

(** A written request waiting for its response; [f_proceed] says it carries the
    sender the writer waits on. *)
Record InFlightRequest : Type := {
  f_id : nat;
  f_request : Request.Request;
  f_kind : RequestKind;
  f_barrier : bool;
  f_mark : bool;
  f_invalidate : bool;
  f_proceed : bool;
}.

Definition inflight_of (q : QueuedRequest) : InFlightRequest :=
  {| f_id := q_id q; f_request := q_request q; f_kind := Request.kind (q_request q);
     f_barrier := q_barrier q; f_mark := q_mark q; f_invalidate := q_invalidate q;
     f_proceed := match q_continuation q with Some _ => true | None => false end |}.

Definition requires_exclusive (q : QueuedRequest) : bool :=
  requires_exclusive_connection (coordination (Request.kind (q_request q))).

(** What a caller's reply channel yields; [Dropped] is the sender dropped. *)
Inductive Reply : Type :=
| Completed (request : Request.Request) (response : OwnedResponse)
| Failed (error : SharedEngineError)
| Dropped.

(** [PendingResponse::receive]. *)
Definition pending_receive (poisoned : option SharedEngineError) (reply : Reply)
    : result OwnedResponse (client_error IoError) :=
  match reply with
  | Completed _ response => Ok response
  | Failed error => Err (client_error_from_shared error)
  | Dropped => Err (default ClientError.ConnectionClosed (client_error_from_shared <$> poisoned))
  end.

(** ** Callers *)

(** The entry points of a connection that queue a request; [CallProbe] is the
    CAPABILITIES command of [ensure_capabilities_negotiated]. *)
Inductive Call : Type :=
| CallRequest (request : Request.Request)
| CallPost (article : bytes)
| CallIhave (message_id article : bytes)
| CallProbe.

(** A caller inside [enqueue_request] or [send_request]; [s_checks] tells the
    first, which checks the capability list. *)
Record Sending : Type := {
  s_request : Request.Request;
  s_mark : bool;
  s_invalidate : bool;
  s_article : option bytes;
  s_checks : bool;
}.

Definition sending_of (call : Call) : Sending :=
  match call with
  | CallRequest request =>
      {| s_request := request;
         s_mark := RequestKind.eqb (Request.kind request) RequestKind.Capabilities;
         s_invalidate := request_kind_invalidates_capabilities (Request.kind request);
         s_article := None; s_checks := true |}
  | CallPost article =>
      {| s_request := Request.Post; s_mark := false;
         s_invalidate := request_kind_invalidates_capabilities RequestKind.Post;
         s_article := Some article; s_checks := true |}
  | CallIhave message_id article =>
      {| s_request := Request.Ihave message_id; s_mark := false;
         s_invalidate := request_kind_invalidates_capabilities RequestKind.Ihave;
         s_article := Some article; s_checks := true |}
  | CallProbe =>
      {| s_request := Request.capabilities; s_mark := false; s_invalidate := false;
         s_article := None; s_checks := false |}
  end.

(** Who holds the send barrier: nobody, a caller that has just locked it, a
    caller past its checks, or the guard inside a request. *)
Inductive Barrier : Type :=
| Free
| Locked (caller : Sending)
| Checked (caller : Sending)
| HeldBy (id : nat).

(** ** Where the tasks stand *)

(** The writer: waiting for a first request, for the pipeline to drain before
    an exclusive one, gathering a batch, writing it, publishing its requests one
    by one (counted first, then handed over), waiting for the server to ask for
    an article, cleaning up after an error, finished. *)
Inductive WriterState : Type :=
| WaitFirst (held : option QueuedRequest)
| WaitIdle (first : QueuedRequest)
| Collecting (batch : list QueuedRequest)
| Writing (batch : list QueuedRequest) (held : option QueuedRequest)
| Publishing (pending : list QueuedRequest) (held : option QueuedRequest)
| Handing (queued : QueuedRequest) (pending : list QueuedRequest) (held : option QueuedRequest)
| AwaitProceed (article : bytes) (pending : list QueuedRequest) (held : option QueuedRequest)
| WriterFailing (error : SharedEngineError)
| WriterDone.

(** The reader: waiting for a request, receiving its (first or final) response,
    completing it, dropping its guard, ending its count, cleaning up after an
    error, finished. *)
Inductive ReaderState : Type :=
| ReadNext
| Reading (request : InFlightRequest)
| ReadingFinal (request : InFlightRequest)
| Finish (request : InFlightRequest) (response : OwnedResponse)
| Release (request : InFlightRequest)
| EndInflight
| Draining (request : InFlightRequest) (error : SharedEngineError)
| ReaderDone.

Definition writer_is_done (s : WriterState) : bool :=
  match s with WriterDone => true | _ => false end.
Definition reader_is_done (s : ReaderState) : bool :=
  match s with ReaderDone => true | _ => false end.

Section engine.
Context `{Mc : !Memchr} {W : Type} `{Aw : !AsyncWrite W}.
Variable find_end : bytes -> option nat.

(** [pipeline_depth.max(1)], the capacity of both channels. *)
Variable depth : nat.

(** The channels ([e_queue], [e_flight]), the tasks, the socket ([e_sink],
    [e_receiver]), the answer of the reader to a waiting writer ([e_proceed]),
    the gate ([e_inflight], [e_closed]), the other shared cells, the abort
    request of the reader to the writer, and two records no code reads: the
    replies given and every request ever queued. *)
Record Engine : Type := {
  e_queue : list QueuedRequest;
  e_flight : list InFlightRequest;
  e_writer : WriterState;
  e_sink : W;
  e_proceed : option bool;
  e_reader : ReaderState;
  e_receiver : BufferedResponseReceiver IoError;
  e_inflight : nat;
  e_closed : bool;
  e_capabilities : option CapabilityList;
  e_barrier : Barrier;
  e_poisoned : option SharedEngineError;
  e_aborted : bool;
  e_replies : list (nat * Reply);
  e_log : list QueuedRequest;
}.

Definition set_queue (x : list QueuedRequest) (e : Engine) : Engine :=
  {| e_queue := x; e_flight := e_flight e; e_writer := e_writer e; e_sink := e_sink e;
     e_proceed := e_proceed e; e_reader := e_reader e; e_receiver := e_receiver e; e_inflight
     := e_inflight e; e_closed := e_closed e; e_capabilities := e_capabilities e; e_barrier
     := e_barrier e; e_poisoned := e_poisoned e; e_aborted := e_aborted e; e_replies :=
     e_replies e; e_log := e_log e |}.
Definition set_flight (x : list InFlightRequest) (e : Engine) : Engine :=
  {| e_queue := e_queue e; e_flight := x; e_writer := e_writer e; e_sink := e_sink e;
     e_proceed := e_proceed e; e_reader := e_reader e; e_receiver := e_receiver e; e_inflight
     := e_inflight e; e_closed := e_closed e; e_capabilities := e_capabilities e; e_barrier
     := e_barrier e; e_poisoned := e_poisoned e; e_aborted := e_aborted e; e_replies :=
     e_replies e; e_log := e_log e |}.
Definition set_writer (x : WriterState) (e : Engine) : Engine :=
  {| e_queue := e_queue e; e_flight := e_flight e; e_writer := x; e_sink := e_sink e;
     e_proceed := e_proceed e; e_reader := e_reader e; e_receiver := e_receiver e; e_inflight
     := e_inflight e; e_closed := e_closed e; e_capabilities := e_capabilities e; e_barrier
     := e_barrier e; e_poisoned := e_poisoned e; e_aborted := e_aborted e; e_replies :=
     e_replies e; e_log := e_log e |}.
Definition set_sink (x : W) (e : Engine) : Engine :=
  {| e_queue := e_queue e; e_flight := e_flight e; e_writer := e_writer e; e_sink := x;
     e_proceed := e_proceed e; e_reader := e_reader e; e_receiver := e_receiver e; e_inflight
     := e_inflight e; e_closed := e_closed e; e_capabilities := e_capabilities e; e_barrier
     := e_barrier e; e_poisoned := e_poisoned e; e_aborted := e_aborted e; e_replies :=
     e_replies e; e_log := e_log e |}.
Definition set_proceed (x : option bool) (e : Engine) : Engine :=
  {| e_queue := e_queue e; e_flight := e_flight e; e_writer := e_writer e; e_sink := e_sink
     e; e_proceed := x; e_reader := e_reader e; e_receiver := e_receiver e; e_inflight :=
     e_inflight e; e_closed := e_closed e; e_capabilities := e_capabilities e; e_barrier :=
     e_barrier e; e_poisoned := e_poisoned e; e_aborted := e_aborted e; e_replies :=
     e_replies e; e_log := e_log e |}.
Definition set_reader (x : ReaderState) (e : Engine) : Engine :=
  {| e_queue := e_queue e; e_flight := e_flight e; e_writer := e_writer e; e_sink := e_sink
     e; e_proceed := e_proceed e; e_reader := x; e_receiver := e_receiver e; e_inflight :=
     e_inflight e; e_closed := e_closed e; e_capabilities := e_capabilities e; e_barrier :=
     e_barrier e; e_poisoned := e_poisoned e; e_aborted := e_aborted e; e_replies :=
     e_replies e; e_log := e_log e |}.
Definition set_receiver (x : BufferedResponseReceiver IoError) (e : Engine) : Engine :=
  {| e_queue := e_queue e; e_flight := e_flight e; e_writer := e_writer e; e_sink := e_sink
     e; e_proceed := e_proceed e; e_reader := e_reader e; e_receiver := x; e_inflight :=
     e_inflight e; e_closed := e_closed e; e_capabilities := e_capabilities e; e_barrier :=
     e_barrier e; e_poisoned := e_poisoned e; e_aborted := e_aborted e; e_replies :=
     e_replies e; e_log := e_log e |}.
Definition set_inflight (x : nat) (e : Engine) : Engine :=
  {| e_queue := e_queue e; e_flight := e_flight e; e_writer := e_writer e; e_sink := e_sink
     e; e_proceed := e_proceed e; e_reader := e_reader e; e_receiver := e_receiver e;
     e_inflight := x; e_closed := e_closed e; e_capabilities := e_capabilities e; e_barrier
     := e_barrier e; e_poisoned := e_poisoned e; e_aborted := e_aborted e; e_replies :=
     e_replies e; e_log := e_log e |}.
Definition set_closed (x : bool) (e : Engine) : Engine :=
  {| e_queue := e_queue e; e_flight := e_flight e; e_writer := e_writer e; e_sink := e_sink
     e; e_proceed := e_proceed e; e_reader := e_reader e; e_receiver := e_receiver e;
     e_inflight := e_inflight e; e_closed := x; e_capabilities := e_capabilities e; e_barrier
     := e_barrier e; e_poisoned := e_poisoned e; e_aborted := e_aborted e; e_replies :=
     e_replies e; e_log := e_log e |}.
Definition set_capabilities (x : option CapabilityList) (e : Engine) : Engine :=
  {| e_queue := e_queue e; e_flight := e_flight e; e_writer := e_writer e; e_sink := e_sink
     e; e_proceed := e_proceed e; e_reader := e_reader e; e_receiver := e_receiver e;
     e_inflight := e_inflight e; e_closed := e_closed e; e_capabilities := x; e_barrier :=
     e_barrier e; e_poisoned := e_poisoned e; e_aborted := e_aborted e; e_replies :=
     e_replies e; e_log := e_log e |}.
Definition set_barrier (x : Barrier) (e : Engine) : Engine :=
  {| e_queue := e_queue e; e_flight := e_flight e; e_writer := e_writer e; e_sink := e_sink
     e; e_proceed := e_proceed e; e_reader := e_reader e; e_receiver := e_receiver e;
     e_inflight := e_inflight e; e_closed := e_closed e; e_capabilities := e_capabilities e;
     e_barrier := x; e_poisoned := e_poisoned e; e_aborted := e_aborted e; e_replies :=
     e_replies e; e_log := e_log e |}.
Definition set_poisoned (x : option SharedEngineError) (e : Engine) : Engine :=
  {| e_queue := e_queue e; e_flight := e_flight e; e_writer := e_writer e; e_sink := e_sink
     e; e_proceed := e_proceed e; e_reader := e_reader e; e_receiver := e_receiver e;
     e_inflight := e_inflight e; e_closed := e_closed e; e_capabilities := e_capabilities e;
     e_barrier := e_barrier e; e_poisoned := x; e_aborted := e_aborted e; e_replies :=
     e_replies e; e_log := e_log e |}.
Definition set_aborted (x : bool) (e : Engine) : Engine :=
  {| e_queue := e_queue e; e_flight := e_flight e; e_writer := e_writer e; e_sink := e_sink
     e; e_proceed := e_proceed e; e_reader := e_reader e; e_receiver := e_receiver e;
     e_inflight := e_inflight e; e_closed := e_closed e; e_capabilities := e_capabilities e;
     e_barrier := e_barrier e; e_poisoned := e_poisoned e; e_aborted := x; e_replies :=
     e_replies e; e_log := e_log e |}.
Definition set_replies (x : list (nat * Reply)) (e : Engine) : Engine :=
  {| e_queue := e_queue e; e_flight := e_flight e; e_writer := e_writer e; e_sink := e_sink
     e; e_proceed := e_proceed e; e_reader := e_reader e; e_receiver := e_receiver e;
     e_inflight := e_inflight e; e_closed := e_closed e; e_capabilities := e_capabilities e;
     e_barrier := e_barrier e; e_poisoned := e_poisoned e; e_aborted := e_aborted e;
     e_replies := x; e_log := e_log e |}.
Definition set_log (x : list QueuedRequest) (e : Engine) : Engine :=
  {| e_queue := e_queue e; e_flight := e_flight e; e_writer := e_writer e; e_sink := e_sink
     e; e_proceed := e_proceed e; e_reader := e_reader e; e_receiver := e_receiver e;
     e_inflight := e_inflight e; e_closed := e_closed e; e_capabilities := e_capabilities e;
     e_barrier := e_barrier e; e_poisoned := e_poisoned e; e_aborted := e_aborted e;
     e_replies := e_replies e; e_log := x |}.

(** ** Shared operations *)

(** Dropping a request drops the guard it carries. *)
Definition release (guard : bool) (barrier : Barrier) : Barrier :=
  if guard then Free else barrier.

(** A sent reply. *)
Definition answer (id : nat) (reply : Reply) (e : Engine) : Engine :=
  set_replies (e_replies e ++ [(id, reply)]) e.

Definition drop_guard (guard : bool) (e : Engine) : Engine :=
  set_barrier (release guard (e_barrier e)) e.

(** Requests that will not be served: each is answered and dropped. *)
Definition fail_queued (reply : Reply) (victims : list QueuedRequest) (e : Engine) : Engine :=
  set_replies (e_replies e ++ ((fun q => (q_id q, reply)) <$> victims))
    (drop_guard (existsb q_barrier victims) e).

Definition fail_inflight (reply : Reply) (victims : list InFlightRequest) (e : Engine) : Engine :=
  set_replies (e_replies e ++ ((fun f => (f_id f, reply)) <$> victims))
    (drop_guard (existsb f_barrier victims) e).

(** [store_poisoned]: the first error stays. *)
Definition store_poisoned (error : SharedEngineError) (e : Engine) : Engine :=
  match e_poisoned e with
  | None => set_poisoned (Some error) e
  | Some _ => e
  end.

Definition begin_inflight (e : Engine) : Engine := set_inflight (S (e_inflight e)) e.
Definition end_inflight (e : Engine) : Engine := set_inflight (e_inflight e - 1) e.

(** ** Callers *)

(** [send_barrier.lock_owned()]. *)
Definition caller_lock (call : Call) (e : Engine) : option Engine :=
  match e_barrier e with
  | Free => Some (set_barrier (Locked (sending_of call)) e)
  | _ => None
  end.

(** The checks under the barrier: a closed gate returns an error, a missing
    capability list drops the barrier and goes to probe. *)
Definition caller_check (e : Engine) : option Engine :=
  match e_barrier e with
  | Locked caller =>
      if e_closed e then Some (set_barrier Free e)
      else
        match e_capabilities e with
        | None =>
            if s_checks caller
               && request_kind_requires_capabilities (Request.kind (s_request caller))
            then Some (set_barrier Free e)
            else Some (set_barrier (Checked caller) e)
        | Some _ => Some (set_barrier (Checked caller) e)
        end
  | _ => None
  end.

(** [send_request_with_barrier]: waits for room, fails when the writer is gone. *)
Definition caller_send (e : Engine) : option Engine :=
  match e_barrier e with
  | Checked caller =>
      if writer_is_done (e_writer e) then Some (set_barrier Free e)
      else if (length (e_queue e) <? depth)%nat then
        let id := length (e_log e) in
        let hold_pipeline := request_kind_requires_barrier (Request.kind (s_request caller)) in
        let queued :=
          {| q_id := id; q_request := s_request caller; q_barrier := hold_pipeline;
             q_mark := s_mark caller; q_invalidate := s_invalidate caller;
             q_continuation := s_article caller |} in
        Some (set_barrier (if hold_pipeline then HeldBy id else Free)
                (set_queue (e_queue e ++ [queued]) (set_log (e_log e ++ [queued]) e)))
      else None
  | _ => None
  end.

(** A caller dropped while it waits gives the barrier back. *)
Definition caller_cancel (e : Engine) : option Engine :=
  match e_barrier e with
  | Locked _ | Checked _ => Some (set_barrier Free e)
  | _ => None
  end.

(** ** The writer task *)

Definition is_batch_break (q : QueuedRequest) : bool :=
  requires_exclusive q || request_has_large_payload (q_request q).

Definition start_batch (first : QueuedRequest) (e : Engine) : Engine :=
  let first_is_exclusive := requires_exclusive first in
  let first_is_large := request_has_large_payload (q_request first) in
  if first_is_exclusive then set_writer (WaitIdle first) e
  else if first_is_large then set_writer (Writing [first] None) e
  else set_writer (Collecting [first]) e.

(** An error of the writer: everything it holds fails at once, then (the
    [WriterFailing] step) the error is stored and the queue drained. *)
Definition writer_fails (error : SharedEngineError) (victims : list QueuedRequest) (e : Engine) : Engine :=
  set_writer (WriterFailing error) (fail_queued (Failed error) victims e).

Definition io_error (err : IoError) : SharedEngineError :=
  SharedEngineError.Io (io_kind err) (io_message err).

Definition writer_step (e : Engine) : option Engine :=
  match e_writer e with
  | WaitFirst (Some held) => Some (start_batch held e)
  | WaitFirst None =>
      match e_queue e with
      | [] => None
      | first :: queue => Some (start_batch first (set_queue queue e))
      end
  | WaitIdle first =>
      if (e_inflight e =? 0)%nat then Some (set_writer (Writing [first] None) e) else None
  | Collecting batch =>
      if (length batch <? 64)%nat then
        match e_queue e with
        | [] => Some (set_writer (Writing batch None) e)
        | next :: queue =>
            if is_batch_break next then Some (set_writer (Writing batch (Some next)) (set_queue queue e))
            else Some (set_writer (Collecting (batch ++ [next])) (set_queue queue e))
        end
      else Some (set_writer (Writing batch None) e)
  | Writing batch held =>
      match write_batch (q_request <$> batch) (e_sink e) with
      | (Ok _, sink) => Some (set_writer (Publishing batch held) (set_sink sink e))
      | (Err err, sink) =>
          Some (writer_fails (io_error err) (batch ++ option_list held) (set_sink sink e))
      end
  | Publishing [] held => Some (set_writer (WaitFirst held) e)
  | Publishing (queued :: pending) held =>
      Some (set_writer (Handing queued pending held) (begin_inflight e))
  | Handing queued pending held =>
      if reader_is_done (e_reader e) then
        Some (writer_fails SharedEngineError.ConnectionClosed (queued :: pending ++ option_list held)
                (end_inflight e))
      else if (length (e_flight e) <? depth)%nat then
        let e := set_flight (e_flight e ++ [inflight_of queued]) e in
        match q_continuation queued with
        | Some article => Some (set_writer (AwaitProceed article pending held) (set_proceed None e))
        | None => Some (set_writer (Publishing pending held) e)
        end
      else None
  | AwaitProceed article pending held =>
      match e_proceed e with
      | None => None
      | Some false => Some (set_writer (Publishing pending held) e)
      | Some true =>
          match write_dot_stuffed_article article (e_sink e) with
          | (Ok _, sink) => Some (set_writer (Publishing pending held) (set_sink sink e))
          | (Err err, sink) =>
              Some (writer_fails (io_error err) (pending ++ option_list held) (set_sink sink e))
          end
      end
  | WriterFailing error =>
      Some (set_writer WriterDone
              (set_queue [] (fail_queued (Failed error) (e_queue e) (store_poisoned error e))))
  | WriterDone => None
  end.

(** The requests the writer holds, in order. *)
Definition writer_requests (s : WriterState) : list QueuedRequest :=
  match s with
  | WaitFirst held => option_list held
  | WaitIdle first => [first]
  | Collecting batch => batch
  | Writing batch held => batch ++ option_list held
  | Publishing pending held => pending ++ option_list held
  | Handing queued pending held => queued :: pending ++ option_list held
  | AwaitProceed _ pending held => pending ++ option_list held
  | WriterFailing _ | WriterDone => []
  end.

(** [writer_abort.abort()] takes effect: the task and its receiver are dropped,
    and every request in them with its reply channel. *)
Definition abort_step (e : Engine) : option Engine :=
  if e_aborted e && negb (writer_is_done (e_writer e)) then
    Some (set_writer WriterDone
            (set_queue [] (fail_queued Dropped (writer_requests (e_writer e) ++ e_queue e) e)))
  else None.

(** ** The reader task *)

Definition is_proceed (kind : RequestKind) (status : Z) : bool :=
  match kind with
  | RequestKind.Post => status =? 340
  | RequestKind.Ihave => status =? 335
  | _ => false
  end.

(** An error of the reader: the request fails, the writer is aborted, then (the
    [Draining] step) the error is stored and the waiting requests fail.  The
    request's guard is dropped when the task returns. *)
Definition reader_fails (f : InFlightRequest) (err : client_error IoError) (e : Engine) : Engine :=
  let error := shared_engine_error_from_client err in
  set_reader (Draining f error)
    (set_aborted true (end_inflight (answer (f_id f) (Failed error) e))).

Definition complete (f : InFlightRequest) (response : OwnedResponse) (e : Engine) : option Engine :=
  match store_capability_transition (e_capabilities e) (f_kind f) response (f_mark f) (f_invalidate f) with
  | None => None
  | Some (capability_list, transition) =>
      let e := set_reader (Release f) (set_capabilities capability_list e) in
      match transition with
      | Err err => Some (answer (f_id f) (Failed (shared_engine_error_from_client err)) e)
      | Ok _ =>
          let e :=
            if RequestKind.eqb (f_kind f) RequestKind.Quit && (response_status response =? 205)
            then set_closed true e else e in
          Some (answer (f_id f) (Completed (f_request f) response) e)
      end
  end.

Definition reader_step (e : Engine) : option Engine :=
  match e_reader e with
  | ReadNext =>
      match e_flight e with
      | f :: flight => Some (set_reader (Reading f) (set_flight flight e))
      | [] => if writer_is_done (e_writer e) then Some (set_reader ReaderDone e) else None
      end
  | Reading f =>
      match receive find_end (e_receiver e) (f_kind f) with
      | None => None
      | Some (receiver, Ok response) =>
          let e := set_receiver receiver e in
          if f_proceed f then
            let proceed := is_proceed (f_kind f) (response_status response) in
            let e := set_proceed (Some proceed) e in
            if proceed then Some (set_reader (ReadingFinal f) e)
            else Some (set_reader (Finish f response) e)
          else Some (set_reader (Finish f response) e)
      | Some (receiver, Err err) =>
          let e := set_receiver receiver e in
          (* a dropped sender reads as a refusal *)
          let e := if f_proceed f then set_proceed (Some false) e else e in
          Some (reader_fails f err e)
      end
  | ReadingFinal f =>
      match receive find_end (e_receiver e) (f_kind f) with
      | None => None
      | Some (receiver, Ok response) => Some (set_reader (Finish f response) (set_receiver receiver e))
      | Some (receiver, Err err) => Some (reader_fails f err (set_receiver receiver e))
      end
  | Finish f response => complete f response e
  | Release f => Some (set_reader EndInflight (drop_guard (f_barrier f) e))
  | EndInflight => Some (set_reader ReadNext (end_inflight e))
  | Draining f error =>
      let victims := e_flight e in
      let e := set_flight [] (fail_inflight (Failed error) victims (store_poisoned error e)) in
      (* the senders of the drained requests are dropped *)
      let e := if existsb f_proceed victims then set_proceed (Some false) e else e in
      Some (set_reader ReaderDone (drop_guard (f_barrier f) e))
  | ReaderDone => None
  end.

(** ** Runs *)

Inductive Label : Type :=
| CallerLock (call : Call) | CallerCheck | CallerSend | CallerCancel
| WriterStep | AbortStep | ReaderStep.

Definition step (label : Label) (e : Engine) : option Engine :=
  match label with
  | CallerLock call => caller_lock call e
  | CallerCheck => caller_check e
  | CallerSend => caller_send e
  | CallerCancel => caller_cancel e
  | WriterStep => writer_step e
  | AbortStep => abort_step e
  | ReaderStep => reader_step e
  end.

(** A new connection, after the greeting. *)
Definition connected (sink : W) (reader : list (ReadEvent IoError)) : Engine :=
  {| e_queue := []; e_flight := []; e_writer := WaitFirst None; e_sink := sink; e_proceed := None;
     e_reader := ReadNext; e_receiver := receiver_new reader; e_inflight := 0; e_closed := false;
     e_capabilities := None; e_barrier := Free; e_poisoned := None; e_aborted := false;
     e_replies := []; e_log := [] |}.

Inductive reachable (sink : W) (reader : list (ReadEvent IoError)) : Engine -> Prop :=
| reachable_connected : reachable sink reader (connected sink reader)
| reachable_step e label e' :
    reachable sink reader e -> step label e = Some e' -> reachable sink reader e'.

(** A schedule run to its end; labels that are not enabled are skipped. *)
Fixpoint run (labels : list Label) (e : Engine) : Engine :=
  match labels with
  | [] => e
  | label :: labels => run labels (default e (step label e))
  end.

Lemma run_reachable sink reader labels e :
  reachable sink reader e -> reachable sink reader (run labels e).
Proof.
  revert e. induction labels as [|label labels IH]; intros e H; [done|]. cbn [run]. apply IH.
  destruct (step label e) as [e'|] eqn:E; [by eapply reachable_step|done].
Qed.
End engine.
