(* ===== verification/ClientEngineRuns.v ===== *)
(** * Runs of the connection engine

    What the invariants of [ClientEngineCorrect] give for whole runs: progress
    and termination, the requests on the wire, the shared capability list and
    the closed gate, and which response each caller gets. *)
From stdpp Require Import relations.
From S2P Require Import Prelude Utf8 Decimal Memchr Terminator Args Kinds Requests.
From S2P Require Import RequestLine RequestWire ResponseLine ResponseContent Capabilities.
From S2P Require Import ResponseBody Article ResponseFrame OwnedResponse ResponseReceiver.
From S2P Require Import ClientWire ClientEngine ClientEngineCorrect.

Local Open Scope Z_scope.
Local Open Scope rust_scope.

Section progress.
Context `{Mc : !Memchr, Ms : !MemchrSpec} {W : Type} `{Aw : !AsyncWrite W}.
Context (find_end : bytes -> option nat) `{Hfe : !TerminatorFinder find_end} (depth : nat).
Implicit Types e : @Engine W.

(** No task can move. *)
Definition quiet e : Prop :=
  writer_step depth e = None /\ abort_step e = None /\ reader_step find_end e = None.

Lemma reader_stuck e :
  tasks_ok e -> reader_step find_end e = None ->
  (e_reader e = ReadNext /\ e_flight e = [] /\ writer_is_done (e_writer e) = false)
  \/ e_reader e = ReaderDone.
Proof.
  unfold reader_step. intros He H. pose proof (tk_ready _ He) as Hs. pose proof (tk_finish _ He) as Hc.
  destruct (e_reader e) as [|f|f|f r|f| |f error|]; try done; [| | | |by right].
  - destruct (e_flight e); [|done]. destruct (writer_is_done _); [done|]. by left.
  - specialize (Hs eq_refl). destruct (receive_any find_end _ (f_kind f) Hs) as (s & r & Hr & _).
    rewrite Hr in H. destruct r; [|done]. destruct (f_proceed f); [destruct (is_proceed _ _)|]; done.
  - specialize (Hs eq_refl). destruct (receive_any find_end _ (f_kind f) Hs) as (s & r & Hr & _).
    rewrite Hr in H. by destruct r.
  - exfalso. specialize (Hc f r eq_refl). revert H. unfold complete, store_capability_transition.
    destruct (RequestKind.eqb (f_kind f) RequestKind.Capabilities) eqn:Ek; cbn [andb].
    + apply eqb_spec in Ek. specialize (Hc Ek).
      destruct (_ =? 101); [destruct (response_content r) as [c|]; [destruct (capability_list_parse c)|done]|
        destruct (f_mark f)]; done.
    + by destruct (f_mark f).
Qed.

Lemma quiet_unanswered e :
  (0 < depth)%nat -> tasks_ok e -> quiet e -> unanswered e = [] /\ reader_guard (e_reader e) = [].
Proof.
  intros Hd He (Hw & Ha & Hr). unfold unanswered, sent_tickets, waiting.
  destruct (reader_stuck e He Hr) as [(Er & Ef & Ew)|Er]; rewrite Er.
  - pose proof (tk_gate _ He) as Hg. pose proof (tk_proceed _ He) as Hp. revert Hw.
    rewrite Er, Ef in *. unfold writer_step. engine_simpl. specialize (Hg eq_refl Ew).
    destruct (e_writer e) as [[held|]|first|batch|batch held|[|queued pending] held
      |queued pending held|article pending held|error|]; try done.
    + by destruct (e_queue e).
    + rewrite Hg. done.
    + destruct (_ <? 64)%nat; [|done]. destruct (e_queue e); [done|]. by destruct (is_batch_break _).
    + by destruct (write_batch _ _) as [[u|err] sink].
    + rewrite Er, Ef. cbn [reader_is_done]. destruct (Nat.ltb_spec (length (@nil InFlightRequest)) depth);
        [|cbn in *; lia]. by destruct (q_continuation queued).
    + destruct (e_proceed e) as [[|]|]; [|done|].
      * by destruct (write_dot_stuffed_article _ _) as [[u|err] sink].
      * specialize (Hp eq_refl eq_refl eq_refl). done.
  - pose proof (tk_stop _ He) as Hst. rewrite Er in Hst. specialize (Hst eq_refl).
    pose proof (tk_flight _ He) as Hf. rewrite Er in Hf. rewrite (Hf eq_refl).
    assert (e_writer e = WriterDone) as Hwd.
    { destruct Hst as [Hab|?]; [|done]. unfold abort_step in Ha. rewrite Hab in Ha.
      destruct (e_writer e); done. }
    rewrite Hwd, (tk_queue _ He Hwd). done.
Qed.

(** Steps taken one after another, each enabled. *)
Inductive steps : list Label -> @Engine W -> @Engine W -> Prop :=
| steps_nil e : steps [] e e
| steps_cons label labels e e1 e2 :
    step find_end depth label e = Some e1 -> steps labels e1 e2 -> steps (label :: labels) e e2.

Lemma steps_work labels e e' :
  steps labels e e' -> Forall (fun l => task_label l = true) labels ->
  (length labels + work e' <= work e)%nat.
Proof.
  induction 1 as [|label labels e e1 e2 Hs _ IH]; intros Hl; cbn [length]; [lia|].
  apply Forall_cons_1 in Hl as [Hl1 Hl].
  pose proof (work_decreases find_end depth label e e1 Hl1 Hs). specialize (IH Hl). lia.
Qed.

Lemma steps_reachable sink reader labels e e' :
  steps labels e e' -> reachable find_end depth sink reader e ->
  reachable find_end depth sink reader e'.
Proof.
  induction 1 as [|label labels e e1 e2 Hs _ IH]; [done|]. intros He.
  by eapply IH, reachable_step.
Qed.
End progress.

(** ** What the tasks do to the unanswered requests *)

Lemma ledger_shrinks l l' :
  rtc ledger_step l l' -> (l_next l <= l_next l')%nat
    /\ (l_next l' = l_next l -> l_open l' `sublist_of` l_open l).
Proof.
  induction 1 as [|l l1 l2 H _ [IH1 IH2]]; [done|].
  assert ((l_next l <= l_next l1)%nat /\ (l_next l1 = l_next l -> l_open l1 `sublist_of` l_open l))
    as [H1 H2].
  { destruct H as [l b _ _|l t c _ _ _|l A V B H|l t B _ H|l t _]; cbn [l_next l_open]; try done.
    - split; [lia|]. intros Hx. lia.
    - split; [done|]. intros _. rewrite H. apply sublist_app; [done|]. by apply sublist_inserts_l.
    - split; [done|]. intros _. rewrite H. by apply sublist_cons. }
  split; [lia|]. intros Heq. etransitivity; [apply IH2|apply H2]; lia.
Qed.

Section sharing.
Context `{Mc : !Memchr} {W : Type} `{Aw : !AsyncWrite W}.
Context (find_end : bytes -> option nat) (depth : nat).
Implicit Types e : @Engine W.

(** The fields no task step, or no writer step, changes. *)
Definition keeps_shared e e' : Prop :=
  e_capabilities e' = e_capabilities e /\ e_closed e' = e_closed e
  /\ (e_barrier e' = e_barrier e \/ e_barrier e' = Free) /\ e_log e' = e_log e.

Lemma release_cases g b : release g b = b \/ release g b = Free.
Proof. destruct g; [by right|by left]. Qed.

Lemma start_batch_shared e first : keeps_shared e (start_batch first e).
Proof.
  unfold start_batch. destruct (requires_exclusive first); [|destruct (request_has_large_payload _)];
    repeat split; by left.
Qed.

Lemma writer_shared e e' : writer_step depth e = Some e' -> keeps_shared e e'.
Proof.
  assert (forall error victims e0, keeps_shared e e0 -> keeps_shared e (writer_fails error victims e0))
    as Hf.
  { intros error victims e0 (H1 & H2 & H3 & H4). unfold writer_fails. repeat split; engine_simpl; try done.
    destruct (release_cases (existsb q_barrier victims) (e_barrier e0)) as [->| ->]; [done|by right]. }
  assert (keeps_shared e e) as He by (repeat split; by left).
  unfold writer_step. destruct (e_writer e) as [[held|]|first|batch|batch held|[|queued pending] held
    |queued pending held|article pending held|error|]; intros H; try discriminate H;
    try (injection H as <-; apply start_batch_shared || exact He).
  - destruct (e_queue e); [done|]. injection H as <-. apply (start_batch_shared (set_queue _ e)).
  - destruct (_ =? 0)%nat; [|done]. by injection H as <-.
  - destruct (_ <? 64)%nat; [|by injection H as <-]. destruct (e_queue e); [by injection H as <-|].
    destruct (is_batch_break _); by injection H as <-.
  - destruct (write_batch _ _) as [[u|err] sink]; injection H as <-; [exact He|]. by apply Hf.
  - destruct (reader_is_done _); [injection H as <-; by apply Hf|]. destruct (_ <? depth)%nat; [|done].
    destruct (q_continuation queued); by injection H as <-.
  - destruct (e_proceed e) as [[|]|]; [|by injection H as <-|done].
    destruct (write_dot_stuffed_article _ _) as [[u|err] sink]; injection H as <-; [exact He|].
    by apply Hf.
  - injection H as <-. destruct (store_poisoned_same error e) as [p ->]. repeat split; engine_simpl.
    apply release_cases.
Qed.

Lemma abort_shared e e' : abort_step e = Some e' -> keeps_shared e e'.
Proof.
  unfold abort_step. destruct (_ && _); [|done]. intros [= <-]. repeat split. apply release_cases.
Qed.

(** The reader changes the list and the gate only when it completes a request. *)
Lemma reader_shared e e' :
  reader_step find_end e = Some e' -> (forall f r, e_reader e <> Finish f r) -> keeps_shared e e'.
Proof.
  assert (keeps_shared e e) as He by (repeat split; by left).
  unfold reader_step. destruct (e_reader e) as [|f|f|f r|f| |f error|] eqn:Er; intros H Hn;
    try discriminate H.
  - destruct (e_flight e); [destruct (writer_is_done _); [|done]|]; by injection H as <-.
  - destruct (receive _ _ _) as [[receiver [r|err]]|]; [| |done];
      (destruct (f_proceed f); [try destruct (is_proceed _ _)|]; by injection H as <-).
  - destruct (receive _ _ _) as [[receiver [r|err]]|]; [| |done]; by injection H as <-.
  - by destruct (Hn f r).
  - injection H as <-. repeat split. apply release_cases.
  - by injection H as <-.
  - injection H as <-. destruct (store_poisoned_same error e) as [p ->].
    destruct (existsb f_proceed (e_flight e)); repeat split; engine_simpl;
      unfold release; destruct (f_barrier f), (existsb f_barrier (e_flight e)); auto.
Qed.

Lemma complete_log e e' f r : complete f r e = Some e' -> e_log e' = e_log e /\ e_barrier e' = e_barrier e.
Proof.
  unfold complete. destruct (store_capability_transition _ _ _ _ _) as [[caps [u|err]]|];
    [| |done]; [destruct (_ && _)|]; by intros [= <-].
Qed.

Lemma task_log label e e' :
  task_label label = true -> step find_end depth label e = Some e' ->
  e_log e' = e_log e /\ (e_barrier e' = e_barrier e \/ e_barrier e' = Free).
Proof.
  destruct label; cbn [task_label step]; try done; intros _ H.
  - by destruct (writer_shared e e' H) as (_ & _ & ? & ?).
  - by destruct (abort_shared e e' H) as (_ & _ & ? & ?).
  - destruct (e_reader e) as [|f|f|f r|f| |f error|] eqn:Er;
      try (destruct (reader_shared e e' H) as (_ & _ & ? & ?); [by intros ? ?; rewrite Er|done]).
    unfold reader_step in H. rewrite Er in H. destruct (complete_log e e' f r H). auto.
Qed.

Lemma task_shrinks label e e' :
  task_label label = true -> step find_end depth label e = Some e' ->
  unanswered e' `sublist_of` unanswered e.
Proof.
  intros Hl H. pose proof (step_refines find_end depth label e e' H) as Hr.
  apply ledger_shrinks in Hr as [_ Hr]. apply Hr. cbn [ledger_of l_next].
  by destruct (task_log label e e' Hl H) as [-> _].
Qed.

(** ** Exclusive requests *)

Record wire_ok e : Prop := {
  wo_batch batch : e_writer e = Collecting batch ->
    Forall (fun q => requires_exclusive q = false) batch;
  wo_alone : existsb exclusive (on_the_wire e) = true -> (length (unanswered e) <= 1)%nat;
}.

Lemma existsb_sublist {A} (p : A -> bool) l k :
  l `sublist_of` k -> existsb p l = true -> existsb p k = true.
Proof.
  induction 1 as [|x l k _ IH|x l k _ IH]; cbn [existsb]; [done| |];
    intros H; apply orb_true_iff; [|auto]. apply orb_true_iff in H as [?|?]; auto.
Qed.

Lemma wire_split e : exists rest, unanswered e = on_the_wire e ++ rest.
Proof.
  assert (exists rest, writer_requests (e_writer e) = writer_written (e_writer e) ++ rest) as [rest Hr].
  { destruct (e_writer e); cbn [writer_requests writer_written]; eauto using app_nil_l, app_nil_r. }
  exists (queued_tickets (rest ++ e_queue e)). unfold unanswered, waiting, on_the_wire.
  by rewrite Hr, <- app_assoc, fmap_app, app_assoc.
Qed.

(** Nothing exclusive has been added to the wire. *)
Lemma alone_sub e e' :
  (existsb exclusive (on_the_wire e') = true -> existsb exclusive (on_the_wire e) = true) ->
  unanswered e' `sublist_of` unanswered e -> wire_ok e ->
  existsb exclusive (on_the_wire e') = true -> (length (unanswered e') <= 1)%nat.
Proof.
  intros Hx Hs He H. pose proof (wo_alone _ He (Hx H)). apply sublist_length in Hs. lia.
Qed.

Lemma wire_caller e e' :
  ledger_ok (ledger_of e) ->
  (exists call, caller_lock call e = Some e') \/ caller_check e = Some e'
  \/ caller_send depth e = Some e' \/ caller_cancel e = Some e' -> wire_ok e -> wire_ok e'.
Proof.
  intros Hok H [H1 H2]. revert H. unfold caller_lock, caller_check, caller_send, caller_cancel.
  destruct (e_barrier e) as [|c|c|id] eqn:Eb; intros [[call H]|[H|[H|H]]]; try discriminate H;
    try (injection H as <-; by constructor).
  - destruct (e_closed e), (e_capabilities e); try destruct (_ && _) in H; injection H as <-;
      by constructor.
  - destruct (writer_is_done _); [injection H as <-; by constructor|].
    destruct (_ <? depth)%nat; [|done]. injection H as <-. constructor; [done|].
    engine_simpl. unfold on_the_wire, sent_tickets. engine_simpl. intros Hx. exfalso.
    pose proof (ok_barrier _ Hok) as Hb. pose proof (ok_tickets _ Hok) as Ht.
    cbn [ledger_of l_barrier l_guard l_open] in Hb, Ht. rewrite Eb in Hb.
    apply Forall_app in Hb as [_ Hb]. apply Forall_app in Ht as [_ Ht]. cbn [barrier_ok] in Hb.
    destruct (wire_split e) as [rest Hr]. rewrite Hr in Hb, Ht.
    apply Forall_app in Hb as [Hb _]. apply Forall_app in Ht as [Ht _].
    apply existsb_exists in Hx as (t & Hin & Hex).
    rewrite Forall_forall in Hb, Ht. pose proof (exclusive_guard t (Ht t Hin) Hex) as Hg.
    specialize (Hb t Hin). unfold no_guard in Hb. congruence.
Qed.

(** A guard is the last of the unanswered requests. *)
Lemma guard_last e A t B :
  ledger_ok (ledger_of e) -> unanswered e = A ++ t :: B -> t_guard t = true -> B = [].
Proof.
  intros Hok Hu Hg. pose proof (ok_barrier _ Hok) as Hb. cbn [ledger_of l_barrier l_guard l_open] in Hb.
  rewrite Hu, app_assoc in Hb.
  apply (barrier_drop _ [] _ (t :: B)) in Hb. by apply guard_first in Hb as [-> _].
Qed.

Lemma exclusive_ticket q : exclusive (ticket_of_queued q) = requires_exclusive q.
Proof. done. Qed.

Lemma wire_start_batch e e0 first :
  unanswered (start_batch first e0) `sublist_of` unanswered e ->
  sent_tickets e0 = on_the_wire e -> wire_ok e -> wire_ok (start_batch first e0).
Proof.
  unfold start_batch. intros Hs Hw He. destruct (requires_exclusive first) eqn:Ex.
  - constructor; [done|]. apply (alone_sub e); [|done|done]. rewrite <- Hw. unfold on_the_wire.
    engine_simpl. by rewrite app_nil_r.
  - destruct (request_has_large_payload _); (constructor; [|apply (alone_sub e); [|done|done]]); try done.
    + rewrite <- Hw. unfold on_the_wire. engine_simpl. rewrite existsb_app, fmap_cons.
      cbn [fmap list_fmap existsb]. rewrite exclusive_ticket, Ex, !orb_false_r. done.
    + intros batch [= <-]. by repeat constructor.
    + rewrite <- Hw. unfold on_the_wire. engine_simpl. by rewrite app_nil_r.
Qed.

Lemma wire_of_writer e e' :
  wire_ok e -> unanswered e' `sublist_of` unanswered e ->
  (forall batch, e_writer e' = Collecting batch -> Forall (fun q => requires_exclusive q = false) batch) ->
  (existsb exclusive (on_the_wire e') = true -> existsb exclusive (on_the_wire e) = true) -> wire_ok e'.
Proof. intros He Hs Hb Hx. constructor; [done|by apply (alone_sub e)]. Qed.

(** A batch of requests that need no exclusive connection. *)
Lemma batch_not_exclusive batch :
  Forall (fun q => requires_exclusive q = false) batch ->
  existsb exclusive (queued_tickets batch) = false.
Proof.
  induction 1 as [|q batch H _ IH]; [done|]. rewrite fmap_cons. cbn [existsb].
  by rewrite exclusive_ticket, H, IH.
Qed.

(** The pipeline is drained when the gate counts nothing. *)
Lemma gate_drained e first :
  tasks_ok e -> e_writer e = WaitIdle first -> e_inflight e = 0%nat -> sent_tickets e = [].
Proof.
  intros Ht Ew Hi. pose proof (tk_gate _ Ht) as Hg. rewrite Ew, Hi in Hg. unfold sent_tickets.
  destruct (reader_is_done (e_reader e)) eqn:Hd.
  - rewrite (tk_flight _ Ht Hd). by destruct (e_reader e).
  - specialize (Hg eq_refl eq_refl). destruct (e_flight e); [|cbn [length] in Hg; lia].
    destruct (e_reader e); cbn [reader_count] in Hg; done || lia.
Qed.

Lemma wire_idle e first :
  tasks_ok e -> ledger_ok (ledger_of e) -> e_writer e = WaitIdle first -> e_inflight e = 0%nat ->
  unanswered (set_writer (Writing [first] None) e) `sublist_of` unanswered e ->
  wire_ok (set_writer (Writing [first] None) e).
Proof.
  intros Ht Hok Ew Hi Hs. constructor; [done|]. pose proof (gate_drained e first Ht Ew Hi) as Hnone.
  unfold on_the_wire at 1. unfold sent_tickets in *. engine_simpl. rewrite Hnone.
  cbn [app fmap list_fmap existsb]. rewrite orb_false_r, exclusive_ticket. intros Hex.
  apply sublist_length in Hs.
  assert (unanswered e = [] ++ ticket_of_queued first :: queued_tickets (e_queue e)) as Hu
    by (unfold unanswered, sent_tickets, waiting; by rewrite Hnone, Ew).
  pose proof (ok_tickets _ Hok) as Hto. apply Forall_app in Hto as [_ Hto].
  cbn [ledger_of l_open] in Hto. rewrite Hu in Hto. apply Forall_cons_1 in Hto as [Hto _].
  rewrite (guard_last e _ _ _ Hok Hu (exclusive_guard _ Hto Hex)) in Hu. rewrite Hu in Hs. exact Hs.
Qed.

Lemma wire_write_batch e e0 batch held :
  wire_ok e -> e_writer e = Collecting batch -> sent_tickets e0 = sent_tickets e ->
  unanswered (set_writer (Writing batch held) e0) `sublist_of` unanswered e ->
  wire_ok (set_writer (Writing batch held) e0).
Proof.
  intros He Ew H0 Hsub. pose proof (wo_batch _ He batch Ew) as Hb.
  apply (wire_of_writer e); try done. unfold on_the_wire. engine_simpl.
  rewrite Ew. cbn [writer_written]. unfold sent_tickets in *. engine_simpl. rewrite H0, !existsb_app.
  by rewrite (batch_not_exclusive _ Hb).
Qed.

Lemma wire_fails e e0 error victims :
  wire_ok e -> sent_tickets e0 = sent_tickets e ->
  unanswered (writer_fails error victims e0) `sublist_of` unanswered e ->
  wire_ok (writer_fails error victims e0).
Proof.
  intros He H0 Hsub. apply (wire_of_writer e); try done. unfold on_the_wire, writer_fails, sent_tickets in *.
  engine_simpl. rewrite !existsb_app, H0. cbn. by rewrite orb_false_r; intros ->.
Qed.

Lemma wire_writer e e' :
  tasks_ok e -> ledger_ok (ledger_of e) -> writer_step depth e = Some e' -> wire_ok e -> wire_ok e'.
Proof.
  intros Ht Hok H He. pose proof (task_shrinks WriterStep e e' eq_refl H) as Hs.
  revert H Hs. unfold writer_step.
  destruct (e_writer e) as [[held|]|first|batch|batch held
    |[|queued pending] held|queued pending held|article pending held|error|] eqn:Ew;
    intros H Hs; try discriminate H.
  - injection H as <-. apply (wire_start_batch e); try done. unfold on_the_wire. rewrite Ew.
    by rewrite app_nil_r.
  - destruct (e_queue e) as [|first queue]; [done|]. injection H as <-.
    apply (wire_start_batch e); try done. unfold on_the_wire. rewrite Ew. by rewrite app_nil_r.
  - destruct (Nat.eqb_spec (e_inflight e) 0) as [Hi|]; [|done]. injection H as <-.
    by apply (wire_idle e first).
  - destruct (_ <? 64)%nat; [|injection H as <-; by apply (wire_write_batch e)].
    destruct (e_queue e) as [|next queue]; [injection H as <-; by apply (wire_write_batch e)|].
    destruct (is_batch_break next) eqn:Ebr; injection H as <-; [by apply (wire_write_batch e)|].
    apply (wire_of_writer e); try done.
    + intros b [= <-]. apply Forall_app. split; [by apply (wo_batch _ He)|]. repeat constructor.
      unfold is_batch_break in Ebr. by destruct (requires_exclusive next).
    + unfold on_the_wire. engine_simpl. by rewrite Ew.
  - destruct (write_batch _ _) as [[u|err] sink]; injection H as <-; [|by apply (wire_fails e)].
    apply (wire_of_writer e); try done. unfold on_the_wire; engine_simpl; by rewrite Ew.
  - injection H as <-. apply (wire_of_writer e); try done. unfold on_the_wire. engine_simpl. by rewrite Ew.
  - injection H as <-. apply (wire_of_writer e); try done. unfold on_the_wire. engine_simpl. by rewrite Ew.
  - destruct (reader_is_done (e_reader e)); [injection H as <-; by apply (wire_fails e)|].
    destruct (_ <? depth)%nat; [|done].
    destruct (q_continuation queued); injection H as <-; apply (wire_of_writer e); try done;
      unfold on_the_wire, sent_tickets; engine_simpl; rewrite Ew; cbn [writer_written];
      by rewrite app_assoc, (fmap_app ticket_of_inflight _ [inflight_of queued]), <- app_assoc.
  - destruct (e_proceed e) as [[|]|]; [|injection H as <-; apply (wire_of_writer e); try done;
      unfold on_the_wire; engine_simpl; by rewrite Ew|done].
    destruct (write_dot_stuffed_article _ _) as [[u|err] sink]; injection H as <-;
      [|by apply (wire_fails e)].
    apply (wire_of_writer e); try done. unfold on_the_wire; engine_simpl; by rewrite Ew.
  - injection H as <-. destruct (store_poisoned_same error e) as [p Hp]. rewrite Hp in *.
    apply (wire_of_writer e); try done. unfold on_the_wire, sent_tickets; engine_simpl. by rewrite Ew.
Qed.

(** The reader and an abort only take requests off the wire. *)
Lemma wire_shrinks e e' :
  wire_ok e -> unanswered e' `sublist_of` unanswered e ->
  (forall batch, e_writer e' = Collecting batch -> e_writer e = Collecting batch) ->
  on_the_wire e' `sublist_of` on_the_wire e -> wire_ok e'.
Proof.
  intros He Hs Hw Hx. apply (wire_of_writer e); [done..|by eauto using wo_batch|].
  by apply existsb_sublist.
Qed.

Lemma wire_reader e e' : reader_step find_end e = Some e' -> wire_ok e -> wire_ok e'.
Proof.
  intros H He. pose proof (task_shrinks ReaderStep e e' eq_refl H) as Hs.
  assert (e_writer e' = e_writer e /\ sent_tickets e' `sublist_of` sent_tickets e) as [Hw Hx].
  { revert H. unfold reader_step, sent_tickets.
    destruct (e_reader e) as [|f|f|f r|f| |f error|] eqn:Er; intros H; try discriminate H.
    - destruct (e_flight e) as [|f flight] eqn:Ef; [destruct (writer_is_done _); [|done]|];
        injection H as <-; engine_simpl; rewrite ?Ef; done.
    - destruct (receive _ _ _) as [[receiver [r|err]]|]; [| |done];
        (destruct (f_proceed f); [try destruct (is_proceed _ _)|]; injection H as <-;
         unfold reader_fails; engine_simpl; (split; [done|]); try done; by apply sublist_cons).
    - destruct (receive _ _ _) as [[receiver [r|err]]|]; [| |done]; injection H as <-; [done|].
      unfold reader_fails. engine_simpl. split; [done|]. by apply sublist_cons.
    - revert H. unfold complete. destruct (store_capability_transition _ _ _ _ _) as [[caps [u|err]]|];
        [| |done]; [destruct (_ && _)|]; intros [= <-]; engine_simpl; (split; [done|]);
        by apply sublist_cons.
    - by injection H as <-.
    - by injection H as <-.
    - injection H as <-. destruct (store_poisoned_same error e) as [p ->].
      destruct (existsb f_proceed (e_flight e)); engine_simpl; (split; [done|]); apply sublist_nil_l. }
  apply (wire_shrinks e); [done|done|by rewrite Hw|]. unfold on_the_wire. rewrite Hw.
  by apply sublist_app.
Qed.

Lemma wire_abort e e' : abort_step e = Some e' -> wire_ok e -> wire_ok e'.
Proof.
  intros H He. pose proof (task_shrinks AbortStep e e' eq_refl H) as Hs. revert H Hs.
  unfold abort_step. destruct (_ && _); [|done]. intros [= <-] Hs. apply (wire_shrinks e); try done.
  unfold on_the_wire. engine_simpl. apply sublist_app; [done|apply sublist_nil_l].
Qed.

(** ** The capability list and the closed gate *)

Record shared_ok e : Prop := {
  so_capabilities : e_capabilities e = None ->
    Forall (fun t => request_kind_requires_capabilities (t_kind t) = false) (unanswered e)
    /\ forall c, e_barrier e = Checked c ->
         request_kind_requires_capabilities (Request.kind (s_request c)) = false;
  so_closed : e_closed e = true -> unanswered e = [] /\ forall c, e_barrier e <> Checked c;
  so_calls c : e_barrier e = Locked c -> exists call, c = sending_of call;
}.

Lemma Forall_sublist {A} (P : A -> Prop) l k : l `sublist_of` k -> Forall P k -> Forall P l.
Proof.
  induction 1 as [|x l k _ IH|x l k _ IH]; [done| |]; intros H; apply Forall_cons_1 in H as [Hx H]; auto.
Qed.

Lemma shared_frame e e' :
  shared_ok e -> keeps_shared e e' -> unanswered e' `sublist_of` unanswered e -> shared_ok e'.
Proof.
  intros [H1 H2 H3] (Hc & Hcl & Hb & _) Hs. constructor.
  - rewrite Hc. intros Hn. destruct (H1 Hn) as [Hf Hk]. split; [by eapply Forall_sublist|].
    intros c Hbc. destruct Hb as [Hb|Hb]; [apply Hk|]; congruence.
  - rewrite Hcl. intros Hn. destruct (H2 Hn) as [Hu Hk]. rewrite Hu in Hs. apply sublist_nil_r in Hs.
    split; [done|]. intros c Hbc. destruct Hb as [Hb|Hb]; [apply (Hk c)|]; congruence.
  - intros c Hbc. destruct Hb as [Hb|Hb]; [apply H3|]; congruence.
Qed.

(** A caller that does not check asks for nothing that needs the list. *)
Lemma unchecked_call call :
  s_checks (sending_of call) = false ->
  request_kind_requires_capabilities (Request.kind (s_request (sending_of call))) = false.
Proof. by destruct call. Qed.

Lemma shared_set_barrier e b :
  shared_ok e -> (forall c, b <> Checked c) -> (forall c, b = Locked c -> exists call, c = sending_of call) ->
  shared_ok (set_barrier b e).
Proof.
  intros [H1 H2 H3] Hb Hl. constructor; engine_simpl; [| |done].
  - intros Hn. destruct (H1 Hn). split; [done|]. by intros c ->; destruct (Hb c).
  - intros Hn. destruct (H2 Hn). by split.
Qed.

Lemma shared_check e e' : caller_check e = Some e' -> shared_ok e -> shared_ok e'.
Proof.
  unfold caller_check. intros H He. destruct (e_barrier e) as [|c| |] eqn:Eb; try discriminate H.
  assert (shared_ok (set_barrier Free e)) as Hfree by (apply shared_set_barrier; done).
  destruct (so_calls _ He c Eb) as [call ->].
  assert (e_closed e = false -> (e_capabilities e = None ->
            request_kind_requires_capabilities (Request.kind (s_request (sending_of call))) = false) ->
          shared_ok (set_barrier (Checked (sending_of call)) e)) as Hok.
  { intros Hcl Hreq. constructor; engine_simpl; [|congruence|done].
    intros Hn. split; [by apply (so_capabilities _ He)|]. intros c [= <-]. auto. }
  destruct (e_closed e); [by injection H as <-|].
  destruct (e_capabilities e) as [l|]; [injection H as <-; by apply Hok|].
  destruct (s_checks (sending_of call)) eqn:Es; cbn [andb] in H.
  - destruct (request_kind_requires_capabilities _) eqn:Er in H; injection H as <-; [done|].
    by apply Hok.
  - injection H as <-. apply Hok; [done|]. intros _. by apply unchecked_call.
Qed.

Lemma shared_send e e' : caller_send depth e = Some e' -> shared_ok e -> shared_ok e'.
Proof.
  unfold caller_send. intros H He. destruct (e_barrier e) as [| |c|] eqn:Eb; try discriminate H.
  destruct (writer_is_done _); [injection H as <-; by apply shared_set_barrier|].
  destruct (_ <? depth)%nat; [|done]. injection H as <-.
  set (q := {| q_id := _ |}). destruct He as [H1 H2 H3].
  constructor; engine_simpl.
  - intros Hn. destruct (H1 Hn) as [Hf Hk]. split.
    + unfold unanswered, sent_tickets, waiting in *. engine_simpl.
      rewrite app_assoc, (fmap_app ticket_of_queued _ [q]), app_assoc. apply Forall_app.
      split; [done|]. repeat constructor. by apply Hk.
    + by intros c'; destruct (request_kind_requires_barrier _).
  - intros Hn. by destruct (proj2 (H2 Hn) c).
  - intros c'. by destruct (request_kind_requires_barrier _).
Qed.

Lemma transition_clears caps kind r mark inval res :
  store_capability_transition caps kind r mark inval = Some (None, res) ->
  caps = None \/ request_kind_invalidates_capabilities kind = true.
Proof.
  unfold store_capability_transition, response_invalidates_capabilities.
  destruct (request_kind_invalidates_capabilities kind); [by right|]. cbn [negb].
  rewrite andb_false_r. intros H. left. revert H. destruct (_ && _).
  - destruct (response_content r) as [c|]; [|done]. by destruct (capability_list_parse c); intros [= ->].
  - by destruct mark; intros [= ->].
Qed.

Lemma shared_complete e e' f r :
  ledger_ok (ledger_of e) -> e_reader e = Finish f r -> complete f r e = Some e' ->
  shared_ok e -> shared_ok e'.
Proof.
  intros Hok Hr H He.
  assert (unanswered e = ticket_of_inflight f :: unanswered e') as Hu.
  { revert H. unfold complete, unanswered, sent_tickets, waiting. rewrite Hr.
    destruct (store_capability_transition _ _ _ _ _) as [[caps [u|err]]|];
      [| |done]; [destruct (_ && _)|]; by intros [= <-]. }
  pose proof (ok_barrier _ Hok) as Hb. pose proof (ok_tickets _ Hok) as Ht.
  cbn [ledger_of l_barrier l_guard l_open] in Hb, Ht. rewrite Hr, Hu in Hb, Ht.
  apply Forall_cons_1 in Ht as [Ht _].
  assert (t_guard (ticket_of_inflight f) = true ->
          unanswered e' = [] /\ exists id, e_barrier e' = HeldBy id) as Hlast.
  { intros Hg. destruct (guard_first _ _ _ Hb Hg) as [-> Hid]. split; [done|].
    destruct (complete_log e e' f r H) as [_ ->]. eauto. }
  destruct (complete_log e e' f r H) as [_ Hbe]. destruct He as [H1 H2 H3].
  revert H. unfold complete.
  destruct (store_capability_transition _ _ _ _ _) as [[caps res]|] eqn:Et; [|done]. intros H.
  assert (e_capabilities e' = caps /\ (e_closed e' = e_closed e \/ f_kind f = RequestKind.Quit)) as [Hc Hcl].
  { destruct res as [u|err]; [|by injection H as <-; eauto].
    destruct (RequestKind.eqb (f_kind f) RequestKind.Quit) eqn:Eq; cbn [andb] in H.
    - apply eqb_spec in Eq. destruct (_ =? 205); injection H as <-; eauto.
    - injection H as <-. eauto. }
  constructor.
  - rewrite Hc. intros ->. destruct (transition_clears _ _ _ _ _ _ Et) as [Hn|Hi].
    + destruct (H1 Hn) as [Hf Hk]. rewrite Hu in Hf. apply Forall_cons_1 in Hf as [_ Hf].
      split; [done|]. by rewrite Hbe.
    + destruct (Hlast (invalidates_guard _ Ht Hi)) as [-> [id ->]]. done.
  - intros Hx. destruct Hcl as [Hcl|Hq].
    + rewrite Hcl in Hx. destruct (H2 Hx) as [Hn _]. by rewrite Hu in Hn.
    + destruct Hlast as [-> [id ->]]; [|done]. rewrite Ht. cbn. by rewrite Hq.
  - rewrite Hbe. exact (H3).
Qed.
End sharing.

Section runs.
Context `{Mc : !Memchr, Ms : !MemchrSpec} {W : Type} `{Aw : !AsyncWrite W}.
Context (find_end : bytes -> option nat) `{Hfe : !TerminatorFinder find_end} (depth : nat).
Implicit Types e : @Engine W.

Lemma step_caller label e e' :
  task_label label = false -> step find_end depth label e = Some e' ->
  (exists call, caller_lock call e = Some e') \/ caller_check e = Some e'
  \/ caller_send depth e = Some e' \/ caller_cancel e = Some e'.
Proof. destruct label; cbn [task_label step]; eauto; done. Qed.

Lemma reachable_wire sink reader e : reachable find_end depth sink reader e -> wire_ok e.
Proof.
  induction 1 as [|e label e' He IH Hs]; [by constructor|].
  pose proof (reachable_tasks _ _ _ _ _ He) as Ht. pose proof (reachable_ledger _ _ _ _ _ He) as Hl.
  destruct (task_label label) eqn:El.
  - destruct label; try done; cbn [step] in Hs; eauto using wire_writer, wire_abort, wire_reader.
  - by eapply wire_caller, IH; [|eapply step_caller].
Qed.

Lemma shared_step label e e' :
  ledger_ok (ledger_of e) -> step find_end depth label e = Some e' -> shared_ok e -> shared_ok e'.
Proof.
  intros Hl Hs He. destruct (task_label label) eqn:El.
  - pose proof (task_shrinks find_end depth label e e' El Hs) as Hsub.
    destruct label; try done; cbn [step] in Hs;
      [eapply shared_frame; eauto using writer_shared|eapply shared_frame; eauto using abort_shared|].
    destruct (e_reader e) as [|f|f|f r|f| |f error|] eqn:Er;
      try (eapply shared_frame; [done|eapply reader_shared; [done|by rewrite Er]|done]).
    unfold reader_step in Hs. rewrite Er in Hs. by eapply shared_complete.
  - destruct label; try done; cbn [step] in Hs.
    + unfold caller_lock in Hs. destruct (e_barrier e); try discriminate Hs. injection Hs as <-.
      apply shared_set_barrier; [done|done|]. intros c [= <-]. eauto.
    + by eapply shared_check.
    + by eapply shared_send.
    + unfold caller_cancel in Hs. destruct (e_barrier e); try discriminate Hs; injection Hs as <-;
        by apply shared_set_barrier.
Qed.

Lemma reachable_shared sink reader e : reachable find_end depth sink reader e -> shared_ok e.
Proof.
  induction 1 as [|e label e' He IH Hs]; [by constructor|].
  eapply shared_step; eauto using reachable_ledger.
Qed.

(** ** Properties *)

(** C30: the engine refines its ledger. In every reachable state every queued request
    is either open or answered, exactly once, and the barrier's guard is inside
    a request only when nothing is queued behind it; and every step of a caller
    or a task is a sequence of ledger steps: a request opens, open requests are
    answered, a guard is dropped. *)
Theorem engine_refines_ledger sink reader e label e' :
  reachable find_end depth sink reader e -> step find_end depth label e = Some e' ->
  rtc ledger_step (ledger_of e) (ledger_of e') /\ ledger_ok (ledger_of e) /\ ledger_ok (ledger_of e').
Proof.
  intros He Hs. pose proof (step_refines find_end depth label e e' Hs) as Hr.
  pose proof (reachable_ledger _ _ _ _ _ He) as Hl.
  split; [done|]. split; [done|]. by eapply ledger_steps_ok.
Qed.

(** C10: every queued request is answered. From any reachable state, whatever the
    scheduler does, the tasks take at most [work] steps without a new call; and
    where no task can move, nothing is unanswered, every request ever queued has
    exactly one reply, and no request keeps the barrier. *)
Theorem every_request_answered sink reader e labels e' :
  (0 < depth)%nat -> reachable find_end depth sink reader e ->
  Forall (fun l => task_label l = true) labels -> steps find_end depth labels e e' ->
  (length labels <= work e)%nat
  /\ (quiet find_end depth e' ->
      unanswered e' = [] /\ fst <$> e_replies e' ≡ₚ seq 0 (length (e_log e'))
      /\ forall id, e_barrier e' <> HeldBy id).
Proof.
  intros Hd He Hl Hs. pose proof (steps_work find_end depth labels e e' Hs Hl). split; [lia|].
  intros Hq. pose proof (steps_reachable _ _ _ _ _ _ _ Hs He) as He'.
  destruct (quiet_unanswered find_end depth e' Hd (reachable_tasks _ _ _ _ _ He') Hq) as [Hu Hg].
  destruct (reachable_ledger _ _ _ _ _ He') as [Hb _ Ha].
  cbn [ledger_of l_barrier l_guard l_open l_answered l_next] in *. rewrite Hu in *. rewrite Hg in Hb.
  split; [done|]. split; [exact Ha|]. intros id Hid. rewrite Hid in Hb.
  destruct Hb as (init & t & Heq & _). by destruct init.
Qed.

(** C11: an exclusive request has the connection to itself. While a request that
    needs an exclusive connection is being written, waits for its response or
    receives it, it is the only request on the wire and the only one queued. *)
Theorem exclusive_request_alone sink reader e t :
  reachable find_end depth sink reader e ->
  t ∈ on_the_wire e -> exclusive t = true -> on_the_wire e = [t] /\ unanswered e = [t].
Proof.
  intros He Hin Hex. destruct (wire_split e) as [rest Hu].
  assert (existsb exclusive (on_the_wire e) = true) as Hx.
  { apply existsb_exists. exists t. split; [by apply list_elem_of_In|done]. }
  pose proof (wo_alone _ (reachable_wire _ _ _ He) Hx) as Hlen. rewrite Hu, length_app in Hlen.
  destruct (on_the_wire e) as [|t' [|t'' ts]]; [by apply not_elem_of_nil in Hin| |cbn in Hlen; lia].
  apply list_elem_of_singleton in Hin as ->. split; [done|]. rewrite Hu.
  destruct rest; [done|cbn in Hlen; lia].
Qed.

(** C29: the capability list is there while it is needed. As long as a request whose
    kind requires negotiated capabilities is queued, written or waiting for its
    response, the connection holds a capability list. *)
Theorem capabilities_kept sink reader e t :
  reachable find_end depth sink reader e ->
  t ∈ unanswered e -> request_kind_requires_capabilities (t_kind t) = true ->
  e_capabilities e <> None.
Proof.
  intros He Hin Ht Hn. destruct (so_capabilities _ (reachable_shared _ _ _ He) Hn) as [Hf _].
  apply list_elem_of_In in Hin. rewrite Forall_forall in Hf. specialize (Hf t Hin). congruence.
Qed.

(** Nothing follows QUIT. Once a 205 response to QUIT has closed the gate, no
    request is open and no step queues another. *)
Theorem quit_closes sink reader e label e' :
  reachable find_end depth sink reader e -> e_closed e = true ->
  step find_end depth label e = Some e' ->
  unanswered e = [] /\ e_log e' = e_log e /\ unanswered e' = [].
Proof.
  intros He Hc Hs. destruct (so_closed _ (reachable_shared _ _ _ He) Hc) as [Hu Hk].
  split; [done|]. destruct (task_label label) eqn:El.
  - destruct (task_log find_end depth label e e' El Hs) as [-> _]. split; [done|].
    pose proof (task_shrinks find_end depth label e e' El Hs) as Hsub. rewrite Hu in Hsub.
    by apply sublist_nil_r in Hsub.
  - destruct label; try done; cbn [step] in Hs; revert Hs;
      unfold caller_lock, caller_check, caller_send, caller_cancel;
      destruct (e_barrier e) as [|c|c|id] eqn:Eb; try done; rewrite ?Hc; try (by intros [= <-]).
    by destruct (Hk c).
Qed.
End runs.
