(* ===== verification/ClientEngineReplies.v ===== *)
(** * Every caller gets its own response

    The server's side as a script, one exchange per request in the order the
    requests were queued; the engine, whatever the interleaving of its tasks and
    callers and however the bytes arrive, answers each request with the response
    of its own exchange. *)
From stdpp Require Import relations.
From S2P Require Import Prelude Utf8 Decimal Memchr Terminator Args Kinds Requests.
From S2P Require Import RequestLine RequestWire ResponseLine ResponseContent Capabilities.
From S2P Require Import ResponseBody Article ResponseFrame OwnedResponse ResponseReceiver.
From S2P Require Import ClientWire ClientEngine ClientEngineCorrect ClientEngineRuns.

Local Open Scope Z_scope.
Local Open Scope rust_scope.

Definition queued_kind (q : QueuedRequest) : RequestKind := Request.kind (q_request q).

(** The writer has failed or is gone. *)
Definition writer_stopped (s : WriterState) : bool :=
  match s with WriterFailing _ | WriterDone => true | _ => false end.

Section replies.
Context `{Mc : !Memchr, Ms : !MemchrSpec} {W : Type} `{Aw : !AsyncWrite W}.
Context (find_end : bytes -> option nat) `{Hfe : !TerminatorFinder find_end} (depth : nat).
Implicit Types e : @Engine W.

(** The server's answers: the bytes of each exchange and the response that
    completes it. *)
Variable script : list (bytes * OwnedResponse).
Variable tail : list (ReadEvent IoError).
Hypothesis tail_ends : stream_ends tail.

(** The bytes of one exchange: one response, or the go-ahead for the article and
    the response after it. *)
Definition exchange (q : QueuedRequest) (frame : bytes) (r : OwnedResponse) : Prop :=
  (whole_response (IoError := IoError) (queued_kind q) frame r
   /\ (q_continuation q <> None -> is_proceed (queued_kind q) (response_status r) = false))
  \/ (q_continuation q <> None /\ exists go_ahead r1 final,
        frame = go_ahead ++ final
        /\ whole_response (IoError := IoError) (queued_kind q) go_ahead r1
        /\ is_proceed (queued_kind q) (response_status r1) = true
        /\ whole_response (IoError := IoError) (queued_kind q) final r).

(** Every queued request has its exchange in the script. *)
Definition scripted (log : list QueuedRequest) : Prop :=
  forall k q, log !! k = Some q ->
    exists frame r, script !! k = Some (frame, r) /\ exchange q frame r.

Definition script_bytes (from : nat) : bytes := concat (fst <$> drop from script).

(** The receiver is ready and [rest] is all it can still read. *)
Definition can_read (self : BufferedResponseReceiver IoError) (rest : bytes) : Prop :=
  br_state self = Ready /\ exists chunks, br_reader self = reader_of chunks tail
    /\ Forall (fun c => c <> []) chunks /\ br_pending self ++ concat chunks = rest.

Lemma receive_frame self kind frame r rest :
  can_read self (frame ++ rest) -> whole_response (IoError := IoError) kind frame r ->
  exists self', receive find_end self kind = Some (self', Ok r) /\ can_read self' rest.
Proof.
  intros (Hs & chunks & Hr & Hne & Hin) Hw.
  destruct (receive_runs find_end kind chunks tail self Hs Hr Hne tail_ends)
    as (self' & r' & Hrun & Ho & Hpost).
  destruct (whole_response_bytes _ _ _ Hw) as [Hb Hout]. rewrite Hin, Hout in Ho. subst r'.
  exists self'. split; [done|]. destruct Hpost as (Hs' & chunks' & Hr' & Hne' & Hsplit).
  split; [done|]. exists chunks'. do 2 (split; [done|]).
  rewrite Hin, Hb in Hsplit. by apply app_inv_head in Hsplit.
Qed.

(** What a reply may be. *)
Definition reply_ok e (reply : nat * Reply) : Prop :=
  match snd reply with
  | Completed request r => exists q frame,
      e_log e !! fst reply = Some q /\ request = q_request q /\ script !! fst reply = Some (frame, r)
  | Failed error =>
      writer_stopped (e_writer e) = true \/ error = SharedEngineError.CapabilitiesUnavailable
  | Dropped => False
  end.

(** Where the reader is in the script, after the requests [served]. *)
Definition reading_ok (served : nat) e : Prop :=
  match e_reader e with
  | ReadNext | Release _ | EndInflight | Reading _ => can_read (e_receiver e) (script_bytes served)
  | ReadingFinal f => exists frame r final, script !! served = Some (frame, r)
      /\ whole_response (IoError := IoError) (f_kind f) final r
      /\ can_read (e_receiver e) (final ++ script_bytes (S served))
  | Finish _ r => exists frame, script !! served = Some (frame, r)
      /\ can_read (e_receiver e) (script_bytes (S served))
  | ReaderDone => e_writer e = WriterDone
  | Draining _ _ => False
  end.

(** Only the reader's own fields matter while the writer runs. *)
Lemma reading_ok_same served e e' :
  e_reader e' = e_reader e -> e_receiver e' = e_receiver e ->
  (e_writer e = WriterDone -> e_writer e' = WriterDone) -> reading_ok served e -> reading_ok served e'.
Proof. unfold reading_ok. intros -> -> Hw. destruct (e_reader e); auto. Qed.

(** The requests are served in the order they were queued: served, at the
    reader or in flight, at the writer or queued. *)
Definition in_order (served sent : list QueuedRequest) e : Prop :=
  exists rest, e_log e = served ++ sent ++ rest
    /\ reader_current (e_reader e) ++ e_flight e = inflight_of <$> sent
    /\ (writer_stopped (e_writer e) = false -> waiting e = rest).

Record paired e : Prop := {
  pr_ids k q : e_log e !! k = Some q -> q_id q = k;
  pr_aborted : e_aborted e = false;
  pr_replies : Forall (reply_ok e) (e_replies e);
  pr_order : exists served sent, in_order served sent e /\ reading_ok (length served) e;
}.

(** A script for more requests is a script for fewer. *)
Lemma scripted_prefix log more : scripted (log ++ more) -> scripted log.
Proof. intros H k q Hk. apply H. by apply lookup_app_l_Some. Qed.

Lemma script_step k frame r :
  script !! k = Some (frame, r) -> script_bytes k = frame ++ script_bytes (S k).
Proof.
  intros H. unfold script_bytes. by rewrite (drop_S _ _ _ H), fmap_cons.
Qed.

Lemma replies_mono e e' :
  (exists more, e_log e' = e_log e ++ more) ->
  (writer_stopped (e_writer e) = true -> writer_stopped (e_writer e') = true) ->
  Forall (reply_ok e) (e_replies e) -> Forall (reply_ok e') (e_replies e).
Proof.
  intros [more Hl] Hw. apply Forall_impl. intros [k [request r|error|]]; unfold reply_ok; cbn [fst snd];
    [|by intros [?|?]; auto|done].
  intros (q & frame & H1 & H2 & H3). exists q, frame. rewrite Hl. split; [|done].
  by apply lookup_app_l_Some.
Qed.

(** *** Callers *)

Lemma paired_set_barrier e b : paired e -> paired (set_barrier b e).
Proof. intros []. by constructor. Qed.

Lemma paired_caller e e' :
  (exists call, caller_lock call e = Some e') \/ caller_check e = Some e'
  \/ caller_send depth e = Some e' \/ caller_cancel e = Some e' -> paired e -> paired e'.
Proof.
  unfold caller_lock, caller_check, caller_send, caller_cancel.
  destruct (e_barrier e) as [|c|c|id]; intros [[call H]|[H|[H|H]]] He; try discriminate H;
    try (injection H as <-; by apply paired_set_barrier).
  - destruct (e_closed e), (e_capabilities e); try destruct (_ && _) in H; injection H as <-;
      by apply paired_set_barrier.
  - destruct (writer_is_done _); [injection H as <-; by apply paired_set_barrier|].
    destruct (_ <? depth)%nat; [|done]. injection H as <-. apply paired_set_barrier.
    set (q := {| q_id := _ |}). destruct He as [H1 H2 H3 (served & sent & (rest & Ho1 & Ho2 & Ho3) & H4)].
    constructor; engine_simpl; [|done| |].
    + intros k q' Hk. apply lookup_app_Some in Hk as [Hk|[Hle Hk]]; [by apply H1|].
      apply list_lookup_singleton_Some in Hk as [Hk <-]. cbn. lia.
    + apply (replies_mono e); [by exists [q]|done|done].
    + exists served, sent. split; [|exact H4]. exists (rest ++ [q]). engine_simpl.
      split; [by rewrite Ho1, <- !app_assoc|]. split; [done|]. intros Hw.
      unfold waiting in *. engine_simpl. by rewrite app_assoc, Ho3.
Qed.

(** *** The writer *)

(** The writer goes on, or hands its first request over. *)
Lemma paired_writer_moves e e' moved :
  paired e -> e_reader e' = e_reader e -> e_receiver e' = e_receiver e -> e_log e' = e_log e ->
  e_aborted e' = e_aborted e -> e_replies e' = e_replies e -> writer_stopped (e_writer e) = false ->
  e_flight e' = e_flight e ++ (inflight_of <$> moved) -> waiting e = moved ++ waiting e' -> paired e'.
Proof.
  intros [P1 P2 P3 (served & sent & (rest & Ho1 & Ho2 & Ho3) & P4)] H1 H2 H3 H4 H5 H6 H7 H8.
  constructor; rewrite ?H3, ?H4, ?H5; [done|done| |].
  - apply (replies_mono e); [exists []; by rewrite H3, app_nil_r|by rewrite H6|done].
  - exists served, (sent ++ moved). split.
    + exists (waiting e'). rewrite H1, H3, H7, fmap_app, <- Ho2, <- !app_assoc, <- H8. split; [|done].
      rewrite Ho1. by rewrite (Ho3 H6).
    + apply (reading_ok_same _ e); try done. intros Hd. by rewrite Hd in H6.
Qed.

(** The writer fails what it holds, or stops. *)
Lemma paired_writer_stops e e' error victims :
  paired e -> e_reader e' = e_reader e -> e_receiver e' = e_receiver e -> e_log e' = e_log e ->
  e_aborted e' = e_aborted e -> e_flight e' = e_flight e ->
  e_replies e' = e_replies e ++ ((fun q => (q_id q, Failed error)) <$> victims) ->
  writer_stopped (e_writer e') = true -> e_writer e <> WriterDone -> paired e'.
Proof.
  intros [P1 P2 P3 (served & sent & (rest & Ho1 & Ho2 & Ho3) & P4)] H1 H2 H3 H4 H5 H6 H7 H8.
  constructor; rewrite ?H3, ?H4, ?H6; [done|done| |].
  - apply Forall_app. split.
    + apply (replies_mono e); [exists []; by rewrite H3, app_nil_r|done|done].
    + apply Forall_fmap, Forall_true. intros q. by left.
  - exists served, sent. split.
    + exists rest. rewrite H1, H3, H5. do 2 (split; [done|]). by rewrite H7.
    + by apply (reading_ok_same _ e).
Qed.

Lemma start_batch_fields e first :
  e_reader (start_batch first e) = e_reader e /\ e_receiver (start_batch first e) = e_receiver e
  /\ e_log (start_batch first e) = e_log e /\ e_aborted (start_batch first e) = e_aborted e
  /\ e_replies (start_batch first e) = e_replies e /\ e_flight (start_batch first e) = e_flight e
  /\ waiting (start_batch first e) = first :: e_queue e.
Proof.
  unfold start_batch. by destruct (requires_exclusive first); [|destruct (request_has_large_payload _)].
Qed.

Lemma paired_start_batch e e0 first :
  paired e -> e_reader e0 = e_reader e -> e_receiver e0 = e_receiver e -> e_log e0 = e_log e ->
  e_aborted e0 = e_aborted e -> e_replies e0 = e_replies e -> e_flight e0 = e_flight e ->
  writer_stopped (e_writer e) = false -> waiting e = first :: e_queue e0 -> paired (start_batch first e0).
Proof.
  intros He H1 H2 H3 H4 H5 H6 H7 H8.
  destruct (start_batch_fields e0 first) as (F1 & F2 & F3 & F4 & F5 & F6 & F7).
  apply (paired_writer_moves e _ []); rewrite ?F1, ?F2, ?F3, ?F4, ?F5, ?F6, ?F7; try done.
  by rewrite app_nil_r.
Qed.

Lemma reading_alive e :
  paired e -> writer_is_done (e_writer e) = false -> reader_is_done (e_reader e) = false.
Proof.
  intros [_ _ _ (served & sent & _ & H)] Hw. unfold reading_ok in H. destruct (e_reader e); try done.
  by rewrite H in Hw.
Qed.

Ltac writer_moves e Ew moved :=
  apply (paired_writer_moves e _ moved); try done; unfold waiting; engine_simpl; rewrite ?Ew; try done;
  cbn [fmap list_fmap writer_requests option_list option_rect];
  rewrite ?app_nil_r, <- ?app_assoc; try done.

Lemma paired_writer e e' : writer_step depth e = Some e' -> paired e -> paired e'.
Proof.
  intros H He. revert H. unfold writer_step.
  destruct (e_writer e) as [[held|]|first|batch|batch held
    |[|queued pending] held|queued pending held|article pending held|error|] eqn:Ew;
    intros H; try discriminate H.
  - injection H as <-. apply (paired_start_batch e); try done; [by rewrite Ew|].
    unfold waiting. by rewrite Ew.
  - destruct (e_queue e) as [|first queue] eqn:Eq; [done|]. injection H as <-.
    apply (paired_start_batch e); try done; [by rewrite Ew|]. unfold waiting. by rewrite Ew, Eq.
  - destruct (_ =? 0)%nat; [|done]. injection H as <-. writer_moves e Ew (@nil QueuedRequest).
  - destruct (_ <? 64)%nat; [|injection H as <-; writer_moves e Ew (@nil QueuedRequest)].
    destruct (e_queue e) as [|next queue] eqn:Eq;
      [injection H as <-; writer_moves e Ew (@nil QueuedRequest); by rewrite Eq|].
    destruct (is_batch_break next); injection H as <-; writer_moves e Ew (@nil QueuedRequest);
      by rewrite Eq.
  - destruct (write_batch _ _) as [[u|err] sink]; injection H as <-;
      [writer_moves e Ew (@nil QueuedRequest)|eapply (paired_writer_stops e); by rewrite ?Ew].
  - injection H as <-. writer_moves e Ew (@nil QueuedRequest).
  - injection H as <-. writer_moves e Ew (@nil QueuedRequest).
  - rewrite (reading_alive e He) in H by by rewrite Ew. destruct (_ <? depth)%nat; [|done].
    destruct (q_continuation queued); injection H as <-; writer_moves e Ew [queued].
  - destruct (e_proceed e) as [[|]|]; [|injection H as <-; writer_moves e Ew (@nil QueuedRequest)|done].
    destruct (write_dot_stuffed_article _ _) as [[u|err] sink]; injection H as <-;
      [writer_moves e Ew (@nil QueuedRequest)|eapply (paired_writer_stops e); by rewrite ?Ew].
  - injection H as <-. destruct (store_poisoned_same error e) as [p ->].
    eapply (paired_writer_stops e); by rewrite ?Ew.
Qed.

(** *** The reader *)

(** The reader goes on with the same request. *)
Lemma paired_reader_moves e e' :
  paired e -> e_log e' = e_log e -> e_aborted e' = e_aborted e -> e_replies e' = e_replies e ->
  e_writer e' = e_writer e -> e_queue e' = e_queue e ->
  reader_current (e_reader e') ++ e_flight e' = reader_current (e_reader e) ++ e_flight e ->
  (forall served, reading_ok served e -> reading_ok served e') -> paired e'.
Proof.
  intros [P1 P2 P3 (served & sent & (rest & Ho1 & Ho2 & Ho3) & P4)] H1 H2 H3 H4 H5 H6 H7.
  constructor; rewrite ?H1, ?H2, ?H3; [done|done| |].
  - apply (replies_mono e); [exists []; by rewrite H1, app_nil_r|by rewrite H4|done].
  - exists served, sent. split; [|by apply H7]. exists rest. unfold waiting. by rewrite H1, H4, H5, H6.
Qed.

(** The request at the reader is the first not served. *)
Lemma current_request e f served sent :
  in_order served sent e -> reader_current (e_reader e) = [f] ->
  exists q sent', sent = q :: sent' /\ f = inflight_of q /\ e_flight e = inflight_of <$> sent'
    /\ e_log e !! length served = Some q.
Proof.
  intros (rest & Ho1 & Ho2 & _) Hc. rewrite Hc in Ho2. destruct sent as [|q sent]; [done|].
  rewrite fmap_cons in Ho2. injection Ho2 as -> Hf. exists q, sent. do 3 (split; [done|]).
  rewrite Ho1. cbn [app]. by apply list_lookup_middle.
Qed.

Lemma complete_fields e e' f r :
  complete f r e = Some e' ->
  e_reader e' = Release f /\ e_receiver e' = e_receiver e /\ e_flight e' = e_flight e
  /\ e_writer e' = e_writer e /\ e_queue e' = e_queue e /\ e_log e' = e_log e
  /\ e_aborted e' = e_aborted e
  /\ exists reply, e_replies e' = e_replies e ++ [(f_id f, reply)]
     /\ (reply = Completed (f_request f) r \/ reply = Failed SharedEngineError.CapabilitiesUnavailable).
Proof.
  unfold complete, store_capability_transition.
  destruct (_ && (response_status r =? 101)).
  - destruct (response_content r) as [c|]; [|done]. destruct (capability_list_parse c);
      [destruct (RequestKind.eqb (f_kind f) RequestKind.Quit && _)|]; intros [= <-];
      repeat (split; [done|]); eauto.
  - destruct (f_mark f); [|destruct (RequestKind.eqb (f_kind f) RequestKind.Quit && _)];
      intros [= <-]; repeat (split; [done|]); eauto.
Qed.

Lemma paired_complete e e' f r :
  e_reader e = Finish f r -> complete f r e = Some e' -> paired e -> paired e'.
Proof.
  intros Hr H [P1 P2 P3 (served & sent & Hord & P4)].
  destruct (complete_fields e e' f r H) as (F1 & F2 & F3 & F4 & F5 & F6 & F7 & reply & F8 & Hreply).
  destruct (current_request e f served sent Hord) as (q & sent' & -> & -> & Hf & Hq); [by rewrite Hr|].
  unfold reading_ok in P4. rewrite Hr in P4. destruct P4 as (frame & Hs & Hread).
  constructor; rewrite ?F6, ?F7, ?F8; [done|done| |].
  - apply Forall_app. split.
    + apply (replies_mono e); [exists []; by rewrite F6, app_nil_r|by rewrite F4|done].
    + repeat constructor. cbn [inflight_of f_id f_request] in *. rewrite (P1 _ _ Hq).
      destruct Hreply as [->| ->]; [|by right]. exists q, frame. cbn [fst]. by rewrite F6.
  - destruct Hord as (rest & Ho1 & Ho2 & Ho3). exists (served ++ [q]), sent'. split.
    + exists rest. rewrite F1, F3, F4, F6. split; [by rewrite Ho1, <- app_assoc|]. split; [by rewrite Hf|].
      unfold waiting in *. by rewrite F4, F5.
    + unfold reading_ok. rewrite F1, F2, length_app. cbn [length]. by rewrite Nat.add_1_r.
Qed.

(** The reader goes on with its request, at a known place of the script. *)
Lemma paired_reader_reads e e' served sent :
  paired e -> in_order served sent e -> reading_ok (length served) e' ->
  e_log e' = e_log e -> e_aborted e' = e_aborted e -> e_replies e' = e_replies e ->
  e_writer e' = e_writer e -> e_queue e' = e_queue e ->
  reader_current (e_reader e') ++ e_flight e' = reader_current (e_reader e) ++ e_flight e -> paired e'.
Proof.
  intros [P1 P2 P3 _] (rest & Ho1 & Ho2 & Ho3) Hread H1 H2 H3 H4 H5 H6.
  constructor; rewrite ?H1, ?H2, ?H3; [done|done| |].
  - apply (replies_mono e); [exists []; by rewrite H1, app_nil_r|by rewrite H4|done].
  - exists served, sent. split; [|done]. exists rest. unfold waiting. by rewrite H1, H4, H5, H6.
Qed.

Lemma paired_first e e' q served sent :
  paired e -> in_order served sent e -> e_log e !! length served = Some q ->
  reading_ok (length served) e -> scripted (e_log e) ->
  e_reader e = Reading (inflight_of q) -> reader_step find_end e = Some e' -> paired e'.
Proof.
  intros He Hord Hq Hread Hsc Er. unfold reader_step, reading_ok in *. rewrite Er in *.
  destruct (Hsc _ _ Hq) as (frame & r & Hs & Hx). rewrite (script_step _ _ _ Hs) in Hread.
  destruct Hx as [[Hw Hno]|(Hc & go & r1 & final & -> & Hw1 & Hp & Hw2)].
  - destruct (receive_frame _ _ _ _ _ Hread Hw) as (self' & Hrun & Hleft).
    change (f_kind (inflight_of q)) with (queued_kind q). rewrite Hrun.
    cbn [inflight_of f_proceed]. intros H.
    assert (exists p, e' = set_reader (Finish (inflight_of q) r) (set_proceed p (set_receiver self' e)))
      as [p ->].
    { destruct (q_continuation q); [rewrite Hno in H by done; cbn in H|]; injection H as <-; eauto. }
    apply (paired_reader_reads e _ served sent); try done; [|by rewrite Er].
    unfold reading_ok. engine_simpl. eauto.
  - rewrite <- app_assoc in Hread.
    destruct (receive_frame _ _ _ _ _ Hread Hw1) as (self' & Hrun & Hleft).
    change (f_kind (inflight_of q)) with (queued_kind q). rewrite Hrun.
    cbn [inflight_of f_proceed]. destruct (q_continuation q); [|done].
    change (f_kind _) with (queued_kind q). rewrite Hp. intros [= <-].
    apply (paired_reader_reads e _ served sent); try done; [|by rewrite Er].
    unfold reading_ok. engine_simpl. exists (go ++ final), r, final. done.
Qed.

Lemma paired_final e e' q served sent :
  paired e -> in_order served sent e -> reading_ok (length served) e ->
  e_reader e = ReadingFinal (inflight_of q) -> reader_step find_end e = Some e' -> paired e'.
Proof.
  intros He Hord Hread Er. unfold reader_step, reading_ok in *. rewrite Er in *.
  destruct Hread as (frame & r & final & Hs & Hw & Hread).
  destruct (receive_frame _ _ _ _ _ Hread Hw) as (self' & -> & Hleft). intros [= <-].
  apply (paired_reader_reads e _ served sent); try done; [|by rewrite Er].
  unfold reading_ok. engine_simpl. eauto.
Qed.

Lemma paired_reader e e' :
  scripted (e_log e) -> reader_step find_end e = Some e' -> paired e -> paired e'.
Proof.
  intros Hsc H He. destruct (pr_order _ He) as (served & sent & Hord & Hread).
  pose proof H as Hstep. revert H. unfold reader_step.
  destruct (e_reader e) as [|f|f|f r|f| |f error|] eqn:Er; intros H; try discriminate H.
  - destruct (e_flight e) as [|f flight] eqn:Ef.
    + destruct (e_writer e) eqn:Ew; try discriminate H. injection H as <-.
      apply (paired_reader_moves e); try done. by rewrite Er.
    + injection H as <-. apply (paired_reader_moves e); try done; [by rewrite Er, Ef|].
      intros n. unfold reading_ok. by rewrite Er.
  - destruct (current_request e f served sent Hord) as (q & sent' & -> & -> & Hf & Hq); [by rewrite Er|].
    by eapply (paired_first e e' q served).
  - destruct (current_request e f served sent Hord) as (q & sent' & -> & -> & Hf & Hq); [by rewrite Er|].
    by eapply (paired_final e e' q served).
  - by apply (paired_complete e e' f r).
  - injection H as <-. apply (paired_reader_moves e); try done; [by rewrite Er|].
    intros n. unfold reading_ok. by rewrite Er.
  - injection H as <-. apply (paired_reader_moves e); try done; [by rewrite Er|].
    intros n. unfold reading_ok. by rewrite Er.
  - unfold reading_ok in Hread. by rewrite Er in Hread.
Qed.

Lemma log_prefix label e e' :
  step find_end depth label e = Some e' -> exists more, e_log e' = e_log e ++ more.
Proof.
  intros Hs. destruct (task_label label) eqn:El.
  - destruct (task_log find_end depth label e e' El Hs) as [-> _]. exists []. by rewrite app_nil_r.
  - destruct label; try done; cbn [step] in Hs; revert Hs;
      unfold caller_lock, caller_check, caller_send, caller_cancel;
      destruct (e_barrier e) as [|c|c|id]; intros H; try discriminate H;
      try (injection H as <-; exists []; by rewrite app_nil_r).
    + destruct (e_closed e), (e_capabilities e); try destruct (_ && _) in H; injection H as <-;
        exists []; by rewrite app_nil_r.
    + destruct (writer_is_done _); [injection H as <-; exists []; by rewrite app_nil_r|].
      destruct (_ <? depth)%nat; [|done]. injection H as <-. eauto.
Qed.

Lemma paired_step label e e' :
  scripted (e_log e) -> step find_end depth label e = Some e' -> paired e -> paired e'.
Proof.
  intros Hsc Hs He. destruct (task_label label) eqn:El.
  - destruct label; try done; cbn [step] in Hs; [by eapply paired_writer| |by eapply paired_reader].
    unfold abort_step in Hs. by rewrite (pr_aborted _ He) in Hs.
  - eapply paired_caller, He. by eapply step_caller.
Qed.

Lemma reachable_paired sink chunks e :
  Forall (fun c => c <> []) chunks -> concat chunks = script_bytes 0 ->
  reachable find_end depth sink (reader_of chunks tail) e -> scripted (e_log e) -> paired e.
Proof.
  intros Hne Hin. induction 1 as [|e label e' _ IH Hs]; intros Hsc.
  - constructor; [done|done|done|]. exists [], []. split; [by exists []|]. split; [done|].
    exists chunks. done.
  - destruct (log_prefix label e e' Hs) as [more Hm]. rewrite Hm in Hsc.
    apply scripted_prefix in Hsc. eapply paired_step; eauto.
Qed.

(** C9: every caller gets the response to its own request. Let the server's stream
    be one exchange per queued request, in queue order (a response, or for an
    article the go-ahead and the final response). Whatever the interleaving of
    callers and tasks, the chunking of the stream and the batching of the
    writer, the reader never fails; every completed request has the response of
    its own exchange; and a request fails only when the writer failed, or when
    its CAPABILITIES response carried no usable list. *)
Theorem callers_get_their_responses sink chunks e k reply :
  Forall (fun c => c <> []) chunks -> concat chunks = script_bytes 0 ->
  reachable find_end depth sink (reader_of chunks tail) e -> scripted (e_log e) ->
  (forall f error, e_reader e <> Draining f error)
  /\ ((k, reply) ∈ e_replies e ->
      match reply with
      | Completed request r => exists q frame,
          e_log e !! k = Some q /\ request = q_request q /\ script !! k = Some (frame, r)
      | Failed error =>
          writer_stopped (e_writer e) = true \/ error = SharedEngineError.CapabilitiesUnavailable
      | Dropped => False
      end).
Proof.
  intros Hne Hin He Hsc. destruct (reachable_paired _ _ _ Hne Hin He Hsc) as [_ _ Hr (served & sent & _ & Hread)].
  split.
  - intros f error Hd. unfold reading_ok in Hread. by rewrite Hd in Hread.
  - intros Hk. apply list_elem_of_In in Hk. rewrite Forall_forall in Hr. exact (Hr _ Hk).
Qed.
End replies.
