(* ===== verification/ClientEngineSamples.v ===== *)
(** * A run of the connection engine

    One connection against a concrete server and a socket that writes in pieces:
    a capability probe, an overview request, an article posted after the
    server's go-ahead, and QUIT.  The theorems of [ClientEngineRuns] and
    [ClientEngineReplies] at its states. *)
From stdpp Require Import relations.
From S2P Require Import Prelude Utf8 Decimal Memchr Terminator Args Kinds Requests.
From S2P Require Import RequestLine RequestWire ResponseLine ResponseContent Capabilities.
From S2P Require Import ResponseBody Article ResponseFrame OwnedResponse ResponseReceiver.
From S2P Require Import ClientWire ClientEngine ClientEngineCorrect ClientEngineRuns.
From S2P Require Import ClientEngineReplies.

Local Open Scope Z_scope.

Definition finder : bytes -> option nat := find_streaming_terminator_end.

Definition line (s : bytes) : bytes := s ++ CRLF.

Definition capabilities_frame : bytes :=
  line (lit "101 list") ++ line (lit "VERSION 2") ++ line (lit "POST") ++ line (lit ".").
Definition over_frame : bytes := line (lit "224 overview") ++ line (lit ".").
Definition go_ahead_frame : bytes := line (lit "340 send it").
Definition posted_frame : bytes := line (lit "240 received").
Definition quit_frame : bytes := line (lit "205 bye").

(** The whole stream, delivered in two pieces that cut a frame. *)
Definition stream : bytes :=
  capabilities_frame ++ over_frame ++ go_ahead_frame ++ posted_frame ++ quit_frame.
Definition server_chunks : list bytes := [take 25 stream; drop 25 stream].

Definition socket : ScriptedWriter := {| sw_script := [Accept 2; Accept 5]; sw_sent := [] |}.

Definition fresh : Engine := connected socket (reader_of server_chunks []).

Definition queue (call : Call) : list Label := [CallerLock call; CallerCheck; CallerSend].
Definition turns (n : nat) : list Label := concat (replicate n [WriterStep; ReaderStep]).

Definition overview : Call := CallRequest (Request.Over (Some (lit "1-5"))).
Definition farewell : Call := CallRequest Request.Quit.

(** The probe answered, the overview request written. *)
Definition probed : Engine := run finder 4 (queue CallProbe ++ turns 10) fresh.
Definition asked : Engine := run finder 4 (queue overview ++ turns 2) probed.
Definition posting : Engine :=
  run finder 4 (turns 10 ++ queue (CallPost (lit ".hello" ++ CRLF)) ++ replicate 5 WriterStep) asked.
Definition leaving : Engine := run finder 4 (turns 12 ++ queue farewell) posting.
Definition left_engine : Engine := run finder 4 (turns 12) leaving.

Lemma probed_reachable : reachable finder 4 socket (reader_of server_chunks []) probed.
Proof. apply run_reachable, reachable_connected. Qed.
Lemma asked_reachable : reachable finder 4 socket (reader_of server_chunks []) asked.
Proof. apply run_reachable, probed_reachable. Qed.
Lemma posting_reachable : reachable finder 4 socket (reader_of server_chunks []) posting.
Proof. apply run_reachable, asked_reachable. Qed.
Lemma leaving_reachable : reachable finder 4 socket (reader_of server_chunks []) leaving.
Proof. apply run_reachable, posting_reachable. Qed.
Lemma left_reachable : reachable finder 4 socket (reader_of server_chunks []) left_engine.
Proof. apply run_reachable, leaving_reachable. Qed.

Lemma chunks_not_empty : Forall (fun c => c <> []) server_chunks.
Proof. repeat constructor; vm_compute; discriminate. Qed.

Definition status_of (reply : nat * Reply) : nat * Z :=
  (fst reply, match snd reply with Completed _ r => response_status r | _ => 0 end).

(** Every request of the run has its own response, and the bytes on the wire are
    the commands, and the article stuffed after its go-ahead. *)
Example whole_run :
  status_of <$> e_replies left_engine = [(0%nat, 101); (1%nat, 224); (2%nat, 240); (3%nat, 205)]
  /\ sw_sent (e_sink left_engine)
     = line (lit "CAPABILITIES") ++ line (lit "OVER 1-5") ++ line (lit "POST")
       ++ line (lit "..hello") ++ line (lit ".") ++ line (lit "QUIT")
  /\ e_closed left_engine = true.
Proof. vm_compute. repeat split. Qed.

(** The labels of a schedule that are enabled when their turn comes. *)
Fixpoint enabled (labels : list Label) (e : Engine (W := ScriptedWriter)) : list Label :=
  match labels with
  | [] => []
  | label :: labels =>
      match step finder 4 label e with
      | Some e' => label :: enabled labels e'
      | None => enabled labels e
      end
  end.

Lemma enabled_steps labels e : steps finder 4 (enabled labels e) e (run finder 4 labels e).
Proof.
  revert e. induction labels as [|label labels IH]; intros e; [constructor|]. cbn [enabled run].
  destruct (step finder 4 label e) as [e'|] eqn:E; [|apply IH]. eapply steps_cons; [exact E|apply IH].
Qed.

Lemma engine_refines_ledger_witness :
  exists e', step finder 4 WriterStep leaving = Some e'
    /\ rtc ledger_step (ledger_of leaving) (ledger_of e')
    /\ ledger_ok (ledger_of leaving) /\ ledger_ok (ledger_of e').
Proof.
  destruct (step finder 4 WriterStep leaving) as [e'|] eqn:E; [|exfalso; revert E; vm_compute; discriminate].
  exists e'. split; [reflexivity|].
  exact (engine_refines_ledger finder 4 socket _ leaving WriterStep e' leaving_reachable E).
Defined.

Lemma every_request_answered_witness :
  length (e_replies leaving) = 3%nat /\ unanswered leaving <> []
  /\ unanswered left_engine = [] /\ fst <$> e_replies left_engine ≡ₚ [0; 1; 2; 3]%nat.
Proof.
  split; [vm_compute; reflexivity|]. split; [vm_compute; discriminate|].
  assert (Forall (fun l => task_label l = true) (enabled (turns 12) leaving)) as Hl
    by (vm_compute; repeat constructor).
  destruct (every_request_answered finder 4 socket (reader_of server_chunks []) leaving
    (enabled (turns 12) leaving) left_engine ltac:(lia) leaving_reachable Hl
    (enabled_steps (turns 12) leaving)) as [_ H].
  assert (quiet finder 4 left_engine) as Hq by (vm_compute; repeat split).
  destruct (H Hq) as (Hu & Hp & _). split; [exact Hu|].
  assert (e_log left_engine = e_log left_engine /\ length (e_log left_engine) = 4%nat) as [_ Hlen]
    by (split; [reflexivity | vm_compute; reflexivity]).
  rewrite Hlen in Hp. exact Hp.
Defined.

(** The article being posted, alone. *)
Definition post_ticket : Ticket := {| t_id := 2; t_kind := RequestKind.Post; t_guard := true |}.

Lemma exclusive_request_alone_witness :
  e_writer posting = AwaitProceed (lit ".hello" ++ CRLF) [] None
  /\ on_the_wire posting = [post_ticket] /\ unanswered posting = [post_ticket].
Proof.
  split; [vm_compute; reflexivity|].
  apply (exclusive_request_alone finder 4 socket (reader_of server_chunks []) posting post_ticket
           posting_reachable); [|reflexivity].
  assert (on_the_wire posting = [post_ticket]) as -> by (vm_compute; reflexivity).
  apply list_elem_of_singleton. reflexivity.
Defined.

Lemma capabilities_kept_witness :
  e_capabilities fresh = None /\ e_capabilities asked <> None.
Proof.
  split; [reflexivity|].
  apply (capabilities_kept finder 4 socket (reader_of server_chunks []) asked
           {| t_id := 1; t_kind := RequestKind.Over; t_guard := false |} asked_reachable);
    [|reflexivity].
  assert (unanswered asked = [{| t_id := 1; t_kind := RequestKind.Over; t_guard := false |}]) as ->
    by (vm_compute; reflexivity).
  apply list_elem_of_singleton. reflexivity.
Defined.

Lemma quit_closes_witness :
  exists e', step finder 4 (CallerLock overview) left_engine = Some e'
    /\ unanswered left_engine = [] /\ e_log e' = e_log left_engine /\ unanswered e' = [].
Proof.
  destruct (step finder 4 (CallerLock overview) left_engine) as [e'|] eqn:E;
    [|exfalso; revert E; vm_compute; discriminate].
  exists e'. split; [reflexivity|].
  assert (e_closed left_engine = true) as Hc by (vm_compute; reflexivity).
  exact (quit_closes finder 4 socket _ left_engine _ e' left_reachable Hc E).
Defined.

Definition response_to (kind : RequestKind) (frame : bytes) : OwnedResponse :=
  match outcome (IoError := IoError) kind frame ClientError.UnexpectedEof with
  | Ok r => r
  | Err _ => Build_OwnedResponse
               (OwnedGeneric RequestKind.Unknown 0 [] (Build_ResponseContentRange 0 0))
  end.

Definition server_script : list (bytes * OwnedResponse) :=
  [(capabilities_frame, response_to RequestKind.Capabilities capabilities_frame);
   (over_frame, response_to RequestKind.Over over_frame);
   (go_ahead_frame ++ posted_frame, response_to RequestKind.Post posted_frame);
   (quit_frame, response_to RequestKind.Quit quit_frame)].

Lemma frame_whole kind frame :
  match response_boundary kind frame with
  | BoundaryAt _ _ _ f => (f =? length frame)%nat | _ => false end = true ->
  is_ok (outcome (IoError := IoError) kind frame ClientError.UnexpectedEof) = true ->
  whole_response (IoError := IoError) kind frame (response_to kind frame).
Proof.
  intros Hb Ho. split.
  - destruct (response_boundary kind frame) as [| |i e c f]; [done..|].
    apply Nat.eqb_eq in Hb as ->. by exists i, e, c.
  - unfold response_to. by destruct (outcome kind frame ClientError.UnexpectedEof).
Qed.

Lemma run_scripted : scripted server_script (e_log left_engine).
Proof.
  assert (queued_kind <$> e_log left_engine
          = [RequestKind.Capabilities; RequestKind.Over; RequestKind.Post; RequestKind.Quit]
          /\ q_continuation <$> e_log left_engine = [None; None; Some (lit ".hello" ++ CRLF); None])
    as [Hk Hc] by (vm_compute; split; reflexivity).
  revert Hk Hc. generalize (e_log left_engine) as log. intros log Hk Hc k q Hq.
  assert ((queued_kind <$> log) !! k = Some (queued_kind q)
          /\ (q_continuation <$> log) !! k = Some (q_continuation q)) as [H1 H2]
    by (rewrite !list_lookup_fmap, Hq; done).
  rewrite Hk in H1. rewrite Hc in H2. unfold exchange.
  destruct k as [|[|[|[|k]]]]; [..|discriminate H1]; injection H1 as <-; injection H2 as <-;
    eexists _, _; (split; [reflexivity|]).
  - left. split; [apply frame_whole; vm_compute; reflexivity|done].
  - left. split; [apply frame_whole; vm_compute; reflexivity|done].
  - right. split; [done|]. exists go_ahead_frame, (response_to RequestKind.Post go_ahead_frame), posted_frame.
    repeat split; try (apply frame_whole; vm_compute; reflexivity); vm_compute; reflexivity.
  - left. split; [apply frame_whole; vm_compute; reflexivity|done].
Qed.

Lemma callers_get_their_responses_witness :
  exists q frame,
    e_log left_engine !! 2%nat = Some q
    /\ server_script !! 2%nat = Some (frame, response_to RequestKind.Post posted_frame)
    /\ forall f error, e_reader left_engine <> Draining f error.
Proof.
  destruct (callers_get_their_responses finder 4 server_script [] I socket server_chunks left_engine
    2%nat (Completed Request.Post (response_to RequestKind.Post posted_frame)) chunks_not_empty
    eq_refl left_reachable run_scripted) as [Hd H].
  assert ((2%nat, Completed Request.Post (response_to RequestKind.Post posted_frame))
          ∈ e_replies left_engine) as Hin.
  { apply (list_elem_of_lookup_2 _ 2). vm_compute. reflexivity. }
  destruct (H Hin) as (q & frame & H1 & _ & H3). exists q, frame. auto.
Defined.
