(* ===== verification/Text.v ===== *)
(** * Strings of the standard library

    The methods of [str] the server uses on text of the wire: [trim] and
    [split_whitespace] (Unicode white space), and [parse] for the integer types
    (an optional sign, then digits, checked against the width). *)
From S2P Require Import Prelude Utf8 Decimal.

Local Open Scope Z_scope.

(** ** White space *)

(** [char::is_whitespace]: the property White_Space of Unicode. *)
Definition is_whitespace (ch : Z) : bool :=
  in_range 9 13 ch || (ch =? 32) || (ch =? 133) || (ch =? 160) || (ch =? 5760)
  || in_range 8192 8202 ch || (ch =? 8232) || (ch =? 8233) || (ch =? 8239)
  || (ch =? 8287) || (ch =? 12288).

(** The white space characters as they are encoded. *)
Definition white_space : list bytes :=
  [[9]; [10]; [11]; [12]; [13]; [32]; [194; 133]; [194; 160]; [225; 154; 128]]
  ++ ((fun b => [226; 128; b]) <$> seqZ 128 11)
  ++ [[226; 128; 168]; [226; 128; 169]; [226; 128; 175]; [226; 129; 159]; [227; 128; 128]].

(** One encoded character of the list, taken off the front. *)
Fixpoint strip_one (encodings : list bytes) (l : bytes) : option bytes :=
  match encodings with
  | [] => None
  | e :: es => match strip_prefix l e with Some rest => Some rest | None => strip_one es l end
  end.

(** Every round takes a byte, so the length is enough. *)
Fixpoint strip_all (fuel : nat) (encodings : list bytes) (l : bytes) : bytes :=
  match fuel with
  | O => l
  | S fuel' =>
      match strip_one encodings l with
      | Some rest => strip_all fuel' encodings rest
      | None => l
      end
  end.

Definition trim_start (l : bytes) : bytes := strip_all (length l) white_space l.

(** From the end the characters are read backwards. *)
Definition trim_end (l : bytes) : bytes :=
  rev (strip_all (length l) (List.map (@rev Z) white_space) (rev l)).

(** [value.trim()], on a [&str]. *)
Definition trim (l : bytes) : bytes := trim_end (trim_start l).

(** The same on characters, and [value.split_whitespace()]. *)
Fixpoint trim_chars_start (cs : list Z) : list Z :=
  match cs with
  | ch :: rest => if is_whitespace ch then trim_chars_start rest else cs
  | [] => []
  end.

Definition trim_chars (cs : list Z) : list Z := rev (trim_chars_start (rev (trim_chars_start cs))).

Definition split_whitespace (cs : list Z) : list (list Z) :=
  List.filter (fun word => negb (length word =? 0)%nat) (split_on is_whitespace cs).

(** ** Numbers *)

Definition parse_digits (digits : bytes) : option Z :=
  if (length digits =? 0)%nat || negb (forallb is_ascii_digit digits) then None
  else Some (decimal_value digits).

(** [value.parse::<uN>()]: an optional plus sign. *)
Definition parse_unsigned (max : Z) (value : bytes) : option Z :=
  let digits := match value with 43 :: digits => digits | _ => value end in
  parse_digits digits ≫= fun n => if n <=? max then Some n else None.

Definition parse_u64 : bytes -> option Z := parse_unsigned u64_max.
Definition parse_u32 : bytes -> option Z := parse_unsigned 4294967295.

(** [value.parse::<i32>()]: an optional sign of either kind. *)
Definition parse_i32 (value : bytes) : option Z :=
  match value with
  | 45 :: digits =>
      parse_digits digits ≫= fun n => if n <=? 2147483648 then Some (- n) else None
  | _ => parse_unsigned 2147483647 value
  end.

(** ** Lemmas *)

(** A printed number is read back. *)
Lemma parse_unsigned_digits max digits :
  digits <> [] -> forallb is_ascii_digit digits = true -> decimal_value digits <= max ->
  parse_unsigned max digits = Some (decimal_value digits).
Proof.
  intros Hne Hd Hm. unfold parse_unsigned.
  assert (match digits with 43 :: d => d | _ => digits end = digits) as ->.
  { destruct digits as [|b d]; [done|]. cbn [forallb] in Hd.
    apply andb_true_iff in Hd as [Hb%is_ascii_digit_spec _].
    assert (b = 48 \/ b = 49 \/ b = 50 \/ b = 51 \/ b = 52 \/ b = 53 \/ b = 54 \/ b = 55
      \/ b = 56 \/ b = 57) as Hc by lia. by destruct_or! Hc; subst b. }
  unfold parse_digits. rewrite Hd. destruct digits; [done|]. cbn [length Nat.eqb negb orb mbind option_bind].
  by rewrite (proj2 (Z.leb_le _ _) Hm).
Qed.

Lemma parse_u64_decimal n : 0 <= n <= u64_max -> parse_u64 (print_decimal n) = Some n.
Proof.
  intros Hn. destruct (print_decimal_spec n Hn) as (Hd & Hv & Hl).
  unfold parse_u64. rewrite parse_unsigned_digits; [by rewrite Hv| |done|rewrite Hv; lia].
  intros Hnil. rewrite Hnil in Hl. cbn in Hl. lia.
Qed.

(** Text of visible ASCII has nothing to trim. *)
Definition visible (b : Z) : Prop := 33 <= b <= 126.

Definition starts_invisible (e : bytes) : Prop :=
  match e with [] => False | x :: _ => ~ visible x end.

Lemma strip_one_visible es b l :
  Forall starts_invisible es -> visible b -> strip_one es (b :: l) = None.
Proof.
  intros Hall Hb. induction Hall as [|e es He _ IH]; [done|]. cbn [strip_one].
  destruct e as [|x e]; [done|]. unfold strip_prefix.
  rewrite starts_with_differ; [exact IH|]. intros ->. done.
Qed.

Lemma strip_all_visible es fuel l :
  Forall starts_invisible es -> Forall visible l -> strip_all fuel es l = l.
Proof.
  intros Hes Hl. destruct fuel; [done|]. cbn [strip_all].
  destruct Hl as [|b l Hb _]; [|by rewrite strip_one_visible].
  assert (strip_one es [] = None) as ->; [|done].
  induction Hes as [|e es He _ IH]; [done|]. cbn [strip_one]. by destruct e.
Qed.

Lemma white_space_invisible :
  Forall starts_invisible white_space /\ Forall starts_invisible (List.map (@rev Z) white_space).
Proof. unfold visible. split; vm_compute; repeat constructor; intros [Ha Hb]; by (destruct Ha || destruct Hb). Qed.

Lemma trim_visible l : Forall visible l -> trim l = l.
Proof.
  intros Hl. destruct white_space_invisible as [Hw Hr]. unfold trim, trim_end, trim_start.
  rewrite (strip_all_visible white_space) by done. rewrite strip_all_visible by first [exact Hr | by apply Forall_rev].
  apply rev_involutive.
Qed.
