(* ===== verification/ServerDates.v ===== *)
(** * Dates of the server ([src/src/lib.rs])

    The proleptic Gregorian calendar by arithmetic ([civil_from_unix_days],
    [days_from_civil]), the DATE response, and the dates that NEWGROUPS, NEWNEWS
    and stored articles carry.  The calendar is specified by its leap years and
    month lengths, one day at a time ([next_day]). *)
From S2P Require Import Prelude Utf8 Decimal Args RequestLine.

Local Open Scope Z_scope.
Local Open Scope rust_scope.

(** ** Casts and checked arithmetic of the signed widths *)

Definition as_i32 (z : Z) : Z := (z + 2147483648) mod 4294967296 - 2147483648.
Definition as_u32 (z : Z) : Z := z mod 4294967296.
Definition as_u16 (z : Z) : Z := z mod 65536.

Definition i64_in_range (z : Z) : bool := in_range (-9223372036854775808) 9223372036854775807 z.
Definition i64_checked_mul (a b : Z) : option Z :=
  if i64_in_range (a * b) then Some (a * b) else None.
Definition i64_checked_add (a b : Z) : option Z :=
  if i64_in_range (a + b) then Some (a + b) else None.

(** ** The calendar *)

(** Signed division truncates. *)
Definition civil_from_unix_days (days_since_epoch : Z) : Z * Z * Z :=
  let z := days_since_epoch + 719468 in
  let era := Z.quot (if 0 <=? z then z else z - 146096) 146097 in
  let doe := z - era * 146097 in
  let yoe := Z.quot (doe - Z.quot doe 1460 + Z.quot doe 36524 - Z.quot doe 146096) 365 in
  let y := yoe + era * 400 in
  let doy := doe - (365 * yoe + Z.quot yoe 4 - Z.quot yoe 100) in
  let mp := Z.quot (5 * doy + 2) 153 in
  let day := doy - Z.quot (153 * mp + 2) 5 + 1 in
  let month := mp + (if mp <? 10 then 3 else -9) in
  let year := y + (if month <=? 2 then 1 else 0) in
  (as_i32 year, as_u32 month, as_u32 day).

Definition days_from_civil (year month day : Z) : option Z :=
  if negb (in_range 1 12 month) || negb (in_range 1 31 (as_u32 day)) then None
  else
    let m := month in
    let d := day in
    let y := year - (if m <=? 2 then 1 else 0) in
    let era := Z.quot (if 0 <=? y then y else y - 399) 400 in
    let yoe := y - era * 400 in
    let mp := m + (if 2 <? m then -3 else 9) in
    let doy := Z.quot (153 * mp + 2) 5 + d - 1 in
    let doe := yoe * 365 + Z.quot yoe 4 - Z.quot yoe 100 + doy in
    Some (era * 146097 + doe - 719468).

(** ** The DATE response *)

Definition write_four_digits (value : Z) : bytes :=
  [48 + (value / 1000) mod 10; 48 + (value / 100) mod 10; 48 + (value / 10) mod 10; 48 + value mod 10].

Definition write_two_digits (value : Z) : bytes := [48 + (value / 10) mod 10; 48 + value mod 10].

(** [&mut response[at..]] filled by one of the writers above. *)
Definition overwrite (at_ : nat) (digits response : bytes) : bytes :=
  take at_ response ++ digits ++ drop (at_ + length digits) response.

Definition CRLF_bytes : bytes := [CR; LF].

Definition date_response_for_unix_seconds (seconds : Z) : bytes :=
  let days := seconds / 86400 in
  let seconds_of_day := seconds mod 86400 in
  let '(year, month, day) := civil_from_unix_days days in
  let hour := seconds_of_day / 3600 in
  let minute := (seconds_of_day mod 3600) / 60 in
  let second := seconds_of_day mod 60 in
  let response := lit "111 00000000000000" ++ CRLF_bytes in
  let response := overwrite 4 (write_four_digits (as_u32 year)) response in
  let response := overwrite 8 (write_two_digits month) response in
  let response := overwrite 10 (write_two_digits day) response in
  let response := overwrite 12 (write_two_digits hour) response in
  let response := overwrite 14 (write_two_digits minute) response in
  overwrite 16 (write_two_digits second) response.

(** The clock is an argument: seconds since the epoch. *)
Definition current_utc_year (now : Z) : Z :=
  let days := now / 86400 in
  let '(year, _, _) := civil_from_unix_days days in
  as_u16 year.

(** ** Dates of NEWGROUPS and NEWNEWS *)

(** The callers pass at most four and six digits, which fit the accumulator. *)
Definition ascii_decimal_step (acc : option Z) (byte : Z) : option Z :=
  acc ≫= fun acc => (fun d => acc * 10 + d) <$> u8_checked_sub byte 48.

Definition parse_ascii_decimal (value : bytes) : option Z :=
  fold_left ascii_decimal_step value (Some 0).

Definition parse_ascii_decimal_u32 (value : bytes) : option Z :=
  fold_left ascii_decimal_step value (Some 0).

Definition u16_saturating_sub (a b : Z) : Z := Z.max 0 (a - b).

Definition normalized_nntp_date_key (date : bytes) (current_year : Z) : option Z :=
  if negb ((length date =? 6) || (length date =? 8))%nat || negb (forallb is_ascii_digit date)
  then None
  else
    (if (length date =? 8)%nat then
       parse_ascii_decimal (take 4 date) ≫= fun year =>
       parse_ascii_decimal (slice date 4 6) ≫= fun month =>
       parse_ascii_decimal (drop 6 date) ≫= fun day =>
       Some (year, month, day)
     else
       parse_ascii_decimal (take 2 date) ≫= fun short_year =>
       let current_century := current_year / 100 * 100 in
       let current_short_year := current_year mod 100 in
       let year := if short_year <=? current_short_year then current_century + short_year
                   else u16_saturating_sub current_century 100 + short_year in
       parse_ascii_decimal (slice date 2 4) ≫= fun month =>
       parse_ascii_decimal (drop 4 date) ≫= fun day =>
       Some (year, month, day))
    ≫= fun '(year, month, day) => Some (year * 10000 + month * 100 + day).

Definition normalized_nntp_datetime_key (date time : bytes) (current_year : Z) : option Z :=
  normalized_nntp_date_key date current_year ≫= fun date =>
  if negb (length time =? 6)%nat || negb (forallb is_ascii_digit time) then None
  else parse_ascii_decimal_u32 time ≫= fun time => Some (date * 1000000 + time).

Definition nntp_datetime_timestamp (date time : bytes) (current_year : Z) : option Z :=
  normalized_nntp_date_key date current_year ≫= fun date_key =>
  if negb (length time =? 6)%nat || negb (forallb is_ascii_digit time) then None
  else
    let year := date_key / 10000 in
    let month := (date_key / 100) mod 100 in
    let day := date_key mod 100 in
    parse_ascii_decimal_u32 (take 2 time) ≫= fun hour =>
    parse_ascii_decimal_u32 (slice time 2 4) ≫= fun minute =>
    parse_ascii_decimal_u32 (slice time 4 6) ≫= fun second =>
    days_from_civil year month day ≫= fun days =>
    i64_checked_mul days 86400 ≫= fun secs =>
    i64_checked_add secs (hour * 3600 + minute * 60 + second) ≫= fun seconds =>
    if 0 <=? seconds then Some seconds else None.

(** The arguments of the two commands. *)
Definition first_command_arg (args : bytes) : option bytes :=
  let args := skip_command_ws args in
  match args with
  | [] => None
  | _ => Some (take (default (length args) (position is_command_ws args)) args)
  end.

Definition nth_command_arg (args : bytes) (index : nat) : option bytes :=
  command_tokens args !! index.

Definition command_arg_count (args : bytes) : nat := length (command_tokens args).

Definition newgroups_datetime_key (args : bytes) (now : Z) : option Z :=
  first_command_arg args ≫= fun date =>
  nth_command_arg args 1 ≫= fun time =>
  normalized_nntp_datetime_key date time (current_utc_year now).

Definition newnews_datetime_key (args : bytes) (now : Z) : option Z :=
  nth_command_arg args 1 ≫= fun date =>
  nth_command_arg args 2 ≫= fun time =>
  normalized_nntp_datetime_key date time (current_utc_year now).

Definition newgroups_datetime_timestamp (args : bytes) (now : Z) : option Z :=
  first_command_arg args ≫= fun date =>
  nth_command_arg args 1 ≫= fun time =>
  nntp_datetime_timestamp date time (current_utc_year now).

Definition newnews_datetime_timestamp (args : bytes) (now : Z) : option Z :=
  nth_command_arg args 1 ≫= fun date =>
  nth_command_arg args 2 ≫= fun time =>
  nntp_datetime_timestamp date time (current_utc_year now).

(** The reference: leap years, month lengths, and the day after a date. *)
Definition is_leap_year (y : Z) : bool :=
  (y mod 4 =? 0) && (negb (y mod 100 =? 0) || (y mod 400 =? 0)).

Definition days_in_month (y m : Z) : Z :=
  if m =? 2 then (if is_leap_year y then 29 else 28)
  else if (m =? 4) || (m =? 6) || (m =? 9) || (m =? 11) then 30 else 31.

Definition valid_date (date : Z * Z * Z) : Prop :=
  let '(y, m, d) := date in 1 <= m <= 12 /\ 1 <= d <= days_in_month y m.

Definition next_day (date : Z * Z * Z) : Z * Z * Z :=
  let '(y, m, d) := date in
  if d <? days_in_month y m then (y, m, d + 1)
  else if m <? 12 then (y, m + 1, 1)
  else (y + 1, 1, 1).

(** Days before the first of March of the year of an era, and of the month of
    such a year. *)
Definition year_start (yoe : Z) : Z := 365 * yoe + yoe / 4 - yoe / 100.
Definition month_start (mp : Z) : Z := (153 * mp + 2) / 5.

Lemma quot_div a b : 0 <= a -> 0 < b -> Z.quot a b = a / b.
Proof. intros. by apply Z.quot_div_nonneg. Qed.

(** The year of an era from the day of an era. *)
Lemma yoe_spec doe :
  0 <= doe < 146097 ->
  let yoe := (doe - doe / 1460 + doe / 36524 - doe / 146096) / 365 in
  0 <= yoe < 400 /\ year_start yoe <= doe
  /\ doe < year_start (yoe + 1) + (if yoe + 1 =? 400 then 1 else 0).
Proof.
  intros H yoe. unfold year_start, yoe.
  destruct (Z.eqb_spec ((doe - doe / 1460 + doe / 36524 - doe / 146096) / 365 + 1) 400);
  Z.to_euclidean_division_equations; lia.
Qed.

(** The bound up to which the year fits the [i32] it is cast to. *)
Definition MAX_CIVIL_DAY : Z := 784000000000.

(** A date as the arithmetic sees it: the era of four hundred years, the year of
    the era and the month from March, the day from zero. *)
Definition civil_of (era yoe mp d : Z) : Z * Z * Z :=
  (yoe + era * 400 + (if mp <? 10 then 0 else 1), mp + (if mp <? 10 then 3 else -9), d + 1).

Definition day_number (era yoe mp d : Z) : Z :=
  era * 146097 + year_start yoe + month_start mp + d - 719468.

(** The year from March of an era has a leap day at its end. *)
Definition last_day (yoe : Z) : Z :=
  year_start (yoe + 1) - year_start yoe + (if yoe =? 399 then 1 else 0).

Record civil_parts (era yoe mp d : Z) : Prop := {
  cp_era : 0 <= era;
  cp_yoe : 0 <= yoe < 400;
  cp_mp : 0 <= mp < 12;
  cp_day : 0 <= d;
  cp_month : month_start mp + d < month_start (mp + 1);
  cp_year : month_start mp + d < last_day yoe;
}.

Lemma as_i32_id z : -2147483648 <= z <= 2147483647 -> as_i32 z = z.
Proof. intros. unfold as_i32. rewrite Z.mod_small; lia. Qed.

Lemma as_u32_id z : 0 <= z < 4294967296 -> as_u32 z = z.
Proof. intros. unfold as_u32. by rewrite Z.mod_small. Qed.

Lemma month_of_day doy :
  0 <= doy < 366 -> let mp := (5 * doy + 2) / 153 in
  0 <= mp < 12 /\ month_start mp <= doy < month_start (mp + 1).
Proof. intros H mp. unfold month_start, mp. Z.to_euclidean_division_equations; lia. Qed.

Lemma last_day_range yoe : 0 <= yoe < 400 -> 365 <= last_day yoe <= 366.
Proof.
  intros H. unfold last_day, year_start. destruct (Z.eqb_spec yoe 399) as [->|];
    [vm_compute; split; discriminate|].
  assert (0 <= (yoe + 1) / 100 - yoe / 100) by (Z.to_euclidean_division_equations; lia).
  assert ((yoe + 1) / 4 - yoe / 4 <= 1) by (Z.to_euclidean_division_equations; lia).
  assert ((yoe + 1) / 100 - yoe / 100 <= (yoe + 1) / 4 - yoe / 4)
    by (Z.to_euclidean_division_equations; lia).
  lia.
Qed.

Lemma month_start_gap mp : month_start mp + 30 <= month_start (mp + 1).
Proof. unfold month_start. Z.to_euclidean_division_equations; lia. Qed.

Lemma month_start_nonneg mp : 0 <= mp -> 0 <= month_start mp.
Proof. intros H. unfold month_start. Z.to_euclidean_division_equations; lia. Qed.

Lemma civil_form n :
  0 <= n < MAX_CIVIL_DAY ->
  exists era yoe mp d, civil_parts era yoe mp d /\ n = day_number era yoe mp d
    /\ civil_from_unix_days n = civil_of era yoe mp d.
Proof.
  unfold MAX_CIVIL_DAY. intros Hn. unfold civil_from_unix_days.
  rewrite (proj2 (Z.leb_le 0 (n + 719468))) by lia. rewrite (quot_div (n + 719468)) by lia.
  set (era := (n + 719468) / 146097). set (doe := n + 719468 - era * 146097).
  assert (0 <= doe < 146097 /\ 0 <= era < 5370000) as [Hdoe Hera]
    by (unfold doe, era; Z.to_euclidean_division_equations; lia).
  destruct (yoe_spec doe Hdoe) as (Hy & Hlo & Hhi). cbn zeta.
  rewrite !(quot_div doe) by lia.
  rewrite (quot_div (doe - _ + _ - _)) by (Z.to_euclidean_division_equations; lia).
  set (yoe := (doe - doe / 1460 + doe / 36524 - doe / 146096) / 365) in *.
  rewrite !(quot_div yoe) by lia. fold (year_start yoe).
  change (365 * yoe + yoe / 4 - yoe / 100) with (year_start yoe).
  set (doy := doe - year_start yoe).
  assert (doe < year_start yoe + last_day yoe) as Hld.
  { unfold last_day. destruct (Z.eqb_spec (yoe + 1) 400), (Z.eqb_spec yoe 399); lia. }
  pose proof (last_day_range yoe Hy) as Hr. assert (0 <= doy < 366) as Hdoy by (unfold doy; lia).
  rewrite (quot_div (5 * doy + 2)) by lia. destruct (month_of_day doy Hdoy) as (Hmp & Hm1 & Hm2).
  set (mp := (5 * doy + 2) / 153) in *. rewrite (quot_div (153 * mp + 2)) by lia.
  change ((153 * mp + 2) / 5) with (month_start mp).
  exists era, yoe, mp, (doy - month_start mp). split; [|split].
  - constructor; unfold doy in *; lia.
  - unfold day_number, doy, doe. lia.
  - unfold civil_of. pose proof (month_start_nonneg mp ltac:(lia)) as Hms.
    destruct (Z.ltb_spec mp 10).
    + destruct (Z.leb_spec (mp + 3) 2); [lia|]. rewrite as_i32_id, !as_u32_id by lia. done.
    + destruct (Z.leb_spec (mp + -9) 2); [|lia]. rewrite as_i32_id, !as_u32_id by lia. done.
Qed.

(** The parts of a day are determined by its number. *)
Lemma year_start_mono a b : a <= b -> year_start a <= year_start b.
Proof. intros H. unfold year_start. Z.to_euclidean_division_equations; lia. Qed.

Lemma month_start_mono a b : a <= b -> month_start a <= month_start b.
Proof. intros H. unfold month_start. Z.to_euclidean_division_equations; lia. Qed.

Lemma last_day_spec yoe :
  last_day yoe = year_start (yoe + 1) - year_start yoe + (if yoe =? 399 then 1 else 0).
Proof. done. Qed.

Lemma year_end era yoe mp d :
  civil_parts era yoe mp d -> year_start yoe + month_start mp + d < 146097.
Proof.
  intros [? Hy ? ? ? Hl]. rewrite last_day_spec in Hl.
  destruct (Z.eqb_spec yoe 399) as [->|].
  - change (year_start (399 + 1)) with 146096 in Hl. lia.
  - pose proof (year_start_mono (yoe + 1) 399 ltac:(lia)) as Hm.
    change (year_start 399) with 145731 in Hm. lia.
Qed.

Lemma civil_parts_inj era yoe mp d era' yoe' mp' d' :
  civil_parts era yoe mp d -> civil_parts era' yoe' mp' d' ->
  day_number era yoe mp d = day_number era' yoe' mp' d' ->
  era = era' /\ yoe = yoe' /\ mp = mp' /\ d = d'.
Proof.
  intros H H' Heq. pose proof (year_end _ _ _ _ H). pose proof (year_end _ _ _ _ H').
  destruct H as [? Hy Hm ? Hmo Hl], H' as [? Hy' Hm' ? Hmo' Hl']. unfold day_number in Heq.
  pose proof (year_start_mono 0 yoe ltac:(lia)) as Hs1. change (year_start 0) with 0 in Hs1.
  pose proof (year_start_mono 0 yoe' ltac:(lia)) as Hs2. change (year_start 0) with 0 in Hs2.
  pose proof (month_start_nonneg mp ltac:(lia)). pose proof (month_start_nonneg mp' ltac:(lia)).
  assert (era = era') as <- by lia. rewrite !last_day_spec in *.
  assert (yoe = yoe') as <-.
  { destruct (Z.lt_trichotomy yoe yoe') as [Hlt|[->|Hlt]]; [|done|].
    - pose proof (year_start_mono (yoe + 1) yoe' ltac:(lia)).
      destruct (Z.eqb_spec yoe 399); lia.
    - pose proof (year_start_mono (yoe' + 1) yoe ltac:(lia)).
      destruct (Z.eqb_spec yoe' 399); lia. }
  assert (mp = mp') as <-.
  { destruct (Z.lt_trichotomy mp mp') as [Hlt|[->|Hlt]]; [|done|].
    - pose proof (month_start_mono (mp + 1) mp' ltac:(lia)). lia.
    - pose proof (month_start_mono (mp' + 1) mp ltac:(lia)). lia. }
  repeat split; lia.
Qed.

Lemma civil_of_day_number era yoe mp d :
  civil_parts era yoe mp d ->
  0 <= day_number era yoe mp d < MAX_CIVIL_DAY ->
  civil_from_unix_days (day_number era yoe mp d) = civil_of era yoe mp d.
Proof.
  intros H Hn. destruct (civil_form _ Hn) as (e & y & m & d' & H' & Heq & ->).
  by destruct (civil_parts_inj _ _ _ _ _ _ _ _ H H' Heq) as (<- & <- & <- & <-).
Qed.

(** The length of a month is what the arithmetic leaves of it. *)
Lemma leap_last_day era yoe :
  0 <= yoe < 400 -> is_leap_year (yoe + era * 400 + 1) = (last_day yoe =? 366).
Proof.
  intros Hy. unfold is_leap_year.
  replace ((yoe + era * 400 + 1) mod 4) with ((yoe + 1) mod 4)
    by (Z.to_euclidean_division_equations; lia).
  replace ((yoe + era * 400 + 1) mod 100) with ((yoe + 1) mod 100)
    by (Z.to_euclidean_division_equations; lia).
  replace ((yoe + era * 400 + 1) mod 400) with ((yoe + 1) mod 400)
    by (Z.to_euclidean_division_equations; lia).
  assert (forallb (fun k => Bool.eqb (((k + 1) mod 4 =? 0)
      && (negb ((k + 1) mod 100 =? 0) || ((k + 1) mod 400 =? 0))) (last_day k =? 366))
      (seqZ 0 400) = true) as Hall by (vm_compute; reflexivity).
  rewrite forallb_forall in Hall.
  apply Bool.eqb_prop, Hall, list_elem_of_In, elem_of_seqZ. lia.
Qed.

Lemma month_length era yoe mp :
  0 <= yoe < 400 -> 0 <= mp < 12 ->
  days_in_month (yoe + era * 400 + (if mp <? 10 then 0 else 1))
    (mp + (if mp <? 10 then 3 else -9))
  = Z.min (month_start (mp + 1)) (last_day yoe) - month_start mp.
Proof.
  intros Hy Hm. pose proof (last_day_range yoe Hy) as Hr.
  pose proof (leap_last_day era yoe Hy) as Hleap.
  destruct (Z.eqb_spec mp 11) as [->|Hmp].
  2: { assert (In mp [0; 1; 2; 3; 4; 5; 6; 7; 8; 9; 10]) as Hin by (cbn [In]; lia).
       pose proof (month_start_mono (mp + 1) 11 ltac:(lia)) as Hms.
       change (month_start 11) with 337 in Hms. rewrite Z.min_l by lia. clear -Hin.
       cbn [In] in Hin. by repeat (destruct Hin as [<-|Hin]; [vm_compute; reflexivity|]). }
  unfold days_in_month. change (11 <? 10) with false. cbn iota.
  change (month_start (11 + 1)) with 367. change (month_start 11) with 337.
  change (11 + -9) with 2. change (2 =? 2) with true. cbn iota. rewrite Hleap.
  destruct (Z.eqb_spec (last_day yoe) 366); lia.
Qed.

Lemma civil_of_valid era yoe mp d :
  civil_parts era yoe mp d -> valid_date (civil_of era yoe mp d).
Proof.
  intros [He Hy Hm Hd Hmo Hl]. unfold civil_of, valid_date.
  rewrite (month_length era yoe mp Hy Hm). split; [destruct (Z.ltb_spec mp 10)|]; lia.
Qed.

Local Ltac date_eq := repeat first [lia | apply (f_equal2 pair)].

(** One more day in the parts. *)
Lemma next_parts era yoe mp d :
  civil_parts era yoe mp d ->
  exists era' yoe' mp' d', civil_parts era' yoe' mp' d'
    /\ day_number era' yoe' mp' d' = day_number era yoe mp d + 1
    /\ civil_of era' yoe' mp' d' = next_day (civil_of era yoe mp d).
Proof.
  intros [He Hy Hm Hd Hmo Hl]. pose proof (last_day_range yoe Hy) as Hr.
  unfold civil_of at 2, next_day. rewrite (month_length era yoe mp Hy Hm).
  destruct (Z.ltb_spec (d + 1) (Z.min (month_start (mp + 1)) (last_day yoe) - month_start mp)).
  { exists era, yoe, mp, (d + 1). split; [constructor; lia|]. split; [unfold day_number; lia|done]. }
  destruct (Z.eqb_spec mp 11) as [->|Hmp].
  - change (month_start (11 + 1)) with 367 in *. change (month_start 11) with 337 in *.
    change (11 <? 10) with false. change (11 + -9 <? 12) with true. cbn iota.
    destruct (Z.eqb_spec yoe 399) as [->|Hyo].
    + change (last_day 399) with 366 in *.
      exists (era + 1), 0, 0, 0. split; [constructor; try lia; by vm_compute|].
      split; [unfold day_number; change (year_start 0) with 0; change (year_start 399) with 145731;
        change (month_start 0) with 0; change (month_start 11) with 337; lia|].
      unfold civil_of. cbn -[Z.mul Z.add]. date_eq.
    + exists era, (yoe + 1), 0, 0. pose proof (last_day_range (yoe + 1) ltac:(lia)).
      rewrite last_day_spec in Hl, H, Hr. destruct (Z.eqb_spec yoe 399); [lia|].
      split; [constructor; try lia; change (month_start 0) with 0; change (month_start (0 + 1)) with 31; lia|].
      split; [unfold day_number; change (month_start 0) with 0; change (month_start 11) with 337; lia|].
      unfold civil_of. cbn -[Z.mul Z.add]. date_eq.
  - pose proof (month_start_mono (mp + 1) 11 ltac:(lia)) as Hms. change (month_start 11) with 337 in Hms.
    pose proof (month_start_gap mp). pose proof (month_start_gap (mp + 1)).
    exists era, yoe, (mp + 1), 0. split; [constructor; lia|].
    split; [unfold day_number; lia|]. unfold civil_of.
    destruct (Z.ltb_spec mp 10), (Z.ltb_spec (mp + 1) 10); try lia;
      destruct (Z.ltb_spec (mp + 3) 12), (Z.ltb_spec (mp + -9) 12); try lia;
      date_eq.
Qed.

(** The year and the month from March behind the date of some parts. *)
Lemma civil_year_back era yoe mp :
  0 <= mp < 12 ->
  yoe + era * 400 + (if mp <? 10 then 0 else 1)
  - (if mp + (if mp <? 10 then 3 else -9) <=? 2 then 1 else 0) = yoe + era * 400.
Proof.
  intros Hm. destruct (Z.ltb_spec mp 10).
  - destruct (Z.leb_spec (mp + 3) 2); lia.
  - destruct (Z.leb_spec (mp + -9) 2); lia.
Qed.

Lemma civil_month_back mp :
  0 <= mp < 12 ->
  mp + (if mp <? 10 then 3 else -9)
  + (if 2 <? mp + (if mp <? 10 then 3 else -9) then -3 else 9) = mp.
Proof.
  intros Hm. destruct (Z.ltb_spec mp 10).
  - destruct (Z.ltb_spec 2 (mp + 3)); lia.
  - destruct (Z.ltb_spec 2 (mp + -9)); lia.
Qed.

Lemma days_from_civil_parts era yoe mp d :
  civil_parts era yoe mp d ->
  let '(y, m, day) := civil_of era yoe mp d in
  days_from_civil y m day = Some (day_number era yoe mp d).
Proof.
  intros H. pose proof (civil_of_valid _ _ _ _ H) as Hv. unfold civil_of, valid_date in *.
  destruct H as [He Hy Hm Hd Hmo Hl]. unfold days_from_civil. destruct Hv as [Hv1 Hv2].
  assert (d + 1 <= 31) as H31.
  { unfold days_in_month in Hv2. destruct (_ =? 2); [destruct (is_leap_year _)|destruct (_ || _)];
      lia. }
  rewrite as_u32_id by lia. unfold in_range.
  rewrite (proj2 (andb_true_iff _ _)) by (split; apply Z.leb_le; lia).
  rewrite (proj2 (andb_true_iff _ _)) by (split; apply Z.leb_le; lia). cbn [negb orb].
  rewrite civil_year_back, civil_month_back by done.
  assert (0 <= yoe + era * 400) as Hpos by lia.
  rewrite (proj2 (Z.leb_le _ _) Hpos), (quot_div (yoe + era * 400)) by lia.
  rewrite Z.div_add, (Z.div_small yoe) by lia. rewrite Z.add_0_l.
  replace (yoe + era * 400 - era * 400) with yoe by lia. rewrite !quot_div by lia.
  f_equal. unfold day_number, year_start, month_start. lia.
Qed.

(** The date of every day up to the bound is valid, the next day has the next
    date, and [days_from_civil] reads the day number back. *)
Lemma civil_valid n : 0 <= n < MAX_CIVIL_DAY -> valid_date (civil_from_unix_days n).
Proof. intros (e & y & m & d & H & -> & ->)%civil_form. by apply civil_of_valid. Qed.

Lemma civil_succ n :
  0 <= n -> n + 1 < MAX_CIVIL_DAY ->
  civil_from_unix_days (n + 1) = next_day (civil_from_unix_days n).
Proof.
  intros H0 H1. destruct (civil_form n ltac:(lia)) as (e & y & m & d & H & -> & ->).
  destruct (next_parts _ _ _ _ H) as (e' & y' & m' & d' & H' & Hn & <-).
  rewrite <-Hn in *. by apply civil_of_day_number; [|lia].
Qed.

Lemma days_of_civil n :
  0 <= n < MAX_CIVIL_DAY ->
  let '(y, m, d) := civil_from_unix_days n in days_from_civil y m d = Some n.
Proof.
  intros (e & y & m & d & H & -> & ->)%civil_form. by apply days_from_civil_parts.
Qed.

(** The calendar, with its epoch and both conversions. *)
Theorem civil_calendar n :
  0 <= n -> n + 1 < MAX_CIVIL_DAY ->
  civil_from_unix_days 0 = (1970, 1, 1)
  /\ civil_from_unix_days (n + 1) = next_day (civil_from_unix_days n)
  /\ valid_date (civil_from_unix_days n)
  /\ (let '(y, m, d) := civil_from_unix_days n in days_from_civil y m d = Some n).
Proof.
  intros H0 H1. split; [reflexivity|]. split; [by apply civil_succ|].
  split; [apply civil_valid | apply days_of_civil]; lia.
Qed.

(** A leap day: the day after 2000-02-28 and the day after that. *)
Lemma civil_calendar_witness :
  civil_from_unix_days 11016 = (2000, 2, 29)
  /\ civil_from_unix_days 11017 = next_day (civil_from_unix_days 11016)
  /\ next_day (2000, 2, 29) = (2000, 3, 1).
Proof.
  split; [vm_compute; reflexivity|]. split; [|vm_compute; reflexivity].
  apply (civil_calendar 11016); [lia|unfold MAX_CIVIL_DAY; lia].
Defined.

(** ** Digits *)

Lemma ascii_decimal_digit a d :
  0 <= d < 10 -> ascii_decimal_step (Some a) (48 + d) = Some (a * 10 + d).
Proof.
  intros Hd. unfold ascii_decimal_step, u8_checked_sub. cbn.
  destruct (Z.ltb_spec (48 + d) 48); [lia|]. cbn. do 2 f_equal. lia.
Qed.

Lemma parse_four_digits v : 0 <= v < 10000 -> parse_ascii_decimal (write_four_digits v) = Some v.
Proof.
  intros Hv. unfold parse_ascii_decimal, write_four_digits. cbn [fold_left].
  rewrite !ascii_decimal_digit by (apply Z.mod_pos_bound; lia). f_equal.
  Z.to_euclidean_division_equations; lia.
Qed.

Lemma parse_two_digits_of v : 0 <= v < 100 -> parse_ascii_decimal (write_two_digits v) = Some v.
Proof.
  intros Hv. unfold parse_ascii_decimal, write_two_digits. cbn [fold_left].
  rewrite !ascii_decimal_digit by (apply Z.mod_pos_bound; lia). f_equal.
  Z.to_euclidean_division_equations; lia.
Qed.

Lemma digit_byte d : is_ascii_digit (48 + d mod 10) = true.
Proof. apply is_ascii_digit_spec. pose proof (Z.mod_pos_bound d 10). lia. Qed.

Lemma four_digits_are_digits v : forallb is_ascii_digit (write_four_digits v) = true.
Proof. unfold write_four_digits. cbn [forallb]. by rewrite !digit_byte. Qed.

Lemma two_digits_are_digits v : forallb is_ascii_digit (write_two_digits v) = true.
Proof. unfold write_two_digits. cbn [forallb]. by rewrite !digit_byte. Qed.

(** The text of a date and of a time of day, as DATE writes them and NEWGROUPS
    and NEWNEWS read them. *)
Definition date_text (y m d : Z) : bytes :=
  write_four_digits y ++ write_two_digits m ++ write_two_digits d.

Definition time_text (secs : Z) : bytes :=
  write_two_digits (secs / 3600) ++ write_two_digits (secs mod 3600 / 60)
  ++ write_two_digits (secs mod 60).

Lemma date_response_text seconds :
  date_response_for_unix_seconds seconds =
  let '(y, m, d) := civil_from_unix_days (seconds / 86400) in
  lit "111 " ++ date_text (as_u32 y) m d ++ time_text (seconds mod 86400) ++ CRLF_bytes.
Proof.
  unfold date_response_for_unix_seconds. by destruct (civil_from_unix_days _) as [[y m] d].
Qed.

Lemma date_text_key y m d year :
  0 <= y < 10000 -> 0 <= m < 100 -> 0 <= d < 100 ->
  normalized_nntp_date_key (date_text y m d) year = Some (y * 10000 + m * 100 + d).
Proof.
  intros Hy Hm Hd. unfold normalized_nntp_date_key.
  replace (forallb is_ascii_digit (date_text y m d)) with true.
  2:{ unfold date_text. rewrite !forallb_app, four_digits_are_digits.
      by rewrite !two_digits_are_digits. }
  change (length (date_text y m d)) with 8%nat. cbn [Nat.eqb orb negb].
  change (take 4 (date_text y m d)) with (write_four_digits y).
  change (slice (date_text y m d) 4 6) with (write_two_digits m).
  change (drop 6 (date_text y m d)) with (write_two_digits d).
  rewrite parse_four_digits by lia. cbn [mbind option_bind].
  rewrite !parse_two_digits_of by lia. done.
Qed.

Lemma date_time_read y m d secs n year :
  0 <= y < 10000 -> 0 <= m < 100 -> 0 <= d < 100 -> 0 <= secs < 86400 ->
  0 <= n < 1000000000000 -> days_from_civil y m d = Some n ->
  nntp_datetime_timestamp (date_text y m d) (time_text secs) year = Some (n * 86400 + secs).
Proof.
  intros Hy Hm Hd Hs Hn Hdays. unfold nntp_datetime_timestamp.
  rewrite date_text_key by lia. cbn [mbind option_bind].
  replace (forallb is_ascii_digit (time_text secs)) with true.
  2:{ unfold time_text. by rewrite !forallb_app, !two_digits_are_digits. }
  change (length (time_text secs)) with 6%nat. cbn [Nat.eqb orb negb].
  change (take 2 (time_text secs)) with (write_two_digits (secs / 3600)).
  change (slice (time_text secs) 2 4) with (write_two_digits (secs mod 3600 / 60)).
  change (slice (time_text secs) 4 6) with (write_two_digits (secs mod 60)).
  unfold parse_ascii_decimal_u32. fold (parse_ascii_decimal (write_two_digits (secs / 3600))).
  fold (parse_ascii_decimal (write_two_digits (secs mod 3600 / 60))).
  fold (parse_ascii_decimal (write_two_digits (secs mod 60))).
  rewrite !parse_two_digits_of by (Z.to_euclidean_division_equations; lia).
  cbn [mbind option_bind].
  replace ((y * 10000 + m * 100 + d) / 10000) with y by (Z.to_euclidean_division_equations; lia).
  replace ((y * 10000 + m * 100 + d) / 100 mod 100) with m
    by (Z.to_euclidean_division_equations; lia).
  replace ((y * 10000 + m * 100 + d) mod 100) with d by (Z.to_euclidean_division_equations; lia).
  rewrite Hdays. cbn [mbind option_bind].
  unfold i64_checked_mul, i64_checked_add, i64_in_range, in_range.
  assert (secs / 3600 * 3600 + secs mod 3600 / 60 * 60 + secs mod 60 = secs) as ->
    by (Z.to_euclidean_division_equations; lia).
  rewrite (proj2 (andb_true_iff _ _)) by (split; apply Z.leb_le; lia).
  cbn [mbind option_bind]. rewrite (proj2 (andb_true_iff _ _)) by (split; apply Z.leb_le; lia).
  cbn [mbind option_bind]. by rewrite (proj2 (Z.leb_le _ _)) by lia.
Qed.

(** The first day of the year 10000. *)
Definition DAY_10000 : Z := 2932897.

(** No day of the epoch is before 1970. *)
Lemma civil_year_epoch n :
  0 <= n < DAY_10000 -> let '(y, _, _) := civil_from_unix_days n in 1970 <= y.
Proof.
  intros Hn. unfold DAY_10000 in Hn.
  destruct (civil_form n ltac:(unfold MAX_CIVIL_DAY; lia)) as (e & y & mp & d & H & Hday & ->).
  unfold civil_of. pose proof (year_end _ _ _ _ H) as Hend.
  destruct H as [He Hy Hmp Hd0 Hmo Hl]. unfold day_number in Hday.
  destruct (Z.leb_spec 5 e); [destruct (mp <? 10); lia|]. assert (e = 4) by lia. subst e.
  destruct (Z.leb_spec 370 y); [destruct (mp <? 10); lia|]. rewrite last_day_spec in Hl.
  destruct (Z.leb_spec y 368).
  { pose proof (year_start_mono (y + 1) 369 ltac:(lia)) as Hm.
    change (year_start 369) with 134774 in Hm. destruct (Z.eqb_spec y 399); lia. }
  assert (y = 369) by lia. subst y. change (year_start 369) with 134774 in *.
  destruct (Z.ltb_spec mp 10); [|lia].
  pose proof (month_start_mono (mp + 1) 10 ltac:(lia)) as Hm. change (month_start 10) with 306 in Hm. lia.
Qed.

Lemma civil_year_bound n :
  0 <= n < DAY_10000 ->
  let '(y, m, d) := civil_from_unix_days n in 0 <= y < 10000 /\ 1 <= m <= 12 /\ 1 <= d <= 31.
Proof.
  intros Hn. unfold DAY_10000 in Hn.
  destruct (civil_form n ltac:(unfold MAX_CIVIL_DAY; lia)) as (e & y & mp & d & H & Hday & ->).
  pose proof (civil_of_valid _ _ _ _ H) as [Hm Hd]. unfold civil_of.
  split; [|split; [done|]].
  - destruct H as [He Hy Hmp Hd0 Hmo Hl]. unfold day_number in Hday.
    pose proof (year_start_mono 0 y ltac:(lia)). change (year_start 0) with 0 in *.
    pose proof (month_start_nonneg mp ltac:(lia)).
    destruct (Z.ltb_spec mp 10) as [|Hten]; [lia|].
    pose proof (month_start_mono 10 mp Hten) as Hms. change (month_start 10) with 306 in Hms.
    assert (e < 24 \/ e = 24 /\ y < 399) as [|[]]; [|lia..].
    destruct (Z.eqb_spec e 24) as [->|]; [|left; lia]. right. split; [done|].
    destruct (Z.eqb_spec y 399) as [->|]; [|lia]. change (year_start 399) with 145731 in Hday. lia.
  - unfold days_in_month in Hd. destruct (_ =? 2); [destruct (is_leap_year _)|destruct (_ || _)];
      lia.
Qed.

(** The first argument of a command line. *)
Lemma first_command_arg_cons a k :
  plain_arg a -> first_command_arg (a ++ SP :: k) = Some a.
Proof.
  intros Ha. pose proof Ha as Hws%plain_arg_not_ws.
  unfold first_command_arg, skip_command_ws.
  assert (position (fun byte => negb (is_command_ws byte)) (a ++ SP :: k) = Some 0%nat) as ->.
  { destruct Hws as [|x a Hx Hws]; [by destruct Ha|]. cbn. by rewrite Hx. }
  cbn [default]. rewrite drop_0, (position_app_here is_command_ws a SP k) by done.
  destruct Ha as [Hne _]. destruct a; [done|]. cbn [app default]. f_equal.
  apply (take_app_length (z :: a) (SP :: k)).
Qed.

Lemma date_text_digits y m d : forallb is_ascii_digit (date_text y m d) = true.
Proof.
  unfold date_text. by rewrite !forallb_app, four_digits_are_digits, !two_digits_are_digits.
Qed.

Lemma time_text_digits secs : forallb is_ascii_digit (time_text secs) = true.
Proof. unfold time_text. by rewrite !forallb_app, !two_digits_are_digits. Qed.

(** The two commands read back the digits of a DATE response, whatever the
    current year, up to the year 9999. *)
Theorem date_response_read_back seconds now :
  0 <= seconds < DAY_10000 * 86400 ->
  exists date time, length date = 8%nat /\ length time = 6%nat
    /\ date_response_for_unix_seconds seconds = lit "111 " ++ date ++ time ++ CRLF_bytes
    /\ newgroups_datetime_timestamp (date ++ lit " " ++ time ++ lit " GMT") now = Some seconds
    /\ newnews_datetime_timestamp (lit "* " ++ date ++ lit " " ++ time) now = Some seconds.
Proof.
  intros Hs. unfold DAY_10000 in Hs.
  assert (0 <= seconds / 86400 < DAY_10000 /\ 0 <= seconds mod 86400 < 86400
    /\ seconds / 86400 * 86400 + seconds mod 86400 = seconds) as (Hn & Hr & Hsum)
    by (unfold DAY_10000; Z.to_euclidean_division_equations; lia).
  rewrite date_response_text. pose proof (civil_year_bound _ Hn) as Hb.
  pose proof (days_of_civil (seconds / 86400) ltac:(unfold MAX_CIVIL_DAY, DAY_10000 in *; lia)) as Hd.
  destruct (civil_from_unix_days (seconds / 86400)) as [[y m] d]. destruct Hb as (Hy & Hm & Hdd).
  rewrite as_u32_id by lia.
  exists (date_text y m d), (time_text (seconds mod 86400)). split; [done|]. split; [done|].
  split; [done|].
  assert (forall year, nntp_datetime_timestamp (date_text y m d) (time_text (seconds mod 86400)) year
    = Some seconds) as Hread.
  { intros year. rewrite (date_time_read y m d _ (seconds / 86400)) by (unfold DAY_10000 in *; lia || done).
    by rewrite Hsum. }
  assert (plain_arg (date_text y m d) /\ plain_arg (time_text (seconds mod 86400))) as [Hpd Hpt]
    by (split; apply digits_plain; done || apply date_text_digits || apply time_text_digits).
  split.
  - unfold newgroups_datetime_timestamp.
    change (lit " " ++ time_text (seconds mod 86400) ++ lit " GMT")
      with (SP :: time_text (seconds mod 86400) ++ SP :: lit "GMT").
    rewrite first_command_arg_cons by auto. unfold nth_command_arg.
    rewrite !command_tokens_cons by auto. cbn. apply Hread.
  - unfold newnews_datetime_timestamp, nth_command_arg.
    change (lit "* " ++ date_text y m d ++ lit " " ++ time_text (seconds mod 86400))
      with ([42] ++ SP :: date_text y m d ++ SP :: time_text (seconds mod 86400)).
    rewrite !command_tokens_cons, command_tokens_single by (auto; repeat constructor; done).
    cbn. apply Hread.
Qed.

(** The moon landing anniversary of 2019 and the last second of 9999. *)
Lemma date_response_read_back_witness :
  date_response_for_unix_seconds 1563653820 = lit "111 20190720201700" ++ CRLF_bytes
  /\ exists date time, length date = 8%nat /\ length time = 6%nat
    /\ date_response_for_unix_seconds 253402300799 = lit "111 " ++ date ++ time ++ CRLF_bytes
    /\ newgroups_datetime_timestamp (date ++ lit " " ++ time ++ lit " GMT") 0 = Some 253402300799
    /\ newnews_datetime_timestamp (lit "* " ++ date ++ lit " " ++ time) 0 = Some 253402300799.
Proof.
  split; [vm_compute; reflexivity|]. apply date_response_read_back. unfold DAY_10000. lia.
Defined.

(** A two-digit year is the last year with these digits that is not after the
    current one. *)
Lemma parse_ascii_decimal_two (v : bytes) :
  length v = 2%nat -> forallb is_ascii_digit v = true ->
  exists n, parse_ascii_decimal v = Some n /\ 0 <= n < 100.
Proof.
  intros Hl Hd. destruct v as [|a [|b [|]]]; try discriminate.
  cbn [forallb] in Hd. apply andb_true_iff in Hd as [Ha%is_ascii_digit_spec Hb].
  apply andb_true_iff in Hb as [Hb%is_ascii_digit_spec _].
  exists ((a - 48) * 10 + (b - 48)). split; [|lia]. unfold parse_ascii_decimal. cbn [fold_left].
  replace a with (48 + (a - 48)) at 1 by lia. rewrite ascii_decimal_digit by lia.
  replace b with (48 + (b - 48)) at 1 by lia. rewrite ascii_decimal_digit by lia. done.
Qed.

Lemma short_year_key (yy mm dd : bytes) current_year :
  length yy = 2%nat -> length mm = 2%nat -> length dd = 2%nat ->
  forallb is_ascii_digit (yy ++ mm ++ dd) = true -> 100 <= current_year < 65536 ->
  exists short month day year,
    parse_ascii_decimal yy = Some short
    /\ normalized_nntp_date_key (yy ++ mm ++ dd) current_year
       = Some (year * 10000 + month * 100 + day)
    /\ 0 <= month < 100 /\ 0 <= day < 100
    /\ year mod 100 = short /\ year <= current_year < year + 100.
Proof.
  intros Hy Hm Hd Hdig Hcy. unfold normalized_nntp_date_key. rewrite Hdig.
  rewrite !forallb_app in Hdig. apply andb_true_iff in Hdig as [Hyd Hdig].
  apply andb_true_iff in Hdig as [Hmd Hdd].
  destruct (parse_ascii_decimal_two yy Hy Hyd) as (short & Hs & Hsr).
  destruct (parse_ascii_decimal_two mm Hm Hmd) as (month & Hmo & Hmr).
  destruct (parse_ascii_decimal_two dd Hd Hdd) as (day & Hda & Hdr).
  rewrite !length_app, Hy, Hm, Hd. cbn [Nat.add Nat.eqb orb negb].
  rewrite (take_app_length' yy) by done. rewrite Hs. cbn [mbind option_bind].
  unfold slice. rewrite (drop_app_length' yy _ 2) by done. rewrite (take_app_length' mm) by lia.
  rewrite app_assoc, (drop_app_length' (yy ++ mm)) by (rewrite length_app; lia).
  rewrite Hmo, Hda. cbn [mbind option_bind]. unfold u16_saturating_sub.
  exists short, month, day. eexists. split; [done|]. split; [reflexivity|].
  split; [lia|]. split; [lia|].
  destruct (Z.leb_spec short (current_year mod 100)); Z.to_euclidean_division_equations; lia.
Qed.
