(* ===== verification/Wildmat.v ===== *)
(** * Wildmats of the server ([src/src/lib.rs])

    The matcher behind LIST ACTIVE, LIST NEWSGROUPS and NEWNEWS
    ([wildmat_matches], [wildmat_pattern_matches]), on the characters of the two
    strings.  The specification is the relation [glob] of RFC 3977 section 4 and
    the rule that the last matching pattern of a list decides. *)
From S2P Require Import Prelude Utf8.

Local Open Scope Z_scope.

Definition STAR : Z := 42.
Definition QUESTION : Z := 63.

(** [matches_from]: a star is tried empty first, then over one more character. *)
Fixpoint matches_from (pattern : list Z) : list Z -> bool :=
  match pattern with
  | [] => fun group => match group with [] => true | _ :: _ => false end
  | ch :: rest =>
      fix from_group group :=
        if ch =? STAR then
          matches_from rest group
          || match group with
             | [] => false
             | _ :: group_rest => from_group group_rest
             end
        else
          match group with
          | actual :: group_rest =>
              if ch =? QUESTION then matches_from rest group_rest
              else if ch =? actual then matches_from rest group_rest
              else false
          | [] => false
          end
  end.

Definition wildmat_pattern_matches (pattern group : list Z) : bool := matches_from pattern group.

(** [pattern.strip_prefix('!')]. *)
Definition strip_negation (pattern : list Z) : bool * list Z :=
  match strip_prefix pattern [33] with
  | Some pattern => (true, pattern)
  | None => (false, pattern)
  end.

Definition wildmat_matches (patterns group : bytes) : bool :=
  match from_utf8 patterns, from_utf8 group with
  | Some patterns, Some group =>
      let matched :=
        fold_left
          (fun matched pattern =>
             let '(negated, pattern) := strip_negation pattern in
             if wildmat_pattern_matches pattern group then Some (negb negated) else matched)
          (split_on (Z.eqb 44) patterns) None in
      default false matched
  | _, _ => false
  end.

(** ** What a pattern means *)

Inductive glob : list Z -> list Z -> Prop :=
| glob_nil : glob [] []
| glob_star p skipped g : glob p g -> glob (STAR :: p) (skipped ++ g)
| glob_any p x g : glob p g -> glob (QUESTION :: p) (x :: g)
| glob_char p c g : c <> STAR -> c <> QUESTION -> glob p g -> glob (c :: p) (c :: g).

Lemma matches_star rest group :
  matches_from (STAR :: rest) group
  = matches_from rest group
    || match group with [] => false | _ :: g => matches_from (STAR :: rest) g end.
Proof. by destruct group. Qed.

Lemma matches_glob pattern group : matches_from pattern group = true <-> glob pattern group.
Proof.
  split.
  - revert group. induction pattern as [|ch rest IH]; intros group.
    { destruct group; [constructor|done]. }
    destruct (Z.eqb_spec ch STAR) as [->|Hs].
    + induction group as [|x group IHg]; rewrite matches_star, orb_true_iff.
      * intros [H|]; [|done]. apply (glob_star rest []), IH, H.
      * intros [H|H]; [apply (glob_star rest []), IH, H|].
        specialize (IHg H). inversion IHg as [|p sk g Hg| |]; subst; [|done].
        by apply (glob_star rest (x :: sk)).
    + cbn [matches_from]. destruct group as [|x group]; rewrite (proj2 (Z.eqb_neq _ _) Hs); [done|].
      destruct (Z.eqb_spec ch QUESTION) as [->|Hq]; [intros H; by apply glob_any, IH|].
      destruct (Z.eqb_spec ch x) as [->|]; [|done]. intros H. by apply glob_char, IH.
  - induction 1 as [|p sk g _ IH|p x g _ IH|p c g Hs Hq _ IH]; [done| | |].
    + induction sk as [|x sk IHs]; rewrite matches_star; cbn [app]; apply orb_true_iff;
        [by left|by right].
    + exact IH.
    + cbn [matches_from].
      by rewrite (proj2 (Z.eqb_neq _ _) Hs), (proj2 (Z.eqb_neq _ _) Hq), Z.eqb_refl.
Qed.

(** The patterns of a wildmat, each with its sign. *)
Definition wildmat_patterns (patterns : bytes) : list (bool * list Z) :=
  strip_negation <$> split_on (Z.eqb 44) (chars patterns).

(** The last pattern that matches decides; with none the answer is no. *)
Definition last_match_decides (ps : list (bool * list Z)) (group : list Z) : Prop :=
  exists before p after, ps = before ++ (false, p) :: after
    /\ glob p group /\ Forall (fun q => ~ glob (snd q) group) after.

Lemma fold_last (ps : list (list Z)) group acc :
  fold_left
    (fun matched pattern =>
       let '(negated, pattern) := strip_negation pattern in
       if wildmat_pattern_matches pattern group then Some (negb negated) else matched) ps acc
  = Some true
  <-> last_match_decides (strip_negation <$> ps) group
      \/ acc = Some true /\ Forall (fun q => ~ glob (snd q) group) (strip_negation <$> ps).
Proof.
  revert acc. induction ps as [|p ps IH]; intros acc; cbn [fold_left].
  { split; [intros ->; right; split; [done|constructor]|].
    intros [(b & q & a & H & _)|[-> _]]; [|done]. by destruct b. }
  rewrite IH, fmap_cons. destruct (strip_negation p) as [neg pat] eqn:Hp.
  unfold wildmat_pattern_matches. pose proof (matches_glob pat group) as Hm.
  assert (last_match_decides (strip_negation <$> ps) group ->
    last_match_decides ((neg, pat) :: (strip_negation <$> ps)) group) as Hmore.
  { intros (b & q & a & -> & Hq & Ha). by exists ((neg, pat) :: b), q, a. }
  rewrite Forall_cons_iff. cbn [snd]. destruct (matches_from pat group); split.
  - intros [H|[[= Hn] Ha]]; [by left; apply Hmore|].
    left. exists [], pat, (strip_negation <$> ps). destruct neg; [done|].
    split; [done|]. split; [by apply Hm|done].
  - intros [(b & q & a & Heq & Hq & Ha)|[_ [Hn _]]]; [|by destruct Hn; apply Hm].
    destruct b as [|x b]; [injection Heq as -> -> ->; by right|].
    injection Heq as <- ->. left. by exists b, q, a.
  - intros [H|[-> Ha]]; [by left; apply Hmore|]. right. split; [done|].
    split; [intros Hg%Hm; done|done].
  - intros [(b & q & a & Heq & Hq & Ha)|[-> [_ Ha]]]; [|by right].
    destruct b as [|x b]; [injection Heq as -> -> ->; by apply Hm in Hq|].
    injection Heq as <- ->. left. by exists b, q, a.
Qed.

(** C33: The matcher of the server decides the wildmat relation: both strings are
    UTF-8, and the last pattern of the list that matches the group, character by
    character, is not negated. *)
Theorem wildmat_matches_spec (patterns group : bytes) :
  wildmat_matches patterns group = true
  <-> is_str patterns /\ is_str group
      /\ last_match_decides (wildmat_patterns patterns) (chars group).
Proof.
  unfold wildmat_matches, is_str, wildmat_patterns, chars.
  destruct (from_utf8 patterns) as [ps|]; cbn [default].
  2: { split; [done|intros ([? [=]] & _)]. }
  destruct (from_utf8 group) as [g|]; cbn [default].
  2: { split; [done|intros (_ & [? [=]] & _)]. }
  transitivity (fold_left
    (fun matched pattern =>
       let '(negated, pattern) := strip_negation pattern in
       if wildmat_pattern_matches pattern g then Some (negb negated) else matched)
    (split_on (Z.eqb 44) ps) None = Some true).
  { destruct (fold_left _ _ _) as [[|]|]; split; (done || by intros [=]). }
  rewrite fold_last. split; [intros [H|[[=] _]]; eauto|intros (_ & _ & H); by left].
Qed.
