(* ===== verification/ServerResponses.v ===== *)
(** * The fixture responses of the server ([src/src/lib.rs])

    The byte strings the server answers with when it has no article store, and
    the functions that choose among them: groups and group listings, LIST
    variants, OVER and HDR selectors, navigation, NEWNEWS. *)
From S2P Require Import Prelude Utf8 Args Terminator Kinds RequestLine.
From S2P Require Import Text Wildmat ServerDates.

Local Open Scope Z_scope.

(** ** The constants *)

Definition GREETING : bytes := bstr "201 nntpbench mock server ready\r\n".
Definition MODE_READER_RESPONSE : bytes := bstr "201 posting not permitted\r\n".
Definition LIST_RESPONSE : bytes := bstr "215 list of newsgroups follows\r\ncomp.lang.rust 0000000001 0000000001 y\r\nalt.test 0000000003 0000000001 y\r\nempty.test 0000000000 0000000000 y\r\n.\r\n".
Definition LIST_ACTIVE_COMP_ALT_RESPONSE : bytes := bstr "215 list of newsgroups follows\r\ncomp.lang.rust 0000000001 0000000001 y\r\nalt.test 0000000003 0000000001 y\r\n.\r\n".
Definition LIST_ACTIVE_COMP_RESPONSE : bytes := bstr "215 list of newsgroups follows\r\ncomp.lang.rust 0000000001 0000000001 y\r\n.\r\n".
Definition LIST_ACTIVE_ALT_RESPONSE : bytes := bstr "215 list of newsgroups follows\r\nalt.test 0000000003 0000000001 y\r\n.\r\n".
Definition LIST_ACTIVE_EMPTY_GROUP_RESPONSE : bytes := bstr "215 list of newsgroups follows\r\nempty.test 0000000000 0000000000 y\r\n.\r\n".
Definition LIST_ACTIVE_COMP_EMPTY_GROUP_RESPONSE : bytes := bstr "215 list of newsgroups follows\r\ncomp.lang.rust 0000000001 0000000001 y\r\nempty.test 0000000000 0000000000 y\r\n.\r\n".
Definition LIST_ACTIVE_ALT_EMPTY_GROUP_RESPONSE : bytes := bstr "215 list of newsgroups follows\r\nalt.test 0000000003 0000000001 y\r\nempty.test 0000000000 0000000000 y\r\n.\r\n".
Definition LIST_EMPTY_RESPONSE : bytes := bstr "215 list of newsgroups follows\r\n.\r\n".
Definition LIST_ACTIVE_TIMES_RESPONSE : bytes := bstr "215 information follows\r\ncomp.lang.rust 1715904000 admin@nntpbench.local\r\nalt.test 1715907600 admin@nntpbench.local\r\nempty.test 1715911200 admin@nntpbench.local\r\n.\r\n".
Definition LIST_ACTIVE_TIMES_COMP_ALT_RESPONSE : bytes := bstr "215 information follows\r\ncomp.lang.rust 1715904000 admin@nntpbench.local\r\nalt.test 1715907600 admin@nntpbench.local\r\n.\r\n".
Definition LIST_ACTIVE_TIMES_COMP_RESPONSE : bytes := bstr "215 information follows\r\ncomp.lang.rust 1715904000 admin@nntpbench.local\r\n.\r\n".
Definition LIST_ACTIVE_TIMES_ALT_RESPONSE : bytes := bstr "215 information follows\r\nalt.test 1715907600 admin@nntpbench.local\r\n.\r\n".
Definition LIST_ACTIVE_TIMES_EMPTY_GROUP_RESPONSE : bytes := bstr "215 information follows\r\nempty.test 1715911200 admin@nntpbench.local\r\n.\r\n".
Definition LIST_ACTIVE_TIMES_COMP_EMPTY_GROUP_RESPONSE : bytes := bstr "215 information follows\r\ncomp.lang.rust 1715904000 admin@nntpbench.local\r\nempty.test 1715911200 admin@nntpbench.local\r\n.\r\n".
Definition LIST_ACTIVE_TIMES_ALT_EMPTY_GROUP_RESPONSE : bytes := bstr "215 information follows\r\nalt.test 1715907600 admin@nntpbench.local\r\nempty.test 1715911200 admin@nntpbench.local\r\n.\r\n".
Definition LIST_INFO_EMPTY_RESPONSE : bytes := bstr "215 information follows\r\n.\r\n".
Definition LIST_NEWSGROUPS_RESPONSE : bytes := bstr "215 information follows\r\ncomp.lang.rust The Rust programming language\r\nalt.test Synthetic benchmark group\r\nempty.test Empty synthetic benchmark group\r\n.\r\n".
Definition LIST_NEWSGROUPS_COMP_ALT_RESPONSE : bytes := bstr "215 information follows\r\ncomp.lang.rust The Rust programming language\r\nalt.test Synthetic benchmark group\r\n.\r\n".
Definition LIST_NEWSGROUPS_COMP_RESPONSE : bytes := bstr "215 information follows\r\ncomp.lang.rust The Rust programming language\r\n.\r\n".
Definition LIST_NEWSGROUPS_ALT_RESPONSE : bytes := bstr "215 information follows\r\nalt.test Synthetic benchmark group\r\n.\r\n".
Definition LIST_NEWSGROUPS_EMPTY_GROUP_RESPONSE : bytes := bstr "215 information follows\r\nempty.test Empty synthetic benchmark group\r\n.\r\n".
Definition LIST_NEWSGROUPS_COMP_EMPTY_GROUP_RESPONSE : bytes := bstr "215 information follows\r\ncomp.lang.rust The Rust programming language\r\nempty.test Empty synthetic benchmark group\r\n.\r\n".
Definition LIST_NEWSGROUPS_ALT_EMPTY_GROUP_RESPONSE : bytes := bstr "215 information follows\r\nalt.test Synthetic benchmark group\r\nempty.test Empty synthetic benchmark group\r\n.\r\n".
Definition LIST_OVERVIEW_FMT_RESPONSE : bytes := bstr "215 Order of fields in overview database\r\nSubject:\r\nFrom:\r\nDate:\r\nMessage-ID:\r\nReferences:\r\n:bytes\r\n:lines\r\n.\r\n".
Definition LIST_HEADERS_RESPONSE : bytes := bstr "215 headers supported\r\n:bytes\r\n:lines\r\nSubject\r\nFrom\r\nDate\r\nMessage-ID\r\nReferences\r\n.\r\n".
Definition LIST_DISTRIB_PATS_RESPONSE : bytes := bstr "215 distribution patterns\r\n1:*:world\r\n2:*.local:local\r\n.\r\n".
Definition GROUP_RESPONSE : bytes := bstr "211 3 1 3 alt.test\r\n".
Definition GROUP_COMP_RESPONSE : bytes := bstr "211 1 1 1 comp.lang.rust\r\n".
Definition GROUP_EMPTY_RESPONSE : bytes := bstr "211 0 0 0 empty.test\r\n".
Definition LISTGROUP_RESPONSE : bytes := bstr "211 3 1 3 alt.test\r\n1\r\n2\r\n3\r\n.\r\n".
Definition LISTGROUP_COMP_RESPONSE : bytes := bstr "211 1 1 1 comp.lang.rust\r\n1\r\n.\r\n".
Definition LISTGROUP_COMP_EMPTY_RESPONSE : bytes := bstr "211 1 1 1 comp.lang.rust\r\n.\r\n".
Definition LISTGROUP_EMPTY_GROUP_RESPONSE : bytes := bstr "211 0 0 0 empty.test\r\n.\r\n".
Definition LISTGROUP_EMPTY_RESPONSE : bytes := bstr "211 3 1 3 alt.test\r\n.\r\n".
Definition LISTGROUP_2_3_RESPONSE : bytes := bstr "211 3 1 3 alt.test\r\n2\r\n3\r\n.\r\n".
Definition LAST_RESPONSE : bytes := bstr "223 1 <prev@alt.test> article retrieved - request text separately\r\n".
Definition NEXT_RESPONSE : bytes := bstr "223 2 <next@alt.test> article retrieved - request text separately\r\n".
Definition NAVIGATION_ARTICLE_2_RESPONSE : bytes := bstr "223 2 <article.2@alt.test> article retrieved - request text separately\r\n".
Definition NAVIGATION_ARTICLE_3_RESPONSE : bytes := bstr "223 3 <article.3@alt.test> article retrieved - request text separately\r\n".
Definition NEWGROUPS_RESPONSE : bytes := bstr "231 list of new newsgroups follows\r\ncomp.lang.rust 0000000001 0000000001 y\r\nalt.test 0000000003 0000000001 y\r\nempty.test 0000000000 0000000000 y\r\n.\r\n".
Definition NEWGROUPS_EMPTY_RESPONSE : bytes := bstr "231 list of new newsgroups follows\r\n.\r\n".
Definition NEWNEWS_RESPONSE : bytes := bstr "230 list of new articles follows\r\n<one@alt.test>\r\n<two@alt.test>\r\n.\r\n".
Definition NEWNEWS_EMPTY_RESPONSE : bytes := bstr "230 list of new articles follows\r\n.\r\n".
Definition OVER_RESPONSE : bytes := bstr "224 Overview information follows\r\n1\tSubject one\tone@example.com\tFri, 16 May 2026 12:00:00 +0000\t<one@example.com>\t\t123\t4\r\n.\r\n".
Definition OVER_MESSAGE_ID_RESPONSE : bytes := bstr "224 Overview information follows\r\n0\tSubject one\tone@example.com\tFri, 16 May 2026 12:00:00 +0000\t<one@example.com>\t\t123\t4\r\n.\r\n".
Definition OVER_2_RESPONSE : bytes := bstr "224 Overview information follows\r\n2\tSubject two\ttwo@example.com\tFri, 16 May 2026 12:00:01 +0000\t<two@example.com>\t<ref@example.com>\t456\t8\r\n.\r\n".
Definition OVER_3_RESPONSE : bytes := bstr "224 Overview information follows\r\n3\tSubject three\tthree@example.com\tFri, 16 May 2026 12:00:02 +0000\t<three@example.com>\t<two@example.com>\t789\t12\r\n.\r\n".
Definition OVER_2_PLUS_RESPONSE : bytes := bstr "224 Overview information follows\r\n2\tSubject two\ttwo@example.com\tFri, 16 May 2026 12:00:01 +0000\t<two@example.com>\t<ref@example.com>\t456\t8\r\n3\tSubject three\tthree@example.com\tFri, 16 May 2026 12:00:02 +0000\t<three@example.com>\t<two@example.com>\t789\t12\r\n.\r\n".
Definition OVER_RANGE_RESPONSE : bytes := bstr "224 Overview information follows\r\n1\tSubject one\tone@example.com\tFri, 16 May 2026 12:00:00 +0000\t<one@example.com>\t\t123\t4\r\n2\tSubject two\ttwo@example.com\tFri, 16 May 2026 12:00:01 +0000\t<two@example.com>\t<ref@example.com>\t456\t8\r\n.\r\n".
Definition OVER_ALL_RESPONSE : bytes := bstr "224 Overview information follows\r\n1\tSubject one\tone@example.com\tFri, 16 May 2026 12:00:00 +0000\t<one@example.com>\t\t123\t4\r\n2\tSubject two\ttwo@example.com\tFri, 16 May 2026 12:00:01 +0000\t<two@example.com>\t<ref@example.com>\t456\t8\r\n3\tSubject three\tthree@example.com\tFri, 16 May 2026 12:00:02 +0000\t<three@example.com>\t<two@example.com>\t789\t12\r\n.\r\n".
Definition XOVER_RESPONSE : bytes := OVER_RANGE_RESPONSE.
Definition HDR_RESPONSE : bytes := bstr "225 headers follow\r\n1 example one\r\n2 example two\r\n.\r\n".
Definition HDR_SUBJECT_MESSAGE_ID_RESPONSE : bytes := bstr "225 headers follow\r\n0 example one\r\n.\r\n".
Definition HDR_SUBJECT_1_RESPONSE : bytes := bstr "225 headers follow\r\n1 example one\r\n.\r\n".
Definition HDR_SUBJECT_2_RESPONSE : bytes := bstr "225 headers follow\r\n2 example two\r\n.\r\n".
Definition HDR_SUBJECT_3_RESPONSE : bytes := bstr "225 headers follow\r\n3 example three\r\n.\r\n".
Definition HDR_SUBJECT_2_PLUS_RESPONSE : bytes := bstr "225 headers follow\r\n2 example two\r\n3 example three\r\n.\r\n".
Definition HDR_FROM_RESPONSE : bytes := bstr "225 headers follow\r\n1 one@example.com\r\n2 two@example.com\r\n.\r\n".
Definition HDR_FROM_MESSAGE_ID_RESPONSE : bytes := bstr "225 headers follow\r\n0 one@example.com\r\n.\r\n".
Definition HDR_FROM_1_RESPONSE : bytes := bstr "225 headers follow\r\n1 one@example.com\r\n.\r\n".
Definition HDR_FROM_2_RESPONSE : bytes := bstr "225 headers follow\r\n2 two@example.com\r\n.\r\n".
Definition HDR_FROM_3_RESPONSE : bytes := bstr "225 headers follow\r\n3 three@example.com\r\n.\r\n".
Definition HDR_FROM_2_PLUS_RESPONSE : bytes := bstr "225 headers follow\r\n2 two@example.com\r\n3 three@example.com\r\n.\r\n".
Definition HDR_DATE_RESPONSE : bytes := bstr "225 headers follow\r\n1 Fri, 16 May 2026 12:00:00 +0000\r\n2 Fri, 16 May 2026 12:00:01 +0000\r\n.\r\n".
Definition HDR_DATE_MESSAGE_ID_RESPONSE : bytes := bstr "225 headers follow\r\n0 Fri, 16 May 2026 12:00:00 +0000\r\n.\r\n".
Definition HDR_DATE_1_RESPONSE : bytes := bstr "225 headers follow\r\n1 Fri, 16 May 2026 12:00:00 +0000\r\n.\r\n".
Definition HDR_DATE_2_RESPONSE : bytes := bstr "225 headers follow\r\n2 Fri, 16 May 2026 12:00:01 +0000\r\n.\r\n".
Definition HDR_DATE_3_RESPONSE : bytes := bstr "225 headers follow\r\n3 Fri, 16 May 2026 12:00:02 +0000\r\n.\r\n".
Definition HDR_DATE_2_PLUS_RESPONSE : bytes := bstr "225 headers follow\r\n2 Fri, 16 May 2026 12:00:01 +0000\r\n3 Fri, 16 May 2026 12:00:02 +0000\r\n.\r\n".
Definition HDR_REFERENCES_RESPONSE : bytes := bstr "225 headers follow\r\n1 \r\n2 <ref@example.com>\r\n.\r\n".
Definition HDR_REFERENCES_MESSAGE_ID_RESPONSE : bytes := bstr "225 headers follow\r\n0 \r\n.\r\n".
Definition HDR_REFERENCES_1_RESPONSE : bytes := bstr "225 headers follow\r\n1 \r\n.\r\n".
Definition HDR_REFERENCES_2_RESPONSE : bytes := bstr "225 headers follow\r\n2 <ref@example.com>\r\n.\r\n".
Definition HDR_REFERENCES_3_RESPONSE : bytes := bstr "225 headers follow\r\n3 <two@example.com>\r\n.\r\n".
Definition HDR_REFERENCES_2_PLUS_RESPONSE : bytes := bstr "225 headers follow\r\n2 <ref@example.com>\r\n3 <two@example.com>\r\n.\r\n".
Definition XHDR_RESPONSE : bytes := bstr "221 headers follow\r\n1 example one\r\n2 example two\r\n.\r\n".
Definition XHDR_SUBJECT_MESSAGE_ID_RESPONSE : bytes := bstr "221 headers follow\r\n<one@example.com> example one\r\n.\r\n".
Definition XHDR_SUBJECT_1_RESPONSE : bytes := bstr "221 headers follow\r\n1 example one\r\n.\r\n".
Definition XHDR_SUBJECT_2_RESPONSE : bytes := bstr "221 headers follow\r\n2 example two\r\n.\r\n".
Definition XHDR_SUBJECT_3_RESPONSE : bytes := bstr "221 headers follow\r\n3 example three\r\n.\r\n".
Definition XHDR_SUBJECT_2_PLUS_RESPONSE : bytes := bstr "221 headers follow\r\n2 example two\r\n3 example three\r\n.\r\n".
Definition XHDR_FROM_RESPONSE : bytes := bstr "221 headers follow\r\n1 one@example.com\r\n2 two@example.com\r\n.\r\n".
Definition XHDR_FROM_MESSAGE_ID_RESPONSE : bytes := bstr "221 headers follow\r\n<one@example.com> one@example.com\r\n.\r\n".
Definition XHDR_FROM_1_RESPONSE : bytes := bstr "221 headers follow\r\n1 one@example.com\r\n.\r\n".
Definition XHDR_FROM_2_RESPONSE : bytes := bstr "221 headers follow\r\n2 two@example.com\r\n.\r\n".
Definition XHDR_FROM_3_RESPONSE : bytes := bstr "221 headers follow\r\n3 three@example.com\r\n.\r\n".
Definition XHDR_FROM_2_PLUS_RESPONSE : bytes := bstr "221 headers follow\r\n2 two@example.com\r\n3 three@example.com\r\n.\r\n".
Definition XHDR_DATE_RESPONSE : bytes := bstr "221 headers follow\r\n1 Fri, 16 May 2026 12:00:00 +0000\r\n2 Fri, 16 May 2026 12:00:01 +0000\r\n.\r\n".
Definition XHDR_DATE_MESSAGE_ID_RESPONSE : bytes := bstr "221 headers follow\r\n<one@example.com> Fri, 16 May 2026 12:00:00 +0000\r\n.\r\n".
Definition XHDR_DATE_1_RESPONSE : bytes := bstr "221 headers follow\r\n1 Fri, 16 May 2026 12:00:00 +0000\r\n.\r\n".
Definition XHDR_DATE_2_RESPONSE : bytes := bstr "221 headers follow\r\n2 Fri, 16 May 2026 12:00:01 +0000\r\n.\r\n".
Definition XHDR_DATE_3_RESPONSE : bytes := bstr "221 headers follow\r\n3 Fri, 16 May 2026 12:00:02 +0000\r\n.\r\n".
Definition XHDR_DATE_2_PLUS_RESPONSE : bytes := bstr "221 headers follow\r\n2 Fri, 16 May 2026 12:00:01 +0000\r\n3 Fri, 16 May 2026 12:00:02 +0000\r\n.\r\n".
Definition XHDR_REFERENCES_RESPONSE : bytes := bstr "221 headers follow\r\n1 \r\n2 <ref@example.com>\r\n.\r\n".
Definition XHDR_REFERENCES_MESSAGE_ID_RESPONSE : bytes := bstr "221 headers follow\r\n<one@example.com> \r\n.\r\n".
Definition XHDR_REFERENCES_1_RESPONSE : bytes := bstr "221 headers follow\r\n1 \r\n.\r\n".
Definition XHDR_REFERENCES_2_RESPONSE : bytes := bstr "221 headers follow\r\n2 <ref@example.com>\r\n.\r\n".
Definition XHDR_REFERENCES_3_RESPONSE : bytes := bstr "221 headers follow\r\n3 <two@example.com>\r\n.\r\n".
Definition XHDR_REFERENCES_2_PLUS_RESPONSE : bytes := bstr "221 headers follow\r\n2 <ref@example.com>\r\n3 <two@example.com>\r\n.\r\n".
Definition HDR_MESSAGE_ID_RESPONSE : bytes := bstr "225 headers follow\r\n1 <one@example.com>\r\n2 <two@example.com>\r\n.\r\n".
Definition HDR_MESSAGE_ID_MESSAGE_ID_RESPONSE : bytes := bstr "225 headers follow\r\n0 <one@example.com>\r\n.\r\n".
Definition HDR_MESSAGE_ID_1_RESPONSE : bytes := bstr "225 headers follow\r\n1 <one@example.com>\r\n.\r\n".
Definition HDR_MESSAGE_ID_2_RESPONSE : bytes := bstr "225 headers follow\r\n2 <two@example.com>\r\n.\r\n".
Definition HDR_MESSAGE_ID_3_RESPONSE : bytes := bstr "225 headers follow\r\n3 <three@example.com>\r\n.\r\n".
Definition HDR_MESSAGE_ID_2_PLUS_RESPONSE : bytes := bstr "225 headers follow\r\n2 <two@example.com>\r\n3 <three@example.com>\r\n.\r\n".
Definition HDR_BYTES_RESPONSE : bytes := bstr "225 headers follow\r\n1 123\r\n2 456\r\n.\r\n".
Definition HDR_BYTES_MESSAGE_ID_RESPONSE : bytes := bstr "225 headers follow\r\n0 123\r\n.\r\n".
Definition HDR_BYTES_1_RESPONSE : bytes := bstr "225 headers follow\r\n1 123\r\n.\r\n".
Definition HDR_BYTES_2_RESPONSE : bytes := bstr "225 headers follow\r\n2 456\r\n.\r\n".
Definition HDR_BYTES_3_RESPONSE : bytes := bstr "225 headers follow\r\n3 789\r\n.\r\n".
Definition HDR_BYTES_2_PLUS_RESPONSE : bytes := bstr "225 headers follow\r\n2 456\r\n3 789\r\n.\r\n".
Definition HDR_LINES_RESPONSE : bytes := bstr "225 headers follow\r\n1 4\r\n2 8\r\n.\r\n".
Definition HDR_LINES_MESSAGE_ID_RESPONSE : bytes := bstr "225 headers follow\r\n0 4\r\n.\r\n".
Definition HDR_LINES_1_RESPONSE : bytes := bstr "225 headers follow\r\n1 4\r\n.\r\n".
Definition HDR_LINES_2_RESPONSE : bytes := bstr "225 headers follow\r\n2 8\r\n.\r\n".
Definition HDR_LINES_3_RESPONSE : bytes := bstr "225 headers follow\r\n3 12\r\n.\r\n".
Definition HDR_LINES_2_PLUS_RESPONSE : bytes := bstr "225 headers follow\r\n2 8\r\n3 12\r\n.\r\n".
Definition XHDR_MESSAGE_ID_RESPONSE : bytes := bstr "221 headers follow\r\n1 <one@example.com>\r\n2 <two@example.com>\r\n.\r\n".
Definition XHDR_MESSAGE_ID_MESSAGE_ID_RESPONSE : bytes := bstr "221 headers follow\r\n<one@example.com> <one@example.com>\r\n.\r\n".
Definition XHDR_MESSAGE_ID_1_RESPONSE : bytes := bstr "221 headers follow\r\n1 <one@example.com>\r\n.\r\n".
Definition XHDR_MESSAGE_ID_2_RESPONSE : bytes := bstr "221 headers follow\r\n2 <two@example.com>\r\n.\r\n".
Definition XHDR_MESSAGE_ID_3_RESPONSE : bytes := bstr "221 headers follow\r\n3 <three@example.com>\r\n.\r\n".
Definition XHDR_MESSAGE_ID_2_PLUS_RESPONSE : bytes := bstr "221 headers follow\r\n2 <two@example.com>\r\n3 <three@example.com>\r\n.\r\n".
Definition XHDR_BYTES_RESPONSE : bytes := bstr "221 headers follow\r\n1 123\r\n2 456\r\n.\r\n".
Definition XHDR_BYTES_MESSAGE_ID_RESPONSE : bytes := bstr "221 headers follow\r\n<one@example.com> 123\r\n.\r\n".
Definition XHDR_BYTES_1_RESPONSE : bytes := bstr "221 headers follow\r\n1 123\r\n.\r\n".
Definition XHDR_BYTES_2_RESPONSE : bytes := bstr "221 headers follow\r\n2 456\r\n.\r\n".
Definition XHDR_BYTES_3_RESPONSE : bytes := bstr "221 headers follow\r\n3 789\r\n.\r\n".
Definition XHDR_BYTES_2_PLUS_RESPONSE : bytes := bstr "221 headers follow\r\n2 456\r\n3 789\r\n.\r\n".
Definition XHDR_LINES_RESPONSE : bytes := bstr "221 headers follow\r\n1 4\r\n2 8\r\n.\r\n".
Definition XHDR_LINES_MESSAGE_ID_RESPONSE : bytes := bstr "221 headers follow\r\n<one@example.com> 4\r\n.\r\n".
Definition XHDR_LINES_1_RESPONSE : bytes := bstr "221 headers follow\r\n1 4\r\n.\r\n".
Definition XHDR_LINES_2_RESPONSE : bytes := bstr "221 headers follow\r\n2 8\r\n.\r\n".
Definition XHDR_LINES_3_RESPONSE : bytes := bstr "221 headers follow\r\n3 12\r\n.\r\n".
Definition XHDR_LINES_2_PLUS_RESPONSE : bytes := bstr "221 headers follow\r\n2 8\r\n3 12\r\n.\r\n".
Definition HEAD_RESPONSE : bytes := bstr "221 1 <article.1@nntpbench.local> article retrieved\r\nPath: nntpbench.local!mock\r\nFrom: Bench User <bench@nntpbench.local>\r\nNewsgroups: alt.binaries.bench\r\nSubject: nntpbench synthetic article\r\nMessage-ID: <article.1@nntpbench.local>\r\nDate: Fri, 15 May 2026 00:00:00 +0000\r\n.\r\n".
Definition STAT_RESPONSE : bytes := bstr "223 1 <article.1@nntpbench.local> article retrieved\r\n".
Definition HELP_RESPONSE : bytes := bstr "100 help text follows\r\nARTICLE\r\nBODY\r\nCAPABILITIES\r\nDATE\r\nGROUP\r\nHDR\r\nHEAD\r\nHELP\r\nLAST\r\nLIST\r\nLISTGROUP\r\nMODE READER\r\nNEWGROUPS\r\nNEWNEWS\r\nNEXT\r\nOVER\r\nQUIT\r\nSTAT\r\nXHDR\r\nXOVER\r\n.\r\n".
Definition CAPABILITIES_RESPONSE : bytes := bstr "101 Capability list:\r\nVERSION 2\r\nREADER\r\nLIST ACTIVE ACTIVE.TIMES DISTRIB.PATS NEWSGROUPS OVERVIEW.FMT HEADERS\r\nOVER MSGID\r\nHDR\r\nNEWNEWS\r\n.\r\n".
Definition QUIT_RESPONSE : bytes := bstr "205 closing connection\r\n".
Definition BODY_RESPONSE_PREFIX : bytes := bstr "222 1 <article.1@nntpbench.local> body follows\r\n".
Definition ARTICLE_RESPONSE_PREFIX : bytes := bstr "220 1 <article.1@nntpbench.local> article follows\r\nPath: nntpbench.local!mock\r\nFrom: Bench User <bench@nntpbench.local>\r\nNewsgroups: alt.binaries.bench\r\nSubject: nntpbench synthetic article\r\nMessage-ID: <article.1@nntpbench.local>\r\nDate: Fri, 15 May 2026 00:00:00 +0000\r\n\r\n".

(** ** Fixture groups *)

Module FixtureGroup.
Inductive FixtureGroup : Type := AltTest | CompLangRust | EmptyTest.

Definition article_count (self : FixtureGroup) : Z :=
  match self with AltTest => 3 | CompLangRust => 1 | EmptyTest => 0 end.

Definition article_numbers (self : FixtureGroup) : list Z :=
  match self with AltTest => [1; 2; 3] | CompLangRust => [1] | EmptyTest => [] end.

Definition first_article (self : FixtureGroup) : option Z :=
  match self with AltTest | CompLangRust => Some 1 | EmptyTest => None end.

Definition name (self : FixtureGroup) : bytes :=
  match self with
  | AltTest => lit "alt.test"
  | CompLangRust => lit "comp.lang.rust"
  | EmptyTest => lit "empty.test"
  end.

#[export] Instance fixture_group_eq_dec : EqDecision FixtureGroup.
Proof. solve_decision. Defined.
End FixtureGroup.

Definition fixture_group_from_name (name : bytes) : option FixtureGroup.FixtureGroup :=
  if eq_ignore_ascii_case name (lit "alt.test") then Some FixtureGroup.AltTest
  else if eq_ignore_ascii_case name (lit "comp.lang.rust") then Some FixtureGroup.CompLangRust
  else if eq_ignore_ascii_case name (lit "empty.test") then Some FixtureGroup.EmptyTest
  else None.

Definition group_response_for_group (group : FixtureGroup.FixtureGroup) : bytes :=
  match group with
  | FixtureGroup.AltTest => GROUP_RESPONSE
  | FixtureGroup.CompLangRust => GROUP_COMP_RESPONSE
  | FixtureGroup.EmptyTest => GROUP_EMPTY_RESPONSE
  end.

Definition group_response_for_args (args : bytes) : bytes :=
  match fixture_group_from_name args with
  | Some group => group_response_for_group group
  | None => bstr "411 no such newsgroup\r\n"
  end.

(** ** Group listings *)

Definition listgroup_explicit_group_arg (args : bytes) : option bytes := first_command_arg args.

Definition listgroup_range_arg (args : bytes) : option bytes :=
  match listgroup_explicit_group_arg args with
  | Some _ => nth_command_arg args 1
  | None => None
  end.

Definition listgroup_range_bounds (range : bytes) : option (Z * option Z) :=
  match from_utf8 range with
  | None => None
  | Some _ =>
      match split_once HYPHEN range with
      | Some (start, end_) =>
          parse_u64 start ≫= fun start =>
          let end_ := if (length end_ =? 0)%nat then None else parse_u64 end_ in
          Some (start, end_)
      | None => parse_u64 range ≫= fun value => Some (value, Some value)
      end
  end.

Definition listgroup_range_selects_articles (range : bytes) (group : FixtureGroup.FixtureGroup)
    : bool :=
  match listgroup_range_bounds range with
  | None => false
  | Some (start, end_) =>
      let high := FixtureGroup.article_count group in
      let end_ := Z.min (default high end_) high in
      (start <=? end_) && (start <=? high)
  end.

Definition listgroup_range_starts_at_second (range : bytes) : bool :=
  match listgroup_range_bounds range with
  | Some (start, _) => start =? 2
  | None => false
  end.

(** [first.or(second)]. *)
Definition option_or {A} (first second : option A) : option A :=
  match first with Some _ => first | None => second end.

Definition listgroup_selected_group (args : bytes) (current_group : option FixtureGroup.FixtureGroup)
    : option FixtureGroup.FixtureGroup :=
  option_or (listgroup_explicit_group_arg args ≫= fixture_group_from_name) current_group.

Definition listgroup_response_for_args (args : bytes)
    (current_group : option FixtureGroup.FixtureGroup) : bytes :=
  if match listgroup_explicit_group_arg args with
     | Some group => match fixture_group_from_name group with None => true | Some _ => false end
     | None => false
     end
  then bstr "411 no such newsgroup\r\n"
  else
    let group := default FixtureGroup.AltTest (listgroup_selected_group args current_group) in
    let range := listgroup_range_arg args in
    match group with
    | FixtureGroup.EmptyTest => LISTGROUP_EMPTY_GROUP_RESPONSE
    | FixtureGroup.CompLangRust =>
        match range with
        | Some range =>
            if negb (listgroup_range_selects_articles range group)
            then LISTGROUP_COMP_EMPTY_RESPONSE else LISTGROUP_COMP_RESPONSE
        | None => LISTGROUP_COMP_RESPONSE
        end
    | FixtureGroup.AltTest =>
        match range with
        | Some range =>
            if negb (listgroup_range_selects_articles range group) then LISTGROUP_EMPTY_RESPONSE
            else if listgroup_range_starts_at_second range then LISTGROUP_2_3_RESPONSE
            else LISTGROUP_RESPONSE
        | None => LISTGROUP_RESPONSE
        end
    end.

Definition last_response_for_article (article_id : Z) : bytes :=
  if article_id =? 1 then LAST_RESPONSE
  else if article_id =? 2 then NAVIGATION_ARTICLE_2_RESPONSE
  else bstr "423 no article with that number\r\n".

Definition next_response_for_article (article_id : Z) : bytes :=
  if article_id =? 2 then NEXT_RESPONSE
  else if article_id =? 3 then NAVIGATION_ARTICLE_3_RESPONSE
  else bstr "423 no article with that number\r\n".

(** ** LIST variants *)

(** Which of the three fixture groups a wildmat selects; no wildmat selects all. *)
Definition group_matches (args name : bytes) : bool :=
  (length args =? 0)%nat || wildmat_matches args name.

Definition list_active_response (args : bytes) : bytes :=
  let matches_comp := group_matches args (lit "comp.lang.rust") in
  let matches_alt := group_matches args (lit "alt.test") in
  let matches_empty := group_matches args (lit "empty.test") in
  match matches_comp, matches_alt, matches_empty with
  | true, true, true => LIST_RESPONSE
  | true, true, false => LIST_ACTIVE_COMP_ALT_RESPONSE
  | true, false, true => LIST_ACTIVE_COMP_EMPTY_GROUP_RESPONSE
  | true, false, false => LIST_ACTIVE_COMP_RESPONSE
  | false, true, true => LIST_ACTIVE_ALT_EMPTY_GROUP_RESPONSE
  | false, true, false => LIST_ACTIVE_ALT_RESPONSE
  | false, false, true => LIST_ACTIVE_EMPTY_GROUP_RESPONSE
  | false, false, false => LIST_EMPTY_RESPONSE
  end.

Record ListInfoResponses : Type := {
  lir_full : bytes;
  lir_comp_alt : bytes;
  lir_comp : bytes;
  lir_alt : bytes;
  lir_empty : bytes;
  lir_comp_empty : bytes;
  lir_alt_empty : bytes;
}.

Definition LIST_ACTIVE_TIMES_RESPONSES : ListInfoResponses := {|
  lir_full := LIST_ACTIVE_TIMES_RESPONSE;
  lir_comp_alt := LIST_ACTIVE_TIMES_COMP_ALT_RESPONSE;
  lir_comp := LIST_ACTIVE_TIMES_COMP_RESPONSE;
  lir_alt := LIST_ACTIVE_TIMES_ALT_RESPONSE;
  lir_empty := LIST_ACTIVE_TIMES_EMPTY_GROUP_RESPONSE;
  lir_comp_empty := LIST_ACTIVE_TIMES_COMP_EMPTY_GROUP_RESPONSE;
  lir_alt_empty := LIST_ACTIVE_TIMES_ALT_EMPTY_GROUP_RESPONSE;
|}.

Definition LIST_NEWSGROUPS_RESPONSES : ListInfoResponses := {|
  lir_full := LIST_NEWSGROUPS_RESPONSE;
  lir_comp_alt := LIST_NEWSGROUPS_COMP_ALT_RESPONSE;
  lir_comp := LIST_NEWSGROUPS_COMP_RESPONSE;
  lir_alt := LIST_NEWSGROUPS_ALT_RESPONSE;
  lir_empty := LIST_NEWSGROUPS_EMPTY_GROUP_RESPONSE;
  lir_comp_empty := LIST_NEWSGROUPS_COMP_EMPTY_GROUP_RESPONSE;
  lir_alt_empty := LIST_NEWSGROUPS_ALT_EMPTY_GROUP_RESPONSE;
|}.

Definition list_info_response_for_groups (args : bytes) (responses : ListInfoResponses) : bytes :=
  let matches_comp := group_matches args (lit "comp.lang.rust") in
  let matches_alt := group_matches args (lit "alt.test") in
  let matches_empty := group_matches args (lit "empty.test") in
  match matches_comp, matches_alt, matches_empty with
  | true, true, true => lir_full responses
  | true, true, false => lir_comp_alt responses
  | true, false, true => lir_comp_empty responses
  | true, false, false => lir_comp responses
  | false, true, true => lir_alt_empty responses
  | false, true, false => lir_alt responses
  | false, false, true => lir_empty responses
  | false, false, false => LIST_INFO_EMPTY_RESPONSE
  end.

Definition list_active_times_response (args : bytes) : bytes :=
  list_info_response_for_groups args LIST_ACTIVE_TIMES_RESPONSES.

Definition list_newsgroups_response (args : bytes) : bytes :=
  list_info_response_for_groups args LIST_NEWSGROUPS_RESPONSES.

Definition split_command_arg_once (args : bytes) : option (bytes * bytes) :=
  let args := skip_command_ws args in
  match args with
  | [] => None
  | _ =>
      position is_command_ws args ≫= fun split =>
      Some (take split args, skip_command_ws (drop split args))
  end.

Definition strip_list_variant_args (args keyword : bytes) : bytes :=
  if eq_ignore_ascii_case args keyword then []
  else
    match split_command_arg_once args with
    | Some (first, rest) => if eq_ignore_ascii_case first keyword then rest else args
    | None => args
    end.

Definition list_variant_wildmat_args (kind : RequestKind.RequestKind) (args : bytes) : bytes :=
  match kind with
  | RequestKind.ListActive => strip_list_variant_args args (lit "ACTIVE")
  | RequestKind.ListActiveTimes => strip_list_variant_args args (lit "ACTIVE.TIMES")
  | RequestKind.ListNewsgroups => strip_list_variant_args args (lit "NEWSGROUPS")
  | _ => args
  end.

(** ** NEWNEWS *)

Definition FAR_FUTURE_DATETIME_KEY : Z := 99991231235959.

Definition newnews_response (args : bytes) (now : Z) : bytes :=
  if match newnews_datetime_key args now with
     | Some datetime => FAR_FUTURE_DATETIME_KEY <=? datetime
     | None => false
     end
  then NEWNEWS_EMPTY_RESPONSE
  else
    let wildmat := default [] (first_command_arg args) in
    if (length wildmat =? 0)%nat || wildmat_matches wildmat (lit "alt.test") then NEWNEWS_RESPONSE
    else NEWNEWS_EMPTY_RESPONSE.

(** ** Overview and header selectors *)

(** [option.is_some_and(p)]. *)
Definition is_some_and {A} (o : option A) (p : A -> bool) : bool :=
  match o with Some a => p a | None => false end.

Definition overview_selector_is_message_id (selector : bytes) : bool := starts_with selector (lit "<").

Definition overview_selector_requires_group (selector : bytes) : bool :=
  negb (starts_with selector (lit "<")).

Definition overview_selector_is_range (selector : bytes) : bool := existsb (Z.eqb HYPHEN) selector.

Definition overview_selector_range_covers (selector : bytes) (first last : Z) : bool :=
  match from_utf8 selector with
  | None => false
  | Some _ =>
      match split_once HYPHEN selector with
      | None => false
      | Some (start, end_) =>
          match parse_u64 start with
          | None => false
          | Some start =>
              match (if (length end_ =? 0)%nat then Some u64_max else parse_u64 end_) with
              | None => false
              | Some end_ => (start <=? first) && (last <=? end_)
              end
          end
      end
  end.

Definition overview_selector_includes_first_through_third (selector : bytes) : bool :=
  overview_selector_range_covers selector 1 3.
Definition overview_selector_includes_first_two (selector : bytes) : bool :=
  overview_selector_range_covers selector 1 2.
Definition overview_selector_includes_second_and_third (selector : bytes) : bool :=
  overview_selector_range_covers selector 2 3.

Definition overview_selector_selects_first_only (selector : bytes) : bool :=
  bytes_eqb selector (lit "1").

Definition overview_selector_selects_second_only (selector : bytes) : bool :=
  if bytes_eqb selector (lit "2") then true
  else is_some_and (listgroup_range_bounds selector)
         (fun '(start, end_) => (start =? 2) && bool_decide (end_ = Some 2)).

Definition overview_selector_selects_third_only (selector : bytes) : bool :=
  if bytes_eqb selector (lit "3") then true
  else is_some_and (listgroup_range_bounds selector)
         (fun '(start, end_) => (start =? 3) && bool_decide (end_ = Some 3)).

Definition overview_selector_range_selects_articles (selector : bytes) (articles : list Z) : bool :=
  match listgroup_range_bounds selector with
  | None => false
  | Some (start, end_) =>
      let end_ := default u64_max end_ in
      existsb (fun article => (start <=? article) && (article <=? end_)) articles
  end.

Definition overview_selector_arg (kind : RequestKind.RequestKind) (args : bytes) : option bytes :=
  match kind with
  | RequestKind.Over | RequestKind.Xover => if (length args =? 0)%nat then None else Some args
  | RequestKind.Hdr | RequestKind.Xhdr => nth_command_arg args 1
  | _ => None
  end.

Definition over_response_for_args (args : bytes) : bytes :=
  if overview_selector_is_message_id args then OVER_MESSAGE_ID_RESPONSE
  else if overview_selector_includes_first_through_third args then OVER_ALL_RESPONSE
  else if overview_selector_includes_first_two args then OVER_RANGE_RESPONSE
  else if overview_selector_includes_second_and_third args then OVER_2_PLUS_RESPONSE
  else if overview_selector_selects_second_only args then OVER_2_RESPONSE
  else if overview_selector_selects_third_only args then OVER_3_RESPONSE
  else OVER_RESPONSE.

Definition xover_response_for_args (args : bytes) : bytes :=
  if (length args =? 0)%nat then OVER_RESPONSE
  else if overview_selector_is_message_id args then OVER_MESSAGE_ID_RESPONSE
  else if overview_selector_includes_first_through_third args then OVER_ALL_RESPONSE
  else if overview_selector_includes_first_two args then OVER_RANGE_RESPONSE
  else if overview_selector_includes_second_and_third args then OVER_2_PLUS_RESPONSE
  else if overview_selector_selects_second_only args then OVER_2_RESPONSE
  else if overview_selector_selects_third_only args then OVER_3_RESPONSE
  else XOVER_RESPONSE.

(** ** HDR and XHDR *)

Definition header_query_name_from_args (args : bytes) : option bytes := first_command_arg args.

Definition SUPPORTED_HDR_FIELDS : list bytes :=
  [lit ":bytes"; lit ":lines"; lit "Subject"; lit "From"; lit "Date"; lit "Message-ID";
   lit "References"].

Definition hdr_field_is_supported (field : bytes) : bool :=
  existsb (fun supported => eq_ignore_ascii_case field supported) SUPPORTED_HDR_FIELDS.

(** The ladder of tests every header goes through, with its six answers. *)
Definition response_for_selector (selector : option bytes)
    (message_id first second_and_third second third otherwise : bytes) : bytes :=
  if is_some_and selector overview_selector_is_message_id then message_id
  else if is_some_and selector overview_selector_selects_first_only then first
  else if is_some_and selector overview_selector_includes_second_and_third then second_and_third
  else if is_some_and selector overview_selector_selects_second_only then second
  else if is_some_and selector overview_selector_selects_third_only then third
  else otherwise.

Definition hdr_from_response_for_selector (selector : option bytes) : bytes :=
  response_for_selector selector HDR_FROM_MESSAGE_ID_RESPONSE HDR_FROM_1_RESPONSE
    HDR_FROM_2_PLUS_RESPONSE HDR_FROM_2_RESPONSE HDR_FROM_3_RESPONSE
    HDR_FROM_RESPONSE.

Definition hdr_date_response_for_selector (selector : option bytes) : bytes :=
  response_for_selector selector HDR_DATE_MESSAGE_ID_RESPONSE HDR_DATE_1_RESPONSE
    HDR_DATE_2_PLUS_RESPONSE HDR_DATE_2_RESPONSE HDR_DATE_3_RESPONSE
    HDR_DATE_RESPONSE.

Definition hdr_references_response_for_selector (selector : option bytes) : bytes :=
  response_for_selector selector HDR_REFERENCES_MESSAGE_ID_RESPONSE HDR_REFERENCES_1_RESPONSE
    HDR_REFERENCES_2_PLUS_RESPONSE HDR_REFERENCES_2_RESPONSE HDR_REFERENCES_3_RESPONSE
    HDR_REFERENCES_RESPONSE.

Definition hdr_response_for_args (args : bytes) : bytes :=
  let selector := overview_selector_arg RequestKind.Hdr args in
  let subject :=
      response_for_selector selector HDR_SUBJECT_MESSAGE_ID_RESPONSE HDR_SUBJECT_1_RESPONSE
        HDR_SUBJECT_2_PLUS_RESPONSE HDR_SUBJECT_2_RESPONSE HDR_SUBJECT_3_RESPONSE HDR_RESPONSE in
  match header_query_name_from_args args with
  | None => subject
  | Some header =>
      if eq_ignore_ascii_case header (lit "Message-ID") then
        response_for_selector selector HDR_MESSAGE_ID_MESSAGE_ID_RESPONSE HDR_MESSAGE_ID_1_RESPONSE
        HDR_MESSAGE_ID_2_PLUS_RESPONSE HDR_MESSAGE_ID_2_RESPONSE HDR_MESSAGE_ID_3_RESPONSE HDR_MESSAGE_ID_RESPONSE
      else if eq_ignore_ascii_case header (lit "From") then
        hdr_from_response_for_selector selector
      else if eq_ignore_ascii_case header (lit "Date") then
        hdr_date_response_for_selector selector
      else if eq_ignore_ascii_case header (lit "References") then
        hdr_references_response_for_selector selector
      else if eq_ignore_ascii_case header (lit ":bytes") then
        response_for_selector selector HDR_BYTES_MESSAGE_ID_RESPONSE HDR_BYTES_1_RESPONSE
        HDR_BYTES_2_PLUS_RESPONSE HDR_BYTES_2_RESPONSE HDR_BYTES_3_RESPONSE HDR_BYTES_RESPONSE
      else if eq_ignore_ascii_case header (lit ":lines") then
        response_for_selector selector HDR_LINES_MESSAGE_ID_RESPONSE HDR_LINES_1_RESPONSE
        HDR_LINES_2_PLUS_RESPONSE HDR_LINES_2_RESPONSE HDR_LINES_3_RESPONSE HDR_LINES_RESPONSE
      else subject
  end.

Definition xhdr_from_response_for_selector (selector : option bytes) : bytes :=
  response_for_selector selector XHDR_FROM_MESSAGE_ID_RESPONSE XHDR_FROM_1_RESPONSE
    XHDR_FROM_2_PLUS_RESPONSE XHDR_FROM_2_RESPONSE XHDR_FROM_3_RESPONSE
    XHDR_FROM_RESPONSE.

Definition xhdr_date_response_for_selector (selector : option bytes) : bytes :=
  response_for_selector selector XHDR_DATE_MESSAGE_ID_RESPONSE XHDR_DATE_1_RESPONSE
    XHDR_DATE_2_PLUS_RESPONSE XHDR_DATE_2_RESPONSE XHDR_DATE_3_RESPONSE
    XHDR_DATE_RESPONSE.

Definition xhdr_references_response_for_selector (selector : option bytes) : bytes :=
  response_for_selector selector XHDR_REFERENCES_MESSAGE_ID_RESPONSE XHDR_REFERENCES_1_RESPONSE
    XHDR_REFERENCES_2_PLUS_RESPONSE XHDR_REFERENCES_2_RESPONSE XHDR_REFERENCES_3_RESPONSE
    XHDR_REFERENCES_RESPONSE.

Definition xhdr_response_for_args (args : bytes) : bytes :=
  let selector := overview_selector_arg RequestKind.Xhdr args in
  let subject :=
      response_for_selector selector XHDR_SUBJECT_MESSAGE_ID_RESPONSE XHDR_SUBJECT_1_RESPONSE
        XHDR_SUBJECT_2_PLUS_RESPONSE XHDR_SUBJECT_2_RESPONSE XHDR_SUBJECT_3_RESPONSE XHDR_RESPONSE in
  match header_query_name_from_args args with
  | None => subject
  | Some header =>
      if eq_ignore_ascii_case header (lit "Message-ID") then
        response_for_selector selector XHDR_MESSAGE_ID_MESSAGE_ID_RESPONSE XHDR_MESSAGE_ID_1_RESPONSE
        XHDR_MESSAGE_ID_2_PLUS_RESPONSE XHDR_MESSAGE_ID_2_RESPONSE XHDR_MESSAGE_ID_3_RESPONSE XHDR_MESSAGE_ID_RESPONSE
      else if eq_ignore_ascii_case header (lit "From") then
        xhdr_from_response_for_selector selector
      else if eq_ignore_ascii_case header (lit "Date") then
        xhdr_date_response_for_selector selector
      else if eq_ignore_ascii_case header (lit "References") then
        xhdr_references_response_for_selector selector
      else if eq_ignore_ascii_case header (lit ":bytes") then
        response_for_selector selector XHDR_BYTES_MESSAGE_ID_RESPONSE XHDR_BYTES_1_RESPONSE
        XHDR_BYTES_2_PLUS_RESPONSE XHDR_BYTES_2_RESPONSE XHDR_BYTES_3_RESPONSE XHDR_BYTES_RESPONSE
      else if eq_ignore_ascii_case header (lit ":lines") then
        response_for_selector selector XHDR_LINES_MESSAGE_ID_RESPONSE XHDR_LINES_1_RESPONSE
        XHDR_LINES_2_PLUS_RESPONSE XHDR_LINES_2_RESPONSE XHDR_LINES_3_RESPONSE XHDR_LINES_RESPONSE
      else subject
  end.

(** The selector a command without one stands for: the current article. *)
Definition current_article_selector_args (current_article : option Z) : option bytes :=
  match current_article with
  | Some 1 => Some (lit "1")
  | Some 2 => Some (lit "2")
  | Some 3 => Some (lit "3")
  | _ => None
  end.

Definition current_overview_args (args : bytes) (current_article : option Z) : option bytes :=
  if (length args =? 0)%nat then current_article_selector_args current_article else None.

(** The table of the source spells each field and number out. *)
Definition CURRENT_HEADER_FIELDS : list bytes :=
  [lit "Subject"; lit "From"; lit "Date"; lit "Message-ID"; lit "References"; lit ":bytes";
   lit ":lines"].

Definition current_header_args (args : bytes) (current_article : option Z) : option bytes :=
  if negb (command_arg_count args =? 1)%nat then None
  else
    current_article_selector_args current_article ≫= fun current =>
    if existsb (bytes_eqb args) CURRENT_HEADER_FIELDS
    then Some (args ++ lit " " ++ current) else None.
