(* ===== verification/OrderedMap.v ===== *)
(** * Ordered maps, sorting and binary search of the standard library

    [BTreeMap] as the list of its entries in key order, over a class of ordered
    keys; [sort_unstable] with [dedup]; [binary_search] on a slice. *)
From S2P Require Import Prelude.
From stdpp Require Import sorting.

Local Open Scope Z_scope.

(** ** Ordered keys *)

(** [Ord]: a total order whose equality is Leibniz equality. *)
Class Ordered (K : Type) := {
  cmp : K -> K -> comparison;
  cmp_eq a b : cmp a b = Eq <-> a = b;
  cmp_opp a b : cmp b a = CompOpp (cmp a b);
  cmp_trans a b c : cmp a b = Lt -> cmp b c = Lt -> cmp a c = Lt;
}.

#[export] Instance z_ordered : Ordered Z.
Proof.
  refine {| cmp := Z.compare |}.
  - apply Z.compare_eq_iff.
  - intros a b. apply Z.compare_antisym.
  - intros a b c. rewrite !Z.compare_lt_iff. lia.
Defined.

(** Strings compare by their bytes. *)
Fixpoint bytes_compare (a b : bytes) : comparison :=
  match a, b with
  | [], [] => Eq
  | [], _ :: _ => Lt
  | _ :: _, [] => Gt
  | x :: a, y :: b => match x ?= y with Eq => bytes_compare a b | c => c end
  end.

#[export] Instance bytes_ordered : Ordered bytes.
Proof.
  refine {| cmp := bytes_compare |}.
  - induction a as [|x a IH]; intros [|y b]; cbn; try done.
    destruct (Z.compare_spec x y) as [->|H|H].
    + rewrite IH. split; [by intros ->|by intros [= ->]].
    + split; [done|]. intros [= -> _]. lia.
    + split; [done|]. intros [= -> _]. lia.
  - induction a as [|x a IH]; intros [|y b]; cbn; try done.
    rewrite (Z.compare_antisym x y). destruct (x ?= y); cbn; [apply IH|done|done].
  - induction a as [|x a IH]; intros [|y b] [|z c]; cbn; try done.
    destruct (x ?= y) eqn:E1, (y ?= z) eqn:E2; try done.
    + apply Z.compare_eq_iff in E1 as ->. rewrite E2. apply IH.
    + apply Z.compare_eq_iff in E1 as ->. by rewrite E2.
    + apply Z.compare_eq_iff in E2 as ->. by rewrite E1.
    + rewrite Z.compare_lt_iff in E1, E2. intros _ _.
      by rewrite (proj2 (Z.compare_lt_iff x z)) by lia.
Defined.

(** ** [BTreeMap] *)

Section map.
Context {K : Type} `{!Ordered K} {V : Type}.

Abbreviation btree := (list (K * V)).

Fixpoint btree_get (m : btree) (k : K) : option V :=
  match m with
  | [] => None
  | (k', v) :: m' => match cmp k k' with Eq => Some v | _ => btree_get m' k end
  end.

Fixpoint btree_insert (k : K) (v : V) (m : btree) : btree :=
  match m with
  | [] => [(k, v)]
  | (k', v') :: m' =>
      match cmp k k' with
      | Lt => (k, v) :: m
      | Eq => (k, v) :: m'
      | Gt => (k', v') :: btree_insert k v m'
      end
  end.

(** The entries are in key order. *)
Definition key_lt (a b : K * V) : Prop := cmp (fst a) (fst b) = Lt.
Definition ordered (m : btree) : Prop := StronglySorted key_lt m.

Lemma cmp_refl k : cmp k k = Eq.
Proof. by apply cmp_eq. Qed.

Lemma cmp_gt_lt a b : cmp a b = Gt -> cmp b a = Lt.
Proof. intros H. by rewrite cmp_opp, H. Qed.

Lemma btree_get_insert k v m k' :
  btree_get (btree_insert k v m) k'
  = match cmp k' k with Eq => Some v | _ => btree_get m k' end.
Proof.
  induction m as [|[k0 v0] m IH]; cbn [btree_insert btree_get]; [done|].
  destruct (cmp k k0) eqn:E; cbn [btree_get]; [|done|].
  - apply cmp_eq in E as ->. by destruct (cmp k' k0).
  - rewrite IH. destruct (cmp k' k0) eqn:E0; [|done|done].
    apply cmp_eq in E0 as ->. by rewrite (cmp_opp k k0), E.
Qed.

Lemma btree_insert_lt k v m a :
  Forall (key_lt a) m -> cmp (fst a) k = Lt -> Forall (key_lt a) (btree_insert k v m).
Proof.
  induction 1 as [|[k0 v0] m H Hm IH]; intros Hk; cbn [btree_insert]; [by repeat constructor|].
  destruct (cmp k k0); repeat (constructor; try done). by apply IH.
Qed.

Lemma btree_insert_ordered k v m : ordered m -> ordered (btree_insert k v m).
Proof.
  unfold ordered. induction 1 as [|[k0 v0] m Hm IH Hall]; cbn [btree_insert].
  { repeat constructor. }
  destruct (cmp k k0) eqn:E.
  - apply cmp_eq in E as ->. by constructor.
  - constructor; [by constructor|]. constructor; [done|].
    eapply List.Forall_impl; [|exact Hall]. intros [k1 v1] H. by apply (cmp_trans k k0 k1).
  - constructor; [done|]. apply btree_insert_lt; [done|]. by apply cmp_gt_lt.
Qed.

(** Looking a key up finds its entry, the only one with the key. *)
Lemma btree_get_In m k v : ordered m -> btree_get m k = Some v <-> In (k, v) m.
Proof.
  unfold ordered. induction 1 as [|[k0 v0] m Hm IH Hall]; cbn [btree_get In]; [by split|].
  rewrite List.Forall_forall in Hall. destruct (cmp k k0) eqn:E.
  - apply cmp_eq in E as ->. split; [intros [= ->]; by left|].
    intros [[= ->]|Hin]; [done|]. specialize (Hall _ Hin). unfold key_lt in Hall. cbn in Hall.
    by rewrite cmp_refl in Hall.
  - rewrite IH. split; [by right|]. intros [[= -> ->]|]; [|done]. by rewrite cmp_refl in E.
  - rewrite IH. split; [by right|]. intros [[= -> ->]|]; [|done]. by rewrite cmp_refl in E.
Qed.

Lemma ordered_values {W} (f : K -> V -> W) m :
  ordered m -> StronglySorted (fun a b => cmp (fst a) (fst b) = Lt)
    ((fun e => (fst e, f (fst e) (snd e))) <$> m).
Proof.
  unfold ordered. induction 1 as [|[k v] m Hm IH Hall]; [constructor|].
  rewrite fmap_cons. constructor; [done|]. by apply Forall_fmap.
Qed.
End map.

(** ** Sorting a list of numbers *)

(** [dedup]: of equal neighbours the first is kept. *)
Fixpoint dedup (l : list Z) : list Z :=
  match l with
  | [] => []
  | x :: l' =>
      match dedup l' with
      | [] => [x]
      | y :: rest => if x =? y then x :: rest else x :: y :: rest
      end
  end.

(** [sort_unstable] on numbers: equal elements cannot be told apart. *)
Definition sort_unstable (l : list Z) : list Z := merge_sort Z.le l.

Definition increasing (l : list Z) : Prop := StronglySorted Z.lt l.

Lemma dedup_In l x : In x (dedup l) <-> In x l.
Proof.
  induction l as [|y l IH]; [done|]. cbn [dedup In]. rewrite <- IH.
  destruct (dedup l) as [|z rest]; [done|].
  destruct (Z.eqb_spec y z) as [->|]; cbn [In]; tauto.
Qed.

Lemma dedup_increasing l : StronglySorted Z.le l -> increasing (dedup l).
Proof.
  unfold increasing. induction 1 as [|x l Hl IH Hall]; [constructor|]. cbn [dedup].
  destruct (dedup l) as [|y rest] eqn:E; [by repeat constructor|].
  assert (forall z, In z (y :: rest) -> x <= z) as Hle.
  { intros z Hz. rewrite <- E in Hz. apply (proj1 (dedup_In l z)) in Hz.
    rewrite List.Forall_forall in Hall. by apply Hall. }
  inversion IH as [|? ? Hrest Hy]; subst. rewrite List.Forall_forall in Hy.
  destruct (Z.eqb_spec x y) as [->|Hne].
  - constructor; [done|]. by apply List.Forall_forall.
  - constructor; [done|]. apply List.Forall_forall. intros z [<-|Hz].
    + specialize (Hle y (or_introl eq_refl)). lia.
    + specialize (Hy z Hz). specialize (Hle y (or_introl eq_refl)). lia.
Qed.

Lemma sort_unstable_In l x : In x (sort_unstable l) <-> In x l.
Proof.
  unfold sort_unstable. rewrite <- !list_elem_of_In. by rewrite (merge_sort_Permutation Z.le l).
Qed.

Lemma sort_dedup_increasing l : increasing (dedup (sort_unstable l)).
Proof. apply dedup_increasing, StronglySorted_merge_sort; apply _. Qed.

Lemma increasing_NoDup l : increasing l -> NoDup l.
Proof.
  unfold increasing. induction 1 as [|x l _ IH Hall]; constructor; [|done].
  intros Hin%list_elem_of_In. rewrite List.Forall_forall in Hall. specialize (Hall x Hin). lia.
Qed.

(** ** Binary search *)

(** The interval halves in every round; the length is enough. *)
Fixpoint binary_search_loop (fuel : nat) (l : list Z) (lo hi : nat) (x : Z) : option nat :=
  match fuel with
  | O => None
  | S fuel' =>
      if (lo <? hi)%nat then
        let mid := (lo + (hi - lo) / 2)%nat in
        match l !! mid with
        | None => None
        | Some y =>
            match y ?= x with
            | Eq => Some mid
            | Lt => binary_search_loop fuel' l (S mid) hi x
            | Gt => binary_search_loop fuel' l lo mid x
            end
        end
      else None
  end.

Definition binary_search (l : list Z) (x : Z) : option nat :=
  binary_search_loop (S (length l)) l 0 (length l) x.

Lemma increasing_lookup l i j a b :
  increasing l -> l !! i = Some a -> l !! j = Some b -> (i < j)%nat -> a < b.
Proof.
  unfold increasing. intros Hl. revert i j. induction Hl as [|x l _ IH Hall]; intros i j Hi Hj Hij; [done|].
  destruct j as [|j]; [lia|]. destruct i as [|i].
  - injection Hi as ->. cbn in Hj. rewrite List.Forall_forall in Hall. apply Hall.
    apply list_elem_of_In. by apply list_elem_of_lookup_2 in Hj.
  - cbn in Hi, Hj. apply (IH i j); (done || lia).
Qed.

Lemma binary_search_loop_spec fuel l lo hi x :
  increasing l -> (hi <= length l)%nat -> (hi - lo < fuel)%nat ->
  (forall i, l !! i = Some x -> (lo <= i < hi)%nat) ->
  match binary_search_loop fuel l lo hi x with
  | Some i => l !! i = Some x
  | None => forall i, l !! i <> Some x
  end.
Proof.
  intros Hl. revert lo hi. induction fuel as [|fuel IH]; intros lo hi Hhi Hf Hin; [lia|].
  cbn [binary_search_loop]. destruct (Nat.ltb_spec lo hi) as [Hlt|Hge].
  - set (mid := (lo + (hi - lo) / 2)%nat).
    assert (lo <= mid < hi)%nat as Hmid.
    { unfold mid. pose proof (Nat.div_lt (hi - lo) 2 ltac:(lia) ltac:(lia)). lia. }
    destruct (l !! mid) as [y|] eqn:Ey; [|apply lookup_ge_None in Ey; lia].
    destruct (Z.compare_spec y x) as [->|Hlt'|Hgt]; [done| |].
    + apply IH; [lia|lia|]. intros i Hi. specialize (Hin i Hi). split; [|lia].
      destruct (Nat.le_gt_cases (S mid) i); [done|]. destruct (Nat.eq_dec i mid) as [->|];
        [rewrite Ey in Hi; injection Hi; lia|].
      pose proof (increasing_lookup l i mid x y Hl Hi Ey ltac:(lia)). lia.
    + apply IH; [lia|lia|]. intros i Hi. specialize (Hin i Hi). split; [lia|].
      destruct (Nat.le_gt_cases mid i); [|done]. destruct (Nat.eq_dec i mid) as [->|];
        [rewrite Ey in Hi; injection Hi; lia|].
      pose proof (increasing_lookup l mid i y x Hl Ey Hi ltac:(lia)). lia.
  - intros i Hi. specialize (Hin i Hi). lia.
Qed.

(** On an increasing slice the search finds the element where it is. *)
Lemma binary_search_spec l x i :
  increasing l -> binary_search l x = Some i <-> l !! i = Some x.
Proof.
  intros Hl. unfold binary_search.
  pose proof (binary_search_loop_spec (S (length l)) l 0 (length l) x Hl ltac:(lia) ltac:(lia)) as H.
  specialize (H ltac:(intros j Hj; apply lookup_lt_Some in Hj; lia)).
  destruct (binary_search_loop _ _ _ _ _) as [j|].
  - split; [by intros [= <-]|]. intros Hi. f_equal.
    apply (NoDup_lookup l j i x); [by apply increasing_NoDup|done|done].
  - split; [done|]. intros Hi. by destruct (H i).
Qed.

Lemma binary_search_found l x : increasing l -> is_Some (binary_search l x) <-> In x l.
Proof.
  intros Hl. split.
  - intros [i Hi%binary_search_spec]; [|done]. apply list_elem_of_In. by apply list_elem_of_lookup_2 in Hi.
  - intros Hin%list_elem_of_In. apply list_elem_of_lookup_1 in Hin as [i Hi].
    exists i. by apply binary_search_spec.
Qed.
