(* ===== verification/ArticleDates.v ===== *)
(** * Dates of stored articles ([src/src/lib.rs])

    [parse_rfc2822_date_key]: the Date header of a stored article as seconds
    since the epoch.  The build checks overflow, so the sum of the hours,
    minutes and seconds panics when it leaves [u32]. *)
From S2P Require Import Prelude Utf8 Decimal Terminator Text ServerDates.

Local Open Scope Z_scope.

Definition MONTHS : list bytes :=
  [lit "Jan"; lit "Feb"; lit "Mar"; lit "Apr"; lit "May"; lit "Jun"; lit "Jul"; lit "Aug";
   lit "Sep"; lit "Oct"; lit "Nov"; lit "Dec"].

Definition month_number (month : list Z) : option Z :=
  (fun i => Z.of_nat i + 1) <$> position (bytes_eqb month) MONTHS.

(** [str::len]: the bytes of the characters. *)
Definition char_len (ch : Z) : nat :=
  if ch <? 128 then 1 else if ch <? 2048 then 2 else if ch <? 65536 then 3 else 4.
Definition chars_len (cs : list Z) : nat := fold_right (fun ch n => char_len ch + n)%nat 0%nat cs.

(** A suffix taken off when it is there. *)
Definition without_suffix (value suffix : list Z) : list Z := default value (strip_suffix value suffix).

(** The offset of the time zone in seconds; the inner [None] rejects it. *)
Definition zone_offset (tz : list Z) : option Z :=
  if eq_ignore_ascii_case tz (lit "GMT") || bytes_eqb tz (lit "+0000") then Some 0
  else
    match tz with
    | [] => None
    | first :: digits =>
        sign ← (if first =? 43 then Some 1 else if first =? 45 then Some (-1) else None);
        if negb (chars_len tz =? 5)%nat || negb (forallb is_ascii_digit digits) then None
        else
          hours ← parse_i32 (take 2 digits);
          minutes ← parse_i32 (slice digits 2 4);
          Some (sign * (hours * 3600 + minutes * 60))
    end.

(** [hour * 3600 + minute * 60 + second] in [u32]; [None] is the panic. *)
Definition u32_in_range (z : Z) : bool := z <=? 4294967295.
Definition seconds_of_time (hour minute second : Z) : option Z :=
  if u32_in_range (hour * 3600) && u32_in_range (minute * 60)
     && u32_in_range (hour * 3600 + minute * 60)
     && u32_in_range (hour * 3600 + minute * 60 + second)
  then Some (hour * 3600 + minute * 60 + second) else None.

(** The words of the value after the trimming. *)
Definition date_words (value : list Z) : list (list Z) :=
  let value := trim_chars value in
  let value := without_suffix value (lit " GMT") in
  let value := without_suffix value (lit " UTC") in
  split_whitespace value.

(** Day, month, year, time and zone of a date. *)
Definition date_fields (words : list (list Z)) : option (bytes * bytes * bytes * bytes * bytes) :=
  first ← head words;
  let words := tail words in
  words' ← (if ends_with first (lit ",") then
              match words with day :: rest => Some (day, rest) | [] => None end
            else Some (first, words));
  let '(day, words) := words' in
  match words with
  | [month; year; time] => Some (day, month, year, time, lit "+0000")
  | [month; year; time; tz] => Some (day, month, year, time, tz)
  | _ => None
  end.

Definition time_fields (time : list Z) : option (Z * Z * Z) :=
  match split_on (Z.eqb 58) time with
  | [hour; minute; second] =>
      hour ← parse_u32 hour;
      minute ← parse_u32 minute;
      second ← parse_u32 second;
      Some (hour, minute, second)
  | _ => None
  end.

(** The outer [None] is the panic, the inner one the rejected date. *)
Definition parse_rfc2822_date_key (value : bytes) : option (option Z) :=
  match
    (value ← from_utf8 value;
     fields ← date_fields (date_words value);
     let '(day, month, year, time, tz) := fields in
     day ← parse_u32 day;
     month ← month_number month;
     year ← parse_i32 year;
     time ← time_fields time;
     offset_seconds ← zone_offset tz;
     days ← days_from_civil year month (as_i32 day);
     seconds ← i64_checked_mul days 86400;
     Some (seconds, time, offset_seconds))
  with
  | None => Some None
  | Some (seconds, (hour, minute, second), offset_seconds) =>
      time ← seconds_of_time hour minute second;
      Some (seconds ← i64_checked_add seconds time;
            let seconds := seconds - offset_seconds in
            if 0 <=? seconds then Some seconds else None)
  end.
