(* ===== verification/ServerCommands.v ===== *)
(** * Reading and parsing commands on the server ([src/src/lib.rs])

    From the bytes of a connection to a batch of parsed commands: the buffered
    reader ([BufReader]), the line readers, the transfer bodies that follow
    TAKETHIS, POST and IHAVE, the record of the lines of a batch
    ([CommandLineBatch]) and [parse_command_line] with its fast path. *)
From S2P Require Import Prelude Utf8 Memchr Args Terminator Kinds RequestLine ClientWire.
From S2P Require Import Text ServerDates.

Local Open Scope Z_scope.
Local Open Scope rust_scope.

(** ** Parsed commands *)

Record ParsedMessageId : Type := { pm_start : nat; pm_len : nat }.

Record ParsedCommand : Type := {
  pc_kind : RequestKind.RequestKind;
  pc_article_id : option Z;
  pc_line_slot : nat;
  pc_message_id : option ParsedMessageId;
  pc_syntax_error : bool;
  pc_authinfo_sasl_base64_error : bool;
  pc_has_transfer_body : bool;
  pc_line_too_long : bool;
}.

#[export] Instance parsed_message_id_eq_dec : EqDecision ParsedMessageId.
Proof. solve_decision. Defined.
#[export] Instance parsed_command_eq_dec : EqDecision ParsedCommand.
Proof. solve_decision. Defined.

Definition MAX_COMMAND_LINE_BYTES : nat := MAX_AUTHINFO_SASL_COMMAND_LINE_BYTES.
Definition MAX_SERVER_PIPELINE_DEPTH : nat := 1024.

(** [try_into().ok()] and [try_into().unwrap_or(MAX)] to the narrow widths. *)
Definition u16_try_from (n : nat) : option nat := if (Z.of_nat n <=? 65535) then Some n else None.
Definition u16_or_max (n : nat) : nat := default (Z.to_nat 65535) (u16_try_from n).
Definition u32_or_max (n : nat) : nat :=
  if Z.of_nat n <=? 4294967295 then n else Z.to_nat 4294967295.

(** ** The lines of a batch *)

Record CommandLineSpan : Type := { cs_start : nat; cs_len : nat }.

(** One buffer for all lines; capacities are left out. *)
Record CommandLineBatch : Type := { cl_bytes : bytes; cl_lines : list CommandLineSpan }.

Definition command_lines_empty : CommandLineBatch := {| cl_bytes := []; cl_lines := [] |}.

Definition command_lines_clear (self : CommandLineBatch) : CommandLineBatch :=
  {| cl_bytes := []; cl_lines := [] |}.

Definition copy_line (self : CommandLineBatch) (slot : nat) (line : bytes) : CommandLineBatch :=
  let start := length (cl_bytes self) in
  {| cl_bytes := cl_bytes self ++ line;
     cl_lines := cl_lines self
       ++ [{| cs_start := u32_or_max start; cs_len := u16_or_max (length line) |}] |}.

(** Indexing out of range panics; a slot of the batch is always in range. *)
Definition line_of (self : CommandLineBatch) (slot : nat) : option bytes :=
  span ← cl_lines self !! slot;
  let start := cs_start span in
  let end_ := (start + cs_len span)%nat in
  Some (slice (cl_bytes self) start end_).

Definition line_slice (self : CommandLineBatch) (slot start len : nat) : option bytes :=
  line ← line_of self slot;
  Some (slice line start (start + len)).

(** ** Parsing one line *)

Definition parse_article_id_arg (args : bytes) : option Z :=
  _ ← from_utf8 args;
  let arg := trim args in
  if (length arg =? 0)%nat || existsb (fun byte => negb (is_ascii_digit byte)) arg then None
  else parse_u64 arg.

Definition message_id_is_valid_bytes (value : bytes) : bool :=
  ((3 <=? length value)%nat && (length value <=? 250)%nat)
  && bool_decide (head value = Some 60)
  && bool_decide (list.last value = Some 62)
  && forallb (fun byte => in_range 33 61 byte || in_range 63 126 byte)
       (slice value 1 (length value - 1)).

Definition parse_fast_article_message_id_command (line : bytes) (line_slot : nat)
    : option ParsedCommand :=
  line ← strip_suffix line CRLF;
  message_id ← strip_prefix line (lit "ARTICLE ");
  if negb (message_id_is_valid_bytes message_id) then None
  else
    line_slot ← u16_try_from line_slot;
    start ← u16_try_from (length (lit "ARTICLE "));
    len ← u16_try_from (length message_id);
    Some {| pc_kind := RequestKind.Article; pc_article_id := None; pc_line_slot := line_slot;
            pc_message_id := Some {| pm_start := start; pm_len := len |};
            pc_syntax_error := false; pc_authinfo_sasl_base64_error := false;
            pc_has_transfer_body := false; pc_line_too_long := false |}.

Definition authinfo_sasl_initial_response_base64_error (verb args : bytes) : bool :=
  if negb (eq_ignore_ascii_case verb (lit "AUTHINFO")) then false
  else
    match command_tokens args with
    | [subcommand; mechanism; initial_response] =>
        eq_ignore_ascii_case subcommand (lit "SASL")
        && is_ok (validate_sasl_mechanism mechanism)
        && negb (is_ok (validate_sasl_base64 initial_response))
    | _ => false
    end.

(** [strip_complete_crlf_line(line).unwrap_or(line)]. *)
Definition line_content (line : bytes) : bytes := default line (strip_complete_crlf_line line).

Definition trim_command_eol_ws (line : bytes) : bytes :=
  let end_ := match rposition (fun byte => negb (is_command_ws byte)) line with
              | Some index => S index
              | None => 0%nat
              end in
  take end_ line.

Definition line_is_authinfo_sasl (line : bytes) : bool :=
  let line := trim_command_eol_ws (line_content line) in
  match command_tokens line with
  | command :: subcommand :: _ =>
      eq_ignore_ascii_case command (lit "AUTHINFO") && eq_ignore_ascii_case subcommand (lit "SASL")
  | _ => false
  end.

Definition command_argument_len (line : bytes) : option nat :=
  let line := trim_command_eol_ws (line_content line) in
  split ← position is_command_ws line;
  Some (length (skip_command_ws (drop split line))).

(** What the line readers put in place of a line that does not fit. *)
Definition TOO_LONG_LINE : bytes := bstr "DATE too-long\n".

Definition command_line_is_too_long (line : bytes) : bool :=
  bytes_eqb line TOO_LONG_LINE
  || (((MAX_INITIAL_RESPONSE_LINE_BYTES <? length line)%nat
       || match command_argument_len line with
          | Some len => (MAX_COMMAND_ARGUMENT_BYTES <? len)%nat
          | None => false
          end)
      && negb (line_is_authinfo_sasl line)).

(** The word a line starts with. *)
Definition line_verb (line : bytes) : bytes :=
  let verb_end := default (length line) (position is_ascii_whitespace line) in
  take verb_end line.

Definition KNOWN_COMMANDS : list bytes :=
  [lit "ARTICLE"; lit "AUTHINFO"; lit "BODY"; lit "CAPABILITIES"; lit "CHECK"; lit "DATE";
   lit "GROUP"; lit "HDR"; lit "HEAD"; lit "HELP"; lit "IHAVE"; lit "LAST"; lit "LIST";
   lit "LISTGROUP"; lit "MODE"; lit "NEWGROUPS"; lit "NEWNEWS"; lit "NEXT"; lit "OVER";
   lit "POST"; lit "QUIT"; lit "STARTTLS"; lit "STAT"; lit "TAKETHIS"; lit "XHDR"; lit "XOVER"].

Definition is_known_command_line (line : bytes) : bool :=
  let verb := line_verb (line_content line) in
  existsb (fun known => eq_ignore_ascii_case verb known) KNOWN_COMMANDS.

Definition is_known_request_syntax_error (request : RequestLine) : bool :=
  RequestKind.eqb (rl_kind request) RequestKind.Unknown
  && (is_known_command_line (verb request)
      || negb (request_line_has_valid_generic_command_syntax request)).

(** [parsed_message_id_range]: the message-id of the arguments, by its distance
    from the start of the line.  The source subtracts the two pointers; the
    arguments are the end of the line without its CRLF and trailing space. *)
Definition parsed_message_id_range (line : bytes) (request : RequestLine) : option ParsedMessageId :=
  _ ← request_line_message_id request;
  range ← find_message_id (args request);
  let args_start := (length (strip_command_eol_ws (line_content line)) - length (args request))%nat in
  let start := (args_start + fst range)%nat in
  let len := (snd range - fst range)%nat in
  if (length line <? start + len)%nat then None
  else
    start ← u16_try_from start;
    len ← u16_try_from len;
    Some {| pm_start := start; pm_len := len |}.

(** The command as [RequestLine::parse] sees it. *)
Definition parse_request_command (line : bytes) (line_slot : nat) : ParsedCommand :=
  let request := parse line in
  {| pc_kind := rl_kind request;
     pc_article_id := parse_article_id_arg (args request);
     pc_line_slot := u16_or_max line_slot;
     pc_message_id := parsed_message_id_range line request;
     pc_syntax_error :=
       RequestKind.eqb (rl_kind request) RequestKind.Unknown
       && (is_known_command_line line || negb (command_line_has_valid_generic_syntax line));
     pc_authinfo_sasl_base64_error :=
       authinfo_sasl_initial_response_base64_error (verb request) (args request);
     pc_has_transfer_body := false;
     pc_line_too_long := command_line_is_too_long line |}.

Definition parse_command_line (line : bytes) (line_slot : nat) : ParsedCommand :=
  match parse_fast_article_message_id_command line line_slot with
  | Some command => command
  | None => parse_request_command line line_slot
  end.

(** The message-id and the arguments of a command, from its line. *)
Definition command_message_id_bytes (command : ParsedCommand) (command_lines : CommandLineBatch)
    : option bytes :=
  message_id ← pc_message_id command;
  line_slice command_lines (pc_line_slot command) (pm_start message_id) (pm_len message_id).

Definition command_message_id (command : ParsedCommand) (command_lines : CommandLineBatch)
    : option bytes :=
  value ← command_message_id_bytes command command_lines;
  _ ← from_utf8 value;
  Some value.

Definition command_args (command : ParsedCommand) (command_lines : option CommandLineBatch)
    : option bytes :=
  command_lines ← command_lines;
  line ← line_of command_lines (pc_line_slot command);
  let line := line_content line in
  split ← position is_command_ws line;
  Some (skip_command_ws (drop split line)).

(** ** The buffered reader *)

(** tokio's [BufReader]: the bytes read and not yet consumed, and what the next
    reads of the connection give.  An empty read is the end of the stream. *)
Record BufReader : Type := { br_buffer : bytes; br_source : list (result bytes IoError) }.

Definition fill_buf (reader : BufReader) : result bytes IoError * BufReader :=
  match br_buffer reader with
  | _ :: _ => (Ok (br_buffer reader), reader)
  | [] =>
      match br_source reader with
      | [] => (Ok [], reader)
      | Ok data :: source => (Ok data, {| br_buffer := data; br_source := source |})
      | Err e :: source => (Err e, {| br_buffer := []; br_source := source |})
      end
  end.

Definition consume (reader : BufReader) (n : nat) : BufReader :=
  {| br_buffer := drop n (br_buffer reader); br_source := br_source reader |}.

(** What is still to be read, the deliveries counted too. *)
Definition input_size (reader : BufReader) : nat :=
  (length (br_buffer reader)
   + length (concat ((fun d => match d with Ok data => data | Err _ => [] end) <$> br_source reader))
   + length (br_source reader))%nat.

Definition truncated_line : IoError :=
  {| io_kind := ErrorKind.UnexpectedEof; io_message := lit "truncated line" |}.

Section reading.
Context `{Mc : !Memchr}.

Definition read_buffered_crlf_line_into (reader : BufReader) : option (bytes * BufReader) :=
  let available := br_buffer reader in
  take_ ← find_crlf_line_end available 0;
  if (MAX_COMMAND_LINE_BYTES <? take_)%nat then Some (TOO_LONG_LINE, consume reader take_)
  else Some (take take_ available, consume reader take_).

(** Every round but the last consumes a whole delivery, so the fuel of
    [read_crlf_line_into], two more than the deliveries, is enough. *)
Fixpoint read_crlf_line_loop (fuel : nat) (line : bytes) (reader : BufReader)
    : result (option bytes) IoError * BufReader :=
  match fuel with
  | O => (Ok None, reader)
  | S fuel' =>
      match fill_buf reader with
      | (Err e, reader) => (Err e, reader)
      | (Ok available, reader) =>
          if (length available =? 0)%nat then
            if (length line =? 0)%nat then (Ok None, reader) else (Err truncated_line, reader)
          else
            let take_ := match memchr LF available with
                         | Some index => S index
                         | None => length available
                         end in
            if (MAX_COMMAND_LINE_BYTES <? length line + take_)%nat
            then (Ok (Some TOO_LONG_LINE), consume reader take_)
            else
              let line := line ++ take take_ available in
              let reader := consume reader take_ in
              if ends_with line [LF] then (Ok (Some line), reader)
              else read_crlf_line_loop fuel' line reader
      end
  end.

Definition read_crlf_line_into (reader : BufReader) : result (option bytes) IoError * BufReader :=
  read_crlf_line_loop (S (S (length (br_source reader)))) [] reader.
End reading.

(** ** Transfer bodies *)

Module TakeThisBodyState.
Inductive TakeThisBodyState : Type := LineStart | LineStartDot | LineStartDotCr | Line | LineCr.

#[export] Instance takethis_body_state_eq_dec : EqDecision TakeThisBodyState.
Proof. solve_decision. Defined.
End TakeThisBodyState.
Export (hints) TakeThisBodyState.

(** One byte of a body: the next state, the end, or the complaint. *)
Inductive BodyStep : Type :=
| BodyGoes (state : TakeThisBodyState.TakeThisBodyState)
| BodyEnds
| BodyMissingCrlf
| BodyNotStuffed.

Definition body_step (state : TakeThisBodyState.TakeThisBodyState) (byte : Z) : BodyStep :=
  match state with
  | TakeThisBodyState.LineStart =>
      if byte =? DOT then BodyGoes TakeThisBodyState.LineStartDot
      else if byte =? CR then BodyGoes TakeThisBodyState.LineCr
      else if byte =? LF then BodyMissingCrlf
      else BodyGoes TakeThisBodyState.Line
  | TakeThisBodyState.LineStartDot =>
      if byte =? CR then BodyGoes TakeThisBodyState.LineStartDotCr
      else if byte =? DOT then BodyGoes TakeThisBodyState.Line
      else if byte =? LF then BodyMissingCrlf
      else BodyNotStuffed
  | TakeThisBodyState.LineStartDotCr => if byte =? LF then BodyEnds else BodyMissingCrlf
  | TakeThisBodyState.Line =>
      if byte =? CR then BodyGoes TakeThisBodyState.LineCr
      else if byte =? LF then BodyMissingCrlf
      else BodyGoes TakeThisBodyState.Line
  | TakeThisBodyState.LineCr =>
      if byte =? LF then BodyGoes TakeThisBodyState.LineStart else BodyMissingCrlf
  end.

Module TransferBodyScan.
Inductive TransferBodyScan : Type := Complete (end_ : nat) | Incomplete | Invalid.
End TransferBodyScan.

Fixpoint scan_body_loop (state : TakeThisBodyState.TakeThisBodyState) (at_ : nat) (slice : bytes)
    : TransferBodyScan.TransferBodyScan :=
  match slice with
  | [] => TransferBodyScan.Incomplete
  | byte :: slice =>
      match body_step state byte with
      | BodyGoes state => scan_body_loop state (S at_) slice
      | BodyEnds => TransferBodyScan.Complete (S at_)
      | BodyMissingCrlf | BodyNotStuffed => TransferBodyScan.Invalid
      end
  end.

Definition scan_dot_terminated_body (data : bytes) (start : nat) : TransferBodyScan.TransferBodyScan :=
  match get_from data start with
  | None => TransferBodyScan.Incomplete
  | Some slice => scan_body_loop TakeThisBodyState.LineStart start slice
  end.

Definition truncated_body : IoError :=
  {| io_kind := ErrorKind.UnexpectedEof; io_message := lit "truncated TAKETHIS body" |}.
Definition body_missing_crlf : IoError :=
  {| io_kind := ErrorKind.InvalidData;
     io_message := lit "TAKETHIS body line missing CRLF terminator" |}.
Definition body_not_stuffed : IoError :=
  {| io_kind := ErrorKind.InvalidData; io_message := lit "TAKETHIS body line must be dot-stuffed" |}.

(** The bytes of one delivery: how many are consumed, and how it goes on. *)
Fixpoint body_delivery (state : TakeThisBodyState.TakeThisBodyState) (consumed : nat)
    (available : bytes) : nat * result (option TakeThisBodyState.TakeThisBodyState) IoError :=
  match available with
  | [] => (consumed, Ok (Some state))
  | byte :: available =>
      let consumed := S consumed in
      match body_step state byte with
      | BodyGoes state => body_delivery state consumed available
      | BodyEnds => (consumed, Ok None)
      | BodyMissingCrlf => (consumed, Err body_missing_crlf)
      | BodyNotStuffed => (consumed, Err body_not_stuffed)
      end
  end.

Fixpoint read_body_loop (fuel : nat) (state : TakeThisBodyState.TakeThisBodyState)
    (reader : BufReader) : result unit IoError * BufReader :=
  match fuel with
  | O => (Err truncated_body, reader)
  | S fuel' =>
      match fill_buf reader with
      | (Err e, reader) => (Err e, reader)
      | (Ok available, reader) =>
          if (length available =? 0)%nat then (Err truncated_body, reader)
          else
            let '(consumed, outcome) := body_delivery state 0 available in
            let reader := consume reader consumed in
            match outcome with
            | Err e => (Err e, reader)
            | Ok None => (Ok tt, reader)
            | Ok (Some state) => read_body_loop fuel' state reader
            end
      end
  end.

Definition read_dot_terminated_body (reader : BufReader) : result unit IoError * BufReader :=
  read_body_loop (S (S (length (br_source reader)))) TakeThisBodyState.LineStart reader.

Definition is_known_transfer_command (line verb : bytes) : bool :=
  eq_ignore_ascii_case (line_verb (line_content line)) verb.

Definition COLON : Z := 58.

(** [line.split(b'\n').next()]: up to the first line feed. *)
Definition first_line_of (buffer : bytes) : bytes := hd [] (split_on (Z.eqb LF) buffer).

Definition is_transfer_request (kind : RequestKind.RequestKind) (line : bytes) : bool :=
  match kind with RequestKind.Post | RequestKind.Ihave => true | _ => false end
  || is_known_transfer_command line (lit "POST")
  || is_known_transfer_command line (lit "IHAVE").

Definition is_takethis_request (kind : RequestKind.RequestKind) (line : bytes) : bool :=
  RequestKind.eqb kind RequestKind.TakeThis || is_known_transfer_command line (lit "TAKETHIS").

Definition should_read_transfer_body (reader : BufReader) (line : bytes) (command : ParsedCommand)
    : bool :=
  if is_takethis_request (pc_kind command) line then true
  else if negb (is_transfer_request (pc_kind command) line) then false
  else existsb (Z.eqb COLON) (first_line_of (br_buffer reader)).

(** ** Batches *)

Definition set_transfer_body (command : ParsedCommand) : ParsedCommand :=
  {| pc_kind := pc_kind command; pc_article_id := pc_article_id command;
     pc_line_slot := pc_line_slot command; pc_message_id := pc_message_id command;
     pc_syntax_error := pc_syntax_error command;
     pc_authinfo_sasl_base64_error := pc_authinfo_sasl_base64_error command;
     pc_has_transfer_body := true; pc_line_too_long := pc_line_too_long command |}.

(** The commands read so far and their lines. *)
Record Batch : Type := { ba_commands : list ParsedCommand; ba_lines : CommandLineBatch }.

Definition push_command (reader : BufReader) (line : bytes) (batch : Batch)
    : result Batch IoError * BufReader :=
  let line_slot := length (ba_commands batch) in
  let command := parse_command_line line line_slot in
  let lines := copy_line (ba_lines batch) line_slot line in
  if should_read_transfer_body reader line command then
    match read_dot_terminated_body reader with
    | (Err e, reader) => (Err e, reader)
    | (Ok _, reader) =>
        (Ok {| ba_commands := ba_commands batch ++ [set_transfer_body command]; ba_lines := lines |},
         reader)
    end
  else (Ok {| ba_commands := ba_commands batch ++ [command]; ba_lines := lines |}, reader).

Section batches.
Context `{Mc : !Memchr}.

(** Every round pushes a command, so the pipeline depth bounds the rounds. *)
Fixpoint read_buffered_commands (fuel : nat) (batch : Batch) (reader : BufReader)
    : result Batch IoError * BufReader :=
  match fuel with
  | O => (Ok batch, reader)
  | S fuel' =>
      match read_buffered_crlf_line_into reader with
      | None => (Ok batch, reader)
      | Some (line, reader) =>
          match push_command reader line batch with
          | (Err e, reader) => (Err e, reader)
          | (Ok batch, reader) => read_buffered_commands fuel' batch reader
          end
      end
  end.

Definition empty_batch : Batch := {| ba_commands := []; ba_lines := command_lines_empty |}.

(** [None] when the client is gone. *)
Definition read_command_batch (reader : BufReader) (max_pipeline_depth : nat)
    : result (option Batch) IoError * BufReader :=
  match read_crlf_line_into reader with
  | (Err e, reader) => (Err e, reader)
  | (Ok None, reader) => (Ok None, reader)
  | (Ok (Some line), reader) =>
      match push_command reader line empty_batch with
      | (Err e, reader) => (Err e, reader)
      | (Ok batch, reader) =>
          match read_buffered_commands (max_pipeline_depth - length (ba_commands batch)) batch reader with
          | (Err e, reader) => (Err e, reader)
          | (Ok batch, reader) => (Ok (Some batch), reader)
          end
      end
  end.
End batches.

(** ** Batches in a buffer *)

Definition next_batch_line_contains_colon (input : bytes) (start : nat) : bool :=
  match get_from input start with
  | None => false
  | Some rest =>
      let line_end := match position (Z.eqb LF) rest with
                      | Some index => S index
                      | None => length rest
                      end in
      existsb (Z.eqb COLON) (take line_end rest)
  end.

(** [for_each_request_line_in_batch]: the requests visited and where it stops. *)
Fixpoint request_lines_loop (fuel : nat) (input : bytes) (start : nat) (visited : list RequestLine)
    : list RequestLine * nat :=
  match fuel with
  | O => (visited, start)
  | S fuel' =>
      match detect_response_line_end_from input start with
      | ResponseLineStatus.CompleteAt end_ =>
          let line := slice input start end_ in
          let request := parse line in
          let takethis := is_takethis_request (rl_kind request) line in
          let posted_body :=
            is_transfer_request (rl_kind request) line && next_batch_line_contains_colon input end_ in
          if takethis || posted_body then
            match scan_dot_terminated_body input end_ with
            | TransferBodyScan.Complete body_end =>
                request_lines_loop fuel' input body_end (visited ++ [request])
            | _ => (visited, start)
            end
          else request_lines_loop fuel' input end_ (visited ++ [request])
      | _ => (visited, start)
      end
  end.

Definition for_each_request_line_in_batch (input : bytes) (max_pipeline_depth : nat)
    : list RequestLine * nat :=
  request_lines_loop max_pipeline_depth input 0 [].
