(* ===== verification/ServerParsing.v ===== *)
(** * What the server makes of a command line

    The fast path of [parse_command_line] agrees with the parser, a batch gives
    back every line it copied, and the commands the client writes are parsed
    back with their kind, article number and message-id. *)
From S2P Require Import Prelude Utf8 Decimal Memchr Args Terminator Kinds Requests RequestLine.
From S2P Require Import RequestWire ClientWire Text ServerDates ServerCommands.

Local Open Scope Z_scope.
Local Open Scope rust_scope.

(** ** Message-ids in a line *)

Lemma message_id_visible m : message_id_shape m -> Forall visible m.
Proof.
  intros (inner & -> & _ & Hi). apply Forall_app. split; [by repeat constructor|].
  apply Forall_app. split; [|by repeat constructor].
  rewrite forallb_forall in Hi. apply List.Forall_forall. intros b Hb.
  apply Hi, message_id_byte_spec in Hb. unfold visible. lia.
Qed.

Lemma visible_not_whitespace b : visible b -> is_ascii_whitespace b = false.
Proof. unfold visible, is_ascii_whitespace. intros. lia. Qed.

Lemma visible_plain_arg l : l <> [] -> Forall visible l -> plain_arg l.
Proof.
  intros Hne Hl. split; [done|]. eapply Forall_impl; [|exact Hl]. unfold visible. intros. lia.
Qed.

Lemma visible_str l : Forall visible l -> is_str l.
Proof.
  intros Hl. apply is_str_ascii. eapply Forall_impl; [|exact Hl].
  unfold visible, is_ascii_byte. intros. lia.
Qed.

Lemma fast_message_id m : message_id_is_valid_bytes m = true <-> message_id_shape m.
Proof.
  split.
  - unfold message_id_is_valid_bytes. intros H. apply andb_true_iff in H as [H Hb].
    apply andb_true_iff in H as [H Hlast]. apply andb_true_iff in H as [H Hhead].
    apply andb_true_iff in H as [Hl1 Hl2]. apply Nat.leb_le in Hl1, Hl2.
    apply bool_decide_eq_true in Hhead, Hlast. destruct m as [|x m]; [done|].
    injection Hhead as ->. destruct m as [|y m _] using rev_ind; [cbn in Hl1; lia|].
    rewrite app_comm_cons, last_snoc in Hlast. injection Hlast as ->.
    change (60 :: m ++ [62]) with (lit "<" ++ m ++ lit ">") in *. rewrite slice_inner in Hb.
    exists m. split; [done|]. rewrite !length_app in Hl1, Hl2. cbn in Hl1, Hl2. split; [lia|done].
  - intros (inner & -> & Hl & Hi). unfold message_id_is_valid_bytes. rewrite slice_inner.
    rewrite !length_app. cbn [length].
    rewrite (proj2 (Nat.leb_le _ _)) by (cbn; lia). rewrite (proj2 (Nat.leb_le _ _)) by (cbn; lia).
    change (lit ">") with [62]. rewrite app_assoc, last_snoc.
    by rewrite (Hi : forallb (fun byte => in_range 33 61 byte || in_range 63 126 byte) inner = true).
Qed.

(** A message-id is found in arguments that are just it. *)
Lemma find_message_id_whole m :
  message_id_shape m -> find_message_id m = Some (0%nat, length m).
Proof.
  intros Hm. pose proof (message_id_visible m Hm) as Hv.
  assert (Forall (fun b => negb (is_ascii_whitespace b) = true) m) as Hnw.
  { eapply Forall_impl; [|exact Hv]. intros b Hb. by rewrite visible_not_whitespace. }
  assert (exists b k, m = b :: k) as (b0 & k0 & E0).
  { destruct Hm as (inner & -> & _). by eexists _, _. }
  assert (position (fun byte => negb (is_ascii_whitespace byte)) m = Some 0%nat) as Hpos.
  { rewrite E0 in *. cbn [position]. apply Forall_cons_1 in Hnw as [-> _]. done. }
  assert (rposition (fun byte => negb (is_ascii_whitespace byte)) m = Some (length m - 1)%nat) as Hrpos.
  { unfold rposition. destruct m as [|z m' _] using rev_ind; [done|]. rewrite rev_unit. cbn [position].
    apply Forall_app in Hnw as [_ Hz]. apply Forall_cons_1 in Hz as [-> _]. cbn. by rewrite length_app. }
  unfold find_message_id. rewrite Hpos. cbn [mbind option_bind]. rewrite Hrpos.
  cbn [mbind option_bind]. replace (S (length m - 1)) with (length m) by (rewrite E0; cbn; lia).
  assert (slice m 0 (length m) = m) as ->.
  { unfold slice. rewrite drop_0, Nat.sub_0_r. apply firstn_all. }
  assert (starts_with m (lit "<") = true /\ ends_with m (lit ">") = true) as [-> ->].
  { destruct Hm as (inner & -> & _). split; [apply starts_with_app|].
    rewrite app_assoc. apply ends_with_app. }
  assert (existsb is_ascii_whitespace (slice m 1 (length m - 1)) = false) as ->.
  { apply existsb_false_Forall. unfold slice. apply Forall_take, Forall_drop.
    eapply Forall_impl; [|exact Hv]. apply visible_not_whitespace. }
  cbn [negb orb]. destruct (visible_str m Hv) as [cs ->]. cbn [mbind option_bind].
  unfold message_id_from_borrowed.
  by rewrite (proj2 (validate_message_id_shape m) Hm).
Qed.

Lemma request_message_id_whole k v m :
  message_id_shape m -> request_line_message_id (Build_RequestLine k v m) = Some m.
Proof.
  intros Hm. unfold request_line_message_id. cbn [args]. rewrite find_message_id_whole by done.
  cbn [mbind option_bind fst snd].
  assert (slice m 0 (length m) = m) as ->.
  { unfold slice. rewrite drop_0, Nat.sub_0_r. apply firstn_all. }
  destruct (visible_str m (message_id_visible m Hm)) as [cs ->]. cbn [mbind option_bind].
  unfold message_id_from_borrowed. by rewrite (proj2 (validate_message_id_shape m) Hm).
Qed.

(** ** Lines of the client *)

Lemma wire_line_content v a :
  plain_arg v -> args_ok a ->
  line_content (wire_line v a) = v ++ match a with [] => [] | _ => SP :: a end.
Proof.
  intros Hv Ha. unfold line_content, wire_line.
  by rewrite app_assoc, strip_complete_crlf_plain by by apply wire_body_plain.
Qed.

Lemma wire_content_trim v a :
  plain_arg v -> args_ok a ->
  strip_command_eol_ws (line_content (wire_line v a)) = line_content (wire_line v a)
  /\ trim_command_eol_ws (line_content (wire_line v a)) = line_content (wire_line v a).
Proof.
  intros Hv Ha. rewrite wire_line_content by done.
  destruct (wire_body_last v a Hv Ha) as (l & y & -> & Hy).
  pose proof (strip_eol_ws_none l y Hy) as H. split; [exact H|].
  unfold strip_command_eol_ws, trim_command_eol_ws in *.
  destruct (rposition _ _); [exact H|done].
Qed.

Lemma wire_argument_len v a :
  plain_arg v -> args_ok a ->
  command_argument_len (wire_line v a)
  = match a with [] => None | _ => Some (length a) end.
Proof.
  intros Hv Ha. unfold command_argument_len. rewrite (proj2 (wire_content_trim v a Hv Ha)).
  rewrite wire_line_content by done. pose proof (plain_arg_not_ws v Hv) as Hnw.
  destruct a as [|b a'].
  - rewrite app_nil_r. by rewrite (proj2 (position_None _ _) Hnw).
  - rewrite position_app_here by done. cbn [mbind option_bind].
    rewrite drop_app_length. destruct Ha as [?|(_ & (x & r & E & Hx) & _)]; [done|].
    by rewrite (skip_command_ws_args _ x r).
Qed.

Lemma wire_message_id_range v m k :
  plain_arg v -> message_id_shape m ->
  Z.of_nat (length (wire_line v m)) <= 65535 ->
  parsed_message_id_range (wire_line v m) (Build_RequestLine k v m)
  = Some {| pm_start := S (length v); pm_len := length m |}.
Proof.
  intros Hv Hm Hlen. unfold parsed_message_id_range.
  assert (args_ok m) as Ha by (apply args_ok_plain, visible_plain_arg;
    [by destruct Hm as (? & -> & _)|by apply message_id_visible]).
  rewrite request_message_id_whole by done. cbn [mbind option_bind args].
  rewrite find_message_id_whole by done. cbn [mbind option_bind fst snd].
  rewrite (proj1 (wire_content_trim v m Hv Ha)), wire_line_content by done.
  assert (exists b k0, m = b :: k0) as (b0 & k0 & E0) by (destruct Hm as (? & -> & _); by eexists _, _).
  assert (length (wire_line v m) = length v + 1 + length m + 2)%nat as Hl.
  { unfold wire_line. rewrite E0, !length_app. change (length CRLF) with 2%nat. cbn. lia. }
  assert (length (v ++ match m with [] => [] | _ :: _ => SP :: m end) = length v + 1 + length m)%nat
    as Hl2 by (rewrite E0, length_app; cbn; lia).
  rewrite Hl2, Hl. cbn zeta. rewrite Nat.sub_0_r.
  replace (length v + 1 + length m - length m + 0)%nat with (S (length v)) by lia.
  replace (_ <? _)%nat with false by (symmetry; apply Nat.ltb_ge; lia).
  unfold u16_try_from. rewrite !(proj2 (Z.leb_le _ _)) by lia. done.
Qed.

(** ** The fast path *)

Lemma not_a_number m : message_id_shape m -> parse_article_id_arg m = None.
Proof.
  intros Hm. unfold parse_article_id_arg. pose proof (message_id_visible m Hm) as Hv.
  destruct (visible_str m Hv) as [cs ->]. cbn [mbind option_bind]. rewrite trim_visible by done.
  by destruct Hm as (inner & -> & _).
Qed.

Lemma u16_try_from_Some n k : u16_try_from n = Some k -> k = n.
Proof. unfold u16_try_from. destruct (_ <=? _); [by intros [= <-]|done]. Qed.

Lemma fast_line line slot command :
  parse_fast_article_message_id_command line slot = Some command ->
  exists m, message_id_shape m /\ line = wire_line (lit "ARTICLE") m
    /\ u16_try_from slot = Some slot
    /\ command = {| pc_kind := RequestKind.Article; pc_article_id := None; pc_line_slot := slot;
         pc_message_id := Some {| pm_start := 8; pm_len := length m |};
         pc_syntax_error := false; pc_authinfo_sasl_base64_error := false;
         pc_has_transfer_body := false; pc_line_too_long := false |}.
Proof.
  unfold parse_fast_article_message_id_command.
  destruct (strip_suffix line CRLF) as [l|] eqn:E1; [|done]. cbn [mbind option_bind].
  destruct (strip_prefix l (lit "ARTICLE ")) as [m|] eqn:E2; [|done]. cbn [mbind option_bind].
  apply strip_suffix_Some in E1 as ->. apply strip_prefix_Some in E2 as ->.
  destruct (message_id_is_valid_bytes m) eqn:Em; [|done]. cbn [negb].
  destruct (u16_try_from slot) as [slot'|] eqn:Hs; [|done]. pose proof Hs as ->%u16_try_from_Some.
  apply fast_message_id in Em. cbn [mbind option_bind].
  change (length (lit "ARTICLE ")) with 8%nat. change (u16_try_from 8) with (Some 8%nat).
  cbn [mbind option_bind]. destruct (u16_try_from (length m)) as [n|] eqn:En; [|done].
  cbn [mbind option_bind]. intros [= <-]. exists m. split; [done|]. split.
  - rewrite wire_line_app by (by destruct Em as (inner & -> & _)).
    change (lit "ARTICLE ") with (lit "ARTICLE" ++ lit " "). by rewrite <- !app_assoc.
  - split; [done|]. by apply u16_try_from_Some in En as ->.
Qed.

Lemma article_line_fits m :
  message_id_shape m ->
  (length (wire_line (lit "ARTICLE") m) <= 260)%nat /\ (length m <= 250)%nat.
Proof.
  intros (inner & -> & Hl & _). rewrite wire_line_app by done. rewrite !length_app.
  change (length (lit "ARTICLE")) with 7%nat. change (length CRLF) with 2%nat. cbn [length].
  change (length (lit " ")) with 1%nat. change (length (lit "<")) with 1%nat.
  change (length (lit ">")) with 1%nat. lia.
Qed.

Lemma article_message_id_line m :
  message_id_shape m ->
  parse (wire_line (lit "ARTICLE") m) = Build_RequestLine RequestKind.Article (lit "ARTICLE") m.
Proof.
  intros Hm. pose proof (message_id_visible m Hm) as Hv. destruct (article_line_fits m Hm) as [H1 H2].
  assert (args_ok m) as Ha by (apply args_ok_plain, visible_plain_arg;
    [by destruct Hm as (? & -> & _)|done]).
  rewrite parse_wire_line; [|apply (wire_verb_plain (Request.Article ArticleRef.Current))|done|
    unfold MAX_AUTHINFO_SASL_COMMAND_LINE_BYTES; lia].
  pose proof (classify_wire (Request.Article (ArticleRef.MessageId m))) as Hc.
  cbn [wire_verb wire_args article_ref_args Request.kind] in Hc.
  rewrite Hc; [|split; [by apply visible_str|by apply validate_message_id_shape]|done].
  replace (MAX_INITIAL_RESPONSE_LINE_BYTES <? _)%nat with false
    by (symmetry; apply Nat.ltb_ge; unfold MAX_INITIAL_RESPONSE_LINE_BYTES; lia).
  replace (MAX_COMMAND_ARGUMENT_BYTES <? _)%nat with false
    by (symmetry; apply Nat.ltb_ge; unfold MAX_COMMAND_ARGUMENT_BYTES; lia).
  done.
Qed.

Lemma fast_path_agrees line slot command :
  parse_fast_article_message_id_command line slot = Some command ->
  parse_request_command line slot = command.
Proof.
  intros (m & Hm & -> & Hs & ->)%fast_line. destruct (article_line_fits m Hm) as [H1 H2].
  pose proof (wire_verb_plain (Request.Article ArticleRef.Current)) as Hv.
  assert (args_ok m) as Ha by (apply args_ok_plain, visible_plain_arg;
    [by destruct Hm as (? & -> & _)|by apply message_id_visible]).
  unfold parse_request_command. rewrite article_message_id_line by done.
  rewrite wire_message_id_range by (done || lia). cbn [rl_kind args verb].
  rewrite not_a_number by done. unfold u16_or_max. rewrite Hs. cbn [default from_option].
  assert (command_line_is_too_long (wire_line (lit "ARTICLE") m) = false) as ->; [|done].
  unfold command_line_is_too_long. rewrite wire_argument_len by done.
  replace (MAX_INITIAL_RESPONSE_LINE_BYTES <? _)%nat with false
    by (symmetry; apply Nat.ltb_ge; unfold MAX_INITIAL_RESPONSE_LINE_BYTES; lia).
  assert ((match match m with [] => None | _ => Some (length m) end with
           | Some len => (MAX_COMMAND_ARGUMENT_BYTES <? len)%nat | None => false end) = false) as ->.
  { destruct m; [done|]. apply Nat.ltb_ge. unfold MAX_COMMAND_ARGUMENT_BYTES. cbn in *. lia. }
  rewrite orb_false_r. apply not_true_iff_false. intros H%bytes_eqb_spec. by destruct m.
Qed.

Lemma parse_command_line_request line slot :
  parse_command_line line slot = parse_request_command line slot.
Proof.
  unfold parse_command_line.
  destruct (parse_fast_article_message_id_command line slot) as [c|] eqn:E; [|done].
  symmetry. by apply fast_path_agrees.
Qed.

(** The fast path for ARTICLE with a message-id changes nothing: on every line
    the command is what [RequestLine::parse] gives, byte range of the message-id
    included. *)
Theorem fast_path_is_the_parser (line : bytes) (slot : nat) :
  parse_command_line line slot =
  let request := parse line in
  {| pc_kind := rl_kind request;
     pc_article_id := parse_article_id_arg (args request);
     pc_line_slot := u16_or_max slot;
     pc_message_id := parsed_message_id_range line request;
     pc_syntax_error :=
       RequestKind.eqb (rl_kind request) RequestKind.Unknown
       && (is_known_command_line line || negb (command_line_has_valid_generic_syntax line));
     pc_authinfo_sasl_base64_error :=
       authinfo_sasl_initial_response_base64_error (verb request) (args request);
     pc_has_transfer_body := false;
     pc_line_too_long := command_line_is_too_long line |}.
Proof. apply parse_command_line_request. Qed.

(** ** The lines of a batch *)

Definition copy_lines (batch : CommandLineBatch) (lines : list bytes) : CommandLineBatch :=
  fold_left (fun batch line => copy_line batch (length (cl_lines batch)) line) lines batch.

(** The spans cut the buffer into the lines. *)
Record lines_inv (lines : list bytes) (batch : CommandLineBatch) : Prop := {
  li_bytes : cl_bytes batch = concat lines;
  li_spans : cl_lines batch = imap (fun i line =>
    {| cs_start := length (concat (take i lines)); cs_len := length line |}) lines;
}.

(** A batch whose offsets and lengths fit their fields. *)
Definition lines_fit (lines : list bytes) : Prop :=
  Z.of_nat (length (concat lines)) <= 4294967295
  /\ Forall (fun line => Z.of_nat (length line) <= 65535) lines.

Lemma copy_line_inv lines batch slot line :
  lines_inv lines batch -> lines_fit (lines ++ [line]) ->
  lines_inv (lines ++ [line]) (copy_line batch slot line).
Proof.
  intros [Hb Hs] [Hf Hl]. rewrite concat_app, length_app in Hf. cbn [concat] in Hf.
  rewrite app_nil_r in Hf. apply Forall_app in Hl as [_ Hl]. apply Forall_cons_1 in Hl as [Hl _].
  unfold copy_line. split; cbn [cl_bytes cl_lines].
  - rewrite concat_app. cbn [concat]. by rewrite app_nil_r, Hb.
  - rewrite imap_app. f_equal.
    + rewrite Hs. apply imap_ext. intros i x Hi. cbn. rewrite take_app_le; [done|].
      apply lookup_lt_Some in Hi. lia.
    + cbn. rewrite Nat.add_0_r, take_app_length, Hb. f_equal. f_equal.
      * unfold u32_or_max. by rewrite (proj2 (Z.leb_le _ _)) by lia.
      * unfold u16_or_max, u16_try_from. by rewrite (proj2 (Z.leb_le _ _)) by lia.
Qed.

Lemma lines_fit_app lines line : lines_fit (lines ++ [line]) -> lines_fit lines.
Proof.
  intros [H1 H2]. rewrite concat_app, length_app in H1. apply Forall_app in H2 as [H2 _].
  split; [lia|done].
Qed.

Lemma copy_lines_inv lines : lines_fit lines -> lines_inv lines (copy_lines command_lines_empty lines).
Proof.
  induction lines as [|line lines IH] using rev_ind; intros Hf; [done|].
  unfold copy_lines. rewrite fold_left_app. cbn [fold_left].
  apply copy_line_inv; [|done]. eapply IH, lines_fit_app, Hf.
Qed.

Lemma line_of_inv lines batch slot :
  lines_inv lines batch -> line_of batch slot = lines !! slot.
Proof.
  intros [Hb Hs]. unfold line_of. rewrite Hs, list_lookup_imap.
  destruct (lines !! slot) as [line|] eqn:E; [|done]. cbn [fmap option_fmap option_map mbind option_bind].
  cbn [cs_start cs_len]. f_equal. rewrite Hb.
  rewrite <- (take_drop_middle lines slot line E) at 1. rewrite concat_app. cbn [concat].
  apply (slice_app_mid (concat (take slot lines))).
Qed.
