(* ===== verification/ServerReading.v ===== *)
(** * The server reads every command once, in order

    Lines, transfer bodies and batches of [ServerCommands], whatever way the
    connection cuts the input: the fast path of the parser agrees with the
    parser, the two body scanners agree and accept exactly dot-stuffed blocks,
    and a batch is the next commands of the input. *)
From S2P Require Import Prelude Utf8 Memchr Args Terminator Kinds RequestLine RequestWire.
From S2P Require Import ClientWire Text ServerDates ServerCommands ServerParsing.

Local Open Scope Z_scope.
Local Open Scope rust_scope.

(** ** Transfer bodies *)

(** The scan over one delivery and the rest. *)
Lemma body_delivery_scan st c avail more at_ :
  match body_delivery st c avail with
  | (c', Ok None) => (c < c' <= c + length avail)%nat
      /\ scan_body_loop st at_ (avail ++ more) = TransferBodyScan.Complete (at_ + (c' - c))
  | (c', Ok (Some st')) => (c' = c + length avail)%nat
      /\ scan_body_loop st at_ (avail ++ more)
         = scan_body_loop st' (at_ + length avail) more
  | (_, Err _) => scan_body_loop st at_ (avail ++ more) = TransferBodyScan.Invalid
  end.
Proof.
  revert st c at_. induction avail as [|b avail IH]; intros st c at_; cbn [body_delivery app length].
  { by rewrite !Nat.add_0_r. }
  cbn [scan_body_loop]. destruct (body_step st b) as [st'| | |]; [|split; [lia|f_equal; lia]|done|done].
  specialize (IH st' (S c) (S at_)). destruct (body_delivery st' (S c) avail) as [c' [[st''|]|e]].
  - destruct IH as [-> ->]. split; [lia|f_equal; lia].
  - destruct IH as [Hc ->]. split; [lia|f_equal; lia].
  - done.
Qed.

(** A connection that has not failed, and what it still gives. *)
Definition live (reader : BufReader) : Prop :=
  Forall (fun d => exists data, d = Ok data /\ data <> []) (br_source reader).

Definition delivered (d : result bytes IoError) : bytes :=
  match d with Ok data => data | Err _ => [] end.

Definition pending (reader : BufReader) : bytes :=
  br_buffer reader ++ concat (delivered <$> br_source reader).

(** Bytes to read are in the buffer, or the next delivery. *)
Lemma fill_buf_live reader :
  live reader ->
  exists available reader', fill_buf reader = (Ok available, reader')
    /\ br_buffer reader' = available /\ live reader' /\ pending reader' = pending reader
    /\ (available = [] <-> pending reader = [])
    /\ (length (br_source reader') <= length (br_source reader))%nat
    /\ (br_buffer reader = [] -> available <> [] ->
        length (br_source reader') < length (br_source reader))%nat.
Proof.
  destruct reader as [buf src]. unfold fill_buf, live, pending. cbn [br_buffer br_source].
  intros Hl. destruct buf as [|b buf].
  - destruct Hl as [|d src (data & -> & Hne) Hl]; cbn [fmap list_fmap].
    + exists [], {| br_buffer := []; br_source := [] |}. repeat split; done.
    + exists data, {| br_buffer := data; br_source := src |}. cbn. repeat split; try done; try lia.
      intros H. by apply app_nil in H as [-> _].
  - exists (b :: buf), {| br_buffer := b :: buf; br_source := src |}. repeat split; try done; try lia.
Qed.

Lemma consume_pending reader n :
  (n <= length (br_buffer reader))%nat -> live reader ->
  live (consume reader n) /\ pending (consume reader n) = drop n (pending reader).
Proof.
  intros Hn Hl. split; [exact Hl|]. unfold pending. cbn. by rewrite drop_app_le.
Qed.

(** How the reading of a body ends, by the scan of all that is to come. *)
Definition body_verdict (reader : BufReader) (state : TakeThisBodyState.TakeThisBodyState)
    (r : result unit IoError * BufReader) : Prop :=
  match scan_body_loop state 0 (pending reader) with
  | TransferBodyScan.Complete e => exists reader', r = (Ok tt, reader') /\ live reader'
      /\ pending reader' = drop e (pending reader)
      /\ (length (br_source reader') <= length (br_source reader))%nat
  | TransferBodyScan.Incomplete => exists reader', r = (Err truncated_body, reader')
  | TransferBodyScan.Invalid =>
      exists reader', r = (Err body_missing_crlf, reader') \/ r = (Err body_not_stuffed, reader')
  end.

Lemma scan_shift st at_ data :
  scan_body_loop st at_ data
  = match scan_body_loop st 0 data with
    | TransferBodyScan.Complete e => TransferBodyScan.Complete (at_ + e)
    | r => r
    end.
Proof.
  revert st at_. induction data as [|b data IH]; intros st at_; [done|]. cbn [scan_body_loop].
  destruct (body_step st b) as [st'| | |]; [|f_equal; lia|done|done].
  rewrite (IH st' (S at_)), (IH st' 1%nat). destruct (scan_body_loop st' 0 data); [f_equal; lia|done|done].
Qed.

Lemma body_delivery_error st c avail c' e :
  body_delivery st c avail = (c', Err e) -> e = body_missing_crlf \/ e = body_not_stuffed.
Proof.
  revert st c. induction avail as [|b avail IH]; intros st c; cbn [body_delivery]; [done|].
  destruct (body_step st b); [apply IH|done|intros [= _ <-]; by left|intros [= _ <-]; by right].
Qed.

Lemma read_body_loop_correct fuel reader st :
  live reader ->
  (length (br_source reader) + (if (length (br_buffer reader) =? 0)%nat then 1 else 2) <= fuel)%nat ->
  body_verdict reader st (read_body_loop fuel st reader).
Proof.
  revert reader st. induction fuel as [|fuel IH]; intros reader st Hl Hf;
    [destruct (_ =? 0)%nat; lia|].
  cbn [read_body_loop]. destruct (fill_buf_live reader Hl)
    as (avail & r1 & -> & Hb & Hl1 & Hp & Hnil & Hs & Hs').
  unfold body_verdict. rewrite <- Hp in *. destruct (Nat.eqb_spec (length avail) 0) as [Hz|Hz].
  { assert (avail = []) as -> by by destruct avail. rewrite (proj1 Hnil eq_refl). by eexists. }
  set (rest := concat (delivered <$> br_source r1)).
  assert (pending r1 = avail ++ rest) as Hpr by (unfold pending; by rewrite Hb).
  pose proof (body_delivery_scan st 0 avail rest 0) as Hd. rewrite Hpr.
  destruct (body_delivery st 0 avail) as [c [[st'|]|e]] eqn:Hbd.
  - destruct Hd as [-> ->]. cbn [Nat.add].
    destruct (consume_pending r1 (length avail) ltac:(by rewrite Hb) Hl1) as [Hl2 Hp2].
    set (r2 := consume r1 (length avail)) in *.
    rewrite Hpr, drop_app_length in Hp2.
    assert (br_buffer r2 = []) as Hb2 by (unfold r2; cbn; rewrite Hb; apply drop_all).
    specialize (IH r2 st' Hl2). unfold body_verdict in IH. rewrite Hp2 in IH. rewrite scan_shift.
    rewrite Hb2 in IH. change (br_source r2) with (br_source r1) in IH.
    specialize (IH ltac:(destruct (Nat.eqb_spec (length (br_buffer reader)) 0) as [H0|];
      [assert (br_buffer reader = []) by (by destruct (br_buffer reader));
       assert (avail <> []) by (by intros ->); specialize (Hs' ltac:(done) ltac:(done))|]; cbn; lia)).
    destruct (scan_body_loop st' 0 rest) as [e| |]; [|done|done].
    destruct IH as (r3 & -> & Hl3 & Hp3 & Hs3). exists r3. split; [done|]. split; [done|].
    split; [|lia]. rewrite Hp3, drop_app_ge by lia. f_equal. lia.
  - destruct Hd as [Hc ->]. cbn [Nat.add] in *.
    destruct (consume_pending r1 c ltac:(rewrite Hb; lia) Hl1) as [Hl2 Hp2].
    exists (consume r1 c). split; [done|]. split; [done|]. split; [|exact Hs].
    rewrite Hp2, Hpr. f_equal. lia.
  - rewrite Hd. apply body_delivery_error in Hbd as [-> | ->]; eauto.
Qed.

Lemma read_body_correct reader :
  live reader ->
  body_verdict reader TakeThisBodyState.LineStart (read_dot_terminated_body reader).
Proof.
  intros Hl. apply read_body_loop_correct; [done|]. destruct (_ =? 0)%nat; lia.
Qed.

(** *** What the scan accepts *)

(** A line of the block from the state inside a line. *)
Lemma scan_inside at_ l k :
  Forall plain l ->
  scan_body_loop TakeThisBodyState.Line at_ (l ++ CRLF ++ k)
  = scan_body_loop TakeThisBodyState.LineStart (at_ + length l + 2) k.
Proof.
  intros Hl. revert at_. induction Hl as [|b l [Hcr Hlf] _ IH]; intros at_.
  - cbn. f_equal. lia.
  - cbn [app scan_body_loop length]. unfold body_step.
    rewrite (proj2 (Z.eqb_neq _ _) Hcr), (proj2 (Z.eqb_neq _ _) Hlf), IH. f_equal. lia.
Qed.

Lemma scan_line at_ l k :
  Forall plain l ->
  scan_body_loop TakeThisBodyState.LineStart at_ (stuff l ++ CRLF ++ k)
  = scan_body_loop TakeThisBodyState.LineStart (at_ + length (stuff l) + 2) k.
Proof.
  intros Hl. unfold stuff. destruct (starts_with l (lit ".")) eqn:Hs.
  - apply starts_with_spec in Hs as [l' ->]. change (lit ".") with [DOT] in *. cbn [app] in *.
    apply Forall_cons_1 in Hl as [_ Hl]. cbn [scan_body_loop length].
    change (body_step TakeThisBodyState.LineStart DOT) with (BodyGoes TakeThisBodyState.LineStartDot).
    cbn iota.
    change (body_step TakeThisBodyState.LineStartDot DOT) with (BodyGoes TakeThisBodyState.Line).
    cbn iota. rewrite scan_inside by done. f_equal. lia.
  - destruct l as [|b l].
    + cbn. f_equal. lia.
    + apply Forall_cons_1 in Hl as [[Hcr Hlf] Hl]. cbn [app scan_body_loop length]. unfold body_step.
      assert (b <> DOT) as Hd by (intros ->; done).
      rewrite (proj2 (Z.eqb_neq _ _) Hd), (proj2 (Z.eqb_neq _ _) Hcr), (proj2 (Z.eqb_neq _ _) Hlf).
      rewrite scan_inside by done. f_equal. lia.
Qed.

Definition stuffed_block (lines : list bytes) : bytes := join_crlf (stuff <$> lines) ++ DOT_TERMINATOR.

Lemma scan_block lines at_ k :
  Forall (Forall plain) lines ->
  scan_body_loop TakeThisBodyState.LineStart at_ (stuffed_block lines ++ k)
  = TransferBodyScan.Complete (at_ + length (stuffed_block lines)).
Proof.
  unfold stuffed_block. intros Hl. revert at_. induction Hl as [|l lines Hl _ IH]; intros at_.
  - cbn. f_equal. lia.
  - rewrite fmap_cons, join_crlf_cons, <- !app_assoc, scan_line by done.
    rewrite app_assoc, IH. f_equal. rewrite !length_app. change (length CRLF) with 2%nat. lia.
Qed.

(** What has been read when the scan is in a state: whole lines and a part. *)
Definition state_part (st : TakeThisBodyState.TakeThisBodyState) (part : bytes) : Prop :=
  match st with
  | TakeThisBodyState.LineStart => part = []
  | TakeThisBodyState.LineStartDot => part = [DOT]
  | TakeThisBodyState.LineStartDotCr => part = [DOT; CR]
  | TakeThisBodyState.Line => exists l, Forall plain l /\ l <> [] /\ part = stuff l
  | TakeThisBodyState.LineCr => exists l, Forall plain l /\ part = stuff l ++ [CR]
  end.

Lemma starts_with_one x l b : starts_with (x :: l) [b] = (b =? x).
Proof. simpl. apply andb_true_r. Qed.

Lemma stuff_snoc l b : l <> [] -> stuff (l ++ [b]) = stuff l ++ [b].
Proof.
  intros Hne. unfold stuff. destruct l as [|x l]; [done|]. change (lit ".") with [DOT].
  cbn [app]. rewrite !starts_with_one. by destruct (DOT =? x).
Qed.

Lemma stuff_other b : b <> DOT -> stuff [b] = [b].
Proof. intros Hd. unfold stuff. change (lit ".") with [DOT]. by rewrite starts_with_differ. Qed.

Lemma state_part_step st part b st' :
  state_part st part -> body_step st b = BodyGoes st' -> st' <> TakeThisBodyState.LineStart ->
  state_part st' (part ++ [b]).
Proof.
  destruct st; cbn [state_part body_step]; intros Hp.
  - subst part. cbn [app]. destruct (Z.eqb_spec b DOT) as [->|Hd]; [by intros [= <-]|].
    destruct (Z.eqb_spec b CR) as [->|Hc]; [intros [= <-] _; by exists []|].
    destruct (Z.eqb_spec b LF) as [->|Hl]; [done|]. intros [= <-] _. exists [b].
    split; [by repeat constructor|]. by rewrite stuff_other.
  - subst part. destruct (Z.eqb_spec b CR) as [->|Hc]; [by intros [= <-]|].
    destruct (Z.eqb_spec b DOT) as [->|Hd]; [|by destruct (b =? LF)].
    intros [= <-] _. exists [DOT]. split; [by repeat constructor|done].
  - by destruct (b =? LF).
  - destruct Hp as (l & Hl & Hne & ->).
    destruct (Z.eqb_spec b CR) as [->|Hc]; [intros [= <-] _; by exists l|].
    destruct (Z.eqb_spec b LF) as [->|Hlf]; [done|]. intros [= <-] _. exists (l ++ [b]).
    rewrite stuff_snoc by done. split; [apply Forall_app; by repeat constructor|]. by destruct l.
  - by destruct (b =? LF); intros [= <-].
Qed.

Lemma scan_complete_from st part at_ data e :
  state_part st part -> scan_body_loop st at_ data = TransferBodyScan.Complete e ->
  exists lines, Forall (Forall plain) lines /\ (at_ <= e)%nat
    /\ part ++ take (e - at_) data = stuffed_block lines.
Proof.
  revert st part at_. induction data as [|b data IH]; intros st part at_ Hp; cbn [scan_body_loop]; [done|].
  destruct (body_step st b) as [st'| | |] eqn:Hb; [| |done|done].
  - intros Hs. destruct (decide (st' = TakeThisBodyState.LineStart)) as [->|Hst].
    + destruct (IH TakeThisBodyState.LineStart [] _ eq_refl Hs) as (lines & Hl & Ha & Heq). cbn [app] in Heq.
      assert (exists l, Forall plain l /\ b = LF /\ part = stuff l ++ [CR]) as (l & Hpl & -> & ->).
      { destruct st; cbn [body_step] in Hb;
          repeat match type of Hb with (if ?c then _ else _) = _ => destruct c eqn:? end; try done.
        destruct Hp as (l & Hpl & ->). exists l. split; [done|]. split; [by apply Z.eqb_eq|done]. }
      exists (l :: lines). split; [by constructor|]. split; [lia|].
      replace (e - at_)%nat with (S (e - S at_)) by lia. cbn [take]. rewrite Heq.
      unfold stuffed_block. rewrite fmap_cons, join_crlf_cons. by rewrite <- !app_assoc.
    + destruct (IH _ _ _ (state_part_step _ _ _ _ Hp Hb Hst) Hs) as (lines & Hl & Ha & Heq).
      exists lines. split; [done|]. split; [lia|].
      replace (e - at_)%nat with (S (e - S at_)) by lia. cbn [take]. by rewrite <- Heq, <- app_assoc.
  - intros [= <-]. exists []. split; [constructor|]. split; [lia|].
    replace (S at_ - at_)%nat with 1%nat by lia. cbn [take].
    destruct st; cbn [body_step] in Hb;
      repeat match type of Hb with (if ?c then _ else _) = _ => destruct c eqn:? end; try done.
    cbn [state_part] in Hp. subst part. apply Z.eqb_eq in Heqb0 as ->. done.
Qed.

Lemma scan_bound st at_ data e :
  scan_body_loop st at_ data = TransferBodyScan.Complete e -> (e <= at_ + length data)%nat.
Proof.
  revert st at_. induction data as [|b data IH]; intros st at_; cbn [scan_body_loop length]; [done|].
  destruct (body_step st b); [intros H%IH; lia|intros [= <-]; lia|done|done].
Qed.

(** The scan completes exactly after a dot-stuffed block of plain lines. *)
Lemma scan_complete_iff data e :
  scan_dot_terminated_body data 0 = TransferBodyScan.Complete e
  <-> exists lines rest, Forall (Forall plain) lines
      /\ data = stuffed_block lines ++ rest /\ e = length (stuffed_block lines).
Proof.
  unfold scan_dot_terminated_body, get_from. cbn [Nat.ltb Nat.leb].
  replace (length data <? 0)%nat with false by (symmetry; apply Nat.ltb_ge; lia).
  rewrite drop_0. split.
  - intros Hs. destruct (scan_complete_from TakeThisBodyState.LineStart [] 0 data e eq_refl Hs) as (lines & Hl & _ & Heq).
    rewrite Nat.sub_0_r in Heq. cbn [app] in Heq. exists lines, (drop e data).
    split; [done|]. rewrite <- Heq. split; [by rewrite take_drop|].
    rewrite length_take. pose proof (scan_bound _ _ _ _ Hs). lia.
  - intros (lines & rest & Hl & -> & ->). by rewrite scan_block.
Qed.

Lemma scan_start data :
  scan_dot_terminated_body data 0 = scan_body_loop TakeThisBodyState.LineStart 0 data.
Proof.
  unfold scan_dot_terminated_body, get_from.
  replace (length data <? 0)%nat with false by (symmetry; apply Nat.ltb_ge; lia).
  by rewrite drop_0.
Qed.

(** ** Lines *)

Section reading.
Context `{Mc : !Memchr, Ms : !MemchrSpec}.

Definition no_lf (l : bytes) : Prop := Forall (fun b => (LF =? b) = false) l.

Lemma plain_no_lf l : Forall plain l -> no_lf (l ++ [CR]).
Proof.
  intros Hl. apply Forall_app. split; [|by repeat constructor].
  eapply Forall_impl; [|exact Hl]. intros b [_ H]. apply Z.eqb_neq. congruence.
Qed.

Lemma no_lf_end l : no_lf l -> ends_with l [LF] = false.
Proof.
  intros Hl. apply not_true_iff_false. intros [k ->]%ends_with_spec.
  apply Forall_app in Hl as [_ Hl]. by apply Forall_cons_1 in Hl as [? _].
Qed.

(** Reading the rest [tl] of a line whose start [acc] has been read. *)
Lemma read_crlf_line_loop_ok fuel acc tl rest reader :
  live reader -> no_lf acc -> no_lf tl -> pending reader = tl ++ LF :: rest ->
  (length acc + length tl + 1 <= MAX_COMMAND_LINE_BYTES)%nat ->
  (length (br_source reader) + (if (length (br_buffer reader) =? 0)%nat then 1 else 2) <= fuel)%nat ->
  exists reader', read_crlf_line_loop fuel acc reader = (Ok (Some (acc ++ tl ++ [LF])), reader')
    /\ live reader' /\ pending reader' = rest
    /\ (length (br_source reader') <= length (br_source reader))%nat.
Proof.
  revert acc tl reader. induction fuel as [|fuel IH]; intros acc tl reader Hl Ha Ht Hp Hlen Hf;
    [destruct (_ =? 0)%nat; lia|].
  cbn [read_crlf_line_loop]. destruct (fill_buf_live reader Hl)
    as (avail & r1 & -> & Hb & Hl1 & Hp1 & Hnil & Hs & Hs').
  destruct (Nat.eqb_spec (length avail) 0) as [Hz|Hz].
  { assert (avail = []) as Hn by by destruct avail. apply Hnil in Hn. rewrite Hn in Hp. by destruct tl. }
  rewrite <- Hp1 in Hp. unfold pending in Hp. rewrite Hb in Hp.
  assert ((exists k, tl = avail ++ k) \/ (exists k, avail = tl ++ LF :: k)) as Hcases.
  { apply app_eq_inv in Hp as [(k & -> & Hk)|(k & -> & Hk)]; [|by left; exists k].
    destruct k as [|x k]; [left; exists []; by rewrite !app_nil_r|].
    right. injection Hk as <- _. by exists k. }
  rewrite memchr_position. destruct Hcases as [[k ->]|[k ->]].
  - apply Forall_app in Ht as [Hav Hk]. rewrite length_app in Hlen.
    rewrite (proj2 (position_None _ _) Hav).
    replace (_ <? _)%nat with false by (symmetry; apply Nat.ltb_ge; lia).
    rewrite firstn_all, no_lf_end by (by apply Forall_app).
    destruct (consume_pending r1 (length avail) ltac:(by rewrite Hb) Hl1) as [Hl2 Hp2].
    specialize (IH (acc ++ avail) k (consume r1 (length avail)) Hl2).
    destruct IH as (r3 & -> & Hl3 & Hp3 & Hs3).
    + by apply Forall_app.
    + done.
    + rewrite Hp2. unfold pending. rewrite Hb, drop_app_length.
      rewrite <- app_assoc in Hp. by apply app_inv_head in Hp.
    + rewrite length_app. lia.
    + cbn. rewrite Hb, drop_all. cbn. destruct (Nat.eqb_spec (length (br_buffer reader)) 0) as [H0|]; [|lia].
      assert (br_buffer reader = []) by (by destruct (br_buffer reader)).
      assert (avail <> []) by (by intros ->). specialize (Hs' ltac:(done) ltac:(done)). lia.
    + exists r3. rewrite <- !app_assoc. split; [done|]. split; [done|]. split; [done|]. cbn in Hs3. lia.
  - rewrite (position_app_here (Z.eqb LF) tl LF k) by (done || apply Z.eqb_refl).
    replace (_ <? _)%nat with false by (symmetry; apply Nat.ltb_ge; lia).
    assert (take (S (length tl)) (tl ++ LF :: k) = tl ++ [LF]) as Htake.
    { replace (S (length tl)) with (length (tl ++ [LF])) by (rewrite length_app; cbn; lia).
      change (tl ++ LF :: k) with (tl ++ [LF] ++ k). by rewrite app_assoc, take_app_length. }
    rewrite Htake, app_assoc, ends_with_app.
    destruct (consume_pending r1 (S (length tl))) as [Hl2 Hp2];
      [rewrite Hb, length_app; cbn; lia|done|].
    eexists. split; [by rewrite <- app_assoc|]. split; [done|]. split; [|exact Hs].
    rewrite Hp2. unfold pending. rewrite Hb, Hp.
    replace (S (length tl)) with (length (tl ++ [LF])) by (rewrite length_app; cbn; lia).
    change (tl ++ LF :: rest) with (tl ++ [LF] ++ rest). by rewrite app_assoc, drop_app_length.
Qed.

Lemma read_crlf_line_ok l rest reader :
  live reader -> Forall plain l -> pending reader = l ++ CRLF ++ rest ->
  (length l + 2 <= MAX_COMMAND_LINE_BYTES)%nat ->
  exists reader', read_crlf_line_into reader = (Ok (Some (l ++ CRLF)), reader')
    /\ live reader' /\ pending reader' = rest
    /\ (length (br_source reader') <= length (br_source reader))%nat.
Proof.
  intros Hl Hp Heq Hlen. unfold read_crlf_line_into.
  destruct (read_crlf_line_loop_ok (S (S (length (br_source reader)))) [] (l ++ [CR]) rest reader)
    as (r' & -> & H).
  - done.
  - constructor.
  - by apply plain_no_lf.
  - by rewrite Heq, <- app_assoc.
  - rewrite length_app. cbn. lia.
  - destruct (_ =? 0)%nat; lia.
  - exists r'. by rewrite <- app_assoc.
Qed.

Lemma read_crlf_line_end reader :
  live reader -> pending reader = [] ->
  exists reader', read_crlf_line_into reader = (Ok None, reader').
Proof.
  intros Hl Hp. unfold read_crlf_line_into. cbn [read_crlf_line_loop].
  destruct (fill_buf_live reader Hl) as (avail & r1 & -> & _ & _ & _ & Hnil & _).
  rewrite (proj2 Hnil Hp). by eexists.
Qed.

(** *** Lines already in the buffer *)

Lemma find_crlf_plain l k : Forall plain l -> find_sub CRLF (l ++ CRLF ++ k) = Some (length l).
Proof.
  intros Hl. rewrite (find_sub_skip _ _ (length l)).
  - rewrite drop_app_length.
    replace (find_sub CRLF (CRLF ++ k)) with (Some 0%nat); [simpl; f_equal; lia|].
    symmetry. apply find_sub_Some. split; [|intros; lia].
    unfold occurs_at. rewrite drop_0. apply take_app_length.
  - intros j Hj. unfold occurs_at. rewrite drop_app_le by lia.
    destruct (drop j l) as [|x m] eqn:E.
    { apply (f_equal length) in E. rewrite length_drop in E. cbn in E. lia. }
    intros [= H _]. assert (In x l) as Hin
      by (rewrite <- (take_drop j l), E; apply in_or_app; right; by left).
    rewrite List.Forall_forall in Hl. by destruct (Hl x Hin).
Qed.

Lemma read_buffered_line l rest reader :
  live reader -> Forall plain l -> pending reader = l ++ CRLF ++ rest ->
  (length l + 2 <= MAX_COMMAND_LINE_BYTES)%nat ->
  read_buffered_crlf_line_into reader = None
  \/ exists reader', read_buffered_crlf_line_into reader = Some (l ++ CRLF, reader')
      /\ live reader' /\ pending reader' = rest
      /\ (length (br_source reader') <= length (br_source reader))%nat.
Proof.
  intros Hlv Hl Hp Hlen. unfold read_buffered_crlf_line_into, find_crlf_line_end, get_from.
  replace (length (br_buffer reader) <? 0)%nat with false by (symmetry; apply Nat.ltb_ge; lia).
  cbn [mbind option_bind]. rewrite drop_0, memmem_find_sub.
  destruct (decide (length l + 2 <= length (br_buffer reader))%nat) as [Hle|Hgt].
  - right. unfold pending in Hp.
    assert (exists k, br_buffer reader = l ++ CRLF ++ k) as [k Hk].
    { exists (drop (length l + 2) (br_buffer reader)).
      rewrite <- (take_drop (length l + 2) (br_buffer reader)) at 1. rewrite app_assoc. f_equal.
      apply (f_equal (take (length l + 2))) in Hp. rewrite take_app_le in Hp by done.
      rewrite Hp, app_assoc. replace (length l + 2)%nat with (length (l ++ CRLF))
        by (rewrite length_app; done). apply take_app_length. }
    rewrite Hk, find_crlf_plain by done. cbn [mbind option_bind Nat.add].
    change (length CRLF) with 2%nat. rewrite (proj2 (Nat.ltb_ge _ _) Hlen).
    assert (length l + 2 = length (l ++ CRLF))%nat as Hn by (rewrite length_app; done).
    eexists. split; [by rewrite Hn, app_assoc, take_app_length|].
    destruct (consume_pending reader (length l + 2) Hle Hlv) as [Hl2 Hp2]. split; [done|].
    split; [|done]. rewrite <- Hn, Hp2. unfold pending. rewrite Hp, Hn, app_assoc. apply drop_app_length.
  - left. assert (find_sub CRLF (br_buffer reader) = None) as ->; [|done].
    apply find_sub_None. intros i Hi.
    pose proof (occurs_at_bound CRLF _ _ ltac:(done) Hi) as Hbd. change (length CRLF) with 2%nat in Hbd.
    pose proof (find_crlf_plain l rest Hl) as Hf. apply find_sub_Some in Hf as [_ Hf].
    apply (Hf i); [lia|]. rewrite <- Hp. unfold pending.
    unfold occurs_at in *. rewrite drop_app_le by lia. rewrite take_app_le; [done|].
    rewrite length_drop. change (length CRLF) with 2%nat. lia.
Qed.

Lemma read_buffered_end reader :
  pending reader = [] -> read_buffered_crlf_line_into reader = None.
Proof.
  unfold pending. intros [Hb _]%app_nil.
  unfold read_buffered_crlf_line_into, find_crlf_line_end. rewrite Hb.
  change (get_from [] 0) with (Some (@nil Z)). cbn [mbind option_bind].
  by rewrite memmem_find_sub.
Qed.
End reading.

(** ** Batches *)

(** What a client sends: a command line, and the article after a TAKETHIS. *)
Record Incoming : Type := { in_line : bytes; in_body : option (list bytes) }.

Definition in_block (i : Incoming) : bytes :=
  match in_body i with Some lines => stuffed_block lines | None => [] end.

Definition in_wire (i : Incoming) : bytes := in_line i ++ CRLF ++ in_block i.

Definition in_text (i : Incoming) : bytes := in_line i ++ CRLF.

Record incoming_ok (i : Incoming) : Prop := {
  io_plain : Forall plain (in_line i);
  io_short : (length (in_line i) + 2 <= MAX_COMMAND_LINE_BYTES)%nat;
  io_request : match in_body i with
    | Some lines => is_takethis_request (rl_kind (parse (in_text i))) (in_text i) = true
        /\ Forall (Forall plain) lines
    | None => is_takethis_request (rl_kind (parse (in_text i))) (in_text i) = false
        /\ is_transfer_request (rl_kind (parse (in_text i))) (in_text i) = false
    end;
}.

(** The command of a line, and the batch with it. *)
Definition in_command (i : Incoming) (slot : nat) : ParsedCommand :=
  let command := parse_command_line (in_text i) slot in
  match in_body i with Some _ => set_transfer_body command | None => command end.

Definition add_incoming (batch : Batch) (i : Incoming) : Batch :=
  let slot := length (ba_commands batch) in
  {| ba_commands := ba_commands batch ++ [in_command i slot];
     ba_lines := copy_line (ba_lines batch) slot (in_text i) |}.

Definition batch_of (batch : Batch) (items : list Incoming) : Batch :=
  fold_left add_incoming items batch.

Lemma push_incoming i rest reader batch :
  incoming_ok i -> live reader -> pending reader = in_block i ++ rest ->
  exists reader', push_command reader (in_text i) batch = (Ok (add_incoming batch i), reader')
    /\ live reader' /\ pending reader' = rest.
Proof.
  intros [Hp Hs Hr] Hl Hpend. unfold push_command, add_incoming, in_command, should_read_transfer_body.
  rewrite parse_command_line_request. unfold parse_request_command at 1 2. cbn [pc_kind].
  unfold in_block in Hpend. destruct (in_body i) as [lines|].
  - destruct Hr as [-> Hlines]. pose proof (read_body_correct reader Hl) as Hv.
    unfold body_verdict in Hv. rewrite Hpend, scan_block in Hv by done.
    destruct Hv as (r' & -> & Hl' & Hp' & _). exists r'. split; [done|]. split; [done|].
    by rewrite Hp', Nat.add_0_l, drop_app_length.
  - destruct Hr as [-> ->]. cbn [negb]. by exists reader.
Qed.

Section batches.
Context `{Mc : !Memchr, Ms : !MemchrSpec}.

Lemma read_buffered_ok fuel items batch reader :
  Forall incoming_ok items -> live reader -> pending reader = concat (in_wire <$> items) ->
  exists k reader', (k <= fuel)%nat /\ (k <= length items)%nat
    /\ read_buffered_commands fuel batch reader = (Ok (batch_of batch (take k items)), reader')
    /\ live reader' /\ pending reader' = concat (in_wire <$> drop k items).
Proof.
  revert items batch reader. induction fuel as [|fuel IH]; intros items batch reader Hok Hl Hp.
  { exists 0%nat, reader. cbn. rewrite drop_0. repeat split; (done || lia). }
  cbn [read_buffered_commands]. destruct Hok as [|i items Hi Hok].
  { exists 0%nat, reader. rewrite read_buffered_end by done. repeat split; (done || cbn; lia). }
  rewrite fmap_cons in Hp. cbn [concat] in Hp. unfold in_wire at 1 in Hp. rewrite <- !app_assoc in Hp.
  destruct (read_buffered_line (in_line i) _ reader Hl (io_plain i Hi) Hp (io_short i Hi))
    as [->|(r1 & -> & Hl1 & Hp1 & _)].
  { exists 0%nat, reader. cbn [take drop batch_of fold_left]. rewrite fmap_cons. cbn [concat].
    unfold in_wire at 1. rewrite <- !app_assoc. repeat split; (done || lia). }
  change (in_line i ++ CRLF) with (in_text i).
  destruct (push_incoming i _ r1 batch Hi Hl1 Hp1) as (r2 & -> & Hl2 & Hp2).
  destruct (IH items (add_incoming batch i) r2 Hok Hl2 Hp2) as (k & r3 & Hk & Hki & -> & Hl3 & Hp3).
  exists (S k), r3. cbn [length take drop batch_of fold_left]. repeat split; (done || lia).
Qed.

(** One batch: at least one command when there is one, at most as many as the
    pipeline depth, the next ones of the input in order. *)
Lemma read_batch_ok items reader depth :
  (1 <= depth)%nat -> Forall incoming_ok items -> live reader ->
  pending reader = concat (in_wire <$> items) ->
  match items with
  | [] => exists reader', read_command_batch reader depth = (Ok None, reader')
  | _ => exists k reader', (1 <= k <= depth)%nat /\ (k <= length items)%nat
      /\ read_command_batch reader depth
         = (Ok (Some (batch_of empty_batch (take k items))), reader')
      /\ live reader' /\ pending reader' = concat (in_wire <$> drop k items)
  end.
Proof.
  intros Hd Hok Hl Hp. unfold read_command_batch. destruct Hok as [|i items Hi Hok].
  { destruct (read_crlf_line_end reader Hl Hp) as [r' ->]. by exists r'. }
  rewrite fmap_cons in Hp. cbn [concat] in Hp. unfold in_wire at 1 in Hp. rewrite <- !app_assoc in Hp.
  destruct (read_crlf_line_ok (in_line i) _ reader Hl (io_plain i Hi) Hp (io_short i Hi))
    as (r1 & -> & Hl1 & Hp1 & _).
  change (in_line i ++ CRLF) with (in_text i).
  destruct (push_incoming i _ r1 empty_batch Hi Hl1 Hp1) as (r2 & -> & Hl2 & Hp2).
  change (length (ba_commands (add_incoming empty_batch i))) with 1%nat.
  destruct (read_buffered_ok (depth - 1) items (add_incoming empty_batch i) r2 Hok Hl2 Hp2)
    as (k & r3 & Hk & Hki & -> & Hl3 & Hp3).
  exists (S k), r3. cbn [length take drop batch_of fold_left]. repeat split; (done || lia).
Qed.

(** *** The reading loop of a session *)

(** Batches until the client is gone, as [serve_session] reads them. *)
Fixpoint read_batches (fuel : nat) (depth : nat) (reader : BufReader) : result (list Batch) IoError :=
  match fuel with
  | O => Ok []
  | S fuel' =>
      match read_command_batch reader depth with
      | (Err e, _) => Err e
      | (Ok None, _) => Ok []
      | (Ok (Some batch), reader) => let? batches := read_batches fuel' depth reader in Ok (batch :: batches)
      end
  end.

(** The commands and the lines of a batch, by position. *)
Lemma batch_of_spec items :
  ba_commands (batch_of empty_batch items) = imap (fun j i => in_command i j) items
  /\ ba_lines (batch_of empty_batch items) = copy_lines command_lines_empty (in_text <$> items).
Proof.
  induction items as [|i items [IHc IHl]] using rev_ind; [done|].
  unfold batch_of in *. rewrite fold_left_app. cbn [fold_left].
  set (b := fold_left add_incoming items empty_batch) in *.
  unfold add_incoming. cbn [ba_commands ba_lines]. split.
  - rewrite imap_app, IHc, length_imap. cbn [imap]. by rewrite Nat.add_0_r.
  - rewrite fmap_app. unfold copy_lines. rewrite fold_left_app, IHl, IHc, length_imap. cbn [fmap list_fmap fold_left].
    done.
Qed.

Lemma lines_fit_batch items :
  Forall incoming_ok items -> (length items <= MAX_SERVER_PIPELINE_DEPTH)%nat ->
  lines_fit (in_text <$> items).
Proof.
  intros Hok Hn. assert (Forall (fun l => length l <= MAX_COMMAND_LINE_BYTES)%nat (in_text <$> items))
    as Hl.
  { apply Forall_fmap. eapply Forall_impl; [|exact Hok]. intros i [_ H _]. unfold in_text. cbn.
    rewrite length_app. exact H. }
  assert (length (concat (in_text <$> items)) <= length items * MAX_COMMAND_LINE_BYTES)%nat as Hc.
  { clear -Hl. induction items as [|i items IH]; [cbn; lia|]. rewrite fmap_cons in *.
    apply Forall_cons_1 in Hl as [H1 H2]. cbn [concat length]. rewrite length_app.
    specialize (IH H2). lia. }
  unfold MAX_COMMAND_LINE_BYTES, MAX_AUTHINFO_SASL_COMMAND_LINE_BYTES, MAX_SERVER_PIPELINE_DEPTH in *.
  split; [nia|]. eapply Forall_impl; [|exact Hl]. cbn. intros l Hll. lia.
Qed.

(** A batch read from [items]: one command for each, in order, with its line. *)
Definition batch_reads (items : list Incoming) (batch : Batch) : Prop :=
  length (ba_commands batch) = length items
  /\ forall j i, items !! j = Some i ->
       ba_commands batch !! j = Some (in_command i j)
       /\ line_of (ba_lines batch) j = Some (in_text i).

Lemma batch_of_reads items :
  Forall incoming_ok items -> (length items <= MAX_SERVER_PIPELINE_DEPTH)%nat ->
  batch_reads items (batch_of empty_batch items).
Proof.
  intros Hok Hn. destruct (batch_of_spec items) as [Hc Hl]. unfold batch_reads.
  rewrite Hc, Hl, length_imap. split; [done|]. intros j i Hj. rewrite list_lookup_imap, Hj.
  split; [done|].
  rewrite (line_of_inv _ _ j (copy_lines_inv _ (lines_fit_batch _ Hok Hn))), list_lookup_fmap.
  by rewrite Hj.
Qed.

Lemma read_batches_ok fuel items reader depth :
  (1 <= depth <= MAX_SERVER_PIPELINE_DEPTH)%nat -> Forall incoming_ok items -> live reader ->
  pending reader = concat (in_wire <$> items) -> (length items < fuel)%nat ->
  exists parts batches, concat parts = items /\ read_batches fuel depth reader = Ok batches
    /\ Forall2 batch_reads parts batches
    /\ Forall (fun part => 1 <= length part <= depth)%nat parts.
Proof.
  intros Hd. revert items reader. induction fuel as [|fuel IH]; intros items reader Hok Hl Hp Hf; [lia|].
  cbn [read_batches]. pose proof (read_batch_ok items reader depth ltac:(lia) Hok Hl Hp) as Hr.
  destruct items as [|i items].
  { destruct Hr as [r' ->]. exists [], []. repeat constructor. }
  destruct Hr as (k & r' & Hk & Hki & -> & Hl' & Hp'). set (all := i :: items) in *.
  destruct (IH (drop k all) r') as (parts & batches & Hcat & -> & Hall & Hlens).
  - by apply Forall_drop.
  - done.
  - done.
  - rewrite length_drop. lia.
  - exists (take k all :: parts), (batch_of empty_batch (take k all) :: batches).
    cbn [concat]. rewrite Hcat, take_drop. split; [done|]. split; [done|]. split.
    + constructor; [|done]. apply batch_of_reads; [by apply Forall_take|]. rewrite length_take. lia.
    + constructor; [|done]. rewrite length_take. lia.
Qed.
End batches.

(** *** All that is read, whatever the input *)

Section input.
Context `{Mc : !Memchr}.

Lemma consume_size reader n : (input_size (consume reader n) <= input_size reader)%nat.
Proof. unfold input_size, consume. cbn [br_buffer br_source]. rewrite length_drop. lia. Qed.

Lemma consume_smaller reader n :
  br_buffer reader <> [] -> (0 < n)%nat -> (input_size (consume reader n) < input_size reader)%nat.
Proof.
  intros Hb Hn. unfold input_size, consume. cbn [br_buffer br_source]. rewrite length_drop.
  destruct (br_buffer reader); [done|]. cbn [length]. lia.
Qed.

Lemma fill_buf_size reader available reader' :
  fill_buf reader = (Ok available, reader') ->
  br_buffer reader' = available /\ (input_size reader' <= input_size reader)%nat.
Proof.
  destruct reader as [[|b buf] [|[data|e] src]]; unfold fill_buf; cbn [br_buffer br_source]; intros [= <- <-];
    (split; [done|]); try done.
  unfold input_size. cbn [br_buffer br_source fmap list_fmap concat length]. rewrite length_app. lia.
Qed.

(** A line read took at least a byte. *)
Lemma crlf_line_size fuel : forall line reader text reader',
  read_crlf_line_loop fuel line reader = (Ok (Some text), reader') -> (input_size reader' < input_size reader)%nat.
Proof.
  induction fuel as [|fuel IH]; intros line reader text reader' E; cbn [read_crlf_line_loop] in E; [done|].
  destruct (fill_buf reader) as [[available|e] r] eqn:Ef; [|done]. apply fill_buf_size in Ef as [Hb Hs].
  destruct (Nat.eqb_spec (length available) 0) as [|Hne]; [by destruct (_ =? 0)%nat|].
  revert E. set (n := match memchr LF available with Some index => S index | None => length available end). intros E.
  assert (0 < n)%nat as Hn by (unfold n; destruct (memchr LF available); lia).
  assert (input_size (consume r n) < input_size r)%nat as Hc
    by (apply consume_smaller; [intros Hr; apply Hne; by rewrite <- Hb, Hr|done]).
  destruct (_ <? _)%nat; [injection E as _ <-; lia|].
  destruct (ends_with _ _); [injection E as _ <-; lia|]. apply IH in E. lia.
Qed.

Lemma body_loop_size fuel : forall state reader reader',
  read_body_loop fuel state reader = (Ok tt, reader') -> (input_size reader' <= input_size reader)%nat.
Proof.
  induction fuel as [|fuel IH]; intros state reader reader' E; cbn [read_body_loop] in E; [done|].
  destruct (fill_buf reader) as [[available|e] r] eqn:Ef; [|done]. apply fill_buf_size in Ef as [_ Hs].
  destruct (_ =? 0)%nat; [done|]. destruct (body_delivery state 0 available) as [n [[state'|]|e]]; [| |done].
  - apply IH in E. pose proof (consume_size r n). lia.
  - injection E as <-. pose proof (consume_size r n). lia.
Qed.

Lemma push_size reader line batch batch' reader' :
  push_command reader line batch = (Ok batch', reader') -> (input_size reader' <= input_size reader)%nat.
Proof.
  unfold push_command. destruct (should_read_transfer_body _ _ _); [|by intros [= _ <-]].
  unfold read_dot_terminated_body. destruct (read_body_loop _ _ _) as [[[]|e] r] eqn:E; [|done].
  intros [= _ <-]. by apply body_loop_size in E.
Qed.

Lemma buffered_size fuel : forall batch reader batch' reader',
  read_buffered_commands fuel batch reader = (Ok batch', reader') -> (input_size reader' <= input_size reader)%nat.
Proof.
  induction fuel as [|fuel IH]; intros batch reader batch' reader' E; cbn [read_buffered_commands] in E;
    [by injection E as _ <-|].
  destruct (read_buffered_crlf_line_into reader) as [[line r]|] eqn:El; [|by injection E as _ <-].
  destruct (push_command r line batch) as [[batch1|e] r1] eqn:Ep; [|done]. apply IH in E. apply push_size in Ep.
  assert (input_size r <= input_size reader)%nat; [|lia]. unfold read_buffered_crlf_line_into in El.
  apply bind_Some in El as (n & _ & El). pose proof (consume_size reader n).
  destruct (_ <? n)%nat; apply (inj Some) in El; by injection El as _ <-.
Qed.

(** Every batch uses up some of the input. *)
Lemma batch_size reader depth batch reader' :
  read_command_batch reader depth = (Ok (Some batch), reader') -> (input_size reader' < input_size reader)%nat.
Proof.
  unfold read_command_batch, read_crlf_line_into.
  destruct (read_crlf_line_loop _ _ _) as [[[line|]|e] r] eqn:El; [|done..]. apply crlf_line_size in El.
  destruct (push_command r line empty_batch) as [[batch1|e] r1] eqn:Ep; [|done]. apply push_size in Ep.
  destruct (read_buffered_commands _ batch1 r1) as [[batch2|e] r2] eqn:Eb; [|done]. apply buffered_size in Eb.
  intros [= _ <-]. lia.
Qed.

(** The commands of the batches that can be read from a connection one after
    the other, whatever it delivers, and whether the client then is gone, or a
    read fails (the connection does, or an article is malformed or cut). *)
Inductive commands_read (depth : nat) : BufReader -> list ParsedCommand -> bool -> Prop :=
| input_ended reader reader' :
    read_command_batch reader depth = (Ok None, reader') -> commands_read depth reader [] true
| input_failed reader reader' e :
    read_command_batch reader depth = (Err e, reader') -> commands_read depth reader [] false
| batch_read reader reader' batch commands ended :
    read_command_batch reader depth = (Ok (Some batch), reader') ->
    commands_read depth reader' commands ended ->
    commands_read depth reader (ba_commands batch ++ commands) ended.

(** Every connection comes to such an end, and to one only. *)
Lemma commands_read_total depth reader : exists commands ended, commands_read depth reader commands ended.
Proof.
  remember (input_size reader) as n eqn:Hn. revert reader Hn.
  induction n as [n IH] using lt_wf_ind. intros reader ->.
  destruct (read_command_batch reader depth) as [[[batch|]|e] r] eqn:E.
  - destruct (IH (input_size r) (batch_size _ _ _ _ E) r eq_refl) as (commands & ended & H).
    exists (ba_commands batch ++ commands), ended. by eapply batch_read.
  - exists [], true. by eapply input_ended.
  - exists [], false. by eapply input_failed.
Qed.

Lemma commands_read_unique depth reader commands ended commands' ended' :
  commands_read depth reader commands ended -> commands_read depth reader commands' ended' ->
  commands = commands' /\ ended = ended'.
Proof.
  intros H. revert commands' ended'.
  induction H as [reader r E|reader r e E|reader r batch commands ended E _ IH]; intros commands' ended' H';
    destruct H' as [? ? E'|? ? ? E'|? ? ? ? ? E' H'']; rewrite E in E'; simplify_eq; try done.
  by destruct (IH _ _ H'') as [-> ->].
Qed.

End input.

(** ** Properties *)

(** C31: The server reads every command exactly once and in order, however a live
    connection cuts the input, as long as each line ends with CRLF, is within the
    limit and is neither POST nor IHAVE, and each TAKETHIS, and no other line, is
    followed by a dot-stuffed article: the batches of a session partition the
    commands sent, no batch exceeds the pipeline depth, and each command keeps its
    own line.  Where a line is too long, or an article may follow a POST or an
    IHAVE, the deliveries show ([overlong_line_split], [posted_command_swallowed]). *)
Theorem commands_read_in_order `{Mc : !Memchr, Ms : !MemchrSpec}
    (items : list Incoming) (reader : BufReader) (depth : nat) :
  (1 <= depth <= MAX_SERVER_PIPELINE_DEPTH)%nat -> Forall incoming_ok items -> live reader ->
  pending reader = concat (in_wire <$> items) ->
  exists parts batches, concat parts = items
    /\ read_batches (S (length items)) depth reader = Ok batches
    /\ Forall2 batch_reads parts batches
    /\ Forall (fun part => 1 <= length part <= depth)%nat parts.
Proof. intros Hd Hok Hl Hp. apply read_batches_ok; (done || lia). Qed.

(** A transfer body is read exactly to its end: over any deliveries the reader
    consumes the dot-stuffed block the client wrote and leaves what follows; it
    fails exactly where the scan of a buffer finds the body malformed or cut. *)
Theorem transfer_body_read (reader : BufReader) :
  live reader ->
  match scan_dot_terminated_body (pending reader) 0 with
  | TransferBodyScan.Complete e => exists reader' lines,
      read_dot_terminated_body reader = (Ok tt, reader') /\ live reader'
      /\ Forall (Forall plain) lines /\ e = length (stuffed_block lines)
      /\ pending reader = stuffed_block lines ++ pending reader'
  | TransferBodyScan.Incomplete => exists reader',
      read_dot_terminated_body reader = (Err truncated_body, reader')
  | TransferBodyScan.Invalid => exists e reader',
      read_dot_terminated_body reader = (Err e, reader') /\ io_kind e = ErrorKind.InvalidData
  end.
Proof.
  intros Hl. pose proof (read_body_correct reader Hl) as Hv. unfold body_verdict in Hv.
  rewrite <- scan_start in Hv.
  destruct (scan_dot_terminated_body (pending reader) 0) as [e| |] eqn:Hs; [|done|].
  - destruct Hv as (r' & -> & Hl' & Hp' & _). apply scan_complete_iff in Hs as (lines & rest & Hlines & Heq & ->).
    exists r', lines. rewrite Hp', Heq, drop_app_length. done.
  - destruct Hv as (r' & [-> | ->]); by eexists _, r'.
Qed.

(** ** Where the delivery shows *)

Definition batch_kinds (r : result (list Batch) IoError) : result (list (list RequestKind.RequestKind)) IoError :=
  let? batches := r in Ok ((fun b => pc_kind <$> ba_commands b) <$> batches).

Definition reader_of (deliveries : list bytes) : BufReader :=
  {| br_buffer := []; br_source := Ok <$> deliveries |}.

(** A line over the limit is dropped whole when one read delivers it. When the
    read stops inside it, only what was read is dropped, and the end of the line
    is taken for a command. *)
Lemma overlong_line_split :
  let line := replicate 5000 65 ++ lit "QUIT" ++ CRLF in
  batch_kinds (read_batches 5 16 (reader_of [line])) = Ok [[RequestKind.Unknown]]
  /\ batch_kinds (read_batches 5 16 (reader_of [take 5000 line; drop 5000 line]))
     = Ok [[RequestKind.Unknown]; [RequestKind.Quit]].
Proof. split; vm_compute; reflexivity. Qed.

(** POST is refused without an article, so a client may pipeline after it; a
    following command with a colon is taken for the article when one read
    delivers both, and the session fails waiting for the end of it. *)
Lemma posted_command_swallowed :
  let post := lit "POST" ++ CRLF in
  let more := lit "HDR :lines 1" ++ CRLF ++ lit "QUIT" ++ CRLF in
  batch_kinds (read_batches 5 16 (reader_of [post; more]))
    = Ok [[RequestKind.Post]; [RequestKind.Hdr; RequestKind.Quit]]
  /\ batch_kinds (read_batches 5 16 (reader_of [post ++ more])) = Err truncated_body.
Proof. split; vm_compute; reflexivity. Qed.

Definition sample_incoming : list Incoming :=
  [{| in_line := lit "GROUP alt.test"; in_body := None |};
   {| in_line := lit "TAKETHIS <a@b>"; in_body := Some [lit "Subject: x"; []; lit ".dot"] |};
   {| in_line := lit "QUIT"; in_body := None |}].

Lemma sample_incoming_ok : Forall incoming_ok sample_incoming.
Proof.
  repeat apply List.Forall_cons; [..|constructor]; split; cbn [in_line in_body];
    try (apply Nat.leb_le; vm_compute; reflexivity); try (by repeat constructor);
    split; (vm_compute; reflexivity) || by repeat constructor.
Qed.

Definition sample_reader : BufReader :=
  let input := concat (in_wire <$> sample_incoming) in
  reader_of [take 20 input; drop 20 input].

Lemma sample_reader_live :
  live sample_reader /\ pending sample_reader = concat (in_wire <$> sample_incoming).
Proof. split; [repeat constructor; by eexists|vm_compute; reflexivity]. Qed.

Lemma commands_read_in_order_witness :
  exists parts batches, concat parts = sample_incoming
    /\ read_batches 4 2 sample_reader = Ok batches
    /\ Forall2 batch_reads parts batches
    /\ Forall (fun part => 1 <= length part <= 2)%nat parts.
Proof.
  destruct sample_reader_live as [Hl Hp].
  apply (commands_read_in_order sample_incoming sample_reader 2).
  - unfold MAX_SERVER_PIPELINE_DEPTH. lia.
  - exact sample_incoming_ok.
  - exact Hl.
  - exact Hp.
Defined.

Lemma transfer_body_read_witness :
  exists reader' lines,
    read_dot_terminated_body (reader_of [lit "..a"; CRLF ++ lit "."; CRLF ++ lit "QUIT"])
      = (Ok tt, reader') /\ live reader'
    /\ Forall (Forall plain) lines
    /\ 8%nat = length (stuffed_block lines)
    /\ pending (reader_of [lit "..a"; CRLF ++ lit "."; CRLF ++ lit "QUIT"])
       = stuffed_block lines ++ pending reader'.
Proof.
  refine (transfer_body_read (reader_of [lit "..a"; CRLF ++ lit "."; CRLF ++ lit "QUIT"]) _).
  repeat constructor; by eexists.
Defined.
