(* ===== verification/ServerIndex.v ===== *)
(** * The article store index and the session state ([src/src/lib.rs])

    The index the server builds over its article directory
    ([ArticleStoreIndex::build]), what a session has selected ([SessionState]),
    and the responses the index gives to LIST, GROUP, LISTGROUP, NEWGROUPS,
    NEWNEWS, OVER, XOVER, HDR and XHDR. *)
From S2P Require Import Prelude Utf8 Decimal Memchr Args Terminator Kinds RequestLine.
From S2P Require Import Article ResponseFrame ClientWire Text Wildmat OrderedMap.
From S2P Require Import ServerDates ServerCommands ServerResponses ArticleDates.

Local Open Scope Z_scope.
Local Open Scope rust_scope.

(** ** The index *)

Record ArticleStoreGroup : Type := { group_article_numbers : list Z; group_active_time : Z }.

Record ArticleStoreEntry : Type := {
  entry_message_id : bytes;
  entry_newsgroups : list bytes;
  entry_date_key : option Z;
  entry_subject : bytes;
  entry_from : bytes;
  entry_date : bytes;
  entry_references : bytes;
  entry_overview_bytes : Z;
  entry_overview_lines : Z;
}.

(** The message-ids are a hash map, of which only lookups are used: the last
    insertion of a key comes first. *)
Record ArticleStoreIndex : Type := {
  index_groups : list (bytes * ArticleStoreGroup);
  index_articles_by_number : list (Z * ArticleStoreEntry);
  index_articles_by_message_id : list (bytes * Z);
}.

Definition index_group (self : ArticleStoreIndex) (name : bytes) : option ArticleStoreGroup :=
  btree_get (index_groups self) name.

Definition article_numbers_for_group (self : ArticleStoreIndex) (name : bytes) : option (list Z) :=
  group_article_numbers <$> index_group self name.

Fixpoint assoc_get (m : list (bytes * Z)) (key : bytes) : option Z :=
  match m with
  | [] => None
  | (k, v) :: m => if bytes_eqb k key then Some v else assoc_get m key
  end.

Definition article_number_for_message_id (self : ArticleStoreIndex) (message_id : bytes) : option Z :=
  assoc_get (index_articles_by_message_id self) message_id.

Definition article_entry (self : ArticleStoreIndex) (article_id : Z) : option ArticleStoreEntry :=
  btree_get (index_articles_by_number self) article_id.

Definition article_entry_for_message_id (self : ArticleStoreIndex) (message_id : bytes)
    : option ArticleStoreEntry :=
  article_number_for_message_id self message_id ≫= article_entry self.

(** ** Building it *)

(** A directory tree as [fs::read_dir] walks it: the files with their content. *)
Inductive Node : Type :=
| File (content : bytes)
| Directory (entries : list (bytes * Node))
| Special.

(** [collect_article_paths]: the contents of the files whose names are digits,
    outside the directories named [msgid].  Reading the tree does not fail. *)
Fixpoint collect_articles (node : Node) : list bytes :=
  match node with
  | Directory entries =>
      (fix recurse (entries : list (bytes * Node)) : list bytes :=
         match entries with
         | [] => []
         | (name, entry) :: entries =>
             match entry with
             | Directory _ =>
                 if bytes_eqb name (lit "msgid") then recurse entries
                 else collect_articles entry ++ recurse entries
             | File content =>
                 if forallb is_ascii_digit name then content :: recurse entries
                 else recurse entries
             | Special => recurse entries
             end
         end) entries
  | _ => []
  end.

(** [value.split(',')], each name trimmed, the empty ones left out. *)
Definition parse_newsgroups (value : bytes) : list bytes :=
  match from_utf8 value with
  | None => []
  | Some _ =>
      List.filter (fun group => negb (length group =? 0)%nat)
        (trim <$> split_on (Z.eqb COMMA) value)
  end.

Definition article_size_for_overview (headers body : bytes) : Z :=
  Z.of_nat (length headers) + Z.of_nat (length body) + 2.

Definition body_line_count (body : bytes) : Z :=
  Z.of_nat (length (List.filter (Z.eqb LF) body)).

Record ArticleStoreGroupBuilder : Type := {
  builder_article_numbers : list Z;
  builder_active_time : Z;
}.

(** The three maps while the articles are read. *)
Record IndexBuilder : Type := {
  ib_groups : list (bytes * ArticleStoreGroupBuilder);
  ib_articles_by_number : list (Z * ArticleStoreEntry);
  ib_articles_by_message_id : list (bytes * Z);
}.

Section build.
Context `{Mc : !Memchr}.
Variable find_end : bytes -> option nat.

Definition header_or_empty (headers : option bytes) (name : bytes) : bytes :=
  default [] (headers ≫= fun headers => get headers name).

(** The overflow of the date's arithmetic panics: [None]. *)
Definition article_store_entry (article : Article) : option ArticleStoreEntry :=
  let headers := article_headers article in
  let newsgroups :=
    default [] ((fun value => parse_newsgroups value)
                  <$> (headers ≫= fun headers => get headers (lit "Newsgroups"))) in
  let body := default [] (article_body article) in
  date_key ← match headers ≫= fun headers => get headers (lit "Date") with
             | Some value => parse_rfc2822_date_key value
             | None => Some None
             end;
  Some {| entry_message_id := article_message_id article;
          entry_newsgroups := newsgroups;
          entry_date_key := date_key;
          entry_subject := header_or_empty headers (lit "Subject");
          entry_from := header_or_empty headers (lit "From");
          entry_date := header_or_empty headers (lit "Date");
          entry_references := header_or_empty headers (lit "References");
          entry_overview_bytes :=
            match headers with
            | Some headers => article_size_for_overview headers body
            | None => Z.of_nat (length body)
            end;
          entry_overview_lines := body_line_count body |}.

(** [groups.entry(name).or_default()], with the article added. *)
Definition add_to_group (article_number : Z) (date_key : option Z)
    (groups : list (bytes * ArticleStoreGroupBuilder)) (group_name : bytes)
    : list (bytes * ArticleStoreGroupBuilder) :=
  let builder := default {| builder_article_numbers := []; builder_active_time := 0 |}
                   (btree_get groups group_name) in
  btree_insert group_name
    {| builder_article_numbers := builder_article_numbers builder ++ [article_number];
       builder_active_time := Z.max (builder_active_time builder) (default 0 date_key) |} groups.

Definition add_article (builder : IndexBuilder) (content : bytes) : option IndexBuilder :=
  match article_parse find_end content with
  | Err _ => Some builder
  | Ok article =>
      match article_number article with
      | None => Some builder
      | Some number =>
          entry ← article_store_entry article;
          Some {| ib_groups := fold_left (add_to_group number (entry_date_key entry))
                    (entry_newsgroups entry) (ib_groups builder);
                  ib_articles_by_number := btree_insert number entry (ib_articles_by_number builder);
                  ib_articles_by_message_id :=
                    (article_message_id article, number) :: ib_articles_by_message_id builder |}
      end
  end.

Fixpoint add_articles (builder : IndexBuilder) (contents : list bytes) : option IndexBuilder :=
  match contents with
  | [] => Some builder
  | content :: contents => builder ← add_article builder content; add_articles builder contents
  end.

Definition finish_group (builder : ArticleStoreGroupBuilder) : ArticleStoreGroup :=
  {| group_article_numbers := dedup (sort_unstable (builder_article_numbers builder));
     group_active_time := builder_active_time builder |}.

Definition finish_index (builder : IndexBuilder) : ArticleStoreIndex :=
  {| index_groups := (fun g => (fst g, finish_group (snd g))) <$> ib_groups builder;
     index_articles_by_number := ib_articles_by_number builder;
     index_articles_by_message_id := ib_articles_by_message_id builder |}.

Definition build_index (root : Node) : option ArticleStoreIndex :=
  finish_index <$> add_articles {| ib_groups := []; ib_articles_by_number := [];
                                   ib_articles_by_message_id := [] |} (collect_articles root).
End build.

(** ** The state of a session *)

Inductive SelectedGroup : Type :=
| Fixture (group : FixtureGroup.FixtureGroup)
| Indexed (group_name : bytes).

Record SessionState : Type := {
  ss_group_selected : bool;
  ss_selected_group : option SelectedGroup;
  ss_current_article : option Z;
}.

Definition session_state_default : SessionState :=
  {| ss_group_selected := false; ss_selected_group := None; ss_current_article := None |}.

Definition selected_article_numbers (self : SelectedGroup) (index : option ArticleStoreIndex)
    : option (list Z) :=
  match self with
  | Fixture group => Some (FixtureGroup.article_numbers group)
  | Indexed group_name => index ≫= fun index => article_numbers_for_group index group_name
  end.

Definition selected_article_count (self : SelectedGroup) (index : option ArticleStoreIndex) : Z :=
  match selected_article_numbers self index with
  | Some articles => Z.of_nat (length articles)
  | None => 0
  end.

Definition selected_name (self : SelectedGroup) (index : option ArticleStoreIndex) : option bytes :=
  match self with
  | Fixture group => Some (FixtureGroup.name group)
  | Indexed group_name =>
      index ≫= fun index => (fun _ => group_name) <$> btree_get (index_groups index) group_name
  end.

Definition article_count (self : SessionState) (index : option ArticleStoreIndex) : Z :=
  match ss_selected_group self with
  | Some group => selected_article_count group index
  | None => FixtureGroup.article_count FixtureGroup.AltTest
  end.

Definition current_group_articles (self : SessionState) (index : option ArticleStoreIndex)
    : option (list Z) :=
  ss_selected_group self ≫= fun group => selected_article_numbers group index.

Definition selected_group_name (self : SessionState) (index : option ArticleStoreIndex)
    : option bytes :=
  ss_selected_group self ≫= fun group => selected_name group index.

Definition current_group_contains (self : SessionState) (article_id : Z)
    (index : option ArticleStoreIndex) : bool :=
  is_some_and (current_group_articles self index)
    (fun articles => match binary_search articles article_id with Some _ => true | None => false end).

Definition current_group_previous_article (self : SessionState) (article_id : Z)
    (index : option ArticleStoreIndex) : option Z :=
  articles ← current_group_articles self index;
  position ← binary_search articles article_id;
  match position with O => None | S idx => articles !! idx end.

Definition current_group_next_article (self : SessionState) (article_id : Z)
    (index : option ArticleStoreIndex) : option Z :=
  articles ← current_group_articles self index;
  position ← binary_search articles article_id;
  articles !! (position + 1)%nat.

(** ** Responses of the index

    Each writes into a buffer of the session and returns all of it. *)

Definition low_of (articles : list Z) : Z := default 0 (head articles).
Definition high_of (articles : list Z) : Z := default 0 (list.last articles).

(** [format_active_group_response_into] appends: the buffer is not cleared. *)
Definition format_active_group_response_into (response prefix args : bytes)
    (index : ArticleStoreIndex) (format_line : bytes -> bytes -> ArticleStoreGroup -> bytes) : bytes :=
  let response := response ++ prefix in
  let response :=
    fold_left
      (fun response '(group_name, group) =>
         if negb (length args =? 0)%nat && negb (wildmat_matches args group_name) then response
         else format_line response group_name group)
      (index_groups index) response in
  response ++ DOT_TERMINATOR.

Definition active_line (response group_name : bytes) (group : ArticleStoreGroup) : bytes :=
  response ++ group_name ++ lit " " ++ print_decimal (high_of (group_article_numbers group))
    ++ lit " " ++ print_decimal (low_of (group_article_numbers group)) ++ bstr " y\r\n".

Definition list_active_response_for_index_into (response args : bytes) (index : ArticleStoreIndex)
    : bytes :=
  format_active_group_response_into response (bstr "215 list of newsgroups follows\r\n") args index
    active_line.

Definition list_active_times_response_for_index_into (response args : bytes)
    (index : ArticleStoreIndex) : bytes :=
  format_active_group_response_into response (bstr "215 information follows\r\n") args index
    (fun response group_name group =>
       response ++ group_name ++ lit " " ++ print_decimal (group_active_time group)
         ++ bstr " bench@nntpbench.local\r\n").

Definition list_newsgroups_response_for_index_into (response args : bytes)
    (index : ArticleStoreIndex) : bytes :=
  format_active_group_response_into response (bstr "215 information follows\r\n") args index
    (fun response group_name _ => response ++ group_name ++ bstr " article_dir-backed group\r\n").

Definition newgroups_response_for_index_into (args : bytes) (index : ArticleStoreIndex) (now : Z)
    : bytes :=
  let cutoff := newgroups_datetime_timestamp args now in
  let response := bstr "231 list of new newsgroups follows\r\n" in
  let response :=
    fold_left
      (fun response '(group_name, group) =>
         if is_some_and cutoff (fun cutoff => group_active_time group <? cutoff) then response
         else active_line response group_name group)
      (index_groups index) response in
  response ++ DOT_TERMINATOR.

Definition newnews_response_for_index_into (args : bytes) (index : ArticleStoreIndex) (now : Z)
    : bytes :=
  let cutoff := newnews_datetime_timestamp args now in
  let wildmat := default [] (first_command_arg args) in
  let response := bstr "230 list of new articles follows\r\n" in
  let seen :=
    fold_left
      (fun seen '(article_id, entry) =>
         if is_some_and cutoff (fun cutoff => default 0 (entry_date_key entry) <? cutoff) then seen
         else if negb (length wildmat =? 0)%nat
                 && negb (existsb (wildmat_matches wildmat) (entry_newsgroups entry)) then seen
         else btree_insert article_id (entry_message_id entry) seen)
      (index_articles_by_number index) [] in
  let response :=
    fold_left (fun response '(_, message_id) => response ++ message_id ++ CRLF) seen response in
  response ++ DOT_TERMINATOR.

(** *** GROUP and LISTGROUP *)

Definition write_status_line (group_name : bytes) (articles : list Z) : bytes :=
  lit "211 " ++ print_decimal (Z.of_nat (length articles)) ++ lit " "
    ++ print_decimal (low_of articles) ++ lit " " ++ print_decimal (high_of articles) ++ lit " "
    ++ group_name ++ CRLF.

Definition write_group_response (group_name : bytes) (articles : list Z) : bytes :=
  write_status_line group_name articles.

Definition write_all_article_lines_and_terminator (response : bytes) (articles : list Z) : bytes :=
  fold_left (fun response article => response ++ print_decimal article ++ CRLF) articles response
    ++ DOT_TERMINATOR.

Definition write_selected_article_lines_and_terminator (response : bytes) (articles : list Z)
    (start : Z) (end_ : option Z) : bytes :=
  let end_ := default u64_max end_ in
  fold_left
    (fun response article =>
       if (start <=? article) && (article <=? end_)
       then response ++ print_decimal article ++ CRLF else response)
    articles response
    ++ DOT_TERMINATOR.

Definition write_listgroup_response (group_name : bytes) (articles : list Z)
    (range : option (Z * option Z)) : bytes :=
  let response := write_status_line group_name articles in
  match range with
  | Some (start, end_) => write_selected_article_lines_and_terminator response articles start end_
  | None => write_all_article_lines_and_terminator response articles
  end.

Definition group_response_for_args_with_index_into (args : bytes) (index : ArticleStoreIndex)
    : option bytes :=
  _ ← from_utf8 args;
  let group_name := trim args in
  match article_numbers_for_group index group_name with
  | Some articles => Some (write_group_response group_name articles)
  | None =>
      (fun group => write_group_response (FixtureGroup.name group) (FixtureGroup.article_numbers group))
        <$> fixture_group_from_name args
  end.

(** The group a LISTGROUP is about: its argument, else the current group. *)
Definition listgroup_group_name (args : bytes) (current_group : option bytes) : bytes :=
  let explicit :=
    group ← listgroup_explicit_group_arg args;
    _ ← from_utf8 group;
    let group := trim group in
    if (length group =? 0)%nat then None else Some group in
  default (lit "alt.test") (option_or explicit current_group).

Definition listgroup_response_for_args_with_index_into (args : bytes) (current_group : option bytes)
    (index : ArticleStoreIndex) : option bytes :=
  let group_name := listgroup_group_name args current_group in
  match article_numbers_for_group index group_name with
  | Some articles =>
      let range := listgroup_range_arg args ≫= listgroup_range_bounds in
      Some (write_listgroup_response group_name articles range)
  | None =>
      (fun group => write_listgroup_response group_name (FixtureGroup.article_numbers group) None)
        <$> fixture_group_from_name group_name
  end.

Definition navigation_not_found : IoError :=
  {| io_kind := ErrorKind.NotFound;
     io_message := lit "navigation article not found in article store index" |}.

Definition build_navigation_article_response_into (index : ArticleStoreIndex) (article_id : Z)
    : result bytes IoError :=
  let? entry := ok_or navigation_not_found (article_entry index article_id) in
  Ok (lit "223 " ++ print_decimal article_id ++ lit " " ++ entry_message_id entry
        ++ bstr " article retrieved - request text separately\r\n").

(** *** Overviews and headers *)

Module IndexedArticleSelector.
Inductive IndexedArticleSelector : Type := Number (article : Z) | MessageId (article : Z).

Definition article_number (self : IndexedArticleSelector) : Z :=
  match self with Number n | MessageId n => n end.
End IndexedArticleSelector.

Module HeaderMessageIdRowKey.
Inductive HeaderMessageIdRowKey : Type := Zero | MessageId.
End HeaderMessageIdRowKey.

Definition message_id_from_selector (selector : bytes) : option bytes :=
  _ ← from_utf8 selector;
  match message_id_from_str_or_wrap (trim selector) with Ok m => Some m | Err _ => None end.

Definition append_overview_row_for_entry (output : bytes)
    (selector : IndexedArticleSelector.IndexedArticleSelector) (entry : ArticleStoreEntry) : bytes :=
  output
    ++ match selector with
       | IndexedArticleSelector.Number article_number => print_decimal article_number ++ [HT]
       | IndexedArticleSelector.MessageId _ => lit "0" ++ [HT]
       end
    ++ entry_subject entry ++ [HT] ++ entry_from entry ++ [HT] ++ entry_date entry ++ [HT]
    ++ entry_message_id entry ++ [HT] ++ entry_references entry ++ [HT]
    ++ print_decimal (entry_overview_bytes entry) ++ [HT]
    ++ print_decimal (entry_overview_lines entry) ++ CRLF.

Definition append_header_row_for_entry (output : bytes)
    (selector : IndexedArticleSelector.IndexedArticleSelector) (entry : ArticleStoreEntry)
    (header_name : bytes) (message_id_row_key : HeaderMessageIdRowKey.HeaderMessageIdRowKey) : bytes :=
  output
    ++ match selector with
       | IndexedArticleSelector.Number article_number => print_decimal article_number ++ lit " "
       | IndexedArticleSelector.MessageId _ =>
           match message_id_row_key with
           | HeaderMessageIdRowKey.Zero => lit "0 "
           | HeaderMessageIdRowKey.MessageId => entry_message_id entry ++ lit " "
           end
       end
    ++ (if eq_ignore_ascii_case header_name (lit "Message-ID") then entry_message_id entry
        else if eq_ignore_ascii_case header_name (lit ":bytes")
        then print_decimal (entry_overview_bytes entry)
        else if eq_ignore_ascii_case header_name (lit ":lines")
        then print_decimal (entry_overview_lines entry)
        else if eq_ignore_ascii_case header_name (lit "Subject") then entry_subject entry
        else if eq_ignore_ascii_case header_name (lit "From") then entry_from entry
        else if eq_ignore_ascii_case header_name (lit "Date") then entry_date entry
        else if eq_ignore_ascii_case header_name (lit "References") then entry_references entry
        else [])
    ++ CRLF.

(** A response written to the end, or given up where it stands: the buffer keeps
    what was written. *)
Inductive Filled : Type := Written (buffer : bytes) | GivenUp (buffer : bytes).

(** The [?] of a function that has started to fill its buffer. *)
Definition or_give_up {A} (buffer : bytes) (o : option A) (k : A -> Filled) : Filled :=
  match o with Some a => k a | None => GivenUp buffer end.

(** The rows of the articles of a range. *)
Fixpoint append_rows (row : bytes -> Z -> ArticleStoreEntry -> bytes) (index : ArticleStoreIndex)
    (response : bytes) (articles : list Z) (k : bytes -> Filled) : Filled :=
  match articles with
  | [] => k response
  | article_number :: articles =>
      or_give_up response (article_entry index article_number) (fun entry =>
        append_rows row index (row response article_number entry) articles k)
  end.

Definition in_bounds (start : Z) (end_ : option Z) (articles : list Z) : list Z :=
  let upper := default u64_max end_ in
  List.filter (fun article => (start <=? article) && (article <=? upper)) articles.

Definition terminated (response : bytes) : Filled := Written (response ++ DOT_TERMINATOR).

(** The rows a selector asks for, in the form of [row]. *)
Definition selected_rows (row : bytes -> IndexedArticleSelector.IndexedArticleSelector ->
      ArticleStoreEntry -> bytes) (response selector : bytes) (session_state : SessionState)
    (index : ArticleStoreIndex) : Filled :=
  let number_row response number := row response (IndexedArticleSelector.Number number) in
  if overview_selector_is_message_id selector then
    or_give_up response (message_id_from_selector selector) (fun message_id =>
    or_give_up response (article_number_for_message_id index message_id) (fun article =>
    or_give_up response (article_entry index article) (fun entry =>
    terminated (row response (IndexedArticleSelector.MessageId article) entry))))
  else
    match listgroup_range_bounds selector with
    | Some (start, end_) =>
        or_give_up response (current_group_articles session_state (Some index)) (fun articles =>
        append_rows number_row index response (in_bounds start end_ articles) terminated)
    | None =>
        match parse_article_id_arg selector with
        | Some article_number =>
            if negb (current_group_contains session_state article_number (Some index))
            then Written response
            else
              or_give_up response (article_entry index article_number) (fun entry =>
              terminated (number_row response article_number entry))
        | None => terminated response
        end
    end.

(** The row of the current article. *)
Definition current_row (row : bytes -> IndexedArticleSelector.IndexedArticleSelector ->
      ArticleStoreEntry -> bytes) (response : bytes) (session_state : SessionState)
    (index : ArticleStoreIndex) : Filled :=
  or_give_up response (ss_current_article session_state) (fun article =>
  or_give_up response (article_entry index article) (fun entry =>
  terminated (row response (IndexedArticleSelector.Number article) entry))).

Definition overview_response_for_index_into (prefix args : bytes) (session_state : SessionState)
    (index : ArticleStoreIndex) : Filled :=
  if (length args =? 0)%nat then current_row append_overview_row_for_entry prefix session_state index
  else selected_rows append_overview_row_for_entry prefix args session_state index.

(** Without a header name the buffer is left alone. *)
Definition header_response_for_index_into (response prefix args : bytes)
    (session_state : SessionState) (index : ArticleStoreIndex)
    (message_id_row_key : HeaderMessageIdRowKey.HeaderMessageIdRowKey) : Filled :=
  or_give_up response (header_query_name_from_args args) (fun header_name =>
  let row response selector entry :=
    append_header_row_for_entry response selector entry header_name message_id_row_key in
  if (command_arg_count args =? 1)%nat then current_row row prefix session_state index
  else
    or_give_up prefix (overview_selector_arg RequestKind.Hdr args) (fun selector =>
    selected_rows row prefix selector session_state index)).
