(* ===== verification/ServerPayload.v ===== *)
(** * Generated payloads and responses of the server ([src/src/lib.rs], [src/src/payload.rs])

    The synthetic articles of the fixture server: the payload it repeats or
    encodes, the responses prebuilt at start-up, the responses built for a
    selected article or a message-id, and the configuration that holds them
    ([ServerConfig]).  yEnc encoding is the third-party crate [yenc], a
    parameter; a slice out of range panics, which is [None]. *)
From S2P Require Import Prelude Utf8 Decimal Memchr Args Terminator Kinds ResponseFrame.
From S2P Require Import ClientWire ServerResponses ServerIndex.

Local Open Scope Z_scope.
Local Open Scope rust_scope.

Module PayloadMode.
Inductive PayloadMode : Type := Yenc | Plain.
End PayloadMode.

(** ** Payloads *)

Definition BODY_LINE : bytes :=
  bstr "This is synthetic NNTP article payload for throughput and latency benchmarking\r\n".

(** [usize::div_ceil]. *)
Definition div_ceil (a b : nat) : nat := (a / b + if (a mod b =? 0)%nat then 0 else 1)%nat.

Definition repeat_bytes (copies : nat) (line : bytes) : bytes := concat (replicate copies line).

Definition append_repeated_payload_at_least (buffer line : bytes) (min_bytes : nat) : bytes :=
  if (length line =? 0)%nat then buffer
  else buffer ++ repeat_bytes (div_ceil min_bytes (length line)) line.

Definition repeated_payload_len_at_least (min_bytes : nat) : nat :=
  (div_ceil min_bytes (length BODY_LINE) * length BODY_LINE)%nat.

Definition build_repeated_payload (target_bytes : nat) : bytes :=
  append_repeated_payload_at_least [] BODY_LINE target_bytes.

(** *** The pseudo-random bytes of a yEnc payload: xorshift on 32 bits *)

Definition u32_shl (value : Z) (n : Z) : Z := Z.shiftl value n mod 4294967296.

Definition xorshift (random : Z) : Z :=
  let random := Z.lxor random (u32_shl random 13) in
  let random := Z.lxor random (Z.shiftr random 17) in
  Z.lxor random (u32_shl random 5).

(** [random.to_le_bytes()[0]]. *)
Definition low_byte (random : Z) : Z := Z.land random 255.

Fixpoint random_bytes (size : nat) (random : Z) : bytes :=
  match size with
  | O => []
  | S size => let random := xorshift random in low_byte random :: random_bytes size random
  end.

Definition RANDOM_SEED : Z := 0x7ac385d1.
Definition EMPTY_YENC_PAYLOAD : bytes :=
  bstr "=ybegin line=128 size=0 name=nntpbench.bin\r\n=yend size=0 crc32=00000000\r\n".
Definition YENC_NAME : bytes := lit "nntpbench.bin".

Section yenc.
(** [EncodeOptions::new().begin(b).end(e).encode_stream(input, _, length, name)]:
    what it writes. *)
Variable encode_stream : nat -> nat -> bytes -> nat -> bytes -> bytes.

Definition encode_yenc_payload (size : nat) : bytes :=
  if (size =? 0)%nat then EMPTY_YENC_PAYLOAD
  else encode_stream 1%nat size (random_bytes size RANDOM_SEED) size YENC_NAME.

Definition build_server_payload (mode : PayloadMode.PayloadMode) (size : nat) : bytes :=
  match mode with
  | PayloadMode.Plain => build_repeated_payload size
  | PayloadMode.Yenc => encode_yenc_payload size
  end.
End yenc.

(** ** Prebuilt responses *)

Record GeneratedResponse : Type := { gr_prefix : bytes; gr_target_bytes : nat }.

Definition total_len (self : GeneratedResponse) : nat :=
  let payload_bytes :=
    if (length (gr_prefix self) <? gr_target_bytes self)%nat then
      let missing := (gr_target_bytes self - length (gr_prefix self))%nat in
      (div_ceil missing (length BODY_LINE) * length BODY_LINE)%nat
    else 0%nat in
  (length (gr_prefix self) + payload_bytes + length DOT_TERMINATOR)%nat.

Definition build_generated_response (prefix : bytes) (target_bytes : nat) : bytes :=
  let buffer := prefix in
  let buffer :=
    if (length prefix <? target_bytes)%nat
    then append_repeated_payload_at_least buffer BODY_LINE (target_bytes - length prefix)
    else buffer in
  append_dot_terminator buffer.

Definition frame_prebuilt_payload (prefix payload : bytes) : bytes :=
  append_dot_terminator (prefix ++ payload).

(** [&payload[..n]]. *)
Definition slice_to (payload : bytes) (n : nat) : option bytes :=
  if (n <=? length payload)%nat then Some (take n payload) else None.

Definition prepared_payload_slice (mode : PayloadMode.PayloadMode) (payload : bytes)
    (target_bytes header_len : nat) : option bytes :=
  match mode with
  | PayloadMode.Yenc => Some payload
  | PayloadMode.Plain =>
      slice_to payload (repeated_payload_len_at_least (target_bytes - header_len))
  end.

(** ** The configuration *)

(** A path is its list of components. *)
Definition path : Type := list bytes.

(** The file system: opening a file gives what its reads will return, an empty
    read or the end of the list being the end of the file; [walk] is the tree
    [fs::read_dir] finds below a directory. *)
Record File : Type := { file_reads : list (result bytes IoError) }.

Class FileSystem : Type := {
  file_open : path -> result File IoError;
  walk : path -> result Node IoError;
}.

(** The arguments that shape responses; sockets, pools and limits are left out. *)
Record ServerArgs : Type := {
  sa_body_bytes : nat;
  sa_article_bytes : nat;
  sa_payload_mode : PayloadMode.PayloadMode;
  sa_article_dir : option path;
  sa_max_pipeline_depth : nat;
  sa_flush : bool;
  sa_pending_write_bytes : nat;
}.

Record ServerConfig : Type := {
  body_bytes : nat;
  article_bytes : nat;
  payload_mode : PayloadMode.PayloadMode;
  body_payload : bytes;
  body_response : bytes;
  article_response : bytes;
  article_payload : bytes;
  article_dir : option path;
  article_index : option ArticleStoreIndex;
  max_pipeline_depth : nat;
  flush_after_batch : bool;
  pending_write_bytes : nat;
}.

Section config.
Context `{Mc : !Memchr, Fs : !FileSystem}.
Variable find_end : bytes -> option nat.
Variable encode_stream : nat -> nat -> bytes -> nat -> bytes -> bytes.

(** An index that cannot be read is left out; [None] is a panic of its dates. *)
Definition build_config_index (root : option path) : option (option ArticleStoreIndex) :=
  match root with
  | None => Some None
  | Some root =>
      match walk root with
      | Ok tree => Some <$> build_index find_end tree
      | Err _ => Some None
      end
  end.

Definition from_bound_args (args : ServerArgs) : option ServerConfig :=
  let mode := sa_payload_mode args in
  let body_payload := build_server_payload encode_stream mode (sa_body_bytes args) in
  let article_payload := build_server_payload encode_stream mode (sa_article_bytes args) in
  let '(body_response, article_response) :=
    match mode with
    | PayloadMode.Plain =>
        (build_generated_response BODY_RESPONSE_PREFIX (sa_body_bytes args),
         build_generated_response ARTICLE_RESPONSE_PREFIX (sa_article_bytes args))
    | PayloadMode.Yenc =>
        (frame_prebuilt_payload BODY_RESPONSE_PREFIX body_payload,
         frame_prebuilt_payload ARTICLE_RESPONSE_PREFIX article_payload)
    end in
  index ← build_config_index (sa_article_dir args);
  Some {| body_bytes := sa_body_bytes args; article_bytes := sa_article_bytes args;
          payload_mode := mode; body_payload := body_payload; body_response := body_response;
          article_response := article_response; article_payload := article_payload;
          article_dir := sa_article_dir args; article_index := index;
          max_pipeline_depth := Nat.min (Nat.max (sa_max_pipeline_depth args) 1) 1024;
          flush_after_batch := sa_flush args;
          pending_write_bytes := Nat.max (sa_pending_write_bytes args) 1 |}.
End config.

Definition head_response : bytes := HEAD_RESPONSE.
Definition stat_response : bytes := STAT_RESPONSE.

Definition article_payload_for_header (self : ServerConfig) (header_len : nat) : option bytes :=
  prepared_payload_slice (payload_mode self) (article_payload self) (article_bytes self) header_len.

Definition body_payload_for_header (self : ServerConfig) (header_len : nat) : option bytes :=
  prepared_payload_slice (payload_mode self) (body_payload self) (body_bytes self) header_len.

(** ** Responses built for a command

    Each clears its buffer, so it is a function of its arguments. *)

Definition append_synthetic_article_headers (buffer message_id : bytes) : bytes :=
  buffer
    ++ bstr "Path: nntpbench.local!mock\r\nFrom: Bench User <bench@nntpbench.local>\r\nNewsgroups: alt.binaries.bench\r\nSubject: nntpbench synthetic article\r\nMessage-ID: "
    ++ message_id ++ bstr "\r\nDate: Fri, 15 May 2026 00:00:00 +0000\r\n".

(** The number of a response, or zero for a message-id, and the id. *)
Definition response_line (code : bytes) (article_id : Z) (message_id text : bytes) : bytes :=
  code ++ lit " " ++ print_decimal article_id ++ lit " " ++ message_id ++ text.

Definition append_article_response_header (buffer : bytes) (article_id : Z) (message_id : bytes)
    : bytes :=
  append_synthetic_article_headers
    (buffer ++ response_line (lit "220") article_id message_id (bstr " article follows\r\n"))
    message_id ++ CRLF.

Definition build_article_response_header_into (article_id : Z) (message_id : bytes) : bytes :=
  append_article_response_header [] article_id message_id.

Definition append_message_id_article_response_header (buffer message_id : bytes) : bytes :=
  let buffer := buffer ++ lit "220 0 " in
  let buffer := buffer ++ message_id in
  let buffer := buffer ++ bstr " article follows\r\n" in
  append_synthetic_article_headers buffer message_id ++ CRLF.

(** [write!(&mut message_id, "<article.{article_id}@nntpbench.local>")]: it fits
    the sixty-four bytes of its buffer. *)
Definition selected_message_id (article_id : Z) : bytes :=
  lit "<article." ++ print_decimal article_id ++ lit "@nntpbench.local>".

Definition build_article_response_into (article_id : Z) (message_id : bytes) (config : ServerConfig)
    : option bytes :=
  let buffer := build_article_response_header_into article_id message_id in
  payload ← article_payload_for_header config (length buffer);
  Some (append_dot_terminator (buffer ++ payload)).

Definition build_selected_article_response_into (article_id : Z) (config : ServerConfig)
    : option bytes :=
  build_article_response_into article_id (selected_message_id article_id) config.

Definition build_message_id_article_response_into (message_id : bytes) (config : ServerConfig)
    : option bytes :=
  build_article_response_into 0 message_id config.

Definition build_body_response_into (article_id : Z) (message_id : bytes) (config : ServerConfig)
    : option bytes :=
  let buffer := response_line (lit "222") article_id message_id (bstr " body follows\r\n") in
  payload ← body_payload_for_header config (length buffer);
  Some (append_dot_terminator (buffer ++ payload)).

Definition build_selected_body_response_into (article_id : Z) (config : ServerConfig) : option bytes :=
  build_body_response_into article_id (selected_message_id article_id) config.

Definition build_message_id_body_response_into (message_id : bytes) (config : ServerConfig)
    : option bytes :=
  build_body_response_into 0 message_id config.

Definition build_head_response_into (article_id : Z) (message_id : bytes) : bytes :=
  let buffer := response_line (lit "221") article_id message_id (bstr " article retrieved\r\n") in
  append_dot_terminator (append_synthetic_article_headers buffer message_id).

Definition build_selected_head_response_into (article_id : Z) : bytes :=
  build_head_response_into article_id (selected_message_id article_id).

Definition build_message_id_head_response_into (message_id : bytes) : bytes :=
  build_head_response_into 0 message_id.

Definition build_stat_response_into (article_id : Z) (message_id : bytes) : bytes :=
  response_line (lit "223") article_id message_id (bstr " article retrieved\r\n").

Definition build_selected_stat_response_into (article_id : Z) : bytes :=
  build_stat_response_into article_id (selected_message_id article_id).

Definition build_message_id_stat_response_into (message_id : bytes) : bytes :=
  build_stat_response_into 0 message_id.
