(* ===== verification/ArticleStore.v ===== *)
(** * The article store's files ([src/src/article_store.rs])

    Where an article of a directory lives, by its number
    ([push_article_id_tree_path]) or its message-id ([push_message_id_tree_path]),
    and opening it.  The theorems show that no two articles share a file and that
    no message-id of a client leads out of the store. *)
From S2P Require Import Prelude Utf8 Decimal Args ClientWire ServerPayload.

Local Open Scope Z_scope.
Local Open Scope rust_scope.

Module ArticleStoreKey.
Inductive ArticleStoreKey : Type := Number (article_id : Z) | MessageId (message_id : bytes).
End ArticleStoreKey.

(** ** Paths *)

(** A write into an [ArrayString] fails when it does not fit. *)
Definition array_string (capacity : nat) (text : bytes) : option bytes :=
  if (length text <=? capacity)%nat then Some text else None.

(** [format!("{:03}", n)]. *)
Definition pad3 (n : Z) : bytes :=
  let digits := print_decimal n in replicate (3 - length digits) 48 ++ digits.

Definition invalid_article_id : IoError :=
  {| io_kind := ErrorKind.InvalidInput; io_message := lit "invalid article id" |}.

Definition push_article_id_tree_path (p : path) (article_id : Z) : result path IoError :=
  let? top := ok_or invalid_article_id (array_string 20 (pad3 (article_id / 1000000))) in
  let? middle := ok_or invalid_article_id (array_string 20 (pad3 ((article_id / 1000) mod 1000))) in
  let? leaf := ok_or invalid_article_id (array_string 20 (print_decimal article_id)) in
  Ok (p ++ [top; middle; leaf]).

Definition HEX : bytes := lit "0123456789abcdef".
Definition hex_digit (n : Z) : Z := nth (Z.to_nat n) HEX 0.
Definition hex_lower (data : bytes) : bytes :=
  concat ((fun byte => [hex_digit (Z.shiftr byte 4); hex_digit (Z.land byte 15)]) <$> data).

Definition path_too_long : IoError :=
  {| io_kind := ErrorKind.InvalidInput;
     io_message := lit "message-id path exceeds stack path encoder capacity" |}.

Definition push_hex_lower (capacity : nat) (data : bytes) : result bytes IoError :=
  if (capacity <? length data * 2)%nat then Err path_too_long else Ok (hex_lower data).

(** [None] is the panic of [&encoded[..2]]. *)
Definition push_message_id_tree_path (p : path) (message_id : bytes) : option (result path IoError) :=
  match push_hex_lower 1024 message_id with
  | Err e => Some (Err e)
  | Ok encoded =>
      first ← slice_to encoded 2;
      Some (Ok (p ++ [lit "msgid"; first; encoded]))
  end.

(** ** Opening *)

Section open.
Context `{Fs : !FileSystem}.

Definition open_optional_file (p : path) : result (option File) IoError :=
  match file_open p with
  | Ok file => Ok (Some file)
  | Err err =>
      match io_kind err with
      | ErrorKind.NotFound => Ok None
      | _ => Err err
      end
  end.

Definition key_path (root : path) (key : ArticleStoreKey.ArticleStoreKey)
    : option (result path IoError) :=
  match key with
  | ArticleStoreKey.Number article_id => Some (push_article_id_tree_path root article_id)
  | ArticleStoreKey.MessageId message_id => push_message_id_tree_path root message_id
  end.

Definition open_article_response_into (root : path) (key : ArticleStoreKey.ArticleStoreKey)
    : option (result (option File) IoError) :=
  match key_path root key with
  | None => None
  | Some (Err e) => Some (Err e)
  | Some (Ok p) => Some (open_optional_file p)
  end.
End open.

(** [file.read_to_end(&mut bytes)]. *)
Fixpoint read_to_end_loop (reads : list (result bytes IoError)) (bytes : bytes)
    : result Prelude.bytes IoError :=
  match reads with
  | [] => Ok bytes
  | Err e :: _ => Err e
  | Ok [] :: _ => Ok bytes
  | Ok data :: reads => read_to_end_loop reads (bytes ++ data)
  end.

Definition read_to_end (file : File) : result bytes IoError := read_to_end_loop (file_reads file) [].

(** ** Components of a path *)

(** A name of digits and lower-case letters is no separator and no dot. *)
Definition safe_name (name : bytes) : Prop :=
  name <> [] /\ Forall (fun b => 48 <= b <= 57 \/ 97 <= b <= 122) name.

Lemma digits_safe l : l <> [] -> forallb is_ascii_digit l = true -> safe_name l.
Proof.
  intros Hne Hd. split; [done|]. eapply Forall_forallb_impl; [|exact Hd].
  intros b ?%is_ascii_digit_spec. lia.
Qed.

Lemma print_decimal_safe n : 0 <= n <= u64_max -> safe_name (print_decimal n).
Proof.
  intros Hn. destruct (print_decimal_spec n Hn) as (Hd & _ & Hl). apply digits_safe; [|done].
  intros E. rewrite E in Hl. cbn in Hl. lia.
Qed.

Lemma pad3_spec n :
  0 <= n <= u64_max ->
  forallb is_ascii_digit (pad3 n) = true /\ decimal_value (pad3 n) = n
  /\ length (pad3 n) = Nat.max 3 (length (print_decimal n)).
Proof.
  intros Hn. destruct (print_decimal_spec n Hn) as (Hd & Hv & Hl). unfold pad3.
  set (d := print_decimal n) in *. split; [|split].
  - rewrite forallb_app, Hd, andb_true_r. apply forallb_forall. intros b Hb.
    apply list_elem_of_In, elem_of_replicate_inv in Hb as ->. done.
  - transitivity (decimal_value d); [|done]. generalize (3 - length d)%nat. intros k.
    induction k as [|k IH]; [done|]. exact IH.
  - rewrite length_app, length_replicate. lia.
Qed.

Lemma pad3_length n : 0 <= n <= u64_max -> (3 <= length (pad3 n) <= 20)%nat.
Proof.
  intros Hn. destruct (pad3_spec n Hn) as (_ & _ & ->).
  destruct (print_decimal_spec n Hn) as (_ & _ & Hl). lia.
Qed.

Lemma pad3_safe n : 0 <= n <= u64_max -> safe_name (pad3 n).
Proof.
  intros Hn. pose proof (pad3_length n Hn). apply digits_safe; [|by apply pad3_spec].
  intros E. rewrite E in H. cbn in H. lia.
Qed.

Lemma print_decimal_inj n m :
  0 <= n <= u64_max -> 0 <= m <= u64_max -> print_decimal n = print_decimal m -> n = m.
Proof.
  intros Hn Hm E. apply (f_equal parse_decimal) in E.
  rewrite !parse_print_decimal in E by done. by injection E.
Qed.

(** *** Hexadecimal names *)

Lemma hex_digits byte :
  0 <= byte < 256 -> 0 <= Z.shiftr byte 4 < 16 /\ 0 <= Z.land byte 15 < 16
    /\ byte = Z.shiftr byte 4 * 16 + Z.land byte 15.
Proof.
  intros Hb. rewrite Z.shiftr_div_pow2 by lia. change 15 with (Z.ones 4).
  rewrite Z.land_ones by lia. change (2 ^ 4) with 16.
  pose proof (Z.div_mod byte 16 ltac:(lia)). pose proof (Z.mod_pos_bound byte 16 ltac:(lia)).
  assert (0 <= byte / 16 < 16) by (split; [apply Z.div_pos | apply Z.div_lt_upper_bound]; lia). lia.
Qed.

Lemma hex_digit_values :
  forallb (fun n => (in_range 48 57 (hex_digit n) || in_range 97 122 (hex_digit n))
                    && forallb (fun m => (n =? m) || negb (hex_digit n =? hex_digit m))
                         [0;1;2;3;4;5;6;7;8;9;10;11;12;13;14;15])
    [0;1;2;3;4;5;6;7;8;9;10;11;12;13;14;15] = true.
Proof. reflexivity. Qed.

Lemma nibble_in n : 0 <= n < 16 -> In n [0;1;2;3;4;5;6;7;8;9;10;11;12;13;14;15].
Proof. intros H. cbn. lia. Qed.

Lemma hex_digit_safe n : 0 <= n < 16 -> 48 <= hex_digit n <= 57 \/ 97 <= hex_digit n <= 122.
Proof.
  intros Hn%nibble_in. pose proof hex_digit_values as H. rewrite forallb_forall in H.
  specialize (H n Hn). apply andb_true_iff in H as [H _].
  apply orb_true_iff in H as [H|H]; apply in_range_spec in H; [by left | by right].
Qed.

Lemma hex_digit_inj n m : 0 <= n < 16 -> 0 <= m < 16 -> hex_digit n = hex_digit m -> n = m.
Proof.
  intros Hn%nibble_in Hm%nibble_in E. pose proof hex_digit_values as H. rewrite forallb_forall in H.
  specialize (H n Hn). apply andb_true_iff in H as [_ H]. rewrite forallb_forall in H.
  specialize (H m Hm). rewrite E, Z.eqb_refl, orb_false_r in H. by apply Z.eqb_eq.
Qed.

Definition is_byte (b : Z) : Prop := 0 <= b < 256.

Lemma hex_lower_cons b l :
  hex_lower (b :: l) = hex_digit (Z.shiftr b 4) :: hex_digit (Z.land b 15) :: hex_lower l.
Proof. reflexivity. Qed.

Lemma hex_lower_length l : length (hex_lower l) = (length l * 2)%nat.
Proof. induction l as [|b l IH]; [done|]. rewrite hex_lower_cons. cbn. lia. Qed.

Lemma hex_lower_safe l :
  Forall is_byte l -> Forall (fun b => 48 <= b <= 57 \/ 97 <= b <= 122) (hex_lower l).
Proof.
  induction 1 as [|b l Hb _ IH]; [constructor|]. rewrite hex_lower_cons.
  destruct (hex_digits b Hb) as (H1 & H2 & _).
  constructor; [by apply hex_digit_safe|]. constructor; [by apply hex_digit_safe | done].
Qed.

Lemma hex_lower_inj l k :
  Forall is_byte l -> Forall is_byte k -> hex_lower l = hex_lower k -> l = k.
Proof.
  intros Hl. revert k. induction Hl as [|b l Hb _ IH]; intros ? [|c k Hc Hk]; [done..|].
  rewrite !hex_lower_cons. intros [= E1 E2 E]. apply IH in E as ->; [|done]. f_equal.
  destruct (hex_digits b Hb) as (B1 & B2 & ->), (hex_digits c Hc) as (C1 & C2 & ->).
  apply hex_digit_inj in E1; [|done..]. apply hex_digit_inj in E2; [|done..]. congruence.
Qed.

Lemma message_id_bytes m : message_id_shape m -> Forall is_byte m /\ (3 <= length m <= 250)%nat.
Proof.
  intros Hm. split.
  - eapply List.Forall_impl; [|by apply message_id_shape_ascii]. unfold is_ascii_byte, is_byte. lia.
  - destruct Hm as (inner & -> & Hl & _). rewrite !length_app. cbn. lia.
Qed.

(** ** Properties *)

Definition key_ok (key : ArticleStoreKey.ArticleStoreKey) : Prop :=
  match key with
  | ArticleStoreKey.Number n => 0 <= n <= u64_max
  | ArticleStoreKey.MessageId m => message_id_shape m
  end.

(** The three components of a key's path below the root. *)
Definition key_components (key : ArticleStoreKey.ArticleStoreKey) : list bytes :=
  match key with
  | ArticleStoreKey.Number n => [pad3 (n / 1000000); pad3 ((n / 1000) mod 1000); print_decimal n]
  | ArticleStoreKey.MessageId m => [lit "msgid"; take 2 (hex_lower m); hex_lower m]
  end.

Lemma array_string_fits capacity text :
  (length text <= capacity)%nat -> array_string capacity text = Some text.
Proof. intros H. unfold array_string. by rewrite (proj2 (Nat.leb_le _ _) H). Qed.

Lemma key_path_components root key :
  key_ok key -> key_path root key = Some (Ok (root ++ key_components key)).
Proof.
  destruct key as [n|m]; cbn [key_ok key_path key_components]; intros Hk.
  - assert (0 <= n / 1000000 <= u64_max) as H1
      by (split; [apply Z.div_pos | apply Z.div_le_upper_bound]; lia).
    pose proof (Z.mod_pos_bound (n / 1000) 1000 ltac:(lia)) as Hm.
    assert (0 <= (n / 1000) mod 1000 <= u64_max) as H2 by (unfold u64_max; lia).
    destruct (print_decimal_spec n Hk) as (_ & _ & H3).
    unfold push_article_id_tree_path.
    rewrite (array_string_fits _ (pad3 _)) by by apply pad3_length.
    rewrite (array_string_fits _ (pad3 ((n / 1000) mod 1000))) by by apply pad3_length.
    by rewrite array_string_fits by lia.
  - destruct (message_id_bytes m Hk) as [_ Hl].
    unfold push_message_id_tree_path, push_hex_lower, slice_to.
    rewrite (proj2 (Nat.ltb_ge _ _)) by lia. rewrite hex_lower_length.
    by rewrite (proj2 (Nat.leb_le _ _)) by lia.
Qed.

Lemma key_components_safe key : key_ok key -> Forall safe_name (key_components key).
Proof.
  destruct key as [n|m]; cbn [key_ok key_components]; intros Hk.
  - assert (0 <= n / 1000000 <= u64_max) as H1
      by (split; [apply Z.div_pos | apply Z.div_le_upper_bound]; lia).
    pose proof (Z.mod_pos_bound (n / 1000) 1000 ltac:(lia)) as Hm.
    assert (0 <= (n / 1000) mod 1000 <= u64_max) as H2 by (unfold u64_max; lia).
    constructor; [by apply pad3_safe|]. constructor; [by apply pad3_safe|].
    constructor; [by apply print_decimal_safe | constructor].
  - destruct (message_id_bytes m Hk) as [Hb Hl]. pose proof (hex_lower_safe m Hb) as Hs.
    pose proof (hex_lower_length m) as Hh.
    constructor; [split; [done | repeat constructor; cbn; lia]|].
    constructor; [split; [|by apply Forall_take]|].
    { intros E. apply (f_equal length) in E. rewrite length_take, Hh in E.
      change (@length Z []) with 0%nat in E. lia. }
    constructor; [split; [|done] | constructor].
    intros E. rewrite E in Hh. cbn in Hh. lia.
Qed.

Lemma key_components_inj k1 k2 :
  key_ok k1 -> key_ok k2 -> key_components k1 = key_components k2 -> k1 = k2.
Proof.
  assert (forall n, 0 <= n <= u64_max -> pad3 (n / 1000000) <> lit "msgid") as Hdiff.
  { intros n Hn E. assert (0 <= n / 1000000 <= u64_max) as H1
      by (split; [apply Z.div_pos | apply Z.div_le_upper_bound]; lia).
    destruct (pad3_spec _ H1) as (Hd & _). by rewrite E in Hd. }
  destruct k1 as [n|m], k2 as [n'|m']; cbn [key_ok key_components]; intros H1 H2 E.
  - f_equal. apply print_decimal_inj; [done..|]. by injection E.
  - injection E as E1 _ _. by apply Hdiff in E1.
  - injection E as E1 _ _. by apply eq_sym, Hdiff in E1.
  - f_equal. apply hex_lower_inj; [by apply message_id_bytes..|]. by injection E.
Qed.

(** C32: The store gives every article its own file and keeps clients inside it: for
    a number of an article or a message-id the parser accepts, the path is built
    without an error or a panic; it adds three names to the root, none of which
    holds a separator or is a dot name; and two keys never share a path, so a
    number cannot reach the article of a message-id. *)
Theorem store_paths_are_private (root : path) (k1 k2 : ArticleStoreKey.ArticleStoreKey) :
  key_ok k1 -> key_ok k2 ->
  (exists names, key_path root k1 = Some (Ok (root ++ names)) /\ length names = 3%nat
     /\ Forall safe_name names)
  /\ (key_path root k1 = key_path root k2 -> k1 = k2).
Proof.
  intros H1 H2. rewrite !key_path_components by done. split.
  - exists (key_components k1). split; [done|]. split; [by destruct k1|].
    by apply key_components_safe.
  - intros [= E%app_inv_head]. by apply key_components_inj.
Qed.

Lemma store_paths_are_private_witness :
  key_path [lit "store"] (ArticleStoreKey.Number 1234567)
    = Some (Ok [lit "store"; lit "001"; lit "234"; lit "1234567"])
  /\ key_path [lit "store"] (ArticleStoreKey.MessageId (lit "<../x>"))
    = Some (Ok [lit "store"; lit "msgid"; lit "3c"; lit "3c2e2e2f783e"])
  /\ (key_path [lit "store"] (ArticleStoreKey.Number 1234567)
      = key_path [lit "store"] (ArticleStoreKey.MessageId (lit "<../x>")) ->
      ArticleStoreKey.Number 1234567 = ArticleStoreKey.MessageId (lit "<../x>")).
Proof.
  split; [vm_compute; reflexivity|]. split; [vm_compute; reflexivity|].
  apply (store_paths_are_private [lit "store"] (ArticleStoreKey.Number 1234567)
           (ArticleStoreKey.MessageId (lit "<../x>"))).
  - cbn. unfold u64_max. lia.
  - exists (lit "../x"). split; [reflexivity|]. split; [cbn; lia | reflexivity].
Defined.

(** A message-id of more than one hundred and twenty-seven bytes has a file name
    longer than the 255 bytes a Linux file system allows. *)
Lemma long_message_id_name (m : bytes) :
  (127 < length m)%nat -> (255 < length (hex_lower m))%nat.
Proof. rewrite hex_lower_length. lia. Qed.
