(* ===== verification/ServerStore.v ===== *)
(** * Responses from stored articles ([src/src/lib.rs])

    What the server sends for an article of its directory: the file itself for
    ARTICLE, and for HEAD, BODY and STAT a response rebuilt from the parsed file
    ([build_stored_article_response]). *)
From S2P Require Import Prelude Utf8 Decimal Memchr Args Terminator Kinds Article ResponseFrame.
From S2P Require Import ClientWire ServerPayload ArticleStore.

Local Open Scope Z_scope.
Local Open Scope rust_scope.

Definition article_not_found_response (article_id : option Z) (message_id : option bytes) : bytes :=
  match message_id, article_id with
  | Some _, _ => bstr "430 no article with that message-id\r\n"
  | None, Some _ => bstr "423 no article with that number\r\n"
  | None, None => bstr "420 no current article selected\r\n"
  end.

Definition invalid_data (message : bytes) : IoError :=
  {| io_kind := ErrorKind.InvalidData; io_message := message |}.

Definition missing_number : IoError :=
  invalid_data (lit "stored article response is missing an article number").
Definition missing_headers : IoError :=
  invalid_data (lit "stored article response is missing headers").
Definition missing_body : IoError :=
  invalid_data (lit "stored article response is missing a body").

(** [Display] of the parse errors. *)
Definition header_reason_text (reason : InvalidHeaderReason) : bytes :=
  match reason with
  | LeadingFold => lit "header cannot start with folding whitespace"
  | EmptyFold => lit "folded header line cannot contain only whitespace"
  | MissingHeader => lit "header block must contain at least one header"
  | MissingColon => lit "header missing colon"
  | MissingSpaceAfterColon => lit "header missing space after colon"
  | EmptyName => lit "empty header name"
  | InvalidName => lit "invalid character in header name"
  | InvalidContent => lit "invalid character in header content"
  end.

Definition error_text (error : ArticleParseError) : bytes :=
  match error with
  | NotArticleResponse => lit "response is not an article-family response"
  | InvalidStatusCode code => lit "invalid status code: " ++ print_decimal code
  | InvalidStatusPrefix => lit "invalid status code prefix"
  | MissingSeparator => lit "missing blank line separator between headers and body"
  | MissingTerminator => lit "missing multiline terminator"
  | InvalidHeader reason => lit "invalid header: " ++ header_reason_text reason
  | InvalidBody => lit "invalid body content"
  | UnexpectedBody => lit "response contains unexpected body"
  | BufferTooShort => lit "buffer too short to contain valid response"
  | InvalidArticleNumber => lit "invalid article number"
  | InvalidArticleMessageId => lit "invalid message-id"
  end.

Section store.
Context `{Mc : !Memchr, Fs : !FileSystem}.
Variable find_end : bytes -> option nat.

(** Every round consumes a line. *)
Fixpoint stuffed_body_loop (fuel : nat) (output body : bytes) (start : nat) : bytes :=
  match fuel with
  | O => output
  | S fuel' =>
      if (start <? length body)%nat then
        match find_crlf_line_end body start with
        | None => output ++ drop start body
        | Some line_end =>
            let line := slice body start (line_end - length CRLF) in
            let output := if bool_decide (head line = Some DOT) then output ++ [DOT] else output in
            let output := output ++ line in
            let output := output ++ CRLF in
            stuffed_body_loop fuel' output body line_end
        end
      else output
  end.

Definition append_dot_stuffed_body (output body : bytes) : bytes :=
  stuffed_body_loop (S (length body)) output body 0.

(** [None] is the [unreachable!] of the kinds that are not about an article. *)
Definition build_stored_article_response (kind : RequestKind.RequestKind) (article_bytes : bytes)
    : option (result bytes IoError) :=
  match kind with
  | RequestKind.Article => Some (Ok article_bytes)
  | _ =>
      match article_parse find_end article_bytes with
      | Err err => Some (Err (invalid_data (error_text err)))
      | Ok article =>
          match article_number article with
          | None => Some (Err missing_number)
          | Some number =>
              let id := article_message_id article in
              match kind with
              | RequestKind.Head =>
                  let output := response_line (lit "221") number id (bstr " article retrieved\r\n") in
                  Some (let? headers := ok_or missing_headers (article_headers article) in
                        Ok (append_dot_terminator (output ++ headers)))
              | RequestKind.Body =>
                  let output := response_line (lit "222") number id (bstr " body follows\r\n") in
                  Some (let? body := ok_or missing_body (article_body article) in
                        Ok (append_dot_terminator (append_dot_stuffed_body output body)))
              | RequestKind.Stat =>
                  Some (Ok (response_line (lit "223") number id (bstr " article retrieved\r\n")))
              | _ => None
              end
          end
      end
  end.

(** ** Finding the file *)

Definition open_stored_article_response (config : ServerConfig) (article_id : option Z)
    (message_id : option bytes) : option (result (option File) IoError) :=
  match article_dir config with
  | None => Some (Ok None)
  | Some root =>
      let by_message_id :=
        match message_id with
        | Some message_id => open_article_response_into root (ArticleStoreKey.MessageId message_id)
        | None => Some (Ok None)
        end in
      match article_id with
      | None => by_message_id
      | Some article_id =>
          match open_article_response_into root (ArticleStoreKey.Number article_id) with
          | None => None
          | Some (Err e) => Some (Err e)
          | Some (Ok (Some file)) => Some (Ok (Some file))
          | Some (Ok None) => by_message_id
          end
      end
  end.

Definition stored_article_message_id_exists (config : ServerConfig) (message_id : bytes)
    : option bool :=
  match article_dir config with
  | None => Some false
  | Some _ =>
      opened ← open_stored_article_response config None (Some message_id);
      Some match opened with Ok (Some _) => true | _ => false end
  end.
End store.
