(* ===== verification/ServerSession.v ===== *)
(** * A server session ([src/src/lib.rs])

    One connection of the server: the coalescing writer ([PendingWrite]), the
    handler of every command ([handle_command]), the batching of pipelined
    ARTICLE commands, and the loop over command batches
    ([serve_session_inner]).  A session is a state monad with two ways to stop:
    an [io::Error], or a panic.  The buffer the responses are generated in is
    cleared by every user, so it is not part of the state; the second buffer
    ([aux_response_buffer]) is not always cleared, so it is. *)
From S2P Require Import Prelude Utf8 Decimal Memchr Args Terminator Kinds Article ResponseFrame.
From S2P Require Import RequestLine ClientWire Text Wildmat ServerDates ServerResponses ServerCommands.
From S2P Require Import ServerIndex ServerPayload ArticleStore ServerStore.

Local Open Scope Z_scope.
Local Open Scope rust_scope.

(** ** The state of a session *)

Record SessionStats : Type := {
  st_commands : Z;
  st_pipeline_batches : Z;
  st_article_requests : Z;
  st_body_requests : Z;
  st_bytes_sent : Z;
}.

Definition session_stats_default : SessionStats :=
  {| st_commands := 0; st_pipeline_batches := 0; st_article_requests := 0; st_body_requests := 0;
     st_bytes_sent := 0 |}.

Definition add_stats (self session : SessionStats) : SessionStats :=
  {| st_commands := st_commands self + st_commands session;
     st_pipeline_batches := st_pipeline_batches self + st_pipeline_batches session;
     st_article_requests := st_article_requests self + st_article_requests session;
     st_body_requests := st_body_requests self + st_body_requests session;
     st_bytes_sent := st_bytes_sent self + st_bytes_sent session |}.

(** What a server socket can do besides writing: flush and, on Linux, cork. *)
Class ServerSocket (W : Type) := {
  socket_flush : W -> result unit IoError * W;
  set_tcp_cork : bool -> W -> result unit IoError * W;
}.

(** Neither sends a byte of its own. *)
Class ServerSocketSpec (W : Type) `{!AsyncWrite W, !ServerSocket W} : Prop := {
  flush_sent w r w' : socket_flush w = (r, w') -> sent w' = sent w;
  cork_sent on w r w' : set_tcp_cork on w = (r, w') -> sent w' = sent w;
}.

(** The writer, the bytes of [PendingWrite] and its capacity, the counters not
    yet published and those published, what is selected, the second response
    buffer, and what the clock will show, in seconds, each time it is read. *)
Record Session (W : Type) : Type := {
  se_writer : W;
  se_pending : bytes;
  se_capacity : nat;
  se_stats : SessionStats;
  se_published : SessionStats;
  se_state : SessionState;
  se_aux : bytes;
  se_clock : nat -> Z;
}.
Arguments Build_Session {W}.
Arguments se_writer {W}. Arguments se_pending {W}. Arguments se_capacity {W}.
Arguments se_stats {W}. Arguments se_published {W}. Arguments se_state {W}. Arguments se_aux {W}.
Arguments se_clock {W}.

(** How a session stops before its end. *)
Inductive Stop : Type := StopIo (error : IoError) | StopPanic.

Definition M (W A : Type) : Type := Session W -> result A Stop * Session W.

#[export] Instance M_ret W : MRet (M W) := fun A a s => (Ok a, s).
#[export] Instance M_bind W : MBind (M W) := fun A B k m s =>
  match m s with
  | (Ok a, s) => k a s
  | (Err stop, s) => (Err stop, s)
  end.

Section state.
Context {W : Type}.

Definition with_writer (s : Session W) (w : W) : Session W :=
  Build_Session w (se_pending s) (se_capacity s) (se_stats s) (se_published s) (se_state s)
    (se_aux s) (se_clock s).
Definition with_pending (s : Session W) (pending : bytes) : Session W :=
  Build_Session (se_writer s) pending (se_capacity s) (se_stats s) (se_published s) (se_state s)
    (se_aux s) (se_clock s).
Definition with_stats (s : Session W) (stats : SessionStats) : Session W :=
  Build_Session (se_writer s) (se_pending s) (se_capacity s) stats (se_published s) (se_state s)
    (se_aux s) (se_clock s).
Definition with_published (s : Session W) (published : SessionStats) : Session W :=
  Build_Session (se_writer s) (se_pending s) (se_capacity s) (se_stats s) published (se_state s)
    (se_aux s) (se_clock s).
Definition with_state (s : Session W) (state : SessionState) : Session W :=
  Build_Session (se_writer s) (se_pending s) (se_capacity s) (se_stats s) (se_published s) state
    (se_aux s) (se_clock s).
Definition with_aux (s : Session W) (aux : bytes) : Session W :=
  Build_Session (se_writer s) (se_pending s) (se_capacity s) (se_stats s) (se_published s)
    (se_state s) aux (se_clock s).
Definition with_clock (s : Session W) (clock : nat -> Z) : Session W :=
  Build_Session (se_writer s) (se_pending s) (se_capacity s) (se_stats s) (se_published s)
    (se_state s) (se_aux s) clock.

Definition get_session : M W (Session W) := fun s => (Ok s, s).
Definition get_state : M W SessionState := fun s => (Ok (se_state s), s).
Definition get_aux : M W bytes := fun s => (Ok (se_aux s), s).
Definition set_aux (aux : bytes) : M W unit := fun s => (Ok tt, with_aux s aux).
Definition set_state (state : SessionState) : M W unit := fun s => (Ok tt, with_state s state).

(** [session_state.current_article = article]. *)
Definition set_current (article : option Z) : M W unit := fun s =>
  let state := se_state s in
  (Ok tt, with_state s {| ss_group_selected := ss_group_selected state;
                          ss_selected_group := ss_selected_group state;
                          ss_current_article := article |}).

(** [SystemTime::now()]. *)
Definition read_clock : M W Z := fun s =>
  (Ok (se_clock s 0%nat), with_clock s (fun n => se_clock s (S n))).

Definition count (commands batches articles bodies sent : Z) : M W unit := fun s =>
  (Ok tt, with_stats s (add_stats (se_stats s)
     {| st_commands := commands; st_pipeline_batches := batches; st_article_requests := articles;
        st_body_requests := bodies; st_bytes_sent := sent |})).

(** [add_session] adds to the shared counters and the session's own start again. *)
Definition publish_session_delta : M W unit := fun s =>
  (Ok tt, with_stats (with_published s (add_stats (se_published s) (se_stats s)))
            session_stats_default).

Definition fails {A} (error : IoError) : M W A := fun s => (Err (StopIo error), s).

(** The [?] of a result and the panic of an option. *)
Definition try_io {A} (r : result A IoError) : M W A := fun s =>
  match r with Ok a => (Ok a, s) | Err e => (Err (StopIo e), s) end.
Definition or_panic {A} (o : option A) : M W A := fun s =>
  match o with Some a => (Ok a, s) | None => (Err StopPanic, s) end.

(** A write to the socket. *)
Definition io (m : writing W) : M W unit := fun s =>
  match m (se_writer s) with
  | (Ok _, w) => (Ok tt, with_writer s w)
  | (Err e, w) => (Err (StopIo e), with_writer s w)
  end.
End state.

Module BatchOutcome.
Inductive BatchOutcome : Type := Continue | Close.
Definition should_close (self : BatchOutcome) : bool :=
  match self with Close => true | Continue => false end.
End BatchOutcome.

Section session.
Context {W : Type} `{Aw : !AsyncWrite W, Sk : !ServerSocket W}.
Context `{Mc : !Memchr, Fs : !FileSystem}.
Variable find_end : bytes -> option nat.
Variable config : ServerConfig.

Local Abbreviation command_lines_ := (option CommandLineBatch).

(** ** PendingWrite *)

Definition pending_clear : M W unit := fun s => (Ok tt, with_pending s []).
Definition pending_append (response : bytes) : M W unit := fun s =>
  (Ok tt, with_pending s (se_pending s ++ response)).

Definition pending_flush : M W unit :=
  s ← get_session;
  if (length (se_pending s) =? 0)%nat then mret tt
  else io (fun w => write_all w (se_pending s)) ;; pending_clear.

Definition write_with_response (response : bytes) : M W unit :=
  s ← get_session;
  if (length (se_pending s) =? 0)%nat then io (fun w => write_all w response)
  else io (write_all_vectored [se_pending s; response]) ;; pending_clear.

Definition pending_push (response : bytes) : M W unit :=
  s ← get_session;
  if (se_capacity s <? length response)%nat then write_with_response response
  else
    (if (se_capacity s <? length (se_pending s) + length response)%nat
     then pending_flush else mret tt) ;;
    pending_append response.

Definition write_response (response : bytes) : M W unit :=
  count 0 0 0 0 (Z.of_nat (length response)) ;;
  if (length response <=? 4096)%nat then pending_push response else write_with_response response.

(** A reply after which the session goes on. *)
Definition respond (response : bytes) : M W bool :=
  write_response response ;; mret false.

Definition flush_writer_if_needed : M W unit :=
  if flush_after_batch config then io socket_flush else mret tt.

Definition flush_session_writer : M W unit :=
  pending_flush ;; flush_writer_if_needed.

(** ** Stored articles *)

(** Each read of the file is written as it comes. *)
Fixpoint write_file_response_to_async (reads : list (result bytes IoError)) : M W unit :=
  match reads with
  | [] => mret tt
  | Err e :: _ => fails e
  | Ok [] :: _ => mret tt
  | Ok data :: reads =>
      io (fun w => write_all w data) ;;
      count 0 0 0 0 (Z.of_nat (length data)) ;;
      write_file_response_to_async reads
  end.

Definition write_stored_article_response (kind : RequestKind.RequestKind) (article_id : option Z)
    (message_id : option bytes) : M W bool :=
  or_panic (open_stored_article_response config article_id message_id) ≫= fun opened =>
  try_io opened ≫= fun file =>
  match file with
  | None => mret false
  | Some file =>
      match kind with
      | RequestKind.Article =>
          pending_flush ;;
          write_file_response_to_async (file_reads file) ;; mret true
      | _ =>
          try_io (read_to_end file) ≫= fun data =>
          or_panic (build_stored_article_response find_end kind data) ≫= fun built =>
          try_io built ≫= fun response =>
          pending_flush ;;
          write_response response ;; mret true
      end
  end.

(** ** Selector errors *)

Definition args_of (command : ParsedCommand) (command_lines : command_lines_) : bytes :=
  default [] (command_args command command_lines).

Definition message_id_of (command : ParsedCommand) (command_lines : command_lines_) : option bytes :=
  command_lines ≫= command_message_id command.

(** [haystack.windows(needle.len()).any(..)]. *)
Definition contains_subslice (haystack needle : bytes) : bool :=
  match find_sub needle haystack with Some _ => true | None => false end.

Definition has_article_id (command : ParsedCommand) (p : Z -> bool) : bool :=
  is_some_and (pc_article_id command) p.

(** The message-id test of an indexed server. *)
Definition indexed_message_id_error (index : ArticleStoreIndex) (message_id : option bytes)
    : option (option bytes) :=
  match message_id with
  | None => Some None
  | Some message_id =>
      match article_entry_for_message_id index message_id with
      | Some _ => Some None
      | None =>
          exists_ ← stored_article_message_id_exists config message_id;
          Some (if exists_ : bool then None
                else Some (bstr "430 no article with that message-id\r\n"))
      end
  end.

(** The outer [None] is the panic of opening the store. *)
Definition article_selector_error (command : ParsedCommand) (command_lines : command_lines_)
    (session_state : SessionState) (current_selector_allowed : bool) : option (option bytes) :=
  let index := article_index config in
  let args := args_of command command_lines in
  if (length args =? 0)%nat && current_selector_allowed then
    Some (if negb (ss_group_selected session_state)
          then Some (bstr "412 no newsgroup selected\r\n")
          else match ss_current_article session_state with
               | None => Some (bstr "420 no current article selected\r\n")
               | Some _ => None
               end)
  else if has_article_id command (fun _ => true) && negb (ss_group_selected session_state)
  then Some (Some (bstr "412 no newsgroup selected\r\n"))
  else if has_article_id command
            (fun article_id => negb (current_group_contains session_state article_id index))
  then Some (Some (bstr "423 no article with that number\r\n"))
  else
    match index with
    | Some index => indexed_message_id_error index (message_id_of command command_lines)
    | None =>
        Some (match pc_message_id command, command_lines with
              | Some _, None =>
                  if contains_subslice args (lit "missing")
                  then Some (bstr "430 no article with that message-id\r\n") else None
              | _, _ => None
              end)
    end.

Definition legacy_overview_uses_420_for_missing_range (kind : RequestKind.RequestKind) : bool :=
  match kind with RequestKind.Xover | RequestKind.Xhdr => true | _ => false end.

Definition is_header_kind (kind : RequestKind.RequestKind) : bool :=
  match kind with RequestKind.Hdr | RequestKind.Xhdr => true | _ => false end.

(** A selector that is a number outside the current group. *)
Definition selects_absent_number (session_state : SessionState) (index : option ArticleStoreIndex)
    (selector : bytes) : bool :=
  forallb is_ascii_digit selector
  && is_some_and (_ ← from_utf8 selector; parse_u64 selector)
       (fun article_id => negb (current_group_contains session_state article_id index)).

Definition overview_selector_error (command : ParsedCommand) (command_lines : command_lines_)
    (session_state : SessionState) (index : option ArticleStoreIndex) : option bytes :=
  let args := args_of command command_lines in
  let kind := pc_kind command in
  if is_header_kind kind
     && is_some_and (header_query_name_from_args args) (fun header => negb (hdr_field_is_supported header))
  then Some (bstr "503 HDR field unavailable\r\n")
  else
    let current_selector :=
      match kind with
      | RequestKind.Over | RequestKind.Xover => (length args =? 0)%nat
      | RequestKind.Hdr | RequestKind.Xhdr => (command_arg_count args =? 1)%nat
      | _ => false
      end in
    if current_selector then
      if negb (ss_group_selected session_state) then Some (bstr "412 no newsgroup selected\r\n")
      else match ss_current_article session_state with
           | None => Some (bstr "420 no current article selected\r\n")
           | Some _ => None
           end
    else
      let selector := overview_selector_arg kind args in
      let articles := default [] (current_group_articles session_state index) in
      if is_some_and selector overview_selector_requires_group && negb (ss_group_selected session_state)
      then Some (bstr "412 no newsgroup selected\r\n")
      else if is_some_and selector (fun selector =>
                overview_selector_is_range selector
                && negb (overview_selector_range_selects_articles selector articles))
      then
        if legacy_overview_uses_420_for_missing_range kind
        then Some (bstr "420 no article(s) selected\r\n")
        else Some (bstr "423 no articles in that range\r\n")
      else if is_some_and selector (selects_absent_number session_state index)
              || has_article_id command
                   (fun article_id => negb (current_group_contains session_state article_id index))
      then
        if legacy_overview_uses_420_for_missing_range kind
        then Some (bstr "420 no article(s) selected\r\n")
        else Some (bstr "423 no article with that number\r\n")
      else if (match pc_message_id command with Some _ => true | None => false end
               || is_some_and selector (fun value => starts_with value (lit "<")))
              && contains_subslice args (lit "missing")
      then Some (bstr "430 no article with that message-id\r\n")
      else None.

Definition listgroup_state_error (args : bytes) (session_state : SessionState) : option bytes :=
  if is_some_and (listgroup_explicit_group_arg args)
       (fun group => match fixture_group_from_name group with None => true | Some _ => false end)
  then Some (bstr "411 no such newsgroup\r\n")
  else if negb (ss_group_selected session_state) && (length args =? 0)%nat
  then Some (bstr "412 no newsgroup selected\r\n")
  else None.

(** ** ARTICLE, HEAD, STAT and BODY *)

Definition DOT_SLICES (header payload : bytes) : list bytes := [header; payload; DOT_TERMINATOR].

Definition write_message_id_article_response (message_id : bytes) : M W unit :=
  let header := build_article_response_header_into 0 message_id in
  payload ← or_panic (article_payload_for_header config (length header));
  count 0 0 0 0 (Z.of_nat (length header) + Z.of_nat (length payload)
                 + Z.of_nat (length DOT_TERMINATOR)) ;;
  pending_flush ;;
  io (write_all_vectored (DOT_SLICES header payload)).

(** The complaint about the selector of an article command, else what follows. *)
Definition or_selector_error (command : ParsedCommand) (command_lines : command_lines_)
    (next : SessionState -> M W bool) : M W bool :=
  session_state ← get_state;
  error ← or_panic (article_selector_error command command_lines session_state true);
  match error with
  | Some response => respond response
  | None => next session_state
  end.

Definition has_article_dir : bool := match article_dir config with Some _ => true | None => false end.

Definition handle_article (command : ParsedCommand) (command_lines : command_lines_) : M W bool :=
  count 0 0 1 0 0 ;;
  or_selector_error command command_lines (fun session_state =>
  let message_id := message_id_of command command_lines in
  if has_article_dir then
    let article_id :=
      match message_id with
      | Some _ => pc_article_id command
      | None => option_or (pc_article_id command) (ss_current_article session_state)
      end in
    found ← write_stored_article_response RequestKind.Article article_id message_id;
    if found : bool then
      match pc_article_id command with
      | Some article_id => set_current (Some article_id) ;; mret false
      | None => mret false
      end
    else respond (article_not_found_response article_id message_id)
  else
    match message_id with
    | Some message_id => write_message_id_article_response message_id ;; mret false
    | None =>
        let article_id :=
          default 1 (option_or (pc_article_id command) (ss_current_article session_state)) in
        set_current (Some article_id) ;;
        if article_id =? 1 then respond (article_response config)
        else
          response ← or_panic (build_selected_article_response_into article_id config);
          respond response
    end).

(** A stored article, on a server that has a directory. *)
Definition write_stored_if_any (kind : RequestKind.RequestKind) (article_id : option Z)
    (message_id : option bytes) : M W bool :=
  if has_article_dir then write_stored_article_response kind article_id message_id else mret false.

(** HEAD, STAT and BODY differ in the counter and in the responses they fall
    back to: of the first article, of another, and of a message-id. *)
Definition handle_article_part (kind : RequestKind.RequestKind) (counted : M W unit)
    (first_response : bytes) (selected : Z -> option bytes) (by_message_id : bytes -> option bytes)
    (command : ParsedCommand) (command_lines : command_lines_) : M W bool :=
  counted ;;
  or_selector_error command command_lines (fun session_state =>
  match message_id_of command command_lines with
  | Some message_id =>
      stored ← write_stored_if_any kind None (Some message_id);
      if stored : bool then mret false
      else if has_article_dir then respond (article_not_found_response None (Some message_id))
      else if contains_subslice message_id (lit "missing")
      then respond (bstr "430 no article with that message-id\r\n")
      else
        response ← or_panic (by_message_id message_id);
        respond response
  | None =>
      let article_id :=
        default 1 (option_or (pc_article_id command) (ss_current_article session_state)) in
      set_current (Some article_id) ;;
      stored ← write_stored_if_any kind (Some article_id) None;
      if stored : bool then set_current (Some article_id) ;; mret false
      else
        response ← or_panic (if article_id =? 1 then Some first_response else selected article_id);
        write_response response ;;
        set_current (Some article_id) ;;
        mret false
  end).

Definition handle_head : ParsedCommand -> command_lines_ -> M W bool :=
  handle_article_part RequestKind.Head (count 0 0 1 0 0) head_response
    (fun article_id => Some (build_selected_head_response_into article_id))
    (fun message_id => Some (build_message_id_head_response_into message_id)).

Definition handle_stat : ParsedCommand -> command_lines_ -> M W bool :=
  handle_article_part RequestKind.Stat (count 0 0 1 0 0) stat_response
    (fun article_id => Some (build_selected_stat_response_into article_id))
    (fun message_id => Some (build_message_id_stat_response_into message_id)).

Definition handle_body : ParsedCommand -> command_lines_ -> M W bool :=
  handle_article_part RequestKind.Body (count 0 0 0 1 0) (body_response config)
    (fun article_id => build_selected_body_response_into article_id config)
    (fun message_id => build_message_id_body_response_into message_id config).

(** ** Listings *)

(** The response of the index, in the second buffer, or the fixture's. *)
Definition respond_listing (indexed : bytes -> ArticleStoreIndex -> bytes) (fixture : bytes)
    : M W bool :=
  match article_index config with
  | Some index =>
      aux ← get_aux;
      let response := indexed aux index in
      set_aux response ;;
      respond response
  | None => respond fixture
  end.

Definition handle_list_active (command : ParsedCommand) (command_lines : command_lines_) : M W bool :=
  let args := list_variant_wildmat_args RequestKind.ListActive (args_of command command_lines) in
  respond_listing (fun aux index => list_active_response_for_index_into aux args index)
    (list_active_response args).

Definition handle_list_active_times (command : ParsedCommand) (command_lines : command_lines_)
    : M W bool :=
  let args := list_variant_wildmat_args RequestKind.ListActiveTimes (args_of command command_lines) in
  respond_listing (fun aux index => list_active_times_response_for_index_into aux args index)
    (list_active_times_response args).

Definition handle_list_newsgroups (command : ParsedCommand) (command_lines : command_lines_)
    : M W bool :=
  let args := list_variant_wildmat_args RequestKind.ListNewsgroups (args_of command command_lines) in
  respond_listing (fun aux index => list_newsgroups_response_for_index_into aux args index)
    (list_newsgroups_response args).

Definition handle_newgroups (command : ParsedCommand) (command_lines : command_lines_) : M W bool :=
  let args := args_of command command_lines in
  now ← read_clock;
  respond_listing (fun _ index => newgroups_response_for_index_into args index now)
    (if is_some_and (newgroups_datetime_key args now)
          (fun datetime => FAR_FUTURE_DATETIME_KEY <=? datetime)
     then NEWGROUPS_EMPTY_RESPONSE else NEWGROUPS_RESPONSE).

Definition handle_newnews (command : ParsedCommand) (command_lines : command_lines_) : M W bool :=
  let args := args_of command command_lines in
  now ← read_clock;
  respond_listing (fun _ index => newnews_response_for_index_into args index now)
    (newnews_response args now).

(** ** Groups *)

Definition NO_SUCH_GROUP : bytes := bstr "411 no such newsgroup\r\n".

Definition select_group (group : SelectedGroup) (current : option Z) : SessionState :=
  {| ss_group_selected := true; ss_selected_group := Some group; ss_current_article := current |}.

(** [group_selected] is set; the group itself only when it is known. *)
Definition select_named_group (index : ArticleStoreIndex) (group_name fixture_name : bytes)
    (session_state : SessionState) : SessionState :=
  match article_numbers_for_group index group_name with
  | Some articles => select_group (Indexed group_name) (head articles)
  | None =>
      match fixture_group_from_name fixture_name with
      | Some group => select_group (Fixture group) (FixtureGroup.first_article group)
      | None =>
          {| ss_group_selected := true; ss_selected_group := ss_selected_group session_state;
             ss_current_article := ss_current_article session_state |}
      end
  end.

(** [str::from_utf8(args).unwrap_or_default().trim()]. *)
Definition group_name_of (args : bytes) : bytes :=
  trim (match from_utf8 args with Some _ => args | None => [] end).

Definition handle_group (command : ParsedCommand) (command_lines : command_lines_) : M W bool :=
  let args := args_of command command_lines in
  match article_index config with
  | Some index =>
      match group_response_for_args_with_index_into args index with
      | None => respond NO_SUCH_GROUP
      | Some response =>
          set_aux response ;;
          session_state ← get_state;
          set_state (select_named_group index (group_name_of args) args session_state) ;;
          respond response
      end
  | None =>
      match fixture_group_from_name args with
      | None => respond NO_SUCH_GROUP
      | Some group =>
          set_state (select_group (Fixture group) (FixtureGroup.first_article group)) ;;
          respond (group_response_for_group group)
      end
  end.

(** The fixture group that is selected, if one is. *)
Definition selected_fixture (session_state : SessionState) : option FixtureGroup.FixtureGroup :=
  match ss_selected_group session_state with
  | Some (Fixture group) => Some group
  | _ => None
  end.

Definition handle_listgroup (command : ParsedCommand) (command_lines : command_lines_) : M W bool :=
  let args := args_of command command_lines in
  session_state ← get_state;
  match listgroup_state_error args session_state with
  | Some response => respond response
  | None =>
      match article_index config with
      | Some index =>
          let current_group := selected_group_name session_state (Some index) in
          match listgroup_response_for_args_with_index_into args current_group index with
          | None => respond NO_SUCH_GROUP
          | Some response =>
              let group_name := listgroup_group_name args current_group in
              set_aux response ;;
              set_state (select_named_group index group_name group_name session_state) ;;
              respond response
          end
      | None =>
          let group := default FixtureGroup.AltTest
                         (listgroup_selected_group args (selected_fixture session_state)) in
          set_state (select_group (Fixture group) (FixtureGroup.first_article group)) ;;
          respond (listgroup_response_for_args args (Some group))
      end
  end.

(** LAST and NEXT: the checks, the article moved to, and the response. *)
Definition handle_navigation (no_article : bytes)
    (indexed : SessionState -> Z -> ArticleStoreIndex -> option Z)
    (fixture : SessionState -> Z -> option Z) (fixture_response : Z -> bytes) : M W bool :=
  session_state ← get_state;
  if negb (ss_group_selected session_state) then respond (bstr "412 no newsgroup selected\r\n")
  else
    match ss_current_article session_state with
    | None => respond (bstr "420 no current article selected\r\n")
    | Some current_article =>
        let moved :=
          match article_index config with
          | Some index => indexed session_state current_article index
          | None => fixture session_state current_article
          end in
        match moved with
        | None => respond no_article
        | Some article =>
            set_current (Some article) ;;
            response ← try_io (match article_index config with
                               | Some index => build_navigation_article_response_into index article
                               | None => Ok (fixture_response article)
                               end);
            respond response
        end
    end.

Definition handle_last : M W bool :=
  handle_navigation (bstr "422 no previous article in this group\r\n")
    (fun session_state current index =>
       current_group_previous_article session_state current (Some index))
    (fun session_state current =>
       if current <=? 1 then None
       else Some (default (current - 1) (current_group_previous_article session_state current None)))
    last_response_for_article.

Definition handle_next : M W bool :=
  handle_navigation (bstr "421 no next article in this group\r\n")
    (fun session_state current index =>
       current_group_next_article session_state current (Some index))
    (fun session_state current =>
       if article_count session_state None <=? current then None
       else Some (default (current + 1) (current_group_next_article session_state current None)))
    next_response_for_article.

(** ** Overviews and headers *)

Definition OVERVIEW_FOLLOWS : bytes := bstr "224 Overview information follows\r\n".

(** What the index gave: the buffer in any case, and whether it is a response. *)
Definition respond_filled (filled : Filled) (fixture : bytes) : M W bool :=
  match filled with
  | Written buffer => set_aux buffer ;; respond buffer
  | GivenUp buffer => set_aux buffer ;; respond fixture
  end.

Definition handle_overview (indexed : bytes -> bytes -> SessionState -> ArticleStoreIndex -> Filled)
    (fixture : bytes -> SessionState -> bytes)
    (command : ParsedCommand) (command_lines : command_lines_) : M W bool :=
  let args := args_of command command_lines in
  session_state ← get_state;
  match overview_selector_error command command_lines session_state (article_index config) with
  | Some response => respond response
  | None =>
      match article_index config with
      | Some index =>
          aux ← get_aux;
          respond_filled (indexed aux args session_state index) (fixture args session_state)
      | None => respond (fixture args session_state)
      end
  end.

Definition over_response (args : bytes) (session_state : SessionState) : bytes :=
  over_response_for_args
    (default args (current_overview_args args (ss_current_article session_state))).
Definition xover_response (args : bytes) (session_state : SessionState) : bytes :=
  xover_response_for_args
    (default args (current_overview_args args (ss_current_article session_state))).
Definition hdr_response (args : bytes) (session_state : SessionState) : bytes :=
  hdr_response_for_args
    (default args (current_header_args args (ss_current_article session_state))).
Definition xhdr_response (args : bytes) (session_state : SessionState) : bytes :=
  xhdr_response_for_args
    (default args (current_header_args args (ss_current_article session_state))).

Definition over_response_for_args_with_index (response args : bytes) (session_state : SessionState)
    (index : ArticleStoreIndex) : Filled :=
  overview_response_for_index_into OVERVIEW_FOLLOWS args session_state index.
Definition hdr_response_for_args_with_index (response args : bytes) (session_state : SessionState)
    (index : ArticleStoreIndex) : Filled :=
  header_response_for_index_into response (bstr "225 headers follow\r\n") args session_state index
    HeaderMessageIdRowKey.Zero.
Definition xhdr_response_for_args_with_index (response args : bytes) (session_state : SessionState)
    (index : ArticleStoreIndex) : Filled :=
  header_response_for_index_into response (bstr "221 headers follow\r\n") args session_state index
    HeaderMessageIdRowKey.MessageId.

(** ** The other commands *)

Definition COMMAND_UNAVAILABLE : bytes := bstr "502 command unavailable\r\n".
Definition NEEDS_TLS : bytes := bstr "483 command unavailable until TLS has been negotiated\r\n".
Definition UNKNOWN_COMMAND : bytes := bstr "500 unknown command\r\n".

Definition handle_date : M W bool :=
  now ← read_clock;
  respond (date_response_for_unix_seconds now).

Definition handle_unknown (command : ParsedCommand) : M W bool :=
  respond (if pc_syntax_error command then
             if pc_line_too_long command then bstr "501 command line too long\r\n"
             else if pc_authinfo_sasl_base64_error command
             then bstr "504 base64 encoding error\r\n"
             else bstr "501 command syntax error\r\n"
           else UNKNOWN_COMMAND).

(** Whether the session ends. *)
Definition handle_command (command : ParsedCommand) (command_lines : command_lines_) : M W bool :=
  count 1 0 0 0 0 ;;
  match pc_kind command with
  | RequestKind.Article => handle_article command command_lines
  | RequestKind.Head => handle_head command command_lines
  | RequestKind.Stat => handle_stat command command_lines
  | RequestKind.Body => handle_body command command_lines
  | RequestKind.List => respond LIST_RESPONSE
  | RequestKind.ListActive => handle_list_active command command_lines
  | RequestKind.ListActiveTimes => handle_list_active_times command command_lines
  | RequestKind.ListNewsgroups => handle_list_newsgroups command command_lines
  | RequestKind.ListOverviewFmt => respond LIST_OVERVIEW_FMT_RESPONSE
  | RequestKind.ListHeaders => respond LIST_HEADERS_RESPONSE
  | RequestKind.ListDistribPats => respond LIST_DISTRIB_PATS_RESPONSE
  | RequestKind.Group => handle_group command command_lines
  | RequestKind.ListGroup => handle_listgroup command command_lines
  | RequestKind.Last => handle_last
  | RequestKind.Next => handle_next
  | RequestKind.NewGroups => handle_newgroups command command_lines
  | RequestKind.NewNews => handle_newnews command command_lines
  | RequestKind.Post => respond (bstr "440 posting not permitted\r\n")
  | RequestKind.Ihave => respond (bstr "435 article not wanted\r\n")
  | RequestKind.Check | RequestKind.TakeThis => respond COMMAND_UNAVAILABLE
  | RequestKind.AuthInfoUser | RequestKind.AuthInfoPass => respond NEEDS_TLS
  | RequestKind.AuthInfo | RequestKind.StartTls => respond COMMAND_UNAVAILABLE
  | RequestKind.Over =>
      handle_overview over_response_for_args_with_index over_response command command_lines
  | RequestKind.Xover =>
      handle_overview over_response_for_args_with_index xover_response command command_lines
  | RequestKind.Hdr =>
      handle_overview hdr_response_for_args_with_index hdr_response command command_lines
  | RequestKind.Xhdr =>
      handle_overview xhdr_response_for_args_with_index xhdr_response command command_lines
  | RequestKind.Capabilities => respond CAPABILITIES_RESPONSE
  | RequestKind.Help => respond HELP_RESPONSE
  | RequestKind.Date => handle_date
  | RequestKind.ModeReader => respond MODE_READER_RESPONSE
  | RequestKind.ModeStream => respond COMMAND_UNAVAILABLE
  | RequestKind.Quit => write_response QUIT_RESPONSE ;; mret true
  | RequestKind.Unknown => handle_unknown command
  end.

(** ** Pipelined ARTICLE commands *)

Definition MAX_BATCHED_ARTICLE_RESPONSES : nat := 8.
Definition MAX_BATCHED_ARTICLE_RESPONSE_BYTES : Z := 8 * 1024 * 1024.

(** A response of the batch: its header and the length of its payload. *)
Record BatchedResponse : Type := { bp_header : bytes; bp_payload_len : nat }.

Definition batched_len (response : BatchedResponse) : Z :=
  Z.of_nat (length (bp_header response)) + Z.of_nat (bp_payload_len response)
  + Z.of_nat (length DOT_TERMINATOR).

(** The responses of the leading ARTICLE commands by message-id, while they fit. *)
Fixpoint collect_batched (commands : list ParsedCommand) (command_lines : CommandLineBatch)
    (ranges : list BatchedResponse) (batch_bytes : Z) : option (list BatchedResponse) :=
  match commands with
  | [] => Some ranges
  | command :: commands =>
      if negb (RequestKind.eqb (pc_kind command) RequestKind.Article) then Some ranges
      else
        match command_message_id_bytes command command_lines with
        | None => Some ranges
        | Some message_id =>
            let header := append_message_id_article_response_header [] message_id in
            payload ← article_payload_for_header config (length header);
            let response := {| bp_header := header; bp_payload_len := length payload |} in
            let response_len := batched_len response in
            if negb (length ranges =? 0)%nat
               && (MAX_BATCHED_ARTICLE_RESPONSE_BYTES <? batch_bytes + response_len)
            then Some ranges
            else collect_batched commands command_lines (ranges ++ [response])
                   (batch_bytes + response_len)
        end
  end.

(** [&config.article_payload[..payload_len]]. *)
Fixpoint batched_slices (ranges : list BatchedResponse) : option (list bytes) :=
  match ranges with
  | [] => Some []
  | response :: ranges =>
      payload ← slice_to (article_payload config) (bp_payload_len response);
      slices ← batched_slices ranges;
      Some (DOT_SLICES (bp_header response) payload ++ slices)
  end.

Definition batched_total (ranges : list BatchedResponse) : Z :=
  fold_left (fun total response => total + batched_len response) ranges 0.

(** How many commands were answered. *)
Definition write_batched_message_id_article_responses (commands : list ParsedCommand)
    (command_lines : CommandLineBatch) : M W nat :=
  if (length commands <? 2)%nat || has_article_dir then mret 0%nat
  else
    ranges ← or_panic (collect_batched (take MAX_BATCHED_ARTICLE_RESPONSES commands)
                         command_lines [] 0);
    if (length ranges <? 2)%nat then mret 0%nat
    else
      let n := Z.of_nat (length ranges) in
      count n 0 n 0 (batched_total ranges) ;;
      pending_flush ;;
      slices ← or_panic (batched_slices ranges);
      io (write_all_vectored slices) ;;
      mret (length ranges).

(** ** Batches and the session *)

(** Every round answers a command, so a batch needs no more rounds than it has. *)
Fixpoint process_commands (fuel : nat) (command_batch : list ParsedCommand)
    (command_lines : command_lines_) (command_index : nat) : M W BatchOutcome.BatchOutcome :=
  match fuel with
  | O => mret BatchOutcome.Continue
  | S fuel' =>
      match command_batch !! command_index with
      | None => mret BatchOutcome.Continue
      | Some command =>
          batched ← (match command_lines with
                     | Some command_lines =>
                         write_batched_message_id_article_responses (drop command_index command_batch)
                           command_lines
                     | None => mret 0%nat
                     end);
          if negb (batched =? 0)%nat
          then process_commands fuel' command_batch command_lines (command_index + batched)
          else
            should_close ← handle_command command command_lines;
            if should_close : bool then mret BatchOutcome.Close
            else process_commands fuel' command_batch command_lines (command_index + 1)
      end
  end.

Definition process_command_batch (command_batch : list ParsedCommand)
    (command_lines : command_lines_) : M W BatchOutcome.BatchOutcome :=
  count 0 (if (1 <? length command_batch)%nat then 1 else 0) 0 0 0 ;;
  outcome ← process_commands (length command_batch) command_batch command_lines 0;
  flush_session_writer ;;
  mret outcome.

Definition send_greeting : M W unit :=
  io (fun w => write_all w GREETING) ;;
  count 0 0 0 0 (Z.of_nat (length GREETING)) ;;
  flush_writer_if_needed.

(** Only Linux corks the socket. *)
Variable linux : bool.
Definition cork (on : bool) : M W unit :=
  if linux && negb (flush_after_batch config) then io (set_tcp_cork on) else mret tt.

(** Every round reads a batch of at least one line, so the fuel, more than the
    bytes and the deliveries to come, is enough. *)
Fixpoint serve_loop (fuel : nat) (reader : BufReader) : M W unit :=
  match fuel with
  | O => mret tt
  | S fuel' =>
      let '(read, reader) :=
        read_command_batch reader (Nat.min (max_pipeline_depth config) MAX_SERVER_PIPELINE_DEPTH) in
      batch ← try_io read;
      match batch with
      | None => flush_session_writer
      | Some batch =>
          cork true ;;
          outcome ← process_command_batch (ba_commands batch) (Some (ba_lines batch));
          cork false ;;
          publish_session_delta ;;
          if BatchOutcome.should_close outcome then mret tt else serve_loop fuel' reader
      end
  end.

Definition serve_session_inner (reader : BufReader) : M W unit :=
  send_greeting ;; serve_loop (S (input_size reader)) reader.

(** The counters are published whether the session ended or failed; a panic
    passes the publication by. *)
Definition serve_session (reader : BufReader) : M W unit := fun s =>
  match serve_session_inner reader s with
  | (Err StopPanic, s) => (Err StopPanic, s)
  | (result, s) => (result, snd (publish_session_delta s))
  end.
End session.

(** A session at its start, over a buffer of a capacity. *)
Definition session_new {W} (w : W) (capacity : nat) (clock : nat -> Z) : Session W :=
  Build_Session w [] capacity session_stats_default session_stats_default session_state_default []
    clock.
