(* ===== verification/ServerArguments.v ===== *)
(** * The arguments of a command on the server ([src/src/lib.rs])

    A command is kept as its line, and the server looks its arguments up there
    ([command_args], [command_message_id]).  Here: what these lookups give for a
    command the parser made from the line, so that the handlers can be judged by
    what the client sent. *)
From S2P Require Import Prelude Utf8 Decimal Memchr Args Terminator Kinds RequestLine RequestWire.
From S2P Require Import Text ServerCommands ServerParsing ServerReading.

Local Open Scope Z_scope.
Local Open Scope rust_scope.

(** ** A command and its line *)

Record reads_line (line : bytes) (command : ParsedCommand) (lines : CommandLineBatch) : Prop := {
  rd_kind : pc_kind command = rl_kind (parse line);
  rd_article_id : pc_article_id command = parse_article_id_arg (args (parse line));
  rd_message_id : pc_message_id command = parsed_message_id_range line (parse line);
  rd_line : line_of lines (pc_line_slot command) = Some line;
}.

(** ** Trailing white space *)

Lemma strip_eol_split l :
  exists ws, l = strip_command_eol_ws l ++ ws /\ Forall (fun b => is_command_ws b = true) ws
    /\ (strip_command_eol_ws l = []
        \/ exists r x, strip_command_eol_ws l = r ++ [x] /\ is_command_ws x = false).
Proof.
  induction l as [|b l IH] using rev_ind; [exists []; split_and!; [done|constructor|by left]|].
  destruct (is_command_ws b) eqn:Hb.
  - assert (strip_command_eol_ws (l ++ [b]) = strip_command_eol_ws l) as Hs.
    { unfold strip_command_eol_ws, rposition. rewrite rev_unit. cbn [position]. rewrite Hb.
      cbn [negb]. destruct (position _ (rev l)) as [i|] eqn:Hi; [|done].
      apply position_lt in Hi. rewrite length_rev in Hi. cbn. rewrite length_app. cbn.
      replace (length l + 1 - S (S i))%nat with (length l - S i)%nat by lia.
      apply take_app_le. lia. }
    destruct IH as (ws & E & Hw & Hlast). rewrite Hs. exists (ws ++ [b]).
    split; [by rewrite app_assoc, <- E|]. split; [|done].
    apply Forall_app. split; [done|]. by constructor.
  - rewrite strip_eol_ws_none by done. exists []. rewrite app_nil_r.
    split; [done|]. split; [constructor|]. right. eauto.
Qed.

Lemma skip_all_ws ws : Forall (fun b => is_command_ws b = true) ws -> skip_command_ws ws = [].
Proof.
  intros H. unfold skip_command_ws. rewrite (proj2 (position_None _ ws)).
  - apply drop_all.
  - eapply Forall_impl; [|exact H]. cbn. by intros b ->.
Qed.

Lemma skip_ws_app l ws :
  (exists b, In b l /\ is_command_ws b = false) -> skip_command_ws (l ++ ws) = skip_command_ws l ++ ws.
Proof.
  intros (b & Hin & Hb). unfold skip_command_ws.
  destruct (position (fun byte => negb (is_command_ws byte)) l) as [i|] eqn:Hi.
  - pose proof (position_lt _ _ _ Hi). apply position_Some in Hi as (l1 & x & l2 & -> & <- & Hx & Hall).
    rewrite <- app_assoc. cbn [app]. rewrite position_app_here by done. cbn.
    rewrite !drop_app_length. done.
  - apply position_None in Hi. rewrite List.Forall_forall in Hi. specialize (Hi b Hin).
    by rewrite Hb in Hi.
Qed.

Lemma tail_last (l1 l2 r : bytes) x y : l1 ++ x :: l2 = r ++ [y] -> In y (x :: l2).
Proof.
  destruct l2 as [|z l2 _] using rev_ind; intros E.
  - apply app_inj_tail in E as [_ ->]. by left.
  - rewrite app_comm_cons, app_assoc in E. apply app_inj_tail in E as [_ ->].
    right. apply in_or_app. right. by left.
Qed.

Lemma skip_ws_ne l : (exists b, In b l /\ is_command_ws b = false) -> skip_command_ws l <> [].
Proof.
  intros (b & Hin & Hb) E. unfold skip_command_ws in E.
  destruct (position (fun byte => negb (is_command_ws byte)) l) as [i|] eqn:Hi.
  - apply position_lt in Hi. apply (f_equal length) in E. rewrite length_drop in E.
    cbn [default from_option id] in E. change (length (@nil Z)) with 0%nat in E. lia.
  - apply position_None in Hi. rewrite List.Forall_forall in Hi. specialize (Hi b Hin).
    by rewrite Hb in Hi.
Qed.

(** Looking the arguments up in the whole line gives the parser's arguments, with
    the white space that ends the line. *)
Lemma line_args l :
  exists ws, Forall (fun b => is_command_ws b = true) ws
    /\ default [] (split ← position is_command_ws l; Some (skip_command_ws (drop split l)))
       = match snd (split_verb_args (strip_command_eol_ws l)) with [] => [] | a => a ++ ws end.
Proof.
  destruct (strip_eol_split l) as (ws & E & Hw & Hlast). exists ws. split; [done|].
  set (s := strip_command_eol_ws l) in *. unfold split_verb_args.
  destruct (position is_command_ws s) as [k|] eqn:Hk.
  - pose proof (position_lt _ _ _ Hk) as Hlt.
    apply position_Some in Hk as (l1 & x & l2 & Hs & <- & Hx & Hall).
    cbn [default from_option snd]. rewrite (proj2 (Nat.ltb_lt _ _)) by done. rewrite E, Hs.
    rewrite <- app_assoc. cbn [app]. rewrite position_app_here by done.
    cbn [mbind option_bind default from_option id]. rewrite !drop_app_length.
    assert (exists b, In b (x :: l2) /\ is_command_ws b = false) as Hb.
    { destruct Hlast as [Hn|(r & y & Hr & Hy)]; [rewrite Hs in Hn; by destruct l1|].
      exists y. split; [|done]. rewrite Hs in Hr. by apply tail_last in Hr. }
    rewrite app_comm_cons, skip_ws_app by done.
    pose proof (skip_ws_ne _ Hb) as Hne. by destruct (skip_command_ws (x :: l2)).
  - cbn [default from_option snd]. rewrite Nat.ltb_irrefl. apply position_None in Hk.
    rewrite E. destruct ws as [|w ws].
    + rewrite app_nil_r, (proj2 (position_None _ _)) by done. done.
    + apply Forall_cons_1 in Hw as [Hw0 Hw]. rewrite position_app_here by done.
      cbn [mbind option_bind default from_option id]. rewrite drop_app_length.
      apply skip_all_ws. by constructor.
Qed.

(** ** Commands the parser knows *)

Lemma parse_known line :
  rl_kind (parse line) <> RequestKind.Unknown ->
  exists l, strip_complete_crlf_line line = Some l
    /\ (length line <= MAX_AUTHINFO_SASL_COMMAND_LINE_BYTES)%nat
    /\ let '(v, a) := split_verb_args (strip_command_eol_ws l) in
       parse line = Build_RequestLine (classify_request_kind v a) v a.
Proof.
  unfold parse. destruct (_ <? length line)%nat eqn:Hl; [done|]. apply Nat.ltb_ge in Hl.
  destruct (strip_complete_crlf_line line) as [l|]; [|done].
  destruct (command_spacing_is_invalid _); [done|].
  destruct (split_verb_args (strip_command_eol_ws l)) as [v a] eqn:Es. cbn zeta.
  destruct (_ && _); [done|]. intros _. exists l. rewrite Es. done.
Qed.

Lemma reads_args line command lines :
  reads_line line command lines -> pc_kind command <> RequestKind.Unknown ->
  exists ws, Forall (fun b => is_command_ws b = true) ws
    /\ default [] (command_args command (Some lines))
       = match args (parse line) with [] => [] | a => a ++ ws end.
Proof.
  intros [Hk _ _ Hline]. rewrite Hk. intros (l & Hl & _ & Hp)%parse_known.
  destruct (line_args l) as (ws & Hws & E). exists ws. split; [done|].
  unfold command_args. cbn [mbind option_bind]. rewrite Hline. cbn [mbind option_bind].
  unfold line_content. rewrite Hl. cbn [default from_option id]. rewrite E.
  destruct (split_verb_args _) as [v a]. by rewrite Hp.
Qed.

(** *** The kinds of direct commands check their arguments *)

Lemma known_if_cases b k : known_if b k = k /\ b = true \/ known_if b k = RequestKind.Unknown.
Proof. destruct b; [by left | by right]. Qed.

Lemma classify_direct_kind k a :
  classify_direct_command k a = k \/ classify_direct_command k a = RequestKind.Unknown.
Proof.
  destruct k; cbn [classify_direct_command]; try (by left);
    repeat match goal with
    | |- context [match ?x with _ => _ end] => destruct x
    | |- context [known_if ?b ?k] => unfold known_if
    end; (by left) || (by right).
Qed.

Definition sub_kinds : list RequestKind.RequestKind :=
  [RequestKind.Unknown; RequestKind.List; RequestKind.ListActive; RequestKind.ListActiveTimes;
   RequestKind.ListNewsgroups; RequestKind.ListOverviewFmt; RequestKind.ListHeaders;
   RequestKind.ListDistribPats; RequestKind.AuthInfo; RequestKind.AuthInfoUser;
   RequestKind.AuthInfoPass; RequestKind.ModeReader; RequestKind.ModeStream].

Lemma classify_list_kind a : In (classify_subcommand a LIST_SUBCOMMANDS RequestKind.List) sub_kinds.
Proof.
  unfold classify_subcommand. destruct (command_tokens a) as [|sub parts]; [cbn; tauto|].
  destruct (List.find _ LIST_SUBCOMMANDS) as [[n k]|] eqn:E; [|case_match; cbn; tauto].
  apply find_some in E as [Hin _]. cbn in Hin.
  repeat (destruct Hin as [[= <- <-]|Hin]; [|]); try done; unfold known_if;
    repeat case_match; cbn; tauto.
Qed.

Lemma classify_auth_kind a : In (classify_authinfo_command a) sub_kinds.
Proof.
  unfold classify_authinfo_command, classify_authinfo_sasl_command, known_if.
  repeat case_match; cbn; tauto.
Qed.

(** A kind that is no subcommand's comes from a verb of its own, and the arguments
    passed that verb's check. *)
Lemma classify_direct_inv v a k :
  classify_request_kind v a = k -> ~ In k sub_kinds -> classify_direct_command k a = k.
Proof.
  unfold classify_request_kind. destruct (List.find _ COMMAND_DESCRIPTORS) as [[n c]|].
  2: { intros <- Hn. destruct Hn. by left. }
  destruct c as [k'| | |]; intros E Hn.
  - destruct (classify_direct_kind k' a) as [H|H]; [by subst; rewrite H|].
    rewrite H in E. subst k. destruct Hn. by left.
  - subst k. by destruct (Hn (classify_list_kind a)).
  - subst k. by destruct (Hn (classify_auth_kind a)).
  - destruct Hn. subst k. unfold sub_kinds. repeat case_match; cbn; tauto.
Qed.

(** ** Where the arguments stand in the line *)

Lemma split_verb_args_suffix s v a : split_verb_args s = (v, a) -> exists pre, s = pre ++ a.
Proof.
  unfold split_verb_args. intros [= _ <-].
  set (k := default (length s) (position is_command_ws s)).
  destruct (k <? length s)%nat; [|exists s; by rewrite app_nil_r].
  unfold skip_command_ws. set (j := default _ _).
  exists (take k s ++ take j (drop k s)). by rewrite <- app_assoc, !take_drop.
Qed.

Lemma strip_complete_line line l : strip_complete_crlf_line line = Some l -> line = l ++ CRLF.
Proof.
  unfold strip_complete_crlf_line.
  destruct (detect_response_line_end line) as [e| |] eqn:E; [|done..].
  apply detect_line_complete_inv in E as (k & rest & -> & _ & ->).
  destruct (_ =? _)%nat eqn:He; [|done]. apply Nat.eqb_eq in He. intros [= <-].
  rewrite !length_app in He. change (length CRLF) with 2%nat in He.
  destruct rest; [|cbn in He; lia]. rewrite app_nil_r, length_app.
  by rewrite take_app_length' by (cbn; lia).
Qed.

(** The message-id of a line whose arguments are one. *)
Lemma message_range_line line l k v m :
  strip_complete_crlf_line line = Some l ->
  (length line <= MAX_AUTHINFO_SASL_COMMAND_LINE_BYTES)%nat ->
  split_verb_args (strip_command_eol_ws l) = (v, m) -> message_id_shape m ->
  exists start, parsed_message_id_range line (Build_RequestLine k v m)
      = Some {| pm_start := start; pm_len := length m |}
    /\ slice line start (start + length m) = m.
Proof.
  intros Hl Hlen Hs Hm. destruct (split_verb_args_suffix _ _ _ Hs) as [pre Hpre].
  destruct (strip_eol_split l) as (ws & Hws & _). rewrite Hpre in Hws.
  pose proof (strip_complete_line _ _ Hl) as Eline. rewrite Hws in Eline.
  exists (length pre). unfold parsed_message_id_range.
  rewrite request_message_id_whole, find_message_id_whole by done.
  cbn [mbind option_bind args fst snd]. unfold line_content. rewrite Hl.
  cbn [default from_option id]. rewrite Hpre, length_app, Nat.sub_0_r. cbn zeta.
  replace (length pre + length m - length m + 0)%nat with (length pre) by lia.
  assert (length line = length pre + length m + length ws + 2)%nat as Hll.
  { rewrite Eline, !length_app. change (length CRLF) with 2%nat. lia. }
  rewrite (proj2 (Nat.ltb_ge _ _)) by lia. unfold u16_try_from.
  unfold MAX_AUTHINFO_SASL_COMMAND_LINE_BYTES in Hlen.
  rewrite !(proj2 (Z.leb_le _ _)) by lia. cbn [mbind option_bind]. split; [done|].
  rewrite Eline, <- !app_assoc. apply slice_app_mid.
Qed.

Lemma utf8_arg_ok {T E} (f : bytes -> result T E) a :
  is_ok (validate_utf8_arg a f) = true -> exists v, f a = Ok v.
Proof.
  unfold validate_utf8_arg. destruct (from_utf8 a); [|done]. cbn. destruct (f a); [eauto|done].
Qed.

(** *** ARTICLE, HEAD, BODY and STAT: no argument, a number, or a message-id *)

Definition article_kind (k : RequestKind.RequestKind) : Prop :=
  k = RequestKind.Article \/ k = RequestKind.Head \/ k = RequestKind.Body \/ k = RequestKind.Stat.

Inductive ArticleSelector : bytes -> option Z -> option bytes -> Prop :=
| SelectsCurrent : ArticleSelector [] None None
| SelectsNumber a n : a <> [] -> 1 <= n <= MAX_ARTICLE_NUMBER -> ArticleSelector a (Some n) None
| SelectsMessageId a m : a <> [] -> message_id_shape m -> ArticleSelector a None (Some m).

Lemma digits_visible a : forallb is_ascii_digit a = true -> Forall visible a.
Proof.
  intros H. eapply Forall_forallb_impl; [|exact H].
  intros b ?%is_ascii_digit_spec. unfold visible. lia.
Qed.

Lemma number_arg a n :
  article_number_token_value a = Ok n -> parse_article_id_arg a = Some n /\ 1 <= n <= MAX_ARTICLE_NUMBER.
Proof.
  intros (Hl & Hd & -> & Hn)%article_number_token_value_spec. split; [|done].
  unfold parse_article_id_arg. pose proof (digits_visible a Hd) as Hv.
  destruct (visible_str a Hv) as [cs ->]. cbn [mbind option_bind]. rewrite trim_visible by done.
  assert (existsb (fun byte => negb (is_ascii_digit byte)) a = false) as ->.
  { apply existsb_false_Forall. eapply Forall_forallb_impl; [|exact Hd]. cbn. by intros b ->. }
  destruct a; [cbn in Hl; lia|]. cbn [length Nat.eqb orb]. unfold parse_u64.
  apply parse_unsigned_digits; [done..|]. unfold MAX_ARTICLE_NUMBER, u64_max in *. lia.
Qed.

Lemma no_message_id_range line k v a :
  request_line_message_id (Build_RequestLine k v a) = None ->
  parsed_message_id_range line (Build_RequestLine k v a) = None.
Proof. unfold parsed_message_id_range. by intros ->. Qed.

(** Arguments that do not start with a bracket hold no message-id. *)
Lemma bracketless_message_id k v b a :
  is_ascii_whitespace b = false -> b <> 60 ->
  request_line_message_id (Build_RequestLine k v (b :: a)) = None.
Proof.
  intros Hb Hne. unfold request_line_message_id, find_message_id. cbn [args].
  cbn [position]. rewrite Hb. cbn [negb mbind option_bind].
  destruct (rposition _ _) as [last|]; [|done]. cbn [mbind option_bind].
  unfold slice. rewrite drop_0. cbn [Nat.sub take].
  assert (starts_with (b :: take last a) (lit "<") = false) as E by exact (starts_with_differ b 60 _ [] Hne).
  by rewrite E.
Qed.

(** What the parser lets through as the arguments of such a command. *)
Lemma request_selector line :
  article_kind (rl_kind (parse line)) ->
  ArticleSelector (args (parse line)) (parse_article_id_arg (args (parse line))) (request_line_message_id (parse line))
  /\ (forall m, request_line_message_id (parse line) = Some m -> args (parse line) = m).
Proof.
  intros Hk. assert (rl_kind (parse line) <> RequestKind.Unknown) as Hu
    by (unfold article_kind in Hk; intuition congruence).
  destruct (parse_known _ Hu) as (l & _ & _ & Hp).
  destruct (split_verb_args (strip_command_eol_ws l)) as [v a]. rewrite Hp in *. cbn [rl_kind args] in *.
  assert (a = [] \/ is_ok (validate_article_fetch_selector a) = true) as [->|Ha].
  { remember (classify_request_kind v a) as k eqn:Ek. symmetry in Ek. apply classify_direct_inv in Ek;
      [|unfold sub_kinds, article_kind in *; cbn; intuition congruence].
    destruct a; [by left|right]. destruct (is_ok (validate_article_fetch_selector _)) eqn:E; [done|].
    destruct Hk as [H|[H|[H|H]]]; rewrite H in Ek;
      cbn [classify_direct_command length Nat.eqb orb] in Ek; by rewrite E in Ek. }
  { split; [constructor|by intros m]. }
  unfold validate_article_fetch_selector in Ha. destruct (from_utf8 a) eqn:Eu; [|done].
  cbn [ok_or mbind] in Ha. destruct (forallb is_ascii_digit a) eqn:Ed.
  - destruct (validate_article_number_token a) as [[]|] eqn:En; [|done].
    apply validate_token_Ok in En as [n Hn]. pose proof (number_arg a n Hn) as [-> Hb].
    destruct a as [|b a]; [done|]. cbn [forallb] in Ed. apply andb_true_iff in Ed as [Hd%is_ascii_digit_spec _].
    rewrite bracketless_message_id; [|apply visible_not_whitespace; unfold visible; lia|lia].
    split; [by constructor|done].
  - unfold message_id_from_borrowed in Ha.
    destruct (validate_message_id a) as [[]|] eqn:Em; [|done]. apply validate_message_id_shape in Em.
    rewrite (not_a_number a Em), request_message_id_whole by done. split; [|congruence].
    constructor; [by destruct Em as (? & -> & _)|done].
Qed.

(** The handlers look the same message-id up. *)
Lemma command_message_id_request line command lines :
  reads_line line command lines -> article_kind (pc_kind command) ->
  command_message_id_bytes command lines = request_line_message_id (parse line)
  /\ command_message_id command lines = command_message_id_bytes command lines.
Proof.
  intros [Hkind _ Hmid Hline] Hk. rewrite Hkind in Hk. destruct (request_selector _ Hk) as [Hsel Hwhole].
  assert (rl_kind (parse line) <> RequestKind.Unknown) as Hu
    by (unfold article_kind in Hk; intuition congruence).
  unfold command_message_id, command_message_id_bytes. rewrite Hmid.
  destruct (request_line_message_id (parse line)) as [m|] eqn:Em.
  - rewrite <- (Hwhole m eq_refl) in *. destruct (parse_known _ Hu) as (l & Hl & Hlen & Hp).
    destruct (split_verb_args (strip_command_eol_ws l)) as [v a] eqn:Es. rewrite Hp in *. cbn [args] in *.
    assert (Hshape : message_id_shape a) by (inversion Hsel; by subst).
    destruct (message_range_line line l (classify_request_kind v a) v a Hl Hlen Es Hshape) as (start & -> & Hslice).
    cbn [mbind option_bind pm_start pm_len]. unfold line_slice. rewrite Hline. cbn [mbind option_bind].
    rewrite Hslice. split; [done|]. destruct (visible_str a (message_id_visible _ Hshape)) as [cs E].
    by rewrite E.
  - unfold parsed_message_id_range. by rewrite Em.
Qed.

Lemma article_selector line command lines :
  reads_line line command lines -> article_kind (pc_kind command) ->
  ArticleSelector (default [] (command_args command (Some lines))) (pc_article_id command)
    (command_message_id_bytes command lines)
  /\ command_message_id command lines = command_message_id_bytes command lines.
Proof.
  intros Hr Hk. assert (pc_kind command <> RequestKind.Unknown) as Hu
    by (unfold article_kind in Hk; intuition congruence).
  destruct (reads_args _ _ _ Hr Hu) as (ws & _ & Eargs). destruct (command_message_id_request _ _ _ Hr Hk) as [Em Hm].
  split; [|done]. rewrite Eargs, Em, (rd_article_id _ _ _ Hr). rewrite (rd_kind _ _ _ Hr) in Hk.
  destruct (request_selector _ Hk) as [Hsel _]. destruct Hsel as [|a n Ha Hn|a m Ha Hm']; [constructor|..];
    destruct a; try done; by constructor.
Qed.

(** *** XOVER takes no message-id *)

Lemma xover_selector line command lines :
  reads_line line command lines -> pc_kind command = RequestKind.Xover ->
  pc_message_id command = None
  /\ starts_with (default [] (command_args command (Some lines))) (lit "<") = false.
Proof.
  intros Hr Hk. assert (pc_kind command <> RequestKind.Unknown) as Hu by congruence.
  destruct (reads_args _ _ _ Hr Hu) as (ws & _ & Eargs). destruct Hr as [Hkind Hid Hmid Hline].
  rewrite Hkind in Hu. destruct (parse_known _ Hu) as (l & Hl & Hlen & Hp).
  destruct (split_verb_args (strip_command_eol_ws l)) as [v a] eqn:Es.
  rewrite Eargs, Hmid, Hp. cbn [args]. rewrite Hp, Hk in Hkind. cbn [rl_kind] in Hkind.
  symmetry in Hkind. apply classify_direct_inv in Hkind;
    [|unfold sub_kinds; cbn; intuition congruence].
  destruct a as [|b a]; [done|]. cbn [classify_direct_command length Nat.eqb orb] in Hkind.
  destruct (is_ok (validate_utf8_arg (b :: a) listgroup_range_from)) eqn:E; [|done].
  apply utf8_arg_ok in E as [r E]. unfold listgroup_range_from, validated in E.
  destruct (validate_listgroup_range (b :: a)) as [[]|] eqn:Ev; [|done].
  apply validate_listgroup_range_shape in Ev.
  assert (plain_arg (b :: a)) as Hplain by by apply range_shape_plain.
  assert (b <> 60) as Hb.
  { intros ->. apply range_shape_not_bracket in Ev. done. }
  split; [|exact (starts_with_differ b 60 _ [] Hb)].
  apply no_message_id_range, bracketless_message_id; [|done].
  pose proof (range_shape_no_ws _ Ev) as Hws. cbn [length Nat.eqb existsb orb] in Hws.
  by apply orb_false_iff in Hws as [? _].
Qed.

(** ** Every command has its line *)

Definition reads_batch (commands : list ParsedCommand) (lines : CommandLineBatch) : Prop :=
  Forall (fun command => exists line, reads_line line command lines) commands.

(** The commands pushed are those of the lines, which are short. *)
Record pushed (texts : list bytes) (batch : Batch) : Prop := {
  ps_lines : lines_inv texts (ba_lines batch);
  ps_short : Forall (fun line => length line <= MAX_COMMAND_LINE_BYTES)%nat texts;
  ps_commands : Forall2 (fun '(slot, line) command =>
      command = parse_command_line line slot \/ command = set_transfer_body (parse_command_line line slot))
    (imap (fun slot line => (slot, line)) texts) (ba_commands batch);
}.

Lemma pushed_empty : pushed [] empty_batch.
Proof. split; [done|constructor|constructor]. Qed.

Lemma pushed_length texts batch : pushed texts batch -> length (ba_commands batch) = length texts.
Proof. intros [_ _ H]. apply Forall2_length in H. by rewrite length_imap in H. Qed.

Lemma short_fit texts :
  Forall (fun line => length line <= MAX_COMMAND_LINE_BYTES)%nat texts -> (length texts <= MAX_SERVER_PIPELINE_DEPTH)%nat ->
  lines_fit texts.
Proof.
  intros Hl Hn. assert (length (concat texts) <= length texts * MAX_COMMAND_LINE_BYTES)%nat as Hc.
  { clear Hn. induction Hl as [|line texts H1 H2 IH]; [cbn; lia|]. cbn [concat length]. rewrite length_app. lia. }
  unfold MAX_COMMAND_LINE_BYTES, MAX_AUTHINFO_SASL_COMMAND_LINE_BYTES, MAX_SERVER_PIPELINE_DEPTH in *.
  split; [nia|]. eapply List.Forall_impl; [|exact Hl]. cbn. intros l Hll. lia.
Qed.

Lemma push_pushed texts batch reader line batch' reader' :
  pushed texts batch -> (length line <= MAX_COMMAND_LINE_BYTES)%nat -> (length texts < MAX_SERVER_PIPELINE_DEPTH)%nat ->
  push_command reader line batch = (Ok batch', reader') -> pushed (texts ++ [line]) batch'.
Proof.
  intros Hp Hl Hn E. pose proof (pushed_length _ _ Hp) as Hlen. destruct Hp as [H1 H2 H3].
  assert (Hs : Forall (fun line => length line <= MAX_COMMAND_LINE_BYTES)%nat (texts ++ [line])).
  { apply Forall_app. split; [done|]. apply List.Forall_cons; [done|apply List.Forall_nil]. }
  assert (Hi : lines_inv (texts ++ [line]) (copy_line (ba_lines batch) (length (ba_commands batch)) line)).
  { apply copy_line_inv; [done|]. apply short_fit; [done|]. rewrite length_app. cbn. lia. }
  unfold push_command in E. rewrite Hlen in *.
  assert (Hc : forall command, command = parse_command_line line (length texts)
      \/ command = set_transfer_body (parse_command_line line (length texts)) ->
    pushed (texts ++ [line]) {| ba_commands := ba_commands batch ++ [command]; ba_lines := copy_line (ba_lines batch) (length texts) line |}).
  { intros command Hc. split; [done|done|]. cbn [ba_commands]. rewrite imap_app. apply Forall2_app; [done|].
    cbn [imap]. rewrite Nat.add_0_r. by apply Forall2_cons. }
  destruct (should_read_transfer_body _ _ _).
  - destruct (read_dot_terminated_body reader) as [[[]|e] r]; [|done]. injection E as <- <-. apply Hc. by right.
  - injection E as <- <-. apply Hc. by left.
Qed.

Lemma pushed_reads texts batch :
  pushed texts batch -> (length texts <= MAX_SERVER_PIPELINE_DEPTH)%nat -> reads_batch (ba_commands batch) (ba_lines batch).
Proof.
  intros [H1 H2 H3] Hn. apply Forall_lookup. intros j command Hj.
  destruct (Forall2_lookup_r _ _ _ _ _ H3 Hj) as ([slot line] & Hs & Hc). rewrite list_lookup_imap in Hs.
  destruct (texts !! j) as [text|] eqn:Et; [|done]. injection Hs as <- <-. exists text.
  assert (Hslot : u16_or_max j = j).
  { apply lookup_lt_Some in Et. unfold u16_or_max, u16_try_from, MAX_SERVER_PIPELINE_DEPTH in *. by rewrite (proj2 (Z.leb_le _ _)) by lia. }
  assert (Hline : line_of (ba_lines batch) j = Some text) by (by rewrite (line_of_inv _ _ j H1)).
  rewrite parse_command_line_request in Hc. destruct Hc as [->| ->]; split; try done; cbn; by rewrite Hslot.
Qed.

Section batches.
Context `{Mc : !Memchr}.

Lemma too_long_short : (length TOO_LONG_LINE <= MAX_COMMAND_LINE_BYTES)%nat.
Proof. apply Nat.leb_le. vm_compute. reflexivity. Qed.

Lemma crlf_line_short fuel : forall line reader text reader',
  (length line <= MAX_COMMAND_LINE_BYTES)%nat -> read_crlf_line_loop fuel line reader = (Ok (Some text), reader') ->
  (length text <= MAX_COMMAND_LINE_BYTES)%nat.
Proof.
  induction fuel as [|fuel IH]; intros line reader text reader' Hl E; cbn [read_crlf_line_loop] in E; [done|].
  destruct (fill_buf reader) as [[available|e] r]; [|done]. destruct (_ =? 0)%nat; [by destruct (_ =? 0)%nat|].
  revert E. set (n := match memchr LF available with Some index => S index | None => length available end). intros E.
  destruct (Nat.ltb_spec MAX_COMMAND_LINE_BYTES (length line + n)) as [Hlt|Hge].
  { injection E as <- _. apply too_long_short. }
  assert (Hn : (length (line ++ take n available) <= MAX_COMMAND_LINE_BYTES)%nat) by (rewrite length_app, length_take; lia).
  destruct (ends_with _ _); [|by apply IH in E]. by injection E as <- _.
Qed.

Lemma buffered_line_short reader line reader' :
  read_buffered_crlf_line_into reader = Some (line, reader') -> (length line <= MAX_COMMAND_LINE_BYTES)%nat.
Proof.
  unfold read_buffered_crlf_line_into. intros (n & _ & E)%bind_Some.
  destruct (Nat.ltb_spec MAX_COMMAND_LINE_BYTES n) as [Hlt|Hge]; apply (inj Some) in E; injection E as <- _.
  - apply too_long_short.
  - rewrite length_take. lia.
Qed.

Lemma buffered_pushed fuel : forall texts batch reader batch' reader',
  pushed texts batch -> (length texts + fuel <= MAX_SERVER_PIPELINE_DEPTH)%nat ->
  read_buffered_commands fuel batch reader = (Ok batch', reader') ->
  exists texts', pushed texts' batch' /\ (length texts' <= MAX_SERVER_PIPELINE_DEPTH)%nat.
Proof.
  induction fuel as [|fuel IH]; intros texts batch reader batch' reader' Hp Hn E; cbn [read_buffered_commands] in E.
  { injection E as <- _. exists texts. split; [done|lia]. }
  destruct (read_buffered_crlf_line_into reader) as [[line r]|] eqn:El; [|injection E as <- _; exists texts; split; [done|lia]].
  apply buffered_line_short in El. destruct (push_command r line batch) as [[batch1|e] r1] eqn:Ep; [|done].
  apply (push_pushed texts) in Ep; [|done..|lia]. eapply IH; [exact Ep| |exact E]. rewrite length_app. cbn [length]. lia.
Qed.

(** Whatever the client sends, the commands of a batch are parsed from lines the
    batch keeps. *)
Lemma batch_reads_lines reader depth batch reader' :
  (1 <= depth <= MAX_SERVER_PIPELINE_DEPTH)%nat -> read_command_batch reader depth = (Ok (Some batch), reader') ->
  reads_batch (ba_commands batch) (ba_lines batch).
Proof.
  intros Hd E. unfold read_command_batch in E. destruct (read_crlf_line_into reader) as [[[line|]|e] r] eqn:El; [|done..].
  apply crlf_line_short in El; [|cbn; lia]. destruct (push_command r line empty_batch) as [[batch1|e] r1] eqn:Ep; [|done].
  apply (push_pushed []) in Ep; [|apply pushed_empty|done|cbn; lia]. pose proof (pushed_length _ _ Ep) as Hlen. cbn in Hlen.
  rewrite Hlen in E. destruct (read_buffered_commands _ batch1 r1) as [[batch2|e] r2] eqn:Eb; [|done]. injection E as <- _.
  apply (buffered_pushed _ [line]) in Eb as (texts & Hp & Hn); [|done|cbn; lia]. by eapply pushed_reads.
Qed.
End batches.
