(* ===== verification/ServerReplies.v ===== *)
(** * What a client makes of the server's replies ([src/src/lib.rs])

    A reply is good when the client's receiver takes it as one whole response to
    its request ([reply_ok]).  Here: the generated replies are good, for every
    article number, message-id and payload size, and the payload of a
    configuration can be cut for every header ([config_ok]). *)
From S2P Require Import Prelude Utf8 Decimal Memchr Terminator Args Kinds ResponseLine ResponseBody Article.
From S2P Require Import ResponseFrame OwnedResponse ResponseReceiver ReceivedResponse ClientWire Text ServerDates.
From S2P Require Import ServerResponses OrderedMap ServerIndex ServerPayload.

Local Open Scope Z_scope.
Local Open Scope rust_scope.

(** ** Good replies *)

Definition reply_ok (kind : RequestKind.RequestKind) (reply : bytes) : Prop :=
  exists response, whole_response (IoError := IoError) kind reply response.

(** The same, by computation. *)
Definition reply_okb (kind : RequestKind.RequestKind) (reply : bytes) : bool :=
  match response_boundary kind reply with
  | BoundaryAt i e c f =>
      (f =? length reply)%nat
      && is_ok (into_owned_response (IoError := IoError) (framed_at kind reply i e c f))
  | _ => false
  end.

Lemma reply_okb_ok kind reply : reply_okb kind reply = true -> reply_ok kind reply.
Proof.
  unfold reply_okb, reply_ok, whole_response, outcome.
  destruct (response_boundary kind reply) as [| |i e c f]; [done..|].
  intros [->%Nat.eqb_eq Ho]%andb_true_iff.
  destruct (into_owned_response _) as [r|]; [|done]. exists r. eauto 6.
Qed.

Lemma reply_ok_ne kind reply : reply_ok kind reply -> reply <> [].
Proof.
  intros (r & (i & e & c & Hb) & _) ->.
  apply boundary_bounds in Hb as (_ & _ & He & Hc & _). cbn in Hc. lia.
Qed.

(** ** Text that stays inside its block *)

(** Whole lines, none of them a lone dot. *)
Definition block_text (text : bytes) : Prop :=
  exists lines, text = join_crlf lines /\ Forall (Forall plain) lines
    /\ Forall (fun l => l <> [46]) lines.

Lemma block_text_nil : block_text [].
Proof. by exists []. Qed.

Lemma block_text_app a b : block_text a -> block_text b -> block_text (a ++ b).
Proof.
  intros (la & -> & Ha1 & Ha2) (lb & -> & Hb1 & Hb2). exists (la ++ lb).
  rewrite join_crlf_app. split; [done|]. split; by apply Forall_app.
Qed.

Lemma block_text_line l : Forall plain l -> l <> [46] -> block_text (l ++ CRLF).
Proof.
  intros Hl Hd. exists [l]. split; [|split; by constructor].
  unfold join_crlf. cbn [fmap list_fmap concat]. by rewrite app_nil_r.
Qed.

Lemma block_text_end text : block_text text -> body_end (text ++ DOT_TERMINATOR) = Some (length text + 3)%nat.
Proof.
  intros (lines & -> & Hp & Hd). rewrite body_end_lines by done.
  rewrite <- (app_nil_r DOT_TERMINATOR), body_end_dot. done.
Qed.

(** Bytes of a text are decidable line content. *)
Lemma plain_by l : forallb (fun b => negb (b =? LF) && negb (b =? CR)) l = true -> Forall plain l.
Proof.
  intros H. eapply Forall_forallb_impl; [|exact H]. cbn.
  intros b [?%negb_true_iff%Z.eqb_neq ?%negb_true_iff%Z.eqb_neq]%andb_true_iff. by split.
Qed.

Lemma shape_plain m : message_id_shape m -> Forall plain m.
Proof.
  intros (inner & -> & _ & Hi). apply Forall_app. split; [by apply plain_by|].
  apply Forall_app. split; [|by apply plain_by].
  eapply Forall_forallb_impl; [|exact Hi]. intros b ?%message_id_byte_spec.
  unfold plain, CR, LF. lia.
Qed.

(** ** Replies with an article number and a message-id *)

Definition number_ok (n : Z) : Prop := 0 <= n <= MAX_ARTICLE_NUMBER.

Lemma number_printed n :
  number_ok n ->
  parse_response_article_number (print_decimal n) = Some n
  /\ no_space (print_decimal n) /\ Forall plain (print_decimal n)
  /\ (1 <= length (print_decimal n) <= 16)%nat.
Proof.
  intros Hn. unfold number_ok, MAX_ARTICLE_NUMBER in Hn.
  destruct (print_decimal_spec n) as (Hd & Hv & _); [unfold u64_max; lia|].
  destruct (print_decimal_length n 16) as [H1 H2]; [lia|lia|].
  assert (Forall (fun b => 48 <= b <= 57) (print_decimal n)) as Hr
    by (eapply Forall_forallb_impl; [|exact Hd]; intros b; apply is_ascii_digit_spec).
  split_and!; try lia.
  - unfold parse_response_article_number. rewrite Hd, parse_print_decimal by (unfold u64_max; lia).
    rewrite (proj2 (Nat.eqb_neq _ _)), (proj2 (Nat.ltb_ge _ _)) by lia.
    cbn [negb orb mbind option_bind]. unfold MAX_ARTICLE_NUMBER.
    by rewrite (proj2 (Z.leb_le _ _)) by lia.
  - eapply Forall_impl; [|exact Hr]. intros b Hb. cbn beta in *. apply Z.eqb_neq. unfold SP. lia.
  - eapply Forall_impl; [|exact Hr]. intros b Hb. cbn beta in *. unfold plain, CR, LF. lia.
Qed.

(** A status whose reply names an article: its code and whether a block follows. *)
Definition article_code (kind : RequestKind.RequestKind) (code : bytes) (block : bool) : Prop :=
  exists d0 d1 d2 status, code = [d0; d1; d2] /\ no_space code /\ Forall plain code
    /\ (forall rest, StatusCode.parse (code ++ rest) = Some status)
    /\ is_article_response kind status = true
    /\ framing (descriptor_for_request_status kind status)
       = (if block then ResponseFraming.Multiline else ResponseFraming.SingleLine).

Lemma article_codes :
  article_code RequestKind.Article (lit "220") true
  /\ article_code RequestKind.Head (lit "221") true
  /\ article_code RequestKind.Body (lit "222") true
  /\ article_code RequestKind.Stat (lit "223") false.
Proof.
  split_and!; eexists _, _, _, _; (split; [reflexivity|]); (split; [by repeat constructor|]);
    (split; [by apply plain_by|]); (split; [reflexivity|]); split; reflexivity.
Qed.

Section article_line.
Context (kind : RequestKind.RequestKind) (code : bytes) (block : bool).
Context (n : Z) (m text : bytes).
Hypotheses (Hcode : article_code kind code block) (Hn : number_ok n) (Hm : message_id_shape m).
Hypotheses (Htext : Forall plain text) (Hlen : (length text <= 64)%nat).
Hypothesis (Hcomment : validate_optional_trailing_comment text = true).

Let arguments : bytes := print_decimal n ++ SP :: m ++ text.
Let line : bytes := code ++ SP :: arguments.

Lemma article_line_plain : Forall plain line /\ (length line + 2 <= 512)%nat.
Proof.
  destruct Hcode as (d0 & d1 & d2 & st & Hc & _ & Hpc & _).
  destruct (number_printed n Hn) as (_ & _ & Hpn & Hl).
  assert (length m <= 250)%nat as Hml.
  { destruct Hm as (inner & -> & [_ H] & _). rewrite !length_app. cbn [length lit].
    change (length (lit "<")) with 1%nat. change (length (lit ">")) with 1%nat. lia. }
  unfold line, arguments. split.
  - apply Forall_app. split; [done|]. constructor; [by split|]. apply Forall_app.
    split; [done|]. constructor; [by split|]. apply Forall_app. split; [by apply shape_plain|done].
  - rewrite Hc. cbn [app length]. rewrite length_app. cbn [length]. rewrite length_app. lia.
Qed.

(** The client's parser of the status line takes it. *)
Lemma article_line_parsed rest :
  exists i, initial_parse kind (line ++ CRLF ++ rest) = InitialComplete i
    /\ framing (ri_descriptor i) = (if block then ResponseFraming.Multiline else ResponseFraming.SingleLine)
    /\ is_article_response kind (ri_status i) = true.
Proof.
  destruct article_line_plain as [Hp Hl].
  destruct Hcode as (d0 & d1 & d2 & st & Hc & _ & _ & Hst & Ha & Hf).
  destruct (number_printed n Hn) as (Hpn & Hns & _ & _).
  assert (StatusCode.parse (line ++ CRLF ++ rest) = Some st) as Hs
    by (unfold line; rewrite <- app_assoc; apply Hst).
  unfold initial_parse, detect_bounded_response_line_end.
  rewrite detect_line_complete, Hs by done. cbn zeta.
  pose proof (line_limit_bounds kind (Some st)) as Hlim.
  rewrite (proj2 (Nat.leb_le _ _)) by lia. rewrite Ha.
  replace (length line + 2)%nat with (length (line ++ CRLF))
    by (rewrite length_app; reflexivity).
  rewrite app_assoc, take_app_length.
  assert (parse_response_initial_article (line ++ CRLF) = article_arguments 4 arguments) as ->.
  { unfold line. rewrite Hc. apply (article_line_arguments d0 d1 d2 arguments). }
  erewrite (article_arguments_valid_field 4 _ arguments n m text);
    [|by apply find_space_app| | |done..].
  2: { unfold arguments. by rewrite take_app_length. }
  2: { unfold arguments. replace (S (length (print_decimal n))) with (length (print_decimal n) + 1)%nat by lia.
       by rewrite <- drop_drop, drop_app_length. }
  rewrite Hf. destruct block; (eexists; split; [reflexivity|]); cbn [ri_descriptor ri_status]; auto.
Qed.

(** So the reply is whole: the line alone, or with its block. *)
Lemma article_reply_ok payload :
  (if block then exists content, payload = content ++ DOT_TERMINATOR /\ block_text content
   else payload = []) ->
  reply_ok kind (line ++ CRLF ++ payload).
Proof.
  intros Hpay. destruct (article_line_parsed payload) as (i & Hi & Hf & Ha).
  destruct article_line_plain as [Hp _].
  assert (exists e c, response_boundary kind (line ++ CRLF ++ payload)
            = BoundaryAt i e c (length (line ++ CRLF ++ payload))) as (e & c & Hb).
  { unfold response_boundary. rewrite Hi, detect_line_complete, Hf by done.
    destruct block; cbn [ResponseFraming.is_multiline].
    - destruct Hpay as (content & -> & Hc).
      replace (length line + 2)%nat with (length (line ++ CRLF)) by (rewrite length_app; reflexivity).
      rewrite (app_assoc line), drop_app_length, block_text_end by done.
      do 2 eexists. f_equal. rewrite (length_app (line ++ CRLF)), (length_app content).
      change (length DOT_TERMINATOR) with 3%nat. done.
    - rewrite Hpay, app_nil_r. do 2 eexists. f_equal. rewrite length_app. done. }
  unfold reply_ok, whole_response, outcome. rewrite Hb.
  unfold into_owned_response. cbn [framed_at fs_kind fs_status]. rewrite Ha. eauto 6.
Qed.
End article_line.

(** The same, as the server writes it. *)
Lemma response_line_ok kind code block n m text payload :
  article_code kind code block -> number_ok n -> message_id_shape m ->
  Forall plain text -> (length text <= 64)%nat ->
  validate_optional_trailing_comment text = true ->
  (if block then exists content, payload = content ++ DOT_TERMINATOR /\ block_text content
   else payload = []) ->
  reply_ok kind (response_line code n m (text ++ CRLF) ++ payload).
Proof.
  intros Hc Hn Hm Ht Hl Hv Hp. replace (response_line code n m (text ++ CRLF) ++ payload)
    with ((code ++ SP :: (print_decimal n ++ SP :: m ++ text)) ++ CRLF ++ payload).
  - exact (article_reply_ok kind code block n m text Hc Hn Hm Ht Hl Hv payload Hp).
  - unfold response_line. change (lit " ") with [SP]. rewrite <- !app_assoc. cbn [app].
    repeat (rewrite <- app_assoc; cbn [app]). done.
Qed.

Lemma response_line_crlf code n m text : ends_with (response_line code n m (text ++ CRLF)) CRLF = true.
Proof.
  unfold response_line. rewrite !app_assoc. apply ends_with_app.
Qed.

(** ** Payloads *)

Lemma body_line_text : block_text BODY_LINE.
Proof.
  change BODY_LINE with (take 78 BODY_LINE ++ CRLF). apply block_text_line; [|discriminate].
  apply plain_by. reflexivity.
Qed.

Lemma repeated_text copies : block_text (repeat_bytes copies BODY_LINE).
Proof.
  unfold repeat_bytes. induction copies as [|copies IH]; [exact block_text_nil|].
  cbn [replicate concat]. apply block_text_app; [exact body_line_text|done].
Qed.

Lemma repeat_length copies line : length (repeat_bytes copies line) = (copies * length line)%nat.
Proof.
  unfold repeat_bytes. induction copies as [|copies IH]; [done|].
  cbn [replicate concat]. rewrite length_app, IH. lia.
Qed.

Lemma repeat_take k copies line :
  (k <= copies)%nat -> take (k * length line) (repeat_bytes copies line) = repeat_bytes k line.
Proof.
  intros Hk. replace copies with (k + (copies - k))%nat by lia.
  unfold repeat_bytes. rewrite replicate_add, concat_app, take_app_length'; [done|].
  symmetry. exact (repeat_length k line).
Qed.

Lemma div_ceil_mono a b n : (0 < n)%nat -> (a <= b)%nat -> (div_ceil a n <= div_ceil b n)%nat.
Proof.
  intros Hn Hab. unfold div_ceil.
  pose proof (Nat.div_mod_eq a n) as Ha. pose proof (Nat.div_mod_eq b n) as Hb.
  pose proof (Nat.mod_upper_bound a n ltac:(lia)). pose proof (Nat.mod_upper_bound b n ltac:(lia)).
  pose proof (Nat.Div0.div_le_mono a b n Hab) as Hle.
  destruct (a mod n =? 0)%nat eqn:Ea, (b mod n =? 0)%nat eqn:Eb;
    rewrite ?Nat.eqb_eq, ?Nat.eqb_neq in *; try lia.
  destruct (decide (a / n = b / n)%nat) as [E|]; [|lia]. rewrite E in Ha. lia.
Qed.

Lemma div_ceil_covers a n : (0 < n)%nat -> (a <= div_ceil a n * n < a + n)%nat.
Proof.
  intros Hn. unfold div_ceil.
  pose proof (Nat.div_mod_eq a n). pose proof (Nat.mod_upper_bound a n ltac:(lia)).
  destruct (a mod n =? 0)%nat eqn:E; rewrite ?Nat.eqb_eq, ?Nat.eqb_neq in *; lia.
Qed.

(** A payload cut for a header: the slice is in range, and holds whole lines. *)
Definition cuts (mode : PayloadMode.PayloadMode) (payload : bytes) (target : nat) : Prop :=
  forall header_len, exists p,
    prepared_payload_slice mode payload target header_len = Some p /\ block_text p.

Lemma repeated_cuts target : cuts PayloadMode.Plain (build_repeated_payload target) target.
Proof.
  intros h. unfold prepared_payload_slice, slice_to, repeated_payload_len_at_least,
    build_repeated_payload, append_repeated_payload_at_least.
  change (length BODY_LINE =? 0)%nat with false. cbn [app].
  assert (div_ceil (target - h) (length BODY_LINE) <= div_ceil target (length BODY_LINE))%nat as Hle
    by (apply div_ceil_mono; [apply Nat.ltb_lt; reflexivity|lia]).
  rewrite repeat_length, (proj2 (Nat.leb_le _ _)) by (apply Nat.mul_le_mono_r; exact Hle).
  eexists. split; [reflexivity|]. rewrite repeat_take by exact Hle. apply repeated_text.
Qed.

Lemma repeated_payload_text target : block_text (build_repeated_payload target).
Proof. exact (repeated_text _). Qed.

(** ** Generated replies *)

(** A text of whole lines after a whole line needs no line end of its own. *)
Lemma dot_terminated prefix text :
  ends_with prefix CRLF = true -> block_text text ->
  append_dot_terminator (prefix ++ text) = prefix ++ text ++ DOT_TERMINATOR.
Proof.
  intros Hp (lines & -> & _ & _). unfold append_dot_terminator.
  assert (ends_with (prefix ++ join_crlf lines) CRLF = true) as ->; [|by rewrite <- app_assoc].
  destruct lines as [|l lines _] using rev_ind; [by rewrite app_nil_r|].
  rewrite join_crlf_app, join_crlf_cons, !app_assoc.
  rewrite app_nil_r. apply ends_with_app.
Qed.

(** The buffer of a prebuilt response is exactly as long as was reserved. *)
Lemma generated_response prefix target :
  ends_with prefix CRLF = true ->
  exists text, build_generated_response prefix target = prefix ++ text ++ DOT_TERMINATOR
    /\ block_text text
    /\ length (build_generated_response prefix target)
       = total_len {| gr_prefix := prefix; gr_target_bytes := target |}
    /\ (target <= length prefix + length text)%nat.
Proof.
  intros Hp. unfold build_generated_response, total_len, append_repeated_payload_at_least.
  cbn [gr_prefix gr_target_bytes]. change (length BODY_LINE =? 0)%nat with false.
  destruct (length prefix <? target)%nat eqn:E.
  - apply Nat.ltb_lt in E. set (copies := div_ceil _ _).
    exists (repeat_bytes copies BODY_LINE). pose proof (repeated_text copies) as Ht.
    rewrite dot_terminated, !length_app, repeat_length by done. split_and!; [done|done|lia|].
    pose proof (div_ceil_covers (target - length prefix) (length BODY_LINE)
                  ltac:(apply Nat.ltb_lt; reflexivity)) as Hc. fold copies in Hc. lia.
  - apply Nat.ltb_ge in E. exists []. unfold append_dot_terminator. rewrite Hp.
    split_and!; [done|exact block_text_nil| |cbn [length]; lia].
    rewrite !length_app. lia.
Qed.

(** *** The message-id of a selected article *)

Lemma selected_id_shape n : number_ok n -> message_id_shape (selected_message_id n).
Proof.
  intros Hn. destruct (number_printed n Hn) as (_ & _ & _ & Hl).
  exists (lit "article." ++ print_decimal n ++ lit "@nntpbench.local"). split; [|split].
  - unfold selected_message_id. by rewrite <- !app_assoc.
  - rewrite !length_app. change (length (lit "article.")) with 8%nat.
    change (length (lit "@nntpbench.local")) with 16%nat. lia.
  - rewrite !forallb_app. change (forallb message_id_byte (lit "article.")) with true.
    change (forallb message_id_byte (lit "@nntpbench.local")) with true.
    rewrite andb_true_r. cbn [andb]. apply forallb_forall. intros b Hb. apply message_id_byte_spec.
    destruct (print_decimal_spec n) as (Hd & _ & _).
    { unfold number_ok, MAX_ARTICLE_NUMBER, u64_max in *. lia. }
    rewrite forallb_forall in Hd. specialize (Hd b Hb). apply is_ascii_digit_spec in Hd. lia.
Qed.

(** *** Synthetic headers *)

Lemma text_around lines x y m a b :
  a = join_crlf lines ++ x -> b = CRLF ++ y ++ CRLF ->
  block_text (join_crlf lines) -> Forall plain x -> x <> [] -> x <> [46] -> Forall plain y -> y <> [46] ->
  Forall plain m -> block_text ([] ++ a ++ m ++ b).
Proof.
  intros -> -> Hl Hx Hne Hd Hy Hyd Hm. rewrite app_nil_l, <- app_assoc. apply block_text_app; [done|].
  rewrite (app_assoc m), (app_assoc x), (app_assoc x). apply block_text_app.
  - apply block_text_line; [by apply Forall_app|]. destruct x as [|c [|]]; [done| |done].
    intros [= -> _]. done.
  - by apply block_text_line.
Qed.

Lemma synthetic_text m : message_id_shape m -> block_text (append_synthetic_article_headers [] m).
Proof.
  intros Hm. unfold append_synthetic_article_headers.
  apply (text_around [bstr "Path: nntpbench.local!mock"; bstr "From: Bench User <bench@nntpbench.local>";
           bstr "Newsgroups: alt.binaries.bench"; bstr "Subject: nntpbench synthetic article"]
           (bstr "Message-ID: ") (bstr "Date: Fri, 15 May 2026 00:00:00 +0000"));
    [vm_compute; reflexivity|vm_compute; reflexivity| |by apply plain_by|discriminate|discriminate
    |by apply plain_by|discriminate|by apply shape_plain].
  eexists. split; [reflexivity|].
  split; repeat (apply Forall_cons_2; [by (apply plain_by || discriminate)|]); constructor.
Qed.

Lemma synthetic_app buffer m :
  append_synthetic_article_headers buffer m = buffer ++ append_synthetic_article_headers [] m.
Proof. unfold append_synthetic_article_headers. by rewrite app_nil_l. Qed.

Lemma empty_line_text : block_text CRLF.
Proof. exact (block_text_line [] (Forall_nil_2 _) ltac:(discriminate)). Qed.

(** *** HEAD and STAT *)

Lemma head_reply_ok n m :
  number_ok n -> message_id_shape m -> reply_ok RequestKind.Head (build_head_response_into n m).
Proof.
  intros Hn Hm. unfold build_head_response_into.
  rewrite synthetic_app, dot_terminated by (by apply synthetic_text || exact (response_line_crlf _ _ _ (bstr " article retrieved"))).
  apply (response_line_ok RequestKind.Head (lit "221") true n m (bstr " article retrieved"));
    [apply article_codes|done|done|by apply plain_by|apply Nat.leb_le; reflexivity|reflexivity|].
  eexists. split; [reflexivity|]. by apply synthetic_text.
Qed.

Lemma stat_reply_ok n m :
  number_ok n -> message_id_shape m -> reply_ok RequestKind.Stat (build_stat_response_into n m).
Proof.
  intros Hn Hm. unfold build_stat_response_into.
  rewrite <- (app_nil_r (response_line _ _ _ _)).
  by apply (response_line_ok RequestKind.Stat (lit "223") false n m (bstr " article retrieved"));
    [apply article_codes|done|done|apply plain_by|apply Nat.leb_le; reflexivity|reflexivity|].
Qed.

(** *** ARTICLE and BODY, over a payload that can be cut *)

Definition article_header (n : Z) (m : bytes) : bytes := build_article_response_header_into n m.

Lemma article_header_split n m :
  article_header n m = response_line (lit "220") n m (bstr " article follows" ++ CRLF)
                       ++ append_synthetic_article_headers [] m ++ CRLF.
Proof.
  unfold article_header, build_article_response_header_into, append_article_response_header.
  by rewrite synthetic_app, <- app_assoc.
Qed.

Lemma article_frame_ok n m payload :
  number_ok n -> message_id_shape m -> block_text payload ->
  reply_ok RequestKind.Article (article_header n m ++ payload ++ DOT_TERMINATOR).
Proof.
  intros Hn Hm Hp. rewrite article_header_split, <- app_assoc.
  apply (response_line_ok RequestKind.Article (lit "220") true n m (bstr " article follows"));
    [apply article_codes|done|done|by apply plain_by|apply Nat.leb_le; reflexivity|reflexivity|].
  eexists ((append_synthetic_article_headers [] m ++ CRLF) ++ payload).
  rewrite <- !app_assoc. split; [done|]. apply block_text_app; [by apply synthetic_text|].
  apply block_text_app; [exact empty_line_text|done].
Qed.

Lemma body_frame_ok n m payload :
  number_ok n -> message_id_shape m -> block_text payload ->
  reply_ok RequestKind.Body
    (response_line (lit "222") n m (bstr " body follows\r\n") ++ payload ++ DOT_TERMINATOR).
Proof.
  intros Hn Hm Hp.
  apply (response_line_ok RequestKind.Body (lit "222") true n m (bstr " body follows"));
    [apply article_codes|done|done|by apply plain_by|apply Nat.leb_le; reflexivity|reflexivity|].
  eauto.
Qed.

(** ** Configurations *)

(** What the server needs of its configuration to answer every article command. *)
Record config_ok (config : ServerConfig) : Prop := {
  co_article_cuts : cuts (payload_mode config) (article_payload config) (article_bytes config);
  co_body_cuts : cuts (payload_mode config) (body_payload config) (body_bytes config);
  co_article : reply_ok RequestKind.Article (article_response config);
  co_body : reply_ok RequestKind.Body (body_response config);
  co_depth : (1 <= max_pipeline_depth config <= 1024)%nat;
}.

(** The prefixes of the prebuilt responses are those of article one. *)
Lemma article_prefix : ARTICLE_RESPONSE_PREFIX = article_header 1 (selected_message_id 1).
Proof. vm_compute. reflexivity. Qed.

Lemma body_prefix :
  BODY_RESPONSE_PREFIX = response_line (lit "222") 1 (selected_message_id 1) (bstr " body follows\r\n").
Proof. vm_compute. reflexivity. Qed.

Lemma number_one : number_ok 1.
Proof. unfold number_ok, MAX_ARTICLE_NUMBER. lia. Qed.

Lemma prebuilt_ok text :
  block_text text ->
  reply_ok RequestKind.Article (ARTICLE_RESPONSE_PREFIX ++ text ++ DOT_TERMINATOR)
  /\ reply_ok RequestKind.Body (BODY_RESPONSE_PREFIX ++ text ++ DOT_TERMINATOR).
Proof.
  intros Ht. rewrite article_prefix, body_prefix. pose proof (selected_id_shape 1 number_one).
  split; [apply article_frame_ok|apply body_frame_ok]; done || exact number_one.
Qed.

Lemma prefixes_end : ends_with ARTICLE_RESPONSE_PREFIX CRLF = true
  /\ ends_with BODY_RESPONSE_PREFIX CRLF = true.
Proof. split; vm_compute; reflexivity. Qed.

Section built.
Context `{Mc : !Memchr, Fs : !FileSystem} (find_end : bytes -> option nat).
Context (encode_stream : nat -> nat -> bytes -> nat -> bytes -> bytes).

(** The yEnc encoder writes whole lines and doubles a dot that starts one. *)
Definition encodes_lines : Prop :=
  forall first last data size name, block_text (encode_stream first last data size name).

Lemma yenc_text size : encodes_lines -> block_text (encode_yenc_payload encode_stream size).
Proof.
  intros He. unfold encode_yenc_payload. destruct (size =? 0)%nat; [|apply He].
  exists [bstr "=ybegin line=128 size=0 name=nntpbench.bin"; bstr "=yend size=0 crc32=00000000"].
  split; [vm_compute; reflexivity|].
  split; repeat (apply Forall_cons_2; [by (apply plain_by || discriminate)|]); constructor.
Qed.

Lemma built_config_ok args config :
  encodes_lines -> from_bound_args find_end encode_stream args = Some config -> config_ok config.
Proof.
  intros He. unfold from_bound_args.
  destruct (match sa_payload_mode args with PayloadMode.Yenc => _ | PayloadMode.Plain => _ end)
    as [body article] eqn:Em.
  destruct (build_config_index find_end (sa_article_dir args)) as [index|]; [|done].
  intros [= <-]. destruct prefixes_end as [Ha Hb].
  assert (1 <= Nat.min (Nat.max (sa_max_pipeline_depth args) 1) 1024 <= 1024)%nat as Hd by lia.
  destruct (sa_payload_mode args) eqn:Emode; injection Em as <- <-;
    constructor; cbn [payload_mode article_payload article_bytes body_payload body_bytes
      article_response body_response max_pipeline_depth]; try exact Hd.
  - intros h. eexists. split; [reflexivity|]. by apply yenc_text.
  - intros h. eexists. split; [reflexivity|]. by apply yenc_text.
  - unfold frame_prebuilt_payload, build_server_payload.
    rewrite (dot_terminated _ _ Ha (yenc_text _ He)). exact (proj1 (prebuilt_ok _ (yenc_text _ He))).
  - unfold frame_prebuilt_payload, build_server_payload.
    rewrite (dot_terminated _ _ Hb (yenc_text _ He)). exact (proj2 (prebuilt_ok _ (yenc_text _ He))).
  - apply repeated_cuts.
  - apply repeated_cuts.
  - destruct (generated_response ARTICLE_RESPONSE_PREFIX (sa_article_bytes args) Ha) as (t & -> & Ht & _).
    exact (proj1 (prebuilt_ok _ Ht)).
  - destruct (generated_response BODY_RESPONSE_PREFIX (sa_body_bytes args) Hb) as (t & -> & Ht & _).
    exact (proj2 (prebuilt_ok _ Ht)).
Qed.

(** ** Responses built for a command *)

Section replies.
Context (config : ServerConfig) (Hc : config_ok config).

Lemma built_article_ok n m :
  number_ok n -> message_id_shape m ->
  exists r, build_article_response_into n m config = Some r /\ reply_ok RequestKind.Article r.
Proof.
  intros Hn Hm. unfold build_article_response_into, article_payload_for_header.
  destruct (co_article_cuts config Hc (length (build_article_response_header_into n m)))
    as (p & -> & Hp).
  cbn [mbind option_bind]. eexists. split; [reflexivity|].
  rewrite dot_terminated; [by apply article_frame_ok| |done].
  fold (article_header n m). rewrite article_header_split, !app_assoc. apply ends_with_app.
Qed.

Lemma built_body_ok n m :
  number_ok n -> message_id_shape m ->
  exists r, build_body_response_into n m config = Some r /\ reply_ok RequestKind.Body r.
Proof.
  intros Hn Hm. unfold build_body_response_into, body_payload_for_header. cbn zeta.
  destruct (co_body_cuts config Hc (length (response_line (lit "222") n m (bstr " body follows\r\n"))))
    as (p & -> & Hp).
  cbn [mbind option_bind]. eexists. split; [reflexivity|].
  rewrite dot_terminated; [by apply body_frame_ok| |done].
  exact (response_line_crlf (lit "222") n m (bstr " body follows")).
Qed.
End replies.
End built.

(** ** The DATE reply *)

Lemma two_digits_read v : 0 <= v < 100 -> parse_two_digits (write_two_digits v) = Some v.
Proof.
  intros Hv. unfold write_two_digits, parse_two_digits, u8_checked_sub.
  assert (0 <= v / 10 < 10) by (Z.to_euclidean_division_equations; lia).
  rewrite (Z.mod_small (v / 10)) by lia. pose proof (Z.mod_pos_bound v 10 ltac:(lia)).
  rewrite !(proj2 (Z.ltb_ge _ _)) by lia. cbn [mbind option_bind].
  rewrite !(proj2 (Z.ltb_ge _ _)) by lia. cbn [orb]. f_equal.
  pose proof (Z.div_mod v 10 ltac:(lia)). lia.
Qed.

Lemma digits_not_other l :
  forallb is_ascii_digit l = true -> existsb (fun b => negb (is_ascii_digit b)) l = false.
Proof.
  intros H. apply existsb_false_Forall. eapply Forall_forallb_impl; [|exact H]. cbn. by intros b ->.
Qed.

Lemma date_text_valid y m d :
  1900 <= y < 10000 -> 1 <= m <= 12 -> 1 <= d <= 31 -> is_ok (nntp_date_from (date_text y m d)) = true.
Proof.
  intros Hy Hm Hd. unfold nntp_date_from, validated, validate_nntp_date.
  rewrite digits_not_other by apply date_text_digits.
  change (length (date_text y m d)) with 8%nat. cbn [Nat.eqb negb orb Nat.sub].
  change (slice (date_text y m d) 4 6) with (write_two_digits m).
  change (drop 6 (date_text y m d)) with (write_two_digits d).
  change (take 4 (date_text y m d)) with (write_four_digits y).
  rewrite !two_digits_read by lia. cbn [ok_or].
  rewrite parse_decimal_spec by apply four_digits_are_digits.
  assert (decimal_value (write_four_digits y) = y) as ->.
  { unfold write_four_digits, decimal_value. cbn [fold_left].
    Z.to_euclidean_division_equations; lia. }
  rewrite (proj2 (in_range_spec 1 12 m)) by lia. rewrite (proj2 (Z.eqb_neq d 0)) by lia. cbn [negb orb].
  rewrite (proj2 (Z.ltb_ge u64_max y)) by (unfold u64_max; lia). cbn [ok_or].
  rewrite (proj2 (in_range_spec 1900 9999 y)) by lia. cbn [negb].
  by rewrite (proj2 (Z.ltb_ge 31 d)) by lia.
Qed.

Lemma time_text_valid secs : 0 <= secs < 86400 -> is_ok (nntp_time_from (time_text secs)) = true.
Proof.
  intros Hs. unfold nntp_time_from, validated, validate_nntp_time.
  rewrite digits_not_other by apply time_text_digits.
  change (length (time_text secs)) with 6%nat. cbn [Nat.eqb negb orb].
  change (take 2 (time_text secs)) with (write_two_digits (secs / 3600)).
  change (slice (time_text secs) 2 4) with (write_two_digits (secs mod 3600 / 60)).
  change (drop 4 (time_text secs)) with (write_two_digits (secs mod 60)).
  assert (0 <= secs / 3600 <= 23 /\ 0 <= secs mod 3600 / 60 <= 59 /\ 0 <= secs mod 60 <= 59) as (? & ? & ?)
    by (Z.to_euclidean_division_equations; lia).
  rewrite !two_digits_read by lia. cbn [ok_or].
  by rewrite !(proj2 (Z.ltb_ge _ _)) by lia.
Qed.

(** A reply of one line is whole when its line is accepted. *)
Lemma line_reply_ok kind line i :
  Forall plain line -> initial_parse kind (line ++ CRLF) = InitialComplete i ->
  ResponseFraming.is_multiline (framing (ri_descriptor i)) = false ->
  ResponseFraming.is_multiline (framing (descriptor_for_request_status kind (ri_status i))) = false ->
  reply_ok kind (line ++ CRLF).
Proof.
  intros Hp Hi Hf Hfs. set (n := length (line ++ CRLF)).
  assert (n = length line + 2)%nat as Hn by (unfold n; rewrite length_app; done).
  assert (response_boundary kind (line ++ CRLF) = BoundaryAt i n n n) as Hb.
  { unfold response_boundary. rewrite Hi, Hf. rewrite <- (app_nil_r CRLF), detect_line_complete by done.
    by rewrite Hn. }
  unfold reply_ok, whole_response, outcome. rewrite Hb.
  assert (exists r, into_owned_response (IoError := IoError) (framed_at kind (line ++ CRLF) i n n n) = Ok r)
    as [r Hr]; [|exists r; split; [by do 3 eexists|done]].
  unfold into_owned_response. rewrite content_range_at by lia.
  cbn [framed_at fs_kind fs_status fs_bytes fs_status_line_end fs_content_end].
  destruct (is_article_response kind (ri_status i)) eqn:Ea; [eauto|].
  assert (take n (line ++ CRLF) = line ++ CRLF) as -> by apply firstn_all.
  unfold get_range. fold n. rewrite Nat.leb_refl, (proj2 (Nat.leb_le 0 n)) by lia. cbn [andb ok_or].
  unfold validate_framed_non_article_response_content. rewrite Ea, Hfs. cbn [negb andb]. eauto.
Qed.

Lemma stamp_reply_ok date time :
  length date = 8%nat -> length time = 6%nat ->
  forallb is_ascii_digit date = true -> forallb is_ascii_digit time = true ->
  is_ok (nntp_date_from date) = true -> is_ok (nntp_time_from time) = true ->
  reply_ok RequestKind.Date (lit "111 " ++ date ++ time ++ CRLF).
Proof.
  intros Ld Lt Dd Dt Hdate Htime. set (stamp := date ++ time).
  assert (forallb is_ascii_digit stamp = true) as Ds by (unfold stamp; by rewrite forallb_app, Dd, Dt).
  assert (length stamp = 14%nat) as Ls by (unfold stamp; rewrite length_app; lia).
  assert (Forall (fun b => 48 <= b <= 57) stamp) as Hs
    by (eapply Forall_forallb_impl; [|exact Ds]; intros b; apply is_ascii_digit_spec).
  assert (validate_date_response_argument stamp = true) as Hv.
  { unfold validate_date_response_argument. rewrite <- (app_nil_r stamp), split_tokens_step;
      [|by intros ->| |by left].
    - rewrite Ls, Ds. cbn [Nat.eqb negb orb]. unfold stamp.
      rewrite (take_app_length' date time 8), (drop_app_length' date time 8) by done. rewrite Hdate, Htime.
      rewrite !from_utf8_ascii by (eapply Forall_forallb_impl; [|eassumption];
        intros b ?%is_ascii_digit_spec; unfold is_ascii_byte; lia). done.
    - eapply Forall_impl; [|exact Hs]. intros b Hb. cbn beta in *. apply Z.eqb_neq. unfold SP. lia. }
  set (line := lit "111 " ++ stamp).
  assert (length line = 18%nat) as Ll by (unfold line; rewrite length_app, Ls; done).
  assert (Forall plain line) as Hp.
  { apply Forall_app. split; [by apply plain_by|]. eapply Forall_impl; [|exact Hs].
    intros b Hb. cbn beta in *. unfold plain, CR, LF. lia. }
  replace (lit "111 " ++ date ++ time ++ CRLF) with (line ++ CRLF)
    by (unfold line, stamp; rewrite <- !app_assoc; done).
  apply (line_reply_ok _ _ (Build_ResponseInitial 111 (descriptor_for_request_status RequestKind.Date 111) None));
    [done| |done|done].
  unfold initial_parse, detect_bounded_response_line_end.
  assert (detect_response_line_end (line ++ CRLF) = ResponseLineStatus.CompleteAt (length line + 2)) as ->
    by (rewrite <- (app_nil_r CRLF); by apply detect_line_complete).
  change (StatusCode.parse (line ++ CRLF)) with (Some 111). cbn zeta.
  pose proof (line_limit_bounds RequestKind.Date (Some 111)) as Hlim.
  rewrite Ll, (proj2 (Nat.leb_le _ _)) by lia. rewrite firstn_all2 by (rewrite length_app, Ll; cbn; lia).
  assert (validate_response_initial_line RequestKind.Date 111 (line ++ CRLF) = true) as Hl; [|by rewrite Hl].
  unfold validate_response_initial_line. rewrite ends_with_app, length_app, Ll.
  change (length CRLF) with 2%nat. cbn [Nat.add Nat.ltb Nat.leb negb orb Nat.sub].
  rewrite take_app_length' by done. exact Hv.
Qed.

(** A clock that shows a time of the years 1970 to 9999. *)
Definition time_ok (now : Z) : Prop := 0 <= now < DAY_10000 * 86400.

Lemma date_reply_ok now : time_ok now -> reply_ok RequestKind.Date (date_response_for_unix_seconds now).
Proof.
  intros Hnow. unfold time_ok, DAY_10000 in Hnow. rewrite date_response_text.
  assert (0 <= now / 86400 < DAY_10000 /\ 0 <= now mod 86400 < 86400) as [Hn Hr]
    by (unfold DAY_10000; Z.to_euclidean_division_equations; lia).
  pose proof (civil_year_bound _ Hn) as Hb. pose proof (civil_year_epoch _ Hn) as He.
  destruct (civil_from_unix_days (now / 86400)) as [[y m] d]. destruct Hb as (Hy & Hm & Hd).
  rewrite as_u32_id by lia.
  apply stamp_reply_ok; (done || apply date_text_digits || apply time_text_digits || idtac).
  - apply date_text_valid; lia.
  - by apply time_text_valid.
Qed.

(** * The fixed replies of the fixture server *)

(** A reply out of a table is judged by computation. *)
Ltac fixed_reply := apply reply_okb_ok; vm_compute; reflexivity.

(** ** Errors *)

Lemma unknown_reply_ok : reply_ok RequestKind.Unknown (bstr "500 unknown command\r\n")
  /\ reply_ok RequestKind.Unknown (bstr "501 command line too long\r\n")
  /\ reply_ok RequestKind.Unknown (bstr "504 base64 encoding error\r\n")
  /\ reply_ok RequestKind.Unknown (bstr "501 command syntax error\r\n").
Proof. split_and!; fixed_reply. Qed.

(** The complaints about an article selector. *)
Definition SELECTOR_ERRORS : list bytes :=
  [bstr "412 no newsgroup selected\r\n"; bstr "420 no current article selected\r\n";
   bstr "423 no article with that number\r\n"; bstr "430 no article with that message-id\r\n"].

Definition article_kinds : list RequestKind.RequestKind :=
  [RequestKind.Article; RequestKind.Head; RequestKind.Body; RequestKind.Stat].

Lemma selector_errors_ok kind reply :
  In kind article_kinds -> In reply SELECTOR_ERRORS -> reply_ok kind reply.
Proof.
  assert (forallb (fun kind => forallb (reply_okb kind) SELECTOR_ERRORS) article_kinds = true) as H
    by (vm_compute; reflexivity).
  rewrite forallb_forall in H. intros Hk Hr. specialize (H kind Hk). rewrite forallb_forall in H.
  by apply reply_okb_ok, H.
Qed.

(** ** The tables *)

Lemma group_reply_ok group : reply_ok RequestKind.Group (group_response_for_group group).
Proof. destruct group; fixed_reply. Qed.

Lemma no_such_group_ok : reply_ok RequestKind.Group (bstr "411 no such newsgroup\r\n").
Proof. fixed_reply. Qed.

Lemma listgroup_reply_ok args current :
  reply_ok RequestKind.ListGroup (listgroup_response_for_args args current).
Proof. unfold listgroup_response_for_args. repeat case_match; fixed_reply. Qed.

Lemma listgroup_errors_ok :
  reply_ok RequestKind.ListGroup (bstr "411 no such newsgroup\r\n")
  /\ reply_ok RequestKind.ListGroup (bstr "412 no newsgroup selected\r\n").
Proof. split; fixed_reply. Qed.

Lemma list_active_ok args : reply_ok RequestKind.ListActive (list_active_response args).
Proof. unfold list_active_response. repeat case_match; fixed_reply. Qed.

Lemma list_active_times_ok args :
  reply_ok RequestKind.ListActiveTimes (list_active_times_response args).
Proof. unfold list_active_times_response, list_info_response_for_groups. repeat case_match; fixed_reply. Qed.

Lemma list_newsgroups_ok args : reply_ok RequestKind.ListNewsgroups (list_newsgroups_response args).
Proof. unfold list_newsgroups_response, list_info_response_for_groups. repeat case_match; fixed_reply. Qed.

Lemma newgroups_ok (b : bool) :
  reply_ok RequestKind.NewGroups (if b then NEWGROUPS_EMPTY_RESPONSE else NEWGROUPS_RESPONSE).
Proof. destruct b; fixed_reply. Qed.

Lemma newnews_ok args now : reply_ok RequestKind.NewNews (newnews_response args now).
Proof. unfold newnews_response. repeat case_match; fixed_reply. Qed.

Lemma over_ok args : reply_ok RequestKind.Over (over_response_for_args args).
Proof. unfold over_response_for_args. repeat case_match; fixed_reply. Qed.

Lemma xover_ok args : reply_ok RequestKind.Xover (xover_response_for_args args).
Proof. unfold xover_response_for_args. repeat case_match; fixed_reply. Qed.

Lemma selected_reply_ok kind selector a b c d e f :
  forallb (reply_okb kind) [a; b; c; d; e; f] = true ->
  reply_ok kind (response_for_selector selector a b c d e f).
Proof.
  intros H. rewrite forallb_forall in H. apply reply_okb_ok, H. unfold response_for_selector.
  repeat case_match; cbn [In]; tauto.
Qed.

Lemma hdr_ok args : reply_ok RequestKind.Hdr (hdr_response_for_args args).
Proof.
  unfold hdr_response_for_args, hdr_from_response_for_selector, hdr_date_response_for_selector,
    hdr_references_response_for_selector.
  repeat case_match; apply selected_reply_ok; vm_compute; reflexivity.
Qed.

Lemma xhdr_ok args : reply_ok RequestKind.Xhdr (xhdr_response_for_args args).
Proof.
  unfold xhdr_response_for_args, xhdr_from_response_for_selector, xhdr_date_response_for_selector,
    xhdr_references_response_for_selector.
  repeat case_match; apply selected_reply_ok; vm_compute; reflexivity.
Qed.

Lemma first_article_replies_ok :
  reply_ok RequestKind.Head HEAD_RESPONSE /\ reply_ok RequestKind.Stat STAT_RESPONSE.
Proof. split; fixed_reply. Qed.

(** Commands with one reply each. *)
Definition constant_reply (kind : RequestKind.RequestKind) : option bytes :=
  match kind with
  | RequestKind.List => Some LIST_RESPONSE
  | RequestKind.ListOverviewFmt => Some LIST_OVERVIEW_FMT_RESPONSE
  | RequestKind.ListHeaders => Some LIST_HEADERS_RESPONSE
  | RequestKind.ListDistribPats => Some LIST_DISTRIB_PATS_RESPONSE
  | RequestKind.Post => Some (bstr "440 posting not permitted\r\n")
  | RequestKind.Ihave => Some (bstr "435 article not wanted\r\n")
  | RequestKind.Check | RequestKind.TakeThis | RequestKind.AuthInfo | RequestKind.StartTls
  | RequestKind.ModeStream => Some (bstr "502 command unavailable\r\n")
  | RequestKind.AuthInfoUser | RequestKind.AuthInfoPass =>
      Some (bstr "483 command unavailable until TLS has been negotiated\r\n")
  | RequestKind.Capabilities => Some CAPABILITIES_RESPONSE
  | RequestKind.Help => Some HELP_RESPONSE
  | RequestKind.ModeReader => Some MODE_READER_RESPONSE
  | RequestKind.Quit => Some QUIT_RESPONSE
  | _ => None
  end.

Lemma constant_reply_ok kind reply : constant_reply kind = Some reply -> reply_ok kind reply.
Proof. destruct kind; cbn [constant_reply]; try discriminate; intros [= <-]; fixed_reply. Qed.

(** ** The states of a session of the fixture server *)

(** A group is selected or not, and a current article is one of its articles. *)
Definition state_ok (st : SessionState) : Prop :=
  match ss_selected_group st with
  | None => ss_group_selected st = false /\ ss_current_article st = None
  | Some (Fixture group) =>
      ss_group_selected st = true
      /\ forall n, ss_current_article st = Some n -> In n (FixtureGroup.article_numbers group)
  | Some (Indexed _) => False
  end.

Lemma default_state_ok : state_ok session_state_default.
Proof. done. Qed.

Lemma first_article_in group n :
  FixtureGroup.first_article group = Some n -> In n (FixtureGroup.article_numbers group).
Proof. destruct group; cbn; intros [= <-]; tauto. Qed.

Lemma article_numbers_small group n : In n (FixtureGroup.article_numbers group) -> n = 1 \/ n = 2 \/ n = 3.
Proof. destruct group; cbn; lia. Qed.

Lemma article_numbers_increasing group : increasing (FixtureGroup.article_numbers group).
Proof. unfold increasing. destruct group; cbn; repeat constructor. Qed.

Lemma contains_fixture st n :
  state_ok st -> current_group_contains st n None = true ->
  exists group, ss_selected_group st = Some (Fixture group) /\ In n (FixtureGroup.article_numbers group).
Proof.
  unfold state_ok, current_group_contains, current_group_articles.
  destruct (ss_selected_group st) as [[group|name]|];
    cbn [mbind option_bind selected_article_numbers is_some_and]; [|done|done].
  intros _ H. exists group. split; [done|].
  apply (binary_search_found _ n (article_numbers_increasing group)).
  destruct (binary_search _ n); [eauto|done].
Qed.

(** *** LAST and NEXT *)

Lemma navigation_errors_ok kind reply :
  In kind [RequestKind.Last; RequestKind.Next] ->
  In reply [bstr "412 no newsgroup selected\r\n"; bstr "420 no current article selected\r\n";
            bstr "422 no previous article in this group\r\n";
            bstr "421 no next article in this group\r\n"] ->
  (kind = RequestKind.Last -> reply <> bstr "421 no next article in this group\r\n") ->
  (kind = RequestKind.Next -> reply <> bstr "422 no previous article in this group\r\n") ->
  reply_ok kind reply.
Proof.
  intros [<-|[<-|[]]] [<-|[<-|[<-|[<-|[]]]]] H1 H2; try fixed_reply; [by destruct H1|by destruct H2].
Qed.
