(* ===== verification/SessionLogic.v ===== *)
(** * Reasoning about server sessions

    A small program logic for the session monad of [ServerSession]: [wp m Q s]
    says that [m], run from [s], ends in [Q], or stops at an [io::Error] with
    what reached the client acceptable, and never panics.  Output is what the
    socket took and what is pending; [write_response] appends its response to
    it, whatever the capacity of the pending buffer and however the socket takes
    its bytes. *)
From S2P Require Import Prelude Kinds ClientWire Text ServerIndex ServerSession ServerPayload.

Local Open Scope Z_scope.
Local Open Scope rust_scope.

Definition out {W} `{!AsyncWrite W} (s : Session W) : bytes := sent (se_writer s) ++ se_pending s.

Section logic.
Context {W : Type} `{Aw : !AsyncWrite W, As : !AsyncWriteSpec W}.
Context `{Sk : !ServerSocket W, Ss : !ServerSocketSpec W}.

(** A socket that never fails. *)
Record reliable_socket : Prop := {
  rs_writes : ReliableWrite W;
  rs_flush (w : W) : exists w', socket_flush w = (Ok tt, w');
  rs_cork on (w : W) : exists w', set_tcp_cork on w = (Ok tt, w');
}.

(** Whether the socket may fail, and what may have been sent when it does. *)
Context (fallible : Prop) (acceptable : bytes -> Prop).
Hypothesis Htransport : fallible \/ reliable_socket.

Definition wp {A} (m : M W A) (Q : A -> Session W -> Prop) (s : Session W) : Prop :=
  match m s with
  | (Ok a, s') => Q a s'
  | (Err (StopIo _), s') => fallible /\ acceptable (sent (se_writer s'))
  | (Err StopPanic, _) => False
  end.

(** Every part of [data] from its start may be all that was sent. *)
Definition covers (data : bytes) : Prop := forall part, part `prefix_of` data -> acceptable part.

Lemma covers_prefix a b : a `prefix_of` b -> covers b -> covers a.
Proof. intros Hab Hb part Hp. apply Hb. by etrans. Qed.

Lemma covers_app a b : covers (a ++ b) -> covers a.
Proof. apply covers_prefix. by exists b. Qed.

(** ** The monad *)

Lemma wp_ret {A} (a : A) Q s : Q a s -> wp (mret a) Q s.
Proof. done. Qed.

Lemma wp_bind {A B} (m : M W A) (k : A -> M W B) Q s :
  wp m (fun a s' => wp (k a) Q s') s -> wp (m ≫= k) Q s.
Proof.
  unfold wp, mbind, M_bind. destruct (m s) as [[a|[e|]] s']; cbn; [|done|done].
  by destruct (k a s').
Qed.

Lemma wp_mono {A} (m : M W A) (Q R : A -> Session W -> Prop) s :
  (forall a s', Q a s' -> R a s') -> wp m Q s -> wp m R s.
Proof. unfold wp. intros H. destruct (m s) as [[a|[e|]] s']; auto. Qed.

Lemma wp_get_state Q s : Q (se_state s) s -> wp get_state Q s.
Proof. done. Qed.
Lemma wp_get_session Q s : Q s s -> wp get_session Q s.
Proof. done. Qed.

Lemma wp_or_panic {A} (o : option A) a Q s : o = Some a -> Q a s -> wp (or_panic o) Q s.
Proof. by intros ->. Qed.

Lemma wp_try_ok {A} (r : result A IoError) a Q s : r = Ok a -> Q a s -> wp (try_io r) Q s.
Proof. by intros ->. Qed.

Lemma wp_count a b c d e Q s :
  Q tt (with_stats s (add_stats (se_stats s)
     {| st_commands := a; st_pipeline_batches := b; st_article_requests := c;
        st_body_requests := d; st_bytes_sent := e |})) ->
  wp (count a b c d e) Q s.
Proof. done. Qed.

(** ** The socket *)

Lemma wp_io (m : writing W) data Q s :
  delivers m data -> (ReliableWrite W -> completes m) -> covers (sent (se_writer s) ++ data) ->
  (forall w, sent w = sent (se_writer s) ++ data -> Q tt (with_writer s w)) ->
  wp (io m) Q s.
Proof.
  intros Hd Hc Hcov HQ. unfold wp, io. specialize (Hd (se_writer s)).
  destruct (m (se_writer s)) as [[[]|e] w] eqn:E; [by apply HQ|].
  destruct Htransport as [Hf|[Hw _ _]].
  - split; [done|]. destruct Hd as (p & q & -> & Hp). cbn. apply Hcov. rewrite Hp. exists q.
    by rewrite app_assoc.
  - destruct (Hc Hw (se_writer s)) as [w' Hok]. by rewrite Hok in E.
Qed.

Lemma wp_write_all data Q s :
  covers (sent (se_writer s) ++ data) ->
  (forall w, sent w = sent (se_writer s) ++ data -> Q tt (with_writer s w)) ->
  wp (io (fun w => write_all w data)) Q s.
Proof.
  apply wp_io; [apply delivers_write_all|]. intros Hw w. apply write_all_reliable.
Qed.

Lemma wp_vectored slices Q s :
  ends_full slices -> covers (sent (se_writer s) ++ concat slices) ->
  (forall w, sent w = sent (se_writer s) ++ concat slices -> Q tt (with_writer s w)) ->
  wp (io (write_all_vectored slices)) Q s.
Proof.
  intros He. apply wp_io; [apply write_all_vectored_delivers|]. intros Hw. by apply vectored_completes.
Qed.

(** Calls that send nothing of their own. *)
Lemma wp_quiet (m : writing W) Q s :
  (forall w r w', m w = (r, w') -> sent w' = sent w) ->
  (reliable_socket -> completes m) -> covers (sent (se_writer s)) ->
  (forall w, sent w = sent (se_writer s) -> Q tt (with_writer s w)) ->
  wp (io m) Q s.
Proof.
  intros Hq Hc Hcov HQ. unfold wp, io.
  destruct (m (se_writer s)) as [[[]|e] w] eqn:E; [apply HQ; by eapply Hq|].
  destruct Htransport as [Hf|Hr].
  - split; [done|]. cbn. rewrite (Hq _ _ _ E). by apply Hcov.
  - destruct (Hc Hr (se_writer s)) as [w' Hok]. by rewrite Hok in E.
Qed.

(** ** The pending bytes *)

Lemma with_same (s : Session W) : with_pending (with_writer s (se_writer s)) (se_pending s) = s.
Proof. by destruct s. Qed.

Lemma wp_pending_flush Q s :
  covers (out s) ->
  (forall w, sent w = out s -> Q tt (with_pending (with_writer s w) [])) ->
  wp pending_flush Q s.
Proof.
  intros Hc HQ. unfold pending_flush. apply wp_bind, wp_get_session.
  unfold out in *. destruct (se_pending s) as [|b pending] eqn:E; cbn [length Nat.eqb].
  - apply wp_ret. specialize (HQ (se_writer s)). rewrite <- E, with_same in HQ. apply HQ.
    by rewrite E, app_nil_r.
  - apply wp_bind, wp_write_all; [done|]. intros w Hw. by apply HQ.
Qed.

(** Some session values only differ in what was output. *)
Record wrote (s : Session W) (r : bytes) (s' : Session W) : Prop := {
  wr_out : out s' = out s ++ r;
  wr_stats : se_stats s' = se_stats s;
  wr_published : se_published s' = se_published s;
  wr_capacity : se_capacity s' = se_capacity s;
  wr_state : se_state s' = se_state s;
  wr_aux : se_aux s' = se_aux s;
  wr_clock : se_clock s' = se_clock s;
}.

Lemma wp_write_with_response r Q s :
  r <> [] -> covers (out s ++ r) -> (forall s', wrote s r s' -> Q tt s') ->
  wp (write_with_response r) Q s.
Proof.
  intros Hr Hc HQ. unfold write_with_response. apply wp_bind, wp_get_session.
  destruct (length (se_pending s) =? 0)%nat eqn:E.
  - apply Nat.eqb_eq, length_zero_iff_nil in E.
    unfold out in Hc. rewrite E, app_nil_r in Hc. apply wp_write_all; [done|].
    intros w Hw. apply HQ. split; try done. unfold out. cbn. by rewrite E, !app_nil_r.
  - apply wp_bind, wp_vectored.
    + unfold ends_full. cbn. congruence.
    + cbn [concat]. by rewrite app_nil_r, app_assoc.
    + intros w Hw. apply HQ. split; try done. unfold out. cbn.
      rewrite app_nil_r, Hw. cbn [concat]. by rewrite app_nil_r, app_assoc.
Qed.

Lemma wp_pending_push r Q s :
  r <> [] -> covers (out s ++ r) -> (forall s', wrote s r s' -> Q tt s') ->
  wp (pending_push r) Q s.
Proof.
  intros Hr Hc HQ. unfold pending_push. apply wp_bind, wp_get_session.
  destruct (_ <? length r)%nat; [by apply wp_write_with_response|]. apply wp_bind.
  destruct (_ <? _)%nat.
  - apply wp_pending_flush; [by eapply covers_app|]. intros w Hw. apply HQ. split; try done.
    unfold out. cbn. by rewrite Hw.
  - apply wp_ret. apply HQ. split; try done. unfold out. cbn. by rewrite app_assoc.
Qed.

(** ** Responses *)

(** The session sent [r], [n] commands were counted, and every byte was. *)
Record progress (s : Session W) (n : Z) (r : bytes) (s' : Session W) : Prop := {
  pg_out : out s' = out s ++ r;
  pg_commands : st_commands (se_stats s') = st_commands (se_stats s) + n;
  pg_bytes : st_bytes_sent (se_stats s') = st_bytes_sent (se_stats s) + Z.of_nat (length r);
  pg_published : se_published s' = se_published s;
}.

Lemma progress_refl s : progress s 0 [] s.
Proof. split; [by rewrite app_nil_r|lia|cbn;lia|done]. Qed.

Lemma progress_trans s1 n1 r1 s2 n2 r2 s3 :
  progress s1 n1 r1 s2 -> progress s2 n2 r2 s3 -> progress s1 (n1 + n2) (r1 ++ r2) s3.
Proof.
  intros [H1 H2 H3 H4] [K1 K2 K3 K4]. split.
  - by rewrite K1, H1, app_assoc.
  - lia.
  - rewrite length_app. lia.
  - congruence.
Qed.

(** What the handlers rely on besides the output. *)
Record same (s s' : Session W) : Prop := {
  sm_state : se_state s' = se_state s;
  sm_clock : se_clock s' = se_clock s;
}.

Lemma wp_write_response r Q s :
  r <> [] -> covers (out s ++ r) -> (forall s', progress s 0 r s' -> same s s' -> Q tt s') ->
  wp (write_response r) Q s.
Proof.
  intros Hr Hc HQ. unfold write_response. apply wp_bind, wp_count.
  set (s1 := with_stats s _). assert (forall s', wrote s1 r s' -> Q tt s') as HQ1.
  { intros s' [Ho Hst Hp _ Hs _ Hk]. apply HQ; split; try done.
    - rewrite Hst. cbn. lia.
    - by rewrite Hst. }
  destruct (_ <=? _)%nat; [by apply wp_pending_push|by apply wp_write_with_response].
Qed.

Lemma wp_respond r Q s :
  r <> [] -> covers (out s ++ r) -> (forall s', progress s 0 r s' -> same s s' -> Q false s') ->
  wp (respond r) Q s.
Proof.
  intros Hr Hc HQ. unfold respond. apply wp_bind, wp_write_response; [done..|]. intros s' ??.
  apply wp_ret. by apply HQ.
Qed.

(** ** Flushing and corking *)

Lemma with_writer_same (s : Session W) : with_writer s (se_writer s) = s.
Proof. by destruct s. Qed.

Lemma wp_flush_if_needed config Q s :
  covers (sent (se_writer s)) -> (forall w, sent w = sent (se_writer s) -> Q tt (with_writer s w)) ->
  wp (flush_writer_if_needed config) Q s.
Proof.
  intros Hc HQ. unfold flush_writer_if_needed. destruct (flush_after_batch config).
  - apply wp_quiet; [apply flush_sent| |done|done]. intros Hr w. apply (rs_flush Hr).
  - apply wp_ret. rewrite <- (with_writer_same s). by apply HQ.
Qed.

Lemma wp_flush_session config Q s :
  covers (out s) -> (forall w, sent w = out s -> Q tt (with_pending (with_writer s w) [])) ->
  wp (flush_session_writer config) Q s.
Proof.
  intros Hc HQ. unfold flush_session_writer. apply wp_bind, wp_pending_flush; [done|]. intros w Hw.
  apply wp_flush_if_needed; cbn; [by rewrite Hw|]. intros w' Hw'. apply HQ. by rewrite Hw'.
Qed.

Lemma wp_cork config linux on Q s :
  covers (sent (se_writer s)) -> (forall w, sent w = sent (se_writer s) -> Q tt (with_writer s w)) ->
  wp (cork config linux on) Q s.
Proof.
  intros Hc HQ. unfold cork. destruct (linux && _).
  - apply wp_quiet; [apply cork_sent| |done|done]. intros Hr w. apply (rs_cork Hr).
  - apply wp_ret. rewrite <- (with_writer_same s). by apply HQ.
Qed.
End logic.
