(* ===== verification/FixtureSession.v ===== *)
(** * Sessions of the fixture server ([src/src/lib.rs])

    A server without an article directory answers every command it reads, from
    any input, with exactly one reply, and each reply is one whole response to its command; the pipelined
    ARTICLE path answers as the commands one by one would; QUIT ends the session;
    nothing panics.  The transport may fail at any write: then a part of these
    replies from the start is all that was sent. *)
From S2P Require Import Prelude Utf8 Decimal Memchr Args Terminator Kinds RequestLine ClientWire.
From S2P Require Import Text Wildmat ServerDates ServerResponses ServerCommands ServerParsing ServerReading.
From S2P Require Import ServerArguments OrderedMap.
From S2P Require Import ServerIndex ServerPayload ArticleStore ServerStore ServerSession.
From S2P Require Import ServerReplies SessionLogic.

Local Open Scope Z_scope.
Local Open Scope rust_scope.

Section fixture.
Context {W : Type} `{Aw : !AsyncWrite W, As : !AsyncWriteSpec W}.
Context `{Sk : !ServerSocket W, Ss : !ServerSocketSpec W}.
Context `{Mc : !Memchr, Ms : !MemchrSpec, Fs : !FileSystem}.
Context (find_end : bytes -> option nat) (config : ServerConfig).
Hypotheses (Hconfig : config_ok config) (Hdir : article_dir config = None)
  (Hindex : article_index config = None).
Context (fallible : Prop) (acceptable : bytes -> Prop).
Hypothesis Htransport : fallible \/ reliable_socket (W := W).

Local Abbreviation wp := (wp fallible acceptable).
Local Abbreviation covers := (covers acceptable).

(** The session is where a session of the fixture server can be. *)
Record good (s : Session W) : Prop := {
  gd_state : state_ok (se_state s);
  gd_clock n : time_ok (se_clock s n);
}.

Lemma good_same s s' : same s s' -> good s -> good s'.
Proof. intros [Hs Hc] [Hg Ht]. split; [by rewrite Hs|]. intros n. by rewrite Hc. Qed.

(** One command was counted and answered with one reply. *)
Definition answered (s : Session W) (kind : RequestKind.RequestKind) (close closed : bool)
    (s' : Session W) : Prop :=
  closed = close /\ good s' /\ exists r, reply_ok kind r /\ progress s 1 r s'.

(** Whatever the reply, it may be cut short. *)
Definition may_answer (kind : RequestKind.RequestKind) (s : Session W) : Prop :=
  forall r, reply_ok kind r -> covers (out s ++ r).

(** The command is counted, and nothing sent yet. *)
Record started (s s1 : Session W) : Prop := {
  sd_progress : progress s 1 [] s1;
  sd_good : good s1;
}.

Lemma started_out s s1 : started s s1 -> out s1 = out s.
Proof. intros [[H _ _ _] _]. by rewrite H, app_nil_r. Qed.

Lemma started_set_state s s1 st : started s s1 -> state_ok st -> started s (with_state s1 st).
Proof. intros [[H1 H2 H3 H4] [_ Hc]] Hst. split; split; done. Qed.

Lemma started_count s s1 a b : started s s1 ->
  started s (with_stats s1 (add_stats (se_stats s1)
    {| st_commands := 0; st_pipeline_batches := 0; st_article_requests := a;
       st_body_requests := b; st_bytes_sent := 0 |})).
Proof. intros [[H1 H2 H3 H4] [Hst Hc]]. split; split; cbn in *; try done; lia. Qed.

Lemma wp_sent kind s r s1 (Q : unit -> Session W -> Prop) :
  reply_ok kind r -> may_answer kind s -> started s s1 ->
  (forall s', progress s 1 r s' -> good s' -> same s1 s' -> Q tt s') ->
  wp (write_response r) Q s1.
Proof.
  intros Hr Hc Hs HQ. apply (wp_write_response fallible acceptable Htransport).
  - by eapply reply_ok_ne.
  - rewrite (started_out _ _ Hs). by apply Hc.
  - intros s' Hp Hsame. apply HQ; [|apply (good_same _ _ Hsame), (sd_good _ _ Hs)|done].
    exact (progress_trans _ _ _ _ _ _ _ (sd_progress _ _ Hs) Hp).
Qed.

Lemma wp_reply kind s r s1 :
  reply_ok kind r -> may_answer kind s -> started s s1 ->
  wp (respond r) (answered s kind false) s1.
Proof.
  intros Hr Hc Hs. unfold respond. apply wp_bind. apply (wp_sent kind s); [done..|].
  intros s' Hp Hg _. apply wp_ret. split; [done|]. split; [done|]. by exists r.
Qed.

(** ** ARTICLE, HEAD, STAT and BODY *)

Lemma no_dir : has_article_dir config = false.
Proof. unfold has_article_dir. by rewrite Hdir. Qed.

(** What a selector that passed names: an article of the group, or a message-id. *)
Definition selects (st : SessionState) (command : ParsedCommand) (lines : CommandLineBatch) : Prop :=
  (exists n group, message_id_of command (Some lines) = None
     /\ option_or (pc_article_id command) (ss_current_article st) = Some n
     /\ ss_selected_group st = Some (Fixture group) /\ In n (FixtureGroup.article_numbers group))
  \/ exists m, message_id_of command (Some lines) = Some m /\ message_id_shape m.

Lemma selector_errors :
  In (bstr "412 no newsgroup selected\r\n") SELECTOR_ERRORS
  /\ In (bstr "420 no current article selected\r\n") SELECTOR_ERRORS
  /\ In (bstr "423 no article with that number\r\n") SELECTOR_ERRORS.
Proof.
  unfold SELECTOR_ERRORS. split; [left; reflexivity|].
  split; [right; left; reflexivity|right; right; left; reflexivity].
Qed.

Lemma selector_verdict st line command lines :
  reads_line line command lines -> article_kind (pc_kind command) -> state_ok st ->
  (exists reply, article_selector_error config command (Some lines) st true = Some (Some reply)
     /\ In reply SELECTOR_ERRORS)
  \/ (article_selector_error config command (Some lines) st true = Some None
      /\ selects st command lines).
Proof.
  intros Hr Hk Hst. destruct (article_selector line command lines Hr Hk) as [Hsel Hm].
  unfold article_selector_error, selects, args_of, message_id_of. cbn zeta.
  change (Some lines ≫= command_message_id command) with (command_message_id command lines).
  rewrite Hindex, Hm. revert Hsel. generalize (default [] (command_args command (Some lines))).
  intros args Hsel. unfold has_article_id. destruct selector_errors as (E412 & E420 & E423).
  inversion Hsel as [Ha Hid Hmid|a n Hne Hn Ha Hid Hmid|a m Hne Hshape Ha Hid Hmid]; cbn [length Nat.eqb andb].
  - destruct (ss_group_selected st) eqn:Eg; cbn [negb]; [|left; eexists; split; [reflexivity|exact E412]].
    destruct (ss_current_article st) as [n|] eqn:En; [|left; eexists; split; [reflexivity|exact E420]].
    right. split; [done|]. left. unfold state_ok in Hst.
    destruct (ss_selected_group st) as [[group|]|]; [|done|by destruct Hst as [H _]; rewrite H in Eg].
    exists n, group. destruct Hst as [_ Hin]. auto.
  - replace (length args =? 0)%nat with false by (by destruct args). cbn [andb is_some_and].
    destruct (ss_group_selected st); cbn [negb andb]; [|left; eexists; split; [reflexivity|exact E412]].
    destruct (current_group_contains st n None) eqn:Ec; cbn [negb];
      [|left; eexists; split; [reflexivity|exact E423]].
    apply contains_fixture in Ec as (group & Hg & Hin); [|done].
    right. split; [by destruct (pc_message_id command)|]. left. by exists n, group.
  - replace (length args =? 0)%nat with false by (by destruct args). cbn [andb is_some_and].
    right. split; [by destruct (pc_message_id command)|]. right. by exists m.
Qed.

Lemma small_number_ok group n : In n (FixtureGroup.article_numbers group) -> number_ok n.
Proof.
  intros H%article_numbers_small. unfold number_ok, MAX_ARTICLE_NUMBER. lia.
Qed.

Lemma state_ok_current st group n :
  state_ok st -> ss_selected_group st = Some (Fixture group) ->
  In n (FixtureGroup.article_numbers group) ->
  state_ok {| ss_group_selected := ss_group_selected st; ss_selected_group := ss_selected_group st;
              ss_current_article := Some n |}.
Proof.
  unfold state_ok. cbn. intros Hst Hg Hin. rewrite Hg in *. destruct Hst as [Hsel _].
  split; [done|]. by intros k [= <-].
Qed.

(** The complaint, or what follows it. *)
Lemma or_selector_error_ok s s1 line command lines next :
  reads_line line command lines -> article_kind (pc_kind command) ->
  may_answer (pc_kind command) s -> started s s1 ->
  (forall st, st = se_state s1 -> state_ok st -> selects st command lines ->
     wp (next st) (answered s (pc_kind command) false) s1) ->
  wp (or_selector_error config command (Some lines) next) (answered s (pc_kind command) false) s1.
Proof.
  intros Hr Hk Hc Hs Hnext. unfold or_selector_error. apply wp_bind, wp_get_state.
  pose proof (gd_state _ (sd_good _ _ Hs)) as Hst.
  destruct (selector_verdict (se_state s1) line command lines Hr Hk Hst) as [(r & He & Hin)|[He Hsel]];
    apply wp_bind; (eapply wp_or_panic; [exact He|]).
  - apply wp_reply; [|done|done]. apply selector_errors_ok; [|done].
    unfold article_kind, article_kinds in *. cbn. intuition.
  - by apply Hnext.
Qed.

Lemma started_current s s1 group n :
  started s s1 -> ss_selected_group (se_state s1) = Some (Fixture group) ->
  In n (FixtureGroup.article_numbers group) ->
  started s (with_state s1
    {| ss_group_selected := ss_group_selected (se_state s1);
       ss_selected_group := ss_selected_group (se_state s1); ss_current_article := Some n |}).
Proof.
  intros Hs Hg Hin. apply started_set_state; [done|].
  exact (state_ok_current _ _ _ (gd_state _ (sd_good _ _ Hs)) Hg Hin).
Qed.

Lemma zero_ok : number_ok 0.
Proof. unfold number_ok, MAX_ARTICLE_NUMBER. lia. Qed.

(** ARTICLE by message-id is written in three slices. *)
Lemma wp_message_id_slices s1 m p Q :
  article_payload_for_header config (length (article_header 0 m)) = Some p ->
  covers (out s1 ++ article_header 0 m ++ p ++ DOT_TERMINATOR) ->
  (forall s', progress s1 0 (article_header 0 m ++ p ++ DOT_TERMINATOR) s' -> same s1 s' -> Q tt s') ->
  wp (write_message_id_article_response config m) Q s1.
Proof.
  unfold write_message_id_article_response. fold (article_header 0 m).
  generalize (article_header 0 m). intros header Hp Hcov HQ. cbn zeta.
  apply wp_bind. eapply wp_or_panic; [exact Hp|]. apply wp_bind, wp_count. apply wp_bind.
  set (s2 := with_stats s1 _). change (out s1) with (out s2) in Hcov.
  apply (wp_pending_flush fallible acceptable Htransport); [by eapply covers_app|].
  intros w Hw. apply (wp_vectored fallible acceptable Htransport).
  - unfold ends_full, DOT_SLICES. cbn [list.last last]. discriminate.
  - cbn [se_writer with_pending with_writer DOT_SLICES concat]. by rewrite Hw, app_nil_r.
  - cbn [se_writer with_pending with_writer DOT_SLICES concat]. rewrite Hw, app_nil_r. intros w' Hw'.
    apply HQ; split; try done.
    + change (out s1) with (out s2). unfold out at 1. cbn. by rewrite app_nil_r, Hw'.
    + unfold s2. cbn [se_stats with_writer with_pending with_stats add_stats st_bytes_sent].
      rewrite !length_app. cbn [length]. lia.
Qed.

Lemma wp_message_id_article s s1 m :
  message_id_shape m -> may_answer RequestKind.Article s -> started s s1 ->
  wp (write_message_id_article_response config m ;; mret false)
     (answered s RequestKind.Article false) s1.
Proof.
  intros Hm Hc Hs. destruct (co_article_cuts config Hconfig (length (article_header 0 m))) as (p & Hp & Ht).
  pose proof (article_frame_ok 0 m p zero_ok Hm Ht) as Hok. apply wp_bind. apply (wp_message_id_slices s1 m p); [done|rewrite (started_out _ _ Hs); by apply Hc|].
  clear Hp. revert Hok. generalize (article_header 0 m). intros header Hok s' Hp Hsame. apply wp_ret. split; [done|].
  split; [apply (good_same _ _ Hsame), (sd_good _ _ Hs)|]. exists (header ++ p ++ DOT_TERMINATOR). split; [done|].
  exact (progress_trans _ _ _ _ _ _ _ (sd_progress _ _ Hs) Hp).
Qed.

Lemma handle_article_ok s s1 line command lines :
  reads_line line command lines -> pc_kind command = RequestKind.Article ->
  may_answer RequestKind.Article s -> started s s1 ->
  wp (handle_article find_end config command (Some lines)) (answered s RequestKind.Article false) s1.
Proof.
  intros Hr Hk Hc Hs. unfold handle_article. apply wp_bind, wp_count. rewrite <- Hk in *.
  pose proof (started_count _ _ 1 0 Hs) as Hs1. revert Hs1. generalize (with_stats s1 
    (add_stats (se_stats s1) {| st_commands := 0; st_pipeline_batches := 0; st_article_requests := 1;
       st_body_requests := 0; st_bytes_sent := 0 |})). clear Hs s1. intros s1 Hs.
  apply (or_selector_error_ok s s1 line); [done|by left|done|done|].
  intros st -> Hst Hsel. rewrite no_dir.
  destruct Hsel as [(n & group & -> & Ho & Hg & Hin)|(m & -> & Hm)].
  - rewrite Ho. cbn [default from_option id]. apply wp_bind.
    change (wp (if n =? 1 then respond (article_response config)
                else or_panic (build_selected_article_response_into n config) ≫= fun response => respond response)
      (answered s (pc_kind command) false) (with_state s1
        {| ss_group_selected := ss_group_selected (se_state s1);
           ss_selected_group := ss_selected_group (se_state s1); ss_current_article := Some n |})).
    pose proof (started_current _ _ _ _ Hs Hg Hin) as Hs2.
    destruct (n =? 1); [apply wp_reply; [rewrite Hk; apply (co_article config Hconfig)|done|done]|].
    pose proof (small_number_ok _ _ Hin) as Hn.
    destruct (built_article_ok config Hconfig n _ Hn (selected_id_shape n Hn)) as (r & Hb & Hrok).
    apply wp_bind. eapply wp_or_panic; [exact Hb|]. apply wp_reply; [by rewrite Hk|done|done].
  - rewrite Hk in *. by apply wp_message_id_article.
Qed.

Lemma no_stored kind n m Q s : Q false s -> wp (write_stored_if_any find_end config kind n m) Q s.
Proof. unfold write_stored_if_any. by rewrite no_dir. Qed.

Lemma missing_reply_ok kind :
  article_kind kind -> reply_ok kind (bstr "430 no article with that message-id\r\n").
Proof.
  intros Hk. apply selector_errors_ok.
  - unfold article_kind, article_kinds in *. cbn [In]. intuition.
  - unfold SELECTOR_ERRORS. do 3 right. left. reflexivity.
Qed.

Lemma handle_part_ok s s1 kind counted first_response selected by_message_id line command lines a b :
  counted = count 0 0 a b 0 -> article_kind kind ->
  reply_ok kind first_response ->
  (forall n, number_ok n -> exists r, selected n = Some r /\ reply_ok kind r) ->
  (forall m, message_id_shape m -> exists r, by_message_id m = Some r /\ reply_ok kind r) ->
  reads_line line command lines -> pc_kind command = kind ->
  may_answer kind s -> started s s1 ->
  wp (handle_article_part find_end config kind counted first_response selected by_message_id
        command (Some lines)) (answered s kind false) s1.
Proof.
  intros -> Hak Hfirst Hnum Hmid Hr Hk Hc Hs. unfold handle_article_part. apply wp_bind, wp_count.
  pose proof (started_count _ _ a b Hs) as Hs1. revert Hs1. generalize (with_stats s1
    (add_stats (se_stats s1) {| st_commands := 0; st_pipeline_batches := 0; st_article_requests := a;
       st_body_requests := b; st_bytes_sent := 0 |})). clear Hs s1. intros s1 Hs. rewrite <- Hk in *.
  apply (or_selector_error_ok s s1 line); [done|done|done|done|].
  intros st -> Hst Hsel.
  destruct Hsel as [(n & group & -> & Ho & Hg & Hin)|(m & -> & Hm)].
  - rewrite Ho. cbn [default from_option id]. apply wp_bind.
    pose proof (started_current _ _ _ _ Hs Hg Hin) as Hs2.
    change (set_current (Some n) s1) with (set_state (W := W)
      {| ss_group_selected := ss_group_selected (se_state s1);
         ss_selected_group := ss_selected_group (se_state s1); ss_current_article := Some n |} s1).
    unfold SessionLogic.wp at 1, set_current. apply wp_bind, no_stored. cbn iota.
    pose proof (small_number_ok _ _ Hin) as Hn. apply wp_bind.
    assert (exists r, (if n =? 1 then Some first_response else selected n) = Some r
                      /\ reply_ok (pc_kind command) r) as (r & Hsome & Hok)
      by (destruct (n =? 1); [eauto|by apply Hnum]).
    eapply wp_or_panic; [exact Hsome|]. apply wp_bind, (wp_sent (pc_kind command) s); [done..|].
    intros s' Hp Hgood [Hsm Hck]. apply wp_bind. unfold SessionLogic.wp, set_current. apply wp_ret.
    split; [done|]. split.
    + split; [|apply (gd_clock _ Hgood)]. rewrite Hsm. exact (gd_state _ (sd_good _ _ Hs2)).
    + exists r. split; [done|]. by destruct Hp.
  - apply wp_bind, no_stored. cbn iota. rewrite no_dir.
    destruct (contains_subslice m _); [apply wp_reply; [by apply missing_reply_ok|done|done]|].
    destruct (Hmid m Hm) as (r & Hsome & Hok). apply wp_bind. eapply wp_or_panic; [exact Hsome|].
    by apply wp_reply.
Qed.

Lemma handle_head_ok s s1 line command lines :
  reads_line line command lines -> pc_kind command = RequestKind.Head ->
  may_answer RequestKind.Head s -> started s s1 ->
  wp (handle_head find_end config command (Some lines)) (answered s RequestKind.Head false) s1.
Proof.
  intros Hr Hk Hc Hs. destruct first_article_replies_ok as [Hh _].
  apply (handle_part_ok s s1 _ _ _ _ _ line command lines 1 0); try done; [by right; left|..].
  - intros n Hn. exists (build_selected_head_response_into n). split; [reflexivity|].
    exact (head_reply_ok n _ Hn (selected_id_shape n Hn)).
  - intros m Hm. exists (build_message_id_head_response_into m). split; [reflexivity|].
    exact (head_reply_ok 0 m zero_ok Hm).
Qed.

Lemma handle_stat_ok s s1 line command lines :
  reads_line line command lines -> pc_kind command = RequestKind.Stat ->
  may_answer RequestKind.Stat s -> started s s1 ->
  wp (handle_stat find_end config command (Some lines)) (answered s RequestKind.Stat false) s1.
Proof.
  intros Hr Hk Hc Hs. destruct first_article_replies_ok as [_ Hh].
  apply (handle_part_ok s s1 _ _ _ _ _ line command lines 1 0); try done; [by do 3 right|..].
  - intros n Hn. exists (build_selected_stat_response_into n). split; [reflexivity|].
    exact (stat_reply_ok n _ Hn (selected_id_shape n Hn)).
  - intros m Hm. exists (build_message_id_stat_response_into m). split; [reflexivity|].
    exact (stat_reply_ok 0 m zero_ok Hm).
Qed.

Lemma handle_body_ok s s1 line command lines :
  reads_line line command lines -> pc_kind command = RequestKind.Body ->
  may_answer RequestKind.Body s -> started s s1 ->
  wp (handle_body find_end config command (Some lines)) (answered s RequestKind.Body false) s1.
Proof.
  intros Hr Hk Hc Hs.
  apply (handle_part_ok s s1 _ _ _ _ _ line command lines 0 1); try done; [by right; right; left|..].
  - apply (co_body config Hconfig).
  - intros n Hn. exact (built_body_ok config Hconfig n _ Hn (selected_id_shape n Hn)).
  - intros m Hm. exact (built_body_ok config Hconfig 0 m zero_ok Hm).
Qed.

(** ** Listings, groups and the clock *)

Lemma respond_listing_ok kind s s1 indexed fixture :
  reply_ok kind fixture -> may_answer kind s -> started s s1 ->
  wp (respond_listing config indexed fixture) (answered s kind false) s1.
Proof. intros. unfold respond_listing. rewrite Hindex. by apply wp_reply. Qed.

Lemma started_clock s s1 :
  started s s1 -> started s (with_clock s1 (fun n => se_clock s1 (S n))).
Proof. intros [[H1 H2 H3 H4] [Hst Hc]]. split; split; try done. intros n. apply Hc. Qed.

Lemma wp_read_clock s s1 Q :
  started s s1 -> (forall now s2, time_ok now -> started s s2 -> Q now s2) -> wp read_clock Q s1.
Proof.
  intros Hs HQ. unfold SessionLogic.wp, read_clock. apply HQ; [apply (gd_clock _ (sd_good _ _ Hs))|].
  by apply started_clock.
Qed.

Lemma handle_newgroups_ok s s1 command lines :
  may_answer RequestKind.NewGroups s -> started s s1 ->
  wp (handle_newgroups config command (Some lines)) (answered s RequestKind.NewGroups false) s1.
Proof.
  intros Hc Hs. unfold handle_newgroups. apply wp_bind. eapply wp_read_clock; [exact Hs|].
  intros now s2 _ Hs2. apply respond_listing_ok; [apply newgroups_ok|done|done].
Qed.

Lemma handle_newnews_ok s s1 command lines :
  may_answer RequestKind.NewNews s -> started s s1 ->
  wp (handle_newnews config command (Some lines)) (answered s RequestKind.NewNews false) s1.
Proof.
  intros Hc Hs. unfold handle_newnews. apply wp_bind. eapply wp_read_clock; [exact Hs|].
  intros now s2 _ Hs2. apply respond_listing_ok; [apply newnews_ok|done|done].
Qed.

Lemma handle_date_ok s s1 :
  may_answer RequestKind.Date s -> started s s1 -> wp handle_date (answered s RequestKind.Date false) s1.
Proof.
  intros Hc Hs. unfold handle_date. apply wp_bind. eapply wp_read_clock; [exact Hs|].
  intros now s2 Hnow Hs2. apply wp_reply; [by apply date_reply_ok|done|done].
Qed.

Lemma selected_state_ok group :
  state_ok (select_group (Fixture group) (FixtureGroup.first_article group)).
Proof. split; [done|]. cbn. intros n. apply first_article_in. Qed.

Lemma handle_group_ok s s1 command lines :
  may_answer RequestKind.Group s -> started s s1 ->
  wp (handle_group config command (Some lines)) (answered s RequestKind.Group false) s1.
Proof.
  intros Hc Hs. unfold handle_group. rewrite Hindex.
  destruct (fixture_group_from_name _) as [group|]; [|apply wp_reply; [apply no_such_group_ok|done|done]].
  apply wp_bind. unfold SessionLogic.wp at 1, set_state. apply wp_reply; [apply group_reply_ok|done|].
  apply started_set_state; [done|apply selected_state_ok].
Qed.

Lemma handle_listgroup_ok s s1 command lines :
  may_answer RequestKind.ListGroup s -> started s s1 ->
  wp (handle_listgroup config command (Some lines)) (answered s RequestKind.ListGroup false) s1.
Proof.
  intros Hc Hs. unfold handle_listgroup. apply wp_bind, wp_get_state.
  destruct listgroup_errors_ok as [H411 H412].
  destruct (listgroup_state_error _ _) as [r|] eqn:E.
  - apply wp_reply; [|done|done]. unfold listgroup_state_error in E.
    destruct (is_some_and _ _); [by injection E as <-|].
    destruct (_ && _); [by injection E as <-|discriminate].
  - rewrite Hindex. apply wp_bind. unfold SessionLogic.wp at 1, set_state.
    apply wp_reply; [apply listgroup_reply_ok|done|].
    apply started_set_state; [done|apply selected_state_ok].
Qed.

(** ** LAST and NEXT *)

Lemma handle_navigation_ok kind s s1 no_article indexed fixture reply :
  reply_ok kind (bstr "412 no newsgroup selected\r\n") ->
  reply_ok kind (bstr "420 no current article selected\r\n") -> reply_ok kind no_article ->
  (forall group n, In n (FixtureGroup.article_numbers group) ->
     ss_selected_group (se_state s1) = Some (Fixture group) ->
     match fixture (se_state s1) n with
     | None => True
     | Some m => In m (FixtureGroup.article_numbers group) /\ reply_ok kind (reply m)
     end) ->
  may_answer kind s -> started s s1 ->
  wp (handle_navigation config no_article indexed fixture reply) (answered s kind false) s1.
Proof.
  intros H412 H420 Hno Hmove Hc Hs. unfold handle_navigation. apply wp_bind, wp_get_state.
  destruct (ss_group_selected (se_state s1)) eqn:Eg; cbn [negb]; [|by apply wp_reply].
  destruct (ss_current_article (se_state s1)) as [n|] eqn:En; [|by apply wp_reply].
  pose proof (gd_state _ (sd_good _ _ Hs)) as Hst. unfold state_ok in Hst. rewrite Hindex.
  destruct (ss_selected_group (se_state s1)) as [[group|]|] eqn:Esel; [|done|by rewrite Eg in Hst; destruct Hst].
  destruct Hst as [_ Hin]. specialize (Hin n En). specialize (Hmove group n Hin eq_refl).
  destruct (fixture (se_state s1) n) as [m|]; [|by apply wp_reply].
  destruct Hmove as [Hm Hrep]. apply wp_bind.
  pose proof (started_current _ _ _ _ Hs Esel Hm) as Hs2. unfold SessionLogic.wp at 1, set_current.
  apply wp_bind. eapply wp_try_ok; [reflexivity|]. by apply wp_reply.
Qed.

Lemma handle_last_ok s s1 :
  may_answer RequestKind.Last s -> started s s1 ->
  wp (handle_last config) (answered s RequestKind.Last false) s1.
Proof.
  intros Hc Hs. unfold handle_last. apply handle_navigation_ok; try fixed_reply; try done.
  intros group n Hin Hsel. destruct (n <=? 1) eqn:E; [done|]. apply Z.leb_gt in E.
  unfold current_group_previous_article, current_group_articles. rewrite Hsel.
  destruct group; cbn in Hin; try lia. assert (n = 2 \/ n = 3) as [->| ->] by lia;
    (split; [cbn; lia|fixed_reply]).
Qed.

Lemma handle_next_ok s s1 :
  may_answer RequestKind.Next s -> started s s1 ->
  wp (handle_next config) (answered s RequestKind.Next false) s1.
Proof.
  intros Hc Hs. unfold handle_next. apply handle_navigation_ok; try fixed_reply; try done.
  intros group n Hin Hsel. destruct (_ <=? n) eqn:E; [done|]. apply Z.leb_gt in E.
  unfold article_count in E. rewrite Hsel in E.
  unfold current_group_next_article, current_group_articles. rewrite Hsel.
  destruct group; cbn in Hin, E; try lia. assert (n = 1 \/ n = 2) as [->| ->] by lia;
    (split; [cbn; lia|fixed_reply]).
Qed.

(** ** Overviews and headers *)

Definition overview_kinds : list RequestKind.RequestKind :=
  [RequestKind.Over; RequestKind.Xover; RequestKind.Hdr; RequestKind.Xhdr].

(** The complaint fits the command; XOVER is never told 430, since it takes no
    message-id. *)
Lemma overview_error_ok st line command lines reply :
  reads_line line command lines -> In (pc_kind command) overview_kinds ->
  overview_selector_error command (Some lines) st None = Some reply ->
  reply_ok (pc_kind command) reply.
Proof.
  intros Hr Hk. pose proof (xover_selector line command lines Hr) as Hx. revert Hx.
  unfold overview_selector_error, args_of. generalize (default [] (command_args command (Some lines))).
  intros args Hx. destruct Hk as [E|[E|[E|[E|[]]]]]; rewrite <- E in *;
    cbn [is_header_kind andb legacy_overview_uses_420_for_missing_range overview_selector_arg].
  2: { destruct (Hx eq_refl) as [-> Hlt]. cbn [orb].
    destruct (length args =? 0)%nat; cbn [is_some_and]; rewrite ?Hlt; cbn [andb];
      repeat case_match; intros [= <-]; fixed_reply. }
  all: repeat case_match; intros [= <-]; fixed_reply.
Qed.

Lemma handle_overview_ok s s1 indexed fixture line command lines :
  (forall args st, reply_ok (pc_kind command) (fixture args st)) ->
  reads_line line command lines -> In (pc_kind command) overview_kinds ->
  may_answer (pc_kind command) s -> started s s1 ->
  wp (handle_overview config indexed fixture command (Some lines))
     (answered s (pc_kind command) false) s1.
Proof.
  intros Hf Hr Hk Hc Hs. unfold handle_overview. apply wp_bind, wp_get_state. rewrite Hindex.
  destruct (overview_selector_error _ _ _ _) as [r|] eqn:E; apply wp_reply; try done.
  by eapply overview_error_ok.
Qed.

(** ** Every command *)

Definition closes (kind : RequestKind.RequestKind) : bool :=
  match kind with RequestKind.Quit => true | _ => false end.

Lemma handle_unknown_ok s s1 command :
  may_answer RequestKind.Unknown s -> started s s1 ->
  wp (handle_unknown command) (answered s RequestKind.Unknown false) s1.
Proof.
  intros Hc Hs. destruct unknown_reply_ok as (H500 & H501 & H504 & Hsyn). unfold handle_unknown, UNKNOWN_COMMAND.
  destruct (pc_syntax_error command); [|apply wp_reply; [exact H500|done|done]].
  destruct (pc_line_too_long command); [apply wp_reply; [exact H501|done|done]|].
  destruct (pc_authinfo_sasl_base64_error command); apply wp_reply; done || assumption.
Qed.

Lemma started_command s : good s -> started s (with_stats s (add_stats (se_stats s)
  {| st_commands := 1; st_pipeline_batches := 0; st_article_requests := 0; st_body_requests := 0;
     st_bytes_sent := 0 |})).
Proof.
  intros Hg. split; [|by destruct Hg].
  split; [unfold out; by rewrite app_nil_r|done|cbn; lia|done].
Qed.

(** Each command is answered with one reply, which is whole for its kind. *)
Lemma handle_command_ok s line command lines :
  reads_line line command lines -> good s -> may_answer (pc_kind command) s ->
  wp (handle_command find_end config command (Some lines))
     (answered s (pc_kind command) (closes (pc_kind command))) s.
Proof.
  intros Hr Hg Hc. unfold handle_command. apply wp_bind, wp_count.
  pose proof (started_command s Hg) as Hs. revert Hs. generalize (with_stats s (add_stats (se_stats s)
    {| st_commands := 1; st_pipeline_batches := 0; st_article_requests := 0; st_body_requests := 0;
       st_bytes_sent := 0 |})). intros s1 Hs.
  unfold COMMAND_UNAVAILABLE, NEEDS_TLS. destruct (pc_kind command) eqn:Hk; cbn [closes];
    lazymatch goal with
    | |- SessionLogic.wp _ _ (respond _) _ _ =>
        apply wp_reply; [apply constant_reply_ok; reflexivity|exact Hc|exact Hs]
    | |- _ => idtac
    end.
  - by eapply handle_article_ok.
  - by eapply handle_body_ok.
  - by eapply handle_head_ok.
  - by eapply handle_stat_ok.
  - apply respond_listing_ok; [apply list_active_ok|done|done].
  - apply respond_listing_ok; [apply list_active_times_ok|done|done].
  - apply respond_listing_ok; [apply list_newsgroups_ok|done|done].
  - by apply handle_group_ok.
  - by apply handle_listgroup_ok.
  - by apply handle_last_ok.
  - by apply handle_next_ok.
  - by apply handle_date_ok.
  - rewrite <- Hk in *. eapply handle_overview_ok; [|done|by rewrite Hk; left|done|done].
    intros args st. rewrite Hk. apply over_ok.
  - rewrite <- Hk in *. eapply handle_overview_ok; [|done|by rewrite Hk; right; left|done|done].
    intros args st. rewrite Hk. apply xover_ok.
  - rewrite <- Hk in *. eapply handle_overview_ok; [|done|by rewrite Hk; right; right; left|done|done].
    intros args st. rewrite Hk. apply hdr_ok.
  - rewrite <- Hk in *. eapply handle_overview_ok; [|done|by rewrite Hk; do 3 right; left|done|done].
    intros args st. rewrite Hk. apply xhdr_ok.
  - by apply handle_newgroups_ok.
  - by apply handle_newnews_ok.
  - apply wp_bind. apply (wp_sent RequestKind.Quit s); [by apply constant_reply_ok|done|done|].
    intros s' Hp Hgood _. apply wp_ret. split; [done|]. split; [done|].
    exists QUIT_RESPONSE. split; [by apply constant_reply_ok|done].
  - by apply handle_unknown_ok.
Qed.

(** ** Pipelined ARTICLE commands *)

Definition answers (kinds : list RequestKind.RequestKind) (sent_replies : list bytes) : Prop :=
  Forall2 reply_ok kinds sent_replies.

(** The commands that are answered: those up to the first QUIT. *)
Fixpoint served (kinds : list RequestKind.RequestKind) : list RequestKind.RequestKind :=
  match kinds with
  | [] => []
  | kind :: kinds => kind :: if closes kind then [] else served kinds
  end.

Lemma served_open n kinds :
  existsb closes (take n kinds) = false ->
  served kinds = take n kinds ++ served (drop n kinds)
  /\ existsb closes kinds = existsb closes (drop n kinds).
Proof.
  revert kinds. induction n as [|n IH]; intros [|k kinds] H; try (by rewrite ?drop_0).
  cbn [take existsb] in H. apply orb_false_iff in H as [Hk H]. destruct (IH kinds H) as [E1 E2].
  cbn [take drop served app existsb]. rewrite Hk. cbn [orb]. by rewrite E1 at 1.
Qed.

Lemma served_close n kinds :
  existsb closes (take n kinds) = true -> served kinds = served (take n kinds).
Proof.
  revert kinds. induction n as [|n IH]; intros [|k kinds] H; try done.
  cbn [take existsb served] in *. destruct (closes k); [done|]. f_equal. by apply IH.
Qed.

Lemma articles_open kinds :
  Forall (fun k => k = RequestKind.Article) kinds -> existsb closes kinds = false.
Proof. induction 1 as [|k kinds -> _ IH]; [done|]. exact IH. Qed.

(** Replies to any number of the commands may be cut short. *)
Definition may_serve (kinds : list RequestKind.RequestKind) (s : Session W) : Prop :=
  forall k rs, answers (take k (served kinds)) rs -> covers (out s ++ concat rs).

(** A collected response: its header and payload make a reply to ARTICLE. *)
Definition range_reply (range : BatchedResponse) (reply : bytes) : Prop :=
  exists p, slice_to (article_payload config) (bp_payload_len range) = Some p
    /\ bp_payload_len range = length p /\ reply = bp_header range ++ p ++ DOT_TERMINATOR
    /\ reply_ok RequestKind.Article reply.

Lemma prepared_slice mode payload target n p :
  prepared_payload_slice mode payload target n = Some p -> slice_to payload (length p) = Some p.
Proof.
  unfold prepared_payload_slice, slice_to. destruct mode.
  - intros [= ->]. by rewrite Nat.leb_refl, firstn_all.
  - destruct (_ <=? _)%nat eqn:E; [|done]. intros [= <-]. apply Nat.leb_le in E.
    rewrite length_take, Nat.min_l by done. by rewrite (proj2 (Nat.leb_le _ _)).
Qed.

Lemma message_id_header m : append_message_id_article_response_header [] m = article_header 0 m.
Proof.
  unfold append_message_id_article_response_header, article_header,
    build_article_response_header_into, append_article_response_header, response_line.
  cbn zeta. rewrite !app_nil_l.
  assert (lit "220 0 " = lit "220" ++ lit " " ++ print_decimal 0 ++ lit " ") as -> by (vm_compute; reflexivity).
  by rewrite <- !app_assoc.
Qed.

Lemma collect_ok lines commands ranges0 total :
  reads_batch commands lines ->
  exists ranges rs, collect_batched config commands lines ranges0 total = Some (ranges0 ++ ranges)
    /\ Forall2 range_reply ranges rs /\ (length ranges <= length commands)%nat
    /\ Forall (fun c => pc_kind c = RequestKind.Article) (take (length ranges) commands).
Proof.
  intros Hr. revert ranges0 total. induction Hr as [|command commands (line & Hline) _ IH];
    intros ranges0 total; cbn [collect_batched].
  { exists [], []. rewrite app_nil_r. split_and!; [done|constructor|cbn; lia|constructor]. }
  assert (forall rest, rest = Some ranges0 -> exists ranges rs, rest = Some (ranges0 ++ ranges)
    /\ Forall2 range_reply ranges rs /\ (length ranges <= length (command :: commands))%nat
    /\ Forall (fun c => pc_kind c = RequestKind.Article) (take (length ranges) (command :: commands)))
    as Hstop.
  { intros rest ->. exists [], []. rewrite app_nil_r. split_and!; [done|constructor|cbn; lia|constructor]. }
  destruct (RequestKind.eqb (pc_kind command) RequestKind.Article) eqn:Ek; cbn [negb]; [|by apply Hstop].
  apply eqb_spec in Ek.
  destruct (article_selector line command lines Hline ltac:(by left)) as [Hsel _].
  destruct (command_message_id_bytes command lines) as [m|] eqn:Em; [|by apply Hstop].
  inversion Hsel as [| |a m' _ Hshape]; subst.
  rewrite message_id_header. pose proof (article_frame_ok 0 m) as Hframe. revert Hframe.
  generalize (article_header 0 m). intros header Hframe.
  destruct (co_article_cuts config Hconfig (length header)) as (p & Hp & Ht).
  unfold article_payload_for_header at 1. rewrite Hp. cbn [mbind option_bind].
  destruct (_ && _); [by apply Hstop|].
  set (range := {| bp_header := header; bp_payload_len := length p |}).
  destruct (IH (ranges0 ++ [range]) (total + batched_len range)) as (ranges & rs & -> & Hrs & Hn & Hall).
  exists (range :: ranges), ((header ++ p ++ DOT_TERMINATOR) :: rs).
  rewrite <- app_assoc. split; [done|]. split; [constructor; [|done]|split; [cbn; lia|by constructor]].
  exists p. split_and!; [by eapply prepared_slice|done|done|]. by apply Hframe; [apply zero_ok| |].
Qed.

Lemma slices_ok ranges rs :
  Forall2 range_reply ranges rs ->
  exists slices, batched_slices config ranges = Some slices /\ concat slices = concat rs
    /\ ends_full slices.
Proof.
  induction 1 as [|range r ranges rs (p & Hp & Hl & -> & _) _ (slices & Hs & Hc & He)].
  { exists []. split_and!; [done..|]. by unfold ends_full. }
  exists (DOT_SLICES (bp_header range) p ++ slices). cbn [batched_slices].
  rewrite Hp. cbn [mbind option_bind]. rewrite Hs. split; [done|]. split.
  - unfold DOT_SLICES. cbn [app concat]. rewrite Hc, <- !app_assoc. done.
  - unfold ends_full in *. destruct slices as [|x slices]; [cbn; discriminate|].
    rewrite last_app. destruct (list.last (x :: slices)) eqn:E; [done|]. by apply last_None in E.
Qed.

Lemma total_ok ranges rs :
  Forall2 range_reply ranges rs -> batched_total ranges = Z.of_nat (length (concat rs)).
Proof.
  unfold batched_total. intros H.
  assert (forall acc, fold_left (fun total response => total + batched_len response) ranges acc
                      = acc + Z.of_nat (length (concat rs))) as Hgen; [|by rewrite Hgen].
  induction H as [|range r ranges rs (p & _ & Hl & -> & _) _ IH]; intros acc; cbn [fold_left concat].
  { cbn. lia. }
  rewrite IH, !length_app. unfold batched_len. rewrite Hl. lia.
Qed.

Lemma may_serve_after kinds n s rs m s' :
  existsb closes (take n kinds) = false ->
  may_serve kinds s -> answers (take n kinds) rs -> progress s m (concat rs) s' ->
  may_serve (drop n kinds) s'.
Proof.
  intros Ho Hm Ha Hp k rs' Ha'. rewrite (pg_out _ _ _ _ Hp), <- app_assoc, <- concat_app.
  apply (Hm (length (take n kinds) + k)%nat). rewrite (proj1 (served_open n kinds Ho)).
  rewrite take_app_add. by apply Forall2_app.
Qed.

(** A first reply, of a command or of several that do not close. *)
Lemma may_serve_now kinds n s rs :
  existsb closes (take n kinds) = false -> may_serve kinds s -> answers (take n kinds) rs ->
  covers (out s ++ concat rs).
Proof.
  intros Ho Hm Ha. apply (Hm (length (take n kinds))).
  rewrite (proj1 (served_open n kinds Ho)), take_app_length. done.
Qed.

Lemma article_answers cs ranges rs :
  length cs = length rs -> Forall2 range_reply ranges rs ->
  Forall (fun c => pc_kind c = RequestKind.Article) cs -> answers (pc_kind <$> cs) rs.
Proof.
  intros Hl Hrs Hall. assert (Forall (reply_ok RequestKind.Article) rs) as Hok
    by (clear Hl; induction Hrs as [|? ? ? ? (_ & _ & _ & _ & ?)]; by constructor).
  clear Hrs. revert rs Hl Hok. induction Hall as [|c cs Hc _ IH]; intros [|r rs] Hl Hok; try done;
    [constructor|]. apply Forall_cons_1 in Hok as [Hr Hok]. constructor; [by rewrite Hc|].
  apply IH; [by injection Hl|done].
Qed.

(** The commands it answers are the first ones, and they are all ARTICLE. *)
Lemma batched_ok s commands lines :
  reads_batch commands lines -> good s -> may_serve (pc_kind <$> commands) s ->
  wp (write_batched_message_id_article_responses config commands lines)
     (fun n s' => (n <= length commands)%nat /\ good s'
        /\ Forall (fun c => pc_kind c = RequestKind.Article) (take n commands)
        /\ exists rs, length rs = n /\ answers (take n (pc_kind <$> commands)) rs
             /\ progress s (Z.of_nat n) (concat rs) s') s.
Proof.
  intros Hr Hg Hm.
  assert (forall k : nat, k = 0%nat -> (k <= length commands)%nat /\ good s
     /\ Forall (fun c => pc_kind c = RequestKind.Article) (take k commands)
     /\ exists rs, length rs = k /\ answers (take k (pc_kind <$> commands)) rs
          /\ progress s (Z.of_nat k) (concat rs) s) as Hnone.
  { intros k ->. split; [lia|]. split; [done|]. split; [constructor|]. exists [].
    split; [done|]. split; [constructor|apply progress_refl]. }
  unfold write_batched_message_id_article_responses. rewrite no_dir, orb_false_r.
  destruct (_ <? 2)%nat; [apply wp_ret; by apply Hnone|].
  assert (reads_batch (take MAX_BATCHED_ARTICLE_RESPONSES commands) lines) as Hr' by by apply Forall_take.
  destruct (collect_ok lines _ [] 0 Hr') as (ranges & rs & Hcol & Hrs & Hn & Hall).
  apply wp_bind. eapply wp_or_panic; [exact Hcol|]. cbn [app].
  destruct (length ranges <? 2)%nat; [apply wp_ret; by apply Hnone|]. clear Hnone Hcol.
  rewrite length_take in Hn. rewrite take_take, Nat.min_l in Hall by lia.
  set (n := length ranges) in *. pose proof (Forall2_length Hrs) as Hlen. fold n in Hlen.
  assert (answers (take n (pc_kind <$> commands)) rs) as Hans.
  { rewrite <- fmap_take. apply (article_answers _ ranges); [|done..]. rewrite length_take. lia. }
  apply wp_bind, wp_count. set (s1 := with_stats s _). assert (out s1 = out s) as Ho by done.
  assert (existsb closes (take n (pc_kind <$> commands)) = false) as Hopen
    by (rewrite <- fmap_take; apply articles_open; by apply Forall_fmap).
  pose proof (may_serve_now _ _ _ _ Hopen Hm Hans) as Hcov. apply wp_bind.
  apply (wp_pending_flush fallible acceptable Htransport); [rewrite Ho; by eapply covers_app|].
  intros w Hw. destruct (slices_ok _ _ Hrs) as (slices & Hsl & Hcs & He).
  apply wp_bind. eapply wp_or_panic; [exact Hsl|]. apply wp_bind.
  apply (wp_vectored fallible acceptable Htransport); [done| |];
    cbn [se_writer with_pending with_writer]; rewrite Hw, Ho, Hcs; [done|]. intros w' Hw'.
  apply wp_ret. fold n. split; [lia|]. split; [by destruct Hg; split|]. split; [done|].
  exists rs. split; [done|]. split; [done|]. split; cbn.
  - unfold out. cbn. by rewrite app_nil_r.
  - done.
  - by rewrite (total_ok _ _ Hrs).
  - done.
Qed.

(** ** A batch of commands *)

Lemma answers_one kind r : reply_ok kind r -> answers [kind] [r].
Proof. intros H. by repeat constructor. Qed.

Lemma drop_lookup_cons {A} (l : list A) i x rest : drop i l = x :: rest -> l !! i = Some x /\ drop (i + 1) l = rest.
Proof.
  intros H. split.
  - rewrite <- (Nat.add_0_r i), <- lookup_drop, H. done.
  - rewrite <- drop_drop, H. done.
Qed.

(** A batch run ends well from [s] when its commands have the kinds. *)
Definition batch_done (kinds : list RequestKind.RequestKind) (s : Session W)
    (outcome : BatchOutcome.BatchOutcome) (s' : Session W) : Prop :=
  good s' /\ BatchOutcome.should_close outcome = existsb closes kinds
  /\ exists rs, answers (served kinds) rs /\ progress s (Z.of_nat (length rs)) (concat rs) s'.

Lemma batch_done_nil s : good s -> batch_done [] s BatchOutcome.Continue s.
Proof.
  intros Hg. split; [done|]. split; [done|]. exists []. split; [constructor|apply progress_refl].
Qed.

Lemma batch_done_app n kinds rs s s1 outcome s2 :
  Forall (fun k => k = RequestKind.Article) (take n kinds) -> length rs = n ->
  answers (take n kinds) rs -> progress s (Z.of_nat n) (concat rs) s1 ->
  batch_done (drop n kinds) s1 outcome s2 -> batch_done kinds s outcome s2.
Proof.
  intros Hart Hl Ha Hp (Hg & Ho & rs' & Ha' & Hp').
  destruct (served_open n kinds (articles_open _ Hart)) as [Es Ex].
  split; [done|]. split; [by rewrite Ex|]. exists (rs ++ rs'). split.
  - rewrite Es. by apply Forall2_app.
  - rewrite length_app, concat_app, Hl, Nat2Z.inj_add. by eapply progress_trans.
Qed.

Lemma batch_done_cons kind kinds r s s1 outcome s2 :
  closes kind = false -> reply_ok kind r -> progress s 1 r s1 ->
  batch_done kinds s1 outcome s2 -> batch_done (kind :: kinds) s outcome s2.
Proof.
  intros Hc Hr Hp (Hg & Ho & rs' & Ha' & Hp'). split; [done|]. cbn [existsb served]. rewrite Hc.
  split; [done|]. exists (r :: rs'). split; [by constructor|]. cbn [length concat].
  replace (Z.of_nat (S (length rs'))) with (1 + Z.of_nat (length rs')) by lia.
  by eapply progress_trans.
Qed.

Lemma batch_done_close kind kinds r s s1 :
  closes kind = true -> reply_ok kind r -> good s1 -> progress s 1 r s1 ->
  batch_done (kind :: kinds) s BatchOutcome.Close s1.
Proof.
  intros Hc Hr Hg Hp. split; [done|]. cbn [existsb served]. rewrite Hc. split; [done|].
  exists [r]. split; [by apply answers_one|]. cbn [length concat]. by rewrite app_nil_r.
Qed.

(** One command on its own. *)
Lemma handle_step s line command lines kinds :
  reads_line line command lines -> good s -> may_serve (pc_kind command :: kinds) s ->
  wp (handle_command find_end config command (Some lines))
     (fun closed s' => closed = closes (pc_kind command) /\ good s'
        /\ (closed = false -> may_serve kinds s')
        /\ exists r, reply_ok (pc_kind command) r /\ progress s 1 r s') s.
Proof.
  intros Hr Hg Hm. eapply wp_mono; [|apply (handle_command_ok _ line); [done|done|]].
  - intros closed s' (-> & Hg' & r & Hrep & Hp). split; [done|]. split; [done|]. split; [|eauto].
    intros Hc. apply (may_serve_after (pc_kind command :: kinds) 1 s [r] 1); [|done|by apply answers_one|].
    + cbn [take existsb]. by rewrite Hc.
    + cbn [concat]. by rewrite app_nil_r.
  - intros r Hrep. specialize (Hm 1%nat [r] (answers_one _ _ Hrep)). cbn [concat] in Hm.
    by rewrite app_nil_r in Hm.
Qed.

Lemma process_ok fuel commands lines i s :
  reads_batch commands lines -> good s -> (length (drop i commands) <= fuel)%nat ->
  may_serve (pc_kind <$> drop i commands) s ->
  wp (process_commands find_end config fuel commands (Some lines) i)
     (batch_done (pc_kind <$> drop i commands) s) s.
Proof.
  intros Hr. revert i s. induction fuel as [|fuel IH]; intros i s Hg Hf Hm.
  { apply Nat.le_0_r, length_zero_iff_nil in Hf. rewrite Hf. by apply wp_ret, batch_done_nil. }
  cbn [process_commands]. destruct (commands !! i) as [command|] eqn:Hlook.
  2: { apply lookup_ge_None in Hlook. rewrite drop_ge by done. by apply wp_ret, batch_done_nil. }
  assert (reads_batch (drop i commands) lines) as Hr' by by apply Forall_drop.
  apply wp_bind. eapply wp_mono; [|by apply (batched_ok s)].
  intros n s1 (Hn & Hg1 & Hart & rs & Hlen & Hans & Hp). cbn beta.
  assert (Forall (fun k => k = RequestKind.Article) (take n (pc_kind <$> drop i commands))) as Hart'
    by (rewrite <- fmap_take; by apply Forall_fmap).
  pose proof (may_serve_after _ _ _ _ _ _ (articles_open _ Hart') Hm Hans Hp) as Hm1.
  rewrite <- fmap_drop in Hm1. rewrite drop_drop in Hm1.
  eapply wp_mono.
  { intros outcome s2. by apply (batch_done_app n _ rs s s1). }
  rewrite <- fmap_drop, drop_drop. destruct n as [|n]; cbn [Nat.eqb negb].
  - rewrite Nat.add_0_r in *. rewrite (drop_S commands command i Hlook) in *.
    apply Forall_cons_1 in Hr' as [(line & Hline) _].
    apply wp_bind. eapply wp_mono; [|by apply (handle_step s1 line command lines (pc_kind <$> drop (S i) commands))].
    intros closed s2 (-> & Hg2 & Hm2 & r & Hrep & Hp2). cbn beta.
    destruct (closes (pc_kind command)) eqn:Ec.
    + apply wp_ret. by eapply batch_done_close.
    + rewrite Nat.add_1_r. eapply wp_mono; [|apply (IH (S i) s2 Hg2); [|by apply Hm2]].
      * intros outcome s3. by eapply batch_done_cons.
      * cbn [length] in Hf. lia.
  - apply IH; [done| |done]. rewrite !length_drop in *. lia.
Qed.

(** After a batch everything is flushed to the socket. *)
Lemma batch_ok commands lines s :
  reads_batch commands lines -> good s -> may_serve (pc_kind <$> commands) s ->
  wp (process_command_batch find_end config commands (Some lines))
     (fun outcome s' => batch_done (pc_kind <$> commands) s outcome s' /\ se_pending s' = []) s.
Proof.
  intros Hr Hg Hm. unfold process_command_batch. apply wp_bind, wp_count.
  set (s1 := with_stats s _). apply wp_bind.
  assert (good s1) as Hg1 by (destruct Hg; by split).
  eapply wp_mono; [|by apply (process_ok _ commands lines 0 s1)].
  intros outcome s2 (Hg2 & Ho & rs & Ha & Hp). cbn beta. rewrite drop_0 in *.
  assert (progress s (Z.of_nat (length rs)) (concat rs) s2) as Hp'.
  { destruct Hp as [H1 H2 H3 H4]. split; [exact H1| | |exact H4].
    - rewrite H2. cbn. lia.
    - rewrite H3. cbn. lia. }
  apply wp_bind. apply (wp_flush_session fallible acceptable Htransport).
  - rewrite (pg_out _ _ _ _ Hp'). apply (Hm (length (served (pc_kind <$> commands)))).
    by rewrite firstn_all.
  - intros w Hw. apply wp_ret. split; [|done]. split; [by destruct Hg2; split|]. split; [done|].
    exists rs. split; [done|]. destruct Hp' as [H1 H2 H3 H4]. split; try done.
    unfold out at 1. cbn. by rewrite app_nil_r, Hw.
Qed.

(** ** A session *)

(** Output and counters, published or not. *)
Definition total_commands (s : Session W) : Z :=
  st_commands (se_published s) + st_commands (se_stats s).
Definition total_bytes (s : Session W) : Z :=
  st_bytes_sent (se_published s) + st_bytes_sent (se_stats s).

Record advance (s : Session W) (n : nat) (r : bytes) (s' : Session W) : Prop := {
  ad_out : out s' = out s ++ r;
  ad_commands : total_commands s' = total_commands s + Z.of_nat n;
  ad_bytes : total_bytes s' = total_bytes s + Z.of_nat (length r);
}.

Lemma advance_refl s : advance s 0 [] s.
Proof. split; [by rewrite app_nil_r|lia|cbn [length]; lia]. Qed.

Lemma advance_trans s1 n1 r1 s2 n2 r2 s3 :
  advance s1 n1 r1 s2 -> advance s2 n2 r2 s3 -> advance s1 (n1 + n2) (r1 ++ r2) s3.
Proof.
  intros [H1 H2 H3] [K1 K2 K3]. split; [by rewrite K1, H1, app_assoc|lia|].
  rewrite length_app. lia.
Qed.

Lemma progress_advance s n r s' : progress s (Z.of_nat n) r s' -> advance s n r s'.
Proof.
  intros [H1 H2 H3 H4]. unfold total_commands, total_bytes.
  split; unfold total_commands, total_bytes; rewrite ?H4; [done|lia|lia].
Qed.

Definition item_kind (i : Incoming) : RequestKind.RequestKind := rl_kind (parse (in_text i)).

Lemma in_command_reads i j lines :
  Z.of_nat j <= 65535 -> line_of lines j = Some (in_text i) ->
  reads_line (in_text i) (in_command i j) lines /\ pc_kind (in_command i j) = item_kind i.
Proof.
  intros Hj Hl. assert (u16_or_max j = j) as Hu
    by (unfold u16_or_max, u16_try_from; rewrite (proj2 (Z.leb_le _ _)) by lia; done).
  unfold in_command. rewrite parse_command_line_request.
  destruct (in_body i); (split; [split; try done; cbn; by rewrite Hu|done]).
Qed.

(** A batch read from the items reads their lines, with their kinds. *)
Lemma batch_items items batch :
  (length items <= MAX_SERVER_PIPELINE_DEPTH)%nat -> batch_reads items batch ->
  reads_batch (ba_commands batch) (ba_lines batch)
  /\ pc_kind <$> ba_commands batch = item_kind <$> items.
Proof.
  intros Hn [Hl Hb]. unfold MAX_SERVER_PIPELINE_DEPTH in Hn. split.
  - apply Forall_lookup. intros j c Hj. assert (is_Some (items !! j)) as [i Hi].
    { apply lookup_lt_is_Some. rewrite <- Hl. by apply lookup_lt_Some in Hj. }
    destruct (Hb j i Hi) as [Hc Hline]. rewrite Hj in Hc. injection Hc as ->.
    exists (in_text i). apply in_command_reads; [|done]. apply lookup_lt_Some in Hi. lia.
  - apply list_eq. intros j. rewrite !list_lookup_fmap.
    destruct (items !! j) as [i|] eqn:Hi.
    + destruct (Hb j i Hi) as [-> Hline]. cbn. f_equal. apply (in_command_reads i j (ba_lines batch)); [|done].
      apply lookup_lt_Some in Hi. lia.
    + rewrite (proj2 (lookup_ge_None (ba_commands batch) j)); [done|]. rewrite Hl. by apply lookup_ge_None.
Qed.

Lemma may_serve_advance n kinds s rs s' :
  existsb closes (take n kinds) = false -> may_serve kinds s -> answers (take n kinds) rs ->
  out s' = out s ++ concat rs -> may_serve (drop n kinds) s'.
Proof.
  intros Ho Hm Ha Hout k rs' Ha'. rewrite Hout, <- app_assoc, <- concat_app.
  apply (Hm (length (take n kinds) + k)%nat). rewrite (proj1 (served_open n kinds Ho)).
  rewrite take_app_add. by apply Forall2_app.
Qed.

Lemma may_serve_front n kinds s : may_serve kinds s -> may_serve (take n kinds) s.
Proof.
  intros Hm k rs Ha. destruct (existsb closes (take n kinds)) eqn:Ec.
  - apply (Hm k). by rewrite (served_close n kinds Ec).
  - rewrite <- (app_nil_r (served _)) in Ha.
    destruct (served_open (length (take n kinds)) (take n kinds)) as [Et _]; [by rewrite firstn_all|].
    rewrite firstn_all, drop_ge in Et by done. rewrite Et in Ha. cbn [served] in Ha. rewrite !app_nil_r in Ha.
    apply (Hm (length (take k (take n kinds)))). rewrite (proj1 (served_open n kinds Ec)).
    rewrite take_app_le by (rewrite length_take; lia). rewrite length_take.
    destruct (decide (k <= length (take n kinds))%nat).
    + by rewrite Nat.min_l.
    + rewrite Nat.min_r by lia. rewrite firstn_all. by rewrite (take_ge (take n kinds) k) in Ha by lia.
Qed.

Lemma may_serve_covers kinds s : may_serve kinds s -> covers (out s).
Proof. intros Hm. specialize (Hm 0%nat [] (Forall2_nil _)). by rewrite app_nil_r in Hm. Qed.

Context (linux : bool).

(** The commands up to QUIT were answered, and everything was sent. *)
Definition session_done (kinds : list RequestKind.RequestKind) (s s' : Session W) : Prop :=
  se_pending s' = []
  /\ exists rs, answers (served kinds) rs /\ advance s (length rs) (concat rs) s'.

Lemma wp_publish Q s :
  Q tt (with_stats (with_published s (add_stats (se_published s) (se_stats s))) session_stats_default) ->
  wp publish_session_delta Q s.
Proof. done. Qed.

Lemma session_done_after n kinds rs s s1 s' :
  existsb closes (take n kinds) = false -> answers (take n kinds) rs -> advance s (length rs) (concat rs) s1 ->
  session_done (drop n kinds) s1 s' -> session_done kinds s s'.
Proof.
  intros Ho Ha Hadv (Hp & rs' & Ha' & Hadv'). split; [done|]. exists (rs ++ rs').
  rewrite (proj1 (served_open n kinds Ho)). split; [by apply Forall2_app|].
  rewrite length_app, concat_app. by eapply advance_trans.
Qed.

(** Publishing the counters and corking the socket change no output. *)
Lemma settled_advance s s1 w n r :
  advance s n r s1 -> sent w = sent (se_writer s1) ->
  advance s n r (with_stats (with_published (with_writer s1 w)
    (add_stats (se_published s1) (se_stats s1))) session_stats_default).
Proof.
  intros [H1 H2 H3] Hw. split.
  - rewrite <- H1. unfold out. cbn. by rewrite Hw.
  - rewrite <- H2. unfold total_commands. cbn. lia.
  - rewrite <- H3. unfold total_bytes. cbn. lia.
Qed.

(** One round of the loop, and what follows it. *)
Lemma round_ok commands lines s (k : BatchOutcome.BatchOutcome -> M W unit) Q :
  reads_batch commands lines -> good s -> se_pending s = [] ->
  may_serve (pc_kind <$> commands) s ->
  (forall outcome s', good s' -> se_pending s' = [] ->
     BatchOutcome.should_close outcome = existsb closes (pc_kind <$> commands) ->
     (exists rs, answers (served (pc_kind <$> commands)) rs
        /\ advance s (length rs) (concat rs) s') -> wp (k outcome) Q s') ->
  wp (cork config linux true ;;
      outcome ← process_command_batch find_end config commands (Some lines);
      cork config linux false ;; publish_session_delta ;; k outcome) Q s.
Proof.
  intros Hr Hg Hpend Hm Hk. pose proof (may_serve_covers _ _ Hm) as Hcov0.
  assert (out s = sent (se_writer s)) as Hout by (unfold out; by rewrite Hpend, app_nil_r).
  apply wp_bind, (wp_cork fallible acceptable Htransport); [by rewrite <- Hout|]. intros w Hw.
  apply wp_bind. set (s0 := with_writer s w).
  assert (out s0 = out s) as Ho0 by (unfold out, s0; cbn; by rewrite Hw).
  assert (good s0) as Hg0 by (destruct Hg; by split).
  eapply wp_mono; [|apply (batch_ok commands lines s0 Hr Hg0)].
  2: { intros n rs Ha. rewrite Ho0. by apply (Hm n). }
  intros outcome s1 ((Hg1 & Hclose & rs & Ha & Hp) & Hpend1). cbn beta.
  apply progress_advance in Hp. assert (advance s (length rs) (concat rs) s1) as Hadv.
  { destruct Hp as [H1 H2 H3]. split; [by rewrite H1, Ho0|exact H2|exact H3]. }
  assert (out s1 = sent (se_writer s1)) as Hout1 by (unfold out; by rewrite Hpend1, app_nil_r).
  apply wp_bind, (wp_cork fallible acceptable Htransport).
  { rewrite <- Hout1, (ad_out _ _ _ _ Hadv).
    apply (Hm (length (served (pc_kind <$> commands)))). by rewrite firstn_all. }
  intros w1 Hw1. apply wp_bind, wp_publish. apply Hk; [destruct Hg1; by split|done|done|].
  exists rs. split; [done|]. exact (settled_advance _ _ _ _ _ Hadv Hw1).
Qed.

(** How the reading went allows for a session that comes to its end. *)
Definition completes (kinds : list RequestKind.RequestKind) (ended : bool) : Prop :=
  ended = true \/ existsb closes kinds = true.

Lemma completes_after n kinds ended :
  existsb closes (take n kinds) = false -> completes (drop n kinds) ended <-> completes kinds ended.
Proof. intros Ho. unfold completes. by rewrite <- (take_drop n kinds) at 2; rewrite existsb_app, Ho. Qed.

Lemma loop_ok fuel commands ended reader s :
  let depth := Nat.min (max_pipeline_depth config) MAX_SERVER_PIPELINE_DEPTH in
  let kinds := pc_kind <$> commands in
  commands_read depth reader commands ended -> (input_size reader < fuel)%nat ->
  fallible \/ completes kinds ended -> good s -> se_pending s = [] -> may_serve kinds s ->
  wp (serve_loop find_end config linux fuel reader)
     (fun _ s' => session_done kinds s s' /\ completes kinds ended) s.
Proof.
  intros depth kinds H. unfold kinds. clear kinds. revert fuel s. pose proof (co_depth config Hconfig) as Hdepth.
  assert (1 <= depth <= MAX_SERVER_PIPELINE_DEPTH)%nat as Hd
    by (unfold depth, MAX_SERVER_PIPELINE_DEPTH; lia).
  induction H as [reader r E|reader r e E|reader r batch commands ended E _ IH]; intros [|fuel] s Hf Hends Hg Hpend Hm;
    try lia; cbn [serve_loop]; fold depth; rewrite E; apply wp_bind.
  - eapply wp_try_ok; [reflexivity|].
    apply (wp_flush_session fallible acceptable Htransport); [by apply (may_serve_covers _ _ Hm)|].
    intros w Hw. split; [|by left]. split; [done|]. exists []. split; [constructor|].
    destruct (advance_refl s) as [_ H2 H3]. split; [|exact H2|exact H3]. unfold out at 1. cbn. by rewrite Hw, !app_nil_r.
  - destruct Hends as [Hfail|[|]]; [|done..]. split; [done|]. apply (may_serve_covers _ _ Hm).
    unfold out. by rewrite Hpend, app_nil_r.
  - pose proof (batch_size _ _ _ _ E) as Hsize. pose proof (batch_reads_lines _ _ _ _ Hd E) as Hreads.
    eapply wp_try_ok; [reflexivity|]. cbn iota. revert Hends Hm. rewrite fmap_app.
    set (front := pc_kind <$> ba_commands batch). set (rest := pc_kind <$> commands) in *. intros Hends Hm.
    assert (take (length front) (front ++ rest) = front /\ drop (length front) (front ++ rest) = rest) as [Et Edr]
      by (by rewrite take_app_length, drop_app_length).
    apply round_ok; [done|done|done|fold front; rewrite <- Et; by apply may_serve_front|].
    intros outcome s1 Hg1 Hpend1 Hclose (rs & Ha & Hadv). fold front in Hclose, Ha. rewrite Hclose.
    destruct (existsb closes front) eqn:Ec.
    + apply wp_ret. split; [|right; by rewrite existsb_app, Ec]. split; [done|]. exists rs. split; [|done].
      by rewrite (served_close (length front)), Et by (by rewrite Et).
    + assert (existsb closes (take (length front) (front ++ rest)) = false) as Ho by (by rewrite Et).
      assert (served front = front) as Es.
      { destruct (served_open (length front) front) as [Es _]; [by rewrite firstn_all|].
        rewrite firstn_all, drop_ge in Es by done. cbn [served] in Es. by rewrite app_nil_r in Es. }
      rewrite Es, <- Et in Ha. eapply wp_mono; [|apply (IH fuel s1)]; try done; [|lia| |].
      * intros [] s2 [Hdone Hend]. split; [|rewrite <- Edr in Hend; by apply completes_after in Hend].
        rewrite <- Edr in Hdone. by eapply session_done_after.
      * destruct Hends as [|Hends]; [by left|right]. rewrite <- Edr. by apply completes_after.
      * rewrite <- Edr. apply (may_serve_advance _ _ s rs); [done..|apply (ad_out _ _ _ _ Hadv)].
Qed.

(** The greeting goes out first and is counted. *)
Lemma greeting_ok s :
  covers (out s ++ GREETING) -> se_pending s = [] -> good s ->
  wp (send_greeting config) (fun _ s' => advance s 0 GREETING s' /\ se_pending s' = [] /\ good s') s.
Proof.
  intros Hc Hpend Hg. assert (out s = sent (se_writer s)) as Hout by (unfold out; by rewrite Hpend, app_nil_r).
  unfold send_greeting. apply wp_bind, (wp_write_all fallible acceptable Htransport); [by rewrite <- Hout|].
  intros w Hw. apply wp_bind, wp_count. apply (wp_flush_if_needed fallible acceptable Htransport).
  { cbn. by rewrite Hw, <- Hout. }
  intros w' Hw'. cbn in Hw'. split; [|split; [done|destruct Hg; by split]].
  split; unfold out, total_commands, total_bytes; cbn [se_writer se_pending se_stats se_published
    with_writer with_stats add_stats st_commands st_bytes_sent].
  - by rewrite Hw', Hw, Hpend, !app_nil_r.
  - lia.
  - lia.
Qed.

Lemma inner_ok commands ended reader s :
  let kinds := pc_kind <$> commands in
  commands_read (Nat.min (max_pipeline_depth config) MAX_SERVER_PIPELINE_DEPTH) reader commands ended ->
  fallible \/ completes kinds ended -> good s -> se_pending s = [] ->
  (forall k rs, answers (take k (served kinds)) rs -> covers (out s ++ GREETING ++ concat rs)) ->
  wp (serve_session_inner find_end config linux reader)
     (fun _ s' => (se_pending s' = [] /\ exists rs, answers (served kinds) rs
        /\ advance s (length rs) (GREETING ++ concat rs) s') /\ completes kinds ended) s.
Proof.
  intros kinds Hread Hends Hg Hpend Hc. unfold serve_session_inner. apply wp_bind.
  eapply wp_mono; [|apply greeting_ok; [|done|done]].
  2: { specialize (Hc 0%nat [] (Forall2_nil _)). cbn [concat] in Hc. by rewrite app_nil_r in Hc. }
  intros [] s1 (Hadv & Hpend1 & Hg1). eapply wp_mono; [|apply (loop_ok _ commands ended); try done].
  - intros [] s2 ((Hpend2 & rs & Ha & Hadv2) & Hend). split; [|done]. split; [done|]. exists rs. split; [done|].
    exact (advance_trans _ _ _ _ _ _ _ Hadv Hadv2).
  - lia.
  - intros k rs Ha. rewrite (ad_out _ _ _ _ Hadv), <- app_assoc. by apply (Hc k).
Qed.
End fixture.

(** ** Properties *)

Section properties.
Context {W : Type} `{Aw : !AsyncWrite W, As : !AsyncWriteSpec W}.
Context `{Sk : !ServerSocket W, Ss : !ServerSocketSpec W}.
Context `{Mc : !Memchr, Ms : !MemchrSpec, Fs : !FileSystem}.

Context (find_end : bytes -> option nat).
Context (encode_stream : nat -> nat -> bytes -> nat -> bytes -> bytes).

(** A server started without an article directory. *)
Record fixture_server (args : ServerArgs) (config : ServerConfig) : Prop := {
  fx_yenc : encodes_lines encode_stream;
  fx_dir : sa_article_dir args = None;
  fx_built : from_bound_args find_end encode_stream args = Some config;
}.

Lemma fixture_built args config :
  fixture_server args config ->
  config_ok config /\ article_dir config = None /\ article_index config = None.
Proof.
  intros [He Hd Hb]. split; [by eapply built_config_ok|]. revert Hb. unfold from_bound_args. rewrite Hd.
  destruct (match sa_payload_mode args with PayloadMode.Yenc => _ | PayloadMode.Plain => _ end).
  cbn [build_config_index mbind option_bind]. by intros [= <-].
Qed.

(** The connection delivers whole command lines, each within the limit. *)
Record connection (items : list Incoming) (reader : BufReader) : Prop := {
  cn_items : Forall incoming_ok items;
  cn_live : live reader;
  cn_pending : ServerReading.pending reader = concat (in_wire <$> items);
}.

(** How many commands the server reads into one batch. *)
Definition pipeline_depth (config : ServerConfig) : nat :=
  Nat.min (max_pipeline_depth config) MAX_SERVER_PIPELINE_DEPTH.

(** What a client may have received of the greeting and the replies. *)
Definition partial_session (kinds : list RequestKind.RequestKind) (before received : bytes) : Prop :=
  exists k replies, Forall2 reply_ok (take k kinds) replies
    /\ received `prefix_of` before ++ GREETING ++ concat replies.

Lemma session_runs args config linux commands ended reader (w : W) capacity clock fallible :
  let kinds := pc_kind <$> commands in
  fixture_server args config -> commands_read (pipeline_depth config) reader commands ended ->
  (forall n, time_ok (clock n)) -> fallible \/ reliable_socket (W := W) -> fallible \/ completes kinds ended ->
  wp fallible (partial_session (served kinds) (sent w))
    (serve_session_inner find_end config linux reader)
    (fun _ s' => (se_pending s' = [] /\ exists rs, answers (served kinds) rs
        /\ advance (session_new w capacity clock) (length rs) (GREETING ++ concat rs) s') /\ completes kinds ended)
    (session_new w capacity clock).
Proof.
  intros kinds Hfx Hread Ht Hf Hends. destruct (fixture_built _ _ Hfx) as (Hc & Hd & Hi).
  apply inner_ok; try done.
  intros k rs Ha part Hpart. exists k, rs. split; [exact Ha|].
  unfold out in Hpart. cbn [session_new se_writer se_pending] in Hpart.
  rewrite app_nil_r in Hpart. exact Hpart.
Qed.

(** What a session that came to its end sent and published. *)
Definition session_result (kinds : list RequestKind.RequestKind) (before : bytes) (s : Session W)
    (replies : list bytes) : Prop :=
  Forall2 reply_ok kinds replies
  /\ sent (se_writer s) = before ++ GREETING ++ concat replies
  /\ st_commands (se_published s) = Z.of_nat (length kinds)
  /\ st_bytes_sent (se_published s) = Z.of_nat (length (GREETING ++ concat replies)).

(** How a session ended, for the commands that can be read. *)
Definition session_outcome (commands : list ParsedCommand) (ended : bool) (before : bytes)
    (outcome : result unit Stop * Session W) : Prop :=
  let kinds := pc_kind <$> commands in
  match outcome with
  | (Ok _, s) => completes kinds ended /\ exists replies, session_result (served kinds) before s replies
  | (Err (StopIo _), s) => partial_session (served kinds) before (sent (se_writer s))
  | (Err StopPanic, _) => False
  end.

Lemma outcome_ok commands ended before outcome s :
  session_outcome commands ended before outcome -> outcome = (Ok tt, s) ->
  completes (pc_kind <$> commands) ended
  /\ exists replies, session_result (served (pc_kind <$> commands)) before s replies.
Proof. intros H ->. exact H. Qed.

Lemma session_verdict args config linux commands ended reader (w : W) capacity clock :
  fixture_server args config -> commands_read (pipeline_depth config) reader commands ended ->
  (forall n, time_ok (clock n)) ->
  session_outcome commands ended (sent w) (serve_session find_end config linux reader (session_new w capacity clock)).
Proof.
  intros Hs Hread Ht. unfold serve_session, session_outcome.
  pose proof (session_runs args config linux commands ended reader w capacity clock True Hs Hread Ht
      (or_introl I) (or_introl I)) as H. unfold wp in H.
  destruct (serve_session_inner _ _ _ _ _) as [[[]|[e|]] s]; [|exact (proj2 H)|done].
  destruct H as ((Hpend & rs & Ha & [H1 H2 H3]) & Hend). split; [done|]. exists rs. unfold session_result.
  cbn [snd publish_session_delta].
  cbn [se_writer se_published with_stats with_published add_stats st_commands st_bytes_sent].
  split; [exact Ha|]. unfold out, total_commands, total_bytes in *. rewrite Hpend, app_nil_r in H1.
  cbn [session_new se_writer se_pending se_published se_stats session_stats_default st_commands
    st_bytes_sent] in *. rewrite app_nil_r in H1. split; [exact H1|].
  pose proof (Forall2_length Ha) as Hlen. split; lia.
Qed.

(** Over a socket that does not fail the session comes to its end. *)
Lemma session_completes args config linux commands ended reader (w : W) capacity clock :
  fixture_server args config -> commands_read (pipeline_depth config) reader commands ended ->
  (forall n, time_ok (clock n)) -> reliable_socket (W := W) -> completes (pc_kind <$> commands) ended ->
  exists s, serve_session find_end config linux reader (session_new w capacity clock) = (Ok tt, s).
Proof.
  intros Hs Hread Ht Hr Hends. unfold serve_session.
  pose proof (session_runs args config linux commands ended reader w capacity clock False Hs Hread Ht
    (or_intror Hr) (or_intror Hends)) as H. unfold wp in H.
  destruct (serve_session_inner _ _ _ _ _) as [[[]|[e|]] s]; [by eexists|by destruct H|done].
Qed.

(** The commands of a connection of whole lines are those of the lines, and all
    of them are read. *)
Lemma connection_read items reader depth :
  (1 <= depth <= MAX_SERVER_PIPELINE_DEPTH)%nat -> connection items reader ->
  exists commands, commands_read depth reader commands true /\ pc_kind <$> commands = item_kind <$> items.
Proof.
  intros Hd. remember (length items) as n eqn:Hn. revert items reader Hn.
  induction n as [n IH] using lt_wf_ind. intros items reader -> [Hok Hl Hp].
  pose proof (read_batch_ok items reader depth ltac:(lia) Hok Hl Hp) as Hr. destruct items as [|i items].
  { destruct Hr as [r' Hr]. exists []. split; [by eapply input_ended|done]. }
  destruct Hr as (k & r' & Hk & Hki & Hr & Hl' & Hp'). set (all := i :: items) in *.
  assert (length (take k all) <= MAX_SERVER_PIPELINE_DEPTH)%nat as Hlen by (rewrite length_take; lia).
  destruct (batch_items (take k all) _ Hlen (batch_of_reads _ (Forall_take _ _ _ Hok) Hlen)) as [_ Hkinds].
  destruct (IH (length (drop k all))) with (items := drop k all) (reader := r') as (commands & Hread & Hrest);
    [rewrite length_drop; lia|done|split; [by apply Forall_drop|done|done]|].
  exists (ba_commands (batch_of empty_batch (take k all)) ++ commands). split; [by eapply batch_read|].
  by rewrite fmap_app, Hkinds, Hrest, <- fmap_app, take_drop.
Qed.

Lemma connection_served args config items reader :
  fixture_server args config -> connection items reader ->
  exists commands, commands_read (pipeline_depth config) reader commands true
    /\ pc_kind <$> commands = item_kind <$> items.
Proof.
  intros Hfx Hcn. apply connection_read; [|done]. destruct (fixture_built _ _ Hfx) as (Hc & _ & _).
  pose proof (co_depth config Hc). unfold pipeline_depth, MAX_SERVER_PIPELINE_DEPTH. lia.
Qed.

Lemma connection_commands args config items reader commands ended :
  fixture_server args config -> commands_read (pipeline_depth config) reader commands ended ->
  connection items reader -> pc_kind <$> commands = item_kind <$> items /\ ended = true.
Proof.
  intros Hs Hread (commands' & Hread' & <-)%(connection_served _ _ _ _ Hs).
  by destruct (commands_read_unique _ _ _ _ _ _ Hread Hread') as [-> ->].
Qed.

(** C4: Whatever the peer sends and however the connection delivers it, the
    server answers every command of the batches it could read with exactly one
    reply, in order, up to and including the first QUIT; a batch with an article
    that is malformed or cut is not one it could read.  Each reply is one whole
    response to its command, as the client's receiver judges it.  The session
    ends well only when the client is gone or said QUIT, and then the counters
    published are those of the session; when a read or a write fails, what was
    sent is a part of the greeting and such replies from its start; it never
    panics while the clock is within the calendar; over a transport that does
    not fail, and with no failing read before QUIT, the session ends well.  Of a
    connection that delivers whole lines within the limit, none of them POST or
    IHAVE and each TAKETHIS with its article, the commands are those lines. *)
Theorem session_answers_every_command (args : ServerArgs) (config : ServerConfig)
    (linux : bool) (reader : BufReader) (w : W) (capacity : nat) (clock : nat -> Z) :
  fixture_server args config -> (forall n, time_ok (clock n)) ->
  exists commands ended, commands_read (pipeline_depth config) reader commands ended
  /\ session_outcome commands ended (sent w)
       (serve_session find_end config linux reader (session_new w capacity clock))
  /\ (reliable_socket (W := W) -> completes (pc_kind <$> commands) ended ->
       exists s, serve_session find_end config linux reader (session_new w capacity clock) = (Ok tt, s))
  /\ forall items, connection items reader ->
       pc_kind <$> commands = item_kind <$> items /\ ended = true.
Proof.
  intros Hs Ht. destruct (commands_read_total (pipeline_depth config) reader) as (commands & ended & Hread).
  exists commands, ended. split; [done|]. split; [by eapply session_verdict|].
  split; [intros Hr Hends; by eapply session_completes|].
  intros items Hcn. by eapply connection_commands.
Qed.

End properties.
