(* ===== verification/FixtureClient.v ===== *)
(** * A client at the fixture server

    The two ends of a connection put together: what a session of the fixture
    server sends is what the client's buffered receiver takes apart again, one
    response for each command, however the transport cuts the bytes. *)
From S2P Require Import Prelude Memchr Terminator Kinds OwnedResponse ResponseReceiver ClientWire.
From S2P Require Import ServerDates ServerResponses ServerCommands ServerReading ServerIndex ServerPayload ServerSession.
From S2P Require Import ServerReplies SessionLogic FixtureSession.

Local Open Scope Z_scope.
Local Open Scope rust_scope.

Section ends.
Context {W : Type} `{Aw : !AsyncWrite W, As : !AsyncWriteSpec W}.
Context `{Sk : !ServerSocket W, Ss : !ServerSocketSpec W}.
Context `{Mc : !Memchr, Ms : !MemchrSpec, Fs : !FileSystem}.
Context (find_end : bytes -> option nat).
Context (encode_stream : nat -> nat -> bytes -> nat -> bytes -> bytes).

(** Whole replies and the responses the client makes of them. *)
Lemma replies_expected kinds replies :
  Forall2 reply_ok kinds replies ->
  exists expected : list (RequestKind.RequestKind * bytes * OwnedResponse),
    Forall (fun x => whole_response (Mc := naive_memchr) (IoError := IoError) (fst (fst x)) (snd (fst x)) (snd x)) expected
    /\ (fun x => fst (fst x)) <$> expected = kinds /\ (fun x => snd (fst x)) <$> expected = replies.
Proof.
  induction 1 as [|kind reply kinds replies [r Hr] _ (expected & Hex & <- & <-)].
  - exists []. split; [constructor|done].
  - exists ((kind, reply, r) :: expected). split; [apply List.Forall_cons; [exact Hr|done]|done].
Qed.

(** C8: End to end, for a session that ended well, whatever the peer sent: a
    client that reads the greeting and then one response for each command the
    server read, up to the first QUIT, gets a response to each, whatever the
    deliveries of the connection, and nothing is left over; the bytes of the
    responses are what the server sent.  The commands read are those of the
    batches of the input, all of them when no read failed; of a connection that
    delivers whole lines within the limit, none of them POST or IHAVE and each
    TAKETHIS with its article, they are the commands sent. *)
Theorem client_reads_every_reply (receiver_find_end : bytes -> option nat)
    `{Hfe : !TerminatorFinder receiver_find_end} (args : ServerArgs) (config : ServerConfig)
    (linux : bool) (reader : BufReader) (w : W) (capacity : nat) (clock : nat -> Z) (s : Session W) :
  fixture_server find_end encode_stream args config -> (forall n, time_ok (clock n)) ->
  serve_session find_end config linux reader (session_new w capacity clock) = (Ok tt, s) ->
  exists commands ended, commands_read (pipeline_depth config) reader commands ended
  /\ completes (pc_kind <$> commands) ended
  /\ (forall items, connection items reader -> pc_kind <$> commands = item_kind <$> items /\ ended = true)
  /\ forall (chunks : list bytes) (tail : list (ReadEvent IoError)),
       sent (se_writer s) = sent w ++ GREETING ++ concat chunks ->
       Forall (fun c => c <> []) chunks -> stream_ends tail ->
       exists responses receiver,
         receive_each (Mc := naive_memchr) receiver_find_end
           (receiver_new (ResponseReceiver.reader_of chunks tail)) (served (pc_kind <$> commands))
           = Some (receiver, Ok <$> responses)
         /\ br_state receiver = Ready /\ br_pending receiver = []
         /\ concat (response_as_bytes <$> responses) = concat chunks.
Proof.
  intros Hs Ht Hrun. destruct (commands_read_total (pipeline_depth config) reader) as (commands & ended & Hread).
  pose proof (session_verdict find_end encode_stream args config linux commands ended reader w capacity clock Hs Hread Ht) as Hv.
  rewrite Hrun in Hv. destruct Hv as [Hends (replies & Hr & Hout & _)].
  exists commands, ended. split; [done|]. split; [done|]. split; [intros items Hcn; by eapply connection_commands|].
  intros chunks tail Hsent Hne Hend. rewrite Hsent in Hout. apply app_inv_head, app_inv_head in Hout.
  destruct (replies_expected _ _ Hr) as (expected & Hex & <- & Hreplies).
  destruct (receive_each_runs receiver_find_end expected chunks tail
    (receiver_new (ResponseReceiver.reader_of chunks tail)) Hex eq_refl eq_refl Hne Hend)
    as (receiver & Hrec & Hst & Hpd).
  { by rewrite Hreplies. }
  exists (snd <$> expected), receiver. rewrite Hrec, <- list_fmap_compose. split; [done|].
  split; [done|]. split; [done|]. rewrite Hout, <- Hreplies. f_equal. rewrite <- list_fmap_compose.
  apply list_fmap_ext. intros i x Hx. rewrite Forall_lookup in Hex.
  exact (proj1 (whole_response_bytes _ _ _ (Hex i x Hx))).
Qed.
End ends.
