(* ===== verification/FixtureSamples.v ===== *)
(** * A session of the fixture server, run

    A small server without a store, a socket that collects what is written to
    it, and a connection of seven commands in three deliveries: the theorems on
    sessions at this run. *)
From S2P Require Import Prelude Memchr Terminator Kinds OwnedResponse ResponseReceiver ClientWire ServerDates.
From S2P Require Import ServerResponses ServerCommands ServerReading ServerIndex ServerPayload ArticleStore.
From S2P Require Import ServerSession ServerReplies SessionLogic FixtureSession FixtureClient.

Local Open Scope Z_scope.
Local Open Scope rust_scope.

(** The sink as a socket: flushing and corking do nothing. *)
#[export] Instance vec_sink_socket : ServerSocket VecSink := {
  socket_flush w := (Ok tt, w);
  set_tcp_cork _ w := (Ok tt, w);
}.

#[export] Instance vec_sink_socket_spec : ServerSocketSpec VecSink.
Proof. split; [intros w r w' [= _ <-]|intros on w r w' [= _ <-]]; reflexivity. Qed.

Lemma vec_sink_reliable_socket : reliable_socket (W := VecSink).
Proof. split; [exact _|intros w; by exists w|intros on w; by exists w]. Qed.

(** A file system in which nothing can be opened. *)
#[export] Instance no_files : FileSystem := {
  file_open _ := Err {| io_kind := ErrorKind.NotFound; io_message := [] |};
  walk _ := Err {| io_kind := ErrorKind.NotFound; io_message := [] |};
}.

Definition no_yenc (first last : nat) (data : bytes) (size : nat) (name : bytes) : bytes := [].

Lemma no_yenc_lines : encodes_lines no_yenc.
Proof. intros first last data size name. exact block_text_nil. Qed.

Definition sample_args : ServerArgs :=
  {| sa_body_bytes := 30; sa_article_bytes := 120; sa_payload_mode := PayloadMode.Plain;
     sa_article_dir := None; sa_max_pipeline_depth := 4; sa_flush := true;
     sa_pending_write_bytes := 256 |}.

Definition sample_config : ServerConfig :=
  default {| body_bytes := 0; article_bytes := 0; payload_mode := PayloadMode.Plain;
             body_payload := []; body_response := []; article_response := []; article_payload := [];
             article_dir := None; article_index := None; max_pipeline_depth := 1;
             flush_after_batch := false; pending_write_bytes := 1 |}
    (from_bound_args find_streaming_terminator_end no_yenc sample_args).

Lemma sample_fixture_server :
  fixture_server find_streaming_terminator_end no_yenc sample_args sample_config.
Proof. split; [exact no_yenc_lines|reflexivity|vm_compute; reflexivity]. Qed.

(** The last command comes after QUIT, and is not answered. *)
Definition sample_commands : list Incoming :=
  [{| in_line := lit "GROUP alt.test"; in_body := None |};
   {| in_line := lit "ARTICLE <a@b>"; in_body := None |};
   {| in_line := lit "ARTICLE <missing@b>"; in_body := None |};
   {| in_line := lit "STAT 77"; in_body := None |};
   {| in_line := lit "NONSENSE"; in_body := None |};
   {| in_line := lit "QUIT"; in_body := None |};
   {| in_line := lit "DATE"; in_body := None |}].

Definition sample_connection : BufReader :=
  let input := concat (in_wire <$> sample_commands) in
  ServerReading.reader_of [take 20 input; take 30 (drop 20 input); drop 50 input].

Lemma sample_connection_ok : connection sample_commands sample_connection.
Proof.
  split.
  - repeat apply List.Forall_cons; [..|constructor]; split; cbn [in_line in_body];
      try (apply Nat.leb_le; vm_compute; reflexivity); try (by repeat constructor);
      split; (vm_compute; reflexivity) || by repeat constructor.
  - repeat constructor; by eexists.
  - vm_compute; reflexivity.
Qed.

Definition sample_clock (n : nat) : Z := 1700000000 + Z.of_nat (Nat.min n 9).

Lemma sample_clock_ok n : time_ok (sample_clock n).
Proof. unfold time_ok, sample_clock, DAY_10000. lia. Qed.

Definition sample_served : list RequestKind.RequestKind :=
  [RequestKind.Group; RequestKind.Article; RequestKind.Article; RequestKind.Stat;
   RequestKind.Unknown; RequestKind.Quit].

Lemma sample_served_commands : served (item_kind <$> sample_commands) = sample_served.
Proof. vm_compute. reflexivity. Qed.

Local Abbreviation sample_session :=
  (serve_session find_streaming_terminator_end sample_config true sample_connection
    (session_new {| vs_buf := [] |} 256 sample_clock)).

(** What the client gets: the article is cut in two, the rest comes as one. *)
Definition sample_replies : list bytes :=
  let replies := drop (length GREETING) (vs_buf (se_writer (snd sample_session))) in
  [take 60 replies; drop 60 replies].

Lemma sample_session_ends : sample_session = (Ok tt, snd sample_session).
Proof.
  rewrite (surjective_pairing sample_session) at 1. by f_equal.
Qed.

Lemma sample_session_sent :
  sent (se_writer (snd sample_session))
  = sent {| vs_buf := [] |} ++ GREETING ++ concat sample_replies.
Proof. vm_compute. reflexivity. Qed.

Lemma session_answers_every_command_witness :
  fst sample_session = Ok tt
  /\ exists replies,
    Forall2 reply_ok sample_served replies
    /\ vs_buf (se_writer (snd sample_session)) = GREETING ++ concat replies
    /\ st_commands (se_published (snd sample_session)) = 6.
Proof.
  pose proof (session_answers_every_command find_streaming_terminator_end no_yenc
    sample_args sample_config true sample_connection {| vs_buf := [] |} 256
    sample_clock sample_fixture_server sample_clock_ok) as (commands & ended & _ & Hrun & Hend & Hitems).
  destruct (Hitems sample_commands sample_connection_ok) as [Hkinds Hended].
  destruct (Hend vec_sink_reliable_socket (or_introl Hended)) as [s Hs].
  destruct (outcome_ok _ _ _ _ _ Hrun Hs) as (_ & replies & Hr & Hout & Hn & _).
  rewrite Hkinds, sample_served_commands in Hr, Hn. clear Hrun Hend Hitems. revert Hs Hout Hn. generalize sample_session.
  intros outcome -> Hout Hn. change (sent {| vs_buf := [] |}) with (@nil Z) in Hout. rewrite app_nil_l in Hout. split; [reflexivity|]. exists replies. split; [exact Hr|]. split; [exact Hout|exact Hn].
Defined.

Lemma client_reads_every_reply_witness :
  exists responses (receiver : BufferedResponseReceiver IoError),
    receive_each (Mc := naive_memchr) find_streaming_terminator_end
      (receiver_new (ResponseReceiver.reader_of sample_replies [])) sample_served
      = Some (receiver, Ok <$> responses)
    /\ br_state receiver = Ready /\ br_pending receiver = []
    /\ concat (response_as_bytes <$> responses) = concat sample_replies.
Proof.
  destruct (client_reads_every_reply find_streaming_terminator_end no_yenc
    find_streaming_terminator_end sample_args sample_config true
    sample_connection {| vs_buf := [] |} 256 sample_clock (snd sample_session)
    sample_fixture_server sample_clock_ok sample_session_ends) as (commands & ended & _ & _ & Hitems & Hall).
  destruct (Hitems sample_commands sample_connection_ok) as [Hkinds _].
  rewrite Hkinds, sample_served_commands in Hall. apply (Hall sample_replies []).
  - exact sample_session_sent.
  - repeat constructor; vm_compute; discriminate.
  - exact I.
Defined.

(** POST announces an article, and a line with a colon after it is taken for the
    start of one: of this input the server reads the POST, its article and QUIT. *)
Lemma posted_article_session :
  let input := lit "POST" ++ CRLF ++ lit "Subject: x" ++ CRLF ++ CRLF ++ lit "text" ++ CRLF ++ lit "." ++ CRLF
               ++ lit "QUIT" ++ CRLF in
  exists commands, commands_read (pipeline_depth sample_config) (reader_of [input]) commands true
    /\ pc_kind <$> commands = [RequestKind.Post; RequestKind.Quit].
Proof.
  eexists. split.
  - eapply batch_read; [vm_compute; reflexivity|]. eapply input_ended. vm_compute. reflexivity.
  - reflexivity.
Qed.

(** * A server with an article store, run *)

Definition stored_article (number : bytes) (id group subject : bytes) : bytes :=
  lit "220 " ++ number ++ lit " " ++ id ++ CRLF
  ++ lit "From: u@x" ++ CRLF
  ++ lit "Newsgroups: " ++ group ++ CRLF
  ++ lit "Subject: " ++ subject ++ CRLF
  ++ lit "Date: Fri, 16 May 2025 12:00:00 +0000" ++ CRLF
  ++ lit "Message-ID: " ++ id ++ CRLF
  ++ CRLF ++ lit "text" ++ CRLF ++ lit "." ++ CRLF.

Definition article_7 : bytes := stored_article (lit "7") (lit "<seven@x>") (lit "misc.a") (lit "first").
Definition article_9 : bytes := stored_article (lit "9") (lit "<nine@x>") (lit "misc.a,misc.b") (lit "second").

Definition store_root : path := [lit "store"].

(** Where the files of the store are. *)
Definition is_path (key : ArticleStoreKey.ArticleStoreKey) (p : list bytes) : bool :=
  match key_path store_root key with
  | Some (Ok q) => bool_decide ((q : list bytes) = p)
  | _ => false
  end.

Definition stored_at (p : path) (number : Z) (id : bytes) : bool :=
  is_path (ArticleStoreKey.Number number) p || is_path (ArticleStoreKey.MessageId id) p.

#[local] Instance store_files : FileSystem := {|
  file_open p :=
    if stored_at p 7 (lit "<seven@x>") then Ok {| file_reads := [Ok article_7] |}
    else if stored_at p 9 (lit "<nine@x>") then Ok {| file_reads := [Ok article_9] |}
    else Err {| io_kind := ErrorKind.NotFound; io_message := [] |};
  walk p := Ok (Directory [(lit "7", ServerIndex.File article_7); (lit "9", ServerIndex.File article_9)]);
|}.

Definition store_args : ServerArgs :=
  {| sa_body_bytes := 30; sa_article_bytes := 120; sa_payload_mode := PayloadMode.Plain;
     sa_article_dir := Some store_root; sa_max_pipeline_depth := 4; sa_flush := true;
     sa_pending_write_bytes := 256 |}.

Definition store_config : ServerConfig :=
  default sample_config (from_bound_args find_streaming_terminator_end no_yenc store_args).

(** What a session sends after the greeting, and how it ends. *)
Definition dialog (config : ServerConfig) (commands : list bytes) : bytes * result unit Stop :=
  let '(r, s) :=
    serve_session find_streaming_terminator_end config true
      (reader_of [concat ((fun line => line ++ CRLF) <$> commands)])
      (session_new {| vs_buf := [] |} 256 sample_clock) in
  (drop (length GREETING) (vs_buf (se_writer s)), r).

Definition lines (l : list bytes) : bytes := concat ((fun line => line ++ CRLF) <$> l).

(** A store read the way it is meant: the group, its articles, one of them by
    number, by message-id and by overview. *)
Lemma store_dialog :
  dialog store_config
    [lit "GROUP misc.a"; lit "NEXT"; lit "NEXT"; lit "HEAD"; lit "BODY <seven@x>"; lit "OVER 7-9";
     lit "QUIT"]
  = (lines [lit "211 2 7 9 misc.a";
            lit "223 9 <nine@x> article retrieved - request text separately";
            lit "421 no next article in this group";
            lit "221 9 <nine@x> article retrieved"; lit "From: u@x"; lit "Newsgroups: misc.a,misc.b";
            lit "Subject: second"; lit "Date: Fri, 16 May 2025 12:00:00 +0000";
            lit "Message-ID: <nine@x>"; lit ".";
            lit "222 7 <seven@x> body follows"; lit "text"; lit ".";
            lit "224 Overview information follows";
            bstr "7\tfirst\tu@x\tFri, 16 May 2025 12:00:00 +0000\t<seven@x>\t\t117\t1";
            bstr "9\tsecond\tu@x\tFri, 16 May 2025 12:00:00 +0000\t<nine@x>\t\t124\t1"; lit ".";
            lit "205 closing connection"],
     Ok tt).
Proof. vm_compute. reflexivity. Qed.

(** ** Edges *)

(** [format_active_group_response_into] appends to a buffer no one clears: the
    second listing of a session repeats the first. *)
Lemma second_listing_repeats_the_first :
  dialog store_config [lit "LIST ACTIVE misc.a"; lit "LIST ACTIVE misc.b"]
  = (lines [lit "215 list of newsgroups follows"; lit "misc.a 9 7 y"; lit ".";
            lit "215 list of newsgroups follows"; lit "misc.a 9 7 y"; lit ".";
            lit "215 list of newsgroups follows"; lit "misc.b 9 9 y"; lit "."],
     Ok tt).
Proof. vm_compute. reflexivity. Qed.

(** LISTGROUP of a group of the store is refused, though GROUP knows it. *)
Lemma listgroup_refuses_stored_groups :
  dialog store_config [lit "LISTGROUP misc.a"; lit "GROUP misc.a"; lit "LISTGROUP"]
  = (lines [lit "411 no such newsgroup"; lit "211 2 7 9 misc.a"; lit "211 2 7 9 misc.a"; lit "7";
            lit "9"; lit "."],
     Ok tt).
Proof. vm_compute. reflexivity. Qed.

(** A fixture group stays selectable on a server with a store; moving in it ends
    the session with an error, and the replies not yet written are lost. *)
Lemma fixture_group_on_a_store :
  dialog store_config [lit "GROUP alt.test"; lit "NEXT"; lit "DATE"]
  = ([], Err (StopIo {| io_kind := ErrorKind.NotFound;
                        io_message := lit "navigation article not found in article store index" |})).
Proof. vm_compute. reflexivity. Qed.

(** The parser strips white space at the end of a command, the lookup of its
    arguments does not. *)
Lemma trailing_space_group :
  dialog sample_config [lit "GROUP alt.test "; lit "GROUP alt.test"]
  = (lines [lit "411 no such newsgroup"; lit "211 3 1 3 alt.test"], Ok tt).
Proof. vm_compute. reflexivity. Qed.

(** STAT refuses a message-id that contains "missing", ARTICLE serves it: the
    check of [article_selector_error] is for commands without their lines. *)
Lemma missing_article_served :
  dialog sample_config [lit "STAT <missing@x>"] = (lines [lit "430 no article with that message-id"], Ok tt)
  /\ starts_with (fst (dialog sample_config [lit "ARTICLE <missing@x>"])) (lit "220 0 <missing@x> ") = true.
Proof. split; vm_compute; reflexivity. Qed.

(** Ranges of the fixture overview: an open range from the last article gives
    the first one, HDR leaves out the first, LISTGROUP lists the whole group. *)
Lemma fixture_ranges :
  dialog sample_config [lit "GROUP alt.test"; lit "HDR :lines 3-"; lit "HDR :lines 1-3"; lit "LISTGROUP alt.test 3-3"]
  = (lines [lit "211 3 1 3 alt.test";
            lit "225 headers follow"; lit "1 4"; lit "2 8"; lit ".";
            lit "225 headers follow"; lit "2 8"; lit "3 12"; lit ".";
            lit "211 3 1 3 alt.test"; lit "1"; lit "2"; lit "3"; lit "."],
     Ok tt).
Proof. vm_compute. reflexivity. Qed.

(** An hour of seven digits overflows [hour * 3600]: one such article in the
    store, and the server panics while it builds its index. *)
Lemma date_hour_overflow :
  build_index find_streaming_terminator_end
    (Directory [(lit "1", ServerIndex.File (lit "220 1 <a@x>" ++ CRLF
       ++ lit "Date: Fri, 16 May 2025 9999999:00:00 +0000" ++ CRLF ++ CRLF ++ lit "." ++ CRLF))])
  = None.
Proof. vm_compute. reflexivity. Qed.
