(* ===== verification/Float64.v ===== *)
(** * 64-bit floating-point numbers

    The [f64] operations of the load generator, over the IEEE 754 values and the
    correctly rounded operations of the standard library's [SpecFloat], and the
    conversion of seconds to a [Duration]. *)
From Stdlib Require Import Floats.SpecFloat.
From S2P Require Import Prelude.

Local Open Scope Z_scope.

Abbreviation f64 := spec_float.

Definition f64_mul : f64 -> f64 -> f64 := SFmul 53 1024.
Definition f64_div : f64 -> f64 -> f64 := SFdiv 53 1024.
Definition f64_add : f64 -> f64 -> f64 := SFadd 53 1024.
Definition f64_le : f64 -> f64 -> bool := SFleb.
Definition f64_lt : f64 -> f64 -> bool := SFltb.

(** [n as f64], rounded to the nearest. *)
Definition f64_of_int (n : Z) : f64 := binary_normalize 53 1024 n 0 false.

Definition f64_is_finite (x : f64) : bool :=
  match x with S754_zero _ | S754_finite _ _ _ => true | _ => false end.

(** The value of a finite number is [signed m * 2 ^ e]. *)
Definition signed (s : bool) (m : positive) : Z := if s then Zneg m else Zpos m.

Definition f64_ceil (x : f64) : f64 :=
  match x with
  | S754_finite s m e =>
      if 0 <=? e then x
      else binary_normalize 53 1024 (- (- signed s m / 2 ^ (- e))) 0 s
  | _ => x
  end.

(** [f64::max]: a NaN gives way to the other number. *)
Definition f64_max (x y : f64) : f64 :=
  match x, y with
  | S754_nan, _ => y
  | _, S754_nan => x
  | _, _ => if f64_lt x y then y else x
  end.

(** [x as u64]: towards zero, saturating. *)
Definition f64_as_u64 (x : f64) : Z :=
  match x with
  | S754_zero _ | S754_nan => 0
  | S754_infinity s => if s then 0 else u64_max
  | S754_finite s m e =>
      if s then 0
      else Z.min u64_max (if 0 <=? e then Zpos m * 2 ^ e else Zpos m / 2 ^ (- e))
  end.

(** ** Durations *)

(** A [Duration] is its nanoseconds: a [u64] of seconds and the rest. *)
Definition NANOS_PER_SEC : Z := 1000000000.
Definition DURATION_MAX : Z := u64_max * NANOS_PER_SEC + 999999999.

Definition as_secs_f64 (duration : Z) : f64 :=
  f64_add (f64_of_int (duration / NANOS_PER_SEC))
          (f64_div (f64_of_int (duration mod NANOS_PER_SEC)) (f64_of_int NANOS_PER_SEC)).

(** The integer nearest to [n / d], the even one of two. *)
Definition round_half_even (n d : Z) : Z :=
  let q := n / d in
  let r := n mod d in
  if (d <? 2 * r) || ((2 * r =? d) && Z.odd q) then q + 1 else q.

(** [Duration::from_secs_f64]; [None] is its panic. *)
Definition duration_from_secs_f64 (secs : f64) : option Z :=
  match secs with
  | S754_zero _ => Some 0
  | S754_finite false m e =>
      let nanos :=
        if 0 <=? e then Zpos m * 2 ^ e * NANOS_PER_SEC
        else round_half_even (Zpos m * NANOS_PER_SEC) (2 ^ (- e)) in
      if nanos <=? DURATION_MAX then Some nanos else None
  | _ => None
  end.

Lemma round_half_even_near n d : 0 < d -> Z.abs (2 * d * round_half_even n d - 2 * n) <= d.
Proof.
  intros Hd. unfold round_half_even. pose proof (Z.div_mod n d ltac:(lia)) as E.
  pose proof (Z.mod_pos_bound n d Hd) as Hr. set (q := n / d) in *. set (r := n mod d) in *.
  destruct (d <? 2 * r) eqn:E1; cbn [orb]; [nia|].
  destruct (2 * r =? d) eqn:E2; cbn [andb]; [destruct (Z.odd q); nia|nia].
Qed.

Lemma duration_from_secs_range secs d : duration_from_secs_f64 secs = Some d -> 0 <= d <= DURATION_MAX.
Proof.
  unfold duration_from_secs_f64, DURATION_MAX, u64_max, NANOS_PER_SEC.
  destruct secs as [s|s| |s m e]; try done; [by intros [= <-]; lia|]. destruct s; [done|].
  case_match eqn:Hle; [|done]. apply Z.leb_le in Hle. intros [= <-]. split; [|done].
  destruct (0 <=? e) eqn:He; [pose proof (Z.pow_nonneg 2 e); lia|]. apply Z.leb_gt in He.
  assert (0 <= Z.pos m * 1000000000 / 2 ^ (- e)) by (apply Z.div_pos; [lia|apply Z.pow_pos_nonneg; lia]).
  unfold round_half_even. case_match; lia.
Qed.

(** * Bounds of the rounding *)

(** [m * 2 ^ e] is below [2 ^ k]. *)
Definition below (m e k : Z) : Prop := 0 <= m /\ e <= k /\ m < 2 ^ (k - e).

Definition fits (k : Z) (x : f64) : Prop :=
  match x with
  | S754_zero _ => True
  | S754_finite _ m e => below (Zpos m) e k
  | _ => False
  end.

Lemma fits_finite k x : fits k x -> f64_is_finite x = true.
Proof. by destruct x. Qed.

Lemma below_weaken m e k l : below m e k -> k <= l -> below m e l.
Proof.
  intros (Hm & He & Hb) Hl. split; [done|]. split; [lia|]. eapply Z.lt_le_trans; [exact Hb|].
  apply Z.pow_le_mono_r; lia.
Qed.

Lemma fits_le k l x : fits k x -> k <= l -> fits l x.
Proof. destruct x; try done. cbn. apply below_weaken. Qed.

Lemma digits2_pos_log2 p : Zpos (digits2_pos p) = Z.log2 (Zpos p) + 1.
Proof.
  induction p as [p IH|p IH|]; [| |done]; cbn [digits2_pos]; rewrite Pos2Z.inj_succ, IH.
  - rewrite (Pos2Z.inj_xI p), Z.log2_succ_double by lia. lia.
  - rewrite (Pos2Z.inj_xO p), Z.log2_double by lia. lia.
Qed.

(** The digits of a number below a power. *)
Lemma digits_below m e k : below m e k -> 0 < m -> Zdigits2 m + e <= k.
Proof.
  intros (_ & He & Hb) Hm. destruct m as [|p|p]; [lia| |lia]. cbn [Zdigits2]. rewrite digits2_pos_log2.
  apply Z.log2_lt_pow2 in Hb; lia.
Qed.

(** ** Shifts *)

Lemma iter_pos_eq {A} (f : A -> A) n x : SpecFloat.iter_pos f n x = Pos.iter f x n.
Proof.
  revert x. induction n as [n IH|n IH|]; intros x; cbn [SpecFloat.iter_pos Pos.iter]; rewrite ?IH; [|done|done].
  by rewrite <- !Pos.iter_swap.
Qed.

Lemma shr_1_half mrs : 0 <= shr_m mrs -> shr_m (shr_1 mrs) = shr_m mrs / 2.
Proof.
  destruct mrs as [m r s]. cbn [shr_m shr_1]. intros Hm. rewrite <- Z.div2_div.
  by destruct m as [|[]|].
Qed.

Lemma shr_div mrs e n : 0 <= shr_m mrs -> shr_m (fst (shr mrs e n)) = shr_m mrs / 2 ^ Z.max 0 n /\ snd (shr mrs e n) = e + Z.max 0 n.
Proof.
  intros Hm. destruct n as [|p|p]; cbn [shr fst snd].
  - rewrite Z.max_id. change (2 ^ 0) with 1. rewrite Z.div_1_r. split; [done|lia].
  - rewrite Z.max_r by lia. split; [|done]. rewrite iter_pos_eq.
    assert (forall q, 0 <= shr_m (Pos.iter shr_1 mrs q) /\ shr_m (Pos.iter shr_1 mrs q) = shr_m mrs / 2 ^ Zpos q) as H.
    { induction q as [|q [IH0 IH]] using Pos.peano_ind.
      - cbn [Pos.iter]. rewrite shr_1_half by done. change (2 ^ 1) with 2. split; [apply Z.div_pos; lia|done].
      - rewrite Pos.iter_succ, shr_1_half by done. rewrite IH. split; [apply Z.div_pos; [|lia]; by rewrite <- IH|].
        rewrite Z.div_div by lia. f_equal. rewrite Pos2Z.inj_succ, Z.pow_succ_r by lia. lia. }
    apply H.
  - rewrite Z.max_l by lia. change (2 ^ 0) with 1. rewrite Z.div_1_r. split; [done|lia].
Qed.

Lemma below_shift m e k n : below m e k -> 0 <= n -> e + n <= k -> below (m / 2 ^ n) (e + n) k.
Proof.
  intros (Hm & He & Hb) Hn Hk. split; [apply Z.div_pos; lia|]. split; [done|].
  apply Z.div_lt_upper_bound; [lia|]. rewrite <- Z.pow_add_r by lia. by replace (n + (k - (e + n))) with (k - e) by lia.
Qed.

Lemma below_succ m e k : below m e k -> below (m + 1) e (k + 1).
Proof.
  intros (Hm & He & Hb). split; [lia|]. split; [lia|]. replace (k + 1 - e) with (Z.succ (k - e)) by lia.
  rewrite Z.pow_succ_r by lia. lia.
Qed.

Lemma shr_record_m m l : shr_m (shr_record_of_loc m l) = m.
Proof. by destruct l as [|[]]. Qed.

(** The exponent a rounding aims at. *)
Lemma shr_fexp_below m e l k mrs e' :
  below m e k -> -1074 <= k -> shr_fexp 53 1024 m e l = (mrs, e') ->
  below (shr_m mrs) e' k /\ e <= e' <= Z.max e (Z.max (k - 53) (-1074)).
Proof.
  intros Hb Hk. unfold shr_fexp. set (n := fexp 53 1024 (Zdigits2 m + e) - e). intros E.
  destruct (shr_div (shr_record_of_loc m l) e n) as [Hm He]; [rewrite shr_record_m; apply Hb|].
  rewrite E, shr_record_m in Hm. rewrite E in He. cbn [fst snd] in *. subst e'. rewrite Hm.
  assert (e + Z.max 0 n <= Z.max e (Z.max (k - 53) (-1074))) as Hle.
  { unfold n, fexp, emin. destruct (Z.eq_dec m 0) as [->|Hne].
    - cbn [Zdigits2]. destruct Hb as (_ & He & _). lia.
    - assert (Zdigits2 m + e <= k) by (apply digits_below; [done|destruct Hb; lia]). lia. }
  split; [|lia]. apply below_shift; [done|lia|]. destruct Hb as (_ & He & _). lia.
Qed.

Lemma round_below m e k l : below m e k -> below (round_nearest_even m l) e (k + 1).
Proof.
  intros Hb. unfold round_nearest_even. destruct l as [|[]]; try (by apply below_succ); try (eapply below_weaken; [done|lia]).
  destruct (Z.even m); [eapply below_weaken; [done|lia]|by apply below_succ].
Qed.

Lemma round_aux_fits s m e l k :
  below m e k -> -1074 <= k <= 970 -> fits (k + 1) (binary_round_aux 53 1024 s m e l).
Proof.
  intros Hb Hk. unfold binary_round_aux. destruct (shr_fexp 53 1024 m e l) as [mrs e'] eqn:E1.
  apply (shr_fexp_below _ _ _ k) in E1 as [H1 He1]; [|done|lia].
  destruct (shr_fexp 53 1024 _ e' loc_Exact) as [mrs' e''] eqn:E2.
  apply (shr_fexp_below _ _ _ (k + 1)) in E2 as [H2 He2]; [|by apply round_below|lia].
  destruct Hb as (_ & He & _). destruct (shr_m mrs') as [|p|p] eqn:Em; [done| |destruct H2; lia].
  rewrite (proj2 (Z.leb_le e'' (1024 - 53))) by lia. exact H2.
Qed.

(** Aligning to a smaller exponent keeps the value. *)
Lemma shl_align_eq m e e' :
  exists m', shl_align m e e' = (m', Z.min e e') /\ Zpos m' = Zpos m * 2 ^ (e - Z.min e e').
Proof.
  unfold shl_align. destruct (e' - e) as [|d|d] eqn:E.
  - exists m. rewrite Z.min_l by lia. split; [done|]. rewrite Z.sub_diag. change (2 ^ 0) with 1. lia.
  - exists m. rewrite Z.min_l by lia. split; [done|]. rewrite Z.sub_diag. change (2 ^ 0) with 1. lia.
  - exists (Pos.iter xO m d). rewrite Z.min_r by lia. split; [done|]. replace (e - e') with (Zpos d) by lia.
    clear E. induction d as [|d IH] using Pos.peano_ind; [cbn [Pos.iter]; lia|].
    rewrite Pos.iter_succ, Pos2Z.inj_xO, IH, Pos2Z.inj_succ, Z.pow_succ_r by lia. lia.
Qed.

Lemma below_align m e e' k : below m e k -> e' <= e -> below (m * 2 ^ (e - e')) e' k.
Proof.
  intros (Hm & He & Hb) Hle. split; [nia|]. split; [lia|]. replace (k - e') with ((k - e) + (e - e')) by lia.
  rewrite Z.pow_add_r by lia. apply Z.mul_lt_mono_pos_r; lia.
Qed.

Lemma normalize_fits m e z k :
  below (Z.abs m) e k -> -1074 <= k <= 970 -> fits (k + 1) (binary_normalize 53 1024 m e z).
Proof.
  intros Hb Hk. destruct m as [|p|p]; [done|..]; cbn [binary_normalize Z.abs] in *; unfold binary_round.
  all: destruct (shl_align_eq p e (fexp 53 1024 (Zpos (digits2_pos p) + e))) as (p' & -> & Hp');
    apply round_aux_fits; [|done]; rewrite Hp'; apply below_align; [done|lia].
Qed.

Lemma f64_of_int_fits n k : 0 <= n < 2 ^ k -> 0 <= k <= 970 -> fits (k + 1) (f64_of_int n).
Proof.
  intros Hn Hk. apply normalize_fits; [|lia]. rewrite Z.abs_eq by lia. split; [lia|]. split; [lia|].
  rewrite Z.sub_0_r. apply Hn.
Qed.

Lemma f64_add_fits x y k : fits k x -> fits k y -> -1074 <= k <= 969 -> fits (k + 2) (f64_add x y).
Proof.
  intros Hx Hy Hk. unfold f64_add. destruct x as [s|s| |s m e]; [|done|done|]; destruct y as [t|t| |t n f]; try done;
    cbn [SFadd]; try (by destruct s, t); try (eapply fits_le; [done|lia]).
  destruct (shl_align_eq m e (Z.min e f)) as (m' & -> & Hm'), (shl_align_eq n f (Z.min e f)) as (n' & -> & Hn').
  cbn [fst]. replace (Z.min e (Z.min e f)) with (Z.min e f) in Hm' by lia.
  replace (Z.min f (Z.min e f)) with (Z.min e f) in Hn' by lia.
  replace (k + 2) with ((k + 1) + 1) by lia. apply normalize_fits; [|lia].
  pose proof (below_align _ _ (Z.min e f) _ Hx ltac:(lia)) as (_ & Hle & Hx').
  pose proof (below_align _ _ (Z.min e f) _ Hy ltac:(lia)) as (_ & _ & Hy').
  rewrite <- Hm' in Hx'. rewrite <- Hn' in Hy'. split; [lia|]. split; [lia|].
  replace (k + 1 - Z.min e f) with (Z.succ (k - Z.min e f)) by lia. rewrite Z.pow_succ_r by lia.
  unfold cond_Zopp. destruct s, t; lia.
Qed.

Lemma f64_div_fits x s n f k :
  fits k x -> -1074 <= k - f <= 969 -> fits (k - f + 1) (f64_div x (S754_finite s n f)).
Proof.
  intros Hx Hk. unfold f64_div. destruct x as [t|t| |t m e]; try done. cbn [SFdiv].
  unfold SFdiv_core_binary.
  set (e' := Z.min (fexp 53 1024 (Zdigits2 (Zpos m) + e - (Zdigits2 (Zpos n) + f))) (e - f)).
  assert (e' <= e - f) as He' by (unfold e'; lia).
  assert (match e - f - e' with Z0 => Zpos m | Zpos _ => Z.shiftl (Zpos m) (e - f - e') | Zneg _ => 0 end
    = Zpos m * 2 ^ (e - f - e')) as ->.
  { destruct (e - f - e') as [|p|p] eqn:E; [change (2 ^ 0) with 1; lia|apply Z.shiftl_mul_pow2; lia|lia]. }
  destruct (Z.div_eucl (Zpos m * 2 ^ (e - f - e')) (Zpos n)) as [q r] eqn:E.
  apply round_aux_fits; [|lia].
  assert (q = Zpos m * 2 ^ (e - f - e') / Zpos n) as -> by (unfold Z.div; by rewrite E).
  assert (0 <= Zpos m * 2 ^ (e - f - e')) by nia. destruct Hx as (_ & He & Hb).
  split; [apply Z.div_pos; lia|]. split; [lia|].
  apply Z.le_lt_trans with (Zpos m * 2 ^ (e - f - e')); [apply Z.div_le_upper_bound; [lia|nia]|].
  replace (k - f - e') with ((k - e) + (e - f - e')) by lia. rewrite Z.pow_add_r by lia.
  apply Z.mul_lt_mono_pos_r; [apply Z.pow_pos_nonneg; lia|done].
Qed.

(** The seconds of a duration are a finite number. *)
Lemma as_secs_f64_fits duration : 0 <= duration <= DURATION_MAX -> fits 67 (as_secs_f64 duration).
Proof.
  intros Hd. unfold as_secs_f64. change 67 with (65 + 2). apply f64_add_fits; [|..|lia].
  - apply (f64_of_int_fits _ 64); [|lia]. unfold DURATION_MAX, u64_max, NANOS_PER_SEC in *.
    split; [apply Z.div_pos; lia|]. apply Z.div_lt_upper_bound; lia.
  - change (f64_of_int NANOS_PER_SEC) with (S754_finite false 8388608000000000 (-23)).
    eapply fits_le; [apply (f64_div_fits _ false 8388608000000000 (-23) 31); [|lia]|lia].
    apply (f64_of_int_fits _ 30); [|lia]. pose proof (Z.mod_pos_bound duration NANOS_PER_SEC eq_refl).
    unfold NANOS_PER_SEC in *. lia.
Qed.

Lemma as_secs_f64_finite duration : 0 <= duration <= DURATION_MAX -> f64_is_finite (as_secs_f64 duration) = true.
Proof. intros H. by eapply fits_finite, as_secs_f64_fits. Qed.
