(* ===== verification/LoadSchedule.v ===== *)
(** * Latencies and offered load ([src/src/lib.rs])

    The histogram the load generator keeps its delays in
    ([LatencyHistogram]) and the schedule of an offered load
    ([OfferedLoadSchedule]).  The theorems: a percentile is the order statistic
    of the recorded delays at the width of a bin, merging histograms is
    recording all their delays in one, and a request is due exactly from its
    deadline on. *)
From Stdlib Require Import Floats.SpecFloat.
From stdpp Require Import sorting.
From S2P Require Import Prelude ClientWire Float64.

Local Open Scope Z_scope.
Local Open Scope rust_scope.

Definition u64_saturating_add (a b : Z) : Z := Z.min u64_max (a + b).
Definition u64_saturating_sub (a b : Z) : Z := Z.max 0 (a - b).

Definition duration_saturating_mul (duration factor : Z) : Z := Z.min DURATION_MAX (duration * factor).

Definition invalid_input (message : bytes) : IoError :=
  {| io_kind := ErrorKind.InvalidInput; io_message := message |}.

(** ** The histogram *)

Definition MAX_LATENCY_HISTOGRAM_BINS : Z := 1000000.

Record LatencyHistogram : Type := {
  lh_precision : Z;
  lh_bins : list Z;
  lh_samples : Z;
  lh_overflow : Z;
}.

Definition zero_range : IoError := invalid_input (lit "latency range and precision must be non-zero").
Definition histogram_too_large : IoError := invalid_input (lit "latency histogram is too large").
Definition too_many_bins : IoError :=
  invalid_input (lit "latency histogram exceeds configured bin limit").

Definition div_ceil (a b : Z) : Z := (a + b - 1) / b.

Definition histogram_new (range precision : Z) : result LatencyHistogram IoError :=
  if (range =? 0) || (precision =? 0) then Err zero_range
  else
    let bin_count := div_ceil range precision in
    if u64_max <? bin_count then Err histogram_too_large
    else if (bin_count =? 0) || (MAX_LATENCY_HISTOGRAM_BINS <? bin_count) then Err too_many_bins
    else Ok {| lh_precision := precision; lh_bins := replicate (Z.to_nat bin_count) 0;
               lh_samples := 0; lh_overflow := 0 |}.

(** An index that is no [usize] is out of the bins too. *)
Definition record (self : LatencyHistogram) (elapsed : Z) : LatencyHistogram :=
  let samples := u64_saturating_add (lh_samples self) 1 in
  let index := elapsed / lh_precision self in
  if index <? Z.of_nat (length (lh_bins self)) then
    {| lh_precision := lh_precision self;
       lh_bins := alter (fun bin => u64_saturating_add bin 1) (Z.to_nat index) (lh_bins self);
       lh_samples := samples; lh_overflow := lh_overflow self |}
  else
    {| lh_precision := lh_precision self; lh_bins := lh_bins self;
       lh_samples := samples; lh_overflow := u64_saturating_add (lh_overflow self) 1 |}.

Definition record_all : LatencyHistogram -> list Z -> LatencyHistogram := foldl record.

(** The bin in which the samples seen reach the rank. *)
Fixpoint reach_rank (bins : list Z) (rank seen : Z) (index : nat) : option nat :=
  match bins with
  | [] => None
  | count :: bins =>
      let seen := u64_saturating_add seen count in
      if rank <=? seen then Some index else reach_rank bins rank seen (S index)
  end.

Definition percentile_rank (samples : Z) (quantile : f64) : Z :=
  f64_as_u64 (f64_max (f64_ceil (f64_mul (f64_of_int samples) quantile)) (f64_of_int 1)).

Definition is_quantile (quantile : f64) : bool :=
  f64_le (f64_of_int 0) quantile && f64_le quantile (f64_of_int 1).

(** There are fewer bins than a [u32] counts. *)
Definition percentile (self : LatencyHistogram) (quantile : f64) : option Z :=
  if (lh_samples self =? 0) || negb (is_quantile quantile) then None
  else
    match reach_rank (lh_bins self) (percentile_rank (lh_samples self) quantile) 0 0 with
    | Some index => Some (duration_saturating_mul (lh_precision self) (Z.of_nat index))
    | None =>
        if lh_overflow self =? 0 then None
        else Some (duration_saturating_mul (lh_precision self) (Z.of_nat (length (lh_bins self))))
    end.

(** [iter_mut().zip]: the bins of [self] past those of [other] stay. *)
Fixpoint merge_bins (bins other : list Z) : list Z :=
  match bins, other with
  | bin :: bins, other_bin :: other => u64_saturating_add bin other_bin :: merge_bins bins other
  | _, _ => bins
  end.

(** The assertions on the precision and the number of bins are for debug builds. *)
Definition histogram_merge (self other : LatencyHistogram) : LatencyHistogram :=
  {| lh_precision := lh_precision self;
     lh_bins := merge_bins (lh_bins self) (lh_bins other);
     lh_samples := u64_saturating_add (lh_samples self) (lh_samples other);
     lh_overflow := u64_saturating_add (lh_overflow self) (lh_overflow other) |}.

(** [as_micros], [unwrap_or(u64::MAX)], and 0 without a percentile. *)
Definition histogram_percentile_us (histogram : option LatencyHistogram) (quantile : f64) : Z :=
  match histogram ≫= fun histogram => percentile histogram quantile with
  | Some duration => Z.min u64_max (duration / 1000)
  | None => 0
  end.

(** ** The schedule *)

(** An [Instant] is its nanoseconds on a clock of [i64] seconds. *)
Definition INSTANT_MAX : Z := 9223372036854775807 * NANOS_PER_SEC + 999999999.

Definition instant_checked_add (instant duration : Z) : option Z :=
  if INSTANT_MAX <? instant + duration then None else Some (instant + duration).
Definition checked_duration_since (now earlier : Z) : option Z :=
  if now <? earlier then None else Some (now - earlier).
Definition saturating_duration_since (now earlier : Z) : Z :=
  default 0 (checked_duration_since now earlier).

Definition as_u32 (n : Z) : Z := n mod 4294967296.

Record OfferedLoadSchedule : Type := { os_started : Z; os_interval : Z }.

Definition rate_not_positive : IoError :=
  invalid_input (lit "offered rate must be finite and greater than zero").
Definition rate_too_low : IoError := invalid_input (lit "offered rate is too low for timer range").
Definition rate_too_high : IoError :=
  invalid_input (lit "offered rate is too high for timer precision").

(** [None] is the panic of [from_secs_f64]. *)
Definition schedule_new (rate : f64) (started : Z) : option (result OfferedLoadSchedule IoError) :=
  if negb (f64_is_finite rate) || f64_le rate (f64_of_int 0) then Some (Err rate_not_positive)
  else
    let interval_secs := f64_div (f64_of_int 1) rate in
    if negb (f64_is_finite interval_secs) || f64_lt (as_secs_f64 DURATION_MAX) interval_secs
    then Some (Err rate_too_low)
    else
      interval ← duration_from_secs_f64 interval_secs;
      Some (if interval =? 0 then Err rate_too_high
            else Ok {| os_started := started; os_interval := interval |}).

Definition deadline (self : OfferedLoadSchedule) (request_index : Z) : Z :=
  default (os_started self)
    (instant_checked_add (os_started self)
       (duration_saturating_mul (os_interval self) (as_u32 request_index))).

(** The saturating addition is in [u128], whose limit no quotient reaches. *)
Definition due_count (self : OfferedLoadSchedule) (now : Z) : Z :=
  match checked_duration_since now (os_started self) with
  | None => 0
  | Some elapsed => Z.min u64_max (elapsed / os_interval self + 1)
  end.

(** ** What a histogram holds *)

Record histogram_ok (h : LatencyHistogram) : Prop := {
  ho_precision : 0 < lh_precision h;
  ho_bins : Forall (fun bin => 0 <= bin <= u64_max) (lh_bins h);
  ho_samples : 0 <= lh_samples h <= u64_max;
  ho_overflow : 0 <= lh_overflow h <= u64_max;
}.

(** How many delays fall into a bin, and how many past the bins. *)
Definition tally (precision : Z) (index : nat) (ds : list Z) : Z :=
  Z.of_nat (length (filter (fun d => d / precision = Z.of_nat index) ds)).
Definition tally_past (precision bins : Z) (ds : list Z) : Z :=
  Z.of_nat (length (filter (fun d => bins <= d / precision) ds)).

Definition tallied (h : LatencyHistogram) (ds : list Z) : LatencyHistogram :=
  {| lh_precision := lh_precision h;
     lh_bins := imap (fun i bin => u64_saturating_add bin (tally (lh_precision h) i ds)) (lh_bins h);
     lh_samples := u64_saturating_add (lh_samples h) (Z.of_nat (length ds));
     lh_overflow := u64_saturating_add (lh_overflow h)
                      (tally_past (lh_precision h) (Z.of_nat (length (lh_bins h))) ds) |}.

Lemma saturating_add_assoc a b c : 0 <= c ->
  u64_saturating_add (u64_saturating_add a b) c = u64_saturating_add a (b + c).
Proof. unfold u64_saturating_add. lia. Qed.

Lemma saturating_add_0 a : a <= u64_max -> u64_saturating_add a 0 = a.
Proof. unfold u64_saturating_add. lia. Qed.

Lemma tally_app p i ds es : tally p i (ds ++ es) = tally p i ds + tally p i es.
Proof. unfold tally. rewrite list.filter_app, length_app. lia. Qed.

Lemma tally_past_app p n ds es : tally_past p n (ds ++ es) = tally_past p n ds + tally_past p n es.
Proof. unfold tally_past. rewrite list.filter_app, length_app. lia. Qed.

Lemma tallied_nil h : histogram_ok h -> tallied h [] = h.
Proof.
  intros [Hp Hb Hs Ho]. unfold tallied, tally, tally_past. cbn [filter list_filter length].
  rewrite !saturating_add_0 by lia. destruct h as [p bins s o]. cbn in *. f_equal.
  apply list_eq. intros i. rewrite list_lookup_imap.
  destruct (bins !! i) as [b|] eqn:E; [|done]. cbn. rewrite Forall_lookup in Hb.
  rewrite saturating_add_0; [done|]. apply (Hb _ _ E).
Qed.

Lemma tallied_app h ds es : tallied (tallied h ds) es = tallied h (ds ++ es).
Proof.
  unfold tallied. cbn [lh_precision lh_bins lh_samples lh_overflow]. rewrite length_imap. f_equal.
  - apply list_eq. intros i. rewrite !list_lookup_imap. destruct (lh_bins h !! i) as [b|]; [|done].
    cbn. f_equal. rewrite tally_app. apply saturating_add_assoc. unfold tally. lia.
  - rewrite length_app, saturating_add_assoc by lia. f_equal. lia.
  - rewrite tally_past_app, saturating_add_assoc; [done|]. unfold tally_past. lia.
Qed.

Lemma tally_one p i d : tally p i [d] = if decide (d / p = Z.of_nat i) then 1 else 0.
Proof. unfold tally. rewrite list.filter_cons, list.filter_nil. by case_decide. Qed.

Lemma tally_past_one p n d : tally_past p n [d] = if decide (n <= d / p) then 1 else 0.
Proof. unfold tally_past. rewrite list.filter_cons, list.filter_nil. by case_decide. Qed.

Lemma record_tallied h d : histogram_ok h -> 0 <= d -> record h d = tallied h [d].
Proof.
  intros [Hp Hb Hs Ho] Hd. pose proof (Z.div_pos d (lh_precision h) Hd Hp) as Hi.
  unfold record, tallied. cbn [length]. rewrite tally_past_one.
  destruct (Z.ltb_spec (d / lh_precision h) (Z.of_nat (length (lh_bins h)))) as [Hlt|Hge];
    [rewrite decide_False by lia|rewrite decide_True by lia].
  - rewrite (saturating_add_0 (lh_overflow h)) by lia. f_equal. apply list_eq. intros i.
    rewrite list_lookup_imap, list_lookup_alter, tally_one.
    case_decide as Hii; [subst i|].
    + destruct (lh_bins h !! _) as [b|]; [|done]. cbn. by rewrite decide_True by lia.
    + destruct (lh_bins h !! i) as [b|] eqn:E; [|done]. cbn. rewrite decide_False by lia.
      rewrite Forall_lookup in Hb. rewrite saturating_add_0; [done|]. apply (Hb _ _ E).
  - f_equal. apply list_eq. intros i. rewrite list_lookup_imap, tally_one.
    destruct (lh_bins h !! i) as [b|] eqn:E; [|done]. cbn.
    pose proof (lookup_lt_Some _ _ _ E). rewrite decide_False by lia.
    rewrite Forall_lookup in Hb. rewrite saturating_add_0; [done|]. apply (Hb _ _ E).
Qed.

Lemma tallied_ok h ds : histogram_ok h -> histogram_ok (tallied h ds).
Proof.
  intros [Hp Hb Hs Ho]. split; cbn [tallied lh_precision lh_bins lh_samples lh_overflow]; [done|..].
  - apply Forall_lookup. intros i b. rewrite list_lookup_imap.
    destruct (lh_bins h !! i) as [b'|] eqn:E; [|done]. intros [= <-].
    rewrite Forall_lookup in Hb. specialize (Hb _ _ E). unfold u64_saturating_add, tally, u64_max. lia.
  - unfold u64_saturating_add, u64_max. lia.
  - unfold u64_saturating_add, tally_past, u64_max. lia.
Qed.

(** Recording is counting, bin by bin. *)
Lemma record_all_tallied h ds :
  histogram_ok h -> Forall (fun d => 0 <= d) ds -> record_all h ds = tallied h ds.
Proof.
  intros Hh Hds. revert h Hh. induction Hds as [|d ds Hd _ IH]; intros h Hh.
  - cbn. by rewrite tallied_nil.
  - cbn [record_all foldl]. change (foldl record) with record_all.
    rewrite record_tallied by done. rewrite IH by (by apply tallied_ok).
    apply tallied_app.
Qed.

Lemma histogram_new_ok range precision h :
  0 <= range -> 0 <= precision -> histogram_new range precision = Ok h ->
  histogram_ok h /\ lh_precision h = precision
  /\ lh_bins h = replicate (Z.to_nat (div_ceil range precision)) 0 /\ lh_samples h = 0 /\ lh_overflow h = 0.
Proof.
  intros Hr Hp. unfold histogram_new. destruct (_ || _) eqn:E; [done|].
  apply orb_false_iff in E as [E1%Z.eqb_neq E2%Z.eqb_neq].
  destruct (u64_max <? _); [done|]. destruct (_ || _); [done|]. intros [= <-]. cbn.
  split; [|done]. split; cbn; unfold u64_max; try lia.
  apply Forall_replicate. lia.
Qed.

Lemma length_merge_bins bins other : length (merge_bins bins other) = length bins.
Proof. revert other. induction bins as [|b bins IH]; intros [|o other]; cbn; [done..|]. by rewrite IH. Qed.

Lemma merge_bins_lookup bins other i b o :
  bins !! i = Some b -> other !! i = Some o ->
  merge_bins bins other !! i = Some (u64_saturating_add b o).
Proof.
  revert other i. induction bins as [|b' bins IH]; intros [|o' other] [|i]; cbn; try done.
  - by intros [= ->] [= ->].
  - apply IH.
Qed.

(** Merging the histograms of two connections is recording the delays of both
    in one, saturation included. *)
Theorem merge_is_union (range precision : Z) (h : LatencyHistogram) (ds es : list Z) :
  0 <= range -> 0 <= precision -> histogram_new range precision = Ok h ->
  Forall (fun d => 0 <= d) ds -> Forall (fun d => 0 <= d) es ->
  histogram_merge (record_all h ds) (record_all h es) = record_all h (ds ++ es).
Proof.
  intros Hr Hp Hn Hds Hes. destruct (histogram_new_ok _ _ _ Hr Hp Hn) as (Hh & _ & Hb & Hs & Ho).
  rewrite !record_all_tallied by (done || by apply Forall_app).
  unfold histogram_merge, tallied. cbn [lh_precision lh_bins lh_samples lh_overflow].
  rewrite Hs, Ho, length_app, tally_past_app. f_equal.
  - apply list_eq_same_length with (n := length (lh_bins h)).
    { by rewrite length_imap. }
    { by rewrite length_merge_bins, length_imap. }
    intros i x y Hi Hx Hy. destruct (lookup_lt_is_Some_2 (lh_bins h) i Hi) as [b Hlb].
    assert (b = 0) as ->. { rewrite Hb in Hlb. by apply lookup_replicate in Hlb as [-> _]. }
    erewrite merge_bins_lookup in Hx by (rewrite list_lookup_imap, Hlb; reflexivity).
    rewrite list_lookup_imap, Hlb in Hy. cbn in Hy. injection Hx as <-. injection Hy as <-.
    rewrite tally_app. unfold u64_saturating_add, tally, u64_max. lia.
  - unfold u64_saturating_add, u64_max. lia.
  - unfold u64_saturating_add, tally_past, u64_max. lia.
Qed.

(** ** Percentiles *)

Definition below (t : Z) (ds : list Z) : Z := Z.of_nat (length (filter (fun d => d < t) ds)).

Fixpoint total (l : list Z) : Z := match l with [] => 0 | x :: l => x + total l end.

Lemma total_nonneg l : Forall (fun x => 0 <= x) l -> 0 <= total l.
Proof. induction 1; cbn; lia. Qed.

Lemma total_app l l' : total (l ++ l') = total l + total l'.
Proof. induction l; cbn; lia. Qed.

Lemma below_perm t ds es : ds ≡ₚ es -> below t ds = below t es.
Proof. intros H. unfold below. by rewrite H. Qed.

Lemma below_le t ds : below t ds <= Z.of_nat (length ds).
Proof. unfold below. pose proof (length_filter (fun d => d < t) ds). lia. Qed.

Lemma filter_none {A} (P : A -> Prop) `{!forall x, Decision (P x)} (l : list A) :
  Forall (fun x => ~ P x) l -> filter P l = [].
Proof. induction 1 as [|x l Hx _ IH]; [done|]. by rewrite list.filter_cons, decide_False. Qed.

(** In a sorted list the elements below a bound come first. *)
Lemma below_sorted t l k x :
  StronglySorted Z.le l -> l !! k = Some x -> (Z.of_nat k < below t l <-> x < t).
Proof.
  intros Hl. revert k x. induction Hl as [|a l _ IH Ha]; intros k x; [done|].
  unfold below. rewrite list.filter_cons. rewrite List.Forall_forall in Ha. case_decide as Hat.
  - cbn [length]. destruct k as [|k]; cbn.
    + intros [= <-]. lia.
    + intros Hx. rewrite <- (IH k x Hx). unfold below. lia.
  - assert (filter (fun d => d < t) l = []) as ->.
    { apply filter_none, List.Forall_forall. intros y Hy. specialize (Ha y Hy). lia. }
    cbn. intros Hx. assert (a <= x) as Hle; [|lia].
    destruct k as [|k]; cbn in Hx; [injection Hx as ->; lia|].
    apply Ha. by eapply list_elem_of_In, list_elem_of_lookup_2.
Qed.

Lemma below_step p k ds : 0 < p ->
  below (p * Z.of_nat (S k)) ds = below (p * Z.of_nat k) ds + tally p k ds.
Proof.
  intros Hp. unfold below, tally. induction ds as [|d ds IH]; [done|].
  rewrite !list.filter_cons. pose proof (Z.div_mod d p ltac:(lia)). pose proof (Z.mod_pos_bound d p Hp).
  repeat case_decide; cbn [length]; nia.
Qed.

Lemma below_0 p ds : Forall (fun d => 0 <= d) ds -> below (p * 0) ds = 0.
Proof.
  intros H. unfold below. rewrite filter_none; [done|].
  eapply List.Forall_impl; [|exact H]. cbn. lia.
Qed.

Lemma below_past p n ds : 0 < p ->
  below (p * n) ds + tally_past p n ds = Z.of_nat (length ds).
Proof.
  intros Hp. unfold below, tally_past. induction ds as [|d ds IH]; [done|].
  rewrite !list.filter_cons. pose proof (Z.div_mod d p ltac:(lia)). pose proof (Z.mod_pos_bound d p Hp).
  repeat case_decide; cbn [length]; nia.
Qed.

(** The counts of the first bins add up to the delays below their end. *)
Lemma total_tallies p n ds : 0 < p -> Forall (fun d => 0 <= d) ds ->
  total ((fun i => tally p i ds) <$> seq 0 n) = below (p * Z.of_nat n) ds.
Proof.
  intros Hp Hds. induction n as [|n IH]; [by rewrite below_0|].
  rewrite seq_S, fmap_app, total_app, IH, below_step by done. cbn. lia.
Qed.

(** The loop stops at the first bin whose running total reaches the rank. *)
Lemma reach_rank_spec bins rank seen index :
  Forall (fun bin => 0 <= bin) bins -> seen + total bins <= u64_max -> seen < rank ->
  match reach_rank bins rank seen index with
  | Some j => exists k, j = (index + k)%nat /\ (k < length bins)%nat
      /\ seen + total (take k bins) < rank <= seen + total (take (S k) bins)
  | None => seen + total bins < rank
  end.
Proof.
  intros Hb. revert seen index. induction Hb as [|bin bins Hbin Hb IH]; intros seen index; cbn [reach_rank total].
  { lia. }
  intros Hmax Hs. pose proof (total_nonneg _ Hb).
  assert (u64_saturating_add seen bin = seen + bin) as -> by (unfold u64_saturating_add; lia).
  destruct (Z.leb_spec rank (seen + bin)) as [Hle|Hgt].
  - exists 0%nat. rewrite take_0. cbn [length total take]. split; [lia|]. split; [lia|]. rewrite ?take_0. cbn [total]. lia.
  - specialize (IH (seen + bin) (S index) ltac:(lia) Hgt).
    destruct (reach_rank _ _ _ _) as [j|]; [|lia].
    destruct IH as (k & -> & Hk & Hlt). exists (S k). cbn [length take total] in *. lia.
Qed.

(** A fresh histogram after recording holds the tallies themselves. *)
Lemma recorded_bins range precision h ds :
  0 <= range -> 0 <= precision -> histogram_new range precision = Ok h ->
  Forall (fun d => 0 <= d) ds -> Z.of_nat (length ds) <= u64_max ->
  let bins := Z.to_nat (div_ceil range precision) in
  let h' := record_all h ds in
  0 < precision /\ lh_precision h' = precision /\ length (lh_bins h') = bins
  /\ lh_bins h' = (fun i => tally precision i ds) <$> seq 0 bins
  /\ lh_samples h' = Z.of_nat (length ds)
  /\ lh_overflow h' = tally_past precision (Z.of_nat bins) ds.
Proof.
  intros Hr Hp Hn Hds Hmax bins h'. destruct (histogram_new_ok _ _ _ Hr Hp Hn) as (Hh & Hpr & Hb & Hs & Ho).
  pose proof (ho_precision _ Hh). unfold h'. rewrite record_all_tallied by done.
  unfold tallied. cbn [lh_precision lh_bins lh_samples lh_overflow]. rewrite length_imap, Hs, Ho, Hb, Hpr.
  rewrite length_replicate. fold bins. split; [lia|]. split; [done|]. split; [done|]. split_and!.
  - apply list_eq. intros i. rewrite list_lookup_imap, list_lookup_fmap.
    destruct (decide (i < bins)%nat) as [Hi|Hi].
    + rewrite lookup_replicate_2, lookup_seq_lt by done. cbn. f_equal.
      unfold u64_saturating_add, tally, u64_max in *.
      pose proof (length_filter (fun d => d / precision = Z.of_nat i) ds). lia.
    + rewrite !lookup_ge_None_2; [done|rewrite length_seq|rewrite length_replicate]; lia.
  - unfold u64_saturating_add. lia.
  - unfold u64_saturating_add, tally_past, u64_max in *.
    pose proof (length_filter (fun d => Z.of_nat bins <= d / precision) ds). lia.
Qed.

(** C22: What a percentile reports: the sample of its rank among the recorded delays
    in order, rounded down to its bin, and the end of the range for a sample
    past it.  [rank] is computed in floating point, and is the code's only
    inexact step. *)
Theorem percentile_is_order_statistic (range precision : Z) (h : LatencyHistogram) (ds : list Z)
    (quantile : f64) (x : Z) :
  0 <= range -> 0 <= precision -> histogram_new range precision = Ok h ->
  Forall (fun d => 0 <= d) ds -> Z.of_nat (length ds) <= u64_max -> is_quantile quantile = true ->
  let rank := percentile_rank (Z.of_nat (length ds)) quantile in
  0 < rank -> merge_sort Z.le ds !! Z.to_nat (rank - 1) = Some x ->
  percentile (record_all h ds) quantile
  = Some (duration_saturating_mul precision (Z.min (x / precision) (div_ceil range precision))).
Proof.
  intros Hr Hp Hn Hds Hmax Hq rank Hrank Hx.
  destruct (recorded_bins _ _ _ _ Hr Hp Hn Hds Hmax) as (Hp' & Hprec & Hlen & Hbins & Hsam & Hov).
  set (n := Z.to_nat (div_ceil range precision)) in *.
  assert (0 <= div_ceil range precision) by (apply Z.div_pos; lia).
  pose proof (lookup_lt_Some _ _ _ Hx) as Hlt. rewrite merge_sort_Permutation in Hlt.
  assert (0 <= x) as Hx0.
  { rewrite List.Forall_forall in Hds. apply Hds, list_elem_of_In. rewrite <- merge_sort_Permutation.
    by eapply list_elem_of_lookup_2. }
  assert (forall k, below (precision * Z.of_nat k) ds < rank <-> precision * Z.of_nat k <= x) as Hbelow.
  { intros k. pose proof (below_sorted (precision * Z.of_nat k) _ _ _ (StronglySorted_merge_sort Z.le ds) Hx) as Hb.
    rewrite (below_perm _ _ _ (merge_sort_Permutation Z.le ds)) in Hb. lia. }
  unfold percentile. rewrite Hsam, Hq, Hprec. cbn [negb]. rewrite orb_false_r.
  destruct (Z.eqb_spec (Z.of_nat (length ds)) 0); [lia|]. fold rank.
  assert (forall k, (k <= n)%nat -> total (take k (lh_bins (record_all h ds))) = below (precision * Z.of_nat k) ds) as Htot.
  { intros k Hk. rewrite Hbins, <- fmap_take, take_seq, Nat.min_l by done. by apply total_tallies. }
  pose proof (Htot n ltac:(lia)) as Hall. rewrite take_ge in Hall by lia.
  pose proof (reach_rank_spec (lh_bins (record_all h ds)) rank 0 0) as Hspec.
  destruct (reach_rank _ _ _ _) as [j|].
  - destruct Hspec as (k & -> & Hk & Hle); [..|].
    + rewrite Hbins. apply Forall_fmap, Forall_forall. intros i _. cbn. unfold tally. lia.
    + rewrite Hall. pose proof (below_le (precision * Z.of_nat n) ds). lia.
    + done.
    + rewrite !Z.add_0_l, !Htot in Hle by lia. destruct Hle as [Hlo Hhi].
      rewrite Hbelow in Hlo. apply Z.le_ngt in Hhi. rewrite Hbelow in Hhi. do 2 f_equal.
      assert (x / precision = Z.of_nat k) as ->; [|lia].
      symmetry. apply (Z.div_unique_pos _ _ _ (x - precision * Z.of_nat k)); lia.
  - rewrite Hall in Hspec. assert (0 + below (precision * Z.of_nat n) ds < rank) as Hb.
    { apply Hspec; [|pose proof (below_le (precision * Z.of_nat n) ds); lia|done].
      rewrite Hbins. apply Forall_fmap, Forall_forall. intros i _. cbn. unfold tally. lia. }
    rewrite Z.add_0_l, Hbelow in Hb. pose proof (below_past precision (Z.of_nat n) ds Hp').
    rewrite Hov. destruct (Z.eqb_spec (tally_past precision (Z.of_nat n) ds) 0) as [E|E].
    { pose proof (proj2 (Hbelow n) Hb). lia. }
    do 2 f_equal. rewrite Hlen. apply Z.div_le_lower_bound in Hb; lia.
Qed.

(** ** Deadlines *)

Lemma schedule_new_ok rate started s :
  schedule_new rate started = Some (Ok s) -> os_started s = started /\ 0 < os_interval s <= DURATION_MAX.
Proof.
  unfold schedule_new. destruct (_ || _); [done|]. destruct (_ || _); [done|].
  destruct (duration_from_secs_f64 _) as [interval|] eqn:E; [|done]. cbn.
  apply duration_from_secs_range in E. destruct (Z.eqb_spec interval 0); [done|].
  intros [= <-]. cbn. lia.
Qed.

(** A request is due exactly from its deadline on, as long as its index fits the
    [u32] the deadline is computed with and the clock reaches the deadline. *)
Theorem due_from_deadline_on (rate : f64) (started index now : Z) (s : OfferedLoadSchedule) :
  schedule_new rate started = Some (Ok s) -> 0 <= started ->
  0 <= index < 4294967296 -> started + os_interval s * index <= INSTANT_MAX ->
  deadline s index = started + os_interval s * index
  /\ (index < due_count s now <-> deadline s index <= now).
Proof.
  intros Hs Hst Hi Hmax. apply schedule_new_ok in Hs as [Hstarted [Hpos Hint]].
  assert (deadline s index = started + os_interval s * index) as Hd.
  { unfold deadline, as_u32, duration_saturating_mul, instant_checked_add. rewrite Z.mod_small by done.
    rewrite Hstarted, Z.min_r by (unfold INSTANT_MAX, DURATION_MAX, NANOS_PER_SEC, u64_max in *; lia).
    destruct (Z.ltb_spec INSTANT_MAX (started + os_interval s * index)); [lia|done]. }
  split; [done|]. rewrite Hd. unfold due_count, checked_duration_since. rewrite Hstarted.
  destruct (Z.ltb_spec now started); [nia|].
  pose proof (Z.div_mod (now - started) (os_interval s) ltac:(lia)) as E.
  pose proof (Z.mod_pos_bound (now - started) (os_interval s) Hpos).
  unfold u64_max. split; intros H'; [assert (index <= (now - started) / os_interval s) by lia; nia|].
  assert (index <= (now - started) / os_interval s) by (apply Z.div_le_lower_bound; lia). lia.
Qed.

(** The index is cut to 32 bits: the schedule starts over after 2^32 requests. *)
Lemma deadlines_repeat s index : deadline s (index + 4294967296) = deadline s index.
Proof.
  unfold deadline, as_u32. do 3 f_equal.
  replace (index + 4294967296) with (index + 1 * 4294967296) by lia. by rewrite Z.mod_add.
Qed.

(** The limit on the interval rounds up to 2^64 seconds, which is one more than
    a [Duration] holds: this rate passes the check and panics. *)
Lemma slowest_rate_panics : schedule_new (S754_finite false 4503599627370496 (-116)) 0 = None.
Proof. vm_compute. reflexivity. Qed.

(** ** Samples *)

(** [n / 100]. *)
Definition percent (n : Z) : f64 := f64_div (f64_of_int n) (f64_of_int 100).

Definition sample_histogram : LatencyHistogram :=
  {| lh_precision := 1000; lh_bins := replicate 5 0; lh_samples := 0; lh_overflow := 0 |}.
Definition sample_delays : list Z := [4100; 250; 999; 7000; 1000; 2600; 1001; 3999; 20; 1500].

Lemma percentile_is_order_statistic_witness :
  percentile (record_all sample_histogram sample_delays) (percent 50) = Some 1000
  /\ percentile (record_all sample_histogram sample_delays) (percent 50)
     = Some (duration_saturating_mul 1000 (Z.min (1001 / 1000) (div_ceil 5000 1000)))
  /\ percentile (record_all sample_histogram sample_delays) (percent 95)
     = Some (duration_saturating_mul 1000 (Z.min (7000 / 1000) (div_ceil 5000 1000))).
Proof.
  split; [vm_compute; reflexivity|]. split.
  - apply (percentile_is_order_statistic 5000 1000 sample_histogram sample_delays (percent 50) 1001);
      try (vm_compute; reflexivity); [lia|lia|repeat constructor; lia|apply Z.leb_le; reflexivity].
  - apply (percentile_is_order_statistic 5000 1000 sample_histogram sample_delays (percent 95) 7000);
      try (vm_compute; reflexivity); [lia|lia|repeat constructor; lia|apply Z.leb_le; reflexivity].
Defined.

Lemma merge_is_union_witness :
  histogram_merge (record_all sample_histogram [4100; 250]) (record_all sample_histogram [7000])
  = record_all sample_histogram ([4100; 250] ++ [7000]).
Proof.
  apply (merge_is_union 5000 1000); [lia|lia|reflexivity|repeat constructor; lia|repeat constructor; lia].
Defined.

(** A thousand requests a second. *)
Definition sample_schedule : OfferedLoadSchedule := {| os_started := 5000000; os_interval := 1000000 |}.

Lemma due_from_deadline_on_witness :
  deadline sample_schedule 3 = 5000000 + os_interval sample_schedule * 3
  /\ (3 < due_count sample_schedule 8000000 <-> deadline sample_schedule 3 <= 8000000).
Proof.
  apply (due_from_deadline_on (f64_of_int 1000) 5000000 3 8000000 sample_schedule).
  - vm_compute. reflexivity.
  - lia.
  - lia.
  - apply Z.leb_le. vm_compute. reflexivity.
Defined.
