(* ===== verification/LoadWorkload.v ===== *)
(** * The workload of the load generator ([src/src/lib.rs])

    Which articles each connection asks for: command kinds
    ([client_command_kind]), the numbers of the synthetic articles
    ([synthetic_request_id]) or the segment of a request
    ([segment_for_request]), the share of each connection
    ([requests_for_connection]) and the command lines
    ([append_load_workload_request]). *)
From Stdlib Require Import Permutation.
From S2P Require Import Prelude Utf8 Decimal Memchr Args Kinds Requests RequestLine ClientWire Text.
From S2P Require Import Terminator ServerCommands ServerPayload ArticleStore ServerStore.

Local Open Scope Z_scope.
Local Open Scope rust_scope.

Module ClientCommandMix.
Inductive ClientCommandMix : Type := Article | Body | Stat | Alternate | Mixed.
End ClientCommandMix.

Module LoadWorkloadPolicy.
Inductive LoadWorkloadPolicy : Type := Disjoint | Shared | Repeat.
End LoadWorkloadPolicy.

Module LoadVerificationPolicy.
Inductive LoadVerificationPolicy : Type := None | Sampled | Full.
End LoadVerificationPolicy.

Definition verifies (self : LoadVerificationPolicy.LoadVerificationPolicy) (request_index : Z) : bool :=
  match self with
  | LoadVerificationPolicy.None => false
  | LoadVerificationPolicy.Sampled => request_index mod 100 =? 0
  | LoadVerificationPolicy.Full => true
  end.

Definition wrap (n : Z) : Z := n mod 18446744073709551616.
Definition wrapping_add (a b : Z) : Z := wrap (a + b).
Definition wrapping_mul (a b : Z) : Z := wrap (a * b).

Definition synthetic_request_id (start_id client_index request_index total_clients : Z)
    (policy : LoadWorkloadPolicy.LoadWorkloadPolicy) : Z :=
  match policy with
  | LoadWorkloadPolicy.Disjoint =>
      wrapping_add (wrapping_add start_id client_index) (wrapping_mul request_index total_clients)
  | LoadWorkloadPolicy.Shared => wrapping_add start_id request_index
  | LoadWorkloadPolicy.Repeat => start_id
  end.

Definition client_command_kind (id : Z) (mix : ClientCommandMix.ClientCommandMix)
    : ClientCommandMix.ClientCommandMix :=
  match mix with
  | ClientCommandMix.Alternate =>
      if id mod 2 =? 0 then ClientCommandMix.Body else ClientCommandMix.Article
  | ClientCommandMix.Mixed =>
      if id mod 3 =? 0 then ClientCommandMix.Article
      else if id mod 3 =? 1 then ClientCommandMix.Body
      else ClientCommandMix.Stat
  | command => command
  end.

(** [None] is the [unreachable!] of the mixes. *)
Definition request_kind_for_normalized_client_command (kind : ClientCommandMix.ClientCommandMix)
    : option RequestKind.RequestKind :=
  match kind with
  | ClientCommandMix.Article => Some RequestKind.Article
  | ClientCommandMix.Body => Some RequestKind.Body
  | ClientCommandMix.Stat => Some RequestKind.Stat
  | ClientCommandMix.Alternate | ClientCommandMix.Mixed => None
  end.

Definition request_kind_for_client_command (command_id : Z) (mix : ClientCommandMix.ClientCommandMix)
    : option RequestKind.RequestKind :=
  request_kind_for_normalized_client_command (client_command_kind command_id mix).

(** ** Segments *)

Record SegmentSet : Type := { seg_ids : list bytes; seg_declared_sizes : list Z }.

(** [None] is the panic of an index out of bounds. *)
Definition declared_size (self : SegmentSet) (index : nat) : option Z := seg_declared_sizes self !! index.

Fixpoint fold_declared_sizes (self : SegmentSet) (indices : list nat) (total : Z) : option Z :=
  match indices with
  | [] => Some total
  | index :: indices =>
      size ← declared_size self index;
      fold_declared_sizes self indices (Z.min u64_max (total + size))
  end.
Definition total_declared_size (self : SegmentSet) : option Z :=
  fold_declared_sizes self (seq 0 (length (seg_ids self))) 0.

(** [None] is the panic of the addition, of the remainder by 0. *)
Definition segment_ref_for_request (segments : SegmentSet) (client_index total_clients request_id : Z)
    : option bytes :=
  let sum := client_index + wrapping_mul request_id total_clients in
  let len := Z.of_nat (length (seg_ids segments)) in
  if (u64_max <? sum) || (len =? 0) then None
  else seg_ids segments !! Z.to_nat (sum mod len).
Definition segment_for_request := segment_ref_for_request.

Definition synthetic_message_id (command_id : Z) : bytes :=
  lit "<bench." ++ print_decimal command_id ++ lit "@nntpbench.local>".

Definition invalid_synthetic : IoError := invalid_data (lit "invalid synthetic message-id").

Definition request_message_id_for_command (kind : ClientCommandMix.ClientCommandMix)
    (command_id request_index : Z) (segments : option SegmentSet) (client_index total_clients : Z)
    : option (result bytes IoError) :=
  match segments with
  | Some segments =>
      id ← segment_for_request segments client_index total_clients request_index; Some (Ok id)
  | None =>
      match kind with
      | ClientCommandMix.Alternate | ClientCommandMix.Mixed => None
      | _ =>
          Some (let? message_id := ok_or invalid_synthetic (array_string 64 (synthetic_message_id command_id)) in
                map_err (fun _ => invalid_synthetic) (message_id_from_borrowed message_id))
      end
  end.

Definition client_request_for_command (command_id request_index : Z)
    (mix : ClientCommandMix.ClientCommandMix) (selected_group : bool) (segments : option SegmentSet)
    (client_index total_clients : Z) : option (result Request.Request IoError) :=
  let kind := client_command_kind command_id mix in
  if selected_group && negb (bool_decide (is_Some segments)) && in_range 1 MAX_ARTICLE_NUMBER command_id
  then
    match kind with
    | ClientCommandMix.Article =>
        Some (map_err (fun _ => invalid_data (lit "invalid article number"))
                (Request.article_number command_id))
    | ClientCommandMix.Body =>
        Some (map_err (fun _ => invalid_data (lit "invalid body number")) (Request.body_number command_id))
    | ClientCommandMix.Stat =>
        Some (map_err (fun _ => invalid_data (lit "invalid article number"))
                (Request.stat_number command_id))
    | _ => None
    end
  else
    message_id ← request_message_id_for_command kind command_id request_index segments client_index
                   total_clients;
    match message_id with
    | Err e => Some (Err e)
    | Ok message_id =>
        match kind with
        | ClientCommandMix.Article => Some (Ok (Request.Article (ArticleRef.MessageId message_id)))
        | ClientCommandMix.Body => Some (Ok (Request.Body (ArticleRef.MessageId message_id)))
        | ClientCommandMix.Stat => Some (Ok (Request.Stat (ArticleRef.MessageId message_id)))
        | _ => None
        end
    end.

(** ** Command lines *)

Record LoadWorkloadRequest : Type := {
  lw_command_id : Z;
  lw_synthetic_id : Z;
  lw_request_index : Z;
  lw_mix : ClientCommandMix.ClientCommandMix;
  lw_segments : option SegmentSet;
  lw_client_index : Z;
  lw_total_clients : Z;
}.

Definition not_pipelined : IoError :=
  {| io_kind := ErrorKind.InvalidInput;
     io_message := lit "throughput pipeline cannot include a barrier or session-changing command" |}.

Definition append_load_workload_request (buffer : bytes) (workload : LoadWorkloadRequest)
    : option (result bytes IoError) :=
  let kind := client_command_kind (lw_command_id workload) (lw_mix workload) in
  request_kind ← request_kind_for_normalized_client_command kind;
  if negb (allows_throughput_pipeline (coordination request_kind)) then Some (Err not_pipelined)
  else
    verb ← match kind with
           | ClientCommandMix.Article => Some (lit "ARTICLE ")
           | ClientCommandMix.Body => Some (lit "BODY ")
           | ClientCommandMix.Stat => Some (lit "STAT ")
           | _ => None
           end;
    message_id ← match lw_segments workload with
                 | Some segments =>
                     segment_for_request segments (lw_client_index workload)
                       (lw_total_clients workload) (lw_request_index workload)
                 | None => Some (synthetic_message_id (lw_synthetic_id workload))
                 end;
    Some (Ok (buffer ++ verb ++ message_id ++ CRLF)).

(** ** Shares *)

(** [connections] is not 0. *)
Definition requests_for_connection (total : option Z) (connections index : Z) : option Z :=
  total ← total;
  let base := total / connections in
  let remainder := total mod connections in
  Some (base + if index <? remainder then 1 else 0).

(** ** Every article once *)

(** The numbers one connection asks for, when it answers its whole share. *)
Definition connection_ids (start_id : Z) (total clients : nat) (client_index : nat) : list Z :=
  (fun request_index =>
     synthetic_request_id start_id (Z.of_nat client_index) (Z.of_nat request_index) (Z.of_nat clients)
       LoadWorkloadPolicy.Disjoint)
  <$> seq 0 (Z.to_nat (default 0 (requests_for_connection (Some (Z.of_nat total)) (Z.of_nat clients)
                                    (Z.of_nat client_index)))).

Lemma wrapping_disjoint start_id i k n :
  synthetic_request_id start_id i k n LoadWorkloadPolicy.Disjoint = wrapping_add start_id (i + k * n).
Proof.
  unfold synthetic_request_id, wrapping_add, wrapping_mul, wrap.
  rewrite Z.add_mod_idemp_l, Z.add_mod_idemp_r by lia. f_equal. lia.
Qed.

(** The share of a client counts the numbers of its residue below the total. *)
Lemma share_spec total clients i k :
  (i < clients)%nat ->
  (k < Z.to_nat (default 0%Z (requests_for_connection (Some (Z.of_nat total)) (Z.of_nat clients) (Z.of_nat i))))%nat
  <-> (i + k * clients < total)%nat.
Proof.
  intros Hi. unfold requests_for_connection. cbn [mbind option_bind default from_option id].
  pose proof (Z.div_mod (Z.of_nat total) (Z.of_nat clients) ltac:(lia)) as E.
  pose proof (Z.mod_pos_bound (Z.of_nat total) (Z.of_nat clients) ltac:(lia)) as Hr.
  pose proof (Z.div_pos (Z.of_nat total) (Z.of_nat clients) ltac:(lia) ltac:(lia)).
  set (q := Z.of_nat total / Z.of_nat clients) in *. set (r := Z.of_nat total mod Z.of_nat clients) in *.
  assert ((i + k * clients < total)%nat <-> Z.of_nat i + Z.of_nat k * Z.of_nat clients < Z.of_nat total) as -> by lia.
  destruct (Z.ltb_spec (Z.of_nat i) r); split; intros H'.
  all: try (assert (Z.of_nat k <= q) by lia; nia).
  all: try (assert (Z.of_nat k + 1 <= q) by lia; nia).
  - destruct (Z.le_gt_cases (Z.of_nat k) q); [lia|nia].
  - destruct (Z.le_gt_cases (Z.of_nat k + 1) q); [lia|nia].
Qed.

(** The connections of a disjoint workload ask together for every number from
    the first on, each exactly once, whatever the number of connections. *)
Lemma disjoint_numbers (start_id : Z) (total clients : nat) :
  (0 < clients)%nat ->
  concat (connection_ids start_id total clients <$> seq 0 clients)
  ≡ₚ (fun k => wrapping_add start_id (Z.of_nat k)) <$> seq 0 total.
Proof.
  intros Hc. set (share i := Z.to_nat (default 0 (requests_for_connection (Some (Z.of_nat total)) (Z.of_nat clients) (Z.of_nat i)))).
  set (f i := (fun k => (i + k * clients)%nat) <$> seq 0 (share i)).
  assert (seq 0 clients ≫= f ≡ₚ seq 0 total) as Hperm.
  { apply NoDup_Permutation.
    - apply NoDup_bind; [|intros i Hi|apply NoDup_seq].
      + intros i j y Hi%elem_of_seq Hj%elem_of_seq (k & -> & Hk)%list_elem_of_fmap (l & E & Hl)%list_elem_of_fmap.
        apply (Nat.div_mod_unique clients k l i j); lia.
      + apply NoDup_fmap_2_strong; [intros k l _ _ E; nia|apply NoDup_seq].
    - apply NoDup_seq.
    - intros x. rewrite list_elem_of_bind, elem_of_seq. split.
      + intros (i & (k & -> & Hk)%list_elem_of_fmap & Hi). rewrite elem_of_seq in *.
        destruct Hk as [_ Hk]. cbn in Hk. apply share_spec in Hk; lia.
      + intros Hx. exists (x mod clients)%nat. pose proof (Nat.div_mod_eq x clients).
        pose proof (Nat.mod_upper_bound x clients). split; [apply list_elem_of_fmap|apply elem_of_seq; lia].
        exists (x / clients)%nat. split; [lia|]. apply elem_of_seq. split; [lia|].
        cbn. apply share_spec; lia. }
  rewrite <- Hperm. clear Hperm. induction (seq 0 clients) as [|i l IH]; [done|].
  cbn [fmap list_fmap concat mbind list_bind]. rewrite fmap_app, IH. f_equiv.
  unfold connection_ids, f. fold (share i). rewrite <- list_fmap_compose.
  apply Permutation_refl', list_fmap_ext. intros j k _.
  rewrite wrapping_disjoint. unfold compose. f_equal. lia.
Qed.

(** ** Requests *)

Lemma request_kind_normalized id mix :
  exists kind, request_kind_for_client_command id mix = Some kind
    /\ (kind = RequestKind.Article \/ kind = RequestKind.Body \/ kind = RequestKind.Stat).
Proof.
  unfold request_kind_for_client_command, client_command_kind.
  destruct mix; repeat case_match; eexists; (split; [reflexivity|]); tauto.
Qed.

Lemma synthetic_message_id_shape id :
  0 <= id <= u64_max ->
  message_id_shape (synthetic_message_id id) /\ (length (synthetic_message_id id) <= 64)%nat.
Proof.
  intros Hid. destruct (print_decimal_spec id Hid) as (Hd & _ & Hl). unfold synthetic_message_id.
  generalize dependent (print_decimal id). intros digits Hd Hl. split.
  - exists (lit "bench." ++ digits ++ lit "@nntpbench.local"). split; [by rewrite <- !app_assoc|].
    rewrite !length_app. split; [cbn; lia|]. rewrite !forallb_app. rewrite forallb_forall in Hd.
    rewrite !andb_true_iff. split_and!; [reflexivity| |reflexivity].
    apply forallb_forall. intros b Hb%Hd%is_ascii_digit_spec. apply message_id_byte_spec. lia.
  - rewrite !length_app. cbn. lia.
Qed.

Lemma synthetic_message_id_inj a b :
  0 <= a <= u64_max -> 0 <= b <= u64_max -> synthetic_message_id a = synthetic_message_id b -> a = b.
Proof.
  intros Ha Hb E. unfold synthetic_message_id in E. apply app_inv_head, app_inv_tail in E.
  destruct (print_decimal_spec a Ha) as (_ & <- & _). destruct (print_decimal_spec b Hb) as (_ & <- & _).
  by rewrite E.
Qed.
