(* ===== verification/SegmentFile.v ===== *)
(** * The segment file of the load generator ([src/src/lib.rs])

    A file of lines [SIZE<TAB>MSGID] with the message-ids to ask for
    ([read_segments]): what it yields for every file, whatever reads deliver it,
    and what it rejects. *)
From S2P Require Import Prelude Utf8 Decimal Memchr Args RequestLine ClientWire Text.
From S2P Require Import ServerCommands ServerReading ServerPayload ArticleStore ServerStore LoadWorkload.

Local Open Scope Z_scope.
Local Open Scope rust_scope.

(** ** Reading it *)

Definition is_trimmed_end (b : Z) : bool := (b =? LF) || (b =? CR) || (b =? SP) || (b =? HT).
Definition is_trimmed_start (b : Z) : bool := (b =? SP) || (b =? HT).

Fixpoint drop_first (f : Z -> bool) (line : bytes) : bytes :=
  match line with
  | b :: rest => if f b then drop_first f rest else line
  | [] => []
  end.

Definition trim_ascii_line (line : bytes) : bytes :=
  drop_first is_trimmed_start (rev (drop_first is_trimmed_end (rev line))).

Definition shared_message_id_from_bytes (value : bytes) : result bytes IoError :=
  match from_utf8 value with
  | None => Err (invalid_data (lit "segment message-id is not utf-8"))
  | Some _ =>
      if starts_with value (lit "<") && ends_with value (lit ">") then
        map_err (fun _ => invalid_data (lit "invalid segment message-id")) (message_id_from_borrowed value)
      else
        let? normalized := ok_or (invalid_data (lit "segment message-id too long"))
                             (array_string 512 (lit "<" ++ value ++ lit ">")) in
        map_err (fun _ => invalid_data (lit "invalid segment message-id"))
          (message_id_from_borrowed normalized)
  end.

Section file.
Context `{Mc : !Memchr}.

(** [BufRead::read_until]: every round but the last consumes a whole read. *)
Fixpoint read_until_loop (fuel : nat) (delimiter : Z) (line : bytes) (reader : BufReader)
    : result bytes IoError * BufReader :=
  match fuel with
  | O => (Ok line, reader)
  | S fuel' =>
      match fill_buf reader with
      | (Err e, reader) => (Err e, reader)
      | (Ok available, reader) =>
          match memchr delimiter available with
          | Some index => (Ok (line ++ take (S index) available), consume reader (S index))
          | None =>
              if (length available =? 0)%nat then (Ok line, reader)
              else read_until_loop fuel' delimiter (line ++ available) (consume reader (length available))
          end
      end
  end.

Definition read_until (delimiter : Z) (reader : BufReader) : result bytes IoError * BufReader :=
  read_until_loop (S (S (length (br_source reader)))) delimiter [] reader.

Definition no_tab (line_index : Z) : IoError :=
  invalid_data (lit "invalid segment line " ++ print_decimal line_index
                ++ lit ": expected SIZE<TAB>MSGID").
Definition size_not_utf8 : IoError := invalid_data (lit "segment size is not utf-8").
Definition invalid_size : IoError := invalid_data (lit "invalid segment size").

(** A line that is not empty: its declared size and its message-id. *)
Definition segment_of_line (line_index : Z) (line : bytes) : result (Z * bytes) IoError :=
  let? tab := ok_or (no_tab line_index) (memchr HT line) in
  let size := trim_ascii_line (take tab line) in
  let? _ := ok_or size_not_utf8 (from_utf8 size) in
  let? declared_size := ok_or invalid_size (parse_u64 size) in
  let? id := shared_message_id_from_bytes (trim_ascii_line (drop (S tab) line)) in
  Ok (declared_size, id).

(** Every round consumes at least a byte of the file. *)
Fixpoint read_segments_loop (fuel : nat) (line_index : Z) (segments : SegmentSet) (reader : BufReader)
    : result SegmentSet IoError :=
  match fuel with
  | O => Ok segments
  | S fuel' =>
      match read_until LF reader with
      | (Err e, _) => Err e
      | (Ok line_buf, reader) =>
          if (length line_buf =? 0)%nat then Ok segments
          else
            let line_index := line_index + 1 in
            let line := trim_ascii_line line_buf in
            if (length line =? 0)%nat then read_segments_loop fuel' line_index segments reader
            else
              let? segment := segment_of_line line_index line in
              let '(declared_size, id) := segment in
              read_segments_loop fuel' line_index
                {| seg_ids := seg_ids segments ++ [id];
                   seg_declared_sizes := seg_declared_sizes segments ++ [declared_size] |} reader
      end
  end.

Definition file_size (reads : list (result bytes IoError)) : nat :=
  length (concat ((fun d => match d with Ok data => data | Err _ => [] end) <$> reads)).

(** [display] is how the path is printed. *)
Definition no_segments (display : bytes) : IoError :=
  invalid_data (lit "no segments found in " ++ display).

Definition read_segments (display : bytes) (opened : result File IoError) : result SegmentSet IoError :=
  let? file := opened in
  let reads := file_reads file in
  let? segments :=
    read_segments_loop (S (file_size reads)) 0 {| seg_ids := []; seg_declared_sizes := [] |}
      {| br_buffer := []; br_source := reads |} in
  if (length (seg_ids segments) =? 0)%nat then Err (no_segments display) else Ok segments.
End file.

(** ** The file as its lines *)

(** The reference: each line of the content on its own. *)
Fixpoint segments_of_lines `{Mc : !Memchr} (line_index : Z) (segments : SegmentSet) (lines : list bytes)
    : result SegmentSet IoError :=
  match lines with
  | [] => Ok segments
  | line :: lines =>
      let line := trim_ascii_line line in
      if (length line =? 0)%nat then segments_of_lines (line_index + 1) segments lines
      else
        let? segment := segment_of_line (line_index + 1) line in
        segments_of_lines (line_index + 1)
          {| seg_ids := seg_ids segments ++ [segment.2];
             seg_declared_sizes := seg_declared_sizes segments ++ [segment.1] |} lines
  end.

Lemma trim_ascii_line_lf l : trim_ascii_line (l ++ [LF]) = trim_ascii_line l.
Proof. unfold trim_ascii_line. by rewrite rev_unit. Qed.

Section reading.
Context `{Mc : !Memchr, Ms : !MemchrSpec}.

Lemma take_past (l k : bytes) x : take (S (length l)) (l ++ x :: k) = l ++ [x].
Proof. induction l as [|y l IH]; [done|]. cbn [length app]. cbn. by rewrite <- IH. Qed.

Lemma read_until_loop_ok fuel acc reader :
  live reader -> (length (br_source reader) + (if (length (br_buffer reader) =? 0)%nat then 1 else 2) <= fuel)%nat ->
  exists reader', live reader'
    /\ match position (Z.eqb LF) (pending reader) with
       | Some i => read_until_loop fuel LF acc reader = (Ok (acc ++ take (S i) (pending reader)), reader')
           /\ pending reader' = drop (S i) (pending reader)
       | None => read_until_loop fuel LF acc reader = (Ok (acc ++ pending reader), reader')
           /\ pending reader' = []
       end.
Proof.
  revert acc reader. induction fuel as [|fuel IH]; intros acc reader Hl Hf; [destruct (_ =? 0)%nat; lia|].
  cbn [read_until_loop]. destruct (fill_buf_live reader Hl)
    as (avail & r1 & -> & Hb & Hl1 & Hp1 & Hnil & Hs & Hs').
  rewrite <- Hp1. rewrite memchr_position.
  assert (pending r1 = avail ++ concat (delivered <$> br_source r1)) as Hpend by (unfold pending; by rewrite Hb).
  destruct (position (Z.eqb LF) avail) as [i|] eqn:Ei.
  - pose proof (position_lt _ _ _ Ei).
    destruct (consume_pending r1 (S i) ltac:(rewrite Hb; lia) Hl1) as [Hl2 Hp2].
    exists (consume r1 (S i)). split; [done|]. rewrite Hpend in Hp2 |- *.
    apply position_Some in Ei as (l1 & x & l2 & -> & <- & Hx & Hall).
    rewrite <- !app_assoc in Hp2 |- *. cbn [app] in Hp2 |- *. rewrite position_app_here by done. split; [|done].
    by rewrite !take_past.
  - destruct (Nat.eqb_spec (length avail) 0) as [Hz|Hz].
    { assert (avail = []) as Hn by by destruct avail. exists r1. split; [done|].
      rewrite <- Hp1 in Hnil. rewrite (proj1 Hnil Hn). cbn. by rewrite app_nil_r. }
    destruct (consume_pending r1 (length avail) ltac:(by rewrite Hb) Hl1) as [Hl2 Hp2].
    rewrite Hpend, drop_app_length in Hp2.
    destruct (IH (acc ++ avail) (consume r1 (length avail)) Hl2) as (r' & Hl' & H).
    { cbn. rewrite Hb, drop_all. cbn. destruct (Nat.eqb_spec (length (br_buffer reader)) 0) as [H0|]; [|lia].
      assert (br_buffer reader = []) by (by destruct (br_buffer reader)).
      assert (avail <> []) by (by intros ->). specialize (Hs' ltac:(done) ltac:(done)). lia. }
    exists r'. split; [done|]. rewrite Hp2 in H. rewrite Hpend, position_app_none by (by apply position_None).
    destruct (position _ (concat _)) as [i|]; cbn [fmap option_fmap option_map] in *.
    + destruct H as [-> ->]. rewrite <- Nat.add_succ_r, <- app_assoc, take_app_add, drop_app_add. done.
    + by rewrite <- app_assoc in H.
Qed.

(** The loop is the reference on the lines still to come. *)
Lemma read_segments_loop_lines fuel line_index segments reader :
  live reader -> (length (pending reader) < fuel)%nat ->
  read_segments_loop fuel line_index segments reader
  = segments_of_lines line_index segments (split_on (Z.eqb LF) (pending reader)).
Proof.
  revert line_index segments reader. induction fuel as [|fuel IH]; intros line_index segments reader Hl Hf; [lia|].
  cbn [read_segments_loop]. unfold read_until.
  destruct (read_until_loop_ok (S (S (length (br_source reader)))) [] reader Hl) as (reader' & Hl' & H);
    [destruct (_ =? 0)%nat; lia|].
  destruct (position (Z.eqb LF) (pending reader)) as [i|] eqn:Ei; destruct H as [-> Hp']; cbn [app].
  - apply position_Some in Ei as (l1 & x & l2 & E & <- & Hx & Hall). rewrite E in Hp' |- *.
    rewrite split_on_cons by done. apply Z.eqb_eq in Hx as <-. rewrite take_past.
    change (l1 ++ LF :: l2) with (l1 ++ [LF] ++ l2) in Hp'.
    replace (S (length l1)) with (length (l1 ++ [LF])) in Hp' by (rewrite length_app; cbn; lia).
    rewrite app_assoc, drop_app_length in Hp'.
    replace (length (l1 ++ [LF]) =? 0)%nat with false by (symmetry; apply Nat.eqb_neq; rewrite length_app; cbn; lia).
    rewrite E, length_app in Hf. cbn [length] in Hf.
    rewrite trim_ascii_line_lf. cbn [segments_of_lines]. destruct (_ =? 0)%nat.
    + rewrite IH by (done || rewrite Hp'; lia). by rewrite Hp'.
    + destruct (segment_of_line _ _) as [[size id]|e]; [|done].
      rewrite IH by (done || rewrite Hp'; lia). by rewrite Hp'.
  - apply position_None in Ei. rewrite split_on_plain by done.
    destruct (Nat.eqb_spec (length (pending reader)) 0) as [Hz|Hz].
    { by apply nil_length_inv in Hz as ->. }
    cbn [segments_of_lines]. destruct (length (trim_ascii_line (pending reader)) =? 0)%nat.
    + by rewrite IH, Hp' by (done || rewrite Hp'; cbn; lia).
    + destruct (segment_of_line _ _) as [[size id]|e]; [|done].
      by rewrite IH, Hp' by (done || rewrite Hp'; cbn; lia).
Qed.

Definition no_segment : SegmentSet := {| seg_ids := []; seg_declared_sizes := [] |}.

Lemma read_segments_lines display reads :
  Forall (fun d => exists data, d = Ok data /\ data <> []) reads ->
  read_segments display (Ok {| file_reads := reads |})
  = (let? segments := segments_of_lines 0 no_segment (split_on (Z.eqb LF) (concat (delivered <$> reads))) in
     if (length (seg_ids segments) =? 0)%nat then Err (no_segments display) else Ok segments).
Proof.
  intros Hl. unfold read_segments. cbn [file_reads].
  rewrite (read_segments_loop_lines _ 0 _ {| br_buffer := []; br_source := reads |}); [done|done|].
  unfold pending, file_size. cbn [br_buffer br_source app]. apply Nat.lt_succ_diag_r.
Qed.
End reading.

(** ** Written and read back *)

Definition segment_line (segment : Z * bytes) : bytes := print_decimal segment.1 ++ HT :: segment.2.

Definition segment_ok (segment : Z * bytes) : Prop :=
  0 <= segment.1 <= u64_max /\ message_id_shape segment.2.

(** Nothing to trim at either end. *)
Definition kept (l : bytes) : Prop :=
  (exists x t, l = x :: t /\ is_trimmed_start x = false)
  /\ (exists h y, l = h ++ [y] /\ is_trimmed_end y = false).

Lemma drop_first_all f ws l : Forall (fun b => f b = true) ws -> drop_first f (ws ++ l) = drop_first f l.
Proof. induction 1 as [|w ws Hw _ IH]; [done|]. cbn. by rewrite Hw. Qed.

Lemma trim_kept l ws : kept l -> Forall (fun b => is_trimmed_end b = true) ws -> trim_ascii_line (l ++ ws) = l.
Proof.
  intros [(x & t & Hx & Hs) (h & y & Hy & He)] Hws. unfold trim_ascii_line.
  rewrite rev_app_distr, drop_first_all by (by apply Forall_rev).
  assert (drop_first is_trimmed_end (rev l) = rev l) as ->.
  { rewrite Hy, rev_unit. cbn. by rewrite He. }
  rewrite rev_involutive, Hx. cbn. by rewrite Hs.
Qed.

Lemma digits_kept n : 0 <= n <= u64_max -> kept (print_decimal n).
Proof.
  intros Hn. destruct (print_decimal_spec n Hn) as (Hd & _ & Hl).
  assert (forall b, is_ascii_digit b = true -> is_trimmed_start b = false /\ is_trimmed_end b = false) as Hkeep.
  { intros b Hb%is_ascii_digit_spec. unfold is_trimmed_start, is_trimmed_end, LF, CR, SP, HT. split; lia. }
  rewrite forallb_forall in Hd. split.
  - destruct (print_decimal n) as [|x t]; [cbn in Hl; lia|]. exists x, t. split; [done|].
    apply Hkeep, Hd. by left.
  - destruct (print_decimal n) as [|y h _] using rev_ind; [cbn in Hl; lia|]. exists h, y. split; [done|].
    apply Hkeep, Hd, in_or_app. right. by left.
Qed.

Lemma message_id_kept m : message_id_shape m -> kept m.
Proof.
  intros (inner & -> & _). split.
  - by exists 60, (inner ++ lit ">").
  - exists (lit "<" ++ inner), 62. by rewrite <- app_assoc.
Qed.

Lemma segment_line_kept segment : segment_ok segment -> kept (segment_line segment).
Proof.
  intros [Hn Hm]. destruct (digits_kept _ Hn) as [(x & t & Hx & Hs) _].
  destruct (message_id_kept _ Hm) as [_ (h & y & Hy & He)]. unfold segment_line. split.
  - exists x, (t ++ HT :: segment.2). by rewrite Hx.
  - exists (print_decimal segment.1 ++ HT :: h), y. rewrite Hy, <- app_assoc. done.
Qed.

Section roundtrip.
Context `{Mc : !Memchr, Ms : !MemchrSpec}.

Lemma segment_line_parsed line_index segment :
  segment_ok segment -> segment_of_line line_index (segment_line segment) = Ok segment.
Proof.
  destruct segment as [size id]. intros [Hn Hm]. cbn [fst snd] in *.
  destruct (print_decimal_spec size Hn) as (Hd & _ & _). unfold segment_of_line, segment_line. cbn [fst snd].
  rewrite forallb_forall in Hd.
  assert (Forall (fun b => (HT =? b) = false) (print_decimal size)) as Hht.
  { apply List.Forall_forall. intros b Hb%Hd%is_ascii_digit_spec. unfold HT. lia. }
  assert (Forall is_ascii_byte (print_decimal size)) as Hascii.
  { apply List.Forall_forall. intros b Hb%Hd%is_ascii_digit_spec. unfold is_ascii_byte. lia. }
  pose proof (trim_kept _ [] (digits_kept _ Hn) (Forall_nil_2 _)) as Htrim. rewrite app_nil_r in Htrim.
  pose proof (trim_kept _ [] (message_id_kept _ Hm) (Forall_nil_2 _)) as Htrim'. rewrite app_nil_r in Htrim'.
  rewrite memchr_position, position_app_here by (done || apply Z.eqb_refl).
  cbn [ok_or]. rewrite take_app_length, Htrim, from_utf8_ascii by done. cbn [ok_or].
  rewrite parse_u64_decimal by done. cbn [ok_or].
  change (print_decimal size ++ HT :: id) with (print_decimal size ++ [HT] ++ id).
  replace (S (length (print_decimal size))) with (length (print_decimal size ++ [HT])) by (rewrite length_app; cbn; lia).
  rewrite app_assoc, drop_app_length, Htrim'. unfold shared_message_id_from_bytes.
  rewrite from_utf8_ascii by (by apply message_id_shape_ascii).
  pose proof Hm as (inner & Heq & _). rewrite Heq at 1 2.
  rewrite starts_with_app, app_assoc, ends_with_app. cbn [andb].
  by rewrite (proj2 (message_id_from_borrowed_Ok id id) (conj eq_refl Hm)).
Qed.

Lemma segment_line_no_lf segment : segment_ok segment -> no_lf (segment_line segment).
Proof.
  destruct segment as [size id]. intros [Hn (inner & Hid & _ & Hin)]. cbn [fst snd] in *. subst id.
  destruct (print_decimal_spec size Hn) as (Hd & _). rewrite forallb_forall in Hd. rewrite forallb_forall in Hin.
  unfold segment_line. cbn [fst snd]. apply Forall_app. split.
  - apply List.Forall_forall. intros b Hb%Hd%is_ascii_digit_spec. unfold LF. lia.
  - apply List.Forall_cons; [done|]. apply Forall_app. split; [by repeat constructor|].
    apply Forall_app. split; [|by repeat constructor].
    apply List.Forall_forall. intros b Hb%Hin%message_id_byte_spec. unfold LF. lia.
Qed.

Definition rendered (ending : bytes) (segments : list (Z * bytes)) : bytes :=
  concat ((fun segment => segment_line segment ++ ending ++ [LF]) <$> segments).

(** The lines before the first that is no segment. *)
Lemma good_lines ending segments line_index acc rest :
  Forall segment_ok segments -> Forall (fun b => is_trimmed_end b = true) ending -> no_lf ending ->
  segments_of_lines line_index acc (split_on (Z.eqb LF) (rendered ending segments ++ rest))
  = segments_of_lines (line_index + Z.of_nat (length segments))
      {| seg_ids := seg_ids acc ++ segments.*2; seg_declared_sizes := seg_declared_sizes acc ++ segments.*1 |}
      (split_on (Z.eqb LF) rest).
Proof.
  intros Hs He Hlf. revert line_index acc. induction Hs as [|segment segments Hok _ IH]; intros line_index acc.
  - cbn [rendered fmap list_fmap concat app length]. rewrite !app_nil_r, Z.add_0_r. by destruct acc.
  - unfold rendered. cbn [fmap list_fmap concat]. fold (rendered ending segments). rewrite <- !app_assoc.
    cbn [app]. rewrite app_assoc, split_on_cons.
    2: { apply Forall_app. split; [by apply segment_line_no_lf|done]. }
    2: { apply Z.eqb_refl. }
    cbn [segments_of_lines]. rewrite trim_kept by (done || by apply segment_line_kept).
    destruct (Nat.eqb_spec (length (segment_line segment)) 0) as [Hz|_].
    { unfold segment_line in Hz. rewrite length_app in Hz. cbn in Hz. lia. }
    rewrite segment_line_parsed, IH by done. cbn [length seg_ids seg_declared_sizes].
    rewrite <- !app_assoc. cbn [app]. f_equal. lia.
Qed.

(** A file of segments, its lines ended in any of the ways the trimming takes,
    gives the segments in order, however the reads cut it, and is refused without
    a segment.  The first line that is none ends the reading with the error of
    that line and its number. *)
Theorem segment_file_read (display : bytes) (segments : list (Z * bytes)) (ending bad more : bytes)
    (reads : list (result bytes IoError)) :
  Forall segment_ok segments -> Forall (fun b => is_trimmed_end b = true) ending -> no_lf ending ->
  Forall (fun d => exists data, d = Ok data /\ data <> []) reads ->
  (concat (delivered <$> reads) = rendered ending segments ->
   read_segments display (Ok {| file_reads := reads |})
   = match segments with
     | [] => Err (no_segments display)
     | _ => Ok {| seg_ids := segments.*2; seg_declared_sizes := segments.*1 |}
     end)
  /\ (concat (delivered <$> reads) = rendered ending segments ++ bad ++ LF :: more ->
      no_lf bad -> trim_ascii_line bad <> [] ->
      forall e, segment_of_line (Z.of_nat (length segments) + 1) (trim_ascii_line bad) = Err e ->
      read_segments display (Ok {| file_reads := reads |}) = Err e).
Proof.
  intros Hs He Hlf Hr. rewrite read_segments_lines by done. split.
  - intros ->. rewrite <- (app_nil_r (rendered _ _)), good_lines by done. cbn.
    by destruct segments as [|segment segments].
  - intros -> Hbad Hne e Herr. rewrite good_lines, split_on_cons by (done || apply Z.eqb_refl).
    cbn [segments_of_lines]. destruct (Nat.eqb_spec (length (trim_ascii_line bad)) 0) as [Hz|_].
    { by apply nil_length_inv in Hz. }
    rewrite Z.add_0_l. by rewrite Herr.
Qed.
End roundtrip.

(** Two segments in three reads, lines ended by CRLF; then a line without a TAB. *)
Definition sample_segments : list (Z * bytes) := [(700, lit "<a@x>"); (15, lit "<b@x>")].
Definition sample_file : list (result bytes IoError) :=
  [Ok (take 4 (rendered [CR] sample_segments)); Ok (take 9 (drop 4 (rendered [CR] sample_segments)));
   Ok (drop 13 (rendered [CR] sample_segments))].

Lemma segment_file_read_witness :
  read_segments (lit "segments.txt") (Ok {| file_reads := sample_file |})
  = Ok {| seg_ids := [lit "<a@x>"; lit "<b@x>"]; seg_declared_sizes := [700; 15] |}
  /\ read_segments (lit "segments.txt") (Ok {| file_reads := [Ok (lit "12 <a@x>" ++ [LF] ++ lit "3")] |})
     = Err (no_tab 1).
Proof.
  assert (forall l : bytes, message_id_shape l <-> validate_message_id l = Ok tt) as Hshape
    by (intros l; symmetry; apply validate_message_id_shape).
  split.
  - apply (segment_file_read (lit "segments.txt") sample_segments [CR] [] [] sample_file).
    + repeat apply List.Forall_cons; [..|constructor]; (split; [cbn; unfold u64_max; lia|]);
        apply Hshape; vm_compute; reflexivity.
    + by repeat constructor.
    + by repeat constructor.
    + repeat apply List.Forall_cons; [..|constructor]; eexists; (split; [reflexivity|vm_compute; discriminate]).
    + vm_compute. reflexivity.
  - apply (segment_file_read (lit "segments.txt") [] [] (lit "12 <a@x>") (lit "3")
             [Ok (lit "12 <a@x>" ++ [LF] ++ lit "3")]).
    + constructor.
    + constructor.
    + constructor.
    + repeat constructor. eexists. split; [reflexivity|]. vm_compute. discriminate.
    + vm_compute. reflexivity.
    + by repeat constructor.
    + vm_compute. discriminate.
    + vm_compute. reflexivity.
Defined.
