(* ===== verification/LoadReader.v ===== *)
(** * The response reader of the load generator ([src/src/lib.rs])

    [LoadResponseReader]: one response after another from a growing buffer,
    without keeping the bytes of a multiline block; a limit on the size of a
    response; the check of its message-id.  And the greeting
    ([read_greeting]).  The stream is the list of its deliveries; how much one
    read may take, and the capacity of the buffer, only shape these. *)
From S2P Require Import Prelude Memchr Terminator Kinds ResponseLine ResponseFrame ClientWire ServerStore ServerReading.

Local Open Scope Z_scope.
Local Open Scope rust_scope.

Definition invalid_initial_line : IoError := invalid_data (lit "invalid server response initial line").
Definition no_message_id : IoError := invalid_data (lit "response did not include a Message-ID").
Definition wrong_message_id : IoError := invalid_data (lit "response Message-ID did not match request").
Definition response_too_long : IoError := invalid_data (lit "response exceeded configured maximum").
Definition closed_early : IoError :=
  {| io_kind := ErrorKind.UnexpectedEof;
     io_message := lit "server closed before completing response" |}.

Record LoadResponseReader : Type := {
  lr_buffer : bytes;
  lr_start : nat;
  lr_read_buffer_bytes : nat;
  lr_max_response_bytes : nat;
}.

Definition Stream : Type := list (result bytes IoError).

Section reader.
Context `{Mc : !Memchr}.
Variable find_end : bytes -> option nat.

Definition response_message_id (line : bytes) : option bytes :=
  start ← memchr 60 line;
  end_ ← memchr 62 (drop start line);
  Some (slice line start (S (start + end_))).

(** Lengths of data in memory do not overflow. *)
Definition bounded_response_len (response_len added max : nat) : result nat IoError :=
  let response_len := (response_len + added)%nat in
  if (max <? response_len)%nat then Err response_too_long else Ok response_len.

Definition reader_new (read_buffer_bytes max_response_bytes : nat) : LoadResponseReader :=
  {| lr_buffer := []; lr_start := 0; lr_read_buffer_bytes := Nat.max read_buffer_bytes 1;
     lr_max_response_bytes := max_response_bytes |}.

Definition unread (self : LoadResponseReader) : bytes := drop (lr_start self) (lr_buffer self).

Definition advance (self : LoadResponseReader) (n : nat) : LoadResponseReader :=
  {| lr_buffer := lr_buffer self; lr_start := lr_start self + n;
     lr_read_buffer_bytes := lr_read_buffer_bytes self;
     lr_max_response_bytes := lr_max_response_bytes self |}.

Definition with_buffer (self : LoadResponseReader) (buffer : bytes) (start : nat) : LoadResponseReader :=
  {| lr_buffer := buffer; lr_start := start; lr_read_buffer_bytes := lr_read_buffer_bytes self;
     lr_max_response_bytes := lr_max_response_bytes self |}.

(** The outer [None] is the panic of [expect("validated response line")]. *)
Definition validate_initial_line (self : LoadResponseReader) (kind : RequestKind.RequestKind)
    (expected_message_id : option bytes) : option (result (option (nat * bool)) IoError) :=
  let data := unread self in
  match initial_parse kind data with
  | InitialNeedMore => Some (Ok None)
  | InitialInvalid => Some (Err invalid_initial_line)
  | InitialComplete initial =>
      line_end ← find_crlf_line_end data 0;
      let multiline := ResponseFraming.is_multiline (framing (ri_descriptor initial)) in
      match expected_message_id with
      | None => Some (Ok (Some (line_end, multiline)))
      | Some expected =>
          match response_message_id (take line_end data) with
          | None => Some (Err no_message_id)
          | Some actual =>
              if bytes_eqb actual expected then Some (Ok (Some (line_end, multiline)))
              else Some (Err wrong_message_id)
          end
      end
  end.

Definition compact_if_needed (self : LoadResponseReader) : LoadResponseReader :=
  if (lr_start self =? 0)%nat then self
  else if (lr_start self =? length (lr_buffer self))%nat then with_buffer self [] 0
  else if (lr_read_buffer_bytes self <=? lr_start self)%nat then with_buffer self (unread self) 0
  else self.

Definition read_into_load_buffer (stream : Stream) (self : LoadResponseReader)
    : result nat IoError * LoadResponseReader * Stream :=
  match stream with
  | [] => (Ok 0%nat, self, [])
  | Err e :: stream => (Err e, self, stream)
  | Ok data :: stream =>
      (Ok (length data), with_buffer self (lr_buffer self ++ data) (lr_start self), stream)
  end.

(** How one round of [read_response] ends. *)
Inductive Round : Type :=
| RoundReturns (r : result nat IoError)
| RoundPanics
| RoundReads (framer : MultilineFramer) (response_len : nat) (multiline : bool).

(** The part of a round for a multiline block: what is unread goes to the framer. *)
Definition feed_block (self : LoadResponseReader) (framer : MultilineFramer) (response_len : nat)
    : Round * LoadResponseReader :=
  let data := unread self in
  match framer_push find_end framer data with
  | (_, MultilineFrameProgress.Complete bounds) =>
      let consumed := chunk_consumed bounds in
      match bounded_response_len response_len consumed (lr_max_response_bytes self) with
      | Err e => (RoundReturns (Err e), self)
      | Ok frame_len => (RoundReturns (Ok frame_len), advance self consumed)
      end
  | (framer, MultilineFrameProgress.NeedMore) =>
      match bounded_response_len response_len (length data) (lr_max_response_bytes self) with
      | Err e => (RoundReturns (Err e), self)
      | Ok response_len =>
          (RoundReads framer response_len true,
           with_buffer self (lr_buffer self) (length (lr_buffer self)))
      end
  end.

Definition response_round (self : LoadResponseReader) (kind : RequestKind.RequestKind)
    (expected_message_id : option bytes) (framer : MultilineFramer) (response_len : nat)
    (multiline : bool) : Round * LoadResponseReader :=
  if multiline then feed_block self framer response_len
  else
    match validate_initial_line self kind expected_message_id with
    | None => (RoundPanics, self)
    | Some (Err e) => (RoundReturns (Err e), self)
    | Some (Ok None) => (RoundReads framer response_len false, self)
    | Some (Ok (Some (line_end, false))) => (RoundReturns (Ok line_end), advance self line_end)
    | Some (Ok (Some (line_end, true))) => feed_block (advance self line_end) framer line_end
    end.

(** Every round but the last takes a delivery; [None] is spent fuel or a panic. *)
Fixpoint read_response_loop (fuel : nat) (self : LoadResponseReader) (stream : Stream)
    (kind : RequestKind.RequestKind) (expected_message_id : option bytes) (framer : MultilineFramer)
    (response_len : nat) (multiline : bool)
    : option (result nat IoError * LoadResponseReader * Stream) :=
  match fuel with
  | O => None
  | S fuel' =>
      match response_round self kind expected_message_id framer response_len multiline with
      | (RoundReturns r, self) => Some (r, self, stream)
      | (RoundPanics, _) => None
      | (RoundReads framer response_len multiline, self) =>
          match read_into_load_buffer stream (compact_if_needed self) with
          | (Err e, self, stream) => Some (Err e, self, stream)
          | (Ok read, self, stream) =>
              if (read =? 0)%nat then Some (Err closed_early, self, stream)
              else read_response_loop fuel' self stream kind expected_message_id framer response_len multiline
          end
      end
  end.

Definition read_response (self : LoadResponseReader) (stream : Stream) (kind : RequestKind.RequestKind)
    (expected_message_id : option bytes) : option (result nat IoError * LoadResponseReader * Stream) :=
  read_response_loop (S (length stream)) self stream kind expected_message_id framer_default 0 false.

(** One response from what is buffered. *)
Definition try_consume_response (self : LoadResponseReader) (kind : RequestKind.RequestKind)
    (expected_message_id : option bytes) : option (result (option nat) IoError * LoadResponseReader) :=
  validated ← validate_initial_line self kind expected_message_id;
  Some match validated with
  | Err e => (Err e, self)
  | Ok None => (Ok None, self)
  | Ok (Some (line_end, multiline)) =>
      let data := unread self in
      if negb multiline then (Ok (Some line_end), advance self line_end)
      else
        match find_dot_terminated_block find_end data line_end with
        | None =>
            match bounded_response_len 0 (length data) (lr_max_response_bytes self) with
            | Err e => (Err e, self)
            | Ok _ => (Ok None, self)
            end
        | Some block =>
            let consumed := block_end block in
            match bounded_response_len 0 consumed (lr_max_response_bytes self) with
            | Err e => (Err e, self)
            | Ok _ => (Ok (Some consumed), advance self consumed)
            end
        end
  end.
End reader.

(** ** What it reads *)

(** The verdict on the message-id of a status line. *)
Definition id_error `{!Memchr} (expected : option bytes) (line : bytes) : option IoError :=
  match expected with
  | None => None
  | Some expected =>
      match response_message_id line with
      | None => Some no_message_id
      | Some actual => if bytes_eqb actual expected then None else Some wrong_message_id
      end
  end.

(** The specification: what a request must get from the whole input, which ends
    with [closed] when no more comes. *)
Definition load_outcome `{!Memchr} (kind : RequestKind.RequestKind) (expected : option bytes) (max : nat)
    (input : bytes) (closed : IoError) : result nat IoError :=
  match initial_parse kind input, detect_response_line_end input with
  | InitialInvalid, _ => Err invalid_initial_line
  | InitialComplete initial, ResponseLineStatus.CompleteAt e =>
      match id_error expected (take e input) with
      | Some err => Err err
      | None =>
          if ResponseFraming.is_multiline (framing (ri_descriptor initial)) then
            match body_end (drop e input) with
            | Some n => if (max <? e + n)%nat then Err response_too_long else Ok (e + n)%nat
            | None => if (max <? length input)%nat then Err response_too_long else Err closed
            end
          else Ok e
      end
  | _, _ => Err closed
  end.

Definition stream_of (chunks : list bytes) (tail : Stream) : Stream := (Ok <$> chunks) ++ tail.

Definition stream_closes (tail : Stream) : Prop := match tail with Ok (_ :: _) :: _ => False | _ => True end.

Definition closing_error (tail : Stream) : IoError :=
  match tail with Err e :: _ => e | _ => closed_early end.

Section correct.
Context `{Mc : !Memchr, Ms : !MemchrSpec}.
Context (find_end : bytes -> option nat) `{Hfe : !TerminatorFinder find_end}.

Lemma crlf_line_end data e :
  detect_response_line_end data = ResponseLineStatus.CompleteAt e ->
  find_crlf_line_end data 0 = Some e /\ (e <= length data)%nat.
Proof.
  intros (l & rest & -> & Hl & ->)%detect_line_complete_inv. split.
  - unfold find_crlf_line_end, get_from.
    replace (length _ <? 0)%nat with false by (symmetry; apply Nat.ltb_ge; lia).
    cbn [mbind option_bind]. rewrite drop_0, memmem_find_sub, find_crlf_plain by done. done.
  - rewrite !length_app. change (length CRLF) with 2%nat. lia.
Qed.

(** The start stays inside the buffer. *)
Definition inside (self : LoadResponseReader) : Prop := (lr_start self <= length (lr_buffer self))%nat.

Lemma compact_unread self :
  inside self -> inside (compact_if_needed self) /\ unread (compact_if_needed self) = unread self
  /\ lr_max_response_bytes (compact_if_needed self) = lr_max_response_bytes self.
Proof.
  unfold inside, compact_if_needed, unread. intros Hi.
  destruct (Nat.eqb_spec (lr_start self) 0); [done|].
  destruct (Nat.eqb_spec (lr_start self) (length (lr_buffer self))) as [E|].
  { cbn. by rewrite E, drop_all. }
  destruct (_ <=? _)%nat; [|done]. cbn. split; [lia|]. by rewrite drop_0.
Qed.

Lemma advance_unread self n :
  inside self -> (n <= length (unread self))%nat ->
  inside (advance self n) /\ unread (advance self n) = drop n (unread self).
Proof.
  unfold inside, unread. cbn. intros Hi. rewrite length_drop. intros Hn. split; [lia|]. by rewrite drop_drop.
Qed.

(** Where the reader stands between two responses: what is left of the input. *)
Record left_with (self : LoadResponseReader) (stream tail : Stream) (max : nat) (rest : bytes) : Prop := {
  lw_inside : inside self;
  lw_max : lr_max_response_bytes self = max;
  lw_stream : exists chunks, stream = stream_of chunks tail /\ Forall (fun c => c <> []) chunks
                /\ rest = unread self ++ concat chunks;
}.

(** What a reading comes to, given the outcome and the whole input. *)
Definition reads (r : result nat IoError) (input : bytes) (tail : Stream) (max : nat)
    (res : option (result nat IoError * LoadResponseReader * Stream)) : Prop :=
  exists self' stream', res = Some (r, self', stream')
    /\ forall n, r = Ok n -> left_with self' stream' tail max (drop n input).

(** One delivery more, or the end. *)
Lemma read_more chunks tail self :
  inside self -> Forall (fun c => c <> []) chunks -> stream_closes tail ->
  match chunks with
  | [] => exists r stream', read_into_load_buffer (stream_of chunks tail) (compact_if_needed self)
            = (r, compact_if_needed self, stream')
          /\ (r = Ok 0%nat /\ closing_error tail = closed_early \/ r = Err (closing_error tail))
  | chunk :: chunks => exists self',
      read_into_load_buffer (stream_of (chunk :: chunks) tail) (compact_if_needed self)
        = (Ok (length chunk), self', stream_of chunks tail)
      /\ inside self' /\ unread self' = unread self ++ chunk
      /\ lr_max_response_bytes self' = lr_max_response_bytes self
  end.
Proof.
  intros Hi Hc Ht. destruct (compact_unread self Hi) as (Hi' & Hu & Hm).
  destruct chunks as [|chunk chunks]; unfold stream_of; cbn [fmap list_fmap app read_into_load_buffer].
  - destruct tail as [|[[|]|] tail]; [..|done|]; cbn [read_into_load_buffer closing_error].
    + eauto 6.
    + eexists _, _. split; [|by left]. f_equal. f_equal. unfold with_buffer. rewrite app_nil_r.
      by destruct (compact_if_needed self).
    + eauto 6.
  - eexists. split; [reflexivity|]. cbn [with_buffer lr_max_response_bytes]. split; [|split; [|done]].
    + unfold inside in *. cbn. rewrite length_app. lia.
    + unfold unread in *. cbn. rewrite drop_app_le by done. by rewrite Hu.
Qed.

(** The verdict on a block that starts at [e] of the response. *)
Definition block_outcome (max e : nat) (block : bytes) (closed : IoError) : result nat IoError :=
  match body_end block with
  | Some n => if (max <? e + n)%nat then Err response_too_long else Ok (e + n)%nat
  | None => if (max <? e + length block)%nat then Err response_too_long else Err closed
  end.

(** Too long already when some of the block is seen. *)
Lemma block_too_long max e fed more closed :
  body_end fed = None -> (max < e + length fed)%nat ->
  block_outcome max e (fed ++ more) closed = Err response_too_long.
Proof.
  intros Hf Hm. unfold block_outcome. rewrite length_app.
  destruct (body_end (fed ++ more)) as [n|] eqn:E; [|by rewrite (proj2 (Nat.ltb_lt _ _)) by lia].
  rewrite (proj2 (Nat.ltb_lt _ _)); [done|].
  destruct (Nat.le_gt_cases n (length fed)) as [Hle|]; [|lia].
  apply body_end_take in E. rewrite take_app_le in E by done.
  pose proof (body_end_app _ (drop n fed) _ E) as E'. rewrite take_drop in E'. congruence.
Qed.

(** What is unread goes to the framer: the block ends there, or is too long, or
    goes on. *)
Lemma feed_block_ok self framer fed e chunks closed :
  inside self -> framer_inv fed framer ->
  let max := lr_max_response_bytes self in
  let outcome := block_outcome max e (fed ++ unread self ++ concat chunks) closed in
  match feed_block find_end self framer (e + length fed) with
  | (RoundReturns r, self') => r = outcome
      /\ forall n, r = Ok n -> inside self' /\ lr_max_response_bytes self' = max
           /\ (length fed <= n - e <= length fed + length (unread self))%nat /\ (e <= n)%nat
           /\ unread self' = drop (n - e - length fed) (unread self)
  | (RoundPanics, _) => False
  | (RoundReads framer' len true, self') => inside self' /\ lr_max_response_bytes self' = max
      /\ unread self' = [] /\ framer_inv (fed ++ unread self) framer'
      /\ len = (e + length (fed ++ unread self))%nat /\ (len <= max)%nat
  | (RoundReads _ _ false, _) => False
  end.
Proof.
  intros Hi Hinv max outcome. unfold feed_block, bounded_response_len.
  pose proof (framer_push_correct find_end fed framer (unread self) Hinv) as Hp.
  destruct (framer_push find_end framer (unread self)) as [framer' [|bounds]]; cbn [push_spec] in Hp.
  - rewrite <- Nat.add_assoc, <- length_app. fold max. destruct (max <? _)%nat eqn:Em.
    + apply Nat.ltb_lt in Em. split; [|done]. unfold outcome. rewrite app_assoc.
      symmetry. apply block_too_long; [by eapply framer_inv_open|lia].
    + apply Nat.ltb_ge in Em. unfold inside, unread. cbn. rewrite drop_all. split_and!; (done || lia).
  - destruct Hp as (Hc & Hend & _). fold max.
    assert (outcome = if (max <? e + length fed + chunk_consumed bounds)%nat then Err response_too_long
                      else Ok (e + length fed + chunk_consumed bounds)%nat) as Ho.
    { unfold outcome, block_outcome. rewrite app_assoc, (body_end_app _ _ _ Hend).
      by rewrite !Nat.add_assoc. }
    destruct (max <? _)%nat; rewrite Ho; (split; [done|]); [done|].
    intros n [= <-]. destruct (advance_unread self (chunk_consumed bounds) Hi) as [Hi' Hu']; [lia|].
    split; [done|]. split; [done|]. split; [lia|]. split; [lia|]. rewrite Hu'. f_equal. lia.
Qed.

(** The loop inside a block. *)
Lemma block_loop_ok fuel self framer fed e chunks tail kind expected :
  inside self -> framer_inv fed framer -> Forall (fun c => c <> []) chunks -> stream_closes tail ->
  (length chunks < fuel)%nat ->
  exists self' stream',
    let outcome := block_outcome (lr_max_response_bytes self) e (fed ++ unread self ++ concat chunks)
                     (closing_error tail) in
    read_response_loop find_end fuel self (stream_of chunks tail) kind expected framer (e + length fed) true
      = Some (outcome, self', stream')
    /\ forall n, outcome = Ok n -> (e + length fed <= n)%nat
       /\ left_with self' stream' tail (lr_max_response_bytes self)
            (drop (n - e - length fed) (unread self ++ concat chunks)).
Proof.
  revert self framer fed chunks. induction fuel as [|fuel IH]; intros self framer fed chunks Hi Hinv Hc Ht Hf; [lia|].
  cbn [read_response_loop response_round].
  pose proof (feed_block_ok self framer fed e chunks (closing_error tail) Hi Hinv) as Hfeed. cbn zeta in Hfeed.
  destruct (feed_block find_end self framer (e + length fed)) as [[r| |framer' len [|]] s1]; [|done| |done].
  - destruct Hfeed as [-> Hok]. eexists s1, _. split; [reflexivity|]. intros n Hn.
    destruct (Hok n Hn) as (Hi1 & Hm1 & Hlen & He & Hu1). split; [lia|].
    split; [done|done|]. exists chunks. split; [done|]. split; [done|]. rewrite Hu1, drop_app_le; [done|lia].
  - destruct Hfeed as (Hi1 & Hm1 & Hu1 & Hinv1 & -> & Hle).
    pose proof (read_more chunks tail s1 Hi1 Hc Ht) as Hread. destruct Hc as [|chunk chunks Hne Hc].
    + destruct Hread as (r & stream' & -> & Hr). cbn [concat]. rewrite app_nil_r.
      assert (block_outcome (lr_max_response_bytes self) e (fed ++ unread self) (closing_error tail)
              = Err (closing_error tail)) as ->.
      { unfold block_outcome. rewrite (framer_inv_open _ _ Hinv1). by rewrite (proj2 (Nat.ltb_ge _ _)). }
      destruct Hr as [[-> ->]| ->]; cbn [Nat.eqb]; eexists _, _; (split; [reflexivity|done]).
    + destruct Hread as (s2 & -> & Hi2 & Hu2 & Hm2). rewrite Hu1 in Hu2. cbn [app] in Hu2.
      destruct (length chunk =? 0)%nat eqn:El; [by apply Nat.eqb_eq, nil_length_inv in El|].
      destruct (IH s2 framer' (fed ++ unread self) chunks Hi2 Hinv1 Hc Ht) as (s' & st' & Hrun & Hok);
        [cbn in Hf; lia|]. cbn zeta in Hrun, Hok.
      rewrite Hm2, Hm1, Hu2, <- !app_assoc in Hrun, Hok. cbn [concat].
      eexists s', st'. split; [exact Hrun|]. intros n Hn. destruct (Hok n Hn) as [Hn1 Hleft].
      rewrite length_app in Hn1, Hleft. split; [lia|].
      rewrite (drop_app_ge (unread self)) by lia. rewrite Nat.sub_add_distr in Hleft. exact Hleft.
Qed.

(** A status line that is complete: the outcome is that of its message-id and of
    what follows it. *)
Lemma outcome_complete kind expected max input more closed initial e :
  initial_parse kind input = InitialComplete initial ->
  detect_response_line_end input = ResponseLineStatus.CompleteAt e ->
  load_outcome kind expected max (input ++ more) closed
  = match id_error expected (take e input) with
    | Some err => Err err
    | None =>
        if ResponseFraming.is_multiline (framing (ri_descriptor initial))
        then block_outcome max e (drop e input ++ more) closed
        else Ok e
    end.
Proof.
  intros Hi Hd. unfold load_outcome. rewrite initial_parse_extend, Hi by (by rewrite Hi).
  pose proof (detect_line_extend input more) as Hx. rewrite Hd in Hx. destruct Hx as [He ->].
  rewrite take_app_le by done. destruct (id_error _ _); [done|]. destruct (ResponseFraming.is_multiline _); [|done].
  unfold block_outcome. rewrite drop_app_le by done.
  destruct (body_end _); [done|].
  by replace (e + length (drop e input ++ more))%nat with (length (input ++ more))
    by (rewrite !length_app, length_drop; lia).
Qed.

Lemma validate_ok self kind expected :
  validate_initial_line self kind expected
  = Some match initial_parse kind (unread self), detect_response_line_end (unread self) with
         | InitialComplete initial, ResponseLineStatus.CompleteAt e =>
             match id_error expected (take e (unread self)) with
             | Some err => Err err
             | None => Ok (Some (e, ResponseFraming.is_multiline (framing (ri_descriptor initial))))
             end
         | InitialInvalid, _ => Err invalid_initial_line
         | _, _ => Ok None
         end.
Proof.
  unfold validate_initial_line. destruct (initial_parse kind (unread self)) as [initial| |] eqn:Ei; [|done|done].
  destruct (initial_complete_end _ _ _ Ei) as (e & He & _). rewrite He.
  destruct (crlf_line_end _ _ He) as [-> _]. cbn [mbind option_bind]. unfold id_error.
  destruct expected as [x|]; [|done]. destruct (response_message_id _) as [a|]; [|done]. by destruct (bytes_eqb a x).
Qed.

(** The loop before the end of the status line. *)
Lemma line_loop_ok fuel self chunks tail kind expected :
  inside self -> Forall (fun c => c <> []) chunks -> stream_closes tail -> (length chunks < fuel)%nat ->
  let input := unread self ++ concat chunks in
  reads (load_outcome kind expected (lr_max_response_bytes self) input (closing_error tail)) input tail
    (lr_max_response_bytes self)
    (read_response_loop find_end fuel self (stream_of chunks tail) kind expected framer_default 0 false).
Proof.
  revert self chunks. induction fuel as [|fuel IH]; intros self chunks Hi Hc Ht Hf input; [lia|].
  cbn [read_response_loop response_round]. rewrite validate_ok.
  destruct (initial_parse kind (unread self)) as [initial| |] eqn:Ei.
  - destruct (initial_complete_end _ _ _ Ei) as (e & He & _). rewrite He.
    destruct (crlf_line_end _ _ He) as [_ Hle]. unfold input.
    rewrite (outcome_complete _ _ _ _ (concat chunks) _ _ _ Ei He).
    destruct (id_error expected _) as [err|]; [by eexists _, _|].
    destruct (advance_unread self e Hi Hle) as [Hi1 Hu1].
    destruct (ResponseFraming.is_multiline _).
    + destruct (block_loop_ok (S fuel) (advance self e) framer_default [] e chunks tail kind expected Hi1
                  framer_inv_default Hc Ht Hf) as (s' & st' & Hrun & Hok).
      cbn [app length] in Hrun, Hok. rewrite Nat.add_0_r, Hu1 in Hrun. rewrite Hu1 in Hok.
      exists s', st'. split; [exact Hrun|]. intros n Hn. destruct (Hok n Hn) as [Hen Hleft].
      rewrite Nat.add_0_r in Hen. rewrite Nat.sub_0_r, <- drop_app_le, drop_drop in Hleft by done.
      by replace (e + (n - e))%nat with n in Hleft by lia.
    + eexists _, _. split; [reflexivity|]. intros n [= <-]. split; [done|done|].
      exists chunks. split; [done|]. split; [done|]. by rewrite Hu1, drop_app_le.
  - pose proof (read_more chunks tail self Hi Hc Ht) as Hread. destruct Hc as [|chunk chunks Hne Hc].
    + destruct Hread as (r & stream' & -> & Hr). unfold input. cbn [concat]. rewrite app_nil_r.
      unfold load_outcome. rewrite Ei.
      destruct Hr as [[-> ->]| ->]; cbn [Nat.eqb]; eexists _, _; (split; [reflexivity|done]).
    + destruct Hread as (s2 & -> & Hi2 & Hu2 & Hm2).
      destruct (length chunk =? 0)%nat eqn:El; [by apply Nat.eqb_eq, nil_length_inv in El|].
      pose proof (IH s2 chunks Hi2 Hc Ht ltac:(cbn in Hf; lia)) as H. cbn zeta in H.
      rewrite Hu2, Hm2, <- app_assoc in H. exact H.
  - unfold input, load_outcome. rewrite initial_parse_extend, Ei by (by rewrite Ei).
    by eexists _, _.
Qed.

(** C16: For every way the connection delivers its input, the reader gives what the
    specification asks for the whole input: the length of the response, its
    status line checked, its size within the limit, its message-id the expected
    one; or the error.  After a response it stands at the first byte behind it. *)
Theorem load_reader_refines (self : LoadResponseReader) (chunks : list bytes) (tail : Stream)
    (kind : RequestKind.RequestKind) (expected : option bytes) :
  inside self -> Forall (fun c => c <> []) chunks -> stream_closes tail ->
  let input := unread self ++ concat chunks in
  let max := lr_max_response_bytes self in
  reads (load_outcome kind expected max input (closing_error tail)) input tail max
    (read_response find_end self (stream_of chunks tail) kind expected).
Proof.
  intros Hi Hc Ht input max. unfold read_response, stream_of. rewrite length_app, length_fmap.
  apply line_loop_ok; try done. lia.
Qed.

Lemma receive_one self stream tail max kind expected response rest :
  left_with self stream tail max (response ++ rest) -> stream_closes tail ->
  load_outcome kind expected max (response ++ rest) (closing_error tail) = Ok (length response) ->
  exists self' stream',
    read_response find_end self stream kind expected = Some (Ok (length response), self', stream')
    /\ left_with self' stream' tail max rest.
Proof.
  intros [Hi Hm (chunks & -> & Hc & E)] Ht Ho.
  pose proof (line_loop_ok (S (length (stream_of chunks tail))) self chunks tail kind expected Hi Hc Ht)
    as (s' & st' & Hrun & Hok); [unfold stream_of; rewrite length_app, length_fmap; lia|].
  rewrite Hm, <- E, Ho in Hrun. rewrite Hm, <- E in Hok. exists s', st'. split; [exact Hrun|].
  specialize (Hok _ Ho). by rewrite drop_app_length in Hok.
Qed.

(** A response that is one whole frame and names what is expected. *)
Record whole_reply (kind : RequestKind.RequestKind) (expected : option bytes) (max : nat) (reply : bytes) : Prop := {
  wr_frame : exists initial e c, response_boundary kind reply = BoundaryAt initial e c (length reply)
               /\ id_error expected (take e reply) = None;
  wr_fits : (length reply <= max)%nat;
}.

Lemma whole_reply_outcome kind expected max reply rest closed :
  whole_reply kind expected max reply ->
  load_outcome kind expected max (reply ++ rest) closed = Ok (length reply).
Proof.
  intros [(i & e & c & Hb & Hid) Hmax].
  destruct (boundary_bounds _ _ _ _ _ _ Hb) as (Hd & Hi & He & Hc & Hm).
  rewrite (outcome_complete _ _ _ _ rest _ _ _ Hi Hd), Hid. destruct (ResponseFraming.is_multiline _).
  - destruct Hm as [_ Hn]. unfold block_outcome. rewrite (body_end_app _ _ _ Hn).
    replace (e + (length reply - e))%nat with (length reply) by lia.
    by rewrite (proj2 (Nat.ltb_ge _ _)).
  - destruct Hm as [_ ->]. done.
Qed.

(** Responses one after another: the loop of a session without its requests. *)
Fixpoint read_responses (self : LoadResponseReader) (stream : Stream)
    (asks : list (RequestKind.RequestKind * option bytes))
    : option (result (list nat) IoError * LoadResponseReader * Stream) :=
  match asks with
  | [] => Some (Ok [], self, stream)
  | (kind, expected) :: asks =>
      match read_response find_end self stream kind expected with
      | None => None
      | Some (Err e, self, stream) => Some (Err e, self, stream)
      | Some (Ok n, self, stream) =>
          match read_responses self stream asks with
          | Some (Ok lengths, self, stream) => Some (Ok (n :: lengths), self, stream)
          | other => other
          end
      end
  end.

(** Pipelined replies stay apart, whatever deliveries carry them: each request
    gets the length of its own, and nothing is left or lost. *)
Theorem load_reader_pipelined (self : LoadResponseReader) (stream tail : Stream) (max : nat)
    (replies : list (RequestKind.RequestKind * option bytes * bytes)) (rest : bytes) :
  Forall (fun x => whole_reply x.1.1 x.1.2 max x.2) replies -> stream_closes tail ->
  left_with self stream tail max (concat replies.*2 ++ rest) ->
  exists self' stream',
    read_responses self stream replies.*1 = Some (Ok (length <$> replies.*2), self', stream')
    /\ left_with self' stream' tail max rest.
Proof.
  intros Hr Ht. revert self stream. induction Hr as [|[[kind expected] reply] replies Hw _ IH]; intros self stream Hl.
  { by exists self, stream. }
  cbn [fmap list_fmap fst snd concat read_responses] in *. rewrite <- app_assoc in Hl.
  destruct (receive_one self stream tail max kind expected reply (concat replies.*2 ++ rest) Hl Ht)
    as (s1 & st1 & -> & Hl1); [by apply whole_reply_outcome|].
  destruct (IH s1 st1 Hl1) as (s2 & st2 & -> & Hl2). by exists s2, st2.
Qed.

(** What is buffered is judged as the stream is. *)
Theorem buffered_scan_agrees (self : LoadResponseReader) (kind : RequestKind.RequestKind)
    (expected : option bytes) (closed : IoError) :
  inside self ->
  exists r self', try_consume_response find_end self kind expected = Some (r, self')
    /\ match load_outcome kind expected (lr_max_response_bytes self) (unread self) closed with
       | Ok n => r = Ok (Some n) /\ inside self' /\ unread self' = drop n (unread self)
       | Err e => self' = self /\ (r = Err e \/ (r = Ok None /\ e = closed))
       end.
Proof.
  intros Hi. unfold try_consume_response. rewrite validate_ok. cbn [mbind option_bind].
  destruct (initial_parse kind (unread self)) as [initial| |] eqn:Ei.
  - destruct (initial_complete_end _ _ _ Ei) as (e & He & _). rewrite He.
    destruct (crlf_line_end _ _ He) as [_ Hle].
    pose proof (outcome_complete kind expected (lr_max_response_bytes self) _ [] closed _ _ Ei He) as Ho.
    rewrite !app_nil_r in Ho. rewrite Ho. clear Ho.
    destruct (id_error expected _) as [err|]; [eexists _, _; split; [reflexivity|]; by split; [|left]|].
    destruct (ResponseFraming.is_multiline _); cbn [negb].
    + pose proof (block_end_body_end find_end (unread self) e) as Hblock.
      unfold find_dot_terminated_block_end, get_from in Hblock.
      rewrite (proj2 (Nat.ltb_ge _ _) Hle) in Hblock. cbn [mbind option_bind] in Hblock.
      unfold block_outcome, bounded_response_len. cbn [Nat.add].
      destruct (find_dot_terminated_block find_end (unread self) e) as [block|];
        destruct (body_end (drop e (unread self))) as [n|] eqn:En; try done; cbn in Hblock.
      * injection Hblock as ->. apply body_end_bound in En. rewrite length_drop in En.
        destruct (_ <? _)%nat; eexists _, _; (split; [reflexivity|]); [by split; [|left]|].
        destruct (advance_unread self (e + n) Hi); [lia|]. done.
      * rewrite length_drop. replace (e + (length (unread self) - e))%nat with (length (unread self)) by lia.
        destruct (_ <? _)%nat; eexists _, _; (split; [reflexivity|]); (split; [done|]); [by left|by right].
    + eexists _, _. split; [reflexivity|]. destruct (advance_unread self e Hi Hle). done.
  - unfold load_outcome. rewrite Ei. eexists _, _. split; [reflexivity|]. split; [done|by right].
  - unfold load_outcome. rewrite Ei. eexists _, _. split; [reflexivity|]. split; [done|by left].
Qed.
End correct.
