(* ===== verification/LoadSession.v ===== *)
(** * A session of the load generator ([src/src/lib.rs])

    One connection of the load generator ([LoadSession]): the greeting, batches
    of requests up to the pipeline depth ([issue_load_batch],
    [write_load_batch]), one response read for each in order, the counters and
    the histograms of an offered load.  The session is a state monad over a
    world that holds what the connection delivers and takes, the clock, the
    timers, and what other sessions do to the shared flag and counters. *)
From Stdlib Require Import Floats.SpecFloat.
From S2P Require Import Prelude Decimal Memchr Args Terminator Kinds Requests ResponseLine ResponseFrame.
From S2P Require Import ClientWire ServerStore Float64 LoadSchedule LoadWorkload LoadReader.

Local Open Scope Z_scope.
Local Open Scope rust_scope.

(** ** The greeting *)

Definition greeting_overflow : IoError := invalid_data (lit "server greeting exceeded read buffer").
Definition greeting_closed : IoError :=
  {| io_kind := ErrorKind.UnexpectedEof; io_message := lit "server closed before greeting" |}.
Definition greeting_no_crlf : IoError := invalid_data (lit "server greeting missing CRLF terminator").
Definition greeting_too_long : IoError :=
  invalid_data (lit "server greeting exceeded RFC response-line limit").
Definition greeting_invalid : IoError :=
  invalid_data (lit "server greeting is not a valid NNTP response line").
Definition greeting_refused : IoError :=
  {| io_kind := ErrorKind.ConnectionRefused;
     io_message := lit "server greeting reports service unavailable" |}.
Definition greeting_status : IoError := invalid_data (lit "server greeting used an invalid status code").

(** A read of at most [n] bytes: the rest of a delivery stays for the next. *)
Definition read_some (n : nat) (stream : Stream) : result bytes IoError * Stream :=
  match stream with
  | [] => (Ok [], [])
  | Err e :: stream => (Err e, stream)
  | Ok data :: stream =>
      (Ok (take n data), if (length data <=? n)%nat then stream else Ok (drop n data) :: stream)
  end.

Section session.
Context `{Mc : !Memchr}.
Variable find_end : bytes -> option nat.

Definition validate_service_ready_greeting (line : bytes) : result unit IoError :=
  match frame_parse find_end RequestKind.Unknown line with
  | ResponseFrameParse.Complete frame =>
      let code := rf_status frame in
      if (code =? 200) || (code =? 201) then Ok tt
      else if (code =? 400) || (code =? 502) then Err greeting_refused
      else Err greeting_status
  | _ => Err greeting_invalid
  end.

(** Every round but the last adds to the buffer, which is full at the limit. *)
Fixpoint read_greeting_loop (fuel : nat) (buffer : bytes) (stream : Stream)
    : option (result unit IoError * Stream) :=
  match fuel with
  | O => None
  | S fuel' =>
      if (length buffer =? MAX_INITIAL_RESPONSE_LINE_BYTES)%nat then Some (Err greeting_overflow, stream)
      else
        match read_some (MAX_INITIAL_RESPONSE_LINE_BYTES - length buffer) stream with
        | (Err e, stream) => Some (Err e, stream)
        | (Ok [], stream) => Some (Err greeting_closed, stream)
        | (Ok data, stream) =>
            let buffer := buffer ++ data in
            match detect_bounded_response_line_end buffer MAX_INITIAL_RESPONSE_LINE_BYTES with
            | BoundedResponseLineStatus.CompleteAt line_end =>
                Some (validate_service_ready_greeting (take line_end buffer), stream)
            | BoundedResponseLineStatus.NeedMore => read_greeting_loop fuel' buffer stream
            | BoundedResponseLineStatus.Invalid => Some (Err greeting_no_crlf, stream)
            | BoundedResponseLineStatus.TooLong => Some (Err greeting_too_long, stream)
            end
        end
  end.

Definition read_greeting (stream : Stream) : option (result unit IoError * Stream) :=
  read_greeting_loop (S MAX_INITIAL_RESPONSE_LINE_BYTES) [] stream.
End session.

(** ** The world of a session *)

(** The counters shared by the sessions, as far as this one adds to them. *)
Record SharedStats : Type := {
  sh_accepted_connections : Z;
  sh_active_connections : Z;
  sh_commands : Z;
  sh_pipeline_batches : Z;
  sh_article_requests : Z;
  sh_body_requests : Z;
  sh_bytes_sent : Z;
}.

(** What becomes of one [write_all] under its two timers: a failed or abandoned
    write has sent some of its bytes from the start. *)
Inductive WriteEvent : Type :=
| WriteDone
| WriteFails (error : IoError) (sent : nat)
| WriteTimesOut (sent : nat)
| BatchTimesOut (sent : nat).

(** The streams of events are read one by one; [w_elapses] says whether a timer
    elapses before the wait it is for, [w_others_stop] and [w_others_bytes] what
    the other sessions have done when the flag and the counter are loaded. *)
Record World : Type := {
  w_stream : Stream;
  w_sent : bytes;
  w_write : nat -> WriteEvent;
  w_elapses : nat -> bool;
  w_clock : nat -> Z;
  w_stopped : bool;
  w_others_stop : nat -> bool;
  w_others_bytes : nat -> Z;
  w_stats : SharedStats;
}.

Inductive Step (A : Type) : Type :=
| Done (value : A)
| Fails (error : IoError)
| Elapsed
| Panics
| Spent.
Arguments Done {A}. Arguments Fails {A}. Arguments Elapsed {A}. Arguments Panics {A}. Arguments Spent {A}.

Definition Load (A : Type) : Type := World -> Step A * World.

#[export] Instance Load_ret : MRet Load := fun A a w => (Done a, w).
#[export] Instance Load_bind : MBind Load := fun A B k m w =>
  match m w with
  | (Done a, w) => k a w
  | (Fails e, w) => (Fails e, w)
  | (Elapsed, w) => (Elapsed, w)
  | (Panics, w) => (Panics, w)
  | (Spent, w) => (Spent, w)
  end.

Definition set_stream (w : World) (stream : Stream) : World :=
  {| w_stream := stream; w_sent := w_sent w; w_write := w_write w; w_elapses := w_elapses w;
     w_clock := w_clock w; w_stopped := w_stopped w; w_others_stop := w_others_stop w;
     w_others_bytes := w_others_bytes w; w_stats := w_stats w |}.
Definition set_stats (w : World) (stats : SharedStats) : World :=
  {| w_stream := w_stream w; w_sent := w_sent w; w_write := w_write w; w_elapses := w_elapses w;
     w_clock := w_clock w; w_stopped := w_stopped w; w_others_stop := w_others_stop w;
     w_others_bytes := w_others_bytes w; w_stats := stats |}.
Definition set_sent (w : World) (sent : bytes) (write : nat -> WriteEvent) : World :=
  {| w_stream := w_stream w; w_sent := sent; w_write := write; w_elapses := w_elapses w;
     w_clock := w_clock w; w_stopped := w_stopped w; w_others_stop := w_others_stop w;
     w_others_bytes := w_others_bytes w; w_stats := w_stats w |}.
Definition set_elapses (w : World) (elapses : nat -> bool) : World :=
  {| w_stream := w_stream w; w_sent := w_sent w; w_write := w_write w; w_elapses := elapses;
     w_clock := w_clock w; w_stopped := w_stopped w; w_others_stop := w_others_stop w;
     w_others_bytes := w_others_bytes w; w_stats := w_stats w |}.
Definition set_clock (w : World) (clock : nat -> Z) : World :=
  {| w_stream := w_stream w; w_sent := w_sent w; w_write := w_write w; w_elapses := w_elapses w;
     w_clock := clock; w_stopped := w_stopped w; w_others_stop := w_others_stop w;
     w_others_bytes := w_others_bytes w; w_stats := w_stats w |}.
Definition set_stop (w : World) (stopped : bool) (others : nat -> bool) : World :=
  {| w_stream := w_stream w; w_sent := w_sent w; w_write := w_write w; w_elapses := w_elapses w;
     w_clock := w_clock w; w_stopped := stopped; w_others_stop := others;
     w_others_bytes := w_others_bytes w; w_stats := w_stats w |}.
Definition set_others_bytes (w : World) (others : nat -> Z) : World :=
  {| w_stream := w_stream w; w_sent := w_sent w; w_write := w_write w; w_elapses := w_elapses w;
     w_clock := w_clock w; w_stopped := w_stopped w; w_others_stop := w_others_stop w;
     w_others_bytes := others; w_stats := w_stats w |}.

Definition next {A} (events : nat -> A) : nat -> A := fun n => events (S n).

Definition now : Load Z := fun w => (Done (w_clock w 0%nat), set_clock w (next (w_clock w))).

(** A wait under a timer. *)
Definition wait : Load unit := fun w =>
  let w' := set_elapses w (next (w_elapses w)) in
  if w_elapses w 0%nat then (Elapsed, w') else (Done tt, w').

Definition stop_load : Load bool := fun w =>
  (Done (w_stopped w || w_others_stop w 0%nat), set_stop w (w_stopped w) (next (w_others_stop w))).
Definition stop_store : Load unit := fun w => (Done tt, set_stop w true (w_others_stop w)).

Definition bytes_sent_load : Load Z := fun w =>
  (Done (wrapping_add (sh_bytes_sent (w_stats w)) (w_others_bytes w 0%nat)),
   set_others_bytes w (next (w_others_bytes w))).

Definition add_shared (a b : SharedStats) : SharedStats :=
  {| sh_accepted_connections := wrapping_add (sh_accepted_connections a) (sh_accepted_connections b);
     sh_active_connections := wrapping_add (sh_active_connections a) (sh_active_connections b);
     sh_commands := wrapping_add (sh_commands a) (sh_commands b);
     sh_pipeline_batches := wrapping_add (sh_pipeline_batches a) (sh_pipeline_batches b);
     sh_article_requests := wrapping_add (sh_article_requests a) (sh_article_requests b);
     sh_body_requests := wrapping_add (sh_body_requests a) (sh_body_requests b);
     sh_bytes_sent := wrapping_add (sh_bytes_sent a) (sh_bytes_sent b) |}.

(** [fetch_add] on several counters. *)
Definition fetch_add (accepted active commands batches articles bodies bytes : Z) : Load unit := fun w =>
  (Done tt, set_stats w (add_shared (w_stats w)
     {| sh_accepted_connections := accepted; sh_active_connections := active; sh_commands := commands;
        sh_pipeline_batches := batches; sh_article_requests := articles; sh_body_requests := bodies;
        sh_bytes_sent := bytes |})).

Definition try_load {A} (r : result A IoError) : Load A := fun w =>
  match r with Ok a => (Done a, w) | Err e => (Fails e, w) end.
Definition or_panics {A} (o : option A) : Load A := fun w =>
  match o with Some a => (Done a, w) | None => (Panics, w) end.

(** [time::timeout]: [None] when the timer elapses first. *)
Definition timeout {A} (m : Load A) : Load (option A) := fun w =>
  match m w with
  | (Done a, w) => (Done (Some a), w)
  | (Elapsed, w) => (Done None, w)
  | (Fails e, w) => (Fails e, w)
  | (Panics, w) => (Panics, w)
  | (Spent, w) => (Spent, w)
  end.

Definition write_timed_out : IoError :=
  {| io_kind := ErrorKind.TimedOut; io_message := lit "load write timed out" |}.

(** [time::timeout(.., stream.write_all(buffer))] inside the timer of the batch. *)
Definition write_stream (buffer : bytes) : Load unit := fun w =>
  let sent n := set_sent w (w_sent w ++ take n buffer) (next (w_write w)) in
  match w_write w 0%nat with
  | WriteDone => (Done tt, sent (length buffer))
  | WriteFails e n => (Fails e, sent n)
  | WriteTimesOut n => (Fails write_timed_out, sent n)
  | BatchTimesOut n => (Elapsed, sent n)
  end.

(** ** The session *)

Record LoadSession : Type := {
  ld_segments : option SegmentSet;
  ld_client_index : Z;
  ld_total_clients : Z;
  ld_requests : option Z;
  ld_transfer_bytes : Z;
  ld_next_id : Z;
  ld_workload_policy : LoadWorkloadPolicy.LoadWorkloadPolicy;
  ld_verification_policy : LoadVerificationPolicy.LoadVerificationPolicy;
  ld_drain_timeout : Z;
  ld_offered_rate : option f64;
  ld_latency_range : Z;
  ld_latency_precision : Z;
  ld_pipeline_depth : nat;
  ld_command_mix : ClientCommandMix.ClientCommandMix;
  ld_read_buffer_bytes : nat;
  ld_max_response_bytes : nat;
}.

Record LoadSessionOutcome : Type := {
  lo_setup_elapsed : Z;
  lo_measurement_elapsed : Z;
  lo_drain_elapsed : Z;
  lo_timed_out_connections : Z;
  lo_drained_requests : Z;
  lo_incomplete_requests : Z;
  lo_scheduled_requests : Z;
  lo_issued_requests : Z;
  lo_completed_requests : Z;
  lo_missed_issue_deadlines : Z;
  lo_peak_backlog : Z;
  lo_latency_histogram : option LatencyHistogram;
  lo_schedule_delay_histogram : option LatencyHistogram;
}.

(** [..LoadSessionOutcome::default()] after the setup. *)
Definition outcome_new (setup_elapsed timed_out_connections : Z) (histograms : option LatencyHistogram)
    : LoadSessionOutcome :=
  {| lo_setup_elapsed := setup_elapsed; lo_measurement_elapsed := 0; lo_drain_elapsed := 0;
     lo_timed_out_connections := timed_out_connections; lo_drained_requests := 0;
     lo_incomplete_requests := 0; lo_scheduled_requests := 0; lo_issued_requests := 0;
     lo_completed_requests := 0; lo_missed_issue_deadlines := 0; lo_peak_backlog := 0;
     lo_latency_histogram := histograms; lo_schedule_delay_histogram := histograms |}.

Definition merge_histograms (a b : option LatencyHistogram) : option LatencyHistogram :=
  match a, b with
  | Some histogram, Some other => Some (histogram_merge histogram other)
  | None, Some other => Some other
  | _, _ => a
  end.

(** The sums count requests and connections of one run, and do not overflow. *)
Definition outcome_merge (self other : LoadSessionOutcome) : LoadSessionOutcome :=
  {| lo_setup_elapsed := Z.max (lo_setup_elapsed self) (lo_setup_elapsed other);
     lo_measurement_elapsed := Z.max (lo_measurement_elapsed self) (lo_measurement_elapsed other);
     lo_drain_elapsed := Z.max (lo_drain_elapsed self) (lo_drain_elapsed other);
     lo_timed_out_connections := lo_timed_out_connections self + lo_timed_out_connections other;
     lo_drained_requests := lo_drained_requests self + lo_drained_requests other;
     lo_incomplete_requests := lo_incomplete_requests self + lo_incomplete_requests other;
     lo_scheduled_requests := lo_scheduled_requests self + lo_scheduled_requests other;
     lo_issued_requests := lo_issued_requests self + lo_issued_requests other;
     lo_completed_requests := lo_completed_requests self + lo_completed_requests other;
     lo_missed_issue_deadlines := lo_missed_issue_deadlines self + lo_missed_issue_deadlines other;
     lo_peak_backlog := Z.max (lo_peak_backlog self) (lo_peak_backlog other);
     lo_latency_histogram := merge_histograms (lo_latency_histogram self) (lo_latency_histogram other);
     lo_schedule_delay_histogram :=
       merge_histograms (lo_schedule_delay_histogram self) (lo_schedule_delay_histogram other) |}.

(** One request of a batch, with the delay of its issue. *)
Definition outcome_issued (self : LoadSessionOutcome) (delay : Z) : LoadSessionOutcome :=
  {| lo_setup_elapsed := lo_setup_elapsed self; lo_measurement_elapsed := lo_measurement_elapsed self;
     lo_drain_elapsed := lo_drain_elapsed self;
     lo_timed_out_connections := lo_timed_out_connections self;
     lo_drained_requests := lo_drained_requests self;
     lo_incomplete_requests := lo_incomplete_requests self;
     lo_scheduled_requests := u64_saturating_add (lo_scheduled_requests self) 1;
     lo_issued_requests := u64_saturating_add (lo_issued_requests self) 1;
     lo_completed_requests := lo_completed_requests self;
     lo_missed_issue_deadlines :=
       if delay =? 0 then lo_missed_issue_deadlines self
       else u64_saturating_add (lo_missed_issue_deadlines self) 1;
     lo_peak_backlog := lo_peak_backlog self; lo_latency_histogram := lo_latency_histogram self;
     lo_schedule_delay_histogram :=
       (fun histogram => record histogram delay) <$> lo_schedule_delay_histogram self |}.

Definition outcome_backlog (self : LoadSessionOutcome) (backlog : Z) : LoadSessionOutcome :=
  {| lo_setup_elapsed := lo_setup_elapsed self; lo_measurement_elapsed := lo_measurement_elapsed self;
     lo_drain_elapsed := lo_drain_elapsed self;
     lo_timed_out_connections := lo_timed_out_connections self;
     lo_drained_requests := lo_drained_requests self;
     lo_incomplete_requests := lo_incomplete_requests self;
     lo_scheduled_requests := lo_scheduled_requests self; lo_issued_requests := lo_issued_requests self;
     lo_completed_requests := lo_completed_requests self;
     lo_missed_issue_deadlines := lo_missed_issue_deadlines self;
     lo_peak_backlog := Z.max (lo_peak_backlog self) backlog;
     lo_latency_histogram := lo_latency_histogram self;
     lo_schedule_delay_histogram := lo_schedule_delay_histogram self |}.

(** A response of an offered load; [latency] when its issue was noted. *)
Definition outcome_completed (self : LoadSessionOutcome) (latency : option Z) : LoadSessionOutcome :=
  {| lo_setup_elapsed := lo_setup_elapsed self; lo_measurement_elapsed := lo_measurement_elapsed self;
     lo_drain_elapsed := lo_drain_elapsed self;
     lo_timed_out_connections := lo_timed_out_connections self;
     lo_drained_requests := lo_drained_requests self;
     lo_incomplete_requests := lo_incomplete_requests self;
     lo_scheduled_requests := lo_scheduled_requests self; lo_issued_requests := lo_issued_requests self;
     lo_completed_requests := lo_completed_requests self + 1;
     lo_missed_issue_deadlines := lo_missed_issue_deadlines self;
     lo_peak_backlog := lo_peak_backlog self;
     lo_latency_histogram :=
       match latency with
       | Some latency => (fun histogram => record histogram latency) <$> lo_latency_histogram self
       | None => lo_latency_histogram self
       end;
     lo_schedule_delay_histogram := lo_schedule_delay_histogram self |}.

Definition outcome_drained (self : LoadSessionOutcome) : LoadSessionOutcome :=
  {| lo_setup_elapsed := lo_setup_elapsed self; lo_measurement_elapsed := lo_measurement_elapsed self;
     lo_drain_elapsed := lo_drain_elapsed self;
     lo_timed_out_connections := lo_timed_out_connections self;
     lo_drained_requests := lo_drained_requests self + 1;
     lo_incomplete_requests := lo_incomplete_requests self;
     lo_scheduled_requests := lo_scheduled_requests self; lo_issued_requests := lo_issued_requests self;
     lo_completed_requests := lo_completed_requests self;
     lo_missed_issue_deadlines := lo_missed_issue_deadlines self;
     lo_peak_backlog := lo_peak_backlog self; lo_latency_histogram := lo_latency_histogram self;
     lo_schedule_delay_histogram := lo_schedule_delay_histogram self |}.

(** How the phases end: [drain] and [timed_out] for a timer that elapsed. *)
Definition outcome_ended (self : LoadSessionOutcome) (measurement drain timed_out incomplete : Z)
    : LoadSessionOutcome :=
  {| lo_setup_elapsed := lo_setup_elapsed self; lo_measurement_elapsed := measurement;
     lo_drain_elapsed := drain; lo_timed_out_connections := timed_out;
     lo_drained_requests := lo_drained_requests self; lo_incomplete_requests := incomplete;
     lo_scheduled_requests := lo_scheduled_requests self; lo_issued_requests := lo_issued_requests self;
     lo_completed_requests := lo_completed_requests self;
     lo_missed_issue_deadlines := lo_missed_issue_deadlines self;
     lo_peak_backlog := lo_peak_backlog self; lo_latency_histogram := lo_latency_histogram self;
     lo_schedule_delay_histogram := lo_schedule_delay_histogram self |}.

Definition elapsed_since (started : Z) : Load Z :=
  instant ← now; mret (saturating_duration_since instant started).

Section operations.
Context `{Mc : !Memchr}.
Variable find_end : bytes -> option nat.
Variable self : LoadSession.

(** The outer [None] is a panic, the inner one an unverified response. *)
Definition expected_message_id (command_id request_index : Z) : option (result (option bytes) IoError) :=
  if negb (verifies (ld_verification_policy self) request_index) then Some (Ok None)
  else
    let synthetic_id :=
      synthetic_request_id (ld_next_id self) (ld_client_index self) request_index (ld_total_clients self)
        (ld_workload_policy self) in
    message_id ← request_message_id_for_command (client_command_kind command_id (ld_command_mix self))
                   synthetic_id request_index (ld_segments self) (ld_client_index self)
                   (ld_total_clients self);
    Some (let? message_id := message_id in Ok (Some message_id)).

Definition timeout_outcome (outcome : LoadSessionOutcome) (measurement_started : Z) (in_flight : nat)
    : Load LoadSessionOutcome :=
  elapsed ← elapsed_since measurement_started;
  mret (outcome_ended outcome elapsed (ld_drain_timeout self) 1 (Z.of_nat in_flight)).

Definition transfer_limit_reached : Load bool :=
  if ld_transfer_bytes self =? 0 then mret false
  else sent ← bytes_sent_load; mret (ld_transfer_bytes self <=? sent).

(** [issued + filled as u64], which the build checks. *)
Definition u64_add (a : Z) (b : nat) : option Z :=
  if u64_max <? a + Z.of_nat b then None else Some (a + Z.of_nat b).

Definition within_requests (issued : Z) (filled : nat) : option bool :=
  match ld_requests self with
  | None => Some true
  | Some requests => request_index ← u64_add issued filled; Some (request_index <? requests)
  end.

Definition workload_request (request_index : Z) : LoadWorkloadRequest :=
  {| lw_command_id := wrapping_add (ld_next_id self) request_index;
     lw_synthetic_id :=
       synthetic_request_id (ld_next_id self) (ld_client_index self) request_index
         (ld_total_clients self) (ld_workload_policy self);
     lw_request_index := request_index; lw_mix := ld_command_mix self; lw_segments := ld_segments self;
     lw_client_index := ld_client_index self; lw_total_clients := ld_total_clients self |}.

(** The condition of the [while], evaluated from the left; [room] is what is
    left of the capacity. *)
Definition batch_goes_on (issued : Z) (filled : nat) : Load bool :=
  stopped ← stop_load;
  if stopped : bool then mret false
  else
    within ← or_panics (within_requests issued filled);
    if negb within then mret false
    else reached ← transfer_limit_reached; mret (negb reached).

Fixpoint fill_batch (room : nat) (issued : Z) (filled : nat) (buffer : bytes) : Load (nat * bytes) :=
  match room with
  | O => mret (filled, buffer)
  | S room' =>
      more ← batch_goes_on issued filled;
      if negb more then mret (filled, buffer)
      else
        request_index ← or_panics (u64_add issued filled);
        appended ← or_panics (append_load_workload_request buffer (workload_request request_index));
        buffer ← try_load appended;
        fill_batch room' issued (S filled) buffer
  end.

Definition write_load_batch (issued : Z) (capacity : nat) : Load nat :=
  batch ← fill_batch capacity issued 0 [];
  let '(filled, buffer) := batch in
  (if (filled =? 0)%nat then mret tt else write_stream buffer ≫= fun _ => fetch_add 0 0 0 1 0 0 0)
  ≫= fun _ => mret filled.

(** Issuing a batch of an offered load waits for the first deadline first. *)
Definition sleep_until (schedule : OfferedLoadSchedule) (issued : Z) : Load unit :=
  instant ← now;
  match checked_duration_since (deadline schedule issued) instant with
  | Some _ => wait
  | None => mret tt
  end.

(** The accounts of the requests issued at one instant. *)
Fixpoint issue_all (schedule : OfferedLoadSchedule) (issued actual_issue : Z) (indices : list nat)
    (outcome : LoadSessionOutcome) : LoadSessionOutcome :=
  match indices with
  | [] => outcome
  | index :: indices =>
      let request_index := u64_saturating_add issued (Z.of_nat index) in
      let delay := saturating_duration_since actual_issue (deadline schedule request_index) in
      issue_all schedule issued actual_issue indices (outcome_issued outcome delay)
  end.

(** What a batch adds: the requests, the outcome and the instants of issue. *)
Definition issue_load_batch (issued : Z) (capacity : nat) (schedule : option OfferedLoadSchedule)
    (outcome : LoadSessionOutcome) (issued_times : list Z)
    : Load (nat * LoadSessionOutcome * list Z) :=
  match schedule with
  | None => filled ← write_load_batch issued capacity; mret (filled, outcome, issued_times)
  | Some schedule =>
      sleep_until schedule issued ≫= fun _ =>
      filled ← write_load_batch issued capacity;
      actual_issue ← now;
      let outcome := issue_all schedule issued actual_issue (seq 0 filled) outcome in
      let backlog := u64_saturating_sub (due_count schedule actual_issue)
                       (u64_saturating_add issued (Z.of_nat filled)) in
      mret (filled, outcome_backlog outcome backlog, issued_times ++ replicate filled actual_issue)
  end.

(** The session's own counters, flushed into the shared ones. *)
Record LocalStats : Type := { lc_commands : Z; lc_article_requests : Z; lc_body_requests : Z }.

Definition LOAD_STATS_FLUSH_COMMANDS : Z := 1024.
Definition local_default : LocalStats :=
  {| lc_commands := 0; lc_article_requests := 0; lc_body_requests := 0 |}.

Definition flush_load_session_stats (stats : LocalStats) : Load LocalStats :=
  if lc_commands stats =? 0 then mret stats
  else
    fetch_add 0 0 (lc_commands stats) 0 (lc_article_requests stats) (lc_body_requests stats) 0 ≫= fun _ =>
    mret local_default.

(** [None] is the [unreachable!] of the mixes. *)
Definition count_command (stats : LocalStats) (kind : ClientCommandMix.ClientCommandMix) : option LocalStats :=
  let commands := wrapping_add (lc_commands stats) 1 in
  match kind with
  | ClientCommandMix.Article =>
      Some {| lc_commands := commands; lc_article_requests := wrapping_add (lc_article_requests stats) 1;
              lc_body_requests := lc_body_requests stats |}
  | ClientCommandMix.Body =>
      Some {| lc_commands := commands; lc_article_requests := lc_article_requests stats;
              lc_body_requests := wrapping_add (lc_body_requests stats) 1 |}
  | ClientCommandMix.Stat =>
      Some {| lc_commands := commands; lc_article_requests := lc_article_requests stats;
              lc_body_requests := lc_body_requests stats |}
  | _ => None
  end.

(** The variables of the loop. *)
Record Progress : Type := {
  pg_reader : LoadResponseReader;
  pg_issued : Z;
  pg_received : Z;
  pg_in_flight : nat;
  pg_issued_times : list Z;
  pg_stats : LocalStats;
  pg_outcome : LoadSessionOutcome;
}.

Definition read_from_stream (reader : LoadResponseReader) (kind : RequestKind.RequestKind)
    (expected : option bytes) : Load (nat * LoadResponseReader) := fun w =>
  match read_response find_end reader (w_stream w) kind expected with
  | None => (Panics, w)
  | Some (Err e, _, stream) => (Fails e, set_stream w stream)
  | Some (Ok len, reader, stream) => (Done (len, reader), set_stream w stream)
  end.
Definition receive_response (reader : LoadResponseReader) (kind : RequestKind.RequestKind)
    (expected : option bytes) : Load (nat * LoadResponseReader) :=
  wait ≫= fun _ => read_from_stream reader kind expected.

(** A batch under its timer; [None] when it elapsed. *)
Definition refill (schedule : option OfferedLoadSchedule) (capacity : nat) (p : Progress)
    : Load (option Progress) :=
  batch ← timeout (issue_load_batch (pg_issued p) capacity schedule (pg_outcome p) (pg_issued_times p));
  mret match batch with
       | None => None
       | Some (filled, outcome, issued_times) =>
           Some {| pg_reader := pg_reader p; pg_issued := wrapping_add (pg_issued p) (Z.of_nat filled);
                   pg_received := pg_received p; pg_in_flight := (pg_in_flight p + filled)%nat;
                   pg_issued_times := issued_times; pg_stats := pg_stats p; pg_outcome := outcome |}
       end.

(** The latency of a response, and the instants still noted. *)
Definition latency_of (schedule : option OfferedLoadSchedule) (p : Progress)
    : Load (list Z * LoadSessionOutcome) :=
  match schedule with
  | None => mret (pg_issued_times p, pg_outcome p)
  | Some _ =>
      match pg_issued_times p, lo_latency_histogram (pg_outcome p) with
      | issued_at :: issued_times, Some _ =>
          latency ← elapsed_since issued_at;
          mret (issued_times, outcome_completed (pg_outcome p) (Some latency))
      | issued_times, _ => mret (tail issued_times, outcome_completed (pg_outcome p) None)
      end
  end.

(** The accounts of one response. *)
Definition account (schedule : option OfferedLoadSchedule) (command_id : Z) (len : nat)
    (reader : LoadResponseReader) (p : Progress) : Load Progress :=
  was_draining ← stop_load;
  latency ← latency_of schedule p;
  let '(issued_times, outcome) := latency in
  fetch_add 0 0 0 0 0 0 (Z.of_nat len) ≫= fun _ =>
  let outcome := if was_draining : bool then outcome_drained outcome else outcome in
  stats ← or_panics (count_command (pg_stats p) (client_command_kind command_id (ld_command_mix self)));
  stats ← (if LOAD_STATS_FLUSH_COMMANDS <=? lc_commands stats then flush_load_session_stats stats
           else mret stats);
  reached ← transfer_limit_reached;
  (if reached : bool then stop_store else mret tt) ≫= fun _ =>
  mret {| pg_reader := reader; pg_issued := pg_issued p; pg_received := wrapping_add (pg_received p) 1;
          pg_in_flight := (pg_in_flight p - 1)%nat; pg_issued_times := issued_times; pg_stats := stats;
          pg_outcome := outcome |}.

(** The end of [run_inner]: the counters are flushed. *)
Definition finish (measurement_started : Z) (p : Progress) : Load LoadSessionOutcome :=
  elapsed ← elapsed_since measurement_started;
  flush_load_session_stats (pg_stats p) ≫= fun _ =>
  let outcome := pg_outcome p in
  mret (outcome_ended outcome elapsed (lo_drain_elapsed outcome) (lo_timed_out_connections outcome)
          (lo_incomplete_requests outcome)).

(** Every round reads a response. *)
Fixpoint session_loop (fuel : nat) (schedule : option OfferedLoadSchedule) (measurement_started : Z)
    (p : Progress) : Load LoadSessionOutcome :=
  match fuel with
  | O => fun w => (Spent, w)
  | S fuel' =>
      refilled ← (if (pg_in_flight p =? 0)%nat then refill schedule (ld_pipeline_depth self) p
                  else mret (Some p));
      match refilled with
      | None => timeout_outcome (pg_outcome p) measurement_started (pg_in_flight p)
      | Some p =>
          if (pg_in_flight p =? 0)%nat then finish measurement_started p
          else
            let command_id := wrapping_add (ld_next_id self) (pg_received p) in
            kind ← or_panics (request_kind_for_client_command command_id (ld_command_mix self));
            expected ← or_panics (expected_message_id command_id (pg_received p));
            expected ← try_load expected;
            response ← timeout (receive_response (pg_reader p) kind expected);
            match response with
            | None => timeout_outcome (pg_outcome p) measurement_started (pg_in_flight p)
            | Some (len, reader) =>
                p ← account schedule command_id len reader p;
                refilled ← (if (pg_in_flight p <=? ld_pipeline_depth self / 2)%nat
                            then refill schedule (ld_pipeline_depth self - pg_in_flight p) p
                            else mret (Some p));
                match refilled with
                | None => timeout_outcome (pg_outcome p) measurement_started (pg_in_flight p)
                | Some p => session_loop fuel' schedule measurement_started p
                end
            end
      end
  end.

(** [OfferedLoadSchedule::new(..)?] *)
Definition make_schedule (started : Z) : Load (option OfferedLoadSchedule) :=
  match ld_offered_rate self with
  | None => mret None
  | Some rate =>
      schedule ← or_panics (schedule_new rate started);
      schedule ← try_load schedule;
      mret (Some schedule)
  end.

Definition make_histogram (schedule : option OfferedLoadSchedule) : Load (option LatencyHistogram) :=
  match schedule with
  | None => mret None
  | Some _ =>
      histogram ← try_load (histogram_new (ld_latency_range self) (ld_latency_precision self));
      mret (Some histogram)
  end.

(** Connecting is outside the model: [connected] is what it gives.  The greeting
    is read under the timer of the setup. *)
Definition greet (stream : Stream) : Load unit := fun w =>
  match read_greeting find_end stream with
  | None => (Spent, w)
  | Some (Err e, stream) => (Fails e, set_stream w stream)
  | Some (Ok _, stream) => (Done tt, set_stream w stream)
  end.
Definition setup (connected : result Stream IoError) : Load unit :=
  wait ≫= fun _ => stream ← try_load connected; greet stream.

(** One response has five bytes at least, so the bytes of the stream are fuel. *)
Definition stream_size (stream : Stream) : nat :=
  length (concat ((fun d => match d with Ok data => data | Err _ => [] end) <$> stream)).

Definition session_start (schedule : option OfferedLoadSchedule) (measurement_started setup_elapsed : Z)
    (histogram : option LatencyHistogram) : Load LoadSessionOutcome := fun w =>
  session_loop (S (stream_size (w_stream w))) schedule measurement_started
    {| pg_reader := reader_new (ld_read_buffer_bytes self) (ld_max_response_bytes self);
       pg_issued := 0; pg_received := 0; pg_in_flight := 0; pg_issued_times := [];
       pg_stats := local_default; pg_outcome := outcome_new setup_elapsed 0 histogram |} w.

Definition run_inner (connected : result Stream IoError) : Load LoadSessionOutcome :=
  setup_started ← now;
  connection ← timeout (setup connected);
  setup_elapsed ← elapsed_since setup_started;
  match connection with
  | None => mret (outcome_new setup_elapsed 1 None)
  | Some _ =>
      measurement_started ← now;
      schedule ← make_schedule measurement_started;
      histogram ← make_histogram schedule;
      session_start schedule measurement_started setup_elapsed histogram
  end.

(** The connection is counted as active while the session runs, however it ends. *)
Definition run (connected : result Stream IoError) : Load LoadSessionOutcome := fun w =>
  match fetch_add 1 1 0 0 0 0 0 w with
  | (Done _, w) =>
      let '(outcome, w) := run_inner connected w in
      (outcome, snd (fetch_add 0 (-1) 0 0 0 0 0 w))
  | (_, w) => (Spent, w)
  end.
End operations.
