(* ===== verification/LoadRuns.v ===== *)
(** * Runs of a load session ([src/src/lib.rs])

    A session of the load generator against a server that answers: it asks for
    the requests of its share in order, each response is read for its own
    request, and the session ends with every issued request answered and
    counted.  The session may be stopped at any time by others; the requests
    issued until then are answered all the same. *)
From Stdlib Require Import Floats.SpecFloat.
From S2P Require Import Prelude Decimal Memchr Args Terminator Kinds Requests ResponseLine ResponseFrame.
From S2P Require Import ClientWire ArticleStore ServerStore Float64 LoadSchedule LoadWorkload LoadReader LoadSession.

Local Open Scope Z_scope.
Local Open Scope rust_scope.

(** ** The logic: a computation that ends well *)

Definition runs {A} (m : Load A) (Q : A -> World -> Prop) (w : World) : Prop :=
  match m w with (Done a, w') => Q a w' | _ => False end.

Lemma runs_bind {A B} (m : Load A) (k : A -> Load B) Q w :
  runs m (fun a w' => runs (k a) Q w') w -> runs (m ≫= k) Q w.
Proof. unfold runs, mbind, Load_bind. by destruct (m w) as [[| | | |] w']. Qed.

Lemma runs_ret {A} (a : A) (Q : A -> World -> Prop) w : Q a w -> runs (mret a) Q w.
Proof. done. Qed.

Lemma runs_mono {A} (m : Load A) (P Q : A -> World -> Prop) w :
  (forall a w', P a w' -> Q a w') -> runs m P w -> runs m Q w.
Proof. unfold runs. intros H. destruct (m w) as [[| | | |] w']; auto. Qed.

Lemma runs_timeout {A} (m : Load A) Q w :
  runs m (fun a w' => Q (Some a) w') w -> runs (timeout m) Q w.
Proof. unfold runs, timeout. by destruct (m w) as [[| | | |] w']. Qed.

(** No timer elapses, no write fails. *)
Record calm (w : World) : Prop := {
  cm_elapses n : w_elapses w n = false;
  cm_write n : w_write w n = WriteDone;
}.

(** Nobody stops the session. *)
Record free (w : World) : Prop := {
  fr_stopped : w_stopped w = false;
  fr_others n : w_others_stop w n = false;
}.

(** What operations that only look at the world keep. *)
Record kept (w w' : World) : Prop := {
  kp_stream : w_stream w' = w_stream w;
  kp_sent : w_sent w' = w_sent w;
  kp_stats : w_stats w' = w_stats w;
  kp_calm : calm w -> calm w';
  kp_free : free w -> free w';
}.

#[export] Instance kept_preorder : PreOrder kept.
Proof.
  split; [by intros w; split|]. intros w1 w2 w3 [S1 T1 U1 C1 F1] [S2 T2 U2 C2 F2].
  split; [congruence..|auto|auto].
Qed.

Ltac kept_step := split; [done..| |]; intros [? ?]; by split.

Lemma runs_now Q w : (forall t w', kept w w' -> Q t w') -> runs now Q w.
Proof. intros H. apply H. kept_step. Qed.

Lemma runs_elapsed_since started Q w :
  (forall t w', kept w w' -> Q t w') -> runs (elapsed_since started) Q w.
Proof. intros H. apply runs_bind, runs_now. intros t w' Hk. by apply H. Qed.

Lemma runs_wait Q w : calm w -> (forall w', kept w w' -> Q tt w') -> runs wait Q w.
Proof.
  intros Hc H. unfold runs, wait. rewrite (cm_elapses _ Hc). apply H.
  split; [done..| |]; intros [He Hw]; split; [|done|done|done]. intros n. apply He.
Qed.

Lemma runs_stop_load Q w :
  (forall b w', kept w w' -> (free w -> b = false) -> Q b w') -> runs stop_load Q w.
Proof.
  intros H. apply H.
  - split; [done..| |]; intros [? Ho]; split; [done|done|done|]. intros n. apply Ho.
  - intros [-> Ho]. by rewrite Ho.
Qed.

Lemma runs_bytes_sent_load Q w : (forall n w', kept w w' -> Q n w') -> runs bytes_sent_load Q w.
Proof. intros H. apply H. kept_step. Qed.

Lemma runs_or_panics {A} (o : option A) a (Q : A -> World -> Prop) w :
  o = Some a -> Q a w -> runs (or_panics o) Q w.
Proof. by intros ->. Qed.

Lemma runs_try {A} (r : result A IoError) a (Q : A -> World -> Prop) w :
  r = Ok a -> Q a w -> runs (try_load r) Q w.
Proof. by intros ->. Qed.

(** ** The requests of a session *)

Lemma wrapping_add_assoc a b c : wrapping_add (wrapping_add a b) c = wrapping_add a (b + c).
Proof. unfold wrapping_add, wrap. rewrite Z.add_mod_idemp_l by lia. f_equal. lia. Qed.

(** A share of [n] requests, and a workload that is defined for all of them. *)
Record share_ok (self : LoadSession) (n : nat) : Prop := {
  so_requests : ld_requests self = Some (Z.of_nat n);
  so_bound : Z.of_nat n <= u64_max;
  so_depth : (1 <= ld_pipeline_depth self)%nat;
  so_next_id : 0 <= ld_next_id self <= u64_max;
  so_segments : match ld_segments self with
                | None => True
                | Some segments =>
                    seg_ids segments <> [] /\ Forall message_id_shape (seg_ids segments)
                    /\ 0 <= ld_client_index self /\ 0 <= ld_total_clients self
                    /\ ld_client_index self + Z.of_nat n * ld_total_clients self <= u64_max
                end;
}.

Section requests.
Context (self : LoadSession) (n : nat) (Hshare : share_ok self n).

Lemma wrap_range a : 0 <= wrap a <= u64_max.
Proof. unfold wrap, u64_max. pose proof (Z.mod_pos_bound a 18446744073709551616). lia. Qed.

Lemma synthetic_id_range start client index total policy :
  0 <= start <= u64_max -> 0 <= synthetic_request_id start client index total policy <= u64_max.
Proof. intros Hs. destruct policy; [apply wrap_range..|done]. Qed.

(** The message-id a request names. *)
Definition named_id (k : nat) : bytes :=
  match ld_segments self with
  | Some segments =>
      default [] (segment_for_request segments (ld_client_index self) (ld_total_clients self) (Z.of_nat k))
  | None =>
      synthetic_message_id
        (synthetic_request_id (ld_next_id self) (ld_client_index self) (Z.of_nat k) (ld_total_clients self)
           (ld_workload_policy self))
  end.

Definition kind_of (k : nat) : RequestKind.RequestKind :=
  default RequestKind.Unknown
    (request_kind_for_client_command (wrapping_add (ld_next_id self) (Z.of_nat k)) (ld_command_mix self)).

Definition verb_of (kind : RequestKind.RequestKind) : bytes :=
  match kind with
  | RequestKind.Article => lit "ARTICLE "
  | RequestKind.Body => lit "BODY "
  | _ => lit "STAT "
  end.

(** The command line of a request, and the message-id its response must have. *)
Definition request_text (k : nat) : bytes := verb_of (kind_of k) ++ named_id k.
Definition expected_of (k : nat) : option bytes :=
  if verifies (ld_verification_policy self) (Z.of_nat k) then Some (named_id k) else None.

Lemma segment_named segments k :
  ld_segments self = Some segments -> (k < n)%nat ->
  exists id, segment_for_request segments (ld_client_index self) (ld_total_clients self) (Z.of_nat k) = Some id
    /\ message_id_shape id.
Proof.
  intros Hs Hk. pose proof (so_segments _ _ Hshare) as H. rewrite Hs in H.
  destruct H as (Hne & Hids & Hc & Ht & Hmax). unfold segment_for_request, segment_ref_for_request.
  assert (wrapping_mul (Z.of_nat k) (ld_total_clients self) = Z.of_nat k * ld_total_clients self) as ->.
  { unfold wrapping_mul, wrap. apply Z.mod_small. unfold u64_max in Hmax. nia. }
  set (sum := ld_client_index self + Z.of_nat k * ld_total_clients self).
  assert (0 <= sum <= u64_max) by (unfold sum; nia).
  rewrite (proj2 (Z.ltb_ge _ _)) by lia.
  assert (0 < Z.of_nat (length (seg_ids segments))) by (destruct (seg_ids segments); [done|cbn; lia]).
  rewrite (proj2 (Z.eqb_neq _ _)) by lia. cbn [orb].
  pose proof (Z.mod_pos_bound sum (Z.of_nat (length (seg_ids segments)))).
  destruct (lookup_lt_is_Some_2 (seg_ids segments) (Z.to_nat (sum mod Z.of_nat (length (seg_ids segments)))))
    as [id Hid]; [lia|].
  exists id. split; [exact Hid|]. rewrite Forall_lookup in Hids. by apply (Hids _ _ Hid).
Qed.

Lemma named_id_shape k : (k < n)%nat -> message_id_shape (named_id k).
Proof.
  intros Hk. unfold named_id. destruct (ld_segments self) as [segments|] eqn:Es.
  - destruct (segment_named segments k Es Hk) as (id & -> & Hid). done.
  - apply synthetic_message_id_shape, synthetic_id_range, (so_next_id _ _ Hshare).
Qed.

Lemma kind_of_ok k :
  request_kind_for_client_command (wrapping_add (ld_next_id self) (Z.of_nat k)) (ld_command_mix self)
    = Some (kind_of k)
  /\ (kind_of k = RequestKind.Article \/ kind_of k = RequestKind.Body \/ kind_of k = RequestKind.Stat).
Proof.
  unfold kind_of. destruct (request_kind_normalized (wrapping_add (ld_next_id self) (Z.of_nat k)) (ld_command_mix self))
    as (kind & -> & H). done.
Qed.

Lemma append_ok buffer k :
  (k < n)%nat ->
  append_load_workload_request buffer (workload_request self (Z.of_nat k))
  = Some (Ok (buffer ++ request_text k ++ CRLF)).
Proof.
  intros Hk. unfold append_load_workload_request, workload_request.
  cbn [lw_command_id lw_mix lw_segments lw_client_index lw_total_clients lw_request_index lw_synthetic_id].
  destruct (kind_of_ok k) as [Hkind Hcases]. unfold request_kind_for_client_command in Hkind. rewrite Hkind.
  cbn [mbind option_bind].
  assert (allows_throughput_pipeline (coordination (kind_of k)) = true) as ->
    by (destruct Hcases as [->|[->| ->]]; reflexivity).
  cbn [negb]. set (id := match ld_segments self with Some _ => _ | None => _ end).
  assert (id = Some (named_id k)) as ->.
  { unfold id, named_id. destruct (ld_segments self) as [segments|] eqn:Es; [|done].
    destruct (segment_named segments k Es Hk) as (m & -> & _). done. }
  unfold request_text. destruct (client_command_kind _ _); cbn in Hkind; try done;
    injection Hkind as <-; cbn [mbind option_bind verb_of]; by rewrite <- app_assoc.
Qed.

Lemma expected_ok k :
  (k < n)%nat ->
  expected_message_id self (wrapping_add (ld_next_id self) (Z.of_nat k)) (Z.of_nat k)
  = Some (Ok (expected_of k)).
Proof.
  intros Hk. unfold expected_message_id, expected_of. destruct (verifies _ _); [|done]. cbn [negb].
  unfold request_message_id_for_command. pose proof (named_id_shape k Hk) as Hshape. unfold named_id in *.
  destruct (ld_segments self) as [segments|] eqn:Es.
  - by destruct (segment_named segments k Es Hk) as (id & -> & _).
  - destruct (kind_of_ok k) as [Hkind _]. unfold request_kind_for_client_command in Hkind.
    destruct (synthetic_message_id_shape _ (synthetic_id_range _ (ld_client_index self) (Z.of_nat k)
      (ld_total_clients self) (ld_workload_policy self) (so_next_id _ _ Hshare))) as [_ Hlen].
    destruct (client_command_kind _ _); try done;
      unfold array_string; rewrite (proj2 (Nat.leb_le _ _) Hlen); cbn [ok_or mbind option_bind];
      by rewrite (proj2 (message_id_from_borrowed_Ok _ _) (conj eq_refl Hshape)).
Qed.
End requests.

(** ** Batches *)

Section runs.
Context `{Mc : !Memchr, Ms : !MemchrSpec}.
Context (find_end : bytes -> option nat) `{Hfe : !TerminatorFinder find_end}.
Context (self : LoadSession) (n : nat) (Hshare : share_ok self n).

Definition texts (from count : nat) : bytes :=
  concat ((fun k => request_text self k ++ CRLF) <$> seq from count).

Lemma texts_add from a b : texts from (a + b) = texts from a ++ texts (from + a) b.
Proof. unfold texts. by rewrite seq_app, fmap_app, concat_app. Qed.

(** Nothing but the share ends the session. *)
Definition undisturbed (w : World) : Prop := free w /\ ld_transfer_bytes self = 0.

Lemma undisturbed_kept w w' : kept w w' -> undisturbed w -> undisturbed w'.
Proof. intros Hk [Hf Ht]. split; [by apply Hk|done]. Qed.

Lemma runs_limit Q w :
  (forall b w', kept w w' -> (ld_transfer_bytes self = 0 -> b = false) -> Q b w') ->
  runs (transfer_limit_reached self) Q w.
Proof.
  intros H. unfold transfer_limit_reached. destruct (Z.eqb_spec (ld_transfer_bytes self) 0).
  - by apply H.
  - apply runs_bind, runs_bytes_sent_load. intros sent w' Hk. by apply H.
Qed.

Lemma u64_add_ok i filled : (i + filled <= n)%nat -> u64_add (Z.of_nat i) filled = Some (Z.of_nat (i + filled)).
Proof.
  intros H. pose proof (so_bound _ _ Hshare). unfold u64_add. rewrite (proj2 (Z.ltb_ge _ _)) by lia.
  f_equal. lia.
Qed.

Lemma runs_goes_on i filled Q w :
  (i + filled <= n)%nat ->
  (forall b w', kept w w' -> (b = true -> i + filled < n)%nat ->
     (undisturbed w -> i + filled < n -> b = true)%nat -> Q b w') ->
  runs (batch_goes_on self (Z.of_nat i) filled) Q w.
Proof.
  intros Hi H. unfold batch_goes_on. apply runs_bind, runs_stop_load. intros stopped w1 Hk1 Hs.
  destruct stopped.
  { apply H; [done|done|]. intros [Hf _]. by specialize (Hs Hf). }
  apply runs_bind. eapply runs_or_panics.
  { unfold within_requests. by rewrite (so_requests _ _ Hshare), u64_add_ok. }
  cbn beta. destruct (Z.ltb_spec (Z.of_nat (i + filled)) (Z.of_nat n)); cbn [negb].
  - apply runs_bind, runs_limit. intros reached w2 Hk2 Ht. apply H.
    + by etrans.
    + lia.
    + intros [_ E] _. by rewrite Ht.
  - apply H; [done|done|lia].
Qed.

Lemma runs_fill room i filled buffer Q w :
  (i + filled <= n)%nat ->
  (forall filled' w', kept w w' -> (filled <= filled' <= filled + room)%nat -> (i + filled' <= n)%nat ->
     (undisturbed w -> filled' = Nat.min (filled + room) (n - i)) ->
     Q (filled', buffer ++ texts (i + filled) (filled' - filled)) w') ->
  runs (fill_batch self room (Z.of_nat i) filled buffer) Q w.
Proof.
  revert filled buffer w. induction room as [|room IH]; intros filled buffer w Hi H; cbn [fill_batch].
  - apply runs_ret. specialize (H filled w). rewrite Nat.sub_diag in H. cbn in H. rewrite app_nil_r in H.
    apply H; [done|lia|done|lia].
  - apply runs_bind, runs_goes_on; [done|]. intros more w1 Hk1 Hlt Hgo. destruct more; cbn [negb].
    + specialize (Hlt eq_refl). apply runs_bind. eapply runs_or_panics; [by apply u64_add_ok|]. cbn beta.
      apply runs_bind. eapply runs_or_panics; [by apply (append_ok self n Hshare)|]. cbn beta.
      apply runs_bind. eapply runs_try; [done|]. cbn beta. apply IH; [lia|].
      intros filled' w2 Hk2 Hf Hn Hu.
      specialize (H filled' w2 ltac:(by etrans) ltac:(lia) Hn).
      assert (texts (i + filled) (filled' - filled)
              = request_text self (i + filled) ++ CRLF ++ texts (i + S filled) (filled' - S filled)) as E.
      { replace (filled' - filled)%nat with (1 + (filled' - S filled))%nat by lia. rewrite texts_add.
        unfold texts at 1. cbn [seq fmap list_fmap concat]. rewrite app_nil_r, <- app_assoc.
        do 3 f_equal. lia. }
      rewrite E in H. rewrite <- !app_assoc. apply H. intros Hund.
      rewrite (Hu (undisturbed_kept _ _ Hk1 Hund)). lia.
    + apply runs_ret. specialize (H filled w1). rewrite Nat.sub_diag in H. cbn in H. rewrite app_nil_r in H.
      apply H; [done|lia|done|]. intros Hund.
      destruct (Nat.lt_ge_cases (i + filled) n) as [Hl|]; [by specialize (Hgo Hund Hl)|lia].
Qed.

(** The shared counters are in their range. *)
Record ranged (w : World) : Prop := {
  rg_commands : wrap (sh_commands (w_stats w)) = sh_commands (w_stats w);
  rg_bytes : wrap (sh_bytes_sent (w_stats w)) = sh_bytes_sent (w_stats w);
}.

Lemma wrap_wrap a : wrap (wrap a) = wrap a.
Proof. unfold wrap. by rewrite Z.mod_mod. Qed.

(** What a batch does to the world: it sends the lines of its requests. *)
Record batch_sent (w w' : World) (i filled : nat) : Prop := {
  bs_stream : w_stream w' = w_stream w;
  bs_sent : w_sent w' = w_sent w ++ texts i filled;
  bs_commands : sh_commands (w_stats w') = sh_commands (w_stats w);
  bs_bytes : sh_bytes_sent (w_stats w') = sh_bytes_sent (w_stats w);
  bs_calm : calm w';
  bs_free : free w -> free w';
}.

Lemma batch_sent_kept w w1 w2 i filled :
  batch_sent w w1 i filled -> kept w1 w2 -> batch_sent w w2 i filled.
Proof.
  intros [S1 T1 C1 B1 K1 F1] [S2 T2 U2 K2 F2]. split; rewrite ?S2, ?T2, ?U2; auto.
Qed.

Lemma kept_batch_sent w w1 w2 i filled :
  kept w w1 -> batch_sent w1 w2 i filled -> batch_sent w w2 i filled.
Proof.
  intros [S1 T1 U1 K1 F1] [S2 T2 C2 B2 K2 F2]. split; rewrite <- ?S1, <- ?T1, <- ?U1; auto.
Qed.

Lemma kept_ranged w w' : kept w w' -> ranged w -> ranged w'.
Proof. intros Hk [Hc Hb]. split; by rewrite (kp_stats _ _ Hk). Qed.

Lemma runs_write_batch i capacity Q w :
  (i <= n)%nat -> calm w -> ranged w ->
  (forall filled w', batch_sent w w' i filled -> (filled <= capacity)%nat -> (i + filled <= n)%nat ->
     (undisturbed w -> filled = Nat.min capacity (n - i)) -> Q filled w') ->
  runs (write_load_batch self (Z.of_nat i) capacity) Q w.
Proof.
  intros Hi Hc [Hrc Hrb] H. unfold write_load_batch. apply runs_bind, runs_fill; [lia|].
  intros filled w1 Hk Hf Hn Hu. cbn [app]. rewrite Nat.add_0_r, Nat.sub_0_r.
  destruct (Nat.eqb_spec filled 0) as [->|Hz].
  - apply (H 0%nat w1); [|lia|lia|exact Hu]. split; rewrite ?(kp_stream _ _ Hk), ?(kp_sent _ _ Hk), ?(kp_stats _ _ Hk);
      [done| |done|done|by apply Hk|by apply Hk]. by rewrite app_nil_r.
  - pose proof (kp_calm _ _ Hk Hc) as [He1 Hw1]. apply runs_bind. unfold runs at 1.
    unfold mbind, Load_bind, write_stream. rewrite Hw1, firstn_all. cbn [fetch_add].
    apply (H filled); [|lia|lia|exact Hu].
    split; cbn [set_stats set_sent w_stream w_sent w_stats add_shared sh_commands sh_bytes_sent].
    + apply Hk.
    + by rewrite (kp_sent _ _ Hk).
    + unfold wrapping_add. by rewrite (kp_stats _ _ Hk), Z.add_0_r.
    + unfold wrapping_add. by rewrite (kp_stats _ _ Hk), Z.add_0_r.
    + split; [done|]. intros k. apply Hw1.
    + intros Hf'. by destruct (kp_free _ _ Hk Hf').
Qed.

(** The accounts of an offered load keep up with the requests. *)
Definition accounts (schedule : option OfferedLoadSchedule) (outcome : LoadSessionOutcome) (r i : nat) : Prop :=
  lo_timed_out_connections outcome = 0 /\ lo_incomplete_requests outcome = 0 /\ lo_drain_elapsed outcome = 0
  /\ match schedule with
     | None => lo_completed_requests outcome = 0 /\ lo_issued_requests outcome = 0
     | Some _ => lo_completed_requests outcome = Z.of_nat r /\ lo_issued_requests outcome = Z.of_nat i
                /\ lo_scheduled_requests outcome = Z.of_nat i
     end.

Lemma issue_all_accounts schedule actual indices outcome issued r i :
  accounts (Some schedule) outcome r i -> (i + length indices <= n)%nat ->
  accounts (Some schedule) (issue_all schedule issued actual indices outcome) r (i + length indices).
Proof.
  pose proof (so_bound _ _ Hshare) as Hn. revert outcome i.
  induction indices as [|index indices IH]; intros outcome i Ha Hi; cbn [issue_all length].
  - by rewrite Nat.add_0_r.
  - cbn [length] in Hi. replace (i + S (length indices))%nat with (S i + length indices)%nat by lia.
    apply IH; [|lia]. destruct Ha as (H1 & H2 & H3 & H4 & H5 & H6).
    unfold accounts, outcome_issued, u64_saturating_add.
    cbn [lo_timed_out_connections lo_incomplete_requests lo_drain_elapsed lo_completed_requests
      lo_issued_requests lo_scheduled_requests].
    split_and!; (done || lia).
Qed.

Lemma runs_issue i r capacity schedule outcome times Q w :
  (i <= n)%nat -> calm w -> ranged w -> accounts schedule outcome r i ->
  (forall filled outcome' times' w', batch_sent w w' i filled -> (filled <= capacity)%nat ->
     (i + filled <= n)%nat -> (undisturbed w -> filled = Nat.min capacity (n - i)) ->
     accounts schedule outcome' r (i + filled) -> Q (filled, outcome', times') w') ->
  runs (issue_load_batch self (Z.of_nat i) capacity schedule outcome times) Q w.
Proof.
  intros Hi Hc Hr Ha H. unfold issue_load_batch. destruct schedule as [schedule|].
  - apply runs_bind. unfold sleep_until. apply runs_bind, runs_now. intros instant w1 Hk1.
    apply (runs_mono _ (fun _ w2 => kept w1 w2)).
    2: { destruct (checked_duration_since _ _); [|by apply runs_ret].
         apply runs_wait; [by apply Hk1|done]. }
    intros [] w2 Hk2. assert (kept w w2) as Hk by (by etrans).
    apply runs_bind, runs_write_batch; [done|by apply Hk|by eapply kept_ranged|].
    intros filled w3 Hs Hf Hn Hu. apply runs_bind, runs_now. intros actual w4 Hk4.
    apply runs_ret, H; [|done|done|intros Hund; by apply Hu, (undisturbed_kept w)|].
    + eapply batch_sent_kept, Hk4. by eapply kept_batch_sent.
    + pose proof (issue_all_accounts schedule actual (seq 0 filled) outcome (Z.of_nat i) r i Ha) as Hacc.
      rewrite length_seq in Hacc. exact (Hacc Hn).
  - apply runs_bind, runs_write_batch; [done..|]. intros filled w1 Hs Hf Hn Hu.
    by apply runs_ret, H.
Qed.

(** ** The greeting *)

(** A line that says the service is ready. *)
Record ready_greeting (greeting : bytes) : Prop := {
  rd_line : detect_response_line_end greeting = ResponseLineStatus.CompleteAt (length greeting);
  rd_short : (length greeting <= MAX_INITIAL_RESPONSE_LINE_BYTES)%nat;
  rd_ready : validate_service_ready_greeting find_end greeting = Ok tt;
}.

Lemma greeting_prefix part more limit :
  detect_response_line_end (part ++ more) = ResponseLineStatus.CompleteAt (length (part ++ more)) ->
  (length (part ++ more) <= limit)%nat -> more <> [] ->
  detect_bounded_response_line_end part limit = BoundedResponseLineStatus.NeedMore.
Proof.
  intros Hd Hl Hm. rewrite length_app in Hl. assert (0 < length more)%nat by (destruct more; [done|cbn; lia]).
  unfold detect_bounded_response_line_end. pose proof (detect_line_extend part more) as Hx.
  destruct (detect_response_line_end part) as [e| |].
  - destruct Hx as [He Hx]. rewrite Hx in Hd. injection Hd as ->. rewrite length_app in He. lia.
  - by rewrite (proj2 (Nat.leb_gt _ _)) by lia.
  - by rewrite Hx in Hd.
Qed.

Lemma greeting_loop fuel greeting buffer chunks rest :
  ready_greeting greeting -> buffer ++ concat chunks = greeting -> chunks <> [] ->
  Forall (fun c => c <> []) chunks -> (length chunks < fuel)%nat ->
  read_greeting_loop find_end fuel buffer ((Ok <$> chunks) ++ rest) = Some (Ok tt, rest).
Proof.
  intros Hg. revert buffer chunks. induction fuel as [|fuel IH]; intros buffer chunks E Hne Hc Hf; [lia|].
  destruct Hc as [|chunk chunks Hchunk Hc]; [done|]. clear Hne. cbn [concat] in E.
  cbn [fmap list_fmap app read_greeting_loop read_some].
  pose proof (rd_short _ Hg) as Hs. pose proof (rd_line _ Hg) as Hd.
  assert (0 < length chunk)%nat by (destruct chunk; [done|cbn; lia]).
  pose proof Hs as Hs'. rewrite <- E, !length_app in Hs'.
  rewrite (proj2 (Nat.eqb_neq _ _)) by lia. rewrite take_ge by lia.
  rewrite (proj2 (Nat.leb_le _ _)) by lia. destruct chunk as [|b chunk]; [done|].
  destruct chunks as [|chunk' chunks].
  - cbn [concat] in E. rewrite app_nil_r in E. rewrite E. unfold detect_bounded_response_line_end.
    rewrite Hd, (proj2 (Nat.leb_le _ _) Hs), firstn_all. by rewrite (rd_ready _ Hg).
  - rewrite app_assoc in E.
    rewrite (greeting_prefix (buffer ++ b :: chunk) (concat (chunk' :: chunks))).
    + apply IH; [done|done|done|cbn in *; lia].
    + by rewrite E.
    + by rewrite E.
    + inversion Hc as [|? ? Hn' _]; subst. destruct chunk'; done.
Qed.

Lemma read_greeting_ok greeting chunks rest :
  ready_greeting greeting -> concat chunks = greeting -> Forall (fun c => c <> []) chunks ->
  read_greeting find_end ((Ok <$> chunks) ++ rest) = Some (Ok tt, rest).
Proof.
  intros Hg E Hc. unfold read_greeting. apply (greeting_loop _ greeting); [done|done| |done|].
  - intros ->. cbn in E. subst greeting. pose proof (rd_line _ Hg) as Hd.
    apply detect_line_complete_inv in Hd as (l & post & El & _). destruct l; done.
  - assert (length chunks <= length (concat chunks))%nat.
    { clear E. induction Hc as [|c l Hn _ IH]; [done|]. cbn. rewrite length_app. destruct c; [done|cbn; lia]. }
    pose proof (rd_short _ Hg). subst greeting. lia.
Qed.

(** ** Responses *)

Context (replies : list bytes) (rest : bytes) (tail : Stream) (schedule : option OfferedLoadSchedule).
Context (Hlength : length replies = n) (Htail : stream_closes tail).
Hypothesis Hreplies : forall k reply, replies !! k = Some reply ->
  whole_reply (kind_of self k) (expected_of self k) (ld_max_response_bytes self) reply.

(** The session between two responses: [r] are received, [i] issued, since the
    measurement began in [w0]. *)
Record under_way (w0 w : World) (p : Progress) (r i : nat) : Prop := {
  uw_order : (r <= i <= n)%nat;
  uw_received : pg_received p = Z.of_nat r;
  uw_issued : pg_issued p = Z.of_nat i;
  uw_flight : pg_in_flight p = (i - r)%nat;
  uw_left : left_with (pg_reader p) (w_stream w) tail (ld_max_response_bytes self)
              (concat (drop r replies) ++ rest);
  uw_sent : w_sent w = w_sent w0 ++ texts 0 i;
  uw_commands : wrapping_add (sh_commands (w_stats w)) (lc_commands (pg_stats p))
                = wrapping_add (sh_commands (w_stats w0)) (Z.of_nat r);
  uw_bytes : sh_bytes_sent (w_stats w)
             = wrapping_add (sh_bytes_sent (w_stats w0)) (Z.of_nat (length (concat (take r replies))));
  uw_calm : calm w;
  uw_ranged : ranged w;
  uw_accounts : accounts schedule (pg_outcome p) r i;
  uw_undisturbed : undisturbed w0 -> undisturbed w;
}.

Lemma wrap_count k : (k <= n)%nat -> wrap (Z.of_nat k) = Z.of_nat k.
Proof. intros Hk. pose proof (so_bound _ _ Hshare). unfold wrap, u64_max in *. apply Z.mod_small. lia. Qed.

(** A change of the world that the session does not see. *)
Lemma under_way_kept w0 w w' p r i : kept w w' -> under_way w0 w p r i -> under_way w0 w' p r i.
Proof.
  intros Hk [H1 H2 H3 H4 H5 H6 H7 H8 H9 H10 H11 H12].
  split; rewrite ?(kp_stream _ _ Hk), ?(kp_sent _ _ Hk), ?(kp_stats _ _ Hk); try done.
  - by apply Hk.
  - by eapply kept_ranged.
  - intros Hu. eapply undisturbed_kept; [done|auto].
Qed.

Lemma runs_refill w0 w p r i capacity Q :
  under_way w0 w p r i ->
  (forall p' w' i', under_way w0 w' p' r i' -> pg_in_flight p' = (i' - r)%nat ->
     (undisturbed w0 -> i' = i + Nat.min capacity (n - i))%nat -> Q (Some p') w') ->
  runs (refill self schedule capacity p) Q w.
Proof.
  intros [H1 H2 H3 H4 H5 H6 H7 H8 H9 H10 H11 H12] HQ. unfold refill. apply runs_bind, runs_timeout.
  rewrite H3. apply (runs_issue i r); [lia|done|done|done|].
  intros filled outcome times w' Hs Hf Hn Hu Ha. apply runs_ret.
  apply (HQ _ _ (i + filled)%nat); [|cbn; rewrite H4; lia|intros Hund; rewrite Hu by auto; lia].
  split; cbn [pg_reader pg_issued pg_received pg_in_flight pg_stats pg_outcome];
    rewrite ?(bs_stream _ _ _ _ Hs), ?(bs_commands _ _ _ _ Hs), ?(bs_bytes _ _ _ _ Hs); try done.
  - lia.
  - unfold wrapping_add. rewrite <- (wrap_count (i + filled)) by lia. f_equal. lia.
  - lia.
  - by rewrite (bs_sent _ _ _ _ Hs), H6, texts_add, <- app_assoc.
  - apply Hs.
  - destruct H10 as [Hrc Hrb]. split; by rewrite ?(bs_commands _ _ _ _ Hs), ?(bs_bytes _ _ _ _ Hs).
  - intros Hund. destruct (H12 Hund) as [Hf' Ht]. split; [by apply Hs|done].
Qed.

Lemma runs_receive w0 w p r i Q :
  under_way w0 w p r i -> (r < n)%nat ->
  (forall reply reader w', replies !! r = Some reply -> kept (set_stream w []) (set_stream w' []) ->
     left_with reader (w_stream w') tail (ld_max_response_bytes self) (concat (drop (S r) replies) ++ rest) ->
     Q (length reply, reader) w') ->
  runs (receive_response find_end (pg_reader p) (kind_of self r) (expected_of self r)) Q w.
Proof.
  intros Hp Hr HQ. unfold receive_response. apply runs_bind, runs_wait; [apply Hp|]. intros w1 Hk.
  destruct (lookup_lt_is_Some_2 replies r) as [reply Hreply]; [lia|].
  pose proof (uw_left _ _ _ _ _ Hp) as Hl. rewrite (drop_S _ _ _ Hreply) in Hl. cbn [concat] in Hl.
  rewrite <- app_assoc, <- (kp_stream _ _ Hk) in Hl.
  destruct (receive_one find_end _ _ _ _ (kind_of self r) (expected_of self r) _ _ Hl Htail) as (reader & stream & Hread & Hl').
  { apply whole_reply_outcome. by apply Hreplies. }
  unfold runs, read_from_stream. rewrite Hread.
  destruct Hk as [S1 T1 U1 K1 F1]. apply HQ; [done| |done].
  split; cbn; [done|done|done| |].
  - intros [He Hw]. destruct K1 as [He' Hw']; [by split|]. by split.
  - intros [He Hw]. destruct F1 as [He' Hw']; [by split|]. by split.
Qed.

(** What the accounts of a response leave of the world. *)
Record moved (w w' : World) : Prop := {
  mv_stream : w_stream w' = w_stream w;
  mv_sent : w_sent w' = w_sent w;
  mv_calm : calm w -> calm w';
  mv_ranged : ranged w -> ranged w';
}.

Instance moved_preorder : PreOrder moved.
Proof.
  split; [by intros w; split|]. intros w1 w2 w3 [S1 T1 C1 R1] [S2 T2 C2 R2].
  split; [congruence..|auto|auto].
Qed.

Lemma kept_moved w w' : kept w w' -> moved w w'.
Proof. intros Hk. split; [apply Hk..|by apply kept_ranged]. Qed.

Lemma runs_fetch_add a b c d e f g Q w :
  (forall w', moved w w' -> (free w -> free w') ->
     sh_commands (w_stats w') = wrapping_add (sh_commands (w_stats w)) c ->
     sh_bytes_sent (w_stats w') = wrapping_add (sh_bytes_sent (w_stats w)) g -> Q tt w') ->
  runs (fetch_add a b c d e f g) Q w.
Proof.
  intros H. apply H; [|by intros [? ?]|done|done]. split; [done|done|by intros [? ?]|].
  intros _. split; cbn; apply wrap_wrap.
Qed.

Lemma runs_flush stats Q w :
  ranged w ->
  (forall stats' w', moved w w' -> (free w -> free w') ->
     wrapping_add (sh_commands (w_stats w')) (lc_commands stats')
     = wrapping_add (sh_commands (w_stats w)) (lc_commands stats) ->
     (lc_commands stats' = 0) ->
     sh_bytes_sent (w_stats w') = sh_bytes_sent (w_stats w) -> Q stats' w') ->
  runs (flush_load_session_stats stats) Q w.
Proof.
  intros [Hc Hb] H. unfold flush_load_session_stats. destruct (Z.eqb_spec (lc_commands stats) 0).
  - by apply runs_ret, H.
  - apply runs_bind, runs_fetch_add. intros w1 Hm Hf Ec Eb. apply runs_ret, H; [done|done| |done|].
    + rewrite Ec. cbn. unfold wrapping_add. by rewrite Z.add_0_r, wrap_wrap.
    + rewrite Eb. unfold wrapping_add. by rewrite Z.add_0_r.
Qed.

Lemma runs_latency p r i Q w :
  accounts schedule (pg_outcome p) r i ->
  (forall times outcome w', kept w w' -> accounts schedule outcome (S r) i -> Q (times, outcome) w') ->
  runs (latency_of schedule p) Q w.
Proof.
  intros Ha H. unfold latency_of. destruct schedule as [s|]; [|apply runs_ret, H; done].
  assert (forall latency, accounts (Some s) (outcome_completed (pg_outcome p) latency) (S r) i) as Hacc.
  { intros latency. destruct Ha as (H1 & H2 & H3 & H4 & H5 & H6). unfold accounts. cbn.
    split_and!; (done || lia). }
  destruct (pg_issued_times p) as [|t ts]; [by apply runs_ret, H|].
  destruct (lo_latency_histogram _); [|by apply runs_ret, H].
  apply runs_bind, runs_elapsed_since. intros latency w' Hk. by apply runs_ret, H.
Qed.

Lemma count_command_ok stats id :
  exists stats', count_command stats (client_command_kind id (ld_command_mix self)) = Some stats'
    /\ lc_commands stats' = wrapping_add (lc_commands stats) 1.
Proof.
  destruct (request_kind_normalized id (ld_command_mix self)) as (kind & Hkind & _).
  unfold request_kind_for_client_command in Hkind.
  destruct (client_command_kind id (ld_command_mix self)); cbn in Hkind; try done; by eexists.
Qed.

(** The counters of the session after one response. *)
Lemma runs_count {A} stats id (k : LocalStats -> Load A) Q w :
  ranged w ->
  (forall stats' w', moved w w' -> (free w -> free w') ->
     wrapping_add (sh_commands (w_stats w')) (lc_commands stats')
     = wrapping_add (sh_commands (w_stats w)) (lc_commands stats + 1) ->
     sh_bytes_sent (w_stats w') = sh_bytes_sent (w_stats w) -> runs (k stats') Q w') ->
  runs (stats' ← or_panics (count_command stats (client_command_kind id (ld_command_mix self)));
        stats'' ← (if LOAD_STATS_FLUSH_COMMANDS <=? lc_commands stats' then flush_load_session_stats stats'
                   else mret stats');
        k stats'') Q w.
Proof.
  intros Hr H. destruct (count_command_ok stats id) as (stats' & Hc & Hl).
  assert (wrapping_add (sh_commands (w_stats w)) (lc_commands stats')
          = wrapping_add (sh_commands (w_stats w)) (lc_commands stats + 1)) as E.
  { rewrite Hl. unfold wrapping_add, wrap. by rewrite Z.add_mod_idemp_r by lia. }
  apply runs_bind. eapply runs_or_panics; [done|]. cbn beta. apply runs_bind. case_match.
  - apply runs_flush; [done|]. intros stats2 w' Hm Hf E' _ Eb. apply H; [done|done|congruence|done].
  - by apply runs_ret, H.
Qed.

Lemma runs_account w0 w w1 p r i reply reader id Q :
  under_way w0 w p r i -> (r < i)%nat -> replies !! r = Some reply ->
  kept (set_stream w []) (set_stream w1 []) ->
  left_with reader (w_stream w1) tail (ld_max_response_bytes self) (concat (drop (S r) replies) ++ rest) ->
  (forall p' w', under_way w0 w' p' (S r) i -> Q p' w') ->
  runs (account self schedule id (length reply) reader p) Q w1.
Proof.
  intros [H1 H2 H3 H4 H5 H6 H7 H8 H9 H10 H11 H12] Hri Hreply [_ T1 U1 K1 F1] Hl HQ. cbn in T1, U1.
  assert (calm w1) as Hc1 by (destruct H9; destruct K1 as [? ?]; by split).
  assert (ranged w1) as Hr1 by (destruct H10; by split; rewrite U1).
  assert (undisturbed w0 -> undisturbed w1) as Hu1.
  { intros [[Hf1 Hf2] Ht]%H12. split; [|done]. destruct F1 as [? ?]; by split. }
  unfold account. apply runs_bind, runs_stop_load. intros draining w2 Hk2 _.
  apply runs_bind, (runs_latency p r i); [done|]. intros times outcome w3 Hk3 Ha.
  assert (accounts schedule (if draining then outcome_drained outcome else outcome) (S r) i) as Ha'
    by (by destruct draining).
  assert (kept w1 w3) as Hk by (by etrans).
  apply runs_bind, runs_fetch_add. intros w4 Hm4 Hf4 Ec4 Eb4. rewrite (kp_stats _ _ Hk), U1 in Ec4, Eb4.
  assert (moved w1 w4) as Hm by (etrans; [by apply kept_moved|done]).
  cbn zeta. apply runs_count; [by apply Hm|]. intros stats w5 Hm5 Hf5 Ec5 Eb5.
  rewrite Ec4 in Ec5. rewrite Eb4 in Eb5. assert (moved w1 w5) as Hm' by (by etrans).
  apply runs_bind, runs_limit. intros reached w6 Hk6 Hlimit.
  assert (moved w1 w6) as Hm6 by (etrans; [done|by apply kept_moved]).
  apply runs_bind.
  apply (runs_mono _ (fun _ w7 => moved w1 w7 /\ w_stats w7 = w_stats w6 /\ (undisturbed w0 -> free w7))).
  2: { destruct reached.
       - split; [etrans; [exact Hm6|split; [done|done|by intros [? ?]|by intros [? ?]]]|]. split; [done|].
         intros [_ Ht]%Hu1. by specialize (Hlimit Ht).
       - apply runs_ret. split; [done|]. split; [done|]. intros [Hf _]%Hu1. apply Hk6, Hf5, Hf4, Hk, Hf. }
  intros [] w7 (Hm7 & Es & Hf7). rewrite (kp_stats _ _ Hk6) in Es. apply runs_ret, HQ.
  split; cbn [pg_reader pg_issued pg_received pg_in_flight pg_stats pg_outcome]; rewrite ?Es, ?(mv_stream _ _ Hm7).
  - lia.
  - rewrite H2. unfold wrapping_add. rewrite <- (wrap_count (S r)) by lia. f_equal. lia.
  - done.
  - rewrite H4. lia.
  - done.
  - by rewrite (mv_sent _ _ Hm7), T1.
  - rewrite Ec5, wrapping_add_assoc, Z.add_assoc, <- (wrapping_add_assoc _ (0 + _)).
    rewrite Z.add_0_l, H7, wrapping_add_assoc. f_equal. lia.
  - rewrite Eb5, H8, wrapping_add_assoc, (take_S_r _ _ _ Hreply), concat_app, length_app. f_equal. cbn.
    rewrite app_nil_r. lia.
  - by apply Hm7.
  - by apply Hm7.
  - done.
  - intros Hund. split; [by apply Hf7|]. by destruct (Hu1 Hund).
Qed.

(** How a session ends: [N] requests are sent, and their responses received,
    counted and accounted for; all of them when nothing disturbs it. *)
Record completed (w0 w : World) (N : nat) (outcome : LoadSessionOutcome) : Prop := {
  cp_most : (N <= n)%nat;
  cp_all : undisturbed w0 -> N = n;
  cp_sent : w_sent w = w_sent w0 ++ texts 0 N;
  cp_commands : sh_commands (w_stats w) = wrapping_add (sh_commands (w_stats w0)) (Z.of_nat N);
  cp_bytes : sh_bytes_sent (w_stats w)
             = wrapping_add (sh_bytes_sent (w_stats w0)) (Z.of_nat (length (concat (take N replies))));
  cp_accounts : accounts schedule outcome N N;
}.

Definition completes (w0 : World) (outcome : LoadSessionOutcome) (w : World) : Prop :=
  exists N, completed w0 w N outcome.

Lemma runs_finish w0 w p r started :
  under_way w0 w p r r -> (undisturbed w0 -> r = n) -> runs (finish started p) (completes w0) w.
Proof.
  intros Hp Hall. unfold finish. apply runs_bind, runs_elapsed_since. intros elapsed w1 Hk.
  apply (under_way_kept _ _ _ _ _ _ Hk) in Hp. apply runs_bind, runs_flush; [apply Hp|].
  intros stats w2 Hm Hf Ec El Eb. apply runs_ret. exists r. split; [apply Hp|done|..].
  - rewrite (mv_sent _ _ Hm). apply Hp.
  - rewrite El, (uw_commands _ _ _ _ _ Hp) in Ec. rewrite <- Ec. unfold wrapping_add.
    rewrite Z.add_0_r. symmetry. apply Hm, Hp.
  - rewrite Eb. apply Hp.
  - destruct (uw_accounts _ _ _ _ _ Hp) as (H1 & H2 & H3 & H4). by unfold accounts.
Qed.

Lemma runs_loop fuel w0 w p r i started :
  under_way w0 w p r i -> (n - r < fuel)%nat ->
  runs (session_loop find_end self fuel schedule started p) (completes w0) w.
Proof.
  revert w p r i. induction fuel as [|fuel IH]; intros w p r i Hp Hf; [lia|]. cbn [session_loop].
  pose proof (so_depth _ _ Hshare) as Hdepth.
  apply runs_bind, (runs_mono _ (fun refilled w' => exists p' i', refilled = Some p' /\ under_way w0 w' p' r i'
    /\ (undisturbed w0 -> i' = r -> r = n))).
  2: { rewrite (uw_flight _ _ _ _ _ Hp). pose proof (uw_order _ _ _ _ _ Hp). destruct (Nat.eqb_spec (i - r) 0).
       - apply (runs_refill w0 w p r i); [done|]. intros p' w' i' Hp' _ Hi. exists p', i'.
         split; [done|]. split; [done|]. intros Hu. specialize (Hi Hu). lia.
       - apply runs_ret. exists p, i. split; [done|]. split; [done|]. lia. }
  clear Hp. intros _ w1 (p1 & i1 & -> & Hp & Hall). rewrite (uw_flight _ _ _ _ _ Hp).
  pose proof (uw_order _ _ _ _ _ Hp) as Ho. destruct (Nat.eqb_spec (i1 - r) 0) as [E|E].
  { assert (i1 = r) as -> by lia. apply (runs_finish _ _ _ r); auto. }
  rewrite (uw_received _ _ _ _ _ Hp). apply runs_bind.
  eapply runs_or_panics; [apply kind_of_ok|]. cbn beta. apply runs_bind.
  eapply runs_or_panics; [apply (expected_ok self n Hshare); lia|]. cbn beta.
  apply runs_bind. eapply runs_try; [done|]. cbn beta. apply runs_bind, runs_timeout.
  apply (runs_receive w0 _ _ r i1); [done|lia|]. intros reply reader w2 Hreply Hk Hl.
  apply runs_bind, (runs_account w0 w1 w2 p1 r i1 reply reader); try done; [lia|].
  clear Hk Hl Hp. intros p2 w3 Hp. apply runs_bind.
  apply (runs_mono _ (fun refilled w' => exists p' i', refilled = Some p' /\ under_way w0 w' p' (S r) i')).
  - intros _ w4 (p3 & i3 & -> & Hp3). apply (IH _ _ (S r) i3); [done|lia].
  - case_match.
    + apply (runs_refill w0 w3 p2 (S r) i1); [done|]. intros p' w' i' Hp' _ _. by exists p', i'.
    + apply runs_ret. by exists p2, i1.
Qed.

Lemma replies_size : (n <= length (concat replies))%nat.
Proof.
  assert (Forall (fun reply => reply <> []) replies) as Hne.
  { apply Forall_lookup. intros k reply Hk ->. destruct (Hreplies k [] Hk) as [(i & e & c & Hb & _) _].
    destruct (boundary_bounds _ _ _ _ _ _ Hb) as (Hd & _ & He & _ & _).
    apply detect_line_complete_inv in Hd as (l & post & El & _). destruct l; done. }
  rewrite <- Hlength. clear -Hne. induction Hne as [|reply l Hr _ IH]; [done|].
  cbn. rewrite length_app. destruct reply; [done|cbn; lia].
Qed.

Lemma stream_size_of chunks rest' : (length (concat chunks) <= stream_size (stream_of chunks rest'))%nat.
Proof.
  unfold stream_size, stream_of. rewrite fmap_app, concat_app, length_app.
  assert ((fun d : result bytes IoError => match d with Ok data => data | Err _ => [] end)
            <$> (Ok <$> chunks) = chunks) as ->.
  { rewrite <- list_fmap_compose. apply list_fmap_id. }
  lia.
Qed.

(** The session from its measurement on. *)
Lemma runs_start chunks started setup_elapsed histogram Q w :
  calm w -> ranged w -> w_stream w = stream_of chunks tail -> Forall (fun c => c <> []) chunks ->
  concat chunks = concat replies ++ rest ->
  (forall outcome w', completes w outcome w' -> Q outcome w') ->
  runs (session_start find_end self schedule started setup_elapsed histogram) Q w.
Proof.
  intros Hc Hr Hs Hne E HQ. unfold session_start. eapply runs_mono; [exact HQ|]. unfold runs.
  rewrite Hs. apply (runs_loop _ w w _ 0 0).
  - split; cbn [pg_reader pg_issued pg_received pg_in_flight pg_stats pg_outcome]; try done.
    + lia.
    + split; [unfold inside; cbn; lia|done|]. exists chunks. by rewrite Hs.
    + cbn. by rewrite app_nil_r.
    + rewrite take_0. unfold wrapping_add. cbn. rewrite Z.add_0_r. symmetry. apply Hr.
    + by destruct schedule.
  - pose proof (stream_size_of chunks tail). pose proof replies_size. rewrite E, length_app in *. lia.
Qed.
End runs.

(** ** The whole session *)

(** An offered load the configuration admits. *)
Definition offer_ok (self : LoadSession) : Prop :=
  match ld_offered_rate self with
  | None => True
  | Some rate =>
      (exists s, schedule_new rate 0 = Some (Ok s))
      /\ exists h, histogram_new (ld_latency_range self) (ld_latency_precision self) = Ok h
  end.

Lemma schedule_new_started rate s started :
  schedule_new rate 0 = Some (Ok s) -> exists s', schedule_new rate started = Some (Ok s').
Proof.
  unfold schedule_new. destruct (_ || _); [done|]. destruct (_ || _); [done|].
  destruct (duration_from_secs_f64 _); [|done]. cbn. destruct (_ =? _); [done|]. eauto.
Qed.

Lemma runs_offer self started
    (k : option OfferedLoadSchedule -> option LatencyHistogram -> Load LoadSessionOutcome) R w :
  offer_ok self ->
  (forall schedule histogram,
     is_Some schedule <-> is_Some (ld_offered_rate self) -> runs (k schedule histogram) R w) ->
  runs (schedule ← make_schedule self started; histogram ← make_histogram self schedule; k schedule histogram) R w.
Proof.
  intros Ho H. unfold offer_ok, make_schedule, make_histogram in *. destruct (ld_offered_rate self) as [rate|].
  - destruct Ho as ((s & Hs) & (h & Hh)). destruct (schedule_new_started rate s started Hs) as [s' Hs'].
    apply runs_bind, runs_bind. eapply runs_or_panics; [done|]. cbn beta.
    apply runs_bind. eapply runs_try; [done|]. cbn beta. apply runs_ret.
    apply runs_bind, runs_bind. eapply runs_try; [done|]. apply runs_ret, H.
    split; intros _; by eexists.
  - apply runs_bind, runs_ret, runs_bind, runs_ret. by apply H.
Qed.

(** What a session of [N] requests has sent, received and reported. *)
Record load_completed (self : LoadSession) (replies : list bytes) (w w' : World) (N : nat)
    (outcome : LoadSessionOutcome) : Prop := {
  dn_sent : w_sent w' = w_sent w ++ texts self 0 N;
  dn_commands : sh_commands (w_stats w') = wrapping_add (sh_commands (w_stats w)) (Z.of_nat N);
  dn_bytes : sh_bytes_sent (w_stats w')
             = wrapping_add (sh_bytes_sent (w_stats w)) (Z.of_nat (length (concat (take N replies))));
  dn_timed_out : lo_timed_out_connections outcome = 0;
  dn_incomplete : lo_incomplete_requests outcome = 0;
  dn_offered : is_Some (ld_offered_rate self) ->
    lo_completed_requests outcome = Z.of_nat N /\ lo_issued_requests outcome = Z.of_nat N
    /\ lo_scheduled_requests outcome = Z.of_nat N;
}.

(** A server's side of a session: a greeting, then a reply to each request, in
    whatever deliveries. *)
Record load_served {M : Memchr} (find_end : bytes -> option nat) (self : LoadSession) (n : nat) (connected : result Stream IoError)
    (replies : list bytes) : Prop := {
  sv_connected : exists greeting hello chunks tail rest,
    connected = Ok ((Ok <$> hello) ++ stream_of chunks tail) /\ ready_greeting find_end greeting
    /\ concat hello = greeting /\ Forall (fun c => c <> []) hello
    /\ concat chunks = concat replies ++ rest /\ Forall (fun c => c <> []) chunks /\ stream_closes tail;
  sv_length : length replies = n;
  sv_replies : forall k reply, replies !! k = Some reply ->
    whole_reply (kind_of self k) (expected_of self k) (ld_max_response_bytes self) reply;
}.

Section whole.
Context `{Mc : !Memchr, Ms : !MemchrSpec}.
Context (find_end : bytes -> option nat) `{Hfe : !TerminatorFinder find_end}.

Lemma runs_setup hello greeting stream Q w :
  calm w -> ready_greeting find_end greeting -> concat hello = greeting -> Forall (fun c => c <> []) hello ->
  (forall w1, kept w w1 -> Q tt (set_stream w1 stream)) ->
  runs (setup find_end (Ok ((Ok <$> hello) ++ stream))) Q w.
Proof.
  intros Hc Hg E Hne H. unfold setup. apply runs_bind, runs_wait; [done|]. intros w1 Hk.
  apply runs_bind. eapply runs_try; [done|]. cbn beta. unfold runs, greet.
  rewrite (read_greeting_ok find_end greeting) by done. by apply H.
Qed.

Lemma inner_completes self n connected replies w :
  share_ok self n -> offer_ok self -> load_served find_end self n connected replies -> calm w -> ranged w ->
  runs (run_inner find_end self connected)
    (fun outcome w' => exists N, (N <= n)%nat /\ (free w -> ld_transfer_bytes self = 0 -> N = n)
       /\ load_completed self replies w w' N outcome) w.
Proof.
  intros Hshare Ho [(greeting & hello & chunks & tail & rest & -> & Hg & E & Hne & Ec & Hc & Ht) Hlen Hr] Hcalm Hran.
  unfold run_inner. apply runs_bind, runs_now. intros t0 w1 Hk1. apply runs_bind, runs_timeout.
  apply (runs_setup hello greeting); [by apply Hk1|done..|]. intros w2 Hk2. apply runs_bind, runs_elapsed_since.
  intros t1 w3 Hk3. apply runs_bind, runs_now. intros t2 w4 Hk4.
  assert (kept w w2) as Hk by (by etrans). assert (kept (set_stream w2 (stream_of chunks tail)) w4) as Hk' by (by etrans).
  apply runs_offer; [done|]. intros schedule histogram Hsched.
  apply (runs_start find_end self n Hshare replies rest tail schedule Hlen Ht Hr chunks); try done.
  - apply Hk'. destruct (kp_calm _ _ Hk Hcalm). by split.
  - eapply kept_ranged; [exact Hk'|]. destruct (kept_ranged _ _ Hk Hran). by split.
  - by rewrite (kp_stream _ _ Hk').
  - intros outcome w' [N [H1 H2 H3 H4 H5 H6]].
    rewrite (kp_sent _ _ Hk'), (kp_stats _ _ Hk') in *. cbn [set_stream w_sent w_stats] in *.
    rewrite (kp_sent _ _ Hk), (kp_stats _ _ Hk) in *. exists N. split; [done|]. split.
    { intros Hf Hx. apply H2. split; [|done]. apply Hk'. destruct (kp_free _ _ Hk Hf). by split. }
    destruct H6 as (A1 & A2 & _ & A4). split; try done. intros Hs%Hsched. by destruct schedule; [|destruct Hs].
Qed.

Lemma run_completes (self : LoadSession) (n : nat) (connected : result Stream IoError)
    (replies : list bytes) (w : World) :
  share_ok self n -> offer_ok self -> load_served find_end self n connected replies -> calm w ->
  exists N outcome w',
    run find_end self connected w = (Done outcome, w') /\ (N <= n)%nat
    /\ (free w -> ld_transfer_bytes self = 0 -> N = n)
    /\ load_completed self replies w w' N outcome.
Proof.
  intros Hshare Ho Hserved Hc. unfold run. cbn [fetch_add].
  pose proof (inner_completes self n connected replies (set_stats w (add_shared (w_stats w)
    {| sh_accepted_connections := 1; sh_active_connections := 1; sh_commands := 0; sh_pipeline_batches := 0;
       sh_article_requests := 0; sh_body_requests := 0; sh_bytes_sent := 0 |})) Hshare Ho Hserved) as H.
  unfold runs in H. destruct (run_inner find_end self connected _) as [[outcome| | | |] w1];
    try (exfalso; apply H; [by destruct Hc|by split; cbn; apply wrap_wrap]).
  destruct H as (N & HN & Hall & [H1 H2 H3 H4 H5 H6]); [by destruct Hc|by split; cbn; apply wrap_wrap|].
  exists N, outcome. eexists. split; [reflexivity|]. split; [done|]. split.
  { intros [Hf1 Hf2]. by apply Hall. }
  cbn [snd set_stats w_sent w_stats add_shared sh_commands sh_bytes_sent] in *. split; try done.
  - cbn. by rewrite H2, !wrapping_add_assoc, Z.add_0_r.
  - cbn. by rewrite H3, !wrapping_add_assoc, Z.add_0_r.
Qed.

(** C15: Against a server that answers each request with one whole response that
    names what is expected, in whatever deliveries, and as long as no timer
    elapses and no write fails, a session ends well: it has sent the first [N]
    requests of its share in order, read exactly their responses, counted
    commands and bytes, and an offered load reports [N] requests as scheduled,
    issued and completed.  [N] is the whole share unless others stop the session
    or there is a limit on the bytes.  A timer that elapses ends a session early
    though the server answers ([LoadSamples.slow_offer_times_out]). *)
Theorem load_session_completes (self : LoadSession) (n : nat) (connected : result Stream IoError)
    (replies : list bytes) (w : World) :
  share_ok self n -> offer_ok self -> load_served find_end self n connected replies -> calm w ->
  exists N outcome w',
    run find_end self connected w = (Done outcome, w') /\ (N <= n)%nat
    /\ (free w -> ld_transfer_bytes self = 0 -> N = n)
    /\ load_completed self replies w w' N outcome.
Proof. apply run_completes. Qed.
End whole.
