(* ===== verification/FixtureLoad.v ===== *)
(** * A load session at the fixture server

    The load generator and the server of this repository put together: the
    lines a session sends are command lines the server parses to the kinds and
    message-ids the session expects answers for, and a session against the
    fixture server ends with both ends having counted the same. *)
From S2P Require Import Prelude Utf8 Decimal Memchr Args Terminator Kinds Requests RequestLine RequestWire.
From S2P Require Import ClientWire OwnedResponse ResponseReceiver ResponseLine ResponseFrame.
From S2P Require Import ServerDates ServerResponses ServerCommands ServerReading ServerIndex ServerPayload.
From S2P Require Import ServerStore ServerSession ServerReplies SessionLogic FixtureSession.
From S2P Require Import LoadSchedule LoadWorkload LoadReader LoadSession LoadRuns.

Local Open Scope Z_scope.
Local Open Scope rust_scope.

(** ** Command lines *)

(** The request of a line. *)
Definition load_request (kind : RequestKind.RequestKind) (id : bytes) : Request.Request :=
  match kind with
  | RequestKind.Article => Request.Article (ArticleRef.MessageId id)
  | RequestKind.Body => Request.Body (ArticleRef.MessageId id)
  | _ => Request.Stat (ArticleRef.MessageId id)
  end.

Lemma message_id_shape_length m : message_id_shape m -> (length m <= 250)%nat /\ m <> [].
Proof. intros (inner & -> & Hl & _). split; [|done]. rewrite !length_app. cbn. lia. Qed.

Section lines.
Context (self : LoadSession) (n : nat) (Hshare : share_ok self n).

(** The line of a request as the writer of requests makes it. *)
Lemma load_line_request k :
  (k < n)%nat ->
  let r := load_request (kind_of self k) (named_id self k) in
  request_ok r /\ round_trips r /\ Request.kind r = kind_of self k /\ wire_args r = named_id self k
  /\ request_text self k ++ CRLF = request_line r
  /\ (length (request_line r) <= MAX_INITIAL_RESPONSE_LINE_BYTES)%nat
  /\ (length (wire_args r) <= MAX_COMMAND_ARGUMENT_BYTES)%nat.
Proof.
  intros Hk r. pose proof (named_id_shape self n Hshare k Hk) as Hid.
  destruct (message_id_shape_length _ Hid) as [Hlen Hne]. pose proof (message_id_valid _ Hid) as Hv.
  assert (request_text self k ++ CRLF = wire_line (wire_verb r) (named_id self k)
    /\ (length (wire_verb r) <= 7)%nat) as [E Hverb].
  { unfold request_text, r. destruct (kind_of_ok self k) as [_ [->|[->| ->]]]; cbn [verb_of load_request wire_verb];
      (split; [by rewrite wire_line_app, <- !app_assoc|apply Nat.leb_le; reflexivity]). }
  assert (wire_args r = named_id self k) as Ha.
  { unfold r. by destruct (kind_of_ok self k) as [_ [->|[->| ->]]]. }
  assert (length (request_line r) <= MAX_INITIAL_RESPONSE_LINE_BYTES)%nat as Hfit.
  { unfold request_line. rewrite Ha, wire_line_app, !length_app by done. change (length CRLF) with 2%nat.
    change (length (lit " ")) with 1%nat. unfold MAX_INITIAL_RESPONSE_LINE_BYTES. lia. }
  rewrite Ha. unfold request_line in *. rewrite Ha in *. unfold MAX_COMMAND_ARGUMENT_BYTES.
  unfold r in *. destruct (kind_of_ok self k) as [_ [Ek|[Ek|Ek]]]; rewrite Ek in *; split_and!; (done || lia).
Qed.

Lemma load_line_parse k :
  (k < n)%nat ->
  parse (request_text self k ++ CRLF)
  = Build_RequestLine (kind_of self k) (wire_verb (load_request (kind_of self k) (named_id self k))) (named_id self k).
Proof.
  intros Hk. destruct (load_line_request k Hk) as (Hok & Hrt & Hkind & Ha & E & Hfit & Harg).
  rewrite E. unfold request_line in *.
  set (r := load_request (kind_of self k) (named_id self k)) in *.
  pose proof (parse_wire_line _ _ (wire_verb_plain r) (wire_args_ok _ Hok Hrt)) as Hparse. cbn zeta in Hparse.
  rewrite Hparse.
  - rewrite classify_wire, Hkind, (proj2 (Nat.ltb_ge _ _) Hfit), (proj2 (Nat.ltb_ge _ _) Harg) by done.
    cbn [orb andb]. by rewrite Ha.
  - unfold MAX_INITIAL_RESPONSE_LINE_BYTES, MAX_AUTHINFO_SASL_COMMAND_LINE_BYTES in *. lia.
Qed.

Definition load_item (k : nat) : Incoming := {| in_line := request_text self k; in_body := None |}.
Definition load_items : list Incoming := load_item <$> seq 0 n.

Lemma load_item_ok k : (k < n)%nat -> incoming_ok (load_item k).
Proof.
  intros Hk. destruct (load_line_request k Hk) as (Hok & Hrt & Hkind & Ha & E & Hfit & Harg).
  assert (wire_line (wire_verb (load_request (kind_of self k) (named_id self k))) (named_id self k)
          = request_text self k ++ CRLF) as El by (rewrite E; unfold request_line; by rewrite Ha).
  pose proof (wire_args_ok _ Hok Hrt) as Hargs. rewrite Ha in Hargs.
  assert (Forall plain (request_text self k)) as Hplain.
  { pose proof (wire_body_plain _ _ (wire_verb_plain (load_request (kind_of self k) (named_id self k))) Hargs) as Hb.
    unfold wire_line in El. rewrite app_assoc in El. apply app_inv_tail in El. by rewrite <- El. }
  split; cbn [load_item in_line in_body]; [done| |].
  - rewrite <- E, length_app in Hfit. etrans; [exact Hfit|]. apply Nat.leb_le. reflexivity.
  - unfold in_text. cbn [load_item in_line]. rewrite load_line_parse by done. cbn [RequestLine.rl_kind].
    unfold is_takethis_request, is_transfer_request, is_known_transfer_command, line_content.
    rewrite strip_complete_crlf_plain by done. cbn [default from_option id].
    unfold request_text. destruct (kind_of_ok self k) as [_ [->|[->| ->]]]; generalize (named_id self k); intros id;
      split; reflexivity.
Qed.

Lemma load_items_ok : Forall incoming_ok load_items.
Proof.
  apply Forall_fmap, List.Forall_forall. intros k Hk%in_seq. apply load_item_ok. lia.
Qed.

Lemma load_items_served : served (item_kind <$> load_items) = kind_of self <$> seq 0 n.
Proof.
  assert (item_kind <$> load_items = kind_of self <$> seq 0 n) as ->.
  { unfold load_items. rewrite <- list_fmap_compose. apply list_fmap_ext. intros i k Hk.
    unfold compose, item_kind, in_text. cbn [load_item in_line]. apply lookup_seq in Hk as [-> Hi].
    by rewrite load_line_parse. }
  induction (seq 0 n) as [|k l IH]; [done|]. cbn [fmap list_fmap served]. f_equal.
  assert (closes (kind_of self k) = false) as -> by (by destruct (kind_of_ok self k) as [_ [->|[->| ->]]]).
  exact IH.
Qed.

Lemma load_items_text count : concat (in_wire <$> take count load_items) = texts self 0 (Nat.min count n).
Proof.
  unfold load_items, texts. rewrite <- fmap_take, take_seq, <- list_fmap_compose. done.
Qed.
End lines.

(** ** The two ends *)

Lemma fixture_greeting find_end : ready_greeting find_end GREETING.
Proof. split; [vm_compute; reflexivity|apply Nat.leb_le; vm_compute; reflexivity|]. vm_compute. reflexivity. Qed.

(** Replies of the server as a session without verification takes them. *)
Lemma replies_whole self n replies :
  ld_verification_policy self = LoadVerificationPolicy.None ->
  Forall2 reply_ok (kind_of self <$> seq 0 n) replies ->
  Forall (fun reply => length reply <= ld_max_response_bytes self)%nat replies ->
  length replies = n
  /\ forall k reply, replies !! k = Some reply ->
       whole_reply (kind_of self k) (expected_of self k) (ld_max_response_bytes self) reply.
Proof.
  intros Hnone Hr Hmax. pose proof (Forall2_length Hr) as Hl. rewrite length_fmap, length_seq in Hl.
  split; [done|]. intros k reply Hk. assert (k < n)%nat by (rewrite Hl; by eapply lookup_lt_Some).
  assert ((kind_of self <$> seq 0 n) !! k = Some (kind_of self k)) as Hkind
    by (by rewrite list_lookup_fmap, lookup_seq_lt).
  destruct (Forall2_lookup_lr _ _ _ _ _ _ Hr Hkind Hk) as (r & (i & e & c & Hb) & _). split.
  - exists i, e, c. split; [done|]. unfold expected_of. by rewrite Hnone.
  - by apply (Forall_lookup_1 _ _ _ _ Hmax Hk).
Qed.

Section ends.
Context {W : Type} `{Aw : !AsyncWrite W, As : !AsyncWriteSpec W}.
Context `{Sk : !ServerSocket W, Ss : !ServerSocketSpec W}.
Context `{Mc : !Memchr, Ms : !MemchrSpec, Fs : !FileSystem}.
Context (find_end : bytes -> option nat) `{Hfe : !TerminatorFinder find_end}.
Context (encode_stream : nat -> nat -> bytes -> nat -> bytes -> bytes).

(** C14: A load session against the fixture server, over a socket of the server
    that does not fail, ends well on both sides.  The session checks no
    message-ids, has no limit on the bytes, is stopped by nobody, and no timer
    elapses and no write fails at its end; the clock of the server is within the
    calendar.  Then the server's session comes to its end, having answered the
    lines of the load session, each with one reply; and if none of the replies
    is longer than the load session accepts, the load session, to which the
    connection delivers what the server sent, whatever way it is cut, is done,
    none of its requests incomplete or timed out, and the two ends have counted
    the same number of commands and, the greeting apart, of bytes. *)
Theorem load_against_fixture_server (self : LoadSession) (n : nat) (args : ServerArgs) (config : ServerConfig)
    (linux : bool) (reader : BufReader) (w : W) (capacity : nat) (clock : nat -> Z) (lw : World) :
  share_ok self n -> offer_ok self -> ld_verification_policy self = LoadVerificationPolicy.None ->
  ld_transfer_bytes self = 0 -> calm lw -> free lw ->
  fixture_server find_end encode_stream args config -> connection (load_items self n) reader ->
  (forall n, time_ok (clock n)) -> reliable_socket (W := W) ->
  exists s replies,
    serve_session find_end config linux reader (session_new w capacity clock) = (Ok tt, s)
    /\ Forall2 reply_ok (kind_of self <$> seq 0 n) replies
    /\ sent (se_writer s) = sent w ++ GREETING ++ concat replies
    /\ st_commands (se_published s) = Z.of_nat n
    /\ (Forall (fun reply => length reply <= ld_max_response_bytes self)%nat replies ->
        forall hello chunks tail, concat hello = GREETING -> concat chunks = concat replies ->
        Forall (fun c => c <> []) hello -> Forall (fun c => c <> []) chunks -> stream_closes tail ->
        exists outcome lw',
          run (Mc := naive_memchr) find_end self (Ok ((Ok <$> hello) ++ stream_of chunks tail)) lw
            = (Done outcome, lw')
          /\ w_sent lw' = w_sent lw ++ concat (in_wire <$> load_items self n)
          /\ sh_commands (w_stats lw') = wrapping_add (sh_commands (w_stats lw)) (st_commands (se_published s))
          /\ sh_bytes_sent (w_stats lw')
             = wrapping_add (sh_bytes_sent (w_stats lw))
                 (st_bytes_sent (se_published s) - Z.of_nat (length GREETING))
          /\ lo_timed_out_connections outcome = 0 /\ lo_incomplete_requests outcome = 0).
Proof.
  intros Hshare Ho Hnone Htb Hcalm Hfree Hfx Hcn Hclock Hsock.
  destruct (connection_served find_end encode_stream args config _ reader Hfx Hcn) as (commands & Hread & Hkinds).
  destruct (session_completes find_end encode_stream args config linux commands true reader w capacity clock
    Hfx Hread Hclock Hsock (or_introl eq_refl)) as [s Hrun].
  pose proof (session_verdict find_end encode_stream args config linux commands true reader w capacity clock
    Hfx Hread Hclock) as Hv.
  rewrite Hrun in Hv. cbn [session_outcome] in Hv. rewrite Hkinds, (load_items_served self n Hshare) in Hv.
  destruct Hv as (_ & replies & Hr & Hsent & Hcmd & Hbytes). rewrite length_fmap, length_seq in Hcmd.
  exists s, replies. do 4 (split; [done|]). intros Hmax hello chunks tail Hhello Hout Hh Hc Ht.
  destruct (replies_whole self n replies Hnone Hr Hmax) as [Hlen Hreplies].
  destruct (run_completes (Mc := naive_memchr) find_end self n (Ok ((Ok <$> hello) ++ stream_of chunks tail)) replies lw Hshare Ho)
    as (N & outcome & lw' & Hdone & _ & HN & [D1 D2 D3 D4 D5 _]); [|done|].
  { split; [|done|done]. exists GREETING, hello, chunks, tail, []. rewrite app_nil_r.
    split; [done|]. split; [apply fixture_greeting|]. by split_and!. }
  rewrite HN in * by done. exists outcome, lw'. split; [done|].
  pose proof (load_items_text self n n) as Htext. rewrite Nat.min_id, take_ge in Htext
    by (unfold load_items; by rewrite length_fmap, length_seq).
  rewrite Htext, Hcmd, D2, D3, Hbytes, length_app, take_ge by lia.
  split_and!; try done. f_equal. lia.
Qed.
End ends.
