(* ===== verification/LoadSamples.v ===== *)
(** * Load sessions, run

    A server that answers four requests in uneven deliveries, a session with an
    offered rate that verifies every message-id, and the same load generator at
    the fixture server: the theorems on sessions at these runs. *)
From Stdlib Require Import Floats.SpecFloat.
From S2P Require Import Prelude Memchr Args Terminator Kinds ResponseLine ResponseFrame ClientWire.
From S2P Require Import ServerDates ServerResponses ServerCommands ServerReading ServerIndex ServerPayload ServerSession.
From S2P Require Import ServerReplies SessionLogic FixtureSession FixtureSamples.
From S2P Require Import Float64 LoadSchedule LoadWorkload LoadReader LoadSession LoadRuns FixtureLoad.

Local Open Scope Z_scope.
Local Open Scope rust_scope.

(** ** Sessions *)

Definition segment_session : LoadSession :=
  {| ld_segments := Some {| seg_ids := [lit "<a@b>"; lit "<c@d>"; lit "<e@f>"]; seg_declared_sizes := [] |};
     ld_client_index := 1; ld_total_clients := 2; ld_requests := Some 4; ld_transfer_bytes := 0;
     ld_next_id := 3; ld_workload_policy := LoadWorkloadPolicy.Disjoint;
     ld_verification_policy := LoadVerificationPolicy.Full; ld_drain_timeout := 1000000000;
     ld_offered_rate := Some (f64_of_int 1000); ld_latency_range := 60000; ld_latency_precision := 1000;
     ld_pipeline_depth := 2; ld_command_mix := ClientCommandMix.Stat; ld_read_buffer_bytes := 8;
     ld_max_response_bytes := 100 |}.

Definition synthetic_session : LoadSession :=
  {| ld_segments := None; ld_client_index := 0; ld_total_clients := 1; ld_requests := Some 5;
     ld_transfer_bytes := 0; ld_next_id := 7; ld_workload_policy := LoadWorkloadPolicy.Disjoint;
     ld_verification_policy := LoadVerificationPolicy.None; ld_drain_timeout := 1000000000;
     ld_offered_rate := None; ld_latency_range := 60000; ld_latency_precision := 1000;
     ld_pipeline_depth := 3; ld_command_mix := ClientCommandMix.Mixed; ld_read_buffer_bytes := 8;
     ld_max_response_bytes := 4096 |}.

Definition zero_stats : SharedStats :=
  {| sh_accepted_connections := 0; sh_active_connections := 0; sh_commands := 0; sh_pipeline_batches := 0;
     sh_article_requests := 0; sh_body_requests := 0; sh_bytes_sent := 0 |}.

(** A clock that advances, no timer that elapses, nobody who stops the session. *)
Definition quiet_world : World :=
  {| w_stream := []; w_sent := []; w_write _ := WriteDone; w_elapses _ := false;
     w_clock n := Z.of_nat n * 250000; w_stopped := false; w_others_stop _ := false;
     w_others_bytes _ := 0; w_stats := zero_stats |}.

Lemma quiet_world_calm : calm quiet_world.
Proof. by split. Qed.
Lemma quiet_world_free : free quiet_world.
Proof. by split. Qed.

Lemma segment_session_share : share_ok segment_session 4.
Proof.
  split; cbn [segment_session ld_requests ld_pipeline_depth ld_next_id ld_segments ld_client_index ld_total_clients seg_ids].
  - reflexivity.
  - unfold u64_max. lia.
  - lia.
  - unfold u64_max. lia.
  - split; [discriminate|]. split; [|unfold u64_max; lia]. repeat apply List.Forall_cons; [..|constructor].
    + exists (lit "a@b"). split; [reflexivity|]. split; [cbn; lia|reflexivity].
    + exists (lit "c@d"). split; [reflexivity|]. split; [cbn; lia|reflexivity].
    + exists (lit "e@f"). split; [reflexivity|]. split; [cbn; lia|reflexivity].
Qed.

Lemma segment_session_offer : offer_ok segment_session.
Proof. split; [eexists; vm_compute; reflexivity|eexists; vm_compute; reflexivity]. Qed.

Lemma synthetic_session_share : share_ok synthetic_session 5.
Proof.
  split; cbn [synthetic_session ld_requests ld_pipeline_depth ld_next_id ld_segments].
  - reflexivity.
  - unfold u64_max. lia.
  - lia.
  - unfold u64_max. lia.
  - exact I.
Qed.

(** ** A server of segments *)

Definition segment_replies : list bytes :=
  [bstr "223 0 <c@d> article exists\r\n"; bstr "223 0 <a@b> article exists\r\n";
   bstr "223 0 <e@f> yes\r\n"; bstr "223 0 <c@d> again\r\n"].

Definition whole_replyb (kind : RequestKind.RequestKind) (expected : option bytes) (max : nat) (reply : bytes) : bool :=
  match response_boundary kind reply with
  | BoundaryAt _ e _ f =>
      (f =? length reply)%nat && negb (bool_decide (is_Some (id_error expected (take e reply))))
      && (length reply <=? max)%nat
  | _ => false
  end.

Lemma whole_replyb_ok kind expected max reply :
  whole_replyb kind expected max reply = true -> whole_reply kind expected max reply.
Proof.
  unfold whole_replyb. destruct (response_boundary kind reply) as [| |i e c f] eqn:Eb; try done.
  intros [[->%Nat.eqb_eq Hid]%andb_true_iff Hmax%Nat.leb_le]%andb_true_iff.
  split; [|done]. exists i, e, c. split; [done|].
  destruct (id_error expected _); [|done]. rewrite bool_decide_eq_true_2 in Hid by by eexists. done.
Qed.

Definition segment_input : bytes := concat segment_replies ++ lit "unasked".
Definition segment_deliveries : list bytes :=
  [take 40 segment_input; take 5 (drop 40 segment_input); drop 45 segment_input].
Definition segment_greeting : bytes := bstr "200 ready\r\n".
Definition segment_connection : result Stream IoError :=
  Ok ((Ok <$> [take 4 segment_greeting; drop 4 segment_greeting]) ++ stream_of segment_deliveries []).

Lemma segment_connection_served :
  load_served find_streaming_terminator_end segment_session 4 segment_connection segment_replies.
Proof.
  split.
  - exists segment_greeting, [take 4 segment_greeting; drop 4 segment_greeting], segment_deliveries, [], (lit "unasked").
    split; [reflexivity|]. split.
    { split; [vm_compute; reflexivity|apply Nat.leb_le; vm_compute; reflexivity|vm_compute; reflexivity]. }
    split; [vm_compute; reflexivity|]. split; [repeat constructor; vm_compute; discriminate|].
    split; [vm_compute; reflexivity|]. split; [repeat constructor; vm_compute; discriminate|exact I].
  - reflexivity.
  - assert (imap (fun k => whole_replyb (kind_of segment_session k) (expected_of segment_session k) 100)
      segment_replies = replicate 4 true) as E by (vm_compute; reflexivity).
    intros k reply Hk. apply whole_replyb_ok. apply (f_equal (fun l => l !! k)) in E.
    rewrite list_lookup_imap, Hk in E. symmetry in E. apply lookup_replicate in E as [E _]. by symmetry.
Qed.

Lemma load_session_completes_witness :
  exists outcome w',
    run find_streaming_terminator_end segment_session segment_connection quiet_world = (Done outcome, w')
    /\ w_sent w' = texts segment_session 0 4 /\ sh_commands (w_stats w') = 4
    /\ lo_completed_requests outcome = 4.
Proof.
  destruct (load_session_completes find_streaming_terminator_end segment_session 4 segment_connection
    segment_replies quiet_world segment_session_share segment_session_offer segment_connection_served
    quiet_world_calm) as (N & outcome & w' & Hrun & _ & HN & [H1 H2 _ _ _ H6]).
  rewrite (HN quiet_world_free eq_refl) in *. exists outcome, w'. split; [exact Hrun|].
  split; [exact H1|]. split; [exact H2|]. apply H6. by eexists.
Defined.

(** ** At the fixture server *)

Definition load_connection : BufReader :=
  let input := concat (in_wire <$> load_items synthetic_session 5) in
  ServerReading.reader_of [take 70 input; drop 70 input].

Lemma load_connection_ok : connection (load_items synthetic_session 5) load_connection.
Proof.
  split.
  - exact (load_items_ok synthetic_session 5 synthetic_session_share).
  - repeat constructor; by eexists.
  - vm_compute; reflexivity.
Qed.

Local Abbreviation load_server_session :=
  (serve_session find_streaming_terminator_end sample_config true load_connection
    (session_new {| vs_buf := [] |} 256 sample_clock)).

(** What the server sends after its greeting, delivered in three parts. *)
Definition load_deliveries : list bytes :=
  let replies := drop (length GREETING) (vs_buf (se_writer (snd load_server_session))) in
  [take 100 replies; take 11 (drop 100 replies); drop 111 replies].

Lemma load_server_session_sent :
  sent (se_writer (snd load_server_session)) = sent {| vs_buf := [] |} ++ GREETING ++ concat load_deliveries.
Proof. vm_compute. reflexivity. Qed.

Lemma load_deliveries_short : (length (concat load_deliveries) <= ld_max_response_bytes synthetic_session)%nat.
Proof. apply Nat.leb_le. vm_compute. reflexivity. Qed.

(** A part is no longer than the whole. *)
Lemma parts_short (parts : list bytes) n :
  (length (concat parts) <= n)%nat -> Forall (fun part => length part <= n)%nat parts.
Proof.
  induction parts as [|part parts IH]; [constructor|]. cbn [concat]. rewrite length_app. intros H.
  apply List.Forall_cons; [lia|apply IH; lia].
Qed.

Lemma load_deliveries_parts : Forall (fun c => c <> []) load_deliveries.
Proof. repeat constructor; vm_compute; discriminate. Qed.

Definition greeting_parts : list bytes := [take 9 GREETING; drop 9 GREETING].

Lemma greeting_parts_whole : concat greeting_parts = GREETING.
Proof. vm_compute. reflexivity. Qed.

Lemma greeting_parts_ne : Forall (fun c => c <> []) greeting_parts.
Proof. repeat constructor; vm_compute; discriminate. Qed.

Lemma load_against_fixture_server_witness :
  exists outcome w',
    run (Mc := naive_memchr) find_streaming_terminator_end synthetic_session
      (Ok ((Ok <$> greeting_parts) ++ stream_of load_deliveries [])) quiet_world
    = (Done outcome, w')
    /\ w_sent w' = concat (in_wire <$> load_items synthetic_session 5)
    /\ sh_commands (w_stats w') = 5 /\ lo_timed_out_connections outcome = 0.
Proof.
  pose proof (load_against_fixture_server find_streaming_terminator_end no_yenc synthetic_session 5 sample_args
    sample_config true load_connection {| vs_buf := [] |} 256 sample_clock quiet_world
    synthetic_session_share I eq_refl eq_refl quiet_world_calm quiet_world_free sample_fixture_server
    load_connection_ok sample_clock_ok vec_sink_reliable_socket) as H.
  pose proof load_server_session_sent as Hout. pose proof load_deliveries_short as Hshort.
  pose proof load_deliveries_parts as Hparts. revert H Hout Hshort Hparts. generalize load_server_session load_deliveries.
  intros session deliveries (s & replies & -> & _ & Hsent & Hn & Hload) Hout Hshort Hparts. cbn [snd] in Hout.
  rewrite Hout in Hsent. apply app_inv_head, app_inv_head in Hsent.
  destruct (Hload) with (hello := greeting_parts) (chunks := deliveries) (tail := @nil (result bytes IoError))
    as (outcome & w' & Hrun & H1 & H3 & _ & H5 & _).
  - apply parts_short. rewrite <- Hsent. exact Hshort.
  - exact greeting_parts_whole.
  - exact Hsent.
  - exact greeting_parts_ne.
  - exact Hparts.
  - exact I.
  - exists outcome, w'. split; [exact Hrun|]. split; [exact H1|]. rewrite Hn in H3. split; [exact H3|exact H5].
Defined.

(** ** The reader *)

Lemma load_reader_refines_witness :
  (exists self' stream',
    read_response find_streaming_terminator_end (reader_new 8 100) (stream_of segment_deliveries [])
      RequestKind.Stat (Some (lit "<c@d>")) = Some (Ok 28%nat, self', stream'))
  /\ exists self' stream',
    read_response find_streaming_terminator_end (reader_new 8 100) (stream_of segment_deliveries [])
      RequestKind.Stat (Some (lit "<a@b>")) = Some (Err wrong_message_id, self', stream').
Proof.
  assert (Forall (fun c => c <> []) segment_deliveries) as Hne by (repeat constructor; vm_compute; discriminate).
  assert (inside (reader_new 8 100)) as Hi by (apply Nat.leb_le; reflexivity).
  split.
  - destruct (load_reader_refines find_streaming_terminator_end (reader_new 8 100) segment_deliveries []
      RequestKind.Stat (Some (lit "<c@d>")) Hi Hne I) as (self' & stream' & -> & _).
    exists self', stream'. vm_compute. reflexivity.
  - destruct (load_reader_refines find_streaming_terminator_end (reader_new 8 100) segment_deliveries []
      RequestKind.Stat (Some (lit "<a@b>")) Hi Hne I) as (self' & stream' & -> & _).
    exists self', stream'. vm_compute. reflexivity.
Defined.

(** ** Where a session loses requests *)

(** The first wait for a deadline outlasts the drain timeout. *)
Definition slow_world : World := set_elapses quiet_world (fun n => (n =? 2)%nat).

Definition run_of (w : World) : Step LoadSessionOutcome * World :=
  run find_streaming_terminator_end segment_session segment_connection w.

(** The wait for the next deadline is under the drain timeout: the session of an
    offered load that is slow enough ends as timed out. *)
Lemma slow_offer_times_out :
  match run_of slow_world with
  | (Done outcome, w') =>
      lo_timed_out_connections outcome = 1 /\ lo_incomplete_requests outcome = 1
      /\ w_sent w' = texts segment_session 0 2
  | _ => False
  end.
Proof. vm_compute. done. Qed.

(** And its answered request is counted in bytes only. *)
Lemma timed_out_commands_lost :
  match run_of slow_world with
  | (Done outcome, w') =>
      lo_completed_requests outcome = 1 /\ sh_bytes_sent (w_stats w') = 28 /\ sh_commands (w_stats w') = 0
  | _ => False
  end.
Proof. vm_compute. done. Qed.
