(* ===== verification/Words.v ===== *)
(** * Words of a string

    The standard library's splitting of a [&str] at white space:
    [split_whitespace], [trim], [split_once(char::is_whitespace)] and [lines].
    A white-space character is recognised by its UTF-8 bytes, whose first byte
    starts no other character. *)
From S2P Require Import Prelude Utf8.

Local Open Scope Z_scope.

(** The length of the white-space character at the start, 0 for none. *)
Definition whitespace_len (value : bytes) : nat :=
  match value with
  | b0 :: rest =>
      if in_range 9 13 b0 || (b0 =? 32) then 1%nat
      else
        match rest with
        | b1 :: rest =>
            if (b0 =? 194) && ((b1 =? 133) || (b1 =? 160)) then 2%nat
            else
              match rest with
              | b2 :: _ =>
                  if (b0 =? 225) && (b1 =? 154) && (b2 =? 128) then 3%nat
                  else if (b0 =? 226) && (b1 =? 128)
                          && (in_range 128 138 b2 || (b2 =? 168) || (b2 =? 169) || (b2 =? 175)) then 3%nat
                  else if (b0 =? 226) && (b1 =? 129) && (b2 =? 159) then 3%nat
                  else if (b0 =? 227) && (b1 =? 128) && (b2 =? 128) then 3%nat
                  else 0%nat
              | [] => 0%nat
              end
        | [] => 0%nat
        end
  | [] => 0%nat
  end.

(** [split_whitespace]; [skip] bytes of a separator are left, [word] is the word
    so far. *)
Fixpoint words_loop (value : bytes) (skip : nat) (word : bytes) : list bytes :=
  match value with
  | [] => match word with [] => [] | _ => [word] end
  | b :: value' =>
      match skip with
      | S skip => words_loop value' skip word
      | O =>
          match whitespace_len value with
          | O => words_loop value' 0 (word ++ [b])
          | S skip =>
              match word with
              | [] => words_loop value' skip []
              | _ => word :: words_loop value' skip []
              end
          end
      end
  end.
Definition split_whitespace (value : bytes) : list bytes := words_loop value 0 [].

(** Nothing but white space, after [skip] bytes. *)
Fixpoint blank_loop (value : bytes) (skip : nat) : bool :=
  match value with
  | [] => true
  | _ :: value' =>
      match skip with
      | S skip => blank_loop value' skip
      | O => match whitespace_len value with O => false | S skip => blank_loop value' skip end
      end
  end.
Definition is_blank (value : bytes) : bool := blank_loop value 0.

Fixpoint trim_start_loop (value : bytes) (skip : nat) : bytes :=
  match value with
  | [] => []
  | _ :: value' =>
      match skip with
      | S skip => trim_start_loop value' skip
      | O => match whitespace_len value with O => value | S skip => trim_start_loop value' skip end
      end
  end.
Definition trim_start (value : bytes) : bytes := trim_start_loop value 0.

Fixpoint trim_end (value : bytes) : bytes :=
  if is_blank value then []
  else match value with [] => [] | b :: value' => b :: trim_end value' end.

Definition trim (value : bytes) : bytes := trim_end (trim_start value).

(** [split_once(char::is_whitespace)]. *)
Fixpoint split_once_whitespace (value : bytes) : option (bytes * bytes) :=
  match value with
  | [] => None
  | b :: value' =>
      match whitespace_len value with
      | O => (fun parts => (b :: fst parts, snd parts)) <$> split_once_whitespace value'
      | n => Some ([], drop n value)
      end
  end.

(** [lines]: what a line feed ends, without it and a return before it; a rest
    without a line feed is a line of its own. *)
Fixpoint split_inclusive (value : bytes) (line : bytes) : list bytes :=
  match value with
  | [] => match line with [] => [] | _ => [line] end
  | b :: value' =>
      if b =? LF then (line ++ [b]) :: split_inclusive value' [] else split_inclusive value' (line ++ [b])
  end.

Definition line_of_piece (piece : bytes) : bytes :=
  match strip_suffix piece [LF] with
  | None => piece
  | Some line => default line (strip_suffix line [CR])
  end.

Definition str_lines (value : bytes) : list bytes := line_of_piece <$> split_inclusive value [].

(** ** Words without white space *)

(** A word of visible ASCII characters. *)
Definition word (w : bytes) : Prop := w <> [] /\ Forall (fun b => 33 <= b <= 126) w.

Lemma whitespace_len_visible b rest : 33 <= b <= 126 -> whitespace_len (b :: rest) = 0%nat.
Proof.
  intros Hb. unfold whitespace_len, in_range.
  repeat match goal with |- context [(?x =? ?y)] => destruct (Z.eqb_spec x y); [lia|] end.
  rewrite (proj2 (Z.leb_gt b 13)) by lia. rewrite andb_false_r. cbn.
  by destruct rest as [|b1 [|b2 rest]].
Qed.

Lemma whitespace_len_space rest : whitespace_len (SP :: rest) = 1%nat.
Proof. done. Qed.

Lemma words_visible w rest acc :
  Forall (fun b => 33 <= b <= 126) w -> words_loop (w ++ rest) 0 acc = words_loop rest 0 (acc ++ w).
Proof.
  intros Hw. revert acc. induction Hw as [|b w Hb _ IH]; intros acc; [by rewrite app_nil_r|].
  cbn [app words_loop]. rewrite whitespace_len_visible by done. by rewrite IH, <- app_assoc.
Qed.

Lemma split_whitespace_one w : word w -> split_whitespace w = [w].
Proof.
  intros [Hne Hw]. unfold split_whitespace. rewrite <- (app_nil_r w) at 1. rewrite words_visible by done.
  cbn. by destruct w.
Qed.

Lemma split_whitespace_cons w rest :
  word w -> split_whitespace (w ++ SP :: rest) = w :: split_whitespace rest.
Proof.
  intros [Hne Hw]. unfold split_whitespace. rewrite words_visible by done. cbn [words_loop app].
  rewrite whitespace_len_space. by destruct w.
Qed.

Lemma split_once_cons w rest :
  Forall (fun b => 33 <= b <= 126) w -> split_once_whitespace (w ++ SP :: rest) = Some (w, rest).
Proof.
  induction 1 as [|b w Hb _ IH]; cbn [app split_once_whitespace].
  - done.
  - rewrite whitespace_len_visible by done. by rewrite IH.
Qed.

Lemma trim_start_word b rest : 33 <= b <= 126 -> trim_start (b :: rest) = b :: rest.
Proof. intros Hb. unfold trim_start. cbn [trim_start_loop]. by rewrite whitespace_len_visible. Qed.

Lemma not_blank_last value b : Forall (fun x => 32 <= x <= 126) value -> 33 <= b <= 126 -> is_blank (value ++ [b]) = false.
Proof.
  intros Hv Hb. unfold is_blank. induction Hv as [|x value Hx _ IH]; cbn [app blank_loop].
  - by rewrite whitespace_len_visible.
  - destruct (decide (x = 32)) as [->|]; [by rewrite whitespace_len_space|].
    by rewrite whitespace_len_visible by lia.
Qed.

Lemma trim_end_last value b :
  Forall (fun x => 32 <= x <= 126) value -> 33 <= b <= 126 -> trim_end (value ++ [b]) = value ++ [b].
Proof.
  intros Hv Hb. induction Hv as [|x value Hx Hv IH].
  - cbn [app trim_end]. change [b] with ([] ++ [b]). by rewrite not_blank_last.
  - cbn [app trim_end]. change (x :: value ++ [b]) with ((x :: value) ++ [b]).
    rewrite not_blank_last by (done || by constructor). cbn [app]. by rewrite IH.
Qed.

(** ** Characters *)

(** The bytes of one character. *)
Record is_char (c : bytes) : Prop := {
  ch_decodes : exists x, forall l, from_utf8 (c ++ l) = cons x <$> from_utf8 l;
  ch_lead : exists b0 rest, c = b0 :: rest /\ Forall (fun b => 128 <= b <= 191) rest
    /\ (0 <= b0 <= 127 /\ rest = [] \/ 194 <= b0 <= 223 /\ length rest = 1%nat
        \/ 224 <= b0 <= 239 /\ length rest = 2%nat \/ 240 <= b0 <= 244 /\ length rest = 3%nat);
}.

Lemma second_byte_continuation b0 b1 : second_byte_ok b0 b1 = true -> 128 <= b1 <= 191.
Proof.
  unfold second_byte_ok, is_continuation. intros Hr. repeat case_match; apply in_range_spec in Hr; lia.
Qed.

(** A string is its first character and a string. *)
Lemma is_str_cons l : is_str l -> l = [] \/ exists c l', l = c ++ l' /\ is_char c /\ is_str l'.
Proof.
  intros [cs H]. destruct l as [|b0 l1]; [by left|right]. cbn [from_utf8] in H.
  destruct (in_range 0 127 b0) eqn:E0.
  { apply fmap_Some in H as (r & Hr & _). exists [b0], l1. split; [done|]. split; [|by exists r]. split.
    - exists b0. intros l. cbn [app from_utf8]. by rewrite E0.
    - exists b0, []. split; [done|]. split; [constructor|]. apply in_range_spec in E0. by left. }
  destruct (in_range 194 223 b0) eqn:E1.
  { destruct l1 as [|b1 l2]; [done|]. destruct (is_continuation b1) eqn:Ec; [|done].
    apply fmap_Some in H as (r & Hr & _). exists [b0; b1], l2. split; [done|]. split; [|by exists r]. split.
    - eexists. intros l. cbn [app from_utf8]. by rewrite E0, E1, Ec.
    - exists b0, [b1]. apply in_range_spec in E1, Ec. split; [done|]. split; [repeat apply List.Forall_cons; done|]. right. by left. }
  destruct (in_range 224 239 b0) eqn:E2.
  { destruct l1 as [|b1 [|b2 l3]]; [done..|]. destruct (_ && _) eqn:Ec; [|done].
    apply fmap_Some in H as (r & Hr & _). exists [b0; b1; b2], l3. split; [done|]. split; [|by exists r]. split.
    - eexists. intros l. cbn [app from_utf8]. by rewrite E0, E1, E2, Ec.
    - exists b0, [b1; b2]. apply andb_true_iff in Ec as [Hb1%second_byte_continuation Hb2%in_range_spec].
      apply in_range_spec in E2. split; [done|]. split; [repeat apply List.Forall_cons; done|]. right. right. by left. }
  destruct (in_range 240 244 b0) eqn:E3; [|done].
  destruct l1 as [|b1 [|b2 [|b3 l4]]]; [done..|]. destruct (_ && _) eqn:Ec; [|done].
  apply fmap_Some in H as (r & Hr & _). exists [b0; b1; b2; b3], l4. split; [done|]. split; [|by exists r]. split.
  - eexists. intros l. cbn [app from_utf8]. by rewrite E0, E1, E2, E3, Ec.
  - exists b0, [b1; b2; b3]. apply andb_true_iff in Ec as [Ec Hb3%in_range_spec].
    apply andb_true_iff in Ec as [Hb1%second_byte_continuation Hb2%in_range_spec].
    apply in_range_spec in E3. split; [done|]. split; [repeat apply List.Forall_cons; done|]. right. right. by right.
Qed.

Lemma is_char_ne c : is_char c -> (0 < length c)%nat.
Proof. intros [_ (b0 & rest & -> & _)]. cbn. lia. Qed.

Lemma is_str_ind (P : bytes -> Prop) :
  P [] -> (forall c l, is_char c -> is_str l -> P l -> P (c ++ l)) -> forall l, is_str l -> P l.
Proof.
  intros H0 Hc l. induction l as [l IH] using (induction_ltof1 _ (@length Z)). intros Hl.
  destruct (is_str_cons l Hl) as [->|(c & l' & -> & Hch & Hl')]; [done|].
  apply Hc; [done|done|]. apply IH; [|done]. unfold ltof. rewrite length_app. pose proof (is_char_ne c Hch). lia.
Qed.

Lemma is_str_nil : is_str [].
Proof. by exists []. Qed.

Lemma is_str_char c l : is_char c -> is_str l -> is_str (c ++ l).
Proof. intros [[x Hx] _] [cs Hl]. exists (x :: cs). by rewrite Hx, Hl. Qed.

Lemma is_str_app a b : is_str a -> is_str b -> is_str (a ++ b).
Proof.
  intros Ha Hb. induction Ha as [|c l Hc Hl IH] using is_str_ind; [done|].
  rewrite <- app_assoc. by apply is_str_char.
Qed.

(** A character is white space as a whole, or none of its bytes starts one. *)
Lemma whitespace_len_char c l :
  is_char c -> whitespace_len (c ++ l) = length c \/ whitespace_len (c ++ l) = 0%nat.
Proof.
  intros [_ (b0 & rest & -> & Hrest & Hcase)]. unfold whitespace_len. cbn [app].
  destruct (in_range 9 13 b0 || (b0 =? 32)) eqn:E.
  { left. destruct Hcase as [[_ ->]|Hcase]; [done|]. apply orb_true_iff in E as [E%in_range_spec|E%Z.eqb_eq]; lia. }
  destruct Hcase as [[Hb ->]|[[Hb Hl]|[[Hb Hl]|[Hb Hl]]]].
  - cbn [app]. right. rewrite !(proj2 (Z.eqb_neq b0 _)) by lia. cbn [andb]. by destruct l as [|b1 [|b2 l]].
  - destruct rest as [|b1 [|]]; [done| |done]. cbn [app]. destruct (b0 =? 194) eqn:E1; cbn [andb].
    + apply Z.eqb_eq in E1. destruct ((b1 =? 133) || (b1 =? 160)); [by left|right].
      destruct l; [done|]. by rewrite !(proj2 (Z.eqb_neq b0 _)) by lia.
    + right. destruct l; [done|]. by rewrite !(proj2 (Z.eqb_neq b0 _)) by lia.
  - destruct rest as [|b1 [|b2 [|]]]; [done..| |done]. cbn [app].
    rewrite (proj2 (Z.eqb_neq b0 194)) by lia. cbn [andb]. repeat case_match; (by left) || by right.
  - right. destruct rest as [|b1 [|b2 rest]]; [done..|]. cbn [app].
    by rewrite !(proj2 (Z.eqb_neq b0 _)) by lia.
Qed.

Lemma whitespace_len_continuation b l : 128 <= b <= 191 -> whitespace_len (b :: l) = 0%nat.
Proof.
  intros Hb. unfold whitespace_len. rewrite (proj2 (in_range_false 9 13 b)) by lia.
  rewrite !(proj2 (Z.eqb_neq b _)) by lia. by destruct l as [|b1 [|b2 l]].
Qed.

Lemma words_skip c l w : words_loop (c ++ l) (length c) w = words_loop l 0 w.
Proof. induction c as [|b c IH]; [done|]. cbn [app length words_loop]. exact IH. Qed.

Lemma words_continuation rest l w :
  Forall (fun b => 128 <= b <= 191) rest -> words_loop (rest ++ l) 0 w = words_loop l 0 (w ++ rest).
Proof.
  intros Hr. revert w. induction Hr as [|b rest Hb _ IH]; intros w; [by rewrite app_nil_r|].
  cbn [app words_loop]. rewrite whitespace_len_continuation by done. by rewrite IH, <- app_assoc.
Qed.

Lemma words_char c l w :
  is_char c ->
  words_loop (c ++ l) 0 w = words_loop l 0 (w ++ c)
  \/ words_loop (c ++ l) 0 w = match w with [] => words_loop l 0 [] | _ => w :: words_loop l 0 [] end.
Proof.
  intros Hc. pose proof (whitespace_len_char c l Hc) as Hw.
  destruct Hc as [_ (b0 & rest & -> & Hrest & _)]. cbn [app words_loop] in *.
  destruct Hw as [Hw|Hw]; rewrite Hw; cbn [length].
  - right. by destruct w; rewrite words_skip.
  - left. by rewrite words_continuation, <- app_assoc.
Qed.

Lemma words_str l w : is_str l -> is_str w -> Forall is_str (words_loop l 0 w).
Proof.
  intros Hl. revert w. induction Hl as [|c l Hc Hl IH] using is_str_ind; intros w Hw.
  - cbn. destruct w; by repeat constructor.
  - destruct (words_char c l w Hc) as [-> | ->].
    + apply IH, is_str_app; [done|]. rewrite <- (app_nil_r c). apply is_str_char; [done|apply is_str_nil].
    + destruct w; [apply IH, is_str_nil|]. apply List.Forall_cons; [done|]. apply IH, is_str_nil.
Qed.

Lemma split_whitespace_str l : is_str l -> Forall is_str (split_whitespace l).
Proof. intros Hl. apply words_str; [done|apply is_str_nil]. Qed.

Lemma trim_start_skip c l : trim_start_loop (c ++ l) (length c) = trim_start_loop l 0.
Proof. induction c as [|b c IH]; [done|]. cbn [app length trim_start_loop]. exact IH. Qed.

Lemma trim_start_str l : is_str l -> is_str (trim_start l).
Proof.
  unfold trim_start. intros Hl. pose proof Hl as Hl'. induction Hl as [|c l Hc Hl IH] using is_str_ind; [done|].
  pose proof (whitespace_len_char c l Hc) as Hw. destruct Hc as [_ (b0 & rest & -> & _)].
  cbn [app trim_start_loop] in *. destruct Hw as [Hw|Hw]; rewrite Hw; [|done]. cbn [length].
  rewrite trim_start_skip. by apply IH.
Qed.

Lemma trim_end_char c l :
  is_char c -> trim_end (c ++ l) = [] \/ trim_end (c ++ l) = c ++ trim_end l.
Proof.
  intros [_ (b0 & rest & -> & Hrest & _)]. cbn [app trim_end]. destruct (is_blank _); [by left|right]. f_equal.
  induction Hrest as [|b rest Hb _ IH]; [done|]. cbn [app trim_end].
  assert (is_blank (b :: rest ++ l) = false) as ->; [|by rewrite IH].
  unfold is_blank. cbn [blank_loop]. by rewrite whitespace_len_continuation.
Qed.

Lemma trim_end_str l : is_str l -> is_str (trim_end l).
Proof.
  intros Hl. induction Hl as [|c l Hc Hl IH] using is_str_ind; [apply is_str_nil|].
  destruct (trim_end_char c l Hc) as [-> | ->]; [apply is_str_nil|by apply is_str_char].
Qed.

Lemma trim_str l : is_str l -> is_str (trim l).
Proof. intros Hl. by apply trim_end_str, trim_start_str. Qed.

(** ** Lines *)

Lemma split_inclusive_line line rest acc :
  ~ In LF line -> split_inclusive (line ++ LF :: rest) acc = (acc ++ line ++ [LF]) :: split_inclusive rest [].
Proof.
  revert acc. induction line as [|b line IH]; intros acc Hn; cbn [app split_inclusive].
  - by rewrite Z.eqb_refl.
  - rewrite (proj2 (Z.eqb_neq b LF)) by (intros ->; apply Hn; by left).
    rewrite IH by (intros Hin; apply Hn; by right). by rewrite <- app_assoc.
Qed.

Lemma line_of_piece_line line : line_of_piece (line ++ [LF]) = default line (strip_suffix line [CR]).
Proof.
  unfold line_of_piece, strip_suffix, ends_with, bytes_eqb. rewrite length_app. cbn [length].
  replace (length line + 1 - 1)%nat with (length line) by lia.
  by rewrite drop_app_length, bool_decide_eq_true_2, take_app_length.
Qed.

Lemma str_lines_line line rest :
  ~ In LF line -> str_lines (line ++ LF :: rest) = default line (strip_suffix line [CR]) :: str_lines rest.
Proof.
  intros Hn. unfold str_lines. rewrite split_inclusive_line by done. cbn [fmap list_fmap app].
  by rewrite line_of_piece_line.
Qed.

(** The end of a string behind an ASCII byte. *)
Lemma is_str_init l b : 0 <= b <= 127 -> is_str (l ++ [b]) -> is_str l.
Proof.
  intros Hb Hs. remember (l ++ [b]) as s eqn:E. revert l E.
  induction Hs as [|c s Hc Hs IH] using is_str_ind; intros l E; [by destruct l|].
  destruct s as [|b' s' _] using rev_ind.
  - rewrite app_nil_r in E. destruct Hc as [_ (b0 & rest & -> & Hrest & Hcase)].
    destruct rest as [|b' rest' _] using rev_ind.
    + destruct l as [|x l]; [apply is_str_nil|]. injection E as _ E. by destruct l.
    + change (b0 :: rest' ++ [b']) with ((b0 :: rest') ++ [b']) in E. apply app_inj_tail in E as [_ ->].
      apply Forall_app in Hrest as [_ Hrest]. inversion Hrest; subst. lia.
  - rewrite app_assoc in E. apply app_inj_tail in E as [<- ->]. apply is_str_char; [done|]. by apply IH.
Qed.

Lemma pieces_str l acc :
  is_str l -> is_str acc ->
  Forall (fun piece => is_str piece) (split_inclusive l acc).
Proof.
  intros Hl. revert acc. induction Hl as [|c l Hc Hl IH] using is_str_ind; intros acc Ha.
  - cbn. destruct acc; by repeat apply List.Forall_cons.
  - assert (is_str (acc ++ c)) as Hac.
    { apply is_str_app; [done|]. rewrite <- (app_nil_r c). apply is_str_char; [done|apply is_str_nil]. }
    destruct Hc as [_ (b0 & rest & -> & Hrest & Hcase)]. cbn [app split_inclusive].
    destruct (Z.eqb_spec b0 LF) as [->|Hne].
    + unfold LF in *. assert (rest = []) as -> by (destruct Hcase as [[_ ?]|Hcase]; [done|lia]).
      apply List.Forall_cons; [done|]. apply IH, is_str_nil.
    + replace (acc ++ b0 :: rest) with ((acc ++ [b0]) ++ rest) in Hac by by rewrite <- app_assoc.
      revert Hac. generalize (acc ++ [b0]) as a. clear Ha Hcase.
      induction Hrest as [|b rest Hb _ IHr]; intros a Hac; cbn [app split_inclusive].
      * apply IH. by rewrite app_nil_r in Hac.
      * rewrite (proj2 (Z.eqb_neq b LF)) by (unfold LF; lia). apply IHr.
        by rewrite <- app_assoc.
Qed.

Lemma strip_suffix_str l b : 0 <= b <= 127 -> is_str l -> is_str (default l (strip_suffix l [b])).
Proof.
  intros Hb Hl. unfold strip_suffix, ends_with, bytes_eqb. destruct (bool_decide_reflect (drop (length l - length [b]) l = [b])) as [E|];
    [|done].
  cbn [default from_option id]. apply (is_str_init _ b Hb).
  assert (take (length l - length [b]) l ++ drop (length l - length [b]) l = l) as Hcut by apply take_drop.
  rewrite E in Hcut. by rewrite Hcut.
Qed.

Lemma str_lines_str l : is_str l -> Forall is_str (str_lines l).
Proof.
  intros Hl. unfold str_lines. apply Forall_fmap. eapply List.Forall_impl; [|apply pieces_str, is_str_nil; exact Hl].
  intros piece Hp. unfold compose, line_of_piece.
  pose proof (strip_suffix_str piece LF ltac:(unfold LF; lia) Hp) as H1.
  destruct (strip_suffix piece [LF]) as [line|]; [|done]. cbn in H1.
  apply strip_suffix_str; [unfold CR; lia|done].
Qed.
