(* ===== verification/FetchCommand.v ===== *)
(** * The requests of the fetch command ([src/src/lib.rs])

    What one invocation of the client sends: the arguments of the command line
    are checked together ([validate_fetch_args]) and made into one request
    ([fetch_request]) or one transfer of an article ([prepare_fetch]). *)
From S2P Require Import Prelude Utf8 Decimal Memchr Args Terminator Kinds Requests RequestWire.
From S2P Require Import OwnedResponse ClientWire ClientEngine Float64 LoadWorkload.

Local Open Scope Z_scope.
Local Open Scope rust_scope.

(** ** Errors *)

Local Abbreviation error := (client_error IoError).

(** The [From] conversions of [ClientError]. *)
Definition from_header_query (value : Request.InvalidHeaderQuery) : error :=
  match value with
  | Request.HeaderError _ => ClientError.InvalidHeaderName
  | Request.SelectorError _ => ClientError.InvalidArticleSelector
  end.

Definition from_discovery (value : Request.InvalidDiscoveryArguments) : error :=
  match value with
  | Request.WildmatError _ => ClientError.InvalidWildmat
  | Request.DateError _ => ClientError.InvalidDate
  | Request.TimeError _ => ClientError.InvalidTime
  end.

Definition from_auth_info_value (_ : invalid) : error := ClientError.InvalidAuthInfoValue.

Definition from_range_or_group (value : Request.InvalidListGroupRangeOrGroupName) : error :=
  match value with
  | Request.RangeError _ => ClientError.InvalidListGroupRange
  | Request.GroupNameError _ => ClientError.InvalidGroupName
  end.

(** ** Arguments *)

Module FetchRequestKind.
Inductive FetchRequestKind : Type :=
| Article | Body | Head | Stat | ListActive | ListActiveTimes | ListNewsgroups | ListOverviewFmt
| ListHeaders | ListDistribPats | Group | Listgroup | Last | Next | Newgroups | Newnews | Post
| Ihave | Check | Takethis | AuthinfoUser | AuthinfoPass | Starttls | Over | Xover | Hdr | Xhdr
| List | Help | Capabilities | Date | ModeReader | ModeStream | Quit.

#[global] Instance fetch_request_kind_eq_dec : EqDecision FetchRequestKind.
Proof. solve_decision. Defined.
End FetchRequestKind.

(** An address is its text and the port. *)
Record SocketAddr : Type := { sa_ip : bytes; sa_port : Z }.

Record FetchArgs : Type := {
  fa_connect : SocketAddr;
  fa_request : option FetchRequestKind.FetchRequestKind;
  fa_message_id : option bytes;
  fa_article_body : option bytes;
  fa_article_file : option bytes;
  fa_capability : option bytes;
  fa_session : option bytes;
  fa_auth_value : option bytes;
  fa_header : option bytes;
  fa_group : option bytes;
  fa_wildmat : option bytes;
  fa_date : option bytes;
  fa_time : option bytes;
  fa_gmt : bool;
  fa_selector : option bytes;
  fa_threads : Z;
  fa_read_buffer_bytes : nat;
  fa_max_response_bytes : nat;
  fa_pipeline_depth : nat;
  fa_ports : list Z;
  fa_segments : option bytes;
  fa_requests : Z;
  fa_transfer_bytes : Z;
  fa_duration_secs : Z;
  fa_setup_timeout_secs : Z;
  fa_drain_timeout_secs : Z;
  fa_offered_rate : option f64;
  fa_latency_range_ms : Z;
  fa_latency_precision_us : Z;
  fa_connections : Z;
  fa_client_offset : Z;
  fa_total_clients : Z;
  fa_command_mix : ClientCommandMix.ClientCommandMix;
  fa_start_id : Z;
  fa_workload_policy : LoadWorkloadPolicy.LoadWorkloadPolicy;
  fa_verification_policy : LoadVerificationPolicy.LoadVerificationPolicy;
  fa_csv : bool;
  fa_json : bool;
  fa_stats_interval_secs : Z;
  fa_nodelay : bool;
  fa_socket_recv_buffer : Z;
  fa_socket_send_buffer : Z;
}.

Definition given {A} (value : option A) : bool := bool_decide (is_Some value).

Definition validate_fetch_args (args : FetchArgs) : result unit error :=
  if given (fa_session args)
     && (given (fa_request args) || given (fa_capability args) || given (fa_article_body args)
         || given (fa_article_file args))
  then Err ClientError.ConflictingArguments
  else if given (fa_article_body args) && given (fa_article_file args)
  then Err ClientError.ConflictingArguments
  else
    let article_input := given (fa_article_body args) || given (fa_article_file args) in
    let article_command :=
      match fa_request args with
      | Some (FetchRequestKind.Post | FetchRequestKind.Ihave | FetchRequestKind.Takethis) => true
      | _ => false
      end in
    if article_input && negb article_command then Err ClientError.ConflictingArguments
    else if given (fa_capability args)
            && negb (bool_decide (fa_request args = Some FetchRequestKind.Capabilities))
    then Err ClientError.ConflictingArguments
    else
      match fa_capability args with
      | Some keyword =>
          let? _ := map_err (fun _ => ClientError.InvalidCapabilityKeyword)
                      (Request.capabilities_keyword keyword) in
          Ok tt
      | None => Ok tt
      end.

(** ** One request *)

Definition fetch_message_id_request (args : FetchArgs) (build : bytes -> result Request.Request invalid)
    : result Request.Request error :=
  let? message_id := ok_or ClientError.MissingMessageId (fa_message_id args) in
  map_err (fun _ => ClientError.InvalidMessageId) (build message_id).

Definition fetch_article_request (args : FetchArgs)
    (build_message_id build_selector : bytes -> result Request.Request invalid)
    (build_current : Request.Request) : result Request.Request error :=
  match fa_message_id args with
  | Some message_id => map_err (fun _ => ClientError.InvalidMessageId) (build_message_id message_id)
  | None =>
      match fa_selector args with
      | Some selector => map_err (fun _ => ClientError.InvalidArticleSelector) (build_selector selector)
      | None => Ok build_current
      end
  end.

Definition fetch_header_request (args : FetchArgs)
    (build_current : bytes -> result Request.Request Request.InvalidHeaderQuery)
    (build_selector : bytes -> bytes -> result Request.Request Request.InvalidHeaderQuery)
    : result Request.Request error :=
  let? header := ok_or ClientError.MissingHeaderName (fa_header args) in
  match fa_selector args with
  | Some selector => map_err from_header_query (build_selector header selector)
  | None => map_err from_header_query (build_current header)
  end.

Definition fetch_group_request (args : FetchArgs) (build : bytes -> result Request.Request invalid)
    : result Request.Request error :=
  let? group := ok_or ClientError.MissingGroupName (fa_group args) in
  map_err (fun _ => ClientError.InvalidGroupName) (build group).

Definition fetch_listgroup_request (args : FetchArgs) : result Request.Request error :=
  match fa_group args, fa_selector args with
  | Some group, Some range => map_err from_range_or_group (Request.listgroup_group_range group range)
  | Some group, None => map_err (fun _ => ClientError.InvalidGroupName) (Request.listgroup group)
  | None, Some _ => Err ClientError.MissingGroupName
  | None, None => Ok Request.listgroup_current
  end.

Definition fetch_newgroups_request (args : FetchArgs) : result Request.Request error :=
  let? date := ok_or ClientError.MissingDate (fa_date args) in
  let? time := ok_or ClientError.MissingTime (fa_time args) in
  map_err from_discovery (Request.newgroups date time (fa_gmt args)).

Definition fetch_newnews_request (args : FetchArgs) : result Request.Request error :=
  let? wildmat := ok_or ClientError.MissingWildmat (fa_wildmat args) in
  let? date := ok_or ClientError.MissingDate (fa_date args) in
  let? time := ok_or ClientError.MissingTime (fa_time args) in
  map_err from_discovery (Request.newnews wildmat date time (fa_gmt args)).

Definition fetch_authinfo_request (args : FetchArgs) (build : bytes -> result Request.Request invalid)
    : result Request.Request error :=
  let? value := ok_or ClientError.MissingAuthInfoValue (fa_auth_value args) in
  map_err from_auth_info_value (build value).

(** An optional wildmat, selector or keyword. *)
Definition fetch_optional_request (value : option bytes) (e : error)
    (build : bytes -> result Request.Request invalid) (plain : Request.Request)
    : result Request.Request error :=
  match value with
  | Some value => map_err (fun _ => e) (build value)
  | None => Ok plain
  end.

(** What is sent: one request, or a transfer of an article. *)
Module PreparedFetch.
Inductive PreparedFetch : Type :=
| Request (request : Request.Request)
| Post (article : bytes)
| Ihave (message_id article : bytes)
| TakeThis (message_id article : bytes).
End PreparedFetch.

Section files.
(** [fs::read] of a file named on the command line. *)
Variable fs_read : bytes -> result bytes IoError.

Definition article_bytes_from_args (args : FetchArgs) : result (option bytes) error :=
  match fa_article_file args with
  | Some path => map_err ClientError.Io (let? data := fs_read path in Ok (Some data))
  | None => Ok (fa_article_body args)
  end.

Definition fetch_takethis_request (args : FetchArgs) : result Request.Request error :=
  let? message_id := ok_or ClientError.MissingMessageId (fa_message_id args) in
  let? article := article_bytes_from_args args in
  let? article := ok_or ClientError.MissingArticleBody article in
  map_err (fun _ => ClientError.InvalidMessageId) (Request.takethis message_id article).

Definition fetch_request (args : FetchArgs) : result Request.Request error :=
  let? request := ok_or ClientError.MissingArticleSelector (fa_request args) in
  match request with
  | FetchRequestKind.Article =>
      fetch_article_request args Request.article Request.article_selector Request.article_current
  | FetchRequestKind.Body =>
      fetch_article_request args Request.body Request.body_selector Request.body_current
  | FetchRequestKind.Head =>
      fetch_article_request args Request.head Request.head_selector Request.head_current
  | FetchRequestKind.Stat =>
      fetch_article_request args Request.stat Request.stat_selector Request.stat_current
  | FetchRequestKind.ListActive =>
      fetch_optional_request (fa_wildmat args) ClientError.InvalidWildmat Request.list_active_wildmat
        Request.list_active
  | FetchRequestKind.ListActiveTimes =>
      fetch_optional_request (fa_wildmat args) ClientError.InvalidWildmat
        Request.list_active_times_wildmat Request.list_active_times
  | FetchRequestKind.ListNewsgroups =>
      fetch_optional_request (fa_wildmat args) ClientError.InvalidWildmat
        Request.list_newsgroups_wildmat Request.list_newsgroups
  | FetchRequestKind.ListOverviewFmt => Ok Request.list_overview_fmt
  | FetchRequestKind.ListHeaders => Ok Request.list_headers
  | FetchRequestKind.ListDistribPats => Ok Request.list_distrib_pats
  | FetchRequestKind.Group => fetch_group_request args Request.group
  | FetchRequestKind.Listgroup => fetch_listgroup_request args
  | FetchRequestKind.Last => Ok Request.last
  | FetchRequestKind.Next => Ok Request.next
  | FetchRequestKind.Newgroups => fetch_newgroups_request args
  | FetchRequestKind.Newnews => fetch_newnews_request args
  | FetchRequestKind.Post => Ok Request.post
  | FetchRequestKind.Ihave => fetch_message_id_request args Request.ihave
  | FetchRequestKind.Check => fetch_message_id_request args Request.check
  | FetchRequestKind.Takethis => fetch_takethis_request args
  | FetchRequestKind.AuthinfoUser => fetch_authinfo_request args Request.authinfo_user
  | FetchRequestKind.AuthinfoPass => fetch_authinfo_request args Request.authinfo_pass
  | FetchRequestKind.Starttls => Ok Request.starttls
  | FetchRequestKind.Over =>
      fetch_optional_request (fa_selector args) ClientError.InvalidArticleSelector Request.over
        Request.over_current
  | FetchRequestKind.Xover =>
      fetch_optional_request (fa_selector args) ClientError.InvalidArticleSelector Request.xover
        Request.xover_current
  | FetchRequestKind.Hdr =>
      fetch_header_request args (fun header => map_err Request.HeaderError (Request.hdr_current header))
        Request.hdr
  | FetchRequestKind.Xhdr =>
      fetch_header_request args (fun header => map_err Request.HeaderError (Request.xhdr_current header))
        Request.xhdr
  | FetchRequestKind.List => Ok Request.list
  | FetchRequestKind.Help => Ok Request.help
  | FetchRequestKind.Capabilities =>
      fetch_optional_request (fa_capability args) ClientError.InvalidCapabilityKeyword
        Request.capabilities_keyword Request.capabilities
  | FetchRequestKind.Date => Ok Request.date
  | FetchRequestKind.ModeReader => Ok Request.mode_reader
  | FetchRequestKind.ModeStream => Ok Request.mode_stream
  | FetchRequestKind.Quit => Ok Request.quit
  end.

(** ** A request or a transfer *)

Definition fetch_transfer_id (args : FetchArgs) : result bytes error :=
  let? message_id := ok_or ClientError.MissingMessageId (fa_message_id args) in
  map_err (fun _ => ClientError.InvalidMessageId) (message_id_from_str_or_wrap message_id).

Definition prepare_fetch (args : FetchArgs) : result PreparedFetch.PreparedFetch error :=
  let? _ := validate_fetch_args args in
  let? article := article_bytes_from_args args in
  match fa_request args, article with
  | Some FetchRequestKind.Post, Some article => Ok (PreparedFetch.Post article)
  | Some FetchRequestKind.Ihave, Some article =>
      let? message_id := fetch_transfer_id args in Ok (PreparedFetch.Ihave message_id article)
  | Some FetchRequestKind.Takethis, Some article =>
      let? message_id := fetch_transfer_id args in Ok (PreparedFetch.TakeThis message_id article)
  | Some FetchRequestKind.Takethis, None => Err ClientError.MissingArticleBody
  | _, _ => let? request := fetch_request args in Ok (PreparedFetch.Request request)
  end.

(** The call of the connection that [fetch_response] makes. *)
Definition fetch_call (prepared : PreparedFetch.PreparedFetch) : Call :=
  match prepared with
  | PreparedFetch.Post article => CallPost article
  | PreparedFetch.Ihave message_id article => CallIhave message_id article
  | PreparedFetch.TakeThis message_id article => CallRequest (Request.TakeThis message_id article)
  | PreparedFetch.Request request => CallRequest request
  end.
End files.

(** ** What is asked is what is sent *)

(** The kind of request an argument of the command line names. *)
Definition asked_kind (k : FetchRequestKind.FetchRequestKind) : RequestKind :=
  match k with
  | FetchRequestKind.Article => RequestKind.Article
  | FetchRequestKind.Body => RequestKind.Body
  | FetchRequestKind.Head => RequestKind.Head
  | FetchRequestKind.Stat => RequestKind.Stat
  | FetchRequestKind.ListActive => RequestKind.ListActive
  | FetchRequestKind.ListActiveTimes => RequestKind.ListActiveTimes
  | FetchRequestKind.ListNewsgroups => RequestKind.ListNewsgroups
  | FetchRequestKind.ListOverviewFmt => RequestKind.ListOverviewFmt
  | FetchRequestKind.ListHeaders => RequestKind.ListHeaders
  | FetchRequestKind.ListDistribPats => RequestKind.ListDistribPats
  | FetchRequestKind.Group => RequestKind.Group
  | FetchRequestKind.Listgroup => RequestKind.ListGroup
  | FetchRequestKind.Last => RequestKind.Last
  | FetchRequestKind.Next => RequestKind.Next
  | FetchRequestKind.Newgroups => RequestKind.NewGroups
  | FetchRequestKind.Newnews => RequestKind.NewNews
  | FetchRequestKind.Post => RequestKind.Post
  | FetchRequestKind.Ihave => RequestKind.Ihave
  | FetchRequestKind.Check => RequestKind.Check
  | FetchRequestKind.Takethis => RequestKind.TakeThis
  | FetchRequestKind.AuthinfoUser => RequestKind.AuthInfoUser
  | FetchRequestKind.AuthinfoPass => RequestKind.AuthInfoPass
  | FetchRequestKind.Starttls => RequestKind.StartTls
  | FetchRequestKind.Over => RequestKind.Over
  | FetchRequestKind.Xover => RequestKind.Xover
  | FetchRequestKind.Hdr => RequestKind.Hdr
  | FetchRequestKind.Xhdr => RequestKind.Xhdr
  | FetchRequestKind.List => RequestKind.List
  | FetchRequestKind.Help => RequestKind.Help
  | FetchRequestKind.Capabilities => RequestKind.Capabilities
  | FetchRequestKind.Date => RequestKind.Date
  | FetchRequestKind.ModeReader => RequestKind.ModeReader
  | FetchRequestKind.ModeStream => RequestKind.ModeStream
  | FetchRequestKind.Quit => RequestKind.Quit
  end.

(** The article a call carries. *)
Definition carried (call : Call) : option bytes :=
  match call with
  | CallPost article | CallIhave _ article | CallRequest (Request.TakeThis _ article) => Some article
  | _ => None
  end.

(** The arguments are strings. *)
Definition args_str (args : FetchArgs) : Prop :=
  Forall (opt_ok is_str)
    [fa_message_id args; fa_capability args; fa_header args; fa_group args; fa_wildmat args;
     fa_date args; fa_time args; fa_selector args].

(** An argument that a validation refuses. *)
Definition bad_argument {A} (value : option bytes) (f : bytes -> result A invalid) : Prop :=
  exists v e, value = Some v /\ f v = Err e.

Section sent.
Variable fs_read : bytes -> result bytes IoError.

(** Why nothing is sent. *)
Definition refused (args : FetchArgs) (e : error) : Prop :=
  match e with
  | ClientError.MissingArticleSelector => fa_request args = None
  | ClientError.MissingMessageId => fa_message_id args = None
  | ClientError.MissingGroupName => fa_group args = None
  | ClientError.MissingWildmat => fa_wildmat args = None
  | ClientError.MissingDate => fa_date args = None
  | ClientError.MissingTime => fa_time args = None
  | ClientError.MissingAuthInfoValue => fa_auth_value args = None
  | ClientError.MissingHeaderName => fa_header args = None
  | ClientError.MissingArticleBody => fa_article_body args = None /\ fa_article_file args = None
  | ClientError.InvalidMessageId => bad_argument (fa_message_id args) message_id_from_str_or_wrap
  | ClientError.InvalidGroupName => bad_argument (fa_group args) group_name_from
  | ClientError.InvalidWildmat => bad_argument (fa_wildmat args) wildmat_from
  | ClientError.InvalidDate => bad_argument (fa_date args) nntp_date_from
  | ClientError.InvalidTime => bad_argument (fa_time args) nntp_time_from
  | ClientError.InvalidAuthInfoValue => bad_argument (fa_auth_value args) auth_info_value_from
  | ClientError.InvalidHeaderName => bad_argument (fa_header args) header_name_from
  | ClientError.InvalidArticleSelector =>
      bad_argument (fa_selector args) article_selector_from
      \/ bad_argument (fa_selector args) listgroup_range_from
      \/ bad_argument (fa_selector args) ArticleRef.from_selector
  | ClientError.InvalidListGroupRange => bad_argument (fa_selector args) listgroup_range_from
  | ClientError.InvalidCapabilityKeyword =>
      bad_argument (fa_capability args) Request.capabilities_keyword
  | ClientError.Io e => exists path, fa_article_file args = Some path /\ fs_read path = Err e
  | ClientError.ConflictingArguments =>
      (is_Some (fa_session args)
       /\ (is_Some (fa_request args) \/ is_Some (fa_capability args) \/ is_Some (fa_article_body args)
           \/ is_Some (fa_article_file args)))
      \/ (is_Some (fa_article_body args) /\ is_Some (fa_article_file args))
      \/ ((is_Some (fa_article_body args) \/ is_Some (fa_article_file args))
          /\ fa_request args <> Some FetchRequestKind.Post
          /\ fa_request args <> Some FetchRequestKind.Ihave
          /\ fa_request args <> Some FetchRequestKind.Takethis)
      \/ (is_Some (fa_capability args) /\ fa_request args <> Some FetchRequestKind.Capabilities)
  | _ => False
  end.

Definition request_outcome (args : FetchArgs) (r : result Request.Request error) : Prop :=
  match r with
  | Ok r => constructed r
      /\ exists k, fa_request args = Some k /\ Request.kind r = asked_kind k
  | Err e => refused args e
  end.

Create HintDb fetch.
#[local] Hint Constructors constructed : fetch.

Ltac unfold_builders_in H :=
  unfold Request.article, Request.body, Request.head, Request.stat, Request.article_selector,
    Request.body_selector, Request.head_selector, Request.stat_selector, Request.group,
    Request.listgroup, Request.listgroup_group_range, Request.over, Request.xover, Request.hdr,
    Request.hdr_current, Request.xhdr, Request.xhdr_current, Request.header_pair, Request.newgroups,
    Request.newnews, Request.ihave, Request.check, Request.takethis, Request.authinfo_user,
    Request.authinfo_pass, Request.list_active_wildmat, Request.list_active_times_wildmat,
    Request.list_newsgroups_wildmat in H.

(** The validation that failed inside a constructor. *)
Ltac failed :=
  repeat match goal with
  | E : context [map_err _ ?x] |- _ =>
      let F := fresh "F" in destruct x eqn:F; cbn [map_err] in E; try discriminate E
  | E : match ?x with Ok _ => _ | Err _ => _ end = Err _ |- _ =>
      let F := fresh "F" in destruct x eqn:F; try discriminate E
  | E : Err _ = Err _ |- _ => injection E as <-
  end.

(** A request built, or refused by the validation of one argument. *)
Ltac built :=
  match goal with
  | |- request_outcome _ (map_err _ ?x) =>
      let E := fresh "E" in destruct x as [r|i] eqn:E; cbn [map_err request_outcome];
      [split; [try apply map_err_Ok in E; eauto 4 with fetch
              |eexists; split; [eassumption|]; unfold_builders_in E;
               unfold Request.capabilities_keyword in E; open_result; reflexivity]
      |]
  | |- request_outcome _ (Ok _) =>
      split; [apply c_constant; cbn [In]; auto 30|eexists; split; [eassumption|reflexivity]]
  | |- request_outcome _ (Err _) => assumption
  end.

Ltac fields :=
  repeat match goal with
  | |- context [match ?o with Some _ => _ | None => _ end] =>
      let E := fresh "E" in destruct o eqn:E
  | |- context [ok_or _ ?o] => let E := fresh "E" in destruct o eqn:E; cbn [ok_or]
  end.

Lemma fetch_request_outcome args : args_str args -> request_outcome args (fetch_request fs_read args).
Proof.
  intros Hs. unfold args_str in Hs. repeat (apply Forall_cons_1 in Hs as [? Hs]). clear Hs.
  unfold fetch_request. destruct (fa_request args) as [k|] eqn:Ek; [|done]. cbn [ok_or].
  destruct k; unfold fetch_article_request, fetch_optional_request, fetch_group_request, fetch_listgroup_request,
    fetch_newgroups_request, fetch_newnews_request, fetch_message_id_request, fetch_authinfo_request,
    fetch_header_request.
  20: { unfold fetch_takethis_request, article_bytes_from_args.
    destruct (fa_message_id args) as [m|] eqn:Em; [|done]. cbn [ok_or].
    destruct (fa_article_file args) as [path|] eqn:Ef.
    - destruct (fs_read path) as [data|e] eqn:Er; [|by exists path]. cbn [map_err ok_or]. built.
      unfold_builders_in E. failed. by eexists _, _.
    - destruct (fa_article_body args) as [article|] eqn:Eb; [|done]. cbn [ok_or]. built.
      unfold_builders_in E. failed. by eexists _, _. }
  all: fields; try built.
  all: try built.
  all: match goal with E : _ = Err _ |- _ => unfold_builders_in E; failed end;
    cbn [from_header_query from_discovery from_range_or_group from_auth_info_value refused].
  all: first [by eexists _, _ | left; by eexists _, _ | right; left; by eexists _, _
             |right; right; by eexists _, _].
Qed.

Lemma fetch_transfer_id_outcome args :
  match fetch_transfer_id args with
  | Ok m => valid validate_message_id m
  | Err e => refused args e
  end.
Proof.
  unfold fetch_transfer_id. destruct (fa_message_id args) as [m|] eqn:Em; [|done]. cbn [ok_or].
  destruct (message_id_from_str_or_wrap m) as [w|e] eqn:E; cbn [map_err refused].
  - by eapply from_str_or_wrap_valid.
  - by exists m, e.
Qed.

Lemma given_spec {A} (o : option A) : given o = true <-> is_Some o.
Proof. apply bool_decide_eq_true. Qed.

Lemma validate_fetch_args_outcome args :
  match validate_fetch_args args with
  | Ok _ =>
      (is_Some (fa_article_body args) \/ is_Some (fa_article_file args) ->
       fa_request args = Some FetchRequestKind.Post \/ fa_request args = Some FetchRequestKind.Ihave
       \/ fa_request args = Some FetchRequestKind.Takethis)
  | Err e => refused args e
  end.
Proof.
  unfold validate_fetch_args.
  destruct (_ && _) eqn:E1.
  { apply andb_true_iff in E1 as [Hs E1]. rewrite !orb_true_iff, !given_spec in E1. apply given_spec in Hs. left. tauto. }
  destruct (given (fa_article_body args) && _) eqn:E2.
  { apply andb_true_iff in E2 as [Hb%given_spec Hf%given_spec]. right; left. done. }
  clear E1 E2. destruct (_ && negb _) eqn:E3.
  { apply andb_true_iff in E3 as [E3 Hn]. rewrite orb_true_iff, !given_spec in E3. right; right; left.
    split; [done|]. split; [|split]; intros Hr; by rewrite Hr in Hn. }
  assert (is_Some (fa_article_body args) \/ is_Some (fa_article_file args) ->
       fa_request args = Some FetchRequestKind.Post \/ fa_request args = Some FetchRequestKind.Ihave
       \/ fa_request args = Some FetchRequestKind.Takethis) as Ha.
  { rewrite <- !given_spec, <- orb_true_iff. intros Hi. rewrite Hi in E3. cbn [andb] in E3.
    destruct (fa_request args) as [[]|]; try discriminate E3; auto. }
  clear E3. destruct (given (fa_capability args) && _) eqn:E4.
  { apply andb_true_iff in E4 as [Hc%given_spec Hr%negb_true_iff%bool_decide_eq_false]. right; right; right. done. }
  destruct (fa_capability args) as [keyword|] eqn:Ec; [|done].
  destruct (Request.capabilities_keyword keyword) as [r|e] eqn:E; cbn [map_err]; [done|].
  cbn [refused]. rewrite Ec. by exists keyword, e.
Qed.

Lemma article_bytes_outcome args :
  match article_bytes_from_args fs_read args with
  | Ok None => fa_article_body args = None /\ fa_article_file args = None
  | Ok (Some article) => is_Some (fa_article_body args) \/ is_Some (fa_article_file args)
  | Err e => refused args e
  end.
Proof.
  unfold article_bytes_from_args. destruct (fa_article_file args) as [path|] eqn:Ef.
  - destruct (fs_read path) as [data|e] eqn:Er; cbn [map_err]; [by right; exists path|].
    cbn [refused]. rewrite Ef. by exists path.
  - by destruct (fa_article_body args); [left; eexists|].
Qed.

(** C19: what one invocation sends is what its command line asks for: a request
    of the kind named, valid on the wire, with exactly the article given, from
    the file when one is named; and when nothing is sent, the error names an
    argument that is missing, one that its validation refuses, the file that
    could not be read, or arguments that exclude each other. *)
Theorem fetch_sends_what_is_asked (args : FetchArgs) :
  args_str args ->
  match prepare_fetch fs_read args with
  | Ok prepared =>
      let request := s_request (sending_of (fetch_call prepared)) in
      request_ok request
      /\ (exists k, fa_request args = Some k /\ Request.kind request = asked_kind k)
      /\ article_bytes_from_args fs_read args = Ok (carried (fetch_call prepared))
  | Err e => refused args e
  end.
Proof.
  intros Hs. unfold prepare_fetch. pose proof (validate_fetch_args_outcome args) as Hv.
  destruct (validate_fetch_args args) as [u|e]; [|done].
  pose proof (article_bytes_outcome args) as Ha.
  destruct (article_bytes_from_args fs_read args) as [article|e]; [|done].
  pose proof (fetch_request_outcome args Hs) as Hr. pose proof (fetch_transfer_id_outcome args) as Hid.
  destruct article as [article|].
  - destruct (Hv Ha) as [Ek|[Ek|Ek]]; rewrite Ek; try (destruct (fetch_transfer_id args); [|done]);
      (split; [done|]); (split; [by eexists|done]).
  - assert (fa_request args <> Some FetchRequestKind.Takethis ->
            match (let? request := fetch_request fs_read args in Ok (PreparedFetch.Request request)) with
            | Ok prepared =>
                let request := s_request (sending_of (fetch_call prepared)) in
                request_ok request
                /\ (exists k, fa_request args = Some k /\ Request.kind request = asked_kind k)
                /\ @Ok _ error None = Ok (carried (fetch_call prepared))
            | Err e => refused args e
            end) as Hplain.
    { intros Hn. destruct (fetch_request fs_read args) as [r|e]; [|done]. destruct Hr as (Hc & k & Hk & Hrk).
      cbn [fetch_call sending_of s_request]. split; [by apply constructed_valid in Hc as [Hc _]|].
      split; [by exists k|]. destruct r; try done. destruct k; try discriminate Hrk. by rewrite Hk in Hn. }
    destruct (fa_request args) as [[]|]; try (apply Hplain; discriminate). done.
Qed.
End sent.

(** ** An invocation *)

Definition sample_args : FetchArgs :=
  {| fa_connect := {| sa_ip := lit "127.0.0.1"; sa_port := 119 |};
     fa_request := Some FetchRequestKind.Ihave;
     fa_message_id := Some (lit "a@b"); fa_article_body := None;
     fa_article_file := Some (lit "article.txt"); fa_capability := None; fa_session := None;
     fa_auth_value := None; fa_header := None; fa_group := None; fa_wildmat := None; fa_date := None;
     fa_time := None; fa_gmt := false; fa_selector := None; fa_threads := 1;
     fa_read_buffer_bytes := 4096; fa_max_response_bytes := 4096; fa_pipeline_depth := 1;
     fa_ports := []; fa_segments := None; fa_requests := 0; fa_transfer_bytes := 0;
     fa_duration_secs := 0; fa_setup_timeout_secs := 30; fa_drain_timeout_secs := 5;
     fa_offered_rate := None; fa_latency_range_ms := 60000; fa_latency_precision_us := 100;
     fa_connections := 1; fa_client_offset := 0; fa_total_clients := 1;
     fa_command_mix := ClientCommandMix.Article; fa_start_id := 1;
     fa_workload_policy := LoadWorkloadPolicy.Repeat;
     fa_verification_policy := LoadVerificationPolicy.None; fa_csv := false; fa_json := false;
     fa_stats_interval_secs := 0; fa_nodelay := true; fa_socket_recv_buffer := 0; fa_socket_send_buffer := 0 |}.

Definition sample_fs (path : bytes) : result bytes IoError :=
  if bytes_eqb path (lit "article.txt") then Ok (bstr "Subject: x\r\n\r\nbody\r\n")
  else Err {| io_kind := ErrorKind.NotFound; io_message := [] |}.

Lemma fetch_sends_what_is_asked_witness :
  prepare_fetch sample_fs sample_args
  = Ok (PreparedFetch.Ihave (lit "<a@b>") (bstr "Subject: x\r\n\r\nbody\r\n"))
  /\ request_ok (Request.Ihave (lit "<a@b>")).
Proof.
  assert (args_str sample_args) as Hs.
  { repeat apply List.Forall_cons; try exact I; try apply List.Forall_nil.
    cbn [sample_args fa_message_id opt_ok]. by exists (lit "a@b"). }
  assert (prepare_fetch sample_fs sample_args
          = Ok (PreparedFetch.Ihave (lit "<a@b>") (bstr "Subject: x\r\n\r\nbody\r\n"))) as E
    by (vm_compute; reflexivity).
  split; [exact E|]. pose proof (fetch_sends_what_is_asked sample_fs sample_args Hs) as H.
  rewrite E in H. exact (proj1 H).
Defined.
