(* ===== verification/SessionScript.v ===== *)
(** * Session scripts ([src/src/lib.rs])

    The commands of a scripted session of the fetch command: a file of one
    command a line ([parse_session_script]), with comments and blank lines, and
    the calls of the connection they become ([scripted_session_response]). *)
From S2P Require Import Prelude Utf8 Words Decimal Memchr Args Terminator Kinds Requests RequestLine RequestWire.
From S2P Require Import OwnedResponse ClientWire ClientEngine ServerStore FetchCommand.

Local Open Scope Z_scope.
Local Open Scope rust_scope.

Local Abbreviation error := (client_error IoError).

Module SessionCommand.
Inductive SessionCommand : Type :=
| Execute (request : Request.Request)
| PostArticle (article : bytes)
| IhaveArticle (message_id article : bytes).
End SessionCommand.

(** An error becomes [()]. *)
Definition unit_error {A E} (r : result A E) : result A unit := map_err (fun _ => tt) r.

Definition execute {E} (request : result Request.Request E) : result SessionCommand.SessionCommand unit :=
  let? request := unit_error request in Ok (SessionCommand.Execute request).

Definition is_message_id_word (arg : bytes) : bool :=
  starts_with arg (lit "<") || existsb (Z.eqb 64) arg.

Definition session_article_command (verb : bytes) (rest : list bytes) : result Request.Request unit :=
  match rest with
  | [] =>
      if bytes_eqb verb (lit "ARTICLE") then Ok Request.article_current
      else if bytes_eqb verb (lit "BODY") then Ok Request.body_current
      else if bytes_eqb verb (lit "HEAD") then Ok Request.head_current
      else if bytes_eqb verb (lit "STAT") then Ok Request.stat_current
      else Err tt
  | [arg] =>
      if is_message_id_word arg then
        if bytes_eqb verb (lit "ARTICLE") then unit_error (Request.article arg)
        else if bytes_eqb verb (lit "BODY") then unit_error (Request.body arg)
        else if bytes_eqb verb (lit "HEAD") then unit_error (Request.head arg)
        else if bytes_eqb verb (lit "STAT") then unit_error (Request.stat arg)
        else Err tt
      else if bytes_eqb verb (lit "ARTICLE") then unit_error (Request.article_selector arg)
      else if bytes_eqb verb (lit "BODY") then unit_error (Request.body_selector arg)
      else if bytes_eqb verb (lit "HEAD") then unit_error (Request.head_selector arg)
      else if bytes_eqb verb (lit "STAT") then unit_error (Request.stat_selector arg)
      else Err tt
  | _ => Err tt
  end.

Definition session_list_command (rest : list bytes) : result Request.Request unit :=
  match rest with
  | [] => Ok Request.list
  | [keyword] =>
      if eq_ignore_ascii_case keyword (lit "ACTIVE") then Ok Request.list_active
      else if eq_ignore_ascii_case keyword (lit "ACTIVE.TIMES") then Ok Request.list_active_times
      else if eq_ignore_ascii_case keyword (lit "NEWSGROUPS") then Ok Request.list_newsgroups
      else if eq_ignore_ascii_case keyword (lit "OVERVIEW.FMT") then Ok Request.list_overview_fmt
      else if eq_ignore_ascii_case keyword (lit "HEADERS") then Ok Request.list_headers
      else if eq_ignore_ascii_case keyword (lit "DISTRIB.PATS") then Ok Request.list_distrib_pats
      else Err tt
  | [keyword; wildmat] =>
      if eq_ignore_ascii_case keyword (lit "ACTIVE") then unit_error (Request.list_active_wildmat wildmat)
      else if eq_ignore_ascii_case keyword (lit "ACTIVE.TIMES")
      then unit_error (Request.list_active_times_wildmat wildmat)
      else if eq_ignore_ascii_case keyword (lit "NEWSGROUPS")
      then unit_error (Request.list_newsgroups_wildmat wildmat)
      else Err tt
  | _ => Err tt
  end.

Definition session_listgroup_command (rest : list bytes) : result Request.Request unit :=
  match rest with
  | [] => Ok Request.listgroup_current
  | [group] => unit_error (Request.listgroup group)
  | [group; range] => unit_error (Request.listgroup_group_range group range)
  | _ => Err tt
  end.

Definition session_newgroups_command (rest : list bytes) : result Request.Request unit :=
  match rest with
  | [date; time] => unit_error (Request.newgroups date time false)
  | [date; time; gmt] =>
      if eq_ignore_ascii_case gmt (lit "GMT") then unit_error (Request.newgroups date time true) else Err tt
  | _ => Err tt
  end.

Definition session_newnews_command (rest : list bytes) : result Request.Request unit :=
  match rest with
  | [wildmat; date; time] => unit_error (Request.newnews wildmat date time false)
  | [wildmat; date; time; gmt] =>
      if eq_ignore_ascii_case gmt (lit "GMT") then unit_error (Request.newnews wildmat date time true)
      else Err tt
  | _ => Err tt
  end.

Definition parse_session_authinfo_line (line : bytes) : result SessionCommand.SessionCommand unit :=
  let? parts := ok_or tt (split_once_whitespace line) in
  let rest := trim_start (snd parts) in
  if (length rest =? 0)%nat then Err tt
  else
    let? parts := ok_or tt (split_once_whitespace rest) in
    let kind := fst parts in
    let value := trim_start (snd parts) in
    if (length value =? 0)%nat then Err tt
    else
      let kind := to_ascii_uppercase <$> kind in
      if bytes_eqb kind (lit "USER") then execute (Request.authinfo_user value)
      else if bytes_eqb kind (lit "PASS") then execute (Request.authinfo_pass value)
      else Err tt.

(** A command of one argument, and of at most one. *)
Definition one_argument {A} (rest : list bytes) (build : bytes -> result A unit) : result A unit :=
  match rest with [arg] => build arg | _ => Err tt end.
Definition optional_argument (rest : list bytes) (plain : Request.Request)
    (build : bytes -> result Request.Request invalid) : result SessionCommand.SessionCommand unit :=
  match rest with
  | [] => Ok (SessionCommand.Execute plain)
  | [arg] => execute (build arg)
  | _ => Err tt
  end.
Definition no_argument (rest : list bytes) (request : Request.Request)
    : result SessionCommand.SessionCommand unit :=
  match rest with [] => Ok (SessionCommand.Execute request) | _ => Err tt end.
Definition header_arguments (rest : list bytes) (current : bytes -> result Request.Request invalid)
    (build : bytes -> bytes -> result Request.Request Request.InvalidHeaderQuery)
    : result SessionCommand.SessionCommand unit :=
  match rest with
  | [header] => execute (current header)
  | [header; selector] => execute (build header selector)
  | _ => Err tt
  end.

Section files.
(** [fs::read] of a file named in the script. *)
Variable fs_read : bytes -> result bytes IoError.

Definition parse_session_line (line : bytes) : result SessionCommand.SessionCommand unit :=
  let parts := split_whitespace line in
  let? verb := ok_or tt (head parts) in
  let verb := to_ascii_uppercase <$> verb in
  let rest := tail parts in
  if bytes_eqb verb (lit "STARTTLS") then Err tt
  else if bytes_eqb verb (lit "MODE") then
    one_argument rest (fun mode =>
      if eq_ignore_ascii_case mode (lit "READER") then Ok (SessionCommand.Execute Request.mode_reader)
      else Err tt)
  else if bytes_eqb verb (lit "AUTHINFO") then parse_session_authinfo_line line
  else if bytes_eqb verb (lit "POST-ARTICLE") then
    one_argument rest (fun path =>
      let? article := unit_error (fs_read path) in Ok (SessionCommand.PostArticle article))
  else if bytes_eqb verb (lit "IHAVE-ARTICLE") then
    match rest with
    | [message_id; path] =>
        let? message_id := unit_error (message_id_from_str_or_wrap message_id) in
        let? article := unit_error (fs_read path) in
        Ok (SessionCommand.IhaveArticle message_id article)
    | _ => Err tt
    end
  else if bytes_eqb verb (lit "TAKETHIS") then
    match rest with
    | [message_id; path] =>
        let? article := unit_error (fs_read path) in
        execute (Request.takethis message_id article)
    | _ => Err tt
    end
  else if bytes_eqb verb (lit "CHECK") then one_argument rest (fun message_id => execute (Request.check message_id))
  else if bytes_eqb verb (lit "GROUP") then one_argument rest (fun group => execute (Request.group group))
  else if bytes_eqb verb (lit "ARTICLE") || bytes_eqb verb (lit "BODY") || bytes_eqb verb (lit "HEAD") || bytes_eqb verb (lit "STAT")
  then execute (session_article_command verb rest)
  else if bytes_eqb verb (lit "LAST") then no_argument rest Request.last
  else if bytes_eqb verb (lit "NEXT") then no_argument rest Request.next
  else if bytes_eqb verb (lit "DATE") then no_argument rest Request.date
  else if bytes_eqb verb (lit "HELP") then no_argument rest Request.help
  else if bytes_eqb verb (lit "QUIT") then no_argument rest Request.quit
  else if bytes_eqb verb (lit "LIST") then execute (session_list_command rest)
  else if bytes_eqb verb (lit "LISTGROUP") then execute (session_listgroup_command rest)
  else if bytes_eqb verb (lit "OVER") then optional_argument rest Request.over_current Request.over
  else if bytes_eqb verb (lit "XOVER") then optional_argument rest Request.xover_current Request.xover
  else if bytes_eqb verb (lit "HDR") then header_arguments rest Request.hdr_current Request.hdr
  else if bytes_eqb verb (lit "XHDR") then header_arguments rest Request.xhdr_current Request.xhdr
  else if bytes_eqb verb (lit "CAPABILITIES") then optional_argument rest Request.capabilities Request.capabilities_keyword
  else if bytes_eqb verb (lit "NEWGROUPS") then execute (session_newgroups_command rest)
  else if bytes_eqb verb (lit "NEWNEWS") then execute (session_newnews_command rest)
  else Err tt.

(** The lines of the script from the index given on. *)
Fixpoint session_lines (index : nat) (lines : list bytes)
    : result (list SessionCommand.SessionCommand) error :=
  match lines with
  | [] => Ok []
  | raw :: lines =>
      let line := trim raw in
      if (length line =? 0)%nat || starts_with line (lit "#") then session_lines (S index) lines
      else
        let? command := map_err (fun _ => ClientError.InvalidSession (index + 1)) (parse_session_line line) in
        let? commands := session_lines (S index) lines in
        Ok (command :: commands)
  end.

Definition parse_session_script (text : bytes) : result (list SessionCommand.SessionCommand) error :=
  let? commands := session_lines 0 (str_lines text) in
  match commands with
  | [] => Err (ClientError.InvalidSession 0)
  | _ => Ok commands
  end.

(** [fs::read_to_string]. *)
Definition read_to_string (path : bytes) : result bytes IoError :=
  let? data := fs_read path in
  match from_utf8 data with
  | Some _ => Ok data
  | None => Err (invalid_data (lit "stream did not contain valid UTF-8"))
  end.

(** The call of the connection a command becomes. *)
Definition session_call (command : SessionCommand.SessionCommand) : Call :=
  match command with
  | SessionCommand.Execute request => CallRequest request
  | SessionCommand.PostArticle article => CallPost article
  | SessionCommand.IhaveArticle message_id article => CallIhave message_id article
  end.

(** What is asked of the connection: the calls in order, when the arguments and
    the script are accepted. *)
Definition session_calls (args : FetchArgs) : result (list Call) error :=
  let? _ := validate_fetch_args args in
  let? path := ok_or (ClientError.InvalidSession 0) (fa_session args) in
  let? text := map_err ClientError.Io (read_to_string path) in
  let? commands := parse_session_script text in
  Ok (session_call <$> commands).

(** A connection answers a call with a response, and goes on; the output is the
    bytes of the responses, up to the first error. *)
Section connection.
Context {Connection : Type} (answer : Call -> Connection -> result OwnedResponse error * Connection).

Fixpoint run_calls (calls : list Call) (connection : Connection) (output : bytes)
    : result bytes error * Connection :=
  match calls with
  | [] => (Ok output, connection)
  | call :: calls =>
      let '(response, connection) := answer call connection in
      match response with
      | Ok response => run_calls calls connection (output ++ response_as_bytes response)
      | Err e => (Err e, connection)
      end
  end.

Definition scripted_session_response (args : FetchArgs) (connect : result Connection error)
    : result bytes error :=
  let? calls := session_calls args in
  let? connection := connect in
  fst (run_calls calls connection []).
End connection.
End files.
