(* ===== verification/SessionRoundtrip.v ===== *)
(** * What session scripts say

    The round trip of the lines of a script with the wire lines of the requests,
    the number of the line an error names, and what a script can and cannot ask
    of the connection. *)
From S2P Require Import Prelude Utf8 Words Decimal Memchr Args Terminator Kinds Requests RequestLine RequestWire.
From S2P Require Import OwnedResponse ClientWire ClientEngine ServerStore Float64 LoadWorkload FetchCommand SessionScript.

Local Open Scope Z_scope.
Local Open Scope rust_scope.

Local Abbreviation error := (client_error IoError).

(** ** The lines of a script *)

(** A request as the script writes it: the words of its wire line. *)
Definition ref_words (r : ArticleRef.ArticleRef) : list bytes :=
  match r with
  | ArticleRef.Current => []
  | ArticleRef.Number n => [print_decimal n]
  | ArticleRef.MessageId m => [m]
  end.

Definition script_words (r : Request.Request) : list bytes :=
  match r with
  | Request.Article a | Request.Body a | Request.Head a | Request.Stat a => ref_words a
  | Request.ListVariant k w => ListKind.as_wire k :: option_list w
  | Request.Group g => [g]
  | Request.ListGroup None _ => []
  | Request.ListGroup (Some g) range => g :: option_list range
  | Request.Over s | Request.Xover s | Request.Capabilities s => option_list s
  | Request.Hdr h s | Request.Xhdr h s => h :: option_list s
  | Request.NewGroups d t gmt => d :: t :: option_list (gmt_arg gmt)
  | Request.NewNews w d t gmt => w :: d :: t :: option_list (gmt_arg gmt)
  | Request.Ihave m | Request.Check m | Request.TakeThis m _ => [m]
  | Request.AuthInfo k v => [AuthInfoKind.as_wire k; v]
  | Request.ModeReader => [lit "READER"] | Request.ModeStream => [lit "STREAM"]
  | Request.Last | Request.Next | Request.Post | Request.StartTls | Request.List
  | Request.Help | Request.Date | Request.Quit => []
  end.

Fixpoint spaced (ws : list bytes) : bytes :=
  match ws with
  | [] => []
  | w :: ws => SP :: w ++ spaced ws
  end.

Lemma spaced_option o : spaced (option_list o) = more o.
Proof. destruct o as [v|]; [|done]. cbn. by rewrite app_nil_r. Qed.

Lemma request_line_spaced r :
  request_ok r -> request_line r = (wire_verb r ++ spaced (script_words r)) ++ CRLF.
Proof.
  intros Hok. unfold request_line, wire_line. rewrite <- app_assoc. f_equal.
  assert (forall a, a <> [] -> (match a with [] => [] | _ => SP :: a end ++ CRLF : bytes) = (SP :: a) ++ CRLF) as E
    by (intros [|b a]; done).
  assert (spaced (script_words r) = match wire_args r with [] => [] | _ => SP :: wire_args r end) as ->; [|done].
  assert (forall w a, plain_arg w -> match w ++ a with [] => [] | _ => SP :: w ++ a end = SP :: w ++ a) as F
    by (intros [|b w] a [Hne _]; done).
  assert (forall w, plain_arg w -> match w with [] => [] | _ => SP :: w end = SP :: w) as G
    by (intros [|b w] [Hne _]; done).
  destruct r as
    [a|a|a|a|k w|g|[g|] rg| | |s|s|h s|h s|d t gmt|w d t gmt| |m|m|m payload|k v| | | |k| | | |];
    cbn [request_ok script_words wire_args spaced] in *; split_ands; try reflexivity;
    rewrite ?spaced_option, ?app_nil_r.
  all: try (rewrite F by auto with wire; reflexivity).
  all: try (rewrite G by auto with wire; reflexivity).
  1-4: destruct a as [|n|m]; cbn [ref_words article_ref_args spaced article_ref_ok] in *;
       [done|rewrite app_nil_r, G by auto with wire; done..].
  1-3: match goal with |- more ?s = _ => destruct s as [v|]; cbn [opt_ok default from_option id more] in *; [|done];
       split_ands; by rewrite G by auto with wire end.
Qed.

(** What a script can say: no transfer, which has lines of its own, and neither
    [STARTTLS] nor [MODE STREAM]; the arguments printable. *)
Definition scriptable (r : Request.Request) : Prop :=
  request_ok r /\ round_trips r /\ Forall (fun b => 32 <= b <= 126) (wire_args r)
  /\ match r with
     | Request.Post | Request.Ihave _ | Request.TakeThis _ _ | Request.StartTls | Request.ModeStream
     | Request.ListGroup None (Some _) => False
     | _ => True
     end.

Definition script_line (r : Request.Request) : bytes := wire_verb r ++ spaced (script_words r).

Lemma split_whitespace_spaced w ws :
  word w -> Forall word ws -> split_whitespace (w ++ spaced ws) = w :: ws.
Proof.
  intros Hw Hws. revert w Hw. induction Hws as [|w' ws Hw' _ IH]; intros w Hw; cbn [spaced].
  - by rewrite app_nil_r, split_whitespace_one.
  - by rewrite split_whitespace_cons, IH.
Qed.

Lemma word_plain w : plain_arg w -> Forall (fun b => 32 <= b <= 126) w -> word w.
Proof.
  intros [Hne Hp] Hw. split; [done|]. rewrite List.Forall_forall in *. intros b Hb.
  specialize (Hp b Hb). specialize (Hw b Hb). lia.
Qed.

Lemma verb_word r : word (wire_verb r).
Proof.
  destruct r; (split; [discriminate|apply List.Forall_forall; intros b Hb]);
    repeat (destruct Hb as [<-|Hb]; [vm_compute; split; discriminate|]); destruct Hb.
Qed.

Lemma list_kind_word k : word (ListKind.as_wire k).
Proof.
  destruct k; (split; [discriminate|apply List.Forall_forall; intros b Hb]);
    repeat (destruct Hb as [<-|Hb]; [vm_compute; split; discriminate|]); destruct Hb.
Qed.

Lemma script_args_words r :
  scriptable r -> Request.auth_info r = None -> Forall word (script_words r).
Proof.
  intros (Hok & _ & Hw & _) Ha.
  assert (word (lit "READER") /\ word (lit "STREAM") /\ word (lit "GMT")) as (? & ? & ?).
  { split; [|split]; (split; [discriminate|]); repeat apply List.Forall_cons; try apply List.Forall_nil;
      vm_compute; split; discriminate. }
  destruct r as
    [a|a|a|a|k w|g|[g|] rg| | |s|s|h s|h s|d t gmt|w d t gmt| |m|m|m payload|k v| | | |k| | | |];
    try discriminate Ha;
    repeat match goal with x : ArticleRef.ArticleRef |- _ => destruct x | x : option _ |- _ => destruct x
           | x : bool |- _ => destruct x end;
    cbn [request_ok opt_ok article_ref_ok script_words wire_args ref_words article_ref_args
      option_list more gmt_arg default from_option id] in *; split_ands;
    repeat match goal with H : Forall _ (_ ++ _) |- _ => apply Forall_app in H as [? ?]
           | H : Forall _ (_ :: _) |- _ => apply Forall_cons_1 in H as [? ?] end;
    repeat (apply List.Forall_cons || apply List.Forall_nil); auto using list_kind_word;
    apply word_plain; eauto with wire.
Qed.

(** ** One line *)

Lemma range_valid_from v : valid validate_listgroup_range v -> listgroup_range_from v = Ok v.
Proof. intros [_ H]. by apply validated_Ok. Qed.

Lemma valid_from f v : valid f v -> validated f v = Ok v.
Proof. intros [_ H]. by apply validated_Ok. Qed.

Lemma message_id_word m : valid validate_message_id m ->
  is_message_id_word m = true /\ message_id_from_str_or_wrap m = Ok m.
Proof.
  intros [_ Hm]. apply validate_message_id_shape in Hm as Hs. destruct Hs as (inner & E & _).
  assert (ends_with m (lit ">") = true) as He by (rewrite E, app_assoc; apply ends_with_app).
  assert (starts_with m (lit "<") = true) as Hb by (rewrite E; reflexivity).
  unfold is_message_id_word, message_id_from_str_or_wrap. rewrite Hb. split; [done|].
  destruct m as [|b m]; [done|]. rewrite He. cbn [andb]. by rewrite Hm.
Qed.

Lemma number_word n : 1 <= n <= MAX_ARTICLE_NUMBER ->
  is_message_id_word (print_decimal n) = false
  /\ ArticleRef.from_selector (print_decimal n) = Ok (ArticleRef.Number n).
Proof.
  intros Hn. pose proof (article_number_token_print n Hn) as Ht.
  pose proof (token_digits _ _ Ht) as Hd. pose proof (token_plain _ _ Ht) as [Hne Hp].
  unfold is_message_id_word, ArticleRef.from_selector. split.
  - rewrite orb_false_iff. split.
    + destruct (print_decimal n) as [|b l] eqn:E; [done|]. cbn [forallb] in Hd.
      apply andb_true_iff in Hd as [Hd%is_ascii_digit_spec _]. change (lit "<") with [60].
      apply andb_false_iff. left. apply Z.eqb_neq. lia.
    + apply not_true_iff_false. intros (b & Hb & E)%existsb_exists. rewrite forallb_forall in Hd.
      specialize (Hd b Hb). apply is_ascii_digit_spec in Hd. lia.
  - rewrite (above_no_ws _ (conj Hne Hp)), Hd, Ht. cbn [orb map_err].
    unfold ArticleRef.from_number. rewrite (proj2 (Z.eqb_neq n 0)) by lia.
    by rewrite (proj2 (Z.ltb_ge _ _)) by lia.
Qed.

Ltac verbs :=
  repeat match goal with
  | |- context [to_ascii_uppercase <$> lit ?a] =>
      replace (to_ascii_uppercase <$> lit a) with (lit a) by (vm_compute; reflexivity)
  | |- context [bytes_eqb (lit ?a) (lit ?b)] =>
      let v := eval vm_compute in (bytes_eqb (lit a) (lit b)) in
      replace (bytes_eqb (lit a) (lit b)) with v by (vm_compute; reflexivity); cbn [orb]; cbv iota
  end.

Section lines.
Variable fs_read : bytes -> result bytes IoError.

Lemma parse_session_authinfo k v :
  args_ok v -> validate_auth_info_value_bytes v = true -> Forall (fun b => 32 <= b <= 126) v ->
  parse_session_authinfo_line (script_line (Request.AuthInfo k v))
  = Ok (SessionCommand.Execute (Request.AuthInfo k v)).
Proof.
  intros Ha Hv Hw. unfold script_line, parse_session_authinfo_line.
  cbn [wire_verb script_words spaced]. rewrite app_nil_r.
  destruct (verb_word (Request.AuthInfo k v)) as [_ Hverb]. cbn [wire_verb] in Hverb.
  rewrite split_once_cons by done. cbn [ok_or snd].
  assert (Forall (fun b => 33 <= b <= 126) (AuthInfoKind.as_wire k)) as Hk.
  { destruct k; repeat apply List.Forall_cons; try apply List.Forall_nil; vm_compute; split; discriminate. }
  pose proof (auth_value_ne v Hv) as Hne. destruct Ha as [|(_ & (x & r & -> & Hx) & _)]; [done|].
  apply Forall_cons_1 in Hw as [Hx' _].
  assert (33 <= x <= 126) as Hxv.
  { unfold is_command_ws in Hx. apply orb_false_iff in Hx as [?%Z.eqb_neq _]. unfold SP in *. lia. }
  assert (trim_start (AuthInfoKind.as_wire k ++ SP :: x :: r) = AuthInfoKind.as_wire k ++ SP :: x :: r) as ->.
  { destruct k; by apply trim_start_word. }
  rewrite (proj2 (length_eqb_ne _)) by (by destruct k).
  rewrite split_once_cons by done. cbn [ok_or fst snd]. rewrite trim_start_word by done. cbn [length Nat.eqb].
  assert (auth_info_value_from (x :: r) = Ok (x :: r)) as E
    by (unfold auth_info_value_from; by rewrite Hv).
  unfold execute, Request.authinfo_user, Request.authinfo_pass. rewrite E.
  destruct k; cbn [AuthInfoKind.as_wire]; verbs; reflexivity.
Qed.

Lemma words_of_script_line r :
  scriptable r -> Request.auth_info r = None ->
  split_whitespace (script_line r) = wire_verb r :: script_words r.
Proof. intros Hs Ha. apply split_whitespace_spaced; [apply verb_word | by apply script_args_words]. Qed.

Lemma parse_ref_line verb a (build : ArticleRef.ArticleRef -> Request.Request) :
  article_ref_ok a ->
  (verb, build) ∈ [(lit "ARTICLE", Request.Article); (lit "BODY", Request.Body);
                   (lit "HEAD", Request.Head); (lit "STAT", Request.Stat)] ->
  session_article_command verb (ref_words a) = Ok (build a).
Proof.
  intros Ha Hin. unfold session_article_command.
  destruct a as [|n|m]; cbn [ref_words article_ref_ok] in *.
  2: destruct (number_word n Ha) as [-> Hr]; unfold Request.article_selector, Request.body_selector,
       Request.head_selector, Request.stat_selector; rewrite Hr.
  3: destruct (message_id_word m Ha) as [-> Hr]; unfold Request.article, Request.body, Request.head,
       Request.stat; rewrite Hr.
  all: repeat (apply elem_of_cons in Hin as [[= -> ->]|Hin]; [verbs; reflexivity|]);
    by apply elem_of_nil in Hin.
Qed.

Lemma parse_list_line k w :
  opt_ok (valid validate_wildmat) w -> round_trips (Request.ListVariant k w) ->
  session_list_command (ListKind.as_wire k :: option_list w) = Ok (Request.ListVariant k w).
Proof.
  intros Hw Hr. destruct w as [w|]; cbn [option_list opt_ok] in *; [|by destruct k].
  assert (wildmat_from w = Ok w) as E by (by apply valid_from).
  unfold session_list_command, Request.list_active_wildmat, Request.list_active_times_wildmat,
    Request.list_newsgroups_wildmat. cbv beta iota delta [option_list option_rect]. rewrite E. by destruct k.
Qed.

(** The line of a request is parsed as the request. *)
Lemma parse_script_line r :
  scriptable r -> parse_session_line fs_read (script_line r) = Ok (SessionCommand.Execute r).
Proof.
  intros Hs. destruct (Request.auth_info r) as [kv|] eqn:Ea.
  { destruct r; try discriminate Ea. destruct Hs as (Hok & Hr & Hw & _).
    cbn [request_ok round_trips wire_args] in *. apply Forall_app in Hw as [_ [_ Hw]%Forall_cons_1].
    unfold parse_session_line. unfold script_line at 1. cbn [wire_verb script_words spaced].
    rewrite split_whitespace_cons by apply (verb_word (Request.AuthInfo kind value)).
    cbn [head ok_or]. verbs. by apply parse_session_authinfo. }
  unfold parse_session_line. rewrite words_of_script_line by done. cbn [hd_error head tail ok_or].
  destruct Hs as (Hok & Hr & _ & Hx).
  destruct r as
    [a|a|a|a|k w|g|[g|] [rg|]| | |[s|]|[s|]|h [s|]|h [s|]|d t gmt|w d t gmt| |m|m|m payload|k v| | | |[k|]| | | |];
    try done; try discriminate Ea; cbn [wire_verb script_words request_ok opt_ok] in *; verbs;
    cbv beta iota delta [option_list option_rect];
    unfold no_argument, optional_argument, one_argument, header_arguments, session_listgroup_command,
      session_newgroups_command, session_newnews_command, Request.group, Request.listgroup,
      Request.listgroup_group_range, Request.over, Request.xover, Request.hdr, Request.xhdr,
      Request.header_pair, Request.hdr_current, Request.xhdr_current, Request.newgroups,
      Request.newnews, Request.check, Request.capabilities_keyword,
      group_name_from, listgroup_range_from, article_selector_from, header_name_from,
      nntp_date_from, nntp_time_from, wildmat_from; split_ands;
    repeat match goal with
    | |- context [validated ?f ?v] => rewrite (valid_from f v) by done
    end; try reflexivity.
  all: try match goal with
       | |- execute (session_article_command _ (ref_words ?a)) = Ok (SessionCommand.Execute (?build ?a)) =>
           erewrite (parse_ref_line _ a build); [reflexivity|done|]; rewrite !elem_of_cons; auto 10
       end.
  - pose proof (parse_list_line k w Hok Hr) as E. cbv beta iota delta [option_list option_rect] in E. by rewrite E.
  - by destruct gmt.
  - by destruct gmt.
  - by rewrite (proj2 (message_id_word m Hok)).
  - by match goal with H : validate_keyword k = _ |- _ => rewrite H end.
Qed.
End lines.

(** ** A whole script *)

(** A line that asks for nothing: blank, or a comment. *)
Definition comment_ok (text : bytes) : Prop :=
  ~ In LF text /\ (trim text = [] \/ starts_with (trim text) (lit "#") = true).

(** The lines with the name of a file that holds an article. *)
Inductive Transfer : Type :=
| PostFile
| IhaveFile (message_id : bytes)
| TakeThisFile (message_id : bytes).

Inductive ScriptLine : Type :=
| Comment (text : bytes)
| Ask (request : Request.Request)
| Send (transfer : Transfer) (path article : bytes).

Definition transfer_verb (t : Transfer) : bytes :=
  match t with
  | PostFile => lit "POST-ARTICLE" | IhaveFile _ => lit "IHAVE-ARTICLE" | TakeThisFile _ => lit "TAKETHIS"
  end.

Definition transfer_ids (t : Transfer) : list bytes :=
  match t with PostFile => [] | IhaveFile m | TakeThisFile m => [m] end.

Definition transfer_command (t : Transfer) (article : bytes) : SessionCommand.SessionCommand :=
  match t with
  | PostFile => SessionCommand.PostArticle article
  | IhaveFile m => SessionCommand.IhaveArticle m article
  | TakeThisFile m => SessionCommand.Execute (Request.TakeThis m article)
  end.

Definition transfer_line (t : Transfer) (path : bytes) : bytes :=
  transfer_verb t ++ spaced (transfer_ids t ++ [path]).

Definition line_text (l : ScriptLine) : bytes :=
  match l with Comment text => text | Ask r => script_line r | Send t path _ => transfer_line t path end.

(** The script: the requests as on the wire, the transfers with their files, the
    comments between them. *)
Definition script_text (ls : list ScriptLine) : bytes :=
  concat ((fun l => match l with
                    | Comment text => text ++ CRLF
                    | Ask r => request_line r
                    | Send t path _ => transfer_line t path ++ CRLF
                    end) <$> ls).

(** The commands of the lines that ask for something. *)
Definition asked (ls : list ScriptLine) : list SessionCommand.SessionCommand :=
  omap (fun l => match l with
                 | Comment _ => None
                 | Ask r => Some (SessionCommand.Execute r)
                 | Send t _ article => Some (transfer_command t article)
                 end) ls.

Lemma str_lines_crlf line rest : ~ In LF line -> str_lines (line ++ CRLF ++ rest) = line :: str_lines rest.
Proof.
  intros Hn. change (CRLF ++ rest) with ([CR] ++ LF :: rest). rewrite app_assoc, str_lines_line.
  - by rewrite (proj2 (strip_suffix_Some (line ++ [CR]) [CR] line)).
  - intros [Hin|[Hin|[]]]%in_app_iff; [done | discriminate].
Qed.

Lemma printed_no_lf l : Forall (fun b => 32 <= b <= 126) l -> ~ In LF l.
Proof. rewrite List.Forall_forall. intros Hl Hin. specialize (Hl LF Hin). unfold LF in Hl. lia. Qed.

Lemma word_printed w : word w -> Forall (fun b => 32 <= b <= 126) w.
Proof. intros [_ Hw]. eapply List.Forall_impl; [|exact Hw]. cbn. lia. Qed.

Lemma spaced_printed ws :
  Forall (fun w => Forall (fun b => 32 <= b <= 126) w) ws -> Forall (fun b => 32 <= b <= 126) (spaced ws).
Proof.
  induction 1 as [|w ws Hw _ IH]; cbn [spaced]; [constructor|].
  apply List.Forall_cons; [unfold SP; lia|]. by apply Forall_app.
Qed.

Lemma word_last w : word w -> exists l b, w = l ++ [b] /\ 33 <= b <= 126.
Proof.
  intros [Hne Hw]. destruct (exists_last Hne) as (l & b & ->). exists l, b. split; [done|].
  apply Forall_app in Hw as [_ Hw]. by apply Forall_cons_1 in Hw as [? _].
Qed.

Lemma spaced_last w ws : word w -> Forall word ws -> exists l b, w ++ spaced ws = l ++ [b] /\ 33 <= b <= 126.
Proof.
  intros Hw Hws. revert w Hw. induction Hws as [|w' ws Hw' _ IH]; intros w Hw; cbn [spaced].
  - rewrite app_nil_r. by apply word_last.
  - destruct (IH w' Hw') as (l & b & -> & Hb). exists (w ++ SP :: l), b. split; [|done].
    by rewrite <- app_assoc.
Qed.

(** The line of a request: printable, visible at both ends. *)
Lemma script_line_shape r : scriptable r ->
  Forall (fun b => 32 <= b <= 126) (script_line r)
  /\ exists l b, script_line r = l ++ [b] /\ 33 <= b <= 126.
Proof.
  intros Hs. unfold script_line. destruct (Request.auth_info r) as [kv|] eqn:Ea.
  - destruct r; try discriminate Ea. destruct Hs as (Hok & Hr & Hw & _).
    cbn [request_ok round_trips wire_args script_words spaced] in *.
    apply Forall_app in Hw as [Hk [_ Hw]%Forall_cons_1]. split.
    + apply Forall_app. split; [apply word_printed, (verb_word (Request.AuthInfo kind value))|].
      apply (spaced_printed [AuthInfoKind.as_wire kind; value]).
      repeat apply List.Forall_cons; [done..|apply List.Forall_nil].
    + destruct Hr as [->|(_ & _ & l & y & -> & Hy)]; [by apply auth_value_ne in Hok|].
      exists (wire_verb (Request.AuthInfo kind (l ++ [y])) ++ SP :: AuthInfoKind.as_wire kind ++ SP :: l), y.
      split; [rewrite app_nil_r, <- !app_assoc; cbn [app]; by rewrite <- app_assoc|].
      apply Forall_app in Hw as [_ Hw]. apply Forall_cons_1 in Hw as [Hw _].
      unfold is_command_ws in Hy. apply orb_false_iff in Hy as [Hy%Z.eqb_neq _]. unfold SP in *. lia.
  - pose proof (script_args_words r Hs Ea) as Hws. split; [|by apply spaced_last; [apply verb_word|]].
    apply Forall_app. split; [apply word_printed, verb_word|]. apply spaced_printed.
    eapply List.Forall_impl; [|exact Hws]. apply word_printed.
Qed.

Lemma trim_script_line r : scriptable r -> trim (script_line r) = script_line r.
Proof.
  intros Hs. destruct (script_line_shape r Hs) as (Hw & l & b & E & Hb).
  unfold trim. assert (trim_start (script_line r) = script_line r) as ->.
  { unfold script_line. destruct (verb_word r) as [Hne Hv]. destruct (wire_verb r) as [|x v]; [done|].
    apply Forall_cons_1 in Hv as [Hx _]. by apply trim_start_word. }
  rewrite E in *. apply Forall_app in Hw as [Hw _]. by apply trim_end_last.
Qed.

Lemma script_line_asks r : (length (script_line r) =? 0)%nat || starts_with (script_line r) (lit "#") = false.
Proof. unfold script_line. by destruct r. Qed.

Section scripts.
Variable fs_read : bytes -> result bytes IoError.

(** The path of a transfer is one word and its file can be read; its message-id
    is well formed and printable. *)
Definition transfer_ok (t : Transfer) (path article : bytes) : Prop :=
  word path /\ fs_read path = Ok article
  /\ Forall (fun m => valid validate_message_id m /\ word m) (transfer_ids t).

Definition script_line_ok (l : ScriptLine) : Prop :=
  match l with
  | Comment text => comment_ok text
  | Ask r => scriptable r
  | Send t path article => transfer_ok t path article
  end.

Lemma transfer_words t path article :
  transfer_ok t path article -> word (transfer_verb t) /\ Forall word (transfer_ids t ++ [path]).
Proof.
  intros (Hp & _ & Hm). split.
  - destruct t; (split; [discriminate|apply List.Forall_forall; intros b Hb]);
      repeat (destruct Hb as [<-|Hb]; [vm_compute; split; discriminate|]); destruct Hb.
  - apply Forall_app. split; [|by apply List.Forall_cons; [|apply List.Forall_nil]]. eapply List.Forall_impl; [|exact Hm]. by intros m [_ H].
Qed.

Lemma parse_transfer_line t path article :
  transfer_ok t path article ->
  parse_session_line fs_read (transfer_line t path) = Ok (transfer_command t article).
Proof.
  intros H. destruct (transfer_words _ _ _ H) as [Hv Hws]. destruct H as (Hp & Hfs & Hm).
  unfold parse_session_line, transfer_line. rewrite split_whitespace_spaced by done. cbn [hd_error head tail ok_or].
  destruct t as [|m|m]; cbn [transfer_verb transfer_ids transfer_command app] in *; verbs.
  1: cbn [one_argument]; by rewrite Hfs.
  all: apply Forall_cons_1 in Hm as [[Hm _] _]; destruct (message_id_word m Hm) as [_ E];
    unfold Request.takethis; by rewrite E, Hfs.
Qed.

(** A line of words is printable and has no white space at its ends. *)
Lemma words_line w ws :
  word w -> Forall word ws -> ~ In LF (w ++ spaced ws) /\ trim (w ++ spaced ws) = w ++ spaced ws.
Proof.
  intros Hw Hws. assert (Forall (fun b => 32 <= b <= 126) (w ++ spaced ws)) as Hp.
  { apply Forall_app. split; [by apply word_printed|]. apply spaced_printed.
    eapply List.Forall_impl; [|exact Hws]. apply word_printed. }
  split; [by apply printed_no_lf|]. destruct (spaced_last w ws Hw Hws) as (l & b & E & Hb).
  unfold trim. assert (trim_start (w ++ spaced ws) = w ++ spaced ws) as ->.
  { destruct Hw as [Hne Hv]. destruct w as [|x v]; [done|]. apply Forall_cons_1 in Hv as [Hx _]. by apply trim_start_word. }
  rewrite E in *. apply Forall_app in Hp as [Hp _]. by apply trim_end_last.
Qed.

Lemma script_text_lines ls rest :
  Forall script_line_ok ls -> str_lines (script_text ls ++ rest) = (line_text <$> ls) ++ str_lines rest.
Proof.
  induction 1 as [|l ls Hl _ IH]; [done|]. unfold script_text in *. rewrite !fmap_cons. cbn [concat app].
  rewrite <- app_assoc. destruct l as [text|r|t path article]; cbn [script_line_ok line_text] in *.
  - rewrite <- app_assoc, str_lines_crlf by apply Hl. by rewrite IH.
  - rewrite request_line_spaced by apply Hl. rewrite <- app_assoc. fold (script_line r).
    rewrite str_lines_crlf by (apply printed_no_lf; by apply script_line_shape). by rewrite IH.
  - destruct (transfer_words _ _ _ Hl) as [Hv Hws].
    rewrite <- app_assoc, str_lines_crlf by (by apply words_line). by rewrite IH.
Qed.

Lemma session_lines_text ls more index :
  Forall script_line_ok ls ->
  session_lines fs_read index ((line_text <$> ls) ++ more)
  = let? commands := session_lines fs_read (index + length ls) more in Ok (asked ls ++ commands).
Proof.
  intros Hls. revert index. induction Hls as [|l ls Hl _ IH]; intros index.
  { rewrite Nat.add_0_r. by destruct (session_lines _ _ _). }
  rewrite fmap_cons. cbn [app session_lines length].
  destruct l as [text|r|t path article]; cbn [script_line_ok line_text] in *.
  - destruct Hl as (_ & Hl). assert ((length (trim text) =? 0)%nat || starts_with (trim text) (lit "#") = true) as ->.
    { destruct Hl as [->| ->]; [done|]. apply orb_true_r. }
    rewrite IH. by replace (S index + length ls)%nat with (index + S (length ls))%nat by lia.
  - rewrite trim_script_line, script_line_asks, parse_script_line by done. cbn [map_err]. rewrite IH.
    replace (S index + length ls)%nat with (index + S (length ls))%nat by lia.
    by destruct (session_lines _ _ _).
  - destruct (transfer_words _ _ _ Hl) as [Hv Hws].
    assert (trim (transfer_line t path) = transfer_line t path) as -> by (by apply words_line).
    assert ((length (transfer_line t path) =? 0)%nat || starts_with (transfer_line t path) (lit "#") = false) as ->
      by (by destruct t). rewrite (parse_transfer_line t path article Hl). cbn [map_err]. rewrite IH.
    replace (S index + length ls)%nat with (index + S (length ls))%nat by lia.
    by destruct (session_lines _ _ _).
Qed.

(** C17: a script of comments, blank lines, wire lines of requests it can say and
    transfers of files is parsed back as its commands, in order: each request
    from its wire line, and each transfer with the content of its file.  The
    requests are the valid ones with arguments in printable ASCII, but not POST,
    IHAVE and TAKETHIS, which are the transfers, not STARTTLS and MODE STREAM,
    which scripts refuse, not LISTGROUP with a range and no group, which has no
    wire line of its own, nor those that do not come back from their wire line
    at all ([round_trips]: AUTHINFO with white space at the ends of its value,
    three kinds of LIST with a wildmat).  And the first line that is refused is
    reported under its number, counted from one with the comments and the blank
    lines. *)
Theorem session_script_roundtrip (ls : list ScriptLine) (bad rest : bytes) :
  Forall script_line_ok ls ->
  (asked ls <> [] -> parse_session_script fs_read (script_text ls) = Ok (asked ls))
  /\ (asked ls = [] -> parse_session_script fs_read (script_text ls) = Err (ClientError.InvalidSession 0))
  /\ (~ In LF bad -> trim bad <> [] -> starts_with (trim bad) (lit "#") = false ->
      parse_session_line fs_read (trim bad) = Err tt ->
      parse_session_script fs_read (script_text ls ++ bad ++ CRLF ++ rest)
      = Err (ClientError.InvalidSession (length ls + 1))).
Proof.
  intros Hls.
  assert (parse_session_script fs_read (script_text ls)
          = match asked ls with
            | [] => Err (ClientError.InvalidSession 0) | commands => Ok commands end) as E.
  { unfold parse_session_script. rewrite <- (app_nil_r (script_text ls)), script_text_lines by done.
    rewrite session_lines_text by done. change (str_lines []) with (@nil bytes). cbn [session_lines].
    rewrite !app_nil_r. by destruct (asked ls). }
  split; [|split].
  - intros Hne. rewrite E. by destruct (asked ls).
  - intros He. by rewrite E, He.
  - intros Hlf Hne Hc Hbad. unfold parse_session_script.
    rewrite script_text_lines, str_lines_crlf, session_lines_text by done. cbn [session_lines].
    by rewrite (proj2 (length_eqb_ne _) Hne), Hc, Hbad.
Qed.
End scripts.

(** ** What a script cannot say *)

(** A request of a constructor that needs no more than its line: no transfer, no
    upgrade, and not the mode the connection of a script is never in. *)
Definition said (r : Request.Request) : Prop :=
  constructed r
  /\ match r with
     | Request.Post | Request.Ihave _ | Request.TakeThis _ _ | Request.StartTls | Request.ModeStream => False
     | _ => True
     end.

Lemma execute_Ok {E} (x : result Request.Request E) c :
  execute x = Ok c -> exists r, x = Ok r /\ c = SessionCommand.Execute r.
Proof. destruct x as [r|]; [|done]. intros [= <-]. by exists r. Qed.

Lemma unit_error_Ok {A E} (x : result A E) r : unit_error x = Ok r -> x = Ok r.
Proof. apply map_err_Ok. Qed.

Create HintDb script.
#[local] Hint Constructors constructed : script.

(** A request that a smart constructor returned. *)
Ltac said :=
  match goal with
  | H : _ = Ok ?r |- said ?r =>
      split; [eauto 3 with script
             |unfold Request.article, Request.body, Request.head, Request.stat, Request.article_selector,
                Request.body_selector, Request.head_selector, Request.stat_selector, Request.group,
                Request.listgroup, Request.listgroup_group_range, Request.over, Request.xover, Request.hdr,
                Request.hdr_current, Request.xhdr, Request.xhdr_current, Request.newgroups,
                Request.newnews, Request.check, Request.takethis, Request.authinfo_user,
                Request.authinfo_pass, Request.list_active_wildmat, Request.list_active_times_wildmat,
                Request.list_newsgroups_wildmat, Request.capabilities_keyword in H; open_result; exact I]
  end.

Ltac said_constant := split; [apply c_constant; cbn [In]; auto 30|exact I].

Ltac known_words :=
  repeat match goal with H : Forall is_str (_ :: _) |- _ => apply Forall_cons_1 in H as [? ?] end.

Lemma article_command_said verb rest r :
  Forall is_str rest -> session_article_command verb rest = Ok r -> said r.
Proof.
  intros Hs H. unfold session_article_command in H. destruct rest as [|arg [|]]; [| |done]; known_words.
  - repeat match goal with H : (if ?b then _ else _) = Ok _ |- _ => destruct b end; try done;
      injection H as <-; said_constant.
  - repeat match goal with H : (if ?b then _ else _) = Ok _ |- _ => destruct b end; try done;
      apply unit_error_Ok in H; said.
Qed.

Lemma list_command_said rest r : Forall is_str rest -> session_list_command rest = Ok r -> said r.
Proof.
  intros Hs H. unfold session_list_command in H. destruct rest as [|keyword [|wildmat [|]]]; [| | |done]; known_words.
  - injection H as <-. said_constant.
  - repeat match goal with H : (if ?b then _ else _) = Ok _ |- _ => destruct b end; try done;
      injection H as <-; said_constant.
  - repeat match goal with H : (if ?b then _ else _) = Ok _ |- _ => destruct b end; try done;
      apply unit_error_Ok in H; said.
Qed.

Lemma listgroup_command_said rest r : Forall is_str rest -> session_listgroup_command rest = Ok r -> said r.
Proof.
  intros Hs H. unfold session_listgroup_command in H. destruct rest as [|g [|range [|]]]; [| | |done]; known_words.
  - injection H as <-. said_constant.
  - apply unit_error_Ok in H. said.
  - apply unit_error_Ok in H. said.
Qed.

Lemma newgroups_command_said rest r : Forall is_str rest -> session_newgroups_command rest = Ok r -> said r.
Proof.
  intros Hs H. unfold session_newgroups_command in H. destruct rest as [|d [|t [|gmt [|]]]]; try done; known_words.
  - apply unit_error_Ok in H. said.
  - destruct (eq_ignore_ascii_case _ _); [|done]. apply unit_error_Ok in H. said.
Qed.

Lemma newnews_command_said rest r : Forall is_str rest -> session_newnews_command rest = Ok r -> said r.
Proof.
  intros Hs H. unfold session_newnews_command in H. destruct rest as [|w [|d [|t [|gmt [|]]]]]; try done; known_words.
  - apply unit_error_Ok in H. said.
  - destruct (eq_ignore_ascii_case _ _); [|done]. apply unit_error_Ok in H. said.
Qed.

Lemma authinfo_line_said line c :
  parse_session_authinfo_line line = Ok c -> exists r, c = SessionCommand.Execute r /\ said r.
Proof.
  unfold parse_session_authinfo_line. intros H.
  repeat (case_match; simplify_eq; try done);
    apply execute_Ok in H as (r & H & ->); exists r; (split; [done|]); said.
Qed.

Section safe.
Variable fs_read : bytes -> result bytes IoError.

(** A command of a script: a request that is no transfer; or an article of a file,
    to be posted, or under a message-id that the constructors take. *)
Definition command_safe (c : SessionCommand.SessionCommand) : Prop :=
  match c with
  | SessionCommand.Execute r =>
      said r
      \/ exists message_id article path,
           r = Request.TakeThis message_id article /\ constructed r /\ fs_read path = Ok article
  | SessionCommand.PostArticle article => exists path, fs_read path = Ok article
  | SessionCommand.IhaveArticle message_id article =>
      message_id_shape message_id /\ exists path, fs_read path = Ok article
  end.

Lemma optional_said rest plain build c :
  Forall is_str rest -> said plain ->
  (forall arg r, is_str arg -> build arg = Ok r -> said r) ->
  optional_argument rest plain build = Ok c -> command_safe c.
Proof.
  intros Hs Hp Hb H. unfold optional_argument in H. destruct rest as [|arg [|]]; [| |done]; known_words.
  - injection H as <-. by left.
  - apply execute_Ok in H as (r & H & ->). left. eauto.
Qed.

Lemma headers_said rest current build c :
  Forall is_str rest -> (forall h r, is_str h -> current h = Ok r -> said r) ->
  (forall h s r, is_str h -> is_str s -> build h s = Ok r -> said r) ->
  header_arguments rest current build = Ok c -> command_safe c.
Proof.
  intros Hs Hc Hb H. unfold header_arguments in H. destruct rest as [|h [|s [|]]]; try done; known_words;
    apply execute_Ok in H as (r & H & ->); left; eauto.
Qed.

Lemma no_argument_said rest r c : said r -> no_argument rest r = Ok c -> command_safe c.
Proof. destruct rest; [|done]. intros Hr [= <-]. by left. Qed.

Lemma one_said rest build c :
  Forall is_str rest -> (forall arg c, is_str arg -> build arg = Ok c -> command_safe c) ->
  one_argument rest build = Ok c -> command_safe c.
Proof. intros Hs Hb H. destruct rest as [|arg [|]]; try done; known_words. eauto. Qed.

Lemma executed_said {E} (x : result Request.Request E) c :
  (forall r, x = Ok r -> said r) -> execute x = Ok c -> command_safe c.
Proof. intros Hx (r & H & ->)%execute_Ok. left. by apply Hx. Qed.

Lemma parse_session_line_safe line c :
  is_str line -> parse_session_line fs_read line = Ok c -> command_safe c.
Proof.
  intros Hl H. pose proof (split_whitespace_str line Hl) as Hw.
  unfold parse_session_line in H. destruct (split_whitespace line) as [|verb rest]; [done|].
  apply Forall_cons_1 in Hw as [_ Hs]. cbn [hd_error head tail ok_or] in H.
  set (name := to_ascii_uppercase <$> verb) in H. clearbody name.
  repeat match goal with H : (if ?b then _ else _) = Ok _ |- _ => destruct b end; try done.
  all: try (revert H; apply no_argument_said; said_constant).
  all: try (revert H; apply optional_said; [done|said_constant|]; intros arg r Ha Hr; said).
  all: try (revert H; apply headers_said; [done|..]; intros; said).
  all: try (revert H; apply executed_said; intros r;
            first [by apply article_command_said | by apply list_command_said | by apply listgroup_command_said
                  |by apply newgroups_command_said | by apply newnews_command_said]).
  - revert H. apply one_said; [done|]. intros mode c' _ H. destruct (eq_ignore_ascii_case _ _); [|done].
    injection H as <-. left. said_constant.
  - apply authinfo_line_said in H as (r & -> & Hr). by left.
  - revert H. apply one_said; [done|]. intros path c' _ H.
    destruct (fs_read path) as [article|] eqn:E; [|done]. injection H as <-. by exists path.
  - destruct rest as [|m [|path [|]]]; try done.
    destruct (message_id_from_str_or_wrap m) as [w|] eqn:Em; [|done].
    destruct (fs_read path) as [article|] eqn:E; [|done]. injection H as <-. split; [|by exists path].
    by apply from_str_or_wrap_valid in Em as [_ Em]; apply validate_message_id_shape.
  - destruct rest as [|m [|path [|]]]; try done. known_words. destruct (fs_read path) as [article|] eqn:E; [|done].
    apply execute_Ok in H as (r & H & ->). right. unfold Request.takethis in H.
    destruct (message_id_from_str_or_wrap m) as [w|] eqn:Em; [|done]. injection H as <-.
    exists w, article, path. split; [done|]. split; [|done]. apply (c_takethis m article); [done|].
    unfold Request.takethis. by rewrite Em.
  - revert H. apply one_said; [done|]. intros m c' Hm. apply executed_said. intros r H. said.
  - revert H. apply one_said; [done|]. intros g c' Hg. apply executed_said. intros r H. said.
Qed.

Lemma session_lines_safe index lines commands :
  Forall is_str lines -> session_lines fs_read index lines = Ok commands ->
  Forall command_safe commands
  /\ length commands = length (filter (fun raw => trim raw <> [] /\ starts_with (trim raw) (lit "#") = false) lines).
Proof.
  intros Hl. revert index commands. induction Hl as [|raw lines Hr _ IH]; intros index commands H; cbn [session_lines] in H.
  { injection H as <-. split; [constructor|done]. }
  destruct (_ || _) eqn:Es.
  - apply IH in H as [H E]. split; [done|]. rewrite list.filter_cons_False; [done|].
    intros [Hne Hc]. rewrite (proj2 (length_eqb_ne _) Hne), Hc in Es. done.
  - apply orb_false_iff in Es as [Hne%length_eqb_ne Hc].
    destruct (parse_session_line _ _) as [c|] eqn:Ec; [|done]. cbn [map_err] in H.
    destruct (session_lines _ _ _) as [cs|] eqn:Ecs; [|done]. injection H as <-.
    apply IH in Ecs as [Hcs E]. split.
    + apply List.Forall_cons; [|done]. eapply parse_session_line_safe; [|exact Ec]. by apply trim_str.
    + rewrite list.filter_cons_True by done. cbn [length]. by rewrite E.
Qed.

Lemma parse_session_script_safe text commands :
  is_str text -> parse_session_script fs_read text = Ok commands ->
  commands <> [] /\ Forall command_safe commands
  /\ length commands
     = length (filter (fun raw => trim raw <> [] /\ starts_with (trim raw) (lit "#") = false) (str_lines text)).
Proof.
  intros Ht H. unfold parse_session_script in H.
  destruct (session_lines _ _ _) as [cs|] eqn:E; [|done].
  apply session_lines_safe in E; [|by apply str_lines_str].
  destruct cs as [|c cs]; [done|]. injection H as <-. by split.
Qed.

Lemma said_ok r : said r -> request_ok r.
Proof. intros [Hr _]. by apply constructed_valid in Hr as [Hr _]. Qed.

Lemma session_call_ok c : command_safe c -> request_ok (s_request (sending_of (session_call c))).
Proof.
  destruct c as [r|article|m article]; cbn [command_safe session_call sending_of s_request]; intros H.
  - destruct H as [H|(m & article & path & _ & H & _)]; [by apply said_ok|].
    by apply constructed_valid in H as [H _].
  - done.
  - destruct H as [H _]. by apply message_id_valid.
Qed.

(** C18: a session that goes ahead has its text in the file the command line
    names, and nothing else is asked for on the command line; it is one call of
    the connection for each line that is not blank and not a comment, at least
    one; every request called for is a valid request of a constructor, never a
    bare [POST] or [IHAVE], [STARTTLS] or [MODE STREAM]; and every article, to be
    posted or sent with IHAVE or TAKETHIS, is the content of a file, the last two
    under a message id that is well formed. *)
Theorem session_script_safe (args : FetchArgs) (calls : list Call) :
  session_calls fs_read args = Ok calls ->
  fa_request args = None /\ fa_article_body args = None /\ fa_article_file args = None
  /\ exists path text commands,
       fa_session args = Some path /\ fs_read path = Ok text
       /\ calls = session_call <$> commands /\ Forall command_safe commands
       /\ (0 < length calls)%nat
       /\ length calls
          = length (filter (fun raw => trim raw <> [] /\ starts_with (trim raw) (lit "#") = false) (str_lines text))
       /\ Forall (fun call => request_ok (s_request (sending_of call))) calls.
Proof.
  unfold session_calls. intros H.
  destruct (validate_fetch_args args) as [[]|] eqn:Ev; [|done].
  destruct (fa_session args) as [path|] eqn:Ep; [|done]. cbn [ok_or] in H.
  unfold read_to_string in H. destruct (fs_read path) as [text|] eqn:Et; [|done].
  destruct (from_utf8 text) as [cs|] eqn:Eu; [|done]. cbn [map_err] in H.
  destruct (parse_session_script _ _) as [commands|] eqn:Ec; [|done]. injection H as <-.
  unfold validate_fetch_args in Ev. rewrite Ep in Ev. change (given (Some path)) with true in Ev.
  cbn [andb] in Ev. destruct (_ || given (fa_article_file args)) eqn:Eo; [done|]. clear Ev.
  apply orb_false_iff in Eo as [[[Hr _]%orb_false_iff Hb]%orb_false_iff Hf].
  assert (forall A (o : option A), given o = false -> o = None) as Hn by (intros A [a|]; done).
  repeat (split; [by apply Hn|]).
  apply parse_session_script_safe in Ec as (Hne & Hs & El); [|by exists cs].
  exists path, text, commands. repeat (split; [done|]). rewrite length_fmap. split; [by destruct commands; cbn; [|lia]|].
  split; [done|]. apply Forall_fmap. eapply List.Forall_impl; [|exact Hs]. apply session_call_ok.
Qed.
End safe.

(** ** A script *)

Definition sample_script : list ScriptLine :=
  [Comment (lit "# log in, then look around"); Ask (Request.AuthInfo AuthInfoKind.User (lit "jo doe"));
   Comment []; Ask (Request.Hdr (lit "Subject") (Some (lit "1-"))); Ask (Request.NewGroups (lit "20240102") (lit "030405") true);
   Ask (Request.Article (ArticleRef.Number 7));
   Send (TakeThisFile (lit "<a@b>")) (lit "article.txt") (bstr "Subject: x\r\n\r\nbody\r\n"); Ask Request.Quit].

Lemma visible_dec (p : Z -> bool) (P : Z -> Prop) l :
  (forall b, p b = true -> P b) -> forallb p l = true -> Forall P l.
Proof. intros Hp Hl. by eapply Forall_forallb_impl. Qed.

Lemma sample_script_ok : Forall (script_line_ok sample_fs) sample_script.
Proof.
  assert (forall l, forallb (in_range 32 126) l = true -> Forall (fun b => 32 <= b <= 126) l) as Hw.
  { intros l. apply visible_dec. intros b. by rewrite in_range_spec. }
  assert (forall l, comment_ok l <-> ~ In LF l /\ (trim l = [] \/ starts_with (trim l) (lit "#") = true)) as Hc by done.
  unfold sample_script. repeat apply List.Forall_cons; try apply List.Forall_nil; cbn [script_line_ok].
  - split; [|by right]. apply printed_no_lf, Hw. reflexivity.
  - split; [done|]. split; [|split; [by apply Hw|done]]. right. split; [|split].
    + apply List.Forall_forall. intros b Hb. repeat (destruct Hb as [<-|Hb]; [done|]). destruct Hb.
    + by exists 106, (lit "o doe").
    + by exists (lit "jo do"), 101.
  - split; [by intros []|by left].
  - split; [split; (split; [by eexists|done])|]. split; [done|]. split; [by apply Hw|done].
  - split; [split; (split; [by eexists|done])|]. split; [done|]. split; [by apply Hw|done].
  - split; [split; unfold MAX_ARTICLE_NUMBER; lia|]. split; [done|]. split; [by apply Hw|done].
  - assert (forall l, l <> [] -> forallb (in_range 33 126) l = true -> word l) as Hword.
    { intros l Hne H. split; [done|]. revert H. apply visible_dec. intros b. by rewrite in_range_spec. }
    split; [by apply Hword|]. split; [reflexivity|]. apply List.Forall_cons; [|apply List.Forall_nil].
    split; [split; [by eexists|done]|by apply Hword].
  - split; [done|]. split; [done|]. split; [by apply Hw|done].
Qed.

Lemma session_script_roundtrip_witness :
  parse_session_script sample_fs (script_text sample_script) = Ok (asked sample_script)
  /\ parse_session_script sample_fs (script_text sample_script ++ lit "mode stream" ++ CRLF ++ lit "DATE")
     = Err (ClientError.InvalidSession 9).
Proof.
  destruct (session_script_roundtrip sample_fs sample_script (lit "mode stream") (lit "DATE") sample_script_ok)
    as (H1 & _ & H2).
  split; [apply H1; discriminate|]. apply H2; [|vm_compute; discriminate|vm_compute; reflexivity..].
  apply printed_no_lf. apply (visible_dec (in_range 32 126)); [|reflexivity]. intros b. by rewrite in_range_spec.
Defined.

(** A session of two calls: a group and a transfer from a file. *)
Definition session_text : bytes := bstr "group comp.lang.c\n# offer it\n  IHAVE-ARTICLE a@b article.txt\n".

Definition session_fs (path : bytes) : result bytes IoError :=
  if bytes_eqb path (lit "session.txt") then Ok session_text else sample_fs path.

Definition session_args : FetchArgs :=
  {| fa_connect := {| sa_ip := lit "127.0.0.1"; sa_port := 119 |}; fa_request := None;
     fa_message_id := None; fa_article_body := None; fa_article_file := None; fa_capability := None;
     fa_session := Some (lit "session.txt");
     fa_auth_value := None; fa_header := None; fa_group := None; fa_wildmat := None; fa_date := None;
     fa_time := None; fa_gmt := false; fa_selector := None; fa_threads := 1;
     fa_read_buffer_bytes := 4096; fa_max_response_bytes := 4096; fa_pipeline_depth := 1;
     fa_ports := []; fa_segments := None; fa_requests := 0; fa_transfer_bytes := 0;
     fa_duration_secs := 0; fa_setup_timeout_secs := 30; fa_drain_timeout_secs := 5;
     fa_offered_rate := None; fa_latency_range_ms := 60000; fa_latency_precision_us := 100;
     fa_connections := 1; fa_client_offset := 0; fa_total_clients := 1;
     fa_command_mix := ClientCommandMix.Article; fa_start_id := 1;
     fa_workload_policy := LoadWorkloadPolicy.Repeat;
     fa_verification_policy := LoadVerificationPolicy.None; fa_csv := false; fa_json := false;
     fa_stats_interval_secs := 0; fa_nodelay := true; fa_socket_recv_buffer := 0; fa_socket_send_buffer := 0 |}.

Lemma session_script_safe_witness :
  session_calls session_fs session_args
  = Ok [CallRequest (Request.Group (lit "comp.lang.c"));
        CallIhave (lit "<a@b>") (bstr "Subject: x\r\n\r\nbody\r\n")]
  /\ fa_request session_args = None.
Proof.
  assert (session_calls session_fs session_args
          = Ok [CallRequest (Request.Group (lit "comp.lang.c"));
                CallIhave (lit "<a@b>") (bstr "Subject: x\r\n\r\nbody\r\n")]) as E by (vm_compute; reflexivity).
  split; [exact E|]. exact (proj1 (session_script_safe session_fs session_args _ E)).
Defined.
