(* ===== verification/LoadConfig.v ===== *)
(** * The configuration of the load generator ([src/src/lib.rs])

    The arguments of the command line become a configuration ([from_args]), the
    configuration the sessions of the process and the ports they connect to
    ([LoadSession::new], [endpoint_for], the loop of [run_load]); the outcomes of
    the sessions are merged as they end.  [workload_identity] names the work. *)
From Stdlib Require Import Floats.SpecFloat.
From S2P Require Import Prelude Memchr Args Terminator Kinds ClientWire ArticleStore ServerStore ServerPayload.
From S2P Require Import Float64 LoadSchedule LoadWorkload SegmentFile LoadReader LoadSession FetchCommand.

Local Open Scope Z_scope.
Local Open Scope rust_scope.

Record LoadConfig : Type := {
  lc_connect : SocketAddr;
  lc_runtime_threads : Z;
  lc_ports : list Z;
  lc_segments : option SegmentSet;
  lc_requests : option Z;
  lc_transfer_bytes : Z;
  lc_duration : Z;
  lc_setup_timeout : Z;
  lc_drain_timeout : Z;
  lc_offered_rate : option f64;
  lc_latency_range : Z;
  lc_latency_precision : Z;
  lc_connections : Z;
  lc_client_offset : Z;
  lc_total_clients : Z;
  lc_pipeline_depth : nat;
  lc_command_mix : ClientCommandMix.ClientCommandMix;
  lc_start_id : Z;
  lc_workload_policy : LoadWorkloadPolicy.LoadWorkloadPolicy;
  lc_verification_policy : LoadVerificationPolicy.LoadVerificationPolicy;
  lc_read_buffer_bytes : nat;
  lc_max_response_bytes : nat;
  lc_nodelay : bool;
  lc_socket_recv_buffer : Z;
  lc_socket_send_buffer : Z;
  lc_csv : bool;
  lc_json : bool;
  lc_stats_interval : Z;
}.

Definition csv_and_json : IoError := invalid_input (lit "csv and json output are mutually exclusive").
Definition no_response_bytes : IoError := invalid_input (lit "max response bytes must be positive").
Definition too_many_clients : IoError := invalid_input (lit "disjoint workload clients exceed total_clients").

(** [Duration::from_secs], [from_millis] and [from_micros] in nanoseconds. *)
Definition from_secs (n : Z) : Z := n * NANOS_PER_SEC.
Definition from_millis (n : Z) : Z := n * 1000000.
Definition from_micros (n : Z) : Z := n * 1000.

Definition is_disjoint (policy : LoadWorkloadPolicy.LoadWorkloadPolicy) : bool :=
  match policy with LoadWorkloadPolicy.Disjoint => true | _ => false end.

Section config.
Context `{Mc : !Memchr}.
(** [File::open] of a path. *)
Variable open : bytes -> result File IoError.

Definition read_segments_of (path : option bytes) : result (option SegmentSet) IoError :=
  match path with
  | Some path => let? segments := read_segments path (open path) in Ok (Some segments)
  | None => Ok None
  end.

Definition from_args (args : FetchArgs) : result LoadConfig IoError :=
  let connections := Z.max (fa_connections args) 1 in
  if fa_csv args && fa_json args then Err csv_and_json
  else if (fa_max_response_bytes args =? 0)%nat then Err no_response_bytes
  else
    let total_clients := if fa_total_clients args =? 0 then connections else fa_total_clients args in
    if is_disjoint (fa_workload_policy args)
       && match u64_checked_add (fa_client_offset args) connections with
          | None => true
          | Some last => total_clients <? last
          end
    then Err too_many_clients
    else
      let latency_range := from_millis (fa_latency_range_ms args) in
      let latency_precision := from_micros (fa_latency_precision_us args) in
      let? _ := histogram_new latency_range latency_precision in
      let? segments := read_segments_of (fa_segments args) in
      Ok {| lc_connect := fa_connect args;
            lc_runtime_threads := fa_threads args;
            lc_ports := fa_ports args;
            lc_segments := segments;
            lc_requests := if fa_requests args =? 0 then None else Some (fa_requests args);
            lc_transfer_bytes := fa_transfer_bytes args;
            lc_duration := from_secs (fa_duration_secs args);
            lc_setup_timeout := from_secs (Z.max (fa_setup_timeout_secs args) 1);
            lc_drain_timeout := from_secs (Z.max (fa_drain_timeout_secs args) 1);
            lc_offered_rate := fa_offered_rate args;
            lc_latency_range := latency_range;
            lc_latency_precision := latency_precision;
            lc_connections := connections;
            lc_client_offset := fa_client_offset args;
            lc_total_clients := total_clients;
            lc_pipeline_depth := Nat.min (Nat.max (fa_pipeline_depth args) 1) 4096;
            lc_command_mix := fa_command_mix args;
            lc_start_id := fa_start_id args;
            lc_workload_policy := fa_workload_policy args;
            lc_verification_policy := fa_verification_policy args;
            lc_read_buffer_bytes := Nat.max (fa_read_buffer_bytes args) TERMINATOR_TAIL_SIZE;
            lc_max_response_bytes := fa_max_response_bytes args;
            lc_nodelay := fa_nodelay args;
            lc_socket_recv_buffer := fa_socket_recv_buffer args;
            lc_socket_send_buffer := fa_socket_send_buffer args;
            lc_csv := fa_csv args;
            lc_json := fa_json args;
            lc_stats_interval := from_secs (fa_stats_interval_secs args) |}.
End config.

Definition endpoint_for (self : LoadConfig) (global_index : Z) : SocketAddr :=
  match lc_ports self with
  | [] => lc_connect self
  | ports =>
      {| sa_ip := sa_ip (lc_connect self);
         sa_port := nth (Z.to_nat (global_index mod Z.of_nat (length ports))) ports 0 |}
  end.

(** What [LoadSession::new] makes: how the connection is opened, and the
    session on it. *)
Record SpawnedSession : Type := {
  sp_connect : SocketAddr;
  sp_setup_timeout : Z;
  sp_nodelay : bool;
  sp_socket_recv_buffer : Z;
  sp_socket_send_buffer : Z;
  sp_session : LoadSession;
}.

Definition session_new (config : LoadConfig) (global_index start_id : Z) (requests : option Z) : SpawnedSession :=
  {| sp_connect := endpoint_for config global_index;
     sp_setup_timeout := lc_setup_timeout config;
     sp_nodelay := lc_nodelay config;
     sp_socket_recv_buffer := lc_socket_recv_buffer config;
     sp_socket_send_buffer := lc_socket_send_buffer config;
     sp_session :=
       {| ld_segments := lc_segments config;
          ld_client_index := global_index;
          ld_total_clients := lc_total_clients config;
          ld_requests := requests;
          ld_transfer_bytes := lc_transfer_bytes config;
          ld_next_id := start_id;
          ld_workload_policy := lc_workload_policy config;
          ld_verification_policy := lc_verification_policy config;
          ld_drain_timeout := lc_drain_timeout config;
          ld_offered_rate := lc_offered_rate config;
          ld_latency_range := lc_latency_range config;
          ld_latency_precision := lc_latency_precision config;
          ld_pipeline_depth := lc_pipeline_depth config;
          ld_command_mix := lc_command_mix config;
          ld_read_buffer_bytes := lc_read_buffer_bytes config;
          ld_max_response_bytes := lc_max_response_bytes config |} |}.

(** The sessions of the process; [None] is the overflow of an index. *)
Definition spawn_session (config : LoadConfig) (connection_index : nat) : option SpawnedSession :=
  global_index ← u64_checked_add (lc_client_offset config) (Z.of_nat connection_index);
  let requests := requests_for_connection (lc_requests config) (lc_total_clients config) global_index in
  Some (session_new config global_index (lc_start_id config) requests).

Definition spawn_sessions (config : LoadConfig) : option (list SpawnedSession) :=
  mapM (spawn_session config) (seq 0 (Z.to_nat (lc_connections config))).

(** ** The end of the sessions *)

Definition outcome_default : LoadSessionOutcome := outcome_new 0 0 None.

(** How a task ended: with the result of its session, or not at all, which
    [io::Error::other] makes an error. *)
Inductive Joined : Type :=
| JoinedSession (result : result LoadSessionOutcome IoError)
| JoinFailed (error : IoError).

(** The sessions are joined as they end; the first error ends the process, with
    [errors] counted and the others aborted. *)
Fixpoint join_sessions (joined : list Joined) (lifecycle : LoadSessionOutcome)
    : result LoadSessionOutcome IoError :=
  match joined with
  | [] => Ok lifecycle
  | JoinedSession (Ok outcome) :: joined => join_sessions joined (outcome_merge lifecycle outcome)
  | JoinedSession (Err err) :: _ => Err err
  | JoinFailed err :: _ => Err err
  end.

(** ** The identity of the workload *)

(** [to_le_bytes] of an integer of [n] bytes. *)
Definition to_le_bytes (n : nat) (value : Z) : bytes :=
  (fun i => value / 2 ^ (8 * Z.of_nat i) mod 256) <$> seq 0 n.

(** [f64::to_bits]; a NaN has the bits of the one [f64::NAN]. *)
Definition f64_to_bits (x : f64) : Z :=
  let sign (s : bool) := if s then 2 ^ 63 else 0 in
  match x with
  | S754_zero s => sign s
  | S754_infinity s => sign s + 2047 * 2 ^ 52
  | S754_nan => 2047 * 2 ^ 52 + 2 ^ 51
  | S754_finite s m e =>
      if Zpos m <? 2 ^ 52 then sign s + Zpos m
      else sign s + (e + 1075) * 2 ^ 52 + (Zpos m - 2 ^ 52)
  end.

Definition mix_tag (mix : ClientCommandMix.ClientCommandMix) : Z :=
  match mix with
  | ClientCommandMix.Article => 0
  | ClientCommandMix.Body => 1
  | ClientCommandMix.Alternate => 2
  | ClientCommandMix.Stat => 3
  | ClientCommandMix.Mixed => 4
  end.

Definition policy_tag (policy : LoadWorkloadPolicy.LoadWorkloadPolicy) : Z :=
  match policy with
  | LoadWorkloadPolicy.Disjoint => 0
  | LoadWorkloadPolicy.Shared => 1
  | LoadWorkloadPolicy.Repeat => 2
  end.

(** The hasher is what has been hashed. *)
Definition update_workload_identity (hasher : bytes) (tag : Z) (value : bytes) : bytes :=
  hasher ++ [tag] ++ to_le_bytes 8 (Z.of_nat (length value)) ++ value.

Fixpoint update_segments (hasher : bytes) (segments : SegmentSet) (index : nat) (ids : list bytes)
    : option bytes :=
  match ids with
  | [] => Some hasher
  | message_id :: ids =>
      size ← declared_size segments index;
      let hasher := update_workload_identity hasher 12 (to_le_bytes 8 size) in
      let hasher := update_workload_identity hasher 13 message_id in
      update_segments hasher segments (S index) ids
  end.

Definition WORKLOAD_VERSION : bytes := lit "nntpbench-workload-v1".

(** What is hashed; [None] is the panic of a missing size. *)
Definition workload_bytes (config : LoadConfig) : option bytes :=
  let hasher := WORKLOAD_VERSION in
  let hasher := update_workload_identity hasher 0 (to_le_bytes 8 (default 0 (lc_requests config))) in
  let hasher := update_workload_identity hasher 1 (to_le_bytes 8 (lc_transfer_bytes config)) in
  let hasher := update_workload_identity hasher 2 (to_le_bytes 16 (lc_duration config)) in
  let hasher :=
    match lc_offered_rate config with
    | Some rate =>
        let hasher := update_workload_identity hasher 3 [1] in
        update_workload_identity hasher 4 (to_le_bytes 8 (f64_to_bits rate))
    | None => update_workload_identity hasher 3 [0]
    end in
  let hasher := update_workload_identity hasher 5 (to_le_bytes 8 (lc_connections config)) in
  let hasher := update_workload_identity hasher 6 (to_le_bytes 8 (lc_client_offset config)) in
  let hasher := update_workload_identity hasher 7 (to_le_bytes 8 (lc_total_clients config)) in
  let hasher := update_workload_identity hasher 8 (to_le_bytes 8 (Z.of_nat (lc_pipeline_depth config))) in
  let hasher := update_workload_identity hasher 9 [mix_tag (lc_command_mix config)] in
  let hasher := update_workload_identity hasher 10 (to_le_bytes 8 (lc_start_id config)) in
  let hasher := update_workload_identity hasher 11 [policy_tag (lc_workload_policy config)] in
  match lc_segments config with
  | Some segments => update_segments hasher segments 0 (seg_ids segments)
  | None => Some hasher
  end.

(** [md5] is the digest of the [md5] crate. *)
Definition workload_identity (md5 : bytes -> bytes) (config : LoadConfig) : option bytes :=
  hashed ← workload_bytes config;
  Some (lit "md5:" ++ hex_lower (md5 hashed)).
