(* ===== verification/LoadProcesses.v ===== *)
(** * What the configuration of a load promises

    The checks of the command line, the sessions a process runs, the processes
    of one load together, the merged outcomes and the identity of the work. *)
From Stdlib Require Import Floats.SpecFloat.
From S2P Require Import Prelude Utf8 Decimal Memchr Args Terminator Kinds RequestWire ClientWire ArticleStore ServerStore ServerPayload ServerCommands Text.
From S2P Require Import Float64 LoadSchedule LoadWorkload SegmentFile LoadReader LoadSession LoadRuns FetchCommand LoadConfig.

Local Open Scope Z_scope.
Local Open Scope rust_scope.

(** ** The segments of a file *)

Record segments_ok (s : SegmentSet) : Prop := {
  sg_ids : Forall message_id_shape (seg_ids s);
  sg_sizes : Forall (fun n => 0 <= n <= u64_max) (seg_declared_sizes s);
  sg_length : length (seg_ids s) = length (seg_declared_sizes s);
}.

Lemma shared_message_id_shape value id : shared_message_id_from_bytes value = Ok id -> message_id_shape id.
Proof.
  unfold shared_message_id_from_bytes. destruct (from_utf8 value); [|done].
  assert (forall v, map_err (fun _ => invalid_data (lit "invalid segment message-id")) (message_id_from_borrowed v) = Ok id ->
            message_id_shape id) as Hb.
  { intros v H%map_err_Ok. apply message_id_from_borrowed_Ok in H as [-> H]. done. }
  destruct (_ && _); [apply Hb|]. destruct (array_string _ _); [cbn [ok_or]; apply Hb|done].
Qed.

Section segments.
Context `{Mc : !Memchr}.

Lemma segment_of_line_ok line_index line size id :
  segment_of_line line_index line = Ok (size, id) -> 0 <= size <= u64_max /\ message_id_shape id.
Proof.
  unfold segment_of_line. intros H. destruct (memchr HT line) as [tab|]; [|done]. cbn [ok_or] in H.
  destruct (from_utf8 _); [|done]. cbn [ok_or] in H.
  destruct (parse_u64 _) as [n|] eqn:En; [|done]. cbn [ok_or] in H.
  destruct (shared_message_id_from_bytes _) as [m|] eqn:Em; [|done]. injection H as <- <-.
  split; [|by eapply shared_message_id_shape].
  unfold parse_u64, parse_unsigned in En. apply bind_Some in En as (v & Ev & En).
  destruct (v <=? u64_max) eqn:El; [|done]. injection En as <-. apply Z.leb_le in El. split; [|done].
  unfold parse_digits in Ev. destruct (_ || _) eqn:Ed; [done|]. injection Ev as <-.
  apply orb_false_iff in Ed as [_ Ed%negb_false_iff]. by apply decimal_value_nonneg.
Qed.

Lemma read_segments_loop_ok fuel line_index segments reader read :
  segments_ok segments -> read_segments_loop fuel line_index segments reader = Ok read -> segments_ok read.
Proof.
  revert line_index segments reader. induction fuel as [|fuel IH]; intros line_index segments reader Hs H;
    cbn [read_segments_loop] in H; [by injection H as <-|].
  destruct (read_until LF reader) as [[line_buf|e] reader']; [|done].
  destruct (length line_buf =? 0)%nat; [by injection H as <-|].
  destruct (length (trim_ascii_line line_buf) =? 0)%nat; [by apply IH in H|].
  destruct (segment_of_line _ _) as [[size id]|e] eqn:E; [|done].
  apply segment_of_line_ok in E as [Hsize Hid]. apply IH in H; [done|].
  destruct Hs as [Hi Hz Hl]. split; cbn [seg_ids seg_declared_sizes].
  - apply Forall_app. split; [done|]. by apply List.Forall_cons.
  - apply Forall_app. split; [done|]. by apply List.Forall_cons.
  - rewrite !length_app. cbn. lia.
Qed.

Lemma read_segments_ok display opened segments :
  read_segments display opened = Ok segments -> segments_ok segments /\ seg_ids segments <> [].
Proof.
  unfold read_segments. destruct opened as [file|]; [|done]. intros H.
  destruct (read_segments_loop _ _ _ _) as [read|] eqn:E; [|done].
  destruct (length (seg_ids read) =? 0)%nat eqn:El; [done|]. injection H as <-.
  split; [|by apply length_eqb_ne]. eapply read_segments_loop_ok; [|exact E]. by split; [constructor|constructor|].
Qed.
End segments.

(** ** The configuration *)

(** What the rest of the generator takes of a configuration. *)
Record config_ok (c : LoadConfig) : Prop := {
  cg_connections : 1 <= lc_connections c;
  cg_total : 1 <= lc_total_clients c;
  cg_depth : (1 <= lc_pipeline_depth c <= 4096)%nat;
  cg_buffer : (TERMINATOR_TAIL_SIZE <= lc_read_buffer_bytes c)%nat;
  cg_response : (0 < lc_max_response_bytes c)%nat;
  cg_timeouts : NANOS_PER_SEC <= lc_setup_timeout c /\ NANOS_PER_SEC <= lc_drain_timeout c;
  cg_requests : lc_requests c <> Some 0;
  cg_output : lc_csv c && lc_json c = false;
  cg_latency : exists h, histogram_new (lc_latency_range c) (lc_latency_precision c) = Ok h;
  cg_disjoint : lc_workload_policy c = LoadWorkloadPolicy.Disjoint ->
    lc_client_offset c + lc_connections c <= lc_total_clients c;
  cg_segments : match lc_segments c with
                | None => True
                | Some s => segments_ok s /\ seg_ids s <> []
                end;
}.

Section config.
Context `{Mc : !Memchr}.
Variable open : bytes -> result File IoError.

Lemma read_segments_of_ok path segments :
  read_segments_of open path = Ok segments ->
  match segments with None => True | Some s => segments_ok s /\ seg_ids s <> [] end.
Proof.
  unfold read_segments_of. destruct path as [path|]; [|by intros [= <-]].
  destruct (read_segments path (open path)) as [s|] eqn:E; [|done]. intros [= <-]. by eapply read_segments_ok.
Qed.

(** The number of clients of the whole load. *)
Definition all_clients (args : FetchArgs) : Z :=
  if fa_total_clients args =? 0 then Z.max (fa_connections args) 1 else fa_total_clients args.

Definition args_conflict (args : FetchArgs) : Prop :=
  fa_workload_policy args = LoadWorkloadPolicy.Disjoint
  /\ Z.min (all_clients args) u64_max < fa_client_offset args + Z.max (fa_connections args) 1.

(** A command line is accepted with a configuration the sessions can run
    with, or refused for the first of these: both outputs asked for, no room for
    a response, clients of a disjoint load beyond the last, a latency histogram
    that cannot be, a file of segments that cannot be read. *)
Theorem load_config_checked (args : FetchArgs) :
  0 <= fa_total_clients args <= u64_max ->
  match from_args open args with
  | Ok c => config_ok c /\ ~ args_conflict args
  | Err e =>
      if fa_csv args && fa_json args then e = csv_and_json
      else if (fa_max_response_bytes args =? 0)%nat then e = no_response_bytes
      else (args_conflict args /\ e = too_many_clients)
        \/ (~ args_conflict args
            /\ match histogram_new (from_millis (fa_latency_range_ms args))
                       (from_micros (fa_latency_precision_us args)) with
               | Err e' => e = e'
               | Ok _ => exists path, fa_segments args = Some path
                   /\ read_segments path (open path) = Err e
               end)
  end.
Proof.
  intros Ht. unfold from_args. destruct (fa_csv args && fa_json args) eqn:Eout; [done|].
  destruct (fa_max_response_bytes args =? 0)%nat eqn:Emax; [done|]. apply Nat.eqb_neq in Emax.
  assert (args_conflict args <->
          is_disjoint (fa_workload_policy args)
          && match u64_checked_add (fa_client_offset args) (Z.max (fa_connections args) 1) with
             | None => true | Some last => all_clients args <? last end = true) as Hc.
  { unfold args_conflict, u64_checked_add. rewrite andb_true_iff.
    assert (is_disjoint (fa_workload_policy args) = true <-> fa_workload_policy args = LoadWorkloadPolicy.Disjoint) as ->
      by (by destruct (fa_workload_policy args)).
    destruct (Z.ltb_spec u64_max (fa_client_offset args + Z.max (fa_connections args) 1)); [|rewrite Z.ltb_lt];
      split; intros [Hd Hl]; (split; [done|]); lia. }
  fold (all_clients args). destruct (is_disjoint _ && _) eqn:Ed.
  { left. split; [by apply Hc|done]. }
  assert (~ args_conflict args) as Hnc by (intros Hx%Hc; done).
  destruct (histogram_new _ _) as [h|e] eqn:Eh; [|by right].
  destruct (read_segments_of open (fa_segments args)) as [segments|e] eqn:Er.
  - split; [|done]. apply read_segments_of_ok in Er. split;
      cbn [lc_connections lc_total_clients lc_pipeline_depth lc_read_buffer_bytes lc_max_response_bytes
           lc_setup_timeout lc_drain_timeout lc_requests lc_csv lc_json lc_latency_range lc_latency_precision
           lc_client_offset lc_workload_policy lc_segments]; try done; unfold all_clients, from_secs, NANOS_PER_SEC in *; try lia.
    + destruct (Z.eqb_spec (fa_total_clients args) 0); lia.
    + destruct (Z.eqb_spec (fa_requests args) 0) as [|Hr]; [done|]. intros [= E]. done.
    + by exists h.
    + intros Hd. apply Z.nlt_ge. intros Hlt. apply Hnc. split; [done|]. unfold all_clients.
      destruct (fa_total_clients args =? 0); lia.
  - right. split; [done|]. unfold read_segments_of in Er. destruct (fa_segments args) as [path|]; [|done].
    exists path. split; [done|]. destruct (read_segments path (open path)); [done|]. by injection Er as <-.
Qed.
End config.

(** ** The sessions of a process *)

(** The share of one client of the whole load. *)
Definition share_of (c : LoadConfig) (index : Z) : nat :=
  Z.to_nat (default 0 (requests_for_connection (lc_requests c) (lc_total_clients c) index)).

(** No index of a request or a client leaves the machine width. *)
Definition in_width (c : LoadConfig) (total : Z) : Prop :=
  0 <= lc_client_offset c /\ 0 <= lc_start_id c <= u64_max /\ 0 <= total
  /\ 0 <= lc_total_clients c /\ lc_client_offset c + lc_connections c + total + lc_total_clients c <= u64_max.

Lemma spawn_sessions_spec c total :
  in_width c total ->
  spawn_sessions c = Some ((fun i =>
    session_new c (lc_client_offset c + Z.of_nat i) (lc_start_id c)
      (requests_for_connection (lc_requests c) (lc_total_clients c) (lc_client_offset c + Z.of_nat i)))
    <$> seq 0 (Z.to_nat (lc_connections c))).
Proof.
  intros (Ho & _ & Ht & Hc & Hw). unfold spawn_sessions. apply mapM_Some. apply Forall2_fmap_r, Forall_Forall2_diag.
  apply List.Forall_forall. intros i Hi. apply in_seq in Hi. unfold spawn_session, u64_checked_add.
  destruct (Z.ltb_spec u64_max (lc_client_offset c + Z.of_nat i)); [lia|reflexivity].
Qed.

Lemma share_bound total clients index :
  0 <= total -> 1 <= clients -> 0 <= index ->
  exists n, requests_for_connection (Some total) clients index = Some n /\ 0 <= n
    /\ n * clients + index <= total + Z.max clients index.
Proof.
  intros Ht Hc Hi. unfold requests_for_connection. cbn [mbind option_bind]. eexists. split; [reflexivity|].
  pose proof (Z.div_mod total clients ltac:(lia)) as E. pose proof (Z.mod_pos_bound total clients ltac:(lia)) as Hr.
  pose proof (Z.div_pos total clients Ht ltac:(lia)).
  set (q := total / clients) in *. set (r := total mod clients) in *.
  destruct (Z.ltb_spec index r); split; nia.
Qed.

Definition is_port (c : LoadConfig) (address : SocketAddr) : Prop :=
  sa_ip address = sa_ip (lc_connect c)
  /\ (if (length (lc_ports c) =? 0)%nat then address = lc_connect c else sa_port address ∈ lc_ports c).

Lemma endpoint_is_port c index : is_port c (endpoint_for c index).
Proof.
  unfold is_port, endpoint_for. destruct (lc_ports c) as [|port ports]; [done|]. split; [done|].
  cbn [sa_port]. change (length (port :: ports) =? 0)%nat with false. apply list_elem_of_In, nth_In.
  set (n := length (port :: ports)). assert (0 < n)%nat by (cbn; lia). clearbody n.
  pose proof (Z.mod_pos_bound index (Z.of_nat n)). lia.
Qed.

(** A configuration that was accepted runs as many sessions as it says, each
    at one of its ports, each with its share of the requests of the whole load
    and a workload that is defined for all of them; an offered rate that has a
    schedule and the histograms of the configuration do for every session. *)
Theorem accepted_sessions_run (c : LoadConfig) (total : Z) :
  config_ok c -> lc_requests c = Some total -> in_width c total ->
  exists sessions, spawn_sessions c = Some sessions
    /\ Z.of_nat (length sessions) = lc_connections c
    /\ forall i spawned, sessions !! i = Some spawned ->
         is_port c (sp_connect spawned)
         /\ ld_client_index (sp_session spawned) = lc_client_offset c + Z.of_nat i
         /\ share_ok (sp_session spawned) (share_of c (lc_client_offset c + Z.of_nat i))
         /\ (match lc_offered_rate c with
             | None => True
             | Some rate => exists s, schedule_new rate 0 = Some (Ok s)
             end -> offer_ok (sp_session spawned)).
Proof.
  intros Hc Hr Hw. eexists. split; [by apply (spawn_sessions_spec c total)|]. destruct Hw as (Ho & Hs & Ht & _ & Hw).
  rewrite length_fmap, length_seq. split; [destruct Hc; lia|].
  intros i spawned Hi. rewrite list_lookup_fmap in Hi. apply fmap_Some in Hi as (j & Hj & ->).
  apply lookup_seq in Hj as [-> Hj]. cbn [Nat.add] in *.
  split; [apply endpoint_is_port|]. split; [done|]. split.
  - destruct (share_bound total (lc_total_clients c) (lc_client_offset c + Z.of_nat i) Ht (cg_total _ Hc) ltac:(lia))
      as (n & En & Hn & Hb).
    assert (share_of c (lc_client_offset c + Z.of_nat i) = Z.to_nat n) as Esh
      by (unfold share_of; rewrite Hr, En; reflexivity).
    rewrite Esh, Hr, En. pose proof (cg_total _ Hc).
    split; cbn [session_new sp_session ld_requests ld_pipeline_depth ld_next_id ld_segments ld_client_index ld_total_clients].
    + rewrite Z2Nat.id by done. reflexivity.
    + rewrite Z2Nat.id by done. nia.
    + apply Hc.
    + done.
    + pose proof (cg_segments _ Hc) as Hsg. destruct (lc_segments c) as [s|]; [|done]. destruct Hsg as [Hsg Hne].
      split; [done|]. split; [apply Hsg|]. rewrite Z2Nat.id by done. lia.
  - unfold offer_ok. cbn [session_new sp_session ld_offered_rate ld_latency_range ld_latency_precision].
    destruct (lc_offered_rate c) as [rate|]; [|done]. intros Hrate. split; [done|apply Hc].
Qed.

(** ** The processes of a load *)

(** The numbers a session asks for, when it answers its whole share. *)
Definition session_numbers (s : LoadSession) : list Z :=
  (fun k => synthetic_request_id (ld_next_id s) (ld_client_index s) (Z.of_nat k) (ld_total_clients s)
              (ld_workload_policy s))
  <$> seq 0 (Z.to_nat (default 0 (ld_requests s))).

(** One of the processes of a disjoint load of [total] requests. *)
Definition process_of (start_id : Z) (clients total : nat) (c : LoadConfig) : Prop :=
  config_ok c /\ in_width c (Z.of_nat total) /\ lc_workload_policy c = LoadWorkloadPolicy.Disjoint
  /\ lc_requests c = Some (Z.of_nat total) /\ lc_start_id c = start_id
  /\ lc_total_clients c = Z.of_nat clients.

(** The clients of a process. *)
Definition clients_of (c : LoadConfig) : list nat :=
  seq (Z.to_nat (lc_client_offset c)) (Z.to_nat (lc_connections c)).

Definition numbers_of (c : LoadConfig) : list Z :=
  concat (session_numbers ∘ sp_session <$> default [] (spawn_sessions c)).

Lemma process_numbers start_id clients total c :
  process_of start_id clients total c ->
  numbers_of c = concat (connection_ids start_id total clients <$> clients_of c).
Proof.
  intros (Hc & Hw & Hd & Hr & Hs & Ht). unfold numbers_of. rewrite (spawn_sessions_spec c (Z.of_nat total) Hw).
  cbn [default from_option id]. f_equal. rewrite <- list_fmap_compose. unfold clients_of.
  rewrite <- (Nat.add_0_r (Z.to_nat (lc_client_offset c))), <- fmap_add_seq, <- list_fmap_compose.
  apply list_fmap_ext. intros i k Hk. unfold compose, session_numbers, connection_ids.
  cbn [session_new sp_session ld_next_id ld_client_index ld_total_clients ld_workload_policy ld_requests].
  rewrite Hr, Hd, Hs, Ht. destruct Hw as (Ho & _).
  replace (Z.of_nat (Z.to_nat (lc_client_offset c) + k)) with (lc_client_offset c + Z.of_nat k) by lia.
  reflexivity.
Qed.

(** C20: the processes of a disjoint load, each started with its own offset, ask
    together for every number from the first on, each exactly once, whenever
    every client is run by exactly one of them. *)
Theorem processes_cover_workload (start_id : Z) (clients total : nat) (cs : list LoadConfig) :
  (0 < clients)%nat -> Forall (process_of start_id clients total) cs ->
  concat (clients_of <$> cs) ≡ₚ seq 0 clients ->
  concat (numbers_of <$> cs) ≡ₚ (fun k => wrapping_add start_id (Z.of_nat k)) <$> seq 0 total.
Proof.
  intros Hn Hcs Hp. rewrite <- (disjoint_numbers start_id total clients Hn).
  assert (concat (numbers_of <$> cs) = concat (clients_of <$> cs) ≫= connection_ids start_id total clients) as ->.
  { clear Hp. induction Hcs as [|c cs Hc _ IH]; [done|]. rewrite !fmap_cons. cbn [concat].
    rewrite bind_app, <- IH, (process_numbers start_id clients total c Hc). f_equal.
    generalize (clients_of c). induction l as [|i l IHl]; [done|]. rewrite fmap_cons. cbn [concat mbind list_bind].
    by rewrite IHl. }
  rewrite Hp. generalize (seq 0 clients). induction l as [|i l IHl]; [done|].
  rewrite fmap_cons. cbn [concat mbind list_bind]. by rewrite IHl.
Qed.

(** ** The outcomes of the sessions *)

(** A histogram nothing has been recorded in. *)
Definition fresh (h : LatencyHistogram) : Prop :=
  histogram_ok h /\ lh_bins h = replicate (length (lh_bins h)) 0 /\ lh_samples h = 0 /\ lh_overflow h = 0.

Lemma merge_bins_imap (f g : nat -> Z -> Z) (bins : list Z) :
  merge_bins (imap f bins) (imap g bins) = imap (fun i bin => u64_saturating_add (f i bin) (g i bin)) bins.
Proof.
  revert f g. induction bins as [|b bins IH]; intros f g; [done|]. rewrite !imap_cons. cbn [merge_bins]. by rewrite IH.
Qed.

Lemma merge_tallied h ds es :
  fresh h -> histogram_merge (tallied h ds) (tallied h es) = tallied h (ds ++ es).
Proof.
  intros ([Hp Hb Hs Ho] & Hz & Hs0 & Ho0). unfold histogram_merge, tallied.
  cbn [lh_precision lh_bins lh_samples lh_overflow]. rewrite Hs0, Ho0, length_app, merge_bins_imap, tally_past_app.
  f_equal; [|unfold u64_saturating_add; lia|unfold u64_saturating_add, tally_past; lia].
  apply imap_ext. intros i b Hi. rewrite Hz in Hi. apply lookup_replicate in Hi as [-> _].
  rewrite tally_app. unfold u64_saturating_add, tally. lia.
Qed.

Definition total_of (f : LoadSessionOutcome -> Z) (os : list LoadSessionOutcome) : Z := foldr Z.add 0 (f <$> os).
Definition longest_of (f : LoadSessionOutcome -> Z) (os : list LoadSessionOutcome) : Z := foldr Z.max 0 (f <$> os).

(** What a histogram of the lifecycle is: that of all delays together. *)
Definition gathers (h : LatencyHistogram) (merged : option LatencyHistogram) (ds : list (list Z)) : Prop :=
  merged = match ds with [] => None | _ => Some (record_all h (concat ds)) end.

Record lifecycle_of (h : LatencyHistogram) (os : list LoadSessionOutcome) (latencies delays : list (list Z))
    (l : LoadSessionOutcome) : Prop := {
  lf_setup : lo_setup_elapsed l = longest_of lo_setup_elapsed os;
  lf_measurement : lo_measurement_elapsed l = longest_of lo_measurement_elapsed os;
  lf_drain : lo_drain_elapsed l = longest_of lo_drain_elapsed os;
  lf_timed_out : lo_timed_out_connections l = total_of lo_timed_out_connections os;
  lf_drained : lo_drained_requests l = total_of lo_drained_requests os;
  lf_incomplete : lo_incomplete_requests l = total_of lo_incomplete_requests os;
  lf_scheduled : lo_scheduled_requests l = total_of lo_scheduled_requests os;
  lf_issued : lo_issued_requests l = total_of lo_issued_requests os;
  lf_completed : lo_completed_requests l = total_of lo_completed_requests os;
  lf_missed : lo_missed_issue_deadlines l = total_of lo_missed_issue_deadlines os;
  lf_backlog : lo_peak_backlog l = longest_of lo_peak_backlog os;
  lf_latency : gathers h (lo_latency_histogram l) latencies;
  lf_delay : gathers h (lo_schedule_delay_histogram l) delays;
}.

(** The histograms of a session hold its own delays. *)
Definition recorded (h : LatencyHistogram) (o : option LatencyHistogram) (ds : list Z) : Prop :=
  o = Some (record_all h ds) /\ Forall (fun d => 0 <= d) ds.

Lemma gathers_merge h merged ds o d :
  fresh h -> Forall (Forall (fun d => 0 <= d)) ds -> gathers h merged ds -> recorded h o d ->
  gathers h (merge_histograms merged o) (ds ++ [d]).
Proof.
  intros Hf Hds -> [-> Hd]. unfold gathers. destruct ds as [|d0 ds]; cbn [app merge_histograms].
  - cbn [concat]. by rewrite app_nil_r.
  - assert (Forall (fun d => 0 <= d) (concat (d0 :: ds))) as Hc by (apply Forall_concat; done).
    change (d0 :: ds ++ [d]) with ((d0 :: ds) ++ [d]). rewrite concat_app. cbn [concat] in *. rewrite app_nil_r.
    rewrite !record_all_tallied by (try apply Hf; try done; by apply Forall_app).
    by rewrite merge_tallied.
Qed.

Lemma total_of_snoc f os o : total_of f (os ++ [o]) = total_of f os + f o.
Proof. unfold total_of. induction os as [|o' os IH]; cbn in *; lia. Qed.

Lemma longest_of_snoc f os o : 0 <= f o -> longest_of f (os ++ [o]) = Z.max (longest_of f os) (f o).
Proof. unfold longest_of. intros Ho. induction os as [|o' os IH]; cbn in *; lia. Qed.

Definition elapsed_ok (o : LoadSessionOutcome) : Prop :=
  0 <= lo_setup_elapsed o /\ 0 <= lo_measurement_elapsed o /\ 0 <= lo_drain_elapsed o /\ 0 <= lo_peak_backlog o.

Lemma lifecycle_merge h os latencies delays l o latency delay :
  fresh h -> Forall (Forall (fun d => 0 <= d)) latencies -> Forall (Forall (fun d => 0 <= d)) delays ->
  elapsed_ok o -> recorded h (lo_latency_histogram o) latency -> recorded h (lo_schedule_delay_histogram o) delay ->
  lifecycle_of h os latencies delays l ->
  lifecycle_of h (os ++ [o]) (latencies ++ [latency]) (delays ++ [delay]) (outcome_merge l o).
Proof.
  intros Hf Hls Hds (Hs & Hm & Hd & Hb) Hl Hd' [].
  split; cbn [outcome_merge lo_setup_elapsed lo_measurement_elapsed lo_drain_elapsed lo_timed_out_connections
    lo_drained_requests lo_incomplete_requests lo_scheduled_requests lo_issued_requests lo_completed_requests
    lo_missed_issue_deadlines lo_peak_backlog lo_latency_histogram lo_schedule_delay_histogram];
    rewrite ?total_of_snoc, ?longest_of_snoc by done; try congruence; by apply gathers_merge.
Qed.

Lemma join_lifecycle h os latencies delays :
  fresh h -> Forall elapsed_ok os ->
  Forall2 (fun o => recorded h (lo_latency_histogram o)) os latencies ->
  Forall2 (fun o => recorded h (lo_schedule_delay_histogram o)) os delays ->
  forall l0 os0 ls0 ds0,
  Forall (Forall (fun d => 0 <= d)) ls0 -> Forall (Forall (fun d => 0 <= d)) ds0 -> lifecycle_of h os0 ls0 ds0 l0 ->
  exists l, join_sessions (JoinedSession ∘ Ok <$> os) l0 = Ok l
    /\ lifecycle_of h (os0 ++ os) (ls0 ++ latencies) (ds0 ++ delays) l.
Proof.
  intros Hf He Hl. revert He delays.
  induction Hl as [|o latency os latencies Ho _ IH]; intros He delays Hd l0 os0 ls0 ds0 Hls Hds H0.
  { inversion_clear Hd. exists l0. by rewrite !app_nil_r. }
  inversion_clear Hd as [|? delay ? delays' Hdo Hd']. apply Forall_cons_1 in He as [Heo He].
  rewrite fmap_cons. cbn [join_sessions compose].
  destruct (IH He delays' Hd' (outcome_merge l0 o) (os0 ++ [o]) (ls0 ++ [latency]) (ds0 ++ [delay])) as (l & Hj & Hlf).
  - apply Forall_app. split; [done|]. apply List.Forall_cons; [apply Ho|constructor].
  - apply Forall_app. split; [done|]. apply List.Forall_cons; [apply Hdo|constructor].
  - by apply lifecycle_merge.
  - exists l. rewrite <- !app_assoc in Hlf. done.
Qed.

(** The lifecycle of a load is its sessions together, in whatever order they
    end: the phases as long as the longest, the counts added up, and histograms
    that hold the delays of all sessions as if one had recorded them; and the
    first session that fails is the failure of the load, whatever else ends. *)
Theorem lifecycle_counts_every_session (h : LatencyHistogram) (os : list LoadSessionOutcome)
    (latencies delays : list (list Z)) (err : IoError) (rest : list Joined) :
  fresh h -> Forall elapsed_ok os ->
  Forall2 (fun o => recorded h (lo_latency_histogram o)) os latencies ->
  Forall2 (fun o => recorded h (lo_schedule_delay_histogram o)) os delays ->
  (exists lifecycle, join_sessions (JoinedSession ∘ Ok <$> os) outcome_default = Ok lifecycle
     /\ lifecycle_of h os latencies delays lifecycle)
  /\ join_sessions ((JoinedSession ∘ Ok <$> os) ++ JoinedSession (Err err) :: rest) outcome_default = Err err
  /\ join_sessions ((JoinedSession ∘ Ok <$> os) ++ JoinFailed err :: rest) outcome_default = Err err.
Proof.
  intros Hf He Hl Hd.
  assert (lifecycle_of h [] [] [] outcome_default) as H0 by (by split).
  split; [|split].
  - apply (join_lifecycle h os latencies delays Hf He Hl Hd _ [] [] []); [constructor..|done].
  - generalize outcome_default. clear. induction os as [|o os IH]; intros l; [done|]. apply IH.
  - generalize outcome_default. clear. induction os as [|o os IH]; intros l; [done|]. apply IH.
Qed.
