(* ===== verification/LoadIdentity.v ===== *)
(** * The identity of a workload

    What [workload_identity] hashes is an injective encoding of the work: two
    configurations hash the same bytes exactly when they ask for the same
    requests. *)
From Stdlib Require Import Floats.SpecFloat.
From S2P Require Import Prelude Utf8 Memchr Args RequestWire ClientWire ServerPayload ArticleStore ServerStore Float64.
From S2P Require Import LoadSchedule LoadWorkload SegmentFile LoadSession LoadRuns FetchCommand LoadConfig.
From S2P Require Import LoadProcesses.

Local Open Scope Z_scope.
Local Open Scope rust_scope.

(** ** Little-endian integers *)

Lemma to_le_bytes_S n v : to_le_bytes (S n) v = v mod 256 :: to_le_bytes n (v / 256).
Proof.
  unfold to_le_bytes. cbn [seq fmap list_fmap]. f_equal.
  - change (8 * Z.of_nat 0) with 0. by rewrite Z.div_1_r.
  - rewrite <- fmap_S_seq, <- list_fmap_compose. apply list_fmap_ext. intros i k _. unfold compose.
    rewrite Z.div_div by lia. f_equal. f_equal. rewrite <- (Z.pow_add_r 2 8) by lia. f_equal. lia.
Qed.

Lemma to_le_bytes_length n v : length (to_le_bytes n v) = n.
Proof. unfold to_le_bytes. by rewrite length_fmap, length_seq. Qed.

Lemma to_le_bytes_inj n v w :
  0 <= v < 256 ^ Z.of_nat n -> 0 <= w < 256 ^ Z.of_nat n -> to_le_bytes n v = to_le_bytes n w -> v = w.
Proof.
  revert v w. induction n as [|n IH]; intros v w Hv Hw E; [change (256 ^ Z.of_nat 0) with 1 in *; lia|].
  rewrite !to_le_bytes_S in E. injection E as Em Ed.
  rewrite Nat2Z.inj_succ, Z.pow_succ_r in Hv, Hw by lia.
  assert (v / 256 = w / 256) as Eq.
  { apply IH; [| |done]; (split; [apply Z.div_pos; lia|apply Z.div_lt_upper_bound; lia]). }
  rewrite (Z.div_mod v 256), (Z.div_mod w 256), Em, Eq by lia. done.
Qed.

Lemma le_bytes_8_inj v w :
  0 <= v <= u64_max -> 0 <= w <= u64_max -> to_le_bytes 8 v = to_le_bytes 8 w -> v = w.
Proof.
  intros Hv Hw. unfold u64_max in *. apply to_le_bytes_inj; change (256 ^ Z.of_nat 8) with 18446744073709551616; lia.
Qed.

(** ** The bits of a float *)

(** A float in its canonical form. *)
Definition f64_ok (x : f64) : Prop :=
  match x with
  | S754_finite _ m e =>
      (Zpos m < 2 ^ 52 /\ e = -1074) \/ (2 ^ 52 <= Zpos m < 2 ^ 53 /\ -1074 <= e <= 971)
  | _ => True
  end.

Lemma f64_bits_range x : f64_ok x -> 0 <= f64_to_bits x <= u64_max.
Proof.
  unfold f64_ok, f64_to_bits, u64_max. destruct x as [s|s| |s m e]; try (destruct s; lia); [lia|].
  intros Hx. destruct (Z.ltb_spec (Zpos m) (2 ^ 52)); destruct s; lia.
Qed.

Lemma f64_bits_inj x y : f64_ok x -> f64_ok y -> f64_to_bits x = f64_to_bits y -> x = y.
Proof.
  unfold f64_ok, f64_to_bits.
  destruct x as [s|s| |s m e], y as [t|t| |t n f]; intros Hx Hy;
    repeat match goal with |- context [Zpos ?a <? 2 ^ 52] => destruct (Z.ltb_spec (Zpos a) (2 ^ 52)) end;
    try destruct s; try destruct t; intros E; try reflexivity; try (exfalso; lia).
  all: assert (m = n /\ e = f) as [-> ->] by lia; reflexivity.
Qed.

(** ** Fields *)

Definition field (f : Z * bytes) : bytes := f.1 :: to_le_bytes 8 (Z.of_nat (length f.2)) ++ f.2.

Definition field_ok (f : Z * bytes) : Prop := Z.of_nat (length f.2) <= u64_max.

Lemma cons_inj {A} (x y : A) l k : x :: l = y :: k -> x = y /\ l = k.
Proof. by injection 1. Qed.

Lemma field_inj f g l k : field_ok f -> field_ok g -> field f ++ l = field g ++ k -> f = g /\ l = k.
Proof.
  unfold field, field_ok. destruct f as [t v], g as [t' v']. cbn [fst snd app]. intros Hf Hg E.
  apply cons_inj in E as [<- E].
  rewrite <- !app_assoc in E. apply app_inj_1 in E as [El E]; [|by rewrite !to_le_bytes_length].
  apply le_bytes_8_inj in El; [|unfold u64_max in *; lia..]. apply Nat2Z.inj in El.
  by apply app_inj_1 in E as [-> ->].
Qed.

Lemma fields_inj fs gs :
  Forall field_ok fs -> Forall field_ok gs -> concat (field <$> fs) = concat (field <$> gs) -> fs = gs.
Proof.
  intros Hf. revert gs. induction Hf as [|f fs Hf _ IH]; intros gs Hg E.
  - destruct gs; [done|discriminate E].
  - destruct Hg as [|g gs Hg Hgs]; [discriminate E|]. rewrite !fmap_cons in E. cbn [concat] in E.
    apply field_inj in E as [-> E]; [|done..]. f_equal. by apply IH.
Qed.

(** The fields that are hashed. *)
Definition segment_fields (s : SegmentSet) : list (Z * bytes) :=
  concat (zip_with (fun id size => [(12, to_le_bytes 8 size); (13, id)]) (seg_ids s) (seg_declared_sizes s)).

(** The fields behind the offered rate. *)
Definition late_fields (c : LoadConfig) : list (Z * bytes) :=
  [(5, to_le_bytes 8 (lc_connections c)); (6, to_le_bytes 8 (lc_client_offset c));
   (7, to_le_bytes 8 (lc_total_clients c)); (8, to_le_bytes 8 (Z.of_nat (lc_pipeline_depth c)));
   (9, [mix_tag (lc_command_mix c)]); (10, to_le_bytes 8 (lc_start_id c));
   (11, [policy_tag (lc_workload_policy c)])]
  ++ match lc_segments c with Some s => segment_fields s | None => [] end.

Definition workload_fields (c : LoadConfig) : list (Z * bytes) :=
  [(0, to_le_bytes 8 (default 0 (lc_requests c))); (1, to_le_bytes 8 (lc_transfer_bytes c));
   (2, to_le_bytes 16 (lc_duration c))]
  ++ match lc_offered_rate c with
     | Some rate => [(3, [1]); (4, to_le_bytes 8 (f64_to_bits rate))]
     | None => [(3, [0])]
     end
  ++ late_fields c.

Lemma update_field hasher tag value : update_workload_identity hasher tag value = hasher ++ field (tag, value).
Proof. done. Qed.

Lemma update_segments_fields hasher ids sizes ids0 sizes0 :
  length ids0 = length sizes0 -> length ids = length sizes ->
  update_segments hasher {| seg_ids := ids0 ++ ids; seg_declared_sizes := sizes0 ++ sizes |} (length ids0) ids
  = Some (hasher ++ concat (field <$> concat (zip_with (fun id size => [(12, to_le_bytes 8 size); (13, id)]) ids sizes))).
Proof.
  revert hasher sizes ids0 sizes0. induction ids as [|id ids IH]; intros hasher sizes ids0 sizes0 H0 H.
  { destruct sizes; [|done]. cbn [update_segments zip_with concat fmap list_fmap]. by rewrite app_nil_r. }
  destruct sizes as [|size sizes]; [done|]. cbn [update_segments zip_with concat].
  unfold declared_size. cbn [seg_declared_sizes]. rewrite H0, list_lookup_middle by done. cbn [mbind option_bind].
  rewrite !update_field.
  change (id :: ids) with ([id] ++ ids). change (size :: sizes) with ([size] ++ sizes). rewrite !app_assoc.
  rewrite <- H0. replace (S (length ids0)) with (length (ids0 ++ [id])) by (rewrite length_app; cbn; lia).
  rewrite IH; [|rewrite !length_app; cbn; lia|by injection H].
  f_equal. rewrite fmap_app, concat_app. cbn [fmap list_fmap concat]. by rewrite app_nil_r, <- !app_assoc.
Qed.

Lemma workload_bytes_fields c :
  match lc_segments c with Some s => length (seg_ids s) = length (seg_declared_sizes s) | None => True end ->
  workload_bytes c = Some (WORKLOAD_VERSION ++ concat (field <$> workload_fields c)).
Proof.
  intros Hs. unfold workload_bytes, workload_fields, late_fields.
  rewrite !fmap_app, !concat_app, !app_assoc.
  destruct (lc_offered_rate c) as [rate|]; destruct (lc_segments c) as [[ids sizes]|]; rewrite !update_field;
    cbn [seg_ids].
  1,3: rewrite (update_segments_fields _ ids sizes [] [] eq_refl Hs); f_equal; unfold segment_fields;
    cbn [seg_ids seg_declared_sizes fmap list_fmap concat]; rewrite ?app_nil_r, <- ?app_assoc; reflexivity.
  all: f_equal; cbn [fmap list_fmap concat]; rewrite ?app_nil_r, <- ?app_assoc; reflexivity.
Qed.

(** ** The work *)

(** The widths of the fields of a configuration. *)
Record config_width (c : LoadConfig) : Prop := {
  cw_requests : 0 <= default 0 (lc_requests c) <= u64_max;
  cw_transfer : 0 <= lc_transfer_bytes c <= u64_max;
  cw_duration : 0 <= lc_duration c <= DURATION_MAX;
  cw_rate : match lc_offered_rate c with Some rate => f64_ok rate | None => True end;
  cw_connections : lc_connections c <= u64_max;
  cw_offset : 0 <= lc_client_offset c <= u64_max;
  cw_total : lc_total_clients c <= u64_max;
  cw_start : 0 <= lc_start_id c <= u64_max;
}.

(** The same requests, sent at the same pace by as many connections. *)
Record same_work (c d : LoadConfig) : Prop := {
  sw_requests : lc_requests c = lc_requests d;
  sw_transfer : lc_transfer_bytes c = lc_transfer_bytes d;
  sw_duration : lc_duration c = lc_duration d;
  sw_rate : lc_offered_rate c = lc_offered_rate d;
  sw_connections : lc_connections c = lc_connections d;
  sw_offset : lc_client_offset c = lc_client_offset d;
  sw_total : lc_total_clients c = lc_total_clients d;
  sw_depth : lc_pipeline_depth c = lc_pipeline_depth d;
  sw_mix : lc_command_mix c = lc_command_mix d;
  sw_start : lc_start_id c = lc_start_id d;
  sw_policy : lc_workload_policy c = lc_workload_policy d;
  sw_segments : lc_segments c = lc_segments d;
}.

Lemma field_ok_le tag n v : (n <= 16)%nat -> field_ok (tag, to_le_bytes n v).
Proof. intros Hn. unfold field_ok, u64_max. cbn [snd]. rewrite to_le_bytes_length. lia. Qed.

Lemma segment_fields_ok s : segments_ok s -> Forall field_ok (segment_fields s).
Proof.
  destruct s as [ids sizes]. intros [Hids _ Hl]. cbn [seg_ids seg_declared_sizes] in *. unfold segment_fields.
  cbn [seg_ids seg_declared_sizes]. revert sizes Hl.
  induction Hids as [|id ids Hid _ IH]; intros [|size sizes] Hl; try done.
  cbn [zip_with concat app]. repeat apply List.Forall_cons; [apply field_ok_le; lia| |apply IH; by injection Hl].
  destruct Hid as (inner & -> & Hlen & _). unfold field_ok, u64_max. cbn [snd]. rewrite !length_app. cbn. lia.
Qed.

Lemma segment_fields_inj s t :
  segments_ok s -> segments_ok t -> segment_fields s = segment_fields t -> s = t.
Proof.
  destruct s as [ids sizes], t as [ids' sizes']. intros [_ Hs Hl] [_ Ht Hl'].
  unfold segment_fields. cbn [seg_ids seg_declared_sizes] in *. intros E.
  enough (ids = ids' /\ sizes = sizes') as [-> ->] by done.
  revert sizes ids' sizes' Hl Hl' Hs Ht E. induction ids as [|id ids IH]; intros [|size sizes] [|id' ids'] [|size' sizes'];
    try done; intros Hl Hl' Hs Ht E.
  cbn [zip_with concat app] in E. apply cons_inj in E as [E1 E]. apply cons_inj in E as [E2 E].
  apply Forall_cons_1 in Hs as [Hsz Hs]. apply Forall_cons_1 in Ht as [Htz Ht].
  assert (size = size') as -> by (apply le_bytes_8_inj; [done..|congruence]).
  assert (id = id') as -> by congruence.
  destruct (IH sizes ids' sizes' ltac:(by injection Hl) ltac:(by injection Hl') Hs Ht E) as [-> ->]. done.
Qed.

Lemma workload_fields_ok c : config_ok c -> Forall field_ok (workload_fields c).
Proof.
  intros Hc. unfold workload_fields, late_fields.
  assert (forall tag b, field_ok (tag, [b])) as Hb by (intros tag b; unfold field_ok, u64_max; cbn; lia).
  assert (Forall field_ok match lc_segments c with Some s => segment_fields s | None => [] end) as Hs.
  { pose proof (cg_segments _ Hc) as Hs. destruct (lc_segments c) as [s|]; [apply segment_fields_ok, Hs|constructor]. }
  repeat apply Forall_app_2; [|destruct (lc_offered_rate c)| |exact Hs];
    repeat apply List.Forall_cons; try apply List.Forall_nil; try apply Hb; apply field_ok_le; lia.
Qed.

Lemma fields_same_work c d :
  config_ok c -> config_ok d -> config_width c -> config_width d ->
  workload_fields c = workload_fields d -> same_work c d.
Proof.
  intros Hc Hd [] [] E. unfold workload_fields in E. cbn [app] in E.
  apply cons_inj in E as [E0 E]. apply cons_inj in E as [E1 E]. apply cons_inj in E as [E2 E].
  assert (lc_offered_rate c = lc_offered_rate d /\ late_fields c = late_fields d) as [Erate E'].
  { destruct (lc_offered_rate c) as [r|], (lc_offered_rate d) as [r'|]; cbn [app] in E |- *.
    - apply cons_inj in E as [_ E]. apply cons_inj in E as [E4 E]. split; [|done]. f_equal.
      apply f64_bits_inj; [done..|]. apply le_bytes_8_inj; [by apply f64_bits_range..|]. congruence.
    - by apply cons_inj in E as [? _].
    - by apply cons_inj in E as [? _].
    - apply cons_inj in E as [_ E]. done. }
  clear E. unfold late_fields in E'. cbn [app] in E'.
  apply cons_inj in E' as [E5 E]. apply cons_inj in E as [E6 E]. apply cons_inj in E as [E7 E].
  apply cons_inj in E as [E8 E]. apply cons_inj in E as [E9 E]. apply cons_inj in E as [E10 E].
  apply cons_inj in E as [E11 E].
  assert (forall t v w, 0 <= v <= u64_max -> 0 <= w <= u64_max ->
            (t, to_le_bytes 8 v) = (t, to_le_bytes 8 w) :> Z * bytes -> v = w) as Hle.
  { intros t v w Hv Hw Ee. apply le_bytes_8_inj; [done..|congruence]. }
  pose proof (cg_connections _ Hc). pose proof (cg_connections _ Hd).
  pose proof (cg_total _ Hc). pose proof (cg_total _ Hd).
  split; try (by eapply Hle); try (eapply Hle; [..|eassumption]; lia).
  - assert (default 0 (lc_requests c) = default 0 (lc_requests d)) as Er by (by eapply Hle).
    pose proof (cg_requests _ Hc). pose proof (cg_requests _ Hd).
    destruct (lc_requests c), (lc_requests d); cbn in Er; congruence.
  - apply (to_le_bytes_inj 16); [| |congruence];
      change (256 ^ Z.of_nat 16) with 340282366920938463463374607431768211456;
      unfold DURATION_MAX, NANOS_PER_SEC, u64_max in *; lia.
  - done.
  - apply Nat2Z.inj. pose proof (cg_depth _ Hc). pose proof (cg_depth _ Hd).
    eapply Hle; [..|exact E8]; unfold u64_max; lia.
  - revert E9. destruct (lc_command_mix c), (lc_command_mix d); (reflexivity || discriminate).
  - revert E11. destruct (lc_workload_policy c), (lc_workload_policy d); (reflexivity || discriminate).
  - pose proof (cg_segments _ Hc) as Hsc. pose proof (cg_segments _ Hd) as Hsd.
    assert (forall s, segments_ok s /\ seg_ids s <> [] -> segment_fields s <> []) as Hne.
    { intros [[|id ids] [|size sizes]] [[_ _ Hl] Hi]; done. }
    destruct (lc_segments c) as [s|], (lc_segments d) as [t|]; [f_equal| | |done].
    + by apply segment_fields_inj; [apply Hsc|apply Hsd|].
    + by apply Hne in Hsc.
    + by apply Hne in Hsd.
Qed.

Lemma same_work_fields c d : same_work c d -> workload_fields c = workload_fields d.
Proof.
  intros [E1 E2 E3 E4 E5 E6 E7 E8 E9 E10 E11 E12].
  unfold workload_fields, late_fields. by rewrite E1, E2, E3, E4, E5, E6, E7, E8, E9, E10, E11, E12.
Qed.

(** C21: the identity printed with the results of a load names the work: two
    accepted configurations hash the same bytes exactly when they ask for the
    same requests at the same pace, and the digits are those of the digest. *)
Theorem workload_identity_names_work (md5 : bytes -> bytes) (c d : LoadConfig) :
  config_ok c -> config_ok d -> config_width c -> config_width d ->
  exists hc hd, workload_bytes c = Some hc /\ workload_bytes d = Some hd
    /\ (hc = hd <-> same_work c d)
    /\ (same_work c d -> workload_identity md5 c = workload_identity md5 d)
    /\ (Forall is_byte (md5 hc) -> Forall is_byte (md5 hd) ->
        workload_identity md5 c = workload_identity md5 d -> md5 hc = md5 hd).
Proof.
  intros Hc Hd Wc Wd.
  assert (forall c, config_ok c ->
            match lc_segments c with Some s => length (seg_ids s) = length (seg_declared_sizes s) | None => True end) as Hl.
  { intros c' Hc'. pose proof (cg_segments _ Hc') as Hs. destruct (lc_segments c'); [apply Hs|done]. }
  pose proof (workload_bytes_fields c (Hl c Hc)) as Ec. pose proof (workload_bytes_fields d (Hl d Hd)) as Ed.
  eexists _, _. split; [exact Ec|]. split; [exact Ed|].
  assert (WORKLOAD_VERSION ++ concat (field <$> workload_fields c) = WORKLOAD_VERSION ++ concat (field <$> workload_fields d)
          <-> same_work c d) as Hs.
  { split.
    - intros E%app_inv_head. apply fields_same_work; [done..|]. apply fields_inj; [by apply workload_fields_ok..|done].
    - intros E. by rewrite (same_work_fields c d E). }
  split; [exact Hs|]. unfold workload_identity. rewrite Ec, Ed. cbn [mbind option_bind]. split.
  - intros E%Hs. by rewrite E.
  - intros Uc Ud E. apply (inj Some), app_inv_head in E. by apply hex_lower_inj.
Qed.

(** * Load configurations, run *)

(** The command line of a process of a load of 7 requests by 3 clients. *)
Definition load_args (connections client_offset : Z) (rate : option f64) : FetchArgs :=
  {| fa_connect := {| sa_ip := lit "127.0.0.1"; sa_port := 119 |}; fa_request := None;
     fa_message_id := None; fa_article_body := None; fa_article_file := None; fa_capability := None;
     fa_session := None;
     fa_auth_value := None; fa_header := None; fa_group := None; fa_wildmat := None; fa_date := None;
     fa_time := None; fa_gmt := false; fa_selector := None; fa_threads := 1;
     fa_read_buffer_bytes := 1; fa_max_response_bytes := 4096; fa_pipeline_depth := 0;
     fa_ports := [1119; 1120]; fa_segments := None; fa_requests := 7; fa_transfer_bytes := 0;
     fa_duration_secs := 0; fa_setup_timeout_secs := 0; fa_drain_timeout_secs := 5;
     fa_offered_rate := rate; fa_latency_range_ms := 10; fa_latency_precision_us := 1000;
     fa_connections := connections; fa_client_offset := client_offset; fa_total_clients := 3;
     fa_command_mix := ClientCommandMix.Article; fa_start_id := 18446744073709551613;
     fa_workload_policy := LoadWorkloadPolicy.Disjoint;
     fa_verification_policy := LoadVerificationPolicy.None; fa_csv := false; fa_json := false;
     fa_stats_interval_secs := 0; fa_nodelay := true; fa_socket_recv_buffer := 0; fa_socket_send_buffer := 0 |}.

Definition no_files (path : bytes) : result File IoError :=
  Err {| io_kind := ErrorKind.NotFound; io_message := [] |}.

Definition load_config (connections client_offset : Z) (rate : option f64) : LoadConfig :=
  {| lc_connect := {| sa_ip := lit "127.0.0.1"; sa_port := 119 |}; lc_runtime_threads := 1;
     lc_ports := [1119; 1120]; lc_segments := None; lc_requests := Some 7; lc_transfer_bytes := 0;
     lc_duration := 0; lc_setup_timeout := 1000000000; lc_drain_timeout := 5000000000;
     lc_offered_rate := rate; lc_latency_range := 10000000; lc_latency_precision := 1000000;
     lc_connections := connections; lc_client_offset := client_offset; lc_total_clients := 3;
     lc_pipeline_depth := 1; lc_command_mix := ClientCommandMix.Article; lc_start_id := 18446744073709551613;
     lc_workload_policy := LoadWorkloadPolicy.Disjoint; lc_verification_policy := LoadVerificationPolicy.None;
     lc_read_buffer_bytes := 4; lc_max_response_bytes := 4096; lc_nodelay := true; lc_socket_recv_buffer := 0;
     lc_socket_send_buffer := 0; lc_csv := false; lc_json := false; lc_stats_interval := 0 |}.

Lemma load_args_config :
  from_args (Mc := naive_memchr) no_files (load_args 2 0 (Some (f64_of_int 1000)))
  = Ok (load_config 2 0 (Some (f64_of_int 1000)))
  /\ from_args (Mc := naive_memchr) no_files (load_args 1 2 None) = Ok (load_config 1 2 None)
  /\ from_args (Mc := naive_memchr) no_files (load_args 2 2 None) = Err too_many_clients.
Proof. split_and!; vm_compute; reflexivity. Qed.

Lemma load_config_checked_witness :
  config_ok (load_config 1 2 None) /\ args_conflict (load_args 2 2 None).
Proof.
  split.
  - pose proof (load_config_checked (Mc := naive_memchr) no_files (load_args 1 2 None)) as H.
    rewrite (proj1 (proj2 load_args_config)) in H. apply H. unfold u64_max. cbn. lia.
  - pose proof (load_config_checked (Mc := naive_memchr) no_files (load_args 2 2 None)) as H.
    rewrite (proj2 (proj2 load_args_config)) in H.
    destruct H as [[H _]|[_ H]]; [unfold u64_max; cbn; lia|exact H|].
    vm_compute in H. destruct H as (path & E & _). discriminate E.
Defined.

Lemma load_config_ok connections client_offset rate :
  1 <= connections -> client_offset + connections <= 3 -> config_ok (load_config connections client_offset rate).
Proof.
  intros H1 H2. split; cbn [load_config lc_connections lc_total_clients lc_pipeline_depth lc_read_buffer_bytes
    lc_max_response_bytes lc_setup_timeout lc_drain_timeout lc_requests lc_csv lc_json lc_latency_range
    lc_latency_precision lc_client_offset lc_workload_policy lc_segments]; try done; try lia; try discriminate.
  all: try (split; discriminate). eexists. vm_compute. reflexivity.
Qed.

Lemma accepted_sessions_run_witness :
  exists sessions, spawn_sessions (load_config 2 0 (Some (f64_of_int 1000))) = Some sessions
    /\ forall i spawned, sessions !! i = Some spawned -> offer_ok (sp_session spawned).
Proof.
  destruct (accepted_sessions_run (load_config 2 0 (Some (f64_of_int 1000))) 7) as (sessions & E & _ & H).
  - apply load_config_ok; lia.
  - reflexivity.
  - unfold in_width, u64_max. cbn. lia.
  - exists sessions. split; [exact E|]. intros i spawned Hi. apply (H i spawned Hi).
    eexists. vm_compute. reflexivity.
Defined.

Lemma processes_cover_workload_witness :
  numbers_of (load_config 2 0 None) ++ numbers_of (load_config 1 2 None)
  ≡ₚ [18446744073709551613; 18446744073709551614; 18446744073709551615; 0; 1; 2; 3].
Proof.
  assert (Forall (process_of 18446744073709551613 3 7) [load_config 2 0 None; load_config 1 2 None]) as Hcs.
  { repeat apply List.Forall_cons; [| |constructor]; (split; [apply load_config_ok; lia|]);
      (split; [unfold in_width, u64_max; cbn; lia|]); by split_and!. }
  pose proof (processes_cover_workload 18446744073709551613 3 7 _ ltac:(lia) Hcs ltac:(reflexivity)) as H.
  cbn [fmap list_fmap concat] in H. rewrite app_nil_r in H. exact H.
Defined.

(** The outcomes of two sessions of an offered load. *)
Definition sample_outcome (setup completed : Z) (latencies delays : list Z) : LoadSessionOutcome :=
  let h := {| lh_precision := 1000000; lh_bins := replicate 10 0; lh_samples := 0; lh_overflow := 0 |} in
  {| lo_setup_elapsed := setup; lo_measurement_elapsed := 5000000; lo_drain_elapsed := 0;
     lo_timed_out_connections := 0; lo_drained_requests := 0; lo_incomplete_requests := 0;
     lo_scheduled_requests := completed; lo_issued_requests := completed; lo_completed_requests := completed;
     lo_missed_issue_deadlines := 0; lo_peak_backlog := 1;
     lo_latency_histogram := Some (record_all h latencies);
     lo_schedule_delay_histogram := Some (record_all h delays) |}.

Lemma lifecycle_counts_every_session_witness :
  exists lifecycle,
    join_sessions (JoinedSession ∘ Ok <$> [sample_outcome 7 2 [1500000; 20000000] [0; 1]; sample_outcome 9 1 [900] [5000000]])
      outcome_default = Ok lifecycle
    /\ lo_setup_elapsed lifecycle = 9 /\ lo_completed_requests lifecycle = 3
    /\ option_map lh_bins (lo_latency_histogram lifecycle) = Some [1; 1; 0; 0; 0; 0; 0; 0; 0; 0].
Proof.
  set (h := {| lh_precision := 1000000; lh_bins := replicate 10 0; lh_samples := 0; lh_overflow := 0 |}).
  set (os := [sample_outcome 7 2 [1500000; 20000000] [0; 1]; sample_outcome 9 1 [900] [5000000]]).
  assert (Forall (fun d : Z => 0 <= d) [1500000; 20000000] /\ Forall (fun d : Z => 0 <= d) [900]
          /\ Forall (fun d : Z => 0 <= d) [0; 1] /\ Forall (fun d : Z => 0 <= d) [5000000]) as (H1 & H2 & H3 & H4).
  { split_and!; repeat apply List.Forall_cons; try apply List.Forall_nil; lia. }
  destruct (lifecycle_counts_every_session h os [[1500000; 20000000]; [900]] [[0; 1]; [5000000]] no_response_bytes [])
    as ((l & E & Hl) & _).
  - split; [|done]. split; cbn; try (unfold u64_max; lia). repeat apply List.Forall_cons; try apply List.Forall_nil;
      unfold u64_max; lia.
  - repeat apply List.Forall_cons; try apply List.Forall_nil; unfold elapsed_ok; cbn; lia.
  - by repeat constructor.
  - by repeat constructor.
  - exists l. split; [exact E|]. destruct Hl as [Es _ _ _ _ _ _ _ Ec _ _ El _].
    split; [rewrite Es; reflexivity|]. split; [rewrite Ec; reflexivity|]. rewrite El. vm_compute. reflexivity.
Defined.

(** The digest is the length of what is hashed, which suffices here. *)
Lemma workload_identity_names_work_witness :
  exists hc hd, workload_bytes (load_config 2 0 None) = Some hc
    /\ workload_bytes (load_config 2 0 (Some (f64_of_int 1000))) = Some hd /\ hc <> hd.
Proof.
  assert (forall rate, (match rate with Some r => f64_ok r | None => True end) -> config_width (load_config 2 0 rate)) as Hw.
  { intros rate Hr. split; cbn [load_config lc_requests lc_transfer_bytes lc_duration lc_offered_rate lc_connections
      lc_client_offset lc_total_clients lc_start_id default from_option id]; try done; unfold u64_max, DURATION_MAX, NANOS_PER_SEC; lia. }
  destruct (workload_identity_names_work (fun hashed => [Z.of_nat (length hashed)]) (load_config 2 0 None)
              (load_config 2 0 (Some (f64_of_int 1000)))) as (hc & hd & Ec & Ed & H & _).
  - apply load_config_ok; lia.
  - apply load_config_ok; lia.
  - by apply Hw.
  - apply Hw. vm_compute. right. split; [split; discriminate + reflexivity|split; discriminate].
  - exists hc, hd. split; [exact Ec|]. split; [exact Ed|]. intros E. apply H in E. destruct E as [_ _ _ E _ _ _ _ _ _ _ _].
    discriminate E.
Defined.
