(* ===== verification/ClientMethods.v ===== *)
(** * The methods of the client ([src/src/client.rs])

    One method per request, twice: [ClientConnection] takes validated arguments,
    [Client] takes strings and validates them, and its article methods return
    articles.  Each has an [_exchange] twin that returns the request with the
    response.  The connection itself is an interface: what becomes of a call
    queued on it is the subject of [ClientEngine]. *)
From S2P Require Import Prelude Memchr Args Kinds Requests RequestWire Capabilities ResponseBody Article OwnedResponse.
From S2P Require Import ClientWire ClientEngine FetchCommand.

Local Open Scope Z_scope.
Local Open Scope rust_scope.

Local Abbreviation error := (client_error IoError).

(** ** A connection as its caller sees it *)

(** What the engine answers a queued request with; [None] is the end of the
    engine without an answer. *)
Definition Reply : Type := option (result (Request.Request * OwnedResponse) SharedEngineError).

(** [conn_call] queues a call ([enqueue_request], or [send_request] for the
    probe) and awaits its reply; the other two read shared cells. *)
Class Connection (C : Type) : Type := {
  conn_call : Call -> C -> result Reply error * C;
  conn_poisoned : C -> option SharedEngineError;
  conn_capabilities : C -> option CapabilityList;
}.

(** A reply is to the request of the call. *)
Class ConnectionSpec (C : Type) `{Connection C} : Prop :=
  conn_call_own : forall call c request response c',
    conn_call call c = (Ok (Some (Ok (request, response))), c') -> request = s_request (sending_of call).

Definition ClientM (C A : Type) : Type := C -> result A error * C.

#[export] Instance ClientM_ret C : MRet (ClientM C) := fun A a c => (Ok a, c).
#[export] Instance ClientM_bind C : MBind (ClientM C) := fun A B k m c =>
  match m c with
  | (Ok a, c) => k a c
  | (Err e, c) => (Err e, c)
  end.

Definition try_client {C A} (r : result A error) : ClientM C A := fun c => (r, c).

(** ** Exchanges *)

Record OwnedExchange : Type := { ex_request : Request.Request; ex_response : OwnedResponse }.
Record OwnedArticleExchange : Type := { ax_request : Request.Request; ax_article : OwnedArticle }.

Definition exchange_into_parts (self : OwnedExchange) : Request.Request * OwnedResponse :=
  (ex_request self, ex_response self).
Definition article_exchange_into_parts (self : OwnedArticleExchange) : Request.Request * OwnedArticle :=
  (ax_request self, ax_article self).

Definition article_exchange_try_from `{Mc : !Memchr} (exchange : OwnedExchange) : result OwnedArticleExchange error :=
  let? article := into_article (ex_response exchange) in
  Ok {| ax_request := ex_request exchange; ax_article := article |}.

(** ** Queueing and receiving *)

Section connection.
Context {C : Type} `{!Connection C}.

Local Abbreviation M := (ClientM C).

(** What both [receive] methods do with the reply. *)
Definition completed_of (reply : Reply) : M (Request.Request * OwnedResponse) := fun c =>
  (match reply with
   | Some (Ok completed) => Ok completed
   | Some (Err e) => Err (client_error_from_shared e)
   | None =>
       Err match conn_poisoned c with
           | Some e => client_error_from_shared e
           | None => ClientError.ConnectionClosed
           end
   end, c).

Definition pending_response_receive (reply : Reply) : M OwnedResponse :=
  completed ← completed_of reply; mret (snd completed).

Definition pending_exchange_receive (reply : Reply) : M OwnedExchange :=
  completed ← completed_of reply;
  mret {| ex_request := fst completed; ex_response := snd completed |}.

Definition queue_request (request : Request.Request) : M Reply := conn_call (CallRequest request).

Definition ensure_capabilities_negotiated (kind : RequestKind) : M unit := fun c =>
  if negb (request_kind_requires_capabilities kind) then (Ok tt, c)
  else
    match conn_capabilities c with
    | Some _ => (Ok tt, c)
    | None =>
        (pending ← conn_call CallProbe;
         response ← pending_response_receive pending;
         if response_status response =? 101 then mret tt
         else try_client (Err ClientError.CapabilitiesUnavailable)) c
    end.

Definition queue_request_exchange (request : Request.Request) : M Reply :=
  let kind := Request.kind request in
  _ ← (if RequestKind.eqb kind RequestKind.Capabilities then mret tt else ensure_capabilities_negotiated kind);
  conn_call (CallRequest request).

(** Only [POST] and [IHAVE] are continued with an article. *)
Definition continuation_call (request : Request.Request) (article : bytes) : Call :=
  match request with
  | Request.Ihave message_id => CallIhave message_id article
  | _ => CallPost article
  end.

Definition queue_continuation (request : Request.Request) (article : bytes) : M OwnedResponse :=
  pending ← conn_call (continuation_call request article); pending_response_receive pending.

Definition queue_continuation_exchange (request : Request.Request) (article : bytes) : M OwnedExchange :=
  pending ← conn_call (continuation_call request article); pending_exchange_receive pending.
End connection.

(** ** The methods on validated arguments *)

Module ClientConnection.
Section methods.
Context {C : Type} `{!Connection C}.

Local Abbreviation M := (ClientM C).

Definition execute (request : Request.Request) : M OwnedResponse :=
  pending ← queue_request request; pending_response_receive pending.

Definition execute_exchange (request : Request.Request) : M OwnedExchange :=
  pending ← queue_request_exchange request; pending_exchange_receive pending.

Definition capability_state : M (option CapabilityList) := fun c => (Ok (conn_capabilities c), c).

Definition article (message_id : bytes) : M OwnedResponse :=
  execute (Request.Article (ArticleRef.MessageId message_id)).
Definition article_exchange (message_id : bytes) : M OwnedExchange :=
  execute_exchange (Request.Article (ArticleRef.MessageId message_id)).
Definition article_current : M OwnedResponse :=
  execute (Request.article_current).
Definition article_selector (selector : bytes) : M OwnedResponse :=
  request ← try_client (map_err (fun _ => ClientError.InvalidArticleSelector) (Request.article_selector selector));
  execute request.
Definition article_current_exchange : M OwnedExchange :=
  execute_exchange (Request.article_current).
Definition article_selector_exchange (selector : bytes) : M OwnedExchange :=
  request ← try_client (map_err (fun _ => ClientError.InvalidArticleSelector) (Request.article_selector selector));
  execute_exchange request.
Definition body (message_id : bytes) : M OwnedResponse :=
  execute (Request.Body (ArticleRef.MessageId message_id)).
Definition body_exchange (message_id : bytes) : M OwnedExchange :=
  execute_exchange (Request.Body (ArticleRef.MessageId message_id)).
Definition body_current : M OwnedResponse :=
  execute (Request.body_current).
Definition body_selector (selector : bytes) : M OwnedResponse :=
  request ← try_client (map_err (fun _ => ClientError.InvalidArticleSelector) (Request.body_selector selector));
  execute request.
Definition body_current_exchange : M OwnedExchange :=
  execute_exchange (Request.body_current).
Definition body_selector_exchange (selector : bytes) : M OwnedExchange :=
  request ← try_client (map_err (fun _ => ClientError.InvalidArticleSelector) (Request.body_selector selector));
  execute_exchange request.
Definition head (message_id : bytes) : M OwnedResponse :=
  execute (Request.Head (ArticleRef.MessageId message_id)).
Definition head_exchange (message_id : bytes) : M OwnedExchange :=
  execute_exchange (Request.Head (ArticleRef.MessageId message_id)).
Definition head_current : M OwnedResponse :=
  execute (Request.head_current).
Definition head_selector (selector : bytes) : M OwnedResponse :=
  request ← try_client (map_err (fun _ => ClientError.InvalidArticleSelector) (Request.head_selector selector));
  execute request.
Definition head_current_exchange : M OwnedExchange :=
  execute_exchange (Request.head_current).
Definition head_selector_exchange (selector : bytes) : M OwnedExchange :=
  request ← try_client (map_err (fun _ => ClientError.InvalidArticleSelector) (Request.head_selector selector));
  execute_exchange request.
Definition stat (message_id : bytes) : M OwnedResponse :=
  execute (Request.Stat (ArticleRef.MessageId message_id)).
Definition stat_exchange (message_id : bytes) : M OwnedExchange :=
  execute_exchange (Request.Stat (ArticleRef.MessageId message_id)).
Definition stat_current : M OwnedResponse :=
  execute (Request.stat_current).
Definition stat_selector (selector : bytes) : M OwnedResponse :=
  request ← try_client (map_err (fun _ => ClientError.InvalidArticleSelector) (Request.stat_selector selector));
  execute request.
Definition stat_current_exchange : M OwnedExchange :=
  execute_exchange (Request.stat_current).
Definition stat_selector_exchange (selector : bytes) : M OwnedExchange :=
  request ← try_client (map_err (fun _ => ClientError.InvalidArticleSelector) (Request.stat_selector selector));
  execute_exchange request.
Definition group (group : bytes) : M OwnedResponse :=
  execute (Request.Group group).
Definition group_exchange (group : bytes) : M OwnedExchange :=
  execute_exchange (Request.Group group).
Definition listgroup (group : bytes) : M OwnedResponse :=
  request ← try_client (map_err (fun _ => ClientError.InvalidGroupName) (Request.listgroup group));
  execute request.
Definition listgroup_current : M OwnedResponse :=
  execute (Request.listgroup_current).
Definition listgroup_group_range (group : bytes) (range : bytes) : M OwnedResponse :=
  request ← try_client (map_err from_range_or_group (Request.listgroup_group_range group range));
  execute request.
Definition listgroup_exchange (group : bytes) : M OwnedExchange :=
  request ← try_client (map_err (fun _ => ClientError.InvalidGroupName) (Request.listgroup group));
  execute_exchange request.
Definition listgroup_current_exchange : M OwnedExchange :=
  execute_exchange (Request.listgroup_current).
Definition listgroup_group_range_exchange (group : bytes) (range : bytes) : M OwnedExchange :=
  request ← try_client (map_err from_range_or_group (Request.listgroup_group_range group range));
  execute_exchange request.
Definition last : M OwnedResponse :=
  execute Request.Last.
Definition last_exchange : M OwnedExchange :=
  execute_exchange Request.Last.
Definition next : M OwnedResponse :=
  execute (Request.Next).
Definition next_exchange : M OwnedExchange :=
  execute_exchange (Request.Next).
Definition newgroups (date : bytes) (time : bytes) (gmt : bool) : M OwnedResponse :=
  execute (Request.NewGroups date time gmt).
Definition newgroups_exchange (date : bytes) (time : bytes) (gmt : bool) : M OwnedExchange :=
  execute_exchange (Request.NewGroups date time gmt).
Definition newnews (wildmat : bytes) (date : bytes) (time : bytes) (gmt : bool) : M OwnedResponse :=
  execute (Request.NewNews wildmat date time gmt).
Definition newnews_exchange (wildmat : bytes) (date : bytes) (time : bytes) (gmt : bool) : M OwnedExchange :=
  execute_exchange (Request.NewNews wildmat date time gmt).
Definition post : M OwnedResponse :=
  execute (Request.Post).
Definition post_exchange : M OwnedExchange :=
  execute_exchange (Request.Post).
Definition ihave (message_id : bytes) : M OwnedResponse :=
  execute (Request.Ihave message_id).
Definition ihave_exchange (message_id : bytes) : M OwnedExchange :=
  execute_exchange (Request.Ihave message_id).
Definition post_article (article : bytes) : M OwnedResponse :=
  queue_continuation (Request.Post) article.
Definition post_article_exchange (article : bytes) : M OwnedExchange :=
  queue_continuation_exchange (Request.Post) article.
Definition ihave_article (message_id : bytes) (article : bytes) : M OwnedResponse :=
  queue_continuation (Request.Ihave message_id) article.
Definition ihave_article_exchange (message_id : bytes) (article : bytes) : M OwnedExchange :=
  queue_continuation_exchange (Request.Ihave message_id) article.
Definition check (message_id : bytes) : M OwnedResponse :=
  execute (Request.Check message_id).
Definition check_exchange (message_id : bytes) : M OwnedExchange :=
  execute_exchange (Request.Check message_id).
Definition takethis (message_id : bytes) (article : bytes) : M OwnedResponse :=
  execute (Request.TakeThis message_id article).
Definition takethis_exchange (message_id : bytes) (article : bytes) : M OwnedExchange :=
  execute_exchange (Request.TakeThis message_id article).
Definition authinfo_user (value : bytes) : M OwnedResponse :=
  execute (Request.AuthInfo AuthInfoKind.User value).
Definition authinfo_user_exchange (value : bytes) : M OwnedExchange :=
  execute_exchange (Request.AuthInfo AuthInfoKind.User value).
Definition authinfo_pass (value : bytes) : M OwnedResponse :=
  execute (Request.AuthInfo AuthInfoKind.Pass value).
Definition authinfo_pass_exchange (value : bytes) : M OwnedExchange :=
  execute_exchange (Request.AuthInfo AuthInfoKind.Pass value).
Definition starttls : M OwnedResponse :=
  execute (Request.StartTls).
Definition starttls_exchange : M OwnedExchange :=
  execute_exchange (Request.StartTls).
Definition over (selector : bytes) : M OwnedResponse :=
  execute (Request.Over (Some selector)).
Definition over_current : M OwnedResponse :=
  execute (Request.Over None).
Definition over_exchange (selector : bytes) : M OwnedExchange :=
  execute_exchange (Request.Over (Some selector)).
Definition over_current_exchange : M OwnedExchange :=
  execute_exchange (Request.Over None).
Definition xover (selector : bytes) : M OwnedResponse :=
  execute (Request.Xover (Some selector)).
Definition xover_current : M OwnedResponse :=
  execute (Request.Xover None).
Definition xover_exchange (selector : bytes) : M OwnedExchange :=
  execute_exchange (Request.Xover (Some selector)).
Definition xover_current_exchange : M OwnedExchange :=
  execute_exchange (Request.Xover None).
Definition hdr (header : bytes) (selector : bytes) : M OwnedResponse :=
  execute (Request.Hdr header (Some selector)).
Definition hdr_current (header : bytes) : M OwnedResponse :=
  execute (Request.Hdr header None).
Definition hdr_exchange (header : bytes) (selector : bytes) : M OwnedExchange :=
  execute_exchange (Request.Hdr header (Some selector)).
Definition hdr_current_exchange (header : bytes) : M OwnedExchange :=
  execute_exchange (Request.Hdr header None).
Definition xhdr (header : bytes) (selector : bytes) : M OwnedResponse :=
  execute (Request.Xhdr header (Some selector)).
Definition xhdr_current (header : bytes) : M OwnedResponse :=
  execute (Request.Xhdr header None).
Definition xhdr_exchange (header : bytes) (selector : bytes) : M OwnedExchange :=
  execute_exchange (Request.Xhdr header (Some selector)).
Definition xhdr_current_exchange (header : bytes) : M OwnedExchange :=
  execute_exchange (Request.Xhdr header None).
Definition list : M OwnedResponse :=
  execute (Request.List).
Definition list_exchange : M OwnedExchange :=
  execute_exchange (Request.List).
Definition list_active : M OwnedResponse :=
  execute (Request.list_active).
Definition list_active_exchange : M OwnedExchange :=
  execute_exchange (Request.list_active).
Definition list_active_wildmat (wildmat : bytes) : M OwnedResponse :=
  execute (Request.ListVariant ListKind.Active (Some wildmat)).
Definition list_active_wildmat_exchange (wildmat : bytes) : M OwnedExchange :=
  execute_exchange (Request.ListVariant ListKind.Active (Some wildmat)).
Definition list_active_times : M OwnedResponse :=
  execute (Request.list_active_times).
Definition list_active_times_exchange : M OwnedExchange :=
  execute_exchange (Request.list_active_times).
Definition list_active_times_wildmat (wildmat : bytes) : M OwnedResponse :=
  execute (Request.ListVariant ListKind.ActiveTimes (Some wildmat)).
Definition list_active_times_wildmat_exchange (wildmat : bytes) : M OwnedExchange :=
  execute_exchange (Request.ListVariant ListKind.ActiveTimes (Some wildmat)).
Definition list_newsgroups : M OwnedResponse :=
  execute (Request.list_newsgroups).
Definition list_newsgroups_exchange : M OwnedExchange :=
  execute_exchange (Request.list_newsgroups).
Definition list_newsgroups_wildmat (wildmat : bytes) : M OwnedResponse :=
  execute (Request.ListVariant ListKind.Newsgroups (Some wildmat)).
Definition list_newsgroups_wildmat_exchange (wildmat : bytes) : M OwnedExchange :=
  execute_exchange (Request.ListVariant ListKind.Newsgroups (Some wildmat)).
Definition list_overview_fmt : M OwnedResponse :=
  execute (Request.list_overview_fmt).
Definition list_overview_fmt_exchange : M OwnedExchange :=
  execute_exchange (Request.list_overview_fmt).
Definition list_headers : M OwnedResponse :=
  execute (Request.list_headers).
Definition list_headers_exchange : M OwnedExchange :=
  execute_exchange (Request.list_headers).
Definition list_distrib_pats : M OwnedResponse :=
  execute (Request.list_distrib_pats).
Definition list_distrib_pats_exchange : M OwnedExchange :=
  execute_exchange (Request.list_distrib_pats).
Definition help : M OwnedResponse :=
  execute (Request.Help).
Definition help_exchange : M OwnedExchange :=
  execute_exchange (Request.Help).
Definition capabilities : M OwnedResponse :=
  execute (Request.capabilities).
Definition capabilities_exchange : M OwnedExchange :=
  execute_exchange (Request.capabilities).
Definition date : M OwnedResponse :=
  execute (Request.Date).
Definition date_exchange : M OwnedExchange :=
  execute_exchange (Request.Date).
Definition mode_reader : M OwnedResponse :=
  execute (Request.ModeReader).
Definition mode_reader_exchange : M OwnedExchange :=
  execute_exchange (Request.ModeReader).
Definition mode_stream : M OwnedResponse :=
  execute (Request.ModeStream).
Definition mode_stream_exchange : M OwnedExchange :=
  execute_exchange (Request.ModeStream).
Definition quit : M OwnedResponse :=
  execute (Request.Quit).
Definition quit_exchange : M OwnedExchange :=
  execute_exchange (Request.Quit).
End methods.
End ClientConnection.

(** ** The methods on strings *)

Module Client.
Section methods.
Context `{Mc : !Memchr} {C : Type} `{!Connection C}.

Local Abbreviation M := (ClientM C).

(** The client is its connection and what it validates of an article. *)
Variable article_validation : ArticleValidation.

Definition execute (request : Request.Request) : M OwnedArticle :=
  response ← ClientConnection.execute request;
  try_client (from_response response article_validation).

Definition execute_exchange (request : Request.Request) : M OwnedArticleExchange :=
  exchange ← ClientConnection.execute_exchange request;
  article ← try_client (from_response (ex_response exchange) article_validation);
  mret {| ax_request := ex_request exchange; ax_article := article |}.

Definition execute_raw (request : Request.Request) : M OwnedResponse := ClientConnection.execute request.

Definition execute_raw_exchange (request : Request.Request) : M OwnedExchange :=
  ClientConnection.execute_exchange request.

Definition capability_state : M (option CapabilityList) := ClientConnection.capability_state.

Definition article (message_id : bytes) : M OwnedArticle :=
  request ← try_client (map_err (fun _ => ClientError.InvalidMessageId) (Request.article message_id));
  execute request.
Definition article_current : M OwnedArticle :=
  execute (Request.article_current).
Definition article_selector (selector : bytes) : M OwnedArticle :=
  request ← try_client (map_err (fun _ => ClientError.InvalidArticleSelector) (Request.article_selector selector));
  execute request.
Definition article_exchange (message_id : bytes) : M OwnedArticleExchange :=
  request ← try_client (map_err (fun _ => ClientError.InvalidMessageId) (Request.article message_id));
  execute_exchange request.
Definition article_current_exchange : M OwnedArticleExchange :=
  execute_exchange (Request.article_current).
Definition article_selector_exchange (selector : bytes) : M OwnedArticleExchange :=
  request ← try_client (map_err (fun _ => ClientError.InvalidArticleSelector) (Request.article_selector selector));
  execute_exchange request.
Definition body (message_id : bytes) : M OwnedArticle :=
  request ← try_client (map_err (fun _ => ClientError.InvalidMessageId) (Request.body message_id));
  execute request.
Definition body_current : M OwnedArticle :=
  execute (Request.body_current).
Definition body_selector (selector : bytes) : M OwnedArticle :=
  request ← try_client (map_err (fun _ => ClientError.InvalidArticleSelector) (Request.body_selector selector));
  execute request.
Definition body_exchange (message_id : bytes) : M OwnedArticleExchange :=
  request ← try_client (map_err (fun _ => ClientError.InvalidMessageId) (Request.body message_id));
  execute_exchange request.
Definition body_current_exchange : M OwnedArticleExchange :=
  execute_exchange (Request.body_current).
Definition body_selector_exchange (selector : bytes) : M OwnedArticleExchange :=
  request ← try_client (map_err (fun _ => ClientError.InvalidArticleSelector) (Request.body_selector selector));
  execute_exchange request.
Definition head (message_id : bytes) : M OwnedArticle :=
  request ← try_client (map_err (fun _ => ClientError.InvalidMessageId) (Request.head message_id));
  execute request.
Definition head_current : M OwnedArticle :=
  execute (Request.head_current).
Definition head_selector (selector : bytes) : M OwnedArticle :=
  request ← try_client (map_err (fun _ => ClientError.InvalidArticleSelector) (Request.head_selector selector));
  execute request.
Definition head_exchange (message_id : bytes) : M OwnedArticleExchange :=
  request ← try_client (map_err (fun _ => ClientError.InvalidMessageId) (Request.head message_id));
  execute_exchange request.
Definition head_current_exchange : M OwnedArticleExchange :=
  execute_exchange (Request.head_current).
Definition head_selector_exchange (selector : bytes) : M OwnedArticleExchange :=
  request ← try_client (map_err (fun _ => ClientError.InvalidArticleSelector) (Request.head_selector selector));
  execute_exchange request.
Definition stat (message_id : bytes) : M OwnedArticle :=
  request ← try_client (map_err (fun _ => ClientError.InvalidMessageId) (Request.stat message_id));
  execute request.
Definition stat_current : M OwnedArticle :=
  execute (Request.stat_current).
Definition stat_selector (selector : bytes) : M OwnedArticle :=
  request ← try_client (map_err (fun _ => ClientError.InvalidArticleSelector) (Request.stat_selector selector));
  execute request.
Definition stat_exchange (message_id : bytes) : M OwnedArticleExchange :=
  request ← try_client (map_err (fun _ => ClientError.InvalidMessageId) (Request.stat message_id));
  execute_exchange request.
Definition stat_current_exchange : M OwnedArticleExchange :=
  execute_exchange (Request.stat_current).
Definition stat_selector_exchange (selector : bytes) : M OwnedArticleExchange :=
  request ← try_client (map_err (fun _ => ClientError.InvalidArticleSelector) (Request.stat_selector selector));
  execute_exchange request.
Definition group (group : bytes) : M OwnedResponse :=
  request ← try_client (map_err (fun _ => ClientError.InvalidGroupName) (Request.group group));
  execute_raw request.
Definition group_exchange (group : bytes) : M OwnedExchange :=
  request ← try_client (map_err (fun _ => ClientError.InvalidGroupName) (Request.group group));
  execute_raw_exchange request.
Definition listgroup (group : bytes) : M OwnedResponse :=
  request ← try_client (map_err (fun _ => ClientError.InvalidGroupName) (Request.listgroup group));
  execute_raw request.
Definition listgroup_current : M OwnedResponse :=
  execute_raw (Request.listgroup_current).
Definition listgroup_group_range (group : bytes) (range : bytes) : M OwnedResponse :=
  request ← try_client (map_err from_range_or_group (Request.listgroup_group_range group range));
  execute_raw request.
Definition listgroup_exchange (group : bytes) : M OwnedExchange :=
  request ← try_client (map_err (fun _ => ClientError.InvalidGroupName) (Request.listgroup group));
  execute_raw_exchange request.
Definition listgroup_current_exchange : M OwnedExchange :=
  execute_raw_exchange (Request.listgroup_current).
Definition listgroup_group_range_exchange (group : bytes) (range : bytes) : M OwnedExchange :=
  request ← try_client (map_err from_range_or_group (Request.listgroup_group_range group range));
  execute_raw_exchange request.
Definition last : M OwnedResponse :=
  execute_raw (Request.last).
Definition last_exchange : M OwnedExchange :=
  execute_raw_exchange (Request.last).
Definition next : M OwnedResponse :=
  execute_raw (Request.next).
Definition next_exchange : M OwnedExchange :=
  execute_raw_exchange (Request.next).
Definition newgroups (date : bytes) (time : bytes) (gmt : bool) : M OwnedResponse :=
  request ← try_client (map_err from_discovery (Request.newgroups date time gmt));
  execute_raw request.
Definition newgroups_exchange (date : bytes) (time : bytes) (gmt : bool) : M OwnedExchange :=
  request ← try_client (map_err from_discovery (Request.newgroups date time gmt));
  execute_raw_exchange request.
Definition newnews (wildmat : bytes) (date : bytes) (time : bytes) (gmt : bool) : M OwnedResponse :=
  request ← try_client (map_err from_discovery (Request.newnews wildmat date time gmt));
  execute_raw request.
Definition newnews_exchange (wildmat : bytes) (date : bytes) (time : bytes) (gmt : bool) : M OwnedExchange :=
  request ← try_client (map_err from_discovery (Request.newnews wildmat date time gmt));
  execute_raw_exchange request.
Definition post : M OwnedResponse :=
  execute_raw (Request.post).
Definition post_exchange : M OwnedExchange :=
  execute_raw_exchange (Request.post).
Definition ihave (message_id : bytes) : M OwnedResponse :=
  request ← try_client (map_err (fun _ => ClientError.InvalidMessageId) (Request.ihave message_id));
  execute_raw request.
Definition ihave_exchange (message_id : bytes) : M OwnedExchange :=
  request ← try_client (map_err (fun _ => ClientError.InvalidMessageId) (Request.ihave message_id));
  execute_raw_exchange request.
Definition post_article (article : bytes) : M OwnedResponse :=
  ClientConnection.post_article article.
Definition post_article_exchange (article : bytes) : M OwnedExchange :=
  ClientConnection.post_article_exchange article.
Definition ihave_article (message_id : bytes) (article : bytes) : M OwnedResponse :=
  request ← try_client (map_err (fun _ => ClientError.InvalidMessageId) (Request.ihave message_id));
  match request with
  | Request.Ihave message_id => ClientConnection.ihave_article message_id article
  | _ => try_client (Err ClientError.InvalidMessageId)
  end.
Definition ihave_article_exchange (message_id : bytes) (article : bytes) : M OwnedExchange :=
  request ← try_client (map_err (fun _ => ClientError.InvalidMessageId) (Request.ihave message_id));
  match request with
  | Request.Ihave message_id => ClientConnection.ihave_article_exchange message_id article
  | _ => try_client (Err ClientError.InvalidMessageId)
  end.
Definition check (message_id : bytes) : M OwnedResponse :=
  request ← try_client (map_err (fun _ => ClientError.InvalidMessageId) (Request.check message_id));
  execute_raw request.
Definition check_exchange (message_id : bytes) : M OwnedExchange :=
  request ← try_client (map_err (fun _ => ClientError.InvalidMessageId) (Request.check message_id));
  execute_raw_exchange request.
Definition takethis (message_id : bytes) (article : bytes) : M OwnedResponse :=
  request ← try_client (map_err (fun _ => ClientError.InvalidMessageId) (Request.takethis message_id article));
  execute_raw request.
Definition takethis_exchange (message_id : bytes) (article : bytes) : M OwnedExchange :=
  request ← try_client (map_err (fun _ => ClientError.InvalidMessageId) (Request.takethis message_id article));
  execute_raw_exchange request.
Definition authinfo_user (value : bytes) : M OwnedResponse :=
  request ← try_client (map_err (fun _ => ClientError.InvalidAuthInfoValue) (Request.authinfo_user value));
  execute_raw request.
Definition authinfo_user_bytes (value : bytes) : M OwnedResponse :=
  request ← try_client (map_err (fun _ => ClientError.InvalidAuthInfoValue) (Request.authinfo_user_bytes value));
  execute_raw request.
Definition authinfo_user_exchange (value : bytes) : M OwnedExchange :=
  request ← try_client (map_err (fun _ => ClientError.InvalidAuthInfoValue) (Request.authinfo_user value));
  execute_raw_exchange request.
Definition authinfo_user_bytes_exchange (value : bytes) : M OwnedExchange :=
  request ← try_client (map_err (fun _ => ClientError.InvalidAuthInfoValue) (Request.authinfo_user_bytes value));
  execute_raw_exchange request.
Definition authinfo_pass (value : bytes) : M OwnedResponse :=
  request ← try_client (map_err (fun _ => ClientError.InvalidAuthInfoValue) (Request.authinfo_pass value));
  execute_raw request.
Definition authinfo_pass_bytes (value : bytes) : M OwnedResponse :=
  request ← try_client (map_err (fun _ => ClientError.InvalidAuthInfoValue) (Request.authinfo_pass_bytes value));
  execute_raw request.
Definition authinfo_pass_exchange (value : bytes) : M OwnedExchange :=
  request ← try_client (map_err (fun _ => ClientError.InvalidAuthInfoValue) (Request.authinfo_pass value));
  execute_raw_exchange request.
Definition authinfo_pass_bytes_exchange (value : bytes) : M OwnedExchange :=
  request ← try_client (map_err (fun _ => ClientError.InvalidAuthInfoValue) (Request.authinfo_pass_bytes value));
  execute_raw_exchange request.
Definition starttls : M OwnedResponse :=
  execute_raw (Request.starttls).
Definition starttls_exchange : M OwnedExchange :=
  execute_raw_exchange (Request.starttls).
Definition over (selector : bytes) : M OwnedResponse :=
  request ← try_client (map_err (fun _ => ClientError.InvalidArticleSelector) (Request.over selector));
  execute_raw request.
Definition over_current : M OwnedResponse :=
  execute_raw (Request.over_current).
Definition over_exchange (selector : bytes) : M OwnedExchange :=
  request ← try_client (map_err (fun _ => ClientError.InvalidArticleSelector) (Request.over selector));
  execute_raw_exchange request.
Definition over_current_exchange : M OwnedExchange :=
  execute_raw_exchange (Request.over_current).
Definition xover (selector : bytes) : M OwnedResponse :=
  request ← try_client (map_err (fun _ => ClientError.InvalidArticleSelector) (Request.xover selector));
  execute_raw request.
Definition xover_current : M OwnedResponse :=
  execute_raw (Request.xover_current).
Definition xover_exchange (selector : bytes) : M OwnedExchange :=
  request ← try_client (map_err (fun _ => ClientError.InvalidArticleSelector) (Request.xover selector));
  execute_raw_exchange request.
Definition xover_current_exchange : M OwnedExchange :=
  execute_raw_exchange (Request.xover_current).
Definition hdr (header : bytes) (selector : bytes) : M OwnedResponse :=
  request ← try_client (map_err from_header_query (Request.hdr header selector));
  execute_raw request.
Definition hdr_current (header : bytes) : M OwnedResponse :=
  request ← try_client (map_err (fun _ => ClientError.InvalidHeaderName) (Request.hdr_current header));
  execute_raw request.
Definition hdr_exchange (header : bytes) (selector : bytes) : M OwnedExchange :=
  request ← try_client (map_err from_header_query (Request.hdr header selector));
  execute_raw_exchange request.
Definition hdr_current_exchange (header : bytes) : M OwnedExchange :=
  request ← try_client (map_err (fun _ => ClientError.InvalidHeaderName) (Request.hdr_current header));
  execute_raw_exchange request.
Definition xhdr (header : bytes) (selector : bytes) : M OwnedResponse :=
  request ← try_client (map_err from_header_query (Request.xhdr header selector));
  execute_raw request.
Definition xhdr_current (header : bytes) : M OwnedResponse :=
  request ← try_client (map_err (fun _ => ClientError.InvalidHeaderName) (Request.xhdr_current header));
  execute_raw request.
Definition xhdr_exchange (header : bytes) (selector : bytes) : M OwnedExchange :=
  request ← try_client (map_err from_header_query (Request.xhdr header selector));
  execute_raw_exchange request.
Definition xhdr_current_exchange (header : bytes) : M OwnedExchange :=
  request ← try_client (map_err (fun _ => ClientError.InvalidHeaderName) (Request.xhdr_current header));
  execute_raw_exchange request.
Definition list : M OwnedResponse :=
  execute_raw (Request.list).
Definition list_exchange : M OwnedExchange :=
  execute_raw_exchange (Request.list).
Definition list_active : M OwnedResponse :=
  execute_raw (Request.list_active).
Definition list_active_exchange : M OwnedExchange :=
  execute_raw_exchange (Request.list_active).
Definition list_active_wildmat (wildmat : bytes) : M OwnedResponse :=
  request ← try_client (map_err (fun _ => ClientError.InvalidWildmat) (Request.list_active_wildmat wildmat));
  execute_raw request.
Definition list_active_wildmat_exchange (wildmat : bytes) : M OwnedExchange :=
  request ← try_client (map_err (fun _ => ClientError.InvalidWildmat) (Request.list_active_wildmat wildmat));
  execute_raw_exchange request.
Definition list_active_times : M OwnedResponse :=
  execute_raw (Request.list_active_times).
Definition list_active_times_exchange : M OwnedExchange :=
  execute_raw_exchange (Request.list_active_times).
Definition list_active_times_wildmat (wildmat : bytes) : M OwnedResponse :=
  request ← try_client (map_err (fun _ => ClientError.InvalidWildmat) (Request.list_active_times_wildmat wildmat));
  execute_raw request.
Definition list_active_times_wildmat_exchange (wildmat : bytes) : M OwnedExchange :=
  request ← try_client (map_err (fun _ => ClientError.InvalidWildmat) (Request.list_active_times_wildmat wildmat));
  execute_raw_exchange request.
Definition list_newsgroups : M OwnedResponse :=
  execute_raw (Request.list_newsgroups).
Definition list_newsgroups_exchange : M OwnedExchange :=
  execute_raw_exchange (Request.list_newsgroups).
Definition list_newsgroups_wildmat (wildmat : bytes) : M OwnedResponse :=
  request ← try_client (map_err (fun _ => ClientError.InvalidWildmat) (Request.list_newsgroups_wildmat wildmat));
  execute_raw request.
Definition list_newsgroups_wildmat_exchange (wildmat : bytes) : M OwnedExchange :=
  request ← try_client (map_err (fun _ => ClientError.InvalidWildmat) (Request.list_newsgroups_wildmat wildmat));
  execute_raw_exchange request.
Definition list_overview_fmt : M OwnedResponse :=
  execute_raw (Request.list_overview_fmt).
Definition list_overview_fmt_exchange : M OwnedExchange :=
  execute_raw_exchange (Request.list_overview_fmt).
Definition list_headers : M OwnedResponse :=
  execute_raw (Request.list_headers).
Definition list_headers_exchange : M OwnedExchange :=
  execute_raw_exchange (Request.list_headers).
Definition list_distrib_pats : M OwnedResponse :=
  execute_raw (Request.list_distrib_pats).
Definition list_distrib_pats_exchange : M OwnedExchange :=
  execute_raw_exchange (Request.list_distrib_pats).
Definition help : M OwnedResponse :=
  execute_raw (Request.help).
Definition help_exchange : M OwnedExchange :=
  execute_raw_exchange (Request.help).
Definition capabilities : M OwnedResponse :=
  execute_raw (Request.capabilities).
Definition capabilities_exchange : M OwnedExchange :=
  execute_raw_exchange (Request.capabilities).
Definition date : M OwnedResponse :=
  execute_raw (Request.date).
Definition date_exchange : M OwnedExchange :=
  execute_raw_exchange (Request.date).
Definition mode_reader : M OwnedResponse :=
  execute_raw (Request.mode_reader).
Definition mode_reader_exchange : M OwnedExchange :=
  execute_raw_exchange (Request.mode_reader).
Definition mode_stream : M OwnedResponse :=
  execute_raw (Request.mode_stream).
Definition mode_stream_exchange : M OwnedExchange :=
  execute_raw_exchange (Request.mode_stream).
Definition quit : M OwnedResponse :=
  execute_raw (Request.quit).
Definition quit_exchange : M OwnedExchange :=
  execute_raw_exchange (Request.quit).
End methods.
End Client.
