(* ===== verification/ClientAsks.v ===== *)
(** * What the methods of the client ask for

    The methods of both layers as data, one constructor for a method and its
    [_exchange] twin: each sends one valid request of its kind or refuses its
    arguments before anything is sent, and the layer of strings is the layer of
    validated arguments behind the validation. *)
From S2P Require Import Prelude Utf8 Memchr Args Terminator Kinds Requests RequestWire Capabilities ResponseBody Article OwnedResponse.
From S2P Require Import ClientWire ClientEngine ServerStore Float64 LoadWorkload FetchCommand SessionScript SessionRoundtrip ClientMethods.

Local Open Scope Z_scope.
Local Open Scope rust_scope.

Local Abbreviation error := (client_error IoError).

(** ** The methods *)

Module ArticleAsk.
Inductive ArticleAsk : Type :=
| Article (message_id : bytes)
| ArticleCurrent
| ArticleSelector (selector : bytes)
| Body (message_id : bytes)
| BodyCurrent
| BodySelector (selector : bytes)
| Head (message_id : bytes)
| HeadCurrent
| HeadSelector (selector : bytes)
| Stat (message_id : bytes)
| StatCurrent
| StatSelector (selector : bytes).
End ArticleAsk.
Abbreviation ArticleAsk := ArticleAsk.ArticleAsk.

Module Ask.
Inductive Ask : Type :=
| Group (group : bytes)
| Listgroup (group : bytes)
| ListgroupCurrent
| ListgroupGroupRange (group : bytes) (range : bytes)
| Last
| Next
| Newgroups (date : bytes) (time : bytes) (gmt : bool)
| Newnews (wildmat : bytes) (date : bytes) (time : bytes) (gmt : bool)
| Post
| Ihave (message_id : bytes)
| PostArticle (article : bytes)
| IhaveArticle (message_id : bytes) (article : bytes)
| Check (message_id : bytes)
| Takethis (message_id : bytes) (article : bytes)
| AuthinfoUser (value : bytes)
| AuthinfoUserBytes (value : bytes)
| AuthinfoPass (value : bytes)
| AuthinfoPassBytes (value : bytes)
| Starttls
| Over (selector : bytes)
| OverCurrent
| Xover (selector : bytes)
| XoverCurrent
| Hdr (header : bytes) (selector : bytes)
| HdrCurrent (header : bytes)
| Xhdr (header : bytes) (selector : bytes)
| XhdrCurrent (header : bytes)
| List
| ListActive
| ListActiveWildmat (wildmat : bytes)
| ListActiveTimes
| ListActiveTimesWildmat (wildmat : bytes)
| ListNewsgroups
| ListNewsgroupsWildmat (wildmat : bytes)
| ListOverviewFmt
| ListHeaders
| ListDistribPats
| Help
| Capabilities
| Date
| ModeReader
| ModeStream
| Quit.
End Ask.
Abbreviation Ask := Ask.Ask.

(** The kind of the request a method is for. *)
Definition article_kind (ask : ArticleAsk) : RequestKind :=
  match ask with
  | ArticleAsk.Article _ => RequestKind.Article
  | ArticleAsk.ArticleCurrent => RequestKind.Article
  | ArticleAsk.ArticleSelector _ => RequestKind.Article
  | ArticleAsk.Body _ => RequestKind.Body
  | ArticleAsk.BodyCurrent => RequestKind.Body
  | ArticleAsk.BodySelector _ => RequestKind.Body
  | ArticleAsk.Head _ => RequestKind.Head
  | ArticleAsk.HeadCurrent => RequestKind.Head
  | ArticleAsk.HeadSelector _ => RequestKind.Head
  | ArticleAsk.Stat _ => RequestKind.Stat
  | ArticleAsk.StatCurrent => RequestKind.Stat
  | ArticleAsk.StatSelector _ => RequestKind.Stat
  end.

Definition ask_kind (ask : Ask) : RequestKind :=
  match ask with
  | Ask.Group _ => RequestKind.Group
  | Ask.Listgroup _ => RequestKind.ListGroup
  | Ask.ListgroupCurrent => RequestKind.ListGroup
  | Ask.ListgroupGroupRange _ _ => RequestKind.ListGroup
  | Ask.Last => RequestKind.Last
  | Ask.Next => RequestKind.Next
  | Ask.Newgroups _ _ _ => RequestKind.NewGroups
  | Ask.Newnews _ _ _ _ => RequestKind.NewNews
  | Ask.Post => RequestKind.Post
  | Ask.Ihave _ => RequestKind.Ihave
  | Ask.PostArticle _ => RequestKind.Post
  | Ask.IhaveArticle _ _ => RequestKind.Ihave
  | Ask.Check _ => RequestKind.Check
  | Ask.Takethis _ _ => RequestKind.TakeThis
  | Ask.AuthinfoUser _ => RequestKind.AuthInfoUser
  | Ask.AuthinfoUserBytes _ => RequestKind.AuthInfoUser
  | Ask.AuthinfoPass _ => RequestKind.AuthInfoPass
  | Ask.AuthinfoPassBytes _ => RequestKind.AuthInfoPass
  | Ask.Starttls => RequestKind.StartTls
  | Ask.Over _ => RequestKind.Over
  | Ask.OverCurrent => RequestKind.Over
  | Ask.Xover _ => RequestKind.Xover
  | Ask.XoverCurrent => RequestKind.Xover
  | Ask.Hdr _ _ => RequestKind.Hdr
  | Ask.HdrCurrent _ => RequestKind.Hdr
  | Ask.Xhdr _ _ => RequestKind.Xhdr
  | Ask.XhdrCurrent _ => RequestKind.Xhdr
  | Ask.List => RequestKind.List
  | Ask.ListActive => RequestKind.ListActive
  | Ask.ListActiveWildmat _ => RequestKind.ListActive
  | Ask.ListActiveTimes => RequestKind.ListActiveTimes
  | Ask.ListActiveTimesWildmat _ => RequestKind.ListActiveTimes
  | Ask.ListNewsgroups => RequestKind.ListNewsgroups
  | Ask.ListNewsgroupsWildmat _ => RequestKind.ListNewsgroups
  | Ask.ListOverviewFmt => RequestKind.ListOverviewFmt
  | Ask.ListHeaders => RequestKind.ListHeaders
  | Ask.ListDistribPats => RequestKind.ListDistribPats
  | Ask.Help => RequestKind.Help
  | Ask.Capabilities => RequestKind.Capabilities
  | Ask.Date => RequestKind.Date
  | Ask.ModeReader => RequestKind.ModeReader
  | Ask.ModeStream => RequestKind.ModeStream
  | Ask.Quit => RequestKind.Quit
  end.

(** The arguments are strings. *)
Definition article_str (ask : ArticleAsk) : Prop :=
  match ask with
  | ArticleAsk.Article message_id => is_str message_id
  | ArticleAsk.ArticleSelector selector => is_str selector
  | ArticleAsk.Body message_id => is_str message_id
  | ArticleAsk.BodySelector selector => is_str selector
  | ArticleAsk.Head message_id => is_str message_id
  | ArticleAsk.HeadSelector selector => is_str selector
  | ArticleAsk.Stat message_id => is_str message_id
  | ArticleAsk.StatSelector selector => is_str selector
  | _ => True
  end.

Definition ask_str (ask : Ask) : Prop :=
  match ask with
  | Ask.Group group => is_str group
  | Ask.Listgroup group => is_str group
  | Ask.ListgroupGroupRange group range => is_str group /\ is_str range
  | Ask.Newgroups date time _ => is_str date /\ is_str time
  | Ask.Newnews wildmat date time _ => is_str wildmat /\ is_str date /\ is_str time
  | Ask.Ihave message_id => is_str message_id
  | Ask.IhaveArticle message_id _ => is_str message_id
  | Ask.Check message_id => is_str message_id
  | Ask.Takethis message_id _ => is_str message_id
  | Ask.Over selector => is_str selector
  | Ask.Xover selector => is_str selector
  | Ask.Hdr header selector => is_str header /\ is_str selector
  | Ask.HdrCurrent header => is_str header
  | Ask.Xhdr header selector => is_str header /\ is_str selector
  | Ask.XhdrCurrent header => is_str header
  | Ask.ListActiveWildmat wildmat => is_str wildmat
  | Ask.ListActiveTimesWildmat wildmat => is_str wildmat
  | Ask.ListNewsgroupsWildmat wildmat => is_str wildmat
  | _ => True
  end.

(** The arguments are valid, as the types of [ClientConnection] have them; a
    selector of an article is a string in both layers. *)
Definition article_typed (ask : ArticleAsk) : Prop :=
  match ask with
  | ArticleAsk.Article message_id => valid validate_message_id message_id
  | ArticleAsk.Body message_id => valid validate_message_id message_id
  | ArticleAsk.Head message_id => valid validate_message_id message_id
  | ArticleAsk.Stat message_id => valid validate_message_id message_id
  | _ => True
  end.

Definition ask_typed (ask : Ask) : Prop :=
  match ask with
  | Ask.Group group => valid validate_group_name group
  | Ask.Listgroup group => valid validate_group_name group
  | Ask.ListgroupGroupRange group range => valid validate_group_name group /\ valid validate_listgroup_range range
  | Ask.Newgroups date time _ => valid validate_nntp_date date /\ valid validate_nntp_time time
  | Ask.Newnews wildmat date time _ => valid validate_wildmat wildmat /\ valid validate_nntp_date date /\ valid validate_nntp_time time
  | Ask.Ihave message_id => valid validate_message_id message_id
  | Ask.IhaveArticle message_id _ => valid validate_message_id message_id
  | Ask.Check message_id => valid validate_message_id message_id
  | Ask.Takethis message_id _ => valid validate_message_id message_id
  | Ask.AuthinfoUser value => validate_auth_info_value_bytes value = true
  | Ask.AuthinfoUserBytes value => validate_auth_info_value_bytes value = true
  | Ask.AuthinfoPass value => validate_auth_info_value_bytes value = true
  | Ask.AuthinfoPassBytes value => validate_auth_info_value_bytes value = true
  | Ask.Over selector => valid validate_article_selector selector
  | Ask.Xover selector => valid validate_listgroup_range selector
  | Ask.Hdr header selector => valid validate_header_name header /\ valid validate_article_selector selector
  | Ask.HdrCurrent header => valid validate_header_name header
  | Ask.Xhdr header selector => valid validate_header_name header /\ valid validate_article_selector selector
  | Ask.XhdrCurrent header => valid validate_header_name header
  | Ask.ListActiveWildmat wildmat => valid validate_wildmat wildmat
  | Ask.ListActiveTimesWildmat wildmat => valid validate_wildmat wildmat
  | Ask.ListNewsgroupsWildmat wildmat => valid validate_wildmat wildmat
  | _ => True
  end.

Section methods.
Context `{Mc : !Memchr} {C : Type} `{Cn : !Connection C}.
Variable article_validation : ArticleValidation.

Local Abbreviation M := (ClientM C).

Definition client_article (ask : ArticleAsk) : M OwnedArticle :=
  match ask with
  | ArticleAsk.Article message_id => Client.article article_validation message_id
  | ArticleAsk.ArticleCurrent => Client.article_current article_validation
  | ArticleAsk.ArticleSelector selector => Client.article_selector article_validation selector
  | ArticleAsk.Body message_id => Client.body article_validation message_id
  | ArticleAsk.BodyCurrent => Client.body_current article_validation
  | ArticleAsk.BodySelector selector => Client.body_selector article_validation selector
  | ArticleAsk.Head message_id => Client.head article_validation message_id
  | ArticleAsk.HeadCurrent => Client.head_current article_validation
  | ArticleAsk.HeadSelector selector => Client.head_selector article_validation selector
  | ArticleAsk.Stat message_id => Client.stat article_validation message_id
  | ArticleAsk.StatCurrent => Client.stat_current article_validation
  | ArticleAsk.StatSelector selector => Client.stat_selector article_validation selector
  end.

Definition client_article_exchange (ask : ArticleAsk) : M OwnedArticleExchange :=
  match ask with
  | ArticleAsk.Article message_id => Client.article_exchange article_validation message_id
  | ArticleAsk.ArticleCurrent => Client.article_current_exchange article_validation
  | ArticleAsk.ArticleSelector selector => Client.article_selector_exchange article_validation selector
  | ArticleAsk.Body message_id => Client.body_exchange article_validation message_id
  | ArticleAsk.BodyCurrent => Client.body_current_exchange article_validation
  | ArticleAsk.BodySelector selector => Client.body_selector_exchange article_validation selector
  | ArticleAsk.Head message_id => Client.head_exchange article_validation message_id
  | ArticleAsk.HeadCurrent => Client.head_current_exchange article_validation
  | ArticleAsk.HeadSelector selector => Client.head_selector_exchange article_validation selector
  | ArticleAsk.Stat message_id => Client.stat_exchange article_validation message_id
  | ArticleAsk.StatCurrent => Client.stat_current_exchange article_validation
  | ArticleAsk.StatSelector selector => Client.stat_selector_exchange article_validation selector
  end.

Definition connection_article (ask : ArticleAsk) : M OwnedResponse :=
  match ask with
  | ArticleAsk.Article message_id => ClientConnection.article message_id
  | ArticleAsk.ArticleCurrent => ClientConnection.article_current
  | ArticleAsk.ArticleSelector selector => ClientConnection.article_selector selector
  | ArticleAsk.Body message_id => ClientConnection.body message_id
  | ArticleAsk.BodyCurrent => ClientConnection.body_current
  | ArticleAsk.BodySelector selector => ClientConnection.body_selector selector
  | ArticleAsk.Head message_id => ClientConnection.head message_id
  | ArticleAsk.HeadCurrent => ClientConnection.head_current
  | ArticleAsk.HeadSelector selector => ClientConnection.head_selector selector
  | ArticleAsk.Stat message_id => ClientConnection.stat message_id
  | ArticleAsk.StatCurrent => ClientConnection.stat_current
  | ArticleAsk.StatSelector selector => ClientConnection.stat_selector selector
  end.

Definition connection_article_exchange (ask : ArticleAsk) : M OwnedExchange :=
  match ask with
  | ArticleAsk.Article message_id => ClientConnection.article_exchange message_id
  | ArticleAsk.ArticleCurrent => ClientConnection.article_current_exchange
  | ArticleAsk.ArticleSelector selector => ClientConnection.article_selector_exchange selector
  | ArticleAsk.Body message_id => ClientConnection.body_exchange message_id
  | ArticleAsk.BodyCurrent => ClientConnection.body_current_exchange
  | ArticleAsk.BodySelector selector => ClientConnection.body_selector_exchange selector
  | ArticleAsk.Head message_id => ClientConnection.head_exchange message_id
  | ArticleAsk.HeadCurrent => ClientConnection.head_current_exchange
  | ArticleAsk.HeadSelector selector => ClientConnection.head_selector_exchange selector
  | ArticleAsk.Stat message_id => ClientConnection.stat_exchange message_id
  | ArticleAsk.StatCurrent => ClientConnection.stat_current_exchange
  | ArticleAsk.StatSelector selector => ClientConnection.stat_selector_exchange selector
  end.

Definition client_response (ask : Ask) : M OwnedResponse :=
  match ask with
  | Ask.Group group => Client.group group
  | Ask.Listgroup group => Client.listgroup group
  | Ask.ListgroupCurrent => Client.listgroup_current
  | Ask.ListgroupGroupRange group range => Client.listgroup_group_range group range
  | Ask.Last => Client.last
  | Ask.Next => Client.next
  | Ask.Newgroups date time gmt => Client.newgroups date time gmt
  | Ask.Newnews wildmat date time gmt => Client.newnews wildmat date time gmt
  | Ask.Post => Client.post
  | Ask.Ihave message_id => Client.ihave message_id
  | Ask.PostArticle article => Client.post_article article
  | Ask.IhaveArticle message_id article => Client.ihave_article message_id article
  | Ask.Check message_id => Client.check message_id
  | Ask.Takethis message_id article => Client.takethis message_id article
  | Ask.AuthinfoUser value => Client.authinfo_user value
  | Ask.AuthinfoUserBytes value => Client.authinfo_user_bytes value
  | Ask.AuthinfoPass value => Client.authinfo_pass value
  | Ask.AuthinfoPassBytes value => Client.authinfo_pass_bytes value
  | Ask.Starttls => Client.starttls
  | Ask.Over selector => Client.over selector
  | Ask.OverCurrent => Client.over_current
  | Ask.Xover selector => Client.xover selector
  | Ask.XoverCurrent => Client.xover_current
  | Ask.Hdr header selector => Client.hdr header selector
  | Ask.HdrCurrent header => Client.hdr_current header
  | Ask.Xhdr header selector => Client.xhdr header selector
  | Ask.XhdrCurrent header => Client.xhdr_current header
  | Ask.List => Client.list
  | Ask.ListActive => Client.list_active
  | Ask.ListActiveWildmat wildmat => Client.list_active_wildmat wildmat
  | Ask.ListActiveTimes => Client.list_active_times
  | Ask.ListActiveTimesWildmat wildmat => Client.list_active_times_wildmat wildmat
  | Ask.ListNewsgroups => Client.list_newsgroups
  | Ask.ListNewsgroupsWildmat wildmat => Client.list_newsgroups_wildmat wildmat
  | Ask.ListOverviewFmt => Client.list_overview_fmt
  | Ask.ListHeaders => Client.list_headers
  | Ask.ListDistribPats => Client.list_distrib_pats
  | Ask.Help => Client.help
  | Ask.Capabilities => Client.capabilities
  | Ask.Date => Client.date
  | Ask.ModeReader => Client.mode_reader
  | Ask.ModeStream => Client.mode_stream
  | Ask.Quit => Client.quit
  end.

Definition client_exchange (ask : Ask) : M OwnedExchange :=
  match ask with
  | Ask.Group group => Client.group_exchange group
  | Ask.Listgroup group => Client.listgroup_exchange group
  | Ask.ListgroupCurrent => Client.listgroup_current_exchange
  | Ask.ListgroupGroupRange group range => Client.listgroup_group_range_exchange group range
  | Ask.Last => Client.last_exchange
  | Ask.Next => Client.next_exchange
  | Ask.Newgroups date time gmt => Client.newgroups_exchange date time gmt
  | Ask.Newnews wildmat date time gmt => Client.newnews_exchange wildmat date time gmt
  | Ask.Post => Client.post_exchange
  | Ask.Ihave message_id => Client.ihave_exchange message_id
  | Ask.PostArticle article => Client.post_article_exchange article
  | Ask.IhaveArticle message_id article => Client.ihave_article_exchange message_id article
  | Ask.Check message_id => Client.check_exchange message_id
  | Ask.Takethis message_id article => Client.takethis_exchange message_id article
  | Ask.AuthinfoUser value => Client.authinfo_user_exchange value
  | Ask.AuthinfoUserBytes value => Client.authinfo_user_bytes_exchange value
  | Ask.AuthinfoPass value => Client.authinfo_pass_exchange value
  | Ask.AuthinfoPassBytes value => Client.authinfo_pass_bytes_exchange value
  | Ask.Starttls => Client.starttls_exchange
  | Ask.Over selector => Client.over_exchange selector
  | Ask.OverCurrent => Client.over_current_exchange
  | Ask.Xover selector => Client.xover_exchange selector
  | Ask.XoverCurrent => Client.xover_current_exchange
  | Ask.Hdr header selector => Client.hdr_exchange header selector
  | Ask.HdrCurrent header => Client.hdr_current_exchange header
  | Ask.Xhdr header selector => Client.xhdr_exchange header selector
  | Ask.XhdrCurrent header => Client.xhdr_current_exchange header
  | Ask.List => Client.list_exchange
  | Ask.ListActive => Client.list_active_exchange
  | Ask.ListActiveWildmat wildmat => Client.list_active_wildmat_exchange wildmat
  | Ask.ListActiveTimes => Client.list_active_times_exchange
  | Ask.ListActiveTimesWildmat wildmat => Client.list_active_times_wildmat_exchange wildmat
  | Ask.ListNewsgroups => Client.list_newsgroups_exchange
  | Ask.ListNewsgroupsWildmat wildmat => Client.list_newsgroups_wildmat_exchange wildmat
  | Ask.ListOverviewFmt => Client.list_overview_fmt_exchange
  | Ask.ListHeaders => Client.list_headers_exchange
  | Ask.ListDistribPats => Client.list_distrib_pats_exchange
  | Ask.Help => Client.help_exchange
  | Ask.Capabilities => Client.capabilities_exchange
  | Ask.Date => Client.date_exchange
  | Ask.ModeReader => Client.mode_reader_exchange
  | Ask.ModeStream => Client.mode_stream_exchange
  | Ask.Quit => Client.quit_exchange
  end.

Definition connection_response (ask : Ask) : M OwnedResponse :=
  match ask with
  | Ask.Group group => ClientConnection.group group
  | Ask.Listgroup group => ClientConnection.listgroup group
  | Ask.ListgroupCurrent => ClientConnection.listgroup_current
  | Ask.ListgroupGroupRange group range => ClientConnection.listgroup_group_range group range
  | Ask.Last => ClientConnection.last
  | Ask.Next => ClientConnection.next
  | Ask.Newgroups date time gmt => ClientConnection.newgroups date time gmt
  | Ask.Newnews wildmat date time gmt => ClientConnection.newnews wildmat date time gmt
  | Ask.Post => ClientConnection.post
  | Ask.Ihave message_id => ClientConnection.ihave message_id
  | Ask.PostArticle article => ClientConnection.post_article article
  | Ask.IhaveArticle message_id article => ClientConnection.ihave_article message_id article
  | Ask.Check message_id => ClientConnection.check message_id
  | Ask.Takethis message_id article => ClientConnection.takethis message_id article
  | Ask.AuthinfoUser value => ClientConnection.authinfo_user value
  | Ask.AuthinfoUserBytes value => ClientConnection.authinfo_user value
  | Ask.AuthinfoPass value => ClientConnection.authinfo_pass value
  | Ask.AuthinfoPassBytes value => ClientConnection.authinfo_pass value
  | Ask.Starttls => ClientConnection.starttls
  | Ask.Over selector => ClientConnection.over selector
  | Ask.OverCurrent => ClientConnection.over_current
  | Ask.Xover selector => ClientConnection.xover selector
  | Ask.XoverCurrent => ClientConnection.xover_current
  | Ask.Hdr header selector => ClientConnection.hdr header selector
  | Ask.HdrCurrent header => ClientConnection.hdr_current header
  | Ask.Xhdr header selector => ClientConnection.xhdr header selector
  | Ask.XhdrCurrent header => ClientConnection.xhdr_current header
  | Ask.List => ClientConnection.list
  | Ask.ListActive => ClientConnection.list_active
  | Ask.ListActiveWildmat wildmat => ClientConnection.list_active_wildmat wildmat
  | Ask.ListActiveTimes => ClientConnection.list_active_times
  | Ask.ListActiveTimesWildmat wildmat => ClientConnection.list_active_times_wildmat wildmat
  | Ask.ListNewsgroups => ClientConnection.list_newsgroups
  | Ask.ListNewsgroupsWildmat wildmat => ClientConnection.list_newsgroups_wildmat wildmat
  | Ask.ListOverviewFmt => ClientConnection.list_overview_fmt
  | Ask.ListHeaders => ClientConnection.list_headers
  | Ask.ListDistribPats => ClientConnection.list_distrib_pats
  | Ask.Help => ClientConnection.help
  | Ask.Capabilities => ClientConnection.capabilities
  | Ask.Date => ClientConnection.date
  | Ask.ModeReader => ClientConnection.mode_reader
  | Ask.ModeStream => ClientConnection.mode_stream
  | Ask.Quit => ClientConnection.quit
  end.

Definition connection_exchange (ask : Ask) : M OwnedExchange :=
  match ask with
  | Ask.Group group => ClientConnection.group_exchange group
  | Ask.Listgroup group => ClientConnection.listgroup_exchange group
  | Ask.ListgroupCurrent => ClientConnection.listgroup_current_exchange
  | Ask.ListgroupGroupRange group range => ClientConnection.listgroup_group_range_exchange group range
  | Ask.Last => ClientConnection.last_exchange
  | Ask.Next => ClientConnection.next_exchange
  | Ask.Newgroups date time gmt => ClientConnection.newgroups_exchange date time gmt
  | Ask.Newnews wildmat date time gmt => ClientConnection.newnews_exchange wildmat date time gmt
  | Ask.Post => ClientConnection.post_exchange
  | Ask.Ihave message_id => ClientConnection.ihave_exchange message_id
  | Ask.PostArticle article => ClientConnection.post_article_exchange article
  | Ask.IhaveArticle message_id article => ClientConnection.ihave_article_exchange message_id article
  | Ask.Check message_id => ClientConnection.check_exchange message_id
  | Ask.Takethis message_id article => ClientConnection.takethis_exchange message_id article
  | Ask.AuthinfoUser value => ClientConnection.authinfo_user_exchange value
  | Ask.AuthinfoUserBytes value => ClientConnection.authinfo_user_exchange value
  | Ask.AuthinfoPass value => ClientConnection.authinfo_pass_exchange value
  | Ask.AuthinfoPassBytes value => ClientConnection.authinfo_pass_exchange value
  | Ask.Starttls => ClientConnection.starttls_exchange
  | Ask.Over selector => ClientConnection.over_exchange selector
  | Ask.OverCurrent => ClientConnection.over_current_exchange
  | Ask.Xover selector => ClientConnection.xover_exchange selector
  | Ask.XoverCurrent => ClientConnection.xover_current_exchange
  | Ask.Hdr header selector => ClientConnection.hdr_exchange header selector
  | Ask.HdrCurrent header => ClientConnection.hdr_current_exchange header
  | Ask.Xhdr header selector => ClientConnection.xhdr_exchange header selector
  | Ask.XhdrCurrent header => ClientConnection.xhdr_current_exchange header
  | Ask.List => ClientConnection.list_exchange
  | Ask.ListActive => ClientConnection.list_active_exchange
  | Ask.ListActiveWildmat wildmat => ClientConnection.list_active_wildmat_exchange wildmat
  | Ask.ListActiveTimes => ClientConnection.list_active_times_exchange
  | Ask.ListActiveTimesWildmat wildmat => ClientConnection.list_active_times_wildmat_exchange wildmat
  | Ask.ListNewsgroups => ClientConnection.list_newsgroups_exchange
  | Ask.ListNewsgroupsWildmat wildmat => ClientConnection.list_newsgroups_wildmat_exchange wildmat
  | Ask.ListOverviewFmt => ClientConnection.list_overview_fmt_exchange
  | Ask.ListHeaders => ClientConnection.list_headers_exchange
  | Ask.ListDistribPats => ClientConnection.list_distrib_pats_exchange
  | Ask.Help => ClientConnection.help_exchange
  | Ask.Capabilities => ClientConnection.capabilities_exchange
  | Ask.Date => ClientConnection.date_exchange
  | Ask.ModeReader => ClientConnection.mode_reader_exchange
  | Ask.ModeStream => ClientConnection.mode_stream_exchange
  | Ask.Quit => ClientConnection.quit_exchange
  end.
End methods.

(** ** A call and its reply *)

Definition argument_error (e : error) : Prop :=
  match e with
  | ClientError.InvalidMessageId | ClientError.InvalidGroupName | ClientError.InvalidWildmat
  | ClientError.InvalidDate | ClientError.InvalidTime | ClientError.InvalidAuthInfoValue
  | ClientError.InvalidHeaderName | ClientError.InvalidArticleSelector
  | ClientError.InvalidListGroupRange => True
  | _ => False
  end.

Section sound.
Context `{Mc : !Memchr} {C : Type} `{Cn : !Connection C}.

Local Abbreviation M := (ClientM C).

Definition respond (call : Call) : M OwnedResponse :=
  pending ← conn_call call; pending_response_receive pending.

(** A plain request of an exchange has the capabilities negotiated before it is
    queued. *)
Definition respond_exchange (call : Call) : M OwnedExchange :=
  _ ← match call with
      | CallRequest request =>
          if RequestKind.eqb (Request.kind request) RequestKind.Capabilities then mret tt
          else ensure_capabilities_negotiated (Request.kind request)
      | _ => mret tt
      end;
  pending ← conn_call call; pending_exchange_receive pending.

Definition issues (kind : RequestKind) (call : Call) : Prop :=
  request_ok (s_request (sending_of call)) /\ Request.kind (s_request (sending_of call)) = kind.

(** Both twins refuse the arguments with the connection as it was, or make the
    same call and do [f] and [g] with its reply. *)
Definition sound {A B} (kind : RequestKind) (response : M A) (exchange : M B)
    (f : OwnedResponse -> M A) (g : OwnedExchange -> M B) : Prop :=
  (exists e, argument_error e /\ forall c, response c = (Err e, c) /\ exchange c = (Err e, c))
  \/ exists call, issues kind call
     /\ forall c, response c = (respond call ≫= f) c /\ exchange c = (respond_exchange call ≫= g) c.

Lemma client_bind_ret {A} (m : M A) c : (m ≫= mret) c = m c.
Proof. unfold mbind, ClientM_bind. by destruct (m c) as [[|] ?]. Qed.

Lemma client_bind_assoc {A B D} (m : M A) (k : A -> M B) (h : B -> M D) c :
  ((m ≫= k) ≫= h) c = (m ≫= fun a => k a ≫= h) c.
Proof. unfold mbind, ClientM_bind. by destruct (m c) as [[|] ?]. Qed.

Lemma client_bind_ext {A B} (m : M A) (k h : A -> M B) c :
  (forall a c, k a c = h a c) -> (m ≫= k) c = (m ≫= h) c.
Proof. intros H. unfold mbind, ClientM_bind. by destruct (m c) as [[|] ?]. Qed.

(** A method on a fixed request, and on one that is built from its arguments. *)
Lemma sound_raw r kind :
  constructed r -> Request.kind r = kind ->
  sound kind (ClientConnection.execute r) (ClientConnection.execute_exchange r) mret mret.
Proof.
  intros Hr Hk. right. exists (CallRequest r). split; [split; [by apply constructed_valid in Hr as [? _]|done]|].
  intros c. rewrite !client_bind_ret. split; [done|].
  unfold respond_exchange, ClientConnection.execute_exchange, queue_request_exchange.
  by rewrite client_bind_assoc.
Qed.

Definition articled (v : ArticleValidation) (response : OwnedResponse) : M OwnedArticle :=
  try_client (from_response response v).
Definition articled_exchange (v : ArticleValidation) (exchange : OwnedExchange) : M OwnedArticleExchange :=
  article ← try_client (from_response (ex_response exchange) v);
  mret {| ax_request := ex_request exchange; ax_article := article |}.

Lemma sound_article v r kind :
  constructed r -> Request.kind r = kind ->
  sound kind (Client.execute v r) (Client.execute_exchange v r) (articled v) (articled_exchange v).
Proof.
  intros Hr Hk. right. exists (CallRequest r). split; [split; [by apply constructed_valid in Hr as [? _]|done]|].
  intros c. split; [done|].
  unfold respond_exchange, Client.execute_exchange, ClientConnection.execute_exchange, queue_request_exchange.
  rewrite !client_bind_assoc. apply client_bind_ext. intros [] c'. by rewrite !client_bind_assoc.
Qed.

Lemma sound_built {A B E} kind (b : result Request.Request E) (conv : E -> error)
    (response : Request.Request -> M A) (exchange : Request.Request -> M B) f g :
  (forall e, argument_error (conv e)) ->
  (forall r, b = Ok r -> sound kind (response r) (exchange r) f g) ->
  sound kind (request ← try_client (map_err conv b); response request)
    (request ← try_client (map_err conv b); exchange request) f g.
Proof.
  intros He Hb. destruct b as [r|e]; cbn [map_err].
  - by apply Hb.
  - left. exists (conv e). by split.
Qed.
End sound.
