(* ===== verification/ClientSound.v ===== *)
(** * The methods of the client, both layers

    Every method sends one valid request of its kind and hands back the reply to
    it, or refuses its arguments with nothing sent; the two layers agree. *)
From S2P Require Import Prelude Utf8 Memchr Args Terminator Kinds Requests RequestWire Capabilities ResponseBody Article OwnedResponse.
From S2P Require Import ClientWire ClientEngine ServerStore Float64 LoadWorkload FetchCommand SessionScript SessionRoundtrip ClientMethods ClientAsks.

Local Open Scope Z_scope.
Local Open Scope rust_scope.

Create HintDb asks.
#[local] Hint Constructors constructed : asks.

Section sound.
Context `{Mc : !Memchr} {C : Type} `{Cn : !Connection C}.

Ltac kind_of_built H :=
  unfold Request.article, Request.body, Request.head, Request.stat, Request.article_selector,
    Request.body_selector, Request.head_selector, Request.stat_selector, Request.group,
    Request.listgroup, Request.listgroup_group_range, Request.over, Request.xover, Request.hdr,
    Request.hdr_current, Request.xhdr, Request.xhdr_current, Request.newgroups, Request.newnews,
    Request.ihave, Request.check, Request.takethis, Request.authinfo_user, Request.authinfo_pass,
    Request.authinfo_user_bytes, Request.authinfo_pass_bytes, Request.list_active_wildmat,
    Request.list_active_times_wildmat, Request.list_newsgroups_wildmat in H;
  open_result; reflexivity.

Ltac kind_of H := unfold Request.ihave in H; open_result.

Ltac constant := first [apply c_constant; cbn [In]; auto 30 | reflexivity].

Lemma article_methods_sound v (ask : ArticleAsk) :
  article_str ask ->
  sound (article_kind ask) (client_article v ask) (client_article_exchange v ask) (articled v) (articled_exchange v).
Proof.
  destruct ask; cbn [article_str article_kind client_article client_article_exchange]; intros Hs.
  all: try (apply sound_article; constant).
  all: apply sound_built; [done|]; intros r Hr; apply sound_article; [eauto 3 with asks|kind_of_built Hr].
Qed.

Lemma raw_methods_sound (ask : Ask) :
  ask_str ask -> sound (ask_kind ask) (client_response ask) (client_exchange ask) mret mret.
Proof.
  destruct ask; cbn [ask_str ask_kind client_response client_exchange]; intros Hs; split_ands.
  all: try (apply sound_raw; constant).
  all: try (apply sound_built; [by intros []|]; intros r Hr; apply sound_raw; [eauto 3 with asks|kind_of_built Hr]).
  - right. exists (CallPost article). split; [done|]. intros c. by rewrite !client_bind_ret.
  - unfold Client.ihave_article, Client.ihave_article_exchange. apply sound_built; [done|]. intros r Hr.
    pose proof (c_ihave _ _ Hs Hr) as Hc. kind_of Hr. right. exists (CallIhave value article).
    split; [split; [by apply constructed_valid in Hc as [? _]|done]|]. intros c. by rewrite !client_bind_ret.
Qed.

Lemma exchange_own :
  ConnectionSpec C -> forall call c exchange c',
  respond_exchange call c = (Ok exchange, c') -> ex_request exchange = s_request (sending_of call).
Proof.
  intros Hown call c exchange c' H. unfold respond_exchange, mbind, ClientM_bind in H.
  match type of H with match ?m c with _ => _ end = _ => destruct (m c) as [[u|e] c1]; [|done] end.
  destruct (conn_call call c1) as [[reply|e] c2] eqn:E; [|done].
  unfold pending_exchange_receive, completed_of, mbind, ClientM_bind in H.
  destruct reply as [[[request response]|e]|]; [|done..]. injection H as <- _. by eapply Hown.
Qed.

(** C12: every method of the client, and its [_exchange] twin with it, either
    refuses its arguments, with an error of an argument and the connection as it
    was, or makes one call, a request of the kind the method is named for that
    is valid on the wire, and hands back the reply to it; an article method
    makes it the article that was asked for, or its error, and an exchange pairs
    the reply with the request that was sent. *)
Theorem client_methods_sound (v : ArticleValidation) :
  (forall ask, article_str ask ->
     sound (article_kind ask) (client_article v ask) (client_article_exchange v ask) (articled v) (articled_exchange v))
  /\ (forall ask, ask_str ask -> sound (ask_kind ask) (client_response ask) (client_exchange ask) mret mret)
  /\ (ConnectionSpec C -> forall call c exchange c',
      respond_exchange call c = (Ok exchange, c') -> ex_request exchange = s_request (sending_of call)).
Proof.
  split; [apply article_methods_sound|]. split; [apply raw_methods_sound|]. apply exchange_own.
Qed.

(** ** The layers *)

Lemma from_valid f v : valid f v -> validated f v = Ok v.
Proof. intros [_ H]. by apply validated_Ok. Qed.

Lemma id_from_valid m : valid validate_message_id m -> message_id_from_str_or_wrap m = Ok m.
Proof. intros H. by apply message_id_word. Qed.

Lemma auth_from_valid value : validate_auth_info_value_bytes value = true -> auth_info_value_from value = Ok value.
Proof. unfold auth_info_value_from. by intros ->. Qed.

Ltac layered :=
  unfold Request.article, Request.body, Request.head, Request.stat, Request.group, Request.listgroup,
    Request.listgroup_group_range, Request.over, Request.xover, Request.hdr, Request.hdr_current,
    Request.xhdr, Request.xhdr_current, Request.header_pair, Request.newgroups, Request.newnews,
    Request.ihave, Request.check, Request.takethis, Request.authinfo_user, Request.authinfo_pass,
    Request.authinfo_user_bytes, Request.authinfo_pass_bytes, Request.list_active_wildmat,
    Request.list_active_times_wildmat, Request.list_newsgroups_wildmat,
    group_name_from, listgroup_range_from, article_selector_from, header_name_from, nntp_date_from,
    nntp_time_from, wildmat_from in *;
  split_ands;
  repeat match goal with
  | |- context [validated ?f ?v] => rewrite (from_valid f v) by done
  | |- context [message_id_from_str_or_wrap ?m] => rewrite (id_from_valid m) by done
  | |- context [auth_info_value_from ?m] => rewrite (auth_from_valid m) by done
  end.

Lemma raw_layers ask c :
  ask_typed ask ->
  client_response ask c = connection_response ask c /\ client_exchange ask c = connection_exchange ask c.
Proof.
  destruct ask; cbn [ask_typed client_response client_exchange connection_response connection_exchange];
    intros Ht; try done.
  all: unfold Client.group, Client.group_exchange, Client.newgroups, Client.newgroups_exchange, Client.newnews,
    Client.newnews_exchange, Client.ihave, Client.ihave_exchange, Client.ihave_article,
    Client.ihave_article_exchange, Client.check, Client.check_exchange, Client.takethis,
    Client.takethis_exchange, Client.authinfo_user, Client.authinfo_user_exchange,
    Client.authinfo_user_bytes, Client.authinfo_user_bytes_exchange, Client.authinfo_pass,
    Client.authinfo_pass_exchange, Client.authinfo_pass_bytes, Client.authinfo_pass_bytes_exchange,
    Client.over, Client.over_exchange, Client.xover, Client.xover_exchange, Client.hdr,
    Client.hdr_exchange, Client.hdr_current, Client.hdr_current_exchange, Client.xhdr,
    Client.xhdr_exchange, Client.xhdr_current, Client.xhdr_current_exchange, Client.list_active_wildmat,
    Client.list_active_wildmat_exchange, Client.list_active_times_wildmat,
    Client.list_active_times_wildmat_exchange, Client.list_newsgroups_wildmat,
    Client.list_newsgroups_wildmat_exchange; layered; done.
Qed.

Lemma article_layers v ask c :
  article_typed ask ->
  client_article v ask c = (connection_article ask ≫= articled v) c
  /\ client_article_exchange v ask c = (connection_article_exchange ask ≫= articled_exchange v) c.
Proof.
  destruct ask; cbn [article_typed client_article client_article_exchange connection_article connection_article_exchange];
    intros Ht.
  all: try (split; reflexivity).
  all: try (split; symmetry; apply client_bind_assoc).
  all: unfold Client.article, Client.article_exchange, Client.body, Client.body_exchange, Client.head,
    Client.head_exchange, Client.stat, Client.stat_exchange; layered; split; reflexivity.
Qed.

(** C13: the client of strings is the connection of validated arguments: on
    arguments that are valid the methods of both layers do the same to the
    connection and hand back the same, and an article method of the client is
    the method of the connection with the article made of its response. *)
Theorem client_layers_agree (v : ArticleValidation) (c : C) :
  (forall ask, ask_typed ask ->
     client_response ask c = connection_response ask c /\ client_exchange ask c = connection_exchange ask c)
  /\ (forall ask, article_typed ask ->
     client_article v ask c = (connection_article ask ≫= articled v) c
     /\ client_article_exchange v ask c = (connection_article_exchange ask ≫= articled_exchange v) c).
Proof. split; intros ask; [apply raw_layers|apply article_layers]. Qed.
End sound.

(** ** A connection that keeps a log *)

(** It answers every call with [200], and writes down what it was asked. *)
Definition logged_response (kind : RequestKind) : OwnedResponse :=
  {| or_content := OwnedGeneric kind 200 (bstr "200 ok\r\n") {| rcr_start := 8; rcr_end := 8 |} |}.

#[local] Instance logging : Connection (list Call) := {|
  conn_call call log :=
    let request := s_request (sending_of call) in
    (Ok (Some (Ok (request, logged_response (Request.kind request)))), log ++ [call]);
  conn_poisoned _ := None;
  conn_capabilities _ := Some {| entries := [] |};
|}.

#[local] Instance logging_spec : ConnectionSpec (list Call).
Proof. intros call c request response c' H. by injection H as <- _ _. Qed.

Lemma client_methods_sound_witness :
  sound (C := list Call) RequestKind.Over (client_response (Ask.Over (lit "1-"))) (client_exchange (Ask.Over (lit "1-")))
    mret mret
  /\ client_response (Ask.Over (lit "1-")) [] = (Ok (logged_response RequestKind.Over), [CallRequest (Request.Over (Some (lit "1-")))])
  /\ client_response (Ask.Group []) ([] : list Call) = (Err ClientError.InvalidGroupName, []).
Proof.
  split; [|split; vm_compute; reflexivity].
  apply (proj1 (proj2 (client_methods_sound (Mc := naive_memchr) (C := list Call) FramingOnly)) (Ask.Over (lit "1-"))).
  cbn [ask_str]. by exists (lit "1-").
Defined.

Lemma client_layers_agree_witness :
  client_exchange (C := list Call) (Ask.Check (lit "<a@b>")) []
  = connection_exchange (C := list Call) (Ask.Check (lit "<a@b>")) [].
Proof.
  apply (proj1 (client_layers_agree (Mc := naive_memchr) (C := list Call) Full []) (Ask.Check (lit "<a@b>"))).
  cbn [ask_typed]. split; [by exists (lit "<a@b>")|reflexivity].
Defined.
