(* ===== verification/Format.v ===== *)
(** * Formatted text of the standard library

    [format!] with the holes the source uses: [{}] and [{:[<>][+][width][.prec]}],
    of strings, integers and floats.  A float is printed with the digits of its
    exact value, rounded to the nearest and the even one of two. *)
From S2P Require Import Prelude Utf8 Decimal Float64.

Local Open Scope Z_scope.

(** A literal of the source with a single quote for each double quote of it. *)
Definition quoted (s : String.string) : bytes := (fun b => if b =? 39 then 34 else b) <$> lit s.
Arguments quoted _%_string_scope.

(** ** Numbers *)

(** The decimal digits of a number below [10 ^ 400], which every integer and
    every [f64] is. *)
Definition print_integer (n : Z) : bytes := print_digits 400 n [].

(** The digits behind the point. *)
Definition fraction_digits (prec : nat) (n : Z) : bytes :=
  let digits := print_integer (n mod 10 ^ Z.of_nat prec) in replicate (prec - length digits) 48 ++ digits.

(** [{:.prec}] of the number [n / 10 ^ prec]. *)
Definition print_fixed (prec : nat) (n : Z) : bytes :=
  print_integer (n / 10 ^ Z.of_nat prec)
  ++ match prec with O => [] | _ => lit "." ++ fraction_digits prec n end.

(** The value of a finite number in units of [10 ^ - prec], to the nearest and
    the even one of two. *)
Definition f64_units (prec : nat) (m : positive) (e : Z) : Z :=
  let scale := 10 ^ Z.of_nat prec in
  if 0 <=? e then Zpos m * 2 ^ e * scale else round_half_even (Zpos m * scale) (2 ^ (- e)).

Definition minus (s : bool) : bytes := if s then lit "-" else [].

(** [{:.prec}] of an [f64]. *)
Definition f64_fixed (prec : nat) (x : f64) : bytes :=
  match x with
  | SpecFloat.S754_nan => lit "NaN"
  | SpecFloat.S754_infinity s => minus s ++ lit "inf"
  | SpecFloat.S754_zero s => minus s ++ print_fixed prec 0
  | SpecFloat.S754_finite s m e => minus s ++ print_fixed prec (f64_units prec m e)
  end.

(** ** Templates *)

(** What is left of a template between its holes, and the holes with what they
    ask for. *)
Inductive Piece : Type :=
| Literal (b : Z)
| Hole (spec : bytes).

(** [{{] and [}}] stand for the braces themselves. *)
Fixpoint pieces (template : bytes) (hole : option bytes) : list Piece :=
  match template, hole with
  | [], _ => []
  | b :: template, Some spec =>
      if b =? 125 then Hole spec :: pieces template None else pieces template (Some (spec ++ [b]))
  | b :: template, None =>
      if b =? 123 then
        match template with
        | c :: template' => if c =? 123 then Literal 123 :: pieces template' None else pieces template (Some [])
        | [] => []
        end
      else if b =? 125 then
        Literal 125 :: match template with _ :: template' => pieces template' None | [] => [] end
      else Literal b :: pieces template None
  end.

Inductive Alignment : Type := AlignLeft | AlignRight.

Record FormatSpec : Type := {
  fs_align : option Alignment;
  fs_plus : bool;
  fs_width : nat;
  fs_precision : option nat;
}.

(** [:], an alignment, a sign, a width and a precision, each of them optional. *)
Fixpoint number_prefix (l : bytes) (n : nat) : nat * bytes :=
  match l with
  | b :: l' => if is_ascii_digit b then number_prefix l' (10 * n + Z.to_nat (b - 48)) else (n, l)
  | [] => (n, [])
  end.

Definition parse_spec (spec : bytes) : FormatSpec :=
  let spec := default spec (strip_prefix spec (lit ":")) in
  let '(align, spec) :=
    match strip_prefix spec (lit "<"), strip_prefix spec (lit ">") with
    | Some spec, _ => (Some AlignLeft, spec)
    | _, Some spec => (Some AlignRight, spec)
    | _, _ => (None, spec)
    end in
  let '(plus, spec) :=
    match strip_prefix spec (lit "+") with Some spec => (true, spec) | None => (false, spec) end in
  let '(width, spec) := number_prefix spec 0 in
  {| fs_align := align; fs_plus := plus; fs_width := width;
     fs_precision := match strip_prefix spec (lit ".") with
                     | Some spec => Some (fst (number_prefix spec 0))
                     | None => None
                     end |}.

Inductive Arg : Type :=
| ArgText (text : bytes)
| ArgInt (n : Z)
| ArgFloat (x : f64).

(** Numbers are set to the right of their width, text to the left. *)
Definition pad (align : Alignment) (width : nat) (text : bytes) : bytes :=
  let missing := replicate (width - length (chars text)) SP in
  match align with AlignLeft => text ++ missing | AlignRight => missing ++ text end.

Definition plus_sign (plus negative : bool) : bytes := if plus && negb negative then lit "+" else [].

Definition f64_negative (x : f64) : bool :=
  match x with
  | SpecFloat.S754_zero s | SpecFloat.S754_infinity s | SpecFloat.S754_finite s _ _ => s
  | SpecFloat.S754_nan => false
  end.

Definition f64_is_nan (x : f64) : bool :=
  match x with SpecFloat.S754_nan => true | _ => false end.

(** A float is printed with a precision wherever the source prints one. *)
Definition render_arg (spec : FormatSpec) (arg : Arg) : bytes :=
  match arg with
  | ArgText text => pad (default AlignLeft (fs_align spec)) (fs_width spec) text
  | ArgInt n =>
      pad (default AlignRight (fs_align spec)) (fs_width spec) (plus_sign (fs_plus spec) false ++ print_integer n)
  | ArgFloat x =>
      pad (default AlignRight (fs_align spec)) (fs_width spec)
        (plus_sign (fs_plus spec && negb (f64_is_nan x)) (f64_negative x) ++ f64_fixed (default O (fs_precision spec)) x)
  end.

Fixpoint render (template : list Piece) (args : list Arg) : bytes :=
  match template with
  | [] => []
  | Literal b :: template => b :: render template args
  | Hole spec :: template =>
      match args with
      | arg :: args => render_arg (parse_spec spec) arg ++ render template args
      | [] => []
      end
  end.

Definition format (template : bytes) (args : list Arg) : bytes := render (pieces template None) args.

(** ** What is printed *)

(** A whole number has a digit, and no zero before another. *)
Definition whole_digits (ds : bytes) : bool :=
  match ds with
  | [] => false
  | [_] => true
  | b :: _ => negb (b =? 48)
  end.

(** No zero stands before another digit. *)
Lemma print_digits_head fuel n :
  0 < n < 10 ^ Z.of_nat fuel -> exists b ds, print_digits fuel n [] = b :: ds /\ b <> 48.
Proof.
  revert n. induction fuel as [|fuel IH]; intros n Hn; [change (10 ^ Z.of_nat 0) with 1 in Hn; lia|].
  destruct (decide (n < 10)).
  - rewrite print_digits_small by lia. exists (48 + n), []. split; [done|lia].
  - rewrite print_digits_step by lia. rewrite pow10_S in Hn.
    destruct (IH (n / 10)) as (b & ds & -> & Hb).
    { split; [apply Z.div_str_pos; lia|]. apply Z.div_lt_upper_bound; lia. }
    by exists b, (ds ++ [48 + n mod 10]).
Qed.

Definition INTEGER_LIMIT : Z := 10 ^ 400.

Lemma print_integer_spec n :
  0 <= n < INTEGER_LIMIT ->
  forallb is_ascii_digit (print_integer n) = true /\ decimal_value (print_integer n) = n
  /\ whole_digits (print_integer n) = true.
Proof.
  intros Hn. destruct (print_digits_spec 400 n) as (Hd & Hv & Hl); [exact Hn|lia|].
  split; [done|]. split; [done|]. unfold print_integer in *. destruct (decide (n = 0)) as [->|Hne]; [reflexivity|].
  destruct (print_digits_head 400 n) as (b & ds & E & Hb); [split; [lia|apply Hn]|]. rewrite E. cbn [whole_digits].
  destruct ds; [done|]. by rewrite (proj2 (Z.eqb_neq b 48)).
Qed.

Lemma decimal_value_concat a b :
  decimal_value (a ++ b) = decimal_value a * 10 ^ Z.of_nat (length b) + decimal_value b.
Proof.
  induction b as [|d b IH] using rev_ind; [cbn [length]; rewrite app_nil_r; change (decimal_value []) with 0; change (10 ^ Z.of_nat 0) with 1; lia|].
  rewrite app_assoc, !decimal_value_app, IH, length_app, Nat.add_1_r, pow10_S. lia.
Qed.

Lemma decimal_value_zeros k b : decimal_value (replicate k 48 ++ b) = decimal_value b.
Proof.
  rewrite decimal_value_concat.
  assert (decimal_value (replicate k 48) = 0) as ->; [|lia].
  induction k as [|k IH]; [done|]. change (replicate (S k) 48) with ([48] ++ replicate k 48).
  rewrite decimal_value_concat, IH. change (decimal_value [48]) with 0. lia.
Qed.

Lemma fraction_digits_spec prec n :
  (0 < prec <= 400)%nat -> 0 <= n ->
  forallb is_ascii_digit (fraction_digits prec n) = true
  /\ decimal_value (fraction_digits prec n) = n mod 10 ^ Z.of_nat prec
  /\ length (fraction_digits prec n) = prec.
Proof.
  intros Hp Hn. pose proof (Z.mod_pos_bound n (10 ^ Z.of_nat prec) ltac:(lia)) as Hm.
  assert (10 ^ Z.of_nat prec <= INTEGER_LIMIT) as Hle by (apply Z.pow_le_mono_r; lia).
  destruct (print_digits_spec prec (n mod 10 ^ Z.of_nat prec)) as (Hd & Hv & Hl); [exact Hm|lia|].
  assert (print_integer (n mod 10 ^ Z.of_nat prec) = print_digits prec (n mod 10 ^ Z.of_nat prec) []) as E.
  { apply print_digits_fuel; [exact Hm|lia]. }
  unfold fraction_digits. rewrite E. split; [|split].
  - rewrite forallb_app, Hd, andb_true_r. induction (prec - _)%nat as [|k IH]; [done|exact IH].
  - by rewrite decimal_value_zeros.
  - rewrite length_app, length_replicate. lia.
Qed.

