(* ===== verification/ProfileScripts.v ===== *)
(** * What the profile scripts share ([src/scripts/parse_flamegraph.rs], [src/scripts/parse_perfdata.rs])

    Two programs of one file each read a profile and print reports on it.  Here
    is what both are made of: printing with the ways a program ends, the string
    methods they call, [str::parse::<f64>], maps in the order the library walks
    them, and stable sorting.  [PerfScript] and [Flamegraph] are the programs. *)
From Stdlib Require Import Floats.SpecFloat.
From stdpp Require Import sorting sets.
From S2P Require Import Prelude Utf8 Decimal Text Float64 Format.

Local Open Scope Z_scope.

(** ** Programs that print *)

(** A panic, [process::exit] or an [io::Error] ends the program; what it has
    printed stays printed. *)
Inductive Ended (A : Type) : Type :=
| Returns (value : A)
| Exits (code : Z)
| Fails (message : bytes)
| Panics.
Arguments Returns {A} value.
Arguments Exits {A} code.
Arguments Fails {A} message.
Arguments Panics {A}.

Record Run (A : Type) : Type := {
  stdout : bytes;
  stderr : bytes;
  ended : Ended A;
}.
Arguments Build_Run {A}.
Arguments stdout {A}.
Arguments stderr {A}.
Arguments ended {A}.

Definition stop {A} (e : Ended A) : Run A := {| stdout := []; stderr := []; ended := e |}.
Definition ret {A} (value : A) : Run A := stop (Returns value).

Definition bind {A B} (r : Run A) (k : A -> Run B) : Run B :=
  match ended r with
  | Returns value =>
      let next := k value in
      {| stdout := stdout r ++ stdout next; stderr := stderr r ++ stderr next; ended := ended next |}
  | Exits code => {| stdout := stdout r; stderr := stderr r; ended := Exits code |}
  | Fails message => {| stdout := stdout r; stderr := stderr r; ended := Fails message |}
  | Panics => {| stdout := stdout r; stderr := stderr r; ended := Panics |}
  end.

Declare Scope run_scope.
Delimit Scope run_scope with run.
Notation "'let*' x := r 'in' k" := (bind r (fun x => k))
  (at level 10, x binder, r at level 100, k at level 200) : run_scope.
Notation "r ;; k" := (bind r (fun _ => k)) (at level 100, k at level 200, right associativity) : run_scope.
Local Open Scope run_scope.

(** [None] is the panic of an index out of its range. *)
Definition unwrap {A} (o : option A) : Run A := match o with Some value => ret value | None => stop Panics end.

Definition print (template : String.string) (args : list Arg) : Run unit :=
  {| stdout := format (bstr template) args; stderr := []; ended := Returns tt |}.
Definition println (template : String.string) (args : list Arg) : Run unit :=
  {| stdout := format (bstr template) args ++ [LF]; stderr := []; ended := Returns tt |}.
Definition eprintln (template : String.string) (args : list Arg) : Run unit :=
  {| stdout := []; stderr := format (bstr template) args ++ [LF]; ended := Returns tt |}.
Arguments print template%_string_scope args%_list.
Arguments println template%_string_scope args%_list.
Arguments eprintln template%_string_scope args%_list.

(** A [for] loop. *)
Fixpoint for_each {A} (l : list A) (body : A -> Run unit) : Run unit :=
  match l with
  | [] => ret tt
  | x :: l => body x ;; for_each l body
  end.

(** A [for] loop that carries a value. *)
Fixpoint for_fold {A S} (l : list A) (s : S) (body : S -> A -> Run S) : Run S :=
  match l with
  | [] => ret s
  | x :: l => let* s := body s x in for_fold l s body
  end.

(** ** Strings *)

(** [self.contains(needle)] and [self.rfind(needle)], at a byte or at a string. *)
Definition contains (l needle : bytes) : bool :=
  match find_sub needle l with Some _ => true | None => false end.

Definition find_byte (b : Z) (l : bytes) : option nat := position (Z.eqb b) l.
Definition rfind_byte (b : Z) (l : bytes) : option nat := rposition (Z.eqb b) l.

(** The last index at which [needle] occurs. *)
Definition rfind (needle l : bytes) : option nat :=
  (fun i => length l - length needle - i)%nat <$> find_sub (rev needle) (rev l).

Definition is_char_boundary (l : bytes) (i : nat) : bool :=
  (i =? 0)%nat || (i =? length l)%nat
  || match l !! i with Some b => negb (is_continuation b) | None => false end.

(** [&self[..end]]: a range that ends inside a character panics. *)
Definition slice_to (l : bytes) (i : nat) : option bytes :=
  if is_char_boundary l i then Some (take i l) else None.

(** [self.split(needle)], for a needle that is not empty: every round takes more
    than one byte, so the length is enough. *)
Fixpoint split_str_loop (fuel : nat) (needle l : bytes) : list bytes :=
  match fuel, find_sub needle l with
  | S fuel, Some i => take i l :: split_str_loop fuel needle (drop (i + length needle) l)
  | _, _ => [l]
  end.

Definition split_str (needle l : bytes) : list bytes := split_str_loop (length l) needle l.

(** [char::is_ascii_hexdigit]. *)
Definition is_ascii_hexdigit (b : Z) : bool := is_ascii_digit b || in_range 65 70 b || in_range 97 102 b.

Definition to_ascii_lowercase (b : Z) : Z := if is_ascii_uppercase b then b + 32 else b.

(** [str::to_lowercase] lowers letters by the tables of Unicode; on ASCII it is
    [to_ascii_lowercase]. *)
Class Lowercase : Type := {
  to_lowercase : bytes -> bytes;
  to_lowercase_ascii l : Forall is_ascii_byte l -> to_lowercase l = to_ascii_lowercase <$> l;
}.

(** The tables cut down to ASCII. *)
#[export] Instance ascii_lowercase : Lowercase := {|
  to_lowercase l := to_ascii_lowercase <$> l;
  to_lowercase_ascii l _ := eq_refl;
|}.

(** ** Floats *)

Definition f64_sub : f64 -> f64 -> f64 := SFsub 53 1024.
Definition f64_abs : f64 -> f64 := SFabs.
Definition f64_zero : f64 := S754_zero false.
(** [Sum for f64] starts from a negative zero. *)
Definition f64_sum (l : list f64) : f64 := fold_left f64_add l (S754_zero true).

Definition f64_min (x y : f64) : f64 :=
  match x, y with
  | S754_nan, _ => y
  | _, S754_nan => x
  | _, _ => if f64_lt y x then y else x
  end.

(** The number nearest to [n / d]. *)
Definition f64_of_ratio (n d : positive) : f64 :=
  let '(m, e, l) := SFdiv_core_binary 53 1024 (Zpos n) 0 (Zpos d) 0 in binary_round_aux 53 1024 false m e l.

(** The number nearest to [n * 10 ^ e]. *)
Definition f64_of_scientific (n e : Z) : f64 :=
  match n with
  | Zpos p =>
      if 0 <=? e then binary_normalize 53 1024 (n * 10 ^ e) 0 false
      else f64_of_ratio p (Z.to_pos (10 ^ (- e)))
  | _ => f64_zero
  end.

(** A run of digits and what is behind it. *)
Fixpoint span_digits (l : bytes) : bytes * bytes :=
  match l with
  | b :: l' =>
      if is_ascii_digit b then let '(digits, rest) := span_digits l' in (b :: digits, rest) else ([], l)
  | [] => ([], [])
  end.

(** The digits of an exponent; the library stops counting at 65536. *)
Definition exponent_value (digits : bytes) : Z :=
  fold_left (fun e b => if e <? 65536 then 10 * e + (b - 48) else e) digits 0.

(** [parse_scientific] behind the letter; nothing may follow the digits. *)
Definition parse_exponent (l : bytes) : option Z :=
  let '(negative, l) :=
    match l with 45 :: l => (true, l) | 43 :: l => (false, l) | _ => (false, l) end in
  match span_digits l with
  | ([], _) => None
  | (digits, []) => Some (if negative : bool then - exponent_value digits else exponent_value digits)
  | (_, _ :: _) => None
  end.

(** Digits, a point with digits, at least one digit, and an exponent. *)
Definition parse_number (l : bytes) : option f64 :=
  let '(whole, rest) := span_digits l in
  let '(fraction, rest) := match rest with 46 :: rest => span_digits rest | _ => ([], rest) end in
  match whole ++ fraction with
  | [] => None
  | digits =>
      let exponent :=
        match rest with
        | [] => Some 0
        | b :: rest => if (b =? 101) || (b =? 69) then parse_exponent rest else None
        end in
      (fun e => f64_of_scientific (decimal_value digits) (e - Z.of_nat (length fraction))) <$> exponent
  end.

Definition parse_inf_nan (l : bytes) : option f64 :=
  if eq_ignore_ascii_case l (lit "nan") then Some S754_nan
  else if eq_ignore_ascii_case l (lit "inf") || eq_ignore_ascii_case l (lit "infinity")
  then Some (S754_infinity false) else None.

(** [self.parse::<f64>().ok()]. *)
Definition parse_f64 (l : bytes) : option f64 :=
  let '(negative, l) :=
    match l with 45 :: l => (true, l) | 43 :: l => (false, l) | _ => (false, l) end in
  match (match parse_number l with Some x => Some x | None => parse_inf_nan l end) with
  | Some x => Some (if negative : bool then SFopp x else x)
  | None => None
  end.

(** ** Maps *)

Section hash_map.
Context {K V : Type} `{!EqDecision K}.

(** The entries of a [HashMap], each key once, in the order of their insertion;
    the library walks them in an order of its own. *)
Abbreviation HashMap := (list (K * V)).

Fixpoint map_get (m : HashMap) (k : K) : option V :=
  match m with
  | [] => None
  | (k', v) :: m => if decide (k = k') then Some v else map_get m k
  end.

(** [m.entry(k)] with [or_insert(v0)], modified in place. *)
Fixpoint map_update (m : HashMap) (k : K) (v0 : V) (f : V -> V) : HashMap :=
  match m with
  | [] => [(k, f v0)]
  | (k', v) :: m => if decide (k = k') then (k', f v) :: m else (k', v) :: map_update m k v0 f
  end.

Definition map_insert (m : HashMap) (k : K) (v : V) : HashMap := map_update m k v (fun _ => v).

(** [iter.collect()]: a later pair takes the place of an earlier one. *)
Definition map_collect (l : list (K * V)) : HashMap := fold_left (fun m e => map_insert m (fst e) (snd e)) l [].
End hash_map.

(** [*m.entry(k).or_insert(0) += 1] for every key of a list. *)
Definition tally {K} `{!EqDecision K} (keys : list K) : list (K * Z) :=
  fold_left (fun m k => map_update m k 0 (Z.add 1)) keys [].

(** The order in which a map is walked differs from map to map, so it takes the
    number of the map too. *)
Class HashOrder : Type := {
  walk : nat -> forall K V : Type, list (K * V) -> list (K * V);
  walk_permutation n K V m : Permutation (walk n K V m) m;
}.
Arguments walk {_} n {K V} m.

(** Maps walked as they were filled. *)
#[export] Instance insertion_order : HashOrder := {|
  walk n K V m := m;
  walk_permutation n K V m := Permutation_refl m;
|}.

(** ** Sorting *)

Section sort.
Context {A : Type}.
(** The comparison gives [Less]. *)
Variable less : A -> A -> bool.

Fixpoint insert_sorted (x : A) (l : list A) : list A :=
  match l with
  | [] => [x]
  | y :: l => if less y x then y :: insert_sorted x l else x :: y :: l
  end.

(** [sort_by] is stable.  Where the comparison is no order, for numbers that are
    [NaN], the library promises nothing; this is then one of its outcomes. *)
Definition sort_by (l : list A) : list A := foldr insert_sorted [] l.
End sort.

(** ** Lemmas on programs *)

Lemma bind_ext {A B} (r : Run A) (f g : A -> Run B) : (forall x, f x = g x) -> bind r f = bind r g.
Proof. intros H. unfold bind. destruct (ended r); [|done..]. by rewrite H. Qed.

Lemma bind_assoc {A B C} (r : Run A) (f : A -> Run B) (g : B -> Run C) :
  bind (bind r f) g = bind r (fun x => bind (f x) g).
Proof.
  unfold bind. destruct (ended r) as [x| | |]; cbn [ended stdout stderr]; try done.
  destruct (ended (f x)); cbn [ended stdout stderr]; by rewrite <- ?app_assoc.
Qed.

Lemma bind_ret {A B} (x : A) (f : A -> Run B) : bind (ret x) f = f x.
Proof. unfold bind, ret, stop. cbn [ended stdout stderr app]. by destruct (f x). Qed.

(** ** Lemmas on strings *)

Lemma find_byte_first b l k :
  Forall (fun x => b <> x) l -> find_byte b (l ++ b :: k) = Some (length l).
Proof.
  intros Hl. apply position_app_here; [|apply Z.eqb_refl].
  eapply List.Forall_impl; [|exact Hl]. intros x Hx. by apply Z.eqb_neq.
Qed.

Lemma find_byte_none b l : Forall (fun x => b <> x) l -> find_byte b l = None.
Proof.
  intros Hl. apply position_None. eapply List.Forall_impl; [|exact Hl]. intros x Hx. by apply Z.eqb_neq.
Qed.

Lemma rfind_byte_last b l k :
  Forall (fun x => b <> x) k -> rfind_byte b (l ++ b :: k) = Some (length l).
Proof.
  intros Hk. unfold rfind_byte, rposition. rewrite rev_app_distr. cbn [rev]. rewrite <- app_assoc. cbn [app].
  fold (find_byte b (rev k ++ b :: rev l)). rewrite find_byte_first by (by apply Forall_rev).
  cbn [fmap option_fmap option_map]. f_equal. rewrite length_app, length_rev. cbn [length]. lia.
Qed.

Lemma rfind_byte_none b l : Forall (fun x => b <> x) l -> rfind_byte b l = None.
Proof.
  intros Hl. unfold rfind_byte, rposition. fold (find_byte b (rev l)).
  by rewrite find_byte_none by (by apply Forall_rev).
Qed.

(** A needle whose last byte does not come again is found where it is. *)
Lemma rfind_last needle c l k :
  Forall (fun x => c <> x) k ->
  rfind (needle ++ [c]) (l ++ (needle ++ [c]) ++ k) = Some (length l).
Proof.
  intros Hk. unfold rfind. rewrite !rev_app_distr. cbn [rev app].
  assert (find_sub (c :: rev needle) ((rev k ++ c :: rev needle) ++ rev l) = Some (length k)) as E.
  { apply find_sub_Some. unfold occurs_at. split.
    - rewrite <- app_assoc, <- (length_rev k), drop_app_length. cbn [app].
      change (c :: rev needle ++ rev l) with ((c :: rev needle) ++ rev l). by rewrite take_app_length.
    - intros j Hj Ho. cbn [length] in Ho.
      destruct (drop j ((rev k ++ c :: rev needle) ++ rev l)) as [|x rest] eqn:Ed; [done|].
      injection Ho as -> _. apply Forall_rev in Hk. rewrite Forall_lookup in Hk. apply (Hk j c); [|done].
      assert (((rev k ++ c :: rev needle) ++ rev l) !! j = Some c) as H by (by rewrite <- (Nat.add_0_r j), <- lookup_drop, Ed).
      rewrite <- app_assoc in H. by rewrite lookup_app_l in H by (rewrite length_rev; lia). }
  rewrite E. cbn [fmap option_fmap option_map]. f_equal. rewrite !length_app. cbn [length]. lia.
Qed.

(** Trimming stops at visible ASCII. *)
Lemma strip_all_stop es fuel b l :
  Forall starts_invisible es -> visible b -> strip_all fuel es (b :: l) = b :: l.
Proof. intros Hes Hb. destruct fuel; [done|]. cbn [strip_all]. by rewrite strip_one_visible. Qed.

Lemma strip_all_spaces es k fuel l :
  (forall l, strip_one es (SP :: l) = Some l) -> (k <= fuel)%nat ->
  strip_all fuel es (replicate k SP ++ l) = strip_all (fuel - k) es l.
Proof.
  intros Hs. revert fuel. induction k as [|k IH]; intros fuel Hf; [by rewrite Nat.sub_0_r|].
  destruct fuel as [|fuel]; [lia|]. cbn [replicate app strip_all]. rewrite Hs. apply IH. lia.
Qed.

Lemma white_space_space l : strip_one white_space (SP :: l) = Some l.
Proof. reflexivity. Qed.

Lemma rev_white_space_space l : strip_one (List.map (@rev Z) white_space) (SP :: l) = Some l.
Proof. reflexivity. Qed.

Lemma trim_start_spaces k b l : visible b -> trim_start (replicate k SP ++ b :: l) = b :: l.
Proof.
  intros Hb. unfold trim_start. rewrite strip_all_spaces.
  - apply strip_all_stop; [apply white_space_invisible|done].
  - apply white_space_space.
  - rewrite length_app, length_replicate. lia.
Qed.

Lemma rev_replicate {A} k (x : A) : rev (replicate k x) = replicate k x.
Proof.
  induction k as [|k IH]; [done|]. change (rev (replicate (S k) x)) with (rev (replicate k x) ++ [x]).
  rewrite IH. symmetry. apply replicate_cons_app.
Qed.

Lemma trim_end_spaces k b l : visible b -> trim_end ((l ++ [b]) ++ replicate k SP) = l ++ [b].
Proof.
  intros Hb. unfold trim_end. rewrite !rev_app_distr, rev_replicate, strip_all_spaces.
  - cbn [rev app]. rewrite strip_all_stop by (apply white_space_invisible || done).
    cbn [rev]. by rewrite rev_involutive.
  - apply rev_white_space_space.
  - rewrite !length_app, length_replicate. lia.
Qed.

(** Text between visible characters loses the spaces around it. *)
Definition framed (l : bytes) : Prop :=
  (exists b k, l = b :: k /\ visible b) /\ (exists k b, l = k ++ [b] /\ visible b).

Lemma trim_end_framed k l : framed l -> trim_end (l ++ replicate k SP) = l.
Proof. intros [_ (l' & b & -> & Hb)]. by apply trim_end_spaces. Qed.

Lemma trim_framed j k l : framed l -> trim (replicate j SP ++ l ++ replicate k SP) = l.
Proof.
  intros [(b & l' & E & Hb) (l'' & b' & E' & Hb')]. unfold trim. rewrite E. cbn [app].
  rewrite trim_start_spaces by done. rewrite app_comm_cons, <- E, E'. by apply trim_end_spaces.
Qed.

Lemma visible_framed l : l <> [] -> Forall visible l -> framed l.
Proof.
  intros Hne Hl. split.
  - destruct Hl as [|b k Hb _]; [done|]. by exists b, k.
  - destruct l as [|b k _] using rev_ind; [done|]. exists k, b. split; [done|].
    apply Forall_app in Hl as [_ Hl]. by inversion Hl.
Qed.

Lemma framed_app l k m : framed l -> framed m -> framed (l ++ k ++ m).
Proof.
  intros [(b & l' & -> & Hb) _] [_ (m' & b' & -> & Hb')]. split.
  - exists b, (l' ++ k ++ m' ++ [b']). done.
  - exists ((b :: l') ++ k ++ m'), b'. split; [by rewrite <- !app_assoc|done].
Qed.

(** ** Lemmas on sorting *)

Section sorted.
Context {A : Type} (less : A -> A -> bool).

Lemma insert_sorted_Permutation x l : Permutation (insert_sorted less x l) (x :: l).
Proof.
  induction l as [|y l IH]; [done|]. cbn [insert_sorted]. destruct (less y x); [|done].
  rewrite IH. constructor.
Qed.

Lemma sort_by_Permutation l : Permutation (sort_by less l) l.
Proof.
  induction l as [|x l IH]; [done|]. unfold sort_by in *. cbn [foldr].
  by rewrite insert_sorted_Permutation, IH.
Qed.

(** Where [less] is a strict order with incomparability an equivalence, nothing
    in the result is less than what stands before it. *)
Hypothesis less_asym : forall x y, less x y = true -> less y x = false.
Hypothesis less_cotrans : forall x y z, less x z = true -> less x y = true \/ less y z = true.

Definition in_order (l : list A) : Prop := StronglySorted (fun x y => less y x = false) l.

Lemma insert_in_order x l : in_order l -> in_order (insert_sorted less x l).
Proof.
  unfold in_order. induction 1 as [|y l Hl IH Hall]; cbn [insert_sorted]; [by repeat constructor|].
  destruct (less y x) eqn:E.
  - constructor; [done|]. rewrite insert_sorted_Permutation. constructor; [by apply less_asym|done].
  - constructor; [by constructor|]. constructor; [done|].
    eapply List.Forall_impl; [|exact Hall]. intros z Hz. cbn in *.
    destruct (less z x) eqn:Ez; [|done]. destruct (less_cotrans z y x Ez); congruence.
Qed.

Lemma sort_by_in_order l : in_order (sort_by less l).
Proof. induction l as [|x l IH]; [constructor|]. by apply insert_in_order. Qed.
End sorted.

Lemma sort_counts_in_order {K} (l : list (K * Z)) :
  StronglySorted (fun x y => y.2 <= x.2) (sort_by (fun a b => b.2 <? a.2) l).
Proof.
  assert (in_order (fun a b : K * Z => b.2 <? a.2) (sort_by (fun a b => b.2 <? a.2) l)) as H.
  { apply sort_by_in_order.
    - intros x y E%Z.ltb_lt. apply Z.ltb_ge. lia.
    - intros x y z E%Z.ltb_lt. rewrite !Z.ltb_lt. lia. }
  unfold in_order in H. induction H as [|x k Hk IH Hall]; constructor; [done|].
  eapply List.Forall_impl; [|exact Hall]. intros y E. cbn in E. apply Z.ltb_ge in E. lia.
Qed.

(** ** Lemmas on counting *)

Section tally.
Context {K : Type} `{!EqDecision K}.

Definition occurrences (k : K) (l : list K) : nat := length (List.filter (fun k' => bool_decide (k' = k)) l).

Lemma map_get_update {V} (m : list (K * V)) k v0 f k' :
  map_get (map_update m k v0 f) k'
  = if decide (k = k') then Some (f (default v0 (map_get m k))) else map_get m k'.
Proof.
  induction m as [|[k1 v] m IH]; cbn [map_update map_get].
  - by destruct (decide (k' = k)), (decide (k = k')); simplify_eq.
  - destruct (decide (k = k1)) as [->|Hne]; cbn [map_get].
    + by destruct (decide (k' = k1)), (decide (k1 = k')); simplify_eq.
    + rewrite IH. destruct (decide (k' = k1)) as [->|]; [|done]. by rewrite decide_False by done.
Qed.

Lemma map_update_keys {V} (m : list (K * V)) k v0 f :
  NoDup (fst <$> m) -> NoDup (fst <$> map_update m k v0 f) /\
  (forall k', k' ∈ (fst <$> map_update m k v0 f) <-> k' = k \/ k' ∈ (fst <$> m)).
Proof.
  induction m as [|[k1 v] m IH]; cbn [map_update].
  - intros _. split; [repeat constructor; by apply not_elem_of_nil|]. intros k'. cbn. set_solver.
  - rewrite fmap_cons. cbn [fst]. intros [Hk Hm]%list.NoDup_cons. destruct (decide (k = k1)) as [->|Hne]; cbn [fmap list_fmap fst].
    + split; [by constructor|]. intros k'. set_solver.
    + destruct (IH Hm) as [IHn IHk]. split.
      * constructor; [|done]. rewrite IHk. intros [->|]; done.
      * intros k'. rewrite !elem_of_cons, IHk. tauto.
Qed.

Lemma map_get_elem {V} (m : list (K * V)) k v : NoDup (fst <$> m) -> map_get m k = Some v <-> (k, v) ∈ m.
Proof.
  induction m as [|[k1 v1] m IH]; cbn [map_get]; [by rewrite elem_of_nil|].
  rewrite fmap_cons. cbn [fst]. intros [Hk Hm]%list.NoDup_cons. rewrite elem_of_cons.
  destruct (decide (k = k1)) as [->|Hne].
  - split; [by intros [= ->]; left|]. intros [[= ->]|Hin]; [done|].
    destruct Hk. apply list_elem_of_fmap. by exists (k1, v).
  - rewrite IH by done. split; [by right|]. intros [[= -> ->]|]; done.
Qed.

Definition counts (m : list (K * Z)) (l : list K) : Prop :=
  NoDup (fst <$> m) /\ foldr Z.add 0 (snd <$> m) = Z.of_nat (length l)
  /\ forall k, map_get m k = if decide (k ∈ l) then Some (Z.of_nat (occurrences k l)) else None.

Lemma occurrences_snoc k l k' :
  occurrences k (l ++ [k']) = (occurrences k l + if decide (k' = k) then 1 else 0)%nat.
Proof.
  unfold occurrences. rewrite List.filter_app, length_app. cbn [List.filter]. f_equal.
  by destruct (decide (k' = k)) as [->|Hne]; [rewrite bool_decide_eq_true_2|rewrite bool_decide_eq_false_2].
Qed.

Lemma occurrences_0 k l : k ∉ l -> occurrences k l = 0%nat.
Proof.
  induction l as [|x l IH]; [done|]. rewrite not_elem_of_cons. intros [Hne Hl]. unfold occurrences in *.
  cbn [List.filter]. rewrite bool_decide_eq_false_2 by congruence. by apply IH.
Qed.

Lemma map_update_sum (m : list (K * Z)) k : foldr Z.add 0 (snd <$> map_update m k 0 (Z.add 1)) = foldr Z.add 0 (snd <$> m) + 1.
Proof.
  induction m as [|[k1 v] m IH]; [done|]. cbn [map_update]. destruct (decide (k = k1)); rewrite !fmap_cons; cbn [snd foldr]; lia.
Qed.

(** Every key once, with the number of its occurrences, which add up to all. *)
Lemma tally_counts l : counts (tally l) l.
Proof.
  unfold counts, tally. induction l as [|k l (Hn & Hs & Hg)] using rev_ind; [by repeat constructor|].
  rewrite fold_left_app. cbn [fold_left]. set (m := fold_left _ l []) in *. split; [by apply map_update_keys|].
  split; [rewrite map_update_sum, Hs, length_app; cbn [length]; lia|]. intros k'.
  rewrite map_get_update, occurrences_snoc. destruct (decide (k = k')) as [<-|Hne].
  - rewrite (decide_True (P := k ∈ l ++ [k])) by set_solver. rewrite Hg. f_equal.
    destruct (decide (k ∈ l)); cbn [default from_option]; [unfold id|rewrite occurrences_0 by done]; lia.
  - rewrite Hg, Nat.add_0_r. destruct (decide (k' ∈ l)), (decide (k' ∈ l ++ [k])); set_solver.
Qed.

Lemma counts_permutation m m' l : Permutation m' m -> counts m l -> counts m' l.
Proof.
  intros Hp (Hn & Hs & Hg). assert (NoDup (fst <$> m')) as Hn' by by rewrite Hp.
  split; [done|]. split.
  - rewrite <- Hs. clear -Hp. induction Hp as [| | |? ? ? ? IH1 ? IH2]; rewrite ?fmap_cons; cbn [foldr]; [done|lia|lia|].
    by rewrite IH1.
  - intros k. rewrite <- Hg. apply option_eq. intros v. rewrite !map_get_elem by done. by rewrite Hp.
Qed.

(** What a report walks and sorts. *)
Lemma ranking_counts `{!HashOrder} n (l : list K) :
  let ranking := sort_by (fun a b => b.2 <? a.2) (walk n (tally l)) in
  counts ranking l /\ StronglySorted (fun x y => y.2 <= x.2) ranking.
Proof.
  split; [|apply sort_counts_in_order]. eapply counts_permutation; [|apply tally_counts].
  by rewrite sort_by_Permutation, walk_permutation.
Qed.
End tally.
