(* ===== verification/PerfScript.v ===== *)
(** * The reader of [perf script] output ([src/scripts/parse_perfdata.rs])

    The log on standard input becomes samples ([read_samples], a state machine
    over the lines with [parse_header] and [parse_frame]); six reports are
    printed on them.  A sample is a thread, a time and a stack of functions. *)
From Stdlib Require Import Floats.SpecFloat.
From stdpp Require Import sorting.
From S2P Require Import Prelude Utf8 Decimal Text Float64 Format ProfileScripts.

Local Open Scope Z_scope.
Local Open Scope run_scope.

(** ** Samples *)

Record Sample : Type := {
  comm : bytes;
  tid : Z;
  time : f64;
  stack : list bytes;
}.

(** [comm pid/tid [cpu] timestamp: count event:]. *)
Definition parse_header (line : bytes) : option (bytes * Z * f64) :=
  find_byte 58 line ≫= fun first_colon =>
  let before_colon := trim_end (take first_colon line) in
  rfind_byte 32 before_colon ≫= fun ts_space =>
  parse_f64 (drop (S ts_space) before_colon) ≫= fun time =>
  let prefix := trim_end (take ts_space before_colon) in
  (if ends_with prefix (lit "]")
   then (fun bracket => trim_end (take bracket prefix)) <$> rfind_byte 91 prefix
   else Some prefix) ≫= fun prefix =>
  rfind_byte 32 prefix ≫= fun last_space =>
  let comm := trim (take last_space prefix) in
  let tid_str := drop (S last_space) prefix in
  parse_u32 (match find_byte 47 tid_str with Some slash => drop (S slash) tid_str | None => tid_str end)
    ≫= fun tid =>
  Some (comm, tid, time).

(** [addr func+0xoffset (module)]. *)
Definition parse_frame (line : bytes) : option bytes :=
  find_byte 32 line ≫= fun space =>
  let rest := trim (drop (S space) line) in
  let func_part := match rfind (lit " (") rest with Some paren => take paren rest | None => rest end in
  let func :=
    match rfind_byte 43 func_part with
    | Some plus =>
        let after := drop (S plus) func_part in
        if starts_with after (lit "0x") || forallb is_ascii_hexdigit after then take plus func_part else func_part
    | None => func_part
    end in
  match func with [] => None | _ => Some func end.

(** The variables of the loop of [main]. *)
Record Reader : Type := {
  rd_samples : list Sample;
  rd_comm : bytes;
  rd_tid : Z;
  rd_time : f64;
  rd_stack : list bytes;
}.

Definition reader_start : Reader :=
  {| rd_samples := []; rd_comm := []; rd_tid := 0; rd_time := f64_zero; rd_stack := [] |}.

(** A sample needs a name and a stack. *)
Definition flushed (r : Reader) : list Sample :=
  match rd_comm r, rd_stack r with
  | _ :: _, _ :: _ =>
      rd_samples r ++ [{| comm := rd_comm r; tid := rd_tid r; time := rd_time r; stack := rd_stack r |}]
  | _, _ => rd_samples r
  end.

Definition read_line (r : Reader) (line : bytes) : Reader :=
  match line with
  | [] =>
      {| rd_samples := flushed r; rd_comm := []; rd_tid := rd_tid r; rd_time := rd_time r; rd_stack := [] |}
  | b :: _ =>
      if negb (b =? HT) && negb (b =? SP) then
        match parse_header line with
        | Some (comm, tid, time) =>
            {| rd_samples := rd_samples r; rd_comm := comm; rd_tid := tid; rd_time := time; rd_stack := [] |}
        | None => r
        end
      else
        match parse_frame (trim line) with
        | Some func =>
            {| rd_samples := rd_samples r; rd_comm := rd_comm r; rd_tid := rd_tid r; rd_time := rd_time r;
               rd_stack := rd_stack r ++ [func] |}
        | None => r
        end
  end.

(** A line that is no text is skipped. *)
Definition read_samples (lines : list (option bytes)) : list Sample :=
  flushed (fold_left (fun r line => match line with Some line => read_line r line | None => r end) lines reader_start).

(** [BufRead::lines]: the line feed is cut off, a carriage return before it too;
    the last line may lack them. *)
Definition text_line (line : bytes) : option bytes := match from_utf8 line with Some _ => Some line | None => None end.

Fixpoint lines_from (line l : bytes) : list (option bytes) :=
  match l with
  | [] => match line with [] => [] | _ => [text_line line] end
  | b :: l =>
      if b =? LF then text_line (default line (strip_suffix line [CR])) :: lines_from [] l
      else lines_from (line ++ [b]) l
  end.

Definition stdin_lines (input : bytes) : list (option bytes) := lines_from [] input.

(** ** Reports *)

Definition dashes (n : nat) : list Arg := [ArgText (replicate n 45)].
Definition count_arg (n : nat) : Arg := ArgInt (Z.of_nat n).

(** [count as f64 / total as f64 * 100.0]. *)
Definition percent (count : Z) (total : nat) : f64 :=
  f64_mul (f64_div (f64_of_int count) (f64_of_int (Z.of_nat total))) (f64_of_int 100).

(** [b.1.cmp(&a.1)]: larger counts first. *)
Definition by_count {K} (l : list (K * Z)) : list (K * Z) := sort_by (fun a b => b.2 <? a.2) l.

Definition leaves (samples : list Sample) : list bytes := omap (fun s => head (stack s)) samples.

Definition truncate (s : bytes) (max : nat) : option bytes :=
  if (length s <=? max)%nat then Some s else slice_to s max.

Definition thread_of (s : Sample) : Z * bytes := (tid s, comm s).

(** ** Categories *)

Delimit Scope string_scope with string.

(** The categories in the order they are tried, each with the texts one of which
    a name of it has in lower case. *)
Definition CATEGORIES : list (String.string * list String.string) :=
  [("Cache", ["foyer"; "hybrid_cache"; "hybridarticle"; "article_cache"; "unified_cache"; "cache::"; "moka"]);
   ("NNTP Protocol", ["nntp"; "precheck"; "article_routing"; "client_session"; "backend_execution";
     "command_guard"; "route_command"; "status_code"; "message_id"]);
   ("TLS/Crypto", ["tls"; "ssl"; "rustls"; "aes"; "cipher"; "encrypt"; "decrypt"; "handshake"; "aws_lc";
     "ring::"; "chacha"]);
   ("Compression", ["lz4"; "compress"; "decompress"; "zstd"]);
   ("Connection Pool", ["deadpool"; "pool"; "connection_provider"]);
   ("Network I/O", ["recv"; "send"; "tcp"; "socket"; "inet"; "skb"; "net_"]);
   ("Disk I/O", ["zfs"; "zpl"; "zil"; "vfs"; "write_all"; "ext4"; "xfs"; "btrfs"; "block_"; "io_uring";
     "pread"; "pwrite"]);
   ("Locks/Futex", ["futex"; "mutex"; "lock"; "rwlock"; "semaphore"; "parking_lot"]);
   ("Event Loop", ["epoll"; "poll"; "mio"]);
   ("Tokio Runtime", ["tokio"; "runtime"]);
   ("Async/Futures", ["futures"; "async"; "waker"]);
   ("Scheduling", ["schedule"; "switch"; "context"]);
   ("Memory", ["alloc"; "malloc"; "free"; "mmap"; "brk"; "jemalloc"])]%string.

(** The starts that make a name of no category a system call. *)
Definition SYSCALLS : list String.string :=
  ["__x64_sys_"; "syscall"; "do_syscall"; "entry_SYSCALL"]%string.

Section reports.
Context `{Ho : !HashOrder, Lc : !Lowercase}.

Definition print_thread_breakdown (samples : list Sample) : Run unit :=
  let total := length samples in
  let threads := by_count (walk 0 (tally (thread_of <$> samples))) in
  println "=== Thread Breakdown ({} total samples) ===\n" [count_arg total] ;;
  println "{:>7} {:>10}  {:>7}  {}" (ArgText <$> [lit "%"; lit "samples"; lit "tid"; lit "comm"]) ;;
  println "{}" (dashes 60) ;;
  for_each threads (fun '((tid, comm), count) =>
    println "{:>6.2}% {:>10}  {:>7}  {}" [ArgFloat (percent count total); ArgInt count; ArgInt tid; ArgText comm]).

Definition print_top_functions (samples : list Sample) (n : nat) : Run unit :=
  let total := length samples in
  let funcs := by_count (walk 1 (tally (leaves samples))) in
  println "=== Top {} Functions (self/on-CPU time) ===\n" [count_arg n] ;;
  println "{:>7} {:>10}  {}" (ArgText <$> [lit "%"; lit "samples"; lit "Function"]) ;;
  println "{}" (dashes 100) ;;
  let* shown_pct := for_fold (take n funcs) f64_zero (fun shown '(func, count) =>
    let pct := percent count total in
    let* name := unwrap (truncate func 80) in
    println "{:>6.2}% {:>10}  {}" [ArgFloat pct; ArgInt count; ArgText name] ;;
    ret (f64_add shown pct)) in
  println "{}" (dashes 100) ;;
  println "{:>6.2}%             Total ({} functions shown)" [ArgFloat shown_pct; count_arg (Nat.min (length funcs) n)].

Definition group_by_thread (samples : list Sample) : list ((Z * bytes) * list Sample) :=
  fold_left (fun m s => map_update m (thread_of s) [] (fun l => l ++ [s])) samples [].

(** The maps of the loop are the maps [8], [10] and so on. *)
Definition print_thread_functions (n i : nat) (entry : (Z * bytes) * list Sample) : Run unit :=
  let '((tid, comm), thread_samples) := entry in
  let thread_total := length thread_samples in
  let funcs := by_count (walk (8 + 2 * i) (tally (leaves thread_samples))) in
  println "\n--- {} (tid {}, {} samples) ---\n" [ArgText comm; ArgInt tid; count_arg thread_total] ;;
  println "{:>7} {:>10}  {}" (ArgText <$> [lit "%"; lit "samples"; lit "Function"]) ;;
  for_each (take n funcs) (fun '(func, count) =>
    let* name := unwrap (truncate func 75) in
    println "{:>6.2}% {:>10}  {}" [ArgFloat (percent count thread_total); ArgInt count; ArgText name]).

Definition print_top_functions_per_thread (samples : list Sample) (n : nat) : Run unit :=
  let threads := sort_by (fun a b => length b.2 <? length a.2)%nat (walk 2 (group_by_thread samples)) in
  println "=== Top Functions Per Thread ===" [] ;;
  for_each (imap pair (take 8 threads)) (fun '(i, entry) => print_thread_functions n i entry).

(** The windows of two frames: a caller and the callee below it. *)
Definition edges_of (s : Sample) : list (bytes * bytes) := zip (tail (stack s)) (stack s).

Definition print_callee_edges (samples : list Sample) (n : nat) : Run unit :=
  let edge_list := by_count (walk 3 (tally (samples ≫= edges_of))) in
  let total := length samples in
  println "=== Top {} Caller -> Callee Edges ===\n" [count_arg n] ;;
  println "{:>7} {:>10}  {} -> {}" (ArgText <$> [lit "%"; lit "samples"; lit "Caller"; lit "Callee"]) ;;
  println "{}" (dashes 120) ;;
  for_each (take n edge_list) (fun '((caller, callee), count) =>
    let* caller := unwrap (truncate caller 50) in
    let* callee := unwrap (truncate callee 50) in
    println "{:>6.2}% {:>10}  {} -> {}" [ArgFloat (percent count total); ArgInt count; ArgText caller; ArgText callee]).

(** ** The timeline *)

Definition min_time (samples : list Sample) : f64 := fold_left f64_min (time <$> samples) (S754_infinity false).
Definition max_time (samples : list Sample) : f64 := fold_left f64_max (time <$> samples) (S754_infinity true).
Definition duration (samples : list Sample) : f64 := f64_sub (max_time samples) (min_time samples).

Record Bucket : Type := {
  start : f64;
  total : nat;
  by_thread : list (Z * Z);
  top_funcs : list (bytes * Z);
}.

Definition bucket_width (samples : list Sample) (buckets : nat) : f64 :=
  f64_div (duration samples) (f64_of_int (Z.of_nat buckets)).

(** The index of a time: the cast saturates, and the last bucket takes the rest. *)
Definition bucket_index (samples : list Sample) (buckets : nat) (s : Sample) : nat :=
  Z.to_nat (Z.min
    (f64_as_u64 (f64_div (f64_sub (time s) (min_time samples)) (bucket_width samples buckets)))
    (Z.of_nat buckets - 1)).

Definition empty_buckets (samples : list Sample) (buckets : nat) : list Bucket :=
  (fun i => {| start := f64_add (min_time samples)
                          (f64_mul (f64_of_int (Z.of_nat i)) (bucket_width samples buckets));
               total := 0; by_thread := []; top_funcs := [] |}) <$> seq 0 buckets.

Definition bucket_add (s : Sample) (b : Bucket) : Bucket :=
  {| start := start b;
     total := total b + 1;
     by_thread := map_update (by_thread b) (tid s) 0 (Z.add 1);
     top_funcs := match head (stack s) with
                  | Some leaf => map_update (top_funcs b) leaf 0 (Z.add 1)
                  | None => top_funcs b
                  end |}.

Definition fill_buckets (samples : list Sample) (buckets : nat) : list Bucket :=
  fold_left (fun bucket_vec s => alter (bucket_add s) (bucket_index samples buckets s) bucket_vec)
    samples (empty_buckets samples buckets).

(** [iter.max_by_key(..)]: the last of the largest. *)
Definition max_by_count {K} (l : list (K * Z)) : option (K * Z) :=
  fold_left (fun best e =>
    match best with Some b => if e.2 <? b.2 then Some b else Some e | None => Some e end) l None.

Definition top_threads (samples : list Sample) : list Z :=
  fst <$> take 6 (by_count (walk 4 (tally (tid <$> samples)))).

(** The first name of a thread stays. *)
Definition tid_to_comm (samples : list Sample) : list (Z * bytes) :=
  fold_left (fun m s => map_update m (tid s) (comm s) id) samples [].

Definition print_labels (samples : list Sample) : Run unit :=
  for_each (top_threads samples) (fun tid =>
    let name := default (lit "?") (map_get (tid_to_comm samples) tid) in
    let* label := unwrap (if (10 <? length name)%nat then slice_to name 10 else Some name) in
    print "  {:>10}" [ArgText label]).

Definition print_bucket (samples : list Sample) (buckets i : nat) (b : Bucket) : Run unit :=
  let offset := f64_sub (start b) (min_time samples) in
  print "{:>8.1}-{:<3.1} {:>8}"
    [ArgFloat offset; ArgFloat (f64_add offset (bucket_width samples buckets)); count_arg (total b)] ;;
  for_each (top_threads samples) (fun tid =>
    let count := default 0 (map_get (by_thread b) tid) in
    let pct := if (0 <? total b)%nat then percent count (total b) else f64_zero in
    print "  {:>7.1}%  " [ArgFloat pct]) ;;
  match max_by_count (walk (9 + 2 * i) (top_funcs b)) with
  | Some (func, _) => let* name := unwrap (truncate func 40) in print "  {}" [ArgText name]
  | None => ret tt
  end ;;
  println "" [].

Definition print_phase_diff (number : nat) (primary other : list (bytes * Z)) (primary_total other_total n : nat)
    : Run unit :=
  if (primary_total =? 0)%nat || (other_total =? 0)%nat then println "  (insufficient data)" [] else
  let diffs := omap (fun '(func, count) =>
    let pct_primary := percent count primary_total in
    let pct_other := percent (default 0 (map_get other func)) other_total in
    let diff := f64_sub pct_primary pct_other in
    if f64_lt (f64_of_scientific 1 (-1)) diff then Some (func, pct_primary, pct_other, diff) else None)
    (walk number primary) in
  let diffs := sort_by (fun a b => f64_lt b.2 a.2) diffs in
  println "{:>7} {:>7} {:>7}  {}" (ArgText <$> [lit "this%"; lit "other%"; lit "diff%"; lit "Function"]) ;;
  for_each (take n diffs) (fun '(func, pct_p, pct_o, diff) =>
    let* name := unwrap (truncate func 70) in
    println "{:>6.2}% {:>6.2}% {:>+6.2}%  {}" [ArgFloat pct_p; ArgFloat pct_o; ArgFloat diff; ArgText name]).

Definition in_first_half (samples : list Sample) (buckets : nat) (s : Sample) : bool :=
  (bucket_index samples buckets s <? buckets / 2)%nat.

Definition first_half (samples : list Sample) (buckets : nat) : nat :=
  sum_list (total <$> take (buckets / 2) (fill_buckets samples buckets)).
Definition second_half (samples : list Sample) (buckets : nat) : nat :=
  sum_list (total <$> drop (buckets / 2) (fill_buckets samples buckets)).

Definition print_halves (samples : list Sample) (buckets : nat) : Run unit :=
  let first := first_half samples buckets in
  let second := second_half samples buckets in
  let first_funcs := tally (leaves (List.filter (in_first_half samples buckets) samples)) in
  let second_funcs := tally (leaves (List.filter (fun s => negb (in_first_half samples buckets s)) samples)) in
  println "" [] ;;
  println "First half: {} samples ({:.1}%), Second half: {} samples ({:.1}%)"
    [count_arg first; ArgFloat (percent (Z.of_nat first) (length samples));
     count_arg second; ArgFloat (percent (Z.of_nat second) (length samples))] ;;
  println "\nFunctions hotter in FIRST half (cold phase):" [] ;;
  print_phase_diff 5 first_funcs second_funcs first second 10 ;;
  println "\nFunctions hotter in SECOND half (hot/cached phase):" [] ;;
  print_phase_diff 6 second_funcs first_funcs second first 10.

Definition print_timeline (samples : list Sample) (buckets : nat) : Run unit :=
  if (length samples =? 0)%nat then ret tt else
  if f64_le (duration samples) f64_zero then
    println "=== Timeline ===\n" [] ;;
    println "All samples at same timestamp - cannot bucket." []
  else
    println "=== Timeline ({:.1}s duration, {} buckets) ===\n" [ArgFloat (duration samples); count_arg buckets] ;;
    println "This shows sample distribution over time to distinguish cold (early) vs hot (late) phases.\n" [] ;;
    print "{:>12} {:>8}" (ArgText <$> [lit "Time(s)"; lit "Samples"]) ;;
    print_labels samples ;;
    println "  Top function" [] ;;
    println "{}" (dashes 120) ;;
    for_each (imap pair (fill_buckets samples buckets)) (fun '(i, b) => print_bucket samples buckets i b) ;;
    print_halves samples buckets.

Definition categorize (name : bytes) : bytes :=
  let lower := to_lowercase name in
  match List.find (fun c => existsb (fun text => contains lower (lit text)) c.2) CATEGORIES with
  | Some c => lit c.1
  | None => if existsb (fun start => starts_with name (lit start)) SYSCALLS then lit "Syscall" else lit "Other"
  end.

Definition print_category_summary (samples : list Sample) : Run unit :=
  let total := length samples in
  let cats := by_count (walk 7 (tally (categorize <$> leaves samples))) in
  println "=== Category Summary (self time) ===\n" [] ;;
  println "{:>7} {:>10}  {}" (ArgText <$> [lit "%"; lit "samples"; lit "Category"]) ;;
  println "{}" (dashes 40) ;;
  for_each cats (fun '(cat, count) =>
    println "{:>6.2}% {:>10}  {}" [ArgFloat (percent count total); ArgInt count; ArgText cat]).

(** ** The program *)

Definition main (input : bytes) : Run unit :=
  let samples := read_samples (stdin_lines input) in
  if (length samples =? 0)%nat then
    eprintln "No samples parsed. Make sure to pipe `perf script` output." [] ;;
    stop (Exits 1)
  else
    print_thread_breakdown samples ;;
    println "" [] ;;
    print_top_functions samples 40 ;;
    println "" [] ;;
    print_top_functions_per_thread samples 15 ;;
    println "" [] ;;
    print_callee_edges samples 30 ;;
    println "" [] ;;
    print_timeline samples 10 ;;
    println "" [] ;;
    print_category_summary samples.
End reports.

(** ** A log is read as it was written *)

(** A frame as it stands in a log; the offset may be missing. *)
Record Frame : Type := {
  f_address : bytes;
  f_function : bytes;
  f_offset : option bytes;
  f_module : bytes;
}.

(** A sample as it stands in a log: the header with its columns filled up with
    spaces, the processor and the process if they are there, the frames. *)
Record Entry : Type := {
  e_comm : bytes;
  e_pid : option Z;
  e_tid : Z;
  e_cpu : option bytes;
  e_time : bytes;
  e_event : bytes;
  e_spaces : nat;
  e_frames : list Frame;
}.

Definition spaces (n : nat) : bytes := replicate n SP.

Definition ids_text (e : Entry) : bytes :=
  match e_pid e with Some pid => print_decimal pid ++ lit "/" | None => [] end ++ print_decimal (e_tid e).

Definition prefix_text (e : Entry) : bytes := e_comm e ++ spaces (e_spaces e) ++ SP :: ids_text e.

Definition before_time (e : Entry) : bytes :=
  prefix_text e ++ match e_cpu e with
                   | Some cpu => spaces (e_spaces e) ++ (lit " " ++ lit "[" ++ cpu ++ lit "]") | None => [] end.

Definition header_text (e : Entry) : bytes :=
  before_time e ++ spaces (e_spaces e) ++ SP :: e_time e ++ 58 :: e_event e.

Definition function_text (f : Frame) : bytes :=
  f_function f ++ match f_offset f with Some offset => lit "+0x" ++ offset | None => [] end.

Definition frame_text (f : Frame) : bytes :=
  HT :: f_address f ++ SP :: function_text f ++ lit " (" ++ f_module f ++ lit ")".

Definition entry_lines (e : Entry) : list bytes := header_text e :: (frame_text <$> e_frames e) ++ [[]].

Definition log_text (log : list Entry) : bytes := (log ≫= entry_lines) ≫= (fun line => line ++ [LF]).

Definition printable (l : bytes) : Prop := Forall (fun b => 32 <= b <= 126) l.
Definition without (b : Z) (l : bytes) : Prop := Forall (fun x => b <> x) l.

(** What the columns of a header may hold. *)
Record entry_ok (e : Entry) (t : f64) : Prop := {
  ok_comm : framed (e_comm e);
  ok_comm_text : printable (e_comm e) /\ without 58 (e_comm e);
  ok_pid : forall pid, e_pid e = Some pid -> 0 <= pid <= u64_max;
  ok_tid : 0 <= e_tid e <= 4294967295;
  ok_cpu : forall cpu, e_cpu e = Some cpu -> printable cpu /\ without 58 cpu /\ without 91 cpu;
  ok_time : e_time e <> [] /\ Forall visible (e_time e) /\ without 58 (e_time e);
  ok_time_value : parse_f64 (e_time e) = Some t;
  ok_event : printable (e_event e);
}.

Record frame_ok (f : Frame) : Prop := {
  ok_address : f_address f <> [] /\ Forall visible (f_address f);
  ok_function : framed (f_function f) /\ printable (f_function f);
  ok_offset : match f_offset f with
              | Some offset => printable offset /\ without 43 offset
              | None => without 43 (f_function f)
              end;
  ok_module : printable (f_module f) /\ without 40 (f_module f);
}.

Definition sample_of (e : Entry) (t : f64) : Sample :=
  {| comm := e_comm e; tid := e_tid e; time := t; stack := f_function <$> e_frames e |}.

Lemma decimal_visible n b : 0 <= n <= u64_max -> b < 48 \/ 57 < b ->
  print_decimal n <> [] /\ Forall visible (print_decimal n) /\ without b (print_decimal n).
Proof.
  intros Hn Hb. destruct (print_decimal_spec n Hn) as (Hd & _ & Hl). split.
  { intros E. rewrite E in Hl. cbn in Hl. lia. }
  rewrite forallb_forall in Hd. unfold visible, without.
  split; apply List.Forall_forall; intros x Hx%Hd%is_ascii_digit_spec; lia.
Qed.

Lemma without_spaces b n : b <> SP -> without b (spaces n).
Proof. intros Hb. by apply Forall_replicate. Qed.

Lemma visible_without b l : b < 33 -> Forall visible l -> without b l.
Proof. intros Hb Hl. eapply List.Forall_impl; [|exact Hl]. unfold visible. intros x Hx. lia. Qed.

Lemma ids_visible e b :
  (forall pid, e_pid e = Some pid -> 0 <= pid <= u64_max) -> 0 <= e_tid e <= 4294967295 ->
  b < 47 \/ 57 < b -> ids_text e <> [] /\ Forall visible (ids_text e) /\ without b (ids_text e).
Proof.
  intros Hp Ht Hb. unfold ids_text.
  destruct (decimal_visible (e_tid e) b) as (Hne & Hv & Hw); [unfold u64_max; lia|lia|].
  destruct (e_pid e) as [pid|]; [|done]. specialize (Hp pid eq_refl).
  destruct (decimal_visible pid b Hp) as (_ & Hv' & Hw'); [lia|].
  split; [by intros [_ ?]%app_nil|]. unfold without, visible in *.
  change (lit "/") with [47]. split; (apply Forall_app; split; [apply Forall_app; split; [done|]|done]); (apply List.Forall_cons; [lia|constructor]).
Qed.

(** The thread is behind the slash, if there is one. *)
Lemma ids_parsed e :
  (forall pid, e_pid e = Some pid -> 0 <= pid <= u64_max) -> 0 <= e_tid e <= 4294967295 ->
  parse_u32 (match find_byte 47 (ids_text e) with Some slash => drop (S slash) (ids_text e) | None => ids_text e end)
  = Some (e_tid e).
Proof.
  intros Hp Ht. unfold ids_text.
  destruct (decimal_visible (e_tid e) 47) as (Hne & _ & Hw); [unfold u64_max; lia|lia|].
  assert (parse_u32 (print_decimal (e_tid e)) = Some (e_tid e)) as Hparse.
  { destruct (print_decimal_spec (e_tid e)) as (Hd & Hv & _); [unfold u64_max; lia|].
    unfold parse_u32. rewrite parse_unsigned_digits; [by rewrite Hv|done|done|rewrite Hv; lia]. }
  destruct (e_pid e) as [pid|].
  - destruct (decimal_visible pid 47 (Hp pid eq_refl)) as (_ & _ & Hw'); [lia|]. rewrite <- app_assoc. cbn [lit app].
    change (lit "/" ++ print_decimal (e_tid e)) with (47 :: print_decimal (e_tid e)).
    rewrite find_byte_first by done. by rewrite drop_app_ge, Nat.sub_succ_l, Nat.sub_diag by lia.
  - cbn [app]. by rewrite find_byte_none by done.
Qed.

Section header.
Variables (e : Entry) (t : f64).
Hypothesis He : entry_ok e t.

Lemma ids_good b : b < 47 \/ 57 < b -> ids_text e <> [] /\ Forall visible (ids_text e) /\ without b (ids_text e).
Proof. destruct He. by apply ids_visible. Qed.

Lemma prefix_framed : framed (prefix_text e).
Proof.
  destruct (ids_good 93) as (Hne & Hv & _); [lia|]. unfold prefix_text.
  change (SP :: ids_text e) with ([SP] ++ ids_text e). rewrite (app_assoc (spaces _)).
  apply framed_app; [apply He|by apply visible_framed].
Qed.

Lemma before_framed : framed (before_time e).
Proof.
  unfold before_time. destruct (e_cpu e) as [cpu|]; [|rewrite app_nil_r; apply prefix_framed].
  replace (spaces (e_spaces e) ++ lit " " ++ lit "[" ++ cpu ++ lit "]")
    with ((spaces (e_spaces e) ++ lit " " ++ lit "[" ++ cpu) ++ lit "]") by by rewrite <- !app_assoc.
  apply framed_app; [apply prefix_framed|]. apply visible_framed; [done|].
  change (lit "]") with [93]. apply List.Forall_cons; [unfold visible; lia|constructor].
Qed.

(** The processor is cut off. *)
Lemma cpu_stripped :
  (if ends_with (before_time e) (lit "]")
   then (fun bracket => trim_end (take bracket (before_time e))) <$> rfind_byte 91 (before_time e)
   else Some (before_time e)) = Some (prefix_text e).
Proof.
  unfold before_time. destruct (e_cpu e) as [cpu|] eqn:Ec.
  - destruct (ok_cpu e t He cpu Ec) as (_ & _ & Hw).
    replace (prefix_text e ++ spaces (e_spaces e) ++ lit " " ++ lit "[" ++ cpu ++ lit "]")
      with ((prefix_text e ++ spaces (S (e_spaces e))) ++ 91 :: cpu ++ lit "]").
    2: { unfold spaces. rewrite replicate_S_end, <- !app_assoc. done. }
    rewrite app_comm_cons, app_assoc, ends_with_app, <- app_assoc, <- app_comm_cons.
    rewrite rfind_byte_last; cbn [fmap option_fmap option_map].
    + rewrite take_app_length. f_equal. apply trim_end_framed, prefix_framed.
    + apply Forall_app. split; [done|]. change (lit "]") with [93]. apply List.Forall_cons; [lia|constructor].
  - rewrite app_nil_r. destruct (ends_with _ _) eqn:E; [|done]. exfalso.
    apply ends_with_spec in E as [k E]. destruct (ids_good 93) as (Hne & _ & Hw); [lia|].
    unfold prefix_text in E. destruct (ids_text e) as [|b ids _] using rev_ind; [done|].
    rewrite app_comm_cons, !app_assoc in E. apply app_inj_tail in E as [_ ->].
    apply Forall_app in Hw as [_ Hw]. inversion Hw as [|? ? Hb _]. by destruct Hb.
Qed.

Lemma prefix_parsed :
  (rfind_byte 32 (prefix_text e) ≫= fun last_space =>
   let comm := trim (take last_space (prefix_text e)) in
   let tid_str := drop (S last_space) (prefix_text e) in
   parse_u32 (match find_byte 47 tid_str with Some slash => drop (S slash) tid_str | None => tid_str end) ≫= fun tid =>
   Some (comm, tid, t)) = Some (e_comm e, e_tid e, t).
Proof.
  destruct (ids_good 32) as (_ & _ & Hw); [lia|]. unfold prefix_text. rewrite app_assoc.
  change (SP :: ids_text e) with (32 :: ids_text e). rewrite rfind_byte_last by done. cbn [mbind option_bind].
  rewrite take_app_length, drop_app_ge, Nat.sub_succ_l, Nat.sub_diag by lia. cbn [drop].
  rewrite !drop_0, ids_parsed by apply He. cbn [mbind option_bind]. do 3 f_equal.
  exact (trim_framed 0 (e_spaces e) (e_comm e) (ok_comm e t He)).
Qed.

Lemma before_time_without : without 58 (before_time e).
Proof.
  destruct He as [_ [_ Hc] _ _ Hcpu _ _ _], (ids_good 58) as (_ & _ & Hw); [lia|].
  unfold before_time, prefix_text, without in *.
  repeat (apply Forall_app; split); try done; try (by apply without_spaces).
  - by apply List.Forall_cons.
  - destruct (e_cpu e) as [cpu|]; [|constructor]. destruct (Hcpu cpu eq_refl) as (_ & Hw' & _).
    repeat (apply Forall_app; split); try done; try (by apply without_spaces);
      (apply List.Forall_cons; [vm_compute; discriminate|constructor]).
Qed.

Lemma header_parsed : parse_header (header_text e) = Some (e_comm e, e_tid e, t).
Proof.
  destruct (ok_time e t He) as (Hne & Hv & Hw). unfold parse_header, header_text.
  replace (before_time e ++ spaces (e_spaces e) ++ SP :: e_time e ++ 58 :: e_event e)
    with ((before_time e ++ spaces (e_spaces e) ++ SP :: e_time e) ++ 58 :: e_event e)
    by by rewrite <- !app_assoc.
  rewrite find_byte_first. cbn [mbind option_bind].
  2: { apply Forall_app. split; [apply before_time_without|]. apply Forall_app.
       split; [by apply without_spaces|by apply List.Forall_cons]. }
  rewrite take_app_length, (app_assoc (before_time e)).
  assert (trim_end ((before_time e ++ spaces (e_spaces e)) ++ SP :: e_time e)
    = (before_time e ++ spaces (e_spaces e)) ++ SP :: e_time e) as ->.
  { rewrite <- (app_nil_r (_ ++ SP :: e_time e)) at 1. apply (trim_end_framed 0).
    change (SP :: e_time e) with ([SP] ++ e_time e). rewrite <- app_assoc, (app_assoc (spaces _)).
    apply framed_app; [apply before_framed|by apply visible_framed]. }
  change (SP :: e_time e) with (32 :: e_time e). rewrite rfind_byte_last by (by apply visible_without).
  cbn [mbind option_bind]. rewrite take_app_length, drop_app_ge, Nat.sub_succ_l, Nat.sub_diag by lia. cbn [drop].
  rewrite drop_0, (ok_time_value e t He). cbn [mbind option_bind].
  unfold spaces. rewrite (trim_end_framed _ _ before_framed), cpu_stripped. cbn [mbind option_bind]. apply prefix_parsed.
Qed.
End header.

(** ** Frames *)

Lemma frame_parsed f : frame_ok f -> parse_frame (trim (frame_text f)) = Some (f_function f).
Proof.
  intros [[Hane Hav] [Hf Hft] Ho [Hmp Hmw]].
  set (body := function_text f ++ lit " (" ++ f_module f ++ lit ")").
  assert (framed (lit ")")) as Hp by (apply visible_framed; [done|]; apply List.Forall_cons; [unfold visible; vm_compute; by split|constructor]).
  assert (framed body) as Hb.
  { unfold body, function_text. rewrite <- app_assoc, (app_assoc (match _ with Some _ => _ | None => _ end)),
      (app_assoc _ (f_module f)). by apply framed_app. }
  assert (trim (frame_text f) = f_address f ++ SP :: body) as ->.
  { unfold frame_text. fold body. assert (framed (f_address f ++ [SP] ++ body)) as Hall.
    { apply framed_app; [by apply visible_framed|done]. }
    pose proof (trim_framed 0 0 _ Hall) as E. cbn [replicate app] in E. rewrite app_nil_r in E. exact E. }
  unfold parse_frame. change (SP :: body) with (32 :: body).
  rewrite find_byte_first by (by apply visible_without). cbn [mbind option_bind].
  rewrite drop_app_ge, Nat.sub_succ_l, Nat.sub_diag by lia. cbn [drop]. rewrite drop_0.
  assert (trim body = body) as ->.
  { pose proof (trim_framed 0 0 _ Hb) as E. cbn [replicate app] in E. by rewrite app_nil_r in E. }
  unfold body. change (lit " (") with ([32] ++ [40]). rewrite (rfind_last [32] 40).
  2: { apply Forall_app. split; [done|]. by apply List.Forall_cons. }
  rewrite take_app_length. unfold function_text. destruct (f_offset f) as [offset|].
  - destruct Ho as [_ Hw]. change (lit "+0x" ++ offset) with (43 :: 48 :: 120 :: offset).
    rewrite rfind_byte_last by (repeat (apply List.Forall_cons; [lia|]); done).
    rewrite drop_app_ge, Nat.sub_succ_l, Nat.sub_diag by lia. cbn [drop]. rewrite take_app_length.
    change (lit "0x") with [48; 120]. cbn [starts_with Z.eqb Pos.eqb andb orb].
    destruct Hf as [(b & k & -> & _) _]. done.
  - rewrite app_nil_r, rfind_byte_none by done. destruct Hf as [(b & k & -> & _) _]. done.
Qed.

(** ** Lines *)

Definition plain (l : bytes) : Prop := Forall (fun b => b = 9 \/ 32 <= b <= 126) l.

Lemma printable_plain l : printable l -> plain l.
Proof. intros H. eapply List.Forall_impl; [|exact H]. intros b Hb. by right. Qed.

Lemma visible_plain l : Forall visible l -> plain l.
Proof. intros H. eapply List.Forall_impl; [|exact H]. unfold visible. intros b Hb. right. lia. Qed.

Lemma spaces_plain n : plain (spaces n).
Proof. apply Forall_replicate. by right. Qed.

Lemma lines_from_plain acc line rest :
  plain line ->
  lines_from acc (line ++ LF :: rest)
  = text_line (default (acc ++ line) (strip_suffix (acc ++ line) [CR])) :: lines_from [] rest.
Proof.
  intros Hl. revert acc. induction Hl as [|b l Hb _ IH]; intros acc; cbn [app lines_from].
  - by rewrite app_nil_r.
  - rewrite (proj2 (Z.eqb_neq b LF)) by (unfold LF; lia). by rewrite IH, <- app_assoc.
Qed.

Lemma plain_line line : plain line -> text_line (default line (strip_suffix line [CR])) = Some line.
Proof.
  intros Hl. assert (strip_suffix line [CR] = None) as ->.
  { destruct (strip_suffix line [CR]) as [k|] eqn:E; [|done]. apply strip_suffix_Some in E as ->.
    apply Forall_app in Hl as [_ Hl]. inversion Hl as [|? ? Hb _]. unfold CR in Hb. lia. }
  unfold text_line. cbn [default from_option]. unfold id. rewrite from_utf8_ascii; [done|].
  eapply List.Forall_impl; [|exact Hl]. unfold is_ascii_byte. intros b Hb. cbn in Hb. lia.
Qed.

Lemma stdin_lines_plain lines :
  Forall plain lines -> stdin_lines (lines ≫= fun line => line ++ [LF]) = Some <$> lines.
Proof.
  unfold stdin_lines. induction 1 as [|line lines Hl _ IH]; [done|]. cbn [mbind list_bind].
  rewrite <- app_assoc. cbn [app]. rewrite lines_from_plain by done. cbn [app].
  rewrite plain_line by done. by rewrite IH.
Qed.

Ltac plains :=
  repeat first
    [ done | assumption | apply List.Forall_nil
    | apply Forall_app; split
    | apply List.Forall_cons; [first [left; reflexivity | right; vm_compute; split; discriminate]|] ].

Lemma header_plain e t : entry_ok e t -> plain (header_text e).
Proof.
  intros He. destruct (ids_good e t He 58) as (_ & Hids & _); [lia|].
  destruct He as [_ [Hc _] _ _ Hcpu (_ & Hv & _) _ Hev].
  unfold header_text, before_time, prefix_text. apply visible_plain in Hids, Hv. apply printable_plain in Hc, Hev.
  pose proof (spaces_plain (e_spaces e)) as Hs. unfold plain in *.
  destruct (e_cpu e) as [cpu|]; [destruct (Hcpu cpu eq_refl) as [Hp%printable_plain _]|]; plains.
Qed.

Lemma frame_plain f : frame_ok f -> plain (frame_text f).
Proof.
  intros [[_ Ha] [_ Hf] Ho [Hm _]]. unfold frame_text, function_text.
  apply visible_plain in Ha. apply printable_plain in Hf, Hm. unfold plain in *.
  destruct (f_offset f) as [offset|]; [destruct Ho as [Ho%printable_plain _]|]; plains.
Qed.

(** ** The reader over a log *)

(** Between two samples. *)
Definition idle (samples : list Sample) (r : Reader) : Prop :=
  rd_samples r = samples /\ rd_comm r = [] /\ rd_stack r = [].

Lemma read_header e t samples r :
  entry_ok e t -> rd_samples r = samples ->
  read_line r (header_text e)
  = {| rd_samples := samples; rd_comm := e_comm e; rd_tid := e_tid e; rd_time := t; rd_stack := [] |}.
Proof.
  intros He <-. pose proof (header_parsed e t He) as Hp. revert Hp.
  destruct (ok_comm e t He) as [(b & k & E & Hb) _].
  unfold header_text, before_time, prefix_text. rewrite E. cbn [app]. intros Hp. unfold read_line. rewrite Hp.
  unfold visible in Hb. rewrite (proj2 (Z.eqb_neq b HT)), (proj2 (Z.eqb_neq b SP)) by (unfold HT, SP; lia). done.
Qed.

Lemma read_frames r frames :
  Forall frame_ok frames ->
  fold_left read_line (frame_text <$> frames) r
  = {| rd_samples := rd_samples r; rd_comm := rd_comm r; rd_tid := rd_tid r; rd_time := rd_time r;
       rd_stack := rd_stack r ++ (f_function <$> frames) |}.
Proof.
  intros H. revert r. induction H as [|f frames Hf _ IH]; intros r.
  { cbn. rewrite app_nil_r. by destruct r. }
  rewrite fmap_cons. cbn [fold_left].
  assert (read_line r (frame_text f) = {| rd_samples := rd_samples r; rd_comm := rd_comm r; rd_tid := rd_tid r;
    rd_time := rd_time r; rd_stack := rd_stack r ++ [f_function f] |}) as ->.
  { pose proof (frame_parsed f Hf) as E. unfold read_line. unfold frame_text in *. cbn [negb Z.eqb andb].
    by rewrite E. }
  rewrite IH. cbn [rd_samples rd_comm rd_tid rd_time rd_stack]. rewrite fmap_cons, <- app_assoc. done.
Qed.

Definition logged (l : Entry * f64) : Prop :=
  entry_ok l.1 l.2 /\ Forall frame_ok (e_frames l.1).

(** The samples of a log: those of its entries that have a stack. *)
Definition samples_of (log : list (Entry * f64)) : list Sample :=
  (fun l => sample_of l.1 l.2) <$> filter (fun l => e_frames l.1 <> []) log.

Lemma read_entry l samples r :
  logged l -> idle samples r ->
  idle (samples ++ samples_of [l]) (fold_left read_line (entry_lines l.1) r).
Proof.
  destruct l as [e t]. intros (He & Hf) (Hs & _ & _). unfold samples_of. rewrite list.filter_cons, list.filter_nil.
  cbn [fst snd] in *. unfold entry_lines.
  cbn [fold_left]. rewrite fold_left_app, (read_header e t samples) by done.
  rewrite read_frames by done. cbn [fold_left rd_samples rd_comm rd_tid rd_time rd_stack app].
  unfold idle, read_line, flushed, sample_of. cbn [rd_samples rd_comm rd_tid rd_time rd_stack].
  destruct (ok_comm e t He) as [(b & k & E & _) _]. destruct (e_frames e) as [|frame frames] eqn:Ef.
  - rewrite decide_False by auto. rewrite E. cbn. by rewrite app_nil_r.
  - rewrite decide_True by done. cbn. by rewrite E, Ef.
Qed.

Lemma read_log log samples r :
  Forall logged log -> idle samples r ->
  idle (samples ++ samples_of log) (fold_left read_line ((fst <$> log) ≫= entry_lines) r).
Proof.
  intros H. revert samples r. induction H as [|l log Hl _ IH]; intros samples r Hr; [by rewrite app_nil_r|].
  rewrite fmap_cons. cbn [mbind list_bind]. rewrite fold_left_app.
  assert (samples_of (l :: log) = samples_of [l] ++ samples_of log) as ->.
  { change (l :: log) with ([l] ++ log). unfold samples_of. by rewrite list.filter_app, fmap_app. }
  rewrite app_assoc. by apply IH, read_entry.
Qed.

Lemma log_plain log : Forall logged log -> Forall plain ((fst <$> log) ≫= entry_lines).
Proof.
  induction 1 as [|[e t] log (He & Hf) _ IH]; [constructor|]. cbn [fst snd] in *.
  rewrite fmap_cons. cbn [mbind list_bind fst]. apply Forall_app. split; [|exact IH].
  apply List.Forall_cons; [by eapply header_plain|]. apply Forall_app. split; [|by repeat constructor].
  apply Forall_fmap. eapply List.Forall_impl; [|exact Hf]. exact frame_plain.
Qed.

(** C40: a log of samples in the format of [perf script] (with or without the
    process, the processor and the offset of a frame, the columns filled up with
    spaces) is read back: the program sees exactly the samples logged that have a
    stack, in their order, each with its thread, its time and its functions from
    the leaf up.  The text is printable ASCII; a name and a function begin and end
    with a visible character; a name, a processor and a time have no colon, a
    processor no bracket, a module no opening parenthesis, and an offset no plus,
    nor a function without one; the numbers fit their types.  A name with a colon
    is not read ([colon_in_name]). *)
Theorem perf_log_read_back (log : list (Entry * f64)) :
  Forall logged log ->
  read_samples (stdin_lines (log_text (fst <$> log))) = samples_of log.
Proof.
  intros H. unfold log_text. rewrite stdin_lines_plain by by apply log_plain.
  unfold read_samples.
  destruct (read_log log [] reader_start H) as (Hs & Hc & _); [done|].
  assert (forall lines r, fold_left (fun r line => match line with Some line => read_line r line | None => r end)
    (Some <$> lines) r = fold_left read_line lines r) as ->.
  { induction lines as [|line lines IH]; intros r; [done|]. rewrite fmap_cons. apply IH. }
  unfold flushed. rewrite Hc. exact Hs.
Qed.

(** A log of two samples: a name with a space, a process and a processor, a
    frame without an offset; and an entry between them that has no stack. *)
Definition a_log : list (Entry * f64) :=
  let frame (address function module : String.string) offset :=
    {| f_address := lit address; f_function := lit function; f_offset := lit <$> offset; f_module := lit module |} in
  let entry (comm time event : String.string) pid tid cpu frames :=
    ({| e_comm := lit comm; e_pid := pid; e_tid := tid; e_cpu := lit <$> cpu; e_time := lit time;
        e_event := lit event; e_spaces := 2; e_frames := frames |}, default f64_zero (parse_f64 (lit time))) in
  [entry "tokio runtime"%string "1408261.500056"%string " 250000 cpu-clock:"%string (Some 101) 102 (Some "003"%string)
     [frame "ffffffff"%string "tcp_sendmsg"%string "[kernel.kallsyms]"%string (Some "1f"%string);
      frame "55d0"%string "main"%string "/usr/bin/nntpbench"%string (Some "2"%string)];
   entry "swapper"%string "1408262"%string " cpu-clock:"%string None 0 None [];
   entry "nntpbench"%string "1408262.25"%string " cpu-clock:"%string None 7 None
     [frame "55d1"%string "[unknown]"%string "/usr/lib/libc.so"%string None]].

Lemma framed_check a l b : in_range 33 126 a && in_range 33 126 b = true -> framed (a :: l ++ [b]).
Proof.
  intros [Ha%in_range_spec Hb%in_range_spec]%andb_true_iff.
  split; [by exists a, (l ++ [b])|by exists (a :: l), b].
Qed.

Ltac is_framed :=
  match goal with
  | |- framed ?l =>
      let l' := eval vm_compute in (match l with a :: k => (a, (removelast k, List.last k 0)) | [] => (0, ([], 0)) end) in
      match l' with (?a, (?k, ?b)) => exact (framed_check a k b eq_refl) end
  end.

Ltac by_computation :=
  unfold printable, without, visible in *; apply (bool_decide_unpack _); vm_compute; exact I.

Ltac columns :=
  cbn [fst snd e_comm e_pid e_tid e_cpu e_time e_event e_frames f_address f_function f_offset f_module fmap
       option_fmap option_map];
  lazymatch goal with
  | |- _ /\ _ => split; columns
  | |- framed _ => is_framed
  | |- _ <> _ => discriminate
  | |- forall x, _ = _ -> _ => intros ? E; first [discriminate E | injection E as <-; columns]
  | |- Forall frame_ok _ => repeat (apply List.Forall_cons; [constructor; columns|]); apply List.Forall_nil
  | |- parse_f64 _ = _ => vm_compute; reflexivity
  | |- _ => by_computation
  end.

Lemma a_log_logged : Forall logged a_log.
Proof. repeat apply List.Forall_cons; try apply List.Forall_nil; (split; [constructor|]); columns. Qed.

Lemma perf_log_read_back_witness :
  (stack <$> read_samples (stdin_lines (log_text (fst <$> a_log))))
  = [[lit "tcp_sendmsg"; lit "main"]; [lit "[unknown]"]].
Proof. rewrite (perf_log_read_back a_log a_log_logged). reflexivity. Defined.

(** ** The reports *)

Lemma sum_list_cons x l : sum_list (x :: l) = (x + sum_list l)%nat.
Proof. reflexivity. Qed.

Lemma sum_list_alter s mid i l :
  (i < length l)%nat ->
  sum_list (total <$> take mid (alter (bucket_add s) i l))
  = (sum_list (total <$> take mid l) + if (i <? mid)%nat then 1 else 0)%nat.
Proof.
  revert mid i. induction l as [|b l IH]; intros mid i Hi; [cbn in Hi; lia|].
  destruct mid as [|mid]; [by rewrite !take_0|]. destruct i as [|i].
  - cbn [alter list_alter take]. rewrite !fmap_cons, !sum_list_cons. cbn [bucket_add total].
    destruct (Nat.ltb_spec 0 (S mid)); lia.
  - cbn [length] in Hi. cbn [alter list_alter take]. rewrite !fmap_cons, !sum_list_cons.
    change (S i <? S mid)%nat with (i <? mid)%nat. rewrite <- Nat.add_assoc, <- (IH mid i ltac:(lia)). done.
Qed.

(** No sample falls outside the buckets. *)
Lemma bucket_index_bound samples buckets s : (0 < buckets)%nat -> (bucket_index samples buckets s < buckets)%nat.
Proof. unfold bucket_index. lia. Qed.

Section fill.
Variables (all : list Sample) (buckets : nat).
Hypothesis Hbuckets : (0 < buckets)%nat.

Let fill (samples : list Sample) (l : list Bucket) : list Bucket :=
  fold_left (fun l s => alter (bucket_add s) (bucket_index all buckets s) l) samples l.

Lemma fill_length samples l : length (fill samples l) = length l.
Proof. unfold fill. revert l. induction samples as [|s samples IH]; intros l; [done|]. cbn. by rewrite IH, length_alter. Qed.

Lemma fill_sum mid samples l :
  length l = buckets ->
  sum_list (total <$> take mid (fill samples l))
  = (sum_list (total <$> take mid l) + length (List.filter (fun s => bucket_index all buckets s <? mid)%nat samples))%nat.
Proof.
  unfold fill. revert l. induction samples as [|s samples IH]; intros l Hl; cbn [fold_left List.filter length]; [lia|].
  rewrite IH by by rewrite length_alter.
  rewrite sum_list_alter by (rewrite Hl; by apply bucket_index_bound). destruct (_ <? mid)%nat; cbn [length]; lia.
Qed.

Lemma empty_sum mid : sum_list (total <$> take mid (empty_buckets all buckets)) = 0%nat.
Proof.
  unfold empty_buckets. generalize (seq 0 buckets). intros l. revert mid.
  induction l as [|i l IH]; intros [|mid]; [done..|]. rewrite fmap_cons. cbn [take]. rewrite fmap_cons. apply IH.
Qed.

Lemma filled_sum mid :
  sum_list (total <$> take mid (fill_buckets all buckets))
  = length (List.filter (fun s => bucket_index all buckets s <? mid)%nat all).
Proof.
  unfold fill_buckets. fold (fill all (empty_buckets all buckets)). rewrite fill_sum, empty_sum; [done|].
  unfold empty_buckets. by rewrite length_fmap, length_seq.
Qed.
End fill.

Lemma sum_list_app l k : sum_list (l ++ k) = (sum_list l + sum_list k)%nat.
Proof. induction l as [|x l IH]; [done|]. cbn [app]. rewrite !sum_list_cons. lia. Qed.

(** The two halves of the timeline are the samples of its first and its second
    buckets, every sample in one of them: no time, whatever it is (a [NaN] or an
    infinity too), has its sample left out or put outside the buckets. *)
Theorem timeline_complete samples buckets :
  (0 < buckets)%nat ->
  first_half samples buckets = length (List.filter (in_first_half samples buckets) samples)
  /\ second_half samples buckets = length (List.filter (fun s => negb (in_first_half samples buckets s)) samples)
  /\ (first_half samples buckets + second_half samples buckets)%nat = length samples.
Proof.
  intros Hb. assert (forall (p : Sample -> bool) l,
    (length (List.filter p l) + length (List.filter (fun s => negb (p s)) l))%nat = length l) as Hsplit.
  { intros p l. induction l as [|s l IH]; [done|]. cbn [List.filter]. destruct (p s); cbn [negb length]; lia. }
  assert (first_half samples buckets = length (List.filter (in_first_half samples buckets) samples)) as E1
    by by apply filled_sum.
  assert (first_half samples buckets + second_half samples buckets = length samples)%nat as E2.
  { unfold first_half, second_half. rewrite <- sum_list_app, <- fmap_app, take_drop.
    rewrite <- (firstn_all (fill_buckets samples buckets)).
    assert (length (fill_buckets samples buckets) = buckets) as ->.
    { unfold fill_buckets. rewrite fill_length. unfold empty_buckets. by rewrite length_fmap, length_seq. }
    rewrite filled_sum by done. f_equal. apply forallb_filter_id. apply forallb_forall. intros s _.
    apply Nat.ltb_lt. by apply bucket_index_bound. }
  specialize (Hsplit (in_first_half samples buckets) samples). split; [done|]. split; lia.
Qed.

Definition a_log_samples : list Sample := samples_of a_log.

Lemma timeline_complete_witness :
  (first_half a_log_samples 10 + second_half a_log_samples 10)%nat = length a_log_samples.
Proof. exact (proj2 (proj2 (timeline_complete a_log_samples 10 (Nat.lt_0_succ 9)))). Defined.

(** Whatever the order in which the library walks its map, the breakdown lists
    every thread once with the number of its samples, the largest first, and the
    numbers add up to the samples; the functions and the categories alike. *)
Theorem breakdown_exact `{!HashOrder} samples :
  let threads := by_count (walk 0 (tally (thread_of <$> samples))) in
  counts threads (thread_of <$> samples)
  /\ foldr Z.add 0 (snd <$> threads) = Z.of_nat (length samples)
  /\ StronglySorted (fun x y => y.2 <= x.2) threads.
Proof.
  intros threads. destruct (ranking_counts 0 (thread_of <$> samples)) as [Hc Hs].
  split; [exact Hc|]. split; [|exact Hs]. destruct Hc as (_ & E & _). unfold threads. by rewrite length_fmap in E.
Qed.

(** ** Behaviour worth knowing *)

(** The first colon is taken for the one behind the time: a sample of a thread
    whose name has a colon is dropped. *)
Example colon_in_name :
  read_samples (stdin_lines (bstr "kworker/0:1 7 [000] 12.5: 1 cpu-clock:\n\tff work+0x1 (k)\n\nmain 8 13.5: 1 e:\n\tff run+0x1 (k)\n\n"))
  = [{| comm := lit "main"; tid := 8; time := default f64_zero (parse_f64 (lit "13.5")); stack := [lit "run"] |}].
Proof. vm_compute. reflexivity. Qed.

(** A function of the standard library's strings counts as cryptography, as its
    path has [ring::] in it. *)
Example string_is_crypto :
  (categorize (lit "alloc::string::String::push_str"), categorize (lit "alloc::vec::Vec::push"))
  = (lit "TLS/Crypto", lit "Memory").
Proof. vm_compute. reflexivity. Qed.

(** A cut inside a character panics: [truncate] counts bytes. *)
Example cut_inside_character :
  ended (main (bstr "main 8 13.5: 1 e:\n\tff " ++ replicate 79 97 ++ [195; 169; 97; 97] ++ bstr " (k)\n")) = Panics.
Proof. vm_compute. reflexivity. Qed.
