(* ===== verification/Flamegraph.v ===== *)
(** * The reader of flame graphs ([src/scripts/parse_flamegraph.rs])

    The titles of an SVG file become entries ([parse_entries], [parse_title]), a
    function with its samples and its share of the time; a command prints the
    top of them, those that match, system calls, categories, or the difference
    to a second graph ([main]). *)
From Stdlib Require Import Floats.SpecFloat.
From S2P Require Import Prelude Utf8 Decimal Text Float64 Format ProfileScripts PerfScript.

Local Open Scope Z_scope.
Local Open Scope run_scope.

(** ** Entries *)

Record Entry : Type := {
  name : bytes;
  samples : Z;
  percent : f64;
}.

(** [function_name (123,456,789 samples, 12.34%)].  The share is between the last
    comma and the last percent sign: a panic where they are the other way round. *)
Definition parse_title (title : bytes) : Run (option Entry) :=
  match rfind_byte 40 title with
  | None => ret None
  | Some paren_start =>
      let name := trim (take paren_start title) in
      let meta := drop (S paren_start) title in
      match find_sub (lit " samples") meta with
      | None => ret None
      | Some samples_end =>
          match parse_u64 (List.filter (fun b => negb (b =? 44)) (take samples_end meta)) with
          | None => ret None
          | Some samples =>
              match rfind (lit ", ") meta, rfind_byte 37 meta with
              | Some comma, Some pct_end =>
                  let pct_start := (comma + 2)%nat in
                  let* text := unwrap (if (pct_end <? pct_start)%nat then None else Some (slice meta pct_start pct_end)) in
                  match parse_f64 text with
                  | None => ret None
                  | Some percent =>
                      if bytes_eqb name [] || bytes_eqb name (lit "all") then ret None
                      else ret (Some {| name := name; samples := samples; percent := percent |})
                  end
              | _, _ => ret None
              end
          end
      end
  end.

Definition chunk_entries (results : list Entry) (chunk : bytes) : Run (list Entry) :=
  match find_sub (lit "</title>") chunk with
  | Some stop =>
      let* parsed := parse_title (take stop chunk) in
      ret (match parsed with Some entry => results ++ [entry] | None => results end)
  | None => ret results
  end.

(** [b.percent.partial_cmp(&a.percent)] is [Less]. *)
Definition before (a b : Entry) : bool := f64_lt (percent b) (percent a).

Definition parse_entries (content : bytes) : Run (list Entry) :=
  let* results := for_fold (split_str (lit "<title>") content) [] chunk_entries in
  ret (sort_by before results).

(** ** Reports *)

Definition rule (b : Z) (n : nat) : list Arg := [ArgText (replicate n b)].
Definition count_arg (n : nat) : Arg := ArgInt (Z.of_nat n).

Definition truncate_name (name : bytes) (max_len : nat) : option bytes :=
  if (length name <=? max_len)%nat then Some name
  else (fun short => format (lit "{}...") [ArgText short]) <$> slice_to name (max_len - 3).

Definition print_entry (e : Entry) : Run unit :=
  let* display_name := unwrap (truncate_name (name e) 65) in
  println "{:>6.2}% {:>10}  {}" [ArgFloat (percent e); ArgInt (samples e); ArgText display_name].

(** The loop of [cmd_top]: entries below the share are passed over, the loop ends
    with the entry after the last shown. *)
Fixpoint top_loop (entries : list Entry) (n : Z) (min_pct : f64) (shown : nat) (total : f64)
    : Run (nat * f64) :=
  match entries with
  | [] => ret (shown, total)
  | e :: entries =>
      if f64_lt (percent e) min_pct then top_loop entries n min_pct shown total
      else if n <=? Z.of_nat shown then ret (shown, total)
      else print_entry e ;; top_loop entries n min_pct (S shown) (f64_add total (percent e))
  end.

Definition cmd_top (entries : list Entry) (n : Z) (min_pct : f64) : Run unit :=
  println "Top {} functions (>= {:.1}%):\n" [ArgInt n; ArgFloat min_pct] ;;
  println "{:>7} {:>10}  {}" (ArgText <$> [lit "%"; lit "samples"; lit "Function"]) ;;
  println "{}" (rule 45 90) ;;
  let* '(shown, total) := top_loop entries n min_pct 0 f64_zero in
  println "{}" (rule 45 90) ;;
  println "{:>6.2}%             Total ({} functions shown)" [ArgFloat total; count_arg shown].

Definition syscall_name (name : bytes) : option bytes :=
  match strip_prefix name (lit "__x64_sys_") with
  | Some rest => Some rest
  | None => strip_prefix name (lit "__x86_sys_")
  end.

Definition cmd_syscalls (entries : list Entry) : Run unit :=
  println "Syscall breakdown:\n" [] ;;
  println "{:>7}  {}" (ArgText <$> [lit "%"; lit "Syscall"]) ;;
  println "{}" (rule 45 60) ;;
  let* total := for_fold entries f64_zero (fun total e =>
    match syscall_name (name e) with
    | Some syscall =>
        println "{:>6.2}%  {}" [ArgFloat (percent e); ArgText syscall] ;;
        ret (f64_add total (percent e))
    | None => ret total
    end) in
  println "{}" (rule 45 60) ;;
  println "{:>6.2}%  Total syscall time" [ArgFloat total].

(** ** Differences *)

Record Delta : Type := {
  d_name : bytes;
  before_pct : f64;
  after_pct : f64;
  diff_pct : f64;
  before_samples : Z;
  after_samples : Z;
}.

(** [iter.collect()]: of the entries of one name the last stays. *)
Definition entry_map (entries : list Entry) : list (bytes * (Z * f64)) :=
  map_collect ((fun e => (name e, (samples e, percent e))) <$> entries).

Definition contains_key {V} (m : list (bytes * V)) (k : bytes) : bool :=
  match map_get m k with Some _ => true | None => false end.

Definition all_names (before after : list Entry) : list bytes :=
  (name <$> before) ++ (name <$> List.filter (fun e => negb (contains_key (entry_map before) (name e))) after).

Definition delta_of (before_map after_map : list (bytes * (Z * f64))) (name : bytes) : option Delta :=
  let '(bs, bp) := default (0, f64_zero) (map_get before_map name) in
  let '(a_s, ap) := default (0, f64_zero) (map_get after_map name) in
  let diff := f64_sub ap bp in
  if f64_le (f64_of_scientific 1 (-2)) (f64_abs diff) then
    Some {| d_name := name; before_pct := bp; after_pct := ap; diff_pct := diff;
            before_samples := bs; after_samples := a_s |}
  else None.

Definition deltas (before after : list Entry) : list Delta :=
  sort_by (fun a b => f64_lt (f64_abs (diff_pct b)) (f64_abs (diff_pct a)))
    (omap (delta_of (entry_map before) (entry_map after)) (all_names before after)).

Definition regressions (l : list Delta) : list Delta := List.filter (fun d => f64_lt f64_zero (diff_pct d)) l.
Definition improvements (l : list Delta) : list Delta := List.filter (fun d => f64_lt (diff_pct d) f64_zero) l.

(** [what] is the line above the table. *)
Definition print_deltas (what : bytes) (l : list Delta) : Run unit :=
  if (length l =? 0)%nat then ret tt else
  println "{}\n" [ArgText what] ;;
  println "{:>8} {:>8} {:>8}  {:>10} {:>10}  {}"
    (ArgText <$> [lit "before%"; lit "after%"; lit "delta%"; lit "before_n"; lit "after_n"; lit "Function"]) ;;
  println "{}" (rule 45 100) ;;
  for_each (take 30 l) (fun d =>
    let* display_name := unwrap (truncate_name (d_name d) 42) in
    println "{:>7.2}% {:>7.2}% {:>+7.2}%  {:>10} {:>10}  {}"
      [ArgFloat (before_pct d); ArgFloat (after_pct d); ArgFloat (diff_pct d);
       ArgInt (before_samples d); ArgInt (after_samples d); ArgText display_name]) ;;
  println "" [].

Definition cmd_diff (before after : list Entry) : Run unit :=
  let deltas := deltas before after in
  println "Flamegraph diff: before vs after\n" [] ;;
  print_deltas (lit "REGRESSIONS (gained CPU):") (regressions deltas) ;;
  print_deltas (lit "IMPROVEMENTS (lost CPU):") (improvements deltas) ;;
  if (length (regressions deltas) =? 0)%nat && (length (improvements deltas) =? 0)%nat then
    println "No significant differences found (threshold: 0.01%)." []
  else
    println "Summary: {:>+.2}% regressions, {:>+.2}% improvements ({} functions changed)"
      [ArgFloat (f64_sum (diff_pct <$> regressions deltas)); ArgFloat (f64_sum (diff_pct <$> improvements deltas));
       count_arg (length deltas)].

(** ** Categories *)

Delimit Scope string_scope with string.

(** The categories in the order they are tried, each with the texts one of which
    a name of it has in lower case. *)
Definition CATEGORIES : list (String.string * list String.string) :=
  [("Cache", ["foyer"; "hybrid_cache"; "hybridarticle"; "article_cache"; "unified_cache"; "cache::"; "moka"]);
   ("NNTP Protocol", ["nntp"; "precheck"; "article_routing"; "client_session"; "backend_execution";
     "command_guard"; "route_command"; "status_code"; "message_id"]);
   ("TLS/Crypto", ["tls"; "ssl"; "rustls"; "aes"; "cipher"; "encrypt"; "decrypt"; "handshake"; "aws_lc";
     "ring::"; "chacha"]);
   ("Compression", ["lz4"; "compress"; "decompress"; "zstd"]);
   ("Connection Pool", ["deadpool"; "pool"; "connection_provider"]);
   ("Network I/O", ["recv"; "send"; "tcp"; "socket"; "inet"; "skb"; "net_"]);
   ("Disk I/O", ["zfs"; "zpl"; "zil"; "vfs"; "write_all"; "ext4"; "xfs"; "btrfs"; "block_"; "io_uring";
     "pread"; "pwrite"]);
   ("Locks/Futex", ["futex"; "mutex"; "lock"; "rwlock"; "semaphore"; "parking_lot"]);
   ("Event Loop", ["epoll"; "poll"; "mio"]);
   ("Tokio Runtime", ["tokio"; "runtime"]);
   ("Async/Futures", ["futures"; "async"; "waker"]);
   ("Scheduling", ["schedule"; "switch"; "context"]);
   ("Memory", ["alloc"; "malloc"; "free"; "mmap"; "brk"; "jemalloc"])]%string.

(** The starts that make a name of no category a system call. *)
Definition SYSCALLS : list String.string :=
  ["__x64_sys_"; "syscall"; "do_syscall"; "entry_SYSCALL"]%string.

Section reports.
Context `{Ho : !HashOrder, Lc : !Lowercase}.

Definition categorize (name : bytes) : bytes :=
  let lower := to_lowercase name in
  match List.find (fun c => existsb (fun text => contains lower (lit text)) c.2) CATEGORIES with
  | Some c => lit c.1
  | None => if existsb (fun start => starts_with name (lit start)) SYSCALLS then lit "Syscall" else lit "Other"
  end.

Definition cmd_search (entries : list Entry) (pattern : bytes) : Run unit :=
  let pattern_lower := to_lowercase pattern in
  println "Functions matching '{}':\n" [ArgText pattern] ;;
  println "{:>7} {:>10}  {}" (ArgText <$> [lit "%"; lit "samples"; lit "Function"]) ;;
  println "{}" (rule 45 90) ;;
  let* '(total, count) := for_fold entries (f64_zero, O) (fun '(total, count) e =>
    if contains (to_lowercase (name e)) pattern_lower then
      print_entry e ;; ret (f64_add total (percent e), S count)
    else ret (total, count)) in
  println "{}" (rule 45 90) ;;
  println "{:>6.2}%             Total ({} matches)" [ArgFloat total; count_arg count].

(** The shares of the categories added up. *)
Definition category_totals (entries : list Entry) : list (bytes * f64) :=
  fold_left (fun m e => map_update m (categorize (name e)) f64_zero (fun total => f64_add total (percent e)))
    entries [].

Definition KEY_CATEGORIES : list bytes :=
  [lit "Cache"; lit "TLS/Crypto"; lit "Network I/O"; lit "Disk I/O"; lit "Tokio Runtime"; lit "Locks/Futex";
   lit "NNTP Protocol"; lit "Compression"].

Definition print_key_functions (entries : list Entry) (cat : bytes) : Run unit :=
  let funcs := take 5 (List.filter (fun e =>
    bytes_eqb (categorize (name e)) cat && f64_le (f64_of_scientific 5 (-1)) (percent e)) entries) in
  if (length funcs =? 0)%nat then ret tt else
  println "{}:" [ArgText cat] ;;
  for_each funcs (fun e =>
    let* short := unwrap (truncate_name (name e) 55) in
    println "  {:>5.2}%  {}" [ArgFloat (percent e); ArgText short]) ;;
  println "" [].

Definition cmd_summary (entries : list Entry) : Run unit :=
  let cats := sort_by (fun a b => f64_lt b.2 a.2) (walk 0 (category_totals entries)) in
  println "Category summary:\n" [] ;;
  println "{:>7}  {}" (ArgText <$> [lit "%"; lit "Category"]) ;;
  println "{}" (rule 45 40) ;;
  for_each cats (fun '(cat, pct) => println "{:>6.2}%  {}" [ArgFloat pct; ArgText cat]) ;;
  println "\n{}" (rule 61 60) ;;
  println "Key functions by category:\n" [] ;;
  for_each KEY_CATEGORIES (print_key_functions entries).

(** ** The program *)

(** [fs::read_to_string] of a path. *)
Variable read_to_string : bytes -> result bytes bytes.

Definition read (path : bytes) : Run bytes :=
  match read_to_string path with Ok content => ret content | Err message => stop (Fails message) end.

Definition usage (program : bytes) : Run unit :=
  eprintln "Usage: {} <flamegraph.svg> [command] [args...]" [ArgText program] ;;
  eprintln "" [] ;;
  eprintln "Commands:" [] ;;
  eprintln "  top [N] [min%]     Show top N functions (default: 30, min: 1.0%)" [] ;;
  eprintln "  search <pattern>   Search for functions matching pattern" [] ;;
  eprintln "  syscalls           Show syscall breakdown" [] ;;
  eprintln "  summary            Show categorized summary" [] ;;
  eprintln "  diff <other.svg>   Compare two flamegraphs (show gained/lost CPU)" [] ;;
  eprintln "" [] ;;
  eprintln "Examples:" [] ;;
  eprintln "  {} flamegraph.svg top 20" [ArgText program] ;;
  eprintln "  {} flamegraph.svg search nntpbench" [ArgText program] ;;
  eprintln "  {} flamegraph.svg syscalls" [ArgText program] ;;
  eprintln "  {} flamegraph.svg summary" [ArgText program] ;;
  eprintln "  {} before.svg diff after.svg" [ArgText program] ;;
  stop (Exits 1).

Definition run_command (args : list bytes) (command : bytes) (entries : list Entry) : Run unit :=
  if bytes_eqb command (lit "top") then
    let n := default 30 (args !! 3%nat ≫= parse_u64) in
    let min_pct := default (f64_of_int 1) (args !! 4%nat ≫= parse_f64) in
    cmd_top entries n min_pct
  else if bytes_eqb command (lit "search") then cmd_search entries (default [] (args !! 3%nat))
  else if bytes_eqb command (lit "syscalls") then cmd_syscalls entries
  else if bytes_eqb command (lit "summary") then cmd_summary entries
  else if bytes_eqb command (lit "diff") then
    match args !! 3%nat with
    | Some other_path =>
        let* other_content := read other_path in
        let* other_entries := parse_entries other_content in
        cmd_diff entries other_entries
    | None =>
        let* program := unwrap (args !! 0%nat) in
        eprintln "Usage: {} <before.svg> diff <after.svg>" [ArgText program] ;;
        stop (Exits 1)
    end
  else
    eprintln "Unknown command: {}" [ArgText command] ;;
    stop (Exits 1).

Definition main (args : list bytes) : Run unit :=
  match args !! 1%nat with
  | None => let* program := unwrap (args !! 0%nat) in usage program
  | Some svg_path =>
      let command := default (lit "top") (args !! 2%nat) in
      let* content := read svg_path in
      let* entries := parse_entries content in
      run_command args command entries
  end.
End reports.

(** ** The difference of a graph to itself *)

Lemma f64_sub_same x : f64_le (f64_of_scientific 1 (-2)) (f64_abs (f64_sub x x)) = false.
Proof.
  assert (f64_sub x x = S754_zero false \/ f64_sub x x = S754_nan) as [E|E]; [|by rewrite E..].
  unfold f64_sub. destruct x as [[]|[]| |s m e]; cbn [SFsub]; try (by left); try (by right).
  left. rewrite Z.min_id. by rewrite Z.sub_diag.
Qed.

Lemma delta_of_same m name : delta_of m m name = None.
Proof.
  unfold delta_of. destruct (default (0, f64_zero) (map_get m name)) as [s p]. by rewrite f64_sub_same.
Qed.

Lemma omap_none {A B} (f : A -> option B) l : (forall x, f x = None) -> omap f l = [].
Proof. intros Hf. induction l as [|x l IH]; [done|]. cbn. by rewrite Hf. Qed.

(** A graph compared with itself has no difference, whatever its entries are:
    names that repeat, shares that are no numbers. *)
Theorem diff_of_same_silent (entries : list Entry) :
  deltas entries entries = []
  /\ cmd_diff entries entries
     = (println "Flamegraph diff: before vs after\n" [] ;;
        println "No significant differences found (threshold: 0.01%)." []).
Proof.
  assert (deltas entries entries = []) as E.
  { unfold deltas. by rewrite omap_none by apply delta_of_same. }
  split; [done|]. unfold cmd_diff. rewrite E. apply bind_ext. intros _.
  change (print_deltas _ (regressions [])) with (ret tt). rewrite bind_ret.
  change (print_deltas _ (improvements [])) with (ret tt). by rewrite bind_ret.
Qed.

(** ** What is shown of the top *)

(** The entries [cmd_top] shows: of those with the share, the first [n]. *)
Definition top_shown (entries : list Entry) (n : nat) (min_pct : f64) : list Entry :=
  take n (List.filter (fun e => negb (f64_lt (percent e) min_pct)) entries).

(** Every entry is printed with its name cut to 65 bytes, and their shares are
    added up, if no cut falls inside a character. *)
Fixpoint print_all (entries : list Entry) (total : f64) : Run f64 :=
  match entries with
  | [] => ret total
  | e :: entries => print_entry e ;; print_all entries (f64_add total (percent e))
  end.

Lemma top_loop_shown entries n min_pct shown total :
  (shown <= n)%nat ->
  top_loop entries (Z.of_nat n) min_pct shown total
  = let* total := print_all (top_shown entries (n - shown) min_pct) total in
    ret ((shown + length (top_shown entries (n - shown) min_pct))%nat, total).
Proof.
  unfold top_shown. revert shown total. induction entries as [|e entries IH]; intros shown total Hn; cbn [top_loop List.filter].
  { rewrite take_nil. cbn [print_all length]. rewrite bind_ret. do 2 f_equal. lia. }
  destruct (f64_lt (percent e) min_pct) eqn:E; cbn [negb]; [by apply IH|].
  destruct (Z.leb_spec (Z.of_nat n) (Z.of_nat shown)).
  - replace (n - shown)%nat with 0%nat by lia. cbn [take print_all length]. rewrite bind_ret. do 2 f_equal. lia.
  - destruct (n - shown)%nat as [|k] eqn:Ek; [lia|]. cbn [take print_all length]. rewrite bind_assoc.
    apply bind_ext. intros _. rewrite IH by lia. replace (n - S shown)%nat with k by lia.
    apply bind_ext. intros t. do 2 f_equal. lia.
Qed.

(** ** Both scripts have the same categories *)

Theorem categories_agree `{!Lowercase} name : categorize name = PerfScript.categorize name.
Proof. reflexivity. Qed.

(** ** A title is read as it was written *)

(** [function_name (123,456 samples, 12.34%)]. *)
Definition title_text (title_name count share : bytes) : bytes :=
  title_name ++ lit " (" ++ count ++ lit " samples" ++ lit ", " ++ share ++ lit "%)".

Record title_ok (title_name count share : bytes) (e : Entry) : Prop := {
  ok_name : framed title_name /\ title_name <> lit "all";
  (** The digits in groups. *)
  ok_count : without 32 count /\ without 40 count
             /\ List.filter (fun b => negb (b =? 44)) count = print_decimal (samples e)
             /\ 0 <= samples e <= u64_max;
  ok_share : Forall visible share /\ without 40 share /\ parse_f64 share = Some (percent e);
  ok_entry : name e = title_name;
}.

Lemma find_sub_first b needle l k :
  without b l -> find_sub (b :: needle) (l ++ (b :: needle) ++ k) = Some (length l).
Proof.
  intros Hl. apply find_sub_Some. unfold occurs_at. split.
  - rewrite drop_app_length. by rewrite take_app_length.
  - intros j Hj Ho. cbn [length] in Ho.
    destruct (drop j (l ++ (b :: needle) ++ k)) as [|x rest] eqn:Ed; [done|]. injection Ho as -> _.
    assert ((l ++ (b :: needle) ++ k) !! j = Some b) as H by (by rewrite <- (Nat.add_0_r j), <- lookup_drop, Ed).
    rewrite lookup_app_l in H by done. unfold without in Hl. rewrite Forall_lookup in Hl. by apply (Hl j b).
Qed.

(** The title of a function is read back as its entry. *)
Theorem title_read_back title_name count share e :
  title_ok title_name count share e -> parse_title (title_text title_name count share) = ret (Some e).
Proof.
  intros [[Hn Hall] (Hc & Hp & Hd & Hu) (Hv & Hs & Hf) He]. unfold parse_title, title_text.
  set (meta := count ++ lit " samples" ++ lit ", " ++ share ++ lit "%)").
  assert (without 40 meta) as Hm.
  { unfold meta, without in *. repeat (apply Forall_app; split); try done;
      repeat (apply List.Forall_cons; [vm_compute; discriminate|]); constructor. }
  change (lit " (" ++ meta) with ([32] ++ 40 :: meta). rewrite app_assoc, rfind_byte_last by done.
  rewrite take_app_length, drop_app_ge, Nat.sub_succ_l, Nat.sub_diag by lia. cbn [drop]. rewrite drop_0.
  assert (trim (title_name ++ [32]) = title_name) as -> by exact (trim_framed 0 1 _ Hn).
  assert (find_sub (lit " samples") meta = Some (length count)) as -> by (by apply find_sub_first).
  unfold meta at 1. rewrite take_app_length, Hd, parse_u64_decimal by done.
  assert (rfind (lit ", ") meta = Some (length (count ++ lit " samples"))) as ->.
  { unfold meta. rewrite app_assoc. apply (rfind_last [44] 32). apply Forall_app.
    split; [by apply visible_without|]. repeat (apply List.Forall_cons; [vm_compute; discriminate|]). constructor. }
  set (front := count ++ lit " samples" ++ lit ", ").
  assert (meta = (front ++ share) ++ 37 :: [41]) as Em by (unfold meta, front; by rewrite <- !app_assoc).
  assert (rfind_byte 37 meta = Some (length (front ++ share))) as ->.
  { rewrite Em. apply rfind_byte_last. by repeat constructor. }
  assert (length (count ++ lit " samples") + 2 = length front)%nat as ->.
  { unfold front. rewrite !length_app. change (length (lit " samples")) with 8%nat. change (length (lit ", ")) with 2%nat. lia. }
  rewrite (proj2 (Nat.ltb_ge _ _)) by (rewrite length_app; lia). cbn [unwrap].
  assert (slice meta (length front) (length (front ++ share)) = share) as ->.
  { rewrite Em, <- app_assoc, length_app. apply slice_app_mid. }
  rewrite bind_ret, Hf. destruct e as [e_name ? ?]. cbn [name samples percent] in *. subst e_name.
  destruct (bytes_eqb title_name []) eqn:E1; [apply bytes_eqb_spec in E1 as ->; by destruct Hn as [(?&?&?&_) _]|].
  destruct (bytes_eqb title_name (lit "all")) eqn:E2; [by apply bytes_eqb_spec in E2|done].
Qed.

Lemma title_read_back_witness :
  parse_title (title_text (lit "alloc::vec::Vec<T> (inlined)") (lit "1,234,567") (lit "12.5"))
  = ret (Some {| name := lit "alloc::vec::Vec<T> (inlined)"; samples := 1234567;
                 percent := S754_finite false 7036874417766400 (-49) |}).
Proof.
  apply title_read_back. constructor; cbn [samples percent].
  - split; [is_framed|discriminate].
  - split; [by_computation|]. split; [by_computation|]. split; [reflexivity|unfold u64_max; lia].
  - split; [by_computation|]. split; [by_computation|vm_compute; reflexivity].
  - reflexivity.
Defined.

(** ** Behaviour worth knowing *)

Definition share (n : Z) : f64 := f64_of_int n.
Definition a_name : bytes := lit "serve_session".

(** Of two entries of one name, two call paths to a function, the difference
    keeps the smaller, and lists it twice. *)
Example repeated_name :
  ((fun d => (d_name d, before_pct d, after_pct d)) <$>
    deltas [{| name := a_name; samples := 40; percent := share 40 |}; {| name := a_name; samples := 5; percent := share 5 |}] [])
  = [(a_name, share 5, f64_zero); (a_name, share 5, f64_zero)].
Proof. vm_compute. reflexivity. Qed.

(** A comma behind the percent sign makes the range of the share run backwards. *)
Example share_out_of_order : ended (parse_title (lit "f (12 samples, 3%, rest)")) = Panics.
Proof. vm_compute. reflexivity. Qed.

(** A graph of three titles, and the two commands that need no number. *)
Definition a_graph : bytes :=
  lit "<svg><g><title>all (10 samples, 100%)</title></g><g><title>serve_session (4 samples, 40.00%)</title></g>"
  ++ lit "<g><title>__x64_sys_writev (6 samples, 60.00%)</title></g></svg>".

Example a_graph_read :
  ended (parse_entries a_graph)
  = Returns [{| name := lit "__x64_sys_writev"; samples := 6; percent := share 60 |};
             {| name := a_name; samples := 4; percent := share 40 |}].
Proof. vm_compute. reflexivity. Qed.

Definition a_disk (path : bytes) : result bytes bytes :=
  if bytes_eqb path (lit "a.svg") then Ok a_graph else Err (lit "No such file or directory").

Example a_graph_shown :
  stdout (main a_disk [lit "parse_flamegraph"; lit "a.svg"; lit "syscalls"])
  = bstr "Syscall breakdown:\n\n      %  Syscall\n" ++ replicate 60 45 ++ bstr "\n 60.00%  writev\n"
    ++ replicate 60 45 ++ bstr "\n 60.00%  Total syscall time\n"
  /\ ended (main a_disk [lit "parse_flamegraph"; lit "b.svg"]) = Fails (lit "No such file or directory")
  /\ ended (main a_disk [lit "parse_flamegraph"]) = Exits 1.
Proof. split; [|split]; vm_compute; reflexivity. Qed.
