(* ===== verification/Json.v ===== *)
(** * JSON text ([src/src/lib.rs], [json_string] and its siblings)

    What the manifests are written in: the helpers of the source that render
    strings, options and arrays, a tree of JSON values with its compact text,
    and a reader of that text by the grammar of RFC 8259.  The theorem of this
    file is the round trip: the reader gives the tree back, whatever the strings
    of the tree hold. *)
From S2P Require Import Prelude Utf8 Decimal Words Float64 Format ArticleStore.

Local Open Scope Z_scope.

Definition QUOTE : Z := 34.
Definition BACKSLASH : Z := 92.

(** ** Characters and strings *)

(** [String::push]: the UTF-8 bytes of a scalar value. *)
Definition encode_char (c : Z) : bytes :=
  if c <? 128 then [c]
  else if c <? 2048 then [192 + c / 64; 128 + c mod 64]
  else if c <? 65536 then [224 + c / 4096; 128 + c / 64 mod 64; 128 + c mod 64]
  else [240 + c / 262144; 128 + c / 4096 mod 64; 128 + c / 64 mod 64; 128 + c mod 64].

(** [char::is_control]: the category Cc of Unicode. *)
Definition is_control (c : Z) : bool := in_range 0 31 c || in_range 127 159 c.

(** [{:04x}] of a number below 65536. *)
Definition hex4 (n : Z) : bytes :=
  [hex_digit (n / 4096 mod 16); hex_digit (n / 256 mod 16); hex_digit (n / 16 mod 16); hex_digit (n mod 16)].

Definition json_char (character : Z) : bytes :=
  if character =? QUOTE then quoted "\'"
  else if character =? BACKSLASH then lit "\\"
  else if character =? 10 then lit "\n"
  else if character =? 13 then lit "\r"
  else if character =? 9 then lit "\t"
  else if is_control character then lit "\u" ++ hex4 character
  else encode_char character.

Definition json_string (value : bytes) : bytes :=
  [QUOTE] ++ concat (json_char <$> chars value) ++ [QUOTE].

Definition json_option_string (value : option bytes) : bytes :=
  match value with None => lit "null" | Some value => json_string value end.

(** ** Numbers *)

Definition json_option_u64 (value : option Z) : bytes :=
  match value with None => lit "null" | Some value => print_integer value end.

Definition json_option_f64 (value : option f64) : bytes :=
  match value with
  | Some value => if f64_is_finite value then f64_fixed 9 value else lit "null"
  | None => lit "null"
  end.

Fixpoint json_u16_items (values : list Z) (index : nat) : bytes :=
  match values with
  | [] => []
  | value :: values =>
      (if (index =? 0)%nat then [] else lit ",") ++ print_integer value ++ json_u16_items values (S index)
  end.
Definition json_u16_array (values : list Z) : bytes := lit "[" ++ json_u16_items values 0 ++ lit "]".

Definition bool_text (b : bool) : bytes := if b then lit "true" else lit "false".

(** ** Values *)

(** A number is a sign and a magnitude in units of [10 ^ - scale]. *)
#[warnings="-register-all"]
Inductive Json : Type :=
| JNull
| JBool (b : bool)
| JNumber (negative : bool) (scale : nat) (units : Z)
| JString (value : bytes)
| JArray (items : list Json)
| JObject (members : list (bytes * Json)).

Definition JInt (n : Z) : Json := JNumber false 0 n.

(** The compact text of a value, with what follows it. *)
Fixpoint write_json (j : Json) (rest : bytes) : bytes :=
  match j with
  | JNull => lit "null" ++ rest
  | JBool b => bool_text b ++ rest
  | JNumber s scale n => minus s ++ print_fixed scale n ++ rest
  | JString value => json_string value ++ rest
  | JArray items =>
      91 :: (fix items_of (items : list Json) (first : bool) : bytes :=
               match items with
               | [] => 93 :: rest
               | j :: items => (if first then [] else [44]) ++ write_json j (items_of items false)
               end) items true
  | JObject members =>
      123 :: (fix members_of (members : list (bytes * Json)) (first : bool) : bytes :=
                match members with
                | [] => 125 :: rest
                | (key, j) :: members =>
                    (if first then [] else [44])
                    ++ json_string key ++ 58 :: write_json j (members_of members false)
                end) members true
  end.

(** Induction with the hypothesis for the values inside. *)
Lemma json_induction (P : Json -> Prop) :
  P JNull -> (forall b, P (JBool b)) -> (forall s scale n, P (JNumber s scale n)) ->
  (forall value, P (JString value)) -> (forall items, Forall P items -> P (JArray items)) ->
  (forall members, Forall (fun m => P (snd m)) members -> P (JObject members)) -> forall j, P j.
Proof.
  intros Hnull Hbool Hnumber Hstring Harray Hobject. fix IH 1. intros [|b|s scale n|value|items|members].
  - exact Hnull.
  - apply Hbool.
  - apply Hnumber.
  - apply Hstring.
  - apply Harray. induction items as [|j items IHi]; constructor; [apply IH|exact IHi].
  - apply Hobject. induction members as [|[key j] members IHm]; constructor; [apply IH|exact IHm].
Qed.

(** ** The reader

    RFC 8259, without exponents in numbers and surrogate pairs in escapes, which
    nothing here writes. *)

Definition is_json_space (b : Z) : bool := (b =? 32) || (b =? 9) || (b =? 10) || (b =? 13).

Fixpoint skip_space (l : bytes) : bytes :=
  match l with
  | b :: l' => if is_json_space b then skip_space l' else l
  | [] => []
  end.

Definition hex_value (b : Z) : option Z :=
  if is_ascii_digit b then Some (b - 48)
  else if in_range 97 102 b then Some (b - 87)
  else if in_range 65 70 b then Some (b - 55)
  else None.

Definition unicode_escape (a b c d : Z) : option Z :=
  a ← hex_value a; b ← hex_value b; c ← hex_value c; d ← hex_value d;
  let code := a * 4096 + b * 256 + c * 16 + d in
  if in_range 55296 57343 code then None else Some code.

(** The escapes of one character. *)
Definition simple_escape (b : Z) : option Z :=
  if (b =? 34) || (b =? 92) || (b =? 47) then Some b
  else if b =? 98 then Some 8
  else if b =? 102 then Some 12
  else if b =? 110 then Some 10
  else if b =? 114 then Some 13
  else if b =? 116 then Some 9
  else None.

(** The rest of a string behind its first quote, and what follows it. *)
Fixpoint read_string (l : bytes) : option (bytes * bytes) :=
  match l with
  | [] => None
  | b :: l1 =>
      if b =? QUOTE then Some ([], l1)
      else if b <? 32 then None
      else if b =? BACKSLASH then
        match l1 with
        | 117 :: h1 :: h2 :: h3 :: h4 :: l2 =>
            code ← unicode_escape h1 h2 h3 h4; read ← read_string l2;
            Some (encode_char code ++ fst read, snd read)
        | c :: l2 =>
            code ← simple_escape c; read ← read_string l2;
            Some (encode_char code ++ fst read, snd read)
        | [] => None
        end
      else read ← read_string l1; Some (b :: fst read, snd read)
  end.

(** The digits at the front. *)
Fixpoint take_digits (l : bytes) : bytes * bytes :=
  match l with
  | b :: l' => if is_ascii_digit b then let '(ds, rest) := take_digits l' in (b :: ds, rest) else ([], l)
  | [] => ([], [])
  end.

Definition read_magnitude (negative : bool) (l : bytes) : option (Json * bytes) :=
  let '(whole, rest) := take_digits l in
  if negb (whole_digits whole) then None
  else
    match strip_prefix rest (lit ".") with
    | Some rest =>
        let '(fraction, rest) := take_digits rest in
        if (length fraction =? 0)%nat then None
        else Some (JNumber negative (length fraction) (decimal_value (whole ++ fraction)), rest)
    | None => Some (JNumber negative 0 (decimal_value whole), rest)
    end.

Definition read_number (l : bytes) : option (Json * bytes) :=
  match strip_prefix l (lit "-") with
  | Some l => read_magnitude true l
  | None => read_magnitude false l
  end.

(** A word of the grammar, or a number. *)
Definition read_scalar (l : bytes) : option (Json * bytes) :=
  match strip_prefix l (lit "null"), strip_prefix l (lit "true"), strip_prefix l (lit "false") with
  | Some rest, _, _ => Some (JNull, rest)
  | _, Some rest, _ => Some (JBool true, rest)
  | _, _, Some rest => Some (JBool false, rest)
  | _, _, _ => read_number l
  end.

(** Behind an item: the end of the list, or a comma. *)
Definition read_delimiter (close : Z) (l : bytes) : option (bool * bytes) :=
  match skip_space l with
  | b :: rest => if b =? close then Some (true, rest) else if b =? 44 then Some (false, rest) else None
  | [] => None
  end.

Fixpoint read_value (fuel : nat) (l : bytes) : option (Json * bytes) :=
  match fuel with
  | O => None
  | S fuel =>
      let l := skip_space l in
      match l with
      | [] => None
      | b :: rest =>
          if b =? QUOTE then read ← read_string rest; Some (JString (fst read), snd read)
          else if b =? 91 then
            match strip_prefix (skip_space rest) (lit "]") with
            | Some rest => Some (JArray [], rest)
            | None => read ← read_items fuel rest; Some (JArray (fst read), snd read)
            end
          else if b =? 123 then
            match strip_prefix (skip_space rest) (lit "}") with
            | Some rest => Some (JObject [], rest)
            | None => read ← read_members fuel rest; Some (JObject (fst read), snd read)
            end
          else read_scalar l
      end
  end
with read_items (fuel : nat) (l : bytes) : option (list Json * bytes) :=
  match fuel with
  | O => None
  | S fuel =>
      item ← read_value fuel l;
      next ← read_delimiter 93 (snd item);
      if fst next : bool then Some ([fst item], snd next)
      else items ← read_items fuel (snd next); Some (fst item :: fst items, snd items)
  end
with read_members (fuel : nat) (l : bytes) : option (list (bytes * Json) * bytes) :=
  match fuel with
  | O => None
  | S fuel =>
      match skip_space l with
      | b :: rest =>
          if negb (b =? QUOTE) then None
          else
            key ← read_string rest;
            match skip_space (snd key) with
            | c :: rest =>
                if negb (c =? 58) then None
                else
                  value ← read_value fuel rest;
                  next ← read_delimiter 125 (snd value);
                  let member := (fst key, fst value) in
                  if fst next : bool then Some ([member], snd next)
                  else members ← read_members fuel (snd next); Some (member :: fst members, snd members)
            | [] => None
            end
      | [] => None
      end
  end.

(** Two rounds take a byte at least, so twice the length is fuel enough. *)
Definition read_json (l : bytes) : option Json :=
  read ← read_value (2 * length l) l;
  match skip_space (snd read) with [] => Some (fst read) | _ => None end.

(** ** Strings are read back *)

Lemma encode_from_utf8 l cs : from_utf8 l = Some cs -> concat (encode_char <$> cs) = l.
Proof.
  revert cs. induction l as [l IH] using (induction_ltof1 _ (@length Z)). intros cs.
  destruct l as [|b0 l1]; [by intros [= <-]|]. cbn [from_utf8]. unfold second_byte_ok, is_continuation in *.
  repeat (case_match; try done);
    intros (r & Hr & ->)%fmap_Some;
    repeat match goal with H : _ && _ = true |- _ => apply andb_true_iff in H as [??] end;
    repeat match goal with H : in_range _ _ _ = true |- _ => apply in_range_spec in H end;
    repeat match goal with H : in_range _ _ _ = false |- _ => apply in_range_false in H end;
    repeat match goal with H : (_ =? _) = true |- _ => apply Z.eqb_eq in H; subst end;
    repeat match goal with H : (_ =? _) = false |- _ => apply Z.eqb_neq in H end;
    rewrite fmap_cons; cbn [concat]; match type of Hr with from_utf8 ?k = _ => rewrite (IH k ltac:(unfold ltof; simpl; lia) r Hr) end;
    unfold encode_char;
    repeat match goal with |- context [?x <? ?y] => destruct (Z.ltb_spec x y); [try (exfalso; lia)|try (exfalso; lia)] end;
    cbn [app]; repeat f_equal; Z.to_euclidean_division_equations; lia.
Qed.

Lemma read_string_plain bs l :
  Forall (fun b => 93 <= b) bs ->
  read_string (bs ++ l) = read ← read_string l; Some (bs ++ fst read, snd read).
Proof.
  induction 1 as [|b bs Hb _ IH]; cbn [app].
  - by destruct (read_string l) as [[value rest]|].
  - cbn [read_string]. unfold QUOTE, BACKSLASH.
    rewrite (proj2 (Z.eqb_neq b 34)), (proj2 (Z.ltb_ge b 32)), (proj2 (Z.eqb_neq b 92)) by lia.
    rewrite IH. by destruct (read_string l) as [[value rest]|].
Qed.

(** The escapes of control characters, one by one. *)
Lemma control_escapes :
  forallb (fun c => negb (is_control c)
    || match hex4 c with
       | [h1; h2; h3; h4] => bool_decide (unicode_escape h1 h2 h3 h4 = Some c)
       | _ => false
       end) (seqZ 0 160) = true.
Proof. vm_compute. reflexivity. Qed.

Lemma control_escape c :
  is_control c = true ->
  unicode_escape (hex_digit (c / 4096 mod 16)) (hex_digit (c / 256 mod 16)) (hex_digit (c / 16 mod 16))
    (hex_digit (c mod 16)) = Some c.
Proof.
  intros Hc. pose proof control_escapes as H. rewrite forallb_forall in H.
  assert (In c (seqZ 0 160)) as Hin.
  { apply list_elem_of_In, elem_of_seqZ. unfold is_control in Hc.
    apply orb_true_iff in Hc as [Hc%in_range_spec|Hc%in_range_spec]; lia. }
  specialize (H c Hin). rewrite Hc in H. cbn [negb orb hex4] in H. by apply bool_decide_eq_true in H.
Qed.

(** What one character of a string becomes is read back as this character. *)
Lemma read_json_char c l :
  0 <= c ->
  read_string (json_char c ++ l) = read ← read_string l; Some (encode_char c ++ fst read, snd read).
Proof.
  intros Hc. unfold json_char, QUOTE, BACKSLASH.
  destruct (Z.eqb_spec c 34) as [->|H1]; [by destruct (read_string l) as [[]|] eqn:E; cbn -[read_string]; cbn; rewrite E|].
  destruct (Z.eqb_spec c 92) as [->|H2]; [by destruct (read_string l) as [[]|] eqn:E; cbn; rewrite E|].
  destruct (Z.eqb_spec c 10) as [->|H3]; [by destruct (read_string l) as [[]|] eqn:E; cbn; rewrite E|].
  destruct (Z.eqb_spec c 13) as [->|H4]; [by destruct (read_string l) as [[]|] eqn:E; cbn; rewrite E|].
  destruct (Z.eqb_spec c 9) as [->|H5]; [by destruct (read_string l) as [[]|] eqn:E; cbn; rewrite E|].
  destruct (is_control c) eqn:Hctl.
  - change (lit "\u" ++ hex4 c) with (92 :: 117 :: hex4 c). unfold hex4. cbn [app].
    cbn [read_string]. change (92 =? QUOTE) with false. change (92 <? 32) with false.
    change (92 =? BACKSLASH) with true. cbv iota. by rewrite control_escape.
  - unfold is_control in Hctl. apply orb_false_iff in Hctl as [Ha%in_range_false Hb%in_range_false].
    destruct (Z.ltb_spec c 128) as [Hs|Hs].
    + unfold encode_char. rewrite (proj2 (Z.ltb_lt c 128)) by done. cbn [app read_string].
      unfold QUOTE, BACKSLASH.
      by rewrite (proj2 (Z.eqb_neq c 34)), (proj2 (Z.ltb_ge c 32)), (proj2 (Z.eqb_neq c 92)) by lia.
    + apply read_string_plain. unfold encode_char. rewrite (proj2 (Z.ltb_ge c 128)) by done.
      repeat case_match; repeat apply List.Forall_cons; try apply List.Forall_nil; Z.to_euclidean_division_equations; lia.
Qed.

Lemma read_json_string value l :
  is_str value -> read_string (concat (json_char <$> chars value) ++ QUOTE :: l) = Some (value, l).
Proof.
  intros [cs Hcs]. unfold chars. rewrite Hcs. change (default [] (Some cs)) with cs.
  pose proof (from_utf8_scalar _ _ Hcs) as Hs. pose proof (encode_from_utf8 _ _ Hcs) as <-. clear Hcs.
  induction Hs as [|c cs [[Hc _] _] _ IH]; [done|]. rewrite !fmap_cons. cbn [concat].
  rewrite <- app_assoc, read_json_char, IH by done. done.
Qed.

(** ** Numbers are read back *)

(** Nothing a number could go on with. *)
Definition number_ends (rest : bytes) : Prop :=
  match rest with [] => True | b :: _ => is_ascii_digit b = false /\ b <> 46 end.

Lemma take_digits_app ds rest :
  forallb is_ascii_digit ds = true ->
  match rest with [] => True | b :: _ => is_ascii_digit b = false end -> take_digits (ds ++ rest) = (ds, rest).
Proof.
  intros Hds Hrest. induction ds as [|b ds IH]; cbn [app].
  - destruct rest as [|b rest]; [done|]. cbn [take_digits]. by rewrite Hrest.
  - cbn [forallb] in Hds. apply andb_true_iff in Hds as [Hb Hds]. cbn [take_digits]. by rewrite Hb, (IH Hds).
Qed.

Lemma read_fixed s scale n rest :
  (scale <= 400)%nat -> 0 <= n -> n / 10 ^ Z.of_nat scale < INTEGER_LIMIT -> number_ends rest ->
  read_magnitude s (print_fixed scale n ++ rest) = Some (JNumber s scale n, rest).
Proof.
  intros Hs Hn Hlim Hrest. set (whole := n / 10 ^ Z.of_nat scale) in *.
  assert (0 <= whole) as Hw by (apply Z.div_pos; lia).
  destruct (print_integer_spec whole ltac:(lia)) as (Hd & Hv & Hz). unfold read_magnitude, print_fixed.
  fold whole. rewrite <- app_assoc. destruct scale as [|scale].
  - cbn [app]. rewrite take_digits_app, Hz; [|done|destruct rest; [done|by destruct Hrest]]. cbn [negb].
    assert (whole = n) as Hwn by (unfold whole; change (10 ^ Z.of_nat 0) with 1; apply Z.div_1_r).
    rewrite Hv, Hwn. destruct rest as [|b rest]; [done|]. destruct Hrest as [_ Hb].
    unfold strip_prefix. change (lit ".") with [46]. by rewrite starts_with_differ.
  - set (prec := S scale) in *.
    destruct (fraction_digits_spec prec n ltac:(lia) Hn) as (Hf & Hfv & Hfl).
    rewrite <- app_assoc. rewrite take_digits_app, Hz by done. cbn [negb].
    rewrite (proj2 (strip_prefix_Some (lit "." ++ fraction_digits prec n ++ rest) (lit ".") _) eq_refl).
    rewrite take_digits_app; [|done|destruct rest; [done|by destruct Hrest]]. rewrite Hfl.
    change (prec =? 0)%nat with false. cbv iota. rewrite decimal_value_concat, Hfl, Hv, Hfv.
    unfold whole. pose proof (Z.div_mod n (10 ^ Z.of_nat prec) ltac:(lia)). do 3 f_equal. lia.
Qed.

(** ** Values are read back *)

(** What the text of a value needs: strings are text, numbers have digits
    enough. *)
#[warnings="-register-all"]
Inductive json_ok : Json -> Prop :=
| ok_null : json_ok JNull
| ok_bool b : json_ok (JBool b)
| ok_number s scale n :
    (scale <= 400)%nat -> 0 <= n -> n / 10 ^ Z.of_nat scale < INTEGER_LIMIT -> json_ok (JNumber s scale n)
| ok_string value : is_str value -> json_ok (JString value)
| ok_array items : Forall json_ok items -> json_ok (JArray items)
| ok_object members :
    Forall (fun m => is_str (fst m)) members -> Forall json_ok (snd <$> members) -> json_ok (JObject members).

(** The two loops of [write_json]. *)
Fixpoint write_items (items : list Json) (first : bool) (rest : bytes) : bytes :=
  match items with
  | [] => 93 :: rest
  | j :: items => (if first then [] else [44]) ++ write_json j (write_items items false rest)
  end.
Fixpoint write_members (members : list (bytes * Json)) (first : bool) (rest : bytes) : bytes :=
  match members with
  | [] => 125 :: rest
  | (key, j) :: members =>
      (if first then [] else [44]) ++ json_string key ++ 58 :: write_json j (write_members members false rest)
  end.

Lemma write_array items rest : write_json (JArray items) rest = 91 :: write_items items true rest.
Proof.
  cbn [write_json]. f_equal. generalize true. induction items as [|j items IH]; intros first; [done|].
  cbn [write_items]. by rewrite <- IH.
Qed.

Lemma write_object members rest : write_json (JObject members) rest = 123 :: write_members members true rest.
Proof.
  cbn [write_json]. f_equal. generalize true. induction members as [|[key j] members IH]; intros first; [done|].
  cbn [write_members]. by rewrite <- IH.
Qed.

(** The rounds the reader takes. *)
Fixpoint rounds (j : Json) : nat :=
  match j with
  | JArray items => S ((fix of_items (items : list Json) : nat :=
                         match items with [] => O | j :: items => S (rounds j + of_items items) end) items)
  | JObject members => S ((fix of_members (members : list (bytes * Json)) : nat :=
                            match members with [] => O | (_, j) :: members => S (rounds j + of_members members) end)
                           members)
  | _ => 1%nat
  end.
Definition rounds_of (js : list Json) : nat := foldr (fun j n => S (rounds j + n)) O js.

Lemma rounds_array items : rounds (JArray items) = S (rounds_of items).
Proof. reflexivity. Qed.

Lemma rounds_object members : rounds (JObject members) = S (rounds_of (snd <$> members)).
Proof.
  cbn [rounds]. f_equal. induction members as [|[key j] members IH]; [reflexivity|]. cbn [fmap list_fmap rounds_of foldr snd].
  by rewrite IH.
Qed.

Lemma skip_space_other b l : is_json_space b = false -> skip_space (b :: l) = b :: l.
Proof. intros H. cbn [skip_space]. by rewrite H. Qed.

(** Texts whose first byte decides how they are read. *)
Lemma read_value_number fuel s scale n rest :
  json_ok (JNumber s scale n) -> number_ends rest ->
  read_value (S fuel) (write_json (JNumber s scale n) rest) = Some (JNumber s scale n, rest).
Proof.
  intros Hok Hrest. inversion Hok as [| |s' scale' n' Hs Hn Hlim| | |]; subst.
  pose proof (read_fixed s scale n rest Hs Hn Hlim Hrest) as Hread.
  assert (exists b ds, print_fixed scale n = b :: ds /\ 48 <= b <= 57) as (b & ds & Hb & Hbr).
  { assert (0 <= n / 10 ^ Z.of_nat scale) as Hw by (apply Z.div_pos; lia).
    destruct (print_integer_spec _ (conj Hw Hlim)) as (Hd & _ & Hz). unfold print_fixed.
    destruct (print_integer (n / 10 ^ Z.of_nat scale)) as [|b ds]; [done|]. cbn [app]. eexists b, _. split; [done|].
    cbn [forallb] in Hd. apply andb_true_iff in Hd as [Hd%is_ascii_digit_spec _]. exact Hd. }
  assert (forall c l, c = 45 \/ 48 <= c <= 57 ->
    read_value (S fuel) (c :: l) = read_number (c :: l)) as Hgo.
  { intros c l Hc. cbn [read_value]. rewrite skip_space_other by (unfold is_json_space; lia).
    unfold QUOTE. rewrite (proj2 (Z.eqb_neq c 34)), (proj2 (Z.eqb_neq c 91)), (proj2 (Z.eqb_neq c 123)) by lia.
    unfold read_scalar, strip_prefix. change (lit "null") with [110; 117; 108; 108].
    change (lit "true") with [116; 114; 117; 101]. change (lit "false") with [102; 97; 108; 115; 101].
    by rewrite !starts_with_differ by lia. }
  cbn [write_json]. destruct s; cbn [minus app]; rewrite Hb in *; cbn [app] in *.
  - change (lit "-" ++ b :: ds ++ rest) with (45 :: b :: ds ++ rest). rewrite Hgo by (by left). exact Hread.
  - change ([] ++ b :: ds ++ rest) with (b :: ds ++ rest). rewrite Hgo by (by right). unfold read_number, strip_prefix.
    change (lit "-") with [45]. rewrite starts_with_differ by lia. exact Hread.
Qed.

(** The first byte of a value. *)
Definition starts_value (b : Z) : Prop := is_json_space b = false /\ b <> 93 /\ b <> 125.

Lemma write_head j rest : json_ok j -> exists b l, write_json j rest = b :: l /\ starts_value b.
Proof.
  unfold starts_value, is_json_space. intros Hok.
  destruct Hok as [|b|s scale n Hs Hn Hlim|value Hv|items Hi|members Hk Hm].
  - by eexists _, _.
  - destruct b; by eexists _, _.
  - destruct s; cbn [write_json minus]; [by eexists _, _|].
    assert (0 <= n / 10 ^ Z.of_nat scale) as Hw by (apply Z.div_pos; lia).
    destruct (print_integer_spec _ (conj Hw Hlim)) as (Hd & _ & Hz). unfold print_fixed.
    destruct (print_integer (n / 10 ^ Z.of_nat scale)) as [|b ds]; [done|]. cbn [forallb] in Hd.
    apply andb_true_iff in Hd as [Hd%is_ascii_digit_spec _]. eexists b, _. split; [reflexivity|]. lia.
  - by eexists _, _.
  - rewrite write_array. by eexists _, _.
  - rewrite write_object. by eexists _, _.
Qed.

Definition reads_back (j : Json) : Prop :=
  forall fuel rest, (rounds j <= fuel)%nat -> number_ends rest -> read_value fuel (write_json j rest) = Some (j, rest).

Lemma read_items_written items fuel rest :
  items <> [] -> Forall json_ok items -> Forall reads_back items -> (rounds_of items <= fuel)%nat ->
  read_items fuel (write_items items true rest) = Some (items, rest).
Proof.
  intros Hne Hok Hback. revert fuel Hne. induction Hback as [|j items Hj _ IH]; intros fuel Hne Hf; [done|].
  cbn [rounds_of foldr] in Hf. fold (rounds_of items) in Hf. destruct fuel as [|fuel]; [lia|].
  apply Forall_cons_1 in Hok as [_ Hok]. cbn [write_items app read_items].
  rewrite Hj by (destruct items; cbn; done || lia). cbn [mbind option_bind fst snd].
  destruct items as [|j' items]; [done|].
  change (write_items (j' :: items) false rest) with (44 :: write_items (j' :: items) true rest).
  unfold read_delimiter. rewrite skip_space_other by done. change (44 =? 93) with false. change (44 =? 44) with true.
  cbv iota. cbn [mbind option_bind fst snd]. by rewrite IH by (done || lia).
Qed.

Lemma read_members_written members fuel rest :
  members <> [] -> Forall (fun m => is_str (fst m)) members -> Forall reads_back (snd <$> members) ->
  (rounds_of (snd <$> members) <= fuel)%nat ->
  read_members fuel (write_members members true rest) = Some (members, rest).
Proof.
  revert fuel. induction members as [|[key j] members IH]; intros fuel Hne Hkeys Hback Hf; [done|].
  cbn [fmap list_fmap snd rounds_of foldr] in Hback, Hf. fold (rounds_of (snd <$> members)) in Hf.
  apply Forall_cons_1 in Hkeys as [Hkey Hkeys]. apply Forall_cons_1 in Hback as [Hj Hback]. cbn [fst] in Hkey.
  destruct fuel as [|fuel]; [lia|]. cbn [write_members app read_members]. unfold json_string.
  rewrite <- !app_assoc. cbn [app]. rewrite skip_space_other by done. change (negb (QUOTE =? QUOTE)) with false. cbv iota.
  rewrite read_json_string by done. cbn [mbind option_bind fst snd].
  rewrite skip_space_other by done. change (negb (58 =? 58)) with false. cbv iota.
  rewrite Hj by (destruct members as [|[]]; cbn; done || lia). cbn [mbind option_bind fst snd].
  destruct members as [|[key' j'] members]; [done|].
  change (write_members ((key', j') :: members) false rest) with (44 :: write_members ((key', j') :: members) true rest).
  unfold read_delimiter. rewrite skip_space_other by done. change (44 =? 125) with false. change (44 =? 44) with true.
  cbv iota. cbn [mbind option_bind fst snd]. by rewrite IH by (done || lia).
Qed.

Lemma not_closing b l close :
  starts_value b -> close = lit "]" \/ close = lit "}" -> strip_prefix (skip_space (b :: l)) close = None.
Proof.
  intros (Hs & H1 & H2) Hc. rewrite skip_space_other by done. unfold strip_prefix.
  destruct Hc as [-> | ->]; [change (lit "]") with [93]|change (lit "}") with [125]]; by rewrite starts_with_differ.
Qed.

Lemma Forall_mp {A} (P Q : A -> Prop) l : Forall (fun x => P x -> Q x) l -> Forall P l -> Forall Q l.
Proof. induction 1; inversion 1; subst; constructor; auto. Qed.

Lemma value_reads_back j : json_ok j -> reads_back j.
Proof.
  induction j as [|b|s scale n|value|items IH|members IH] using json_induction; intros Hok [|fuel] rest Hf Hrest;
    try (cbn in Hf; lia).
  - done.
  - by destruct b.
  - by apply read_value_number.
  - inversion Hok as [| | |value' Hv| |]; subst. cbn [write_json]. unfold json_string. rewrite <- !app_assoc.
    cbn [app read_value]. rewrite skip_space_other by done. change (QUOTE =? QUOTE) with true. cbv iota.
    by rewrite read_json_string.
  - inversion Hok as [| | | |items' Hi|]; subst. rewrite rounds_array in Hf. rewrite write_array. cbn [read_value].
    rewrite skip_space_other by done. change (91 =? QUOTE) with false. change (91 =? 91) with true. cbv iota.
    destruct items as [|j items]; [done|]. cbn [write_items app].
    destruct (write_head j (write_items items false rest)) as (b & l & E & Hb); [by apply Forall_cons_1 in Hi as [??]|].
    rewrite E, not_closing by auto. rewrite <- E.
    change (write_json j (write_items items false rest)) with (write_items (j :: items) true rest).
    rewrite read_items_written; [done|done|done| |lia].
    exact (Forall_mp _ _ _ IH Hi).
  - inversion Hok as [| | | | |members' Hk Hm]; subst. rewrite rounds_object in Hf. rewrite write_object. cbn [read_value].
    rewrite skip_space_other by done. change (123 =? QUOTE) with false. change (123 =? 91) with false.
    change (123 =? 123) with true. cbv iota.
    destruct members as [|[key j] members]; [done|]. cbn [write_members app].
    change (json_string key ++ 58 :: write_json j (write_members members false rest))
      with (QUOTE :: (concat (json_char <$> chars key) ++ [QUOTE]) ++ 58 :: write_json j (write_members members false rest)).
    rewrite not_closing by (by auto).
    change (QUOTE :: (concat (json_char <$> chars key) ++ [QUOTE]) ++ 58 :: write_json j (write_members members false rest))
      with (write_members ((key, j) :: members) true rest).
    rewrite read_members_written; [done|done|done| |lia].
    apply (Forall_mp json_ok); [by apply list.Forall_fmap|done].
Qed.

(** ** The whole text *)

Definition long_enough (j : Json) : Prop :=
  forall rest, (rounds j + 2 * length rest <= 2 * length (write_json j rest))%nat.

Lemma write_items_length items (first : bool) rest :
  Forall long_enough items ->
  (rounds_of items + 2 * length rest + (if first then 1 else 2) <= 2 * length (write_items items first rest))%nat.
Proof.
  intros H. revert first. induction H as [|j items Hj _ IH]; intros first; [destruct first; cbn; lia|].
  cbn [rounds_of foldr write_items]. fold (rounds_of items). rewrite length_app.
  specialize (Hj (write_items items false rest)). specialize (IH false). destruct first; cbn [length] in *; lia.
Qed.

Lemma write_members_length members (first : bool) rest :
  Forall long_enough (snd <$> members) ->
  (rounds_of (snd <$> members) + 2 * length rest + (if first then 1 else 2)
   <= 2 * length (write_members members first rest))%nat.
Proof.
  revert first. induction members as [|[key j] members IH]; intros first H; [destruct first; cbn; lia|].
  cbn [fmap list_fmap snd] in *. apply Forall_cons_1 in H as [Hj H].
  cbn [rounds_of foldr write_members]. fold (rounds_of (snd <$> members)). rewrite !length_app. cbn [length].
  specialize (Hj (write_members members false rest)). specialize (IH false H). destruct first; cbn [length] in *; lia.
Qed.

Lemma write_json_length j : json_ok j -> long_enough j.
Proof.
  induction j as [|b|s scale n|value|items IH|members IH] using json_induction; intros Hok rest.
  - cbn. lia.
  - destruct b; cbn; lia.
  - destruct (write_head _ [] Hok) as (b & l & E & _). cbn [write_json rounds] in *.
    apply (f_equal length) in E. rewrite !length_app in *. cbn [length] in *. lia.
  - cbn [write_json rounds]. unfold json_string. rewrite !length_app. cbn [length]. lia.
  - inversion Hok as [| | | |items' Hi|]; subst. rewrite rounds_array, write_array. cbn [length].
    pose proof (write_items_length items true rest (Forall_mp _ _ _ IH Hi)) as H. cbn in H. lia.
  - inversion Hok as [| | | | |members' Hk Hm]; subst. rewrite rounds_object, write_object. cbn [length].
    assert (Forall long_enough (snd <$> members)) as Hl by (apply (Forall_mp json_ok); [by apply list.Forall_fmap|done]).
    pose proof (write_members_length members true rest Hl) as H. cbn in H. lia.
Qed.

(** The reader gives back the value whose text it reads, with a line feed behind
    it or without. *)
Lemma read_write_json j rest : json_ok j -> rest = [] \/ rest = [LF] -> read_json (write_json j rest) = Some j.
Proof.
  intros Hok Hrest. unfold read_json. pose proof (write_json_length j Hok rest) as H.
  rewrite value_reads_back; [|done|lia|by destruct Hrest as [-> | ->]]. cbn [mbind option_bind fst snd].
  by destruct Hrest as [-> | ->].
Qed.
