(* ===== verification/Manifest.v ===== *)
(** * The reports of the two programs ([src/src/lib.rs])

    What a load and a server say of themselves when they end: the counters
    ([Stats::snapshot], [Snapshot::print]), the cost of the process as Linux
    tells it in [/proc], the CSV line of a load and the JSON manifests
    ([render_load_manifest], [render_server_manifest]).  The version and the
    names of the platform are what the build makes them, and the files of
    [/proc] are their text. *)
From Stdlib Require Import Floats.SpecFloat.
From S2P Require Import Prelude Utf8 Decimal Memchr Kinds Text ClientWire ServerPayload Float64 LoadSchedule LoadWorkload.
From S2P Require Import SegmentFile LoadSession Words FetchCommand LoadConfig Format Json.

Local Open Scope Z_scope.
Local Open Scope rust_scope.

(** ** Counters *)

Record Snapshot : Type := {
  sn_at : Z;
  sn_accepted_connections : Z;
  sn_refused_connections : Z;
  sn_active_connections : Z;
  sn_commands : Z;
  sn_pipeline_batches : Z;
  sn_article_requests : Z;
  sn_body_requests : Z;
  sn_bytes_sent : Z;
  sn_errors : Z;
}.

(** [Instant::duration_since]: nothing for an instant that is later. *)
Definition duration_since (later earlier : Z) : Z := Z.max 0 (later - earlier).

(** [0.001] as an [f64]. *)
Definition MILLISECOND : f64 := f64_div (f64_of_int 1) (f64_of_int 1000).

Definition seconds_between (later earlier : Z) : f64 :=
  f64_max (as_secs_f64 (duration_since later earlier)) MILLISECOND.

Definition rate (count : Z) (seconds : f64) : f64 := f64_div (f64_of_int count) seconds.

Definition STATS_LINE : bytes :=
  lit "{} elapsed={:.1}s active={} conns={} conn/s={:.0} cmds={} cmd/s={:.0} pipeline_batches={} article/s={:.0} body/s={:.0} throughput={:.2} MiB/s refused={} errors={}".

(** The line of what was counted in the [window]. *)
Definition snapshot_line (self : Snapshot) (label : bytes) (elapsed window : f64)
    (connections commands articles bodies sent : Z) : bytes :=
  format STATS_LINE
    [ArgText label; ArgFloat elapsed; ArgInt (sn_active_connections self);
     ArgInt (sn_accepted_connections self); ArgFloat (rate connections window);
     ArgInt (sn_commands self); ArgFloat (rate commands window); ArgInt (sn_pipeline_batches self);
     ArgFloat (rate articles window); ArgFloat (rate bodies window);
     ArgFloat (f64_div (rate sent window) (f64_mul (f64_of_int 1024) (f64_of_int 1024)));
     ArgInt (sn_refused_connections self); ArgInt (sn_errors self)]
  ++ [LF].

(** [None] is the overflow of a counter below the previous one. *)
Definition snapshot_print (self : Snapshot) (label : bytes) (started : Z) (previous : option Snapshot)
    : option bytes :=
  let elapsed := seconds_between (sn_at self) started in
  let window := match previous with Some p => seconds_between (sn_at self) (sn_at p) | None => elapsed end in
  let before (f : Snapshot -> Z) := match previous with Some p => f p | None => 0 end in
  connections ← u64_checked_sub (sn_accepted_connections self) (before sn_accepted_connections);
  commands ← u64_checked_sub (sn_commands self) (before sn_commands);
  articles ← u64_checked_sub (sn_article_requests self) (before sn_article_requests);
  bodies ← u64_checked_sub (sn_body_requests self) (before sn_body_requests);
  sent ← u64_checked_sub (sn_bytes_sent self) (before sn_bytes_sent);
  Some (snapshot_line self label elapsed window connections commands articles bodies sent).

(** ** The process *)

(** [str::rsplit_once]: at the last place the pattern stands. *)
Fixpoint rsplit_once (pattern value : bytes) : option (bytes * bytes) :=
  match value with
  | [] => None
  | b :: value' =>
      match rsplit_once pattern value' with
      | Some (before, after) => Some (b :: before, after)
      | None => if starts_with value pattern then Some ([], drop (length pattern) value) else None
      end
  end.

Definition parse_process_cpu_ticks (stat : bytes) : option Z :=
  split ← rsplit_once (lit ") ") stat;
  let fields := Words.split_whitespace (snd split) in
  utime ← fields !! 11%nat ≫= parse_u64;
  stime ← fields !! 12%nat ≫= parse_u64;
  u64_checked_add utime stime.

(** [process_cpu_ticks] at the end is the argument. *)
Definition cpu_seconds_since (start process_cpu_ticks : option Z) : f64 :=
  match start, process_cpu_ticks with
  | Some start, Some end_ => f64_div (f64_of_int (Z.max 0 (end_ - start))) (f64_of_int 100)
  | _, _ => f64_of_int 0
  end.

(** The text of [/proc/self/status], where it can be read. *)
Fixpoint rss_of_lines (lines : list bytes) : Z :=
  match lines with
  | [] => 0
  | line :: lines =>
      match strip_prefix line (lit "VmRSS:") with
      | Some value => default 0 (head (Words.split_whitespace value) ≫= parse_u64)
      | None => rss_of_lines lines
      end
  end.
Definition process_rss_kib (status : option bytes) : Z :=
  match status with Some status => rss_of_lines (str_lines status) | None => 0 end.

(** [str::split_once] of one byte. *)
Definition split_once (sep : Z) (value : bytes) : option (bytes * bytes) :=
  i ← position (Z.eqb sep) value; Some (take i value, drop (S i) value).

(** The text of [/proc/cpuinfo], where it can be read. *)
Fixpoint model_of_lines (lines : list bytes) : option bytes :=
  match lines with
  | [] => None
  | line :: lines =>
      match split_once 58 line with
      | Some (_, value) =>
          if starts_with line (lit "model name") then Some (Words.trim value) else model_of_lines lines
      | None => model_of_lines lines
      end
  end.
Definition cpu_model (cpuinfo : option bytes) : option bytes :=
  cpuinfo ≫= fun text => model_of_lines (str_lines text).

(** ** Names *)

(** [env!] and [std::env::consts]. *)
Record Build : Type := { bu_version : bytes; bu_os : bytes; bu_arch : bytes }.

(** [SocketAddr::to_string]: the text of an IPv6 address, the one with colons,
    is bracketed. *)
Definition socket_addr_text (addr : SocketAddr) : bytes :=
  (if existsb (Z.eqb 58) (sa_ip addr) then lit "[" ++ sa_ip addr ++ lit "]" else sa_ip addr)
  ++ lit ":" ++ print_integer (sa_port addr).

(** [IpAddr::is_loopback], on the text of the address. *)
Definition is_loopback (addr : SocketAddr) : bool :=
  starts_with (sa_ip addr) (lit "127.") || bytes_eqb (sa_ip addr) (lit "::1").

(** The names [derive(Debug)] prints. *)
Definition mix_debug (mix : ClientCommandMix.ClientCommandMix) : bytes :=
  match mix with
  | ClientCommandMix.Article => lit "Article"
  | ClientCommandMix.Body => lit "Body"
  | ClientCommandMix.Alternate => lit "Alternate"
  | ClientCommandMix.Stat => lit "Stat"
  | ClientCommandMix.Mixed => lit "Mixed"
  end.
Definition policy_debug (policy : LoadWorkloadPolicy.LoadWorkloadPolicy) : bytes :=
  match policy with
  | LoadWorkloadPolicy.Disjoint => lit "Disjoint"
  | LoadWorkloadPolicy.Shared => lit "Shared"
  | LoadWorkloadPolicy.Repeat => lit "Repeat"
  end.
Definition verification_debug (policy : LoadVerificationPolicy.LoadVerificationPolicy) : bytes :=
  match policy with
  | LoadVerificationPolicy.None => lit "None"
  | LoadVerificationPolicy.Sampled => lit "Sampled"
  | LoadVerificationPolicy.Full => lit "Full"
  end.
Definition payload_debug (mode : PayloadMode.PayloadMode) : bytes :=
  match mode with PayloadMode.Yenc => lit "Yenc" | PayloadMode.Plain => lit "Plain" end.

(** [json_debug] of such a name. *)
Definition json_debug (name : bytes) : bytes := json_string name.

(** [0.50] and [0.95] as [f64]. *)
Definition MEDIAN : f64 := f64_div (f64_of_int 50) (f64_of_int 100).
Definition P95 : f64 := f64_div (f64_of_int 95) (f64_of_int 100).

(** ** The manifests *)

Definition SEGMENTS : bytes := quoted "{{'count':{},'declared_bytes':{}}}".

Definition segments_text (segments : option SegmentSet) : option bytes :=
  match segments with
  | None => Some (lit "null")
  | Some segments =>
      total ← total_declared_size segments;
      Some (format SEGMENTS [ArgInt (Z.of_nat (length (seg_ids segments))); ArgInt total])
  end.

Definition LOAD_MANIFEST : bytes :=
  quoted "{{'schema_version':1,'tool':'nntpbench','version':{},'mode':'load',"
  ++ quoted "'workload_identity':{},"
  ++ quoted "'host':{{'os':{},'arch':{},'cpu_model':{},'loopback':{}}},"
  ++ quoted "'byte_counter':'client response wire-frame bytes','byte_counter_includes':'status line, headers, body, and terminator',"
  ++ quoted "'config':{{"
  ++ quoted "'connect':{},'runtime_threads':{},'ports':{},'requests':{},'transfer_bytes':{},"
  ++ quoted "'duration_secs':{:.9},'setup_timeout_secs':{:.9},'drain_timeout_secs':{:.9},"
  ++ quoted "'offered_rate':{},'latency_range_ms':{},'latency_precision_us':{},"
  ++ quoted "'connections':{},'client_offset':{},'total_clients':{},'pipeline_depth':{},"
  ++ quoted "'command_mix':{},'start_id':{},'workload_policy':{},'verification_policy':{},"
  ++ quoted "'segments':{},'read_buffer_bytes':{},'max_response_bytes':{},"
  ++ quoted "'nodelay':{},'socket_recv_buffer':{},'socket_send_buffer':{},"
  ++ quoted "'csv':{},'json':{},'stats_interval_secs':{}"
  ++ quoted "}},"
  ++ quoted "'workload':{{'article_store':{},'article_size_bytes':null,"
  ++ quoted "'body_size_bytes':null,'tls':false,'auth':false}},"
  ++ quoted "'phases':{{'setup_secs':{:.9},'measurement_secs':{:.9},"
  ++ quoted "'drain_secs':{:.9},'total_elapsed_secs':{:.9}}},"
  ++ quoted "'results':{{'commands':{},'article_responses':{},'body_responses':{},"
  ++ quoted "'stat_responses':{},'response_wire_bytes':{},'errors':{},'accepted_connections':{},"
  ++ quoted "'outcomes':{{'scheduled':{},'issued':{},'completed':{},"
  ++ quoted "'drained':{},'incomplete':{},'timed_out_connections':{},"
  ++ quoted "'missed_issue_deadlines':{},'peak_backlog':{}}},"
  ++ quoted "'latency_us':{{'p50':{},'p95':{}}},"
  ++ quoted "'schedule_delay_us':{{'p50':{},'p95':{}}}}},"
  ++ quoted "'process':{{'role':'client','cpu_seconds':{:.9},'rss_kib':{}}}}}".

(** [None] is a panic: of a missing size, or of counts that do not add up. *)
Definition render_load_manifest (md5 : bytes -> bytes) (build : Build) (cpuinfo : option bytes) (config : LoadConfig)
    (snapshot : Snapshot) (lifecycle : LoadSessionOutcome) (elapsed : Z) (cpu_seconds : f64) (rss_kib : Z)
    : option bytes :=
  segments ← segments_text (lc_segments config);
  identity ← workload_identity md5 config;
  without_articles ← u64_checked_sub (sn_commands snapshot) (sn_article_requests snapshot);
  stats ← u64_checked_sub without_articles (sn_body_requests snapshot);
  let article_store := match lc_segments config with Some _ => lit "segment_file" | None => lit "synthetic" end in
  let secs (duration : Z) := ArgFloat (as_secs_f64 duration) in
  Some (format LOAD_MANIFEST
    [ArgText (json_string (bu_version build)); ArgText (json_string identity);
     ArgText (json_string (bu_os build)); ArgText (json_string (bu_arch build));
     ArgText (json_option_string (cpu_model cpuinfo)); ArgText (bool_text (is_loopback (lc_connect config)));
     ArgText (json_string (socket_addr_text (lc_connect config))); ArgInt (lc_runtime_threads config);
     ArgText (json_u16_array (lc_ports config)); ArgText (json_option_u64 (lc_requests config));
     ArgInt (lc_transfer_bytes config); secs (lc_duration config); secs (lc_setup_timeout config);
     secs (lc_drain_timeout config); ArgText (json_option_f64 (lc_offered_rate config));
     ArgInt (lc_latency_range config / 1000000); ArgInt (lc_latency_precision config / 1000);
     ArgInt (lc_connections config); ArgInt (lc_client_offset config); ArgInt (lc_total_clients config);
     ArgInt (Z.of_nat (lc_pipeline_depth config)); ArgText (json_debug (mix_debug (lc_command_mix config)));
     ArgInt (lc_start_id config); ArgText (json_debug (policy_debug (lc_workload_policy config)));
     ArgText (json_debug (verification_debug (lc_verification_policy config))); ArgText segments;
     ArgInt (Z.of_nat (lc_read_buffer_bytes config)); ArgInt (Z.of_nat (lc_max_response_bytes config));
     ArgText (bool_text (lc_nodelay config)); ArgInt (lc_socket_recv_buffer config);
     ArgInt (lc_socket_send_buffer config); ArgText (bool_text (lc_csv config)); ArgText (bool_text (lc_json config));
     ArgInt (lc_stats_interval config / NANOS_PER_SEC); ArgText (json_string article_store);
     secs (lo_setup_elapsed lifecycle); secs (lo_measurement_elapsed lifecycle); secs (lo_drain_elapsed lifecycle);
     secs elapsed; ArgInt (sn_commands snapshot); ArgInt (sn_article_requests snapshot);
     ArgInt (sn_body_requests snapshot); ArgInt stats; ArgInt (sn_bytes_sent snapshot); ArgInt (sn_errors snapshot);
     ArgInt (sn_accepted_connections snapshot); ArgInt (lo_scheduled_requests lifecycle);
     ArgInt (lo_issued_requests lifecycle); ArgInt (lo_completed_requests lifecycle);
     ArgInt (lo_drained_requests lifecycle); ArgInt (lo_incomplete_requests lifecycle);
     ArgInt (lo_timed_out_connections lifecycle); ArgInt (lo_missed_issue_deadlines lifecycle);
     ArgInt (lo_peak_backlog lifecycle);
     ArgInt (histogram_percentile_us (lo_latency_histogram lifecycle) MEDIAN);
     ArgInt (histogram_percentile_us (lo_latency_histogram lifecycle) P95);
     ArgInt (histogram_percentile_us (lo_schedule_delay_histogram lifecycle) MEDIAN);
     ArgInt (histogram_percentile_us (lo_schedule_delay_histogram lifecycle) P95);
     ArgFloat cpu_seconds; ArgInt rss_kib]).

(** The fields of the server's configuration a session has no use for, beside
    those it has. *)
Record ServerSettings : Type := {
  sv_config : ServerConfig;
  sv_listen : SocketAddr;
  sv_article_dir : option bytes;
  sv_max_connections : nat;
  sv_stats_interval : Z;
  sv_nodelay : bool;
  sv_socket_recv_buffer : Z;
  sv_socket_send_buffer : Z;
}.

Definition SERVER_MANIFEST : bytes :=
  quoted "{{'schema_version':1,'tool':'nntpbench','version':{},'mode':'server',"
  ++ quoted "'host':{{'os':{},'arch':{},'cpu_model':{},'loopback':{}}},"
  ++ quoted "'config':{{'listen':{},'body_bytes':{},'article_bytes':{},"
  ++ quoted "'payload_mode':{},'article_dir':{},'max_connections':{},'max_pipeline_depth':{},"
  ++ quoted "'stats_interval_secs':{},'flush':{},'pending_write_bytes':{},"
  ++ quoted "'nodelay':{},'socket_recv_buffer':{},'socket_send_buffer':{}}},"
  ++ quoted "'results':{{'accepted_connections':{},'refused_connections':{},"
  ++ quoted "'active_connections':{},'commands':{},'pipeline_batches':{},"
  ++ quoted "'article_responses':{},'body_responses':{},"
  ++ quoted "'wire_bytes_sent':{},"
  ++ quoted "'wire_bytes_includes':'greeting, status line, headers, body, and terminator',"
  ++ quoted "'errors':{}}},"
  ++ quoted "'process':{{'role':'server','elapsed_seconds':{:.9},"
  ++ quoted "'cpu_seconds':{:.9},'rss_kib':{}}}}}".


Definition render_server_manifest (build : Build) (cpuinfo : option bytes) (settings : ServerSettings)
    (snapshot : Snapshot) (elapsed : Z) (cpu_seconds : f64) (rss_kib : Z) : bytes :=
  let config := sv_config settings in
  format SERVER_MANIFEST
    [ArgText (json_string (bu_version build)); ArgText (json_string (bu_os build));
     ArgText (json_string (bu_arch build)); ArgText (json_option_string (cpu_model cpuinfo));
     ArgText (bool_text (is_loopback (sv_listen settings)));
     ArgText (json_string (socket_addr_text (sv_listen settings)));
     ArgInt (Z.of_nat (body_bytes config)); ArgInt (Z.of_nat (article_bytes config));
     ArgText (json_debug (payload_debug (payload_mode config)));
     ArgText (json_option_string (to_string_lossy <$> sv_article_dir settings)); ArgInt (Z.of_nat (sv_max_connections settings));
     ArgInt (Z.of_nat (max_pipeline_depth config)); ArgInt (sv_stats_interval settings / NANOS_PER_SEC);
     ArgText (bool_text (flush_after_batch config)); ArgInt (Z.of_nat (pending_write_bytes config));
     ArgText (bool_text (sv_nodelay settings)); ArgInt (sv_socket_recv_buffer settings);
     ArgInt (sv_socket_send_buffer settings); ArgInt (sn_accepted_connections snapshot);
     ArgInt (sn_refused_connections snapshot); ArgInt (sn_active_connections snapshot);
     ArgInt (sn_commands snapshot); ArgInt (sn_pipeline_batches snapshot); ArgInt (sn_article_requests snapshot);
     ArgInt (sn_body_requests snapshot); ArgInt (sn_bytes_sent snapshot); ArgInt (sn_errors snapshot);
     ArgFloat (as_secs_f64 elapsed); ArgFloat cpu_seconds; ArgInt rss_kib].

(** ** What a load prints at its end *)

Definition CSV_LINE : bytes := lit "{},{},{:.9},{:.9},{}".
Definition PHASES_LINE : bytes :=
  lit "load phases setup_secs={:.3} measurement_secs={:.3} drain_secs={:.3} target_bytes={} measured_bytes={} drained_requests={} incomplete_requests={} timed_out_connections={} offered_scheduled={} offered_issued={} offered_completed={} missed_issue_deadlines={} peak_backlog={} schedule_p50_us={} schedule_p95_us={} response_p50_us={} response_p95_us={}".

Definition csv_line (snapshot : Snapshot) (elapsed : Z) (cpu_seconds : f64) (rss_kib : Z) : bytes :=
  format CSV_LINE
    [ArgInt (sn_commands snapshot); ArgInt (sn_bytes_sent snapshot); ArgFloat (as_secs_f64 elapsed);
     ArgFloat cpu_seconds; ArgInt rss_kib] ++ [LF].

Definition phases_line (config : LoadConfig) (lifecycle : LoadSessionOutcome) (bytes_sent : Z) : bytes :=
  let secs (duration : Z) := ArgFloat (as_secs_f64 duration) in
  format PHASES_LINE
    [secs (lo_setup_elapsed lifecycle); secs (lo_measurement_elapsed lifecycle); secs (lo_drain_elapsed lifecycle);
     ArgInt (lc_transfer_bytes config); ArgInt bytes_sent; ArgInt (lo_drained_requests lifecycle);
     ArgInt (lo_incomplete_requests lifecycle); ArgInt (lo_timed_out_connections lifecycle);
     ArgInt (lo_scheduled_requests lifecycle); ArgInt (lo_issued_requests lifecycle);
     ArgInt (lo_completed_requests lifecycle); ArgInt (lo_missed_issue_deadlines lifecycle);
     ArgInt (lo_peak_backlog lifecycle);
     ArgInt (histogram_percentile_us (lo_schedule_delay_histogram lifecycle) MEDIAN);
     ArgInt (histogram_percentile_us (lo_schedule_delay_histogram lifecycle) P95);
     ArgInt (histogram_percentile_us (lo_latency_histogram lifecycle) MEDIAN);
     ArgInt (histogram_percentile_us (lo_latency_histogram lifecycle) P95)] ++ [LF].

(** Standard output and standard error; the counters are read once for each. *)
Definition load_report (md5 : bytes -> bytes) (build : Build) (cpuinfo : option bytes) (config : LoadConfig)
    (snapshot : Snapshot) (lifecycle : LoadSessionOutcome) (started elapsed : Z) (cpu_seconds : f64) (rss_kib : Z)
    : option (bytes * bytes) :=
  let phases := phases_line config lifecycle (sn_bytes_sent snapshot) in
  if lc_csv config then Some (csv_line snapshot elapsed cpu_seconds rss_kib, phases)
  else if lc_json config then
    manifest ← render_load_manifest md5 build cpuinfo config snapshot lifecycle elapsed cpu_seconds rss_kib;
    Some (manifest ++ [LF], phases)
  else
    final ← snapshot_print snapshot (lit "final") started None;
    Some ([], final ++ phases).
