(* ===== verification/ManifestReads.v ===== *)
(** * Manifests are read back

    The manifests as JSON values, field by field, and the theorem that the text
    the programs print is the text of these values: whatever the host, the paths
    and the addresses hold, a reader of JSON gets every field as it was. *)
From Stdlib Require Import Floats.SpecFloat.
From S2P Require Import Prelude Utf8 Decimal Memchr Kinds ClientWire Text ServerPayload ArticleStore Float64.
From S2P Require Import LoadSchedule LoadWorkload SegmentFile LoadSession Words FetchCommand LoadConfig LoadProcesses.
From S2P Require Import LoadIdentity Float64 Format Json Manifest.

Local Open Scope Z_scope.
Local Open Scope rust_scope.

(** ** The values of the fields *)

Definition of_option_string (value : option bytes) : Json :=
  match value with Some value => JString value | None => JNull end.
Definition of_option_u64 (value : option Z) : Json :=
  match value with Some value => JInt value | None => JNull end.

(** A float with nine digits behind the point. *)
Definition of_f64 (x : f64) : Json :=
  match x with
  | S754_zero s => JNumber s 9 0
  | S754_finite s m e => JNumber s 9 (f64_units 9 m e)
  | _ => JNull
  end.
Definition of_secs (duration : Z) : Json := of_f64 (as_secs_f64 duration).
Definition of_option_f64 (value : option f64) : Json :=
  match value with Some value => of_f64 value | None => JNull end.

Definition of_segments (segments : option SegmentSet) : Json :=
  match segments with
  | None => JNull
  | Some segments =>
      JObject [(lit "count", JInt (Z.of_nat (length (seg_ids segments))));
               (lit "declared_bytes", JInt (default 0 (total_declared_size segments)))]
  end.

Definition percentiles (histogram : option LatencyHistogram) : Json :=
  JObject [(lit "p50", JInt (histogram_percentile_us histogram MEDIAN));
           (lit "p95", JInt (histogram_percentile_us histogram P95))].

Definition of_nat (n : nat) : Json := JInt (Z.of_nat n).

Definition of_host (build : Build) (cpuinfo : option bytes) (addr : SocketAddr) : Json :=
  JObject [(lit "os", JString (bu_os build)); (lit "arch", JString (bu_arch build));
           (lit "cpu_model", of_option_string (cpu_model cpuinfo)); (lit "loopback", JBool (is_loopback addr))].

Definition of_load_config (config : LoadConfig) : Json :=
  JObject
    [(lit "connect", JString (socket_addr_text (lc_connect config)));
     (lit "runtime_threads", JInt (lc_runtime_threads config));
     (lit "ports", JArray (JInt <$> lc_ports config));
     (lit "requests", of_option_u64 (lc_requests config));
     (lit "transfer_bytes", JInt (lc_transfer_bytes config));
     (lit "duration_secs", of_secs (lc_duration config));
     (lit "setup_timeout_secs", of_secs (lc_setup_timeout config));
     (lit "drain_timeout_secs", of_secs (lc_drain_timeout config));
     (lit "offered_rate", of_option_f64 (lc_offered_rate config));
     (lit "latency_range_ms", JInt (lc_latency_range config / 1000000));
     (lit "latency_precision_us", JInt (lc_latency_precision config / 1000));
     (lit "connections", JInt (lc_connections config));
     (lit "client_offset", JInt (lc_client_offset config));
     (lit "total_clients", JInt (lc_total_clients config));
     (lit "pipeline_depth", of_nat (lc_pipeline_depth config));
     (lit "command_mix", JString (mix_debug (lc_command_mix config)));
     (lit "start_id", JInt (lc_start_id config));
     (lit "workload_policy", JString (policy_debug (lc_workload_policy config)));
     (lit "verification_policy", JString (verification_debug (lc_verification_policy config)));
     (lit "segments", of_segments (lc_segments config));
     (lit "read_buffer_bytes", of_nat (lc_read_buffer_bytes config));
     (lit "max_response_bytes", of_nat (lc_max_response_bytes config));
     (lit "nodelay", JBool (lc_nodelay config));
     (lit "socket_recv_buffer", JInt (lc_socket_recv_buffer config));
     (lit "socket_send_buffer", JInt (lc_socket_send_buffer config));
     (lit "csv", JBool (lc_csv config)); (lit "json", JBool (lc_json config));
     (lit "stats_interval_secs", JInt (lc_stats_interval config / NANOS_PER_SEC))].

Definition of_load_results (snapshot : Snapshot) (lifecycle : LoadSessionOutcome) : Json :=
  JObject
    [(lit "commands", JInt (sn_commands snapshot));
     (lit "article_responses", JInt (sn_article_requests snapshot));
     (lit "body_responses", JInt (sn_body_requests snapshot));
     (lit "stat_responses", JInt (sn_commands snapshot - sn_article_requests snapshot - sn_body_requests snapshot));
     (lit "response_wire_bytes", JInt (sn_bytes_sent snapshot));
     (lit "errors", JInt (sn_errors snapshot));
     (lit "accepted_connections", JInt (sn_accepted_connections snapshot));
     (lit "outcomes", JObject
        [(lit "scheduled", JInt (lo_scheduled_requests lifecycle));
         (lit "issued", JInt (lo_issued_requests lifecycle));
         (lit "completed", JInt (lo_completed_requests lifecycle));
         (lit "drained", JInt (lo_drained_requests lifecycle));
         (lit "incomplete", JInt (lo_incomplete_requests lifecycle));
         (lit "timed_out_connections", JInt (lo_timed_out_connections lifecycle));
         (lit "missed_issue_deadlines", JInt (lo_missed_issue_deadlines lifecycle));
         (lit "peak_backlog", JInt (lo_peak_backlog lifecycle))]);
     (lit "latency_us", percentiles (lo_latency_histogram lifecycle));
     (lit "schedule_delay_us", percentiles (lo_schedule_delay_histogram lifecycle))].

Definition load_manifest (identity : bytes) (build : Build) (cpuinfo : option bytes) (config : LoadConfig)
    (snapshot : Snapshot) (lifecycle : LoadSessionOutcome) (elapsed : Z) (cpu_seconds : f64) (rss_kib : Z) : Json :=
  JObject
    [(lit "schema_version", JInt 1); (lit "tool", JString (lit "nntpbench"));
     (lit "version", JString (bu_version build)); (lit "mode", JString (lit "load"));
     (lit "workload_identity", JString identity);
     (lit "host", of_host build cpuinfo (lc_connect config));
     (lit "byte_counter", JString (lit "client response wire-frame bytes"));
     (lit "byte_counter_includes", JString (lit "status line, headers, body, and terminator"));
     (lit "config", of_load_config config);
     (lit "workload", JObject
        [(lit "article_store", JString (match lc_segments config with Some _ => lit "segment_file" | None => lit "synthetic" end));
         (lit "article_size_bytes", JNull); (lit "body_size_bytes", JNull); (lit "tls", JBool false);
         (lit "auth", JBool false)]);
     (lit "phases", JObject
        [(lit "setup_secs", of_secs (lo_setup_elapsed lifecycle));
         (lit "measurement_secs", of_secs (lo_measurement_elapsed lifecycle));
         (lit "drain_secs", of_secs (lo_drain_elapsed lifecycle)); (lit "total_elapsed_secs", of_secs elapsed)]);
     (lit "results", of_load_results snapshot lifecycle);
     (lit "process", JObject
        [(lit "role", JString (lit "client")); (lit "cpu_seconds", of_f64 cpu_seconds);
         (lit "rss_kib", JInt rss_kib)])].

Definition server_manifest (build : Build) (cpuinfo : option bytes) (settings : ServerSettings)
    (snapshot : Snapshot) (elapsed : Z) (cpu_seconds : f64) (rss_kib : Z) : Json :=
  let config := sv_config settings in
  JObject
    [(lit "schema_version", JInt 1); (lit "tool", JString (lit "nntpbench"));
     (lit "version", JString (bu_version build)); (lit "mode", JString (lit "server"));
     (lit "host", of_host build cpuinfo (sv_listen settings));
     (lit "config", JObject
        [(lit "listen", JString (socket_addr_text (sv_listen settings)));
         (lit "body_bytes", of_nat (body_bytes config)); (lit "article_bytes", of_nat (article_bytes config));
         (lit "payload_mode", JString (payload_debug (payload_mode config)));
         (lit "article_dir", of_option_string (to_string_lossy <$> sv_article_dir settings));
         (lit "max_connections", of_nat (sv_max_connections settings));
         (lit "max_pipeline_depth", of_nat (max_pipeline_depth config));
         (lit "stats_interval_secs", JInt (sv_stats_interval settings / NANOS_PER_SEC));
         (lit "flush", JBool (flush_after_batch config));
         (lit "pending_write_bytes", of_nat (pending_write_bytes config));
         (lit "nodelay", JBool (sv_nodelay settings));
         (lit "socket_recv_buffer", JInt (sv_socket_recv_buffer settings));
         (lit "socket_send_buffer", JInt (sv_socket_send_buffer settings))]);
     (lit "results", JObject
        [(lit "accepted_connections", JInt (sn_accepted_connections snapshot));
         (lit "refused_connections", JInt (sn_refused_connections snapshot));
         (lit "active_connections", JInt (sn_active_connections snapshot));
         (lit "commands", JInt (sn_commands snapshot));
         (lit "pipeline_batches", JInt (sn_pipeline_batches snapshot));
         (lit "article_responses", JInt (sn_article_requests snapshot));
         (lit "body_responses", JInt (sn_body_requests snapshot));
         (lit "wire_bytes_sent", JInt (sn_bytes_sent snapshot));
         (lit "wire_bytes_includes", JString (lit "greeting, status line, headers, body, and terminator"));
         (lit "errors", JInt (sn_errors snapshot))]);
     (lit "process", JObject
        [(lit "role", JString (lit "server")); (lit "elapsed_seconds", of_secs elapsed);
         (lit "cpu_seconds", of_f64 cpu_seconds); (lit "rss_kib", JInt rss_kib)])].

(** ** The text of the fields *)

(** [text] puts what is written for [j] before what follows. *)
Definition writes (j : Json) (text : bytes -> bytes) : Prop := forall rest, write_json j rest = text rest.

Create HintDb writes.

Lemma writes_null : writes JNull (app (lit "null")).
Proof. done. Qed.

Lemma writes_int n : writes (JInt n) (app (print_integer n)).
Proof.
  intros rest. unfold JInt. cbn [write_json minus]. unfold print_fixed. change (10 ^ Z.of_nat 0) with 1.
  by rewrite Z.div_1_r, app_nil_r.
Qed.

Lemma writes_nat n : writes (of_nat n) (app (print_integer (Z.of_nat n))).
Proof. apply writes_int. Qed.

Lemma writes_string value : writes (JString value) (app (json_string value)).
Proof. done. Qed.

Lemma writes_bool b : writes (JBool b) (app (bool_text b)).
Proof. done. Qed.

Lemma writes_option_string value : writes (of_option_string value) (app (json_option_string value)).
Proof. by destruct value. Qed.

Lemma writes_option_u64 value : writes (of_option_u64 value) (app (json_option_u64 value)).
Proof. destruct value; [apply writes_int|done]. Qed.

Lemma writes_f64 x : f64_is_finite x = true -> writes (of_f64 x) (app (f64_fixed 9 x)).
Proof. destruct x; try done; intros _ rest; cbn [of_f64 write_json f64_fixed]; by rewrite <- app_assoc. Qed.

Lemma writes_option_f64 value : writes (of_option_f64 value) (app (json_option_f64 value)).
Proof.
  destruct value as [x|]; [|done]. cbn [of_option_f64 json_option_f64]. destruct (f64_is_finite x) eqn:E.
  - by apply writes_f64.
  - by destruct x.
Qed.

Lemma write_u16_items values index rest :
  write_items (JInt <$> values) (index =? 0)%nat rest = json_u16_items values index ++ 93 :: rest.
Proof.
  revert index. induction values as [|value values IH]; intros index; [done|].
  cbn [fmap list_fmap write_items json_u16_items]. fold (JInt <$> values). rewrite writes_int.
  specialize (IH (S index)). cbn [Nat.eqb] in IH. rewrite IH, <- !app_assoc. by destruct index.
Qed.

Lemma writes_u16_array values : writes (JArray (JInt <$> values)) (app (json_u16_array values)).
Proof.
  intros rest. rewrite write_array. unfold json_u16_array. rewrite <- !app_assoc. rewrite (write_u16_items values 0). done.
Qed.

(** The text of an object from the texts of its members. *)
Fixpoint members_text (keys : list bytes) (texts : list (bytes -> bytes)) (first : bool) (rest : bytes) : bytes :=
  match keys, texts with
  | key :: keys, text :: texts =>
      (if first then [] else [44]) ++ json_string key ++ 58 :: text (members_text keys texts false rest)
  | _, _ => 125 :: rest
  end.
Definition object_text (keys : list bytes) (texts : list (bytes -> bytes)) (rest : bytes) : bytes :=
  123 :: members_text keys texts true rest.

Lemma writes_object members texts :
  Forall2 (fun m text => writes (snd m) text) members texts ->
  writes (JObject members) (object_text (fst <$> members) texts).
Proof.
  intros H rest. rewrite write_object. unfold object_text. f_equal. generalize true.
  induction H as [|[key j] text members texts Hj _ IH]; intros first; [done|].
  cbn [fmap list_fmap fst snd write_members members_text] in *. by rewrite Hj, IH.
Qed.

(** ** The templates *)

(** What a hole shows of its argument. *)
Definition text_of (arg : Arg) : bytes :=
  match arg with ArgText text => text | ArgInt n => print_integer n | ArgFloat x => f64_fixed 9 x end.

(** Every hole is plain, or of nine digits for a float. *)
Fixpoint plain (template : list Piece) (args : list Arg) : bool :=
  match template, args with
  | Literal _ :: template, _ => plain template args
  | Hole spec :: template, arg :: args =>
      bytes_eqb spec (match arg with ArgFloat _ => lit ":.9" | _ => [] end) && plain template args
  | Hole _ :: _, [] => false
  | [], _ => true
  end.

Fixpoint fill (template : list Piece) (texts : list bytes) (rest : bytes) : bytes :=
  match template, texts with
  | Literal b :: template, _ => b :: fill template texts rest
  | Hole _ :: template, text :: texts => text ++ fill template texts rest
  | _, _ => rest
  end.

Lemma pad_none align text : pad align 0 text = text.
Proof. destruct align; [apply app_nil_r|done]. Qed.

Lemma render_plain template args rest :
  plain template args = true -> render template args ++ rest = fill template (text_of <$> args) rest.
Proof.
  revert args. induction template as [|[b|spec] template IH]; intros args H; [done|..].
  - cbn [render plain fill app] in *. by rewrite IH.
  - destruct args as [|arg args]; [done|]. cbn [plain] in H. apply andb_true_iff in H as [Hs H].
    apply bytes_eqb_spec in Hs as ->. cbn [fmap list_fmap render fill]. fold (text_of <$> args). rewrite <- app_assoc, IH by done. f_equal.
    destruct arg as [text|n|x]; cbn [text_of render_arg].
    + change (fs_width (parse_spec [])) with 0%nat. by rewrite pad_none.
    + change (fs_width (parse_spec [])) with 0%nat. by rewrite !pad_none.
    + change (fs_width (parse_spec (lit ":.9"))) with 0%nat. by rewrite !pad_none.
Qed.

#[local] Hint Resolve writes_null writes_int writes_nat writes_string writes_bool writes_option_string
  writes_option_u64 writes_option_f64 writes_u16_array : writes.

(** The texts of the members of an object, one by one. *)
Ltac write_fields :=
  eapply writes_object;
  repeat (apply List.Forall2_cons; [cbn [snd]; first [solve [eauto 2 with writes] | write_fields | idtac]|]);
  try apply List.Forall2_nil.

(** The texts of the fields are hidden, and what is left is computed. *)
Ltac hide_texts :=
  repeat match goal with
  | |- context [print_integer ?n] => lazymatch n with 1 => fail | _ => generalize (print_integer n); intros ?text end
  | |- context [f64_fixed ?prec ?x] => generalize (f64_fixed prec x); intros ?text
  | |- context [json_option_string ?v] => generalize (json_option_string v); intros ?text
  | |- context [json_option_u64 ?v] => generalize (json_option_u64 v); intros ?text
  | |- context [json_option_f64 ?v] => generalize (json_option_f64 v); intros ?text
  | |- context [json_u16_array ?v] => generalize (json_u16_array v); intros ?text
  | |- context [bool_text ?b] => lazymatch b with false => fail | _ => generalize (bool_text b); intros ?text end
  | |- context [json_string ?v] => lazymatch v with lit _ => fail | _ => generalize (json_string v); intros ?text end
  end.
Ltac by_template := hide_texts; vm_compute; reflexivity.

(** A template and the value it is the text of. *)
Lemma format_writes template args j text :
  plain (pieces template None) args = true -> writes j text ->
  (forall rest, fill (pieces template None) (text_of <$> args) rest = text rest) ->
  writes j (app (format template args)).
Proof. intros Hp Hw Hf rest. unfold format. by rewrite render_plain, Hf. Qed.

Lemma writes_segments segments text :
  segments_text segments = Some text -> writes (of_segments segments) (app text).
Proof.
  destruct segments as [segments|]; [|by intros [= <-]]. cbn [segments_text of_segments].
  destruct (total_declared_size segments) as [total|] eqn:E; [|done]. cbn [mbind option_bind]. intros [= <-].
  change (default 0 (Some total)) with total.
  eapply format_writes; [vm_compute; reflexivity|write_fields|]. intros rest. cbn [fmap list_fmap fst text_of].
  by_template.
Qed.

(** The text of each manifest is that of its value. *)
Lemma load_manifest_text md5 build cpuinfo config snapshot lifecycle elapsed cpu_seconds rss_kib text :
  Forall (fun d => 0 <= d <= DURATION_MAX)
    [lc_duration config; lc_setup_timeout config; lc_drain_timeout config; lo_setup_elapsed lifecycle;
     lo_measurement_elapsed lifecycle; lo_drain_elapsed lifecycle; elapsed] ->
  f64_is_finite cpu_seconds = true ->
  render_load_manifest md5 build cpuinfo config snapshot lifecycle elapsed cpu_seconds rss_kib = Some text ->
  exists identity, workload_identity md5 config = Some identity
    /\ writes (load_manifest identity build cpuinfo config snapshot lifecycle elapsed cpu_seconds rss_kib) (app text).
Proof.
  intros Hd Hcpu H. unfold render_load_manifest in H.
  destruct (segments_text (lc_segments config)) as [segments|] eqn:Es; [|done]. cbn [mbind option_bind] in H.
  destruct (workload_identity md5 config) as [identity|]; [|done]. cbn [mbind option_bind] in H.
  unfold u64_checked_sub in H. destruct (_ <? _); [done|]. cbn [mbind option_bind] in H.
  destruct (_ <? _); [done|]. cbn [mbind option_bind] in H. apply (inj Some) in H as <-. exists identity. split; [done|].
  pose proof (writes_segments _ _ Es) as Hsegs. clear Es.
  repeat (apply Forall_cons_1 in Hd as [?%as_secs_f64_finite%writes_f64 Hd]). apply writes_f64 in Hcpu.
  unfold load_manifest, of_host, of_load_config, of_load_results, percentiles, of_secs.
  eapply format_writes; [vm_compute; reflexivity|write_fields; eassumption|]. intros rest.
  cbn [fmap list_fmap fst text_of]. unfold json_debug. by_template.
Qed.

Lemma server_manifest_text build cpuinfo settings snapshot elapsed cpu_seconds rss_kib :
  0 <= elapsed <= DURATION_MAX -> f64_is_finite cpu_seconds = true ->
  writes (server_manifest build cpuinfo settings snapshot elapsed cpu_seconds rss_kib)
    (app (render_server_manifest build cpuinfo settings snapshot elapsed cpu_seconds rss_kib)).
Proof.
  intros Hd%as_secs_f64_finite%writes_f64 Hcpu%writes_f64. unfold render_server_manifest, server_manifest, of_host, of_secs.
  eapply format_writes; [vm_compute; reflexivity|write_fields; eassumption|]. intros rest.
  cbn [fmap list_fmap fst text_of]. unfold json_debug. by_template.
Qed.

(** ** The values are of JSON *)

(** An ASCII byte stands between two strings. *)
Lemma is_str_split a b c : 0 <= b < 128 -> is_str (a ++ b :: c) -> is_str a /\ is_str c.
Proof.
  intros Hb. induction a as [a IH] using (induction_ltof1 _ (@length Z)). intros Hs.
  destruct (is_str_cons _ Hs) as [E|(ch & rest & E & Hch & Hrest)]; [by destruct a|].
  pose proof Hch as [_ (b0 & tl & -> & Htl & _)].
  destruct a as [|x a].
  - cbn [app] in E. injection E as -> E. split; [apply is_str_nil|].
    destruct tl as [|t tl]; [by subst|].
    exfalso. destruct Hch as [_ (b0' & tl' & E' & Htl' & Hcase)]. injection E' as <- <-.
    destruct Hcase as [[_ ?]|[[? _]|[[? _]|[? _]]]]; [done|lia..].
  - cbn [app] in E. injection E as -> E.
    assert (exists a', a = tl ++ a' /\ a' ++ b :: c = rest) as (a' & -> & E').
    { clear -Htl Hb E. revert a E. induction Htl as [|t tl Ht _ IH]; intros a E; [by exists a|].
      destruct a as [|y a]; cbn [app] in E; [injection E as -> _; lia|]. injection E as -> E.
      destruct (IH a E) as (a' & -> & <-). by exists a'. }
    subst rest. destruct (IH a') as [Ha Hc]; [unfold ltof; cbn [length]; rewrite length_app; lia|done|].
    split; [|done]. change (b0 :: tl ++ a') with ((b0 :: tl) ++ a'). by apply is_str_char.
Qed.

Lemma model_of_lines_str lines model :
  Forall is_str lines -> model_of_lines lines = Some model -> is_str model.
Proof.
  induction 1 as [|line lines Hline _ IH]; [done|]. cbn [model_of_lines]. unfold split_once.
  destruct (position (Z.eqb 58) line) as [i|] eqn:Ei; [|exact IH]. cbn [mbind option_bind].
  destruct (starts_with line (lit "model name")); [|exact IH]. intros [= <-]. apply trim_str.
  apply position_Some in Ei as (before & x & after & -> & <- & Ex%Z.eqb_eq & _). subst x.
  apply is_str_split in Hline as [_ Hline]; [|lia]. rewrite (cons_middle 58 before after).
  by rewrite app_assoc, drop_app_length' by (rewrite length_app; cbn; lia).
Qed.

Lemma cpu_model_str cpuinfo model :
  (forall text, cpuinfo = Some text -> is_str text) -> cpu_model cpuinfo = Some model -> is_str model.
Proof.
  intros Hs H. destruct cpuinfo as [text|]; [|done]. cbn [cpu_model mbind option_bind] in H.
  eapply model_of_lines_str; [|exact H]. apply str_lines_str. by apply Hs.
Qed.

(** ** Every field is read back *)

Definition U128_MAX : Z := 2 ^ 128 - 1.
Definition in_u128 (n : Z) : Prop := 0 <= n <= U128_MAX.

Lemma ok_int n : in_u128 n -> json_ok (JInt n).
Proof.
  unfold in_u128, U128_MAX. intros Hn. apply ok_number; [lia|lia|]. change (10 ^ Z.of_nat 0) with 1. rewrite Z.div_1_r.
  apply Z.le_lt_trans with (2 ^ 128 - 1); [lia|]. vm_compute. reflexivity.
Qed.

Lemma ok_nat n : in_u128 (Z.of_nat n) -> json_ok (of_nat n).
Proof. apply ok_int. Qed.

Lemma ok_option_string value : (forall v, value = Some v -> is_str v) -> json_ok (of_option_string value).
Proof. intros H. destruct value; [apply ok_string, H; done|apply ok_null]. Qed.

Lemma units_bound prec m e :
  below (Zpos m) e 1024 -> 0 <= f64_units prec m e /\ f64_units prec m e / 10 ^ Z.of_nat prec < INTEGER_LIMIT.
Proof.
  intros (_ & He & Hb). unfold f64_units. set (scale := 10 ^ Z.of_nat prec).
  assert (0 < scale) as Hs by (apply Z.pow_pos_nonneg; lia).
  assert (2 ^ 1024 < INTEGER_LIMIT) as Hlim by (vm_compute; reflexivity).
  destruct (0 <=? e) eqn:E; [apply Z.leb_le in E|apply Z.leb_gt in E].
  - assert (0 < 2 ^ e) by (apply Z.pow_pos_nonneg; lia). split; [nia|]. rewrite Z.div_mul by lia.
    apply Z.lt_trans with (2 ^ 1024); [|done]. replace 1024 with ((1024 - e) + e) at 1 by lia.
    rewrite Z.pow_add_r by lia. by apply Z.mul_lt_mono_pos_r.
  - assert (0 < 2 ^ (- e)) as Hp by (apply Z.pow_pos_nonneg; lia).
    assert (Zpos m * scale / 2 ^ (- e) < 2 ^ 1024 * scale) as Hq.
    { apply Z.div_lt_upper_bound; [done|]. replace (1024 - e) with (1024 + - e) in Hb by lia.
      rewrite Z.pow_add_r in Hb by lia. nia. }
    assert (0 <= Zpos m * scale / 2 ^ (- e)) by (apply Z.div_pos; nia).
    assert (0 <= round_half_even (Zpos m * scale) (2 ^ (- e)) <= 2 ^ 1024 * scale) as Hr.
    { unfold round_half_even. case_match; lia. }
    split; [lia|]. apply Z.le_lt_trans with (2 ^ 1024); [|done].
    apply Z.div_le_upper_bound; [done|]. lia.
Qed.

Lemma ok_f64 x : fits 1024 x -> json_ok (of_f64 x).
Proof.
  destruct x as [s|s| |s m e]; intros Hx; try done.
  - apply ok_number; [lia|done|]. change (0 / 10 ^ Z.of_nat 9) with 0. vm_compute. reflexivity.
  - apply units_bound with (prec := 9%nat) in Hx as [H1 H2]. by apply ok_number; [lia|..].
Qed.

Lemma f64_ok_fits x : f64_ok x -> f64_is_finite x = true -> fits 1024 x.
Proof.
  destruct x as [s|s| |s m e]; try done. cbn [f64_ok fits]. intros Hx _. split; [lia|]. split; [lia|].
  apply Z.lt_le_trans with (2 ^ 53); [lia|]. apply Z.pow_le_mono_r; lia.
Qed.

Lemma ok_secs duration : 0 <= duration <= DURATION_MAX -> json_ok (of_secs duration).
Proof. intros H%as_secs_f64_fits. apply ok_f64. by eapply fits_le. Qed.

Lemma ok_option_f64 value :
  match value with Some rate => f64_ok rate | None => True end -> json_ok (of_option_f64 value).
Proof.
  destruct value as [x|]; [|constructor]. cbn [of_option_f64]. intros Hx.
  destruct (f64_is_finite x) eqn:E; [by apply ok_f64, f64_ok_fits|]. destruct x; try done; constructor.
Qed.

Lemma str_lit l : (exists cs, from_utf8 l = Some cs) -> is_str l.
Proof. done. Qed.
Ltac literal_str := apply str_lit; eexists; vm_compute; reflexivity.

Lemma str_ascii_digits n : 0 <= n < INTEGER_LIMIT -> is_str (print_integer n).
Proof.
  intros Hn. apply is_str_ascii. destruct (print_integer_spec n Hn) as (Hd & _ & _).
  rewrite forallb_forall in Hd. apply List.Forall_forall. intros b Hb. specialize (Hd b Hb).
  apply is_ascii_digit_spec in Hd. unfold is_ascii_byte. lia.
Qed.

Lemma socket_addr_str addr :
  is_str (sa_ip addr) -> 0 <= sa_port addr <= 65535 -> is_str (socket_addr_text addr).
Proof.
  intros Hip Hport. unfold socket_addr_text. apply is_str_app.
  - destruct (existsb _ _); [|done]. apply is_str_app; [literal_str|]. apply is_str_app; [done|literal_str].
  - apply is_str_app; [literal_str|]. apply str_ascii_digits. split; [lia|].
    apply Z.le_lt_trans with 65535; [lia|]. vm_compute. reflexivity.
Qed.

Lemma identity_str md5 config identity :
  (forall input, Forall is_byte (md5 input)) -> workload_identity md5 config = Some identity -> is_str identity.
Proof.
  intros Hmd5 H. unfold workload_identity in H. destruct (workload_bytes config) as [hashed|]; [|done].
  cbn [mbind option_bind] in H. apply (inj Some) in H as <-. apply is_str_app; [literal_str|].
  apply is_str_ascii. eapply List.Forall_impl; [|apply hex_lower_safe, Hmd5]. unfold is_ascii_byte. intros b Hb. lia.
Qed.

(** What the host tells of itself is text. *)
Record host_ok (build : Build) (cpuinfo : option bytes) (addr : SocketAddr) : Prop := {
  hk_version : is_str (bu_version build);
  hk_os : is_str (bu_os build);
  hk_arch : is_str (bu_arch build);
  hk_cpuinfo : forall text, cpuinfo = Some text -> is_str text;
  hk_ip : is_str (sa_ip addr);
  hk_port : 0 <= sa_port addr <= 65535;
}.

(** The integers of a manifest are in the range of their types. *)
Definition snapshot_integers (s : Snapshot) : list Z :=
  [sn_accepted_connections s; sn_refused_connections s; sn_active_connections s; sn_commands s;
   sn_pipeline_batches s; sn_article_requests s; sn_body_requests s; sn_bytes_sent s; sn_errors s].
Definition load_integers (c : LoadConfig) (o : LoadSessionOutcome) : list Z :=
  [lc_runtime_threads c; lc_transfer_bytes c; lc_latency_range c; lc_latency_precision c; lc_connections c;
   lc_client_offset c; lc_total_clients c; Z.of_nat (lc_pipeline_depth c); lc_start_id c;
   Z.of_nat (lc_read_buffer_bytes c); Z.of_nat (lc_max_response_bytes c); lc_socket_recv_buffer c;
   lc_socket_send_buffer c; lc_stats_interval c; lo_scheduled_requests o; lo_issued_requests o;
   lo_completed_requests o; lo_drained_requests o; lo_incomplete_requests o; lo_timed_out_connections o;
   lo_missed_issue_deadlines o; lo_peak_backlog o; default 0 (lc_requests c)]
  ++ lc_ports c.
Definition server_integers (s : ServerSettings) : list Z :=
  [Z.of_nat (body_bytes (sv_config s)); Z.of_nat (article_bytes (sv_config s)); Z.of_nat (sv_max_connections s);
   Z.of_nat (max_pipeline_depth (sv_config s)); sv_stats_interval s; Z.of_nat (pending_write_bytes (sv_config s));
   sv_socket_recv_buffer s; sv_socket_send_buffer s].

Definition load_durations (c : LoadConfig) (o : LoadSessionOutcome) (elapsed : Z) : list Z :=
  [lc_duration c; lc_setup_timeout c; lc_drain_timeout c; lo_setup_elapsed o; lo_measurement_elapsed o;
   lo_drain_elapsed o; elapsed].

Definition is_duration (d : Z) : Prop := 0 <= d <= DURATION_MAX.

(** The cost of the process is a float and an integer. *)
Record cost_ok (cpu_seconds : f64) (rss_kib : Z) : Prop := {
  ct_cpu : f64_ok cpu_seconds;
  ct_finite : f64_is_finite cpu_seconds = true;
  ct_rss : in_u128 rss_kib;
}.

Lemma in_u128_div n d : in_u128 n -> 0 < d -> in_u128 (n / d).
Proof.
  unfold in_u128. intros Hn Hd. split; [apply Z.div_pos; lia|].
  apply Z.le_trans with n; [|lia]. apply Z.div_le_upper_bound; nia.
Qed.

Lemma percentile_u64 histogram quantile :
  match histogram with Some h => 0 <= lh_precision h | None => True end ->
  in_u128 (histogram_percentile_us histogram quantile).
Proof.
  unfold in_u128, U128_MAX, histogram_percentile_us. intros Hh.
  destruct histogram as [h|]; cbn [mbind option_bind]; [|lia].
  destruct (percentile h quantile) as [d|] eqn:E; [|lia]. unfold percentile in E. destruct (_ || _); [done|].
  assert (0 <= d) as Hd.
  { destruct (reach_rank _ _ _ _); [|destruct (_ =? 0); [done|]]; apply (inj Some) in E as <-;
      unfold duration_saturating_mul, DURATION_MAX, u64_max, NANOS_PER_SEC; lia. }
  assert (0 <= d / 1000) by (apply Z.div_pos; lia). unfold u64_max. lia.
Qed.

Lemma ok_percentiles histogram :
  match histogram with Some h => 0 <= lh_precision h | None => True end -> json_ok (percentiles histogram).
Proof.
  intros Hh. apply ok_object; [repeat (apply List.Forall_cons; [literal_str|]); apply List.Forall_nil|].
  repeat apply List.Forall_cons; [by apply ok_int, percentile_u64..|apply List.Forall_nil].
Qed.

Lemma fold_sizes_u128 segments indices total n :
  Forall (fun n => 0 <= n <= u64_max) (seg_declared_sizes segments) -> 0 <= total <= u64_max ->
  fold_declared_sizes segments indices total = Some n -> 0 <= n <= u64_max.
Proof.
  intros Hs. revert total. induction indices as [|i indices IH]; intros total Ht; [by intros [= <-]|].
  cbn [fold_declared_sizes]. unfold declared_size. destruct (_ !! i) as [size|] eqn:E; [|done].
  apply (Forall_lookup_1 _ _ _ _ Hs) in E. apply IH. lia.
Qed.

Lemma ok_segments segments :
  match segments with Some s => segments_ok s /\ Z.of_nat (length (seg_ids s)) <= u64_max | None => True end ->
  json_ok (of_segments segments).
Proof.
  destruct segments as [s|]; [|constructor]. intros [Hs Hl].
  apply ok_object; [repeat (apply List.Forall_cons; [literal_str|]); apply List.Forall_nil|].
  repeat apply List.Forall_cons; [| |apply List.Forall_nil]; apply ok_int; unfold in_u128, U128_MAX, u64_max in *; [lia|].
  destruct (total_declared_size s) as [n|] eqn:E; [|cbn; lia]. cbn [default].
  apply fold_sizes_u128 in E; [|apply Hs|unfold u64_max; lia]. unfold u64_max in E. change (id n) with n. lia.
Qed.

Create HintDb manifest_ok.
#[local] Hint Resolve ok_null ok_bool ok_string ok_int ok_nat ok_option_string ok_f64 ok_secs ok_option_f64
  ok_percentiles in_u128_div : manifest_ok.
#[local] Hint Extern 1 (_ < _) => reflexivity : manifest_ok.

(** A field of a manifest is in order, or an object of such fields. *)
Ltac fields_ok :=
  match goal with
  | |- json_ok (JObject _) =>
      apply ok_object; [repeat (apply List.Forall_cons; [literal_str|]); apply List.Forall_nil|];
      cbn [fmap list_fmap snd]; repeat (apply List.Forall_cons; [fields_ok|]); try apply List.Forall_nil
  | |- json_ok (JString (lit _)) => apply ok_string; literal_str
  | |- json_ok (JInt 1) => apply ok_int; unfold in_u128, U128_MAX; lia
  | |- _ => try solve [eauto 4 with manifest_ok]
  end.

Lemma ok_host build cpuinfo addr : host_ok build cpuinfo addr -> json_ok (of_host build cpuinfo addr).
Proof.
  intros []. unfold of_host. fields_ok. apply ok_option_string. intros v. by apply cpu_model_str.
Qed.

Lemma server_manifest_ok build cpuinfo settings snapshot elapsed cpu_seconds rss_kib :
  host_ok build cpuinfo (sv_listen settings) ->
  Forall in_u128 (snapshot_integers snapshot) -> Forall in_u128 (server_integers settings) ->
  is_duration elapsed -> cost_ok cpu_seconds rss_kib ->
  json_ok (server_manifest build cpuinfo settings snapshot elapsed cpu_seconds rss_kib).
Proof.
  intros Hhost Hs Hi Hd [Hcpu Hfin Hrss]. unfold snapshot_integers, server_integers in *.
  assert (forall v, to_string_lossy <$> sv_article_dir settings = Some v -> is_str v) as Hdir.
  { intros v (dir & _ & ->)%fmap_Some. apply to_string_lossy_str. }
  repeat (apply Forall_cons_1 in Hs as [? Hs]). repeat (apply Forall_cons_1 in Hi as [? Hi]).
  pose proof (f64_ok_fits _ Hcpu Hfin) as Hfits. pose proof (ok_host _ _ _ Hhost) as Hok. destruct Hhost.
  pose proof (socket_addr_str (sv_listen settings) ltac:(done) ltac:(done)) as Haddr.
  assert (json_ok (JString (payload_debug (payload_mode (sv_config settings)))))
    by (destruct (payload_mode (sv_config settings)); cbn [payload_debug]; fields_ok).
  unfold server_manifest. fields_ok; done.
Qed.

Lemma load_manifest_ok identity build cpuinfo config snapshot lifecycle elapsed cpu_seconds rss_kib :
  is_str identity -> host_ok build cpuinfo (lc_connect config) -> config_ok config ->
  match lc_offered_rate config with Some rate => f64_ok rate | None => True end ->
  Forall in_u128 (snapshot_integers snapshot ++ load_integers config lifecycle) ->
  sn_article_requests snapshot + sn_body_requests snapshot <= sn_commands snapshot ->
  Forall is_duration (load_durations config lifecycle elapsed) ->
  Forall (fun h => match h with Some h => 0 <= lh_precision h | None => True end)
    [lo_latency_histogram lifecycle; lo_schedule_delay_histogram lifecycle] ->
  match lc_segments config with Some s => Z.of_nat (length (seg_ids s)) <= u64_max | None => True end ->
  cost_ok cpu_seconds rss_kib ->
  json_ok (load_manifest identity build cpuinfo config snapshot lifecycle elapsed cpu_seconds rss_kib).
Proof.
  intros Hid Hhost Hc Hrate Hi Hsum Hd Hh Hl [Hcpu Hfin Hrss].
  unfold snapshot_integers, load_integers, load_durations in *. cbn [app] in Hi.
  repeat (apply Forall_cons_1 in Hi as [? Hi]). repeat (apply Forall_cons_1 in Hd as [? Hd]).
  repeat (apply Forall_cons_1 in Hh as [? Hh]).
  pose proof (f64_ok_fits _ Hcpu Hfin) as Hfits. pose proof (ok_host _ _ _ Hhost) as Hok. destruct Hhost.
  pose proof (socket_addr_str (lc_connect config) ltac:(done) ltac:(done)) as Haddr.
  assert (json_ok (of_segments (lc_segments config))) as Hsegs.
  { apply ok_segments. pose proof (cg_segments _ Hc) as Hs. destruct (lc_segments config); [|done]. split; [apply Hs|done]. }
  assert (json_ok (of_option_u64 (lc_requests config))) as Hreq.
  { destruct (lc_requests config); [by apply ok_int|constructor]. }
  assert (json_ok (JArray (JInt <$> lc_ports config))) as Hports.
  { apply ok_array, list.Forall_fmap. eapply List.Forall_impl; [|exact Hi]. intros n. apply ok_int. }
  assert (json_ok (JString (mix_debug (lc_command_mix config)))) by (destruct (lc_command_mix config); cbn [mix_debug]; fields_ok).
  assert (json_ok (JString (policy_debug (lc_workload_policy config)))) by (destruct (lc_workload_policy config); cbn [policy_debug]; fields_ok).
  assert (json_ok (JString (verification_debug (lc_verification_policy config))))
    by (destruct (lc_verification_policy config); cbn [verification_debug]; fields_ok).
  unfold load_manifest, of_load_config, of_load_results. fields_ok; try done.
  - destruct (lc_segments config); fields_ok.
  - apply ok_int. unfold in_u128 in *. lia.
Qed.

Lemma fold_sizes_defined segments indices total :
  Forall (fun i => i < length (seg_declared_sizes segments))%nat indices ->
  is_Some (fold_declared_sizes segments indices total).
Proof.
  intros H. revert total. induction H as [|i indices Hi _ IH]; intros total; [by eexists|].
  cbn [fold_declared_sizes]. unfold declared_size. apply lookup_lt_is_Some in Hi as [size ->]. apply IH.
Qed.

Lemma segments_text_defined segments :
  match segments with Some s => segments_ok s | None => True end -> is_Some (segments_text segments).
Proof.
  destruct segments as [s|]; [|by eexists]. intros Hs. cbn [segments_text].
  destruct (fold_sizes_defined s (seq 0 (length (seg_ids s))) 0) as [total E]; [|unfold total_declared_size; rewrite E; by eexists].
  rewrite (sg_length _ Hs). apply Forall_seq. lia.
Qed.

Lemma u64_checked_sub_Some a b c : u64_checked_sub a b = Some c <-> b <= a /\ c = a - b.
Proof.
  unfold u64_checked_sub. destruct (Z.ltb_spec a b); split; intros H'; try done; [lia| |by destruct H' as [_ ->]].
  apply (inj Some) in H'. lia.
Qed.

(** The manifest of a load is refused for its counts only. *)
Lemma render_load_counts md5 build cpuinfo config snapshot lifecycle elapsed cpu_seconds rss_kib text :
  render_load_manifest md5 build cpuinfo config snapshot lifecycle elapsed cpu_seconds rss_kib = Some text ->
  sn_article_requests snapshot + sn_body_requests snapshot <= sn_commands snapshot.
Proof.
  intros H. unfold render_load_manifest in H. destruct (segments_text _); [|done]. cbn [mbind option_bind] in H.
  destruct (workload_identity _ _); [|done]. cbn [mbind option_bind] in H.
  destruct (u64_checked_sub _ (sn_article_requests _)) as [n|] eqn:E1; [|done]. cbn [mbind option_bind] in H.
  destruct (u64_checked_sub n _) as [k|] eqn:E2; [|done].
  apply u64_checked_sub_Some in E1 as [_ ->]. apply u64_checked_sub_Some in E2. lia.
Qed.

Lemma render_load_fails md5 build cpuinfo config snapshot lifecycle elapsed cpu_seconds rss_kib :
  (forall s, lc_segments config = Some s -> segments_ok s /\ seg_ids s <> []) -> 0 <= sn_body_requests snapshot ->
  render_load_manifest md5 build cpuinfo config snapshot lifecycle elapsed cpu_seconds rss_kib = None ->
  sn_commands snapshot < sn_article_requests snapshot + sn_body_requests snapshot.
Proof.
  intros Hs Hb H. unfold render_load_manifest in H.
  destruct (segments_text_defined (lc_segments config)) as [segments E].
  { destruct (lc_segments config) as [s|]; [by apply Hs|done]. }
  rewrite E in H. cbn [mbind option_bind] in H. clear E.
  assert (is_Some (workload_identity md5 config)) as [identity E].
  { unfold workload_identity. rewrite workload_bytes_fields; [by eexists|].
    destruct (lc_segments config) as [s|]; [by apply Hs|done]. }
  rewrite E in H. cbn [mbind option_bind] in H. clear E.
  destruct (u64_checked_sub _ (sn_article_requests _)) as [n|] eqn:E1; cbn [mbind option_bind] in H.
  - apply u64_checked_sub_Some in E1 as [_ ->]. unfold u64_checked_sub in H.
    destruct (Z.ltb_spec (sn_commands snapshot - sn_article_requests snapshot) (sn_body_requests snapshot)); [lia|done].
  - unfold u64_checked_sub in E1. destruct (Z.ltb_spec (sn_commands snapshot) (sn_article_requests snapshot)); [lia|done].
Qed.

(** How a load can end, and a server. *)
Record load_end_ok (build : Build) (cpuinfo : option bytes) (config : LoadConfig) (snapshot : Snapshot)
    (lifecycle : LoadSessionOutcome) (elapsed : Z) (cpu_seconds : f64) (rss_kib : Z) : Prop := {
  le_host : host_ok build cpuinfo (lc_connect config);
  le_config : config_ok config;
  le_rate : match lc_offered_rate config with Some rate => f64_ok rate | None => True end;
  le_segments : match lc_segments config with Some s => Z.of_nat (length (seg_ids s)) <= u64_max | None => True end;
  le_integers : Forall in_u128 (snapshot_integers snapshot ++ load_integers config lifecycle);
  le_durations : Forall is_duration (load_durations config lifecycle elapsed);
  le_histograms : Forall (fun h => match h with Some h => 0 <= lh_precision h | None => True end)
    [lo_latency_histogram lifecycle; lo_schedule_delay_histogram lifecycle];
  le_cost : cost_ok cpu_seconds rss_kib;
}.
Record server_end_ok (build : Build) (cpuinfo : option bytes) (settings : ServerSettings) (snapshot : Snapshot)
    (elapsed : Z) (cpu_seconds : f64) (rss_kib : Z) : Prop := {
  se_host : host_ok build cpuinfo (sv_listen settings);
  se_integers : Forall in_u128 (snapshot_integers snapshot ++ server_integers settings);
  se_elapsed : is_duration elapsed;
  se_cost : cost_ok cpu_seconds rss_kib;
}.

(** C23: the manifests are JSON, whatever the names of the host, the addresses
    and the paths hold: a reader of the line a load prints, or a server, gets
    every field as it was, the counts, the durations with nine digits, the
    percentiles and the identity of the workload.  The directory of the articles
    is what [Path::display] shows of it: the path itself where it is UTF-8,
    replacement characters where it is not.  A load whose counts do not add up,
    with more articles and bodies than commands, panics instead. *)
Theorem manifests_read_back (md5 : bytes -> bytes) (build : Build) (cpuinfo : option bytes)
    (snapshot : Snapshot) (elapsed : Z) (cpu_seconds : f64) (rss_kib : Z) :
  (forall config lifecycle started,
     (forall input, Forall is_byte (md5 input)) -> lc_json config = true -> lc_csv config = false ->
     load_end_ok build cpuinfo config snapshot lifecycle elapsed cpu_seconds rss_kib ->
     match load_report md5 build cpuinfo config snapshot lifecycle started elapsed cpu_seconds rss_kib with
     | Some (stdout, _) =>
         exists identity, workload_identity md5 config = Some identity
           /\ read_json stdout
              = Some (load_manifest identity build cpuinfo config snapshot lifecycle elapsed cpu_seconds rss_kib)
     | None => sn_commands snapshot < sn_article_requests snapshot + sn_body_requests snapshot
     end)
  /\ (forall settings,
     server_end_ok build cpuinfo settings snapshot elapsed cpu_seconds rss_kib ->
     read_json (render_server_manifest build cpuinfo settings snapshot elapsed cpu_seconds rss_kib ++ [LF])
     = Some (server_manifest build cpuinfo settings snapshot elapsed cpu_seconds rss_kib)
     /\ forall dir, sv_article_dir settings = Some dir -> is_str dir ->
          to_string_lossy <$> sv_article_dir settings = Some dir).
Proof.
  split.
  - intros config lifecycle started Hmd5 Hjson Hcsv [Hhost Hc Hrate Hlen Hi Hd Hh Hcost].
    unfold load_report. rewrite Hjson, Hcsv.
    destruct (render_load_manifest _ _ _ _ _ _ _ _ _) as [text|] eqn:E; cbn [mbind option_bind].
    + assert (sn_article_requests snapshot + sn_body_requests snapshot <= sn_commands snapshot) as Hsum
        by (by eapply render_load_counts).
      destruct (load_manifest_text _ _ _ _ _ _ _ _ _ _ Hd (ct_finite _ _ Hcost) E) as (identity & Eid & Hw).
      exists identity. split; [done|]. rewrite <- Hw. apply read_write_json; [|by right].
      apply load_manifest_ok; try done. by eapply identity_str.
    + eapply render_load_fails; [|..|exact E].
      * intros s Hs. pose proof (cg_segments _ Hc) as Hseg. by rewrite Hs in Hseg.
      * unfold snapshot_integers in Hi. cbn [app] in Hi. repeat (apply Forall_cons_1 in Hi as [? Hi]). unfold in_u128 in *. lia.
  - intros settings [Hhost Hi Hd Hcost]. apply Forall_app in Hi as [Hs Hi].
    rewrite <- (server_manifest_text _ _ _ _ _ _ _ Hd (ct_finite _ _ Hcost) [LF]). split.
    + apply read_write_json; [|by right]. by apply server_manifest_ok.
    + intros dir -> Hdir. cbn. by rewrite to_string_lossy_id.
Qed.

(** * Manifests read back *)

Definition sample_build : Build := {| bu_version := lit "0.1.0"; bu_os := lit "linux"; bu_arch := lit "x86_64" |}.

Definition sample_cpuinfo : option bytes :=
  Some (bstr "processor\t: 0\nmodel name\t: A " ++ quoted "'fast'" ++ bstr " \ CPU\nflags\t: fpu\n").

Definition sample_snapshot (commands articles bodies : Z) : Snapshot :=
  {| sn_at := 5000000000; sn_accepted_connections := 2; sn_refused_connections := 0; sn_active_connections := 0;
     sn_commands := commands; sn_pipeline_batches := 3; sn_article_requests := articles;
     sn_body_requests := bodies; sn_bytes_sent := 12345; sn_errors := 0 |}.

(** A configuration that asks for a manifest. *)
Definition json_config : LoadConfig :=
  let c := load_config 2 0 (Some (f64_of_int 1000)) in
  {| lc_connect := lc_connect c; lc_runtime_threads := lc_runtime_threads c; lc_ports := lc_ports c;
     lc_segments := lc_segments c; lc_requests := lc_requests c; lc_transfer_bytes := lc_transfer_bytes c;
     lc_duration := 1500000000; lc_setup_timeout := lc_setup_timeout c; lc_drain_timeout := lc_drain_timeout c;
     lc_offered_rate := lc_offered_rate c; lc_latency_range := lc_latency_range c;
     lc_latency_precision := lc_latency_precision c; lc_connections := lc_connections c;
     lc_client_offset := lc_client_offset c; lc_total_clients := lc_total_clients c;
     lc_pipeline_depth := lc_pipeline_depth c; lc_command_mix := lc_command_mix c; lc_start_id := lc_start_id c;
     lc_workload_policy := lc_workload_policy c; lc_verification_policy := lc_verification_policy c;
     lc_read_buffer_bytes := lc_read_buffer_bytes c; lc_max_response_bytes := lc_max_response_bytes c;
     lc_nodelay := lc_nodelay c; lc_socket_recv_buffer := lc_socket_recv_buffer c;
     lc_socket_send_buffer := lc_socket_send_buffer c; lc_csv := false; lc_json := true;
     lc_stats_interval := lc_stats_interval c |}.

Definition sample_lifecycle : LoadSessionOutcome := sample_outcome 7 2 [1500000; 20000000] [0; 1].

Example rendered_strings :
  json_string (quoted "a'b\c" ++ [7; 127; 195; 169]) = [34] ++ quoted "a\'b\\c\u0007\u007f" ++ [195; 169; 34]
  /\ f64_fixed 9 (as_secs_f64 1500000000) = lit "1.500000000"
  /\ f64_fixed 2 (f64_div (f64_of_int 1) (f64_of_int 8)) = lit "0.12"
  /\ format (lit "{:>6.1}|{:<4}|{{}}|{:+.0}") [ArgFloat (f64_of_int 3); ArgText (lit "ab"); ArgFloat (f64_of_int 2)]
     = lit "   3.0|ab  |{}|+2".
Proof. split_and!; vm_compute; reflexivity. Qed.

Example process_files :
  parse_process_cpu_ticks (lit "71 (a (b) c) R 1 1 1 0 -1 4 5 6 7 8 120 30 0 0 20") = Some 150
  /\ process_rss_kib (Some (bstr "Name:\tbench\nVmRSS:\t  5120 kB\nThreads:\t1\n")) = 5120
  /\ cpu_model sample_cpuinfo = Some (quoted "A 'fast' \ CPU")
  /\ cpu_seconds_since (Some 100) (Some 350) = f64_div (f64_of_int 5) (f64_of_int 2).
Proof. split_and!; vm_compute; reflexivity. Qed.

Lemma sample_load_end :
  load_end_ok sample_build sample_cpuinfo json_config (sample_snapshot 7 7 0) sample_lifecycle 2000000000
    (f64_of_int 2) 5120.
Proof.
  split.
  - split; try literal_str; [|cbn; lia]. intros text E. injection E as <-. literal_str.
  - pose proof (load_config_ok 2 0 (Some (f64_of_int 1000)) ltac:(lia) ltac:(lia)) as []. by split.
  - vm_compute. right. split; [split; discriminate + reflexivity|split; discriminate].
  - done.
  - unfold snapshot_integers, load_integers. change (lc_ports json_config) with [1119; 1120]. cbn [app].
    repeat (apply List.Forall_cons; [split; vm_compute; discriminate|]). apply List.Forall_nil.
  - unfold load_durations. repeat (apply List.Forall_cons; [split; vm_compute; discriminate|]). apply List.Forall_nil.
  - repeat (apply List.Forall_cons; [vm_compute; discriminate|]). apply List.Forall_nil.
  - split; [|reflexivity|split; discriminate]. vm_compute. right. split; [split; discriminate + reflexivity|split; discriminate].
Qed.

Lemma manifests_read_back_witness :
  exists stdout stderr identity,
    load_report (fun _ => [171; 0]) sample_build sample_cpuinfo json_config (sample_snapshot 7 7 0) sample_lifecycle 0
      2000000000 (f64_of_int 2) 5120 = Some (stdout, stderr)
    /\ read_json stdout
       = Some (load_manifest identity sample_build sample_cpuinfo json_config (sample_snapshot 7 7 0) sample_lifecycle
                 2000000000 (f64_of_int 2) 5120)
    /\ identity = lit "md5:ab00".
Proof.
  pose proof (proj1 (manifests_read_back (fun _ => [171; 0]) sample_build sample_cpuinfo (sample_snapshot 7 7 0)
    2000000000 (f64_of_int 2) 5120) json_config sample_lifecycle 0) as H.
  destruct (load_report _ _ _ _ _ _ _ _ _ _) as [[stdout stderr]|] eqn:E; [|vm_compute in E; discriminate E].
  destruct H as (identity & Eid & H).
  - intros _. repeat (apply List.Forall_cons; [unfold is_byte; lia|]). apply List.Forall_nil.
  - reflexivity.
  - reflexivity.
  - exact sample_load_end.
  - exists stdout, stderr, identity. split; [done|]. split; [exact H|]. vm_compute in Eid. by injection Eid as <-.
Defined.
