(* ===== verification/ServerProcess.v ===== *)
(** * The process of the server ([src/src/lib.rs], [run_server])

    The loop that accepts connections: a semaphore of [max_connections] permits,
    a task for each connection that got one, and the counters the tasks and the
    loop share.  One event is what the loop or a task does between two await
    points; the theorems are about every sequence of events. *)
From stdpp Require Import gmap.
From S2P Require Import Prelude ClientWire ServerPayload ServerSession Float64 LoadSession FetchCommand Format Manifest.

Local Open Scope Z_scope.
Local Open Scope rust_scope.

(** The counters of [Stats]; an [AtomicU64] wraps around. *)
Record Stats : Type := {
  ss_accepted_connections : Z;
  ss_refused_connections : Z;
  ss_active_connections : Z;
  ss_session : SessionStats;
  ss_errors : Z;
}.

Definition stats_new : Stats :=
  {| ss_accepted_connections := 0; ss_refused_connections := 0; ss_active_connections := 0;
     ss_session := session_stats_default; ss_errors := 0 |}.

Definition wrap (n : Z) : Z := n mod 18446744073709551616.

(** [fetch_add] of what a session publishes. *)
Definition add_session (self : Stats) (session : SessionStats) : Stats :=
  let sum := add_stats (ss_session self) session in
  {| ss_accepted_connections := ss_accepted_connections self;
     ss_refused_connections := ss_refused_connections self;
     ss_active_connections := ss_active_connections self;
     ss_session := {| st_commands := wrap (st_commands sum);
                      st_pipeline_batches := wrap (st_pipeline_batches sum);
                      st_article_requests := wrap (st_article_requests sum);
                      st_body_requests := wrap (st_body_requests sum);
                      st_bytes_sent := wrap (st_bytes_sent sum) |};
     ss_errors := ss_errors self |}.

Definition count_connections (self : Stats) (accepted refused active errors : Z) : Stats :=
  {| ss_accepted_connections := wrap (ss_accepted_connections self + accepted);
     ss_refused_connections := wrap (ss_refused_connections self + refused);
     ss_active_connections := wrap (ss_active_connections self + active);
     ss_session := ss_session self;
     ss_errors := wrap (ss_errors self + errors) |}.

(** A task serves its session, and keeps its permit until it is dropped, after
    the session has been counted out. *)
Inductive Task : Type := Serving | CountedOut.

Record Process : Type := {
  pr_stats : Stats;
  pr_permits : nat;
  pr_tasks : gmap nat Task;
  pr_next : nat;
  pr_returned : option (result unit IoError);
}.

(** [Semaphore::new], which panics beyond the number of permits it can hold. *)
Definition process_new (max_permits max_connections : nat) : option Process :=
  if (max_permits <? max_connections)%nat then None
  else Some {| pr_stats := stats_new; pr_permits := max_connections; pr_tasks := ∅; pr_next := 0; pr_returned := None |}.

Inductive Event : Type :=
(** [accept] gave a connection, and [optimize_server_socket] what it gave. *)
| Accepted (optimized : result unit IoError)
| AcceptFailed (error : IoError)
(** What a session does: publish counts, end, be counted out; or panic. *)
| Published (id : nat) (session : SessionStats)
| SessionEnded (id : nat) (outcome : result unit IoError)
| SessionPanicked (id : nat)
| PermitDropped (id : nat)
| Interrupted (shutdown : result unit IoError).

Definition with_stats (p : Process) (stats : Stats) : Process :=
  {| pr_stats := stats; pr_permits := pr_permits p; pr_tasks := pr_tasks p; pr_next := pr_next p;
     pr_returned := pr_returned p |}.

(** The task [id] gives its permit back. *)
Definition drop_permit (p : Process) (id : nat) : Process :=
  {| pr_stats := pr_stats p; pr_permits := S (pr_permits p); pr_tasks := delete id (pr_tasks p); pr_next := pr_next p;
     pr_returned := pr_returned p |}.

Definition return_with (p : Process) (returned : result unit IoError) : Process :=
  {| pr_stats := pr_stats p; pr_permits := pr_permits p; pr_tasks := pr_tasks p; pr_next := pr_next p;
     pr_returned := Some returned |}.

(** A connection that is kept: it takes a permit, or is refused. *)
Definition admit_connection (p : Process) : Process :=
  match pr_permits p with
  | O => with_stats p (count_connections (pr_stats p) 0 1 0 0)
  | S permits =>
      {| pr_stats := count_connections (pr_stats p) 1 0 1 0; pr_permits := permits;
         pr_tasks := <[pr_next p := Serving]> (pr_tasks p); pr_next := S (pr_next p);
         pr_returned := pr_returned p |}
  end.

(** [None] is an event that cannot happen there; nothing happens after the return. *)
Definition handle_event (event : Event) (p : Process) : option Process :=
  match pr_returned p with
  | Some _ => None
  | None =>
      match event with
      | Accepted (Ok _) => Some (admit_connection p)
      | Accepted (Err e) => Some (return_with p (Err e))
      | AcceptFailed e => Some (return_with p (Err e))
      | Published id session =>
          match pr_tasks p !! id with
          | Some Serving => Some (with_stats p (add_session (pr_stats p) session))
          | _ => None
          end
      | SessionEnded id outcome =>
          match pr_tasks p !! id with
          | Some Serving =>
              let stats := count_connections (pr_stats p) 0 0 (-1) (if is_ok outcome then 0 else 1) in
              Some {| pr_stats := stats; pr_permits := pr_permits p; pr_tasks := <[id := CountedOut]> (pr_tasks p);
                      pr_next := pr_next p; pr_returned := None |}
          | _ => None
          end
      | SessionPanicked id =>
          match pr_tasks p !! id with Some Serving => Some (drop_permit p id) | _ => None end
      | PermitDropped id =>
          match pr_tasks p !! id with Some CountedOut => Some (drop_permit p id) | _ => None end
      | Interrupted shutdown => Some (return_with p shutdown)
      end
  end.

Fixpoint run_events (events : list Event) (p : Process) : option Process :=
  match events with
  | [] => Some p
  | event :: events => p ← handle_event event p; run_events events p
  end.

(** [Stats::snapshot]: each counter is loaded on its own, so each may be of
    another moment. *)
Record Moments : Type := {
  mo_accepted : Stats; mo_refused : Stats; mo_active : Stats; mo_commands : Stats; mo_batches : Stats;
  mo_articles : Stats; mo_bodies : Stats; mo_bytes : Stats; mo_errors : Stats;
}.

Definition snapshot (now : Z) (m : Moments) : Snapshot :=
  {| sn_at := now;
     sn_accepted_connections := ss_accepted_connections (mo_accepted m);
     sn_refused_connections := ss_refused_connections (mo_refused m);
     sn_active_connections := ss_active_connections (mo_active m);
     sn_commands := st_commands (ss_session (mo_commands m));
     sn_pipeline_batches := st_pipeline_batches (ss_session (mo_batches m));
     sn_article_requests := st_article_requests (ss_session (mo_articles m));
     sn_body_requests := st_body_requests (ss_session (mo_bodies m));
     sn_bytes_sent := st_bytes_sent (ss_session (mo_bytes m));
     sn_errors := ss_errors (mo_errors m) |}.

(** [report_stats] at the snapshots of its ticks; [None] where one of its
    subtractions overflows. *)
Fixpoint report_stats (started : Z) (previous : Snapshot) (ticks : list Snapshot) : option (list bytes) :=
  match ticks with
  | [] => Some []
  | snapshot :: ticks =>
      line ← snapshot_print snapshot (lit "stats") started (Some previous);
      lines ← report_stats started snapshot ticks;
      Some (line :: lines)
  end.

(** ** What the events amount to *)

Definition count (f : Event -> bool) (events : list Event) : nat := length (List.filter f events).

Definition is_connection (event : Event) : bool := match event with Accepted (Ok _) => true | _ => false end.
Definition is_end (event : Event) : bool := match event with SessionEnded _ _ => true | _ => false end.
Definition is_failure (event : Event) : bool := match event with SessionEnded _ (Err _) => true | _ => false end.
Definition is_panic (event : Event) : bool := match event with SessionPanicked _ => true | _ => false end.

Definition published (f : SessionStats -> Z) (events : list Event) : Z :=
  foldr (fun event => Z.add match event with Published _ session => f session | _ => 0 end) 0 events.

(** What an event makes [run_server] return. *)
Definition returned_by (event : Event) : option (result unit IoError) :=
  match event with
  | Accepted (Err e) | AcceptFailed e => Some (Err e)
  | Interrupted shutdown => Some shutdown
  | _ => None
  end.

Definition is_serving (task : nat * Task) : Prop := snd task = Serving.
#[global] Instance is_serving_dec task : Decision (is_serving task).
Proof. destruct task as [id []]; [by left|by right]. Defined.

Definition serving (tasks : gmap nat Task) : nat := size (filter is_serving tasks).

Lemma count_app f xs ys : count f (xs ++ ys) = (count f xs + count f ys)%nat.
Proof. unfold count. by rewrite List.filter_app, length_app. Qed.

Lemma published_app f xs ys : published f (xs ++ ys) = published f xs + published f ys.
Proof. unfold published. induction xs as [|x xs IH]; cbn [app foldr]; lia. Qed.

Lemma run_events_app xs ys p : run_events (xs ++ ys) p = run_events xs p ≫= run_events ys.
Proof.
  revert p. induction xs as [|x xs IH]; intros p; [done|]. cbn [app run_events].
  destruct (handle_event x p) as [q|]; [apply IH|done].
Qed.

Lemma serving_fresh tasks id : tasks !! id = None -> serving (<[id := Serving]> tasks) = S (serving tasks).
Proof.
  intros H. unfold serving. rewrite map_filter_insert_True by done. apply map_size_insert_None, map_lookup_filter_None.
  by left.
Qed.

Lemma serving_delete tasks id (t : Task) :
  tasks !! id = Some t -> serving tasks = (serving (delete id tasks) + if t is Serving then 1 else 0)%nat.
Proof.
  intros H. rewrite <- (insert_delete_id tasks id t) at 1 by done. destruct t.
  - rewrite serving_fresh by apply lookup_delete_eq. lia.
  - unfold serving. rewrite map_filter_insert_False by done. rewrite delete_delete_eq. lia.
Qed.

Lemma serving_counted_out tasks id :
  tasks !! id = Some Serving -> serving tasks = S (serving (<[id := CountedOut]> tasks)).
Proof.
  intros H. rewrite (serving_delete _ _ _ H). unfold serving. rewrite (map_filter_insert_False _ tasks) by done. lia.
Qed.

Lemma wrap_add a b : wrap (wrap a + b) = wrap (a + b).
Proof. unfold wrap. apply Zplus_mod_idemp_l. Qed.

(** ** The invariant of the loop *)

Record counted (max_connections : nat) (events : list Event) (p : Process) : Prop := {
  cn_permits : (pr_permits p + size (pr_tasks p) = max_connections)%nat;
  cn_ids : forall id, is_Some (pr_tasks p !! id) -> (id < pr_next p)%nat;
  cn_tasks : pr_next p = (count is_end events + count is_panic events + serving (pr_tasks p))%nat;
  cn_connections : (pr_next p <= count is_connection events)%nat;
  cn_accepted : ss_accepted_connections (pr_stats p) = wrap (Z.of_nat (pr_next p));
  cn_refused : ss_refused_connections (pr_stats p) = wrap (Z.of_nat (count is_connection events - pr_next p));
  cn_active : ss_active_connections (pr_stats p) = wrap (Z.of_nat (serving (pr_tasks p) + count is_panic events));
  cn_errors : ss_errors (pr_stats p) = wrap (Z.of_nat (count is_failure events));
  cn_session : forall f, In f [st_commands; st_pipeline_batches; st_article_requests; st_body_requests; st_bytes_sent] ->
    f (ss_session (pr_stats p)) = wrap (published f events);
  cn_returned : pr_returned p = list.last events ≫= returned_by;
}.

Lemma counted_new max_permits max_connections p :
  process_new max_permits max_connections = Some p -> counted max_connections [] p.
Proof.
  unfold process_new. destruct (_ <? _)%nat; [done|]. intros [= <-]. split; try done; cbn [pr_permits pr_tasks].
  - intros id. rewrite lookup_empty. by intros [? ?].
  - by intros f [<-|[<-|[<-|[<-|[<-|[]]]]]].
Qed.

(** What one more event adds to a count. *)
Ltac tally := rewrite ?count_app, ?published_app; cbn [count published foldr List.filter is_connection is_end is_failure
  is_panic length].

Ltac process_cbn := cbn [with_stats drop_permit return_with count_connections add_session pr_stats pr_permits pr_tasks
  pr_next pr_returned ss_accepted_connections ss_refused_connections ss_active_connections ss_session ss_errors
  st_commands st_pipeline_batches st_article_requests st_body_requests st_bytes_sent].

(** The counters that an event leaves, or adds to. *)
Ltac settle := try done; try lia;
  match goal with
  | H : ?c = wrap _ |- wrap (?c + _) = wrap _ => rewrite H, wrap_add; f_equal; lia
  | H : ?c = wrap _ |- ?c = wrap _ => rewrite H; f_equal; lia
  | H : forall f, In f _ -> _ |- forall f, In f _ -> _ => intros f Hf; tally; rewrite H by done; f_equal; lia
  | |- _ = list.last (_ ++ [_]) ≫= _ => rewrite last_snoc; auto
  | _ => idtac
  end.

Lemma counted_connection m events p :
  counted m events p -> pr_returned p = None -> counted m (events ++ [Accepted (Ok tt)]) (admit_connection p).
Proof.
  intros [] Hr. unfold admit_connection. destruct (pr_permits p) as [|permits] eqn:E.
  - split; process_cbn; tally; settle.
  - assert (Hnew : pr_tasks p !! pr_next p = None).
    { destruct (pr_tasks p !! pr_next p) eqn:Et; [|done]. pose proof (cn_ids0 (pr_next p)) as H.
      rewrite Et in H. specialize (H ltac:(by eexists)). lia. }
    split; process_cbn; rewrite ?map_size_insert_None, ?serving_fresh by done; tally; settle.
    intros id [t [[<- _]|[_ Ht]]%lookup_insert_Some]; [lia|]. specialize (cn_ids0 id ltac:(by eexists)). lia.
Qed.

Lemma counted_return m events p event r :
  counted m events p -> returned_by event = Some r -> counted m (events ++ [event]) (return_with p r).
Proof.
  intros [] Hr. destruct event as [[[]|e]|e| | | | |s]; try done; injection Hr as <-;
    split; process_cbn; tally; rewrite ?Nat.add_0_r, ?Z.add_0_r; settle.
Qed.

Lemma counted_published m events p id session :
  counted m events p -> pr_returned p = None ->
  counted m (events ++ [Published id session]) (with_stats p (add_session (pr_stats p) session)).
Proof.
  intros [] Hr. split; process_cbn; tally; rewrite ?Nat.add_0_r; settle.
  intros f Hf. tally. rewrite Z.add_0_r. pose proof (cn_session0 f Hf) as H.
  by destruct Hf as [<-|[<-|[<-|[<-|[<-|[]]]]]]; process_cbn; cbn [add_stats st_commands st_pipeline_batches
    st_article_requests st_body_requests st_bytes_sent]; rewrite H, wrap_add.
Qed.

Lemma counted_ended m events p id outcome q :
  counted m events p -> handle_event (SessionEnded id outcome) p = Some q ->
  counted m (events ++ [SessionEnded id outcome]) q.
Proof.
  intros []. unfold handle_event. destruct (pr_returned p); [done|]. destruct (pr_tasks p !! id) as [[]|] eqn:Et; try done.
  intros [= <-]. pose proof (serving_counted_out _ _ Et) as Hs.
  destruct outcome as [[]|e]; split; process_cbn; cbn [is_ok]; rewrite ?map_size_insert_Some by (by eexists); tally; settle.
  all: intros i [t [[<- _]|[_ Ht]]%lookup_insert_Some]; apply cn_ids0; by eexists.
Qed.

Lemma size_delete_task (tasks : gmap nat Task) id t : tasks !! id = Some t -> size tasks = S (size (delete id tasks)).
Proof.
  intros H. rewrite map_size_delete_Some by (by eexists). assert (size tasks <> 0%nat); [|lia].
  intros H0%map_size_empty_inv. by rewrite H0, lookup_empty in H.
Qed.

Lemma counted_left m events p id t q :
  counted m events p -> pr_tasks p !! id = Some t ->
  handle_event (match t with Serving => SessionPanicked id | CountedOut => PermitDropped id end) p = Some q ->
  counted m (events ++ [match t with Serving => SessionPanicked id | CountedOut => PermitDropped id end]) q.
Proof.
  intros [] Et E. pose proof (serving_delete _ _ _ Et) as Hs. pose proof (size_delete_task _ _ _ Et) as Hn.
  assert (Hq : q = drop_permit p id /\ pr_returned p = None).
  { revert E. unfold handle_event. destruct t; rewrite Et; destruct (pr_returned p); try done; by intros [= <-]. }
  destruct Hq as [-> Hr]. destruct t; cbn match in Hs; split; process_cbn; tally; rewrite ?Nat.add_0_r, ?Z.add_0_r; settle.
  all: intros i [u [_ Hu]%lookup_delete_Some]; apply cn_ids0; by eexists.
Qed.

Lemma counted_step m events p event q :
  counted m events p -> handle_event event p = Some q -> counted m (events ++ [event]) q.
Proof.
  intros H E. destruct (pr_returned p) as [r|] eqn:Hr; [by unfold handle_event in E; rewrite Hr in E|].
  destruct event as [[[]|e]|e|id session|id outcome|id|id|s].
  all: try (pose proof (counted_ended _ _ _ _ _ _ H E); done).
  all: revert E; unfold handle_event; rewrite Hr; try intros [= <-].
  - by apply counted_connection.
  - by eapply counted_return.
  - by eapply counted_return.
  - destruct (pr_tasks p !! id) as [[]|] eqn:Et; try done. intros [= <-]. by apply counted_published.
  - destruct (pr_tasks p !! id) as [[]|] eqn:Et; try done. intros E. apply (counted_left _ _ _ id Serving _ H Et). unfold handle_event.
    by rewrite Hr, Et.
  - destruct (pr_tasks p !! id) as [[]|] eqn:Et; try done. intros E. apply (counted_left _ _ _ id CountedOut _ H Et). unfold handle_event.
    by rewrite Hr, Et.
  - by eapply counted_return.
Qed.

Lemma counted_run m xs ys p q : counted m xs p -> run_events ys p = Some q -> counted m (xs ++ ys) q.
Proof.
  revert xs p. induction ys as [|y ys IH]; intros xs p H E; cbn in E.
  - injection E as <-. by rewrite app_nil_r.
  - apply bind_Some in E as (p' & Ey & E). rewrite cons_middle, app_assoc.
    eapply IH; [|done]. by eapply counted_step.
Qed.

Lemma counted_runs max_permits m events p0 p :
  process_new max_permits m = Some p0 -> run_events events p0 = Some p -> counted m events p.
Proof. intros H%counted_new E. by eapply (counted_run m []). Qed.

(** C24: in every run of the loop the tasks and the free permits are the
    permits there were, so never more sessions than that are served; each
    connection is accepted or refused, each accepted session is being served,
    has ended or has panicked, and the counters are these numbers to 64 bits; the
    function has returned exactly when the last event was a failure to accept, to
    set up a socket, or the interrupt.  Until then the next connection is served
    by a fresh task when a permit is free, and refused when none is. *)
Theorem accept_loop_safe max_permits max_connections events p0 p :
  process_new max_permits max_connections = Some p0 -> run_events events p0 = Some p ->
  let ended := count is_end events in
  let panicked := count is_panic events in
  let serving := serving (pr_tasks p) in
  let refused := (count is_connection events - pr_next p)%nat in
  (pr_permits p + size (pr_tasks p))%nat = max_connections /\ (serving <= size (pr_tasks p))%nat /\
  (pr_next p <= count is_connection events)%nat /\ pr_next p = (ended + panicked + serving)%nat /\
  ss_accepted_connections (pr_stats p) = wrap (Z.of_nat (pr_next p)) /\
  ss_refused_connections (pr_stats p) = wrap (Z.of_nat refused) /\
  ss_active_connections (pr_stats p) = wrap (Z.of_nat (serving + panicked)) /\
  ss_errors (pr_stats p) = wrap (Z.of_nat (count is_failure events)) /\
  pr_returned p = list.last events ≫= returned_by /\
  (pr_returned p = None -> exists q,
     handle_event (Accepted (Ok tt)) p = Some q /\
     if (size (pr_tasks p) <? max_connections)%nat
     then pr_tasks q = <[pr_next p := Serving]> (pr_tasks p) /\ pr_tasks p !! pr_next p = None /\ pr_next q = S (pr_next p)
     else pr_tasks q = pr_tasks p /\ pr_next q = pr_next p /\ ss_refused_connections (pr_stats q) = wrap (Z.of_nat (S refused))).
Proof.
  intros H0 E. destruct (counted_runs _ _ _ _ _ H0 E) as [Hp Hids]. repeat (split; [done|]).
  split; [by apply map_subseteq_size, map_filter_subseteq|]. repeat (split; [done|]).
  intros Hr. exists (admit_connection p). split; [by unfold handle_event; rewrite Hr|].
  unfold admit_connection. destruct (Nat.ltb_spec (size (pr_tasks p)) max_connections), (pr_permits p); try lia;
    process_cbn; repeat (split; [done|]).
  - split; [|done]. destruct (pr_tasks p !! pr_next p) eqn:Et; [|done].
    assert (pr_next p < pr_next p)%nat; [|lia]. apply Hids. by eexists.
  - rewrite cn_refused0, wrap_add. f_equal. lia.
Qed.

(** ** The report *)

(** The counters a report subtracts. *)
Inductive Counter : Type := Connections | Commands | Articles | Bodies | Bytes.

(** What the events have added to a counter, without an end of its range. *)
Definition amount (p0 : Process) (counter : Counter) (events : list Event) : Z :=
  match counter with
  | Connections => match run_events events p0 with Some p => Z.of_nat (pr_next p) | None => 0 end
  | Commands => published st_commands events
  | Articles => published st_article_requests events
  | Bodies => published st_body_requests events
  | Bytes => published st_bytes_sent events
  end.

Definition stats_after (p0 : Process) (events : list Event) : Stats :=
  match run_events events p0 with Some p => pr_stats p | None => pr_stats p0 end.

(** A tick: its time, how many of the events each counter was read after, and
    the moments of the counters that are only shown. *)
Record Tick : Type := { tk_at : Z; tk_read : Counter -> nat; tk_shown : Moments }.

Section Report.
Context (p0 : Process) (events : list Event).

Definition seen (tick : Tick) (counter : Counter) : list Event := take (tk_read tick counter) events.

Definition moments_of (tick : Tick) : Moments :=
  {| mo_accepted := stats_after p0 (seen tick Connections); mo_refused := mo_refused (tk_shown tick);
     mo_active := mo_active (tk_shown tick); mo_commands := stats_after p0 (seen tick Commands);
     mo_batches := mo_batches (tk_shown tick); mo_articles := stats_after p0 (seen tick Articles);
     mo_bodies := stats_after p0 (seen tick Bodies); mo_bytes := stats_after p0 (seen tick Bytes);
     mo_errors := mo_errors (tk_shown tick) |}.

Definition snapshot_of (tick : Tick) : Snapshot := snapshot (tk_at tick) (moments_of tick).

Definition increase (previous tick : Tick) (counter : Counter) : Z :=
  amount p0 counter (seen tick counter) - amount p0 counter (seen previous counter).

Definition line_of (started : Z) (previous tick : Tick) : bytes :=
  snapshot_line (snapshot_of tick) (lit "stats") (seconds_between (tk_at tick) started)
    (seconds_between (tk_at tick) (tk_at previous)) (increase previous tick Connections)
    (increase previous tick Commands) (increase previous tick Articles) (increase previous tick Bodies)
    (increase previous tick Bytes).

Fixpoint lines_of (started : Z) (previous : Tick) (ticks : list Tick) : list bytes :=
  match ticks with
  | [] => []
  | tick :: ticks => line_of started previous tick :: lines_of started tick ticks
  end.

(** A later tick reads no counter earlier. *)
Definition no_earlier (previous tick : Tick) : Prop := forall counter, (tk_read previous counter <= tk_read tick counter)%nat.

Fixpoint in_order (previous : Tick) (ticks : list Tick) : Prop :=
  match ticks with [] => True | tick :: ticks => no_earlier previous tick /\ in_order tick ticks end.
End Report.

(** What a session publishes is not negative. *)
Definition natural (event : Event) : Prop :=
  match event with
  | Published _ s => 0 <= st_commands s /\ 0 <= st_article_requests s /\ 0 <= st_body_requests s /\ 0 <= st_bytes_sent s
  | _ => True
  end.

Lemma published_mono f xs ys : Forall (fun e => 0 <= published f [e]) ys -> published f xs <= published f (xs ++ ys).
Proof.
  intros H. rewrite published_app. assert (0 <= published f ys); [|lia].
  induction H as [|y ys Hy _ IH]; [done|]. change (y :: ys) with ([y] ++ ys). rewrite published_app. lia.
Qed.

Lemma next_step event p q : handle_event event p = Some q -> (pr_next p <= pr_next q)%nat.
Proof.
  unfold handle_event, admit_connection. intros H. destruct (pr_returned p); [done|].
  repeat (case_match; try done); injection H as <-; cbn; lia.
Qed.

Lemma next_mono xs p q : run_events xs p = Some q -> (pr_next p <= pr_next q)%nat.
Proof.
  revert p. induction xs as [|x xs IH]; intros p E; cbn in E; [by injection E as <-|].
  apply bind_Some in E as (p' & Ex%next_step & E%IH). lia.
Qed.

Lemma run_prefix xs ys p q : run_events (xs ++ ys) p = Some q -> exists p', run_events xs p = Some p'.
Proof. rewrite run_events_app. intros (p' & E & _)%bind_Some. by exists p'. Qed.

Lemma amount_mono p0 p counter xs ys :
  run_events (xs ++ ys) p0 = Some p -> Forall natural ys -> amount p0 counter xs <= amount p0 counter (xs ++ ys).
Proof.
  intros E Hn. destruct counter; cbn [amount].
  2-5: apply published_mono; eapply Forall_impl; [|apply Hn]; intros []; cbn; lia.
  destruct (run_prefix _ _ _ _ E) as (p' & E'). rewrite E, E'. rewrite run_events_app, E' in E. apply next_mono in E. lia.
Qed.

(** What the counters a report subtracts are. *)
Definition counter_of (stats : Stats) (counter : Counter) : Z :=
  match counter with
  | Connections => ss_accepted_connections stats
  | Commands => st_commands (ss_session stats)
  | Articles => st_article_requests (ss_session stats)
  | Bodies => st_body_requests (ss_session stats)
  | Bytes => st_bytes_sent (ss_session stats)
  end.

Lemma counter_amount max_permits m p0 xs p counter :
  process_new max_permits m = Some p0 -> run_events xs p0 = Some p ->
  counter_of (stats_after p0 xs) counter = wrap (amount p0 counter xs).
Proof.
  intros H0 E. unfold stats_after. destruct (counted_runs _ _ _ _ _ H0 E).
  destruct counter; cbn [counter_of amount]; rewrite E; [done|..]; apply cn_session0; cbn; tauto.
Qed.

Section Ticks.
Context (max_permits m : nat) (p0 p : Process) (events : list Event).
Context (Hnew : process_new max_permits m = Some p0) (Hrun : run_events events p0 = Some p).
Context (Hnatural : Forall natural events) (Hfits : forall counter, amount p0 counter events < 2 ^ 64).

Lemma amount_take_mono counter j k : (j <= k)%nat -> amount p0 counter (take j events) <= amount p0 counter (take k events).
Proof using Hrun Hnatural.
  intros Hj. assert (Hk : take k events = take j events ++ drop j (take k events)).
  { rewrite <- (take_drop j (take k events)) at 1. by rewrite take_take, Nat.min_l. }
  rewrite Hk. assert (exists q, run_events (take k events) p0 = Some q) as (q & E).
  { eapply (run_prefix _ (drop k events)). by rewrite take_drop. }
  apply (amount_mono _ q); [by rewrite <- Hk|]. by apply Forall_drop, Forall_take.
Qed.

Lemma counter_take counter k :
  counter_of (stats_after p0 (take k events)) counter = amount p0 counter (take k events).
Proof using Hnew Hrun Hnatural Hfits.
  assert (exists q, run_events (take k events) p0 = Some q) as (q & E).
  { eapply (run_prefix _ (drop k events)). by rewrite take_drop. }
  rewrite (counter_amount _ _ _ _ _ counter Hnew E). apply Z.mod_small. split.
  - transitivity (amount p0 counter (take 0 events)); [|apply amount_take_mono; lia]. destruct counter; [apply Nat2Z.is_nonneg|done..].
  - eapply Z.le_lt_trans; [|apply (Hfits counter)]. destruct (decide (k <= length events)%nat) as [Hk|Hk].
    + rewrite <- (firstn_all events) at 2. by apply amount_take_mono.
    + by rewrite take_ge by lia.
Qed.

Lemma increase_checked previous tick counter :
  no_earlier previous tick ->
  u64_checked_sub (counter_of (stats_after p0 (seen events tick counter)) counter)
    (counter_of (stats_after p0 (seen events previous counter)) counter) = Some (increase p0 events previous tick counter).
Proof using Hnew Hrun Hnatural Hfits.
  intros Hle. unfold increase, seen, u64_checked_sub. rewrite !counter_take.
  pose proof (amount_take_mono counter _ _ (Hle counter)). by destruct (Z.ltb_spec (amount p0 counter (take (tk_read tick counter) events))
    (amount p0 counter (take (tk_read previous counter) events))); [lia|].
Qed.

Lemma line_printed started previous tick :
  no_earlier previous tick ->
  snapshot_print (snapshot_of p0 events tick) (lit "stats") started (Some (snapshot_of p0 events previous))
  = Some (line_of p0 events started previous tick).
Proof using Hnew Hrun Hnatural Hfits.
  intros H. pose proof (increase_checked previous tick Connections H) as H1.
  pose proof (increase_checked previous tick Commands H) as H2.
  pose proof (increase_checked previous tick Articles H) as H3.
  pose proof (increase_checked previous tick Bodies H) as H4.
  pose proof (increase_checked previous tick Bytes H) as H5.
  cbn [counter_of] in *. unfold snapshot_print, line_of.
  cbn [snapshot_of moments_of snapshot sn_at sn_accepted_connections sn_commands sn_article_requests sn_body_requests
    sn_bytes_sent mo_accepted mo_commands mo_articles mo_bodies mo_bytes].
  rewrite H1, H2, H3, H4, H5. done.
Qed.
End Ticks.

(** C25: as long as no counter has passed 64 bits, no subtraction of the periodic
    report overflows, whatever the tasks do between the reads of the counters of
    one snapshot, and each line has the rates of what happened between the reads. *)
Theorem report_never_underflows max_permits max_connections p0 events p started first ticks :
  process_new max_permits max_connections = Some p0 -> run_events events p0 = Some p ->
  Forall natural events -> (forall counter, amount p0 counter events < 2 ^ 64) -> in_order first ticks ->
  report_stats started (snapshot_of p0 events first) (map (snapshot_of p0 events) ticks)
  = Some (lines_of p0 events started first ticks).
Proof.
  intros H0 E Hn Hfits. revert first. induction ticks as [|tick ticks IH]; intros first; [done|]. intros [Hle Ho].
  cbn [map report_stats lines_of]. rewrite (line_printed _ _ _ _ _ H0 E Hn Hfits _ _ _ Hle). cbn [mbind option_bind].
  by rewrite IH.
Qed.

(** ** A process with one permit *)

Definition some_counts : SessionStats :=
  {| st_commands := 3; st_pipeline_batches := 1; st_article_requests := 2; st_body_requests := 1; st_bytes_sent := 700 |}.
Definition broken_pipe : IoError := {| io_kind := ErrorKind.BrokenPipe; io_message := [] |}.

Definition one_permit : Process :=
  {| pr_stats := stats_new; pr_permits := 1; pr_tasks := ∅; pr_next := 0; pr_returned := None |}.

(** A session is refused while another is served, also while that one is only
    counted out; the one after its permit is back is served. *)
Definition a_morning : list Event :=
  [Accepted (Ok tt); Published 0 some_counts; Accepted (Ok tt); SessionEnded 0 (Err broken_pipe); Accepted (Ok tt);
   PermitDropped 0; Accepted (Ok tt); Published 1 some_counts; SessionPanicked 1].

Definition noon : Process :=
  {| pr_stats := {| ss_accepted_connections := 2; ss_refused_connections := 2; ss_active_connections := 1;
       ss_session := {| st_commands := 6; st_pipeline_batches := 2; st_article_requests := 4; st_body_requests := 2;
                        st_bytes_sent := 1400 |};
       ss_errors := 1 |};
     pr_permits := 1; pr_tasks := ∅; pr_next := 2; pr_returned := None |}.

Example a_morning_passes : run_events a_morning one_permit = Some noon.
Proof. vm_compute. reflexivity. Qed.

(** A panic leaves its session among the active ones for good. *)
Lemma panic_stays_active p id q :
  handle_event (SessionPanicked id) p = Some q ->
  ss_active_connections (pr_stats q) = ss_active_connections (pr_stats p) /\ pr_tasks q !! id = None.
Proof.
  unfold handle_event. destruct (pr_returned p); [done|]. destruct (pr_tasks p !! id) as [[]|]; try done.
  intros [= <-]. split; [done|]. apply lookup_delete_eq.
Qed.

(** One connection whose socket cannot be set up ends the server. *)
Lemma socket_failure_ends_server p e :
  pr_returned p = None -> exists q, handle_event (Accepted (Err e)) p = Some q /\ pr_returned q = Some (Err e).
Proof. intros Hr. unfold handle_event. rewrite Hr. by eexists. Qed.

Lemma accept_loop_safe_witness :
  (pr_permits noon + size (pr_tasks noon))%nat = 1%nat /\ pr_returned noon = None.
Proof.
  split; [|reflexivity].
  exact (proj1 (accept_loop_safe 10 1 a_morning one_permit noon eq_refl a_morning_passes)).
Defined.

Definition tick_after (at_ : Z) (n : nat) : Tick :=
  {| tk_at := at_; tk_read := fun _ => n;
     tk_shown := {| mo_accepted := stats_new; mo_refused := stats_new; mo_active := stats_new; mo_commands := stats_new;
       mo_batches := stats_new; mo_articles := stats_new; mo_bodies := stats_new; mo_bytes := stats_new;
       mo_errors := stats_new |} |}.

Lemma report_never_underflows_witness :
  is_Some (report_stats 0 (snapshot_of one_permit a_morning (tick_after 0 0))
    (map (snapshot_of one_permit a_morning) [tick_after 2000000000 4; tick_after 3000000000 9])).
Proof.
  eexists. apply (report_never_underflows 10 1 one_permit a_morning noon); [reflexivity|exact a_morning_passes|..].
  - repeat apply List.Forall_cons; try apply List.Forall_nil; cbn; try exact I; lia.
  - intros []; vm_compute; reflexivity.
  - cbn. repeat split; intros c; cbn; lia.
Defined.
