(* ===== verification/BufferedRequests.v ===== *)
(** * Requests answered into a buffer ([src/src/lib.rs], [process_request_to_buffer])

    The server without a connection: a parsed request is answered from the
    configuration alone, with no group selected and no article current, into a
    sink whose writes succeed.  A write that fails is a panic there, as are the
    errors of the article store. *)
From S2P Require Import Prelude Utf8 Decimal Memchr Args Terminator Kinds Article ResponseFrame RequestLine ClientWire Text.
From S2P Require Import Wildmat ServerDates ServerResponses ServerCommands ServerIndex ServerPayload ArticleStore ServerStore ServerSession.

Local Open Scope Z_scope.
Local Open Scope rust_scope.

(** ** State *)

(** The counters, the buffer responses are built in, and the sink. *)
Record Buffered : Type := { bf_stats : SessionStats; bf_response : bytes; bf_output : bytes }.

Definition B (A : Type) : Type := Buffered -> option (A * Buffered).

#[export] Instance B_ret : MRet B := fun A a s => Some (a, s).
#[export] Instance B_bind : MBind B := fun A C k m s =>
  match m s with Some (a, s) => k a s | None => None end.

Definition add_counts (articles bodies sent : Z) : B unit := fun s =>
  Some (tt, {| bf_stats := add_stats (bf_stats s)
                 {| st_commands := 0; st_pipeline_batches := 0; st_article_requests := articles;
                    st_body_requests := bodies; st_bytes_sent := sent |};
               bf_response := bf_response s; bf_output := bf_output s |}).
Definition add_command : B unit := fun s =>
  Some (tt, {| bf_stats := add_stats (bf_stats s)
                 {| st_commands := 1; st_pipeline_batches := 0; st_article_requests := 0;
                    st_body_requests := 0; st_bytes_sent := 0 |};
               bf_response := bf_response s; bf_output := bf_output s |}).
Definition put_output (data : bytes) : B unit := fun s =>
  Some (tt, {| bf_stats := bf_stats s; bf_response := bf_response s; bf_output := bf_output s ++ data |}).
Definition get_response : B bytes := fun s => Some (bf_response s, s).
Definition set_response (response : bytes) : B unit := fun s =>
  Some (tt, {| bf_stats := bf_stats s; bf_response := response; bf_output := bf_output s |}).
Definition expect {A} (o : option A) : B A := fun s => match o with Some a => Some (a, s) | None => None end.
Definition expect_ok {A} (r : result A IoError) : B A := fun s => match r with Ok a => Some (a, s) | Err _ => None end.

Section buffered.
Context `{Mc : !Memchr, Fs : !FileSystem}.
Variable find_end : bytes -> option nat.
Variable config : ServerConfig.

(** A reply after which the requests go on. *)
Definition reply_with (response : bytes) : B bool :=
  add_counts 0 0 (Z.of_nat (length response)) ;;
  put_output response ;;
  mret false.

(** A reply that is built in the buffer. *)
Definition reply_built (response : bytes) : B bool :=
  set_response response ;;
  reply_with response.

(** ** Stored articles *)

Fixpoint write_file_response_to (reads : list (result bytes IoError)) : B unit :=
  match reads with
  | [] => mret tt
  | Err e :: _ => expect None
  | Ok [] :: _ => mret tt
  | Ok data :: reads =>
      put_output data ;;
      add_counts 0 0 (Z.of_nat (length data)) ;;
      write_file_response_to reads
  end.

Definition write_stored_article_response_to (kind : RequestKind.RequestKind) (article_id : option Z)
    (message_id : option bytes) : B bool :=
  expect (open_stored_article_response config article_id message_id) ≫= fun opened =>
  expect_ok opened ≫= fun file =>
  match file with
  | None => mret false
  | Some file =>
      match kind with
      | RequestKind.Article => write_file_response_to (file_reads file) ;; mret true
      | _ =>
          expect_ok (read_to_end file) ≫= fun data =>
          expect (build_stored_article_response find_end kind data) ≫= fun built =>
          expect_ok built ≫= fun response =>
          add_counts 0 0 (Z.of_nat (length response)) ;;
          put_output response ;; mret true
      end
  end.

(** ** ARTICLE, HEAD, STAT and BODY *)

Definition buffered_article (request : RequestLine) : B bool :=
  add_counts 1 0 0 ;;
  let article_id := parse_article_id_arg (args request) in
  let message_id := request_line_message_id request in
  if has_article_dir config then
    written ← write_stored_article_response_to RequestKind.Article article_id message_id;
    if written : bool then mret false
    else reply_with (article_not_found_response article_id message_id)
  else
    match message_id with
    | Some message_id =>
        expect (build_message_id_article_response_into message_id config) ≫= fun response =>
        reply_built response
    | None =>
        match article_id with
        | Some article_id =>
            if article_id =? 1 then reply_with (article_response config)
            else
              expect (build_selected_article_response_into article_id config) ≫= fun response =>
              reply_built response
        | None => reply_with (article_response config)
        end
    end.

(** HEAD, STAT and BODY differ as they do in a session. *)
Definition buffered_part (kind : RequestKind.RequestKind) (counted : B unit) (first_response : bytes)
    (selected : Z -> option bytes) (by_message_id : bytes -> option bytes) (request : RequestLine) : B bool :=
  counted ;;
  match request_line_message_id request with
  | Some message_id => expect (by_message_id message_id) ≫= fun response => reply_built response
  | None =>
      let article_id := default 1 (parse_article_id_arg (args request)) in
      written ← (if has_article_dir config
                 then write_stored_article_response_to kind (Some article_id) None else mret false);
      if written : bool then mret false
      else if article_id =? 1 then reply_with first_response
      else expect (selected article_id) ≫= fun response => reply_built response
  end.

Definition buffered_head : RequestLine -> B bool :=
  buffered_part RequestKind.Head (add_counts 1 0 0) head_response
    (fun article_id => Some (build_selected_head_response_into article_id))
    (fun message_id => Some (build_message_id_head_response_into message_id)).
Definition buffered_stat : RequestLine -> B bool :=
  buffered_part RequestKind.Stat (add_counts 1 0 0) stat_response
    (fun article_id => Some (build_selected_stat_response_into article_id))
    (fun message_id => Some (build_message_id_stat_response_into message_id)).
Definition buffered_body : RequestLine -> B bool :=
  buffered_part RequestKind.Body (add_counts 0 1 0) (body_response config)
    (fun article_id => build_selected_body_response_into article_id config)
    (fun message_id => build_message_id_body_response_into message_id config).

(** ** Listings *)

(** From the index, in the buffer as it was, or else the fixture's. *)
Definition buffered_listing (indexed : bytes -> ArticleStoreIndex -> bytes) (fixture : bytes) : B bool :=
  match article_index config with
  | Some index =>
      buffer ← get_response;
      reply_built (indexed buffer index)
  | None => reply_with fixture
  end.

(** ** A request *)

(** Whether it was QUIT; [now] is the clock when it is read. *)
Definition process_request_to_buffer (request : RequestLine) (now : Z) : B bool :=
  add_command ;;
  let args := args request in
  match rl_kind request with
  | RequestKind.Date => reply_with (date_response_for_unix_seconds now)
  | RequestKind.Article => buffered_article request
  | RequestKind.Head => buffered_head request
  | RequestKind.Stat => buffered_stat request
  | RequestKind.Body => buffered_body request
  | RequestKind.List => reply_with LIST_RESPONSE
  | RequestKind.ListActive =>
      let args := list_variant_wildmat_args RequestKind.ListActive args in
      buffered_listing (fun buffer index => list_active_response_for_index_into buffer args index)
        (list_active_response args)
  | RequestKind.ListActiveTimes =>
      let args := list_variant_wildmat_args RequestKind.ListActiveTimes args in
      buffered_listing (fun buffer index => list_active_times_response_for_index_into buffer args index)
        (list_active_times_response args)
  | RequestKind.ListNewsgroups =>
      let args := list_variant_wildmat_args RequestKind.ListNewsgroups args in
      buffered_listing (fun buffer index => list_newsgroups_response_for_index_into buffer args index)
        (list_newsgroups_response args)
  | RequestKind.ListOverviewFmt => reply_with LIST_OVERVIEW_FMT_RESPONSE
  | RequestKind.ListHeaders => reply_with LIST_HEADERS_RESPONSE
  | RequestKind.ListDistribPats => reply_with LIST_DISTRIB_PATS_RESPONSE
  | RequestKind.Group => reply_with (group_response_for_args args)
  | RequestKind.ListGroup => reply_with (listgroup_response_for_args args None)
  | RequestKind.Last => reply_with LAST_RESPONSE
  | RequestKind.Next => reply_with NEXT_RESPONSE
  | RequestKind.NewGroups =>
      buffered_listing (fun _ index => newgroups_response_for_index_into args index now) NEWGROUPS_RESPONSE
  | RequestKind.NewNews =>
      buffered_listing (fun _ index => newnews_response_for_index_into args index now) (newnews_response args now)
  | RequestKind.Post => reply_with (bstr "440 posting not permitted\r\n")
  | RequestKind.Ihave => reply_with (bstr "435 article not wanted\r\n")
  | RequestKind.Check | RequestKind.TakeThis | RequestKind.StartTls => reply_with COMMAND_UNAVAILABLE
  | RequestKind.AuthInfoUser | RequestKind.AuthInfoPass => reply_with NEEDS_TLS
  | RequestKind.AuthInfo => reply_with COMMAND_UNAVAILABLE
  | RequestKind.Over => reply_with (over_response_for_args args)
  | RequestKind.Xover => reply_with (xover_response_for_args args)
  | RequestKind.Hdr => reply_with (hdr_response_for_args args)
  | RequestKind.Xhdr => reply_with (xhdr_response_for_args args)
  | RequestKind.Capabilities => reply_with CAPABILITIES_RESPONSE
  | RequestKind.Help => reply_with HELP_RESPONSE
  | RequestKind.ModeReader => reply_with MODE_READER_RESPONSE
  | RequestKind.ModeStream => reply_with COMMAND_UNAVAILABLE
  | RequestKind.Quit => reply_with QUIT_RESPONSE ;; mret true
  | RequestKind.Unknown =>
      reply_with (if is_known_request_syntax_error request then
                    if authinfo_sasl_initial_response_base64_error (verb request) args
                    then bstr "504 base64 encoding error\r\n" else bstr "501 command syntax error\r\n"
                  else UNKNOWN_COMMAND)
  end.
End buffered.
