(* ===== verification/BufferedAgrees.v ===== *)
(** * The buffered server and a session ([src/src/lib.rs])

    On a server without an article directory [process_request_to_buffer] answers
    every parsed request with one whole response to it and never panics; and a
    session that has just selected alt.test gives the same answer, where it does
    not complain about what is selected. *)
From S2P Require Import Prelude Utf8 Decimal Memchr Terminator Args Kinds RequestLine ResponseFrame ClientWire Text.
From S2P Require Import ServerDates Wildmat ServerResponses ServerCommands ServerParsing ServerIndex ServerPayload.
From S2P Require Import ArticleStore ServerStore ServerSession ServerArguments ServerReplies.
From S2P Require Import SessionLogic FixtureSession FixtureSamples BufferedRequests.

Local Open Scope Z_scope.
Local Open Scope rust_scope.

(** ** What the fixture server answers to a request *)

Section fixture.
Context `{Mc : !Memchr, Fs : !FileSystem}.
Context (find_end : bytes -> option nat) (config : ServerConfig).
Hypotheses (Hconfig : config_ok config) (Hdir : article_dir config = None)
  (Hindex : article_index config = None).

Definition part_reply (first_response : bytes) (selected by_message_id : option bytes) (request : RequestLine)
    : option bytes :=
  match request_line_message_id request with
  | Some _ => by_message_id
  | None => if default 1 (parse_article_id_arg (args request)) =? 1 then Some first_response else selected
  end.

Definition fixture_reply (request : RequestLine) (now : Z) : option bytes :=
  let args := args request in
  let n := default 1 (parse_article_id_arg args) in
  let m := default [] (request_line_message_id request) in
  match rl_kind request with
  | RequestKind.Article =>
      part_reply (article_response config) (build_selected_article_response_into n config)
        (build_message_id_article_response_into m config) request
  | RequestKind.Head =>
      part_reply HEAD_RESPONSE (Some (build_selected_head_response_into n))
        (Some (build_message_id_head_response_into m)) request
  | RequestKind.Stat =>
      part_reply STAT_RESPONSE (Some (build_selected_stat_response_into n))
        (Some (build_message_id_stat_response_into m)) request
  | RequestKind.Body =>
      part_reply (body_response config) (build_selected_body_response_into n config)
        (build_message_id_body_response_into m config) request
  | RequestKind.Date => Some (date_response_for_unix_seconds now)
  | RequestKind.ListActive => Some (list_active_response (list_variant_wildmat_args RequestKind.ListActive args))
  | RequestKind.ListActiveTimes =>
      Some (list_active_times_response (list_variant_wildmat_args RequestKind.ListActiveTimes args))
  | RequestKind.ListNewsgroups =>
      Some (list_newsgroups_response (list_variant_wildmat_args RequestKind.ListNewsgroups args))
  | RequestKind.Group => Some (group_response_for_args args)
  | RequestKind.ListGroup => Some (listgroup_response_for_args args None)
  | RequestKind.Last => Some LAST_RESPONSE
  | RequestKind.Next => Some NEXT_RESPONSE
  | RequestKind.NewGroups => Some NEWGROUPS_RESPONSE
  | RequestKind.NewNews => Some (newnews_response args now)
  | RequestKind.Over => Some (over_response_for_args args)
  | RequestKind.Xover => Some (xover_response_for_args args)
  | RequestKind.Hdr => Some (hdr_response_for_args args)
  | RequestKind.Xhdr => Some (xhdr_response_for_args args)
  | RequestKind.Unknown =>
      Some (if is_known_request_syntax_error request then
              if authinfo_sasl_initial_response_base64_error (verb request) args
              then bstr "504 base64 encoding error\r\n" else bstr "501 command syntax error\r\n"
            else UNKNOWN_COMMAND)
  | kind => constant_reply kind
  end.

(** [n] commands counted, one reply counted and put out. *)
Definition gives (n : Z) (m : B bool) (close : bool) (r : bytes) (b : Buffered) : Prop :=
  exists b', m b = Some (close, b')
    /\ bf_output b' = bf_output b ++ r
    /\ st_commands (bf_stats b') = st_commands (bf_stats b) + n
    /\ st_bytes_sent (bf_stats b') = st_bytes_sent (bf_stats b) + Z.of_nat (length r).

Lemma gives_reply r b : gives 0 (reply_with r) false r b.
Proof. eexists. split; [reflexivity|]. cbn [bf_output bf_stats add_stats st_commands st_bytes_sent]. split_and!; [done|lia|lia]. Qed.

Lemma gives_built r b : gives 0 (reply_built r) false r b.
Proof. exact (gives_reply r {| bf_stats := bf_stats b; bf_response := r; bf_output := bf_output b |}). Qed.

Lemma gives_expect {A} n (o : option A) a (k : A -> B bool) close r b :
  o = Some a -> gives n (k a) close r b -> gives n (expect o ≫= k) close r b.
Proof. by intros ->. Qed.

Lemma gives_counts x y n m close r b : (forall b, gives n m close r b) -> gives n (add_counts x y 0 ;; m) close r b.
Proof.
  intros H. destruct (H {| bf_stats := add_stats (bf_stats b)
    {| st_commands := 0; st_pipeline_batches := 0; st_article_requests := x; st_body_requests := y; st_bytes_sent := 0 |};
    bf_response := bf_response b; bf_output := bf_output b |}) as (b' & E & Ho & Hc & Hs).
  exists b'. split; [exact E|]. cbn in *. split_and!; [done|lia|lia].
Qed.

Lemma gives_command m close r b : (forall b, gives 0 m close r b) -> gives 1 (add_command ;; m) close r b.
Proof.
  intros H. destruct (H {| bf_stats := add_stats (bf_stats b)
    {| st_commands := 1; st_pipeline_batches := 0; st_article_requests := 0; st_body_requests := 0; st_bytes_sent := 0 |};
    bf_response := bf_response b; bf_output := bf_output b |}) as (b' & E & Ho & Hc & Hs).
  exists b'. split; [exact E|]. cbn in *. split_and!; [done|lia|lia].
Qed.

Lemma no_directory : has_article_dir config = false.
Proof. unfold has_article_dir. by rewrite Hdir. Qed.

Lemma gives_article request r b :
  part_reply (article_response config)
    (build_selected_article_response_into (default 1 (parse_article_id_arg (args request))) config)
    (build_message_id_article_response_into (default [] (request_line_message_id request)) config) request = Some r ->
  gives 0 (buffered_article find_end config request) false r b.
Proof using Hdir.
  unfold part_reply, buffered_article. intros E. apply gives_counts. clear b. intros b. rewrite no_directory.
  destruct (request_line_message_id request) as [m|]; [eapply gives_expect; [exact E|apply gives_built]|].
  destruct (parse_article_id_arg _) as [n|]; cbn [default from_option id] in E.
  - destruct (n =? 1); [injection E as <-; apply gives_reply|]. eapply gives_expect; [exact E|apply gives_built].
  - injection E as <-. apply gives_reply.
Qed.

Lemma gives_part kind counted first_response selected by_message_id request r b :
  (counted = add_counts 1 0 0 \/ counted = add_counts 0 1 0) ->
  part_reply first_response (selected (default 1 (parse_article_id_arg (args request))))
    (by_message_id (default [] (request_line_message_id request))) request = Some r ->
  gives 0 (buffered_part find_end config kind counted first_response selected by_message_id request) false r b.
Proof using Hdir.
  intros Hcounted E. unfold buffered_part, part_reply in *. rewrite no_directory.
  destruct Hcounted as [-> | ->]; apply gives_counts; clear b; intros b.
  all: destruct (request_line_message_id request) as [m|]; [eapply gives_expect; [exact E|apply gives_built]|].
  all: cbn zeta; destruct (_ =? 1); [injection E as <-; apply gives_reply|].
  all: eapply gives_expect; [exact E|apply gives_built].
Qed.

Lemma gives_listing indexed fixture b : gives 0 (buffered_listing config indexed fixture) false fixture b.
Proof using Hindex. unfold buffered_listing. rewrite Hindex. apply gives_reply. Qed.

Lemma gives_quit b : gives 0 (reply_with QUIT_RESPONSE ;; mret true) true QUIT_RESPONSE b.
Proof. destruct (gives_reply QUIT_RESPONSE b) as (b' & E & H). exists b'. split; [|exact H]. unfold mbind, B_bind. by rewrite E. Qed.

(** A request of the fixture server is answered without a panic. *)
Lemma process_fixture request now r b :
  fixture_reply request now = Some r ->
  gives 1 (process_request_to_buffer find_end config request now) (closes (rl_kind request)) r b.
Proof using Hdir Hindex.
  intros E. unfold process_request_to_buffer, fixture_reply in *. apply gives_command. clear b. intros b. cbn zeta in *.
  destruct (rl_kind request); cbn [closes constant_reply] in *.
  all: try (apply (inj Some) in E; subst r; first [apply gives_reply | apply gives_listing | apply gives_quit]).
  - by apply gives_article.
  - apply (gives_part RequestKind.Body); [by right|exact E].
  - apply (gives_part RequestKind.Head); [by left|exact E].
  - apply (gives_part RequestKind.Stat); [by left|exact E].
Qed.

(** ** Each answer is one whole response *)

Lemma part_reply_ok kind first_response selected by_message_id line :
  rl_kind (parse line) = kind -> article_kind kind -> reply_ok kind first_response ->
  (forall n, number_ok n -> exists r, selected n = Some r /\ reply_ok kind r) ->
  (forall m, message_id_shape m -> exists r, by_message_id m = Some r /\ reply_ok kind r) ->
  exists r, part_reply first_response (selected (default 1 (parse_article_id_arg (args (parse line)))))
              (by_message_id (default [] (request_line_message_id (parse line)))) (parse line) = Some r
    /\ reply_ok kind r.
Proof.
  intros Hk Hak Hfirst Hnum Hmid. rewrite <- Hk in Hak. destruct (request_selector _ Hak) as [Hsel _].
  unfold part_reply. inversion Hsel as [E1 E2 E3|a n Ha Hn E1 E2 E3|a m Ha Hm E1 E2 E3]; cbn [default from_option id].
  - by exists first_response.
  - destruct (n =? 1); [by exists first_response|]. apply Hnum. unfold number_ok. lia.
  - by apply Hmid.
Qed.

Lemma zero_number : number_ok 0.
Proof. unfold number_ok, MAX_ARTICLE_NUMBER. lia. Qed.

Lemma unknown_replies_ok (syntax base64 : bool) :
  reply_ok RequestKind.Unknown
    (if syntax then if base64 then bstr "504 base64 encoding error\r\n" else bstr "501 command syntax error\r\n"
     else UNKNOWN_COMMAND).
Proof. destruct unknown_reply_ok as (H500 & H501 & H504 & Hsyn). by destruct syntax, base64. Qed.

Lemma group_args_ok args : reply_ok RequestKind.Group (group_response_for_args args).
Proof. unfold group_response_for_args. destruct (fixture_group_from_name args); [apply group_reply_ok|apply no_such_group_ok]. Qed.

Lemma fixture_reply_ok line now :
  time_ok now -> exists r, fixture_reply (parse line) now = Some r /\ reply_ok (rl_kind (parse line)) r.
Proof using Hconfig.
  intros Hnow. unfold fixture_reply. destruct first_article_replies_ok as [Hhead Hstat].
  destruct (rl_kind (parse line)) eqn:Hk; cbn zeta.
  1: { apply (part_reply_ok _ _ (fun n => build_selected_article_response_into n config)
         (fun m => build_message_id_article_response_into m config)); [done|by left|apply (co_article config Hconfig)|..].
       - intros n Hn. exact (built_article_ok config Hconfig n _ Hn (selected_id_shape n Hn)).
       - intros m Hm. exact (built_article_ok config Hconfig 0 m zero_number Hm). }
  1: { apply (part_reply_ok _ _ (fun n => build_selected_body_response_into n config)
         (fun m => build_message_id_body_response_into m config)); [done|by right; right; left|apply (co_body config Hconfig)|..].
       - intros n Hn. exact (built_body_ok config Hconfig n _ Hn (selected_id_shape n Hn)).
       - intros m Hm. exact (built_body_ok config Hconfig 0 m zero_number Hm). }
  1: { apply (part_reply_ok _ _ (fun n => Some (build_selected_head_response_into n))
         (fun m => Some (build_message_id_head_response_into m))); [done|by right; left|done|..].
       - intros n Hn. eexists. split; [reflexivity|]. exact (head_reply_ok n _ Hn (selected_id_shape n Hn)).
       - intros m Hm. eexists. split; [reflexivity|]. exact (head_reply_ok 0 m zero_number Hm). }
  1: { apply (part_reply_ok _ _ (fun n => Some (build_selected_stat_response_into n))
         (fun m => Some (build_message_id_stat_response_into m))); [done|by do 3 right|done|..].
       - intros n Hn. eexists. split; [reflexivity|]. exact (stat_reply_ok n _ Hn (selected_id_shape n Hn)).
       - intros m Hm. eexists. split; [reflexivity|]. exact (stat_reply_ok 0 m zero_number Hm). }
  all: eexists; (split; [reflexivity|]).
  all: lazymatch goal with
  | |- reply_ok RequestKind.ListActive _ => apply list_active_ok
  | |- reply_ok RequestKind.ListActiveTimes _ => apply list_active_times_ok
  | |- reply_ok RequestKind.ListNewsgroups _ => apply list_newsgroups_ok
  | |- reply_ok RequestKind.Group _ => apply group_args_ok
  | |- reply_ok RequestKind.ListGroup _ => apply listgroup_reply_ok
  | |- reply_ok RequestKind.Date _ => by apply date_reply_ok
  | |- reply_ok RequestKind.Over _ => apply over_ok
  | |- reply_ok RequestKind.Xover _ => apply xover_ok
  | |- reply_ok RequestKind.Hdr _ => apply hdr_ok
  | |- reply_ok RequestKind.Xhdr _ => apply xhdr_ok
  | |- reply_ok RequestKind.NewGroups _ => exact (newgroups_ok false)
  | |- reply_ok RequestKind.NewNews _ => apply newnews_ok
  | |- reply_ok RequestKind.Unknown _ => apply unknown_replies_ok
  | |- reply_ok RequestKind.Last _ => fixed_reply
  | |- reply_ok RequestKind.Next _ => fixed_reply
  | |- reply_ok ?kind _ => apply (constant_reply_ok kind); reflexivity
  end.
Qed.
End fixture.

(** ** Lines that a session reads as the parser does *)

(** No white space before the end of the line, and not too long for a session. *)
Definition tidy (line : bytes) : Prop :=
  (length line <= MAX_COMMAND_LINE_BYTES)%nat /\ command_line_is_too_long line = false
  /\ exists l, strip_complete_crlf_line line = Some l /\ strip_command_eol_ws l = l.

Lemma tidy_args line command lines :
  reads_line line command lines -> pc_kind command <> RequestKind.Unknown -> tidy line ->
  default [] (command_args command (Some lines)) = args (parse line).
Proof.
  intros [Hk _ _ Hline] Hu (_ & _ & l & Hl & Htidy). rewrite Hk in Hu.
  destruct (parse_known _ Hu) as (l' & Hl' & _ & Hp). rewrite Hl in Hl'. injection Hl' as <-.
  destruct (split_verb_args (strip_command_eol_ws l)) as [v a] eqn:Es. rewrite Hp, Htidy in *. cbn [args].
  unfold command_args. cbn [mbind option_bind]. rewrite Hline. cbn [mbind option_bind].
  unfold line_content. rewrite Hl. cbn [default from_option id]. unfold split_verb_args in Es.
  destruct (position is_command_ws l) as [k|] eqn:Ek; cbn [default from_option id mbind option_bind] in *.
  - rewrite (proj2 (Nat.ltb_lt _ _)) in Es by (by eapply position_lt). by injection Es as _ <-.
  - rewrite Nat.ltb_irrefl in Es. by injection Es as _ <-.
Qed.

Lemma keyword_not_space l b : In b l -> is_ascii_whitespace b = true -> is_ok (validate_keyword l) = false.
Proof.
  intros Hin Hb. assert (Hk : is_ascii_alphabetic b = false /\ keyword_byte b = false).
  { unfold is_ascii_whitespace in Hb. repeat (apply orb_true_iff in Hb as [Hb|Hb]); apply Z.eqb_eq in Hb; by subst b. }
  destruct l as [|x l]; [done|]. cbn [validate_keyword]. destruct Hin as [->|Hin]; [by rewrite (proj1 Hk)|].
  destruct (is_ascii_alphabetic x); [|done]. cbn [negb]. destruct (_ <? 2)%nat; [done|].
  destruct (forallb keyword_byte l) eqn:E; [|done]. rewrite forallb_forall in E. specialize (E b Hin).
  by rewrite (proj2 Hk) in E.
Qed.

(** A line with spaces where none may be is no generic command. *)
Lemma bad_spacing_not_generic l : command_spacing_is_invalid l = true -> validate_ascii_token l validate_keyword = false.
Proof.
  intros H. unfold validate_ascii_token, utf8_and. destruct (from_utf8 l); [|done].
  unfold command_spacing_is_invalid in H. destruct l as [|b l]; [done|]. cbn [length Nat.eqb orb] in H.
  apply orb_true_iff in H as [H|H].
  - apply (keyword_not_space _ b); [by left|]. unfold is_command_ws, SP, HT in H. unfold is_ascii_whitespace.
    apply orb_true_iff in H as [->| ->]; [by rewrite orb_true_r|done].
  - apply existsb_exists in H as (x & Hx & [Hw _]%andb_true_iff). by apply (keyword_not_space _ x).
Qed.

Lemma no_break_no_line v : Forall (fun b => is_ascii_whitespace b = false) v -> line_content v = v.
Proof.
  intros Hv. unfold line_content. destruct (strip_complete_crlf_line v) as [l|] eqn:E; [|done].
  apply strip_complete_line in E. subst v. apply Forall_app in Hv as [_ Hv]. apply Forall_cons_1 in Hv as [Hv _]. done.
Qed.

Lemma command_ws_ascii b : is_command_ws b = true -> is_ascii_whitespace b = true.
Proof. by intros [H|H]%orb_true_iff; apply Z.eqb_eq in H; subst b. Qed.

Lemma position_ext {A} (p q : A -> bool) l : Forall (fun x => p x = q x) l -> position p l = position q l.
Proof. induction 1 as [|x l Hx _ IH]; [done|]. cbn [position]. by rewrite Hx, IH. Qed.

Lemma take_before_position (p : Z -> bool) l :
  Forall (fun b => p b = false) (take (default (length l) (position p l)) l).
Proof.
  destruct (position p l) as [k|] eqn:E; cbn [default from_option id].
  - apply position_Some in E as (l1 & x & l2 & -> & <- & _ & H). by rewrite take_app_length.
  - rewrite take_ge by done. by apply position_None.
Qed.

(** In a line with proper spaces both notions of a verb agree. *)
Lemma verb_of_line l : command_spacing_is_invalid l = false ->
  line_verb l = fst (split_verb_args l) /\ Forall (fun b => is_ascii_whitespace b = false) (fst (split_verb_args l)).
Proof.
  intros [_ H]%orb_false_iff.
  assert (Hws : position is_ascii_whitespace l = position is_command_ws l).
  { apply position_ext. apply existsb_false_Forall in H. eapply Forall_impl; [|exact H]. cbn beta. intros b Hb.
    destruct (is_command_ws b) eqn:Ec; [by apply command_ws_ascii|]. by rewrite andb_true_r in Hb. }
  unfold line_verb, split_verb_args. cbn [fst]. rewrite <- Hws. split; [done|]. apply take_before_position.
Qed.

Lemma known_verb l : command_spacing_is_invalid l = false -> strip_complete_crlf_line l = None ->
  is_known_command_line (fst (split_verb_args l)) = is_known_command_line l.
Proof.
  intros Hs Hn. destruct (verb_of_line l Hs) as [Hv Hw]. unfold is_known_command_line.
  rewrite (no_break_no_line _ Hw), <- Hv. unfold line_content. rewrite Hn. cbn [default from_option id].
  f_equal. f_equal. rewrite Hv. unfold line_verb. rewrite (proj2 (position_None _ _)) by done. by rewrite take_ge by done.
Qed.

Lemma content_no_line line l : strip_complete_crlf_line line = Some l -> strip_complete_crlf_line l = None.
Proof.
  intros Hl. assert (Hp : Forall plain l).
  { pose proof (strip_complete_line _ _ Hl) as E. unfold strip_complete_crlf_line in Hl.
    destruct (detect_response_line_end line) as [e| |] eqn:Ed; [|done..].
    apply detect_line_complete_inv in Ed as (k & rest & -> & Hk & ->).
    destruct (_ =? _)%nat eqn:He; [|done]. apply Nat.eqb_eq in He. rewrite !length_app in He. cbn in He.
    destruct rest; [|cbn in He; lia]. rewrite app_nil_r in E. by apply app_inv_tail in E as <-. }
  destruct (strip_complete_crlf_line l) as [l'|] eqn:E; [|done]. apply strip_complete_line in E. subst l.
  apply Forall_app in Hp as [_ Hp]. apply Forall_cons_1 in Hp as [[Hcr _] _]. by destruct Hcr.
Qed.

(** [is_known_request_syntax_error] of the request is the verdict a session keeps. *)
Lemma syntax_error_agrees line :
  tidy line ->
  is_known_request_syntax_error (parse line)
  = RequestKind.eqb (rl_kind (parse line)) RequestKind.Unknown
    && (is_known_command_line line || negb (command_line_has_valid_generic_syntax line)).
Proof.
  intros (Hlen & _ & l & Hl & Hl'). unfold is_known_request_syntax_error. f_equal.
  assert (Hk : is_known_command_line line = is_known_command_line l).
  { unfold is_known_command_line, line_content. by rewrite Hl, (content_no_line _ _ Hl). }
  rewrite Hk. unfold parse, command_line_has_valid_generic_syntax, request_line_has_valid_generic_command_syntax.
  unfold MAX_COMMAND_LINE_BYTES in Hlen. rewrite (proj2 (Nat.ltb_ge _ _)) by done. rewrite Hl, Hl'.
  destruct (command_spacing_is_invalid l) eqn:Hs; cbn [verb args].
  - by rewrite (bad_spacing_not_generic _ Hs), !orb_true_r.
  - pose proof (known_verb l Hs (content_no_line _ _ Hl)) as Hv.
    destruct (split_verb_args l) as [v a]. cbn [fst] in Hv. cbn zeta. destruct (_ && _); cbn [verb args]; by rewrite Hv.
Qed.

(** ** The same request in a session *)

(** What GROUP alt.test leaves. *)
Definition alt_test_selected : SessionState :=
  select_group (Fixture FixtureGroup.AltTest) (FixtureGroup.first_article FixtureGroup.AltTest).

(** The requests to which a session's answer is not about what is selected, nor
    about an article that is called missing, nor about the future. *)
Definition stateless `{Fs : !FileSystem} (config : ServerConfig) (command : ParsedCommand) (lines : CommandLineBatch)
    (now : Z) : Prop :=
  let args := args_of command (Some lines) in
  match pc_kind command with
  | RequestKind.Article => article_selector_error config command (Some lines) alt_test_selected true = Some None
  | RequestKind.Head | RequestKind.Stat | RequestKind.Body =>
      article_selector_error config command (Some lines) alt_test_selected true = Some None
      /\ forall m, message_id_of command (Some lines) = Some m -> contains_subslice m (lit "missing") = false
  | RequestKind.Last | RequestKind.Next => False
  | RequestKind.NewGroups =>
      is_some_and (newgroups_datetime_key args now) (fun datetime => FAR_FUTURE_DATETIME_KEY <=? datetime) = false
  | RequestKind.Over | RequestKind.Xover =>
      overview_selector_error command (Some lines) alt_test_selected None = None /\ args <> []
  | RequestKind.Hdr | RequestKind.Xhdr =>
      overview_selector_error command (Some lines) alt_test_selected None = None
      /\ current_header_args args (Some 1) = None
  | _ => True
  end.

Section session.
Context {W : Type} `{Aw : !AsyncWrite W, As : !AsyncWriteSpec W}.
Context `{Sk : !ServerSocket W, Ss : !ServerSocketSpec W}.
Context `{Mc : !Memchr, Ms : !MemchrSpec, Fs : !FileSystem}.
Context (find_end : bytes -> option nat) (config : ServerConfig).
Hypotheses (Hconfig : config_ok config) (Hdir : article_dir config = None)
  (Hindex : article_index config = None).
Hypothesis Hsocket : reliable_socket (W := W).

Local Abbreviation wp := (wp (W := W) False (fun _ => True)).

Lemma always_covers (data : bytes) : covers (fun _ => True) data.
Proof. done. Qed.

(** The command has been counted and the session is as it was. *)
Record counted_in (s : Session W) (now : Z) (s1 : Session W) : Prop := {
  ci_progress : progress s 1 [] s1;
  ci_state : se_state s1 = alt_test_selected;
  ci_clock : se_clock s1 0%nat = now;
}.

Definition answers_with (s : Session W) (r : bytes) (close closed : bool) (s' : Session W) : Prop :=
  closed = close /\ progress s 1 r s'.

Lemma counted_in_count s now s1 a b :
  counted_in s now s1 ->
  counted_in s now (with_stats s1 (add_stats (se_stats s1)
    {| st_commands := 0; st_pipeline_batches := 0; st_article_requests := a; st_body_requests := b; st_bytes_sent := 0 |})).
Proof. intros [[H1 H2 H3 H4] Hs Hc]. split; [split|done|done]; cbn in *; try done; lia. Qed.

(** A reply, whatever was done to the state before it. *)
Lemma wp_answer s s1 r : r <> [] -> progress s 1 [] s1 -> wp (respond r) (answers_with s r false) s1.
Proof.
  intros Hr Hp. apply (wp_respond _ _ (or_intror Hsocket)); [done|apply always_covers|].
  intros s' Hp' _. split; [done|]. exact (progress_trans _ _ _ _ _ _ _ Hp Hp').
Qed.

Lemma wp_last_answer s s1 r :
  r <> [] -> progress s 1 [] s1 -> wp (write_response r ;; mret true) (answers_with s r true) s1.
Proof.
  intros Hr Hp. apply wp_bind, (wp_write_response _ _ (or_intror Hsocket)); [done|apply always_covers|].
  intros s' Hp' _. apply (wp_ret False (fun _ => True)). split; [done|]. exact (progress_trans _ _ _ _ _ _ _ Hp Hp').
Qed.

Lemma progress_set_state s n r s1 st : progress s n r s1 -> progress s n r (with_state s1 st).
Proof. by intros [H1 H2 H3 H4]. Qed.

Lemma wp_selected s now s1 command lines next Q :
  counted_in s now s1 -> article_selector_error config command (Some lines) alt_test_selected true = Some None ->
  wp (next alt_test_selected) Q s1 -> wp (or_selector_error config command (Some lines) next) Q s1.
Proof.
  intros Hs He Hn. unfold or_selector_error. apply wp_bind, wp_get_state. rewrite (ci_state _ _ _ Hs).
  apply wp_bind. by eapply wp_or_panic.
Qed.

(** What the selector is, and the session sees the same. *)
Lemma selector_of line command lines :
  reads_line line command lines -> article_kind (pc_kind command) ->
  message_id_of command (Some lines) = request_line_message_id (parse line)
  /\ default 1 (option_or (pc_article_id command) (Some 1)) = default 1 (parse_article_id_arg (args (parse line))).
Proof.
  intros Hr Hk. destruct (command_message_id_request _ _ _ Hr Hk) as [E Hm].
  split; [unfold message_id_of; cbn [mbind option_bind]; by rewrite Hm|].
  rewrite (rd_article_id _ _ _ Hr). by destruct (parse_article_id_arg _).
Qed.

(** The slices ARTICLE by message-id is written in are the response built for it. *)
Lemma message_id_slices m r :
  build_message_id_article_response_into m config = Some r ->
  exists p, article_payload_for_header config (length (article_header 0 m)) = Some p
    /\ r = article_header 0 m ++ p ++ DOT_TERMINATOR.
Proof using Hconfig.
  unfold build_message_id_article_response_into, build_article_response_into. fold (article_header 0 m).
  unfold article_payload_for_header.
  destruct (co_article_cuts config Hconfig (length (article_header 0 m))) as (p & -> & Ht).
  cbn [mbind option_bind]. intros E. exists p. split; [done|]. apply (inj Some) in E. subst r.
  apply dot_terminated; [|done]. rewrite article_header_split, !app_assoc. apply ends_with_app.
Qed.

Lemma session_article line command lines s now s1 r :
  reads_line line command lines -> pc_kind command = RequestKind.Article -> counted_in s now s1 ->
  stateless config command lines now -> r <> [] ->
  part_reply (article_response config)
    (build_selected_article_response_into (default 1 (parse_article_id_arg (args (parse line)))) config)
    (build_message_id_article_response_into (default [] (request_line_message_id (parse line))) config) (parse line)
    = Some r ->
  wp (handle_article find_end config command (Some lines)) (answers_with s r false) s1.
Proof.
  intros Hr Hk Hs He Hne Hrep. unfold stateless in He. rewrite Hk in He. unfold handle_article. apply wp_bind, wp_count.
  apply (counted_in_count _ _ _ 1 0) in Hs. revert Hs. generalize (with_stats s1
    (add_stats (se_stats s1) {| st_commands := 0; st_pipeline_batches := 0; st_article_requests := 1;
       st_body_requests := 0; st_bytes_sent := 0 |})). clear s1. intros s1 Hs.
  eapply wp_selected; [exact Hs|exact He|]. cbn zeta.
  assert (Hak : article_kind (pc_kind command)) by by left.
  destruct (selector_of _ _ _ Hr Hak) as [-> Hn]. rewrite no_dir by done. unfold part_reply in Hrep.
  destruct (request_line_message_id (parse line)) as [m|]; cbn [default from_option id] in Hrep.
  - apply message_id_slices in Hrep as (p & Hp & ->).
    apply wp_bind. apply (wp_message_id_slices config False _ (or_intror Hsocket) s1 m p); [done|apply always_covers|].
    intros s' Hp' _. apply wp_ret. split; [done|]. exact (progress_trans _ _ _ _ _ _ _ (ci_progress _ _ _ Hs) Hp').
  - change (ss_current_article alt_test_selected) with (Some 1). rewrite Hn. apply wp_bind.
    unfold SessionLogic.wp at 1, set_current. destruct (_ =? 1).
    + apply (inj Some) in Hrep. subst r. apply wp_answer; [done|]. by destruct Hs as [[H1 H2 H3 H4] _ _].
    + apply wp_bind. eapply wp_or_panic; [exact Hrep|]. apply wp_answer; [done|]. by destruct Hs as [[H1 H2 H3 H4] _ _].
Qed.

Lemma session_part kind counted first_response selected by_message_id line command lines s now s1 r a b :
  counted = count 0 0 a b 0 -> article_kind kind -> reads_line line command lines -> pc_kind command = kind ->
  counted_in s now s1 ->
  article_selector_error config command (Some lines) alt_test_selected true = Some None ->
  (forall m, message_id_of command (Some lines) = Some m -> contains_subslice m (lit "missing") = false) ->
  r <> [] ->
  part_reply first_response (selected (default 1 (parse_article_id_arg (args (parse line)))))
    (by_message_id (default [] (request_line_message_id (parse line)))) (parse line) = Some r ->
  wp (handle_article_part find_end config kind counted first_response selected by_message_id command (Some lines))
    (answers_with s r false) s1.
Proof.
  intros -> Hak Hr Hk Hs He Hmiss Hne Hrep. unfold handle_article_part. apply wp_bind, wp_count.
  apply (counted_in_count _ _ _ a b) in Hs. revert Hs. generalize (with_stats s1
    (add_stats (se_stats s1) {| st_commands := 0; st_pipeline_batches := 0; st_article_requests := a;
       st_body_requests := b; st_bytes_sent := 0 |})). clear s1. intros s1 Hs.
  eapply wp_selected; [exact Hs|exact He|]. rewrite <- Hk in Hak.
  destruct (selector_of _ _ _ Hr Hak) as [Em Hn]. rewrite Em in *. unfold part_reply in Hrep.
  destruct (request_line_message_id (parse line)) as [m|]; cbn [default from_option id] in Hrep.
  - apply wp_bind, no_stored; [done|]. cbn iota. rewrite no_dir by done. rewrite (Hmiss m eq_refl).
    apply wp_bind. eapply wp_or_panic; [exact Hrep|]. apply wp_answer; [done|]. apply Hs.
  - change (ss_current_article alt_test_selected) with (Some 1). cbn zeta. rewrite Hn. apply wp_bind.
    unfold SessionLogic.wp at 1, set_current. apply wp_bind, no_stored; [done|]. cbn iota.
    apply wp_bind. eapply wp_or_panic; [exact Hrep|]. apply wp_bind.
    apply (wp_write_response _ _ (or_intror Hsocket)); [done|apply always_covers|]. intros s' Hp' _.
    apply wp_bind. unfold SessionLogic.wp, set_current. apply (wp_ret False (fun _ => True)). split; [done|].
    apply progress_set_state. eapply (progress_trans _ 1 [] _ 0 r); [|exact Hp']. apply progress_set_state, Hs.
Qed.

Lemma session_listing s now s1 indexed fixture :
  fixture <> [] -> counted_in s now s1 ->
  wp (respond_listing config indexed fixture) (answers_with s fixture false) s1.
Proof. intros Hne Hs. unfold respond_listing. rewrite Hindex. apply wp_answer; [done|]. apply Hs. Qed.

Lemma wp_clock s now s1 Q :
  counted_in s now s1 -> (forall s2, progress s 1 [] s2 -> Q now s2) -> wp read_clock Q s1.
Proof.
  intros Hs HQ. unfold SessionLogic.wp, read_clock. rewrite (ci_clock _ _ _ Hs). apply HQ.
  by destruct Hs as [[H1 H2 H3 H4] _ _].
Qed.

Lemma session_clocked s now s1 (indexed : Z -> bytes -> ArticleStoreIndex -> bytes) (fixture : Z -> bytes) :
  fixture now <> [] -> counted_in s now s1 ->
  wp (now ← read_clock; respond_listing config (indexed now) (fixture now)) (answers_with s (fixture now) false) s1.
Proof.
  intros Hne Hs. apply wp_bind. eapply wp_clock; [exact Hs|]. intros s2 Hp. unfold respond_listing. rewrite Hindex.
  by apply wp_answer.
Qed.

Lemma session_group s now s1 command lines :
  group_response_for_args (args_of command (Some lines)) <> [] -> counted_in s now s1 ->
  wp (handle_group config command (Some lines))
    (answers_with s (group_response_for_args (args_of command (Some lines))) false) s1.
Proof.
  intros Hne Hs. unfold handle_group, group_response_for_args in *. rewrite Hindex.
  destruct (fixture_group_from_name _) as [group|].
  - apply wp_bind. unfold SessionLogic.wp at 1, set_state. apply wp_answer; [done|]. apply progress_set_state, Hs.
  - apply wp_answer; [done|]. apply Hs.
Qed.

(** With alt.test selected the listing is the one without a group. *)
Lemma listgroup_alt_test args :
  listgroup_response_for_args args
    (Some (default FixtureGroup.AltTest (listgroup_selected_group args (Some FixtureGroup.AltTest))))
  = listgroup_response_for_args args None.
Proof.
  unfold listgroup_response_for_args, listgroup_selected_group.
  destruct (listgroup_explicit_group_arg args) as [g|]; [|reflexivity]. cbn [mbind option_bind].
  destruct (fixture_group_from_name g); reflexivity.
Qed.

Lemma listgroup_error_alike args :
  listgroup_state_error args alt_test_selected
  = if is_some_and (listgroup_explicit_group_arg args)
         (fun group => match fixture_group_from_name group with None => true | Some _ => false end)
    then Some (listgroup_response_for_args args None) else None.
Proof.
  unfold listgroup_state_error, listgroup_response_for_args. cbn [ss_group_selected alt_test_selected select_group negb andb].
  destruct (listgroup_explicit_group_arg args) as [g|]; cbn [is_some_and]; [|reflexivity].
  destruct (fixture_group_from_name g); reflexivity.
Qed.

Lemma session_listgroup s now s1 command lines :
  listgroup_response_for_args (args_of command (Some lines)) None <> [] -> counted_in s now s1 ->
  wp (handle_listgroup config command (Some lines))
    (answers_with s (listgroup_response_for_args (args_of command (Some lines)) None) false) s1.
Proof.
  unfold handle_listgroup. cbn zeta. generalize (args_of command (Some lines)). intros args Hne Hs.
  apply wp_bind, wp_get_state. rewrite (ci_state _ _ _ Hs), listgroup_error_alike.
  destruct (is_some_and _ _); [apply wp_answer; [done|apply Hs]|]. rewrite Hindex.
  change (selected_fixture alt_test_selected) with (Some FixtureGroup.AltTest). rewrite listgroup_alt_test.
  apply wp_bind. unfold SessionLogic.wp at 1, set_state. apply wp_answer; [done|]. apply progress_set_state, Hs.
Qed.

Lemma session_overview s now s1 indexed fixture command lines r :
  overview_selector_error command (Some lines) alt_test_selected None = None ->
  fixture (args_of command (Some lines)) alt_test_selected = r -> r <> [] -> counted_in s now s1 ->
  wp (handle_overview config indexed fixture command (Some lines)) (answers_with s r false) s1.
Proof.
  intros He <- Hne Hs. unfold handle_overview. apply wp_bind, wp_get_state. rewrite (ci_state _ _ _ Hs), Hindex, He.
  apply wp_answer; [done|]. apply Hs.
Qed.

Lemma given_overview_args args current : args <> [] -> default args (current_overview_args args current) = args.
Proof. unfold current_overview_args. by destruct args. Qed.

Lemma session_unknown s now s1 line slot r :
  tidy line -> rl_kind (parse line) = RequestKind.Unknown -> r <> [] -> counted_in s now s1 ->
  fixture_reply config (parse line) now = Some r ->
  wp (handle_unknown (parse_command_line line slot)) (answers_with s r false) s1.
Proof.
  intros Ht Hk Hne Hs. unfold fixture_reply. rewrite Hk, (syntax_error_agrees line Ht), Hk.
  rewrite parse_command_line_request. unfold handle_unknown, parse_request_command.
  cbn [pc_syntax_error pc_line_too_long pc_authinfo_sasl_base64_error RequestKind.eqb andb]. rewrite Hk.
  destruct Ht as (_ & -> & _). intros E. apply (inj Some) in E. subst r.
  change (RequestKind.eqb RequestKind.Unknown RequestKind.Unknown) with true. cbn [andb].
  apply wp_answer; [done|apply Hs].
Qed.

Lemma session_command line slot lines s now r :
  let command := parse_command_line line slot in
  reads_line line command lines -> tidy line -> stateless config command lines now ->
  se_state s = alt_test_selected -> se_clock s 0%nat = now -> r <> [] ->
  fixture_reply config (parse line) now = Some r ->
  wp (handle_command find_end config command (Some lines)) (answers_with s r (closes (rl_kind (parse line)))) s.
Proof.
  intros command Hr Ht Hst Hs Hc Hne E. assert (Hcmd : command = parse_command_line line slot) by done.
  clearbody command. pose proof (rd_kind _ _ _ Hr) as Hkind.
  assert (Hargs : rl_kind (parse line) <> RequestKind.Unknown -> args (parse line) = args_of command (Some lines)).
  { intros Hu. symmetry. apply tidy_args; [done|by rewrite Hkind|done]. }
  unfold handle_command. apply wp_bind, wp_count.
  assert (Hs1 : counted_in s now (with_stats s (add_stats (se_stats s)
    {| st_commands := 1; st_pipeline_batches := 0; st_article_requests := 0; st_body_requests := 0; st_bytes_sent := 0 |}))).
  { split; [|done|done]. split; [unfold out; by rewrite app_nil_r|done|cbn; lia|done]. }
  revert Hs1. generalize (with_stats s (add_stats (se_stats s)
    {| st_commands := 1; st_pipeline_batches := 0; st_article_requests := 0; st_body_requests := 0;
       st_bytes_sent := 0 |})). intros s1 Hs1. pose proof (ci_progress _ _ _ Hs1) as Hp.
  pose proof Hst as Hst'. unfold stateless in Hst'. cbn zeta in Hst'. pose proof E as E'. unfold fixture_reply in E'.
  cbn zeta in E'. rewrite Hkind in *.
  destruct (rl_kind (parse line)) eqn:Hk; try (specialize (Hargs ltac:(discriminate))); cbn [closes] in *.
  1: { by eapply session_article. }
  1: { destruct Hst' as [He Hm]. apply (session_part RequestKind.Body _ _
         (fun n => build_selected_body_response_into n config) (fun m => build_message_id_body_response_into m config)
         line command lines s now s1 r 0 1); [done|by right; right; left|done..]. }
  1: { destruct Hst' as [He Hm]. apply (session_part RequestKind.Head _ _
         (fun n => Some (build_selected_head_response_into n)) (fun m => Some (build_message_id_head_response_into m))
         line command lines s now s1 r 1 0); [done|by right; left|done..]. }
  1: { destruct Hst' as [He Hm]. apply (session_part RequestKind.Stat _ _
         (fun n => Some (build_selected_stat_response_into n)) (fun m => Some (build_message_id_stat_response_into m))
         line command lines s now s1 r 1 0); [done|by do 3 right|done..]. }
  32: { rewrite Hcmd. by eapply session_unknown. }
  all: try rewrite Hargs in E'; apply (inj Some) in E'; subst r.
  all: try (apply wp_answer; [exact Hne|exact Hp]).
  - by eapply session_listing.
  - by eapply session_listing.
  - by eapply session_listing.
  - by eapply session_group.
  - by eapply session_listgroup.
  - done.
  - done.
  - unfold handle_date. apply wp_bind. eapply wp_clock; [exact Hs1|]. intros s2 Hp2. by apply wp_answer.
  - destruct Hst' as [He Ha]. eapply session_overview; [exact He| |exact Hne|exact Hs1].
    unfold over_response. by rewrite given_overview_args.
  - destruct Hst' as [He Ha]. eapply session_overview; [exact He| |exact Hne|exact Hs1].
    unfold xover_response. by rewrite given_overview_args.
  - destruct Hst' as [He Ha]. eapply session_overview; [exact He| |exact Hne|exact Hs1].
    unfold hdr_response. change (ss_current_article alt_test_selected) with (Some 1). by rewrite Ha.
  - destruct Hst' as [He Ha]. eapply session_overview; [exact He| |exact Hne|exact Hs1].
    unfold xhdr_response. change (ss_current_article alt_test_selected) with (Some 1). by rewrite Ha.
  - unfold handle_newgroups. cbn zeta. apply wp_bind. eapply wp_clock; [exact Hs1|]. intros s2 Hp2.
    unfold respond_listing. rewrite Hindex, Hst'. by apply wp_answer.
  - unfold handle_newnews. cbn zeta. apply wp_bind. eapply wp_clock; [exact Hs1|]. intros s2 Hp2.
    unfold respond_listing. rewrite Hindex. by apply wp_answer.
  - by apply wp_last_answer.
Qed.
End session.

(** C37: on a fixture server every parsed request is answered in the buffer with
    one whole response to it, counted, and only QUIT ends the requests; a session
    over a socket that does not fail that has just selected alt.test sends the
    same bytes for the same line and counts them the same.  The clock is within
    the calendar; for the session, the line ends with CRLF and no white space
    before it, is not too long, and asks for nothing that the buffer answers in
    another way ([stateless]): not LAST or NEXT; not an article that the session
    refuses to select; not HEAD, STAT or BODY of a message-id that contains
    [missing]; not NEWGROUPS since the end of the year 9999; not OVER, XOVER, HDR
    or XHDR that the session refuses or that is about the current article. *)
Theorem buffered_requests_agree {W : Type} `{Aw : !AsyncWrite W, As : !AsyncWriteSpec W}
    `{Sk : !ServerSocket W, Ss : !ServerSocketSpec W} `{Mc : !Memchr, Ms : !MemchrSpec, Fs : !FileSystem}
    find_end encode_stream (args : ServerArgs) (config : ServerConfig) (line : bytes) (now : Z) (b : Buffered) :
  fixture_server find_end encode_stream args config -> time_ok now ->
  let kind := rl_kind (parse line) in
  exists r b', process_request_to_buffer find_end config (parse line) now b = Some (closes kind, b')
    /\ reply_ok kind r /\ bf_output b' = bf_output b ++ r
    /\ st_commands (bf_stats b') = st_commands (bf_stats b) + 1
    /\ st_bytes_sent (bf_stats b') = st_bytes_sent (bf_stats b) + Z.of_nat (length r)
    /\ forall (s : Session W) slot lines,
         let command := parse_command_line line slot in
         reliable_socket (W := W) -> se_state s = alt_test_selected -> se_clock s 0%nat = now ->
         reads_line line command lines -> tidy line -> stateless config command lines now ->
         exists s', handle_command find_end config command (Some lines) s = (Ok (closes kind), s')
           /\ out s' = out s ++ r
           /\ st_commands (se_stats s') = st_commands (se_stats s) + 1
           /\ st_bytes_sent (se_stats s') = st_bytes_sent (se_stats s) + Z.of_nat (length r).
Proof.
  intros Hfix Hnow kind. destruct (fixture_built _ _ _ _ Hfix) as (Hc & Hd & Hi).
  destruct (fixture_reply_ok config Hc line now Hnow) as (r & Hr & Hok).
  destruct (process_fixture find_end config Hd Hi (parse line) now r b Hr) as (b' & E & Ho & Hn & Hb).
  exists r, b'. repeat (split; [done|]). intros s slot lines command Hsock Hs Hclock Hread Htidy Hstate.
  pose proof (session_command find_end config Hc Hd Hi Hsock line slot lines s now r Hread Htidy Hstate Hs Hclock
    (reply_ok_ne _ _ Hok) Hr) as H. unfold wp in H. fold command in H.
  destruct (handle_command find_end config command (Some lines) s) as [[closed|[e|]] s']; [|by destruct H|done].
  destruct H as [-> [H1 H2 H3 _]]. by exists s'.
Qed.

(** * Requests run *)

Definition empty_buffer : Buffered := {| bf_stats := session_stats_default; bf_response := []; bf_output := [] |}.
Definition head_line : bytes := bstr "HEAD <a@b>\r\n".
Definition head_lines : CommandLineBatch := copy_line command_lines_empty 0 head_line.

Definition alt_test_session : Session VecSink :=
  with_state (session_new {| vs_buf := [] |} 256 sample_clock) alt_test_selected.

(** What a line puts out, in the buffer and in a session that selected alt.test. *)
Definition in_buffer (line : bytes) : option bytes :=
  bf_output <$> (snd <$> process_request_to_buffer (Mc := naive_memchr) find_streaming_terminator_end sample_config
    (parse line) (sample_clock 0) empty_buffer).
Definition in_session (line : bytes) : bytes :=
  out (snd (handle_command (Mc := naive_memchr) find_streaming_terminator_end sample_config (parse_command_line line 0)
    (Some (copy_line command_lines_empty 0 line)) alt_test_session)).

Lemma tidy_head : tidy head_line.
Proof.
  split; [apply Nat.leb_le; vm_compute; reflexivity|]. split; [vm_compute; reflexivity|].
  exists (lit "HEAD <a@b>"). split; vm_compute; reflexivity.
Qed.

Lemma head_reads : reads_line head_line (parse_command_line head_line 0) head_lines.
Proof. split; vm_compute; reflexivity. Qed.

Lemma head_stateless : stateless sample_config (parse_command_line head_line 0) head_lines (sample_clock 0).
Proof.
  assert (E : pc_kind (parse_command_line head_line 0) = RequestKind.Head) by (vm_compute; reflexivity).
  assert (He : article_selector_error sample_config (parse_command_line head_line 0) (Some head_lines) alt_test_selected true
    = Some None) by (vm_compute; reflexivity).
  assert (Hm : message_id_of (parse_command_line head_line 0) (Some head_lines) = Some (lit "<a@b>"))
    by (vm_compute; reflexivity).
  unfold stateless. cbn zeta. rewrite E, Hm. split; [exact He|].
  intros m [= <-]. vm_compute. reflexivity.
Qed.

Lemma buffered_requests_agree_witness :
  exists r, in_buffer head_line = Some r /\ in_session head_line = r /\ reply_ok RequestKind.Head r.
Proof.
  destruct (buffered_requests_agree (Mc := naive_memchr) find_streaming_terminator_end no_yenc sample_args sample_config
    head_line (sample_clock 0) empty_buffer sample_fixture_server (sample_clock_ok 0))
    as (r & b' & E & Hok & Ho & _ & _ & Hs).
  destruct (Hs alt_test_session 0%nat head_lines vec_sink_reliable_socket eq_refl eq_refl head_reads tidy_head
    head_stateless) as (s' & E' & Ho' & _).
  exists r. split; [|split; [|exact Hok]].
  - unfold in_buffer. rewrite E. cbn [fmap option_fmap option_map snd]. rewrite Ho. reflexivity.
  - unfold in_session. fold head_lines. rewrite E'. cbn [snd]. rewrite Ho'. reflexivity.
Defined.

(** A head that is called missing, a date past the calendar, and white space
    before the end of the line. *)
Example answered_differently :
  Forall (fun line => in_buffer line <> Some (in_session line))
    [bstr "HEAD <missing@b>\r\n"; bstr "NEWGROUPS 99991231 235959 GMT\r\n"; bstr "GROUP alt.test \r\n"].
Proof. repeat apply List.Forall_cons; [vm_compute; discriminate..|apply List.Forall_nil]. Qed.
