(* ===== verification/BufferPool.v ===== *)
(** * The pools of buffers of the server ([src/src/lib.rs])

    [PendingWritePool] and [GeneratedResponseBufferPool] are the same code: a
    stack of buffers behind a mutex, of which every session takes one when it
    starts and to which the buffer goes back when its handle is dropped.  The
    buffers are places of a shared store; a handle owns its buffer, writes it and
    may grow it, which moves it to another place. *)
From stdpp Require Import gmap.
From S2P Require Import Prelude.

Local Open Scope nat_scope.
Local Open Scope rust_scope.

(** ** State *)

(** A [Vec] of bytes: where its bytes stand, and how many fit there. *)
Record Buffer : Type := { bu_address : nat; bu_capacity : nat; bu_content : bytes }.

Record Pool : Type := {
  po_capacity : nat;
  po_max_buffers : nat;
  po_buffers : list Buffer;
  po_poisoned : bool;
}.

(** The pool, the handles that are held, and the allocations so far. *)
Record Store : Type := { so_pool : Pool; so_held : gmap nat Buffer; so_allocated : nat }.

Section pool.
(** What [Vec::with_capacity] gives room for: at least what it is asked for. *)
Variable room : nat -> nat.

Definition pool_new (capacity max_buffers : nat) : Pool :=
  {| po_capacity := Nat.max capacity 1; po_max_buffers := Nat.max max_buffers 1; po_buffers := [];
     po_poisoned := false |}.

Definition store_new (capacity max_buffers : nat) : Store :=
  {| so_pool := pool_new capacity max_buffers; so_held := ∅; so_allocated := 0 |}.

Definition with_buffers (pool : Pool) (buffers : list Buffer) : Pool :=
  {| po_capacity := po_capacity pool; po_max_buffers := po_max_buffers pool; po_buffers := buffers;
     po_poisoned := po_poisoned pool |}.

Definition allocate (s : Store) (capacity : nat) : Buffer :=
  {| bu_address := so_allocated s; bu_capacity := room capacity; bu_content := [] |}.

(** [acquire]: the last buffer that came back, or a new one. *)
Definition acquire (s : Store) (handle : nat) : Store :=
  let pool := so_pool s in
  match (if po_poisoned pool then None else list.last (po_buffers pool)) with
  | Some buf =>
      {| so_pool := with_buffers pool (removelast (po_buffers pool)); so_held := <[handle := buf]> (so_held s);
         so_allocated := so_allocated s |}
  | None =>
      {| so_pool := pool; so_held := <[handle := allocate s (po_capacity pool)]> (so_held s);
         so_allocated := S (so_allocated s) |}
  end.

(** [release]: only a buffer of the capacity of the pool, and only while there
    is place; [clear] keeps the capacity. *)
Definition release (pool : Pool) (buf : Buffer) : Pool :=
  if negb (bu_capacity buf =? po_capacity pool) then pool
  else
    let buf := {| bu_address := bu_address buf; bu_capacity := bu_capacity buf; bu_content := [] |} in
    if negb (po_poisoned pool) && (length (po_buffers pool) <? po_max_buffers pool)
    then with_buffers pool (po_buffers pool ++ [buf])
    else pool.

(** [Drop for PendingWrite], [Drop for GeneratedResponseBuffer]. *)
Definition drop_handle (s : Store) (handle : nat) : option Store :=
  buf ← so_held s !! handle;
  Some {| so_pool := release (so_pool s) buf; so_held := delete handle (so_held s); so_allocated := so_allocated s |}.

(** What a handle does with its buffer: other bytes, in place when they fit and
    in a larger one otherwise. *)
Definition write_buffer (s : Store) (handle : nat) (content : bytes) : option Store :=
  buf ← so_held s !! handle;
  if length content <=? bu_capacity buf
  then
    let buf := {| bu_address := bu_address buf; bu_capacity := bu_capacity buf; bu_content := content |} in
    Some {| so_pool := so_pool s; so_held := <[handle := buf]> (so_held s); so_allocated := so_allocated s |}
  else
    let buf := {| bu_address := so_allocated s; bu_capacity := room (length content); bu_content := content |} in
    Some {| so_pool := so_pool s; so_held := <[handle := buf]> (so_held s); so_allocated := S (so_allocated s) |}.

(** A thread that panics under the lock poisons it. *)
Definition poison (s : Store) : Store :=
  let pool := so_pool s in
  {| so_pool := {| po_capacity := po_capacity pool; po_max_buffers := po_max_buffers pool;
                   po_buffers := po_buffers pool; po_poisoned := true |};
     so_held := so_held s; so_allocated := so_allocated s |}.

Inductive Use : Type :=
| Acquire (handle : nat)
| Write (handle : nat) (content : bytes)
| Drop (handle : nat)
| Poison.

(** A handle is new when it is acquired; nothing is done with one that is not held. *)
Definition use_store (use : Use) (s : Store) : option Store :=
  match use with
  | Acquire handle => match so_held s !! handle with None => Some (acquire s handle) | Some _ => None end
  | Write handle content => write_buffer s handle content
  | Drop handle => drop_handle s handle
  | Poison => Some (poison s)
  end.

Fixpoint use_all (uses : list Use) (s : Store) : option Store :=
  match uses with
  | [] => Some s
  | use :: uses => s ← use_store use s; use_all uses s
  end.

(** ** Who owns a buffer *)

Definition held_addresses (held : gmap nat Buffer) : list nat := (fun '(_, buf) => bu_address buf) <$> map_to_list held.

Definition addresses (s : Store) : list nat := (bu_address <$> po_buffers (so_pool s)) ++ held_addresses (so_held s).

Record owned (s : Store) : Prop := {
  ow_once : NoDup (addresses s);
  ow_old : Forall (fun address => address < so_allocated s) (addresses s);
  ow_pooled : Forall (fun buf => bu_content buf = [] /\ bu_capacity buf = po_capacity (so_pool s)) (po_buffers (so_pool s));
  ow_few : length (po_buffers (so_pool s)) <= po_max_buffers (so_pool s);
  ow_fits : map_Forall (fun _ buf => length (bu_content buf) <= bu_capacity buf) (so_held s);
}.

Lemma held_insert held handle buf :
  held !! handle = None -> held_addresses (<[handle := buf]> held) ≡ₚ bu_address buf :: held_addresses held.
Proof. intros H. unfold held_addresses. by rewrite map_to_list_insert. Qed.

Lemma held_delete held handle buf :
  held !! handle = Some buf -> held_addresses held ≡ₚ bu_address buf :: held_addresses (delete handle held).
Proof.
  intros H. rewrite <- (insert_delete_id held handle buf) at 1 by done. apply held_insert, lookup_delete_eq.
Qed.

Lemma held_replace held handle old buf :
  held !! handle = Some old -> held_addresses (<[handle := buf]> held) ≡ₚ bu_address buf :: held_addresses (delete handle held).
Proof. intros H. rewrite <- insert_delete_eq. apply held_insert, lookup_delete_eq. Qed.

Hypothesis Hroom : forall n, n <= room n.

Lemma owned_new capacity max_buffers : owned (store_new capacity max_buffers).
Proof. split; cbn; try done; try constructor; try lia. Qed.

(** The last buffer of the pool, and the others. *)
Lemma pool_last (buffers : list Buffer) buf : list.last buffers = Some buf -> buffers = removelast buffers ++ [buf].
Proof.
  destruct buffers as [|b buffers _] using rev_ind; [done|]. rewrite list.last_snoc. intros [= ->].
  by rewrite removelast_last.
Qed.

Lemma acquire_owned s handle : owned s -> so_held s !! handle = None -> owned (acquire s handle).
Proof.
  intros [H1 H2 H3 H4 H5] Hnew. unfold acquire. destruct (if po_poisoned (so_pool s) then _ else _) as [buf|] eqn:E.
  - assert (Hl : po_buffers (so_pool s) = removelast (po_buffers (so_pool s)) ++ [buf]).
    { apply pool_last. by destruct (po_poisoned _). }
    set (others := removelast (po_buffers (so_pool s))) in *.
    assert (Hp : addresses s ≡ₚ (bu_address <$> others) ++ held_addresses (<[handle := buf]> (so_held s))).
    { unfold addresses. rewrite Hl, fmap_app, <- app_assoc, (held_insert _ _ buf Hnew). done. }
    rewrite Hl in H3, H4. apply Forall_app in H3 as [H3 Hb]. apply Forall_cons_1 in Hb as [[Hc Hcap] _].
    rewrite length_app in H4. split; cbn [so_pool so_held so_allocated with_buffers po_buffers po_capacity po_max_buffers].
    + by rewrite <- Hp.
    + by rewrite <- Hp.
    + done.
    + cbn in H4. lia.
    + apply map_Forall_insert_2; [|done]. rewrite Hc. cbn. lia.
  - assert (Hp : addresses (acquire s handle) ≡ₚ so_allocated s :: addresses s).
    { unfold acquire. rewrite E. unfold addresses. cbn [so_pool so_held]. rewrite (held_insert _ _ _ Hnew).
      cbn [bu_address allocate]. by rewrite Permutation_middle. }
    unfold acquire in Hp. rewrite E in Hp. split; cbn [so_pool so_held so_allocated]; try done.
    + rewrite Hp. constructor; [|done]. intros Hin. rewrite list.Forall_forall in H2. specialize (H2 _ Hin). lia.
    + rewrite Hp. constructor; [lia|]. eapply Forall_impl; [|exact H2]. cbn. lia.
    + apply map_Forall_insert_2; [|done]. cbn. lia.
Qed.

Lemma release_owned s handle s' : owned s -> drop_handle s handle = Some s' -> owned s'.
Proof.
  intros [H1 H2 H3 H4 H5]. unfold drop_handle. intros (buf & Hb & E)%bind_Some. apply (inj Some) in E. subst s'.
  assert (Hp : addresses s ≡ₚ bu_address buf :: (bu_address <$> po_buffers (so_pool s)) ++ held_addresses (delete handle (so_held s))).
  { unfold addresses. by rewrite (held_delete _ _ _ Hb), Permutation_middle. }
  rewrite Hp in H1, H2. assert (Hrest : owned {| so_pool := so_pool s; so_held := delete handle (so_held s);
    so_allocated := so_allocated s |}).
  { split; cbn [so_pool so_held so_allocated]; try done.
    - by apply NoDup_cons_1_2 in H1.
    - by apply Forall_cons_1 in H2 as [_ H2].
    - by apply map_Forall_delete. }
  unfold release. destruct (bu_capacity buf =? po_capacity (so_pool s)) eqn:Ec; [|exact Hrest].
  destruct (negb _ && _) eqn:Ef; [|exact Hrest]. apply Nat.eqb_eq in Ec. apply andb_true_iff in Ef as [_ Ef%Nat.ltb_lt].
  destruct Hrest as [R1 R2 R3 R4 R5]. clear Hp. cbn [negb]. split; cbn [so_pool so_held so_allocated with_buffers po_buffers po_capacity po_max_buffers].
  - unfold addresses. cbn. rewrite fmap_app, <- app_assoc. cbn. by rewrite <- Permutation_middle.
  - unfold addresses. cbn. rewrite fmap_app, <- app_assoc. cbn. by rewrite <- Permutation_middle.
  - apply Forall_app. split; [done|]. by repeat constructor.
  - rewrite length_app. cbn. lia.
  - done.
Qed.

Lemma write_owned s handle content s' : owned s -> write_buffer s handle content = Some s' -> owned s'.
Proof.
  intros [H1 H2 H3 H4 H5]. unfold write_buffer. intros (buf & Hb & E)%bind_Some.
  assert (Hp : addresses s ≡ₚ bu_address buf :: (bu_address <$> po_buffers (so_pool s)) ++ held_addresses (delete handle (so_held s))).
  { unfold addresses. by rewrite (held_delete _ _ _ Hb), Permutation_middle. }
  assert (Hq : forall new allocated, addresses {| so_pool := so_pool s; so_held := <[handle := new]> (so_held s); so_allocated := allocated |}
    ≡ₚ bu_address new :: (bu_address <$> po_buffers (so_pool s)) ++ held_addresses (delete handle (so_held s))).
  { intros new allocated. unfold addresses. cbn [so_pool so_held]. by rewrite (held_replace _ _ _ new Hb), Permutation_middle. }
  destruct (length content <=? bu_capacity buf) eqn:El; apply (inj Some) in E; subst s'.
  - apply Nat.leb_le in El. split; cbn [so_pool so_held so_allocated]; try done.
    + rewrite Hq. cbn [bu_address]. by rewrite <- Hp.
    + rewrite Hq. cbn [bu_address]. by rewrite <- Hp.
    + by apply map_Forall_insert_2.
  - rewrite Hp in H1, H2. apply NoDup_cons_1_2 in H1. apply Forall_cons_1 in H2 as [_ H2].
    split; cbn [so_pool so_held so_allocated]; try done.
    + rewrite Hq. cbn [bu_address]. constructor; [|done]. intros Hin. rewrite list.Forall_forall in H2.
      specialize (H2 _ Hin). lia.
    + rewrite Hq. cbn [bu_address]. constructor; [lia|]. eapply Forall_impl; [|exact H2]. cbn. lia.
    + apply map_Forall_insert_2; [|done]. cbn. apply Hroom.
Qed.

Lemma use_owned use s s' : owned s -> use_store use s = Some s' -> owned s'.
Proof.
  intros Ho E. destruct use as [handle|handle content|handle|]; cbn in E.
  - destruct (so_held s !! handle) eqn:Eh; [done|]. injection E as <-. by apply acquire_owned.
  - by eapply write_owned.
  - by eapply release_owned.
  - injection E as <-. by destruct Ho.
Qed.

Lemma all_owned uses s s' : owned s -> use_all uses s = Some s' -> owned s'.
Proof.
  revert s. induction uses as [|use uses IH]; intros s Ho E; cbn in E; [by injection E as <-|].
  apply bind_Some in E as (s1 & E1 & E). eapply IH; [|exact E]. by eapply use_owned.
Qed.

(** ** Reuse *)

(** The most handles held at one time. *)
Fixpoint peak (uses : list Use) (s : Store) : nat :=
  Nat.max (size (so_held s))
    match uses with
    | [] => 0
    | use :: uses => match use_store use s with Some s => peak uses s | None => 0 end
    end.

(** Bytes that fit the buffers of the pool; and no thread panics under the lock. *)
Definition fitting (capacity : nat) (use : Use) : Prop :=
  match use with Write _ content => length content <= capacity | Poison => False | _ => True end.

Record reused (capacity max_buffers bound : nat) (s : Store) : Prop := {
  ru_capacity : po_capacity (so_pool s) = capacity;
  ru_max : po_max_buffers (so_pool s) = max_buffers;
  ru_sound : po_poisoned (so_pool s) = false;
  ru_held : map_Forall (fun _ buf => bu_capacity buf = capacity) (so_held s);
  ru_all : so_allocated s = length (po_buffers (so_pool s)) + size (so_held s);
  ru_bound : so_allocated s <= bound;
}.

Lemma acquire_reused capacity max_buffers bound s handle :
  room capacity = capacity -> owned s -> reused capacity max_buffers bound s -> so_held s !! handle = None ->
  S (size (so_held s)) <= bound -> reused capacity max_buffers bound (acquire s handle).
Proof.
  intros Hexact Ho [H1 H2 H3 H4 H5 H6] Hnew Hsize. unfold acquire. rewrite H3.
  destruct (list.last (po_buffers (so_pool s))) as [buf|] eqn:El.
  - apply pool_last in El. pose proof (ow_pooled _ Ho) as Hp. rewrite El in Hp, H5.
    apply Forall_app in Hp as [_ Hb]. apply Forall_cons_1 in Hb as [[_ Hb] _]. rewrite length_app in H5. cbn in H5.
    split; cbn [so_pool so_held so_allocated with_buffers po_capacity po_max_buffers po_poisoned po_buffers]; try done.
    + apply map_Forall_insert_2; [congruence|done].
    + rewrite map_size_insert_None by done. lia.
  - assert (En : po_buffers (so_pool s) = []) by (by apply list.last_None). rewrite En in H5. cbn in H5.
    split; cbn [so_pool so_held so_allocated]; try done.
    + apply map_Forall_insert_2; [cbn; congruence|done].
    + rewrite En, map_size_insert_None by done. cbn. lia.
    + lia.
Qed.

Lemma drop_reused capacity max_buffers bound s handle s' :
  bound <= max_buffers -> reused capacity max_buffers bound s -> drop_handle s handle = Some s' ->
  reused capacity max_buffers bound s'.
Proof.
  intros Hmax [H1 H2 H3 H4 H5 H6]. unfold drop_handle. intros (buf & Hb & E)%bind_Some. apply (inj Some) in E. subst s'.
  assert (Hsize : size (so_held s) = S (size (delete handle (so_held s)))).
  { rewrite map_size_delete_Some by (by eexists). assert (size (so_held s) <> 0); [|lia].
    intros E%map_size_empty_inv. by rewrite E, lookup_empty in Hb. }
  unfold release. pose proof (map_Forall_lookup_1 _ _ _ _ H4 Hb) as Hc. cbn beta in Hc. rewrite Hc, H1, Nat.eqb_refl. cbn [negb].
  rewrite H3. cbn [negb andb]. rewrite (proj2 (Nat.ltb_lt _ _)) by lia.
  split; cbn [so_pool so_held so_allocated with_buffers po_capacity po_max_buffers po_poisoned po_buffers]; try done.
  - by apply map_Forall_delete.
  - rewrite length_app. cbn. lia.
Qed.

Lemma reused_step capacity max_buffers bound use s s' :
  room capacity = capacity -> bound <= max_buffers -> owned s -> reused capacity max_buffers bound s ->
  fitting capacity use -> use_store use s = Some s' -> size (so_held s') <= bound ->
  reused capacity max_buffers bound s'.
Proof.
  intros Hexact Hmax Ho Hr Hfit E Hsize. destruct use as [handle|handle content|handle|]; cbn in E; [..|done].
  - destruct (so_held s !! handle) eqn:Eh; [done|]. apply (inj Some) in E. subst s'. apply acquire_reused; try done.
    revert Hsize. unfold acquire. destruct (if po_poisoned _ then _ else _); cbn [so_held]; by rewrite map_size_insert_None.
  - destruct Hr as [H1 H2 H3 H4 H5 H6]. unfold write_buffer in E. apply bind_Some in E as (buf & Hb & E).
    pose proof (map_Forall_lookup_1 _ _ _ _ H4 Hb) as Hc. cbn beta in Hc. cbn in Hfit.
    rewrite (proj2 (Nat.leb_le _ _)) in E by lia. apply (inj Some) in E. subst s'.
    split; cbn [so_pool so_held so_allocated]; try done.
    + by apply map_Forall_insert_2.
    + by rewrite map_size_insert_Some by (by eexists).
  - by eapply drop_reused.
Qed.

Lemma reused_all capacity max_buffers bound uses s s' :
  room capacity = capacity -> bound <= max_buffers -> owned s -> reused capacity max_buffers bound s ->
  Forall (fitting capacity) uses -> use_all uses s = Some s' -> peak uses s <= bound ->
  reused capacity max_buffers bound s'.
Proof.
  intros Hexact Hmax. revert s. induction uses as [|use uses IH]; intros s Ho Hr Hf E Hp; cbn in E; [by injection E as <-|].
  apply bind_Some in E as (s1 & E1 & E). apply Forall_cons_1 in Hf as [Hf1 Hf]. cbn in Hp. rewrite E1 in Hp.
  assert (Hs1 : size (so_held s1) <= peak uses s1) by (destruct uses; cbn; lia).
  apply (IH s1); [by eapply use_owned| |done|done|lia].
  eapply reused_step; [done|exact Hmax|exact Ho|done|exact Hf1|done|lia].
Qed.

Lemma held_apart s i j a b :
  NoDup (addresses s) -> so_held s !! i = Some a -> so_held s !! j = Some b -> i <> j -> bu_address a <> bu_address b.
Proof.
  intros Hn Hi Hj Hne. unfold addresses in Hn. apply list.NoDup_app in Hn as (_ & _ & Hn).
  rewrite (held_delete _ _ _ Hi) in Hn. apply NoDup_cons_1_1 in Hn.
  rewrite (held_delete (delete i (so_held s)) j b) in Hn by (by rewrite lookup_delete_ne).
  intros E. apply Hn. rewrite E. by left.
Qed.

(** What [acquire] hands out. *)
Lemma acquired s handle :
  owned s -> exists buf, so_held (acquire s handle) = <[handle := buf]> (so_held s)
    /\ bu_content buf = [] /\ po_capacity (so_pool s) <= bu_capacity buf.
Proof.
  intros Ho. unfold acquire. destruct (if po_poisoned (so_pool s) then _ else _) as [buf|] eqn:E; cbn [so_held].
  - exists buf. split; [done|]. assert (Hl : list.last (po_buffers (so_pool s)) = Some buf) by by destruct (po_poisoned _).
    apply pool_last in Hl. pose proof (ow_pooled _ Ho) as Hp. rewrite Hl in Hp. apply Forall_app in Hp as [_ Hp].
    apply Forall_cons_1 in Hp as [[Hc ->] _]. by split.
  - eexists. split; [done|]. split; [done|]. apply Hroom.
Qed.

(** C39: no buffer of a pool is in two hands: the places of the buffers in the
    pool and of those that are held differ, whatever the handles wrote, how their
    buffers grew and in what order they were dropped; the pool keeps only empty
    buffers of its capacity, no more than it may; and the next handle gets an
    empty buffer with room for the capacity of the pool that no other handle has. *)
Theorem buffers_owned_once capacity max_buffers uses s handle :
  use_all uses (store_new capacity max_buffers) = Some s -> so_held s !! handle = None ->
  NoDup (addresses s)
  /\ length (po_buffers (so_pool s)) <= po_max_buffers (so_pool s)
  /\ Forall (fun buf => bu_content buf = [] /\ bu_capacity buf = po_capacity (so_pool s)) (po_buffers (so_pool s))
  /\ exists buf, so_held (acquire s handle) !! handle = Some buf
       /\ bu_content buf = [] /\ po_capacity (so_pool s) <= bu_capacity buf
       /\ NoDup (addresses (acquire s handle))
       /\ forall other buf', other <> handle -> so_held s !! other = Some buf' -> bu_address buf' <> bu_address buf.
Proof.
  intros E Hnew. pose proof (all_owned _ _ _ (owned_new _ _) E) as Ho. pose proof (acquire_owned s handle Ho Hnew) as Ha.
  split; [apply Ho|]. split; [apply Ho|]. split; [apply Ho|]. destruct (acquired s handle Ho) as (buf & Eh & Hc & Hr).
  exists buf. rewrite Eh, lookup_insert_eq. repeat (split; [done|]). split; [apply Ha|].
  intros other buf' Hne Hother. apply (held_apart (acquire s handle) other handle); [apply Ha|..|done]; rewrite Eh.
  - by rewrite lookup_insert_ne.
  - apply lookup_insert_eq.
Qed.

(** Where a [Vec] gets the room it asks for, what is written fits the buffers
    and no more handles are held at one time than the pool keeps buffers, every
    buffer that was ever allocated is held or in the pool, and no more were
    allocated than handles were held at one time. *)
Theorem buffers_reused capacity max_buffers uses s :
  let start := store_new capacity max_buffers in
  room (Nat.max capacity 1) = Nat.max capacity 1 -> Forall (fitting (Nat.max capacity 1)) uses ->
  peak uses start <= Nat.max max_buffers 1 -> use_all uses start = Some s ->
  so_allocated s = length (po_buffers (so_pool s)) + size (so_held s) /\ so_allocated s <= peak uses start.
Proof.
  intros start Hexact Hfit Hpeak E.
  destruct (reused_all (Nat.max capacity 1) (Nat.max max_buffers 1) (peak uses start) uses start s) as [];
    [done|done|apply owned_new| |done|done|lia|done].
  split; try done. cbn. lia.
Qed.
End pool.

(** ** Two sessions at a time *)

Definition exact_room (n : nat) : nat := n.

(** The second handle outgrows its buffer, which the pool then does not take. *)
Definition an_hour : list Use :=
  [Acquire 0; Write 0 [65%Z; 66%Z]; Acquire 1; Write 1 (repeat 65%Z 9); Drop 0; Acquire 2; Drop 1; Drop 2].

Definition after_an_hour : Store :=
  default (store_new 8 2) (use_all exact_room an_hour (store_new 8 2)).

Example an_hour_passes :
  use_all exact_room an_hour (store_new 8 2) = Some after_an_hour
  /\ (bu_address <$> po_buffers (so_pool after_an_hour)) = [0] /\ so_allocated after_an_hour = 3.
Proof. split; [|split]; vm_compute; reflexivity. Qed.

Lemma buffers_owned_once_witness : NoDup (addresses after_an_hour).
Proof.
  exact (proj1 (buffers_owned_once exact_room (fun n => le_n n) 8 2 an_hour after_an_hour 7 (proj1 an_hour_passes) eq_refl)).
Defined.

(** Three sessions after one another, two at a time, need two buffers. *)
Definition a_quiet_hour : list Use :=
  [Acquire 0; Write 0 [65%Z; 66%Z]; Acquire 1; Drop 0; Acquire 2; Write 2 [67%Z]; Drop 1].

Definition after_a_quiet_hour : Store :=
  default (store_new 8 2) (use_all exact_room a_quiet_hour (store_new 8 2)).

Lemma buffers_reused_witness :
  so_allocated after_a_quiet_hour <= peak exact_room a_quiet_hour (store_new 8 2)
  /\ peak exact_room a_quiet_hour (store_new 8 2) = 2.
Proof.
  split; [|vm_compute; reflexivity].
  apply (buffers_reused exact_room (fun n => le_n n) 8 2 a_quiet_hour after_a_quiet_hour).
  - reflexivity.
  - repeat apply List.Forall_cons; try apply List.Forall_nil; cbn; try exact I; lia.
  - apply Nat.leb_le. vm_compute. reflexivity.
  - vm_compute. reflexivity.
Defined.
