(* ===== verification/PendingBound.v ===== *)
(** * The pending bytes of a session stay in their buffer ([src/src/lib.rs], [PendingWrite])

    [PendingWrite::push] makes room before it appends, so the bytes that wait to
    be written never pass the capacity of the buffer the session took from its
    pool: whatever is read, answered or fails, from the first command to the
    end, and so the buffer is never moved and goes back to the pool. *)
From S2P Require Import Prelude Memchr Args Kinds Terminator ClientWire Text ServerResponses ServerCommands ServerIndex ServerPayload.
From S2P Require Import ArticleStore ServerStore ServerSession.

Local Open Scope nat_scope.
Local Open Scope rust_scope.

Section bound.
Context {W : Type} `{Aw : !AsyncWrite W, Sk : !ServerSocket W}.
Context `{Mc : !Memchr, Fs : !FileSystem}.
Variable find_end : bytes -> option nat.
Variable config : ServerConfig.
Variable capacity : nat.

(** The buffer is the one it was, and holds what is pending. *)
Definition within (s : Session W) : Prop := se_capacity s = capacity /\ length (se_pending s) <= capacity.

(** Whether it returns, fails or panics. *)
Definition keeps {A} (m : M W A) : Prop := forall s, within s -> within (snd (m s)).

Create HintDb keeps.

Lemma keeps_ret {A} (a : A) : keeps (mret a).
Proof. by intros s Hs. Qed.

Lemma keeps_bind {A B} (m : M W A) (k : A -> M W B) : keeps m -> (forall a, keeps (k a)) -> keeps (m ≫= k).
Proof.
  intros Hm Hk s Hs. specialize (Hm s Hs). unfold mbind, M_bind. destruct (m s) as [[a|stop] s1]; cbn in *; [by apply Hk|done].
Qed.

Lemma keeps_get_session : keeps get_session. Proof. by intros s Hs. Qed.
Lemma keeps_get_state : keeps get_state. Proof. by intros s Hs. Qed.
Lemma keeps_get_aux : keeps get_aux. Proof. by intros s Hs. Qed.
Lemma keeps_set_aux aux : keeps (set_aux aux). Proof. by intros s Hs. Qed.
Lemma keeps_set_state state : keeps (set_state state). Proof. by intros s Hs. Qed.
Lemma keeps_set_current article : keeps (set_current article). Proof. by intros s Hs. Qed.
Lemma keeps_read_clock : keeps read_clock. Proof. by intros s Hs. Qed.
Lemma keeps_count a b c d e : keeps (count a b c d e). Proof. by intros s Hs. Qed.
Lemma keeps_publish : keeps publish_session_delta. Proof. by intros s Hs. Qed.
Lemma keeps_fails {A} error : keeps (fails (A := A) error). Proof. by intros s Hs. Qed.
Lemma keeps_try_io {A} (r : result A IoError) : keeps (try_io r). Proof. intros s Hs. by destruct r. Qed.
Lemma keeps_or_panic {A} (o : option A) : keeps (or_panic o). Proof. intros s Hs. by destruct o. Qed.
Lemma keeps_io m : keeps (io m).
Proof. intros s Hs. unfold io. by destruct (m (se_writer s)) as [[[]|e] w]. Qed.
Lemma keeps_clear : keeps pending_clear.
Proof. intros s [Hc _]. split; [done|]. cbn. lia. Qed.

#[local] Hint Resolve keeps_ret keeps_get_session keeps_get_state keeps_get_aux keeps_set_aux keeps_set_state keeps_set_current
  keeps_read_clock keeps_count keeps_publish keeps_fails keeps_try_io keeps_or_panic keeps_io keeps_clear : keeps.

(** Step by step: binds, and every branch. *)
Ltac keeping := repeat first
  [ solve [auto with keeps]
  | apply keeps_bind; [|intros ?]
  | match goal with |- keeps (match ?x with _ => _ end) => destruct x end
  | progress cbn zeta ].

Lemma keeps_flush : keeps pending_flush.
Proof. unfold pending_flush. keeping. Qed.
#[local] Hint Resolve keeps_flush : keeps.

Lemma keeps_with_response response : keeps (write_with_response response).
Proof. unfold write_with_response. keeping. Qed.
#[local] Hint Resolve keeps_with_response : keeps.

(** A flush that succeeds leaves nothing pending. *)
Lemma flush_empties (s : Session W) : fst (pending_flush s) = Ok tt -> se_pending (snd (pending_flush s)) = [].
Proof.
  unfold pending_flush, mbind, M_bind, get_session. destruct (length (se_pending s) =? 0) eqn:E.
  - apply Nat.eqb_eq, length_zero_iff_nil in E. done.
  - unfold io. by destruct (write_all (se_writer s) (se_pending s)) as [[[]|e] w].
Qed.

(** The one place where bytes are appended: there is room for them. *)
Lemma keeps_push response : keeps (pending_push response).
Proof.
  intros s Hs. unfold pending_push. destruct Hs as [Hc Hl].
  change (within (snd ((if se_capacity s <? length response then write_with_response response
    else (if se_capacity s <? length (se_pending s) + length response then pending_flush else mret tt) ;;
         pending_append response) s))).
  destruct (Nat.ltb_spec (se_capacity s) (length response)); [by apply keeps_with_response|].
  destruct (Nat.ltb_spec (se_capacity s) (length (se_pending s) + length response)) as [Hfull|Hfull].
  - pose proof (keeps_flush s (conj Hc Hl)) as [Hc' Hl']. pose proof (flush_empties s) as He.
    unfold mbind at 1, M_bind. destruct (pending_flush s) as [[[]|stop] s1]; [|done].
    specialize (He eq_refl). cbn [snd] in *. split; [done|]. cbn. rewrite He. cbn. lia.
  - split; [done|]. change (length (se_pending s ++ response) <= capacity). rewrite length_app. lia.
Qed.
#[local] Hint Resolve keeps_push : keeps.

Lemma keeps_response response : keeps (write_response response).
Proof. unfold write_response. keeping. Qed.
#[local] Hint Resolve keeps_response : keeps.

Lemma keeps_respond response : keeps (respond response).
Proof. unfold respond. keeping. Qed.
#[local] Hint Resolve keeps_respond : keeps.

Lemma keeps_file reads : keeps (write_file_response_to_async reads).
Proof. induction reads as [|[[|b data]|e] reads IH]; cbn [write_file_response_to_async]; keeping. Qed.
#[local] Hint Resolve keeps_file : keeps.

Lemma keeps_stored kind article_id message_id : keeps (write_stored_article_response find_end config kind article_id message_id).
Proof. unfold write_stored_article_response. keeping. Qed.
#[local] Hint Resolve keeps_stored : keeps.

Lemma keeps_selector command lines next :
  (forall st, keeps (next st)) -> keeps (or_selector_error config command lines next).
Proof. intros Hn. unfold or_selector_error. keeping. Qed.

Lemma keeps_slices message_id : keeps (write_message_id_article_response config message_id).
Proof. unfold write_message_id_article_response. keeping. Qed.
#[local] Hint Resolve keeps_slices : keeps.

Lemma keeps_article command lines : keeps (handle_article find_end config command lines).
Proof. unfold handle_article. apply keeps_bind; [auto with keeps|intros _]. apply keeps_selector. intros st. keeping. Qed.

Lemma keeps_part kind counted first_response selected by_message_id command lines :
  keeps counted -> keeps (handle_article_part find_end config kind counted first_response selected by_message_id command lines).
Proof.
  intros Hc. unfold handle_article_part. apply keeps_bind; [done|intros _]. apply keeps_selector. intros st.
  unfold write_stored_if_any. keeping.
Qed.

Lemma keeps_listing indexed fixture : keeps (respond_listing config indexed fixture).
Proof. unfold respond_listing. keeping. Qed.
#[local] Hint Resolve keeps_article keeps_part keeps_listing : keeps.

Lemma keeps_group command lines : keeps (handle_group config command lines).
Proof. unfold handle_group. keeping. Qed.
Lemma keeps_listgroup command lines : keeps (handle_listgroup config command lines).
Proof. unfold handle_listgroup. keeping. Qed.
Lemma keeps_navigation no_article indexed fixture response : keeps (handle_navigation config no_article indexed fixture response).
Proof. unfold handle_navigation. keeping. Qed.
Lemma keeps_overview indexed fixture command lines : keeps (handle_overview config indexed fixture command lines).
Proof. unfold handle_overview, respond_filled. keeping. Qed.
#[local] Hint Resolve keeps_group keeps_listgroup keeps_navigation keeps_overview : keeps.

Lemma keeps_command command lines : keeps (handle_command find_end config command lines).
Proof.
  unfold handle_command. apply keeps_bind; [auto with keeps|intros _].
  unfold handle_head, handle_stat, handle_body, handle_list_active, handle_list_active_times, handle_list_newsgroups,
    handle_newgroups, handle_newnews, handle_last, handle_next, handle_date, handle_unknown.
  destruct (pc_kind command); keeping.
Qed.
#[local] Hint Resolve keeps_command : keeps.

(** ** A batch, the greeting and the whole session *)

Lemma keeps_batched commands lines : keeps (write_batched_message_id_article_responses config commands lines).
Proof. unfold write_batched_message_id_article_responses. keeping. Qed.
#[local] Hint Resolve keeps_batched : keeps.

Lemma keeps_commands fuel : forall batch lines index, keeps (process_commands find_end config fuel batch lines index).
Proof. induction fuel as [|fuel IH]; intros batch lines index; cbn [process_commands]; keeping. Qed.
#[local] Hint Resolve keeps_commands : keeps.

Lemma keeps_batch batch lines : keeps (process_command_batch find_end config batch lines).
Proof. unfold process_command_batch, flush_session_writer, flush_writer_if_needed. keeping. Qed.
#[local] Hint Resolve keeps_batch : keeps.

Lemma keeps_greeting : keeps (send_greeting config).
Proof. unfold send_greeting, flush_writer_if_needed. keeping. Qed.

Lemma keeps_cork linux on : keeps (cork config linux on).
Proof. unfold cork. keeping. Qed.
#[local] Hint Resolve keeps_greeting keeps_cork : keeps.

Lemma keeps_loop linux fuel : forall reader, keeps (serve_loop find_end config linux fuel reader).
Proof.
  induction fuel as [|fuel IH]; intros reader; cbn [serve_loop]; [auto with keeps|].
  destruct (read_command_batch reader _) as [read reader']. unfold flush_session_writer, flush_writer_if_needed.
  keeping.
Qed.

Lemma keeps_session linux reader : keeps (serve_session find_end config linux reader).
Proof.
  intros s Hs. unfold serve_session.
  assert (keeps (serve_session_inner find_end config linux reader)) as Hk.
  { unfold serve_session_inner. apply keeps_bind; [auto with keeps|intros _; apply keeps_loop]. }
  specialize (Hk s Hs). destruct (serve_session_inner find_end config linux reader s) as [[[]|[e|]] s']; cbn [snd] in *;
    [by apply keeps_publish..|done].
Qed.

(** C38: the bytes a session keeps back to write them together never pass the
    buffer it took for them: whatever the peer sends, whatever the store
    answers, and whether the session ends, fails or panics, the buffer has the
    capacity it had and what is pending fits in it. *)
Theorem pending_bytes_fit linux reader w clock :
  let s := snd (serve_session find_end config linux reader (session_new w capacity clock)) in
  se_capacity s = capacity /\ (length (se_pending s) <= capacity)%nat.
Proof. apply (keeps_session linux reader). split; [done|cbn; lia]. Qed.

End bound.
