(* ===== verification/ClientProgram.v ===== *)
(** * The client program ([src/src/lib.rs], [src/src/client.rs], [src/src/main.rs])

    From the command line to standard output: the connection of a socket with its
    options and greeting ([connect_client_socket], [connect_with_options]), the
    one request or the script that is sent on it ([fetch_response],
    [scripted_session_response]), what the program prints and the error it ends
    with ([run_fetch], [map_client_error]), and the choice of the runtime
    ([main]).  The network is an interface whose state every operation may
    change; the connection a greeted stream becomes is the interface of
    [ClientMethods]. *)
From S2P Require Import Prelude Utf8 Decimal Memchr Terminator Args Kinds Requests RequestWire OwnedResponse ClientWire.
From S2P Require Import ClientEngine ServerResponses ServerPayload Float64 LoadSchedule LoadWorkload SegmentFile.
From S2P Require Import LoadReader LoadSession FetchCommand SessionScript SessionRoundtrip LoadConfig ClientMethods.
From S2P Require Import ClientSound Format Manifest.

Local Open Scope Z_scope.
Local Open Scope rust_scope.

Local Abbreviation error := (client_error IoError).

(** ** Errors *)

(** [Display for ClientError]. *)
Definition client_error_text (self : error) : bytes :=
  match self with
  | ClientError.Io err => io_message err
  | ClientError.UnexpectedEof => lit "server closed before completing response"
  | ClientError.InvalidStatusLine => lit "invalid NNTP status line"
  | ClientError.InvalidMessageId => lit "invalid message-id"
  | ClientError.MissingMessageId => lit "message-id is required for this request"
  | ClientError.InvalidGroupName => lit "invalid group name"
  | ClientError.MissingGroupName => lit "group is required for this request"
  | ClientError.InvalidWildmat => lit "invalid wildmat"
  | ClientError.MissingWildmat => lit "wildmat is required for this request"
  | ClientError.InvalidDate => lit "invalid NNTP date"
  | ClientError.MissingDate => lit "date is required for this request"
  | ClientError.InvalidTime => lit "invalid NNTP time"
  | ClientError.MissingTime => lit "time is required for this request"
  | ClientError.InvalidAuthInfoValue => lit "invalid authinfo value"
  | ClientError.MissingAuthInfoValue => lit "authinfo value is required for this request"
  | ClientError.MissingArticleBody => lit "article body is required for this request"
  | ClientError.InvalidHeaderName => lit "invalid header name"
  | ClientError.MissingHeaderName => lit "header is required for this request"
  | ClientError.InvalidArticleSelector => lit "invalid article selector"
  | ClientError.MissingArticleSelector => lit "article selector is required for this request"
  | ClientError.InvalidListGroupRange => lit "invalid LISTGROUP range"
  | ClientError.InvalidCapabilityKeyword => lit "invalid capability keyword"
  | ClientError.ConflictingArguments => lit "conflicting arguments"
  | ClientError.InvalidSession 0 => lit "session file has no commands"
  | ClientError.InvalidSession line =>
      format (lit "invalid session command on line {}") [ArgInt (Z.of_nat line)]
  | ClientError.CapabilitiesUnavailable => lit "CAPABILITIES did not return a capability list"
  | ClientError.ConnectionClosed => lit "connection engine closed"
  | ClientError.UnexpectedArticleResponse response =>
      format (lit "unexpected article response status {}") [ArgInt (response_status response)]
  end.

(** An [io::Error] made of a [ClientError] shows its text. *)
Definition map_client_error (err : error) : IoError :=
  match err with
  | ClientError.Io err => err
  | ClientError.UnexpectedEof =>
      {| io_kind := ErrorKind.UnexpectedEof; io_message := lit "server closed before completing response" |}
  | ClientError.ConnectionClosed =>
      {| io_kind := ErrorKind.BrokenPipe; io_message := lit "connection engine closed" |}
  | other => {| io_kind := ErrorKind.InvalidData; io_message := client_error_text other |}
  end.

(** ** Sockets *)

(** The operations of [TcpSocket]; [connect] gives the stream of what the peer
    will send. *)
Class Network (N Socket : Type) : Type := {
  new_v4 : N -> result Socket IoError * N;
  new_v6 : N -> result Socket IoError * N;
  set_recv_buffer_size : Socket -> Z -> N -> result unit IoError * N;
  set_send_buffer_size : Socket -> Z -> N -> result unit IoError * N;
  set_nodelay : Socket -> bool -> N -> result unit IoError * N;
  connect : Socket -> SocketAddr -> N -> result Stream IoError * N;
}.

Definition Net (N A : Type) : Type := N -> result A IoError * N.

#[export] Instance Net_ret N : MRet (Net N) := fun A a n => (Ok a, n).
#[export] Instance Net_bind N : MBind (Net N) := fun A B k m n =>
  match m n with
  | (Ok a, n) => k a n
  | (Err e, n) => (Err e, n)
  end.

Definition try_net {N A} (r : result A IoError) : Net N A := fun n => (r, n).

(** The text of an IPv6 address is the one with colons. *)
Definition is_ipv4 (addr : SocketAddr) : bool := negb (existsb (Z.eqb 58) (sa_ip addr)).

Definition SIZE_EXCEEDS_U32 : IoError := invalid_input (lit "socket buffer size exceeds u32::MAX").

Definition socket_buffer_size_u32 (size : Z) : result Z IoError :=
  if size <? 2 ^ 32 then Ok size else Err SIZE_EXCEEDS_U32.

(** ** Options *)

Definition CLIENT_READER_CAPACITY : nat := 256 * 1024.

Record ClientOptions : Type := {
  co_read_buffer_bytes : nat;
  co_nodelay : bool;
  co_socket_recv_buffer : Z;
  co_socket_send_buffer : Z;
  co_pipeline_depth : nat;
  co_article_validation : ArticleValidation;
}.

Definition options_default : ClientOptions :=
  {| co_read_buffer_bytes := CLIENT_READER_CAPACITY; co_nodelay := true; co_socket_recv_buffer := 0;
     co_socket_send_buffer := 0; co_pipeline_depth := 64; co_article_validation := FramingOnly |}.

(** A greeted stream and the sizes its engine is started with. *)
Record Greeted : Type := { gr_stream : Stream; gr_queue : nat; gr_read_chunk_bytes : nat }.

Definition fetch_options (args : FetchArgs) : ClientOptions :=
  {| co_read_buffer_bytes := Nat.max (fa_read_buffer_bytes args) TERMINATOR_TAIL_SIZE;
     co_nodelay := fa_nodelay args;
     co_socket_recv_buffer := fa_socket_recv_buffer args;
     co_socket_send_buffer := fa_socket_send_buffer args;
     co_pipeline_depth := Nat.min (Nat.max (fa_pipeline_depth args) 1) 4096;
     co_article_validation := co_article_validation options_default |}.

Section program.
Context `{Mc : !Memchr} {N Socket C : Type} `{Nw : !Network N Socket, Cn : !Connection C}.
Variable find_end : bytes -> option nat.
(** [fs::read] of a file. *)
Variable fs_read : bytes -> result bytes IoError.
(** The engine behind a greeted stream: the tasks of [ClientEngine]. *)
Variable engine : Greeted -> C.

(** ** Connecting *)

Definition connect_client_socket (addr : SocketAddr) (nodelay : bool) (recv_buffer send_buffer : Z) : Net N Stream :=
  socket ← (if is_ipv4 addr then new_v4 else new_v6);
  (if recv_buffer =? 0 then mret tt
   else size ← try_net (socket_buffer_size_u32 recv_buffer); set_recv_buffer_size socket size) ;;
  (if send_buffer =? 0 then mret tt
   else size ← try_net (socket_buffer_size_u32 send_buffer); set_send_buffer_size socket size) ;;
  set_nodelay socket nodelay ;;
  connect socket addr.

(** [None] would be a greeting that is never at its end. *)
Definition connect_with_options (addr : SocketAddr) (options : ClientOptions) (n : N) : option (result C error * N) :=
  match connect_client_socket addr (co_nodelay options) (co_socket_recv_buffer options)
          (co_socket_send_buffer options) n with
  | (Err e, n) => Some (Err (ClientError.Io e), n)
  | (Ok stream, n) =>
      '(greeted, stream) ← read_greeting find_end stream;
      Some (match greeted with
            | Err e => Err (ClientError.Io e)
            | Ok _ => Ok (engine {| gr_stream := stream; gr_queue := Nat.max (co_pipeline_depth options) 1;
                                    gr_read_chunk_bytes := Nat.max (co_read_buffer_bytes options) TERMINATOR_TAIL_SIZE |})
            end, n)
  end.

Definition connect_fetch_client (args : FetchArgs) : N -> option (result C error * N) :=
  connect_with_options (fa_connect args) (fetch_options args).

(** ** One request, or the requests of a script *)

Definition fetch_prepared (prepared : PreparedFetch.PreparedFetch) : ClientM C OwnedResponse :=
  match prepared with
  | PreparedFetch.Post article => ClientConnection.post_article article
  | PreparedFetch.Ihave message_id article => ClientConnection.ihave_article message_id article
  | PreparedFetch.TakeThis message_id article => ClientConnection.takethis message_id article
  | PreparedFetch.Request request => ClientConnection.execute request
  end.

Definition fetch_response (args : FetchArgs) (n : N) : option (result OwnedResponse error * N) :=
  match prepare_fetch fs_read args with
  | Err e => Some (Err e, n)
  | Ok prepared =>
      '(connected, n) ← connect_fetch_client args n;
      Some (match connected with
            | Err e => Err e
            | Ok connection => fst (fetch_prepared prepared connection)
            end, n)
  end.

Definition scripted_command (command : SessionCommand.SessionCommand) : ClientM C OwnedResponse :=
  match command with
  | SessionCommand.Execute request => ClientConnection.execute request
  | SessionCommand.PostArticle article => ClientConnection.post_article article
  | SessionCommand.IhaveArticle message_id article => ClientConnection.ihave_article message_id article
  end.

Fixpoint scripted_commands (commands : list SessionCommand.SessionCommand) (output : bytes) : ClientM C bytes :=
  match commands with
  | [] => mret output
  | command :: commands =>
      response ← scripted_command command;
      scripted_commands commands (output ++ response_as_bytes response)
  end.

(** The commands of the script the arguments name. *)
Definition session_script (args : FetchArgs) : result (list SessionCommand.SessionCommand) error :=
  let? _ := validate_fetch_args args in
  let? path := ok_or (ClientError.InvalidSession 0) (fa_session args) in
  let? text := map_err ClientError.Io (read_to_string fs_read path) in
  parse_session_script fs_read text.

Definition session_output (args : FetchArgs) (n : N) : option (result bytes error * N) :=
  match session_script args with
  | Err e => Some (Err e, n)
  | Ok commands =>
      '(connected, n) ← connect_fetch_client args n;
      Some (match connected with
            | Err e => Err e
            | Ok connection => fst (scripted_commands commands [] connection)
            end, n)
  end.

(** ** A load *)

(** The sessions in the order in which they end, each with the outcome of its
    [LoadSession.run], and what is measured at the end. *)
Record LoadEnd : Type := {
  le_joined : list SpawnedSession -> list Joined;
  le_snapshot : Snapshot;
  le_started : Z;
  le_elapsed : Z;
  le_cpu_seconds : f64;
  le_rss_kib : Z;
}.

Variable open : bytes -> result File IoError.
Variable md5 : bytes -> bytes.
Variable build : Build.
Variable cpuinfo : option bytes.
Variable load_end : LoadConfig -> LoadEnd.

(** What it prints on standard output and, at its end, on standard error. *)
Definition run_load (args : FetchArgs) : option (result unit IoError * (bytes * bytes)) :=
  match from_args open args with
  | Err e => Some (Err e, ([], []))
  | Ok config =>
      let ended := load_end config in
      sessions ← spawn_sessions config;
      match join_sessions (le_joined ended sessions) outcome_default with
      | Err e => Some (Err e, ([], []))
      | Ok lifecycle =>
          report ← load_report md5 build cpuinfo config (le_snapshot ended) lifecycle (le_started ended)
                     (le_elapsed ended) (le_cpu_seconds ended) (le_rss_kib ended);
          Some (Ok tt, report)
      end
  end.

(** ** The program *)

(** [io::stdout().write_all]: its result and what has been printed. *)
Variable stdout : bytes -> result unit IoError * bytes.

Definition print_response (output : result bytes error) : result unit IoError * bytes :=
  match output with
  | Err e => (Err (map_client_error e), [])
  | Ok output => stdout output
  end.

(** The result and what is on standard output; [None] is a panic. *)
Definition run_fetch (args : FetchArgs) (n : N) : option ((result unit IoError * bytes) * N) :=
  match validate_fetch_args args with
  | Err e => Some ((Err (map_client_error e), []), n)
  | Ok _ =>
      if given (fa_session args) then
        '(output, n) ← session_output args n; Some (print_response output, n)
      else if given (fa_request args) then
        '(response, n) ← fetch_response args n;
        Some (print_response (let? response := response in Ok (response_as_bytes response)), n)
      else '(ended, (printed, _)) ← run_load args; Some ((ended, printed), n)
  end.
End program.

(** ** The runtime and the subcommands *)

Inductive Flavor : Type := CurrentThread | MultiThread (worker_threads : nat).

Definition build_runtime (threads : nat) : Flavor :=
  let threads := Nat.max threads 1 in
  if (threads =? 1)%nat then CurrentThread else MultiThread threads.

(** * What the program does and prints *)

(** ** The greeting comes to its end *)

Lemma greeting_loop_ends `{Mc : !Memchr} find_end fuel : forall buffer stream,
  (MAX_INITIAL_RESPONSE_LINE_BYTES < fuel + length buffer)%nat -> (length buffer <= MAX_INITIAL_RESPONSE_LINE_BYTES)%nat ->
  is_Some (read_greeting_loop find_end fuel buffer stream).
Proof.
  induction fuel as [|fuel IH]; intros buffer stream Hf Hl; [lia|]. cbn [read_greeting_loop].
  destruct (Nat.eqb_spec (length buffer) MAX_INITIAL_RESPONSE_LINE_BYTES) as [|Hn]; [by eexists|].
  destruct stream as [|[data|e] stream]; cbn [read_some]; [by eexists| |by eexists].
  destruct (take _ data) as [|b rest] eqn:Et; [by eexists|].
  destruct (detect_bounded_response_line_end _ _); try by eexists.
  assert (Hlen : length (b :: rest) = Nat.min (MAX_INITIAL_RESPONSE_LINE_BYTES - length buffer) (length data)) by (rewrite <- Et; apply length_take).
  cbn [length] in Hlen. apply IH; rewrite length_app; cbn [length]; lia.
Qed.

Lemma greeting_ends `{Mc : !Memchr} find_end stream : is_Some (read_greeting find_end stream).
Proof. apply greeting_loop_ends; cbn [length]; lia. Qed.

(** ** Calls *)

Section calls.
Context {C : Type} `{Cn : !Connection C}.

(** A call and its response. *)
Definition answered (call : Call) : ClientM C OwnedResponse :=
  pending ← conn_call call; pending_response_receive pending.

Lemma prepared_answered prepared c : fetch_prepared prepared c = answered (fetch_call prepared) c.
Proof. by destruct prepared. Qed.

Lemma scripted_answered command c : scripted_command command c = answered (session_call command) c.
Proof. by destruct command. Qed.

(** Calls that are all answered, one after the other. *)
Inductive answers : list Call -> C -> list OwnedResponse -> C -> Prop :=
| answers_none c : answers [] c [] c
| answers_call call calls c response c1 responses c2 :
    answered call c = (Ok response, c1) -> answers calls c1 responses c2 ->
    answers (call :: calls) c (response :: responses) c2.

Lemma scripted_answers commands : forall output c,
  let calls := session_call <$> commands in
  match scripted_commands commands output c with
  | (Ok printed, c') => exists responses, answers calls c responses c' /\ printed = output ++ concat (response_as_bytes <$> responses)
  | (Err e, c') => exists before call after responses c1,
      calls = before ++ call :: after /\ answers before c responses c1 /\ answered call c1 = (Err e, c')
  end.
Proof.
  induction commands as [|command commands IH]; intros output c; cbn [scripted_commands fmap list_fmap].
  { exists []. split; [constructor|]. by rewrite app_nil_r. }
  unfold mbind, ClientM_bind. rewrite scripted_answered.
  destruct (answered (session_call command) c) as [[response|e] c1] eqn:E; cbn zeta.
  - specialize (IH (output ++ response_as_bytes response) c1). cbn zeta in IH.
    destruct (scripted_commands commands _ c1) as [[printed|e] c2].
    + destruct IH as (responses & Ha & ->). exists (response :: responses). split; [by econstructor|].
      cbn [fmap list_fmap concat]. by rewrite app_assoc.
    + destruct IH as (before & call & after & responses & c3 & Ec & Ha & He).
      exists (session_call command :: before), call, after, (response :: responses), c3.
      split; [by rewrite Ec|]. split; [by econstructor|done].
  - exists [], (session_call command), (session_call <$> commands), [], c. split; [done|]. split; [constructor|done].
Qed.
End calls.

(** ** The program *)

Section program.
Context `{Mc : !Memchr} {N Socket C : Type} `{Nw : !Network N Socket, Cn : !Connection C}.
Variable find_end : bytes -> option nat.
Variable fs_read : bytes -> result bytes IoError.
Variable engine : Greeted -> C.
Variable open : bytes -> result File IoError.
Variable md5 : bytes -> bytes.
Variable build : Build.
Variable cpuinfo : option bytes.
Variable load_end : LoadConfig -> LoadEnd.
Variable stdout : bytes -> result unit IoError * bytes.

Local Abbreviation connecting args := (connect_fetch_client find_end engine args).

Lemma connects args n : exists connected n', connecting args n = Some (connected, n').
Proof.
  unfold connect_fetch_client, connect_with_options.
  destruct (connect_client_socket _ _ _ _ n) as [[stream|e] n']; [|by eexists _, _].
  destruct (greeting_ends find_end stream) as [[greeted rest] ->]. by eexists _, _.
Qed.

(** The calls a command line asks for. *)
Definition asked_calls (args : FetchArgs) : result (list Call) error :=
  if given (fa_session args) then session_calls fs_read args
  else let? prepared := prepare_fetch fs_read args in Ok [fetch_call prepared].

Lemma prepared_valid args prepared :
  args_str args -> prepare_fetch fs_read args = Ok prepared -> request_ok (s_request (sending_of (fetch_call prepared))).
Proof.
  intros Hs E. unfold prepare_fetch in E. destruct (validate_fetch_args args); [|done].
  destruct (article_bytes_from_args fs_read args) as [article|]; [|done].
  pose proof (fetch_request_outcome fs_read args Hs) as Hr. pose proof (fetch_transfer_id_outcome fs_read args) as Hid.
  assert (Hplain : (let? request := fetch_request fs_read args in Ok (PreparedFetch.Request request)) = Ok prepared ->
    request_ok (s_request (sending_of (fetch_call prepared)))).
  { destruct (fetch_request fs_read args); [|done]. intros [= <-]. destruct Hr as [Hr _]. by apply constructed_valid in Hr as [Hr _]. }
  destruct (fa_request args) as [[]|], article; auto; try (destruct (fetch_transfer_id args); [|done]);
    try discriminate E; injection E as <-; done.
Qed.

Lemma session_valid args calls :
  session_calls fs_read args = Ok calls -> Forall (fun call => request_ok (s_request (sending_of call))) calls.
Proof.
  unfold session_calls. intros H. destruct (validate_fetch_args args); [|done]. destruct (fa_session args) as [path|]; [|done].
  cbn [ok_or] in H. unfold read_to_string in H. destruct (fs_read path) as [text|]; [|done].
  destruct (from_utf8 text) as [cs|] eqn:Eu; [|done]. cbn [map_err] in H.
  destruct (parse_session_script _ _) as [commands|] eqn:Ec; [|done]. injection H as <-.
  apply parse_session_script_safe in Ec as (_ & Hs & _); [|by exists cs].
  apply Forall_fmap. eapply List.Forall_impl; [|exact Hs]. apply session_call_ok.
Qed.

Lemma asked_valid args calls :
  args_str args -> asked_calls args = Ok calls -> Forall (fun call => request_ok (s_request (sending_of call))) calls.
Proof.
  intros Hs. unfold asked_calls. destruct (given (fa_session args)); [apply session_valid|].
  destruct (prepare_fetch fs_read args) as [prepared|] eqn:E; [|done]. intros [= <-].
  apply List.Forall_cons; [by eapply prepared_valid|constructor].
Qed.

Lemma session_calls_script args :
  session_calls fs_read args = let? commands := session_script fs_read args in Ok (session_call <$> commands).
Proof.
  unfold session_calls, session_script. destruct (validate_fetch_args args); [|done].
  destruct (ok_or _ _); [|done]. by destruct (map_err _ _).
Qed.

(** The conversations the program can have. *)
Inductive converses (calls : list Call) (c : C) : result unit IoError -> bytes -> Prop :=
| converses_prints responses c' r printed :
    answers calls c responses c' -> stdout (concat (response_as_bytes <$> responses)) = (r, printed) ->
    converses calls c r printed
| converses_fails before call after responses c1 e c2 :
    calls = before ++ call :: after -> answers before c responses c1 -> answered call c1 = (Err e, c2) ->
    converses calls c (Err (map_client_error e)) [].

Lemma session_converses commands c :
  let '(r, printed) := print_response stdout (fst (scripted_commands commands [] c)) in
  converses (session_call <$> commands) c r printed.
Proof.
  pose proof (scripted_answers commands [] c) as H. cbn zeta in H.
  destruct (scripted_commands commands [] c) as [[output|e] c']; cbn [fst print_response].
  - destruct H as (responses & Ha & ->). destruct (stdout _) as [r printed] eqn:Ep. by eapply converses_prints.
  - destruct H as (before & call & after & responses & c1 & Ec & Ha & He). by eapply converses_fails.
Qed.

Lemma fetch_converses prepared c :
  let response := fst (fetch_prepared prepared c) in
  let '(r, printed) := print_response stdout (let? response := response in Ok (response_as_bytes response)) in
  converses [fetch_call prepared] c r printed.
Proof.
  cbn zeta. rewrite prepared_answered. destruct (answered (fetch_call prepared) c) as [[response|e] c'] eqn:E; cbn [fst print_response].
  - destruct (stdout _) as [r printed] eqn:Ep. apply (converses_prints _ _ [response] c'); [by repeat econstructor|].
    cbn [fmap list_fmap concat]. by rewrite app_nil_r.
  - by eapply (converses_fails _ _ [] (fetch_call prepared) [] []); [|constructor|].
Qed.

(** The error a program ends with shows the text of the client's error. *)
Lemma mapped_text e : io_message (map_client_error e) = client_error_text e.
Proof. by destruct e. Qed.

(** C36: a command line with a request or a script is refused before a socket is
    opened, with nothing printed and the text of the refusal; or the program
    connects with the options given and makes the calls it asks for, each a
    valid request, one after the other: it prints the responses one behind the
    other when all have come, and nothing when one call has failed, whose error
    it ends with. *)
Theorem fetch_program_prints args n :
  args_str args -> is_Some (fa_request args) \/ is_Some (fa_session args) ->
  exists r printed n', run_fetch find_end fs_read engine open md5 build cpuinfo load_end stdout args n = Some ((r, printed), n')
  /\ match asked_calls args with
     | Err e => n' = n /\ printed = [] /\ r = Err (map_client_error e) /\ io_message (map_client_error e) = client_error_text e
     | Ok calls =>
         Forall (fun call => request_ok (s_request (sending_of call))) calls
         /\ exists connected, connect_with_options find_end engine (fa_connect args) (fetch_options args) n = Some (connected, n')
            /\ match connected with
               | Err e => printed = [] /\ r = Err (map_client_error e)
               | Ok c => converses calls c r printed
               end
     end.
Proof.
  intros Hs Hasked. unfold run_fetch. pose proof (asked_valid args) as Hvalid. unfold asked_calls in *.
  destruct (validate_fetch_args args) as [u|e] eqn:Ev.
  2: { eexists _, _, _. split; [done|]. unfold session_calls, prepare_fetch. rewrite Ev. destruct (given _); auto using mapped_text. }
  destruct (given (fa_session args)) eqn:Eg.
  - rewrite session_calls_script in *. unfold session_output. destruct (session_script fs_read args) as [commands|e].
    2: { eexists _, _, _. split; [done|]. auto using mapped_text. }
    destruct (connects args n) as (connected & n' & E). rewrite E. cbn. destruct connected as [c|e].
    + pose proof (session_converses commands c) as H. destruct (print_response _ _) as [r printed].
      eexists _, _, _. split; [done|]. split; [by apply Hvalid|]. by exists (Ok c).
    + eexists _, _, _. split; [done|]. split; [by apply Hvalid|]. by exists (Err e).
  - assert (given (fa_request args) = true) as ->.
    { destruct Hasked as [H|H]; [by apply given_spec|]. apply given_spec in H. congruence. }
    unfold fetch_response. destruct (prepare_fetch fs_read args) as [prepared|e] eqn:Ep.
    2: { eexists _, _, _. split; [done|]. auto using mapped_text. }
    destruct (connects args n) as (connected & n' & E). rewrite E. cbn. destruct connected as [c|e].
    + pose proof (fetch_converses prepared c) as H. cbn zeta in H. destruct (print_response _ _) as [r printed].
      eexists _, _, _. split; [done|]. split; [by apply Hvalid|]. by exists (Ok c).
    + eexists _, _, _. split; [done|]. split; [by apply Hvalid|]. by exists (Err e).
Qed.
End program.

(** ** The options of a socket *)

Inductive SocketOp : Type :=
| OpNew (ipv4 : bool)
| OpRecvBuffer (size : Z)
| OpSendBuffer (size : Z)
| OpNodelay (nodelay : bool)
| OpConnect (addr : SocketAddr).

(** A network that keeps what was asked of it, whether it was granted or not. *)
Class NetworkTrace (N Socket : Type) `{!Network N Socket} : Type := {
  trace : N -> list SocketOp;
  trace_v4 n : trace (snd (new_v4 n)) = trace n ++ [OpNew true];
  trace_v6 n : trace (snd (new_v6 n)) = trace n ++ [OpNew false];
  trace_recv socket size n : trace (snd (set_recv_buffer_size socket size n)) = trace n ++ [OpRecvBuffer size];
  trace_send socket size n : trace (snd (set_send_buffer_size socket size n)) = trace n ++ [OpSendBuffer size];
  trace_nodelay socket nodelay n : trace (snd (set_nodelay socket nodelay n)) = trace n ++ [OpNodelay nodelay];
  trace_connect socket addr n : trace (snd (connect socket addr n)) = trace n ++ [OpConnect addr];
}.

(** What is asked for, in order. *)
Definition socket_ops (addr : SocketAddr) (nodelay : bool) (recv send : Z) : list SocketOp :=
  OpNew (is_ipv4 addr) :: (if recv =? 0 then [] else [OpRecvBuffer recv]) ++ (if send =? 0 then [] else [OpSendBuffer send])
  ++ [OpNodelay nodelay; OpConnect addr].

Section socket.
Context {N Socket : Type} `{Nw : !Network N Socket, Nt : !NetworkTrace N Socket}.

(** An operation that asks for [ops] in order: all of them when it succeeds, the
    first ones when it fails. *)
Definition asks {A} (m : Net N A) (ops : list SocketOp) : Prop := forall n,
  match m n with
  | (Ok _, n') => trace n' = trace n ++ ops
  | (Err _, n') => exists part, part `prefix_of` ops /\ trace n' = trace n ++ part
  end.

Lemma asks_ret {A} (a : A) : asks (mret a) [].
Proof. intros n. cbn. by rewrite app_nil_r. Qed.

Lemma asks_one {A} (m : Net N A) op : (forall n, trace (snd (m n)) = trace n ++ [op]) -> asks m [op].
Proof. intros H n. specialize (H n). destruct (m n) as [[a|e] n']; [done|]. by exists [op]. Qed.

Lemma asks_bind {A B} (m : Net N A) (k : A -> Net N B) ops1 ops2 :
  asks m ops1 -> (forall a, asks (k a) ops2) -> asks (m ≫= k) (ops1 ++ ops2).
Proof.
  intros Hm Hk n. specialize (Hm n). unfold mbind, Net_bind. destruct (m n) as [[a|e] n1].
  - specialize (Hk a n1). destruct (k a n1) as [[b|e] n2]; rewrite Hm in Hk.
    + by rewrite Hk, app_assoc.
    + destruct Hk as (part & Hp & ->). exists (ops1 ++ part). split; [by apply prefix_app|by rewrite app_assoc].
  - destruct Hm as (part & Hp & ->). exists part. split; [by apply prefix_app_r|done].
Qed.

(** One that always fails, after the first of [ops]. *)
Definition refuses {A} (m : Net N A) (ops : list SocketOp) : Prop := forall n,
  exists e n' part, m n = (Err e, n') /\ part `prefix_of` ops /\ trace n' = trace n ++ part.

Lemma refuses_bind {A B} (m : Net N A) (k : A -> Net N B) ops1 ops2 :
  asks m ops1 -> (forall a, refuses (k a) ops2) -> refuses (m ≫= k) (ops1 ++ ops2).
Proof.
  intros Hm Hk n. specialize (Hm n). unfold mbind, Net_bind. destruct (m n) as [[a|e] n1].
  - destruct (Hk a n1) as (e & n2 & part & E & Hp & Ht). rewrite Hm in Ht. exists e, n2, (ops1 ++ part).
    split; [done|]. split; [by apply prefix_app|by rewrite app_assoc].
  - destruct Hm as (part & Hp & Ht). exists e, n1, part. split; [done|]. split; [by apply prefix_app_r|done].
Qed.

Lemma refuses_first {A B} (m : Net N A) (k : A -> Net N B) ops : refuses m ops -> refuses (m ≫= k) ops.
Proof. intros Hm n. destruct (Hm n) as (e & n' & part & E & H). exists e, n', part. unfold mbind, Net_bind. by rewrite E. Qed.

(** A size that is not zero is asked for when it fits 32 bits. *)
Definition sized (size : Z) (set : Z -> Net N unit) : Net N unit :=
  if size =? 0 then mret tt else checked ← try_net (socket_buffer_size_u32 size); set checked.
Definition size_ops (size : Z) (op : SocketOp) : list SocketOp := if size =? 0 then [] else [op].

Lemma sized_asks size set op : asks (set size) [op] -> size < 2 ^ 32 -> asks (sized size set) (size_ops size op).
Proof.
  intros Hs Hsize. unfold sized, size_ops. destruct (size =? 0); [apply asks_ret|]. unfold socket_buffer_size_u32.
  by rewrite (proj2 (Z.ltb_lt _ _)).
Qed.

Lemma sized_refuses size set : 2 ^ 32 <= size -> refuses (sized size set) [].
Proof.
  intros Hsize n. unfold sized, socket_buffer_size_u32. rewrite (proj2 (Z.eqb_neq _ _)), (proj2 (Z.ltb_ge _ _)) by lia.
  exists SIZE_EXCEEDS_U32, n, []. split; [done|]. split; [done|]. by rewrite app_nil_r.
Qed.

Lemma new_asks addr : asks (if is_ipv4 addr then new_v4 else new_v6) [OpNew (is_ipv4 addr)].
Proof. apply asks_one. intros n. destruct (is_ipv4 addr); [apply trace_v4|apply trace_v6]. Qed.
Lemma recv_asks socket size : asks (set_recv_buffer_size socket size) [OpRecvBuffer size].
Proof. apply asks_one, trace_recv. Qed.
Lemma send_asks socket size : asks (set_send_buffer_size socket size) [OpSendBuffer size].
Proof. apply asks_one, trace_send. Qed.

(** Connecting asks the network for a socket of the family of the address,
    the sizes of its buffers that are not zero, the delay of small segments and
    the connection, in this order, and for all of them when it succeeds; a size
    that does not fit 32 bits is refused before the peer is contacted. *)
Theorem socket_options_set addr nodelay recv send n :
  (recv < 2 ^ 32 /\ send < 2 ^ 32 ->
   match connect_client_socket addr nodelay recv send n with
   | (Ok _, n') => trace n' = trace n ++ socket_ops addr nodelay recv send
   | (Err _, n') => exists part, part `prefix_of` socket_ops addr nodelay recv send /\ trace n' = trace n ++ part
   end)
  /\ (2 ^ 32 <= recv \/ 2 ^ 32 <= send ->
      exists e n' part, connect_client_socket addr nodelay recv send n = (Err e, n')
        /\ part `prefix_of` [OpNew (is_ipv4 addr)] ++ size_ops recv (OpRecvBuffer recv) /\ trace n' = trace n ++ part).
Proof.
  split.
  - intros [Hr Hs]. revert n. change (asks (connect_client_socket addr nodelay recv send) (socket_ops addr nodelay recv send)).
    apply (asks_bind _ _ [_]); [apply new_asks|intros socket].
    apply (asks_bind (sized recv _)); [apply sized_asks; [apply recv_asks|done]|intros _].
    apply (asks_bind (sized send _)); [apply sized_asks; [apply send_asks|done]|intros _].
    apply (asks_bind _ _ [_] [_]); [apply asks_one, trace_nodelay|intros _]. apply asks_one, trace_connect.
  - intros Hbig. revert n. apply (refuses_bind _ _ [_]); [apply new_asks|intros socket].
    destruct (decide (recv < 2 ^ 32)) as [Hr|Hr].
    + rewrite <- (app_nil_r (size_ops _ _)).
      apply (refuses_bind (sized recv _)); [apply sized_asks; [apply recv_asks|done]|intros _].
      apply (refuses_first (sized send _)), sized_refuses. lia.
    + intros n. destruct (refuses_first (sized recv (set_recv_buffer_size socket))
        (fun _ => sized send (set_send_buffer_size socket) ≫= fun _ => set_nodelay socket nodelay ≫= fun _ => connect socket addr)
        [] (sized_refuses recv _ ltac:(lia)) n) as (e & n' & part & E & Hp & Ht).
      exists e, n', part. split; [exact E|]. split; [by apply prefix_nil_inv in Hp as ->; apply prefix_nil|done].
Qed.
End socket.

(** ** A run *)

(** A network that grants everything, and a server that greets. *)
#[local] Instance recording : Network (list SocketOp) unit := {|
  new_v4 n := (Ok tt, n ++ [OpNew true]);
  new_v6 n := (Ok tt, n ++ [OpNew false]);
  set_recv_buffer_size _ size n := (Ok tt, n ++ [OpRecvBuffer size]);
  set_send_buffer_size _ size n := (Ok tt, n ++ [OpSendBuffer size]);
  set_nodelay _ nodelay n := (Ok tt, n ++ [OpNodelay nodelay]);
  connect _ addr n := (Ok [Ok GREETING], n ++ [OpConnect addr]);
|}.

#[local] Instance recording_trace : NetworkTrace (list SocketOp) unit.
Proof. by refine (Build_NetworkTrace _ _ _ (fun n => n) _ _ _ _ _ _). Defined.

#[local] Existing Instance logging.

Definition quiet_end (config : LoadConfig) : LoadEnd :=
  {| le_joined _ := [];
     le_snapshot := {| sn_at := 0; sn_accepted_connections := 0; sn_refused_connections := 0; sn_active_connections := 0;
                       sn_commands := 0; sn_pipeline_batches := 0; sn_article_requests := 0; sn_body_requests := 0;
                       sn_bytes_sent := 0; sn_errors := 0 |};
     le_started := 0; le_elapsed := 0; le_cpu_seconds := f64_of_int 0; le_rss_kib := 0 |}.

Definition no_build : Build := {| bu_version := []; bu_os := []; bu_arch := [] |}.
Definition no_segments (path : bytes) : result File IoError := Err {| io_kind := ErrorKind.NotFound; io_message := [] |}.

(** A server that answers every request with 200. *)
Definition sample_run (args : FetchArgs) : option ((result unit IoError * bytes) * list SocketOp) :=
  run_fetch (Mc := naive_memchr) (C := list Call) (fun _ => None) session_fs (fun _ => []) no_segments
    (fun text => text) no_build None quiet_end (fun output => (Ok tt, output)) args [].

(** The script of [session_args] makes two calls; a message-id that is refused
    opens no socket. *)
Example session_printed :
  sample_run session_args
  = Some ((Ok tt, bstr "200 ok\r\n200 ok\r\n"), socket_ops {| sa_ip := lit "127.0.0.1"; sa_port := 119 |} true 0 0).
Proof. vm_compute. reflexivity. Qed.

Definition refused_args : FetchArgs :=
  {| fa_connect := fa_connect sample_args; fa_request := Some FetchRequestKind.Article;
     fa_message_id := Some (lit "<a b>"); fa_article_body := None;
     fa_article_file := None; fa_capability := None; fa_session := None;
     fa_auth_value := None; fa_header := None; fa_group := None; fa_wildmat := None; fa_date := None;
     fa_time := None; fa_gmt := false; fa_selector := None; fa_threads := 1;
     fa_read_buffer_bytes := 4096; fa_max_response_bytes := 4096; fa_pipeline_depth := 1;
     fa_ports := []; fa_segments := None; fa_requests := 0; fa_transfer_bytes := 0;
     fa_duration_secs := 0; fa_setup_timeout_secs := 30; fa_drain_timeout_secs := 5;
     fa_offered_rate := None; fa_latency_range_ms := 60000; fa_latency_precision_us := 100;
     fa_connections := 1; fa_client_offset := 0; fa_total_clients := 1;
     fa_command_mix := ClientCommandMix.Article; fa_start_id := 1;
     fa_workload_policy := LoadWorkloadPolicy.Repeat;
     fa_verification_policy := LoadVerificationPolicy.None; fa_csv := false; fa_json := false;
     fa_stats_interval_secs := 0; fa_nodelay := true; fa_socket_recv_buffer := 0; fa_socket_send_buffer := 0 |}.

Example refusal_reported :
  sample_run refused_args
  = Some ((Err {| io_kind := ErrorKind.InvalidData; io_message := lit "invalid message-id" |}, []), []).
Proof. vm_compute. reflexivity. Qed.

Lemma fetch_program_prints_witness :
  exists r printed n', sample_run sample_args = Some ((r, printed), n')
  /\ exists calls, asked_calls session_fs sample_args = Ok calls
  /\ Forall (fun call => request_ok (s_request (sending_of call))) calls.
Proof.
  assert (args_str sample_args) as Hs.
  { repeat apply List.Forall_cons; try exact I; try apply List.Forall_nil.
    cbn [sample_args fa_message_id opt_ok]. by exists (lit "a@b"). }
  destruct (fetch_program_prints (Mc := naive_memchr) (C := list Call) (fun _ => None) session_fs (fun _ => []) no_segments
    (fun text => text) no_build None quiet_end (fun output => (Ok tt, output)) sample_args [] Hs
    ltac:(left; by eexists)) as (r & printed & n' & E & H).
  exists r, printed, n'. split; [exact E|].
  destruct (asked_calls session_fs sample_args) as [calls|e] eqn:Ec; [|vm_compute in Ec; discriminate].
  exists calls. split; [done|exact (proj1 H)].
Defined.

Lemma socket_options_set_witness :
  snd (connect_client_socket (N := list SocketOp) {| sa_ip := lit "::1"; sa_port := 119 |} true (2 ^ 20) 0 [])
  = [OpNew false; OpRecvBuffer (2 ^ 20); OpNodelay true; OpConnect {| sa_ip := lit "::1"; sa_port := 119 |}].
Proof.
  exact (proj1 (socket_options_set (N := list SocketOp) {| sa_ip := lit "::1"; sa_port := 119 |} true (2 ^ 20) 0 [])
    (conj eq_refl eq_refl)).
Defined.
