(* ===== verification/IndexedSession.v ===== *)
(** * Sessions of a server with an article store

    What the index holds after it is built over a directory, that every command
    read from a connection keeps its own line whatever the client sends, that the
    current article of a session is always an article of the selected group, and
    that NEXT and LAST walk a stored group. *)
From S2P Require Import Prelude Utf8 Decimal Memchr Args Terminator Kinds RequestLine Article ResponseFrame ClientWire Text.
From S2P Require Import ServerDates ServerResponses OrderedMap ArticleDates ServerCommands ServerParsing ServerReading ServerIndex.
From S2P Require Import ServerPayload ArticleStore ServerStore ServerSession ServerArguments ServerReplies FixtureSamples.

Local Open Scope Z_scope.
Local Open Scope rust_scope.

(** ** The index that is built *)

Section index.
Context `{Mc : !Memchr}.
Variable find_end : bytes -> option nat.

(** The article of a file: its number and its entry; [None] is a panic. *)
Definition read_article (content : bytes) : option (option (Z * ArticleStoreEntry)) :=
  match article_parse find_end content with
  | Err _ => Some None
  | Ok article =>
      match article_number article with
      | None => Some None
      | Some number => entry ← article_store_entry article; Some (Some (number, entry))
      end
  end.

(** The articles of a directory in the order in which they are read. *)
Fixpoint read_articles (contents : list bytes) : option (list (Z * ArticleStoreEntry)) :=
  match contents with
  | [] => Some []
  | content :: contents =>
      article ← read_article content;
      articles ← read_articles contents;
      Some (match article with Some article => article :: articles | None => articles end)
  end.

Definition add_read (builder : IndexBuilder) (article : Z * ArticleStoreEntry) : IndexBuilder :=
  {| ib_groups := fold_left (add_to_group (fst article) (entry_date_key (snd article)))
       (entry_newsgroups (snd article)) (ib_groups builder);
     ib_articles_by_number := btree_insert (fst article) (snd article) (ib_articles_by_number builder);
     ib_articles_by_message_id :=
       (entry_message_id (snd article), fst article) :: ib_articles_by_message_id builder |}.

Lemma add_article_read builder content :
  add_article find_end builder content
  = article ← read_article content;
    Some (match article with Some article => add_read builder article | None => builder end).
Proof.
  unfold add_article, read_article. destruct (article_parse find_end content) as [article|]; [|done].
  destruct (article_number article) as [number|]; [|done].
  destruct (article_store_entry article) as [entry|] eqn:E; [|done].
  assert (Hid : entry_message_id entry = article_message_id article).
  { unfold article_store_entry in E. apply bind_Some in E as (key & _ & E). by injection E as <-. }
  cbn [mbind option_bind]. unfold add_read. cbn [fst snd]. by rewrite Hid.
Qed.

Lemma add_articles_read contents : forall builder,
  add_articles find_end builder contents
  = articles ← read_articles contents; Some (fold_left add_read articles builder).
Proof.
  induction contents as [|content contents IH]; intros builder; [done|]. cbn [add_articles read_articles].
  rewrite add_article_read. destruct (read_article content) as [[article|]|]; [..|done]; cbn [mbind option_bind];
    rewrite IH; by destruct (read_articles contents).
Qed.

(** *** What the maps hold *)

(** The last of the articles with a property. *)
Fixpoint last_with {A} (p : A -> bool) (l : list A) : option A :=
  match l with
  | [] => None
  | x :: l => match last_with p l with Some y => Some y | None => if p x then Some x else None end
  end.

Lemma last_with_snoc {A} (p : A -> bool) l x : last_with p (l ++ [x]) = if p x then Some x else last_with p l.
Proof. induction l as [|y l IH]; cbn [last_with app]; [done|]. rewrite IH. by destruct (p x). Qed.

Lemma last_with_In {A} (p : A -> bool) l x : last_with p l = Some x -> In x l /\ p x = true.
Proof.
  induction l as [|y l IH]; cbn [last_with In]; [done|]. destruct (last_with p l); [intros [= ->]; tauto|].
  destruct (p y) eqn:E; [|done]. intros [= ->]. auto.
Qed.

Lemma last_with_found {A} (p : A -> bool) l x : In x l -> p x = true -> is_Some (last_with p l).
Proof.
  induction l as [|y l IH]; cbn [last_with In]; [done|]. intros [->|Hin] Hp.
  - destruct (last_with p l); [by eexists|]. rewrite Hp. by eexists.
  - destruct (IH Hin Hp) as [z ->]. by eexists.
Qed.

Definition numbered (n : Z) (article : Z * ArticleStoreEntry) : bool := fst article =? n.
Definition named (message_id : bytes) (article : Z * ArticleStoreEntry) : bool :=
  bytes_eqb (entry_message_id (snd article)) message_id.

(** The numbers kept for a group so far, with repetitions. *)
Definition numbers_of (groups : list (bytes * ArticleStoreGroupBuilder)) (name : bytes) : list Z :=
  default [] (builder_article_numbers <$> btree_get groups name).

(** The time kept for a group so far. *)
Definition time_of (groups : list (bytes * ArticleStoreGroupBuilder)) (name : bytes) : Z :=
  default 0 (builder_active_time <$> btree_get groups name).

(** The latest date among the articles of a group; 0 when none has a date. *)
Definition latest_date (name : bytes) (articles : list (Z * ArticleStoreEntry)) : Z :=
  foldr Z.max 0 ((fun article => default 0 (entry_date_key (snd article)))
    <$> filter (fun article => name ∈ entry_newsgroups (snd article)) articles).

Lemma latest_date_snoc name articles article :
  latest_date name (articles ++ [article])
  = if decide (name ∈ entry_newsgroups (snd article))
    then Z.max (latest_date name articles) (default 0 (entry_date_key (snd article))) else latest_date name articles.
Proof.
  unfold latest_date. rewrite list.filter_app, fmap_app, foldr_app, list.filter_cons, list.filter_nil.
  destruct (decide _); cbn [fmap list_fmap foldr]; [|done].
  generalize (default 0 (entry_date_key (snd article))). intros key.
  induction (_ <$> _) as [|date dates IH]; cbn [foldr]; [lia|]. rewrite IH. lia.
Qed.

Record built (articles : list (Z * ArticleStoreEntry)) (builder : IndexBuilder) : Prop := {
  bl_ordered : ordered (ib_groups builder);
  bl_number n : btree_get (ib_articles_by_number builder) n = snd <$> last_with (numbered n) articles;
  bl_named message_id : assoc_get (ib_articles_by_message_id builder) message_id = fst <$> last_with (named message_id) articles;
  bl_group name n : In n (numbers_of (ib_groups builder) name) <->
    exists entry, In (n, entry) articles /\ In name (entry_newsgroups entry);
  bl_some name group : btree_get (ib_groups builder) name = Some group -> builder_article_numbers group <> [];
  bl_time name : time_of (ib_groups builder) name = latest_date name articles;
}.

Lemma numbers_add number key groups name name' :
  numbers_of (add_to_group number key groups name) name'
  = if decide (name' = name) then numbers_of groups name ++ [number] else numbers_of groups name'.
Proof.
  unfold numbers_of, add_to_group. rewrite btree_get_insert. destruct (cmp name' name) eqn:E.
  - apply cmp_eq in E as ->. rewrite decide_True by done. cbn. by destruct (btree_get groups name).
  - rewrite decide_False; [done|]. intros ->. by rewrite cmp_refl in E.
  - rewrite decide_False; [done|]. intros ->. by rewrite cmp_refl in E.
Qed.

(** One article in all of its groups. *)
Lemma numbers_add_all number key names name n : forall groups,
  In n (numbers_of (fold_left (add_to_group number key) names groups) name)
  <-> In n (numbers_of groups name) \/ (n = number /\ In name names).
Proof.
  induction names as [|name' names IH]; intros groups; cbn [fold_left In]; [tauto|]. rewrite IH, numbers_add.
  destruct (decide (name = name')) as [->|Hn]; [rewrite in_app_iff; cbn [In]|]; intuition congruence.
Qed.

Lemma add_all_ordered number key names : forall groups,
  ordered groups -> ordered (fold_left (add_to_group number key) names groups).
Proof.
  induction names as [|name names IH]; intros groups H; [done|]. cbn [fold_left]. apply IH. by apply btree_insert_ordered.
Qed.

Lemma time_add_all number key names name : forall groups,
  time_of (fold_left (add_to_group number key) names groups) name
  = if decide (name ∈ names) then Z.max (time_of groups name) (default 0 key) else time_of groups name.
Proof.
  induction names as [|name' names IH]; intros groups; cbn [fold_left].
  { rewrite decide_False; [done|]. apply not_elem_of_nil. }
  rewrite IH. unfold time_of, add_to_group. rewrite btree_get_insert. destruct (cmp name name') eqn:E.
  2-3: assert (name ∈ name' :: names <-> name ∈ names) as Hn
    by (rewrite elem_of_cons; split; [|by right]; intros [->|H]; [by rewrite cmp_refl in E|done]);
    by rewrite (decide_ext _ _ _ _ Hn).
  apply cmp_eq in E as ->. rewrite (decide_True (P := name' ∈ name' :: names)) by by left.
  destruct (btree_get groups name'), (decide _); cbn; lia.
Qed.

(** No group loses an article. *)
Lemma add_all_group number key names name group' : forall groups,
  btree_get (fold_left (add_to_group number key) names groups) name = Some group' ->
  (forall group, btree_get groups name = Some group -> builder_article_numbers group <> []) ->
  builder_article_numbers group' <> [].
Proof.
  induction names as [|name' names IH]; intros groups E Hne; cbn [fold_left] in E; [by apply Hne|].
  apply (IH _ E). intros group. unfold add_to_group. rewrite btree_get_insert.
  destruct (cmp name name'); [|by apply Hne..]. intros [= <-] [_ H]%app_nil. done.
Qed.

Lemma built_step articles builder article : built articles builder -> built (articles ++ [article]) (add_read builder article).
Proof.
  intros [B1 B2 B3 B4 B5 B6]. destruct article as [number entry].
  split; cbn [ib_groups ib_articles_by_number ib_articles_by_message_id add_read fst snd].
  - by apply add_all_ordered.
  - intros n. rewrite btree_get_insert, last_with_snoc, B2. change (numbered n (number, entry)) with (number =? n).
    destruct (cmp n number) eqn:E; cbn in E; [apply Z.compare_eq_iff in E as ->; by rewrite Z.eqb_refl|..];
      (destruct (Z.eqb_spec number n) as [->|]; [by rewrite Z.compare_refl in E|done]).
  - intros message_id. cbn [assoc_get]. rewrite last_with_snoc, B3. change (named message_id (number, entry)) with (bytes_eqb (entry_message_id entry) message_id).
    by destruct (bytes_eqb _ _).
  - intros name n. rewrite numbers_add_all, B4. setoid_rewrite in_app_iff. cbn [In]. split.
    + intros [(e & H1 & H2)|[-> H]]; [by exists e; auto|]. exists entry. auto.
    + intros (e & [H1|[[= <- <-]|[]]] & H2); [left; by exists e|by right].
  - intros name group E. by eapply add_all_group; [|apply B5].
  - intros name. by rewrite time_add_all, latest_date_snoc, B6.
Qed.

Definition empty_builder : IndexBuilder := {| ib_groups := []; ib_articles_by_number := []; ib_articles_by_message_id := [] |}.

Lemma built_all articles : built articles (fold_left add_read articles empty_builder).
Proof.
  induction articles as [|article articles IH] using rev_ind.
  - split; cbn; try done; [constructor|]. intros name n. split; [done|]. by intros (e & [] & _).
  - rewrite fold_left_app. by apply built_step.
Qed.

Lemma btree_get_fmap {K V W} `{!Ordered K} (f : V -> W) (m : list (K * V)) k :
  btree_get ((fun g => (fst g, f (snd g))) <$> m) k = f <$> btree_get m k.
Proof. induction m as [|[k' v] m IH]; [done|]. cbn [fmap list_fmap btree_get fst snd]. by destruct (cmp k k'). Qed.

(** The index of a directory is that of the articles that can be read from it. *)
Record indexes (index : ArticleStoreIndex) (articles : list (Z * ArticleStoreEntry)) : Prop := {
  ix_entry n : article_entry index n = snd <$> last_with (numbered n) articles;
  ix_number message_id : article_number_for_message_id index message_id = fst <$> last_with (named message_id) articles;
  ix_increasing name numbers : article_numbers_for_group index name = Some numbers -> increasing numbers /\ numbers <> [];
  ix_group name : (exists n entry, In (n, entry) articles /\ In name (entry_newsgroups entry)) <->
    is_Some (article_numbers_for_group index name);
  ix_numbers name numbers n : article_numbers_for_group index name = Some numbers ->
    In n numbers <-> exists entry, In (n, entry) articles /\ In name (entry_newsgroups entry);
  ix_time name group : index_group index name = Some group -> group_active_time group = latest_date name articles;
}.

Lemma finish_numbers builder name :
  article_numbers_for_group (finish_index builder) name
  = (fun group => dedup (sort_unstable (builder_article_numbers group))) <$> btree_get (ib_groups builder) name.
Proof.
  unfold article_numbers_for_group, index_group, finish_index. cbn [index_groups]. rewrite btree_get_fmap.
  by destruct (btree_get _ _).
Qed.

Lemma numbers_In group n : In n (dedup (sort_unstable (builder_article_numbers group))) <-> In n (builder_article_numbers group).
Proof. by rewrite dedup_In, sort_unstable_In. Qed.

Lemma built_indexes articles builder : built articles builder -> indexes (finish_index builder) articles.
Proof.
  intros [B1 B2 B3 B4 B5 B6]. assert (Hin : forall name group, btree_get (ib_groups builder) name = Some group ->
    forall n, In n (builder_article_numbers group) <-> exists entry, In (n, entry) articles /\ In name (entry_newsgroups entry)).
  { intros name group E n. rewrite <- B4. unfold numbers_of. by rewrite E. }
  split; cbn [finish_index]; [done|done|..].
  - intros name numbers E. rewrite finish_numbers in E. destruct (btree_get _ _) as [group|] eqn:Eg; [|done].
    injection E as <-. split; [apply sort_dedup_increasing|]. specialize (B5 _ _ Eg).
    destruct (builder_article_numbers group) as [|n l] eqn:El; [done|]. intros E.
    assert (In n []) as []. rewrite <- E, <- El. apply numbers_In. rewrite El. by left.
  - intros name. rewrite finish_numbers. split.
    + intros (n & entry & H). assert (In n (numbers_of (ib_groups builder) name)) as Hn by (apply B4; by exists entry).
      unfold numbers_of in Hn. destruct (btree_get _ _); [by eexists|done].
    + intros [numbers E]. destruct (btree_get _ _) as [group|] eqn:Eg; [|done].
      specialize (B5 _ _ Eg). destruct (builder_article_numbers group) as [|n l] eqn:El; [done|].
      exists n. apply (Hin name group Eg). rewrite El. by left.
  - intros name numbers n E. rewrite finish_numbers in E. destruct (btree_get _ _) as [group|] eqn:Eg; [|done].
    injection E as <-. by rewrite numbers_In, (Hin _ _ Eg).
  - intros name group E. unfold index_group, finish_index in E. cbn [index_groups] in E.
    rewrite btree_get_fmap in E. destruct (btree_get _ _) as [old|] eqn:Eg; [|done]. injection E as <-.
    rewrite <- B6. unfold time_of. by rewrite Eg.
Qed.

(** C6: the index built over a directory, when no date in it overflows, is that
    of the articles read from it: a number leads to the last article read with it
    and a message-id to the number of the last article read with it; there is a
    group for every name an article has in its Newsgroups, with the numbers of
    its articles, each once and in increasing order, at least one; each of these
    numbers leads to an entry; and the time of a group is exactly the latest date
    of its articles, 0 when none of them has a date. *)
Theorem index_built_sound root index :
  build_index find_end root = Some index ->
  exists articles, read_articles (collect_articles root) = Some articles /\ indexes index articles
  /\ forall name numbers n, article_numbers_for_group index name = Some numbers -> In n numbers ->
       is_Some (article_entry index n).
Proof.
  unfold build_index. fold empty_builder. rewrite add_articles_read.
  destruct (read_articles (collect_articles root)) as [articles|]; [|done]. intros [= <-].
  pose proof (built_indexes _ _ (built_all articles)) as Hi. exists articles. split; [done|]. split; [done|].
  intros name numbers n E Hn. apply (ix_numbers _ _ Hi _ _ _ E) in Hn as (entry & Hin & _).
  rewrite (ix_entry _ _ Hi). destruct (last_with_found (numbered n) _ _ Hin (Z.eqb_refl n)) as [x ->]. by eexists.
Qed.
End index.

(** ** The current article *)

Section cursor.
Context {W : Type} `{Aw : !AsyncWrite W, Sk : !ServerSocket W}.
Context `{Mc : !Memchr, Fs : !FileSystem}.
Variable find_end : bytes -> option nat.
Variable config : ServerConfig.

Local Abbreviation index := (article_index config).

(** A number of the group that is selected. *)
Definition in_group (st : SessionState) (n : Z) : Prop :=
  exists group numbers, ss_selected_group st = Some group /\ selected_article_numbers group index = Some numbers /\ In n numbers.

Record cursor_ok (st : SessionState) : Prop := {
  cu_selected : ss_group_selected st = true <-> is_Some (ss_selected_group st);
  cu_current n : ss_current_article st = Some n -> in_group st n;
}.

Lemma cursor_default : cursor_ok session_state_default.
Proof. by split; [split; [|intros []]|]. Qed.

Definition at_article (st : SessionState) (n : Z) : SessionState :=
  {| ss_group_selected := ss_group_selected st; ss_selected_group := ss_selected_group st; ss_current_article := Some n |}.

Lemma cursor_at st n : cursor_ok st -> in_group st n -> cursor_ok (at_article st n).
Proof. intros [H1 H2] Hn. split; [done|]. by intros m [= <-]. Qed.

Lemma binary_search_loop_In fuel l n i : forall lo hi, binary_search_loop fuel l lo hi n = Some i -> l !! i = Some n.
Proof.
  induction fuel as [|fuel IH]; intros lo hi E; [done|]. cbn [binary_search_loop] in E. destruct (lo <? hi)%nat; [|done].
  destruct (l !! (lo + (hi - lo) / 2)%nat) as [y|] eqn:Ey; [|done].
  destruct (Z.compare_spec y n) as [->|H|H]; [by injection E as <-|by apply IH in E..].
Qed.

Lemma binary_search_In l n i : binary_search l n = Some i -> l !! i = Some n.
Proof. apply binary_search_loop_In. Qed.

Lemma contains_in_group st n : current_group_contains st n index = true -> in_group st n.
Proof.
  unfold current_group_contains, current_group_articles. destruct (ss_selected_group st) as [group|] eqn:Eg; [|done].
  cbn [mbind option_bind]. destruct (selected_article_numbers group index) as [numbers|] eqn:En; [|done]. cbn [is_some_and].
  destruct (binary_search numbers n) as [i|] eqn:Ei; [|done]. intros _. exists group, numbers. split; [done|]. split; [done|].
  apply binary_search_In in Ei. apply list_elem_of_In. by apply list_elem_of_lookup_2 in Ei.
Qed.

(** *** Operations that leave the state alone *)

Definition frames {A} (m : M W A) : Prop := forall s, se_state (snd (m s)) = se_state s.

Lemma frames_ret {A} (a : A) : frames (mret a). Proof. done. Qed.
Lemma frames_bind {A B} (m : M W A) (k : A -> M W B) : frames m -> (forall a, frames (k a)) -> frames (m ≫= k).
Proof.
  intros Hm Hk s. unfold mbind, M_bind. specialize (Hm s). destruct (m s) as [[a|stop] s1]; cbn in *; [|done].
  by rewrite Hk.
Qed.
Lemma frames_get_session : frames get_session. Proof. done. Qed.
Lemma frames_get_state : frames get_state. Proof. done. Qed.
Lemma frames_get_aux : frames get_aux. Proof. done. Qed.
Lemma frames_set_aux aux : frames (set_aux aux). Proof. done. Qed.
Lemma frames_read_clock : frames read_clock. Proof. done. Qed.
Lemma frames_count a b c d e : frames (count a b c d e). Proof. done. Qed.
Lemma frames_publish : frames publish_session_delta. Proof. done. Qed.
Lemma frames_fails {A} error : frames (fails (A := A) error). Proof. done. Qed.
Lemma frames_try_io {A} (r : result A IoError) : frames (try_io r). Proof. intros s. by destruct r. Qed.
Lemma frames_or_panic {A} (o : option A) : frames (or_panic o). Proof. intros s. by destruct o. Qed.
Lemma frames_io m : frames (io m).
Proof. intros s. unfold io. by destruct (m (se_writer s)) as [[[]|e] w]. Qed.
Lemma frames_clear : frames pending_clear. Proof. done. Qed.
Lemma frames_append data : frames (pending_append data). Proof. done. Qed.

Create HintDb frames.
#[local] Hint Resolve frames_ret frames_get_session frames_get_state frames_get_aux frames_set_aux frames_read_clock frames_count
  frames_publish frames_fails frames_try_io frames_or_panic frames_io frames_clear frames_append : frames.

Ltac framing := repeat first
  [ solve [auto with frames]
  | apply frames_bind; [|intros ?]
  | match goal with |- frames (match ?x with _ => _ end) => destruct x end
  | progress cbn zeta ].

Lemma frames_flush : frames pending_flush.
Proof. unfold pending_flush. framing. Qed.
Lemma frames_with_response response : frames (write_with_response response).
Proof. unfold write_with_response. framing. Qed.
#[local] Hint Resolve frames_flush frames_with_response : frames.
Lemma frames_response response : frames (write_response response).
Proof. unfold write_response, pending_push. framing. Qed.
#[local] Hint Resolve frames_response : frames.
Lemma frames_respond response : frames (respond response).
Proof. unfold respond. framing. Qed.
#[local] Hint Resolve frames_respond : frames.
Lemma frames_file reads : frames (write_file_response_to_async reads).
Proof. induction reads as [|[[|b data]|e] reads IH]; cbn [write_file_response_to_async]; framing. Qed.
#[local] Hint Resolve frames_file : frames.
Lemma frames_stored kind article_id message_id : frames (write_stored_article_response find_end config kind article_id message_id).
Proof. unfold write_stored_article_response. framing. Qed.
#[local] Hint Resolve frames_stored : frames.
Lemma frames_stored_if_any kind article_id message_id : frames (write_stored_if_any find_end config kind article_id message_id).
Proof. unfold write_stored_if_any. framing. Qed.
Lemma frames_slices message_id : frames (write_message_id_article_response config message_id).
Proof. unfold write_message_id_article_response. framing. Qed.
Lemma frames_listing indexed fixture : frames (respond_listing config indexed fixture).
Proof. unfold respond_listing. framing. Qed.
Lemma frames_overview indexed fixture command lines : frames (handle_overview config indexed fixture command lines).
Proof. unfold handle_overview, respond_filled. framing. Qed.
#[local] Hint Resolve frames_stored_if_any frames_slices frames_listing frames_overview : frames.

(** *** Operations that move the cursor *)

Definition ends {A} (st : SessionState) (m : M W A) : Prop := forall s, se_state s = st -> cursor_ok (se_state (snd (m s))).

Lemma ends_frames {A} st (m : M W A) : frames m -> cursor_ok st -> ends st m.
Proof. intros Hm Hst s Hs. by rewrite Hm, Hs. Qed.

Lemma ends_bind {A B} st (m : M W A) (k : A -> M W B) :
  frames m -> cursor_ok st -> (forall a, ends st (k a)) -> ends st (m ≫= k).
Proof.
  intros Hm Hst Hk s Hs. unfold mbind, M_bind. specialize (Hm s). destruct (m s) as [[a|stop] s1]; cbn [snd] in *.
  - apply Hk. congruence.
  - by rewrite Hm, Hs.
Qed.

Lemma ends_get_state {B} st (k : SessionState -> M W B) : ends st (k st) -> ends st (get_state ≫= k).
Proof. intros Hk s Hs. unfold mbind, M_bind, get_state. rewrite Hs. by apply Hk. Qed.

Lemma ends_or_panic {A B} st (o : option A) (k : A -> M W B) :
  cursor_ok st -> (forall a, o = Some a -> ends st (k a)) -> ends st (or_panic o ≫= k).
Proof. intros Hst Hk s Hs. unfold mbind, M_bind, or_panic. destruct o; [by apply Hk|]. cbn. by rewrite Hs. Qed.

Lemma ends_set_state {B} st st' (k : unit -> M W B) : cursor_ok st' -> frames (k tt) -> ends st (set_state st' ≫= k).
Proof. intros Hst Hk s Hs. unfold mbind, M_bind, set_state. by rewrite Hk. Qed.

Lemma ends_set_current {B} st n (k : unit -> M W B) : ends (at_article st n) (k tt) -> ends st (set_current (Some n) ≫= k).
Proof. intros Hk s Hs. unfold mbind, M_bind, set_current. apply Hk. by rewrite <- Hs. Qed.

Lemma ends_try_io {A B} st (r : result A IoError) (k : A -> M W B) :
  cursor_ok st -> (forall a, r = Ok a -> ends st (k a)) -> ends st (try_io r ≫= k).
Proof. intros Hst Hk s Hs. unfold mbind, M_bind, try_io. destruct r; [by apply Hk|]. cbn. by rewrite Hs. Qed.

(** One operation after the other. *)
Lemma ends_then {A B} st (m : M W A) (k : A -> M W B) :
  ends st m -> (forall a st', cursor_ok st' -> ends st' (k a)) -> ends st (m ≫= k).
Proof.
  intros Hm Hk s Hs. specialize (Hm s Hs). unfold mbind, M_bind. destruct (m s) as [[a|stop] s1]; [|done]. by eapply Hk.
Qed.

(** A selector that passed names a message-id, or an article of the group. *)
Lemma selector_passes st line command lines :
  reads_line line command lines -> article_kind (pc_kind command) -> cursor_ok st ->
  article_selector_error config command (Some lines) st true = Some None ->
  (message_id_of command (Some lines) = None
     /\ exists n, option_or (pc_article_id command) (ss_current_article st) = Some n /\ in_group st n)
  \/ (exists m, message_id_of command (Some lines) = Some m /\ pc_article_id command = None).
Proof.
  intros Hr Hk [Hsel Hcur] E. destruct (article_selector line command lines Hr Hk) as [Harg Hm].
  unfold article_selector_error, args_of in E. unfold message_id_of in *. cbn zeta in E.
  change (Some lines ≫= command_message_id command) with (command_message_id command lines).
  rewrite Hm. revert Harg E. generalize (default [] (command_args command (Some lines))). intros args Harg E.
  unfold has_article_id in E. inversion Harg as [Ha Hid Hmid|a n Hne Hn Ha Hid Hmid|a m Hne Hshape Ha Hid Hmid].
  - left. split; [done|]. rewrite <- Ha in E. cbn [length Nat.eqb andb] in E.
    destruct (negb (ss_group_selected st)); [discriminate E|].
    destruct (ss_current_article st) as [n|] eqn:En; [|discriminate E]. exists n. split; [done|]. by apply Hcur.
  - left. split; [done|]. exists n. split; [done|]. apply contains_in_group. rewrite <- Hid in E.
    replace (length args =? 0)%nat with false in E by (by destruct args). cbn [andb is_some_and] in E.
    destruct (negb (ss_group_selected st)); [discriminate E|]. destruct (current_group_contains st n index); [done|discriminate E].
  - right. by exists m.
Qed.

Lemma ends_selector st line command lines next :
  reads_line line command lines -> article_kind (pc_kind command) -> cursor_ok st ->
  ((message_id_of command (Some lines) = None
      /\ exists n, option_or (pc_article_id command) (ss_current_article st) = Some n /\ in_group st n)
   \/ (exists m, message_id_of command (Some lines) = Some m /\ pc_article_id command = None) -> ends st (next st)) ->
  ends st (or_selector_error config command (Some lines) next).
Proof.
  intros Hr Hk Hst Hnext. unfold or_selector_error. apply ends_get_state, ends_or_panic; [done|].
  intros [response|] E; [apply ends_frames; [auto with frames|done]|]. apply Hnext. by eapply selector_passes.
Qed.

Lemma ends_article st line command lines :
  reads_line line command lines -> pc_kind command = RequestKind.Article -> cursor_ok st ->
  ends st (handle_article find_end config command (Some lines)).
Proof.
  intros Hr Hk Hst. unfold handle_article. apply ends_bind; [auto with frames|done|intros _].
  apply (ends_selector st line); [done|by left|done|]. intros Hsel. destruct (has_article_dir config).
  - apply ends_bind; [auto with frames|done|]. intros [|]; [|apply ends_frames; [auto with frames|done]].
    destruct Hsel as [[_ (n & En & Hn)]|(m & _ & ->)]; [|by apply ends_frames].
    destruct (pc_article_id command) as [id|]; [|by apply ends_frames]. injection En as ->.
    apply ends_set_current, ends_frames; [auto with frames|]. by apply cursor_at.
  - destruct Hsel as [[-> (n & -> & Hn)]|(m & -> & _)]; [|apply ends_frames; [framing|done]].
    apply ends_set_current, ends_frames; [cbn [default]; framing|]. by apply cursor_at.
Qed.

Lemma ends_part st line kind counted first_response selected by_message_id command lines :
  reads_line line command lines -> pc_kind command = kind -> article_kind kind -> cursor_ok st -> frames counted ->
  ends st (handle_article_part find_end config kind counted first_response selected by_message_id command (Some lines)).
Proof.
  intros Hr Hk Ha Hst Hc. unfold handle_article_part. apply ends_bind; [done|done|intros _].
  apply (ends_selector st line); [done|by rewrite Hk|done|].
  intros [[-> (n & -> & Hn)]|(m & -> & _)]; [|apply ends_frames; [framing|done]]. cbn [default].
  pose proof (cursor_at st n Hst Hn) as Hst1. apply ends_set_current. apply ends_bind; [auto with frames|done|].
  intros [|].
  - by apply ends_set_current, ends_frames.
  - apply ends_bind; [auto with frames|done|intros response]. apply ends_bind; [auto with frames|done|intros []].
    by apply ends_set_current, ends_frames.
Qed.

(** *** Groups *)

Lemma cursor_fixture group : cursor_ok (select_group (Fixture group) (FixtureGroup.first_article group)).
Proof.
  split; [by split; [eexists|]|]. intros n Hn. exists (Fixture group), (FixtureGroup.article_numbers group).
  split; [done|]. split; [done|]. by apply first_article_in.
Qed.

Lemma cursor_named idx name fixture_name st :
  index = Some idx -> is_Some (article_numbers_for_group idx name) \/ is_Some (fixture_group_from_name fixture_name) ->
  cursor_ok (select_named_group idx name fixture_name st).
Proof.
  intros Hi Hname. unfold select_named_group. destruct (article_numbers_for_group idx name) as [numbers|] eqn:En.
  - split; [by split; [eexists|]|]. intros n Hn. exists (Indexed name), numbers. split; [done|].
    split; [cbn; by rewrite Hi|]. cbn in Hn. destruct numbers; [done|]. injection Hn as ->. by left.
  - destruct Hname as [[? ?]|[group ->]]; [done|apply cursor_fixture].
Qed.

Lemma group_response_named args idx response :
  group_response_for_args_with_index_into args idx = Some response ->
  is_Some (article_numbers_for_group idx (group_name_of args)) \/ is_Some (fixture_group_from_name args).
Proof.
  unfold group_response_for_args_with_index_into, group_name_of. destruct (from_utf8 args); [|done]. cbn [mbind option_bind].
  destruct (article_numbers_for_group idx (trim args)); [by left; eexists|]. destruct (fixture_group_from_name args); [|done].
  by right; eexists.
Qed.

Lemma ends_group st command lines : cursor_ok st -> ends st (handle_group config command lines).
Proof.
  intros Hst. unfold handle_group. cbn zeta. destruct index as [idx|] eqn:Ei.
  - destruct (group_response_for_args_with_index_into _ idx) as [response|] eqn:Eg; [|apply ends_frames; [auto with frames|done]].
    apply ends_bind; [auto with frames|done|intros _]. apply ends_get_state, ends_set_state; [|auto with frames].
    apply cursor_named; [done|]. by eapply group_response_named.
  - destruct (fixture_group_from_name _) as [group|]; [|apply ends_frames; [auto with frames|done]].
    apply ends_set_state; [apply cursor_fixture|auto with frames].
Qed.

Lemma ends_listgroup st command lines : cursor_ok st -> ends st (handle_listgroup config command lines).
Proof.
  intros Hst. unfold handle_listgroup. cbn zeta. apply ends_get_state.
  destruct (listgroup_state_error _ st); [apply ends_frames; [auto with frames|done]|].
  destruct index as [idx|] eqn:Ei; [|apply ends_set_state; [apply cursor_fixture|auto with frames]].
  set (current := selected_group_name st (Some idx)).
  destruct (listgroup_response_for_args_with_index_into _ current idx) as [response|] eqn:Eg;
    [|apply ends_frames; [auto with frames|done]].
  apply ends_bind; [auto with frames|done|intros _]. apply ends_set_state; [|auto with frames].
  apply cursor_named; [done|]. unfold listgroup_response_for_args_with_index_into in Eg. cbn zeta in Eg.
  destruct (article_numbers_for_group idx _); [by left; eexists|]. right. by destruct (fixture_group_from_name _); [eexists|].
Qed.

(** *** LAST and NEXT *)

Lemma next_in_group st n m : current_group_next_article st n index = Some m -> in_group st m.
Proof.
  unfold current_group_next_article, current_group_articles. intros (numbers & E & H)%bind_Some.
  apply bind_Some in E as (group & Eg & En). apply bind_Some in H as (i & _ & H). exists group, numbers.
  split; [done|]. split; [done|]. apply list_elem_of_In. by apply list_elem_of_lookup_2 in H.
Qed.

Lemma previous_in_group st n m : current_group_previous_article st n index = Some m -> in_group st m.
Proof.
  unfold current_group_previous_article, current_group_articles. intros (numbers & E & H)%bind_Some.
  apply bind_Some in E as (group & Eg & En). apply bind_Some in H as (i & _ & H). destruct i as [|i]; [done|].
  exists group, numbers. split; [done|]. split; [done|]. apply list_elem_of_In. by apply list_elem_of_lookup_2 in H.
Qed.

Lemma ends_navigation st no_article indexed fixture response :
  cursor_ok st ->
  (forall n m, ss_current_article st = Some n ->
     match index with Some idx => indexed st n idx = Some m | None => fixture st n = Some m end -> in_group st m) ->
  ends st (handle_navigation config no_article indexed fixture response).
Proof.
  intros Hst Hmoved. unfold handle_navigation. apply ends_get_state. cbn zeta.
  destruct (negb (ss_group_selected st)); [apply ends_frames; [auto with frames|done]|].
  destruct (ss_current_article st) as [n|]; [|apply ends_frames; [auto with frames|done]].
  destruct (match index with Some idx => indexed st n idx | None => fixture st n end) as [m|] eqn:Em;
    [|apply ends_frames; [auto with frames|done]].
  apply ends_set_current, ends_frames; [framing|]. apply cursor_at; [done|]. apply (Hmoved n); [done|].
  by destruct index.
Qed.

(** Without an index the group is of the fixture, and its numbers have no gap. *)
Lemma fixture_cursor st n :
  cursor_ok st -> index = None -> ss_current_article st = Some n ->
  exists group, ss_selected_group st = Some (Fixture group) /\ In n (FixtureGroup.article_numbers group).
Proof.
  intros [_ Hcur] Hi Hn. destruct (Hcur n Hn) as (group & numbers & Hg & Hnum & Hin). rewrite Hi in Hnum.
  destruct group as [group|name]; [|done]. injection Hnum as <-. by exists group.
Qed.

Lemma ends_last st : cursor_ok st -> ends st (handle_last config).
Proof.
  intros Hst. apply ends_navigation; [done|]. intros n m Hn Hm. destruct index as [idx|] eqn:Ei.
  - rewrite <- Ei in *. by eapply previous_in_group.
  - destruct (fixture_cursor st n Hst Ei Hn) as (group & Hg & Hin). exists (Fixture group), (FixtureGroup.article_numbers group).
    split; [done|]. split; [done|]. unfold current_group_previous_article, current_group_articles in Hm. rewrite Hg in Hm.
    destruct group; cbn in Hin; intuition subst; vm_compute in Hm; try discriminate Hm; injection Hm as <-; cbn; tauto.
Qed.

Lemma ends_next st : cursor_ok st -> ends st (handle_next config).
Proof.
  intros Hst. apply ends_navigation; [done|]. intros n m Hn Hm. destruct index as [idx|] eqn:Ei.
  - rewrite <- Ei in *. by eapply next_in_group.
  - destruct (fixture_cursor st n Hst Ei Hn) as (group & Hg & Hin). exists (Fixture group), (FixtureGroup.article_numbers group).
    split; [done|]. split; [done|]. unfold current_group_next_article, current_group_articles, article_count in Hm. rewrite Hg in Hm.
    destruct group; cbn in Hin; intuition subst; vm_compute in Hm; try discriminate Hm; injection Hm as <-; cbn; tauto.
Qed.

(** *** Every command, and the whole session *)

Lemma ends_command st line command lines :
  reads_line line command lines -> cursor_ok st -> ends st (handle_command find_end config command (Some lines)).
Proof.
  intros Hr Hst. unfold handle_command. apply ends_bind; [auto with frames|done|intros _].
  unfold handle_head, handle_stat, handle_body, handle_list_active, handle_list_active_times, handle_list_newsgroups,
    handle_newgroups, handle_newnews, handle_date, handle_unknown.
  destruct (pc_kind command) eqn:Ek.
  all: try (apply ends_frames; [solve [framing]|done]).
  all: first
    [ by apply (ends_article st line)
    | apply (ends_part st line); [done|done|by unfold article_kind; intuition|done|auto with frames]
    | by apply ends_group | by apply ends_listgroup | by apply ends_last | by apply ends_next ].
Qed.

Lemma frames_batched commands lines : frames (write_batched_message_id_article_responses config commands lines).
Proof. unfold write_batched_message_id_article_responses. framing. Qed.

Lemma ends_commands fuel batch lines : forall st i,
  reads_batch batch lines -> cursor_ok st -> ends st (process_commands find_end config fuel batch (Some lines) i).
Proof.
  induction fuel as [|fuel IH]; intros st i Hb Hst; cbn [process_commands]; [by apply ends_frames|].
  destruct (batch !! i) as [command|] eqn:Ec; [|by apply ends_frames].
  apply ends_bind; [apply frames_batched|done|intros n]. destruct (negb (n =? 0)%nat); [by apply IH|].
  pose proof (Forall_lookup_1 _ _ _ _ Hb Ec) as [line Hline].
  apply ends_then; [by apply (ends_command st line)|]. intros [|] st' Hst'; [by apply ends_frames|by apply IH].
Qed.

Lemma ends_batch st batch lines :
  reads_batch batch lines -> cursor_ok st -> ends st (process_command_batch find_end config batch (Some lines)).
Proof.
  intros Hb Hst. unfold process_command_batch. apply ends_bind; [auto with frames|done|intros _].
  apply ends_then; [by apply ends_commands|]. intros outcome st' Hst'. apply ends_frames; [|done].
  unfold flush_session_writer, flush_writer_if_needed. framing.
Qed.

Lemma frames_cork linux on : frames (cork config linux on).
Proof. unfold cork. framing. Qed.

Lemma ends_loop linux fuel : forall st reader,
  (1 <= max_pipeline_depth config)%nat -> cursor_ok st -> ends st (serve_loop find_end config linux fuel reader).
Proof.
  induction fuel as [|fuel IH]; intros st reader Hd Hst; cbn [serve_loop]; [by apply ends_frames|].
  destruct (read_command_batch reader _) as [read reader'] eqn:Er.
  apply ends_try_io; [done|]. intros [batch|] ->.
  2: { apply ends_frames; [unfold flush_session_writer, flush_writer_if_needed; framing|done]. }
  apply batch_reads_lines in Er; [|unfold MAX_SERVER_PIPELINE_DEPTH in *; lia].
  apply ends_bind; [apply frames_cork|done|intros _]. apply ends_then; [by apply ends_batch|]. intros outcome st' Hst'.
  apply ends_bind; [apply frames_cork|done|intros _]. apply ends_bind; [auto with frames|done|intros _].
  destruct (BatchOutcome.should_close outcome); [by apply ends_frames|by apply IH].
Qed.

(** C5: whatever the client sends, and with an article store or without one, a
    session has a group selected when it says so, and its current article is one
    of the articles of that group: after every command that was parsed from a
    line, and at the end of the session however it ends. *)
Theorem current_article_in_group linux reader w capacity clock :
  (1 <= max_pipeline_depth config)%nat ->
  cursor_ok (se_state (snd (serve_session find_end config linux reader (session_new w capacity clock))))
  /\ forall line command lines (s : Session W), reads_line line command lines -> cursor_ok (se_state s) ->
       cursor_ok (se_state (snd (handle_command find_end config command (Some lines) s))).
Proof.
  intros Hd. split; [|intros line command lines s Hr Hs; by apply (ends_command (se_state s) line)].
  unfold serve_session. assert (ends session_state_default (serve_session_inner find_end config linux reader)) as He.
  { unfold serve_session_inner. apply ends_bind; [|apply cursor_default|].
    - unfold send_greeting, flush_writer_if_needed. framing.
    - intros _. by apply ends_loop; [|apply cursor_default]. }
  specialize (He (session_new w capacity clock) eq_refl).
  by destruct (serve_session_inner find_end config linux reader (session_new w capacity clock)) as [[[]|[e|]] s].
Qed.

(** *** Walking a stored group *)

Definition at_stored (name : bytes) (n : Z) : SessionState := select_group (Indexed name) (Some n).

Definition retrieved (n : Z) (entry : ArticleStoreEntry) : bytes :=
  lit "223 " ++ print_decimal n ++ lit " " ++ entry_message_id entry
  ++ bstr " article retrieved - request text separately\r\n".

(** LAST or NEXT from an article of a stored group. *)
Lemma navigation_stored idx name n (s : Session W) no_article indexed fixture response moved :
  index = Some idx -> se_state s = at_stored name n -> indexed (at_stored name n) n idx = moved ->
  (forall m, moved = Some m -> is_Some (article_entry idx m)) ->
  match moved with
  | Some m => exists entry, article_entry idx m = Some entry
      /\ handle_navigation config no_article indexed fixture response s
         = respond (retrieved m entry) (with_state s (at_stored name m))
  | None => handle_navigation config no_article indexed fixture response s = respond no_article s
  end.
Proof.
  intros Hi Hs Hm Hentry. unfold handle_navigation, mbind, M_bind, get_state. rewrite Hs. cbn [at_stored select_group
    ss_group_selected ss_current_article negb]. change (select_group (Indexed name) (Some n)) with (at_stored name n).
  cbv zeta. rewrite Hi, Hm. destruct moved as [m|]; [|done]. destruct (Hentry m eq_refl) as [entry He]. exists entry.
  split; [done|]. unfold set_current. rewrite Hs. unfold build_navigation_article_response_into. by rewrite He.
Qed.

(** C7: on a server with an article store GROUP of a group of the store selects
    it at its first article, and from an article of it NEXT and LAST move to the
    next and the previous number of the group, with the message-id of that
    article, or stay with a 421 or a 422 at its ends; none of them can fail but
    by the connection. *)
Theorem stored_group_walked root idx name numbers (s : Session W) :
  build_index find_end root = Some idx -> index = Some idx -> article_numbers_for_group idx name = Some numbers ->
  (forall command lines, args_of command lines = name -> group_name_of name = name -> is_Some (from_utf8 name) ->
     let response := write_group_response name numbers in
     handle_group config command lines s
     = respond response (with_state (with_aux s response) (select_group (Indexed name) (head numbers))))
  /\ forall i n, numbers !! i = Some n -> se_state s = at_stored name n ->
     match numbers !! S i with
     | Some m => exists entry, article_entry idx m = Some entry
         /\ handle_next config s = respond (retrieved m entry) (with_state s (at_stored name m))
     | None => handle_next config s = respond (bstr "421 no next article in this group\r\n") s
     end
     /\ match (match i with O => None | S i => numbers !! i end) with
        | Some m => exists entry, article_entry idx m = Some entry
            /\ handle_last config s = respond (retrieved m entry) (with_state s (at_stored name m))
        | None => handle_last config s = respond (bstr "422 no previous article in this group\r\n") s
        end.
Proof.
  unfold build_index. fold empty_builder. rewrite add_articles_read. destruct (read_articles _ _) as [articles|]; [|done].
  intros [= Hidx] Hi Hnum. pose proof (built_indexes _ _ (built_all find_end articles)) as Hx. rewrite Hidx in Hx.
  destruct (ix_increasing _ _ Hx _ _ Hnum) as [Hinc _].
  assert (Hentry : forall j m, numbers !! j = Some m -> is_Some (article_entry idx m)).
  { intros j m Hj. apply list_elem_of_lookup_2, list_elem_of_In in Hj.
    apply (ix_numbers _ _ Hx _ _ _ Hnum) in Hj as (entry & Hin & _). rewrite (ix_entry _ _ Hx).
    destruct (last_with_found (numbered m) _ _ Hin (Z.eqb_refl m)) as [x ->]. by eexists. }
  split.
  - intros command lines Hargs Hname [cs Hutf]. cbn zeta. unfold handle_group. rewrite Hi, Hargs.
    assert (Htrim : trim name = name) by (unfold group_name_of in Hname; by rewrite Hutf in Hname).
    unfold group_response_for_args_with_index_into. rewrite Hutf. cbn [mbind option_bind]. rewrite Htrim, Hnum, Hname.
    unfold select_named_group. by rewrite Hnum.
  - intros i n Hn Hs. pose proof (proj2 (binary_search_spec numbers n i Hinc) Hn) as Hat.
    split; apply (navigation_stored _ _ n); [done|done| | |done|done| |].
    + unfold current_group_next_article, current_group_articles.
      cbn [at_stored select_group ss_selected_group mbind option_bind selected_article_numbers].
      rewrite Hnum. cbn [mbind option_bind]. rewrite Hat. cbn [mbind option_bind]. by rewrite Nat.add_1_r.
    + apply Hentry.
    + unfold current_group_previous_article, current_group_articles.
      cbn [at_stored select_group ss_selected_group mbind option_bind selected_article_numbers].
      rewrite Hnum. cbn [mbind option_bind]. by rewrite Hat.
    + destruct i as [|i]; [done|]. apply Hentry.
Qed.
End cursor.

(** ** A store of two articles *)

#[local] Existing Instance store_files.
#[local] Existing Instance naive_memchr.

Definition sample_root : Node := Directory [(lit "7", ServerIndex.File article_7); (lit "9", ServerIndex.File article_9)].

Definition sample_index : ArticleStoreIndex :=
  default {| index_groups := []; index_articles_by_number := []; index_articles_by_message_id := [] |}
    (build_index find_streaming_terminator_end sample_root).

Lemma sample_built : build_index find_streaming_terminator_end sample_root = Some sample_index.
Proof. vm_compute. reflexivity. Qed.

Lemma sample_indexed : article_index store_config = Some sample_index.
Proof. vm_compute. reflexivity. Qed.

Lemma index_built_sound_witness :
  is_Some (article_entry sample_index 9) /\ article_numbers_for_group sample_index (lit "misc.a") = Some [7; 9].
Proof.
  assert (E : article_numbers_for_group sample_index (lit "misc.a") = Some [7; 9]) by (vm_compute; reflexivity).
  split; [|exact E].
  destruct (index_built_sound find_streaming_terminator_end sample_root sample_index sample_built) as (articles & _ & _ & H).
  apply (H (lit "misc.a") [7; 9] 9 E). right. left. reflexivity.
Defined.

Definition at_seven : Session VecSink :=
  with_state (session_new {| vs_buf := [] |} 256 sample_clock) (at_stored (lit "misc.a") 7).

Lemma stored_group_walked_witness :
  exists entry, article_entry sample_index 9 = Some entry
    /\ handle_next store_config at_seven = respond (retrieved 9 entry) (with_state at_seven (at_stored (lit "misc.a") 9)).
Proof.
  assert (E : article_numbers_for_group sample_index (lit "misc.a") = Some [7; 9]) by (vm_compute; reflexivity).
  exact (proj1 (proj2 (stored_group_walked find_streaming_terminator_end store_config sample_root sample_index (lit "misc.a") [7; 9]
    at_seven sample_built sample_indexed E) 0%nat 7 eq_refl eq_refl)).
Defined.

(** A session that selects a group, moves and asks for articles. *)
Definition sample_lines : list bytes :=
  [bstr "GROUP misc.a\r\n"; bstr "NEXT\r\n"; bstr "STAT 7\r\n"; bstr "ARTICLE 8\r\n"; bstr "HEAD <nine@x>\r\n"].

Definition sample_end : SessionState :=
  se_state (snd (serve_session find_streaming_terminator_end store_config true
    (reader_of sample_lines) (session_new {| vs_buf := [] |} 256 sample_clock))).

Lemma current_article_in_group_witness :
  cursor_ok store_config sample_end /\ sample_end = at_stored (lit "misc.a") 7.
Proof.
  split; [|vm_compute; reflexivity].
  assert (Hd : (1 <= max_pipeline_depth store_config)%nat) by (apply Nat.leb_le; vm_compute; reflexivity).
  exact (proj1 (current_article_in_group find_streaming_terminator_end store_config true (reader_of sample_lines)
    {| vs_buf := [] |} 256 sample_clock Hd)).
Defined.
